(* ===== verification/_CoqProject ===== *)
-Q . S2P
Prelude.v
Cstring.v
Locks.v
Dll.v
Bio.v
BioSpec.v
Log.v
Blockdev.v
Fs.v
Dinode.v
FsBlock.v
FsMap.v
FsRw.v
FsImage.v
FsDir.v
FsPath.v
Mkfs.v
MkfsBoot.v
Kalloc.v
Vm.v
VmSpec.v
VmUser.v
Proc.v
ProcSpec.v
ProcLife.v
ProcExit.v
Sched.v
Xem.v
XemCode.v
Rwlock.v
Pipe.v
File.v
FileSpec.v
Kworld.v
Syscall.v
Exec.v
Sysproc.v
SysprocSpec.v
Sysfile.v
SysfileSpec.v
Trap.v
KernelImage.v
Fmt.v
Ulib.v
Grep.v
Progs.v
Dump.v
Umalloc.v
Ports.v
Console.v
Kbd.v
Ide.v
Boot.v
Mp.v
Apic.v
Rtc.v
Main.v
Seg.v
Asm.v
Bootasm.v
Shell.v
ShRun.v
