(* ===== verification/Prelude.v ===== *)
(** * A verification library for the xv6 kernel of this repository

    The program is the xv6 system under src/xv6-public, extended with threads,
    CPU shares, user semaphores and reader-writer locks, triple indirect
    files, and pread and pwrite: the kernel with its drivers and its boot code,
    the user library and programs, and mkfs.  This library is a shallow
    embedding of it: each C function is a Rocq function on an explicit state,
    each assembly routine a list of instructions, and the theorems are about
    these functions.

    ** The parts of the system and the files that model them

    The layers are stacked as the C files call each other.

    - Prelude: the monad of kernel code, its rules, and the lemmas on lists,
      bytes and machine integers all files share.
    - Cstring: string.c on a flat byte memory.
    - Locks: spinlock.c and sleeplock.c on several cores, with mycpu, cpuid and
      myproc of proc.c; acquire and release are cut into the segments between
      which other cores run, and a step relation interleaves them.
    - Dll, Bio, BioSpec: bio.c.  Dll is the doubly linked ring, Bio the
      operations and the disk of memide.c, BioSpec the cache as its clients
      see it.
    - Log: log.c over the cache, with the sequence of disk writes and the
      crashes between them.
    - Blockdev: the interface between log.c and fs.c, a class of operations
      with laws, and the instance that Log provides.
    - Fs: all of fs.c, over any instance of that interface; Dinode (the inode
      record on disk), FsBlock (free map), FsMap (block map), FsRw (reading
      and writing bytes), FsDir (dirlookup and dirlink), FsPath (namei) are
      proved against the laws, and FsImage applies them to a small disk.
    - Mkfs: mkfs.c, which makes the image of the disk; MkfsBoot: the kernel
      started on such an image.
    - Kalloc, Vm, VmSpec, VmUser: kalloc.c and vm.c.  Memory is a function
      from addresses to bytes; the free list and the page tables are words in
      it.
    - Proc: the operations of proc.c on the process table; ProcSpec (the type
      of the table), ProcLife (fork, wait), ProcExit (exit), Sched (the
      scheduler and set_cpu_share), Dump (procdump).
    - Xem, XemCode, Rwlock: the semaphores and locks at the end of proc.c, the
      first as code and as a step relation of the threads that share one.
    - Pipe: the ring buffer of pipe.c.
    - File, FileSpec: file.c, and pipealloc.
    - Kworld: the state below the process table, and the instance by which
      File.v provides the operations Proc.v asks for.
    - Syscall: the argument fetchers of syscall.c.  Sysproc, SysprocSpec:
      sysproc.c and the semaphore calls.  Exec: exec.c.  Sysfile, SysfileSpec:
      sysfile.c.  Trap: the table of system calls and trap.c.
    - KernelImage: a concrete state with four processes, a pipe and a page
      table, to which the theorems on processes, files and calls are applied.
    - Fmt: printint, cprintf and printf.  Ulib: ulib.c and printf.c on the
      memory of a program, over the system calls as a class.  Umalloc:
      umalloc.c, the free list in the memory that sbrk gives.  Grep: grep.c.
      Progs: the small programs (cat, echo, init, kill, ln, ls, mkdir, rm, wc,
      zombie).  Shell: the parser of sh.c and its grammar; ShRun: runcmd and
      main of sh.c.
    - Ports: input and output ports of a device, as a class.  Console and Kbd:
      console.c, uart.c and kbd.c.  Ide: ide.c.  Rtc: cmostime of lapic.c.
      Apic: lapic.c, ioapic.c and picirq.c, whose registers are in memory.
      What a driver relies on is the laws of a class for its device, and each
      file has an instance of it.
    - Boot: bootmain.c.  Mp: mp.c.  Main: startothers, the entry of the other
      processors and entrypgdir.  Seg: the segment and gate descriptors of
      mmu.h, seginit and tvinit.
    - Asm: swtch.S, trapasm.S, vectors.pl, usys.S, initcode.S and entry.S on a
      processor with its registers; Bootasm: bootasm.S and asm.h.

    ** How code is represented

    A function that works on a state [S] and returns [A] is in [M S A]: it
    returns a value and a state ([Ok]), goes to sleep on a channel ([Sleep]),
    calls panic() ([Panic]), or does something C leaves undefined ([Undef]).
    A loop that the data does not bound takes fuel, and running out of it is
    an [Undef]; the theorems that say a function returns show that the fuel
    they give it is enough.  [wp] is total correctness (the run returns),
    [safe] is partial correctness with an invariant for the points where the
    run sleeps.  Pointers into tables are indices, NULL is [None], and an
    integer of w bits is a [Z] with its wrap-around ([u32], [s32], [s16])
    written where the C has it.

    Above Locks.v a spin lock is a flag: kernel code that holds one runs with
    interrupts off, and Locks.v shows that it has one owner.  A process that
    goes off the processor in the middle of a function is modelled by an
    argument: [swtch] in Proc.v (the rest of the machine, from the switch to
    the scheduler until the process runs again), [rest] in Pipe.v, [run] for
    the scheduler.  The theorems state what they assume of it.  That a switch
    away and back returns from the call with the registers of the caller is
    shown for the instructions of swtch.S in Asm.v.  A wakeup issued by a layer
    below the process table is recorded in the state of that layer.  User
    memory is accessed through the page table of the process; a system call
    loads a user buffer before a write and stores it after a read.

    Assembly is cut at its jumps into blocks of instructions; the addresses the
    linker gives them are arguments.  A C function that it calls is what the
    calling convention says.

    ** What the theorems show

    - The disk: after a crash at any point of a commit the next boot finds all
      of a transaction or nothing, also if recovery is interrupted; bread,
      bwrite and brelse keep the cache coherent with the disk; the driver of
      ide.c completes the requests in order, with the effect of memide.c.
    - Files: bmap maps the blocks of a file injectively, writei and readi
      are inverse to each other and touch nothing else, the inode on disk
      round-trips; dirlink adds one name and namei finds what a path names;
      mkfs writes a well formed image, whose files the kernel reads back; and
      defects of the extended code (the index of triple indirect blocks,
      reading holes, losing blocks of holes, over-reserving the log).
    - Memory: the allocator hands out a page once; allocuvm, copyuvm and
      copyout do to the user's memory exactly what they should, or undo their
      work.
    - Locks: mutual exclusion, and no lost wakeup for sleep locks.
    - Processes: the table keeps its type under every call; fork copies its
      caller, exit leaves a zombie, wait reaps it; the scheduler is fair and
      ignores the CPU shares; shares are bounded; a stale main_thread field
      lets wait destroy a live process; procdump lists the slots in use.
    - The processor: a trap hands trap() the registers of the interrupted code
      and gives them back; swtch resumes what it saved; the stack made by fork
      lets the child go on like its parent with 0 as the result; the segments
      are flat and the gates lead to the entry points.
    - Semaphores and reader-writer locks: within one process xem refines a
      counting semaphore and the rwlock excludes; between processes a foreign
      wakeup passes.
    - Pipes refine a bounded queue, and a long write is delivered; the file
      table and the descriptors agree on reference counts; pread and pwrite
      are reads and writes at another offset.
    - System calls: the argument checks are exact, sleep returns in time,
      exec is all or nothing.
    - Devices: the console is a line-oriented terminal; the keys of a line are
      what the next read returns; interrupts are routed to the processors they
      were enabled for; a date read from the clock is one that it showed.
    - Start: bootasm.S enables A20 and protection, bootmain loads the segments
      of the kernel, entry.S turns on paging, mpinit records the processors
      that the firmware names, startothers starts each on a stack of its own.
    - Programs: printf and atoi are inverse; malloc and free keep the blocks in
      use disjoint; grep prints the matching lines; cat, wc and echo print what
      they should; the shell accepts exactly its grammar, and runcmd connects
      the programs as the line says.

    ** Bounds

    NPROC (64), NOFILE (16), NFILE (100), NBUF and LOGSIZE (30), PIPESIZE
    (512), SIZE (9991) and the other sizes are those of param.h and the
    sources.  FsRw bounds what one transaction can hold by the free slots of
    the log.  XemCode and Xem require at most SIZE waiting threads, the size of the
    array of channels.  The fuel of readi and writei is the number of bytes,
    that of the page table loops the number of pages, that of the calls that
    sleep the number of sleeps.  The fuel of a loop that waits for a device is
    more than the number of readings after which, by the laws of its class, the
    device is ready; that of a loop over a string or over input more than its
    length; that of malloc more than twice the number of free blocks; that
    of cmostime is given by the time from which the clock is quiet.

    ** Not modelled

    kernel.ld is an input of the linker; the addresses it fixes, and those of
    the entry points, are arguments.  main() of main.c is the sequence of the
    initialisations, which are modelled one by one with the components they
    initialise, whose states have no common type here.  The messages that trap()
    and exec print are left out, as is pinit, which only names a lock.  What
    bootasm.S does if bootmain returns is for an emulator.  The test programs
    (usertests.c, forktest.c, stressfs.c, and those named test) only exercise the
    kernel and promise nothing of their own.  Caches, the memory order of the
    processor and the timing of devices are not part of the model. *)

From Stdlib Require Import ZArith Lia Bool.
From stdpp Require Import base option list sets gmap strings numbers.

#[local] Open Scope Z_scope.

(** ** Outcomes of kernel code *)

(** The channels on which kernel code sleeps: the address passed to sleep()
    in the source, named by the object it is the address of. *)
Inductive chan : Type :=
  | ChNone
  | ChProc (i : nat)
  | ChTicks
  | ChLog
  | ChBuf (i : nat)
  | ChBufLock (i : nat)
  | ChInodeLock (i : nat)
  | ChPipeRead (a : Z)
  | ChPipeWrite (a : Z)
  | ChInput
  | ChUser (va : Z).

#[export] Instance chan_eq_dec : EqDecision chan.
Proof. solve_decision. Defined.

(** A run of kernel code up to its return, its panic(), or its sleep().
    [Undef] is behaviour the C standard leaves undefined or a processor
    exception in kernel mode (null dereference, index out of bounds,
    division by zero). *)
Inductive outcome (S A : Type) : Type :=
  | Ok (a : A) (s : S)
  | Sleep (c : chan) (s : S)
  | Panic (msg : string)
  | Undef (why : string).

Arguments Ok {S A} a s.
Arguments Sleep {S A} c s.
Arguments Panic {S A} msg.
Arguments Undef {S A} why.

Definition M (S A : Type) : Type := S → outcome S A.

#[export] Instance M_ret S : MRet (M S) := λ A a s, Ok a s.
#[export] Instance M_bind S : MBind (M S) := λ A B k m s,
  match m s with
  | Ok a s' => k a s'
  | Sleep c s' => Sleep c s'
  | Panic msg => Panic msg
  | Undef why => Undef why
  end.

Definition mget {S} : M S S := λ s, Ok s s.
Definition gets {S A} (f : S → A) : M S A := λ s, Ok (f s) s.
Definition modify {S} (f : S → S) : M S unit := λ s, Ok tt (f s).
Definition panic {S A} (msg : string) : M S A := λ _, Panic msg.
Definition undef {S A} (why : string) : M S A := λ _, Undef why.
Definition sleep_on {S A} (c : chan) : M S A := λ s, Sleep c s.
Definition when {S} (b : bool) (m : M S unit) : M S unit :=
  if b then m else mret tt.

(** [zoom get set m] runs [m] on a part of the state. *)
Definition zoom {S T A} (get : S → T) (set : T → S → S) (m : M T A) : M S A :=
  λ s, match m (get s) with
       | Ok a t => Ok a (set t s)
       | Sleep c t => Sleep c (set t s)
       | Panic msg => Panic msg
       | Undef why => Undef why
       end.

(** A [for] loop over a list whose body has no early exit. *)
Fixpoint foreach {S A} (l : list A) (body : A → M S unit) : M S unit :=
  match l with
  | [] => mret tt
  | x :: l => body x;; foreach l body
  end.

(** Total correctness: the run returns, and the result satisfies [Q]. *)
Definition wp {S A} (m : M S A) (Q : A → S → Prop) (s : S) : Prop :=
  match m s with
  | Ok a s' => Q a s'
  | _ => False
  end.

(** ** Machine integers *)

Definition u8 (x : Z) : Z := x mod 2^8.
Definition u16 (x : Z) : Z := x mod 2^16.
Definition u32 (x : Z) : Z := x mod 2^32.
Definition s16 (x : Z) : Z := (x + 2^15) mod 2^16 - 2^15.
Definition s32 (x : Z) : Z := (x + 2^31) mod 2^32 - 2^31.

(** Little-endian encodings, as the i386 stores a ushort and a uint. *)
Definition le16 (v : Z) : list Z := [v mod 256; (v / 256) mod 256].
Definition le32 (v : Z) : list Z :=
  [v mod 256; (v / 256) mod 256; (v / 65536) mod 256; (v / 16777216) mod 256].

(** ** Byte arrays indexed by Z *)

Definition bget0 (l : list Z) (i : Z) : Z := default 0 (l !! Z.to_nat i).

(** [splice l off bs] overwrites [length bs] entries of [l] from [off] on. *)
Definition splice {A} (l : list A) (off : nat) (bs : list A) : list A :=
  take off l ++ bs ++ drop (off + length bs) l.

Definition slice {A} (l : list A) (off n : nat) : list A := take n (drop off l).

Definition get16 (l : list Z) (off : Z) : Z :=
  bget0 l off + 256 * bget0 l (off + 1).
Definition get32 (l : list Z) (off : Z) : Z :=
  bget0 l off + 256 * bget0 l (off + 1) + 65536 * bget0 l (off + 2)
  + 16777216 * bget0 l (off + 3).
Definition put16 (l : list Z) (off v : Z) : list Z := splice l (Z.to_nat off) (le16 v).
Definition put32 (l : list Z) (off v : Z) : list Z := splice l (Z.to_nat off) (le32 v).

Definition is_byte (b : Z) : Prop := 0 ≤ b < 256.

(** ** Rules for [wp] *)

Lemma wp_ret {S A} (a : A) Q (s : S) : Q a s → wp (mret a) Q s.
Proof. done. Qed.

Lemma wp_bind {S A B} (m : M S A) (k : A → M S B) Q s :
  wp m (λ a, wp (k a) Q) s → wp (m ≫= k) Q s.
Proof. unfold wp, mbind, M_bind. by destruct (m s). Qed.

Lemma wp_get {S} Q (s : S) : Q s s → wp mget Q s.
Proof. done. Qed.

Lemma wp_gets {S A} (f : S → A) Q s : Q (f s) s → wp (gets f) Q s.
Proof. done. Qed.

Lemma wp_modify {S} (f : S → S) Q s : Q tt (f s) → wp (modify f) Q s.
Proof. done. Qed.

Lemma wp_mono {S A} (m : M S A) (P Q : A → S → Prop) s :
  wp m P s → (∀ a s', P a s' → Q a s') → wp m Q s.
Proof. unfold wp. destruct (m s); naive_solver. Qed.

Lemma wp_ok {S A} (m : M S A) Q s a s' : m s = Ok a s' → Q a s' → wp m Q s.
Proof. unfold wp. by intros ->. Qed.

Lemma wp_eq {S A} (m m' : M S A) Q s : m s = m' s → wp m' Q s → wp m Q s.
Proof. unfold wp. by intros ->. Qed.

Lemma wp_elim {S A} (m : M S A) Q s :
  wp m Q s → ∃ a s', m s = Ok a s' ∧ Q a s'.
Proof. unfold wp. destruct (m s); naive_solver. Qed.

Lemma wp_exact {S A} (m : M S A) (a : A) (Q : S → Prop) s :
  wp m (λ b s', b = a ∧ Q s') s → ∃ s', m s = Ok a s' ∧ Q s'.
Proof. intros (b & s' & Hm & -> & ?)%wp_elim. eauto. Qed.

Lemma bind_ok {S A B} (m : M S A) (k : A → M S B) s a s' :
  m s = Ok a s' → (m ≫= k) s = k a s'.
Proof. unfold mbind, M_bind. by intros ->. Qed.

Lemma bind_inv {S A B} (m : M S A) (k : A → M S B) s b s' :
  (m ≫= k) s = Ok b s' → ∃ a s1, m s = Ok a s1 ∧ k a s1 = Ok b s'.
Proof. unfold mbind, M_bind. destruct (m s); naive_solver. Qed.

Lemma zoom_wp {S T A} (get : S → T) set (m : M T A) Q (s : S) :
  wp m (λ a t, Q a (set t s)) (get s) → wp (zoom get set m) Q s.
Proof. unfold wp, zoom. by destruct (m (get s)). Qed.

Lemma wp_when {S} (b : bool) (m : M S unit) Q s :
  (b = true → wp m Q s) → (b = false → Q tt s) → wp (when b m) Q s.
Proof. destruct b; [intros H _; by apply H | intros _ H; by apply H]. Qed.

(** Symbolic execution of the primitives of the monad. *)
Ltac wp_step :=
  lazymatch goal with
  | |- wp (mbind _ _) _ _ => apply wp_bind
  | |- wp (mret _) _ _ => apply wp_ret
  | |- wp mget _ _ => apply wp_get
  | |- wp (gets _) _ _ => apply wp_gets
  | |- wp (modify _) _ _ => apply wp_modify
  end; cbv beta.
Ltac wp_steps := repeat wp_step.

(** Partial correctness for code that may sleep or stop: [Q] holds if the run
    returns, and [I] if it sleeps. *)
Definition safe {S A} (I : S → Prop) (m : M S A) (Q : A → S → Prop) (s : S) : Prop :=
  match m s with
  | Ok a s' => Q a s'
  | Sleep _ s' => I s'
  | Panic _ | Undef _ => True
  end.

Lemma safe_ret {S A} I (a : A) Q (s : S) : Q a s → safe I (mret a) Q s.
Proof. done. Qed.
Lemma safe_bind {S A B} I (m : M S A) (k : A → M S B) Q s :
  safe I m (λ a, safe I (k a) Q) s → safe I (m ≫= k) Q s.
Proof. unfold safe, mbind, M_bind. by destruct (m s). Qed.
Lemma safe_gets {S A} I (f : S → A) Q s : Q (f s) s → safe I (gets f) Q s.
Proof. done. Qed.
Lemma safe_modify {S} I (f : S → S) Q s : Q tt (f s) → safe I (modify f) Q s.
Proof. done. Qed.
Lemma safe_panic {S A} I msg Q (s : S) : safe I (panic (A := A) msg) Q s.
Proof. done. Qed.
Lemma safe_undef {S A} I msg Q (s : S) : safe I (undef (A := A) msg) Q s.
Proof. done. Qed.
Lemma safe_mono {S A} I (m : M S A) (P Q : A → S → Prop) s :
  safe I m P s → (∀ a s', P a s' → Q a s') → safe I m Q s.
Proof. unfold safe. destruct (m s); naive_solver. Qed.
Lemma safe_when {S} I (b : bool) (m : M S unit) Q s :
  (b = true → safe I m Q s) → (b = false → Q tt s) → safe I (when b m) Q s.
Proof. destruct b; [intros H _; by apply H | intros _ H; by apply H]. Qed.
Lemma safe_zoom {S T A} I (get : S → T) set (m : M T A) Q (s : S) :
  (∀ a t, Q a (set t s)) → (∀ t, I (set t s)) → safe I (zoom get set m) Q s.
Proof. unfold safe, zoom. destruct (m (get s)); auto. Qed.

(** A loop whose body keeps [J]. *)
Lemma safe_foreach {S A} I (J : S → Prop) (l : list A) (body : A → M S unit) Q s :
  J s → (∀ x t, x ∈ l → J t → safe I (body x) (λ _, J) t) → (∀ t, J t → Q tt t) →
  safe I (foreach l body) Q s.
Proof.
  revert s. induction l as [|x l IH]; intros s HJ Hb HQ; simpl; [by apply safe_ret, HQ|].
  apply safe_bind. eapply safe_mono; [apply Hb; [left | done]|].
  intros [] t Ht. apply IH; [done | | done]. intros y u Hy. apply Hb. by right.
Qed.

(** The run goes to sleep, in a state that satisfies [Q]. *)
Definition sleeps {S A} (m : M S A) (Q : chan → S → Prop) (s : S) : Prop :=
  match m s with
  | Sleep c s' => Q c s'
  | _ => False
  end.

Lemma sleeps_bind {S A B} (m : M S A) (k : A → M S B) Q s :
  wp m (λ a, sleeps (k a) Q) s → sleeps (m ≫= k) Q s.
Proof. unfold wp, sleeps, mbind, M_bind. by destruct (m s). Qed.

Lemma sleeps_first {S A B} (m : M S A) (k : A → M S B) Q s : sleeps m Q s → sleeps (m ≫= k) Q s.
Proof. unfold sleeps, mbind, M_bind. by destruct (m s). Qed.

Lemma sleeps_elim {S A} (m : M S A) Q s : sleeps m Q s → ∃ c t, m s = Sleep c t ∧ Q c t.
Proof. unfold sleeps. destruct (m s); naive_solver. Qed.
Lemma sleeps_exact {S A} (m : M S A) c (Q : S → Prop) s :
  sleeps m (λ d s', d = c ∧ Q s') s → ∃ s', m s = Sleep c s' ∧ Q s'.
Proof. intros (d & s' & Hm & -> & ?)%sleeps_elim. eauto. Qed.

(** Symbolic execution of the primitives of the monad under [safe]. *)
Ltac safe_step :=
  lazymatch goal with
  | |- safe _ (mbind _ _) _ _ => apply safe_bind
  | |- safe _ (mret _) _ _ => apply safe_ret
  | |- safe _ (gets _) _ _ => apply safe_gets
  | |- safe _ (modify _) _ _ => apply safe_modify
  | |- safe _ (panic _) _ _ => apply safe_panic
  | |- safe _ (undef _) _ _ => apply safe_undef
  end; cbv beta.
Ltac safe_steps := repeat safe_step.

(** [r] with the field [proj] replaced by [v]; [eta] rebuilds a record of the
    type from its fields. *)
Ltac with_field eta r proj v :=
  let t := eval red in (eta r) in
  lazymatch eval pattern (proj r) in t with
  | ?f _ => let t' := eval cbv beta in (f v) in exact t'
  end.

(** lia with the equations of the divisions and remainders in sight. *)
Ltac divmod_lia := Z.div_mod_to_equations; lia.

(** The loop rule: [I] relates the elements already visited to the state. *)
Lemma wp_foreach {S A} (I : list A → S → Prop) (l : list A) (body : A → M S unit) Q s :
  I [] s →
  (∀ l1 x l2 t, l = l1 ++ x :: l2 → I l1 t → wp (body x) (λ _, I (l1 ++ [x])) t) →
  (∀ t, I l t → Q tt t) → wp (foreach l body) Q s.
Proof.
  intros H0 Hstep HQ.
  assert (∀ l2 l1 t, l = l1 ++ l2 → I l1 t → wp (foreach l2 body) Q t) as Hgen.
  { intros l2. induction l2 as [|x l2 IH]; intros l1 t Hl HI; simpl.
    - apply wp_ret, HQ. by rewrite Hl, app_nil_r.
    - apply wp_bind. eapply wp_mono; [by apply (Hstep l1 x l2)|]. intros [] t' HI'. simpl.
      apply (IH (l1 ++ [x])); [by rewrite <- app_assoc | done]. }
  by apply (Hgen l []).
Qed.

Lemma foreach_app {S A} (l1 l2 : list A) (body : A → M S unit) s :
  foreach (l1 ++ l2) body s = (foreach l1 body;; foreach l2 body) s.
Proof.
  revert s. induction l1 as [|x l1 IH]; intros s; [done|]. simpl. unfold mbind, M_bind in *.
  destruct (body x s); done || apply IH.
Qed.

Lemma wp_foreach_app {S A} (l1 l2 : list A) (body : A → M S unit) Q s :
  wp (foreach l1 body) (λ _, wp (foreach l2 body) Q) s → wp (foreach (l1 ++ l2) body) Q s.
Proof. intros H. unfold wp. rewrite foreach_app. by apply wp_bind. Qed.

(** ** Reading what was written *)

Lemma length_splice {A} (l : list A) off bs :
  (off + length bs ≤ length l)%nat → length (splice l off bs) = length l.
Proof. intros. unfold splice. rewrite !length_app, length_take, length_drop. lia. Qed.

Lemma lookup_splice {A} (l : list A) off bs i :
  (off + length bs ≤ length l)%nat →
  splice l off bs !! i =
    if decide (off ≤ i < off + length bs)%nat then bs !! (i - off)%nat else l !! i.
Proof.
  intros Hl. unfold splice. case_decide as Hi.
  - rewrite lookup_app_r by (rewrite length_take; lia).
    rewrite lookup_app_l by (rewrite length_take; lia). f_equal. rewrite length_take. lia.
  - destruct (decide (i < off)%nat).
    + rewrite lookup_app_l by (rewrite length_take; lia). by rewrite lookup_take_lt by lia.
    + rewrite lookup_app_r by (rewrite length_take; lia).
      rewrite lookup_app_r by (rewrite length_take; lia).
      rewrite lookup_drop. f_equal. rewrite length_take. lia.
Qed.

Lemma length_put32 l off v : 0 ≤ off → off + 4 ≤ Z.of_nat (length l) →
  length (put32 l off v) = length l.
Proof. intros. apply length_splice. simpl. lia. Qed.

Lemma length_put16 l off v : 0 ≤ off → off + 2 ≤ Z.of_nat (length l) →
  length (put16 l off v) = length l.
Proof. intros. apply length_splice. simpl. lia. Qed.

Lemma u8_u8 v : u8 (u8 v) = u8 v.
Proof. apply Z.mod_mod. lia. Qed.

(** A word put together from two fields. *)
Lemma lor_shiftl a n b : 0 ≤ n → 0 ≤ b < 2 ^ n → Z.lor (Z.shiftl a n) b = a * 2 ^ n + b.
Proof.
  intros Hn Hb. rewrite <- (Z.shiftl_mul_pow2 _ _ Hn). symmetry. rewrite <- Z.lxor_lor.
  1: apply Z.add_nocarry_lxor.
  all: apply Z.bits_inj'; intros i Hi; rewrite Z.land_spec, Z.bits_0; destruct (Z.ltb_spec i n) as [H|H];
    [by rewrite Z.shiftl_spec_low by lia|].
  all: rewrite <- (Z.mod_small b (2 ^ n)), Z.mod_pow2_bits_high by lia; apply andb_false_r.
Qed.

Lemma bget0_splice l off bs i : 0 ≤ off → 0 ≤ i → off + Z.of_nat (length bs) ≤ Z.of_nat (length l) →
  bget0 (splice l (Z.to_nat off) bs) i =
    if decide (off ≤ i < off + Z.of_nat (length bs)) then bget0 bs (i - off) else bget0 l i.
Proof.
  intros. unfold bget0. rewrite lookup_splice by lia.
  repeat case_decide; try lia; try done. do 2 f_equal. lia.
Qed.

Lemma bget0_insert (d : list Z) i v j : 0 ≤ i < Z.of_nat (length d) → 0 ≤ j →
  bget0 (<[Z.to_nat i := v]> d) j = if decide (j = i) then v else bget0 d j.
Proof.
  intros Hi Hj. unfold bget0. case_decide as E.
  - subst. rewrite list_lookup_insert_eq; [done|lia].
  - rewrite list_lookup_insert_ne; [done|lia].
Qed.

Lemma le32_bytes v : bget0 (le32 v) 0 + 256 * bget0 (le32 v) 1 + 65536 * bget0 (le32 v) 2
  + 16777216 * bget0 (le32 v) 3 = u32 v.
Proof. unfold bget0, le32, u32. simpl. change (2 ^ 32) with 4294967296. divmod_lia. Qed.

Lemma le16_bytes v : bget0 (le16 v) 0 + 256 * bget0 (le16 v) 1 = u16 v.
Proof. unfold bget0, le16, u16. simpl. change (2 ^ 16) with 65536. divmod_lia. Qed.

Lemma get32_put32 l off v : 0 ≤ off → off + 4 ≤ Z.of_nat (length l) →
  get32 (put32 l off v) off = u32 v.
Proof.
  intros. unfold get32, put32. rewrite !bget0_splice by (simpl; lia).
  repeat (rewrite decide_True by (simpl; lia)).
  replace (off - off) with 0 by lia. replace (off + 1 - off) with 1 by lia.
  replace (off + 2 - off) with 2 by lia. replace (off + 3 - off) with 3 by lia. apply le32_bytes.
Qed.

Lemma get32_put32_ne l off off' v : 0 ≤ off → off + 4 ≤ Z.of_nat (length l) → 0 ≤ off' →
  off' + 4 ≤ off ∨ off + 4 ≤ off' → get32 (put32 l off v) off' = get32 l off'.
Proof.
  intros. unfold get32, put32. rewrite !bget0_splice by (simpl; lia).
  repeat (rewrite decide_False by (simpl; lia)). done.
Qed.

Lemma get16_put16 l off v : 0 ≤ off → off + 2 ≤ Z.of_nat (length l) →
  get16 (put16 l off v) off = u16 v.
Proof.
  intros. unfold get16, put16. rewrite !bget0_splice by (simpl; lia).
  repeat (rewrite decide_True by (simpl; lia)).
  replace (off - off) with 0 by lia. replace (off + 1 - off) with 1 by lia. apply le16_bytes.
Qed.

Lemma u32_id x : 0 ≤ x < 2 ^ 32 → u32 x = x.
Proof. apply Z.mod_small. Qed.

Lemma s32_id x : - 2 ^ 31 ≤ x < 2 ^ 31 → s32 x = x.
Proof. intros. unfold s32. rewrite Z.mod_small by lia. lia. Qed.

Lemma u32_range x : 0 ≤ u32 x < 2 ^ 32.
Proof. unfold u32. apply Z.mod_pos_bound. lia. Qed.

Lemma u32_s32 x : u32 (s32 x) = u32 x.
Proof. unfold u32, s32. change (2 ^ 32) with 4294967296. change (2 ^ 31) with 2147483648. divmod_lia. Qed.

Lemma filter_all {A} (P : A → Prop) `{∀ x, Decision (P x)} (l : list A) :
  (∀ x, x ∈ l → P x) → filter P l = l.
Proof.
  induction l as [|x l IH]; intros H'; [done|]. rewrite filter_cons, decide_True by set_solver.
  f_equal. apply IH. set_solver.
Qed.

Lemma filter_none {A} (P : A → Prop) `{∀ x, Decision (P x)} (l : list A) :
  (∀ x, x ∈ l → ¬ P x) → filter P l = [].
Proof.
  induction l as [|x l IH]; intros H'; [done|]. rewrite filter_cons, decide_False by set_solver.
  apply IH. set_solver.
Qed.
