(* ===== verification/Cstring.v ===== *)
(** * Cstring: the byte and string routines of string.c

    Memory is a function from addresses to bytes; a routine that writes takes
    the memory and returns the updated one, a routine that only reads takes
    its pointer arguments as the byte sequences they point at ([p i] is the
    byte at [p + i]).  [stosb] and [stosl] are the "rep stos" instructions of
    x86.h that memset uses.

    Shown: memset fills exactly the n bytes at dst whichever of its two loops
    runs; memmove copies the bytes the source held before the call for every
    overlap of the two ranges; strncmp is 0 exactly on strings that agree up
    to their end or to n; safestrcpy leaves a terminated prefix. *)

From Stdlib Require Import ZArith Lia Bool.
From stdpp Require Import base option list numbers.
From S2P Require Import Prelude.

#[local] Open Scope Z_scope.

Definition mem : Type := Z → Z.

Definition store8 (m : mem) (a v : Z) : mem := λ x, if x =? a then u8 v else m x.
Definition store32 (m : mem) (a v : Z) : mem :=
  store8 (store8 (store8 (store8 m a v) (a + 1) (v / 256)) (a + 2) (v / 65536))
         (a + 3) (v / 16777216).
Definition load32 (m : mem) (a : Z) : Z :=
  m a + 256 * m (a + 1) + 65536 * m (a + 2) + 16777216 * m (a + 3).

(** The bytes a pointer into a byte array points at; past its end there are
    zero bytes, so a list without zeroes is a terminated string. *)
Definition cstr (l : list Z) : Z → Z := λ i, if i <? 0 then 0 else bget0 l i.

(** rep stosb and rep stosl. *)
Fixpoint stosb (m : mem) (addr data : Z) (cnt : nat) : mem :=
  match cnt with
  | O => m
  | S cnt => stosb (store8 m addr data) (addr + 1) data cnt
  end.

Fixpoint stosl (m : mem) (addr data : Z) (cnt : nat) : mem :=
  match cnt with
  | O => m
  | S cnt => stosl (store32 m addr data) (addr + 4) data cnt
  end.

Definition memset (m : mem) (dst c n : Z) : mem :=
  if (Z.rem (s32 dst) 4 =? 0) && (n mod 4 =? 0) then
    let c := Z.land c 255 in
    let data := u32 (Z.lor (Z.lor (Z.lor (Z.shiftl c 24) (Z.shiftl c 16)) (Z.shiftl c 8)) c) in
    stosl m dst data (Z.to_nat (n / 4))
  else stosb m dst c (Z.to_nat n).

Fixpoint memcmp_loop (s1 s2 : Z → Z) (i : Z) (n : nat) : Z :=
  match n with
  | O => 0
  | S n => if negb (s1 i =? s2 i) then s1 i - s2 i else memcmp_loop s1 s2 (i + 1) n
  end.

Definition memcmp (v1 v2 : Z → Z) (n : Z) : Z := memcmp_loop v1 v2 0 (Z.to_nat n).

(** The two loops of memmove: ["*--d = *--s"] and ["*d++ = *s++"]. *)
Fixpoint copy_down (m : mem) (d s : Z) (n : nat) : mem :=
  match n with
  | O => m
  | S n => copy_down (store8 m (d - 1) (m (s - 1))) (d - 1) (s - 1) n
  end.

Fixpoint copy_up (m : mem) (d s : Z) (n : nat) : mem :=
  match n with
  | O => m
  | S n => copy_up (store8 m d (m s)) (d + 1) (s + 1) n
  end.

Definition memmove (m : mem) (dst src n : Z) : mem :=
  if (src <? dst) && (dst <? src + n)
  then copy_down m (dst + n) (src + n) (Z.to_nat n)
  else copy_up m dst src (Z.to_nat n).

Definition memcpy (m : mem) (dst src n : Z) : mem := memmove m dst src n.

Fixpoint strncmp_loop (p q : Z → Z) (i : Z) (n : nat) : Z :=
  match n with
  | O => 0
  | S n' => if negb (p i =? 0) && (p i =? q i) then strncmp_loop p q (i + 1) n'
            else u8 (p i) - u8 (q i)
  end.

Definition strncmp (p q : Z → Z) (n : Z) : Z := strncmp_loop p q 0 (Z.to_nat n).

(** strncpy's second loop, then its first; [n] is the number of iterations
    ["n-- > 0"] still allows. *)
Fixpoint zero_fill (m : mem) (s : Z) (n : nat) : mem :=
  match n with
  | O => m
  | S n => zero_fill (store8 m s 0) (s + 1) n
  end.

Fixpoint strncpy_loop (m : mem) (s t : Z) (n : nat) : mem :=
  match n with
  | O => m
  | S n =>
      let c := m t in
      let m' := store8 m s c in
      if c =? 0 then zero_fill m' (s + 1) n else strncpy_loop m' (s + 1) (t + 1) n
  end.

Definition strncpy (m : mem) (s t n : Z) : mem := strncpy_loop m s t (Z.to_nat n).

(** The loop of safestrcpy; [n] is the number of iterations ["--n > 0"]
    still allows, and the last store is ["*s = 0"]. *)
Fixpoint safestrcpy_loop (m : mem) (s t : Z) (n : nat) : mem :=
  match n with
  | O => store8 m s 0
  | S n =>
      let c := m t in
      let m' := store8 m s c in
      if c =? 0 then store8 m' (s + 1) 0 else safestrcpy_loop m' (s + 1) (t + 1) n
  end.

Definition safestrcpy (m : mem) (s t n : Z) : mem :=
  if n <=? 0 then m else safestrcpy_loop m s t (Z.to_nat (n - 1)).

(** strlen; the fuel bounds the length of the strings it is run on. *)
Fixpoint strlen_loop (s : Z → Z) (n : Z) (fuel : nat) : option Z :=
  match fuel with
  | O => None
  | S fuel => if s n =? 0 then Some n else strlen_loop s (n + 1) fuel
  end.

Definition strlen (s : Z → Z) (fuel : nat) : option Z := strlen_loop s 0 fuel.

(** ** Well-formed memories and the loops *)

Definition wf_mem (m : mem) : Prop := ∀ x, is_byte (m x).

Lemma u8_byte v : is_byte (u8 v).
Proof. unfold is_byte, u8. apply Z.mod_pos_bound. lia. Qed.

Lemma u8_id v : is_byte v → u8 v = v.
Proof. unfold is_byte, u8. intros. by rewrite Z.mod_small. Qed.

Lemma wf_store8 m a v : wf_mem m → wf_mem (store8 m a v).
Proof.
  intros Hm x. unfold store8. case_match; [apply u8_byte | apply Hm].
Qed.

Lemma store8_ne m a v x : x ≠ a → store8 m a v x = m x.
Proof. unfold store8. intros. by rewrite (proj2 (Z.eqb_neq x a)). Qed.

Lemma store8_eq m a v : store8 m a v a = u8 v.
Proof. unfold store8. by rewrite Z.eqb_refl. Qed.

Ltac in_range :=
  repeat match goal with
         | |- context [?a <=? ?b] => destruct (Z.leb_spec a b)
         | |- context [?a <? ?b] => destruct (Z.ltb_spec a b)
         | |- context [?a =? ?b] => destruct (Z.eqb_spec a b)
         end; cbn [andb]; try lia.

(** The range test ["a <= x && x < a + n"] as a boolean. *)
Definition within (a n x : Z) : bool := (a <=? x) && (x <? a + n).

Lemma stosb_spec m addr data n x :
  stosb m addr data n x = if within addr (Z.of_nat n) x then u8 data else m x.
Proof.
  revert m addr. induction n as [|n IH]; intros m addr; simpl.
  { unfold within. in_range; done. }
  rewrite IH. unfold within, store8. in_range; done.
Qed.

Lemma store32_spec m a v x :
  store32 m a v x =
    if x =? a then u8 v else if x =? a + 1 then u8 (v / 256)
    else if x =? a + 2 then u8 (v / 65536)
    else if x =? a + 3 then u8 (v / 16777216) else m x.
Proof. unfold store32, store8. in_range; done. Qed.

(** A word whose four bytes are equal fills like a byte. *)
Lemma stosl_spec m addr data c n x :
  u8 data = c → u8 (data / 256) = c → u8 (data / 65536) = c →
  u8 (data / 16777216) = c →
  stosl m addr data n x = if within addr (4 * Z.of_nat n) x then c else m x.
Proof.
  intros H0 H1 H2 H3. revert m addr. induction n as [|n IH]; intros m addr; simpl.
  { unfold within. in_range; done. }
  rewrite IH, store32_spec, H0, H1, H2, H3. unfold within. in_range; done.
Qed.

Definition replicate_byte (c : Z) : Z :=
  u32 (Z.lor (Z.lor (Z.lor (Z.shiftl c 24) (Z.shiftl c 16)) (Z.shiftl c 8)) c).

(** Checked for each of the 256 byte values. *)
Lemma replicated_byte c :
  is_byte c →
  u8 (replicate_byte c) = c ∧ u8 (replicate_byte c / 256) = c ∧
  u8 (replicate_byte c / 65536) = c ∧ u8 (replicate_byte c / 16777216) = c.
Proof.
  intros Hc.
  assert (forallb (λ c, let data := replicate_byte c in
    (u8 data =? c) && (u8 (data / 256) =? c) && (u8 (data / 65536) =? c)
    && (u8 (data / 16777216) =? c)) (seqZ 0 256) = true) as Hall by (vm_compute; done).
  rewrite forallb_forall in Hall. specialize (Hall c).
  rewrite !andb_true_iff, !Z.eqb_eq in Hall. destruct Hall as [[[? ?] ?] ?]; [|done].
  apply list_elem_of_In, elem_of_seqZ. unfold is_byte in Hc. lia.
Qed.

Lemma land_255 c : Z.land c 255 = u8 c.
Proof. unfold u8. change 255 with (Z.ones 8). by rewrite Z.land_ones. Qed.

Lemma memset_within m dst c n x :
  0 ≤ n → memset m dst c n x = if within dst n x then u8 c else m x.
Proof.
  intros Hn. unfold memset. destruct (_ && _) eqn:E.
  - apply andb_prop in E as [_ E%Z.eqb_eq].
    rewrite land_255. destruct (replicated_byte (u8 c) (u8_byte c)) as (H0 & H1 & H2 & H3).
    rewrite (stosl_spec _ _ _ (u8 c)) by done.
    pose proof (Z.div_mod n 4 ltac:(lia)). pose proof (Z.div_pos n 4 Hn ltac:(lia)).
    replace (4 * Z.of_nat (Z.to_nat (n / 4))) with n by lia. done.
  - rewrite stosb_spec. by rewrite Z2Nat.id.
Qed.

(** The upward loop reads each source byte before overwriting it, because it
    writes below the bytes it has still to read. *)
Lemma copy_up_spec m d s n x :
  wf_mem m → d ≤ s ∨ s + Z.of_nat n ≤ d →
  copy_up m d s n x = if within d (Z.of_nat n) x then m (s + (x - d)) else m x.
Proof.
  revert m d s. induction n as [|n IH]; intros m d s Hm Hov; simpl.
  { unfold within. in_range; done. }
  rewrite IH by (eauto using wf_store8; lia).
  assert (u8 (m s) = m s) by (apply u8_id, Hm).
  unfold within, store8. in_range; try done.
  all: try (f_equal; lia).
  all: replace (s + (x - d)) with s by lia; done.
Qed.

Lemma copy_down_spec m d s n x :
  wf_mem m → s ≤ d →
  copy_down m d s n x =
    if within (d - Z.of_nat n) (Z.of_nat n) x then m (s - (d - x)) else m x.
Proof.
  revert m d s. induction n as [|n IH]; intros m d s Hm Hov; simpl.
  { unfold within. in_range; done. }
  rewrite IH by (eauto using wf_store8; lia).
  assert (u8 (m (s - 1)) = m (s - 1)) by (apply u8_id, Hm).
  unfold within, store8. in_range; try done.
  all: try (f_equal; lia).
  all: replace (s - (d - x)) with (s - 1) by lia; done.
Qed.

Lemma memmove_within m dst src n x :
  wf_mem m → 0 ≤ n →
  memmove m dst src n x = if within dst n x then m (src + (x - dst)) else m x.
Proof.
  intros Hm Hn. unfold memmove. destruct (_ && _) eqn:E.
  - apply andb_prop in E as [E1%Z.ltb_lt E2%Z.ltb_lt].
    rewrite copy_down_spec by (done || lia). rewrite Z2Nat.id by lia.
    replace (dst + n - n) with dst by lia.
    replace (src + n - (dst + n - x)) with (src + (x - dst)) by lia. done.
  - rewrite copy_up_spec; [by rewrite Z2Nat.id | done |].
    rewrite Z2Nat.id by lia.
    apply andb_false_iff in E as [E%Z.ltb_ge | E%Z.ltb_ge]; lia.
Qed.

Lemma wf_memmove m dst src n : wf_mem m → 0 ≤ n → wf_mem (memmove m dst src n).
Proof.
  intros Hm Hn x. rewrite memmove_within by done. case_match; apply Hm.
Qed.

Lemma wf_memset m dst c n : wf_mem m → 0 ≤ n → wf_mem (memset m dst c n).
Proof.
  intros Hm Hn x. rewrite memset_within by done. case_match; [apply u8_byte | apply Hm].
Qed.

(** ** Comparisons *)

Lemma memcmp_loop_zero s1 s2 i n :
  memcmp_loop s1 s2 i n = 0 ↔ ∀ j, i ≤ j < i + Z.of_nat n → s1 j = s2 j.
Proof.
  revert i. induction n as [|n IH]; intros i; simpl.
  { split; [lia | done]. }
  destruct (Z.eqb_spec (s1 i) (s2 i)) as [E|E]; simpl.
  - rewrite IH. split; intros H j Hj; [|apply H; lia].
    destruct (Z.eq_dec j i) as [->|]; [done | apply H; lia].
  - split; [lia|]. intros H. destruct E. apply H. lia.
Qed.

(** Two strings agree on their first [n] bytes, or up to a terminator. *)
Definition streq (p q : Z → Z) (n : Z) : Prop :=
  ∃ k, 0 ≤ k ≤ n ∧ (∀ j, 0 ≤ j < k → p j = q j) ∧ (k < n → p k = 0 ∧ q k = 0).

Lemma strncmp_loop_zero p q i n :
  (∀ j, is_byte (p j)) → (∀ j, is_byte (q j)) →
  strncmp_loop p q i n = 0 ↔
  ∃ k, i ≤ k ≤ i + Z.of_nat n ∧ (∀ j, i ≤ j < k → p j = q j) ∧
       (k < i + Z.of_nat n → p k = 0 ∧ q k = 0).
Proof.
  intros Hp Hq. revert i. induction n as [|n IH]; intros i; simpl.
  { split; [|done]. intros _. exists i. repeat split; intros; lia. }
  destruct (negb (p i =? 0) && (p i =? q i)) eqn:E.
  - apply andb_prop in E as [E1 E2]. apply negb_true_iff in E1.
    apply Z.eqb_neq in E1. apply Z.eqb_eq in E2. rewrite IH. split.
    + intros (k & Hk & Hj & Hend). exists k. repeat split; [lia | lia | | |];
        try (intros; apply Hend; lia).
      intros j Hj'. destruct (Z.eq_dec j i) as [->|]; [done | apply Hj; lia].
    + intros (k & Hk & Hj & Hend). exists k.
      assert (k ≠ i) by (intros ->; destruct Hend; [lia | done]).
      repeat split; [lia | lia | | |]; try (intros; apply Hend; lia).
      intros. apply Hj. lia.
  - rewrite !u8_id by done. split.
    + intros H. assert (p i = q i) as Heq by lia. exists i.
      repeat split; try lia; intros; try lia.
      all: apply andb_false_iff in E as [E|E];
        [apply negb_false_iff, Z.eqb_eq in E; lia | apply Z.eqb_neq in E; lia].
    + intros (k & Hk & Hj & Hend). destruct (Z.eq_dec k i) as [->|Hki].
      * destruct Hend as [-> ->]; [lia | done].
      * rewrite (Hj i) by lia. lia.
Qed.

Lemma strncmp_streq p q n :
  0 ≤ n → (∀ j, is_byte (p j)) → (∀ j, is_byte (q j)) →
  strncmp p q n = 0 ↔ streq p q n.
Proof.
  intros Hn Hp Hq. unfold strncmp, streq. rewrite strncmp_loop_zero by done.
  rewrite Z2Nat.id by done. done.
Qed.

(** ** Copying strings *)

Lemma zero_fill_spec m s n x :
  zero_fill m s n x = if within s (Z.of_nat n) x then 0 else m x.
Proof.
  revert m s. induction n as [|n IH]; intros m s; simpl.
  { unfold within. in_range; done. }
  rewrite IH. unfold within, store8. in_range; done.
Qed.

(** [k] is the length of the string at [t], or [n] if it is longer. *)
Lemma strncpy_loop_spec m s t n k x :
  wf_mem m → s + Z.of_nat n ≤ t ∨ t + Z.of_nat n ≤ s →
  0 ≤ k ≤ Z.of_nat n → (∀ j, 0 ≤ j < k → m (t + j) ≠ 0) →
  (k < Z.of_nat n → m (t + k) = 0) →
  strncpy_loop m s t n x =
    if within s k x then m (t + (x - s))
    else if within s (Z.of_nat n) x then 0 else m x.
Proof.
  revert m s t k. induction n as [|n IH]; intros m s t k Hm Hov Hk Hnz Hz; simpl.
  { unfold within. in_range; done. }
  assert (u8 (m t) = m t) as Hu by (apply u8_id, Hm).
  destruct (Z.eqb_spec (m t) 0) as [E|E].
  - assert (k = 0) as ->.
    { destruct (Z.eq_dec k 0); [done|]. destruct (Hnz 0); [lia|]. by rewrite Z.add_0_r. }
    rewrite zero_fill_spec. unfold within, store8. in_range; congruence.
  - assert (k ≠ 0) by (intros ->; destruct E; rewrite <- (Z.add_0_r t); apply Hz; lia).
    rewrite (IH _ _ _ (k - 1)); eauto using wf_store8; try lia.
    + unfold within, store8. in_range; try done; try (f_equal; lia).
      all: replace (t + (x - s)) with t by lia; done.
    + intros j Hj. rewrite store8_ne by lia. rewrite <- Z.add_assoc. apply Hnz. lia.
    + intros. rewrite store8_ne by lia. replace (t + 1 + (k - 1)) with (t + k) by lia.
      apply Hz. lia.
Qed.

Lemma safestrcpy_loop_spec m s t n k x :
  wf_mem m → s + Z.of_nat n < t ∨ t + Z.of_nat n ≤ s →
  0 ≤ k ≤ Z.of_nat n → (∀ j, 0 ≤ j < k → m (t + j) ≠ 0) →
  (k < Z.of_nat n → m (t + k) = 0) →
  safestrcpy_loop m s t n x =
    if within s k x then m (t + (x - s))
    else if (x =? s + k) || ((k <? Z.of_nat n) && (x =? s + k + 1)) then 0 else m x.
Proof.
  revert m s t k. induction n as [|n IH]; intros m s t k Hm Hov Hk Hnz Hz; simpl.
  { assert (k = 0) as -> by lia. unfold within, store8. in_range; done. }
  assert (u8 (m t) = m t) as Hu by (apply u8_id, Hm).
  destruct (Z.eqb_spec (m t) 0) as [E|E].
  - assert (k = 0) as ->.
    { destruct (Z.eq_dec k 0); [done|]. destruct (Hnz 0); [lia|]. by rewrite Z.add_0_r. }
    unfold within, store8. in_range; cbn [orb andb]; try done; congruence.
  - assert (k ≠ 0) by (intros ->; destruct E; rewrite <- (Z.add_0_r t); apply Hz; lia).
    rewrite (IH _ _ _ (k - 1)); eauto using wf_store8; try lia.
    + unfold within, store8. in_range; cbn [orb andb]; try done; try (f_equal; lia).
      all: replace (t + (x - s)) with t by lia; done.
    + intros j Hj. rewrite store8_ne by lia. rewrite <- Z.add_assoc. apply Hnz. lia.
    + intros. rewrite store8_ne by lia. replace (t + 1 + (k - 1)) with (t + k) by lia.
      apply Hz. lia.
Qed.

Lemma strlen_loop_spec s n k fuel :
  0 ≤ k → (∀ j, n ≤ j < n + k → s j ≠ 0) → s (n + k) = 0 → (Z.to_nat k < fuel)%nat →
  strlen_loop s n fuel = Some (n + k).
Proof.
  revert n k. induction fuel as [|fuel IH]; intros n k Hk Hnz Hz Hf; [lia|]. simpl.
  destruct (Z.eqb_spec (s n) 0) as [E|E].
  - destruct (Z.eq_dec k 0) as [->|]; [f_equal; lia|]. destruct (Hnz n); [lia | done].
  - destruct (Z.eq_dec k 0) as [->|]; [by rewrite Z.add_0_r in Hz|].
    rewrite (IH (n + 1) (k - 1)); [f_equal; lia | lia | intros; apply Hnz; lia | | lia].
    by replace (n + 1 + (k - 1)) with (n + k) by lia.
Qed.

(** ** Properties *)

(** memset and memmove do what their names say, whichever loop runs: memset
    sets exactly the n bytes at dst to the low byte of c, and memmove gives the
    n bytes at dst the values the n bytes at src had before the call, however
    the two ranges overlap; no other byte changes. *)
Theorem memset_memmove_exact m dst src c n x : wf_mem m → 0 ≤ n →
  memset m dst c n x = (if (dst <=? x) && (x <? dst + n) then u8 c else m x) ∧
  memmove m dst src n x = (if (dst <=? x) && (x <? dst + n) then m (src + (x - dst)) else m x).
Proof. intros Hm Hn. split; [by apply memset_within | by apply memmove_within]. Qed.

Lemma memset_memmove_exact_witness :
  memset (λ x, x mod 256) 8 300 16 9 = 44 ∧ memmove (λ x, x mod 256) 10 8 16 12 = 10.
Proof.
  destruct (memset_memmove_exact (λ x, x mod 256) 8 0 300 16 9) as [H1 _].
  - intros x. apply Z.mod_pos_bound. lia.
  - lia.
  - destruct (memset_memmove_exact (λ x, x mod 256) 10 8 0 16 12) as [_ H2].
    + intros x. apply Z.mod_pos_bound. lia.
    + lia.
    + split; [rewrite H1 | rewrite H2]; reflexivity.
Defined.

(** The string routines respect their bounds: strncmp is 0 exactly on
    strings that agree up to their end or on their first n bytes; strlen finds
    the first zero; and safestrcpy with a positive size n writes at most n
    bytes at s: the string at t cut to n - 1 bytes, and its terminator. *)
Theorem string_bounds m p q s t n k x : wf_mem m → (∀ j, is_byte (p j)) → (∀ j, is_byte (q j)) →
  0 < n → s + n ≤ t ∨ t + n ≤ s → 0 ≤ k < n →
  (∀ j, 0 ≤ j < k → m (t + j) ≠ 0) → (k < n - 1 → m (t + k) = 0) →
  (strncmp p q n = 0 ↔ streq p q n) ∧
  (k < n - 1 → strlen (λ i, m (t + i)) (Z.to_nat n) = Some k) ∧
  (x < s ∨ s + n ≤ x → safestrcpy m s t n x = m x) ∧
  (s ≤ x < s + k → safestrcpy m s t n x = m (t + (x - s))) ∧
  safestrcpy m s t n (s + k) = 0.
Proof.
  intros Hm Hp Hq Hn Hov Hk Hnz Hz.
  assert (∀ y, safestrcpy m s t n y = if within s k y then m (t + (y - s))
    else if (y =? s + k) || ((k <? n - 1) && (y =? s + k + 1)) then 0 else m y) as E.
  { intros y. unfold safestrcpy. rewrite (proj2 (Z.leb_gt _ _)) by lia.
    rewrite (safestrcpy_loop_spec _ _ _ _ k); rewrite ?Z2Nat.id by lia; try done; lia. }
  split; [apply strncmp_streq; done || lia|]. split.
  { intros Hk'. unfold strlen. rewrite (strlen_loop_spec _ 0 k); try done; try lia. by apply Hz. }
  split_and!.
  - intros Hx. rewrite E. unfold within. in_range; cbn [orb andb]; try lia; done.
  - intros Hx. rewrite E. unfold within. in_range; done.
  - rewrite E. unfold within. in_range; cbn [orb andb]; done.
Qed.

(** The string "ab" at 100, in a memory of zeroes. *)
Definition ab : mem := λ x, if x =? 100 then 97 else if x =? 101 then 98 else 0.

Lemma string_bounds_witness : strlen (λ i, ab (100 + i)) 4 = Some 2 ∧ safestrcpy ab 200 100 4 (200 + 2) = 0.
Proof.
  destruct (string_bounds ab (cstr [97]) (cstr [97]) 200 100 4 2 0) as (_ & H1 & _ & _ & H2).
  - intros x. unfold ab, is_byte. repeat case_match; lia.
  - intros j. unfold cstr, bget0, is_byte. case_match; [lia|]. destruct (Z.to_nat j) as [|[|]]; simpl; lia.
  - intros j. unfold cstr, bget0, is_byte. case_match; [lia|]. destruct (Z.to_nat j) as [|[|]]; simpl; lia.
  - lia.
  - lia.
  - lia.
  - intros j Hj. assert (j = 0 ∨ j = 1) as [->| ->] by lia; vm_compute; discriminate.
  - intros _. reflexivity.
  - split; [apply H1; lia | exact H2].
Defined.
