(* ===== verification/Locks.v ===== *)
(** * Locks: spin locks, sleep locks and the per-cpu interrupt nesting

    The machine has cores (their interrupt flag and their local APIC id, the
    hardware's side), the kernel's array [cpus] of struct cpu, and its spin
    locks.  An operation runs on a core [k].  pushcli, popcli, holding,
    initlock, acquire and release are the functions of spinlock.c, mycpu the
    one of proc.c; acquire and release are composed of the segments between
    which other cores can run, and [step] interleaves these segments of all
    cores, the spin loop being one xchg per step.  The sleep locks of
    sleeplock.c are a second step relation, over the threads that use one
    lock, each critical section of the inner spin lock being one step.

    Shown: in every reachable state at most one core owns a lock, a core that
    owns a lock runs with interrupts off, and the nesting depth ncli counts
    the locks it owns; pushcli and popcli nest and restore the interrupt flag;
    a sleep lock has one owner, and no thread sleeps on a free one. *)

From Stdlib Require Import ZArith Lia Bool.
From stdpp Require Import base option list sets strings numbers.
From S2P Require Import Prelude Cstring.

#[local] Open Scope string_scope.
#[local] Open Scope Z_scope.

Definition KERNBASE : Z := 2147483648.

(** A core: the IF bit of its eflags and the id its local APIC reports. *)
Record core := Core { e_if : bool; e_apicid : Z }.

(** struct cpu of proc.h, the fields the locks use. *)
Record cpu := Cpu { apicid : Z; ncli : Z; intena : bool }.

(** struct spinlock of spinlock.h; [lk_cpu] is the index of the cpu. *)
Record spinlock := Spinlock { locked : Z; lk_cpu : option nat }.

Record mach := Mach { cores : list core; cpus : list cpu; lks : list spinlock }.

Definition core0 : core := Core false 0.
Definition cpu0 : cpu := Cpu 0 0 false.
Definition lock0 : spinlock := Spinlock 0 None.

Definition core_of (k : nat) (s : mach) : core := default core0 (cores s !! k).
Definition cpu_of (i : nat) (s : mach) : cpu := default cpu0 (cpus s !! i).
Definition lock_of (l : nat) (s : mach) : spinlock := default lock0 (lks s !! l).

Definition set_if (k : nat) (b : bool) : M mach unit :=
  modify (λ s, Mach (<[k := Core b (e_apicid (core_of k s))]> (cores s)) (cpus s) (lks s)).
Definition set_cpu (i : nat) (c : cpu) : M mach unit :=
  modify (λ s, Mach (cores s) (<[i := c]> (cpus s)) (lks s)).
Definition set_lock (l : nat) (x : spinlock) : M mach unit :=
  modify (λ s, Mach (cores s) (cpus s) (<[l := x]> (lks s))).

Definition cli (k : nat) : M mach unit := set_if k false.
Definition sti (k : nat) : M mach unit := set_if k true.
Definition readeflags_if (k : nat) : M mach bool := gets (λ s, e_if (core_of k s)).
Definition lapicid (k : nat) : M mach Z := gets (λ s, e_apicid (core_of k s)).

(** The loop of mycpu over cpus[0..ncpu). *)
Fixpoint find_apicid (id : Z) (i : nat) (cs : list cpu) : option nat :=
  match cs with
  | [] => None
  | c :: cs => if apicid c =? id then Some i else find_apicid id (S i) cs
  end.

Definition mycpu (k : nat) : M mach nat :=
  f ← readeflags_if k;
  if f : bool then panic "mycpu called with interrupts enabled" else
  id ← lapicid k;
  cs ← gets cpus;
  match find_apicid id 0 cs with
  | Some i => mret i
  | None => panic "unknown apicid"
  end.

Definition pushcli (k : nat) : M mach unit :=
  eflags ← readeflags_if k;
  cli k;;
  i ← mycpu k;
  c ← gets (cpu_of i);
  when (ncli c =? 0) (set_cpu i (Cpu (apicid c) (ncli c) eflags));;
  c ← gets (cpu_of i);
  set_cpu i (Cpu (apicid c) (ncli c + 1) (intena c)).

Definition popcli (k : nat) : M mach unit :=
  f ← readeflags_if k;
  if f : bool then panic "popcli - interruptible" else
  i ← mycpu k;
  c ← gets (cpu_of i);
  set_cpu i (Cpu (apicid c) (ncli c - 1) (intena c));;
  c ← gets (cpu_of i);
  if ncli c <? 0 then panic "popcli" else
  when ((ncli c =? 0) && intena c) (sti k).

(** cpuid and myproc of proc.c; [c_proc] is the field proc of the structures. *)
Definition cpuid (k : nat) : M mach nat := mycpu k.
Definition myproc (c_proc : nat → option nat) (k : nat) : M mach (option nat) :=
  pushcli k;;
  c ← mycpu k;
  popcli k;;
  mret (c_proc c).

Definition holding (k l : nat) : M mach bool :=
  pushcli k;;
  i ← mycpu k;
  x ← gets (lock_of l);
  popcli k;;
  mret (negb (locked x =? 0) && bool_decide (lk_cpu x = Some i)).

Definition initlock (l : nat) : M mach unit := set_lock l (Spinlock 0 None).

(** acquire: up to the spin loop, one xchg of the loop, and the rest. *)
Definition acquire_begin (k l : nat) : M mach unit :=
  pushcli k;;
  h ← holding k l;
  if h : bool then panic "acquire" else mret tt.

Definition xchg_locked (l : nat) (newval : Z) : M mach Z :=
  x ← gets (lock_of l);
  set_lock l (Spinlock newval (lk_cpu x));;
  mret (locked x).

Definition acquire_end (k l : nat) : M mach unit :=
  i ← mycpu k;
  x ← gets (lock_of l);
  set_lock l (Spinlock (locked x) (Some i)).

Definition acquire (k l : nat) : M mach unit :=
  acquire_begin k l;;
  r ← xchg_locked l 1;
  if r =? 0 then acquire_end k l else undef "spins until another cpu releases the lock".

(** release: up to the clearing of lk->cpu, and the rest. *)
Definition release_begin (k l : nat) : M mach unit :=
  h ← holding k l;
  if h : bool then
    x ← gets (lock_of l);
    set_lock l (Spinlock (locked x) None)
  else panic "release".

Definition release_end (k l : nat) : M mach unit :=
  x ← gets (lock_of l);
  set_lock l (Spinlock 0 (lk_cpu x));;
  popcli k.

Definition release (k l : nat) : M mach unit := release_begin k l;; release_end k l.

(** getcallerpcs: at most ten return addresses of the %ebp chain, then
    zeroes; [v] is the address of the first argument of the caller. *)
Fixpoint walk_ebp (m : mem) (ebp : Z) (n : nat) : list Z :=
  match n with
  | O => []
  | S n =>
      if (ebp =? 0) || (ebp <? KERNBASE) || (ebp =? 4294967295) then replicate (S n) 0
      else load32 m (ebp + 4) :: walk_ebp m (load32 m ebp) n
  end.

Definition getcallerpcs (m : mem) (v : Z) : list Z := walk_ebp m (u32 (v - 8)) 10.

(** ** The interleavings of the cores *)

(** What a core is doing: running kernel or user code, spinning in acquire,
    past a successful xchg, or inside release. *)
Inductive pc : Type :=
  | Run
  | Spin (l : nat)
  | Got (l : nat)
  | Rel (l : nat).

Record sys := Sys { sm : mach; pcs : list pc; held : list (list nat) }.

Definition pc_of (k : nat) (s : sys) : pc := default Run (pcs s !! k).
Definition held_of (k : nat) (s : sys) : list nat := default [] (held s !! k).

(** The locks a core owns after it released [l]. *)
Fixpoint drop_lock (l : nat) (h : list nat) : list nat :=
  match h with
  | [] => []
  | x :: h => if (x =? l)%nat then h else x :: drop_lock l h
  end.

Definition upd (k : nat) (p : pc) (h : list nat) (m : mach) (s : sys) : sys :=
  Sys m (<[k := p]> (pcs s)) (<[k := h]> (held s)).

Inductive step : sys → sys → Prop :=
  | step_acquire k l s m :
      (k < length (pcs s))%nat → pc_of k s = Run → (l < length (lks (sm s)))%nat →
      acquire_begin k l (sm s) = Ok tt m →
      step s (upd k (Spin l) (held_of k s) m s)
  | step_spin k l s m r :
      pc_of k s = Spin l → xchg_locked l 1 (sm s) = Ok r m → r ≠ 0 →
      step s (upd k (Spin l) (held_of k s) m s)
  | step_take k l s m r :
      pc_of k s = Spin l → xchg_locked l 1 (sm s) = Ok r m → r = 0 →
      step s (upd k (Got l) (l :: held_of k s) m s)
  | step_acquired k l s m :
      pc_of k s = Got l → acquire_end k l (sm s) = Ok tt m →
      step s (upd k Run (held_of k s) m s)
  | step_release k l s m :
      (k < length (pcs s))%nat → pc_of k s = Run → release_begin k l (sm s) = Ok tt m →
      step s (upd k (Rel l) (held_of k s) m s)
  | step_released k l s m :
      pc_of k s = Rel l → release_end k l (sm s) = Ok tt m →
      step s (upd k Run (drop_lock l (held_of k s)) m s)
  | step_interrupts k s m b :
      (k < length (pcs s))%nat → pc_of k s = Run → held_of k s = [] →
      set_if k b (sm s) = Ok tt m →
      step s (upd k Run (held_of k s) m s).

Inductive reachable (s0 : sys) : sys → Prop :=
  | reach_refl : reachable s0 s0
  | reach_step s s' : reachable s0 s → step s s' → reachable s0 s'.

(** The boot state: n cores with distinct APIC ids, m free locks. *)
Definition boot (ids : list Z) (m : nat) : sys :=
  Sys (Mach (map (λ a, Core false a) ids) (map (λ a, Cpu a 0 false) ids)
            (replicate m lock0))
      (replicate (length ids) Run) (replicate (length ids) []).

(** ** Sleep locks *)

(** struct sleeplock: the lock word and the pid of its holder.  A thread that
    uses the lock is outside, asleep on the lock's address, woken but not yet
    run, or the owner.  Each step is one critical section of the inner spin
    lock lk->lk: the test of the while loop in acquiresleep with what follows
    it (the assignments, or the sleep), and the body of releasesleep with its
    wakeup.  [kill] is proc.c's kill() waking a sleeping thread. *)
Inductive tstate : Type := TOut | TSleep | TWoken | TOwn.

Record sleeplock := Sleeplock { sl_locked : bool; sl_pid : Z }.

Record sls := Sls { sl : sleeplock; threads : list tstate }.

Definition initsleeplock : sleeplock := Sleeplock false 0.

Definition pid_of (t : nat) : Z := Z.of_nat t + 1.

Definition holdingsleep (x : sleeplock) (pid : Z) : bool :=
  sl_locked x && (sl_pid x =? pid).

(** One test of acquiresleep's loop by thread [t]. *)
Definition acquiresleep_try (t : nat) (s : sls) : sls :=
  if sl_locked (sl s) then Sls (sl s) (<[t := TSleep]> (threads s))
  else Sls (Sleeplock true (pid_of t)) (<[t := TOwn]> (threads s)).

Definition wakeup_sl (x : tstate) : tstate := match x with TSleep => TWoken | _ => x end.

Definition releasesleep (t : nat) (s : sls) : sls :=
  Sls (Sleeplock false 0) (wakeup_sl <$> <[t := TOut]> (threads s)).

Inductive sl_step : sls → sls → Prop :=
  | sl_acquire t s x :
      threads s !! t = Some x → x = TOut ∨ x = TWoken → sl_step s (acquiresleep_try t s)
  | sl_release t s :
      threads s !! t = Some TOwn → sl_step s (releasesleep t s)
  | sl_kill t s :
      threads s !! t = Some TSleep → sl_step s (Sls (sl s) (<[t := TWoken]> (threads s))).

Inductive sl_reachable (n : nat) : sls → Prop :=
  | sl_init : sl_reachable n (Sls initsleeplock (replicate n TOut))
  | sl_next s s' : sl_reachable n s → sl_step s s' → sl_reachable n s'.

(** ** The operations of one core *)

(** The kernel's array agrees with the hardware: cpus[k] is core k. *)
Record wf_mach (s : mach) : Prop := WfMach {
  wf_len : length (cores s) = length (cpus s);
  wf_ids : ∀ k, (k < length (cpus s))%nat → e_apicid (core_of k s) = apicid (cpu_of k s);
  wf_nodup : NoDup (apicid <$> cpus s)
}.

Lemma find_apicid_lookup cs k c i :
  NoDup (apicid <$> cs) → cs !! k = Some c → find_apicid (apicid c) i cs = Some (i + k)%nat.
Proof.
  revert k i. induction cs as [|c' cs IH]; intros k i Hnd Hk; [done|].
  cbn [fmap list_fmap] in Hnd. apply list.NoDup_cons in Hnd as [Hni Hnd].
  destruct k as [|k]; simpl in *.
  - injection Hk as ->. rewrite Z.eqb_refl. f_equal. lia.
  - destruct (Z.eqb_spec (apicid c') (apicid c)) as [E|E].
    + destruct Hni. rewrite E. apply list_elem_of_fmap. exists c. split; [done|].
      by eapply list_elem_of_lookup_2.
    + rewrite (IH k) by done. f_equal. lia.
Qed.

Lemma cpu_of_lookup k s : (k < length (cpus s))%nat → cpus s !! k = Some (cpu_of k s).
Proof. intros H. unfold cpu_of. by destruct (lookup_lt_is_Some_2 _ _ H) as [c ->]. Qed.

Lemma mycpu_self k s :
  wf_mach s → (k < length (cpus s))%nat → e_if (core_of k s) = false → mycpu k s = Ok k s.
Proof.
  intros Hwf Hk Hif. unfold mycpu, readeflags_if, lapicid, gets, mbind, M_bind.
  rewrite Hif. rewrite (wf_ids s Hwf k Hk).
  by rewrite (find_apicid_lookup _ k _ _ (wf_nodup s Hwf) (cpu_of_lookup k s Hk)).
Qed.

(** The machine with core k's interrupt flag and cpu k's nesting replaced. *)
Definition set_core (k : nat) (f : bool) (n : Z) (i : bool) (s : mach) : mach :=
  Mach (<[k := Core f (e_apicid (core_of k s))]> (cores s))
       (<[k := Cpu (apicid (cpu_of k s)) n i]> (cpus s)) (lks s).

Lemma core_of_set k j f n i s :
  (k < length (cores s))%nat →
  core_of j (set_core k f n i s)
  = if decide (j = k) then Core f (e_apicid (core_of k s)) else core_of j s.
Proof.
  intros Hk. unfold core_of at 1. simpl. case_decide as E.
  - subst. by rewrite list_lookup_insert_eq.
  - by rewrite list_lookup_insert_ne.
Qed.

Lemma cpu_of_set k j f n i s :
  (k < length (cpus s))%nat →
  cpu_of j (set_core k f n i s)
  = if decide (j = k) then Cpu (apicid (cpu_of k s)) n i else cpu_of j s.
Proof.
  intros Hk. unfold cpu_of at 1. simpl. case_decide as E.
  - subst. by rewrite list_lookup_insert_eq.
  - by rewrite list_lookup_insert_ne.
Qed.

Lemma lock_of_set_core k l f n i s : lock_of l (set_core k f n i s) = lock_of l s.
Proof. done. Qed.

Lemma wf_set_core k f n i s :
  wf_mach s → (k < length (cpus s))%nat → wf_mach (set_core k f n i s).
Proof.
  intros [Hl Hi Hn] Hk. split.
  - simpl. by rewrite !length_insert.
  - simpl. rewrite length_insert. intros j Hj.
    rewrite core_of_set, cpu_of_set by lia. case_decide; subst; simpl; by apply Hi.
  - simpl. rewrite list_fmap_insert. simpl. rewrite list_insert_id; [done|].
    rewrite list_lookup_fmap, cpu_of_lookup by done. done.
Qed.

Lemma set_core_twice k f n i f' n' i' s :
  wf_mach s → (k < length (cpus s))%nat →
  set_core k f' n' i' (set_core k f n i s) = set_core k f' n' i' s.
Proof.
  intros Hwf Hk. pose proof (wf_len s Hwf). unfold set_core at 1.
  rewrite core_of_set, cpu_of_set by lia. rewrite !decide_True by done. simpl.
  by rewrite !list_insert_insert_eq.
Qed.

Lemma set_core_same k s :
  wf_mach s → (k < length (cpus s))%nat →
  set_core k (e_if (core_of k s)) (ncli (cpu_of k s)) (intena (cpu_of k s)) s = s.
Proof.
  intros Hwf Hk. pose proof (wf_len s Hwf). unfold set_core.
  destruct s as [cs cp ls]; simpl in *. f_equal.
  - apply list_insert_id. unfold core_of; simpl.
    destruct (lookup_lt_is_Some_2 cs k ltac:(lia)) as [[f a] ->]. done.
  - apply list_insert_id. unfold cpu_of; simpl.
    destruct (lookup_lt_is_Some_2 cp k ltac:(lia)) as [[a n i] ->]. done.
Qed.

Lemma set_if_set_core k b s :
  wf_mach s → (k < length (cpus s))%nat →
  set_if k b s = Ok tt (set_core k b (ncli (cpu_of k s)) (intena (cpu_of k s)) s).
Proof.
  intros Hwf Hk. unfold set_if, modify, set_core. do 2 f_equal.
  symmetry. apply list_insert_id. rewrite cpu_of_lookup by done.
  by destruct (cpu_of k s).
Qed.

Lemma set_cpu_set_core k a n i s :
  wf_mach s → (k < length (cpus s))%nat → a = apicid (cpu_of k s) →
  set_cpu k (Cpu a n i) s = Ok tt (set_core k (e_if (core_of k s)) n i s).
Proof.
  intros Hwf Hk ->. unfold set_cpu, modify, set_core. do 2 f_equal.
  symmetry. apply list_insert_id. unfold core_of. pose proof (wf_len s Hwf).
  destruct (lookup_lt_is_Some_2 (cores s) k ltac:(lia)) as [[f b] ->]. done.
Qed.

Lemma core_of_set_same k f n i s :
  wf_mach s → (k < length (cpus s))%nat →
  e_if (core_of k (set_core k f n i s)) = f.
Proof.
  intros Hwf Hk. pose proof (wf_len s Hwf). rewrite core_of_set by lia.
  by rewrite decide_True.
Qed.

Lemma cpu_of_set_same k f n i s :
  (k < length (cpus s))%nat →
  cpu_of k (set_core k f n i s) = Cpu (apicid (cpu_of k s)) n i.
Proof. intros Hk. rewrite cpu_of_set by lia. by rewrite decide_True. Qed.

Lemma length_cpus_set k f n i s : length (cpus (set_core k f n i s)) = length (cpus s).
Proof. simpl. by rewrite length_insert. Qed.

Create HintDb mach.
Create Rewrite HintDb mach.
#[export] Hint Resolve wf_set_core : mach.
#[export] Hint Rewrite length_cpus_set : mach.

Ltac mach := autorewrite with mach; eauto with mach.

Lemma pushcli_spec k s :
  wf_mach s → (k < length (cpus s))%nat →
  pushcli k s = Ok tt (set_core k false (ncli (cpu_of k s) + 1)
    (if ncli (cpu_of k s) =? 0 then e_if (core_of k s) else intena (cpu_of k s)) s).
Proof.
  intros Hwf Hk. unfold pushcli.
  erewrite bind_ok by reflexivity. unfold cli.
  erewrite bind_ok by (by apply set_if_set_core).
  erewrite bind_ok by (apply mycpu_self; mach; by apply core_of_set_same).
  erewrite bind_ok by reflexivity. rewrite cpu_of_set_same by done. simpl.
  destruct (ncli (cpu_of k s) =? 0).
  - erewrite bind_ok; [|apply set_cpu_set_core; mach; by rewrite cpu_of_set_same].
    rewrite core_of_set_same, set_core_twice by done.
    erewrite bind_ok by reflexivity. rewrite cpu_of_set_same by done. simpl.
    rewrite set_cpu_set_core; mach; [|by rewrite cpu_of_set_same].
    by rewrite core_of_set_same, set_core_twice.
  - erewrite bind_ok by reflexivity.
    erewrite bind_ok by reflexivity. rewrite cpu_of_set_same by done. simpl.
    rewrite set_cpu_set_core; mach; [|by rewrite cpu_of_set_same].
    by rewrite core_of_set_same, set_core_twice.
Qed.

Lemma popcli_spec k s :
  wf_mach s → (k < length (cpus s))%nat → e_if (core_of k s) = false →
  1 ≤ ncli (cpu_of k s) →
  popcli k s = Ok tt (set_core k ((ncli (cpu_of k s) =? 1) && intena (cpu_of k s))
    (ncli (cpu_of k s) - 1) (intena (cpu_of k s)) s).
Proof.
  intros Hwf Hk Hif Hn. unfold popcli.
  erewrite bind_ok by reflexivity. rewrite Hif.
  erewrite bind_ok by (by apply mycpu_self).
  erewrite bind_ok by reflexivity.
  erewrite bind_ok by (by apply set_cpu_set_core).
  erewrite bind_ok by reflexivity. rewrite cpu_of_set_same by done. simpl.
  rewrite (proj2 (Z.ltb_ge _ _)) by lia.
  replace (ncli (cpu_of k s) - 1 =? 0) with (ncli (cpu_of k s) =? 1)
    by (destruct (Z.eqb_spec (ncli (cpu_of k s)) 1), (Z.eqb_spec (ncli (cpu_of k s) - 1) 0); lia).
  destruct (_ && _) eqn:E; simpl.
  - unfold sti. rewrite set_if_set_core; mach.
    rewrite cpu_of_set_same by done. simpl. by rewrite set_core_twice.
  - by rewrite Hif.
Qed.

(** Between pushcli and popcli interrupts are off; after them the flag and the
    nesting are as before. *)
Lemma cli_section k s :
  wf_mach s → (k < length (cpus s))%nat → 0 ≤ ncli (cpu_of k s) →
  (e_if (core_of k s) = true → ncli (cpu_of k s) = 0) →
  ∃ i, let s1 := set_core k false (ncli (cpu_of k s) + 1) i s in
    pushcli k s = Ok tt s1 ∧ mycpu k s1 = Ok k s1 ∧
    popcli k s1 = Ok tt (set_core k (e_if (core_of k s)) (ncli (cpu_of k s)) i s).
Proof.
  intros Hwf Hk Hn Hif. eexists. split; [by apply pushcli_spec|].
  set (i := if _ =? 0 then _ else _). split; [apply mycpu_self; mach; by apply core_of_set_same|].
  rewrite popcli_spec; mach.
  2: by rewrite core_of_set_same.
  2: rewrite cpu_of_set_same by done; simpl; lia.
  rewrite cpu_of_set_same, set_core_twice by done. simpl.
  replace (ncli (cpu_of k s) + 1 - 1) with (ncli (cpu_of k s)) by lia.
  replace ((ncli (cpu_of k s) + 1 =? 1) && i) with (e_if (core_of k s)); [done|].
  unfold i. destruct (Z.eqb_spec (ncli (cpu_of k s)) 0) as [E|E].
  - rewrite E. done.
  - destruct (Z.eqb_spec (ncli (cpu_of k s) + 1) 1); [lia|]. simpl.
    destruct (e_if (core_of k s)); [|done]. by specialize (Hif eq_refl).
Qed.

(** holding leaves the interrupt flag and the nesting as they were. *)
Lemma holding_spec k l s :
  wf_mach s → (k < length (cpus s))%nat → 0 ≤ ncli (cpu_of k s) →
  (e_if (core_of k s) = true → ncli (cpu_of k s) = 0) →
  ∃ i, holding k l s =
    Ok (negb (locked (lock_of l s) =? 0) && bool_decide (lk_cpu (lock_of l s) = Some k))
       (set_core k (e_if (core_of k s)) (ncli (cpu_of k s)) i s).
Proof.
  intros Hwf Hk Hn Hif. destruct (cli_section k s Hwf Hk Hn Hif) as (i & H1 & H2 & H3). exists i. unfold holding.
  erewrite bind_ok by exact H1. erewrite bind_ok by exact H2. erewrite bind_ok by reflexivity. erewrite bind_ok by exact H3.
  by rewrite lock_of_set_core.
Qed.

(** myproc is the process of the core it runs on, whatever the interrupt flag,
    which it leaves as it was. *)
Lemma myproc_spec c_proc k s :
  wf_mach s → (k < length (cpus s))%nat → 0 ≤ ncli (cpu_of k s) →
  (e_if (core_of k s) = true → ncli (cpu_of k s) = 0) →
  ∃ i, myproc c_proc k s = Ok (c_proc k) (set_core k (e_if (core_of k s)) (ncli (cpu_of k s)) i s).
Proof.
  intros Hwf Hk Hn Hif. destruct (cli_section k s Hwf Hk Hn Hif) as (i & H1 & H2 & H3). exists i. unfold myproc.
  erewrite bind_ok by exact H1. erewrite bind_ok by exact H2. by erewrite bind_ok by exact H3.
Qed.

Definition with_lock (l : nat) (x : spinlock) (s : mach) : mach :=
  Mach (cores s) (cpus s) (<[l := x]> (lks s)).

Lemma wf_with_lock l x s : wf_mach s → wf_mach (with_lock l x s).
Proof. intros [? ? ?]. by split. Qed.
#[export] Hint Resolve wf_with_lock : mach.

Lemma lock_of_with l l' x s :
  (l < length (lks s))%nat →
  lock_of l' (with_lock l x s) = if decide (l' = l) then x else lock_of l' s.
Proof.
  intros Hl. unfold lock_of. simpl. case_decide as E.
  - subst. by rewrite list_lookup_insert_eq.
  - by rewrite list_lookup_insert_ne.
Qed.

Lemma cpu_of_with l x k s : cpu_of k (with_lock l x s) = cpu_of k s.
Proof. done. Qed.

Lemma core_of_with l x k s : core_of k (with_lock l x s) = core_of k s.
Proof. done. Qed.

Lemma lock_in_range l s : lk_cpu (lock_of l s) ≠ None → (l < length (lks s))%nat.
Proof.
  unfold lock_of. destruct (lks s !! l) eqn:E; [|done]. intros _.
  by eapply lookup_lt_Some.
Qed.

(** A lock is held by cpu k, as holding() tests it. *)
Definition holds (k l : nat) (s : mach) : Prop :=
  locked (lock_of l s) ≠ 0 ∧ lk_cpu (lock_of l s) = Some k.

Definition core_ok (k : nat) (s : mach) : Prop :=
  (k < length (cpus s))%nat ∧ 0 ≤ ncli (cpu_of k s) ∧
  (e_if (core_of k s) = true → ncli (cpu_of k s) = 0).

Lemma holding_cases k l s :
  wf_mach s → core_ok k s →
  ∃ b i, holding k l s = Ok b (set_core k (e_if (core_of k s)) (ncli (cpu_of k s)) i s) ∧
         (b = true ↔ holds k l s).
Proof.
  intros Hwf (Hk & Hn & Hif). destruct (holding_spec k l s) as [i Hi]; try done.
  eexists _, i. split; [exact Hi|]. unfold holds.
  rewrite andb_true_iff, negb_true_iff, Z.eqb_neq, bool_decide_eq_true. done.
Qed.

Lemma acquire_begin_effect k l s m :
  wf_mach s → core_ok k s → acquire_begin k l s = Ok tt m →
  ∃ i, m = set_core k false (ncli (cpu_of k s) + 1) i s ∧ ¬ holds k l s.
Proof.
  intros Hwf (Hk & Hn & Hif) Hm. unfold acquire_begin in Hm.
  apply bind_inv in Hm as ([] & s1 & Hp & Hm).
  rewrite pushcli_spec in Hp by done. injection Hp as <-.
  apply bind_inv in Hm as (b & s2 & Hh & Hm).
  set (i0 := if _ =? 0 then _ else _) in Hh.
  set (s1 := set_core _ _ _ _ _) in Hh.
  assert (wf_mach s1) as Hwf1 by (subst s1; mach).
  destruct (holding_cases k l s1 Hwf1) as (b' & i & Hh' & Hb).
  { subst s1. split_and!; mach; [rewrite cpu_of_set_same by done; simpl; lia|].
    by rewrite core_of_set_same. }
  rewrite Hh' in Hh. injection Hh as <- <-.
  destruct b'; [done|]. injection Hm as <-. exists i. subst s1.
  rewrite core_of_set_same, cpu_of_set_same, set_core_twice by done. split; [done|].
  intros H. by apply (proj2 Hb) in H.
Qed.

Lemma release_begin_effect k l s m :
  wf_mach s → core_ok k s → release_begin k l s = Ok tt m →
  ∃ i, m = with_lock l (Spinlock (locked (lock_of l s)) None)
             (set_core k (e_if (core_of k s)) (ncli (cpu_of k s)) i s) ∧ holds k l s.
Proof.
  intros Hwf Hok Hm. unfold release_begin in Hm.
  apply bind_inv in Hm as (b & s1 & Hh & Hm).
  destruct (holding_cases k l s Hwf Hok) as (b' & i & Hh' & Hb).
  rewrite Hh' in Hh. injection Hh as <- <-. destruct b'; [|done].
  injection Hm as <-. exists i. split; [done|]. by apply Hb.
Qed.

Lemma release_end_effect k l s m :
  wf_mach s → (k < length (cpus s))%nat → e_if (core_of k s) = false →
  1 ≤ ncli (cpu_of k s) → release_end k l s = Ok tt m →
  m = with_lock l (Spinlock 0 (lk_cpu (lock_of l s)))
        (set_core k ((ncli (cpu_of k s) =? 1) && intena (cpu_of k s))
                  (ncli (cpu_of k s) - 1) (intena (cpu_of k s)) s).
Proof.
  intros Hwf Hk Hif Hn Hm. unfold release_end in Hm.
  apply bind_inv in Hm as (x & s1 & [= <- <-] & Hm).
  apply bind_inv in Hm as ([] & s2 & Hp & Hm). injection Hp as <-.
  rewrite popcli_spec in Hm; [by injection Hm as <- | | done..].
  by apply (wf_with_lock l).
Qed.

Lemma acquire_end_effect k l s m :
  wf_mach s → (k < length (cpus s))%nat → e_if (core_of k s) = false →
  acquire_end k l s = Ok tt m →
  m = with_lock l (Spinlock (locked (lock_of l s)) (Some k)) s.
Proof.
  intros Hwf Hk Hif Hm. unfold acquire_end in Hm.
  apply bind_inv in Hm as (i & s1 & Hi & Hm). rewrite mycpu_self in Hi by done.
  injection Hi as <- <-. by injection Hm as <-.
Qed.

(** ** The invariant of the interleavings *)

Definition spinning (p : pc) : Z := match p with Spin _ => 1 | _ => 0 end.

Record inv (s : sys) : Prop := Inv {
  inv_wf : wf_mach (sm s);
  inv_pcs : length (pcs s) = length (cpus (sm s));
  inv_held : length (held s) = length (cpus (sm s));
  inv_ncli : ∀ k, (k < length (cpus (sm s)))%nat →
    ncli (cpu_of k (sm s)) = Z.of_nat (length (held_of k s)) + spinning (pc_of k s);
  inv_if : ∀ k, (k < length (cpus (sm s)))%nat →
    e_if (core_of k (sm s)) = true → ncli (cpu_of k (sm s)) = 0;
  inv_word : ∀ l, locked (lock_of l (sm s)) = 0 → ∀ k, l ∉ held_of k s;
  inv_one : ∀ l k1 k2, l ∈ held_of k1 s → l ∈ held_of k2 s → k1 = k2;
  inv_nodup : ∀ k, NoDup (held_of k s);
  inv_rec : ∀ l k, l ∈ held_of k s → pc_of k s ≠ Got l → pc_of k s ≠ Rel l →
    lk_cpu (lock_of l (sm s)) = Some k;
  inv_cpu : ∀ l k, lk_cpu (lock_of l (sm s)) = Some k → l ∈ held_of k s;
  inv_mid : ∀ l k, pc_of k s = Got l ∨ pc_of k s = Rel l →
    l ∈ held_of k s ∧ lk_cpu (lock_of l (sm s)) = None;
  inv_spin : ∀ l k, pc_of k s = Spin l → l ∉ held_of k s ∧ (l < length (lks (sm s)))%nat;
  inv_range : ∀ l k, l ∈ held_of k s → (l < length (lks (sm s)))%nat
}.

Lemma pc_of_upd k j p h m s :
  (k < length (pcs s))%nat →
  pc_of j (upd k p h m s) = if decide (j = k) then p else pc_of j s.
Proof.
  intros Hk. unfold pc_of. simpl. case_decide as E.
  - subst. by rewrite list_lookup_insert_eq.
  - by rewrite list_lookup_insert_ne.
Qed.

Lemma held_of_upd k j p h m s :
  (k < length (held s))%nat →
  held_of j (upd k p h m s) = if decide (j = k) then h else held_of j s.
Proof.
  intros Hk. unfold held_of. simpl. case_decide as E.
  - subst. by rewrite list_lookup_insert_eq.
  - by rewrite list_lookup_insert_ne.
Qed.

Lemma pc_of_range k s : pc_of k s ≠ Run → (k < length (pcs s))%nat.
Proof.
  unfold pc_of. destruct (pcs s !! k) eqn:E; [|done]. intros _. by eapply lookup_lt_Some.
Qed.

Lemma drop_lock_in l h x : x ∈ drop_lock l h → x ∈ h.
Proof.
  induction h as [|y h IH]; simpl; [done|].
  destruct (Nat.eqb_spec y l); set_solver.
Qed.

Lemma drop_lock_nodup l h : NoDup h → NoDup (drop_lock l h) ∧ l ∉ drop_lock l h.
Proof.
  induction h as [|y h IH]; simpl; intros Hnd; [set_solver|].
  apply list.NoDup_cons in Hnd as [Hy Hnd]. destruct (IH Hnd) as [H1 H2].
  destruct (Nat.eqb_spec y l); subst; [done|].
  split; [|set_solver]. apply NoDup_cons_2; [|done].
  intros H. by apply drop_lock_in in H.
Qed.

Lemma drop_lock_other l h x : x ∈ h → x ≠ l → x ∈ drop_lock l h.
Proof.
  induction h as [|y h IH]; simpl; [done|]. intros Hx Hne.
  destruct (Nat.eqb_spec y l); set_solver.
Qed.

Lemma drop_lock_length l h : l ∈ h → length h = S (length (drop_lock l h)).
Proof.
  induction h as [|y h IH]; simpl; intros Hl; [set_solver|].
  destruct (Nat.eqb_spec y l); [done|]. simpl. f_equal. apply IH. set_solver.
Qed.

Lemma inv_core_ok s k : inv s → (k < length (pcs s))%nat → core_ok k (sm s).
Proof.
  intros H Hk. rewrite (inv_pcs s H) in Hk. split_and!; [done | | by apply H].
  rewrite (inv_ncli s H) by done. destruct (pc_of k s); simpl; lia.
Qed.

(** In the middle of an acquire or a release interrupts are off. *)
Lemma inv_mid_off s k l :
  inv s → pc_of k s = Got l ∨ pc_of k s = Rel l →
  (k < length (cpus (sm s)))%nat ∧ 1 ≤ ncli (cpu_of k (sm s)) ∧
  e_if (core_of k (sm s)) = false.
Proof.
  intros H Hpc. assert (k < length (pcs s))%nat as Hk.
  { apply pc_of_range. intros E. destruct Hpc; congruence. }
  rewrite (inv_pcs s H) in Hk. destruct (inv_mid s H l k Hpc) as [Hin _].
  assert (1 ≤ ncli (cpu_of k (sm s))) as Hn.
  { rewrite (inv_ncli s H) by done. destruct (held_of k s); [set_solver|].
    simpl. destruct (pc_of k s); simpl; lia. }
  split_and!; [done..|]. destruct (e_if _) eqn:E; [|done].
  apply (inv_if s H) in E; lia.
Qed.

(** Rewriting the components of a step's result, by cases on the index. *)
Ltac step_simpl :=
  repeat first
    [ rewrite cpu_of_with in *
    | rewrite core_of_with in *
    | rewrite pc_of_upd in * by lia
    | rewrite held_of_upd in * by lia
    | rewrite core_of_set in * by lia
    | rewrite cpu_of_set in * by lia
    | rewrite lock_of_with in * by (simpl; lia)
    | rewrite lock_of_set_core in * ].

Ltac step_cases := step_simpl; repeat case_decide; subst; simpl in *.

(** One xchg of the spin loop that finds the lock taken changes nothing. *)
Lemma inv_spinning k l s :
  inv s → pc_of k s = Spin l → locked (lock_of l (sm s)) ≠ 0 →
  inv (upd k (Spin l) (held_of k s)
           (with_lock l (Spinlock 1 (lk_cpu (lock_of l (sm s)))) (sm s)) s).
Proof.
  intros H Hpc Hw. assert (k < length (pcs s))%nat as Hk by (apply pc_of_range; congruence).
  pose proof (inv_pcs s H) as Hp. pose proof (inv_held s H) as He.
  destruct (inv_spin s H l k Hpc) as [Hni Hl].
  split; simpl; rewrite ?length_insert; try done.
  - apply wf_with_lock, H.
  - intros j Hj. step_cases; [|by apply H].
    rewrite (inv_ncli s H) by lia. by rewrite Hpc.
  - intros j Hj. by apply H.
  - intros l' E j. step_cases; try lia; by apply (inv_word s H).
  - intros l' k1 k2. step_cases; by apply (inv_one s H).
  - intros j. step_cases; by apply (inv_nodup s H).
  - intros l' j. step_cases; intros; try done; apply (inv_rec s H); congruence.
  - intros l' j E. step_cases; by apply (inv_cpu s H).
  - intros l' j E. step_cases; try (by destruct E); by apply (inv_mid s H).
  - intros l' j E. step_cases; [by injection E as -> | by apply (inv_spin s H)].
  - intros l' j E. step_cases; by eapply (inv_range s H).
Qed.

Lemma inv_take k l s :
  inv s → pc_of k s = Spin l → locked (lock_of l (sm s)) = 0 →
  inv (upd k (Got l) (l :: held_of k s)
           (with_lock l (Spinlock 1 (lk_cpu (lock_of l (sm s)))) (sm s)) s).
Proof.
  intros H Hpc Hw. assert (k < length (pcs s))%nat as Hk by (apply pc_of_range; congruence).
  pose proof (inv_pcs s H) as Hp. pose proof (inv_held s H) as He.
  destruct (inv_spin s H l k Hpc) as [Hni Hl].
  pose proof (inv_word s H l Hw) as Hfree.
  assert (lk_cpu (lock_of l (sm s)) = None) as Hnone.
  { destruct (lk_cpu _) as [j|] eqn:E; [|done]. by apply (inv_cpu s H), Hfree in E. }
  split; simpl; rewrite ?length_insert; try done.
  - apply wf_with_lock, H.
  - intros j Hj. step_cases; [|by apply H].
    rewrite (inv_ncli s H) by lia. rewrite Hpc. simpl. lia.
  - intros j Hj. by apply H.
  - intros l' E j. pose proof (inv_word s H l') as Hl'. step_cases; try lia; set_solver.
  - intros l' k1 k2. pose proof (inv_one s H l' k1 k2). step_cases; set_solver.
  - intros j. step_cases; [apply NoDup_cons_2; [done|]|]; by apply (inv_nodup s H).
  - intros l' j. pose proof (inv_rec s H l' j) as Hr. step_cases; intros Hin Hg Hrl.
    + done.
    + apply elem_of_cons in Hin as [->|Hin]; [done|]. apply Hr; congruence.
    + by apply Hfree in Hin.
    + by apply Hr.
  - intros l' j E. pose proof (inv_cpu s H l' j) as Hr. step_cases; set_solver.
  - intros l' j E. pose proof (inv_mid s H l' j) as Hr. step_cases; try set_solver.
    all: destruct E; simplify_eq.
  - intros l' j E. step_cases; [done | by apply (inv_spin s H)].
  - intros l' j E. pose proof (inv_range s H l' j). step_cases; set_solver.
Qed.

Lemma inv_acquired k l s :
  inv s → pc_of k s = Got l →
  inv (upd k Run (held_of k s)
           (with_lock l (Spinlock (locked (lock_of l (sm s))) (Some k)) (sm s)) s).
Proof.
  intros H Hpc. assert (k < length (pcs s))%nat as Hk by (apply pc_of_range; congruence).
  pose proof (inv_pcs s H) as Hp. pose proof (inv_held s H) as He.
  destruct (inv_mid s H l k) as [Hin Hnone]; [by left|].
  pose proof (inv_range s H l k Hin) as Hl.
  split; simpl; rewrite ?length_insert; try done.
  - apply wf_with_lock, H.
  - intros j Hj. step_cases; [|by apply H].
    rewrite (inv_ncli s H) by lia. rewrite Hpc. done.
  - intros j Hj. by apply H.
  - intros l' E j. pose proof (inv_word s H l') as Hl'. step_cases; by apply Hl'.
  - intros l' k1 k2. pose proof (inv_one s H l' k1 k2). step_cases; done.
  - intros j. step_cases; by apply (inv_nodup s H).
  - intros l' j. pose proof (inv_rec s H l' j) as Hr. step_cases; intros; try done.
    + apply Hr; congruence.
    + f_equal. by eapply (inv_one s H).
    + by apply Hr.
  - intros l' j E. pose proof (inv_cpu s H l' j) as Hr. step_cases; simplify_eq; set_solver.
  - intros l' j E. pose proof (inv_mid s H l' j) as Hr. pose proof (inv_one s H l j k).
    step_cases; [by destruct E.. | | by apply Hr]. destruct Hr; [done|]. naive_solver.
  - intros l' j E. step_cases; [done | by apply (inv_spin s H)].
  - intros l' j E. step_cases; by eapply (inv_range s H).
Qed.

Lemma inv_acquire k l s i :
  inv s → (k < length (pcs s))%nat → pc_of k s = Run → (l < length (lks (sm s)))%nat →
  ¬ holds k l (sm s) →
  inv (upd k (Spin l) (held_of k s) (set_core k false (ncli (cpu_of k (sm s)) + 1) i (sm s)) s).
Proof.
  intros H Hk Hpc Hl Hh. pose proof (inv_pcs s H) as Hp. pose proof (inv_held s H) as He.
  pose proof (wf_len _ (inv_wf s H)) as Hlen.
  assert (l ∉ held_of k s) as Hni.
  { intros Hin. apply Hh. split.
    - intros E. by apply (inv_word s H l E k).
    - apply (inv_rec s H); [done|congruence..]. }
  split; simpl; rewrite ?length_insert; try done.
  - apply wf_set_core; [apply H | lia].
  - intros j Hj. step_cases; [|by apply H].
    rewrite (inv_ncli s H) by lia. rewrite Hpc. simpl. lia.
  - intros j Hj. step_cases; [done | by apply H].
  - intros l' E j. step_cases; by apply (inv_word s H).
  - intros l' k1 k2. step_cases; by apply (inv_one s H).
  - intros j. step_cases; by apply (inv_nodup s H).
  - intros l' j. step_cases; [intros Hin _ _; apply (inv_rec s H); [done|congruence..]
                             | by apply (inv_rec s H)].
  - intros l' j E. step_cases; by apply (inv_cpu s H).
  - intros l' j E. step_cases; [destruct E; done | by apply (inv_mid s H)].
  - intros l' j E. step_cases; [by injection E as -> | by apply (inv_spin s H)].
  - intros l' j E. step_cases; by eapply (inv_range s H).
Qed.

Lemma inv_release k l s i :
  inv s → (k < length (pcs s))%nat → pc_of k s = Run → holds k l (sm s) →
  inv (upd k (Rel l) (held_of k s)
     (with_lock l (Spinlock (locked (lock_of l (sm s))) None)
       (set_core k (e_if (core_of k (sm s))) (ncli (cpu_of k (sm s))) i (sm s))) s).
Proof.
  intros H Hk Hpc [Hw Hcpu]. pose proof (inv_pcs s H) as Hp. pose proof (inv_held s H) as He.
  pose proof (wf_len _ (inv_wf s H)) as Hlen.
  pose proof (inv_cpu s H l k Hcpu) as Hin. pose proof (inv_range s H l k Hin) as Hl.
  split; simpl; rewrite ?length_insert; try done.
  - apply wf_with_lock, wf_set_core; [apply H | lia].
  - intros j Hj. step_cases; [|by apply H]. rewrite (inv_ncli s H) by lia. by rewrite Hpc.
  - intros j Hj. step_cases; by apply H.
  - intros l' E j. pose proof (inv_word s H l') as Hl'. step_cases; by apply Hl'.
  - intros l' k1 k2. pose proof (inv_one s H l' k1 k2). step_cases; done.
  - intros j. step_cases; by apply (inv_nodup s H).
  - intros l' j. pose proof (inv_rec s H l' j) as Hr. pose proof (inv_one s H l' j k).
    step_cases; intros; try done; try (apply Hr; congruence); naive_solver.
  - intros l' j E. pose proof (inv_cpu s H l' j) as Hr. step_cases; simplify_eq; by apply Hr.
  - intros l' j E. pose proof (inv_mid s H l' j) as Hr. pose proof (inv_one s H l' j k).
    step_cases; try done; try (by apply Hr); [destruct E; simplify_eq | naive_solver].
  - intros l' j E. step_cases; [done | by apply (inv_spin s H)].
  - intros l' j E. step_cases; by eapply (inv_range s H).
Qed.

Lemma inv_released k l s :
  inv s → pc_of k s = Rel l →
  inv (upd k Run (drop_lock l (held_of k s))
     (with_lock l (Spinlock 0 (lk_cpu (lock_of l (sm s))))
       (set_core k ((ncli (cpu_of k (sm s)) =? 1) && intena (cpu_of k (sm s)))
          (ncli (cpu_of k (sm s)) - 1) (intena (cpu_of k (sm s))) (sm s))) s).
Proof.
  intros H Hpc. assert (k < length (pcs s))%nat as Hk by (apply pc_of_range; congruence).
  pose proof (inv_pcs s H) as Hp. pose proof (inv_held s H) as He.
  pose proof (wf_len _ (inv_wf s H)) as Hlen.
  destruct (inv_mid s H l k) as [Hin Hnone]; [by right|].
  pose proof (inv_range s H l k Hin) as Hl.
  destruct (drop_lock_nodup l _ (inv_nodup s H k)) as [Hnd Hni].
  split; simpl; rewrite ?length_insert; try done.
  - apply wf_with_lock, wf_set_core; [apply H | lia].
  - intros j Hj. step_cases; [|by apply H]. rewrite (inv_ncli s H) by lia. rewrite Hpc.
    simpl. rewrite (drop_lock_length l (held_of k s)) by done. lia.
  - intros j Hj. step_cases; [|by apply H]. rewrite andb_true_iff, Z.eqb_eq. lia.
  - intros l' E j Hj. pose proof (inv_word s H l') as Hl'. pose proof (inv_one s H l j k).
    step_cases; [done | | naive_solver | by apply (Hl' E j)].
    apply drop_lock_in in Hj. by apply (Hl' E k).
  - intros l' k1 k2 H1 H2. pose proof (inv_one s H l' k1 k2).
    step_cases; eauto using drop_lock_in.
  - intros j. step_cases; [done | by apply (inv_nodup s H)].
  - intros l' j Hj Hg Hrl. pose proof (inv_rec s H l' j) as Hr. pose proof (inv_one s H l' j k).
    step_cases; [done | | naive_solver | by apply Hr].
    apply Hr; [by eapply drop_lock_in | congruence..].
  - intros l' j E. pose proof (inv_cpu s H l' j) as Hr. step_cases; simplify_eq.
    + by apply drop_lock_other; [apply Hr|].
    + by apply Hr.
  - intros l' j E. pose proof (inv_mid s H l' j) as Hr. pose proof (inv_one s H l' j k).
    step_cases; [by destruct E.. | naive_solver | by apply Hr].
  - intros l' j E. step_cases; [done | by apply (inv_spin s H)].
  - intros l' j E. step_cases; [apply drop_lock_in in E|]; by eapply (inv_range s H).
Qed.

Lemma inv_interrupts k b s :
  inv s → (k < length (pcs s))%nat → pc_of k s = Run → held_of k s = [] →
  inv (upd k Run (held_of k s)
     (set_core k b (ncli (cpu_of k (sm s))) (intena (cpu_of k (sm s))) (sm s)) s).
Proof.
  intros H Hk Hpc Hh. pose proof (inv_pcs s H) as Hp. pose proof (inv_held s H) as He.
  pose proof (wf_len _ (inv_wf s H)) as Hlen.
  split; simpl; rewrite ?length_insert; try done.
  - apply wf_set_core; [apply H | lia].
  - intros j Hj. step_cases; [|by apply H]. rewrite (inv_ncli s H) by lia. by rewrite Hpc.
  - intros j Hj. step_cases; [|by apply H]. intros _. rewrite (inv_ncli s H) by lia.
    by rewrite Hpc, Hh.
  - intros l' E j. step_cases; by apply (inv_word s H).
  - intros l' k1 k2. step_cases; by apply (inv_one s H).
  - intros j. step_cases; by apply (inv_nodup s H).
  - intros l' j. step_cases; [rewrite Hh; set_solver | by apply (inv_rec s H)].
  - intros l' j E. step_cases; by apply (inv_cpu s H).
  - intros l' j E. step_cases; [by destruct E | by apply (inv_mid s H)].
  - intros l' j E. step_cases; [done | by apply (inv_spin s H)].
  - intros l' j E. step_cases; by eapply (inv_range s H).
Qed.

Lemma inv_step s s' : inv s → step s s' → inv s'.
Proof.
  intros H Hst. pose proof (inv_wf s H) as Hwf. destruct Hst as
    [k l s m Hk Hpc Hl Hm|k l s m r Hpc Hm Hr|k l s m r Hpc Hm Hr|k l s m Hpc Hm
    |k l s m Hk Hpc Hm|k l s m Hpc Hm|k s m b Hk Hpc Hh Hm].
  - apply acquire_begin_effect in Hm as (i & -> & Hnh); [|done|by apply inv_core_ok].
    by apply inv_acquire.
  - injection Hm as <- <-. by apply inv_spinning.
  - injection Hm as <- <-. by apply inv_take.
  - destruct (inv_mid_off s k l H) as (Hk & _ & Hoff); [by left|].
    apply acquire_end_effect in Hm as ->; [by apply inv_acquired | done..].
  - apply release_begin_effect in Hm as (i & -> & Hh); [|done|by apply inv_core_ok].
    by apply inv_release.
  - destruct (inv_mid_off s k l H) as (Hk & Hn & Hoff); [by right|].
    apply release_end_effect in Hm as ->; [by apply inv_released | done..].
  - rewrite set_if_set_core in Hm; [|done|by rewrite <- (inv_pcs s H)].
    injection Hm as <-. by apply inv_interrupts.
Qed.

Lemma boot_inv ids m : NoDup ids → inv (boot ids m).
Proof.
  intros Hnd.
  assert (∀ k, pc_of k (boot ids m) = Run) as Hpc.
  { intros k. unfold pc_of; simpl. destruct (replicate _ _ !! k) eqn:E; [|done].
    by apply lookup_replicate in E as [-> _]. }
  assert (∀ k, held_of k (boot ids m) = []) as Hh.
  { intros k. unfold held_of; simpl. destruct (replicate _ _ !! k) eqn:E; [|done].
    by apply lookup_replicate in E as [-> _]. }
  assert (∀ l, lock_of l (sm (boot ids m)) = lock0) as Hl.
  { intros l. unfold lock_of; simpl. destruct (replicate _ _ !! l) eqn:E; [|done].
    by apply lookup_replicate in E as [-> _]. }
  assert (∀ k, ncli (cpu_of k (sm (boot ids m))) = 0) as Hn.
  { intros k. unfold cpu_of; simpl. change map with (@fmap list list_fmap). rewrite list_lookup_fmap.
    by destruct (ids !! k). }
  split; try (intros; rewrite ?Hpc, ?Hh, ?Hl, ?Hn in *; done || set_solver).
  - split; simpl.
    + by rewrite !length_map.
    + rewrite length_map. intros k Hk. unfold core_of, cpu_of; simpl.
      change map with (@fmap list list_fmap). rewrite !list_lookup_fmap. by destruct (ids !! k).
    + change map with (@fmap list list_fmap). rewrite <- list_fmap_compose.
      by rewrite (list_fmap_ext _ id), list_fmap_id.
  - simpl. by rewrite length_replicate, length_map.
  - simpl. by rewrite length_replicate, length_map.
  - intros k. rewrite Hh. constructor.
Qed.

Lemma reachable_inv s0 s : inv s0 → reachable s0 s → inv s.
Proof. intros H0. induction 1; eauto using inv_step. Qed.

(** ** What the locks guarantee *)

(** C10. However the cores interleave, two cores never own the same spin lock,
    and a core that owns one runs with interrupts off and with ncli counting
    the locks it owns. *)
Theorem spinlock_mutual_exclusion ids m s l k :
  NoDup ids → reachable (boot ids m) s → l ∈ held_of k s →
  (∀ k', l ∈ held_of k' s → k' = k) ∧
  e_if (core_of k (sm s)) = false ∧
  Z.of_nat (length (held_of k s)) ≤ ncli (cpu_of k (sm s)).
Proof.
  intros Hnd Hr Hin. pose proof (reachable_inv _ s (boot_inv ids m Hnd) Hr) as H.
  assert (k < length (cpus (sm s)))%nat as Hk.
  { rewrite <- (inv_held s H). unfold held_of in Hin.
    destruct (held s !! k) eqn:E; [by eapply lookup_lt_Some | set_solver]. }
  split; [intros k' Hk'; by apply (inv_one s H l)|].
  pose proof (inv_ncli s H k Hk) as Hn.
  assert (0 ≤ spinning (pc_of k s)) by (destruct (pc_of k s); simpl; lia).
  split; [|lia]. destruct (e_if _) eqn:E; [|done].
  apply (inv_if s H k Hk) in E. destruct (held_of k s); [set_solver|]. simpl in Hn. lia.
Qed.

(** In every reachable state acquire by a core that owns the lock panics
    and by another core reaches the spin loop; release succeeds for the owner
    and panics for every other core. *)
Theorem acquire_release_outcomes ids m s l k :
  NoDup ids → reachable (boot ids m) s → (k < length (pcs s))%nat → pc_of k s = Run →
  (if decide (l ∈ held_of k s) then
     acquire_begin k l (sm s) = Panic "acquire" ∧ ∃ s', release_begin k l (sm s) = Ok tt s'
   else
     (∃ s', acquire_begin k l (sm s) = Ok tt s') ∧ release_begin k l (sm s) = Panic "release").
Proof.
  intros Hnd Hr Hk Hpc. pose proof (reachable_inv _ s (boot_inv ids m Hnd) Hr) as H.
  pose proof (inv_wf s H) as Hwf. pose proof (inv_core_ok s k H Hk) as Hok.
  assert (holds k l (sm s) ↔ l ∈ held_of k s) as Hh.
  { split; [intros [_ Hc]; by apply (inv_cpu s H)|]. intros Hin. split.
    - intros E. by apply (inv_word s H l E k).
    - apply (inv_rec s H); congruence. }
  destruct (holding_cases k l (sm s) Hwf Hok) as (b & i & Hb & Hbt).
  destruct Hok as (Hkc & Hn & Hif).
  set (s1 := set_core k false (ncli (cpu_of k (sm s)) + 1)
    (if ncli (cpu_of k (sm s)) =? 0 then e_if (core_of k (sm s))
     else intena (cpu_of k (sm s))) (sm s)).
  destruct (holding_cases k l s1) as (b1 & i1 & Hb1 & Hbt1).
  { by apply wf_set_core. }
  { unfold s1. split_and!; mach; [rewrite cpu_of_set_same by done; simpl; lia|].
    by rewrite core_of_set_same. }
  unfold acquire_begin, release_begin.
  erewrite bind_ok by (by apply pushcli_spec). fold s1. erewrite bind_ok by exact Hb1.
  erewrite bind_ok by exact Hb.
  assert (holds k l s1 ↔ holds k l (sm s)) as Hh1 by done.
  case_decide as E.
  - rewrite (proj2 Hbt1) by (by apply Hh1, Hh). rewrite (proj2 Hbt) by (by apply Hh).
    split; [done|]. eauto.
  - destruct b; [destruct E; by apply Hh, Hbt|]. destruct b1; [destruct E; by apply Hh, Hh1, Hbt1|].
    split; [eauto | done].
Qed.

Fixpoint times {S} (n : nat) (m : M S unit) : M S unit :=
  match n with
  | O => mret tt
  | S n => times n m;; m
  end.

Lemma times_pushcli k n s :
  wf_mach s → core_ok k s →
  ∃ i, times n (pushcli k) s =
    Ok tt (set_core k (match n with O => e_if (core_of k s) | _ => false end)
                    (ncli (cpu_of k s) + Z.of_nat n) i s) ∧
    (i = intena (cpu_of k s) ∨ (n ≠ O ∧ ncli (cpu_of k s) = 0)) ∧
    (n ≠ O → ncli (cpu_of k s) = 0 → i = e_if (core_of k s)).
Proof.
  intros Hwf (Hk & Hn & Hif). induction n as [|n (i & Hi & Hi1 & Hi2)].
  { exists (intena (cpu_of k s)). simpl. rewrite Z.add_0_r, set_core_same by done.
    split_and!; [done | by left | done]. }
  simpl times. erewrite bind_ok by exact Hi.
  rewrite pushcli_spec by mach. rewrite cpu_of_set_same, core_of_set_same by done.
  simpl. rewrite set_core_twice by done.
  replace (ncli (cpu_of k s) + Z.of_nat n + 1) with (ncli (cpu_of k s) + Z.of_nat (S n)) by lia.
  eexists. split; [done|].
  destruct (Z.eqb_spec (ncli (cpu_of k s) + Z.of_nat n) 0) as [E|E].
  - assert (n = O) as -> by lia. split_and!; [right; lia | done].
  - split; [destruct Hi1 as [->|[? ?]]; [by left | right; lia]|].
    intros _ E0. apply Hi2; lia.
Qed.

Lemma times_popcli k n s :
  wf_mach s → (k < length (cpus s))%nat → (n ≠ O → e_if (core_of k s) = false) →
  Z.of_nat n ≤ ncli (cpu_of k s) →
  times n (popcli k) s =
    Ok tt (set_core k
      (match n with O => e_if (core_of k s)
       | _ => (ncli (cpu_of k s) =? Z.of_nat n) && intena (cpu_of k s) end)
      (ncli (cpu_of k s) - Z.of_nat n) (intena (cpu_of k s)) s).
Proof.
  intros Hwf Hk Hoff. induction n as [|n IH]; intros Hn.
  { simpl. by rewrite Z.sub_0_r, set_core_same. }
  simpl times. erewrite bind_ok by (apply IH; [by intros; apply Hoff | lia]).
  rewrite popcli_spec; mach.
  - rewrite cpu_of_set_same, set_core_twice by done. cbn [ncli intena]. f_equal.
    replace (ncli (cpu_of k s) - Z.of_nat n - 1) with (ncli (cpu_of k s) - Z.of_nat (S n)) by lia.
    replace (ncli (cpu_of k s) - Z.of_nat n =? 1) with (ncli (cpu_of k s) =? Z.of_nat (S n));
      [done|].
    destruct (Z.eqb_spec (ncli (cpu_of k s)) (Z.of_nat (S n))),
      (Z.eqb_spec (ncli (cpu_of k s) - Z.of_nat n) 1); lia.
  - rewrite core_of_set_same by done. destruct n; [by apply Hoff|].
    destruct (Z.eqb_spec (ncli (cpu_of k s)) (Z.of_nat (S n))); [lia | done].
  - rewrite cpu_of_set_same by done. simpl. lia.
Qed.

(** pushcli and popcli nest: after n pushcli the interrupts are off, they
    stay off through fewer than n popcli, and n popcli give back the flag and
    the depth from before; none of them panics. *)
Theorem pushcli_popcli_nest k n p s :
  wf_mach s → core_ok k s → (p ≤ n)%nat →
  ∃ s', (times n (pushcli k);; times p (popcli k)) s = Ok tt s' ∧
    ncli (cpu_of k s') = ncli (cpu_of k s) + Z.of_nat n - Z.of_nat p ∧
    e_if (core_of k s') = (if (p =? n)%nat then e_if (core_of k s) else false).
Proof.
  intros Hwf Hok Hp. destruct (times_pushcli k n s Hwf Hok) as (i & Hi & Hi1 & Hi2).
  destruct Hok as (Hk & Hn & Hif). erewrite bind_ok by exact Hi.
  rewrite times_popcli; mach.
  2: { intros. rewrite core_of_set_same by done. by destruct n; [lia|]. }
  2: { rewrite cpu_of_set_same by done. simpl. lia. }
  eexists. split; [done|].
  rewrite cpu_of_set_same, core_of_set_same by mach. rewrite cpu_of_set_same by done. simpl.
  split; [done|]. destruct p as [|p].
  { rewrite core_of_set_same by done. by destruct n. }
  destruct n as [|n]; [lia|]. destruct (Nat.eqb_spec (S p) (S n)) as [E|E].
  - rewrite E. destruct (Z.eqb_spec (ncli (cpu_of k s) + Z.of_nat (S n)) (Z.of_nat (S n))) as [E0|E0].
    + rewrite Hi2 by lia. done.
    + simpl. destruct (e_if _) eqn:Ee; [|done]. specialize (Hif eq_refl). lia.
  - destruct (Z.eqb_spec (ncli (cpu_of k s) + Z.of_nat (S n)) (Z.of_nat (S p))); [lia | done].
Qed.

(** ** Sleep locks: one owner and no lost wakeup *)

(** The lock word is set exactly when one thread owns it, by the recorded pid;
    while it is clear no thread is asleep on it. *)
Definition sl_inv (s : sls) : Prop :=
  if sl_locked (sl s) then
    ∃ t, sl_pid (sl s) = pid_of t ∧ ∀ t', threads s !! t' = Some TOwn ↔ t' = t
  else ∀ t x, threads s !! t = Some x → x = TOut ∨ x = TWoken.

Lemma sl_inv_init n : sl_inv (Sls initsleeplock (replicate n TOut)).
Proof. intros t x. simpl. rewrite lookup_replicate. intros [-> _]. by left. Qed.

Lemma sl_inv_acquire t s x :
  threads s !! t = Some x → x = TOut ∨ x = TWoken → sl_inv s → sl_inv (acquiresleep_try t s).
Proof.
  intros Ht Hx H. unfold acquiresleep_try, sl_inv in *.
  pose proof (lookup_lt_Some _ _ _ Ht) as Hlt.
  destruct (sl_locked (sl s)) eqn:E; simpl.
  - rewrite E. destruct H as (o & Hp & Ho). exists o. split; [done|]. intros t'.
    destruct (decide (t' = t)) as [->|Hne].
    + rewrite list_lookup_insert_eq by done. split; [done|]. intros ->.
      apply (proj2 (Ho o)) in Ht as Ht'; [|done] || idtac.
      pose proof (proj2 (Ho o) eq_refl) as Ht'. rewrite Ht in Ht'.
      destruct Hx; subst; done.
    + rewrite list_lookup_insert_ne by done. apply Ho.
  - exists t. split; [done|]. intros t'. destruct (decide (t' = t)) as [->|Hne].
    + by rewrite list_lookup_insert_eq.
    + rewrite list_lookup_insert_ne by done. split; [|done]. intros Ht'.
      apply H in Ht' as [|]; done.
Qed.

Lemma sl_inv_release t s : threads s !! t = Some TOwn → sl_inv s → sl_inv (releasesleep t s).
Proof.
  intros Ht H. unfold sl_inv in *. simpl. destruct (sl_locked (sl s)) eqn:E.
  - destruct H as (o & _ & Ho). apply Ho in Ht as Hto. subst o. intros t' x.
    rewrite list_lookup_fmap, fmap_Some. intros (y & Hy & ->).
    destruct (decide (t' = t)) as [->|Hne].
    + rewrite list_lookup_insert_eq in Hy by (by eapply lookup_lt_Some).
      injection Hy as <-. by left.
    + rewrite list_lookup_insert_ne in Hy by done. destruct y; simpl; auto.
      by apply Ho in Hy.
  - by apply H in Ht as [|].
Qed.

Lemma sl_inv_step s s' : sl_step s s' → sl_inv s → sl_inv s'.
Proof.
  intros Hst. destruct Hst as [t s x Ht Hx|t s Ht|t s Ht]; intros H.
  - by eapply sl_inv_acquire.
  - by apply sl_inv_release.
  - pose proof (lookup_lt_Some _ _ _ Ht) as Hlt. unfold sl_inv in *. simpl.
    destruct (sl_locked (sl s)); [|by apply H in Ht as [|]].
    destruct H as (o & Hp & Ho). exists o. split; [done|]. intros t'.
    destruct (decide (t' = t)) as [->|Hne].
    + rewrite list_lookup_insert_eq by done. split; [done|]. intros ->.
      pose proof (proj2 (Ho o) eq_refl) as Ht'. congruence.
    + by rewrite list_lookup_insert_ne.
Qed.

(** C24. A sleep lock has at most one owner, the thread whose pid it records,
    which is the only one for which holdingsleep is true; and when it is free
    no thread is left asleep waiting for it, even if sleepers are killed. *)
Theorem sleeplock_one_owner_no_lost_wakeup n s t x :
  sl_reachable n s → threads s !! t = Some x →
  (x = TOwn ↔ holdingsleep (sl s) (pid_of t) = true) ∧
  (x = TSleep → sl_locked (sl s) = true).
Proof.
  intros Hr Ht. assert (sl_inv s) as H.
  { clear Ht. induction Hr; [apply sl_inv_init | by eapply sl_inv_step]. }
  unfold sl_inv in H. unfold holdingsleep. destruct (sl_locked (sl s)); simpl.
  - split; [|done]. destruct H as (o & -> & Ho). rewrite Z.eqb_eq.
    assert (pid_of o = pid_of t ↔ t = o) as -> by (unfold pid_of; lia).
    rewrite <- Ho, Ht. split; [by intros -> | by intros [= ->]].
  - apply H in Ht. split; [|intros ->; naive_solver].
    split; [intros ->; naive_solver | done].
Qed.

(** Two cores and one lock, which core 0 owns. *)
Definition owned_by_0 : sys :=
  Sys (Mach [Core false 0; Core false 1] [Cpu 0 1 false; Cpu 1 0 false] [Spinlock 1 (Some 0%nat)])
      [Run; Run] [[0%nat]; []].

Lemma owned_by_0_reachable : reachable (boot [0; 1] 1) owned_by_0.
Proof.
  eapply reach_step; [eapply reach_step; [eapply reach_step; [apply reach_refl|]|]|].
  - eapply (step_acquire 0 0); [simpl; lia | done | simpl; lia | vm_compute; reflexivity].
  - eapply (step_take 0 0); [done | vm_compute; reflexivity | done].
  - eapply (step_acquired 0 0); [done | vm_compute; reflexivity].
Qed.

Lemma spinlock_mutual_exclusion_witness :
  reachable (boot [0; 1] 1) owned_by_0 ∧
  (∀ k', (0%nat ∈ held_of k' owned_by_0) → k' = 0%nat) ∧
  e_if (core_of 0 (sm owned_by_0)) = false ∧ 1 ≤ ncli (cpu_of 0 (sm owned_by_0)).
Proof.
  split; [exact owned_by_0_reachable|].
  apply (spinlock_mutual_exclusion [0; 1] 1 owned_by_0 0 0).
  - apply (bool_decide_unpack _). vm_compute. exact I.
  - exact owned_by_0_reachable.
  - apply list_elem_of_here.
Defined.

Lemma acquire_release_outcomes_witness :
  acquire_begin 0 0 (sm owned_by_0) = Panic "acquire" ∧
  release_begin 1 0 (sm owned_by_0) = Panic "release".
Proof.
  assert (NoDup [0; 1]) as Hnd by (apply (bool_decide_unpack _); vm_compute; exact I).
  split.
  - exact (proj1 (acquire_release_outcomes [0; 1] 1 owned_by_0 0 0 Hnd owned_by_0_reachable
      ltac:(simpl; lia) eq_refl)).
  - exact (proj2 (acquire_release_outcomes [0; 1] 1 owned_by_0 0 1 Hnd owned_by_0_reachable
      ltac:(simpl; lia) eq_refl)).
Defined.

Lemma pushcli_popcli_nest_witness :
  ∃ s', (times 2 (pushcli 0);; times 2 (popcli 0))
          (Mach [Core true 7] [Cpu 7 0 false] []) = Ok tt s' ∧
    ncli (cpu_of 0 s') = 0 ∧ e_if (core_of 0 s') = true.
Proof.
  apply (pushcli_popcli_nest 0 2 2 (Mach [Core true 7] [Cpu 7 0 false] [])).
  - split; [done | | apply (bool_decide_unpack _); vm_compute; exact I].
    intros k Hk. simpl in Hk. by destruct k; [|lia].
  - split_and!; [simpl; lia | simpl; lia | done].
  - lia.
Defined.

Lemma sleeplock_one_owner_no_lost_wakeup_witness :
  let s := Sls (Sleeplock true 1) [TOwn; TSleep] in
  holdingsleep (sl s) (pid_of 0) = true ∧ sl_locked (sl s) = true.
Proof.
  assert (sl_reachable 2 (Sls (Sleeplock true 1) [TOwn; TSleep])) as Hr.
  { set (s1 := acquiresleep_try 0 (Sls initsleeplock (replicate 2 TOut))).
    change (sl_reachable 2 (acquiresleep_try 1 s1)).
    eapply sl_next; [eapply sl_next; [apply sl_init|]|].
    - by apply (sl_acquire 0 _ TOut); [|left].
    - by apply (sl_acquire 1 s1 TOut); [|left]. }
  intros s. split.
  - exact (proj1 (proj1 (sleeplock_one_owner_no_lost_wakeup 2 s 0 TOwn Hr eq_refl)) eq_refl).
  - exact (proj2 (sleeplock_one_owner_no_lost_wakeup 2 s 1 TSleep Hr eq_refl) eq_refl).
Defined.
