(* ===== verification/Dll.v ===== *)
(** * Dll: circular doubly linked lists through a head node

    The buffer cache threads its buffers on a circular list by their prev and
    next pointers.  Here the two pointer fields are functions on node numbers;
    [seg nx pv a l b] says that following next from [a] passes the nodes [l]
    and arrives at [b], and that prev leads back.  [unlink] and [push_front]
    are the pointer assignments of brelse (bio.c); the lemmas show what list
    they leave. *)

From Stdlib Require Import Lia.
From stdpp Require Import base option list sets.

Definition ptr : Type := nat → nat.

Definition setp (f : ptr) (x v : nat) : ptr := λ y, if decide (y = x) then v else f y.

Fixpoint seg (nx pv : ptr) (a : nat) (l : list nat) (b : nat) : Prop :=
  match l with
  | [] => nx a = b ∧ pv b = a
  | c :: l => nx a = c ∧ pv c = a ∧ seg nx pv c l b
  end.

(** b->next->prev = b->prev; b->prev->next = b->next *)
Definition unlink (nx pv : ptr) (x : nat) : ptr * ptr :=
  let pv := setp pv (nx x) (pv x) in
  let nx := setp nx (pv x) (nx x) in
  (nx, pv).

(** b->next = head.next; b->prev = &head; head.next->prev = b; head.next = b *)
Definition push_front (nx pv : ptr) (h x : nat) : ptr * ptr :=
  let nx := setp nx x (nx h) in
  let pv := setp pv x h in
  let pv := setp pv (nx h) x in
  let nx := setp nx h x in
  (nx, pv).

Lemma setp_eq f x v : setp f x v x = v.
Proof. unfold setp. by rewrite decide_True. Qed.

Lemma setp_ne f x v y : y ≠ x → setp f x v y = f y.
Proof. intros. unfold setp. by rewrite decide_False. Qed.

Lemma seg_app nx pv a l1 c l2 b :
  seg nx pv a (l1 ++ c :: l2) b ↔ seg nx pv a l1 c ∧ seg nx pv c l2 b.
Proof.
  revert a. induction l1 as [|d l1 IH]; intros a; simpl; [tauto|]. rewrite IH. tauto.
Qed.

Lemma seg_ext nx pv nx' pv' a l b :
  (∀ y, y = a ∨ y ∈ l → nx y = nx' y) → (∀ y, y ∈ l ∨ y = b → pv y = pv' y) →
  seg nx pv a l b → seg nx' pv' a l b.
Proof.
  revert a. induction l as [|c l IH]; intros a Hn Hp; simpl.
  - rewrite <- Hn, <- Hp by set_solver. done.
  - rewrite <- Hn, <- Hp by set_solver. intros (? & ? & ?). split_and!; [done..|].
    apply IH; [..|done]; set_solver.
Qed.

(** The node before the end, and the first node, of a segment. *)
Lemma seg_last nx pv a l b : seg nx pv a l b → pv b = default a (last l).
Proof.
  revert a. induction l as [|c l IH]; intros a; simpl; [by intros [_ ?]|].
  intros (_ & _ & H). rewrite (IH _ H), last_cons. by destruct (last l).
Qed.

Lemma seg_first nx pv a l b : seg nx pv a l b → nx a = default b (head l).
Proof. destruct l; simpl; naive_solver. Qed.

Lemma seg_snoc nx pv a l c b :
  seg nx pv a (l ++ [c]) b ↔ seg nx pv a l c ∧ nx c = b ∧ pv b = c.
Proof. rewrite seg_app. done. Qed.

(** Seen backwards, the segment is its reverse. *)
Lemma seg_rev nx pv a l b : seg nx pv a l b → seg pv nx b (reverse l) a.
Proof.
  revert a. induction l as [|c l IH]; intros a; simpl; [by intros [? ?]|].
  intros (? & ? & ?). rewrite reverse_cons, seg_snoc. auto.
Qed.

(** The pointers of a segment stay in it. *)
Lemma seg_next_in nx pv a l b y : seg nx pv a l b → y = a ∨ y ∈ l → nx y ∈ l ++ [b].
Proof.
  revert a. induction l as [|c l IH]; intros a; simpl.
  - intros [<- _] [->|?]; set_solver.
  - intros (Hc & _ & Hs) [->|[->|Hy]%elem_of_cons]; [set_solver|..];
      apply elem_of_cons; right; eapply IH; eauto.
Qed.

(** Cutting the last link of a segment and closing it elsewhere. *)
Lemma seg_close nx pv a l b n :
  NoDup (a :: l) → n ∉ l → seg nx pv a l b →
  seg (setp nx (pv b) n) (setp pv n (pv b)) a l n.
Proof.
  intros Hnd Hn H. pose proof (seg_last _ _ _ _ _ H) as Hlast.
  destruct l as [|c l] using rev_ind; [|clear IHl].
  - simpl in *. destruct H as [H1 H2]. rewrite H2. by rewrite !setp_eq.
  - rewrite last_snoc in Hlast. simpl in Hlast. rewrite Hlast.
    apply seg_app in H as [Hl [Hc1 Hc2]]. apply seg_app. split.
    + eapply seg_ext; [..|exact Hl].
      * intros y Hy. rewrite setp_ne; [done|]. intros ->.
        apply list.NoDup_cons in Hnd as [Ha Hnd]. apply NoDup_app in Hnd as (_ & Hnd & _).
        set_solver.
      * intros y Hy. rewrite setp_ne; [done|]. intros ->. set_solver.
    + simpl. by rewrite !setp_eq.
Qed.

Lemma unlink_seg nx pv h l1 x l2 :
  NoDup (h :: l1 ++ x :: l2) → seg nx pv h (l1 ++ x :: l2) h →
  seg (unlink nx pv x).1 (unlink nx pv x).2 h (l1 ++ l2) h.
Proof.
  intros Hnd H. apply seg_app in H as [H1 H2]. unfold unlink. simpl.
  assert (NoDup (h :: l1)) as Hnd1.
  { apply list.NoDup_cons in Hnd as [? Hnd]. apply NoDup_app in Hnd as (? & _ & _).
    apply list.NoDup_cons. set_solver. }
  assert (x ∉ l1 ∧ x ∉ l2 ∧ h ≠ x ∧ h ∉ l1 ∧ h ∉ l2 ∧ (∀ y, y ∈ l1 → y ∉ l2) ∧ NoDup l2)
    as (Hx1 & Hx2 & Hhx & Hh1 & Hh2 & Hdisj & Hnd2).
  { apply list.NoDup_cons in Hnd as [? Hnd]. apply NoDup_app in Hnd as (? & Hd & Hnd).
    apply list.NoDup_cons in Hnd as [? ?]. set_solver. }
  pose proof (seg_last _ _ _ _ _ H1) as Hp. pose proof (seg_first _ _ _ _ _ H2) as Hn.
  assert (setp pv (nx x) (pv x) x = pv x) as Hpx.
  { apply setp_ne. rewrite Hn. destruct l2; simpl; set_solver. }
  rewrite Hpx. destruct l2 as [|n l2]; simpl in Hn.
  - rewrite app_nil_r. rewrite Hn. apply seg_close; [done | set_solver | done].
  - rewrite Hn. apply seg_app. destruct H2 as (_ & _ & H2). split.
    + apply seg_close; [done | set_solver | done].
    + eapply seg_ext; [..|exact H2].
      * intros y Hy. rewrite setp_ne; [done|]. rewrite Hp.
        destruct (last l1) as [z|] eqn:E; simpl; [|set_solver].
        apply last_Some in E as [l1' ->]. set_solver.
      * intros y Hy. rewrite setp_ne; [done|]. apply list.NoDup_cons in Hnd2. set_solver.
Qed.

Lemma push_front_seg nx pv h x l :
  NoDup (h :: l) → x ∉ h :: l → seg nx pv h l h →
  seg (push_front nx pv h x).1 (push_front nx pv h x).2 h (x :: l) h.
Proof.
  intros Hnd Hx H. unfold push_front. simpl.
  assert (h ≠ x) as Hhx by set_solver.
  assert (x ≠ h) as Hxh by set_solver.
  pose proof (seg_first _ _ _ _ _ H) as Hf. rewrite (setp_ne _ x _ h) by done.
  assert (nx h ≠ x) as Hnx. { rewrite Hf. destruct l; simpl; set_solver. }
  rewrite setp_eq. split; [done|].
  rewrite (setp_ne _ (nx h)) by done. rewrite setp_eq. split; [done|].
  destruct l as [|c l]; simpl in *.
  - destruct H as [H1 H2]. rewrite H1. rewrite setp_ne, setp_eq by done. by rewrite setp_eq.
  - destruct H as (H1 & H2 & H3). rewrite H1.
    rewrite (setp_ne _ h) by done. rewrite !setp_eq. split_and!; [done..|].
    apply list.NoDup_cons in Hnd as [Hh Hnd]. apply list.NoDup_cons in Hnd as [Hc Hnd].
    eapply seg_ext; [..|exact H3].
    + intros y Hy. rewrite !setp_ne; [done|..]; set_solver.
    + intros y Hy. rewrite !setp_ne; [done|..]; set_solver.
Qed.
