(* ===== verification/Bio.v ===== *)
(** * Bio: the buffer cache of bio.c over the disk of memide.c

    A buffer is named by its index: 0..NBUF-1 in bcache.buf, [HEAD] for
    bcache.head.  The buffers keep their prev and next pointers, and bget
    follows them (most recently used first to find a block, least recently
    used first to recycle a buffer).  iderw is the one of memide.c, which
    completes at once; Ide.v shows that the interrupt-driven one of ide.c does
    the same.  The disk records the sequence of the blocks written to it, so
    that a crash can be placed between any two writes.  The code runs in the
    process [cur]; a buffer locked by another process, or already by this
    one, makes bget sleep.  A spin lock is the flag of the cpu that runs the
    code: acquiring it twice panics (see Locks).

    [view] is the contents a block has for the users of the cache: the cached
    data if it is cached and valid, else the disk's.  Shown: bread returns a
    locked buffer holding the block's view and changes no view; bwrite makes
    the disk agree with the buffer; brelse keeps every view provided a changed
    buffer was marked dirty, and makes the buffer the most recently used one;
    the pointers always form one circular list of all the buffers. *)

From Stdlib Require Import ZArith Lia Bool.
From stdpp Require Import base option list sets gmap strings numbers.
From S2P Require Import Prelude Locks Dll.

#[local] Open Scope string_scope.
#[local] Open Scope list_scope.
#[local] Open Scope Z_scope.

Definition BSIZE : Z := 512.
Definition NBUF : nat := 30.
Definition HEAD : nat := 30.
Definition ROOTDEV : Z := 1.
Definition B_VALID : Z := 2.
Definition B_DIRTY : Z := 4.

Definition block : Type := list Z.
Definition zero_block : block := replicate 512 0.

(** struct buf of buf.h. *)
Record buf := Buf {
  b_flags : Z; b_dev : Z; b_blockno : Z; b_lock : sleeplock; b_refcnt : Z;
  b_prev : nat; b_next : nat; b_data : block
}.

Definition set_flags (v : Z) (b : buf) : buf :=
  Buf v (b_dev b) (b_blockno b) (b_lock b) (b_refcnt b) (b_prev b) (b_next b) (b_data b).
Definition set_dev (v : Z) (b : buf) : buf :=
  Buf (b_flags b) v (b_blockno b) (b_lock b) (b_refcnt b) (b_prev b) (b_next b) (b_data b).
Definition set_blockno (v : Z) (b : buf) : buf :=
  Buf (b_flags b) (b_dev b) v (b_lock b) (b_refcnt b) (b_prev b) (b_next b) (b_data b).
Definition set_lk (v : sleeplock) (b : buf) : buf :=
  Buf (b_flags b) (b_dev b) (b_blockno b) v (b_refcnt b) (b_prev b) (b_next b) (b_data b).
Definition set_refcnt (v : Z) (b : buf) : buf :=
  Buf (b_flags b) (b_dev b) (b_blockno b) (b_lock b) v (b_prev b) (b_next b) (b_data b).
Definition set_prev (v : nat) (b : buf) : buf :=
  Buf (b_flags b) (b_dev b) (b_blockno b) (b_lock b) (b_refcnt b) v (b_next b) (b_data b).
Definition set_next (v : nat) (b : buf) : buf :=
  Buf (b_flags b) (b_dev b) (b_blockno b) (b_lock b) (b_refcnt b) (b_prev b) v (b_data b).
Definition set_data (v : block) (b : buf) : buf :=
  Buf (b_flags b) (b_dev b) (b_blockno b) (b_lock b) (b_refcnt b) (b_prev b) (b_next b) v.

(** The disk: its size and contents in blocks, and the writes it has seen. *)
Record disk := Disk { d_size : Z; d_blocks : gmap Z block; d_writes : list (Z * block) }.

Definition disk_get (d : disk) (b : Z) : block := default zero_block (d_blocks d !! b).
Definition disk_put (d : disk) (b : Z) (x : block) : disk :=
  Disk (d_size d) (<[b := x]> (d_blocks d)) (d_writes d ++ [(b, x)]).

(** bcache (its lock and its buffers), the disk, and the pid of myproc(). *)
Record bst := Bst { bc_lock : bool; bufs : list buf; dsk : disk; cur : Z }.

Definition buf0 : buf := Buf 0 0 0 initsleeplock 0 HEAD HEAD zero_block.
Definition buf_of (i : nat) (s : bst) : buf := default buf0 (bufs s !! i).

Definition upd_buf (i : nat) (f : buf → buf) (s : bst) : bst :=
  Bst (bc_lock s) (alter f i (bufs s)) (dsk s) (cur s).
Definition set_bc_lock (b : bool) (s : bst) : bst := Bst b (bufs s) (dsk s) (cur s).
Definition set_dsk (d : disk) (s : bst) : bst := Bst (bc_lock s) (bufs s) d (cur s).

Definition acquire_bcache : M bst unit :=
  l ← gets bc_lock;
  if l : bool then panic "acquire" else modify (set_bc_lock true).
Definition release_bcache : M bst unit :=
  l ← gets bc_lock;
  if l : bool then modify (set_bc_lock false) else panic "release".

(** acquiresleep, releasesleep and holdingsleep on b->lock, in one process. *)
Definition acquiresleep_b (i : nat) : M bst unit :=
  s ← mget;
  if sl_locked (b_lock (buf_of i s)) then sleep_on (ChBufLock i)
  else modify (upd_buf i (set_lk (Sleeplock true (cur s)))).
Definition releasesleep_b (i : nat) : M bst unit :=
  modify (upd_buf i (set_lk (Sleeplock false 0))).
Definition holdingsleep_b (i : nat) : M bst bool :=
  s ← mget; mret (holdingsleep (b_lock (buf_of i s)) (cur s)).

(** One iteration of binit's loop links buffer [b] in front of the list. *)
Definition binit_link (b : nat) (s : bst) : bst :=
  let s := upd_buf b (set_next (b_next (buf_of HEAD s))) s in
  let s := upd_buf b (set_prev HEAD) s in
  let s := upd_buf b (set_lk initsleeplock) s in
  let s := upd_buf (b_next (buf_of HEAD s)) (set_prev b) s in
  upd_buf HEAD (set_next b) s.

Definition binit : M bst unit :=
  modify (set_bc_lock false);;
  modify (upd_buf HEAD (set_prev HEAD));;
  modify (upd_buf HEAD (set_next HEAD));;
  foreach (seq 0 NBUF) (λ b, modify (binit_link b)).

(** The for loops of bget: follow [dir] (next or prev) from [b] until the head
    or a buffer that satisfies [p].  [None] when the fuel runs out, which the
    invariant excludes: a walk visits each of the NBUF buffers once. *)
Fixpoint scan (fuel : nat) (dir : buf → nat) (p : buf → bool) (s : bst) (b : nat)
    : option (option nat) :=
  match fuel with
  | O => None
  | S fuel =>
      if (b =? HEAD)%nat then Some None
      else if p (buf_of b s) then Some (Some b)
      else scan fuel dir p s (dir (buf_of b s))
  end.

Definition cached_as (dev blockno : Z) (b : buf) : bool :=
  (b_dev b =? dev) && (b_blockno b =? blockno).
Definition recyclable (b : buf) : bool :=
  (b_refcnt b =? 0) && (Z.land (b_flags b) B_DIRTY =? 0).

Definition bget (dev blockno : Z) : M bst nat :=
  acquire_bcache;;
  s ← mget;
  match scan (S NBUF) b_next (cached_as dev blockno) s (b_next (buf_of HEAD s)) with
  | None => undef "the list of buffers does not end"
  | Some (Some b) =>
      modify (upd_buf b (set_refcnt (u32 (b_refcnt (buf_of b s) + 1))));;
      release_bcache;;
      acquiresleep_b b;;
      mret b
  | Some None =>
      match scan (S NBUF) b_prev recyclable s (b_prev (buf_of HEAD s)) with
      | None => undef "the list of buffers does not end"
      | Some (Some b) =>
          modify (upd_buf b (set_dev dev));;
          modify (upd_buf b (set_blockno blockno));;
          modify (upd_buf b (set_flags 0));;
          modify (upd_buf b (set_refcnt 1));;
          release_bcache;;
          acquiresleep_b b;;
          mret b
      | Some None => panic "bget: no buffers"
      end
  end.

(** iderw of memide.c. *)
Definition iderw (i : nat) : M bst unit :=
  h ← holdingsleep_b i;
  b ← gets (buf_of i);
  d ← gets dsk;
  if negb h then panic "iderw: buf not locked" else
  if Z.land (b_flags b) (Z.lor B_VALID B_DIRTY) =? B_VALID then panic "iderw: nothing to do" else
  if negb (b_dev b =? 1) then panic "iderw: request not for disk 1" else
  if d_size d <=? b_blockno b then panic "iderw: block out of range" else
  (if negb (Z.land (b_flags b) B_DIRTY =? 0) then
     modify (upd_buf i (set_flags (Z.land (b_flags b) (Z.lnot B_DIRTY))));;
     modify (set_dsk (disk_put d (b_blockno b) (b_data b)))
   else
     modify (upd_buf i (set_data (disk_get d (b_blockno b)))));;
  b ← gets (buf_of i);
  modify (upd_buf i (set_flags (Z.lor (b_flags b) B_VALID))).

(** ideinit of memide.c, where [img] is what is linked between
    _binary_fs_img_start and its end, and the empty ideintr. *)
Definition memide_blocks (img : list Z) : list block :=
  (λ i, take (Z.to_nat BSIZE) (drop (i * Z.to_nat BSIZE) img)) <$> seq 0 (Z.to_nat (Z.of_nat (length img) / BSIZE)).
Definition memide_ideinit (img : list Z) : M bst unit :=
  modify (set_dsk (Disk (Z.of_nat (length img) / BSIZE) (map_seqZ 0 (memide_blocks img)) [])).
Definition memide_ideintr : M bst unit := mret tt.

Definition bread (dev blockno : Z) : M bst nat :=
  b ← bget dev blockno;
  x ← gets (buf_of b);
  when (Z.land (b_flags x) B_VALID =? 0) (iderw b);;
  mret b.

Definition bwrite (i : nat) : M bst unit :=
  h ← holdingsleep_b i;
  if negb h then panic "bwrite" else
  b ← gets (buf_of i);
  modify (upd_buf i (set_flags (Z.lor (b_flags b) B_DIRTY)));;
  iderw i.

(** The pointer assignments of brelse that move [b] to the front. *)
Definition move_front (b : nat) (s : bst) : bst :=
  let s := upd_buf (b_next (buf_of b s)) (set_prev (b_prev (buf_of b s))) s in
  let s := upd_buf (b_prev (buf_of b s)) (set_next (b_next (buf_of b s))) s in
  let s := upd_buf b (set_next (b_next (buf_of HEAD s))) s in
  let s := upd_buf b (set_prev HEAD) s in
  let s := upd_buf (b_next (buf_of HEAD s)) (set_prev b) s in
  upd_buf HEAD (set_next b) s.

Definition brelse (i : nat) : M bst unit :=
  h ← holdingsleep_b i;
  if negb h then panic "brelse" else
  releasesleep_b i;;
  acquire_bcache;;
  b ← gets (buf_of i);
  modify (upd_buf i (set_refcnt (u32 (b_refcnt b - 1))));;
  b ← gets (buf_of i);
  when (b_refcnt b =? 0) (modify (move_front i));;
  release_bcache.

(** ** The invariant of the cache *)

Definition is_valid (b : buf) : bool := Z.testbit (b_flags b) 1.
Definition is_dirty (b : buf) : bool := Z.testbit (b_flags b) 2.
Definition nxt (s : bst) : ptr := λ i, b_next (buf_of i s).
Definition prv (s : bst) : ptr := λ i, b_prev (buf_of i s).

(** The buffers in the order of the list, the most recently used first. *)
Definition ring (s : bst) (l : list nat) : Prop :=
  l ≡ₚ seq 0 NBUF ∧ seg (nxt s) (prv s) HEAD l HEAD.

Record buf_ok (d : disk) (b : buf) : Prop := {
  ok_len : length (b_data b) = 512%nat;
  ok_ref : b_refcnt b = if sl_locked (b_lock b) then 1 else 0;
  ok_dirty : is_dirty b = true → is_valid b = true;
  ok_clean : sl_locked (b_lock b) = false → b_dev b = ROOTDEV → is_valid b = true →
    is_dirty b = false → b_data b = disk_get d (b_blockno b)
}.

Record wf_bst (s : bst) : Prop := {
  wf_len : length (bufs s) = S NBUF;
  wf_lock : bc_lock s = false;
  wf_ring : ∃ l, ring s l;
  wf_buf : ∀ i, (i < NBUF)%nat → buf_ok (dsk s) (buf_of i s);
  wf_keys : ∀ i j, (i < NBUF)%nat → (j < NBUF)%nat → b_dev (buf_of i s) = ROOTDEV →
    b_dev (buf_of j s) = ROOTDEV → b_blockno (buf_of i s) = b_blockno (buf_of j s) → i = j;
  wf_disk : ∀ b, length (disk_get (dsk s) b) = 512%nat
}.

(** The buffers that hold a valid copy of block [b], at most one by [wf_keys]. *)
Definition copy_of (s : bst) (b : Z) (i : nat) : bool :=
  cached_as ROOTDEV b (buf_of i s) && is_valid (buf_of i s).

Definition view (s : bst) (b : Z) : block :=
  match filter (copy_of s b) (seq 0 NBUF) with
  | i :: _ => b_data (buf_of i s)
  | [] => disk_get (dsk s) b
  end.

(** The current process holds buffer [i], which caches block [b]. *)
Definition holds (s : bst) (i : nat) (b : Z) : Prop :=
  (i < NBUF)%nat ∧ sl_locked (b_lock (buf_of i s)) = true ∧ sl_pid (b_lock (buf_of i s)) = cur s ∧
  b_dev (buf_of i s) = ROOTDEV ∧ b_blockno (buf_of i s) = b ∧ is_valid (buf_of i s) = true.

(** What bread needs in order to return: the block is cached and not locked,
    or it is not cached and some buffer can be recycled. *)
Definition readable (s : bst) (b : Z) : Prop :=
  (∃ i, (i < NBUF)%nat ∧ cached_as ROOTDEV b (buf_of i s) = true ∧
        sl_locked (b_lock (buf_of i s)) = false) ∨
  ((∀ i, (i < NBUF)%nat → cached_as ROOTDEV b (buf_of i s) = false) ∧
   ∃ i, (i < NBUF)%nat ∧ recyclable (buf_of i s) = true).

Create Rewrite HintDb bio.

(** ** Lemmas on buffers and flags *)

Lemma buf_of_upd_eq i f s :
  (i < length (bufs s))%nat → buf_of i (upd_buf i f s) = f (buf_of i s).
Proof.
  intros H. unfold buf_of, upd_buf. simpl. rewrite list_lookup_alter_eq.
  destruct (lookup_lt_is_Some_2 _ _ H) as [x ->]. done.
Qed.

Lemma buf_of_upd_ne i j f s : i ≠ j → buf_of j (upd_buf i f s) = buf_of j s.
Proof. intros. unfold buf_of, upd_buf. simpl. by rewrite list_lookup_alter_ne. Qed.

Lemma length_upd i f s : length (bufs (upd_buf i f s)) = length (bufs s).
Proof. unfold upd_buf. simpl. by rewrite length_alter. Qed.

(** A field the update does not touch. *)
Lemma field_upd {A} (p : buf → A) i f j s :
  (∀ b, p (f b) = p b) → p (buf_of j (upd_buf i f s)) = p (buf_of j s).
Proof.
  intros Hf. destruct (decide (i = j)) as [->|]; [|by rewrite buf_of_upd_ne].
  destruct (decide (j < length (bufs s))%nat); [by rewrite buf_of_upd_eq|].
  unfold buf_of, upd_buf. simpl. rewrite list_lookup_alter_eq, lookup_ge_None_2 by lia. done.
Qed.

Lemma land_bit f n : 0 ≤ n → (Z.land f (2 ^ n) =? 0) = negb (Z.testbit f n).
Proof.
  intros Hn. destruct (Z.testbit f n) eqn:E; simpl.
  - apply Z.eqb_neq. intros H. assert (Z.testbit (Z.land f (2 ^ n)) n = false) as Hf
      by (rewrite H; apply Z.testbit_0_l).
    rewrite Z.land_spec, E, Z.pow2_bits_true in Hf by done. done.
  - apply Z.eqb_eq. apply Z.bits_inj'. intros m Hm.
    rewrite Z.land_spec, Z.testbit_0_l, Z.pow2_bits_eqb by done.
    destruct (Z.eqb_spec n m) as [<-|]; [by rewrite E | apply andb_false_r].
Qed.

Lemma land_valid b : (Z.land (b_flags b) B_VALID =? 0) = negb (is_valid b).
Proof. apply (land_bit _ 1). done. Qed.
Lemma land_dirty b : (Z.land (b_flags b) B_DIRTY =? 0) = negb (is_dirty b).
Proof. apply (land_bit _ 2). done. Qed.

Lemma land_both b : (Z.land (b_flags b) (Z.lor B_VALID B_DIRTY) =? B_VALID) =
  is_valid b && negb (is_dirty b).
Proof.
  unfold is_valid, is_dirty. set (f := b_flags b).
  assert (Z.land f (Z.lor B_VALID B_DIRTY) =
          Z.b2z (Z.testbit f 1) * 2 + Z.b2z (Z.testbit f 2) * 4) as ->.
  { apply Z.bits_inj'. intros n Hn. rewrite Z.land_spec.
    destruct (decide (n < 3)) as [Hlt|Hge].
    - assert (n = 0 ∨ n = 1 ∨ n = 2) as [-> | [-> | ->]] by lia;
      destruct (Z.testbit f 1), (Z.testbit f 2); cbn; rewrite ?andb_true_r, ?andb_false_r; done.
    - change (Z.lor B_VALID B_DIRTY) with 6.
      rewrite (Z.bits_above_log2 6), andb_false_r by (cbn [Z.log2 Pos.size]; lia).
      symmetry. destruct (Z.testbit f 1), (Z.testbit f 2); cbn [Z.b2z];
        try apply Z.testbit_0_l; apply Z.bits_above_log2; try done;
        [change (2 < n)|change (1 < n)|change (2 < n)]; lia. }
  by destruct (Z.testbit f 1), (Z.testbit f 2).
Qed.

(** Replacing a whole buffer; every update of one buffer has this form. *)
Definition put_buf (i : nat) (b : buf) (s : bst) : bst := upd_buf i (λ _, b) s.

Lemma bst_eq s t :
  bc_lock s = bc_lock t → bufs s = bufs t → dsk s = dsk t → cur s = cur t → s = t.
Proof. destruct s, t; simpl; congruence. Qed.

Lemma upd_put i f s :
  (i < length (bufs s))%nat → upd_buf i f s = put_buf i (f (buf_of i s)) s.
Proof.
  intros H. apply bst_eq; try done. simpl. unfold buf_of.
  destruct (lookup_lt_is_Some_2 _ _ H) as [x Hx]. rewrite Hx. simpl.
  apply list_eq. intros j. destruct (decide (i = j)) as [->|].
  - rewrite !list_lookup_alter_eq, Hx. done.
  - rewrite !list_lookup_alter_ne by done. done.
Qed.

Lemma put_put i b b' s : put_buf i b (put_buf i b' s) = put_buf i b s.
Proof.
  apply bst_eq; try done. simpl. apply list_eq. intros j. destruct (decide (i = j)) as [->|].
  - rewrite !list_lookup_alter_eq. by destruct (bufs s !! j).
  - by rewrite !list_lookup_alter_ne by done.
Qed.

Lemma put_eq i b s : (i < length (bufs s))%nat → buf_of i (put_buf i b s) = b.
Proof. intros. unfold put_buf. by rewrite buf_of_upd_eq. Qed.

Lemma put_ne i j b s : i ≠ j → buf_of j (put_buf i b s) = buf_of j s.
Proof. apply buf_of_upd_ne. Qed.

Lemma length_put i b s : length (bufs (put_buf i b s)) = length (bufs s).
Proof. apply length_upd. Qed.

Lemma put_id i s : put_buf i (buf_of i s) s = s.
Proof.
  apply bst_eq; try done. simpl. apply list_eq. intros j. unfold buf_of.
  destruct (decide (i = j)) as [->|].
  - rewrite list_lookup_alter_eq. by destruct (bufs s !! j).
  - by rewrite list_lookup_alter_ne.
Qed.

Lemma wf_nbuf s i : wf_bst s → (i < NBUF)%nat → (i < length (bufs s))%nat.
Proof. intros H ?. rewrite (wf_len _ H). lia. Qed.

Lemma seg_ptrs s t l :
  (∀ i, b_next (buf_of i t) = b_next (buf_of i s)) →
  (∀ i, b_prev (buf_of i t) = b_prev (buf_of i s)) → ring s l → ring t l.
Proof.
  intros Hn Hp [? Hs]. split; [done|]. eapply seg_ext; [..|exact Hs]; intros y _;
  unfold nxt, prv; by rewrite ?Hn, ?Hp.
Qed.

Lemma wf_put s i b :
  wf_bst s → (i < NBUF)%nat → b_next b = b_next (buf_of i s) → b_prev b = b_prev (buf_of i s) →
  buf_ok (dsk s) b →
  (b_dev b = ROOTDEV → ∀ j, (j < NBUF)%nat → j ≠ i → b_dev (buf_of j s) = ROOTDEV →
     b_blockno (buf_of j s) ≠ b_blockno b) →
  wf_bst (put_buf i b s).
Proof.
  intros W Hi Hn Hp Hok Hkey. pose proof (wf_nbuf _ _ W Hi) as Hl.
  assert (∀ j, buf_of j (put_buf i b s) = if decide (j = i) then b else buf_of j s) as Hb.
  { intros j. case_decide as E; [subst; by apply put_eq | by apply put_ne]. }
  split.
  - rewrite length_put. apply (wf_len _ W).
  - apply (wf_lock _ W).
  - destruct (wf_ring _ W) as [l Hr]. exists l.
    eapply seg_ptrs; [..|exact Hr]; intros j; rewrite Hb; case_decide; subst; done.
  - intros j Hj. rewrite Hb. case_decide; [done | by apply (wf_buf _ W)].
  - intros j k Hj Hk. rewrite !Hb. case_decide as E; case_decide as E'; intros H1 H2 H3.
    + congruence.
    + exfalso. by apply (Hkey H1 k).
    + exfalso. by apply (Hkey H2 j).
    + by apply (wf_keys _ W).
  - apply (wf_disk _ W).
Qed.

Lemma view_char s c x :
  (∀ j, (j < NBUF)%nat → copy_of s c j = true → b_data (buf_of j s) = x) →
  ((∀ j, (j < NBUF)%nat → copy_of s c j = false) → disk_get (dsk s) c = x) →
  view s c = x.
Proof.
  intros H1 H2. unfold view. destruct (filter (copy_of s c) (seq 0 NBUF)) as [|i l] eqn:E.
  - apply H2. intros j Hj. destruct (copy_of s c j) eqn:F; [|done].
    assert (j ∈ filter (copy_of s c) (seq 0 NBUF)) as Hin.
    { apply list_elem_of_filter. rewrite elem_of_seq, F. split; [done|lia]. }
    rewrite E in Hin. set_solver.
  - assert (i ∈ filter (copy_of s c) (seq 0 NBUF)) as Hin by (rewrite E; set_solver).
    apply list_elem_of_filter in Hin as [F Hin]. rewrite elem_of_seq in Hin.
    apply H1; [lia|]. by apply Is_true_true.
Qed.

Lemma copy_key s c j : copy_of s c j = true ↔
  b_dev (buf_of j s) = ROOTDEV ∧ b_blockno (buf_of j s) = c ∧ is_valid (buf_of j s) = true.
Proof. unfold copy_of, cached_as. rewrite !andb_true_iff, !Z.eqb_eq. tauto. Qed.

Lemma view_copy s c i : wf_bst s → (i < NBUF)%nat →
  b_dev (buf_of i s) = ROOTDEV → b_blockno (buf_of i s) = c → is_valid (buf_of i s) = true →
  view s c = b_data (buf_of i s).
Proof.
  intros W Hi Hd Hb Hv. apply view_char.
  - intros j Hj [? [? ?]]%copy_key. replace j with i; [done|].
    apply (wf_keys _ W); congruence.
  - intros Hno. specialize (Hno i Hi). assert (copy_of s c i = true) by (apply copy_key; done).
    congruence.
Qed.

(** ** The walks of bget *)

Lemma scan_seg fuel dir back p s a l :
  seg (λ i, dir (buf_of i s)) back a l HEAD → HEAD ∉ l → (length l < fuel)%nat →
  scan fuel dir p s (dir (buf_of a s)) = Some (head (filter (λ i, p (buf_of i s)) l)).
Proof.
  revert fuel a. induction l as [|c l IH]; intros fuel a Hs Hh Hf; destruct fuel as [|fuel];
    simpl in Hf; try lia; simpl in Hs.
  - destruct Hs as [-> _]. done.
  - destruct Hs as (-> & _ & Hs). cbn [scan].
    destruct (Nat.eqb_spec c HEAD) as [->|_]; [set_solver|].
    rewrite filter_cons. destruct (p (buf_of c s)) eqn:E; [done|]. simpl.
    apply IH; [done | set_solver | lia].
Qed.

Lemma scan_lock fuel dir p b s a :
  scan fuel dir p (set_bc_lock b s) a = scan fuel dir p s a.
Proof.
  revert a. induction fuel as [|fuel IH]; intros a; simpl; [done|]. rewrite IH. done.
Qed.

Lemma ring_range s l i : ring s l → i ∈ l ↔ (i < NBUF)%nat.
Proof. intros [H _]. rewrite H, elem_of_seq. lia. Qed.

Lemma ring_no_head s l : ring s l → HEAD ∉ l.
Proof. intros Hr Hin. apply (ring_range _ _ _ Hr) in Hin. unfold HEAD, NBUF in *. lia. Qed.

Lemma ring_length s l : ring s l → length l = NBUF.
Proof. intros [H _]. rewrite H. apply length_seq. Qed.

(** Either walk finds a buffer that satisfies [p] if and only if there is one. *)
Lemma head_filter_ring s l (p : buf → bool) : (∀ i, i ∈ l ↔ (i < NBUF)%nat) →
  match head (filter (λ i, p (buf_of i s)) l) with
  | Some i => (i < NBUF)%nat ∧ p (buf_of i s) = true
  | None => ∀ i, (i < NBUF)%nat → p (buf_of i s) = false
  end.
Proof.
  intros Hl. destruct (filter (λ i, p (buf_of i s)) l) as [|i k] eqn:E; simpl.
  - intros i Hi. destruct (p (buf_of i s)) eqn:F; [|done].
    assert (i ∈ filter (λ i, p (buf_of i s)) l) as Hin.
    { apply list_elem_of_filter. rewrite F, Hl. done. }
    rewrite E in Hin. set_solver.
  - assert (i ∈ filter (λ i, p (buf_of i s)) l) as Hin by (rewrite E; set_solver).
    apply list_elem_of_filter in Hin as [F Hin]. split; [by apply Hl | by apply Is_true_true].
Qed.

Lemma scan_next s p : wf_bst s → ∃ r,
  scan (S NBUF) b_next p s (b_next (buf_of HEAD s)) = Some r ∧
  match r with
  | Some i => (i < NBUF)%nat ∧ p (buf_of i s) = true
  | None => ∀ i, (i < NBUF)%nat → p (buf_of i s) = false
  end.
Proof.
  intros W. destruct (wf_ring _ W) as [l Hr]. eexists. split.
  - eapply scan_seg; [apply Hr | by eapply ring_no_head | rewrite (ring_length _ _ Hr); lia].
  - apply head_filter_ring. intros. by eapply ring_range.
Qed.

Lemma scan_prev s p : wf_bst s → ∃ r,
  scan (S NBUF) b_prev p s (b_prev (buf_of HEAD s)) = Some r ∧
  match r with
  | Some i => (i < NBUF)%nat ∧ p (buf_of i s) = true
  | None => ∀ i, (i < NBUF)%nat → p (buf_of i s) = false
  end.
Proof.
  intros W. destruct (wf_ring _ W) as [l Hr]. eexists. split.
  - eapply scan_seg; [apply seg_rev, Hr | rewrite elem_of_reverse; by eapply ring_no_head |].
    rewrite length_reverse, (ring_length _ _ Hr). lia.
  - apply head_filter_ring. intros. rewrite elem_of_reverse. by eapply ring_range.
Qed.

(** ** bget and bread *)

Definition claimed (b : buf) (dev blockno flags pid : Z) : buf :=
  Buf flags dev blockno (Sleeplock true pid) 1 (b_prev b) (b_next b) (b_data b).

(** The lock word commutes with updates of buffers. *)
Lemma lock_upd c i f s : set_bc_lock c (upd_buf i f s) = upd_buf i f (set_bc_lock c s).
Proof. done. Qed.
Lemma lock_lock c c' s : set_bc_lock c (set_bc_lock c' s) = set_bc_lock c s.
Proof. done. Qed.
Lemma buf_of_lock i c s : buf_of i (set_bc_lock c s) = buf_of i s.
Proof. done. Qed.
Lemma bc_lock_upd i f s : bc_lock (upd_buf i f s) = bc_lock s.
Proof. done. Qed.
Lemma cur_upd i f s : cur (upd_buf i f s) = cur s.
Proof. done. Qed.
Lemma dsk_upd i f s : dsk (upd_buf i f s) = dsk s.
Proof. done. Qed.
Lemma unlock_id s : bc_lock s = false → set_bc_lock false s = s.
Proof. intros H. by apply bst_eq. Qed.

#[local] Hint Rewrite lock_upd lock_lock buf_of_lock bc_lock_upd cur_upd dsk_upd : bio.

(** The outcome of bget, exactly: it claims the buffer that caches the block,
    or else a recycled one whose flags it clears. *)
Lemma bget_wp s b Q : wf_bst s → readable s b →
  (∀ i, (i < NBUF)%nat → sl_locked (b_lock (buf_of i s)) = false →
     cached_as ROOTDEV b (buf_of i s) = true →
     Q i (put_buf i (claimed (buf_of i s) ROOTDEV b (b_flags (buf_of i s)) (cur s)) s)) →
  (∀ i, (i < NBUF)%nat → recyclable (buf_of i s) = true →
     (∀ j, (j < NBUF)%nat → cached_as ROOTDEV b (buf_of j s) = false) →
     Q i (put_buf i (claimed (buf_of i s) ROOTDEV b 0 (cur s)) s)) →
  wp (bget ROOTDEV b) Q s.
Proof.
  intros W Hr Hhit Hmiss. unfold bget, acquire_bcache, release_bcache, acquiresleep_b.
  wp_steps. rewrite (wf_lock _ W). wp_steps. rewrite !scan_lock.
  destruct (scan_next s (cached_as ROOTDEV b) W) as (r & Er & Hs).
  change (buf_of HEAD (set_bc_lock true s)) with (buf_of HEAD s). rewrite Er.
  destruct r as [i|].
  - destruct Hs as [Hi Hc]. pose proof (wf_nbuf _ _ W Hi) as Hl.
    pose proof (ok_ref _ _ (wf_buf _ W i Hi)) as Href.
    wp_steps. cbn [bc_lock set_bc_lock upd_buf]. wp_steps.
    autorewrite with bio. rewrite unlock_id by apply (wf_lock _ W).
    rewrite (field_upd b_lock) by done.
    assert (sl_locked (b_lock (buf_of i s)) = false) as Hf.
    { destruct Hr as [(k & Hk & Hck & Hlk)|[Hno _]]; [|rewrite Hno in Hc by done; done].
      unfold cached_as in Hc, Hck. rewrite andb_true_iff, !Z.eqb_eq in Hc, Hck.
      replace i with k; [done|]. apply (wf_keys _ W); intuition congruence. }
    rewrite ?buf_of_lock, Hf in *. wp_steps.
    rewrite !upd_put, put_put, put_eq, Href by (rewrite ?length_put, ?length_upd; done).
    autorewrite with bio. specialize (Hhit i Hi Hf Hc).
    unfold cached_as in Hc. rewrite andb_true_iff, !Z.eqb_eq in Hc. destruct Hc as [Hd Hb].
    unfold claimed in Hhit. by rewrite <- Hd, <- Hb in Hhit.
  - assert (∃ i, (i < NBUF)%nat ∧ recyclable (buf_of i s) = true) as (k & Hk & Hrk).
    { destruct Hr as [(i & Hi & Hci & _)|[_ ?]]; [by rewrite Hs in Hci | done]. }
    destruct (scan_prev s recyclable W) as (r & Er' & Hs').
    rewrite Er'. destruct r as [i|]; [|rewrite Hs' in Hrk; done].
    destruct Hs' as [Hi Hri]. pose proof (wf_nbuf _ _ W Hi) as Hl.
    pose proof (ok_ref _ _ (wf_buf _ W i Hi)) as Href.
    wp_steps. cbn [bc_lock set_bc_lock upd_buf]. wp_steps.
    autorewrite with bio. rewrite unlock_id by apply (wf_lock _ W).
    rewrite !(field_upd b_lock) by done. rewrite ?buf_of_lock.
    destruct (sl_locked (b_lock (buf_of i s))) eqn:Hf.
    { unfold recyclable in Hri. rewrite Href in Hri. done. }
    wp_steps. rewrite !upd_put, !put_put, !put_eq by (rewrite ?length_put, ?length_upd; done).
    autorewrite with bio. by apply (Hmiss i).
Qed.

Lemma flags_bits f :
  Z.testbit (Z.lor f B_VALID) 1 = true ∧ Z.testbit (Z.lor f B_VALID) 2 = Z.testbit f 2 ∧
  Z.testbit (Z.lor f B_DIRTY) 1 = Z.testbit f 1 ∧ Z.testbit (Z.lor f B_DIRTY) 2 = true ∧
  Z.testbit (Z.land f (Z.lnot B_DIRTY)) 1 = Z.testbit f 1 ∧
  Z.testbit (Z.land f (Z.lnot B_DIRTY)) 2 = false.
Proof.
  rewrite !Z.lor_spec, !Z.land_spec, !Z.lnot_spec by done.
  change (Z.testbit B_VALID 1) with true. change (Z.testbit B_VALID 2) with false.
  change (Z.testbit B_DIRTY 1) with false. change (Z.testbit B_DIRTY 2) with true.
  by destruct (Z.testbit f 1), (Z.testbit f 2).
Qed.

Lemma iderw_read_wp s i (Q : unit → bst → Prop) (b := buf_of i s) :
  (i < length (bufs s))%nat → holdingsleep (b_lock b) (cur s) = true → b_dev b = ROOTDEV →
  b_blockno b < d_size (dsk s) → is_valid b = false → is_dirty b = false →
  Q tt (put_buf i (set_flags (Z.lor (b_flags b) B_VALID)
                     (set_data (disk_get (dsk s) (b_blockno b)) b)) s) →
  wp (iderw i) Q s.
Proof.
  intros Hi Hh Hd Hn Hv Hdt HQ. unfold iderw, holdingsleep_b. fold b. wp_steps. fold b.
  rewrite Hh, land_both, Hv, land_dirty, Hdt. cbn [negb andb].
  rewrite Hd, (proj2 (Z.leb_gt _ _) Hn). change (ROOTDEV =? 1) with true. cbn [negb].
  wp_steps. fold b. rewrite !upd_put, put_put, put_eq by (rewrite ?length_put, ?length_upd; done).
  done.
Qed.

Lemma iderw_write_wp s i (Q : unit → bst → Prop) (b := buf_of i s) :
  (i < length (bufs s))%nat → holdingsleep (b_lock b) (cur s) = true → b_dev b = ROOTDEV →
  b_blockno b < d_size (dsk s) → is_dirty b = true →
  Q tt (put_buf i (set_flags (Z.lor (Z.land (b_flags b) (Z.lnot B_DIRTY)) B_VALID) b)
          (set_dsk (disk_put (dsk s) (b_blockno b) (b_data b)) s)) →
  wp (iderw i) Q s.
Proof.
  intros Hi Hh Hd Hn Hdt HQ. unfold iderw, holdingsleep_b. wp_steps. fold b.
  rewrite Hh, land_both, land_dirty, Hdt, andb_false_r. cbn [negb].
  rewrite Hd, (proj2 (Z.leb_gt _ _) Hn). change (ROOTDEV =? 1) with true. cbn [negb].
  wp_steps. fold b.
  assert (∀ f d t, buf_of i (set_dsk d (upd_buf i f t)) = buf_of i (upd_buf i f t)) as E by done.
  rewrite E, buf_of_upd_eq by done. rewrite !upd_put by (simpl; rewrite ?length_alter; done).
  change (set_dsk ?d (put_buf ?i ?x ?s)) with (put_buf i x (set_dsk d s)).
  rewrite put_put, put_eq by done. done.
Qed.

(** Loading a block from the disk into a buffer that held nothing else but a
    clean copy changes no view. *)
Lemma view_load s i b x :
  wf_bst s → (i < NBUF)%nat →
  (∀ c, copy_of s c i = true → b_data (buf_of i s) = disk_get (dsk s) c) →
  (∀ j, (j < NBUF)%nat → j ≠ i → cached_as ROOTDEV b (buf_of j s) = false) →
  cached_as ROOTDEV b x = true → is_valid x = true → b_data x = disk_get (dsk s) b →
  ∀ c, view (put_buf i x s) c = view s c.
Proof.
  intros W Hi Hold Hno Hx Hv Hdata c. pose proof (wf_nbuf _ _ W Hi) as Hl.
  assert (∀ j, j ≠ i → copy_of (put_buf i x s) c j = copy_of s c j) as Hother.
  { intros j Hj. unfold copy_of. by rewrite put_ne. }
  assert (view s c = disk_get (dsk s) c ∨
          ∃ j, (j < NBUF)%nat ∧ j ≠ i ∧ copy_of s c j = true) as Hcase.
  { destruct (decide (Exists (λ j, j ≠ i ∧ copy_of s c j = true) (seq 0 NBUF))) as [He|He].
    - right. apply list.Exists_exists in He as (j & ? & ? & ?). exists j.
      split_and!; [|done..]. apply elem_of_seq in H. lia.
    - left. apply view_char; [|done]. intros j Hj Hc.
      destruct (decide (j = i)) as [->|Hji]; [by apply Hold|].
      destruct He. apply list.Exists_exists. exists j. rewrite elem_of_seq. split; [lia|done]. }
  unfold cached_as in Hx. rewrite andb_true_iff, !Z.eqb_eq in Hx. destruct Hx as [Hxd Hxb].
  apply view_char.
  - intros j Hj Hc. destruct (decide (j = i)) as [->|Hji].
    + rewrite put_eq by done. apply copy_key in Hc as (_ & Hb & _).
      rewrite put_eq in Hb by done. rewrite Hdata. assert (c = b) as -> by congruence.
      destruct Hcase as [->|(j & Hj' & Hji & Hc)]; [done|].
      unfold copy_of in Hc. by rewrite Hno in Hc.
    + rewrite put_ne by done. rewrite Hother in Hc by done. apply copy_key in Hc as (? & ? & ?).
      symmetry. by apply view_copy.
  - intros Hnone. simpl. destruct Hcase as [->|(j & Hj & Hji & Hc)]; [done|].
    rewrite <- (Hother j Hji) in Hc. by rewrite Hnone in Hc.
Qed.

(** Changing only the lock, the reference count and the flags but for B_VALID
    changes no view. *)
Lemma view_same s t :
  (∀ c i, copy_of t c i = copy_of s c i) → (∀ i, b_data (buf_of i t) = b_data (buf_of i s)) →
  dsk t = dsk s → ∀ c, view t c = view s c.
Proof.
  intros Hc Hd Hk c. unfold view. rewrite Hk.
  rewrite (list_filter_iff (copy_of t c) (copy_of s c)) by (intros; by rewrite Hc).
  destruct (filter (copy_of s c) (seq 0 NBUF)); [done|apply Hd].
Qed.

Lemma put_field {A} (p : buf → A) i x s j :
  p x = p (buf_of i s) → p (buf_of j (put_buf i x s)) = p (buf_of j s).
Proof.
  intros H. destruct (decide (i = j)) as [->|]; [|by rewrite put_ne].
  destruct (decide (j < length (bufs s))%nat); [by rewrite put_eq|].
  unfold put_buf, buf_of, upd_buf. simpl. by rewrite list_lookup_alter_eq, lookup_ge_None_2 by lia.
Qed.

(** What a client knows after bread. *)
Record bread_post (s : bst) (b : Z) (i : nat) (s' : bst) : Prop := {
  br_wf : wf_bst s';
  br_holds : holds s' i b;
  br_data : b_data (buf_of i s') = view s b;
  br_view : ∀ c, view s' c = view s c;
  br_dsk : dsk s' = dsk s;
  br_cur : cur s' = cur s;
  br_others : ∀ j, j ≠ i → buf_of j s' = buf_of j s;
  br_free : sl_locked (b_lock (buf_of i s)) = false;
  br_dirty : is_dirty (buf_of i s') = is_dirty (buf_of i s);
  br_key : is_dirty (buf_of i s) = true → cached_as ROOTDEV b (buf_of i s) = true;
  br_ring : ∀ l, ring s l → ring s' l
}.

Lemma cached_key dev b x : cached_as dev b x = true ↔ b_dev x = dev ∧ b_blockno x = b.
Proof. unfold cached_as. rewrite andb_true_iff, !Z.eqb_eq. done. Qed.

Lemma bread_post_intro s b i x :
  wf_bst s → (i < NBUF)%nat → sl_locked (b_lock (buf_of i s)) = false →
  (∀ j, (j < NBUF)%nat → j ≠ i → cached_as ROOTDEV b (buf_of j s) = false) →
  cached_as ROOTDEV b x = true → b_lock x = Sleeplock true (cur s) → b_refcnt x = 1 →
  b_prev x = b_prev (buf_of i s) → b_next x = b_next (buf_of i s) →
  is_valid x = true → b_data x = view s b → length (b_data x) = 512%nat →
  is_dirty x = is_dirty (buf_of i s) →
  (is_dirty (buf_of i s) = true → cached_as ROOTDEV b (buf_of i s) = true) →
  (∀ c, view (put_buf i x s) c = view s c) →
  bread_post s b i (put_buf i x s).
Proof.
  intros W Hi Hl Hno Hx Hlk Hrc Hpv Hnx Hv Hdata Hlen Hdt Hkey Hview.
  apply cached_key in Hx as [Hxd Hxb].
  split; try done.
  - apply wf_put; try done.
    + split; [done | by rewrite Hlk, Hrc | done | by rewrite Hlk].
    + intros _ j Hj Hji Hd Hb. specialize (Hno j Hj Hji).
      assert (cached_as ROOTDEV b (buf_of j s) = true) by (apply cached_key; split; congruence).
      congruence.
  - unfold holds. rewrite put_eq by by apply wf_nbuf. by rewrite Hlk.
  - by rewrite put_eq by by apply wf_nbuf.
  - intros j Hj. by apply put_ne.
  - by rewrite put_eq by by apply wf_nbuf.
  - intros l. apply seg_ptrs; intros j; by apply put_field.
Qed.

Lemma unique_key s b i : wf_bst s → (i < NBUF)%nat → cached_as ROOTDEV b (buf_of i s) = true →
  ∀ j, (j < NBUF)%nat → j ≠ i → cached_as ROOTDEV b (buf_of j s) = false.
Proof.
  intros W Hi [Hd Hb]%cached_key j Hj Hji. destruct (cached_as ROOTDEV b (buf_of j s)) eqn:E; [|done].
  apply cached_key in E as [? ?]. destruct Hji. apply (wf_keys _ W); congruence.
Qed.

(** A buffer that holds no valid copy, or a clean one nobody uses. *)
Lemma clean_copy s i : wf_bst s → (i < NBUF)%nat → sl_locked (b_lock (buf_of i s)) = false →
  is_dirty (buf_of i s) = false →
  ∀ c, copy_of s c i = true → b_data (buf_of i s) = disk_get (dsk s) c.
Proof.
  intros W Hi Hl Hd c (? & <- & ?)%copy_key. by apply (ok_clean _ _ (wf_buf _ W i Hi)).
Qed.

Lemma view_uncached s b : (∀ j, (j < NBUF)%nat → copy_of s b j = false) →
  view s b = disk_get (dsk s) b.
Proof. intros H. apply view_char; [|done]. intros j Hj. by rewrite H. Qed.

Lemma holding_me p : holdingsleep (Sleeplock true p) p = true.
Proof. unfold holdingsleep. simpl. apply Z.eqb_refl. Qed.

(** The buffer after the read of its block from the disk. *)
Definition loaded (s : bst) (x : buf) : buf :=
  set_flags (Z.lor (b_flags x) B_VALID) (set_data (disk_get (dsk s) (b_blockno x)) x).

(** bread, once bget has claimed a buffer that holds no valid copy. *)
Lemma bread_load s b i x (Q : nat → bst → Prop) :
  wf_bst s → (i < NBUF)%nat → b < d_size (dsk s) →
  sl_locked (b_lock (buf_of i s)) = false → is_dirty (buf_of i s) = false →
  (∀ j, (j < NBUF)%nat → copy_of s b j = false) →
  (∀ j, (j < NBUF)%nat → j ≠ i → cached_as ROOTDEV b (buf_of j s) = false) →
  x = claimed (buf_of i s) ROOTDEV b (b_flags x) (cur s) →
  is_valid x = false → is_dirty x = false →
  (∀ s', bread_post s b i s' → Q i s') →
  wp (iderw i) (λ _, wp (mret i) Q) (put_buf i x s).
Proof.
  intros W Hi Hb Hl Hd Hnc Hno Hx Hv Hdt HQ. pose proof (wf_nbuf _ _ W Hi) as Hlen.
  destruct (flags_bits (b_flags x)) as (F1 & F2 & _).
  apply iderw_read_wp; rewrite ?put_eq, ?length_put by done; try done; try (rewrite Hx; done).
  { rewrite Hx. simpl. apply holding_me. }
  wp_steps. rewrite put_put. apply HQ.
  assert (b_blockno x = b) as Hxb by by rewrite Hx.
  assert (cached_as ROOTDEV b x = true) as Hk by (rewrite Hx; apply cached_key; done).
  change (dsk (put_buf i x s)) with (dsk s). fold (loaded s x).
  apply bread_post_intro; try done.
  - simpl. by rewrite Hx.
  - simpl. by rewrite Hx.
  - simpl. by rewrite Hx.
  - simpl. by rewrite Hx.
  - simpl. rewrite Hxb. symmetry. by apply view_uncached.
  - apply (wf_disk _ W).
  - rewrite Hd. etrans; [exact F2 | exact Hdt].
  - by rewrite Hd.
  - eapply (view_load _ _ b); try done; [by apply clean_copy | simpl; by rewrite Hxb].
Qed.

Lemma copy_uncached s b j : cached_as ROOTDEV b (buf_of j s) = false → copy_of s b j = false.
Proof. unfold copy_of. by intros ->. Qed.

Lemma bread_wp s b :
  wf_bst s → readable s b → b < d_size (dsk s) → wp (bread ROOTDEV b) (bread_post s b) s.
Proof.
  intros W Hr Hb. unfold bread. wp_steps. apply bget_wp; try done.
  - intros i Hi Hl Hc. pose proof (wf_nbuf _ _ W Hi) as Hlen.
    pose proof (unique_key _ _ _ W Hi Hc) as Huniq.
    wp_steps. rewrite put_eq, land_valid by done.
    change (is_valid (claimed _ _ _ _ _)) with (is_valid (buf_of i s)).
    destruct (is_valid (buf_of i s)) eqn:Hv.
    + apply wp_ret. wp_steps. pose proof Hc as Hc'. apply cached_key in Hc' as [Hcd Hcb].
      apply bread_post_intro; try done.
      * by apply cached_key.
      * simpl. symmetry. by apply view_copy.
      * apply (ok_len _ _ (wf_buf _ W i Hi)).
      * apply view_same; [|intros; by apply (put_field b_data) | done].
        intros c j. unfold copy_of.
        rewrite (put_field (cached_as ROOTDEV c)), (put_field is_valid); try done.
        unfold cached_as. simpl. by rewrite Hcd, Hcb.
    + assert (is_dirty (buf_of i s) = false) as Hd.
      { destruct (is_dirty (buf_of i s)) eqn:E; [|done].
        apply (ok_dirty _ _ (wf_buf _ W i Hi)) in E. congruence. }
      eapply bread_load; try done. intros j Hj.
      destruct (decide (j = i)) as [->|]; [|by apply copy_uncached, Huniq].
      unfold copy_of. by rewrite Hv, andb_false_r.
  - intros i Hi Hri Hno. pose proof (wf_nbuf _ _ W Hi) as Hlen.
    unfold recyclable in Hri. rewrite land_dirty, andb_true_iff, negb_true_iff, Z.eqb_eq in Hri.
    destruct Hri as [Hrc Hd]. pose proof (ok_ref _ _ (wf_buf _ W i Hi)) as Hl.
    rewrite Hrc in Hl. destruct (sl_locked (b_lock (buf_of i s))) eqn:E; [done|].
    wp_steps. rewrite put_eq by done. cbn [b_flags claimed Z.land Z.eqb].
    eapply bread_load; try done; intros j Hj; [by apply copy_uncached, Hno|].
    intros _. by apply Hno.
Qed.

(** ** brelse: moving a buffer to the front of the list *)

(** The pointer fields of [s] are the functions [n] and [p]. *)
Definition ptrs (s : bst) (n p : ptr) : Prop :=
  length (bufs s) = S NBUF ∧ (∀ y, nxt s y = n y) ∧ (∀ y, prv s y = p y).

Lemma ptrs_next s n p i v :
  ptrs s n p → (i < S NBUF)%nat → ptrs (upd_buf i (set_next v) s) (setp n i v) p.
Proof.
  intros (Hl & Hn & Hp) Hi. split_and!; [by rewrite length_upd|..]; intros y; unfold nxt, prv.
  - destruct (decide (y = i)) as [->|].
    + rewrite buf_of_upd_eq, setp_eq by lia. done.
    + rewrite buf_of_upd_ne, setp_ne by done. apply Hn.
  - rewrite (field_upd b_prev) by done. apply Hp.
Qed.

Lemma ptrs_prev s n p i v :
  ptrs s n p → (i < S NBUF)%nat → ptrs (upd_buf i (set_prev v) s) n (setp p i v).
Proof.
  intros (Hl & Hn & Hp) Hi. split_and!; [by rewrite length_upd|..]; intros y; unfold nxt, prv.
  - rewrite (field_upd b_next) by done. apply Hn.
  - destruct (decide (y = i)) as [->|].
    + rewrite buf_of_upd_eq, setp_eq by lia. done.
    + rewrite buf_of_upd_ne, setp_ne by done. apply Hp.
Qed.

Lemma ptrs_get s n p i : ptrs s n p → b_next (buf_of i s) = n i ∧ b_prev (buf_of i s) = p i.
Proof. intros (_ & Hn & Hp). split; [apply Hn | apply Hp]. Qed.

Lemma move_front_ptrs s n p i (n1 := (unlink n p i).1) (p1 := (unlink n p i).2) :
  ptrs s n p → (n i < S NBUF)%nat → (p1 i < S NBUF)%nat → (i < S NBUF)%nat →
  (setp n1 i (n1 HEAD) HEAD < S NBUF)%nat →
  ptrs (move_front i s) (push_front n1 p1 HEAD i).1 (push_front n1 p1 HEAD i).2.
Proof.
  intros H0 Hn Hp Hi Hh. assert (HEAD < S NBUF)%nat by (unfold HEAD, NBUF; lia).
  unfold move_front.
  destruct (ptrs_get _ _ _ i H0) as [-> ->]. pose proof (ptrs_prev _ _ _ _ (p i) H0 Hn) as H1.
  destruct (ptrs_get _ _ _ i H1) as [-> ->]. pose proof (ptrs_next _ _ _ _ (n i) H1 Hp) as H2.
  change (setp p (n i) (p i)) with p1 in H2 |- *.
  change (setp n (p1 i) (n i)) with n1 in H2.
  destruct (ptrs_get _ _ _ HEAD H2) as [-> _].
  pose proof (ptrs_next _ _ _ _ (n1 HEAD) H2 Hi) as H3.
  pose proof (ptrs_prev _ _ _ _ HEAD H3 Hi) as H4.
  destruct (ptrs_get _ _ _ HEAD H4) as [-> _].
  pose proof (ptrs_prev _ _ _ _ i H4 Hh) as H5.
  by apply ptrs_next.
Qed.

Lemma move_front_ring s l1 i l2 :
  length (bufs s) = S NBUF → ring s (l1 ++ i :: l2) → ring (move_front i s) (i :: l1 ++ l2).
Proof.
  intros Hl [Hperm Hseg].
  assert (NoDup (HEAD :: l1 ++ i :: l2)) as Hnd.
  { apply NoDup_cons_2; [by eapply ring_no_head; split|]. rewrite Hperm. apply NoDup_seq. }
  assert (∀ y, y ∈ l1 ++ i :: l2 → (y < NBUF)%nat) as Hr.
  { intros y Hy. by apply (ring_range s (l1 ++ i :: l2) y (conj Hperm Hseg)). }
  assert (∀ y, y ∈ (l1 ++ i :: l2) ++ [HEAD] → (y < S NBUF)%nat) as Hr'.
  { intros y [Hy|Hy]%elem_of_app; [apply Hr in Hy; lia|].
    apply list_elem_of_singleton in Hy as ->. unfold HEAD, NBUF. lia. }
  pose proof (unlink_seg _ _ _ _ _ _ Hnd Hseg) as Hu.
  pose proof (seg_next_in _ _ _ _ _ i Hseg) as Hni.
  pose proof (seg_next_in _ _ _ _ _ i (seg_rev _ _ _ _ _ Hseg)) as Hpi.
  assert (nxt s i ∈ (l1 ++ i :: l2) ++ [HEAD]) as Hni' by set_solver.
  assert (prv s i ∈ (l1 ++ i :: l2) ++ [HEAD]) as Hpi'.
  { specialize (Hpi ltac:(rewrite elem_of_reverse; set_solver)).
    rewrite elem_of_app, elem_of_reverse in Hpi. set_solver. }
  pose proof (seg_next_in _ _ _ _ _ HEAD Hu ltac:(by left)) as Hhd.
  assert (i < NBUF)%nat as Hi by (apply Hr; set_solver).
  assert (ptrs s (nxt s) (prv s)) as H0 by done.
  destruct (move_front_ptrs s _ _ i H0) as (Hlen & Hn & Hp).
  - by apply Hr'.
  - apply Hr'. unfold unlink. simpl. unfold setp. by case_decide.
  - lia.
  - rewrite setp_ne by (unfold HEAD, NBUF in *; lia). apply Hr'. set_solver.
  - split.
    + rewrite <- Hperm. apply Permutation_middle.
    + eapply seg_ext; [intros y _; symmetry; apply Hn | intros y _; symmetry; apply Hp |].
      apply push_front_seg; [| |done].
      * apply list.NoDup_cons in Hnd as [Hh Hnd]. apply list.NoDup_app in Hnd as (N1 & N2 & N3).
        apply list.NoDup_cons in N3 as [N3 N4].
        apply NoDup_cons_2; [set_solver|]. apply list.NoDup_app. set_solver.
      * apply list.NoDup_cons in Hnd as [Hh Hnd]. apply list.NoDup_app in Hnd as (N1 & N2 & N3).
        apply list.NoDup_cons in N3 as [N3 N4]. set_solver.
Qed.

(** The part of a buffer that the list does not use. *)
Definition strip (b : buf) : Z * Z * Z * sleeplock * Z * block :=
  (b_flags b, b_dev b, b_blockno b, b_lock b, b_refcnt b, b_data b).

Lemma move_front_strip i j s : strip (buf_of j (move_front i s)) = strip (buf_of j s).
Proof. unfold move_front. rewrite !(field_upd strip) by done. done. Qed.

Lemma lock_move_front c i s : set_bc_lock c (move_front i s) = move_front i (set_bc_lock c s).
Proof. done. Qed.

Lemma strip_inj b b' : strip b = strip b' →
  b_flags b = b_flags b' ∧ b_dev b = b_dev b' ∧ b_blockno b = b_blockno b' ∧
  b_lock b = b_lock b' ∧ b_refcnt b = b_refcnt b' ∧ b_data b = b_data b'.
Proof. unfold strip. by intros [= -> -> -> -> -> ->]. Qed.

(** [t] differs from [s] in the order of the list only. *)
Lemma wf_strip s t : wf_bst s → length (bufs t) = S NBUF → bc_lock t = false →
  dsk t = dsk s → (∃ l, ring t l) → (∀ i, strip (buf_of i t) = strip (buf_of i s)) → wf_bst t.
Proof.
  intros W Hl Hk Hd Hr Hs. split; try done.
  - intros i Hi. destruct (wf_buf _ W i Hi) as [H1 H2 H3 H4].
    destruct (strip_inj _ _ (Hs i)) as (F1 & F2 & F3 & F4 & F5 & F6).
    unfold is_dirty, is_valid in *. split; unfold is_dirty, is_valid; rewrite ?F1, ?F2, ?F3, ?F4, ?F5, ?F6, ?Hd; done.
  - intros i j Hi Hj. destruct (strip_inj _ _ (Hs i)) as (_ & -> & -> & _).
    destruct (strip_inj _ _ (Hs j)) as (_ & -> & -> & _). by apply (wf_keys _ W).
  - rewrite Hd. apply (wf_disk _ W).
Qed.

Lemma view_strip s t :
  dsk t = dsk s → (∀ i, strip (buf_of i t) = strip (buf_of i s)) → ∀ c, view t c = view s c.
Proof.
  intros Hd Hs. apply view_same; [| |done].
  - intros c i. destruct (strip_inj _ _ (Hs i)) as (F1 & F2 & F3 & _).
    unfold copy_of, cached_as, is_valid. by rewrite F1, F2, F3.
  - intros i. apply (strip_inj _ _ (Hs i)).
Qed.

Lemma length_move_front i s : length (bufs (move_front i s)) = length (bufs s).
Proof. unfold move_front. by rewrite !length_upd. Qed.

Lemma wf_move_front s i : wf_bst s → (i < NBUF)%nat → wf_bst (move_front i s).
Proof.
  intros W Hi. destruct (wf_ring _ W) as [l Hr].
  assert (i ∈ l) as Hin by by apply (ring_range _ _ _ Hr).
  apply list_elem_of_split in Hin as (l1 & l2 & ->).
  apply (wf_strip s); try done.
  - rewrite length_move_front. apply (wf_len _ W).
  - apply (wf_lock _ W).
  - eexists. apply move_front_ring; [apply (wf_len _ W) | done].
  - intros j. apply move_front_strip.
Qed.

(** What a client knows after brelse. *)
Record brelse_post (s : bst) (i : nat) (s' : bst) : Prop := {
  rl_wf : wf_bst s';
  rl_view : ∀ c, view s' c = view s c;
  rl_dsk : dsk s' = dsk s;
  rl_cur : cur s' = cur s;
  rl_others : ∀ j, j ≠ i → strip (buf_of j s') = strip (buf_of j s);
  rl_free : sl_locked (b_lock (buf_of i s')) = false;
  rl_key : b_dev (buf_of i s') = b_dev (buf_of i s) ∧ b_blockno (buf_of i s') = b_blockno (buf_of i s);
  rl_flags : b_flags (buf_of i s') = b_flags (buf_of i s);
  rl_data : b_data (buf_of i s') = b_data (buf_of i s);
  rl_ring : ∀ l1 l2, ring s (l1 ++ i :: l2) → ring s' (i :: l1 ++ l2)
}.

Definition released (b : buf) : buf :=
  Buf (b_flags b) (b_dev b) (b_blockno b) (Sleeplock false 0) 0 (b_prev b) (b_next b) (b_data b).

Lemma holds_holding s i b : holds s i b → holdingsleep (b_lock (buf_of i s)) (cur s) = true.
Proof. intros (_ & Hl & Hp & _). unfold holdingsleep. rewrite Hl, Hp. apply Z.eqb_refl. Qed.

Lemma brelse_wp s i b :
  wf_bst s → holds s i b →
  (is_dirty (buf_of i s) = false → b_data (buf_of i s) = disk_get (dsk s) b) →
  wp (brelse i) (λ _, brelse_post s i) s.
Proof.
  intros W Hh Hclean. pose proof Hh as (Hi & Hl & Hp & Hd & Hb & Hv).
  pose proof (wf_nbuf _ _ W Hi) as Hlen. pose proof (wf_buf _ W i Hi) as [O1 O2 O3 O4].
  rewrite Hl in O2.
  unfold brelse, holdingsleep_b, releasesleep_b, acquire_bcache, release_bcache.
  wp_steps. rewrite (holds_holding _ _ _ Hh). cbn [negb]. wp_steps.
  rewrite bc_lock_upd, (wf_lock _ W). wp_steps. autorewrite with bio.
  rewrite !upd_put, !put_put, !put_eq by (rewrite ?length_put, ?length_upd; done).
  cbn [b_refcnt set_refcnt set_lk]. rewrite O2. change (u32 (1 - 1) =? 0) with true.
  unfold when. wp_steps. change (bc_lock (move_front _ _)) with true. cbn iota. wp_steps.
  rewrite lock_move_front. change (set_bc_lock false (put_buf i ?x (set_bc_lock true s)))
    with (put_buf i x (set_bc_lock false s)).
  rewrite (unlock_id s) by apply (wf_lock _ W). fold (released (buf_of i s)).
  change (buf_of i (set_bc_lock true s)) with (buf_of i s).
  change (set_refcnt _ _) with (released (buf_of i s)).
  assert (wf_bst (put_buf i (released (buf_of i s)) s)) as W1.
  { apply wf_put; try done.
    - split; [done..|]. intros _ _ _ Hdt. simpl. rewrite Hb. by apply Hclean.
    - simpl. intros _ j Hj Hji Hdj Hbj. destruct Hji. apply (wf_keys _ W); congruence. }
  assert (strip (buf_of i (move_front i (put_buf i (released (buf_of i s)) s))) =
          strip (released (buf_of i s))) as Hst by by rewrite move_front_strip, put_eq.
  destruct (strip_inj _ _ Hst) as (F1 & F2 & F3 & F4 & F5 & F6).
  split; try done.
  - by apply wf_move_front.
  - intros c. rewrite (view_strip (put_buf i (released (buf_of i s)) s)); [|done|intros; apply move_front_strip].
    apply view_same; [|intros; by apply (put_field b_data)|done].
    intros c' j. unfold copy_of. by rewrite (put_field (cached_as ROOTDEV c')), (put_field is_valid).
  - intros j Hj. rewrite move_front_strip, put_ne; done.
  - by rewrite F4.
  - intros l1 l2 Hr. apply move_front_ring; [apply (wf_len _ W1)|].
    eapply seg_ptrs; [..|exact Hr]; intros j; by apply put_field.
Qed.

(** ** bwrite, and stores into a buffer's data *)

(** b->data = ..., as the callers of bread write it. *)
Definition bset (i : nat) (d : block) : M bst unit := modify (upd_buf i (set_data d)).

Definition written (b : buf) : buf :=
  set_flags (Z.lor (Z.land (Z.lor (b_flags b) B_DIRTY) (Z.lnot B_DIRTY)) B_VALID) b.

Lemma written_flags b : is_valid (written b) = true ∧ is_dirty (written b) = false.
Proof.
  unfold is_valid, is_dirty, written. cbn [b_flags set_flags].
  destruct (flags_bits (Z.land (Z.lor (b_flags b) B_DIRTY) (Z.lnot B_DIRTY))) as (-> & -> & _).
  by destruct (flags_bits (Z.lor (b_flags b) B_DIRTY)) as (_ & _ & _ & _ & _ & ->).
Qed.

Lemma disk_get_put d b x c : disk_get (disk_put d b x) c = if decide (c = b) then x else disk_get d c.
Proof.
  unfold disk_get, disk_put. simpl. case_decide; subst; [by rewrite lookup_insert_eq|].
  by rewrite lookup_insert_ne.
Qed.

(** The state after bwrite: the disk and the flags change, nothing else. *)
Definition bwrote (i : nat) (s : bst) : bst :=
  put_buf i (written (buf_of i s))
    (set_dsk (disk_put (dsk s) (b_blockno (buf_of i s)) (b_data (buf_of i s))) s).

Lemma bwrite_run s i b : wf_bst s → holds s i b → b < d_size (dsk s) →
  bwrite i s = Ok tt (bwrote i s).
Proof.
  intros W Hh Hn. pose proof Hh as (Hi & Hl & Hp & Hd & Hb & Hv).
  pose proof (wf_nbuf _ _ W Hi) as Hlen. pose proof (holds_holding _ _ _ Hh) as Hhold.
  cut (wp (bwrite i) (λ _ s', s' = bwrote i s) s).
  { intros H. apply wp_elim in H as ([] & s' & -> & ->). done. }
  unfold bwrite, holdingsleep_b. wp_steps. rewrite Hhold. cbn [negb]. wp_steps.
  apply iderw_write_wp; rewrite ?length_upd, ?buf_of_upd_eq by done; try done.
  - simpl. by rewrite Hb.
  - apply (flags_bits (b_flags (buf_of i s))).
  - rewrite upd_put by done.
    change (set_dsk ?d (put_buf ?i ?x ?s)) with (put_buf i x (set_dsk d s)).
    rewrite put_put. done.
Qed.

Lemma wf_bwrote s i b : wf_bst s → holds s i b → wf_bst (bwrote i s).
Proof.
  intros W (Hi & Hl & Hp & Hd & Hb & Hv). pose proof (wf_nbuf _ _ W Hi) as Hlen.
  destruct (wf_buf _ W i Hi) as [O1 O2 O3 O4]. destruct (written_flags (buf_of i s)) as [Fv Fd].
  unfold bwrote. rewrite Hb. set (d := disk_put _ _ _).
  assert (∀ j, j ≠ i → (j < NBUF)%nat → buf_ok d (buf_of j s)) as Hj.
  { intros j Hji Hj. destruct (wf_buf _ W j Hj) as [P1 P2 P3 P4]. split; try done.
    intros Q1 Q2 Q3 Q4. unfold d. rewrite disk_get_put. case_decide as E; [|by apply P4].
    destruct Hji. apply (wf_keys _ W); congruence. }
  assert (∀ j, buf_of j (put_buf i (written (buf_of i s)) (set_dsk d s)) =
               if decide (j = i) then written (buf_of i s) else buf_of j s) as Hbuf.
  { intros j. case_decide as E; [subst; by rewrite put_eq | by rewrite put_ne]. }
  split.
  - rewrite length_put. apply (wf_len _ W).
  - apply (wf_lock _ W).
  - destruct (wf_ring _ W) as [l Hr]. exists l.
    eapply seg_ptrs; [..|exact Hr]; intros j; rewrite Hbuf; by case_decide; subst.
  - intros j Hj'. rewrite Hbuf. case_decide as E; [|by apply Hj]. subst.
    split; try done. intros _ _ _ _. simpl. unfold d. by rewrite disk_get_put, decide_True.
  - intros j k Hj' Hk. rewrite !Hbuf. intros Q1 Q2 Q3. apply (wf_keys _ W); try done;
    revert Q1 Q2 Q3; repeat case_decide; subst; done.
  - intros c. simpl. unfold d. rewrite disk_get_put. case_decide; [done | apply (wf_disk _ W)].
Qed.

Lemma view_bwrote s i b : wf_bst s → holds s i b → ∀ c, view (bwrote i s) c = view s c.
Proof.
  intros W Hh c. pose proof (wf_bwrote _ _ _ W Hh) as W'. pose proof Hh as (Hi & Hl & Hp & Hd & Hb & Hv).
  pose proof (wf_nbuf _ _ W Hi) as Hlen. destruct (written_flags (buf_of i s)) as [Fv Fd].
  assert (∀ j, copy_of (bwrote i s) c j = copy_of s c j ∧
               b_data (buf_of j (bwrote i s)) = b_data (buf_of j s)) as Hj.
  { intros j. unfold copy_of, bwrote. rewrite (put_field (cached_as ROOTDEV c)) by done.
    rewrite (put_field is_valid) by (etrans; [exact Fv|]; symmetry; exact Hv).
    by rewrite (put_field b_data). }
  apply view_char.
  - intros j Hj' Hc. destruct (Hj j) as [Hcj ->]. rewrite Hcj in Hc.
    apply copy_key in Hc as (? & ? & ?). symmetry. by apply view_copy.
  - intros Hno. unfold bwrote. simpl. rewrite disk_get_put. case_decide as E.
    + subst c. rewrite Hb. symmetry. by apply view_copy.
    + symmetry. apply view_uncached. intros j Hj'. destruct (Hj j) as [<- _]. by apply Hno.
Qed.

Lemma bset_wf s i b d : wf_bst s → holds s i b → length d = 512%nat →
  wf_bst (upd_buf i (set_data d) s) ∧ holds (upd_buf i (set_data d) s) i b.
Proof.
  intros W (Hi & Hl & Hp & Hd & Hb & Hv) Hlen. pose proof (wf_nbuf _ _ W Hi) as Hlt.
  destruct (wf_buf _ W i Hi) as [O1 O2 O3 O4]. split.
  - rewrite upd_put by done. apply wf_put; try done.
    + split; try done. simpl. by rewrite Hl.
    + simpl. intros _ j Hj Hji Hdj Hbj. destruct Hji. apply (wf_keys _ W); congruence.
  - unfold holds. by rewrite buf_of_upd_eq.
Qed.

Lemma bset_view s i b d : wf_bst s → holds s i b → length d = 512%nat →
  ∀ c, view (upd_buf i (set_data d) s) c = if decide (c = b) then d else view s c.
Proof.
  intros W Hh Hlen c. destruct (bset_wf _ _ _ _ W Hh Hlen) as [W' Hh'].
  pose proof Hh as (Hi & Hl & Hp & Hd & Hb & Hv). pose proof (wf_nbuf _ _ W Hi) as Hlt.
  case_decide as E.
  - subst c. destruct Hh' as (_ & _ & _ & Hd' & Hb' & Hv').
    rewrite (view_copy _ _ i W' Hi Hd' Hb' Hv'). by rewrite buf_of_upd_eq.
  - assert (∀ j, copy_of (upd_buf i (set_data d) s) c j = copy_of s c j) as Hc.
    { intros j. unfold copy_of. by rewrite (field_upd (cached_as ROOTDEV c)), (field_upd is_valid). }
    apply view_char.
    + intros j Hj Hcj. rewrite Hc in Hcj. apply copy_key in Hcj as (? & ? & ?).
      rewrite buf_of_upd_ne by congruence. symmetry. by apply view_copy.
    + intros Hno. symmetry. apply (view_uncached s). intros j Hj. rewrite <- Hc. by apply Hno.
Qed.

(** ** binit *)

(** The kernel's bss before binit. *)
Definition boot_bst (d : disk) (pid : Z) : bst :=
  Bst false (replicate (S NBUF) (Buf 0 0 0 (Sleeplock false 0) 0 0 0 zero_block)) d pid.

Lemma binit_link_strip b j s :
  b_lock (buf_of b s) = initsleeplock → strip (buf_of j (binit_link b s)) = strip (buf_of j s).
Proof.
  intros H. unfold binit_link. rewrite !(field_upd strip _ (set_next _)) by done.
  rewrite (field_upd strip _ (set_prev b)) by done.
  destruct (decide (j = b)) as [->|].
  - destruct (decide (b < length (bufs s))%nat).
    + rewrite buf_of_upd_eq by (by rewrite !length_upd).
      rewrite <- (field_upd b_lock b (set_next (b_next (buf_of HEAD s)))) in H by done.
      rewrite <- (field_upd b_lock b (set_prev HEAD)) in H by done.
      rewrite <- (field_upd strip b (set_next (b_next (buf_of HEAD s))) b s) by done.
      rewrite <- (field_upd strip b (set_prev HEAD)) by done.
      unfold strip, set_lk. simpl. by rewrite H.
    + unfold buf_of, upd_buf. simpl.
      rewrite !lookup_ge_None_2 by (rewrite ?length_alter; lia). done.
  - rewrite !buf_of_upd_ne by done. done.
Qed.

Lemma HEAD_lt : (HEAD < S NBUF)%nat.
Proof. unfold HEAD, NBUF. lia. Qed.

Lemma binit_link_ptrs s n p b :
  ptrs s n p → (b < NBUF)%nat → (n HEAD < S NBUF)%nat →
  ptrs (binit_link b s) (push_front n p HEAD b).1 (push_front n p HEAD b).2.
Proof.
  intros H0 Hb Hh. assert (HEAD < S NBUF)%nat as Hhd by (unfold HEAD, NBUF; lia).
  assert (b < S NBUF)%nat as Hb' by lia. assert (HEAD ≠ b) as Hne by (unfold HEAD, NBUF in *; lia).
  unfold binit_link. destruct (ptrs_get _ _ _ HEAD H0) as [-> _].
  pose proof (ptrs_next _ _ _ _ (n HEAD) H0 Hb') as H1.
  pose proof (ptrs_prev _ _ _ _ HEAD H1 Hb') as (L2 & N2 & P2).
  assert (ptrs (upd_buf b (set_lk initsleeplock)
            (upd_buf b (set_prev HEAD) (upd_buf b (set_next (n HEAD)) s)))
            (setp n b (n HEAD)) (setp p b HEAD)) as H3.
  { split_and!; [by rewrite length_upd|..]; intros y; unfold nxt, prv.
    - rewrite (field_upd b_next) by done. apply N2.
    - rewrite (field_upd b_prev) by done. apply P2. }
  destruct (ptrs_get _ _ _ HEAD H3) as [-> _]. rewrite setp_ne by done.
  pose proof (ptrs_prev _ _ _ _ b H3 Hh) as H4.
  unfold push_front. simpl. rewrite setp_ne by done. by apply ptrs_next.
Qed.

(** The invariant of binit's loop, once the buffers [l] are linked. *)
Definition binit_inv (d : disk) (pid : Z) (l : list nat) (s : bst) : Prop :=
  bc_lock s = false ∧ dsk s = d ∧ cur s = pid ∧
  (∀ i, strip (buf_of i s) = strip buf0) ∧
  ∃ n p, ptrs s n p ∧ seg n p HEAD (reverse l) HEAD.

Lemma boot_strip d pid i : strip (buf_of i (boot_bst d pid)) = strip buf0.
Proof.
  unfold buf_of, boot_bst. cbn [bufs].
  destruct (replicate _ _ !! i) as [x|] eqn:E; [|done].
  apply lookup_replicate in E as [-> _]. done.
Qed.

Lemma binit_wp d pid :
  wp binit (λ _, binit_inv d pid (seq 0 NBUF)) (boot_bst d pid).
Proof.
  unfold binit. wp_steps. apply (wp_foreach (binit_inv d pid)); [| |done].
  - assert (ptrs (boot_bst d pid) (nxt (boot_bst d pid)) (prv (boot_bst d pid))) as H0 by done.
    split_and!; try done.
    + intros i. rewrite !(field_upd strip) by done. apply boot_strip.
    + eexists _, _. split; [apply ptrs_next, HEAD_lt; apply ptrs_prev, HEAD_lt; exact H0|].
      simpl. by rewrite !setp_eq.
  - intros l1 x l2 t Hl (K1 & K2 & K3 & K4 & n & p & Hpt & Hseg). wp_steps.
    assert (NoDup (l1 ++ x :: l2)) as Hnd by (rewrite <- Hl; apply NoDup_seq).
    assert (∀ y, y ∈ l1 ++ x :: l2 → (y < NBUF)%nat) as Hr
      by (intros y; rewrite <- Hl, elem_of_seq; lia).
    apply list.NoDup_app in Hnd as (N1 & N2 & N3).
    assert (HEAD ∉ l1 ++ x :: l2) as Hhd by (intros Hh%Hr; unfold HEAD, NBUF in Hh; lia).
    split_and!; try done.
    + intros i. rewrite binit_link_strip; [apply K4|].
      by destruct (strip_inj _ _ (K4 x)) as (_ & _ & _ & -> & _).
    + eexists _, _. split.
      * apply binit_link_ptrs; [exact Hpt | apply Hr; set_solver|].
        rewrite (seg_first _ _ _ _ _ Hseg). destruct (head (reverse l1)) as [y|] eqn:E; simpl;
          [|apply HEAD_lt]. assert (y ∈ l1) as Hy.
        { rewrite <- elem_of_reverse. destruct (reverse l1); simplify_eq/=. set_solver. }
        assert (y < NBUF)%nat by (apply Hr; set_solver). lia.
      * rewrite reverse_app. simpl. apply push_front_seg; [| |done].
        -- apply NoDup_cons_2; [rewrite elem_of_reverse; set_solver|]. by rewrite reverse_Permutation.
        -- rewrite elem_of_cons, elem_of_reverse. set_solver.
Qed.

Lemma binit_inv_wf d pid s : (∀ b, length (disk_get d b) = 512%nat) →
  binit_inv d pid (seq 0 NBUF) s → wf_bst s.
Proof.
  intros Hd (K1 & K2 & K3 & K4 & n & p & (Hl & Hn & Hp) & Hseg).
  assert (∀ i, b_flags (buf_of i s) = 0 ∧ b_dev (buf_of i s) = 0 ∧
    b_lock (buf_of i s) = initsleeplock ∧ b_refcnt (buf_of i s) = 0 ∧
    b_data (buf_of i s) = zero_block) as Hb.
  { intros i. destruct (strip_inj _ _ (K4 i)) as (-> & -> & _ & -> & -> & ->). done. }
  split; try done.
  - exists (reverse (seq 0 NBUF)). split; [by rewrite reverse_Permutation|].
    eapply seg_ext; [..|exact Hseg]; intros; symmetry; auto.
  - intros i Hi. destruct (Hb i) as (F1 & F2 & F3 & F4 & F5).
    split; unfold is_dirty, is_valid; rewrite ?F1, ?F2, ?F3, ?F4, ?F5; done.
  - intros i j Hi Hj Hdi. destruct (Hb i) as (_ & F2 & _). rewrite F2 in Hdi. done.
  - by rewrite K2.
Qed.

(** ** The properties of the buffer cache *)

Lemma boot_readable d pid s b : binit_inv d pid (seq 0 NBUF) s → readable s b.
Proof.
  intros (_ & _ & _ & K4 & _). right. split.
  - intros i _. destruct (strip_inj _ _ (K4 i)) as (_ & Hd & _). unfold cached_as. by rewrite Hd.
  - exists 0%nat. split; [unfold NBUF; lia|].
    destruct (strip_inj _ _ (K4 0%nat)) as (Hf & _ & _ & _ & Hr & _). unfold recyclable. by rewrite Hf, Hr.
Qed.

Lemma holds_not_readable s i b : wf_bst s → holds s i b → ¬ readable s b.
Proof.
  intros W (Hi & Hl & _ & Hd & Hb & _) [(j & Hj & Hc & Hu)|[Hno _]].
  - apply cached_key in Hc as [? ?]. assert (j = i) as -> by (apply (wf_keys _ W); congruence).
    congruence.
  - specialize (Hno i Hi). assert (cached_as ROOTDEV b (buf_of i s) = true) by by apply cached_key.
    congruence.
Qed.

Lemma disk0_len n b : length (disk_get (Disk n ∅ []) b) = 512%nat.
Proof. unfold disk_get. simpl. by rewrite lookup_empty. Qed.

(** After binit the cache is well formed: the prev and next pointers make
    one circular list of all the buffers, every buffer is free, and every
    block reads as the disk has it. *)
Theorem binit_wf d pid : (∀ b, length (disk_get d b) = 512%nat) →
  ∃ s, binit (boot_bst d pid) = Ok tt s ∧ wf_bst s ∧ (∀ b, readable s b) ∧
       ∀ b, view s b = disk_get d b.
Proof.
  intros Hd. destruct (wp_elim _ _ _ (binit_wp d pid)) as ([] & s & Es & Hinv).
  exists s. split_and!; [done | by eapply binit_inv_wf | intros; by eapply boot_readable|].
  destruct Hinv as (_ & <- & _ & K4 & _). intros b. apply view_uncached. intros j _.
  apply copy_uncached. destruct (strip_inj _ _ (K4 j)) as (_ & F & _). unfold cached_as. by rewrite F.
Qed.

Lemma binit_wf_witness :
  ∃ s, binit (boot_bst (Disk 4 ∅ []) 1) = Ok tt s ∧ view s 3 = zero_block.
Proof.
  destruct (binit_wf (Disk 4 ∅ []) 1) as (s & Es & _ & _ & Hv).
  - exact (disk0_len 4).
  - exists s. split; [exact Es|]. rewrite Hv. reflexivity.
Defined.

(** bread returns, with a buffer locked by the caller that holds the
    block's contents, whether it was cached, had to be read from the disk, or
    needed a buffer recycled; no block's contents change, and no other buffer
    does. *)
Theorem bread_returns_block s b :
  wf_bst s → readable s b → b < d_size (dsk s) →
  ∃ i s', bread ROOTDEV b s = Ok i s' ∧ bread_post s b i s'.
Proof. intros W Hr Hb. by apply wp_elim, bread_wp. Qed.

Lemma bread_returns_block_witness :
  ∃ s i s', binit (boot_bst (Disk 4 ∅ []) 1) = Ok tt s ∧ bread ROOTDEV 2 s = Ok i s'.
Proof.
  destruct (wp_elim _ _ _ (binit_wp (Disk 4 ∅ []) 1)) as ([] & s & Es & Hinv).
  destruct (bread_returns_block s 2) as (i & s' & H & _).
  - exact (binit_inv_wf _ _ _ (disk0_len 4) Hinv).
  - exact (boot_readable _ _ _ _ Hinv).
  - destruct Hinv as (_ & E & _). rewrite E. reflexivity.
  - exists s, i, s'. split; [exact Es | exact H].
Defined.

(** When bread cannot return it is for one of the two reasons of the code:
    the block's buffer is locked, and bread sleeps on that lock; or no buffer
    is both unreferenced and clean, and bget panics. *)
Theorem bread_sleeps_or_panics s b : wf_bst s → ¬ readable s b →
  (∃ i s', (i < NBUF)%nat ∧ sl_locked (b_lock (buf_of i s)) = true ∧
     cached_as ROOTDEV b (buf_of i s) = true ∧ bread ROOTDEV b s = Sleep (ChBufLock i) s') ∨
  ((∀ i, (i < NBUF)%nat → recyclable (buf_of i s) = false) ∧
   bread ROOTDEV b s = Panic "bget: no buffers").
Proof.
  intros W Hr. unfold bread, bget, acquire_bcache, release_bcache, acquiresleep_b.
  unfold mbind, M_bind, gets, mget, modify. rewrite (wf_lock _ W). rewrite !scan_lock.
  change (buf_of HEAD (set_bc_lock true s)) with (buf_of HEAD s).
  destruct (scan_next s (cached_as ROOTDEV b) W) as (r & -> & Hs). destruct r as [i|].
  - left. destruct Hs as [Hi Hc]. cbn [bc_lock set_bc_lock upd_buf].
    assert (sl_locked (b_lock (buf_of i s)) = true) as Hl.
    { destruct (sl_locked (b_lock (buf_of i s))) eqn:E; [done|]. destruct Hr. left. eauto. }
    rewrite buf_of_lock, (field_upd b_lock) by done. rewrite buf_of_lock, Hl.
    eexists i, _. split_and!; done.
  - destruct (scan_prev s recyclable W) as (r & -> & Hs'). destruct r as [i|].
    + destruct Hr. right. split; [done|]. exists i. done.
    + right. done.
Qed.

Lemma bread_sleeps_or_panics_witness :
  ∃ s i s', ¬ readable s 2 ∧ bread ROOTDEV 2 s = Sleep (ChBufLock i) s'.
Proof.
  destruct (wp_elim _ _ _ (binit_wp (Disk 4 ∅ []) 1)) as ([] & s & Es & Hinv).
  assert (W : wf_bst s) by exact (binit_inv_wf _ _ _ (disk0_len 4) Hinv).
  destruct (wp_elim _ _ _ (bread_wp s 2 W (boot_readable _ _ _ _ Hinv)
    ltac:(destruct Hinv as (_ & E & _); rewrite E; reflexivity))) as (i & s' & _ & Hp).
  pose proof (br_wf _ _ _ _ Hp) as W'.
  pose proof (holds_not_readable _ _ _ W' (br_holds _ _ _ _ Hp)) as Hn.
  destruct (bread_sleeps_or_panics s' 2 W' Hn) as [(k & s'' & _ & _ & _ & H)|[Hno _]].
  - exists s', k, s''. split; [exact Hn | exact H].
  - exfalso. destruct (decide (i = 0)%nat) as [->|Hi].
    + specialize (Hno 1%nat ltac:(unfold NBUF; lia)).
      rewrite (br_others _ _ _ _ Hp) in Hno by lia. destruct Hinv as (_ & _ & _ & K4 & _).
      destruct (strip_inj _ _ (K4 1%nat)) as (F1 & _ & _ & _ & F5 & _).
      unfold recyclable in Hno. rewrite F1, F5 in Hno. discriminate Hno.
    + specialize (Hno 0%nat ltac:(unfold NBUF; lia)).
      rewrite (br_others _ _ _ _ Hp) in Hno by lia. destruct Hinv as (_ & _ & _ & K4 & _).
      destruct (strip_inj _ _ (K4 0%nat)) as (F1 & _ & _ & _ & F5 & _).
      unfold recyclable in Hno. rewrite F1, F5 in Hno. discriminate Hno.
Defined.

Lemma bwrote_holds s i b : wf_bst s → holds s i b → holds (bwrote i s) i b.
Proof.
  intros W (Hi & Hl & Hp & Hd & Hb & Hv). unfold holds, bwrote.
  rewrite put_eq by by apply (wf_nbuf s). destruct (written_flags (buf_of i s)) as [Fv _]. done.
Qed.

Lemma bwrote_buf s i : wf_bst s → (i < NBUF)%nat → buf_of i (bwrote i s) = written (buf_of i s).
Proof. intros W Hi. unfold bwrote. apply put_eq. by apply (wf_nbuf s). Qed.

Lemma bwrote_ring s i l : ring s l → ring (bwrote i s) l.
Proof.
  apply seg_ptrs; intros j; unfold bwrote; [rewrite (put_field b_next) | rewrite (put_field b_prev)]; done.
Qed.

(** Data stored into a held buffer, written and released, is on the disk
    by one block write, is what the block reads as from then on, leaves every
    other block alone, and the buffer becomes the most recently used. *)
Theorem bwrite_brelse_durable s i b d :
  wf_bst s → holds s i b → length d = 512%nat → b < d_size (dsk s) →
  ∃ s', (bset i d;; bwrite i;; brelse i) s = Ok tt s' ∧ wf_bst s' ∧
    d_writes (dsk s') = d_writes (dsk s) ++ [(b, d)] ∧
    (∀ c, disk_get (dsk s') c = if decide (c = b) then d else disk_get (dsk s) c) ∧
    (∀ c, view s' c = if decide (c = b) then d else view s c) ∧
    (∀ l1 l2, ring s (l1 ++ i :: l2) → ring s' (i :: l1 ++ l2)).
Proof.
  intros W Hh Hlen Hb. destruct (bset_wf _ _ _ _ W Hh Hlen) as [W1 H1].
  pose proof (bset_view _ _ _ _ W Hh Hlen) as V1. pose proof Hh as (Hi & _).
  set (s1 := upd_buf i (set_data d) s) in *.
  assert (buf_of i s1 = set_data d (buf_of i s)) as Eb by (apply buf_of_upd_eq; by apply wf_nbuf).
  assert (b_blockno (buf_of i s1) = b) as Ebn by (destruct H1 as (_ & _ & _ & _ & ? & _); done).
  rewrite (bind_ok (bset i d) _ s tt s1) by done.
  rewrite (bind_ok _ _ _ tt (bwrote i s1)) by (by apply (bwrite_run _ _ b)).
  pose proof (wf_bwrote _ _ _ W1 H1) as W2. pose proof (bwrote_holds _ _ _ W1 H1) as H2.
  assert (b_data (buf_of i (bwrote i s1)) = disk_get (dsk (bwrote i s1)) b) as Hc.
  { rewrite bwrote_buf by done. unfold bwrote. simpl. by rewrite disk_get_put, Ebn, decide_True. }
  destruct (wp_elim _ _ _ (brelse_wp _ _ _ W2 H2 (λ _, Hc))) as ([] & s' & Es & P).
  exists s'. split; [done|]. split; [apply (rl_wf _ _ _ P)|].
  assert (dsk s' = disk_put (dsk s) b d) as Ed.
  { rewrite (rl_dsk _ _ _ P). unfold bwrote. simpl. rewrite Ebn, Eb. done. }
  split_and!.
  - by rewrite Ed.
  - intros c. by rewrite Ed, disk_get_put.
  - intros c. rewrite (rl_view _ _ _ P), (view_bwrote _ _ b) by done. apply V1.
  - intros l1 l2 Hr. apply (rl_ring _ _ _ P), bwrote_ring.
    eapply seg_ptrs; [..|exact Hr]; intros j; [apply (field_upd b_next) | apply (field_upd b_prev)]; done.
Qed.

Lemma bwrite_brelse_durable_witness : ∃ s i s',
  holds s i 2 ∧ (bset i (replicate 512 7);; bwrite i;; brelse i) s = Ok tt s' ∧
  view s' 2 = replicate 512 7.
Proof.
  destruct (wp_elim _ _ _ (binit_wp (Disk 4 ∅ []) 1)) as ([] & s & Es & Hinv).
  assert (W : wf_bst s) by exact (binit_inv_wf _ _ _ (disk0_len 4) Hinv).
  assert (Hd : 2 < d_size (dsk s)) by (destruct Hinv as (_ & E & _); rewrite E; reflexivity).
  destruct (wp_elim _ _ _ (bread_wp s 2 W (boot_readable _ _ _ _ Hinv) Hd)) as (i & s' & _ & Hp).
  destruct (bwrite_brelse_durable s' i 2 (replicate 512 7)) as (t & Et & _ & _ & _ & Hv & _).
  - exact (br_wf _ _ _ _ Hp).
  - exact (br_holds _ _ _ _ Hp).
  - reflexivity.
  - rewrite (br_dsk _ _ _ _ Hp). exact Hd.
  - exists s', i, t. split; [exact (br_holds _ _ _ _ Hp)|]. split; [exact Et|]. apply (Hv 2).
Defined.

(** After ideinit block [b] of the disk is the part of the image from byte
    b*BSIZE on, for every block below the size. *)
Lemma memide_ideinit_disk img s : ∃ s', memide_ideinit img s = Ok tt s' ∧ bufs s' = bufs s ∧ d_size (dsk s') = Z.of_nat (length img) / BSIZE ∧
  ∀ b, 0 ≤ b < d_size (dsk s') → disk_get (dsk s') b = take (Z.to_nat BSIZE) (drop (Z.to_nat (b * BSIZE)) img).
Proof.
  eexists. split; [done|]. cbn [dsk set_dsk d_size bufs]. split; [done|]. split; [done|]. intros b Hb. unfold disk_get. cbn [d_blocks].
  rewrite lookup_map_seqZ, option_guard_True, Z.sub_0_r by lia. unfold memide_blocks.
  rewrite list_lookup_fmap, lookup_seq_lt by lia. cbn [fmap option_fmap option_map default].
  by replace (Z.to_nat (b * BSIZE)) with ((0 + Z.to_nat b) * Z.to_nat BSIZE)%nat by (unfold BSIZE; lia).
Qed.
