(* ===== verification/BioSpec.v ===== *)
(** * BioSpec: the buffer cache as its clients use it

    Between a bread and its brelse a process owns the buffer.  [binv H D s]
    describes a cache in which the current process holds the buffers [H] (the
    index of each with its block number, and whether its data was changed
    since it last agreed with the disk or was pinned), nobody holds any other,
    and the blocks [D] are pinned: dirty in the cache, not to be evicted.  The
    lemmas give each operation of bio.c as a transformation of [H], [D], the
    view and the disk.  bread returns as long as the held and the pinned
    buffers together do not fill the cache. *)

From Stdlib Require Import ZArith Lia Bool.
From stdpp Require Import base option list sets gmap fin_maps strings numbers.
From S2P Require Import Prelude Locks Dll Bio.

#[local] Open Scope string_scope.
#[local] Open Scope list_scope.
#[local] Open Scope Z_scope.

Notation held := (gmap nat (Z * bool)).

Record binv (H : held) (D : list Z) (s : bst) : Prop := {
  bi_wf : wf_bst s;
  bi_held : ∀ i b m, H !! i = Some (b, m) → holds s i b ∧
    (m = false → is_dirty (buf_of i s) = false → b_data (buf_of i s) = disk_get (dsk s) b);
  bi_locked : ∀ i, (i < NBUF)%nat → sl_locked (b_lock (buf_of i s)) = true → is_Some (H !! i);
  bi_dirty : ∀ i, (i < NBUF)%nat → is_dirty (buf_of i s) = true →
    b_dev (buf_of i s) = ROOTDEV ∧ b_blockno (buf_of i s) ∈ D;
  bi_pinned : ∀ b, b ∈ D → ∃ i, (i < NBUF)%nat ∧ is_dirty (buf_of i s) = true ∧
    cached_as ROOTDEV b (buf_of i s) = true;
  bi_nodup : NoDup D
}.

(** No buffer of [H] is one for block [b]. *)
Definition not_held (H : held) (b : Z) : Prop := ∀ i m, H !! i ≠ Some (b, m).

(** ** Room in the cache *)

Lemma filter_split {A} (p : A → bool) (l : list A) :
  (length (filter p l) + length (filter (λ x, negb (p x)) l) = length l)%nat.
Proof.
  induction l as [|x l IH]; [done|]. rewrite !filter_cons. destruct (p x); simpl; lia.
Qed.

Lemma binv_recyclable H D s : binv H D s → (size H + length D < NBUF)%nat →
  ∃ i, (i < NBUF)%nat ∧ recyclable (buf_of i s) = true.
Proof.
  intros B Hlt. pose proof (bi_wf _ _ _ B) as W.
  destruct (decide (Exists (λ i, recyclable (buf_of i s) = true) (seq 0 NBUF))) as [He|He].
  { apply list.Exists_exists in He as (i & Hi & ?). exists i. apply elem_of_seq in Hi. split; [lia|done]. }
  exfalso. set (lk := λ i, sl_locked (b_lock (buf_of i s))).
  pose proof (filter_split lk (seq 0 NBUF)) as Hsplit. rewrite length_seq in Hsplit.
  assert (length (filter lk (seq 0 NBUF)) ≤ size H)%nat as H1.
  { rewrite <- (size_dom (D := gset nat) H). rewrite <- (size_list_to_set (C := gset nat) (filter lk (seq 0 NBUF)))
      by (apply list.NoDup_filter, NoDup_seq).
    apply subseteq_size. intros i. rewrite elem_of_list_to_set, list_elem_of_filter, elem_of_seq.
    intros [Hl Hi]. apply elem_of_dom. apply (bi_locked _ _ _ B); [lia | by apply Is_true_true]. }
  assert (length (filter (λ i, negb (lk i)) (seq 0 NBUF)) ≤ length D)%nat as H2; [|lia].
  assert (∀ i, (i < NBUF)%nat → negb (lk i) →
    b_dev (buf_of i s) = ROOTDEV ∧ b_blockno (buf_of i s) ∈ D) as Hdirty.
  { intros i Hi Hl. apply (bi_dirty _ _ _ B); [done|].
    destruct (is_dirty (buf_of i s)) eqn:E; [done|]. destruct He. apply list.Exists_exists.
    exists i. split; [apply elem_of_seq; lia|]. unfold recyclable. rewrite land_dirty, E.
    rewrite (ok_ref _ _ (wf_buf _ W i Hi)). unfold lk in Hl.
    by destruct (sl_locked (b_lock (buf_of i s))). }
  rewrite <- (length_fmap (λ i, b_blockno (buf_of i s))). apply submseteq_length, NoDup_submseteq.
  - apply NoDup_fmap_2_strong; [|apply list.NoDup_filter, NoDup_seq].
    intros i j Hi Hj Heq.
    apply list_elem_of_filter in Hi as [Hi Hi']. apply list_elem_of_filter in Hj as [Hj Hj'].
    apply elem_of_seq in Hi', Hj'. apply (wf_keys _ W); try lia; try done; apply Hdirty; lia || done.
  - intros b (i & -> & Hi)%list_elem_of_fmap.
    apply list_elem_of_filter in Hi as [Hi Hi']. apply elem_of_seq in Hi'. apply Hdirty; lia || done.
Qed.

Lemma binv_data H D s i b m : binv H D s → H !! i = Some (b, m) → b_data (buf_of i s) = view s b.
Proof.
  intros B Hi. destruct (bi_held _ _ _ B _ _ _ Hi) as [(? & ? & ? & ? & ? & ?) _].
  symmetry. apply view_copy; try done. apply (bi_wf _ _ _ B).
Qed.

Lemma binv_data_len H D s i b m : binv H D s → H !! i = Some (b, m) →
  length (b_data (buf_of i s)) = 512%nat.
Proof.
  intros B Hi. destruct (bi_held _ _ _ B _ _ _ Hi) as [(Hlt & _) _].
  apply (ok_len _ _ (wf_buf _ (bi_wf _ _ _ B) i Hlt)).
Qed.

Lemma binv_view_len H D s b : binv H D s → length (view s b) = 512%nat.
Proof.
  intros B. pose proof (bi_wf _ _ _ B) as W. unfold view.
  destruct (filter (copy_of s b) (seq 0 NBUF)) as [|i l] eqn:E; [apply (wf_disk _ W)|].
  assert (i ∈ filter (copy_of s b) (seq 0 NBUF)) as Hi by (rewrite E; set_solver).
  apply list_elem_of_filter in Hi as [_ Hi]. apply elem_of_seq in Hi.
  apply (ok_len _ _ (wf_buf _ W i ltac:(lia))).
Qed.

Lemma binv_readable H D s b : binv H D s → not_held H b →
  (size H + length D < NBUF)%nat ∨ b ∈ D → readable s b.
Proof.
  intros B Hn Hroom. pose proof (bi_wf _ _ _ B) as W.
  destruct (decide (Exists (λ i, cached_as ROOTDEV b (buf_of i s) = true) (seq 0 NBUF))) as [He|He].
  - apply list.Exists_exists in He as (i & Hi & Hc). apply elem_of_seq in Hi.
    left. exists i. split_and!; [lia|done|].
    destruct (sl_locked (b_lock (buf_of i s))) eqn:E; [|done]. exfalso.
    destruct (bi_locked _ _ _ B i ltac:(lia) E) as [[b' m] Hi'].
    destruct (bi_held _ _ _ B _ _ _ Hi') as [(_ & _ & _ & _ & Hb & _) _].
    apply cached_key in Hc as [_ Hc]. apply (Hn i m). congruence.
  - right. assert (∀ i, (i < NBUF)%nat → cached_as ROOTDEV b (buf_of i s) = false) as Hno.
    { intros i Hi. destruct (cached_as ROOTDEV b (buf_of i s)) eqn:E; [|done].
      destruct He. apply list.Exists_exists. exists i. split; [apply elem_of_seq; lia|done]. }
    split; [done|]. destruct Hroom as [?|HD]; [by eapply binv_recyclable|].
    destruct (bi_pinned _ _ _ B b HD) as (i & Hi & _ & Hc). by rewrite Hno in Hc.
Qed.

Lemma binv_bread H D s b : binv H D s → not_held H b → b < d_size (dsk s) →
  (size H + length D < NBUF)%nat ∨ b ∈ D →
  wp (bread ROOTDEV b) (λ i s', binv (<[i := (b, false)]> H) D s' ∧ H !! i = None ∧
    (∀ c, view s' c = view s c) ∧ dsk s' = dsk s) s.
Proof.
  intros B Hn Hb Hroom. pose proof (bi_wf _ _ _ B) as W.
  eapply wp_mono; [apply bread_wp; [done | by eapply binv_readable | done]|].
  intros i s' [P1 P2 P3 P4 P5 P6 P7 P8 P9 P10 _].
  assert (H !! i = None) as Hi.
  { destruct (H !! i) as [[b' m]|] eqn:E; [|done].
    destruct (bi_held _ _ _ B _ _ _ E) as [(_ & ? & _) _]. congruence. }
  split_and!; try done. split; try done.
  - intros j c m. destruct (decide (j = i)) as [->|Hj].
    + rewrite lookup_insert_eq. intros [= <- <-]. split; [done|]. intros _ Hd.
      rewrite P3, P5. apply view_char; [|done]. intros k Hk Hc.
      apply copy_key in Hc as (Hcd & Hcb & Hcv).
      destruct (sl_locked (b_lock (buf_of k s))) eqn:El.
      { destruct (bi_locked _ _ _ B k Hk El) as [[b' m'] Hk'].
        destruct (bi_held _ _ _ B _ _ _ Hk') as [(_ & _ & _ & _ & Hkb & _) _].
        destruct (Hn k m'). congruence. }
      rewrite <- Hcb. apply (ok_clean _ _ (wf_buf _ W k Hk)); try done.
      destruct (decide (k = i)) as [->|Hki]; [congruence|].
      destruct (is_dirty (buf_of k s)) eqn:Ed; [|done]. destruct Hki.
      destruct P2 as (Hilt & _ & _ & Hid & Hib & _).
      apply (wf_keys _ P1); try done; rewrite (P7 k) by congruence; congruence.
    + rewrite lookup_insert_ne by done. intros E. destruct (bi_held _ _ _ B _ _ _ E) as [Hh Hc].
      unfold holds. rewrite P7, P6, P5 by done. done.
  - intros j Hj. destruct (decide (j = i)) as [->|Hji]; [rewrite lookup_insert_eq; eauto|].
    rewrite P7, lookup_insert_ne by done. by apply (bi_locked _ _ _ B).
  - intros j Hj Hd. destruct (decide (j = i)) as [->|Hji].
    + rewrite P9 in Hd. pose proof (P10 Hd) as Hc. apply cached_key in Hc as [Hcd Hcb].
      destruct (bi_dirty _ _ _ B i Hj Hd) as [_ HD]. destruct P2 as (_ & _ & _ & Hid & Hib & _).
      split; [done|]. by rewrite Hib, <- Hcb.
    + rewrite P7 in * by done. by apply (bi_dirty _ _ _ B).
  - intros c Hc. destruct (bi_pinned _ _ _ B c Hc) as (j & Hj & Hd & Hk). exists j.
    split; [done|]. destruct (decide (j = i)) as [->|Hji]; [|by rewrite P7].
    rewrite P9. split; [done|]. destruct P2 as (_ & _ & _ & Hid & Hib & _).
    pose proof (P10 Hd) as Hc'. apply cached_key in Hc' as [_ Hcb]. apply cached_key in Hk as [_ Hkb].
    apply cached_key. split; congruence.
  - apply (bi_nodup _ _ _ B).
Qed.

(** ** Updates of a held buffer *)

Lemma held_neq H D s i j b c m m' : binv H D s → H !! i = Some (b, m) → H !! j = Some (c, m') →
  j ≠ i → c ≠ b.
Proof.
  intros B Hi Hj Hji ->. destruct Hji. pose proof (bi_wf _ _ _ B) as W.
  destruct (bi_held _ _ _ B _ _ _ Hi) as [(? & _ & _ & ? & ? & _) _].
  destruct (bi_held _ _ _ B _ _ _ Hj) as [(? & _ & _ & ? & ? & _) _].
  apply (wf_keys _ W); congruence.
Qed.

(** A held buffer is dirty if and only if its block is pinned. *)
Lemma held_dirty H D s i b m : binv H D s → H !! i = Some (b, m) →
  is_dirty (buf_of i s) = true ↔ b ∈ D.
Proof.
  intros B Hi. pose proof (bi_wf _ _ _ B) as W.
  destruct (bi_held _ _ _ B _ _ _ Hi) as [(Hlt & _ & _ & Hd & Hb & _) _]. split.
  - intros Hdt. destruct (bi_dirty _ _ _ B i Hlt Hdt) as [_ ?]. congruence.
  - intros HD. destruct (bi_pinned _ _ _ B b HD) as (j & Hj & Hdj & [Hjd Hjb]%cached_key).
    replace i with j; [done|]. apply (wf_keys _ W); congruence.
Qed.

Lemma binv_upd H D D' s t i b m m' :
  binv H D s → H !! i = Some (b, m) → wf_bst t → holds t i b → cur t = cur s →
  (∀ j, j ≠ i → buf_of j t = buf_of j s) →
  (∀ c, c ≠ b → disk_get (dsk t) c = disk_get (dsk s) c) →
  (m' = false → is_dirty (buf_of i t) = false → b_data (buf_of i t) = disk_get (dsk t) b) →
  (is_dirty (buf_of i t) = true ↔ b ∈ D') → (∀ c, c ≠ b → c ∈ D' ↔ c ∈ D) → NoDup D' →
  binv (<[i := (b, m')]> H) D' t.
Proof.
  intros B Hi W' Hh Hcur Hoth Hdsk Hclean Hdi Hdoth Hnd. pose proof (bi_wf _ _ _ B) as W.
  pose proof Hh as (Hlt & _ & _ & Hd & Hb & _).
  assert (∀ j, (j < NBUF)%nat → j ≠ i → b_dev (buf_of j s) = ROOTDEV → b_blockno (buf_of j s) ≠ b) as Hne.
  { intros j Hj Hji Hjd Hjb. destruct Hji. apply (wf_keys _ W'); try done.
    - destruct (decide (j = i)) as [->|]; [done | by rewrite Hoth].
    - destruct (decide (j = i)) as [->|]; [done | rewrite Hoth by done; congruence]. }
  split; try done.
  - intros j c n. destruct (decide (j = i)) as [->|Hji].
    + rewrite lookup_insert_eq. intros [= <- <-]. done.
    + rewrite lookup_insert_ne by done. intros Hj. pose proof (held_neq _ _ _ _ _ _ _ _ _ B Hi Hj Hji) as Hcb.
      destruct (bi_held _ _ _ B _ _ _ Hj) as [Hhj Hcj].
      unfold holds. rewrite Hoth, Hcur, Hdsk by done. done.
  - intros j Hj Hl. destruct (decide (j = i)) as [->|Hji]; [rewrite lookup_insert_eq; eauto|].
    rewrite Hoth in Hl by done. rewrite lookup_insert_ne by done. by apply (bi_locked _ _ _ B).
  - intros j Hj Hdj. destruct (decide (j = i)) as [->|Hji].
    + split; [done|]. rewrite Hb. by apply Hdi.
    + rewrite Hoth in * by done. destruct (bi_dirty _ _ _ B j Hj Hdj) as [? ?].
      split; [done|]. apply Hdoth; [by apply Hne | done].
  - intros c Hc. destruct (decide (c = b)) as [->|Hcb].
    + exists i. split_and!; [done | by apply Hdi | by apply cached_key].
    + apply Hdoth in Hc; [|done]. destruct (bi_pinned _ _ _ B c Hc) as (j & Hj & Hdj & Hk).
      assert (j ≠ i).
      { intros ->. apply cached_key in Hk as [_ Hk].
        destruct (bi_held _ _ _ B _ _ _ Hi) as [(_ & _ & _ & _ & ? & _) _]. congruence. }
      exists j. by rewrite Hoth.
Qed.

Lemma binv_bset H D s i b m d : binv H D s → H !! i = Some (b, m) → length d = 512%nat →
  wp (bset i d) (λ _ s', binv (<[i := (b, true)]> H) D s' ∧ dsk s' = dsk s ∧
    ∀ c, view s' c = if decide (c = b) then d else view s c) s.
Proof.
  intros B Hi Hlen. pose proof (bi_wf _ _ _ B) as W. destruct (bi_held _ _ _ B _ _ _ Hi) as [Hh _].
  unfold bset. wp_steps. destruct (bset_wf _ _ _ _ W Hh Hlen) as [W' Hh'].
  split_and!; [|done|by apply bset_view].
  pose proof (held_dirty _ _ _ _ _ _ B Hi) as Hdt.
  eapply binv_upd; try done.
  - intros j Hj. by apply buf_of_upd_ne.
  - by rewrite (field_upd is_dirty).
  - apply (bi_nodup _ _ _ B).
Qed.

Lemma binv_bwrite H D s i b m : binv H D s → H !! i = Some (b, m) → b < d_size (dsk s) →
  wp (bwrite i) (λ _ s', binv (<[i := (b, false)]> H) (filter (λ c, c ≠ b) D) s' ∧
    dsk s' = disk_put (dsk s) b (view s b) ∧ ∀ c, view s' c = view s c) s.
Proof.
  intros B Hi Hb. pose proof (bi_wf _ _ _ B) as W. destruct (bi_held _ _ _ B _ _ _ Hi) as [Hh _].
  pose proof Hh as (Hlt & _ & _ & _ & Hbn & _).
  eapply wp_ok; [by eapply bwrite_run|].
  assert (dsk (bwrote i s) = disk_put (dsk s) b (view s b)) as Hd.
  { unfold bwrote. simpl. by rewrite Hbn, (binv_data _ _ _ _ _ _ B Hi). }
  split_and!; [|done|by eapply view_bwrote].
  eapply binv_upd; try done.
  - by eapply wf_bwrote.
  - by apply bwrote_holds.
  - intros j Hj. unfold bwrote. by rewrite put_ne.
  - intros c Hc. by rewrite Hd, disk_get_put, decide_False.
  - intros _ _. rewrite Hd, disk_get_put, decide_True by done. rewrite bwrote_buf by done.
    apply (binv_data _ _ _ _ _ _ B Hi).
  - rewrite bwrote_buf by done. destruct (written_flags (buf_of i s)) as [_ Fd]. rewrite Fd.
    rewrite list_elem_of_filter. naive_solver.
  - intros c Hc. rewrite list_elem_of_filter. naive_solver.
  - apply list.NoDup_filter, (bi_nodup _ _ _ B).
Qed.

(** b->flags |= B_DIRTY, the pinning of log_write. *)
Definition pin (i : nat) (s : bst) : bst :=
  upd_buf i (set_flags (Z.lor (b_flags (buf_of i s)) B_DIRTY)) s.

Definition pinned (b : Z) (D : list Z) : list Z := if decide (b ∈ D) then D else D ++ [b].

Lemma pinned_in b c D : c ∈ pinned b D ↔ c = b ∨ c ∈ D.
Proof. unfold pinned. case_decide; set_solver. Qed.

Lemma pinned_nodup b D : NoDup D → NoDup (pinned b D).
Proof.
  intros. unfold pinned. case_decide; [done|]. apply list.NoDup_app. split_and!; [done| |].
  - set_solver.
  - apply NoDup_singleton.
Qed.

Lemma pinned_length b D : (length (pinned b D) ≤ S (length D))%nat.
Proof. unfold pinned. case_decide; [lia|]. rewrite length_app. simpl. lia. Qed.

Lemma binv_pin H D s i b m : binv H D s → H !! i = Some (b, m) →
  binv (<[i := (b, false)]> H) (pinned b D) (pin i s) ∧ dsk (pin i s) = dsk s ∧
  ∀ c, view (pin i s) c = view s c.
Proof.
  intros B Hi. pose proof (bi_wf _ _ _ B) as W. destruct (bi_held _ _ _ B _ _ _ Hi) as [Hh _].
  pose proof Hh as (Hlt & Hl & Hp & Hd & Hb & Hv). pose proof (wf_nbuf _ _ W Hlt) as Hlen.
  destruct (flags_bits (b_flags (buf_of i s))) as (_ & _ & F3 & F4 & _).
  destruct (wf_buf _ W i Hlt) as [O1 O2 O3 O4].
  assert (is_valid (set_flags (Z.lor (b_flags (buf_of i s)) B_DIRTY) (buf_of i s)) = true) as Hv'
    by (etrans; [exact F3 | exact Hv]).
  assert (∀ c, view (pin i s) c = view s c) as Hview.
  { unfold pin. rewrite upd_put by done. apply view_same; [|intros; by apply (put_field b_data)|done].
    intros c j. unfold copy_of. rewrite (put_field (cached_as ROOTDEV c)) by done.
    by rewrite (put_field is_valid) by congruence. }
  split_and!; [|done|done]. unfold pin in *. rewrite upd_put in * by done.
  eapply binv_upd; try done.
  - apply wf_put; try done.
    + split; try done. simpl. by rewrite Hl.
    + simpl. intros _ j Hj Hji Hdj Hbj. destruct Hji. apply (wf_keys _ W); congruence.
  - unfold holds. by rewrite put_eq.
  - intros j Hj. by apply put_ne.
  - rewrite put_eq by done. intros _ Hf. exfalso. unfold is_dirty in Hf. cbn [b_flags set_flags] in Hf. congruence.
  - rewrite put_eq, pinned_in by done. split; [by left|]. intros _. exact F4.
  - intros c Hc. rewrite pinned_in. naive_solver.
  - apply pinned_nodup, (bi_nodup _ _ _ B).
Qed.

(** ** Releasing a held buffer *)

Lemma binv_brelse H D s i b : binv H D s → H !! i = Some (b, false) →
  wp (brelse i) (λ _ s', binv (delete i H) D s' ∧ dsk s' = dsk s ∧
    ∀ c, view s' c = view s c) s.
Proof.
  intros B Hi. pose proof (bi_wf _ _ _ B) as W. destruct (bi_held _ _ _ B _ _ _ Hi) as [Hh Hc].
  eapply wp_mono; [apply (brelse_wp _ _ b); [done | done | by apply Hc]|].
  intros _ s' [P1 P2 P3 P4 P5 P6 P7 P8 P9 _]. split_and!; try done.
  assert (∀ j, b_flags (buf_of j s') = b_flags (buf_of j s) ∧ b_dev (buf_of j s') = b_dev (buf_of j s) ∧
    b_blockno (buf_of j s') = b_blockno (buf_of j s)) as Hf.
  { intros j. destruct (decide (j = i)) as [->|Hj]; [done|].
    by destruct (strip_inj _ _ (P5 j Hj)) as (? & ? & ? & _). }
  assert (∀ j, is_dirty (buf_of j s') = is_dirty (buf_of j s)) as Hdt.
  { intros j. unfold is_dirty. by destruct (Hf j) as [-> _]. }
  split; try done.
  - intros j c m Hj. apply lookup_delete_Some in Hj as [Hji Hj].
    destruct (bi_held _ _ _ B _ _ _ Hj) as [Hhj Hcj].
    destruct (strip_inj _ _ (P5 j ltac:(done))) as (F1 & F2 & F3 & F4 & F5 & F6).
    unfold holds, is_dirty, is_valid in *. rewrite F1, F2, F3, F4, F6, P4, P3. done.
  - intros j Hj Hl. destruct (decide (j = i)) as [->|Hji]; [congruence|].
    rewrite lookup_delete_ne by done. apply (bi_locked _ _ _ B); [done|].
    by destruct (strip_inj _ _ (P5 j Hji)) as (_ & _ & _ & <- & _).
  - intros j Hj Hdj. rewrite Hdt in Hdj. destruct (Hf j) as (_ & -> & ->). by apply (bi_dirty _ _ _ B).
  - intros c HcD. destruct (bi_pinned _ _ _ B c HcD) as (j & Hj & Hdj & Hk). exists j.
    rewrite Hdt. destruct (Hf j) as (_ & F2 & F3). unfold cached_as in *. by rewrite F2, F3.
  - apply (bi_nodup _ _ _ B).
Qed.
