(* ===== verification/Log.v ===== *)
(** * Log: the redo log of log.c

    The state is struct log beside the buffer cache.  Every operation of log.c
    is a definition.  begin_op that has to wait is a run that sleeps on the
    log; it is resumed by running begin_op again, which is what the while(1)
    loop does after sleep().  wakeup(&log) is recorded in [wakes]; what
    wakeup does to the process table is in Proc.

    The proof has two parts.  The pure part describes the disk: the sequence
    of writes of a commit, and what recovery makes of a disk.  It shows that a
    disk that has seen any prefix of a commit's writes recovers to the old
    contents or to the new ones, the write of the header deciding.  The other
    part runs the code on the buffer cache and shows that commit writes exactly
    that sequence and that initlog computes exactly that recovery, from any
    state the invariant [linv] allows. *)

From Stdlib Require Import ZArith Lia Bool.
From stdpp Require Import base option list sets gmap strings numbers.
From S2P Require Import Prelude Locks Dll Bio BioSpec.

#[local] Open Scope string_scope.
#[local] Open Scope list_scope.
#[local] Open Scope Z_scope.

Definition MAXOPBLOCKS : Z := 10.
Definition LOGSIZE : Z := 30.

(** struct superblock of fs.h, and readsb of fs.c, which initlog calls. *)
Record superblock := Sb {
  sb_size : Z; sb_nblocks : Z; sb_ninodes : Z; sb_nlog : Z;
  sb_logstart : Z; sb_inodestart : Z; sb_bmapstart : Z
}.

Definition sb_decode (d : block) : superblock :=
  Sb (get32 d 0) (get32 d 4) (get32 d 8) (get32 d 12) (get32 d 16) (get32 d 20) (get32 d 24).

Definition readsb (dev : Z) : M bst superblock :=
  bp ← bread dev 1;
  b ← gets (buf_of bp);
  let sb := sb_decode (b_data b) in
  brelse bp;;
  mret sb.

(** struct log, with its struct logheader lh. *)
Record log := Log {
  lg_lock : bool; lg_start : Z; lg_size : Z; lg_outstanding : Z; lg_committing : bool;
  lg_dev : Z; lh_n : Z; lh_block : list Z
}.

Record lst := Lst { lg : log; bc : bst; wakes : list chan }.

Definition set_bc (b : bst) (s : lst) : lst := Lst (lg s) b (wakes s).
Definition upd_lg (f : log → log) (s : lst) : lst := Lst (f (lg s)) (bc s) (wakes s).

Definition set_lg_lock (v : bool) (l : log) : log :=
  Log v (lg_start l) (lg_size l) (lg_outstanding l) (lg_committing l) (lg_dev l) (lh_n l) (lh_block l).
Definition set_geometry (start size dev : Z) (l : log) : log :=
  Log (lg_lock l) start size (lg_outstanding l) (lg_committing l) dev (lh_n l) (lh_block l).
Definition set_outstanding (v : Z) (l : log) : log :=
  Log (lg_lock l) (lg_start l) (lg_size l) v (lg_committing l) (lg_dev l) (lh_n l) (lh_block l).
Definition set_committing (v : bool) (l : log) : log :=
  Log (lg_lock l) (lg_start l) (lg_size l) (lg_outstanding l) v (lg_dev l) (lh_n l) (lh_block l).
Definition set_lh_n (v : Z) (l : log) : log :=
  Log (lg_lock l) (lg_start l) (lg_size l) (lg_outstanding l) (lg_committing l) (lg_dev l) v (lh_block l).
Definition set_lh_block (v : list Z) (l : log) : log :=
  Log (lg_lock l) (lg_start l) (lg_size l) (lg_outstanding l) (lg_committing l) (lg_dev l) (lh_n l) v.

Definition bio {A} (m : M bst A) : M lst A := zoom bc set_bc m.

Definition acquire_log : M lst unit :=
  l ← gets (λ s, lg_lock (lg s));
  if l : bool then panic "acquire" else modify (upd_lg (set_lg_lock true)).
Definition release_log : M lst unit :=
  l ← gets (λ s, lg_lock (lg s));
  if l : bool then modify (upd_lg (set_lg_lock false)) else panic "release".
Definition wakeup_log : M lst unit := modify (λ s, Lst (lg s) (bc s) (wakes s ++ [ChLog])).

(** log.lh.block[i], an array of LOGSIZE ints. *)
Definition get_lh_block (i : nat) : M lst Z :=
  l ← gets (λ s, lh_block (lg s));
  match l !! i with Some x => mret x | None => undef "log.lh.block out of bounds" end.
Definition put_lh_block (i : nat) (v : Z) : M lst unit :=
  l ← gets (λ s, lh_block (lg s));
  if decide (i < length l)%nat then modify (upd_lg (set_lh_block (<[i := v]> l)))
  else undef "log.lh.block out of bounds".

Definition data_of (b : nat) : M lst block := gets (λ s, b_data (buf_of b (bc s))).

(** for (tail = 0; tail < log.lh.n; tail++) *)
Definition for_tail (body : nat → M lst unit) : M lst unit :=
  n ← gets (λ s, lh_n (lg s));
  foreach (seq 0 (Z.to_nat n)) body.

Definition install_one (tail : nat) : M lst unit :=
  l ← gets lg;
  lbuf ← bio (bread (lg_dev l) (u32 (lg_start l + Z.of_nat tail + 1)));
  b ← get_lh_block tail;
  dbuf ← bio (bread (lg_dev l) (u32 b));
  d ← data_of lbuf;
  bio (bset dbuf d);;
  bio (bwrite dbuf);;
  bio (brelse lbuf);;
  bio (brelse dbuf).
Definition install_trans : M lst unit := for_tail install_one.

Definition read_head : M lst unit :=
  l ← gets lg;
  b ← bio (bread (lg_dev l) (u32 (lg_start l)));
  d ← data_of b;
  modify (upd_lg (set_lh_n (s32 (get32 d 0))));;
  for_tail (λ i, put_lh_block i (s32 (get32 d (4 + 4 * Z.of_nat i))));;
  bio (brelse b).

(** The stores of write_head into the header block. *)
Fixpoint put_blocks (d : block) (off : Z) (bl : list Z) : block :=
  match bl with
  | [] => d
  | b :: bl => put_blocks (put32 d off b) (off + 4) bl
  end.
Definition write_header (d : block) (n : Z) (bl : list Z) : block :=
  put_blocks (put32 d 0 n) 4 (take (Z.to_nat n) bl).

Definition write_head : M lst unit :=
  l ← gets lg;
  b ← bio (bread (lg_dev l) (u32 (lg_start l)));
  d ← data_of b;
  (if decide (lh_n l ≤ Z.of_nat (length (lh_block l))) then
     bio (bset b (write_header d (lh_n l) (lh_block l)))
   else undef "log.lh.block out of bounds");;
  bio (bwrite b);;
  bio (brelse b).

Definition recover_from_log : M lst unit :=
  read_head;;
  install_trans;;
  modify (upd_lg (set_lh_n 0));;
  write_head.

Definition initlog (dev : Z) : M lst unit :=
  modify (upd_lg (set_lg_lock false));;
  sb ← bio (readsb dev);
  modify (upd_lg (set_geometry (s32 (sb_logstart sb)) (s32 (sb_nlog sb)) dev));;
  recover_from_log.

Definition begin_op : M lst unit :=
  acquire_log;;
  l ← gets lg;
  if lg_committing l then release_log;; sleep_on ChLog
  else if LOGSIZE <? lh_n l + (lg_outstanding l + 1) * MAXOPBLOCKS then
    release_log;; sleep_on ChLog
  else
    modify (upd_lg (set_outstanding (lg_outstanding l + 1)));;
    release_log.

Definition write_one (tail : nat) : M lst unit :=
  l ← gets lg;
  to ← bio (bread (lg_dev l) (u32 (lg_start l + Z.of_nat tail + 1)));
  b ← get_lh_block tail;
  from ← bio (bread (lg_dev l) (u32 b));
  d ← data_of from;
  bio (bset to d);;
  bio (bwrite to);;
  bio (brelse from);;
  bio (brelse to).
Definition write_log : M lst unit := for_tail write_one.

Definition commit : M lst unit :=
  l ← gets lg;
  when (0 <? lh_n l)
    (write_log;;
     write_head;;
     install_trans;;
     modify (upd_lg (set_lh_n 0));;
     write_head).

Definition end_op : M lst unit :=
  acquire_log;;
  l ← gets lg;
  modify (upd_lg (set_outstanding (lg_outstanding l - 1)));;
  l ← gets lg;
  if lg_committing l then panic "log.committing" else
  let do_commit := lg_outstanding l =? 0 in
  (if do_commit then modify (upd_lg (set_committing true)) else wakeup_log);;
  release_log;;
  when do_commit
    (commit;;
     acquire_log;;
     modify (upd_lg (set_committing false));;
     wakeup_log;;
     release_log).

(** The loop of log_write: the first slot below [n] that holds block [b]. *)
Fixpoint log_slot (bl : list Z) (b : Z) (i k : nat) : nat :=
  match k with
  | O => i
  | S k => if decide (u32 (default 0 (bl !! i)) = b) then i else log_slot bl b (S i) k
  end.

Definition log_write (bi : nat) : M lst unit :=
  l ← gets lg;
  if (LOGSIZE <=? lh_n l) || (lg_size l - 1 <=? lh_n l) then panic "too big a transaction" else
  if lg_outstanding l <? 1 then panic "log_write outside of trans" else
  acquire_log;;
  b ← gets (λ s, buf_of bi (bc s));
  let i := log_slot (lh_block l) (b_blockno b) 0 (Z.to_nat (lh_n l)) in
  put_lh_block i (s32 (b_blockno b));;
  when (Z.of_nat i =? lh_n l) (modify (upd_lg (set_lh_n (lh_n l + 1))));;
  bio (modify (upd_buf bi (set_flags (Z.lor (b_flags b) B_DIRTY))));;
  release_log.

(** ** The disk: the writes of a commit, and recovery *)

Definition disk_puts (d : disk) (ws : list (Z * block)) : disk :=
  foldl (λ d w, disk_put d w.1 w.2) d ws.

(** The header block: the count and the block numbers it lists. *)
Definition hdr_n (h : block) : Z := s32 (get32 h 0).
Definition hdr_blocks (h : block) : list Z :=
  map (λ i, u32 (get32 h (4 + 4 * Z.of_nat i))) (seq 0 (Z.to_nat (hdr_n h))).

Definition log_writes (start : Z) (vs : list block) : list (Z * block) :=
  imap (λ i v, (start + Z.of_nat i + 1, v)) vs.
Definition install_writes (d : disk) (start : Z) (bl : list Z) : list (Z * block) :=
  imap (λ i b, (b, disk_get d (start + Z.of_nat i + 1))) bl.

(** What commit writes when the blocks [bl] have the contents [vs]. *)
Definition commit_writes (d : disk) (start : Z) (bl : list Z) (vs : list block) : list (Z * block) :=
  let h := write_header (disk_get d start) (Z.of_nat (length bl)) bl in
  log_writes start vs ++ (start, h) :: zip bl vs ++ [(start, write_header h 0 [])].

(** What recovery writes, and the disk it leaves. *)
Definition recover_writes (d : disk) (start : Z) : list (Z * block) :=
  let h := disk_get d start in
  install_writes d start (hdr_blocks h) ++ [(start, write_header h 0 [])].
Definition recovered (d : disk) (start : Z) : disk := disk_puts d (recover_writes d start).

(** The blocks of the log: its header and its slots. *)
Definition in_log (start size b : Z) : Prop := start ≤ b < start + size.

Lemma disk_puts_app d ws ws' : disk_puts d (ws ++ ws') = disk_puts (disk_puts d ws) ws'.
Proof. unfold disk_puts. apply foldl_app. Qed.

Lemma disk_puts_size d ws : d_size (disk_puts d ws) = d_size d.
Proof. revert d. induction ws as [|w ws IH]; intros d; [done|]. simpl. apply (IH (disk_put d w.1 w.2)). Qed.

Lemma disk_puts_writes d ws : d_writes (disk_puts d ws) = d_writes d ++ ws.
Proof.
  revert d. induction ws as [|w ws IH]; intros d; [by rewrite app_nil_r|]. simpl.
  rewrite (IH (disk_put d w.1 w.2)). simpl. rewrite <- app_assoc. by destruct w.
Qed.

Lemma disk_puts_notin d ws c : c ∉ ws.*1 → disk_get (disk_puts d ws) c = disk_get d c.
Proof.
  revert d. induction ws as [|w ws IH]; intros d; [done|]. simpl. intros Hc.
  rewrite (IH (disk_put d w.1 w.2)) by set_solver. rewrite disk_get_put, decide_False; [done|set_solver].
Qed.

Lemma disk_puts_in d ws c x : c ∈ ws.*1 → (∀ w, w ∈ ws → w.1 = c → w.2 = x) →
  disk_get (disk_puts d ws) c = x.
Proof.
  revert d. induction ws as [|w ws IH]; intros d Hc Hx; [set_solver|]. simpl.
  destruct (decide (c ∈ ws.*1)) as [Hin|Hout].
  - apply (IH (disk_put d w.1 w.2)); [done|]. intros w' Hw'. apply Hx. set_solver.
  - rewrite (disk_puts_notin (disk_put d w.1 w.2)) by done.
    rewrite disk_get_put, decide_True; [apply Hx|]; set_solver.
Qed.

Lemma log_writes_fst start vs : (log_writes start vs).*1 = (λ i, start + Z.of_nat i + 1) <$> seq 0 (length vs).
Proof.
  unfold log_writes. apply list_eq. intros i. rewrite !list_lookup_fmap, list_lookup_imap.
  destruct (decide (i < length vs)%nat) as [Hi|Hi].
  - destruct (lookup_lt_is_Some_2 _ _ Hi) as [x ->]. by rewrite lookup_seq_lt.
  - rewrite lookup_ge_None_2 by lia. by rewrite lookup_seq_ge by lia.
Qed.

Lemma length_log_writes start vs : length (log_writes start vs) = length vs.
Proof. unfold log_writes. apply length_imap. Qed.

Lemma log_writes_in start vs c : c ∈ (log_writes start vs).*1 ↔
  start < c ≤ start + Z.of_nat (length vs).
Proof.
  rewrite log_writes_fst, list_elem_of_fmap. split.
  - intros (i & -> & Hi%elem_of_seq). lia.
  - intros Hc. exists (Z.to_nat (c - start - 1)). rewrite elem_of_seq. lia.
Qed.

Lemma log_writes_get d start vs i v : vs !! i = Some v →
  disk_get (disk_puts d (log_writes start vs)) (start + Z.of_nat i + 1) = v.
Proof.
  intros Hi. apply lookup_lt_Some in Hi as Hlt. apply disk_puts_in.
  - apply log_writes_in. lia.
  - intros w Hw Hc. unfold log_writes in Hw.
    apply list_elem_of_lookup in Hw as [j Hj]. rewrite list_lookup_imap in Hj.
    destruct (vs !! j) as [u|] eqn:E; simplify_eq/=. assert (j = i) as -> by lia. congruence.
Qed.

Lemma zip_writes_get d bl vs i b v : NoDup bl → bl !! i = Some b → vs !! i = Some v →
  disk_get (disk_puts d (zip bl vs)) b = v.
Proof.
  intros Hnd Hb Hv. apply disk_puts_in.
  - apply list_elem_of_fmap. exists (b, v). split; [done|]. apply list_elem_of_lookup.
    exists i. rewrite lookup_zip_with, Hb, Hv. done.
  - intros [b' v'] Hw Hc. simpl in Hc. subst b'. apply list_elem_of_lookup in Hw as [j Hj].
    rewrite lookup_zip_with in Hj. destruct (bl !! j) eqn:E; simplify_eq/=.
    destruct (vs !! j) eqn:E'; simplify_eq/=. assert (i = j) as -> by by eapply NoDup_lookup. congruence.
Qed.

Lemma length_put_blocks d off bl : 0 ≤ off → off + 4 * Z.of_nat (length bl) ≤ Z.of_nat (length d) →
  length (put_blocks d off bl) = length d.
Proof.
  revert d off. induction bl as [|b bl IH]; intros d off; simpl; [done|]. intros.
  rewrite IH; rewrite ?length_put32 by lia; lia.
Qed.

Lemma put_blocks_below d off bl o : 0 ≤ off → off + 4 * Z.of_nat (length bl) ≤ Z.of_nat (length d) →
  0 ≤ o → o + 4 ≤ off → get32 (put_blocks d off bl) o = get32 d o.
Proof.
  revert d off. induction bl as [|b bl IH]; intros d off; simpl; [done|]. intros.
  rewrite IH by (rewrite ?length_put32 by lia; lia). apply get32_put32_ne; lia.
Qed.

Lemma put_blocks_get d off bl i b : 0 ≤ off → off + 4 * Z.of_nat (length bl) ≤ Z.of_nat (length d) →
  bl !! i = Some b → get32 (put_blocks d off bl) (off + 4 * Z.of_nat i) = u32 b.
Proof.
  revert d off i. induction bl as [|x bl IH]; intros d off i; simpl; [done|]. intros ? ? Hi.
  destruct i as [|i]; simpl in Hi.
  - simplify_eq. replace (off + 4 * Z.of_nat 0) with off by lia.
    rewrite put_blocks_below by (rewrite ?length_put32 by lia; lia). apply get32_put32; lia.
  - replace (off + 4 * Z.of_nat (S i)) with (off + 4 + 4 * Z.of_nat i) by lia.
    apply IH; rewrite ?length_put32 by lia; lia || done.
Qed.

Lemma length_write_header d n bl : length d = 512%nat → n ≤ 30 →
  length (write_header d n bl) = 512%nat.
Proof.
  intros Hd Hn. unfold write_header.
  rewrite length_put_blocks; rewrite ?length_put32; rewrite ?length_take; lia.
Qed.

Lemma hdr_n_write d n bl : length d = 512%nat → 0 ≤ n ≤ 30 → hdr_n (write_header d n bl) = n.
Proof.
  intros Hd Hn. unfold hdr_n, write_header.
  rewrite put_blocks_below by (rewrite ?length_put32; rewrite ?length_take; lia).
  rewrite get32_put32 by lia. rewrite u32_id, s32_id; lia.
Qed.

Lemma hdr_blocks_write d bl : length d = 512%nat → (length bl ≤ 30)%nat →
  Forall (λ b, 0 ≤ b < 2 ^ 32) bl →
  hdr_blocks (write_header d (Z.of_nat (length bl)) bl) = bl.
Proof.
  intros Hd Hn Hr. unfold hdr_blocks. rewrite hdr_n_write by lia. rewrite Nat2Z.id.
  apply list_eq. intros i. rewrite list_lookup_fmap.
  destruct (bl !! i) as [b|] eqn:E.
  - apply lookup_lt_Some in E as Hlt. rewrite lookup_seq_lt by done. simpl. f_equal.
    unfold write_header. rewrite Nat2Z.id, firstn_all.
    rewrite (put_blocks_get _ _ _ _ b); rewrite ?length_put32 by lia; try lia; [|done].
    rewrite Forall_lookup in Hr. rewrite !u32_id; [done | by eapply Hr | rewrite u32_id; by eapply Hr].
  - apply lookup_ge_None_1 in E. by rewrite lookup_seq_ge by lia.
Qed.

Lemma hdr_blocks_clear h : hdr_n h = 0 → hdr_blocks h = [].
Proof. intros H. unfold hdr_blocks. by rewrite H. Qed.

(** ** Crash atomicity on the disk *)

(** The contents once the transaction is done. *)
Definition new_block (d : disk) (bl : list Z) (vs : list block) (c : Z) : block :=
  match list_find (λ b, b = c) bl with
  | Some (i, _) => default zero_block (vs !! i)
  | None => disk_get d c
  end.

Lemma new_block_in d bl vs i c v : NoDup bl → bl !! i = Some c → vs !! i = Some v →
  new_block d bl vs c = v.
Proof.
  intros Hnd Hb Hv. unfold new_block. destruct (list_find _ _) as [[j b]|] eqn:E.
  - apply list_find_Some in E as (Hj & -> & _).
    assert (i = j) as -> by by eapply NoDup_lookup. by rewrite Hv.
  - apply list_find_None in E. rewrite Forall_lookup in E. by destruct (E _ _ Hb).
Qed.

Lemma new_block_notin d bl vs c : c ∉ bl → new_block d bl vs c = disk_get d c.
Proof.
  intros Hc. unfold new_block. destruct (list_find _ _) as [[j b]|] eqn:E; [|done].
  apply list_find_Some in E as (Hj & -> & _). destruct Hc. by eapply list_elem_of_lookup_2.
Qed.

Lemma install_zip d start bl vs : length vs = length bl →
  (∀ i v, vs !! i = Some v → disk_get d (start + Z.of_nat i + 1) = v) →
  install_writes d start bl = zip bl vs.
Proof.
  intros Hl Hv. apply list_eq. intros i. unfold install_writes.
  rewrite list_lookup_imap, lookup_zip_with. destruct (bl !! i) as [b|] eqn:E; [|done]. simpl.
  apply lookup_lt_Some in E. destruct (lookup_lt_is_Some_2 vs i ltac:(lia)) as [v Ev].
  rewrite Ev, (Hv _ _ Ev). done.
Qed.

Lemma zip_fst (bl : list Z) (vs : list block) c : c ∈ (zip bl vs).*1 → c ∈ bl.
Proof.
  intros (w & -> & Hw)%list_elem_of_fmap. apply list_elem_of_lookup in Hw as [j Hj].
  rewrite lookup_zip_with in Hj. destruct (bl !! j) eqn:E; simplify_eq/=.
  destruct (vs !! j); simplify_eq/=. by eapply list_elem_of_lookup_2.
Qed.

Lemma fst_take {A B} (l : list (A * B)) k c : c ∈ (take k l).*1 → c ∈ l.*1.
Proof. rewrite fmap_take. by intros (? & ? & ?)%elem_of_take; eapply list_elem_of_lookup_2. Qed.

Section atomic.
Context (d : disk) (start size : Z) (bl : list Z) (vs : list block).
Hypothesis Hclear : hdr_n (disk_get d start) = 0.
Hypothesis Hhlen : length (disk_get d start) = 512%nat.
Hypothesis Hlen : length vs = length bl.
Hypothesis Hn : (length bl ≤ 30)%nat ∧ Z.of_nat (length bl) < size.
Hypothesis Hnd : NoDup bl.
Hypothesis Hbl : Forall (λ b, 0 ≤ b < 2 ^ 32 ∧ ¬ in_log start size b) bl.

#[local] Notation n := (length bl).
#[local] Notation h := (write_header (disk_get d start) (Z.of_nat (length bl)) bl).
#[local] Notation ws := (commit_writes d start bl vs).

Lemma recovered_clear d' c : hdr_n (disk_get d' start) = 0 → c ≠ start →
  disk_get (recovered d' start) c = disk_get d' c.
Proof.
  intros Hh Hc. unfold recovered, recover_writes. rewrite hdr_blocks_clear by done. simpl.
  by rewrite disk_get_put, decide_False.
Qed.

Lemma log_in_log c : c ∈ (log_writes start vs).*1 → in_log start size c.
Proof. intros Hc%log_writes_in. unfold in_log. lia. Qed.

Lemma not_in_bl c : in_log start size c → c ∉ bl.
Proof. intros Hc Hin. rewrite list.Forall_forall in Hbl. by apply (Hbl _ Hin). Qed.

(** Before the header is written the transaction has not happened. *)
Lemma crash_old k c : (k ≤ n)%nat → ¬ in_log start size c →
  disk_get (recovered (disk_puts d (take k ws)) start) c = disk_get d c.
Proof.
  intros Hk Hc.
  assert (∀ x, x = start ∨ ¬ in_log start size x →
    disk_get (disk_puts d (take k ws)) x = disk_get d x) as Hsame.
  { intros x Hx. apply disk_puts_notin. unfold commit_writes.
    rewrite take_app_le by (rewrite length_log_writes; lia).
    intros Hin%fst_take.
    destruct Hx as [Hx|Hx]; [apply log_writes_in in Hin; lia | by apply Hx, log_in_log]. }
  rewrite recovered_clear.
  - apply Hsame. by right.
  - by rewrite Hsame by by left.
  - intros ->. apply Hc. unfold in_log. lia.
Qed.

(** Once it is written the transaction survives. *)
Lemma crash_new k c : (n < k)%nat → ¬ in_log start size c →
  disk_get (recovered (disk_puts d (take k ws)) start) c = new_block d bl vs c.
Proof.
  intros Hk Hc. assert (c ≠ start) as Hcs by (intros ->; apply Hc; unfold in_log; lia).
  set (tl := zip bl vs ++ [(start, write_header h 0 [])]).
  set (d1 := disk_puts d (log_writes start vs ++ [(start, h)])).
  assert (take k ws = (log_writes start vs ++ [(start, h)]) ++ take (k - n - 1) tl) as ->.
  { unfold commit_writes. fold tl. rewrite cons_middle, app_assoc, take_app.
    rewrite take_ge by (rewrite length_app, length_log_writes; simpl; lia).
    rewrite length_app, length_log_writes. simpl. do 2 f_equal. lia. }
  rewrite disk_puts_app. fold d1.
  assert (disk_get d1 start = h) as Hd1.
  { unfold d1. rewrite disk_puts_app. simpl. by rewrite disk_get_put, decide_True. }
  assert (∀ i v, vs !! i = Some v → disk_get d1 (start + Z.of_nat i + 1) = v) as Hslot.
  { intros i v Hi. unfold d1. rewrite disk_puts_app. simpl. rewrite disk_get_put, decide_False by lia.
    by apply log_writes_get. }
  assert (∀ x, ¬ in_log start size x → disk_get d1 x = disk_get d x) as Hout.
  { intros x Hx. unfold d1. apply disk_puts_notin. rewrite fmap_app. simpl.
    intros [Hin|Hin]%elem_of_app; [by apply Hx, log_in_log|].
    apply list_elem_of_singleton in Hin as ->. apply Hx. unfold in_log. lia. }
  assert (∀ ds, (∀ x, ¬ in_log start size x → disk_get ds x = disk_get d x ∨ x ∈ bl) →
    disk_get (disk_puts ds (zip bl vs)) c = new_block d bl vs c) as Hfin.
  { intros ds Hds. destruct (decide (c ∈ bl)) as [Hin|Hnin].
    - apply list_elem_of_lookup in Hin as [i Hi]. apply lookup_lt_Some in Hi as Hlt.
      destruct (lookup_lt_is_Some_2 vs i ltac:(lia)) as [v Hv].
      rewrite (new_block_in _ _ _ i c v), (zip_writes_get _ _ _ i c v); done.
    - rewrite disk_puts_notin by (intros Hin%zip_fst; done). rewrite new_block_notin by done.
      destruct (Hds c Hc); done. }
  destruct (decide (k - n - 1 ≤ n)%nat) as [Hle|Hgt].
  - assert (take (k - n - 1) tl = take (k - n - 1) (zip bl vs)) as ->.
    { unfold tl. apply take_app_le. rewrite length_zip_with. lia. }
    assert (∀ x, x ∉ bl → disk_get (disk_puts d1 (take (k - n - 1) (zip bl vs))) x = disk_get d1 x) as Hsame.
    { intros x Hx. apply disk_puts_notin. by intros Hin%fst_take%zip_fst. }
    unfold recovered, recover_writes. rewrite Hsame, Hd1 by (apply not_in_bl; unfold in_log; lia).
    rewrite hdr_blocks_write; [|done|lia|eapply list.Forall_impl; [exact Hbl|by intros ? []]].
    rewrite disk_puts_app. simpl. rewrite disk_get_put, decide_False by done.
    rewrite (install_zip _ _ _ vs); [|done|].
    + apply Hfin. intros x Hx. destruct (decide (x ∈ bl)); [by right|left]. rewrite Hsame, Hout; done.
    + intros i v Hi. apply lookup_lt_Some in Hi as Hlt. rewrite Hsame; [by apply Hslot|].
      apply not_in_bl. unfold in_log. lia.
  - rewrite take_ge by (unfold tl; rewrite length_app, length_zip_with; simpl; lia).
    unfold tl. rewrite disk_puts_app. simpl. rewrite recovered_clear.
    + rewrite disk_get_put, decide_False by done. apply Hfin. intros x Hx. left. by apply Hout.
    + rewrite disk_get_put, decide_True by done. apply hdr_n_write; [|lia].
      apply length_write_header; [done|lia].
    + done.
Qed.
End atomic.

(** ** Running the code: rules for the calls of bio.c *)

Lemma wp_bio {A} (m : M bst A) (Q : A → lst → Prop) s :
  wp m (λ a t, Q a (set_bc t s)) (bc s) → wp (bio m) Q s.
Proof. apply zoom_wp. Qed.

Lemma wp_bread H D b (Q : nat → lst → Prop) s :
  binv H D (bc s) → not_held H b → b < d_size (dsk (bc s)) →
  (size H + length D < NBUF)%nat ∨ b ∈ D →
  (∀ i t, binv (<[i := (b, false)]> H) D t → H !! i = None →
     (∀ c, view t c = view (bc s) c) → dsk t = dsk (bc s) → Q i (set_bc t s)) →
  wp (bio (bread ROOTDEV b)) Q s.
Proof.
  intros B Hn Hb Hr HQ. apply wp_bio. eapply wp_mono; [by eapply binv_bread|].
  intros i t (? & ? & ? & ?). auto.
Qed.

Lemma wp_bset H D i b m d (Q : unit → lst → Prop) s :
  binv H D (bc s) → H !! i = Some (b, m) → length d = 512%nat →
  (∀ t, binv (<[i := (b, true)]> H) D t → dsk t = dsk (bc s) →
     (∀ c, view t c = if decide (c = b) then d else view (bc s) c) → Q tt (set_bc t s)) →
  wp (bio (bset i d)) Q s.
Proof.
  intros B Hi Hl HQ. apply wp_bio. eapply wp_mono; [by eapply binv_bset|].
  intros [] t (? & ? & ?). auto.
Qed.

Lemma wp_bwrite H D i b m (Q : unit → lst → Prop) s :
  binv H D (bc s) → H !! i = Some (b, m) → b < d_size (dsk (bc s)) →
  (∀ t, binv (<[i := (b, false)]> H) (filter (λ c, c ≠ b) D) t →
     dsk t = disk_put (dsk (bc s)) b (view (bc s) b) →
     (∀ c, view t c = view (bc s) c) → Q tt (set_bc t s)) →
  wp (bio (bwrite i)) Q s.
Proof.
  intros B Hi Hb HQ. apply wp_bio. eapply wp_mono; [by eapply binv_bwrite|].
  intros [] t (? & ? & ?). auto.
Qed.

Lemma wp_brelse H D i b (Q : unit → lst → Prop) s :
  binv H D (bc s) → H !! i = Some (b, false) →
  (∀ t, binv (delete i H) D t → dsk t = dsk (bc s) → (∀ c, view t c = view (bc s) c) →
     Q tt (set_bc t s)) →
  wp (bio (brelse i)) Q s.
Proof.
  intros B Hi HQ. apply wp_bio. eapply wp_mono; [by eapply binv_brelse|].
  intros [] t (? & ? & ?). auto.
Qed.

Lemma not_held_empty b : not_held ∅ b.
Proof. intros i m. by rewrite lookup_empty. Qed.

Lemma not_held_insert H i b m c : b ≠ c → not_held H c → not_held (<[i := (b, m)]> H) c.
Proof.
  intros Hb Hn j m'. destruct (decide (j = i)) as [->|].
  - rewrite lookup_insert_eq. congruence.
  - rewrite lookup_insert_ne by done. apply Hn.
Qed.

(** With no buffer held, a block that is not pinned reads as on the disk. *)
Lemma view_unpinned D s b : binv ∅ D s → b ∉ D → view s b = disk_get (dsk s) b.
Proof.
  intros B Hb. apply view_char; [|done]. intros j Hj (Hd & Hjb & Hv)%copy_key. rewrite <- Hjb.
  apply (ok_clean _ _ (wf_buf _ (bi_wf _ _ _ B) j Hj)); try done.
  - destruct (sl_locked _) eqn:E; [|done]. destruct (bi_locked _ _ _ B j Hj E) as [? Hx].
    by rewrite lookup_empty in Hx.
  - destruct (is_dirty _) eqn:E; [|done]. destruct (bi_dirty _ _ _ B j Hj E) as [_ ?]. congruence.
Qed.

(** The in-memory header lists these blocks. *)
Definition logged (l : log) : list Z := u32 <$> take (Z.to_nat (lh_n l)) (lh_block l).

(** Where the log is on the disk, and the blocks it may hold. *)
Record geometry (l : log) (d : disk) : Prop := {
  ge_dev : lg_dev l = ROOTDEV;
  ge_start : 2 ≤ lg_start l;
  ge_size : 1 ≤ lg_size l;
  ge_end : lg_start l + lg_size l ≤ d_size d;
  ge_disk : d_size d ≤ 2 ^ 31
}.

Definition data_block (l : log) (d : disk) (b : Z) : Prop :=
  0 ≤ b < d_size d ∧ ¬ in_log (lg_start l) (lg_size l) b.

(** The header in memory is in bounds and lists data blocks. *)
Record header_ok (l : log) (d : disk) : Prop := {
  ho_len : length (lh_block l) = 30%nat;
  ho_n : 0 ≤ lh_n l ≤ 30 ∧ lh_n l < lg_size l;
  ho_blocks : Forall (data_block l d) (logged l)
}.

Lemma logged_lookup l i b : logged l !! i = Some b →
  ∃ x, lh_block l !! i = Some x ∧ u32 x = b ∧ Z.of_nat i < lh_n l.
Proof.
  unfold logged. rewrite list_lookup_fmap, lookup_take. case_decide; [|done].
  destruct (lh_block l !! i) as [x|]; [|done]. simpl. intros [= <-]. exists x. split_and!; [done..|lia].
Qed.

Lemma logged_length l d : header_ok l d → length (logged l) = Z.to_nat (lh_n l).
Proof.
  intros [Hl Hn _]. unfold logged. rewrite length_fmap, length_take. lia.
Qed.

Lemma logged_data l d i b : header_ok l d → logged l !! i = Some b → data_block l d b.
Proof. intros [_ _ Hb] Hi. rewrite Forall_lookup in Hb. by eapply Hb. Qed.

Lemma wp_get_lh_block (Q : Z → lst → Prop) i x s :
  lh_block (lg s) !! i = Some x → Q x s → wp (get_lh_block i) Q s.
Proof. intros H HQ. unfold get_lh_block. wp_steps. by rewrite H. Qed.

(** The number of a slot of the log. *)
Lemma slot_u32 l d i : geometry l d → Z.of_nat i < lg_size l - 1 →
  u32 (lg_start l + Z.of_nat i + 1) = lg_start l + Z.of_nat i + 1.
Proof. intros [? ? ? ? ?] Hi. apply u32_id. lia. Qed.

Lemma slot_not_logged l d i : header_ok l d → Z.of_nat i < lg_size l - 1 →
  lg_start l + Z.of_nat i + 1 ∉ logged l.
Proof.
  intros [_ _ Hb] Hi Hin. rewrite list.Forall_forall in Hb. apply Hb in Hin as [_ Hin].
  apply Hin. unfold in_log. lia.
Qed.

Lemma wp_write_one (Q : unit → lst → Prop) s i b (l := lg s) (d := dsk (bc s)) :
  geometry l d → header_ok l d → lh_n l < 30 → binv ∅ (logged l) (bc s) → logged l !! i = Some b →
  (∀ t, binv ∅ (logged l) t →
     dsk t = disk_put d (lg_start l + Z.of_nat i + 1) (view (bc s) b) →
     (∀ c, c ∈ logged l → view t c = view (bc s) c) → Q tt (set_bc t s)) →
  wp (write_one i) Q s.
Proof.
  intros G Ho Hn B Hi HQ. destruct (logged_lookup _ _ _ Hi) as (x & Hx & Hxb & Hin).
  pose proof (ho_n _ _ Ho) as [Hn1 Hn2]. destruct G as [G1 G2 G3 G4 G5].
  pose proof (logged_data _ _ _ _ Ho Hi) as [Hb Hbl].
  assert (Z.of_nat i < lg_size l - 1) as His by lia.
  pose proof (slot_not_logged _ _ _ Ho His) as Hsl.
  assert (b ∈ logged l) as HbD by by eapply list_elem_of_lookup_2.
  set (sl := lg_start l + Z.of_nat i + 1) in *.
  assert (sl ≠ b) as Hne by (intros ->; by apply Hsl).
  unfold write_one. wp_steps. fold l. rewrite G1.
  replace (u32 (lg_start l + Z.of_nat i + 1)) with sl by (symmetry; apply u32_id; unfold sl; lia).
  eapply wp_bread; [exact B | apply not_held_empty | fold d; unfold sl; lia | |].
  { left. rewrite map_size_empty, (logged_length _ _ Ho). unfold NBUF. lia. }
  intros to t1 B1 _ V1 D1. wp_steps. eapply wp_get_lh_block; [done|]. wp_steps. rewrite Hxb.
  eapply (wp_bread _ _ _ _ (set_bc t1 s) B1); [| |by right|].
  { apply not_held_insert; [done | apply not_held_empty]. }
  { simpl. rewrite D1. apply Hb. }
  intros from t2 B2 Hfrom V2 D2. wp_steps. unfold data_of. wp_steps. simpl.
  assert (to ≠ from) as Htf by (intros ->; by rewrite lookup_insert_eq in Hfrom).
  rewrite (binv_data _ _ _ from b false B2) by apply lookup_insert_eq.
  rewrite V2. simpl. rewrite V1.
  eapply (wp_bset _ _ to sl false _ _ (set_bc t2 s) B2).
  { rewrite lookup_insert_ne by done. apply lookup_insert_eq. }
  { by eapply binv_view_len. }
  intros t3 B3 D3 V3. wp_steps. eapply (wp_bwrite _ _ to sl true _ (set_bc t3 s) B3).
  { apply lookup_insert_eq. }
  { simpl. rewrite D3. simpl. rewrite D2. simpl. rewrite D1. fold d. unfold sl. lia. }
  intros t4 B4 D4 V4. wp_steps. rewrite filter_all in B4 by (intros c Hc ->; done).
  eapply (wp_brelse _ _ from b _ (set_bc t4 s) B4).
  { rewrite !lookup_insert_ne by done. apply lookup_insert_eq. }
  intros t5 B5 D5 V5. wp_steps. eapply (wp_brelse _ _ to sl _ (set_bc t5 s) B5).
  { rewrite lookup_delete_ne by done. apply lookup_insert_eq. }
  intros t6 B6 D6 V6. simpl in *.
  replace (delete to _) with (∅ : held) in B6.
  2: { apply map_eq. intros j. destruct (decide (j = to)), (decide (j = from)); by simplify_map_eq. }
  apply HQ; [done| |].
  - rewrite D6, D5, D4, D3, D2, D1. fold d. by rewrite V3, decide_True.
  - intros c Hc. rewrite V6, V5, V4, V3, V2, V1. case_decide as E; [|done]. subst c. by destruct Hsl.
Qed.

Lemma wp_install_one (Q : unit → lst → Prop) s i b P (l := lg s) (d := dsk (bc s)) :
  geometry l d → header_ok l d → binv ∅ P (bc s) → logged l !! i = Some b →
  (length P < 30)%nat → (S (length P) < 30)%nat ∨ b ∈ P →
  (∀ c, c ∈ P → ¬ in_log (lg_start l) (lg_size l) c) →
  (∀ t, binv ∅ (filter (λ c, c ≠ b) P) t →
     dsk t = disk_put d b (disk_get d (lg_start l + Z.of_nat i + 1)) →
     (∀ c, c ∈ P → c ≠ b → view t c = view (bc s) c) → Q tt (set_bc t s)) →
  wp (install_one i) Q s.
Proof.
  intros G Ho B Hi HP1 HP2 HP3 HQ. destruct (logged_lookup _ _ _ Hi) as (x & Hx & Hxb & Hin).
  pose proof (ho_n _ _ Ho) as [Hn1 Hn2]. destruct G as [G1 G2 G3 G4 G5].
  pose proof (logged_data _ _ _ _ Ho Hi) as [Hb Hbl].
  set (sl := lg_start l + Z.of_nat i + 1) in *.
  assert (in_log (lg_start l) (lg_size l) sl) as Hsl by (unfold in_log, sl; lia).
  assert (sl ≠ b) as Hne by (intros ->; by apply Hbl).
  assert (sl ∉ P) as HslP by (intros Hc; by apply (HP3 sl)).
  unfold install_one. wp_steps. fold l. rewrite G1.
  replace (u32 (lg_start l + Z.of_nat i + 1)) with sl by (symmetry; apply u32_id; unfold sl; lia).
  eapply wp_bread; [exact B | apply not_held_empty | fold d; unfold sl; lia | |].
  { left. rewrite map_size_empty. unfold NBUF. lia. }
  intros lbuf t1 B1 _ V1 D1. wp_steps. eapply wp_get_lh_block; [done|]. wp_steps. rewrite Hxb.
  eapply (wp_bread _ _ _ _ (set_bc t1 s) B1).
  { apply not_held_insert; [done | apply not_held_empty]. }
  { simpl. rewrite D1. apply Hb. }
  { rewrite map_size_insert_None, map_size_empty by apply lookup_empty. destruct HP2; [left; unfold NBUF; lia | by right]. }
  intros dbuf t2 B2 Hdb V2 D2. wp_steps. unfold data_of. wp_steps. simpl.
  assert (lbuf ≠ dbuf) as Htf by (intros ->; by rewrite lookup_insert_eq in Hdb).
  rewrite (binv_data _ _ _ lbuf sl false B2).
  2: { rewrite lookup_insert_ne by done. apply lookup_insert_eq. }
  rewrite V2. simpl. rewrite V1, (view_unpinned _ _ _ B HslP). fold d.
  eapply (wp_bset _ _ dbuf b false _ _ (set_bc t2 s) B2); [apply lookup_insert_eq | apply (wf_disk _ (bi_wf _ _ _ B)) |].
  intros t3 B3 D3 V3. wp_steps. eapply (wp_bwrite _ _ dbuf b true _ (set_bc t3 s) B3); [apply lookup_insert_eq| |].
  { simpl. rewrite D3. simpl. rewrite D2. simpl. rewrite D1. apply Hb. }
  intros t4 B4 D4 V4. wp_steps. eapply (wp_brelse _ _ lbuf sl _ (set_bc t4 s) B4).
  { rewrite !lookup_insert_ne by done. apply lookup_insert_eq. }
  intros t5 B5 D5 V5. wp_steps. eapply (wp_brelse _ _ dbuf b _ (set_bc t5 s) B5).
  { rewrite lookup_delete_ne by done. apply lookup_insert_eq. }
  intros t6 B6 D6 V6. simpl in *.
  replace (delete dbuf _) with (∅ : held) in B6.
  2: { apply map_eq. intros j. destruct (decide (j = lbuf)), (decide (j = dbuf)); by simplify_map_eq. }
  apply HQ; [done| |].
  - rewrite D6, D5, D4, D3, D2, D1. fold d. by rewrite V3, decide_True.
  - intros c Hc Hcb. rewrite V6, V5, V4, V3, V2, V1. by rewrite decide_False.
Qed.

Lemma seq_split_index n l1 x l2 : seq 0 n = l1 ++ x :: l2 → x = length l1 ∧ (x < n)%nat.
Proof.
  intros H. assert (seq 0 n !! length l1 = Some x) as Hx by (rewrite H; by rewrite list_lookup_middle).
  apply lookup_seq in Hx as [-> Hx]. simpl. split; [done|lia].
Qed.

Lemma geometry_size l d d' : d_size d' = d_size d → geometry l d → geometry l d'.
Proof. intros E [? ? ? ? ?]. split; rewrite ?E; done. Qed.

Lemma header_ok_size l d d' : d_size d' = d_size d → header_ok l d → header_ok l d'.
Proof.
  intros E [? ? H]. split; [done..|]. eapply list.Forall_impl; [exact H|].
  intros b. unfold data_block. by rewrite E.
Qed.

(** write_log copies the pinned blocks to the log. *)
Lemma wp_write_log (Q : unit → lst → Prop) s (l := lg s) (d := dsk (bc s)) :
  geometry l d → header_ok l d → lh_n l < 30 → binv ∅ (logged l) (bc s) →
  (∀ t, binv ∅ (logged l) t →
     dsk t = disk_puts d (log_writes (lg_start l) (view (bc s) <$> logged l)) →
     (∀ c, c ∈ logged l → view t c = view (bc s) c) → Q tt (set_bc t s)) →
  wp write_log Q s.
Proof.
  intros G Ho Hn B HQ. unfold write_log, for_tail. wp_steps.
  pose proof (logged_length _ _ Ho) as HlenD. fold l. rewrite <- HlenD.
  set (ws := log_writes (lg_start l) (view (bc s) <$> logged l)).
  apply (wp_foreach (λ l1 t, ∃ u, t = set_bc u s ∧ binv ∅ (logged l) u ∧
    dsk u = disk_puts d (take (length l1) ws) ∧ ∀ c, c ∈ logged l → view u c = view (bc s) c)).
  - exists (bc s). split; [by destruct s|]. done.
  - intros l1 x l2 t Hl (u & -> & Bu & Du & Vu). apply seq_split_index in Hl as [-> Hx].
    destruct (lookup_lt_is_Some_2 _ _ Hx) as [b Hb].
    assert (d_size (dsk u) = d_size d) as Hsz by (rewrite Du; apply disk_puts_size).
    eapply wp_write_one; simpl; try done.
    + by eapply geometry_size.
    + by eapply header_ok_size.
    + intros t Bt Dt Vt. exists t. split; [done|]. split; [done|]. split.
      * rewrite Dt, Du. rewrite length_app. simpl. rewrite Nat.add_1_r.
        rewrite (take_S_r _ _ (lg_start l + Z.of_nat (length l1) + 1, view (bc s) b)).
        -- rewrite disk_puts_app. simpl. by rewrite Vu by by eapply list_elem_of_lookup_2.
        -- unfold ws, log_writes. rewrite list_lookup_imap, list_lookup_fmap, Hb. done.
      * intros c Hc. by rewrite Vt, Vu.
  - intros t (u & -> & Bu & Du & Vu). apply HQ; [done| |done].
    rewrite Du. rewrite length_seq, take_ge; [done|].
    unfold ws. rewrite length_log_writes, length_fmap. done.
Qed.

Lemma filter_take_S (D P : list Z) i b : D !! i = Some b →
  filter (λ c, c ≠ b) (filter (λ c, c ∉ take i D) P) = filter (λ c, c ∉ take (S i) D) P.
Proof.
  intros Hb. rewrite list_filter_filter. apply list_filter_iff. intros c.
  rewrite (take_S_r _ _ _ Hb). set_solver.
Qed.

(** install_trans copies the log to the home blocks and unpins them.  [P] is
    what is pinned: the logged blocks in a commit, nothing at boot. *)
Lemma wp_install_trans (Q : unit → lst → Prop) s P (l := lg s) (d := dsk (bc s)) :
  geometry l d → header_ok l d → binv ∅ P (bc s) → P = [] ∨ P = logged l ∧ lh_n l < 30 →
  (∀ t, binv ∅ [] t → dsk t = disk_puts d (install_writes d (lg_start l) (logged l)) →
     Q tt (set_bc t s)) →
  wp install_trans Q s.
Proof.
  intros G Ho B HP HQ. unfold install_trans, for_tail. wp_steps. fold l.
  pose proof (logged_length _ _ Ho) as HlenD. rewrite <- HlenD.
  set (ws := install_writes d (lg_start l) (logged l)).
  assert (length ws = length (logged l)) as Hws by (unfold ws, install_writes; apply length_imap).
  apply (wp_foreach (λ l1 t, ∃ u, t = set_bc u s ∧
    binv ∅ (filter (λ c, c ∉ take (length l1) (logged l)) P) u ∧
    dsk u = disk_puts d (take (length l1) ws))).
  - exists (bc s). split; [by destruct s|]. split; [|done]. simpl.
    by rewrite filter_all by set_solver.
  - intros l1 x l2 t Hl (u & -> & Bu & Du). apply seq_split_index in Hl as [-> Hx].
    destruct (lookup_lt_is_Some_2 _ _ Hx) as [b Hb]. set (i := length l1) in *.
    assert (d_size (dsk u) = d_size d) as Hsz by (rewrite Du; apply disk_puts_size).
    assert (length (filter (λ c, c ∉ take i (logged l)) P) ≤ length P)%nat as HPl by apply length_filter.
    eapply wp_install_one; simpl; try done.
    + by eapply geometry_size.
    + by eapply header_ok_size.
    + destruct HP as [->|[-> Hlt]]; simpl in *; lia.
    + destruct HP as [->|[-> Hlt]]; [left; simpl; lia|right].
      apply list_elem_of_filter. split; [|by eapply list_elem_of_lookup_2].
      intros (j & Hj & Hji)%elem_of_take. pose proof (bi_nodup _ _ _ Bu) as _.
      pose proof (bi_nodup _ _ _ B) as Hnd. pose proof (NoDup_lookup _ _ _ _ Hnd Hj Hb). lia.
    + intros c Hc. apply list_elem_of_filter in Hc as [_ Hc].
      destruct HP as [->|[-> _]]; [set_solver|]. apply list_elem_of_lookup in Hc as [j Hj].
      apply (logged_data _ _ _ _ Ho Hj).
    + intros t Bt Dt Vt. exists t. split; [done|]. rewrite (filter_take_S _ _ _ _ Hb) in Bt.
      rewrite length_app. fold i. simpl. rewrite Nat.add_1_r. split; [done|].
      rewrite (take_S_r ws i (b, disk_get d (lg_start l + Z.of_nat i + 1))).
      * rewrite disk_puts_app. simpl. rewrite Dt, Du. f_equal.
        apply disk_puts_notin. rewrite fmap_take. intros (j & Hj & Hji)%elem_of_take.
        rewrite list_lookup_fmap in Hj. unfold ws, install_writes in Hj.
        rewrite list_lookup_imap in Hj. destruct (logged l !! j) as [c|] eqn:Ec; simplify_eq/=.
        apply (logged_data _ _ _ _ Ho Ec). pose proof (ho_n _ _ Ho). unfold in_log. lia.
      * unfold ws, install_writes. rewrite list_lookup_imap, Hb. done.
  - intros t (u & -> & Bu & Du). rewrite length_seq in *. rewrite take_ge in Du by lia. apply HQ; [|done].
    rewrite firstn_all in Bu. replace (filter _ P) with ([] : list Z) in Bu; [done|].
    symmetry. destruct HP as [->|[-> _]]; [done|]. apply filter_none. set_solver.
Qed.

Lemma le32_u32 x : le32 (u32 x) = le32 x.
Proof.
  unfold le32, u32. change (2 ^ 32) with 4294967296. set (y := x mod 4294967296).
  assert (y = x - 4294967296 * (x / 4294967296)) as Hy by (unfold y; divmod_lia).
  clearbody y. rewrite Hy. set (q := x / 4294967296). clearbody q. clear Hy.
  replace ((x - 4294967296 * q) / 256) with (x / 256 - 16777216 * q) by divmod_lia.
  replace ((x - 4294967296 * q) / 65536) with (x / 65536 - 65536 * q) by divmod_lia.
  replace ((x - 4294967296 * q) / 16777216) with (x / 16777216 - 256 * q) by divmod_lia.
  repeat match goal with |- _ :: _ = _ :: _ => f_equal; [divmod_lia|] end. f_equal. divmod_lia.
Qed.

Lemma put_blocks_u32 d off bl : put_blocks d off (u32 <$> bl) = put_blocks d off bl.
Proof.
  revert d off. induction bl as [|b bl IH]; intros d off; [done|]. simpl. rewrite IH.
  unfold put32. by rewrite le32_u32.
Qed.

Lemma write_header_logged h l d : header_ok l d →
  write_header h (lh_n l) (lh_block l) = write_header h (Z.of_nat (length (logged l))) (logged l).
Proof.
  intros Ho. pose proof (ho_n _ _ Ho). rewrite (logged_length _ _ Ho). unfold write_header.
  rewrite Z2Nat.id, (take_ge (logged l)) by (rewrite ?(logged_length _ _ Ho); lia).
  unfold logged. by rewrite put_blocks_u32.
Qed.

Lemma wp_write_head (Q : unit → lst → Prop) s P (l := lg s) (d := dsk (bc s)) :
  geometry l d → lh_n l ≤ 30 → length (lh_block l) = 30%nat → binv ∅ P (bc s) → (length P < 30)%nat →
  lg_start l ∉ P →
  (∀ t, binv ∅ P t →
     dsk t = disk_put d (lg_start l) (write_header (disk_get d (lg_start l)) (lh_n l) (lh_block l)) →
     (∀ c, c ∈ P → view t c = view (bc s) c) → Q tt (set_bc t s)) →
  wp write_head Q s.
Proof.
  intros G Hn Hl B HP Hst HQ. destruct G as [G1 G2 G3 G4 G5].
  unfold write_head. wp_steps. fold l. rewrite G1, u32_id by lia.
  eapply wp_bread; [exact B | apply not_held_empty | fold d; lia | |].
  { left. rewrite map_size_empty. unfold NBUF. lia. }
  intros b t1 B1 _ V1 D1. wp_steps. unfold data_of. wp_steps. simpl.
  rewrite decide_True by lia.
  rewrite (binv_data _ _ _ b (lg_start l) false B1) by apply lookup_insert_eq.
  rewrite V1, (view_unpinned _ _ _ B Hst). fold d.
  eapply (wp_bset _ _ b (lg_start l) false _ _ (set_bc t1 s) B1); [apply lookup_insert_eq| |].
  { apply length_write_header; [apply (wf_disk _ (bi_wf _ _ _ B)) | done]. }
  intros t2 B2 D2 V2. wp_steps.
  eapply (wp_bwrite _ _ b (lg_start l) true _ (set_bc t2 s) B2); [apply lookup_insert_eq| |].
  { simpl. rewrite D2. simpl. rewrite D1. fold d. lia. }
  intros t3 B3 D3 V3. rewrite filter_all in B3 by (intros c Hc ->; done). wp_steps.
  eapply (wp_brelse _ _ b (lg_start l) _ (set_bc t3 s) B3); [apply lookup_insert_eq|].
  intros t4 B4 D4 V4. simpl in *.
  replace (delete b _) with (∅ : held) in B4.
  2: { apply map_eq. intros j. destruct (decide (j = b)); by simplify_map_eq. }
  apply HQ; [done| |].
  - rewrite D4, D3, D2, D1. fold d. by rewrite V2, decide_True.
  - intros c Hc. rewrite V4, V3, V2, V1. case_decide; [subst; done | done].
Qed.

(** The header read from block [h]. *)
Lemma logged_read l n bl h : 0 ≤ n ≤ 30 → length bl = 30%nat → n = hdr_n h →
  (∀ j, (j < Z.to_nat n)%nat → bl !! j = Some (s32 (get32 h (4 + 4 * Z.of_nat j)))) →
  logged (set_lh_block bl (set_lh_n n l)) = hdr_blocks h.
Proof.
  intros Hn Hl Hh Hbl. unfold logged, hdr_blocks. simpl. rewrite <- Hh. apply list_eq. intros i.
  rewrite !list_lookup_fmap, lookup_take. case_decide as Hi.
  - rewrite Hbl, lookup_seq_lt by done. simpl. by rewrite u32_s32.
  - by rewrite lookup_seq_ge by lia.
Qed.

Lemma wp_read_head (Q : unit → lst → Prop) s (l := lg s) (d := dsk (bc s))
    (h := disk_get d (lg_start l)) :
  geometry l d → length (lh_block l) = 30%nat → binv ∅ [] (bc s) → 0 ≤ hdr_n h ≤ 30 →
  (∀ bl t, length bl = 30%nat → logged (set_lh_block bl (set_lh_n (hdr_n h) l)) = hdr_blocks h →
     binv ∅ [] t → dsk t = d →
     Q tt (Lst (set_lh_block bl (set_lh_n (hdr_n h) l)) t (wakes s))) →
  wp read_head Q s.
Proof.
  intros G Hl B Hn HQ. destruct G as [G1 G2 G3 G4 G5].
  unfold read_head. wp_steps. fold l. rewrite G1, u32_id by lia.
  eapply wp_bread; [exact B | apply not_held_empty | fold d; lia | |].
  { left. rewrite map_size_empty. unfold NBUF. simpl. lia. }
  intros b t1 B1 _ V1 D1. wp_steps. unfold data_of. wp_steps. simpl.
  rewrite (binv_data _ _ _ b (lg_start l) false B1) by apply lookup_insert_eq.
  rewrite V1, (view_unpinned _ _ _ B) by set_solver. fold d h. fold (hdr_n h).
  unfold for_tail. wp_steps. simpl.
  apply (wp_foreach (λ l1 t, ∃ bl, t = Lst (set_lh_block bl (set_lh_n (hdr_n h) l)) t1 (wakes s) ∧
    length bl = 30%nat ∧
    ∀ j, (j < length l1)%nat → bl !! j = Some (s32 (get32 h (4 + 4 * Z.of_nat j))))).
  - exists (lh_block l). split_and!; [done | done | simpl; lia].
  - intros l1 x l2 t Hsp (bl & -> & Hbl & Hj). apply seq_split_index in Hsp as [-> Hx].
    unfold put_lh_block. wp_steps. simpl. rewrite decide_True by lia. wp_steps.
    eexists. split_and!; [done | by rewrite length_insert |].
    intros j. rewrite length_app. simpl. intros Hlt.
    destruct (decide (j = length l1)) as [->|]; [by rewrite list_lookup_insert_eq by lia|].
    rewrite list_lookup_insert_ne by lia. apply Hj. lia.
  - intros t (bl & -> & Hbl & Hj). rewrite length_seq in Hj.
    eapply (wp_brelse _ _ b (lg_start l) _ (Lst (set_lh_block bl (set_lh_n (hdr_n h) l)) t1 (wakes s)) B1); [apply lookup_insert_eq|]. simpl.
    intros t2 B2 D2 V2. rewrite delete_insert_id in B2 by apply lookup_empty.
    apply HQ; [done | by apply logged_read | done | by rewrite D2, D1].
Qed.

Lemma start_not_logged l d : header_ok l d → lg_start l ∉ logged l.
Proof.
  intros [_ [? ?] Hb] Hin. rewrite list.Forall_forall in Hb. apply Hb in Hin as [_ Hin].
  apply Hin. unfold in_log. lia.
Qed.

Lemma logged_range l d : geometry l d → header_ok l d →
  Forall (λ b, 0 ≤ b < 2 ^ 32 ∧ ¬ in_log (lg_start l) (lg_size l) b) (logged l).
Proof.
  intros [_ _ _ _ G] [_ _ Hb]. eapply list.Forall_impl; [exact Hb|].
  intros b [? ?]. split; [lia|done].
Qed.

Lemma header_ok_clear l d : header_ok l d → header_ok (set_lh_n 0 l) d.
Proof. intros [? [? ?] ?]. split; simpl; [done|lia|]. unfold logged. simpl. constructor. Qed.

(** commit writes the transaction, and unpins its blocks. *)
Lemma wp_commit (Q : unit → lst → Prop) s (l := lg s) (d := dsk (bc s)) :
  geometry l d → header_ok l d → 0 < lh_n l < 30 → binv ∅ (logged l) (bc s) →
  (∀ t, binv ∅ [] t →
     dsk t = disk_puts d (commit_writes d (lg_start l) (logged l) (view (bc s) <$> logged l)) →
     Q tt (Lst (set_lh_n 0 l) t (wakes s))) →
  wp commit Q s.
Proof.
  intros G Ho Hn B HQ. unfold commit. wp_steps. fold l. rewrite (proj2 (Z.ltb_lt _ _) (proj1 Hn)).
  unfold when. wp_steps. pose proof (logged_length _ _ Ho) as HlD.
  pose proof (start_not_logged _ _ Ho) as Hst. pose proof (ho_len _ _ Ho) as Hlen.
  pose proof (logged_range _ _ G Ho) as Hrange. pose proof (ho_n _ _ Ho) as Hn'.
  apply wp_write_log; try done; [apply Hn|]. intros t1 B1 D1 V1. wp_steps. fold d l in D1.
  set (vs := view (bc s) <$> logged l) in *.
  assert (length vs = length (logged l)) as Hvs by apply length_fmap.
  assert (d_size (dsk t1) = d_size d) as Z1 by (rewrite D1; apply disk_puts_size).
  eapply (wp_write_head _ (set_bc t1 s) (logged l)); simpl; try done; [by eapply geometry_size|apply Hn'|rewrite HlD; fold l; lia|].
  intros t2 B2 D2 V2. wp_steps. fold l in D2.
  assert (disk_get (dsk t1) (lg_start l) = disk_get d (lg_start l)) as E1.
  { rewrite D1. apply disk_puts_notin. rewrite log_writes_in. lia. }
  rewrite E1, (write_header_logged _ _ _ Ho) in D2.
  assert (d_size (dsk t2) = d_size d) as Z2 by (rewrite D2; simpl; done).
  eapply (wp_install_trans _ (set_bc t2 s) (logged l)); simpl; try done.
  { by eapply geometry_size. } { by eapply header_ok_size. } { right. split; [done | apply Hn]. }
  intros t3 B3 D3. wp_steps. fold l in D3. rewrite (install_zip _ _ _ vs Hvs) in D3.
  2: { intros i v Hi. apply lookup_lt_Some in Hi as Hlt. rewrite D2, disk_get_put, decide_False by lia.
       rewrite D1. by apply log_writes_get. }
  assert (d_size (dsk t3) = d_size d) as Z3 by (rewrite D3, disk_puts_size; done).
  eapply (wp_write_head _ (upd_lg (set_lh_n 0) (set_bc t3 s)) []); simpl; try done.
  { eapply geometry_size; [exact Z3|]. destruct G. by split. } { lia. } { set_solver. }
  intros t4 B4 D4 V4. fold l in D4. apply HQ; [done|].
  rewrite D4. unfold commit_writes. rewrite cons_middle, !disk_puts_app. simpl.
  rewrite <- D1, <- D2, <- D3. f_equal. rewrite D3.
  rewrite disk_puts_notin by (intros Hin%zip_fst; done). by rewrite D2, disk_get_put, decide_True.
Qed.

(** ** Recovery *)

(** A header on the disk that recovery can follow. *)
Definition recoverable (start size : Z) (d : disk) : Prop :=
  let h := disk_get d start in
  0 ≤ hdr_n h ≤ 30 ∧ hdr_n h < size ∧
  Forall (λ b, 0 ≤ b < d_size d ∧ ¬ in_log start size b) (hdr_blocks h).

Lemma wp_recover (Q : unit → lst → Prop) s (l := lg s) (d := dsk (bc s)) :
  geometry l d → length (lh_block l) = 30%nat → binv ∅ [] (bc s) →
  recoverable (lg_start l) (lg_size l) d →
  (∀ bl t, length bl = 30%nat → binv ∅ [] t → dsk t = recovered d (lg_start l) →
     Q tt (Lst (set_lh_block bl (set_lh_n 0 l)) t (wakes s))) →
  wp recover_from_log Q s.
Proof.
  intros G Hl B (Hn & Hns & Hbs) HQ. unfold recover_from_log. wp_steps.
  apply wp_read_head; try done. intros bl t1 Hbl Hlog B1 D1. wp_steps. fold d in D1. fold l d in Hlog.
  set (h := disk_get d (lg_start l)) in *. set (l1 := set_lh_block bl (set_lh_n (hdr_n h) l)) in *.
  assert (geometry l1 d) as G1 by (destruct G; by split).
  eapply (wp_install_trans _ (Lst l1 t1 (wakes s)) []); simpl.
  { by rewrite D1. }
  { rewrite D1. split; [done|done|]. rewrite Hlog. exact Hbs. }
  { done. } { by left. }
  intros t2 B2 D2. wp_steps. rewrite D1, Hlog in D2.
  eapply (wp_write_head _ (upd_lg (set_lh_n 0) (Lst l1 t2 (wakes s))) []); simpl; try done.
  { rewrite D2. eapply geometry_size; [apply disk_puts_size|]. destruct G. by split. }
  { lia. } { set_solver. }
  intros t3 B3 D3 V3. apply (HQ bl); [done..|]. fold d.
  rewrite D3, D2. unfold recovered, recover_writes. rewrite disk_puts_app. simpl. f_equal.
  rewrite disk_puts_notin; [done|]. fold h. intros (j & Hj)%list_elem_of_lookup.
  rewrite list_lookup_fmap in Hj. unfold install_writes in Hj. rewrite list_lookup_imap in Hj.
  destruct (hdr_blocks h !! j) as [b|] eqn:E; simplify_eq/=.
  rewrite Forall_lookup in Hbs. destruct (Hbs _ _ E) as [_ Hb]. apply Hb.
  destruct G. unfold in_log. lia.
Qed.

(** The kernel's bss before boot, and the part of the boot that makes the disk
    consistent: binit, then initlog (from forkret's first run). *)
Definition boot_lst (d : disk) (pid : Z) : lst :=
  Lst (Log false 0 0 0 false 0 0 (replicate 30 0)) (boot_bst d pid) [].
Definition reboot : M lst unit := bio binit;; initlog ROOTDEV.

(** The super block of the disk describes the log. *)
Definition sb_on (d : disk) : superblock := sb_decode (disk_get d 1).
Definition sb_ok (start size : Z) (d : disk) : Prop :=
  sb_logstart (sb_on d) = start ∧ sb_nlog (sb_on d) = size.

Lemma binv_boot d pid s : (∀ b, length (disk_get d b) = 512%nat) →
  binit_inv d pid (seq 0 NBUF) s → binv ∅ [] s.
Proof.
  intros Hd Hinv. pose proof (binit_inv_wf _ _ _ Hd Hinv) as W.
  destruct Hinv as (_ & _ & _ & K4 & _). split; try done.
  - intros i Hi Hl. destruct (strip_inj _ _ (K4 i)) as (_ & _ & _ & F & _). by rewrite F in Hl.
  - intros i Hi Hdt. destruct (strip_inj _ _ (K4 i)) as (F & _). unfold is_dirty in Hdt. by rewrite F in Hdt.
  - set_solver.
  - apply NoDup_nil_2.
Qed.

Lemma wp_reboot (Q : unit → lst → Prop) d pid start size :
  (∀ b, length (disk_get d b) = 512%nat) → sb_ok start size d →
  2 ≤ start → 1 ≤ size → start + size ≤ d_size d ≤ 2 ^ 31 → recoverable start size d →
  (∀ bl t, length bl = 30%nat → binv ∅ [] t → dsk t = recovered d start →
     Q tt (Lst (Log false start size 0 false ROOTDEV 0 bl) t [])) →
  wp reboot Q (boot_lst d pid).
Proof.
  intros Hd [Hs1 Hs2] H1 H2 H3 Hrec HQ. unfold reboot. wp_steps. apply wp_bio.
  eapply wp_mono; [apply binit_wp|]. intros [] t0 Hinv. pose proof (binv_boot _ _ _ Hd Hinv) as B0.
  assert (dsk t0 = d) as D0 by apply Hinv.
  unfold initlog. wp_steps. unfold readsb. apply wp_bio. wp_steps. simpl.
  eapply wp_mono; [apply (binv_bread ∅ [] t0 1 B0); [apply not_held_empty | rewrite D0; lia | left; rewrite map_size_empty; unfold NBUF; simpl; lia]|].
  intros bp t1 (B1 & _ & V1 & D1). wp_steps.
  eapply wp_mono; [apply (binv_brelse _ _ _ _ 1 B1); apply lookup_insert_eq|].
  intros [] t2 (B2 & D2 & V2). wp_steps. rewrite delete_insert_id in B2 by apply lookup_empty.
  rewrite (binv_data _ _ _ bp 1 false B1) by apply lookup_insert_eq.
  rewrite V1, (view_unpinned _ _ _ B0), D0 by set_solver. fold (sb_on d). rewrite Hs1, Hs2.
  rewrite !s32_id by lia.
  apply wp_recover; simpl; rewrite ?D2, ?D1, ?D0; try done.
  split; simpl; try done; lia.
Qed.

(** ** Crash safety of commit *)

Lemma disk_puts_cases d ws c : disk_get (disk_puts d ws) c = disk_get d c ∨
  ∃ w, w ∈ ws ∧ w.1 = c ∧ disk_get (disk_puts d ws) c = w.2.
Proof.
  revert d. induction ws as [|w ws IH]; intros d; [by left|].
  change (disk_puts d (w :: ws)) with (disk_puts (disk_put d w.1 w.2) ws).
  destruct (IH (disk_put d w.1 w.2)) as [E|(w' & ? & ? & ?)]; [|right; exists w'; set_solver].
  rewrite E, disk_get_put. case_decide; [|by left].
  right. exists w. set_solver.
Qed.

Lemma disk_puts_len d ws : (∀ b, length (disk_get d b) = 512%nat) →
  (∀ w, w ∈ ws → length w.2 = 512%nat) → ∀ b, length (disk_get (disk_puts d ws) b) = 512%nat.
Proof.
  intros Hd Hws b. destruct (disk_puts_cases d ws b) as [->|(w & Hw & _ & ->)]; auto.
Qed.

(** A write of a commit goes to a slot, to the header, or to a logged block. *)
Lemma commit_writes_cases d start bl vs w :
  w ∈ commit_writes d start bl vs → length vs = length bl →
  let h := write_header (disk_get d start) (Z.of_nat (length bl)) bl in
  (start < w.1 ≤ start + Z.of_nat (length bl) ∧ w.2 ∈ vs) ∨
  (w.1 = start ∧ (w.2 = h ∨ w.2 = write_header h 0 [])) ∨ (w.1 ∈ bl ∧ w.2 ∈ vs).
Proof.
  unfold commit_writes. intros Hw Hl.
  apply elem_of_app in Hw as [Hw|[->|[Hw|Hw]%elem_of_app]%elem_of_cons].
  - left. rewrite <- Hl. rewrite <- log_writes_in. split; [apply list_elem_of_fmap; by exists w|].
    unfold log_writes in Hw. apply list_elem_of_lookup in Hw as [i Hi].
    rewrite list_lookup_imap in Hi. destruct (vs !! i) eqn:E; simplify_eq/=. by eapply list_elem_of_lookup_2.
  - right; left. auto.
  - right; right. split.
    + apply (zip_fst bl vs), list_elem_of_fmap. by exists w.
    + apply list_elem_of_lookup in Hw as [i Hi]. rewrite lookup_zip_with in Hi.
      destruct (bl !! i); simplify_eq/=. destruct (vs !! i) eqn:E; simplify_eq/=. by eapply list_elem_of_lookup_2.
  - right; left. apply list_elem_of_singleton in Hw as ->. auto.
Qed.

(** A state in which end_op may commit: the invariant of the log, its blocks
    pinned, no buffer held, and no transaction on the disk. *)
Record committable (s : lst) : Prop := {
  co_geo : geometry (lg s) (dsk (bc s));
  co_hdr : header_ok (lg s) (dsk (bc s));
  co_n : lh_n (lg s) < 30;
  co_bc : binv ∅ (logged (lg s)) (bc s);
  co_clear : hdr_n (disk_get (dsk (bc s)) (lg_start (lg s))) = 0;
  co_sb : sb_ok (lg_start (lg s)) (lg_size (lg s)) (dsk (bc s));
  co_sb' : 1 ∉ logged (lg s)
}.

Definition writes_of (s : lst) : list (Z * block) :=
  commit_writes (dsk (bc s)) (lg_start (lg s)) (logged (lg s)) (view (bc s) <$> logged (lg s)).

Lemma view_new_block s c : committable s →
  new_block (dsk (bc s)) (logged (lg s)) (view (bc s) <$> logged (lg s)) c = view (bc s) c.
Proof.
  intros Hc. pose proof (co_bc _ Hc) as B. destruct (decide (c ∈ logged (lg s))) as [Hin|Hin].
  - pose proof Hin as [i Hi]%list_elem_of_lookup.
    eapply new_block_in; [apply (bi_nodup _ _ _ B) | exact Hi | by rewrite list_lookup_fmap, Hi].
  - rewrite new_block_notin by done. symmetry. by eapply view_unpinned.
Qed.

Lemma crashed_disk s k (d := disk_puts (dsk (bc s)) (take k (writes_of s))) : committable s →
  (∀ b, length (disk_get d b) = 512%nat) ∧ sb_ok (lg_start (lg s)) (lg_size (lg s)) d ∧
  recoverable (lg_start (lg s)) (lg_size (lg s)) d.
Proof.
  intros Hc. pose proof (co_bc _ Hc) as B. pose proof (co_geo _ Hc) as G. pose proof (co_hdr _ Hc) as Ho.
  pose proof (wf_disk _ (bi_wf _ _ _ B)) as Hlen. pose proof (ho_n _ _ Ho) as Hn.
  pose proof (logged_length _ _ Ho) as HlD. pose proof (logged_range _ _ G Ho) as Hr.
  assert (∀ w, w ∈ take k (writes_of s) → w ∈ writes_of s) as Htk.
  { intros w (? & ? & ?)%elem_of_take. by eapply list_elem_of_lookup_2. }
  assert (length (view (bc s) <$> logged (lg s)) = length (logged (lg s))) as Hvs by apply length_fmap.
  assert (length (disk_get (dsk (bc s)) (lg_start (lg s))) = 512%nat) as Hh by apply Hlen.
  split_and!.
  - apply disk_puts_len; [done|]. intros w Hw. apply Htk, commit_writes_cases in Hw; [|done].
    assert (∀ v, v ∈ view (bc s) <$> logged (lg s) → length v = 512%nat) as Hv.
    { intros v (c & -> & _)%list_elem_of_fmap. by eapply binv_view_len. }
    destruct Hw as [[_ ?]|[(_ & [Ew|Ew])|[_ ?]]]; auto; etrans; try exact (f_equal length Ew);
      repeat apply length_write_header; lia || done.
  - unfold sb_ok, sb_on. unfold d. rewrite disk_puts_notin; [apply (co_sb _ Hc)|].
    intros (w & E & Hw)%list_elem_of_fmap. apply Htk, commit_writes_cases in Hw; [|done].
    pose proof (co_sb' _ Hc). destruct G. rewrite <- E in Hw. destruct Hw as [[? _]|[[? _]|[? _]]]; done || lia.
  - assert (hdr_n (disk_get d (lg_start (lg s))) = 0 ∨ disk_get d (lg_start (lg s)) =
      write_header (disk_get (dsk (bc s)) (lg_start (lg s))) (Z.of_nat (length (logged (lg s)))) (logged (lg s)))
      as [E|E].
    + unfold d. destruct (disk_puts_cases (dsk (bc s)) (take k (writes_of s)) (lg_start (lg s)))
        as [->|(w & Hw & Hw1 & ->)]; [left; apply (co_clear _ Hc)|].
      apply Htk, commit_writes_cases in Hw; [|done]. rewrite Hw1 in Hw.
      destruct Hw as [[? _]|[(_ & [->| ->])|[Hin _]]]; [lia | by right | |].
      * left. apply hdr_n_write; [|lia]. apply length_write_header; [done|lia].
      * by apply (start_not_logged _ _ Ho) in Hin.
    + unfold recoverable. rewrite E, hdr_blocks_clear by done. split_and!; [lia|lia|lia|constructor].
    + unfold recoverable. rewrite E, hdr_n_write, hdr_blocks_write by (done || lia ||
        (eapply list.Forall_impl; [exact Hr|by intros ? []])).
      split_and!; [lia|lia|lia|]. unfold d. rewrite disk_puts_size. apply (ho_blocks _ _ Ho).
Qed.

Lemma reboot_recovers s pid k (d := disk_puts (dsk (bc s)) (take k (writes_of s))) : committable s →
  ∃ r, reboot (boot_lst d pid) = Ok tt r ∧ dsk (bc r) = recovered d (lg_start (lg s)) ∧
    ∀ c, view (bc r) c = disk_get (dsk (bc r)) c.
Proof.
  intros Hc. destruct (crashed_disk s k Hc) as (H1 & H2 & H3). pose proof (co_geo _ Hc) as [G1 G2 G3 G4 G5].
  assert (wp reboot (λ _ r, dsk (bc r) = recovered d (lg_start (lg s)) ∧
    ∀ c, view (bc r) c = disk_get (dsk (bc r)) c) (boot_lst d pid)) as Hwp.
  { eapply wp_reboot; try done; [unfold d; rewrite disk_puts_size; lia|].
    intros bl t Hbl Bt Dt. split; [done|]. intros c. simpl. eapply view_unpinned; [done|set_solver]. }
  apply wp_elim in Hwp as ([] & r & Er & Hr). eauto.
Qed.

(** Recovery may itself be cut short, any number of times. *)
Lemma recover_again d start size k c (n := length (hdr_blocks (disk_get d start))) :
  recoverable start size d → NoDup (hdr_blocks (disk_get d start)) →
  length (disk_get d start) = 512%nat → ¬ in_log start size c →
  disk_get (recovered (disk_puts d (take k (recover_writes d start))) start) c =
  disk_get (recovered d start) c.
Proof.
  intros (Hn & Hns & Hbs) Hnd Hlen Hc. unfold recover_writes at 1.
  set (bl := hdr_blocks (disk_get d start)) in *. set (ws := install_writes d start bl).
  assert (length bl = Z.to_nat (hdr_n (disk_get d start))) as Hbl.
  { unfold bl, hdr_blocks. by rewrite length_fmap, length_seq. }
  assert (length ws = length bl) as Hws by apply length_imap.
  assert (start ≠ c) as Hsc by (intros ->; apply Hc; unfold in_log; lia).
  assert (∀ x, x ∈ ws.*1 → x ∈ bl) as Hfst.
  { intros x (i & Hi)%list_elem_of_lookup. rewrite list_lookup_fmap in Hi. unfold ws, install_writes in Hi.
    rewrite list_lookup_imap in Hi. destruct (bl !! i) eqn:E; simplify_eq/=. by eapply list_elem_of_lookup_2. }
  assert (∀ x, in_log start size x → x ∉ bl) as Hout.
  { intros x Hx Hin. rewrite list.Forall_forall in Hbs. by apply (Hbs x Hin). }
  assert (in_log start size start) as Hst by (unfold in_log; lia).
  destruct (decide (k ≤ length ws)%nat) as [Hk|Hk].
  - rewrite take_app_le by done. set (d' := disk_puts d (take k ws)).
    assert (∀ x, x ∉ bl → disk_get d' x = disk_get d x) as Hsame.
    { intros x Hx. apply disk_puts_notin. by intros ?%fst_take%Hfst. }
    assert (install_writes d' start bl = ws) as Hiw.
    { unfold ws, install_writes. apply imap_ext. intros i b Hi. f_equal. apply Hsame, Hout.
      apply lookup_lt_Some in Hi. unfold in_log. lia. }
    unfold recovered, recover_writes. rewrite (Hsame start) by by apply Hout. fold bl. rewrite Hiw. fold ws.
    rewrite !disk_puts_app. simpl. rewrite !disk_get_put, !decide_False by done.
    destruct (decide (c ∈ ws.*1)) as [Hin|Hin].
    + apply disk_puts_in; [done|]. intros w Hw Hwc. symmetry. subst c. apply disk_puts_in; [done|].
      intros w' Hw' E. apply list_elem_of_lookup in Hw as [i Hi], Hw' as [j Hj].
      unfold ws, install_writes in Hi, Hj. rewrite list_lookup_imap in Hi, Hj.
      destruct (bl !! i) eqn:Ei, (bl !! j) eqn:Ej; simplify_eq/=.
      by rewrite (NoDup_lookup _ _ _ _ Hnd Ei Ej).
    + rewrite !disk_puts_notin by done. unfold d'. apply disk_puts_notin. by intros ?%fst_take.
  - rewrite take_ge by (rewrite length_app; simpl; lia). fold (recover_writes d start).
    fold (recovered d start). apply recovered_clear; [|done].
    unfold recovered, recover_writes. rewrite disk_puts_app. simpl. rewrite disk_get_put, decide_True by done.
    apply hdr_n_write; [done|lia].
Qed.

(** ** log_write *)

Lemma log_slot_spec bl b n i : (i + n ≤ length bl)%nat → ∃ j, log_slot bl b i n = j ∧ (i ≤ j ≤ i + n)%nat ∧
  (∀ m x, (i ≤ m < j)%nat → bl !! m = Some x → u32 x ≠ b) ∧
  ((j < i + n)%nat → ∃ x, bl !! j = Some x ∧ u32 x = b).
Proof.
  revert i. induction n as [|n IH]; intros i Hlen; simpl.
  - exists i. split_and!; [done|lia..|intros; lia|intros; lia].
  - destruct (lookup_lt_is_Some_2 bl i ltac:(lia)) as [y Hy]. rewrite Hy. simpl. case_decide as E.
    + exists i. split_and!; [done|lia..|intros; lia|]. intros _. eauto.
    + destruct (IH (S i) ltac:(lia)) as (j & -> & Hj & H1 & H2). exists j.
      split_and!; [done|lia..| |].
      * intros m x Hm Hx. destruct (decide (m = i)) as [->|]; [congruence|]. apply (H1 m x); [lia|done].
      * intros Hlt. apply H2. lia.
Qed.

Lemma logged_slot l b j (bl := <[j := s32 b]> (lh_block l)) :
  length (lh_block l) = 30%nat → 0 ≤ lh_n l < 30 → 0 ≤ b < 2 ^ 32 →
  j = log_slot (lh_block l) b 0 (Z.to_nat (lh_n l)) →
  (j < 30)%nat ∧
  logged (set_lh_n (if Z.of_nat j =? lh_n l then lh_n l + 1 else lh_n l) (set_lh_block bl l)) =
  pinned b (logged l).
Proof.
  intros Hl Hn Hb ->. destruct (log_slot_spec (lh_block l) b (Z.to_nat (lh_n l)) 0) as (j & Ej & Hj & H1 & H2);
    [lia|]. rewrite Ej in *. split; [lia|]. unfold logged. simpl.
  assert (u32 (s32 b) = b) as Hub by (rewrite u32_s32; by apply u32_id).
  destruct (Z.eqb_spec (Z.of_nat j) (lh_n l)) as [E|E].
  - unfold pinned. rewrite decide_False.
    + replace (Z.to_nat (lh_n l + 1)) with (S j) by lia. replace (Z.to_nat (lh_n l)) with j by lia.
      unfold bl. rewrite Ej. rewrite (take_S_r _ _ (s32 b)) by (apply list_lookup_insert_eq; lia).
      rewrite take_insert_ge by lia. rewrite fmap_app. simpl. by rewrite Hub.
    + intros (x & Ex & Hx)%list_elem_of_fmap. apply elem_of_take in Hx as (m & Hm & Hml).
      apply (H1 m x); [lia|done|by symmetry].
  - destruct (H2 ltac:(lia)) as (x & Hx & Hxb). unfold pinned. rewrite decide_True.
    + unfold bl. rewrite Ej. rewrite take_insert_lt by lia. rewrite list_fmap_insert, Hub.
      apply list_insert_id. rewrite list_lookup_fmap, lookup_take_lt, Hx by lia. simpl. by rewrite Hxb.
    + apply list_elem_of_fmap. exists x. split; [done|]. apply elem_of_take. exists j. split; [done|lia].
Qed.

(** The invariant of the log between the calls of a file-system operation. *)
Record linv (H : held) (s : lst) : Prop := {
  li_bc : binv H (logged (lg s)) (bc s);
  li_lock : lg_lock (lg s) = false;
  li_comm : lg_committing (lg s) = false;
  li_geo : geometry (lg s) (dsk (bc s));
  li_hdr : header_ok (lg s) (dsk (bc s));
  li_clear : hdr_n (disk_get (dsk (bc s)) (lg_start (lg s))) = 0;
  li_out : 0 ≤ lg_outstanding (lg s)
}.

(** The part of struct log that file-system calls do not change. *)
Definition same_log (l l' : log) : Prop :=
  lg_start l' = lg_start l ∧ lg_size l' = lg_size l ∧ lg_outstanding l' = lg_outstanding l.

Lemma wp_log_write (Q : unit → lst → Prop) H s i b m :
  linv H s → H !! i = Some (b, m) → data_block (lg s) (dsk (bc s)) b →
  1 ≤ lg_outstanding (lg s) → lh_n (lg s) < 30 → lh_n (lg s) < lg_size (lg s) - 1 →
  (∀ s', linv (<[i := (b, false)]> H) s' → same_log (lg s) (lg s') →
     logged (lg s') = pinned b (logged (lg s)) → dsk (bc s') = dsk (bc s) →
     (∀ c, view (bc s') c = view (bc s) c) → Q tt s') →
  wp (log_write i) Q s.
Proof.
  intros L Hi Hb Hout Hn Hsz HQ. destruct L as [B Lk Lc G Ho Lcl Lo].
  pose proof (ho_n _ _ Ho) as [Hn1 Hn2]. pose proof (ho_len _ _ Ho) as Hlen.
  destruct (bi_held _ _ _ B _ _ _ Hi) as [(_ & _ & _ & _ & Hbn & _) _].
  destruct (binv_pin _ _ _ _ _ _ B Hi) as (Bp & Dp & Vp).
  assert (0 ≤ b < 2 ^ 32) as Hb32 by (destruct Hb, G; lia).
  unfold log_write. wp_steps.
  rewrite (proj2 (Z.leb_gt _ _)), (proj2 (Z.leb_gt _ _)) by (unfold LOGSIZE; lia). cbn [orb].
  rewrite (proj2 (Z.ltb_ge _ _)) by lia. unfold acquire_log. wp_steps. rewrite Lk. wp_steps.
  cbn [upd_lg bc lg]. rewrite Hbn.
  set (j := log_slot (lh_block (lg s)) b 0 (Z.to_nat (lh_n (lg s)))).
  destruct (logged_slot (lg s) b j Hlen ltac:(lia) Hb32 eq_refl) as [Hj Hlog].
  unfold put_lh_block. wp_steps. cbn [lh_block set_lg_lock lg upd_lg]. rewrite decide_True by lia. wp_steps.
  set (bl := <[j := s32 b]> (lh_block (lg s))) in *.
  set (n' := if Z.of_nat j =? lh_n (lg s) then lh_n (lg s) + 1 else lh_n (lg s)) in *.
  assert (∀ (Q' : unit → lst → Prop) t, lh_n (lg t) = lh_n (lg s) → Q' tt (upd_lg (set_lh_n n') t) →
    wp (when (Z.of_nat j =? lh_n (lg s)) (modify (upd_lg (set_lh_n (lh_n (lg s) + 1))))) Q' t) as Hwhen.
  { intros Q' t Ht HQ'. unfold n' in HQ'. destruct (Z.of_nat j =? lh_n (lg s)); [done|].
    simpl. apply wp_ret. rewrite <- Ht in HQ'. destruct t as [[] ? ?]. exact HQ'. }
  apply Hwhen; [done|]. wp_steps. apply wp_bio. wp_steps. unfold release_log. wp_steps. simpl. wp_steps.
  apply HQ; simpl; try done.
  - assert (n' ≤ 30 ∧ n' < lg_size (lg s) ∧ 0 ≤ n') as Hn' by (unfold n'; destruct (_ =? _); lia).
    split; simpl; try done.
    + unfold logged in Hlog |- *. simpl in *. rewrite Hlog. exact Bp.
    + destruct G. by split.
    + split; simpl; [unfold bl; by rewrite length_insert | lia|].
      unfold logged in Hlog |- *. simpl in *. rewrite Hlog. apply list.Forall_forall.
      intros c Hc%pinned_in. destruct Hc as [->|Hc]; [done|].
      pose proof (ho_blocks _ _ Ho) as Hf. rewrite list.Forall_forall in Hf. by apply Hf.
Qed.

(** ** begin_op and end_op *)

Lemma linv_committable s : linv ∅ s → lh_n (lg s) < 30 →
  sb_ok (lg_start (lg s)) (lg_size (lg s)) (dsk (bc s)) → 1 ∉ logged (lg s) → committable s.
Proof. intros [? ? ? ? ? ? ?] ? ? ?. by split. Qed.

(** The cache and the log after a commit. *)
Lemma committed_inv s t : linv ∅ s → lh_n (lg s) < 30 → binv ∅ [] t →
  dsk t = (if decide (lh_n (lg s) = 0) then dsk (bc s) else disk_puts (dsk (bc s)) (writes_of s)) →
  geometry (lg s) (dsk t) ∧ header_ok (set_lh_n 0 (lg s)) (dsk t) ∧
  hdr_n (disk_get (dsk t) (lg_start (lg s))) = 0 ∧
  ∀ c, ¬ in_log (lg_start (lg s)) (lg_size (lg s)) c → view t c = view (bc s) c.
Proof.
  intros [B Lk Lc G Ho Lcl Lo] Hn Bt Dt. pose proof (ho_n _ _ Ho) as Hn'.
  pose proof (logged_length _ _ Ho) as HlD.
  assert (d_size (dsk t) = d_size (dsk (bc s))) as Hsz by (rewrite Dt; case_decide; [done | apply disk_puts_size]).
  split_and!; [by eapply geometry_size | by apply header_ok_clear; eapply header_ok_size | |].
  - rewrite Dt. case_decide; [done|]. unfold writes_of, commit_writes.
    rewrite cons_middle, !disk_puts_app. simpl. rewrite disk_get_put, decide_True by done.
    apply hdr_n_write; [|lia]. apply length_write_header; [|lia]. apply (wf_disk _ (bi_wf _ _ _ B)).
  - intros c Hc. rewrite (view_unpinned _ _ c Bt) by set_solver. rewrite Dt. case_decide as E.
    + symmetry. eapply view_unpinned; [done|]. intros Hin%list_elem_of_lookup.
      destruct Hin as [i Hi%lookup_lt_Some]. lia.
    + unfold writes_of, commit_writes. rewrite cons_middle, !disk_puts_app. simpl.
      assert (c ≠ lg_start (lg s)) as Hcs by (intros ->; apply Hc; unfold in_log; lia).
      rewrite disk_get_put, decide_False by done.
      destruct (decide (c ∈ logged (lg s))) as [Hin|Hin].
      * pose proof Hin as [i Hi]%list_elem_of_lookup.
        eapply zip_writes_get; [apply (bi_nodup _ _ _ B) | exact Hi | by rewrite list_lookup_fmap, Hi].
      * rewrite disk_puts_notin by (by intros ?%zip_fst). rewrite disk_get_put, decide_False by done.
        rewrite disk_puts_notin; [symmetry; by eapply view_unpinned|].
        rewrite log_writes_in, length_fmap. intros ?. apply Hc. unfold in_log. lia.
Qed.

(** commit on any state, also an empty transaction. *)
Lemma commit_any s (Q : unit → lst → Prop) :
  geometry (lg s) (dsk (bc s)) → header_ok (lg s) (dsk (bc s)) → lh_n (lg s) < 30 →
  binv ∅ (logged (lg s)) (bc s) →
  (∀ t, binv ∅ [] t →
    dsk t = (if decide (lh_n (lg s) = 0) then dsk (bc s) else disk_puts (dsk (bc s)) (writes_of s)) →
    Q tt (Lst (set_lh_n 0 (lg s)) t (wakes s))) →
  wp commit Q s.
Proof.
  intros G Ho Hn B HQ. pose proof (ho_n _ _ Ho) as Hn'. destruct (decide (lh_n (lg s) = 0)) as [E|E].
  - unfold commit. wp_steps. rewrite E. simpl. wp_steps.
    specialize (HQ (bc s)). destruct s as [[] b w]. simpl in *. subst. apply HQ; [|done].
    unfold logged in B. simpl in B. done.
  - apply wp_commit; try done; lia.
Qed.

Lemma wp_end_op (Q : unit → lst → Prop) s :
  linv ∅ s → lh_n (lg s) < 30 → lg_outstanding (lg s) = 1 →
  (∀ s', linv ∅ s' → lg_outstanding (lg s') = 0 → logged (lg s') = [] → wakes s' = wakes s ++ [ChLog] →
     lg_start (lg s') = lg_start (lg s) → lg_size (lg s') = lg_size (lg s) →
     dsk (bc s') = (if decide (lh_n (lg s) = 0) then dsk (bc s) else disk_puts (dsk (bc s)) (writes_of s)) →
     (∀ c, ¬ in_log (lg_start (lg s)) (lg_size (lg s)) c → view (bc s') c = view (bc s) c) → Q tt s') →
  wp end_op Q s.
Proof.
  intros L Hn Hout HQ. pose proof L as [B Lk Lc G Ho Lcl Lo].
  unfold end_op, acquire_log, release_log. wp_steps. rewrite Lk. wp_steps. simpl. rewrite Lc, Hout.
  change (1 - 1 =? 0) with true. cbn iota. wp_steps. simpl. wp_steps.
  apply commit_any; simpl; try done.
  { destruct G. by split. } { destruct Ho. by split. }
  intros t Bt Dt. wp_steps. simpl. wp_steps. unfold wakeup_log. wp_steps. simpl. wp_steps.
  destruct (committed_inv s t L Hn Bt Dt) as (G' & Ho' & Hc' & V').
  apply HQ; simpl; try done.
  split; simpl; try done.
  - destruct G'. by split.
  - destruct Ho'. by split.
Qed.

(** ** The typical use of log_write, and a first transaction *)

(** bp = bread(...); modify bp->data[]; log_write(bp); brelse(bp) *)
Definition update_block (b : Z) (f : block → block) : M lst unit :=
  bp ← bio (bread ROOTDEV b);
  d ← data_of bp;
  bio (bset bp (f d));;
  log_write bp;;
  bio (brelse bp).

Lemma wp_update_block (Q : unit → lst → Prop) H s b f :
  linv H s → not_held H b → data_block (lg s) (dsk (bc s)) b → 1 ≤ lg_outstanding (lg s) →
  lh_n (lg s) < 30 → lh_n (lg s) < lg_size (lg s) - 1 →
  (size H + length (logged (lg s)) < NBUF)%nat ∨ b ∈ logged (lg s) →
  (∀ d, length d = 512%nat → length (f d) = 512%nat) →
  (∀ s', linv H s' → same_log (lg s) (lg s') → logged (lg s') = pinned b (logged (lg s)) →
     dsk (bc s') = dsk (bc s) →
     (∀ c, view (bc s') c = if decide (c = b) then f (view (bc s) b) else view (bc s) c) → Q tt s') →
  wp (update_block b f) Q s.
Proof.
  intros L Hh Hb Hout Hn Hsz Hroom Hf HQ. pose proof L as [B Lk Lc G Ho Lcl Lo].
  unfold update_block. wp_steps. eapply wp_bread; [exact B | done | apply Hb | done |].
  intros i t1 B1 Hi1 V1 D1. unfold data_of. wp_steps. cbn [bc set_bc].
  rewrite (binv_data _ _ _ i b false B1) by apply lookup_insert_eq. rewrite V1.
  eapply (wp_bset _ _ i b false _ _ (set_bc t1 s) B1); [apply lookup_insert_eq| |].
  { apply Hf. by eapply binv_view_len. }
  intros t2 B2 D2 V2. wp_steps. simpl in *. rewrite insert_insert_eq in B2.
  assert (linv (<[i := (b, true)]> H) (set_bc t2 s)) as L2.
  { split; simpl; rewrite ?D2, ?D1; done. }
  eapply wp_log_write; [exact L2 | apply lookup_insert_eq | simpl; by rewrite D2, D1 | done..|].
  intros s3 L3 S3 G3 D3 V3. simpl in *. rewrite insert_insert_eq in L3.
  eapply wp_brelse; [apply (li_bc _ _ L3) | apply lookup_insert_eq |].
  intros t4 B4 D4 V4. rewrite delete_insert_id in B4 by done.
  apply HQ; simpl; try done.
  - destruct L3. split; simpl; rewrite ?D4; done.
  - by rewrite D4, D3, D2, D1.
  - intros c. rewrite V4, V3, V2. simpl. case_decide; [by subst|]. apply V1.
Qed.

Definition sb0 : block := put32 (put32 zero_block 12 30) 16 2.
Definition disk0 : disk := Disk 100 {[1 := sb0]} [].

Lemma disk0_get b : disk_get disk0 b = if decide (b = 1) then sb0 else zero_block.
Proof.
  unfold disk_get, disk0. simpl. case_decide; subst; [by rewrite lookup_singleton_eq|].
  by rewrite lookup_singleton_ne.
Qed.

Lemma disk0_ok : (∀ b, length (disk_get disk0 b) = 512%nat) ∧ sb_ok 2 30 disk0 ∧ recoverable 2 30 disk0.
Proof.
  split_and!.
  - intros b. rewrite disk0_get. by case_decide.
  - unfold sb_ok, sb_on. rewrite disk0_get. done.
  - unfold recoverable. rewrite disk0_get. rewrite decide_False by done.
    split_and!; [by vm_compute..|]. vm_compute. constructor.
Qed.

Lemma recovered_hdr d start : length (disk_get d start) = 512%nat →
  hdr_n (disk_get (recovered d start) start) = 0.
Proof.
  intros Hl. unfold recovered, recover_writes. rewrite disk_puts_app. simpl.
  rewrite disk_get_put, decide_True by done. apply hdr_n_write; [done|lia].
Qed.

(** The state after the boot of [disk0], begin_op and one logged write. *)
Lemma first_transaction : ∃ s, (reboot;; begin_op;; update_block 40 (λ _, replicate 512 7)) (boot_lst disk0 1) = Ok tt s ∧
  linv ∅ s ∧ committable s ∧ lh_n (lg s) = 1 ∧ lg_outstanding (lg s) = 1 ∧ logged (lg s) = [40] ∧
  lg_start (lg s) = 2 ∧ lg_size (lg s) = 30 ∧ d_size (dsk (bc s)) = 100.
Proof.
  destruct disk0_ok as (H1 & H2 & H3).
  cut (wp (reboot;; begin_op;; update_block 40 (λ _, replicate 512 7))
    (λ _ s, linv ∅ s ∧ committable s ∧ lh_n (lg s) = 1 ∧ lg_outstanding (lg s) = 1 ∧ logged (lg s) = [40] ∧
      lg_start (lg s) = 2 ∧ lg_size (lg s) = 30 ∧ d_size (dsk (bc s)) = 100) (boot_lst disk0 1)).
  { intros H. apply wp_elim in H as ([] & s & ? & ?). eauto. }
  wp_steps. eapply wp_reboot; try done. intros bl t Hbl Bt Dt.
  unfold begin_op, acquire_log, release_log. wp_steps. simpl. wp_steps. simpl. wp_steps. simpl. wp_steps.
  set (s1 := upd_lg _ _).
  assert (logged (lg s1) = []) as Hl1 by done.
  assert (dsk (bc s1) = recovered disk0 2) as D1 by done.
  assert (∀ c, c ≠ 2 → disk_get (dsk (bc s1)) c = disk_get disk0 c) as Hg.
  { intros c Hc. rewrite D1. apply recovered_clear; [|done]. rewrite disk0_get. by vm_compute. }
  assert (d_size (dsk (bc s1)) = 100) as Hsz by (rewrite D1; apply disk_puts_size).
  assert (linv ∅ s1) as L1.
  { split; try done.
    - split; simpl; rewrite ?Dt; done.
    - rewrite D1. apply recovered_hdr. apply H1. }
  eapply wp_update_block; [exact L1 | apply not_held_empty | | done.. | | done |].
  { unfold data_block. rewrite Hsz. split; [lia|]. unfold in_log. simpl. lia. }
  { left. rewrite Hl1, map_size_empty. unfold NBUF. simpl. lia. }
  intros s2 L2 (E1 & E2 & E3) Hl2 D2 V2. rewrite Hl1 in Hl2. change (pinned 40 []) with [40] in Hl2.
  pose proof (logged_length _ _ (li_hdr _ _ L2)) as HlD. rewrite Hl2 in HlD. simpl in HlD.
  pose proof (ho_n _ _ (li_hdr _ _ L2)) as Hn2.
  split; [done|]. split; [|split; [lia | split; [by rewrite E3|]]].
  2: { split; [done|]. rewrite E1, E2, D2. auto. }
  apply linv_committable; [done|lia| |rewrite Hl2; set_solver].
  unfold sb_ok, sb_on. rewrite E1, E2, D2, (Hg 1) by done. apply H2.
Qed.

(** A boot on any disk whose header recovery can follow. *)
Lemma reboot_any d pid start size :
  (∀ b, length (disk_get d b) = 512%nat) → sb_ok start size d → recoverable start size d →
  2 ≤ start → 1 ≤ size → start + size ≤ d_size d ≤ 2 ^ 31 →
  ∃ r, reboot (boot_lst d pid) = Ok tt r ∧ dsk (bc r) = recovered d start ∧
    ∀ c, view (bc r) c = disk_get (dsk (bc r)) c.
Proof.
  intros H1 H2 H3 H4 H5 H6.
  assert (wp reboot (λ _ r, dsk (bc r) = recovered d start ∧
    ∀ c, view (bc r) c = disk_get (dsk (bc r)) c) (boot_lst d pid)) as Hwp.
  { eapply wp_reboot; try done. intros bl t Hbl Bt Dt. split; [done|].
    intros c. simpl. eapply view_unpinned; [done|set_solver]. }
  apply wp_elim in Hwp as ([] & r & ? & ? & ?). eauto.
Qed.

Lemma recover_writes_cases d start w : w ∈ recover_writes d start →
  (w.1 = start ∧ w.2 = write_header (disk_get d start) 0 []) ∨
  (w.1 ∈ hdr_blocks (disk_get d start) ∧ ∃ c, w.2 = disk_get d c).
Proof.
  unfold recover_writes. intros [Hw|Hw]%elem_of_app.
  - right. unfold install_writes in Hw. apply list_elem_of_lookup in Hw as [i Hi].
    rewrite list_lookup_imap in Hi. destruct (hdr_blocks _ !! i) eqn:E; [|done].
    injection Hi as <-. split; [by eapply list_elem_of_lookup_2 | simpl; eauto].
  - left. apply list_elem_of_singleton in Hw as ->. done.
Qed.

(** A disk on which recovery was interrupted can be recovered. *)
Lemma interrupted d start size k (d' := disk_puts d (take k (recover_writes d start))) :
  (∀ b, length (disk_get d b) = 512%nat) → sb_ok start size d → recoverable start size d →
  1 ∉ hdr_blocks (disk_get d start) → 2 ≤ start →
  (∀ b, length (disk_get d' b) = 512%nat) ∧ sb_ok start size d' ∧ recoverable start size d'.
Proof.
  intros Hlen Hsb Hrec H1 Hst.
  assert (∀ w, w ∈ take k (recover_writes d start) → w ∈ recover_writes d start) as Htk.
  { intros w (? & ? & ?)%elem_of_take. by eapply list_elem_of_lookup_2. }
  split_and!.
  - apply disk_puts_len; [done|]. intros w Hw%Htk%recover_writes_cases.
    destruct Hw as [[_ Ew]|[_ [c Ew]]]; etrans; try exact (f_equal length Ew); [|apply Hlen].
    apply length_write_header; [apply Hlen|lia].
  - unfold sb_ok, sb_on. unfold d'. rewrite disk_puts_notin; [done|].
    intros (w & E & Hw%Htk%recover_writes_cases)%list_elem_of_fmap.
    rewrite <- E in Hw. destruct Hw as [[? _]|[? _]]; [lia|done].
  - unfold d'. destruct Hrec as (Hn & Hns & Hbs). unfold recoverable.
    destruct (disk_puts_cases d (take k (recover_writes d start)) start)
      as [->|(w & Hw & Hw1 & ->)]; [by rewrite disk_puts_size|].
    apply Htk, recover_writes_cases in Hw. destruct Hw as [[_ ->]|[Hin _]].
    + assert (hdr_n (write_header (disk_get d start) 0 []) = 0) as E by (apply hdr_n_write; [apply Hlen|lia]).
      rewrite hdr_blocks_clear, E by done. split_and!; [lia|lia|lia|constructor].
    + exfalso. rewrite list.Forall_forall in Hbs. rewrite Hw1 in Hin. apply (Hbs _ Hin). unfold in_log. lia.
Qed.

(** ** The properties of the log *)

(** C1. A commit is atomic with respect to crashes.  commit returns, having
    written one known sequence of blocks; and whatever prefix of that sequence
    has reached the disk when the machine stops, the next boot (binit and
    initlog on an empty cache) returns with every block outside the log as it
    was before the transaction if the header block was not yet written, and as
    the transaction left it otherwise. *)
Theorem commit_crash_atomic s pid : committable s → 0 < lh_n (lg s) →
  (∃ s', commit s = Ok tt s' ∧ dsk (bc s') = disk_puts (dsk (bc s)) (writes_of s) ∧ lh_n (lg s') = 0) ∧
  ∀ k, ∃ r, reboot (boot_lst (disk_puts (dsk (bc s)) (take k (writes_of s))) pid) = Ok tt r ∧
    ∀ c, ¬ in_log (lg_start (lg s)) (lg_size (lg s)) c →
      view (bc r) c = if decide (k ≤ length (logged (lg s)))%nat then disk_get (dsk (bc s)) c
                      else view (bc s) c.
Proof.
  intros Hc Hn. pose proof Hc as [G Ho Hn30 B Hcl Hsb Hsb']. split.
  - assert (wp commit (λ _ s', dsk (bc s') = disk_puts (dsk (bc s)) (writes_of s) ∧ lh_n (lg s') = 0) s) as Hwp
      by (apply wp_commit; done || lia).
    apply wp_elim in Hwp as ([] & s' & ? & ?). eauto.
  - intros k. destruct (reboot_recovers s pid k Hc) as (r & Er & Dr & Vr). exists r. split; [done|].
    intros c Hin. rewrite Vr, Dr. pose proof (logged_length _ _ Ho) as HlD. pose proof (ho_n _ _ Ho) as Hno.
    assert (length (view (bc s) <$> logged (lg s)) = length (logged (lg s))) as Hvs by apply length_fmap.
    pose proof (wf_disk _ (bi_wf _ _ _ B) (lg_start (lg s))) as Hhl.
    assert ((length (logged (lg s)) ≤ 30)%nat ∧ Z.of_nat (length (logged (lg s))) < lg_size (lg s)) as Hlens by lia.
    unfold writes_of. case_decide as Hk.
    + exact (crash_old _ _ _ _ _ Hcl Hhl Hvs Hlens k c Hk Hin).
    + rewrite <- (view_new_block s c Hc).
      exact (crash_new _ _ _ _ _ Hhl Hvs Hlens (bi_nodup _ _ _ B) (logged_range _ _ G Ho) k c ltac:(lia) Hin).
Qed.

Lemma commit_crash_atomic_witness : ∃ s r, lh_n (lg s) = 1 ∧
  reboot (boot_lst (disk_puts (dsk (bc s)) (take 2 (writes_of s))) 1) = Ok tt r.
Proof.
  destruct first_transaction as (s & _ & _ & Hc & Hn & _).
  destruct (commit_crash_atomic s 1 Hc ltac:(lia)) as [_ Hk]. destruct (Hk 2%nat) as (r & Er & _).
  exists s, r. split; [exact Hn | exact Er].
Defined.

(** Recovery is idempotent: a boot interrupted after any number of the
    writes of recovery, followed by another boot, leaves every block outside
    the log as an uninterrupted boot does. *)
Theorem recovery_idempotent d pid start size k :
  (∀ b, length (disk_get d b) = 512%nat) → sb_ok start size d → recoverable start size d →
  NoDup (hdr_blocks (disk_get d start)) → 1 ∉ hdr_blocks (disk_get d start) →
  2 ≤ start → 1 ≤ size → start + size ≤ d_size d ≤ 2 ^ 31 →
  ∃ r1 r2, reboot (boot_lst d pid) = Ok tt r1 ∧
    d_writes (dsk (bc r1)) = d_writes d ++ recover_writes d start ∧
    reboot (boot_lst (disk_puts d (take k (recover_writes d start))) pid) = Ok tt r2 ∧
    ∀ c, ¬ in_log start size c → view (bc r2) c = view (bc r1) c.
Proof.
  intros Hlen Hsb Hrec Hnd H1 Hst Hsz Hend.
  destruct (interrupted d start size k Hlen Hsb Hrec H1 Hst) as (Hlen' & Hsb' & Hrec').
  destruct (reboot_any d pid start size Hlen Hsb Hrec Hst Hsz Hend) as (r1 & E1 & D1 & V1).
  rewrite <- (disk_puts_size d (take k (recover_writes d start))) in Hend.
  destruct (reboot_any _ pid start size Hlen' Hsb' Hrec' Hst Hsz Hend) as (r2 & E2 & D2 & V2).
  exists r1, r2. split; [exact E1|]. split; [rewrite D1; apply disk_puts_writes|]. split; [exact E2|].
  intros c Hc. rewrite V1, V2, D1, D2. exact (recover_again _ _ _ _ _ Hrec Hnd (Hlen start) Hc).
Qed.

Lemma recovery_idempotent_witness : ∃ r1 r2, reboot (boot_lst disk0 1) = Ok tt r1 ∧
  reboot (boot_lst (disk_puts disk0 (take 1 (recover_writes disk0 2))) 1) = Ok tt r2.
Proof.
  destruct disk0_ok as (H1 & H2 & H3).
  assert (E : hdr_blocks (disk_get disk0 2) = []) by (rewrite disk0_get; reflexivity).
  destruct (recovery_idempotent disk0 1 2 30 1) as (r1 & r2 & E1 & _ & E2 & _).
  - exact H1.
  - exact H2.
  - exact H3.
  - rewrite E. constructor.
  - rewrite E. apply not_elem_of_nil.
  - lia.
  - lia.
  - simpl. lia.
  - exists r1, r2. split; [exact E1 | exact E2].
Defined.

(** The last end_op of a transaction commits it and returns with the log
    empty, the commit flag clear, the waiters woken, the contents of every
    block outside the log unchanged, and the disk holding them. *)
Theorem end_op_commits s :
  linv ∅ s → lh_n (lg s) < 30 → lg_outstanding (lg s) = 1 →
  ∃ s', end_op s = Ok tt s' ∧ linv ∅ s' ∧ lg_outstanding (lg s') = 0 ∧ logged (lg s') = [] ∧
    wakes s' = wakes s ++ [ChLog] ∧
    ∀ c, ¬ in_log (lg_start (lg s)) (lg_size (lg s)) c →
      view (bc s') c = view (bc s) c ∧ disk_get (dsk (bc s')) c = view (bc s) c.
Proof.
  intros L Hn Ho.
  assert (wp end_op (λ _ s', linv ∅ s' ∧ lg_outstanding (lg s') = 0 ∧ logged (lg s') = [] ∧
    wakes s' = wakes s ++ [ChLog] ∧
    ∀ c, ¬ in_log (lg_start (lg s)) (lg_size (lg s)) c →
      view (bc s') c = view (bc s) c ∧ disk_get (dsk (bc s')) c = view (bc s) c) s) as Hwp.
  { apply wp_end_op; [exact L | exact Hn | exact Ho |]. intros s' L' O' G' W' _ _ _ V'.
    split_and!; try assumption. intros c Hc. split; [by apply V'|]. rewrite <- (V' c Hc). symmetry.
    eapply view_unpinned; [apply (li_bc _ _ L')|]. rewrite G'. apply not_elem_of_nil. }
  apply wp_elim in Hwp as ([] & s' & ? & ?). eauto.
Qed.

Lemma end_op_commits_witness : ∃ s s', lh_n (lg s) = 1 ∧ end_op s = Ok tt s' ∧ logged (lg s') = [].
Proof.
  destruct first_transaction as (s & _ & HL & _ & Hn & Ho & _).
  destruct (end_op_commits s HL ltac:(lia) Ho) as (s' & E & _ & _ & Hl & _).
  exists s, s'. split; [exact Hn|]. split; [exact E | exact Hl].
Defined.

(** begin_op admits an operation exactly when no commit is in progress and
    MAXOPBLOCKS blocks can be reserved for every operation in progress and for
    this one; otherwise it sleeps, changing nothing.  An end_op that is not
    the last one only gives its reservation back and wakes the waiters. *)
Theorem begin_end_op_reserve s : lg_lock (lg s) = false →
  (begin_op s =
     if lg_committing (lg s) || (LOGSIZE <? lh_n (lg s) + (lg_outstanding (lg s) + 1) * MAXOPBLOCKS)
     then Sleep ChLog s
     else Ok tt (upd_lg (set_outstanding (lg_outstanding (lg s) + 1)) s)) ∧
  (lg_committing (lg s) = false → lg_outstanding (lg s) ≠ 1 →
     end_op s = Ok tt (Lst (set_outstanding (lg_outstanding (lg s) - 1) (lg s)) (bc s) (wakes s ++ [ChLog]))).
Proof.
  intros Hk. destruct s as [[lk st sz out com dev n bl] b w]. simpl in *. subst lk. split.
  - unfold begin_op, acquire_log, release_log, mbind, M_bind, gets, modify, sleep_on. simpl.
    destruct com; [done|]. simpl. by destruct (LOGSIZE <? n + (out + 1) * MAXOPBLOCKS).
  - intros -> Hout. unfold end_op, acquire_log, release_log, wakeup_log, mbind, M_bind, gets, modify. simpl.
    rewrite (proj2 (Z.eqb_neq _ _)) by lia. simpl. done.
Qed.

Lemma begin_end_op_reserve_witness :
  begin_op (boot_lst disk0 1) = Ok tt (upd_lg (set_outstanding 1) (boot_lst disk0 1)).
Proof. exact (proj1 (begin_end_op_reserve (boot_lst disk0 1) eq_refl)). Defined.

(** The documented use of log_write: inside a transaction with room in the
    log, a block read, modified, logged and released has the new contents for
    every later read, is listed in the log once however often it is written,
    and nothing reaches the disk before the commit. *)
Theorem log_write_absorbs s b f :
  linv ∅ s → data_block (lg s) (dsk (bc s)) b → 1 ≤ lg_outstanding (lg s) →
  lh_n (lg s) < 30 → lh_n (lg s) < lg_size (lg s) - 1 →
  (∀ d, length d = 512%nat → length (f d) = 512%nat) →
  ∃ s', update_block b f s = Ok tt s' ∧ linv ∅ s' ∧ dsk (bc s') = dsk (bc s) ∧
    logged (lg s') = (if decide (b ∈ logged (lg s)) then logged (lg s) else logged (lg s) ++ [b]) ∧
    ∀ c, view (bc s') c = if decide (c = b) then f (view (bc s) b) else view (bc s) c.
Proof.
  intros L Hb Ho Hn Hsz Hf.
  assert (wp (update_block b f) (λ _ s', linv ∅ s' ∧ dsk (bc s') = dsk (bc s) ∧
    logged (lg s') = pinned b (logged (lg s)) ∧
    ∀ c, view (bc s') c = if decide (c = b) then f (view (bc s) b) else view (bc s) c) s) as Hwp.
  { eapply wp_update_block; [exact L | apply not_held_empty | exact Hb | exact Ho | exact Hn | exact Hsz | | exact Hf |].
    - left. rewrite map_size_empty, (logged_length _ _ (li_hdr _ _ L)). unfold NBUF. lia.
    - intros. split_and!; assumption. }
  apply wp_elim in Hwp as ([] & s' & ? & ?). exists s'. split; assumption.
Qed.

Lemma log_write_absorbs_witness : ∃ s s', logged (lg s) = [40] ∧
  update_block 40 (λ _, zero_block) s = Ok tt s' ∧ logged (lg s') = [40].
Proof.
  destruct first_transaction as (s & _ & HL & _ & Hn & Ho & Hl & Hst & Hsz & Hd).
  destruct (log_write_absorbs s 40 (λ _, zero_block)) as (s' & E & _ & _ & Hl' & _).
  - exact HL.
  - unfold data_block, in_log. rewrite Hst, Hsz, Hd. lia.
  - lia.
  - lia.
  - lia.
  - intros. reflexivity.
  - exists s, s'. split; [exact Hl|]. split; [exact E|]. rewrite Hl', Hl. reflexivity.
Defined.

(** begin_op can reserve more than the log holds.  With the log of 30
    blocks that mkfs makes, one of which is the header, begin_op admits a third
    operation beside two others (reserving 3 * MAXOPBLOCKS blocks), but once 29
    blocks are in the log every log_write panics, even of a block that is
    already in it. *)
Theorem reservation_exceeds_log s i :
  lg_lock (lg s) = false → lg_committing (lg s) = false → lg_size (lg s) = 30 →
  (lh_n (lg s) = 0 → lg_outstanding (lg s) = 2 →
     begin_op s = Ok tt (upd_lg (set_outstanding 3) s)) ∧
  (29 ≤ lh_n (lg s) → log_write i s = Panic "too big a transaction").
Proof.
  intros Hk Hc Hs. destruct s as [[lk st sz out com dev n bl] b w]. simpl in *. subst. split.
  - intros -> ->. done.
  - intros Hn. unfold log_write, mbind, M_bind, gets, LOGSIZE. cbn [lg lh_n lg_size].
    replace (30 - 1 <=? n) with true by (symmetry; apply Z.leb_le; lia). by rewrite orb_true_r.
Qed.

Lemma reservation_exceeds_log_witness :
  log_write 0 (Lst (Log false 2 30 3 false ROOTDEV 29 (replicate 30 40)) (boot_bst disk0 1) []) =
  Panic "too big a transaction".
Proof.
  apply (reservation_exceeds_log
    (Lst (Log false 2 30 3 false ROOTDEV 29 (replicate 30 40)) (boot_bst disk0 1) []) 0);
    first [reflexivity | simpl; lia].
Defined.
