(* ===== verification/Blockdev.v ===== *)
(** * Blockdev: what the file system uses of the layers below it

    fs.c calls bread, brelse and log_write and reads and writes bp->data.
    [BlockDev] lists these operations, and [BlockDevLaws] what a client may
    rely on: a relation [bd_inv g H L s] between the state, the buffers [H] the
    process holds and the blocks [L] in the current transaction, and the effect
    of each operation on [H], [L] and the contents of the blocks.  The file
    system is proved against the laws; the instance below discharges them from
    the buffer cache and the log. *)

From Stdlib Require Import ZArith Lia Bool.
From stdpp Require Import base option list sets gmap strings numbers.
From S2P Require Import Prelude Locks Dll Bio BioSpec Log.

#[local] Open Scope string_scope.
#[local] Open Scope list_scope.
#[local] Open Scope Z_scope.

Class BlockDev (S : Type) := {
  bd_bread : Z → Z → M S nat;
  bd_data : nat → S → block;
  bd_set : nat → block → M S unit;
  bd_log_write : nat → M S unit;
  bd_brelse : nat → M S unit
}.

(** The disk's size, the log's place on it, and whether the process is between
    begin_op and end_op. *)
Record bdgeo := Bdgeo { g_size : Z; g_start : Z; g_lsize : Z; g_tx : bool }.

(** A block outside the log. *)
Definition home (g : bdgeo) (b : Z) : Prop :=
  0 ≤ b < g_size g ∧ ¬ in_log (g_start g) (g_lsize g) b.

(** Room for one more block in the transaction. *)
Definition log_room (g : bdgeo) (L : list Z) : Prop :=
  Z.of_nat (length L) < 30 ∧ Z.of_nat (length L) < g_lsize g - 1.

Class BlockDevLaws (S : Type) `{BlockDev S} := {
  bd_inv : bdgeo → held → list Z → S → Prop;
  bd_view : S → Z → block;
  law_bread g H L s b :
    bd_inv g H L s → not_held H b → home g b → (size H + length L < NBUF)%nat ∨ b ∈ L →
    wp (bd_bread ROOTDEV b) (λ i s', bd_inv g (<[i := (b, false)]> H) L s' ∧ H !! i = None ∧
      ∀ c, bd_view s' c = bd_view s c) s;
  law_data g H L s i b m :
    bd_inv g H L s → H !! i = Some (b, m) → bd_data i s = bd_view s b;
  law_len g H L s b : bd_inv g H L s → length (bd_view s b) = 512%nat;
  law_set g H L s i b m d :
    bd_inv g H L s → H !! i = Some (b, m) → length d = 512%nat →
    wp (bd_set i d) (λ _ s', bd_inv g (<[i := (b, true)]> H) L s' ∧
      ∀ c, bd_view s' c = if decide (c = b) then d else bd_view s c) s;
  law_log_write g H L s i b m :
    bd_inv g H L s → H !! i = Some (b, m) → home g b → g_tx g = true → log_room g L →
    wp (bd_log_write i) (λ _ s', bd_inv g (<[i := (b, false)]> H) (pinned b L) s' ∧
      ∀ c, bd_view s' c = bd_view s c) s;
  law_brelse g H L s i b :
    bd_inv g H L s → H !! i = Some (b, false) →
    wp (bd_brelse i) (λ _ s', bd_inv g (delete i H) L s' ∧ ∀ c, bd_view s' c = bd_view s c) s
}.

(** ** The instance: log.c over bio.c *)

#[export] Instance lst_blockdev : BlockDev lst := {|
  bd_bread dev b := bio (bread dev b);
  bd_data i s := b_data (buf_of i (bc s));
  bd_set i d := bio (bset i d);
  bd_log_write := log_write;
  bd_brelse i := bio (brelse i)
|}.

Record lst_inv (g : bdgeo) (H : held) (L : list Z) (s : lst) : Prop := {
  lv_linv : linv H s;
  lv_logged : logged (lg s) = L;
  lv_size : d_size (dsk (bc s)) = g_size g;
  lv_start : lg_start (lg s) = g_start g;
  lv_lsize : lg_size (lg s) = g_lsize g;
  lv_tx : g_tx g = true → 1 ≤ lg_outstanding (lg s)
}.

(** A change of the cache that keeps the disk keeps the rest. *)
Lemma lst_inv_bc g H L s H' t : lst_inv g H L s → binv H' L t → dsk t = dsk (bc s) →
  lst_inv g H' L (set_bc t s).
Proof.
  intros [[B Lk Lc G Ho Lcl Lo] <- Hs Hst Hls Ht] Bt Dt.
  split; simpl; try assumption; [|reflexivity|by rewrite Dt].
  split; simpl; rewrite ?Dt; assumption.
Qed.

Lemma home_data g H L s b : lst_inv g H L s → home g b → data_block (lg s) (dsk (bc s)) b.
Proof. intros [? ? E1 E2 E3 ?] Hb. unfold data_block. rewrite E1, E2, E3. exact Hb. Qed.

#[export] Program Instance lst_blockdev_laws : BlockDevLaws lst := {|
  bd_inv := lst_inv;
  bd_view s := view (bc s)
|}.
Next Obligation.
  intros g H L s b I Hn Hb Hroom. pose proof (home_data _ _ _ _ _ I Hb) as Hd.
  pose proof (li_bc _ _ (lv_linv _ _ _ _ I)) as B. rewrite (lv_logged _ _ _ _ I) in B.
  eapply wp_bread; [exact B | exact Hn | apply Hd | exact Hroom |].
  intros i t Bt Hi Vt Dt. split; [by eapply lst_inv_bc|]. split; [exact Hi | exact Vt].
Qed.
Next Obligation.
  intros g H L s i b m I Hi. eapply binv_data; [apply (lv_linv _ _ _ _ I) | exact Hi].
Qed.
Next Obligation.
  intros g H L s b I. eapply binv_view_len, (lv_linv _ _ _ _ I).
Qed.
Next Obligation.
  intros g H L s i b m d I Hi Hd.
  pose proof (li_bc _ _ (lv_linv _ _ _ _ I)) as B. rewrite (lv_logged _ _ _ _ I) in B.
  eapply wp_bset; [exact B | exact Hi | exact Hd |].
  intros t Bt Dt Vt. split; [by eapply lst_inv_bc | exact Vt].
Qed.
Next Obligation.
  intros g H L s i b m I Hi Hb Htx [Hr1 Hr2]. pose proof (home_data _ _ _ _ _ I Hb) as Hd.
  pose proof I as [LI E0 E1 E2 E3 E4].
  pose proof (logged_length _ _ (li_hdr _ _ LI)) as Hlen. pose proof (ho_n _ _ (li_hdr _ _ LI)) as Hn.
  rewrite E0 in Hlen. rewrite Hlen in Hr1, Hr2.
  eapply wp_log_write; [exact LI | exact Hi | exact Hd | by apply E4 | lia | lia |].
  intros s' L' (S1 & S2 & S3) Hl' D' V'. split; [|exact V'].
  split; [exact L' | by rewrite Hl', E0 | by rewrite D' | by rewrite S1 | by rewrite S2 |].
  intros Ht. rewrite S3. by apply E4.
Qed.
Next Obligation.
  intros g H L s i b I Hi.
  pose proof (li_bc _ _ (lv_linv _ _ _ _ I)) as B. rewrite (lv_logged _ _ _ _ I) in B.
  eapply wp_brelse; [exact B | exact Hi |].
  intros t Bt Dt Vt. split; [by eapply lst_inv_bc | exact Vt].
Qed.

(** ** The boot of a disk whose log is empty *)

(** After the boot and begin_op nothing is logged, and the view is the disk
    but for the header of the log. *)
Lemma boot_clean d pid g : (∀ b, length (disk_get d b) = 512%nat) → sb_ok (g_start g) (g_lsize g) d →
  d_size d = g_size g → 2 ≤ g_start g → 1 ≤ g_lsize g → g_start g + g_lsize g ≤ g_size g ≤ 2 ^ 31 →
  hdr_n (disk_get d (g_start g)) = 0 →
  ∃ t, (reboot;; begin_op) (boot_lst d pid) = Ok tt t ∧ lst_inv g ∅ [] t ∧ ∀ c, c ≠ g_start g → view (bc t) c = disk_get d c.
Proof.
  intros Hlen Hsb Hsz H1 H2 H3 Hh.
  cut (wp (reboot;; begin_op) (λ _ t, lst_inv g ∅ [] t ∧ ∀ c, c ≠ g_start g → view (bc t) c = disk_get d c) (boot_lst d pid)).
  { intros Hw. apply wp_elim in Hw as ([] & t & ? & ?). eauto. }
  wp_steps. apply (wp_reboot _ d pid (g_start g) (g_lsize g)); [done | done | done | done | by rewrite Hsz | |].
  { unfold recoverable. rewrite Hh. split; [lia|]. split; [lia|]. unfold hdr_blocks. rewrite Hh. constructor. }
  intros bl t Hbl Bt Dt.
  unfold begin_op, acquire_log, release_log. wp_steps. simpl. wp_steps. simpl. wp_steps. simpl. wp_steps.
  set (s1 := upd_lg _ _).
  assert (dsk (bc s1) = recovered d (g_start g)) as D1 by exact Dt.
  assert (d_size (dsk (bc s1)) = g_size g) as Hsz1 by (rewrite D1, <- Hsz; apply disk_puts_size).
  assert (linv ∅ s1) as L1.
  { split; try done.
    - split; simpl; rewrite ?Dt; try done; rewrite <- D1, Hsz1; lia.
    - split; simpl; try done; lia.
    - rewrite D1. apply recovered_hdr. apply Hlen. }
  split; [split; try done|].
  intros c Hc. etrans; [eapply view_unpinned; [exact Bt | apply not_elem_of_nil]|].
  change (dsk (bc s1)) with (dsk t) in *. rewrite D1. by apply recovered_clear.
Qed.
