(* ===== verification/Fs.v ===== *)
(** * Fs: the definitions of fs.c

    Blocks, inodes, directories and path names, over any [BlockDev].  The state
    is the inode cache, the super block and the block device; an inode pointer
    is the index of its entry in icache.inode.  A read returns the bytes it
    would copy to dst, and a write is given the bytes of src.  The device
    switch devsw, whose functions are those of console.c, is the variable
    [devsw] of the section.

    Every function of fs.c is here.  Loops that the C code bounds by a count
    run on that count; readi and writei have fuel, one unit for each block they
    touch, which is at most the number of bytes asked for. *)

From Stdlib Require Import ZArith Lia Bool.
From stdpp Require Import base option list sets gmap strings numbers.
From S2P Require Import Prelude Cstring Locks Bio BioSpec Log Blockdev.

#[local] Open Scope string_scope.
#[local] Open Scope list_scope.
#[local] Open Scope Z_scope.

Definition ROOTINO : Z := 1.
Definition NINODE : nat := 50.
Definition NDEV : Z := 10.
Definition NDIRECT : Z := 10.
Definition NINDIRECT : Z := 128.
Definition NDBLINDIRECT : Z := NINDIRECT * NINDIRECT.
Definition NTPLINDIRECT : Z := NINDIRECT * NINDIRECT * NINDIRECT.
Definition MAXFILE : Z := NDIRECT + NINDIRECT + NDBLINDIRECT + NTPLINDIRECT.
Definition IPB : Z := 8.
Definition BPB : Z := BSIZE * 8.
Definition DIRSIZ : Z := 14.
Definition T_DIR : Z := 1.
Definition T_FILE : Z := 2.
Definition T_DEV : Z := 3.

Definition IBLOCK (i : Z) (sb : superblock) : Z := i / IPB + sb_inodestart sb.
Definition BBLOCK (b : Z) (sb : superblock) : Z := b / BPB + sb_bmapstart sb.

(** struct inode of file.h. *)
Record inode := Inode {
  i_dev : Z; i_inum : Z; i_ref : Z; i_lock : sleeplock; i_valid : bool;
  i_type : Z; i_major : Z; i_minor : Z; i_nlink : Z; i_size : Z; i_addrs : list Z
}.

Definition inode0 : inode := Inode 0 0 0 initsleeplock false 0 0 0 0 0 (replicate 13 0).

Definition set_i_key (dev inum ref : Z) (ip : inode) : inode :=
  Inode dev inum ref (i_lock ip) false (i_type ip) (i_major ip) (i_minor ip) (i_nlink ip)
    (i_size ip) (i_addrs ip).
Definition set_i_ref (v : Z) (ip : inode) : inode :=
  Inode (i_dev ip) (i_inum ip) v (i_lock ip) (i_valid ip) (i_type ip) (i_major ip) (i_minor ip)
    (i_nlink ip) (i_size ip) (i_addrs ip).
Definition set_i_lock (v : sleeplock) (ip : inode) : inode :=
  Inode (i_dev ip) (i_inum ip) (i_ref ip) v (i_valid ip) (i_type ip) (i_major ip) (i_minor ip)
    (i_nlink ip) (i_size ip) (i_addrs ip).
Definition set_i_valid (v : bool) (ip : inode) : inode :=
  Inode (i_dev ip) (i_inum ip) (i_ref ip) (i_lock ip) v (i_type ip) (i_major ip) (i_minor ip)
    (i_nlink ip) (i_size ip) (i_addrs ip).
Definition set_i_type (v : Z) (ip : inode) : inode :=
  Inode (i_dev ip) (i_inum ip) (i_ref ip) (i_lock ip) (i_valid ip) v (i_major ip) (i_minor ip)
    (i_nlink ip) (i_size ip) (i_addrs ip).
Definition set_i_dev (major minor : Z) (ip : inode) : inode :=
  Inode (i_dev ip) (i_inum ip) (i_ref ip) (i_lock ip) (i_valid ip) (i_type ip) major minor
    (i_nlink ip) (i_size ip) (i_addrs ip).
Definition set_i_nlink (v : Z) (ip : inode) : inode :=
  Inode (i_dev ip) (i_inum ip) (i_ref ip) (i_lock ip) (i_valid ip) (i_type ip) (i_major ip)
    (i_minor ip) v (i_size ip) (i_addrs ip).
Definition set_i_size (v : Z) (ip : inode) : inode :=
  Inode (i_dev ip) (i_inum ip) (i_ref ip) (i_lock ip) (i_valid ip) (i_type ip) (i_major ip)
    (i_minor ip) (i_nlink ip) v (i_addrs ip).
Definition set_i_addr (k : Z) (v : Z) (ip : inode) : inode :=
  Inode (i_dev ip) (i_inum ip) (i_ref ip) (i_lock ip) (i_valid ip) (i_type ip) (i_major ip)
    (i_minor ip) (i_nlink ip) (i_size ip) (<[Z.to_nat k := v]> (i_addrs ip)).
Definition addr_of (ip : inode) (k : Z) : Z := bget0 (i_addrs ip) k.

(** struct dinode of fs.h in its 64 bytes at [off] of a block. *)
Definition dinode_off (inum : Z) : Z := 64 * (inum mod IPB).
Fixpoint get_addrs (d : block) (off : Z) (n : nat) : list Z :=
  match n with O => [] | S n => get32 d off :: get_addrs d (off + 4) n end.
Fixpoint put_addrs (d : block) (off : Z) (l : list Z) : block :=
  match l with [] => d | x :: l => put_addrs (put32 d off x) (off + 4) l end.

(** struct stat of stat.h. *)
Record stat := Stat { st_type : Z; st_dev : Z; st_ino : Z; st_nlink : Z; st_size : Z }.

Definition stati (ip : inode) : stat :=
  Stat (i_type ip) (i_dev ip) (i_inum ip) (i_nlink ip) (i_size ip).

(** ** Bits of the free map *)

(** bp->data[bi/8] & (1 << (bi % 8)), its setting and its clearing. *)
Definition bit_mask (bi : Z) : Z := Z.shiftl 1 (bi mod 8).
Definition bit_set (d : block) (bi : Z) : bool := negb (Z.land (bget0 d (bi / 8)) (bit_mask bi) =? 0).
Definition set_bit (d : block) (bi : Z) : block :=
  <[Z.to_nat (bi / 8) := u8 (Z.lor (bget0 d (bi / 8)) (bit_mask bi))]> d.
Definition clear_bit (d : block) (bi : Z) : block :=
  <[Z.to_nat (bi / 8) := u8 (Z.land (bget0 d (bi / 8)) (Z.lnot (bit_mask bi)))]> d.

(** The inner loop of balloc: the first clear bit among [n] from [bi] on. *)
Fixpoint first_clear (d : block) (bi : Z) (n : nat) : option Z :=
  match n with
  | O => None
  | S n => if bit_set d bi then first_clear d (bi + 1) n else Some bi
  end.

(** ** Path elements *)

Definition SLASH : Z := 47.

Fixpoint skip_slashes (path : list Z) : list Z :=
  match path with c :: p => if c =? SLASH then skip_slashes p else path | [] => [] end.

(** The bytes up to the next slash or the end, and the rest. *)
Fixpoint elem_of_path (path : list Z) : list Z * list Z :=
  match path with
  | [] => ([], [])
  | c :: p => if c =? SLASH then ([], path) else let '(e, r) := elem_of_path p in (c :: e, r)
  end.

(** skipelem, on a path given by its bytes before the terminator; [name] is
    the caller's buffer of DIRSIZ bytes. *)
Definition skipelem (path name : list Z) : option (list Z * list Z) :=
  let path := skip_slashes path in
  match path with
  | [] => None
  | _ =>
      let '(s, path) := elem_of_path path in
      let len := Z.of_nat (length s) in
      let name := if DIRSIZ <=? len then splice name 0 (take (Z.to_nat DIRSIZ) s)
                  else splice name 0 (s ++ [0]) in
      Some (skip_slashes path, name)
  end.

Definition namecmp (s t : list Z) : Z := strncmp (cstr s) (cstr t) DIRSIZ.

(** struct dirent of fs.h: 16 bytes, inum then name. *)
Definition de_inum (d : list Z) : Z := get16 d 0.
Definition de_name (d : list Z) : list Z := slice d 2 14.

(** The DIRSIZ bytes that strncpy(de.name, name, DIRSIZ) stores. *)
Definition strncpy_name (name : list Z) : list Z :=
  map (λ i, strncpy (λ a, cstr name (a - 16)) 0 16 DIRSIZ (Z.of_nat i)) (seq 0 14).
Definition mk_dirent (inum : Z) (name : list Z) : list Z := le16 inum ++ strncpy_name name.

(** ** The state: icache, sb, and the device *)

Record fsst (S : Type) := Fsst {
  ic_lock : bool; ic : list inode; sb : superblock; fcur : Z; bd : S
}.
Arguments Fsst {S}. Arguments ic_lock {S}. Arguments ic {S}. Arguments sb {S}.
Arguments fcur {S}. Arguments bd {S}.

Section fs.
Context {S : Type} {BD : BlockDev S}.
#[local] Notation F := (M (fsst S)).

Definition set_bd (b : S) (s : fsst S) : fsst S := Fsst (ic_lock s) (ic s) (sb s) (fcur s) b.
Definition set_ic_lock (v : bool) (s : fsst S) : fsst S := Fsst v (ic s) (sb s) (fcur s) (bd s).
Definition set_sb (v : superblock) (s : fsst S) : fsst S :=
  Fsst (ic_lock s) (ic s) v (fcur s) (bd s).
Definition upd_ip (ip : nat) (f : inode → inode) (s : fsst S) : fsst S :=
  Fsst (ic_lock s) (alter f ip (ic s)) (sb s) (fcur s) (bd s).
Definition ip_of (ip : nat) (s : fsst S) : inode := default inode0 (ic s !! ip).

Definition blk {A} (m : M S A) : F A := zoom bd set_bd m.
Definition bdata (bp : nat) : F block := gets (λ s, bd_data bp (bd s)).
Definition set_ip (ip : nat) (f : inode → inode) : F unit := modify (upd_ip ip f).

Definition acquire_icache : F unit :=
  l ← gets ic_lock; if l : bool then panic "acquire" else modify (set_ic_lock true).
Definition release_icache : F unit :=
  l ← gets ic_lock; if l : bool then modify (set_ic_lock false) else panic "release".

(** acquiresleep, releasesleep and holdingsleep on ip->lock. *)
Definition acquiresleep_i (ip : nat) : F unit :=
  s ← mget;
  if sl_locked (i_lock (ip_of ip s)) then sleep_on (ChInodeLock ip)
  else set_ip ip (set_i_lock (Sleeplock true (fcur s))).
Definition releasesleep_i (ip : nat) : F unit := set_ip ip (set_i_lock (Sleeplock false 0)).
Definition holdingsleep_i (ip : nat) : F bool :=
  s ← mget; mret (holdingsleep (i_lock (ip_of ip s)) (fcur s)).

(** ** Blocks *)

Definition bzero (dev bno : Z) : F unit :=
  bp ← blk (bd_bread dev bno);
  blk (bd_set bp zero_block);;
  blk (bd_log_write bp);;
  blk (bd_brelse bp).

(** One pass of balloc's outer loop: the free-map block of [b]. *)
Fixpoint balloc_loop (dev b : Z) (n : nat) : F Z :=
  match n with
  | O => panic "balloc: out of blocks"
  | Datatypes.S n =>
      sb ← gets sb;
      bp ← blk (bd_bread dev (BBLOCK b sb));
      d ← bdata bp;
      match first_clear d 0 (Z.to_nat (Z.min BPB (sb_size sb - b))) with
      | Some bi =>
          blk (bd_set bp (set_bit d bi));;
          blk (bd_log_write bp);;
          blk (bd_brelse bp);;
          bzero dev (b + bi);;
          mret (b + bi)
      | None =>
          blk (bd_brelse bp);;
          balloc_loop dev (b + BPB) n
      end
  end.

(** The loop runs for b = 0, BPB, 2 * BPB, ... below sb.size. *)
Definition balloc (dev : Z) : F Z :=
  sb ← gets sb;
  balloc_loop dev 0 (Z.to_nat ((sb_size sb + BPB - 1) / BPB)).

Definition bfree (dev b : Z) : F unit :=
  sb ← gets sb;
  bp ← blk (bd_bread dev (BBLOCK b sb));
  d ← bdata bp;
  let bi := b mod BPB in
  if negb (bit_set d bi) then panic "freeing free block" else
  blk (bd_set bp (clear_bit d bi));;
  blk (bd_log_write bp);;
  blk (bd_brelse bp).

(** ** Inodes *)

Definition readsb_fs (dev : Z) : F superblock :=
  bp ← blk (bd_bread dev 1);
  d ← bdata bp;
  blk (bd_brelse bp);;
  mret (sb_decode d).

Definition iinit (dev : Z) : F unit :=
  modify (set_ic_lock false);;
  foreach (seq 0 NINODE) (λ i, set_ip i (set_i_lock initsleeplock));;
  v ← readsb_fs dev;
  modify (set_sb v).

(** The loop of iget: an entry that caches the inode, or else the first free
    entry it met. *)
Fixpoint iget_scan (l : list inode) (i : nat) (empty : option nat) (dev inum : Z)
    : nat + option nat :=
  match l with
  | [] => inr empty
  | ip :: l =>
      if (0 <? i_ref ip) && (i_dev ip =? dev) && (i_inum ip =? inum) then inl i
      else iget_scan l (Datatypes.S i)
             (match empty with None => if i_ref ip =? 0 then Some i else None | e => e end) dev inum
  end.

Definition iget (dev inum : Z) : F nat :=
  acquire_icache;;
  l ← gets ic;
  match iget_scan l 0 None dev inum with
  | inl ip =>
      set_ip ip (λ x, set_i_ref (i_ref x + 1) x);;
      release_icache;;
      mret ip
  | inr None => panic "iget: no inodes"
  | inr (Some ip) =>
      set_ip ip (set_i_key dev inum 1);;
      release_icache;;
      mret ip
  end.

Definition idup (ip : nat) : F nat :=
  acquire_icache;;
  set_ip ip (λ x, set_i_ref (i_ref x + 1) x);;
  release_icache;;
  mret ip.

(** for(inum = 1; inum < sb.ninodes; inum++) *)
Fixpoint ialloc_loop (dev type inum : Z) (n : nat) : F nat :=
  match n with
  | O => panic "ialloc: no inodes"
  | Datatypes.S n =>
      sb ← gets sb;
      bp ← blk (bd_bread dev (IBLOCK inum sb));
      d ← bdata bp;
      let off := dinode_off inum in
      if s16 (get16 d off) =? 0 then
        blk (bd_set bp (put16 (splice d (Z.to_nat off) (replicate 64 0)) off type));;
        blk (bd_log_write bp);;
        blk (bd_brelse bp);;
        iget dev inum
      else
        blk (bd_brelse bp);;
        ialloc_loop dev type (inum + 1) n
  end.

Definition ialloc (dev type : Z) : F nat :=
  sb ← gets sb;
  ialloc_loop dev type 1 (Z.to_nat (sb_ninodes sb - 1)).

(** The stores of iupdate into the dinode at [off]. *)
Definition put_dinode (d : block) (off : Z) (ip : inode) : block :=
  let d := put16 d off (i_type ip) in
  let d := put16 d (off + 2) (i_major ip) in
  let d := put16 d (off + 4) (i_minor ip) in
  let d := put16 d (off + 6) (i_nlink ip) in
  let d := put32 d (off + 8) (i_size ip) in
  put_addrs d (off + 12) (i_addrs ip).

Definition iupdate (ip : nat) : F unit :=
  x ← gets (ip_of ip);
  sb ← gets sb;
  bp ← blk (bd_bread (i_dev x) (IBLOCK (i_inum x) sb));
  d ← bdata bp;
  blk (bd_set bp (put_dinode d (dinode_off (i_inum x)) x));;
  blk (bd_log_write bp);;
  blk (bd_brelse bp).

(** The loads of ilock from the dinode at [off]. *)
Definition get_dinode (d : block) (off : Z) (ip : inode) : inode :=
  Inode (i_dev ip) (i_inum ip) (i_ref ip) (i_lock ip) (i_valid ip)
    (s16 (get16 d off)) (s16 (get16 d (off + 2))) (s16 (get16 d (off + 4)))
    (s16 (get16 d (off + 6))) (get32 d (off + 8)) (get_addrs d (off + 12) 13).

Definition ilock (ip : nat) : F unit :=
  x ← gets (ip_of ip);
  if i_ref x <? 1 then panic "ilock" else
  acquiresleep_i ip;;
  x ← gets (ip_of ip);
  when (negb (i_valid x))
    (sb ← gets sb;
     bp ← blk (bd_bread (i_dev x) (IBLOCK (i_inum x) sb));
     d ← bdata bp;
     set_ip ip (get_dinode d (dinode_off (i_inum x)));;
     blk (bd_brelse bp);;
     set_ip ip (set_i_valid true);;
     x ← gets (ip_of ip);
     if i_type x =? 0 then panic "ilock: no type" else mret tt).

Definition iunlock (ip : nat) : F unit :=
  x ← gets (ip_of ip);
  h ← holdingsleep_i ip;
  if negb h || (i_ref x <? 1) then panic "iunlock" else releasesleep_i ip.

(** ** Inode content *)

(** if((addr = ip->addrs[k]) == 0) ip->addrs[k] = addr = balloc(ip->dev); *)
Definition bmap_addr (ip : nat) (k : Z) : F Z :=
  x ← gets (ip_of ip);
  if addr_of x k =? 0 then
    addr ← balloc (i_dev x);
    set_ip ip (set_i_addr k addr);;
    mret addr
  else mret (addr_of x k).

(** One level of an indirect block: bp = bread(dev, addr); if((addr = a[rd])
    == 0){ a[wr] = addr = balloc(dev); log_write(bp); } brelse(bp). *)
Definition bmap_level (dev addr rd wr : Z) : F Z :=
  bp ← blk (bd_bread dev addr);
  d ← bdata bp;
  if NINDIRECT <=? rd then undef "a[] out of bounds" else
  let addr := get32 d (4 * rd) in
  if addr =? 0 then
    addr ← balloc dev;
    d ← bdata bp;
    blk (bd_set bp (put32 d (4 * wr) addr));;
    blk (bd_log_write bp);;
    blk (bd_brelse bp);;
    mret addr
  else
    blk (bd_brelse bp);;
    mret addr.

Definition bmap (ip : nat) (bn : Z) : F Z :=
  x ← gets (ip_of ip);
  let dev := i_dev x in
  if bn <? NDIRECT then bmap_addr ip bn else
  let bn := bn - NDIRECT in
  if bn <? NINDIRECT then
    addr ← bmap_addr ip NDIRECT;
    bmap_level dev addr bn bn
  else
  let bn := bn - NINDIRECT in
  if bn <? NDBLINDIRECT then
    addr ← bmap_addr ip (NDIRECT + 1);
    addr ← bmap_level dev addr (bn / NINDIRECT) (bn / NINDIRECT);
    bmap_level dev addr (bn mod NINDIRECT) (bn mod NINDIRECT)
  else
  let bn := bn - NDBLINDIRECT in
  if bn <? NTPLINDIRECT then
    addr ← bmap_addr ip (NDIRECT + 2);
    addr ← bmap_level dev addr (bn / NDBLINDIRECT) (bn / NDBLINDIRECT);
    addr ← bmap_level dev addr (bn / NINDIRECT) ((bn mod NDBLINDIRECT) / NINDIRECT);
    bmap_level dev addr (bn mod NINDIRECT) (bn mod NINDIRECT)
  else panic "bmap: out of range".

(** What itrunc does with the block [addr] at the root of a tree of [lvl]
    levels of indirect blocks: free the trees it lists, then free it. *)
Fixpoint free_tree (lvl : nat) (dev addr : Z) : F unit :=
  match lvl with
  | O => bfree dev addr
  | Datatypes.S lvl =>
      bp ← blk (bd_bread dev addr);
      foreach (seq 0 (Z.to_nat NINDIRECT)) (λ j,
        d ← bdata bp;
        let x := get32 d (4 * Z.of_nat j) in
        when (negb (x =? 0)) (free_tree lvl dev x));;
      blk (bd_brelse bp);;
      bfree dev addr
  end.

(** if(ip->addrs[k]){ free the tree; ip->addrs[k] = 0; } *)
Definition itrunc_addr (ip : nat) (k : Z) (lvl : nat) : F unit :=
  x ← gets (ip_of ip);
  when (negb (addr_of x k =? 0))
    (free_tree lvl (i_dev x) (addr_of x k);;
     set_ip ip (set_i_addr k 0)).

Definition itrunc (ip : nat) : F unit :=
  foreach (seq 0 (Z.to_nat NDIRECT)) (λ i, itrunc_addr ip (Z.of_nat i) 0);;
  itrunc_addr ip NDIRECT 1;;
  itrunc_addr ip (NDIRECT + 1) 2;;
  itrunc_addr ip (NDIRECT + 2) 3;;
  set_ip ip (set_i_size 0);;
  iupdate ip.

Definition iput (ip : nat) : F unit :=
  acquiresleep_i ip;;
  x ← gets (ip_of ip);
  when (i_valid x && (i_nlink x =? 0))
    (acquire_icache;;
     x ← gets (ip_of ip);
     let r := i_ref x in
     release_icache;;
     when (r =? 1)
       (itrunc ip;;
        set_ip ip (set_i_type 0);;
        iupdate ip;;
        set_ip ip (set_i_valid false)));;
  releasesleep_i ip;;
  acquire_icache;;
  set_ip ip (λ x, set_i_ref (i_ref x - 1) x);;
  release_icache.

Definition iunlockput (ip : nat) : F unit := iunlock ip;; iput ip.

(** devsw: the read and write functions of each major device. *)
Context (devsw_read : Z → option (nat → Z → F (option (list Z)))).
Context (devsw_write : Z → option (nat → list Z → Z → F Z)).

(** for(tot=0; tot<n; tot+=m, off+=m, dst+=m), with the bytes read so far. *)
Fixpoint readi_loop (fuel : nat) (ip : nat) (off n tot : Z) (dst : list Z) : F (list Z) :=
  match fuel with
  | O => if tot <? n then undef "out of fuel" else mret dst
  | Datatypes.S fuel =>
      if tot <? n then
        x ← gets (ip_of ip);
        addr ← bmap ip (off / BSIZE);
        bp ← blk (bd_bread (i_dev x) addr);
        let m := Z.min (n - tot) (BSIZE - off mod BSIZE) in
        d ← bdata bp;
        blk (bd_brelse bp);;
        readi_loop fuel ip (off + m) n (tot + m)
          (dst ++ slice d (Z.to_nat (off mod BSIZE)) (Z.to_nat m))
      else mret dst
  end.

(** readi: [None] is -1, and [Some l] the bytes copied to dst (its return
    value is their number). *)
Definition readi (ip : nat) (off n : Z) : F (option (list Z)) :=
  x ← gets (ip_of ip);
  if i_type x =? T_DEV then
    if (i_major x <? 0) || (NDEV <=? i_major x) then mret None else
    match devsw_read (i_major x) with
    | None => mret None
    | Some read => read ip n
    end
  else
  if (i_size x <? off) || (u32 (off + n) <? off) then mret None else
  let n := if i_size x <? u32 (off + n) then i_size x - off else n in
  l ← readi_loop (Z.to_nat n) ip off n 0 [];
  mret (Some l).

(** The loop of writei; it leaves the final off. *)
Fixpoint writei_loop (fuel : nat) (ip : nat) (src : list Z) (off n tot : Z) : F Z :=
  match fuel with
  | O => if tot <? n then undef "out of fuel" else mret off
  | Datatypes.S fuel =>
      if tot <? n then
        x ← gets (ip_of ip);
        addr ← bmap ip (off / BSIZE);
        bp ← blk (bd_bread (i_dev x) addr);
        let m := Z.min (n - tot) (BSIZE - off mod BSIZE) in
        d ← bdata bp;
        blk (bd_set bp (splice d (Z.to_nat (off mod BSIZE)) (slice src (Z.to_nat tot) (Z.to_nat m))));;
        blk (bd_log_write bp);;
        blk (bd_brelse bp);;
        writei_loop fuel ip src (off + m) n (tot + m)
      else mret off
  end.

Definition writei (ip : nat) (src : list Z) (off n : Z) : F Z :=
  x ← gets (ip_of ip);
  if i_type x =? T_DEV then
    if (i_major x <? 0) || (NDEV <=? i_major x) then mret (-1) else
    match devsw_write (i_major x) with
    | None => mret (-1)
    | Some write => write ip src n
    end
  else
  if u32 (off + n) <? off then mret (-1) else
  if MAXFILE * BSIZE <? u32 (off + n) then mret (-1) else
  off ← writei_loop (Z.to_nat n) ip src off n 0;
  x ← gets (ip_of ip);
  when ((0 <? n) && (i_size x <? off))
    (set_ip ip (set_i_size off);;
     iupdate ip);;
  mret n.

(** ** Directories *)

(** for(off = 0; off < dp->size; off += sizeof(de)); the result is the entry's
    inode and the offset stored through poff. *)
Fixpoint dirlookup_loop (fuel : nat) (dp : nat) (name : list Z) (off : Z) : F (option (nat * Z)) :=
  x ← gets (ip_of dp);
  if off <? i_size x then
    match fuel with
    | O => undef "out of fuel"
    | Datatypes.S fuel =>
        r ← readi dp off 16;
        match r with
        | Some de =>
            if negb (length de =? 16)%nat then panic "dirlookup read" else
            if de_inum de =? 0 then dirlookup_loop fuel dp name (off + 16) else
            if namecmp name (de_name de) =? 0 then
              ip ← iget (i_dev x) (de_inum de);
              mret (Some (ip, off))
            else dirlookup_loop fuel dp name (off + 16)
        | None => panic "dirlookup read"
        end
    end
  else mret None.

Definition dirlookup (dp : nat) (name : list Z) : F (option (nat * Z)) :=
  x ← gets (ip_of dp);
  if negb (i_type x =? T_DIR) then panic "dirlookup not DIR" else
  dirlookup_loop (Z.to_nat (i_size x)) dp name 0.

(** The loop of dirlink that looks for an empty dirent; its offset. *)
Fixpoint dirlink_loop (fuel : nat) (dp : nat) (off : Z) : F Z :=
  x ← gets (ip_of dp);
  if off <? i_size x then
    match fuel with
    | O => undef "out of fuel"
    | Datatypes.S fuel =>
        r ← readi dp off 16;
        match r with
        | Some de =>
            if negb (length de =? 16)%nat then panic "dirlink read" else
            if de_inum de =? 0 then mret off else dirlink_loop fuel dp (off + 16)
        | None => panic "dirlink read"
        end
    end
  else mret off.

Definition dirlink (dp : nat) (name : list Z) (inum : Z) : F Z :=
  r ← dirlookup dp name;
  match r with
  | Some (ip, _) => iput ip;; mret (-1)
  | None =>
      x ← gets (ip_of dp);
      off ← dirlink_loop (Z.to_nat (i_size x)) dp 0;
      n ← writei dp (mk_dirent inum name) off 16;
      if negb (n =? 16) then panic "dirlink" else mret 0
  end.

(** ** Paths *)

(** The loop of namex; each round consumes a byte of the path at least. *)
Fixpoint namex_loop (fuel : nat) (ip : nat) (path : list Z) (nameiparent : bool) (name : list Z)
    : F (option nat * list Z) :=
  match skipelem path name with
  | None => if nameiparent then iput ip;; mret (None, name) else mret (Some ip, name)
  | Some (path, name) =>
      match fuel with
      | O => undef "out of fuel"
      | Datatypes.S fuel =>
          ilock ip;;
          x ← gets (ip_of ip);
          if negb (i_type x =? T_DIR) then iunlockput ip;; mret (None, name) else
          if nameiparent && (match path with [] => true | _ => false end) then
            iunlock ip;; mret (Some ip, name)
          else
          r ← dirlookup ip name;
          match r with
          | None => iunlockput ip;; mret (None, name)
          | Some (next, _) =>
              iunlockput ip;;
              namex_loop fuel next path nameiparent name
          end
      end
  end.

(** [cwd] is myproc()->cwd. *)
Definition namex (cwd : nat) (path : list Z) (nameiparent : bool) (name : list Z)
    : F (option nat * list Z) :=
  ip ← (match path with
        | c :: _ => if c =? SLASH then iget ROOTDEV ROOTINO else idup cwd
        | [] => idup cwd
        end);
  namex_loop (length path) ip path nameiparent name.

Definition namei (cwd : nat) (path : list Z) : F (option nat) :=
  r ← namex cwd path false (replicate 14 0);
  mret r.1.

Definition nameiparent (cwd : nat) (path name : list Z) : F (option nat * list Z) :=
  namex cwd path true name.

End fs.
