(* ===== verification/Dinode.v ===== *)
(** * Dinode: the inode record in its block

    iupdate stores the fields of an inode at [dinode_off inum] of the inode's
    block and ilock loads them back (fs.c, struct dinode of fs.h).  What is
    loaded is what was stored, and the other seven inodes of the block keep
    their bytes. *)

From Stdlib Require Import ZArith Lia Bool.
From stdpp Require Import base option list sets gmap strings numbers.
From S2P Require Import Prelude Locks Bio Log Blockdev Fs.

#[local] Open Scope string_scope.
#[local] Open Scope list_scope.
#[local] Open Scope Z_scope.

(** The fields of an inode fit the types of struct dinode. *)
Record dinode_ok (x : inode) : Prop := {
  do_type : - 2 ^ 15 ≤ i_type x < 2 ^ 15;
  do_major : - 2 ^ 15 ≤ i_major x < 2 ^ 15;
  do_minor : - 2 ^ 15 ≤ i_minor x < 2 ^ 15;
  do_nlink : - 2 ^ 15 ≤ i_nlink x < 2 ^ 15;
  do_size : 0 ≤ i_size x < 2 ^ 32;
  do_addrs : length (i_addrs x) = 13%nat ∧ Forall (λ a, 0 ≤ a < 2 ^ 32) (i_addrs x)
}.

(** ** Lengths *)

(** Arithmetic with the lengths of stored blocks. *)
#[local] Ltac len :=
  repeat first [rewrite length_put32; [|lia|len] | rewrite length_put16; [|lia|len]]; lia.

Lemma length_put_addrs l : ∀ d off, 0 ≤ off → off + 4 * Z.of_nat (length l) ≤ Z.of_nat (length d) →
  length (put_addrs d off l) = length d.
Proof.
  induction l as [|x l IH]; intros d off Ho Hl; simpl in *; [done|].
  rewrite IH; rewrite ?length_put32; lia.
Qed.

Lemma dinode_off_range n : 0 ≤ dinode_off n ≤ 448 ∧ dinode_off n mod 64 = 0.
Proof. unfold dinode_off, IPB. divmod_lia. Qed.

(** [d] with the four shorts and the size of the inode at [off] stored. *)
Definition put_fixed (d : block) (off : Z) (x : inode) : block :=
  put32 (put16 (put16 (put16 (put16 d off (i_type x)) (off + 2) (i_major x)) (off + 4) (i_minor x)) (off + 6) (i_nlink x))
    (off + 8) (i_size x).

Lemma length_put_fixed d off x : 0 ≤ off ≤ 448 → length d = 512%nat → length (put_fixed d off x) = 512%nat.
Proof. intros Ho Hd. unfold put_fixed. len. Qed.

Lemma length_put_dinode d off x : 0 ≤ off ≤ 448 → length d = 512%nat → length (i_addrs x) = 13%nat →
  length (put_dinode d off x) = 512%nat.
Proof.
  intros Ho Hd Ha. unfold put_dinode. fold (put_fixed d off x).
  rewrite length_put_addrs; rewrite ?length_put_fixed; rewrite ?Ha; try done; lia.
Qed.

(** ** Frames *)

Lemma bget0_put32_ne d off v i : 0 ≤ off → off + 4 ≤ Z.of_nat (length d) → 0 ≤ i → i < off ∨ off + 4 ≤ i →
  bget0 (put32 d off v) i = bget0 d i.
Proof. intros. unfold put32. rewrite bget0_splice by (simpl; lia). by rewrite decide_False by (simpl; lia). Qed.

Lemma bget0_put16_ne d off v i : 0 ≤ off → off + 2 ≤ Z.of_nat (length d) → 0 ≤ i → i < off ∨ off + 2 ≤ i →
  bget0 (put16 d off v) i = bget0 d i.
Proof. intros. unfold put16. rewrite bget0_splice by (simpl; lia). by rewrite decide_False by (simpl; lia). Qed.

Lemma get16_put16_ne d off off' v : 0 ≤ off → off + 2 ≤ Z.of_nat (length d) → 0 ≤ off' →
  off' + 2 ≤ off ∨ off + 2 ≤ off' → get16 (put16 d off v) off' = get16 d off'.
Proof. intros. unfold get16. by rewrite !bget0_put16_ne by lia. Qed.

Lemma bget0_put_addrs_ne l : ∀ d off i, 0 ≤ off → off + 4 * Z.of_nat (length l) ≤ Z.of_nat (length d) → 0 ≤ i →
  i < off ∨ off + 4 * Z.of_nat (length l) ≤ i → bget0 (put_addrs d off l) i = bget0 d i.
Proof.
  induction l as [|x l IH]; intros d off i Ho Hl Hi Hn; simpl in *; [done|].
  rewrite IH by (rewrite ?length_put32; lia). rewrite bget0_put32_ne by lia. done.
Qed.

Lemma bget0_put_dinode_ne d off x i : 0 ≤ off ≤ 448 → length d = 512%nat → length (i_addrs x) = 13%nat → 0 ≤ i →
  i < off ∨ off + 64 ≤ i → bget0 (put_dinode d off x) i = bget0 d i.
Proof.
  intros Ho Hd Ha Hi Hn. unfold put_dinode. fold (put_fixed d off x).
  rewrite bget0_put_addrs_ne by (rewrite ?length_put_fixed, ?Ha; lia). unfold put_fixed.
  rewrite bget0_put32_ne by len.
  rewrite !bget0_put16_ne by len. done.
Qed.

Lemma get_addrs_ext d d' n : ∀ off, (∀ i, off ≤ i < off + 4 * Z.of_nat n → bget0 d i = bget0 d' i) →
  get_addrs d off n = get_addrs d' off n.
Proof.
  induction n as [|n IH]; intros off He; [done|]. cbn [get_addrs]. f_equal.
  - unfold get32. by rewrite !He by lia.
  - apply IH. intros i Hi. apply He. lia.
Qed.

Lemma get_dinode_ext d d' off x : (∀ i, off ≤ i < off + 64 → bget0 d i = bget0 d' i) →
  get_dinode d off x = get_dinode d' off x.
Proof.
  intros He. unfold get_dinode, get16, get32.
  rewrite (get_addrs_ext d d' 13) by (intros i Hi; apply He; lia). by rewrite !He by lia.
Qed.

(** ** Loading what was stored *)

Lemma get_put_addrs l : ∀ d off, Forall (λ a, 0 ≤ a < 2 ^ 32) l → 0 ≤ off →
  off + 4 * Z.of_nat (length l) ≤ Z.of_nat (length d) → get_addrs (put_addrs d off l) off (length l) = l.
Proof.
  induction l as [|x l IH]; intros d off Hf Ho Hl; [done|]. apply list.Forall_cons in Hf as [Hx Hf].
  cbn [put_addrs length get_addrs]. simpl in Hl. f_equal.
  - transitivity (get32 (put32 d off x) off); [|rewrite get32_put32 by lia; by apply u32_id].
    unfold get32. rewrite !bget0_put_addrs_ne by (rewrite ?length_put32; lia). done.
  - apply IH; [done | lia | rewrite length_put32; lia].
Qed.

Lemma s16_u16 v : - 2 ^ 15 ≤ v < 2 ^ 15 → s16 (u16 v) = v.
Proof.
  unfold s16, u16. change (2 ^ 16) with 65536. change (2 ^ 15) with 32768. intros. divmod_lia.
Qed.

Lemma get16_put_fixed d off x o v : 0 ≤ off ≤ 448 → length d = 512%nat → length (i_addrs x) = 13%nat →
  (o, v) ∈ [(0, i_type x); (2, i_major x); (4, i_minor x); (6, i_nlink x)] →
  get16 (put_dinode d off x) (off + o) = u16 v.
Proof.
  intros Ho Hd Ha Hin. unfold put_dinode. fold (put_fixed d off x).
  assert (∀ i, off ≤ i < off + 8 → bget0 (put_addrs (put_fixed d off x) (off + 12) (i_addrs x)) i =
    bget0 (put16 (put16 (put16 (put16 d off (i_type x)) (off + 2) (i_major x)) (off + 4) (i_minor x)) (off + 6) (i_nlink x)) i) as E.
  { intros i Hi. rewrite bget0_put_addrs_ne by (rewrite ?length_put_fixed, ?Ha; lia). unfold put_fixed.
    rewrite bget0_put32_ne; [done | lia | | lia | lia]. len. }
  rewrite !elem_of_cons, elem_of_nil in Hin. assert (0 ≤ o ≤ 6) as Hor by (destruct Hin as [?|[?|[?|[?|[]]]]]; simplify_eq; lia).
  etrans; [unfold get16; rewrite !E by lia; reflexivity|]. clear E.
  match goal with |- bget0 ?d' ?i + _ = _ => change (get16 d' i = u16 v) end.
  destruct Hin as [Hin|[Hin|[Hin|[Hin|[]]]]]; injection Hin as -> ->.
  - rewrite Z.add_0_r, !get16_put16_ne by len. apply get16_put16; lia.
  - rewrite !get16_put16_ne by len. apply get16_put16; len.
  - rewrite !get16_put16_ne by len. apply get16_put16; len.
  - apply get16_put16; len.
Qed.

Lemma get32_put_size d off x : 0 ≤ off ≤ 448 → length d = 512%nat → length (i_addrs x) = 13%nat →
  get32 (put_dinode d off x) (off + 8) = u32 (i_size x).
Proof.
  intros Ho Hd Ha. unfold put_dinode. fold (put_fixed d off x).
  transitivity (get32 (put_fixed d off x) (off + 8)); [|apply get32_put32; len].
  unfold get32. rewrite !bget0_put_addrs_ne by (rewrite ?length_put_fixed, ?Ha; lia). done.
Qed.

(** The inode a process locks is the one another updated: storing an inode
    whose fields fit struct dinode and loading it back gives the same fields,
    with the identity (dev, inum, ref, lock, valid) of the inode loaded into;
    and every other inode of the block is as before. *)
Theorem dinode_roundtrip (d : block) (n : Z) (x y : inode) :
  length d = 512%nat → dinode_ok x →
  get_dinode (put_dinode d (dinode_off n) x) (dinode_off n) y =
    Inode (i_dev y) (i_inum y) (i_ref y) (i_lock y) (i_valid y)
      (i_type x) (i_major x) (i_minor x) (i_nlink x) (i_size x) (i_addrs x) ∧
  length (put_dinode d (dinode_off n) x) = 512%nat ∧
  ∀ m z, m mod IPB ≠ n mod IPB →
    get_dinode (put_dinode d (dinode_off n) x) (dinode_off m) z = get_dinode d (dinode_off m) z.
Proof.
  intros Hd [H1 H2 H3 H4 H5 [H6 H7]]. destruct (dinode_off_range n) as [Hn _]. split_and!.
  - unfold get_dinode. f_equal.
    + rewrite <- (Z.add_0_r (dinode_off n)) at 2.
      rewrite (get16_put_fixed _ _ _ 0 (i_type x)); [by apply s16_u16 | done.. | set_solver].
    + rewrite (get16_put_fixed _ _ _ 2 (i_major x)); [by apply s16_u16 | done.. | set_solver].
    + rewrite (get16_put_fixed _ _ _ 4 (i_minor x)); [by apply s16_u16 | done.. | set_solver].
    + rewrite (get16_put_fixed _ _ _ 6 (i_nlink x)); [by apply s16_u16 | done.. | set_solver].
    + rewrite get32_put_size by done. by apply u32_id.
    + unfold put_dinode. fold (put_fixed d (dinode_off n) x). rewrite <- H6.
      apply get_put_addrs; [done | lia |]. rewrite length_put_fixed by done. rewrite H6. lia.
  - by apply length_put_dinode.
  - intros m z Hm. apply get_dinode_ext. intros i Hi. destruct (dinode_off_range m) as [Hm' _].
    apply bget0_put_dinode_ne; try done; [lia|]. unfold dinode_off, IPB in *. lia.
Qed.

Lemma dinode_roundtrip_witness :
  get_dinode (put_dinode zero_block (dinode_off 9) (Inode 1 9 1 initsleeplock true 2 0 0 1 700 (60 :: 61 :: replicate 11 0)))
    (dinode_off 9) inode0 = Inode 0 0 0 initsleeplock false 2 0 0 1 700 (60 :: 61 :: replicate 11 0).
Proof.
  refine (proj1 (dinode_roundtrip zero_block 9 (Inode 1 9 1 initsleeplock true 2 0 0 1 700 (60 :: 61 :: replicate 11 0)) inode0 _ _)).
  - reflexivity.
  - split; simpl; try lia. split; [reflexivity|]. repeat constructor; lia.
Defined.
