(* ===== verification/FsBlock.v ===== *)
(** * FsBlock: the free map, balloc and bfree

    Proved against [BlockDevLaws].  [used sb V b] is the bit of block [b] in
    the free map that the contents [V] hold.  balloc returns a block that was
    free, marks it and only it as used, zeroes it, and changes nothing else; it
    panics only if there is no free block.  bfree undoes it. *)

From Stdlib Require Import ZArith Lia Bool.
From stdpp Require Import base option list sets gmap strings numbers.
From S2P Require Import Prelude Cstring Locks Bio BioSpec Log Blockdev Fs.

#[local] Open Scope string_scope.
#[local] Open Scope list_scope.
#[local] Open Scope Z_scope.

(** ** Bits *)

Lemma bit_set_testbit d bi : bit_set d bi = Z.testbit (bget0 d (bi / 8)) (bi mod 8).
Proof.
  unfold bit_set, bit_mask. rewrite Z.shiftl_1_l. rewrite land_bit by (apply Z.mod_pos_bound; lia).
  apply negb_involutive.
Qed.

Lemma testbit_u8 x k : 0 ≤ k < 8 → Z.testbit (u8 x) k = Z.testbit x k.
Proof. intros. unfold u8. by rewrite Z.mod_pow2_bits_low by lia. Qed.

Lemma bit_set_set d bi bj : length d = 512%nat → 0 ≤ bi < BPB → 0 ≤ bj →
  bit_set (set_bit d bi) bj = (bi =? bj) || bit_set d bj.
Proof.
  unfold BPB, BSIZE. intros Hd Hi Hj. rewrite !bit_set_testbit. unfold set_bit.
  rewrite bget0_insert by (divmod_lia || (split; [apply Z.div_pos; lia | apply Z.div_lt_upper_bound; lia])).
  pose proof (Z.mod_pos_bound bi 8 ltac:(lia)). pose proof (Z.mod_pos_bound bj 8 ltac:(lia)).
  case_decide as E.
  - rewrite testbit_u8, Z.lor_spec, E by lia. unfold bit_mask. rewrite Z.shiftl_1_l, Z.pow2_bits_eqb by lia.
    rewrite orb_comm. f_equal. apply eq_true_iff_eq. rewrite !Z.eqb_eq. divmod_lia.
  - replace (bi =? bj) with false; [done|]. symmetry. apply Z.eqb_neq. congruence.
Qed.

Lemma bit_set_clear d bi bj : length d = 512%nat → 0 ≤ bi < BPB → 0 ≤ bj →
  bit_set (clear_bit d bi) bj = negb (bi =? bj) && bit_set d bj.
Proof.
  unfold BPB, BSIZE. intros Hd Hi Hj. rewrite !bit_set_testbit. unfold clear_bit.
  rewrite bget0_insert by (divmod_lia || (split; [apply Z.div_pos; lia | apply Z.div_lt_upper_bound; lia])).
  pose proof (Z.mod_pos_bound bi 8 ltac:(lia)). pose proof (Z.mod_pos_bound bj 8 ltac:(lia)).
  case_decide as E.
  - rewrite testbit_u8, Z.land_spec, E, Z.lnot_spec by lia. unfold bit_mask.
    rewrite Z.shiftl_1_l, Z.pow2_bits_eqb by lia. rewrite andb_comm. f_equal. f_equal.
    apply eq_true_iff_eq. rewrite !Z.eqb_eq. divmod_lia.
  - replace (bi =? bj) with false; [done|]. symmetry. apply Z.eqb_neq. congruence.
Qed.

Lemma length_set_bit d bi : length (set_bit d bi) = length d.
Proof. apply length_insert. Qed.
Lemma length_clear_bit d bi : length (clear_bit d bi) = length d.
Proof. apply length_insert. Qed.

(** The inner loop of balloc finds the first clear bit. *)
Lemma first_clear_spec d bi n :
  match first_clear d bi n with
  | Some k => bi ≤ k < bi + Z.of_nat n ∧ bit_set d k = false ∧ ∀ j, bi ≤ j < k → bit_set d j = true
  | None => ∀ j, bi ≤ j < bi + Z.of_nat n → bit_set d j = true
  end.
Proof.
  revert bi. induction n as [|n IH]; intros bi; cbn [first_clear]; [lia|].
  destruct (bit_set d bi) eqn:E; [|split_and!; [lia|lia|done|lia]].
  specialize (IH (bi + 1)). destruct (first_clear d (bi + 1) n) as [k|].
  - destruct IH as (H1 & H2 & H3). split_and!; [lia|lia|done|]. intros j Hj.
    destruct (decide (j = bi)) as [->|]; [done|]. apply H3. lia.
  - intros j Hj. destruct (decide (j = bi)) as [->|]; [done|]. apply IH. lia.
Qed.

(** ** The free map *)

Definition used (sb : superblock) (V : Z → block) (b : Z) : bool :=
  bit_set (V (BBLOCK b sb)) (b mod BPB).

(** The disk is laid out as mkfs does it: the free map and block 0 are marked
    used, and what is free is outside the log. *)
Record layout (g : bdgeo) (sb : superblock) (V : Z → block) : Prop := {
  lo_size : 0 < sb_size sb ≤ g_size g;
  lo_max : g_size g ≤ 2 ^ 31;
  lo_map : ∀ b, 0 ≤ b < sb_size sb →
    home g (BBLOCK b sb) ∧ BBLOCK b sb < sb_size sb ∧ used sb V (BBLOCK b sb) = true;
  lo_zero : used sb V 0 = true;
  lo_free : ∀ b, 0 ≤ b < sb_size sb → used sb V b = false → home g b
}.

(** A block that is not of the free map. *)
Definition no_map (sb : superblock) (b : Z) : Prop :=
  ∀ c, 0 ≤ c < sb_size sb → BBLOCK c sb ≠ b.

(** Held blocks are marked used and are not of the free map. *)
Definition held_ok (sb : superblock) (V : Z → block) (H : held) : Prop :=
  ∀ i b m, H !! i = Some (b, m) → 0 ≤ b < sb_size sb ∧ used sb V b = true ∧ no_map sb b.

(** The contents after balloc has returned [b]. *)
Definition allocated (sb : superblock) (V : Z → block) (b c : Z) : block :=
  if decide (c = b) then zero_block
  else if decide (c = BBLOCK b sb) then set_bit (V c) (b mod BPB) else V c.

Lemma bblock_mod b c sb : 0 ≤ b → 0 ≤ c → BBLOCK b sb = BBLOCK c sb → b mod BPB = c mod BPB → b = c.
Proof. unfold BBLOCK, BPB, BSIZE. intros. divmod_lia. Qed.

Lemma bit_range b : 0 ≤ b mod BPB < BPB.
Proof. unfold BPB, BSIZE. apply Z.mod_pos_bound. lia. Qed.

Lemma used_ext sb V V' b : V' (BBLOCK b sb) = V (BBLOCK b sb) → used sb V' b = used sb V b.
Proof. unfold used. by intros ->. Qed.

Lemma free_no_map g sb V b : layout g sb V → 0 ≤ b < sb_size sb → used sb V b = false → no_map sb b.
Proof.
  intros Lo Hb Hu c Hc <-. destruct (lo_map _ _ _ Lo c Hc) as (_ & _ & Hu'). congruence.
Qed.

Lemma used_allocated sb V b c : (∀ x, length (V x) = 512%nat) → 0 ≤ b → 0 ≤ c < sb_size sb → no_map sb b →
  used sb (allocated sb V b) c = (b =? c) || used sb V c.
Proof.
  intros Hlen Hb Hc Hno. unfold used, allocated. rewrite decide_False by by apply Hno.
  case_decide as E.
  - rewrite bit_set_set by (apply Hlen || apply bit_range). f_equal. apply eq_true_iff_eq.
    rewrite !Z.eqb_eq. split; [|by intros ->]. intros Hm. eapply (bblock_mod b c sb); [lia | lia | by symmetry | done].
  - replace (b =? c) with false; [done|]. symmetry. apply Z.eqb_neq. intros ->. done.
Qed.

Lemma layout_allocated g sb V b : (∀ x, length (V x) = 512%nat) → layout g sb V → 0 ≤ b < sb_size sb →
  used sb V b = false → layout g sb (allocated sb V b).
Proof.
  intros Hlen Lo Hb Hu. pose proof (free_no_map _ _ _ _ Lo Hb Hu) as Hno.
  assert (∀ c, 0 ≤ c < sb_size sb → used sb V c = true → used sb (allocated sb V b) c = true) as Hmono.
  { intros c Hc Hcu. rewrite used_allocated by (assumption || lia). by rewrite Hcu, orb_true_r. }
  pose proof (lo_size _ _ _ Lo) as Hsz. split.
  - exact Hsz.
  - apply (lo_max _ _ _ Lo).
  - intros c Hc. destruct (lo_map _ _ _ Lo c Hc) as (H1 & H2 & H3). split_and!; try assumption.
    apply Hmono; [destruct H1; lia | assumption].
  - apply Hmono; [lia | apply (lo_zero _ _ _ Lo)].
  - intros c Hc. rewrite used_allocated by (assumption || lia). intros [_ Hc']%orb_false_iff.
    by apply (lo_free _ _ _ Lo).
Qed.

Lemma layout_ext g sb V V' : (∀ c, 0 ≤ c < sb_size sb → V' (BBLOCK c sb) = V (BBLOCK c sb)) →
  layout g sb V → layout g sb V'.
Proof.
  intros He Lo. pose proof (lo_size _ _ _ Lo) as Hsz.
  assert (∀ c, 0 ≤ c < sb_size sb → used sb V' c = used sb V c) as Hu by (intros; apply used_ext; auto).
  split.
  - exact Hsz.
  - apply (lo_max _ _ _ Lo).
  - intros c Hc. destruct (lo_map _ _ _ Lo c Hc) as ([? ?] & H2 & H3). split_and!; [split; done|done|].
    rewrite Hu; [done | split; lia].
  - rewrite Hu by lia. apply (lo_zero _ _ _ Lo).
  - intros c Hc. rewrite Hu by done. by apply (lo_free _ _ _ Lo).
Qed.

Lemma length_allocated sb V b c : (∀ x, length (V x) = 512%nat) → length (allocated sb V b c) = 512%nat.
Proof. intros Hl. unfold allocated. repeat case_decide; [reflexivity | by rewrite length_set_bit | apply Hl]. Qed.

(** ** Calls of the block device from the file system *)

Section rules.
Context {S : Type} {BD : BlockDev S} {BL : BlockDevLaws S}.
#[local] Notation fs := (fsst S).
#[local] Notation V s := (bd_view (bd s)).

Lemma wp_blk {A} (m : M S A) (Q : A → fs → Prop) s :
  wp m (λ a t, Q a (set_bd t s)) (bd s) → wp (blk m) Q s.
Proof. apply zoom_wp. Qed.

Lemma f_bread g H L b (Q : nat → fs → Prop) s :
  bd_inv g H L (bd s) → not_held H b → home g b → (size H + length L < NBUF)%nat ∨ b ∈ L →
  (∀ i t, bd_inv g (<[i := (b, false)]> H) L t → H !! i = None → (∀ c, bd_view t c = V s c) →
     Q i (set_bd t s)) →
  wp (blk (bd_bread ROOTDEV b)) Q s.
Proof.
  intros I Hn Hb Hr HQ. apply wp_blk. eapply wp_mono; [by eapply law_bread|].
  intros i t (? & ? & ?). by apply HQ.
Qed.

Lemma f_bdata g H L i b m (Q : block → fs → Prop) s :
  bd_inv g H L (bd s) → H !! i = Some (b, m) → Q (V s b) s → wp (bdata i) Q s.
Proof. intros I Hi HQ. unfold bdata. wp_steps. by rewrite (law_data _ _ _ _ _ _ _ I Hi). Qed.

Lemma f_brelse g H L i b (Q : unit → fs → Prop) s :
  bd_inv g (<[i := (b, false)]> H) L (bd s) → H !! i = None →
  (∀ t, bd_inv g H L t → (∀ c, bd_view t c = V s c) → Q tt (set_bd t s)) →
  wp (blk (bd_brelse i)) Q s.
Proof.
  intros I Hi HQ. apply wp_blk. eapply wp_mono; [eapply law_brelse; [exact I | apply lookup_insert_eq]|].
  intros [] t (It & Vt). rewrite delete_insert_id in It by done. by apply HQ.
Qed.

(** bp->data = d; log_write(bp); brelse(bp); k *)
Lemma f_update {A} g H L i b d (k : M fs A) Q s :
  bd_inv g (<[i := (b, false)]> H) L (bd s) → H !! i = None → home g b → g_tx g = true →
  log_room g L → length d = 512%nat →
  (∀ t, bd_inv g H (pinned b L) t → (∀ c, bd_view t c = if decide (c = b) then d else V s c) →
     wp k Q (set_bd t s)) →
  wp (blk (bd_set i d);; blk (bd_log_write i);; blk (bd_brelse i);; k) Q s.
Proof.
  intros I Hi Hb Htx Hr Hd HQ. apply wp_bind, wp_blk.
  eapply wp_mono; [eapply law_set; [exact I | apply lookup_insert_eq | exact Hd]|].
  intros [] t1 (I1 & V1). rewrite insert_insert_eq in I1. apply wp_bind, wp_blk.
  eapply wp_mono; [eapply law_log_write; [exact I1 | apply lookup_insert_eq | exact Hb | exact Htx | exact Hr]|].
  intros [] t2 (I2 & V2). rewrite insert_insert_eq in I2. apply wp_bind.
  eapply f_brelse; [exact I2 | exact Hi |]. intros t3 I3 V3. apply HQ; [exact I3|].
  intros c. rewrite V3. simpl. rewrite V2. apply V1.
Qed.

Lemma f_update_end g H L i b d (Q : unit → fs → Prop) s :
  bd_inv g (<[i := (b, false)]> H) L (bd s) → H !! i = None → home g b → g_tx g = true →
  log_room g L → length d = 512%nat →
  (∀ t, bd_inv g H (pinned b L) t → (∀ c, bd_view t c = if decide (c = b) then d else V s c) →
     Q tt (set_bd t s)) →
  wp (blk (bd_set i d);; blk (bd_log_write i);; blk (bd_brelse i)) Q s.
Proof.
  intros I Hi Hb Htx Hr Hd HQ.
  assert (wp (blk (bd_set i d);; blk (bd_log_write i);; blk (bd_brelse i);; mret tt) Q s) as Hw.
  { eapply f_update; eauto. }
  unfold wp, mbind, M_bind, mret, M_ret in *.
  destruct (blk (bd_set i d) s) as [? s1| | |]; [|done..].
  destruct (blk (bd_log_write i) s1) as [? s2| | |]; [|done..].
  by destruct (blk (bd_brelse i) s2) as [[] s3| | |].
Qed.

(** Room for [k] more blocks, held or logged. *)
Definition budget (g : bdgeo) (H : held) (L : list Z) (k : nat) : Prop :=
  (size H + length L + k < 30)%nat ∧ Z.of_nat (length L + k) < g_lsize g.

Lemma budget_bread g H L k : budget g H L k → (size H + length L < NBUF)%nat.
Proof. unfold budget, NBUF. lia. Qed.

Lemma budget_log g H L k : budget g H L (Datatypes.S k) → log_room g L.
Proof. unfold budget, log_room. lia. Qed.

Lemma budget_mono g H L k k' : budget g H L k → (k' ≤ k)%nat → budget g H L k'.
Proof. unfold budget. lia. Qed.

Lemma budget_grow g H L L' k j : budget g H L (j + k) → (length L' ≤ length L + j)%nat → budget g H L' k.
Proof. unfold budget. lia. Qed.

Lemma budget_pinned g H L b k : budget g H L (Datatypes.S k) → budget g H (pinned b L) k.
Proof. intros Hb. eapply (budget_grow _ _ _ _ _ 1); [exact Hb|]. pose proof (pinned_length b L). lia. Qed.

Lemma budget_hold g H L i x k : budget g H L (Datatypes.S k) → H !! i = None → budget g (<[i := x]> H) L k.
Proof. unfold budget. intros Hb Hi. rewrite map_size_insert_None by done. lia. Qed.

Lemma f_bzero g H L b (Q : unit → fs → Prop) s :
  bd_inv g H L (bd s) → not_held H b → home g b → g_tx g = true → budget g H L 1 →
  (∀ t, bd_inv g H (pinned b L) t → (∀ c, bd_view t c = if decide (c = b) then zero_block else V s c) →
     Q tt (set_bd t s)) →
  wp (bzero ROOTDEV b) Q s.
Proof.
  intros I Hn Hb Htx Hbud HQ. unfold bzero. apply wp_bind.
  eapply f_bread; [exact I | exact Hn | exact Hb | left; by eapply budget_bread |].
  intros i t1 I1 Hi V1. eapply f_update_end; [exact I1 | exact Hi | exact Hb | exact Htx | by eapply budget_log | done |].
  intros t2 I2 V2. apply HQ; [exact I2|]. intros c. rewrite V2. simpl. by rewrite V1.
Qed.

Lemma held_free g sb V0 H b : layout g sb V0 → held_ok sb V0 H → used sb V0 b = false → not_held H b.
Proof. intros Lo Ho Hu i m Hi. destruct (Ho _ _ _ Hi) as (_ & ? & _). congruence. Qed.

Lemma held_map g sb V0 H c : layout g sb V0 → held_ok sb V0 H → 0 ≤ c < sb_size sb → not_held H (BBLOCK c sb).
Proof. intros Lo Ho Hc i m Hi. destruct (Ho _ _ _ Hi) as (_ & _ & Hno). by apply (Hno c). Qed.

Lemma aligned_bit b j sb : b mod BPB = 0 → 0 ≤ j < BPB →
  BBLOCK (b + j) sb = BBLOCK b sb ∧ (b + j) mod BPB = j.
Proof.
  unfold BBLOCK. change BPB with 4096. intros Hb Hj. split; [f_equal|]; divmod_lia.
Qed.

Lemma f_balloc_loop g H L (Q : Z → fs → Prop) s b n :
  bd_inv g H L (bd s) → layout g (sb s) (V s) → held_ok (sb s) (V s) H → g_tx g = true →
  budget g H L 2 → 0 ≤ b → b mod BPB = 0 → sb_size (sb s) ≤ b + BPB * Z.of_nat n →
  (∀ c, 0 ≤ c < b → used (sb s) (V s) c = true) →
  (∃ c, 0 ≤ c < sb_size (sb s) ∧ used (sb s) (V s) c = false) →
  (∀ r t L', bd_inv g H L' t → (length L' ≤ length L + 2)%nat →
     (∀ c, bd_view t c = allocated (sb s) (V s) r c) → 0 ≤ r < sb_size (sb s) →
     used (sb s) (V s) r = false → (∀ c, 0 ≤ c < r → used (sb s) (V s) c = true) →
     Q r (set_bd t s)) →
  wp (balloc_loop ROOTDEV b n) Q s.
Proof.
  revert s b. induction n as [|n IH]; intros s b I Lo Ho Htx Hbud Hb Hmod Hn Hlow (x & Hx & Hxu) HQ.
  { exfalso. rewrite Hlow in Hxu; [done|]. simpl in Hn. lia. }
  cbn [balloc_loop]. wp_step. wp_step.
  assert (b ≤ x) as Hbx. { destruct (decide (b ≤ x)); [done|]. rewrite Hlow in Hxu; [done|lia]. }
  destruct (lo_map _ _ _ Lo b ltac:(lia)) as (Hmh & _ & _).
  apply wp_bind. eapply f_bread; [exact I | eapply held_map; eauto; lia | exact Hmh | left; by eapply budget_bread |].
  intros i t1 I1 Hi V1. apply wp_bind. eapply f_bdata; [exact I1 | apply lookup_insert_eq|]. simpl. rewrite V1.
  set (k := Z.to_nat (Z.min BPB (sb_size (sb s) - b))).
  assert (∀ j, 0 ≤ j < Z.of_nat k → bit_set (V s (BBLOCK b (sb s))) j = used (sb s) (V s) (b + j)) as Hbit.
  { intros j Hj. destruct (aligned_bit b j (sb s)) as [E1 E2]; [done | unfold k in Hj; lia|].
    unfold used. by rewrite E1, E2. }
  pose proof (first_clear_spec (V s (BBLOCK b (sb s))) 0 k) as Hfc.
  destruct (first_clear (V s (BBLOCK b (sb s))) 0 k) as [bi|].
  - destruct Hfc as (Hbi & Hclr & Hfirst).
    assert (0 ≤ b + bi < sb_size (sb s)) as Hr by (unfold k in Hbi; lia).
    assert (used (sb s) (V s) (b + bi) = false) as Hru by (rewrite <- Hbit by lia; done).
    pose proof (free_no_map _ _ _ _ Lo Hr Hru) as Hno.
    destruct (aligned_bit b bi (sb s)) as [Emap Ebi]; [done | unfold k in Hbi; lia|].
    eapply f_update; [exact I1 | exact Hi | exact Hmh | exact Htx | eapply budget_log; exact Hbud | |].
    { rewrite length_set_bit. by eapply law_len. }
    intros t2 I2 V2. wp_step. eapply (f_bzero _ _ _ _ _ (set_bd t2 s)).
    { exact I2. } { eapply held_free; eauto. } { by apply (lo_free _ _ _ Lo). } { exact Htx. }
    { by apply budget_pinned. }
    intros t3 I3 V3. wp_step. apply (HQ (b + bi) t3 _ I3).
    + pose proof (pinned_length (b + bi) (pinned (BBLOCK b (sb s)) L)).
      pose proof (pinned_length (BBLOCK b (sb s)) L). lia.
    + intros c. rewrite V3. unfold allocated. simpl. case_decide; [done|]. rewrite V2, Emap, Ebi. simpl.
      case_decide; [by subst | apply V1].
    + exact Hr.
    + exact Hru.
    + intros c Hc. destruct (decide (c < b)); [apply Hlow; lia|].
      replace c with (b + (c - b)) by lia. rewrite <- Hbit by lia. apply Hfirst. lia.
  - apply wp_bind. eapply (f_brelse _ _ _ _ _ _ (set_bd t1 s)); [exact I1 | exact Hi |].
    intros t2 I2 V2. simpl in V2.
    assert (∀ c, bd_view t2 c = V s c) as V2' by (intros c; by rewrite V2, V1).
    assert (∀ c, used (sb s) (bd_view t2) c = used (sb s) (V s) c) as Hu2 by (intros; by apply used_ext).
    apply (IH (set_bd t2 (set_bd t1 s))); simpl; try assumption.
    + eapply layout_ext; [|exact Lo]. auto.
    + intros j c m Hj. destruct (Ho _ _ _ Hj) as (? & ? & ?). by rewrite Hu2.
    + unfold BPB, BSIZE. lia.
    + change BPB with 4096 in *. divmod_lia.
    + lia.
    + intros c Hc. rewrite Hu2. destruct (decide (c < b)); [apply Hlow; lia|].
      replace c with (b + (c - b)) by lia.
      destruct (decide (c < sb_size (sb s))) as [Hcs|Hcs].
      * rewrite <- Hbit by (unfold k; lia). apply Hfc. unfold k. lia.
      * exfalso. assert (k = Z.to_nat (sb_size (sb s) - b)) by (unfold k; lia).
        rewrite <- Hxu in *. clear -Hcs Hbx Hx Hc Hxu Hbit Hfc H0.
        assert (bit_set (V s (BBLOCK b (sb s))) (x - b) = true) as E by (apply Hfc; lia).
        rewrite Hbit in E by lia. replace (b + (x - b)) with x in E by lia. congruence.
    + exists x. rewrite Hu2. done.
    + intros r t L' I' Hl' V' Hr Hru Hlow'. rewrite Hu2 in Hru. apply (HQ r t L'); try assumption.
      * intros c. rewrite V'. unfold allocated. by rewrite !V2'.
      * intros c Hc. rewrite <- Hu2. by apply Hlow'.
Qed.

Lemma f_balloc g H L (Q : Z → fs → Prop) s :
  bd_inv g H L (bd s) → layout g (sb s) (V s) → held_ok (sb s) (V s) H → g_tx g = true →
  budget g H L 2 → (∃ c, 0 ≤ c < sb_size (sb s) ∧ used (sb s) (V s) c = false) →
  (∀ r t L', bd_inv g H L' t → (length L' ≤ length L + 2)%nat →
     (∀ c, bd_view t c = allocated (sb s) (V s) r c) → 0 ≤ r < sb_size (sb s) →
     used (sb s) (V s) r = false → (∀ c, 0 ≤ c < r → used (sb s) (V s) c = true) →
     Q r (set_bd t s)) →
  wp (balloc ROOTDEV) Q s.
Proof.
  intros I Lo Ho Htx Hbud Hex HQ. unfold balloc. wp_steps.
  eapply f_balloc_loop; eauto; try lia.
  pose proof (lo_size _ _ _ Lo). change BPB with 4096. divmod_lia.
Qed.

(** The contents after bfree. *)
Definition freed (sb : superblock) (V0 : Z → block) (b c : Z) : block :=
  if decide (c = BBLOCK b sb) then clear_bit (V0 c) (b mod BPB) else V0 c.

Lemma used_freed sb V0 b c : (∀ x, length (V0 x) = 512%nat) → 0 ≤ b → 0 ≤ c →
  used sb (freed sb V0 b) c = negb (b =? c) && used sb V0 c.
Proof.
  intros Hlen Hb Hc. unfold used, freed. case_decide as E.
  - rewrite bit_set_clear by (apply Hlen || apply bit_range). f_equal. f_equal. apply eq_true_iff_eq.
    rewrite !Z.eqb_eq. split; [|by intros ->]. intros Hm. eapply (bblock_mod b c sb); [lia | lia | by symmetry | done].
  - replace (b =? c) with false; [done|]. symmetry. apply Z.eqb_neq. intros ->. done.
Qed.

Lemma f_bfree g H L b (Q : unit → fs → Prop) s :
  bd_inv g H L (bd s) → layout g (sb s) (V s) → held_ok (sb s) (V s) H → g_tx g = true →
  budget g H L 1 → 0 ≤ b < sb_size (sb s) → used (sb s) (V s) b = true →
  (∀ t, bd_inv g H (pinned (BBLOCK b (sb s)) L) t → (∀ c, bd_view t c = freed (sb s) (V s) b c) →
     Q tt (set_bd t s)) →
  wp (bfree ROOTDEV b) Q s.
Proof.
  intros I Lo Ho Htx Hbud Hb Hu HQ. unfold bfree. wp_step. wp_step.
  destruct (lo_map _ _ _ Lo b Hb) as (Hmh & _ & _).
  apply wp_bind. eapply f_bread; [exact I | eapply held_map; eauto | exact Hmh | left; by eapply budget_bread |].
  intros i t1 I1 Hi V1. apply wp_bind. eapply f_bdata; [exact I1 | apply lookup_insert_eq|]. simpl. rewrite V1.
  fold (used (sb s) (V s) b). rewrite Hu. cbn [negb].
  eapply f_update_end; [exact I1 | exact Hi | exact Hmh | exact Htx | eapply budget_log; exact Hbud | |].
  { rewrite length_clear_bit. by eapply law_len. }
  intros t2 I2 V2. apply HQ; [exact I2|]. intros c. rewrite V2. unfold freed. simpl.
  case_decide; [by subst | apply V1].
Qed.

(** balloc returns the lowest free block of the disk.  The block was
    marked free and is marked used afterwards, no other mark changes, the
    block is zeroed, and no other block changes but the one of the free map. *)
Theorem balloc_fresh g H L s :
  bd_inv g H L (bd s) → layout g (sb s) (V s) → held_ok (sb s) (V s) H → g_tx g = true →
  budget g H L 2 → (∃ c, 0 ≤ c < sb_size (sb s) ∧ used (sb s) (V s) c = false) →
  ∃ b s' L', balloc ROOTDEV s = Ok b s' ∧ bd_inv g H L' (bd s') ∧ layout g (sb s) (V s') ∧
    0 < b < sb_size (sb s) ∧ used (sb s) (V s) b = false ∧
    (∀ c, 0 ≤ c < b → used (sb s) (V s) c = true) ∧
    (∀ c, 0 ≤ c < sb_size (sb s) → used (sb s) (V s') c = (b =? c) || used (sb s) (V s) c) ∧
    V s' b = zero_block ∧ (∀ c, c ≠ b → c ≠ BBLOCK b (sb s) → V s' c = V s c).
Proof.
  intros I Lo Ho Htx Hbud Hex.
  assert (∀ x, length (V s x) = 512%nat) as Hlen by (intros x; by eapply law_len).
  assert (wp (balloc ROOTDEV) (λ b s', ∃ t L', s' = set_bd t s ∧ bd_inv g H L' t ∧
    (∀ c, bd_view t c = allocated (sb s) (V s) b c) ∧ 0 ≤ b < sb_size (sb s) ∧
    used (sb s) (V s) b = false ∧ (∀ c, 0 ≤ c < b → used (sb s) (V s) c = true)) s) as Hw.
  { eapply f_balloc; eauto. intros r t L' ? ? ? ? ? ?. exists t, L'. split_and!; assumption || lia || reflexivity. }
  apply wp_elim in Hw as (b & s' & E & t & L' & -> & I' & V' & Hb & Hu & Hlow).
  pose proof (free_no_map _ _ _ _ Lo Hb Hu) as Hno.
  assert (∀ c, used (sb s) (bd_view t) c = used (sb s) (allocated (sb s) (V s) b) c) as Hext
    by (intros c; by apply used_ext).
  exists b, (set_bd t s), L'. simpl. split_and!; try assumption.
  - eapply layout_ext; [intros c Hc; apply V' | by apply layout_allocated].
  - destruct (decide (b = 0)) as [->|]; [|lia]. pose proof (lo_zero _ _ _ Lo). congruence.
  - lia.
  - intros c Hc. rewrite Hext. apply used_allocated; assumption || lia.
  - rewrite V'. unfold allocated. by rewrite decide_True.
  - intros c Hc Hm. rewrite V'. unfold allocated. by rewrite !decide_False.
Qed.

(** bfree marks the block free and changes nothing else; freeing a block
    that is already free panics. *)
Theorem bfree_spec g H L s b :
  bd_inv g H L (bd s) → layout g (sb s) (V s) → held_ok (sb s) (V s) H → g_tx g = true →
  budget g H L 1 → 0 ≤ b < sb_size (sb s) →
  if used (sb s) (V s) b then
    ∃ s', bfree ROOTDEV b s = Ok tt s' ∧
      (∀ c, 0 ≤ c → used (sb s) (V s') c = negb (b =? c) && used (sb s) (V s) c) ∧
      (∀ c, c ≠ BBLOCK b (sb s) → V s' c = V s c)
  else bfree ROOTDEV b s = Panic "freeing free block".
Proof.
  intros I Lo Ho Htx Hbud Hb. destruct (used (sb s) (V s) b) eqn:Hu.
  - assert (∀ x, length (V s x) = 512%nat) as Hlen by (intros x; by eapply law_len).
    assert (wp (bfree ROOTDEV b) (λ _ s', ∀ c, V s' c = freed (sb s) (V s) b c) s) as Hw
      by (eapply f_bfree; eauto).
    apply wp_elim in Hw as ([] & s' & E & V'). exists s'. split; [exact E|]. split.
    + intros c Hc. rewrite <- used_freed by (assumption || lia). by apply used_ext.
    + intros c Hc. rewrite V'. unfold freed. by rewrite decide_False.
  - destruct (lo_map _ _ _ Lo b Hb) as (Hmh & _ & _).
    assert (wp (blk (bd_bread ROOTDEV (BBLOCK b (sb s)))) (λ i s1,
      bd_data i (bd s1) = V s (BBLOCK b (sb s))) s) as Hw.
    { eapply f_bread; [exact I | eapply held_map; eauto | exact Hmh | left; by eapply budget_bread |].
      intros i t1 I1 Hi V1. simpl. rewrite (law_data _ _ _ _ _ _ _ I1 (lookup_insert_eq _ _ _)). apply V1. }
    apply wp_elim in Hw as (i & s1 & E & Ed).
    unfold bfree, gets, mbind, M_bind. rewrite E. unfold bdata, gets. rewrite Ed.
    fold (used (sb s) (V s) b). by rewrite Hu.
Qed.

End rules.
