(* ===== verification/FsMap.v ===== *)
(** * FsMap: bmap as a lookup in a tree of blocks

    An inode's addresses are the roots of trees of depth 0 (the direct blocks),
    1, 2 and 3.  A node is a root index and a path of slots; [node_addr] is the
    block number found there, 0 if there is none.  [file_ok] says that all the
    blocks of an inode are distinct, marked used and outside the log and the
    free map.  bmap on a block number below [MAPPED] returns the block of the
    leaf [leaf bn], allocating what is missing; every other node keeps its
    block, so blocks never move and two offsets never share a block, and the
    contents of the file do not change.

    From [MAPPED] on (the second 2 MB-block of the triple indirect range) the
    code reads a[bn/NINDIRECT] outside the indirect block. *)

From Stdlib Require Import ZArith Lia Bool.
From stdpp Require Import base option list sets gmap strings numbers.
From S2P Require Import Prelude Cstring Locks Bio BioSpec Log Blockdev Fs FsBlock.

#[local] Open Scope string_scope.
#[local] Open Scope list_scope.
#[local] Open Scope Z_scope.

Definition node : Type := Z * list Z.

Definition lvl_get (V : Z → block) (addr j : Z) : Z := if addr =? 0 then 0 else get32 (V addr) (4 * j).

Fixpoint walk_addr (V : Z → block) (addr : Z) (js : list Z) : Z :=
  match js with [] => addr | j :: js => walk_addr V (lvl_get V addr j) js end.

Definition node_addr (V : Z → block) (a : list Z) (p : node) : Z := walk_addr V (bget0 a p.1) p.2.

Definition depth (k : Z) : nat :=
  if k <? NDIRECT then 0 else if k =? NDIRECT then 1 else if k =? NDIRECT + 1 then 2 else 3.

Definition valid_node (p : node) : Prop :=
  0 ≤ p.1 < 13 ∧ (length p.2 ≤ depth p.1)%nat ∧ Forall (λ j, 0 ≤ j < NINDIRECT) p.2.

Definition child (p : node) (j : Z) : node := (p.1, p.2 ++ [j]).

(** The number of blocks bmap can map. *)
Definition MAPPED : Z := NDIRECT + NINDIRECT + NDBLINDIRECT + NDBLINDIRECT.

Definition leaf (bn : Z) : node :=
  if bn <? NDIRECT then (bn, []) else
  let b1 := bn - NDIRECT in
  if b1 <? NINDIRECT then (NDIRECT, [b1]) else
  let b2 := b1 - NINDIRECT in
  if b2 <? NDBLINDIRECT then (NDIRECT + 1, [b2 / NINDIRECT; b2 mod NINDIRECT]) else
  let b3 := b2 - NDBLINDIRECT in
  (NDIRECT + 2, [b3 / NDBLINDIRECT; b3 / NINDIRECT; b3 mod NINDIRECT]).

(** The contents of block [bn] of a file; a hole reads as zeroes. *)
Definition content (V : Z → block) (a : list Z) (bn : Z) : block :=
  let b := node_addr V a (leaf bn) in if b =? 0 then zero_block else V b.

(** A block that a file may own. *)
Definition data_ok (g : bdgeo) (sb : superblock) (V : Z → block) (b : Z) : Prop :=
  0 ≤ b < sb_size sb ∧ home g b ∧ used sb V b = true ∧ no_map sb b.

Record file_ok (g : bdgeo) (sb : superblock) (V : Z → block) (a : list Z) : Prop := {
  fo_len : length a = 13%nat;
  fo_ok : ∀ p, valid_node p → node_addr V a p ≠ 0 → data_ok g sb V (node_addr V a p);
  fo_inj : ∀ p q, valid_node p → valid_node q → node_addr V a p ≠ 0 →
    node_addr V a p = node_addr V a q → p = q
}.

(** No block of the file is held. *)
Definition file_free (V : Z → block) (a : list Z) (H : held) : Prop :=
  ∀ p, valid_node p → node_addr V a p ≠ 0 → not_held H (node_addr V a p).

(** [k] free blocks at least. *)
Definition nfree (sb : superblock) (V : Z → block) (k : nat) : Prop :=
  ∃ l, NoDup l ∧ length l = k ∧ ∀ b, b ∈ l → 0 ≤ b < sb_size sb ∧ used sb V b = false.

(** ** Nodes *)

Lemma walk_app V addr js j : walk_addr V addr (js ++ [j]) = lvl_get V (walk_addr V addr js) j.
Proof. revert addr. induction js as [|i js IH]; intros addr; [done|]. simpl. apply IH. Qed.

Lemma node_child V a p j : node_addr V a (child p j) = lvl_get V (node_addr V a p) j.
Proof. unfold node_addr, child. simpl. apply walk_app. Qed.

Lemma child_inj p q i j : child p i = child q j → p = q ∧ i = j.
Proof.
  unfold child. destruct p as [k js], q as [k' js']. simpl. intros [= -> E].
  apply app_inj_tail in E as [-> ->]. done.
Qed.

Lemma valid_parent p j : valid_node (child p j) → valid_node p ∧ 0 ≤ j < NINDIRECT.
Proof.
  unfold valid_node, child. simpl. intros (H1 & H2 & H3). rewrite length_app in H2. simpl in H2.
  apply Forall_app in H3 as [H3 H4]. rewrite Forall_singleton in H4. split; [|exact H4].
  split; [done|]. split; [lia|done].
Qed.

Lemma node_cases (p : node) : (∃ k, p = (k, [])) ∨ ∃ q j, p = child q j.
Proof.
  destruct p as [k js]. destruct js as [|j js] using rev_ind; [left; eauto|].
  right. exists (k, js), j. done.
Qed.

(** Induction from the roots. *)
Lemma node_ind' (P : node → Prop) :
  (∀ k, P (k, [])) → (∀ q j, P q → P (child q j)) → ∀ p, P p.
Proof.
  intros H1 H2 [k js]. induction js as [|j js IH] using rev_ind; [apply H1 | by apply (H2 (k, js))].
Qed.

Lemma node_ext V V' a :
  (∀ p j, valid_node (child p j) → node_addr V a p ≠ 0 → V' (node_addr V a p) = V (node_addr V a p)) →
  ∀ p, valid_node p → node_addr V' a p = node_addr V a p.
Proof.
  intros He. apply (node_ind' (λ p, valid_node p → _)); [done|].
  intros q j IH Hv. destruct (valid_parent _ _ Hv) as [Hq Hj]. rewrite !node_child, IH by done.
  unfold lvl_get. destruct (Z.eqb_spec (node_addr V a q) 0); [done|]. by rewrite (He q j).
Qed.

Lemma walk_zero V js : walk_addr V 0 js = 0.
Proof. induction js as [|j js IH]; [done | exact IH]. Qed.

Lemma get32_zero off : 0 ≤ off → get32 zero_block off = 0.
Proof.
  intros Ho. unfold get32, bget0.
  assert (∀ i, default 0 (zero_block !! i) = 0) as Hz.
  { intros i. destruct (zero_block !! i) as [x|] eqn:E; [|done].
    apply lookup_replicate in E as [-> _]. done. }
  rewrite !Hz. done.
Qed.

(** A new block [b] at node [p]: everything else stays where it was. *)
Lemma grow_nodes V a V' a' p b :
  (∀ q1 q2, valid_node q1 → valid_node q2 → node_addr V a q1 ≠ 0 →
     node_addr V a q1 = node_addr V a q2 → q1 = q2) →
  valid_node p → node_addr V a p = 0 → b ≠ 0 → V' b = zero_block →
  (∀ q j, p = child q j → node_addr V a q ≠ 0) →
  (∀ k, 0 ≤ k < 13 → bget0 a' k = if decide ((k, []) = p) then b else bget0 a k) →
  (∀ q j, valid_node (child q j) → node_addr V a q ≠ 0 →
     get32 (V' (node_addr V a q)) (4 * j) =
     if decide (child q j = p) then b else get32 (V (node_addr V a q)) (4 * j)) →
  ∀ q, valid_node q → node_addr V' a' q = if decide (q = p) then b else node_addr V a q.
Proof.
  intros Hinj Hp Hp0 Hb Hz Hpar Hroot Hslot.
  apply (node_ind' (λ q, valid_node q → _)).
  - intros k (Hk & _). unfold node_addr. simpl. rewrite Hroot by done. by repeat case_decide.
  - intros q j IH Hv. destruct (valid_parent _ _ Hv) as [Hq Hj]. rewrite !node_child, IH by done.
    unfold lvl_get. destruct (decide (q = p)) as [->|Hqp].
    + rewrite Hp0. rewrite (proj2 (Z.eqb_neq _ _)) by done. rewrite Hz, get32_zero by lia.
      rewrite decide_False; [done|]. intros E. apply (f_equal (λ x, length (snd x))) in E.
      unfold child in E. simpl in E. rewrite length_app in E. simpl in E. lia.
    + destruct (Z.eqb_spec (node_addr V a q) 0) as [E0|E0].
      * rewrite decide_False; [done|]. intros E. by apply (Hpar q j).
      * by apply Hslot.
Qed.

(** ** Growing a file *)

(** From contents [V] and addresses [a] to [V'] and [a']: blocks were added to
    the file, and nothing else changed. *)
Record grown (g : bdgeo) (sb : superblock) (V : Z → block) (a : list Z) (V' : Z → block) (a' : list Z) : Prop := {
  gr_file : file_ok g sb V' a';
  gr_layout : layout g sb V';
  gr_content : ∀ bn, 0 ≤ bn < MAPPED → content V' a' bn = content V a bn;
  gr_keep : ∀ q, valid_node q → node_addr V a q ≠ 0 → node_addr V' a' q = node_addr V a q;
  gr_new : ∀ q, valid_node q → node_addr V' a' q ≠ 0 →
    node_addr V' a' q = node_addr V a q ∨ used sb V (node_addr V' a' q) = false;
  gr_used : ∀ c, 0 ≤ c < sb_size sb → used sb V c = true → used sb V' c = true;
  gr_frame : ∀ c, 0 ≤ c < sb_size sb → used sb V c = true → no_map sb c →
    (∀ q, valid_node q → node_addr V a q ≠ c) → V' c = V c
}.

Lemma grown_refl g sb V a : file_ok g sb V a → layout g sb V → grown g sb V a V a.
Proof. intros Hf Hl. split; auto. Qed.

Lemma grown_trans g sb V a V1 a1 V2 a2 :
  grown g sb V a V1 a1 → grown g sb V1 a1 V2 a2 → grown g sb V a V2 a2.
Proof.
  intros G1 G2. split.
  - apply (gr_file _ _ _ _ _ _ G2).
  - apply (gr_layout _ _ _ _ _ _ G2).
  - intros bn Hbn. rewrite (gr_content _ _ _ _ _ _ G2), (gr_content _ _ _ _ _ _ G1); done.
  - intros q Hq Hn. pose proof (gr_keep _ _ _ _ _ _ G1 q Hq Hn) as E.
    rewrite (gr_keep _ _ _ _ _ _ G2) by (done || congruence). done.
  - intros q Hq Hn. pose proof (gr_file _ _ _ _ _ _ G2) as Hf.
    destruct (gr_new _ _ _ _ _ _ G2 q Hq Hn) as [E|E].
    + rewrite E in Hn |- *. apply (gr_new _ _ _ _ _ _ G1 q Hq Hn).
    + right. destruct (used sb V (node_addr V2 a2 q)) eqn:Eu; [|done].
      destruct (fo_ok _ _ _ _ Hf q Hq Hn) as (Hr & _).
      apply (gr_used _ _ _ _ _ _ G1) in Eu; [congruence|done].
  - intros c Hc Hu. by apply (gr_used _ _ _ _ _ _ G2), (gr_used _ _ _ _ _ _ G1).
  - intros c Hc Hu Hm Hno. rewrite (gr_frame _ _ _ _ _ _ G2); try done.
    + by apply (gr_frame _ _ _ _ _ _ G1).
    + by apply (gr_used _ _ _ _ _ _ G1).
    + intros q Hq E. destruct (decide (node_addr V1 a1 q = 0)) as [E0|E0].
      * (* block 0 is never a file's, and c is not it either way *)
        destruct (decide (node_addr V a q = 0)) as [Ez|Ez]; [apply (Hno q Hq); congruence|].
        rewrite (gr_keep _ _ _ _ _ _ G1 q Hq Ez) in E0. done.
      * destruct (gr_new _ _ _ _ _ _ G1 q Hq E0) as [E'|E'].
        -- apply (Hno q Hq). congruence.
        -- congruence.
Qed.

Lemma valid_leaf bn : 0 ≤ bn < MAPPED → valid_node (leaf bn) ∧ length (leaf bn).2 = depth (leaf bn).1.
Proof.
  unfold MAPPED, leaf, NDBLINDIRECT, NDIRECT, NINDIRECT, valid_node, depth. intros Hbn.
  destruct (Z.ltb_spec bn 10); [|destruct (Z.ltb_spec (bn - 10) 128); [|destruct (Z.ltb_spec (bn - 10 - 128) (128 * 128))]].
  - cbn [fst snd length]. unfold NDIRECT. rewrite (proj2 (Z.ltb_lt _ _)) by lia. split_and!; [lia|lia|lia|constructor|done].
  - cbn [fst snd length]. split_and!; [lia|lia|done| |done]. constructor; [unfold NINDIRECT; lia|constructor].
  - cbn [fst snd length]. split_and!; [lia|lia|done| |done].
    repeat constructor; unfold NINDIRECT; divmod_lia.
  - cbn [fst snd length]. split_and!; [lia|lia|done| |done].
    repeat constructor; unfold NINDIRECT; divmod_lia.
Qed.

Lemma leaf_inj x y : 0 ≤ x < MAPPED → 0 ≤ y < MAPPED → leaf x = leaf y → x = y.
Proof.
  unfold MAPPED, leaf, NDBLINDIRECT, NDIRECT, NINDIRECT. intros Hx Hy.
  repeat match goal with |- context [Z.ltb ?u ?v] => destruct (Z.ltb_spec u v) end;
    intros [=]; try lia; divmod_lia.
Qed.

(** The parent of a node is not a leaf. *)
Lemma leaf_not_parent bn q j : 0 ≤ bn < MAPPED → valid_node (child q j) → leaf bn ≠ q.
Proof.
  intros Hbn Hv <-. destruct (valid_leaf bn Hbn) as [_ Hd]. destruct Hv as (_ & Hl & _).
  unfold child in Hl. simpl in Hl. rewrite length_app, Hd in Hl. simpl in Hl. lia.
Qed.

(** The general step: a fresh block [b] at the missing node [p], [V'] agreeing
    with [allocated] but on the block of [p]'s parent. *)
Lemma grow g sb V a V' a' p b :
  (∀ x, length (V x) = 512%nat) → layout g sb V → file_ok g sb V a →
  0 ≤ b < sb_size sb → used sb V b = false → valid_node p → node_addr V a p = 0 →
  (∀ q j, p = child q j → node_addr V a q ≠ 0) → length a' = 13%nat →
  (∀ k, 0 ≤ k < 13 → bget0 a' k = if decide ((k, []) = p) then b else bget0 a k) →
  (∀ c, (∀ q j, p = child q j → c ≠ node_addr V a q) → V' c = allocated sb V b c) →
  (∀ q j, p = child q j → V' (node_addr V a q) = put32 (V (node_addr V a q)) (4 * j) b) →
  grown g sb V a V' a' ∧ node_addr V' a' p = b ∧ b ≠ 0 ∧
  ∀ c, 0 ≤ c < sb_size sb → used sb V' c = (b =? c) || used sb V c.
Proof.
  intros Hlen Lo Hf Hb Hu Hp Hp0 Hpar Hl' Hroot Hother Hparent.
  pose proof (free_no_map _ _ _ _ Lo Hb Hu) as Hbm.
  assert (b ≠ 0) as Hb0 by (intros ->; pose proof (lo_zero _ _ _ Lo); congruence).
  assert (∀ q, valid_node q → node_addr V a q ≠ 0 → node_addr V a q ≠ b ∧ no_map sb (node_addr V a q)) as Hgood.
  { intros q Hq Hn. destruct (fo_ok _ _ _ _ Hf q Hq Hn) as (_ & _ & ? & ?). split; [congruence|done]. }
  assert (∀ q j, p = child q j → valid_node q) as Hvpar.
  { intros q j ->. by apply valid_parent in Hp as [? _]. }
  pose proof (lo_size _ _ _ Lo) as Hsz. pose proof (lo_max _ _ _ Lo) as Hmx.
  assert (V' b = zero_block) as Hz.
  { rewrite Hother; [unfold allocated; by rewrite decide_True|]. intros q j E E'.
    pose proof (Hpar q j E). apply (Hgood q); [by eapply Hvpar | done | done]. }
  assert (∀ q, valid_node q → node_addr V a q ≠ 0 → (∀ q0 j, p = child q0 j → q ≠ q0) →
    V' (node_addr V a q) = V (node_addr V a q)) as Hsame.
  { intros q Hq Hn Hne. destruct (Hgood q Hq Hn) as [Hqb Hqm]. rewrite Hother.
    - unfold allocated. rewrite !decide_False; [done| |done]. intros E. by apply (Hqm b).
    - intros q0 j E E'. apply (Hne q0 j E). eapply (fo_inj _ _ _ _ Hf); try done. by eapply Hvpar. }
  assert (∀ q, valid_node q → node_addr V' a' q = if decide (q = p) then b else node_addr V a q) as Hnodes.
  { apply grow_nodes; try done; [apply (fo_inj _ _ _ _ Hf)|].
    intros q j Hv Hn. destruct (valid_parent _ _ Hv) as [Hq Hj]. unfold NINDIRECT in Hj.
    destruct (node_cases p) as [(k & Ek)|(q0 & j0 & Ep)].
    - rewrite Hsame; [|done..|intros ? ? E; rewrite Ek in E; by destruct q0 as [? []]].
      rewrite decide_False; [done|]. rewrite Ek. intros E. unfold child in E. destruct q as [? []]; done.
    - destruct (decide (q = q0)) as [->|Hne].
      + rewrite (Hparent _ _ Ep). destruct (decide (j = j0)) as [->|Hj0].
        * rewrite decide_True by done. rewrite get32_put32 by (rewrite ?Hlen; lia). apply u32_id. lia.
        * rewrite decide_False by (rewrite Ep; intros [_ ?]%child_inj; done).
          assert (0 ≤ j0 < 128) by (rewrite Ep in Hp; by apply valid_parent in Hp as [_ ?]).
          apply get32_put32_ne; rewrite ?Hlen; lia.
      + rewrite decide_False by (rewrite Ep; intros [? _]%child_inj; done).
        rewrite Hsame; [done..|]. intros q1 j1 E. rewrite Ep in E. apply child_inj in E as [<- _]. done. }
  assert (∀ c, 0 ≤ c < sb_size sb → V' (BBLOCK c sb) = allocated sb V b (BBLOCK c sb)) as Hmapb.
  { intros c Hc. apply Hother. intros q j E E'. pose proof (Hpar q j E) as Hn.
    destruct (Hgood q (Hvpar _ _ E) Hn) as [_ Hm]. by apply (Hm c). }
  assert (∀ c, 0 ≤ c < sb_size sb → used sb V' c = (b =? c) || used sb V c) as Hused.
  { intros c Hc. rewrite (used_ext _ (allocated sb V b)) by by apply Hmapb. apply used_allocated; done || lia. }
  assert (∀ c, 0 ≤ c < sb_size sb → used sb V c = true → used sb V' c = true) as Hmono.
  { intros c Hc Hcu. rewrite Hused by done. by rewrite Hcu, orb_true_r. }
  split; [|split; [rewrite Hnodes by done; by rewrite decide_True | done]].
  split.
  - split.
    + done.
    + intros q Hq. rewrite Hnodes by done. case_decide.
      * intros _. split_and!; [lia|lia|by apply (lo_free _ _ _ Lo)| |done].
        rewrite Hused by done. by rewrite Z.eqb_refl.
      * intros Hn. destruct (fo_ok _ _ _ _ Hf q Hq Hn) as (Hr & Hh & Hqu & Hm).
        split; [done|]. split; [done|]. split; [by apply Hmono | done].
    + intros q1 q2 Hq1 Hq2. rewrite !Hnodes by done. repeat case_decide; subst; try done.
      * intros _ E. exfalso. destruct (decide (node_addr V a q2 = 0)) as [E0|E0]; [congruence|].
        destruct (Hgood q2 Hq2 E0) as [? _]. congruence.
      * intros Hn E. exfalso. destruct (Hgood q1 Hq1 Hn) as [? _]. congruence.
      * intros Hn E. by apply (fo_inj _ _ _ _ Hf).
  - eapply layout_ext; [exact Hmapb | by apply layout_allocated].
  - intros bn Hbn. unfold content. destruct (valid_leaf bn Hbn) as [Hlv _]. rewrite Hnodes by done.
    case_decide as E.
    + rewrite (proj2 (Z.eqb_neq _ _)) by done. rewrite Hz, E, Hp0. done.
    + destruct (Z.eqb_spec (node_addr V a (leaf bn)) 0); [done|]. apply Hsame; try done.
      intros q0 j Ep. apply (leaf_not_parent _ _ j); [done|]. by rewrite <- Ep.
  - intros q Hq Hn. rewrite Hnodes by done. case_decide; [congruence | done].
  - intros q Hq. rewrite Hnodes by done. case_decide; [by right | by left].
  - done.
  - intros c Hc Hcu Hcm Hno. rewrite Hother.
    + unfold allocated. rewrite !decide_False; [done| |congruence]. intros E. by apply (Hcm b).
    + intros q j E. intros ->. apply (Hno q); [by eapply Hvpar | done].
Qed.

(** ** Running bmap *)

Definition set_i_addrs (a : list Z) (ip : inode) : inode :=
  Inode (i_dev ip) (i_inum ip) (i_ref ip) (i_lock ip) (i_valid ip) (i_type ip) (i_major ip)
    (i_minor ip) (i_nlink ip) (i_size ip) a.

Section bmap.
Context {S : Type} {BD : BlockDev S} {BL : BlockDevLaws S}.
#[local] Notation fs := (fsst S).
#[local] Notation V s := (bd_view (bd s)).
#[local] Notation addrs ip s := (i_addrs (ip_of ip s)).

(** The inode [ip] owns a well-formed file of a well-formed file system. *)
Record fsok (g : bdgeo) (H : held) (L : list Z) (ip : nat) (s : fs) : Prop := {
  ok_bd : bd_inv g H L (bd s);
  ok_layout : layout g (sb s) (V s);
  ok_held : held_ok (sb s) (V s) H;
  ok_file : file_ok g (sb s) (V s) (addrs ip s);
  ok_free : file_free (V s) (addrs ip s) H;
  ok_dev : i_dev (ip_of ip s) = ROOTDEV;
  ok_ip : (ip < length (ic s))%nat
}.

(** [s'] is [s] but for the device and the addresses of inode [ip]. *)
Record moved (ip : nat) (s s' : fs) : Prop := {
  mv_lock : ic_lock s' = ic_lock s;
  mv_sb : sb s' = sb s;
  mv_cur : fcur s' = fcur s;
  mv_len : length (ic s') = length (ic s);
  mv_others : ∀ j, j ≠ ip → ip_of j s' = ip_of j s;
  mv_ip : ip_of ip s' = set_i_addrs (addrs ip s') (ip_of ip s)
}.

Lemma moved_refl ip s : moved ip s s.
Proof. split; try done. by destruct (ip_of ip s). Qed.

Lemma moved_trans ip s1 s2 s3 : moved ip s1 s2 → moved ip s2 s3 → moved ip s1 s3.
Proof.
  intros [A1 A2 A3 A4 A5 A6] [B1 B2 B3 B4 B5 B6]. split; try congruence.
  - intros j Hj. by rewrite B5, A5.
  - rewrite B6 at 1. rewrite A6. done.
Qed.

Lemma moved_bd ip s t : moved ip s (set_bd t s).
Proof. split; try done. change (ip_of ip (set_bd t s)) with (ip_of ip s). by destruct (ip_of ip s). Qed.

Lemma ip_of_upd_eq ip f (s : fs) : (ip < length (ic s))%nat → ip_of ip (upd_ip ip f s) = f (ip_of ip s).
Proof.
  intros Hl. unfold ip_of, upd_ip. simpl. rewrite list_lookup_alter_eq.
  by destruct (lookup_lt_is_Some_2 _ _ Hl) as [x ->].
Qed.

Lemma ip_of_upd_ne ip j f (s : fs) : j ≠ ip → ip_of j (upd_ip ip f s) = ip_of j s.
Proof. intros Hj. unfold ip_of, upd_ip. simpl. by rewrite list_lookup_alter_ne. Qed.

Lemma moved_addr ip k v s : (ip < length (ic s))%nat → moved ip s (upd_ip ip (set_i_addr k v) s).
Proof.
  intros Hl. split; try done.
  - unfold upd_ip. simpl. by rewrite length_alter.
  - intros j Hj. by apply ip_of_upd_ne.
  - by rewrite ip_of_upd_eq.
Qed.

Lemma fsok_len g H L ip s : fsok g H L ip s → ∀ x, length (V s x) = 512%nat.
Proof. intros O x. eapply law_len, (ok_bd _ _ _ _ _ O). Qed.

(** A file that grew is well formed in the new state. *)
Lemma fsok_grown g H L L' ip s s' :
  fsok g H L ip s → moved ip s s' → grown g (sb s) (V s) (addrs ip s) (V s') (addrs ip s') →
  bd_inv g H L' (bd s') → fsok g H L' ip s'.
Proof.
  intros O Mv G I. destruct O as [O1 O2 O3 O4 O5 O6 O7]. destruct Mv as [M1 M2 M3 M4 M5 M6].
  split; rewrite ?M2.
  - done.
  - apply (gr_layout _ _ _ _ _ _ G).
  - intros i b m Hi. destruct (O3 _ _ _ Hi) as (Hr & Hu & Hm). split_and!; try lia; [|done].
    by apply (gr_used _ _ _ _ _ _ G).
  - apply (gr_file _ _ _ _ _ _ G).
  - intros q Hq Hn. destruct (gr_new _ _ _ _ _ _ G q Hq Hn) as [E|E].
    + rewrite E in Hn |- *. by apply O5.
    + by eapply held_free.
  - by rewrite M6.
  - by rewrite M4.
Qed.

Lemma nfree_alloc sb0 (V0 V1 : Z → block) r n :
  nfree sb0 V0 (Datatypes.S n) →
  (∀ c, 0 ≤ c < sb_size sb0 → used sb0 V1 c = (r =? c) || used sb0 V0 c) → nfree sb0 V1 n.
Proof.
  intros (l & Hnd & Hlen & Hl) Hu. destruct (decide (r ∈ l)) as [Hin|Hin].
  - apply list_elem_of_split in Hin as (l1 & l2 & ->). exists (l1 ++ l2).
    apply list.NoDup_app in Hnd as (N1 & N2 & N3). apply list.NoDup_cons in N3 as [N3 N4].
    split; [apply list.NoDup_app; set_solver|]. split; [rewrite length_app in *; simpl in *; lia|].
    intros b Hb. destruct (Hl b) as [Hr Hbu]; [set_solver|]. split; [done|]. rewrite Hu, Hbu by done.
    rewrite orb_false_r. apply Z.eqb_neq. set_solver.
  - destruct l as [|x l]; [done|]. exists l. apply list.NoDup_cons in Hnd as [N1 N2].
    split; [done|]. split; [simpl in Hlen; lia|]. intros b Hb. destruct (Hl b) as [Hr Hbu]; [set_solver|].
    split; [done|]. rewrite Hu, Hbu by done. rewrite orb_false_r. apply Z.eqb_neq. set_solver.
Qed.

Lemma nfree_le sb0 (V0 : Z → block) n n' : nfree sb0 V0 n → (n' ≤ n)%nat → nfree sb0 V0 n'.
Proof.
  intros (l & Hnd & Hlen & Hl) Hle. exists (take n' l). split; [|split].
  - rewrite <- (take_drop n' l) in Hnd. by apply list.NoDup_app in Hnd as (? & _).
  - rewrite length_take. lia.
  - intros b (i & Hi & _)%elem_of_take. apply Hl. by eapply list_elem_of_lookup_2.
Qed.

Lemma nfree_exists sb0 (V0 : Z → block) n : nfree sb0 V0 (Datatypes.S n) →
  ∃ c, 0 ≤ c < sb_size sb0 ∧ used sb0 V0 c = false.
Proof. intros ([|x l] & _ & Hlen & Hl); [done|]. exists x. apply Hl. set_solver. Qed.

(** What a call that may extend the file leaves: [k] bounds the blocks it
    adds to the transaction, [n] the free blocks that remain. *)
Record extended (g : bdgeo) (H : held) (L : list Z) (ip : nat) (s : fs) (k n : nat) (L' : list Z) (s' : fs) : Prop := {
  ex_ok : fsok g H L' ip s';
  ex_moved : moved ip s s';
  ex_grown : grown g (sb s) (V s) (addrs ip s) (V s') (addrs ip s');
  ex_log : (length L' ≤ length L + k)%nat;
  ex_nfree : nfree (sb s) (V s') n
}.

Lemma extended_refl g H L ip s k n : fsok g H L ip s → nfree (sb s) (V s) n → extended g H L ip s k n L s.
Proof.
  intros O Hn. split; [done | apply moved_refl | | lia | done].
  apply grown_refl; [apply (ok_file _ _ _ _ _ O) | apply (ok_layout _ _ _ _ _ O)].
Qed.

Lemma extended_trans g H L ip s k n L1 s1 k' n' L2 s2 :
  extended g H L ip s k n L1 s1 → extended g H L1 ip s1 k' n' L2 s2 → extended g H L ip s (k + k') n' L2 s2.
Proof.
  intros [A1 A2 A3 A4 A5] [B1 B2 B3 B4 B5]. pose proof (mv_sb _ _ _ A2) as Esb. rewrite Esb in *. split.
  - done.
  - by eapply moved_trans.
  - by eapply grown_trans.
  - lia.
  - done.
Qed.

(** A change of the device that keeps the views. *)
Lemma extended_same g H L ip s k n t : fsok g H L ip s → nfree (sb s) (V s) n →
  bd_inv g H L t → (∀ c, bd_view t c = V s c) → extended g H L ip s k n L (set_bd t s).
Proof.
  intros O Hn I Vt. pose proof O as [O1 O2 O3 O4 O5 O6 O7].
  assert (∀ c, used (sb s) (bd_view t) c = used (sb s) (V s) c) as Hu by (intros; by apply used_ext).
  assert (∀ p, valid_node p → node_addr (bd_view t) (addrs ip s) p = node_addr (V s) (addrs ip s) p) as Hnd
    by (apply node_ext; auto).
  assert (grown g (sb s) (V s) (addrs ip s) (bd_view t) (addrs ip s)) as G.
  { split.
    - destruct O4 as [F1 F2 F3]. split; [done| |].
      + intros p Hp. rewrite Hnd by done. intros Hp0. destruct (F2 p Hp Hp0) as (? & ? & ? & ?).
        split; [done|]. split; [done|]. by rewrite Hu.
      + intros p q Hp Hq. rewrite !Hnd by done. auto.
    - eapply layout_ext; [|exact O2]. auto.
    - intros bn Hbn. unfold content. rewrite Hnd by by apply valid_leaf. by rewrite Vt.
    - intros q Hq _. by apply Hnd.
    - intros q Hq _. left. by apply Hnd.
    - intros c _. by rewrite Hu.
    - auto. }
  assert (moved ip s (set_bd t s)) as Mv by apply moved_bd.
  split; [by eapply fsok_grown | done | done | lia |].
  destruct Hn as (l & ? & ? & Hl). exists l. split; [done|]. split; [done|]. intros b Hb. simpl. rewrite Hu. auto.
Qed.

Lemma f_bmap_addr g H L ip k n (Q : Z → fs → Prop) s :
  fsok g H L ip s → 0 ≤ k < 13 → g_tx g = true → budget g H L 2 → nfree (sb s) (V s) (Datatypes.S n) →
  (∀ s' L', extended g H L ip s 2 n L' s' → node_addr (V s') (addrs ip s') (k, []) ≠ 0 →
     Q (node_addr (V s') (addrs ip s') (k, [])) s') →
  wp (bmap_addr ip k) Q s.
Proof.
  intros O Hk Htx Hbud Hnf HQ. pose proof O as [O1 O2 O3 O4 O5 O6 O7]. pose proof (fo_len _ _ _ _ O4) as Hla.
  unfold bmap_addr. wp_step. wp_step.
  destruct (Z.eqb_spec (addr_of (ip_of ip s) k) 0) as [E|E].
  - apply wp_bind. rewrite O6. eapply f_balloc; [exact O1 | exact O2 | exact O3 | exact Htx | exact Hbud | by eapply nfree_exists |].
    intros r t L' It HL' Vt Hr Hru _. unfold set_ip. wp_steps.
    set (s' := upd_ip ip (set_i_addr k r) (set_bd t s)).
    assert (moved ip s s') as Mv by (eapply moved_trans; [apply (moved_bd _ _ t) | by apply moved_addr]).
    assert (addrs ip s' = <[Z.to_nat k := r]> (addrs ip s)) as Ea by (unfold s'; by rewrite ip_of_upd_eq).
    destruct (grow g (sb s) (V s) (addrs ip s) (V s') (addrs ip s') (k, []) r) as (G & Er & Hr0 & Hused);
      try assumption; try (intros q j Ec; exfalso; by destruct q as [? []]).
    + by eapply fsok_len.
    + split; [done|]. split; [simpl; lia | constructor].
    + by rewrite Ea, length_insert.
    + intros k' Hk'. rewrite Ea, bget0_insert by lia. repeat case_decide; congruence.
    + intros c _. apply Vt.
    + rewrite <- Er. apply (HQ s' L'); [|by rewrite Er]. split; try done.
      * eapply fsok_grown; [exact O | exact Mv | exact G | exact It].
      * eapply nfree_alloc; [exact Hnf | exact Hused].
  - apply wp_ret. apply (HQ s L); [|done]. apply extended_refl; [done|]. eapply nfree_le; [exact Hnf|lia].
Qed.

Lemma allocated_ext sb0 (V0 V1 : Z → block) r c : (∀ x, V1 x = V0 x) → allocated sb0 V1 r c = allocated sb0 V0 r c.
Proof. intros E. unfold allocated. by rewrite E. Qed.

Lemma f_bmap_level g H L ip p j n (Q : Z → fs → Prop) s (addr := node_addr (V s) (addrs ip s) p) :
  fsok g H L ip s → valid_node (child p j) → addr ≠ 0 → g_tx g = true → budget g H L 4 →
  nfree (sb s) (V s) (Datatypes.S n) →
  (∀ s' L', extended g H L ip s 3 n L' s' → node_addr (V s') (addrs ip s') (child p j) ≠ 0 →
     Q (node_addr (V s') (addrs ip s') (child p j)) s') →
  wp (bmap_level ROOTDEV addr j j) Q s.
Proof.
  intros O Hv Ha Htx Hbud Hnf HQ. pose proof O as [O1 O2 O3 O4 O5 O6 O7].
  destruct (valid_parent _ _ Hv) as [Hp Hj]. destruct (fo_ok _ _ _ _ O4 p Hp Ha) as (Har & Hah & Hau & Ham).
  pose proof (fsok_len _ _ _ _ _ O) as Hlen.
  unfold bmap_level. apply wp_bind.
  eapply f_bread; [exact O1 | by apply O5 | exact Hah | left; by eapply budget_bread |].
  intros i t1 I1 Hi V1. apply wp_bind. eapply f_bdata; [exact I1 | apply lookup_insert_eq |]. simpl. fold addr. rewrite V1.
  rewrite (proj2 (Z.leb_gt _ _)) by apply Hj.
  assert (get32 (V s addr) (4 * j) = node_addr (V s) (addrs ip s) (child p j)) as Eg.
  { rewrite node_child. fold addr. unfold lvl_get. by rewrite (proj2 (Z.eqb_neq _ _)). }
  rewrite Eg. destruct (Z.eqb_spec (node_addr (V s) (addrs ip s) (child p j)) 0) as [E0|E0].
  - apply wp_bind.
    assert (∀ c, used (sb s) (bd_view t1) c = used (sb s) (V s) c) as Hu1 by (intros; by apply used_ext).
    assert (budget g (<[i := (addr, false)]> H) L 2) as Hb2
      by (apply budget_hold; [eapply budget_mono; [exact Hbud | lia] | exact Hi]).
    eapply (f_balloc _ _ _ _ (set_bd t1 s)); [exact I1 | | | exact Htx | exact Hb2 | |].
    { eapply layout_ext; [|exact O2]. auto. }
    { intros x b m. simpl. destruct (decide (x = i)) as [->|].
      - rewrite lookup_insert_eq. intros [= <- <-]. rewrite Hu1. done.
      - rewrite lookup_insert_ne by done. intros Hx. rewrite Hu1. by apply (O3 _ _ _ Hx). }
    { simpl. destruct (nfree_exists _ _ _ Hnf) as (c & Hc & Hcu). exists c. by rewrite Hu1. }
    intros r t2 L' I2 HL' V2 Hr Hru _. simpl in V2, Hr, Hru. rewrite Hu1 in Hru.
    assert (∀ c, bd_view t2 c = allocated (sb s) (V s) r c) as V2' by (intros c; rewrite V2; by apply allocated_ext).
    assert (addr ≠ r) as Har' by (intros <-; unfold addr in Hru; congruence).
    assert (bd_view t2 addr = V s addr) as Eaddr.
    { rewrite V2'. unfold allocated. rewrite !decide_False; [done| |done]. intros E. by apply (Ham r). }
    apply wp_bind. eapply f_bdata; [exact I2 | apply lookup_insert_eq |]. simpl. fold addr. rewrite Eaddr.
    eapply f_update; [exact I2 | exact Hi | exact Hah | exact Htx | | |].
    { apply (budget_log g H L' 0), (budget_grow g H L L' 1 2); [|exact HL']. eapply budget_mono; [exact Hbud | lia]. }
    { unfold NINDIRECT in Hj. rewrite length_put32; rewrite ?Hlen; lia || done. }
    intros t3 I3 V3. apply wp_ret. set (s' := set_bd t3 _). simpl in V3.
    assert (moved ip s s') as Mv by apply (moved_bd ip s t3).
    change (addrs ip s') with (addrs ip s).
    destruct (grow g (sb s) (V s) (addrs ip s) (V s') (addrs ip s) (child p j) r) as (G & Er & Hr0 & Hused);
      try assumption.
    + intros q j' Ec. apply child_inj in Ec as [<- <-]. done.
    + apply (fo_len _ _ _ _ O4).
    + intros k Hk. rewrite decide_False; [done|]. by destruct p as [? []].
    + intros c Hc. simpl. rewrite V3. rewrite decide_False; [apply V2'|]. by apply (Hc p j).
    + intros q j' Ec. apply child_inj in Ec as [<- <-]. fold addr. simpl. by rewrite V3, decide_True.
    + rewrite <- Er. apply (HQ s' (pinned addr L')); [|by change (addrs ip s') with (addrs ip s); rewrite Er].
      split; try done.
      * eapply fsok_grown; [exact O | exact Mv | exact G | exact I3].
      * pose proof (pinned_length addr L'). lia.
      * eapply nfree_alloc; [exact Hnf | exact Hused].
  - apply wp_bind. eapply f_brelse; [exact I1 | exact Hi |]. intros t2 I2 V2. apply wp_ret. simpl in V2.
    assert (extended g H L ip s 3 n L (set_bd t2 s)) as X.
    { apply extended_same; [done | by eapply nfree_le; [exact Hnf|lia] | done |]. intros c. by rewrite V2. }
    pose proof (gr_keep _ _ _ _ _ _ (ex_grown _ _ _ _ _ _ _ _ _ X) _ Hv E0) as Ek.
    rewrite <- Ek. apply (HQ (set_bd t2 s) L X). by rewrite Ek.
Qed.

(** How many blocks a call of bmap may add to the transaction. *)
Definition bmap_cost (bn : Z) : nat :=
  if bn <? NDIRECT then 2 else if bn - NDIRECT <? NINDIRECT then 5
  else if bn - NDIRECT - NINDIRECT <? NDBLINDIRECT then 8 else 11.

Lemma extended_grow g H L ip s k n L' s' j : extended g H L ip s k n L' s' → budget g H L (k + j) → budget g H L' j.
Proof. intros X Hb. eapply budget_grow; [exact Hb | apply (ex_log _ _ _ _ _ _ _ _ _ X)]. Qed.

Lemma child_valid k js j : 0 ≤ k < 13 → (length js < depth k)%nat → Forall (λ j, 0 ≤ j < NINDIRECT) js →
  0 ≤ j < NINDIRECT → valid_node (child (k, js) j).
Proof.
  intros Hk Hl Hf Hj. split; [done|]. split; [unfold child; simpl; rewrite length_app; simpl; lia|].
  apply Forall_app. split; [done|]. by constructor.
Qed.

#[local] Ltac bud := eapply budget_mono; [eassumption | lia].
#[local] Ltac lvl := try (unfold depth; simpl; lia); try bud.

Lemma extended_weaken g H L ip s k n L' s' k' n' : extended g H L ip s k n L' s' → (k ≤ k')%nat → (n' ≤ n)%nat →
  extended g H L ip s k' n' L' s'.
Proof. intros [? ? ? ? X] Hk Hn. split; try assumption; [lia|]. eapply nfree_le; [exact X | exact Hn]. Qed.

(** One more level, after calls that already extended the file. *)
Lemma f_level_from g H L ip s k n L1 s1 kk js j (Q : Z → fs → Prop) :
  extended g H L ip s k (Datatypes.S n) L1 s1 → 0 ≤ kk < 13 → (length js < depth kk)%nat →
  Forall (λ j, 0 ≤ j < NINDIRECT) (js ++ [j]) → node_addr (V s1) (addrs ip s1) (kk, js) ≠ 0 →
  g_tx g = true → budget g H L (k + 4) →
  (∀ s2 L2, extended g H L ip s (k + 3) n L2 s2 → node_addr (V s2) (addrs ip s2) (kk, js ++ [j]) ≠ 0 →
     Q (node_addr (V s2) (addrs ip s2) (kk, js ++ [j])) s2) →
  wp (bmap_level ROOTDEV (node_addr (V s1) (addrs ip s1) (kk, js)) j j) Q s1.
Proof.
  intros X1 Hkk Hl Hj Hr Htx Hbud HQ. apply Forall_app in Hj as [Hjs Hj]. rewrite Forall_singleton in Hj.
  eapply (f_bmap_level _ _ _ _ (kk, js) _ n); [apply (ex_ok _ _ _ _ _ _ _ _ _ X1) | by apply child_valid | exact Hr | exact Htx | | |].
  - by eapply extended_grow.
  - rewrite (mv_sb _ _ _ (ex_moved _ _ _ _ _ _ _ _ _ X1)). apply (ex_nfree _ _ _ _ _ _ _ _ _ X1).
  - intros s2 L2 X2 Hr2. apply (HQ s2 L2); [|exact Hr2]. eapply extended_trans; [exact X1 | exact X2].
Qed.

Lemma f_bmap g H L ip bn n (Q : Z → fs → Prop) s :
  fsok g H L ip s → 0 ≤ bn < MAPPED → g_tx g = true → budget g H L (Datatypes.S (bmap_cost bn)) →
  nfree (sb s) (V s) (4 + n) →
  (∀ s' L', extended g H L ip s (bmap_cost bn) n L' s' → node_addr (V s') (addrs ip s') (leaf bn) ≠ 0 →
     Q (node_addr (V s') (addrs ip s') (leaf bn)) s') →
  wp (bmap ip bn) Q s.
Proof.
  intros O Hbn Htx Hbud Hnf HQ. unfold bmap. wp_step. wp_step. rewrite (ok_dev _ _ _ _ _ O).
  destruct (valid_leaf bn Hbn) as [(_ & _ & Hfl) _]. revert Hfl Hbud HQ. unfold leaf, bmap_cost.
  destruct (Z.ltb_spec bn NDIRECT) as [H1|H1]; [|
  destruct (Z.ltb_spec (bn - NDIRECT) NINDIRECT) as [H2|H2]; [|
  destruct (Z.ltb_spec (bn - NDIRECT - NINDIRECT) NDBLINDIRECT) as [H3|H3]]]; intros Hfl Hbud HQ;
    cbn [snd] in Hfl.
  - eapply (f_bmap_addr _ _ _ _ _ (3 + n)); [exact O | unfold NDIRECT in *; lia | exact Htx | bud | exact Hnf |].
    intros s' L' X Hr. apply (HQ s' L'); [|exact Hr]. eapply extended_weaken; [exact X|lia..].
  - apply wp_bind. eapply (f_bmap_addr _ _ _ _ _ (3 + n)); [exact O | unfold NDIRECT; lia | exact Htx | bud | exact Hnf |].
    intros s1 L1 X1 Hr1. apply (f_level_from _ _ _ _ _ _ _ _ _ _ [] _ _ X1); try done; lvl.
    intros s2 L2 X2 Hr2. apply (HQ s2 L2); [|exact Hr2]. eapply extended_weaken; [exact X2|lia..].
  - apply wp_bind. eapply (f_bmap_addr _ _ _ _ _ (3 + n)); [exact O | unfold NDIRECT; lia | exact Htx | bud | exact Hnf |].
    intros s1 L1 X1 Hr1. apply wp_bind, (f_level_from _ _ _ _ _ _ _ _ _ _ [] _ _ X1); try done; lvl.
    { exact (proj1 (proj1 (Forall_app _ [_] [_]) Hfl)). }
    intros s2 L2 X2 Hr2. apply (f_level_from _ _ _ _ _ _ _ _ _ _ [_] _ _ X2); try done; lvl.
    intros s3 L3 X3 Hr3. apply (HQ s3 L3); [|exact Hr3]. eapply extended_weaken; [exact X3|lia..].
  - set (b3 := bn - NDIRECT - NINDIRECT - NDBLINDIRECT) in *.
    assert ((b3 mod NDBLINDIRECT) / NINDIRECT = b3 / NINDIRECT ∧ b3 < NTPLINDIRECT) as (Ewr & Hlt).
    { unfold b3, MAPPED, NTPLINDIRECT, NDBLINDIRECT, NINDIRECT, NDIRECT in *. split; divmod_lia. }
    rewrite (proj2 (Z.ltb_lt _ _) Hlt), Ewr.
    apply wp_bind. eapply (f_bmap_addr _ _ _ _ _ (3 + n)); [exact O | unfold NDIRECT; lia | exact Htx | bud | exact Hnf |].
    intros s1 L1 X1 Hr1. apply wp_bind, (f_level_from _ _ _ _ _ _ _ _ _ _ [] _ _ X1); try done; lvl.
    { exact (proj1 (proj1 (Forall_app _ [_] [_; _]) Hfl)). }
    intros s2 L2 X2 Hr2. apply wp_bind, (f_level_from _ _ _ _ _ _ _ _ _ _ [_] _ _ X2); try done; lvl.
    { exact (proj1 (proj1 (Forall_app _ [_; _] [_]) Hfl)). }
    intros s3 L3 X3 Hr3. apply (f_level_from _ _ _ _ _ _ _ _ _ _ [_; _] _ _ X3); try done; lvl.
Qed.

(** ** bmap where the file is mapped: nothing changes *)

Lemma f_level_get g H L addr j w (Q : Z → fs → Prop) s :
  bd_inv g H L (bd s) → not_held H addr → home g addr → (size H + length L < NBUF)%nat →
  0 ≤ j < NINDIRECT → get32 (V s addr) (4 * j) ≠ 0 →
  (∀ t, bd_inv g H L t → (∀ c, bd_view t c = V s c) → Q (get32 (V s addr) (4 * j)) (set_bd t s)) →
  wp (bmap_level ROOTDEV addr j w) Q s.
Proof.
  intros I Hn Hh Hr Hj Hg HQ. unfold bmap_level. apply wp_bind.
  eapply f_bread; [exact I | exact Hn | exact Hh | by left |].
  intros i t1 I1 Hi V1. apply wp_bind. eapply f_bdata; [exact I1 | apply lookup_insert_eq |]. simpl. rewrite V1.
  rewrite (proj2 (Z.leb_gt _ _)) by apply Hj. rewrite (proj2 (Z.eqb_neq _ _)) by done.
  apply wp_bind. eapply f_brelse; [exact I1 | exact Hi |]. intros t2 I2 V2. apply wp_ret.
  apply (HQ t2 I2). intros c. by rewrite V2.
Qed.

(** One level below a mapped node. *)
Lemma f_level_node g H L ip s t k js j w (Q : Z → fs → Prop) :
  fsok g H L ip s → bd_inv g H L t → (∀ c, bd_view t c = V s c) → (size H + length L < NBUF)%nat →
  valid_node (k, js ++ [j]) → node_addr (V s) (addrs ip s) (k, js ++ [j]) ≠ 0 →
  (∀ t', bd_inv g H L t' → (∀ c, bd_view t' c = V s c) →
     Q (node_addr (V s) (addrs ip s) (k, js ++ [j])) (set_bd t' s)) →
  wp (bmap_level ROOTDEV (node_addr (V s) (addrs ip s) (k, js)) j w) Q (set_bd t s).
Proof.
  intros O It Vt Hr Hv Hn HQ. destruct (valid_parent (k, js) j Hv) as [Hp Hj].
  change (k, js ++ [j]) with (child (k, js) j) in *. rewrite node_child in *. unfold lvl_get in *.
  destruct (Z.eqb_spec (node_addr (V s) (addrs ip s) (k, js)) 0) as [E|E]; [done|].
  destruct (fo_ok _ _ _ _ (ok_file _ _ _ _ _ O) _ Hp E) as (_ & Hh & _).
  assert (∀ c, V (set_bd t s) c = V s c) as Vt' by exact Vt.
  eapply f_level_get; [exact It | by apply (ok_free _ _ _ _ _ O) | exact Hh | exact Hr | exact Hj | by rewrite Vt' |].
  intros t' It' Vt2. rewrite Vt'. apply HQ; [exact It'|]. intros c. by rewrite Vt2.
Qed.

Lemma node_prefix V0 a k js j : node_addr V0 a (k, js ++ [j]) ≠ 0 → node_addr V0 a (k, js) ≠ 0.
Proof.
  change (k, js ++ [j]) with (child (k, js) j). rewrite node_child. unfold lvl_get.
  by destruct (Z.eqb_spec (node_addr V0 a (k, js)) 0).
Qed.

Lemma valid_prefix k js j : valid_node (k, js ++ [j]) → valid_node (k, js).
Proof. intros Hv. by apply (valid_parent (k, js) j) in Hv as [? _]. Qed.

Lemma f_bmap_mapped g H L ip bn (Q : Z → fs → Prop) s :
  fsok g H L ip s → 0 ≤ bn < MAPPED → node_addr (V s) (addrs ip s) (leaf bn) ≠ 0 →
  (size H + length L < NBUF)%nat →
  (∀ t, bd_inv g H L t → (∀ c, bd_view t c = V s c) →
     Q (node_addr (V s) (addrs ip s) (leaf bn)) (set_bd t s)) →
  wp (bmap ip bn) Q s.
Proof.
  intros O Hbn Hn Hr HQ. unfold bmap. wp_step. wp_step. rewrite (ok_dev _ _ _ _ _ O).
  destruct (valid_leaf bn Hbn) as [Hv _]. pose proof (ok_bd _ _ _ _ _ O) as I.
  assert (∀ k (Q' : Z → fs → Prop), node_addr (V s) (addrs ip s) (k, []) ≠ 0 →
    (∀ t, bd_inv g H L t → (∀ c, bd_view t c = V s c) → Q' (node_addr (V s) (addrs ip s) (k, [])) (set_bd t s)) →
    wp (bmap_addr ip k) Q' s) as Hroot.
  { intros k Q' Hk HQ'. unfold bmap_addr. wp_steps. unfold node_addr in Hk. simpl in Hk. unfold addr_of.
    rewrite (proj2 (Z.eqb_neq _ _)) by done. apply wp_ret.
    replace s with (set_bd (bd s) s) by by destruct s. by apply HQ'. }
  revert Hv Hn HQ. unfold leaf.
  destruct (Z.ltb_spec bn NDIRECT) as [H1|H1]; [|
  destruct (Z.ltb_spec (bn - NDIRECT) NINDIRECT) as [H2|H2]; [|
  destruct (Z.ltb_spec (bn - NDIRECT - NINDIRECT) NDBLINDIRECT) as [H3|H3]]]; intros Hv Hn HQ.
  - by apply Hroot.
  - apply wp_bind, Hroot; [by eapply (node_prefix _ _ _ []) |]. intros t It Vt.
    by apply (f_level_node g H L ip s t _ [] _).
  - pose proof (node_prefix _ _ _ [_] _ Hn) as Hn1. pose proof (valid_prefix _ [_] _ Hv) as Hv1.
    apply wp_bind, Hroot; [by eapply (node_prefix _ _ _ []) |]. intros t It Vt.
    apply wp_bind, (f_level_node g H L ip s t _ [] _); try assumption. intros t1 It1 Vt1.
    by apply (f_level_node g H L ip s t1 _ [_] _).
  - set (b3 := bn - NDIRECT - NINDIRECT - NDBLINDIRECT) in *.
    assert (b3 < NTPLINDIRECT) as Hlt.
    { unfold b3, MAPPED, NTPLINDIRECT, NDBLINDIRECT, NINDIRECT, NDIRECT in *. lia. }
    rewrite (proj2 (Z.ltb_lt _ _) Hlt).
    pose proof (node_prefix _ _ _ [_; _] _ Hn) as Hn2. pose proof (valid_prefix _ [_; _] _ Hv) as Hv2.
    pose proof (node_prefix _ _ _ [_] _ Hn2) as Hn1. pose proof (valid_prefix _ [_] _ Hv2) as Hv1.
    apply wp_bind, Hroot; [by eapply (node_prefix _ _ _ []) |]. intros t It Vt.
    apply wp_bind, (f_level_node g H L ip s t _ [] _); try assumption. intros t1 It1 Vt1.
    apply wp_bind, (f_level_node g H L ip s t1 _ [_] _); try assumption. intros t2 It2 Vt2.
    by apply (f_level_node g H L ip s t2 _ [_; _] _).
Qed.

(** bmap returns the block of the leaf for [bn], allocating what is
    missing on the path to it.  Afterwards distinct block numbers of the file
    still have distinct blocks, no block that was mapped has moved, the
    contents of the file are the same (what was allocated reads as zeroes),
    and no block in use by anything else was touched. *)
Theorem bmap_maps g H L ip bn n s :
  fsok g H L ip s → 0 ≤ bn < MAPPED → g_tx g = true → budget g H L (Datatypes.S (bmap_cost bn)) →
  nfree (sb s) (V s) (4 + n) →
  ∃ b s' L', bmap ip bn s = Ok b s' ∧ fsok g H L' ip s' ∧ b ≠ 0 ∧
    b = node_addr (V s') (addrs ip s') (leaf bn) ∧
    (∀ bn', 0 ≤ bn' < MAPPED → bn' ≠ bn → node_addr (V s') (addrs ip s') (leaf bn') ≠ b) ∧
    (∀ q, valid_node q → node_addr (V s) (addrs ip s) q ≠ 0 →
       node_addr (V s') (addrs ip s') q = node_addr (V s) (addrs ip s) q) ∧
    (∀ bn', 0 ≤ bn' < MAPPED → content (V s') (addrs ip s') bn' = content (V s) (addrs ip s) bn') ∧
    (∀ c, 0 ≤ c < sb_size (sb s) → used (sb s) (V s) c = true → no_map (sb s) c →
       (∀ q, valid_node q → node_addr (V s) (addrs ip s) q ≠ c) → V s' c = V s c).
Proof.
  intros O Hbn Htx Hbud Hnf.
  assert (wp (bmap ip bn) (λ b s', ∃ L', extended g H L ip s (bmap_cost bn) n L' s' ∧ b ≠ 0 ∧
    b = node_addr (V s') (addrs ip s') (leaf bn)) s) as Hw.
  { eapply f_bmap; eauto. }
  apply wp_elim in Hw as (b & s' & E & L' & [X1 X2 X3 X4 X5] & Hb & Eb).
  exists b, s', L'. split; [exact E|]. split; [exact X1|]. split; [exact Hb|]. split; [exact Eb|].
  split; [|split; [apply (gr_keep _ _ _ _ _ _ X3) | split; [apply (gr_content _ _ _ _ _ _ X3) | apply (gr_frame _ _ _ _ _ _ X3)]]].
  intros bn' Hbn' Hne E'. apply Hne. symmetry. apply leaf_inj; [done..|].
  apply (fo_inj _ _ _ _ (ok_file _ _ _ _ _ X1)); [by apply valid_leaf | by apply valid_leaf | congruence..].
Qed.

(** For a block in the triple indirect range beyond its first NDBLINDIRECT
    blocks, which writei accepts since it is below MAXFILE, bmap indexes the
    second-level indirect block with bn/NINDIRECT, which is at least NINDIRECT:
    it reads outside the buffer. *)
Theorem bmap_triple_out_of_bounds g H L ip bn n s :
  fsok g H L ip s → MAPPED ≤ bn < MAXFILE → g_tx g = true → budget g H L 9 →
  nfree (sb s) (V s) (3 + n) → bmap ip bn s = Undef "a[] out of bounds".
Proof.
  intros O Hbn Htx Hbud Hnf. unfold bmap. rewrite (bind_ok (gets (ip_of ip)) _ s _ s eq_refl).
  cbv beta zeta. rewrite (ok_dev _ _ _ _ _ O).
  unfold MAXFILE, MAPPED, NTPLINDIRECT, NDBLINDIRECT, NINDIRECT, NDIRECT in *.
  rewrite (proj2 (Z.ltb_ge _ _)) by lia. rewrite (proj2 (Z.ltb_ge _ _)) by lia.
  rewrite (proj2 (Z.ltb_ge _ _)) by lia. rewrite (proj2 (Z.ltb_lt _ _)) by lia.
  set (b3 := bn - 10 - 128 - 128 * 128).
  assert (0 ≤ b3 / (128 * 128) < 128 ∧ 128 ≤ b3 / 128) as [R1 R2] by (unfold b3; divmod_lia).
  assert (wp (addr ← bmap_addr ip (10 + 2); bmap_level ROOTDEV addr (b3 / (128 * 128)) (b3 / (128 * 128)))
    (λ r s', ∃ L', fsok g H L' ip s' ∧ budget g H L' 1 ∧ r ≠ 0 ∧
       ∃ p, valid_node p ∧ r = node_addr (V s') (addrs ip s') p) s) as Hw.
  { apply wp_bind. eapply (f_bmap_addr _ _ _ _ _ (2 + n)); [exact O | lia | exact Htx | bud | exact Hnf |].
    intros s1 L1 X1 Hr1. apply (f_level_from _ _ _ _ _ _ _ _ _ _ [] _ _ X1); try done; lvl.
    - constructor; [exact R1 | constructor].
    - intros s2 L2 X2 Hr2. exists L2. split; [apply (ex_ok _ _ _ _ _ _ _ _ _ X2)|].
      split; [eapply extended_grow; [exact X2 | bud]|]. split; [exact Hr2|].
      eexists. split; [|reflexivity]. apply child_valid; [lia | unfold depth; simpl; lia | constructor | exact R1]. }
  apply wp_elim in Hw as (r & s2 & E & L2 & O2 & B2 & Hr & p & Hp & ->).
  apply bind_inv in E as (a1 & s1 & E1 & E2). rewrite (bind_ok _ _ _ _ _ E1), (bind_ok _ _ _ _ _ E2).
  destruct (fo_ok _ _ _ _ (ok_file _ _ _ _ _ O2) p Hp Hr) as (_ & Hh & _).
  assert (wp (blk (bd_bread ROOTDEV (node_addr (V s2) (addrs ip s2) p))) (λ _ _, True) s2) as Hb.
  { eapply f_bread; [apply (ok_bd _ _ _ _ _ O2) | by apply (ok_free _ _ _ _ _ O2) | exact Hh | left; by eapply budget_bread | done]. }
  apply wp_elim in Hb as (i & s3 & E3 & _). unfold bmap_level.
  unfold mbind, M_bind. rewrite E3. unfold bdata, gets. unfold NINDIRECT.
  by rewrite (proj2 (Z.leb_le _ _)) by lia.
Qed.

End bmap.
