(* ===== verification/FsRw.v ===== *)
(** * FsRw: readi and writei on the bytes of a file

    [fbyte V a i] is byte [i] of the file with addresses [a]; holes are zero.
    readi returns the bytes of the range asked for, cut at the file's size, if
    the range is mapped, changing nothing; writei sets the bytes of its range
    and no other, maps the range, extends the size, and keeps the invariant of
    the file system; so what writei wrote readi returns.  The bounds say how
    much a transaction can hold: a block in the direct range adds at most 3
    blocks to the log, one in the single, double and triple indirect ranges at
    most 6, 9 and 12. *)

From Stdlib Require Import ZArith Lia Bool.
From stdpp Require Import base option list sets gmap strings numbers.
From S2P Require Import Prelude Cstring Locks Bio BioSpec Log Blockdev Fs Dinode FsBlock FsMap.

#[local] Open Scope string_scope.
#[local] Open Scope list_scope.
#[local] Open Scope Z_scope.

Definition fbyte (V : Z → block) (a : list Z) (i : Z) : Z := bget0 (content V a (i / BSIZE)) (i mod BSIZE).
Definition fbytes (V : Z → block) (a : list Z) (off : Z) (n : nat) : list Z :=
  map (λ i, fbyte V a (off + Z.of_nat i)) (seq 0 n).

Lemma lookup_fbytes V a off n i : (i < n)%nat → fbytes V a off n !! i = Some (fbyte V a (off + Z.of_nat i)).
Proof. intros Hi. unfold fbytes. rewrite list_lookup_fmap, lookup_seq_lt by done. done. Qed.

Lemma length_fbytes V a off n : length (fbytes V a off n) = n.
Proof. unfold fbytes. by rewrite length_fmap, length_seq. Qed.

Lemma fbytes_app V a off n m : fbytes V a off (n + m) = fbytes V a off n ++ fbytes V a (off + Z.of_nat n) m.
Proof.
  apply list_eq. intros i. destruct (decide (i < n)%nat).
  - rewrite lookup_app_l by (by rewrite length_fbytes). rewrite !lookup_fbytes by lia. done.
  - rewrite lookup_app_r by (rewrite length_fbytes; lia). rewrite length_fbytes.
    destruct (decide (i < n + m)%nat).
    + rewrite !lookup_fbytes by lia. do 2 f_equal. lia.
    + rewrite !lookup_ge_None_2 by (rewrite length_fbytes; lia). done.
Qed.

(** A piece of a block that starts at [off mod BSIZE] and stays in it. *)
Lemma slice_fbytes V a off m : 0 ≤ off → 0 ≤ m → off mod BSIZE + m ≤ BSIZE →
  length (content V a (off / BSIZE)) = 512%nat →
  slice (content V a (off / BSIZE)) (Z.to_nat (off mod BSIZE)) (Z.to_nat m) = fbytes V a off (Z.to_nat m).
Proof.
  intros Ho Hm Hb Hl. pose proof (Z.mod_pos_bound off BSIZE ltac:(done)) as Hmod. unfold BSIZE in *.
  apply list_eq. intros i. unfold slice. rewrite lookup_take. case_decide as Hi.
  - rewrite lookup_drop, lookup_fbytes by done. unfold fbyte, bget0, BSIZE.
    replace ((off + Z.of_nat i) / 512) with (off / 512) by divmod_lia.
    replace (Z.to_nat ((off + Z.of_nat i) mod 512)) with (Z.to_nat (off mod 512) + i)%nat by divmod_lia.
    destruct (lookup_lt_is_Some_2 (content V a (off / 512)) (Z.to_nat (off mod 512) + i)) as [x Hx]; [lia|].
    by rewrite Hx.
  - by rewrite lookup_ge_None_2 by (rewrite length_fbytes; lia).
Qed.

Section rw.
Context {S : Type} {BD : BlockDev S} {BL : BlockDevLaws S}.
#[local] Notation fs := (fsst S).
#[local] Notation V s := (bd_view (bd s)).
#[local] Notation addrs ip s := (i_addrs (ip_of ip s)).

(** Every block of the file's range [off, off + n) is mapped. *)
Definition mapped (V0 : Z → block) (a : list Z) (off n : Z) : Prop :=
  ∀ i, off ≤ i < off + n → node_addr V0 a (leaf (i / BSIZE)) ≠ 0.

Lemma content_len g H L ip s bn : fsok g H L ip s → length (content (V s) (addrs ip s) bn) = 512%nat.
Proof. intros O. unfold content. case_match; [reflexivity | by eapply fsok_len]. Qed.

Lemma same_fsok g H L ip s t : fsok g H L ip s → bd_inv g H L t → (∀ c, bd_view t c = V s c) →
  fsok g H L ip (set_bd t s) ∧
  (∀ q, valid_node q → node_addr (bd_view t) (addrs ip s) q = node_addr (V s) (addrs ip s) q) ∧
  (∀ bn, 0 ≤ bn < MAPPED → content (bd_view t) (addrs ip s) bn = content (V s) (addrs ip s) bn).
Proof.
  intros O I Vt. assert (nfree (sb s) (V s) 0) as N0.
  { exists []. split; [apply NoDup_nil_2|]. split; [done|]. intros b Hb. by apply elem_of_nil in Hb. }
  destruct (extended_same g H L ip s 0 0 t O N0 I Vt) as [X1 X2 X3 _ _].
  split; [exact X1|]. split; [apply node_ext; auto | apply (gr_content _ _ _ _ _ _ X3)].
Qed.

(** ** readi *)

(** One block of the file is read. *)
Lemma f_read_block {A} g H L ip bn (k : block → M fs A) Q s :
  fsok g H L ip s → 0 ≤ bn < MAPPED → node_addr (V s) (addrs ip s) (leaf bn) ≠ 0 →
  (size H + length L < NBUF)%nat →
  (∀ t, bd_inv g H L t → (∀ c, bd_view t c = V s c) →
     wp (k (content (V s) (addrs ip s) bn)) Q (set_bd t s)) →
  wp (x ← gets (ip_of ip); addr ← bmap ip bn; bp ← blk (bd_bread (i_dev x) addr);
      d ← bdata bp; blk (bd_brelse bp);; k d) Q s.
Proof.
  intros O Hbn Hn Hr HQ. wp_step. wp_step. apply wp_bind. eapply f_bmap_mapped; [exact O | done | done | done |].
  intros t1 I1 V1. apply wp_bind. rewrite (ok_dev _ _ _ _ _ O).
  destruct (valid_leaf bn Hbn) as [Hv _].
  destruct (fo_ok _ _ _ _ (ok_file _ _ _ _ _ O) _ Hv Hn) as (_ & Hh & _).
  eapply (f_bread _ _ _ _ _ (set_bd t1 s)); [exact I1 | by apply (ok_free _ _ _ _ _ O) | exact Hh | by left |].
  intros i t2 I2 Hi V2. apply wp_bind. eapply f_bdata; [exact I2 | apply lookup_insert_eq |]. simpl.
  apply wp_bind. eapply f_brelse; [exact I2 | exact Hi |]. intros t3 I3 V3. simpl in V2, V3.
  rewrite V2, V1. specialize (HQ t3 I3 ltac:(intros c; by rewrite V3, V2)).
  unfold content in HQ. by rewrite (proj2 (Z.eqb_neq _ _)) in HQ by done.
Qed.

Lemma f_readi_loop g H L ip n fuel (Q : list Z → fs → Prop) s off tot dst :
  fsok g H L ip s → (size H + length L < NBUF)%nat → 0 ≤ off → 0 ≤ tot ≤ n →
  n - tot ≤ Z.of_nat fuel → off + (n - tot) ≤ BSIZE * MAPPED →
  mapped (V s) (addrs ip s) off (n - tot) →
  (∀ t, bd_inv g H L t → (∀ c, bd_view t c = V s c) →
     Q (dst ++ fbytes (V s) (addrs ip s) off (Z.to_nat (n - tot))) (set_bd t s)) →
  wp (readi_loop fuel ip off n tot dst) Q s.
Proof.
  revert s off tot dst. induction fuel as [|fuel IH]; intros s off tot dst O Hr Ho Ht Hf Hmax Hmap HQ;
    cbn [readi_loop]; (destruct (Z.ltb_spec tot n) as [Hlt|Hge]; [|
      apply wp_ret; replace (n - tot) with 0 in HQ by lia; specialize (HQ (bd s) (ok_bd _ _ _ _ _ O) (λ _, eq_refl));
      simpl in HQ; rewrite app_nil_r in HQ; by destruct s]).
  - lia.
  - set (m := Z.min (n - tot) (BSIZE - off mod BSIZE)).
    pose proof (Z.mod_pos_bound off BSIZE ltac:(done)) as Hmod.
    assert (0 ≤ off / BSIZE < MAPPED) as Hbn.
    { split; [apply Z.div_pos; [lia|done]|]. apply Z.div_lt_upper_bound; [done|lia]. }
    eapply (f_read_block _ _ _ _ _ (λ d, readi_loop fuel ip (off + m) n (tot + m)
      (dst ++ slice d (Z.to_nat (off mod BSIZE)) (Z.to_nat m))));
      [exact O | exact Hbn | apply Hmap; lia | exact Hr |].
    intros t It Vt. destruct (same_fsok _ _ _ _ _ _ O It Vt) as (O' & Hnd & Hct).
    assert (0 < m ≤ n - tot ∧ off mod BSIZE + m ≤ BSIZE) as [Hm Hmb] by (unfold m; lia).
    rewrite slice_fbytes by (lia || by eapply content_len).
    apply (IH (set_bd t s)); try assumption; try lia.
    + intros i Hi. change (addrs ip (set_bd t s)) with (addrs ip s). simpl.
      rewrite Hnd; [apply Hmap; lia|]. apply valid_leaf. unfold BSIZE in *. divmod_lia.
    + intros t' It' Vt'. simpl in Vt'. change (addrs ip (set_bd t s)) with (addrs ip s).
      assert (∀ k, (k ≤ Z.to_nat (n - (tot + m)))%nat →
        fbytes (V (set_bd t s)) (addrs ip s) (off + m) k = fbytes (V s) (addrs ip s) (off + m) k) as Ef.
      { intros k Hk. apply list_eq. intros i. destruct (decide (i < k)%nat) as [Hi|Hi].
        - rewrite !lookup_fbytes by done. f_equal. unfold fbyte. simpl. rewrite Hct; [done|].
          split; [apply Z.div_pos; [lia|done]|]. apply Z.div_lt_upper_bound; [done|lia].
        - rewrite !lookup_ge_None_2 by (rewrite length_fbytes; lia). done. }
      rewrite Ef by done. rewrite <- app_assoc.
      replace (off + m) with (off + Z.of_nat (Z.to_nat m)) by lia. rewrite <- fbytes_app.
      replace (Z.to_nat m + Z.to_nat (n - (tot + m)))%nat with (Z.to_nat (n - tot)) by lia.
      apply (HQ t'); [done|]. intros c. by rewrite Vt'.
Qed.

(** ** writei *)

(** From [s] to [s'] the file's contents become [D]; blocks were added to it,
    [k] of all blocks written at most, and nothing outside it changed but the
    free map. *)
Record updated (g : bdgeo) (H : held) (L : list Z) (ip : nat) (s : fs) (D : Z → block) (k n : nat)
    (L' : list Z) (s' : fs) : Prop := {
  up_ok : fsok g H L' ip s';
  up_moved : moved ip s s';
  up_content : ∀ bn, 0 ≤ bn < MAPPED → content (V s') (addrs ip s') bn = D bn;
  up_keep : ∀ q, valid_node q → node_addr (V s) (addrs ip s) q ≠ 0 →
    node_addr (V s') (addrs ip s') q = node_addr (V s) (addrs ip s) q;
  up_new : ∀ q, valid_node q → node_addr (V s') (addrs ip s') q ≠ 0 →
    node_addr (V s') (addrs ip s') q = node_addr (V s) (addrs ip s) q ∨
    used (sb s) (V s) (node_addr (V s') (addrs ip s') q) = false;
  up_used : ∀ c, 0 ≤ c < sb_size (sb s) → used (sb s) (V s) c = true → used (sb s) (V s') c = true;
  up_frame : ∀ c, 0 ≤ c < sb_size (sb s) → used (sb s) (V s) c = true → no_map (sb s) c →
    (∀ q, valid_node q → node_addr (V s) (addrs ip s) q ≠ c) → V s' c = V s c;
  up_log : (length L' ≤ length L + k)%nat;
  up_nfree : nfree (sb s) (V s') n
}.

Lemma updated_refl g H L ip s k n : fsok g H L ip s → nfree (sb s) (V s) n →
  updated g H L ip s (content (V s) (addrs ip s)) k n L s.
Proof. intros O Hn. split; auto; [apply moved_refl | lia]. Qed.

Lemma updated_extended g H L ip s k n L' s' : extended g H L ip s k n L' s' →
  updated g H L ip s (content (V s) (addrs ip s)) k n L' s'.
Proof. intros [X1 X2 [? ? ? ? ? ? ?] X4 X5]. split; assumption. Qed.

Lemma updated_trans g H L ip s D k n L1 s1 D' k' n' L2 s2 :
  updated g H L ip s D k n L1 s1 → updated g H L1 ip s1 D' k' n' L2 s2 →
  updated g H L ip s D' (k + k') n' L2 s2.
Proof.
  intros [A1 A2 A3 A4 A5 A6 A7 A8 A9] [B1 B2 B3 B4 B5 B6 B7 B8 B9].
  pose proof (mv_sb _ _ _ A2) as Esb. rewrite Esb in *. split.
  - exact B1.
  - by eapply moved_trans.
  - exact B3.
  - intros q Hq Hn. rewrite B4; [by apply A4 | done | by rewrite A4].
  - intros q Hq Hn. destruct (B5 q Hq Hn) as [E|E].
    + rewrite E in Hn |- *. by apply A5.
    + right. destruct (used (sb s) (V s) (node_addr (V s2) (addrs ip s2) q)) eqn:Eu; [|done].
      destruct (fo_ok _ _ _ _ (ok_file _ _ _ _ _ B1) q Hq Hn) as (Hr & _).
      rewrite (mv_sb _ _ _ B2), Esb in Hr. apply A6 in Eu; [congruence | done].
  - auto.
  - intros c Hc Hu Hm Hno. rewrite B7; [by apply A7 | done | by apply A6 | done |].
    intros q Hq E. destruct (decide (node_addr (V s1) (addrs ip s1) q = 0)) as [E0|E0].
    + destruct (decide (node_addr (V s) (addrs ip s) q = 0)) as [Ez|Ez]; [apply (Hno q Hq); congruence|].
      rewrite (A4 q Hq Ez) in E0. done.
    + destruct (A5 q Hq E0) as [E'|E']; [apply (Hno q Hq); congruence | congruence].
  - lia.
  - exact B9.
Qed.

(** A store that leaves the free map and the nodes of the file alone. *)
Lemma fsok_frame g H L ip s L' t : fsok g H L ip s → bd_inv g H L' t →
  (∀ c, 0 ≤ c < sb_size (sb s) → bd_view t (BBLOCK c (sb s)) = V s (BBLOCK c (sb s))) →
  (∀ q, valid_node q → node_addr (bd_view t) (addrs ip s) q = node_addr (V s) (addrs ip s) q) →
  fsok g H L' ip (set_bd t s).
Proof.
  intros [O1 O2 O3 O4 O5 O6 O7] It Hmapb Hnd.
  assert (∀ c, 0 ≤ c < sb_size (sb s) → used (sb s) (bd_view t) c = used (sb s) (V s) c) as Hus
    by (intros c Hc; apply used_ext; auto).
  split; simpl; try done.
  - eapply layout_ext; [exact Hmapb | exact O2].
  - intros i b m Hi. destruct (O3 _ _ _ Hi) as (? & ? & ?). split_and!; try lia; [|done]. by rewrite Hus.
  - destruct O4 as [F1 F2 F3]. split; [done| |].
    + intros p Hp. change (addrs ip (set_bd t s)) with (addrs ip s). rewrite Hnd by done. intros Hp0.
      destruct (F2 p Hp Hp0) as (? & ? & ? & ?). split; [done|]. split; [done|]. rewrite Hus; done.
    + intros p q Hp Hq. change (addrs ip (set_bd t s)) with (addrs ip s). rewrite !Hnd by done. auto.
  - intros p Hp. change (addrs ip (set_bd t s)) with (addrs ip s). rewrite Hnd by done. by apply O5.
Qed.

(** Storing [d] into the block of a mapped leaf. *)
Lemma updated_store g H L ip s bn d L' t n :
  fsok g H L ip s → 0 ≤ bn < MAPPED → node_addr (V s) (addrs ip s) (leaf bn) ≠ 0 →
  length d = 512%nat → bd_inv g H L' t → (length L' ≤ length L + 1)%nat →
  (∀ c, bd_view t c = if decide (c = node_addr (V s) (addrs ip s) (leaf bn)) then d else V s c) →
  nfree (sb s) (V s) n →
  updated g H L ip s (λ bn', if decide (bn' = bn) then d else content (V s) (addrs ip s) bn') 1 n L' (set_bd t s).
Proof.
  intros O Hbn Hn Hd It HL Vt Hnf. set (A := node_addr (V s) (addrs ip s) (leaf bn)) in *.
  destruct (valid_leaf bn Hbn) as [Hv _]. pose proof O as [O1 O2 O3 O4 O5 O6 O7].
  destruct (fo_ok _ _ _ _ O4 _ Hv Hn) as (Hr & Hh & Hu & Hm).
  assert (∀ q, valid_node q → node_addr (bd_view t) (addrs ip s) q = node_addr (V s) (addrs ip s) q) as Hnd.
  { apply node_ext. intros p j Hvc Hp. rewrite Vt, decide_False; [done|]. intros E.
    apply (leaf_not_parent bn p j Hbn Hvc). symmetry. eapply (fo_inj _ _ _ _ O4); try done.
    by apply valid_parent in Hvc as [? _]. }
  assert (∀ c, 0 ≤ c < sb_size (sb s) → bd_view t (BBLOCK c (sb s)) = V s (BBLOCK c (sb s))) as Hmapb.
  { intros c Hc. rewrite Vt, decide_False; [done|]. by apply Hm. }
  assert (∀ c, 0 ≤ c < sb_size (sb s) → used (sb s) (bd_view t) c = used (sb s) (V s) c) as Hus
    by (intros c Hc; apply used_ext; auto).
  split; simpl; try done.
  - by eapply fsok_frame.
  - apply moved_bd.
  - intros bn' Hbn'. change (addrs ip (set_bd t s)) with (addrs ip s).
    destruct (valid_leaf bn' Hbn') as [Hv' _]. unfold content. rewrite Hnd by done. case_decide as E.
    + subst bn'. fold A. rewrite (proj2 (Z.eqb_neq _ _)) by done. by rewrite Vt, decide_True.
    + destruct (Z.eqb_spec (node_addr (V s) (addrs ip s) (leaf bn')) 0) as [E0|E0]; [done|].
      rewrite Vt, decide_False; [done|]. intros EA. apply E. apply leaf_inj; [done..|].
      by eapply (fo_inj _ _ _ _ O4).
  - intros q Hq _. by apply Hnd.
  - intros q Hq _. left. by apply Hnd.
  - intros c Hc. by rewrite Hus.
  - intros c Hc Hcu Hcm Hno. rewrite Vt, decide_False; [done|]. intros ->. by apply (Hno (leaf bn)).
  - destruct Hnf as (l & ? & ? & Hl). exists l. split; [done|]. split; [done|]. intros b Hb.
    destruct (Hl b Hb) as [? ?]. split; [done|]. rewrite Hus; done.
Qed.

Lemma f_write_block {A} g H L ip bn (F : block → block) n (k : M fs A) Q s :
  fsok g H L ip s → 0 ≤ bn < MAPPED → g_tx g = true → budget g H L (2 + bmap_cost bn) →
  nfree (sb s) (V s) (4 + n) → (∀ d, length d = 512%nat → length (F d) = 512%nat) →
  (∀ s' L', updated g H L ip s (λ bn', if decide (bn' = bn) then F (content (V s) (addrs ip s) bn)
       else content (V s) (addrs ip s) bn') (bmap_cost bn + 1) n L' s' →
     node_addr (V s') (addrs ip s') (leaf bn) ≠ 0 → wp k Q s') →
  wp (x ← gets (ip_of ip); addr ← bmap ip bn; bp ← blk (bd_bread (i_dev x) addr);
      d ← bdata bp; blk (bd_set bp (F d));; blk (bd_log_write bp);; blk (bd_brelse bp);; k) Q s.
Proof.
  intros O Hbn Htx Hbud Hnf HF HQ. wp_step. wp_step. rewrite (ok_dev _ _ _ _ _ O). apply wp_bind.
  eapply (f_bmap _ _ _ _ _ n); [exact O | exact Hbn | exact Htx | eapply budget_mono; [exact Hbud | lia] | exact Hnf |].
  intros s1 L1 X1 Hn1. pose proof (ex_ok _ _ _ _ _ _ _ _ _ X1) as O1. pose proof (ex_grown _ _ _ _ _ _ _ _ _ X1) as G1.
  destruct (valid_leaf bn Hbn) as [Hv _].
  destruct (fo_ok _ _ _ _ (ok_file _ _ _ _ _ O1) _ Hv Hn1) as (_ & Hh & _).
  assert (budget g H L1 2) as Hb1 by (eapply extended_grow; [exact X1 | eapply budget_mono; [exact Hbud | lia]]).
  apply wp_bind. eapply f_bread; [apply (ok_bd _ _ _ _ _ O1) | by apply (ok_free _ _ _ _ _ O1) | exact Hh | left; by eapply budget_bread |].
  intros i t2 I2 Hi V2. apply wp_bind. eapply f_bdata; [exact I2 | apply lookup_insert_eq |]. simpl. rewrite V2.
  assert (V s1 (node_addr (V s1) (addrs ip s1) (leaf bn)) = content (V s) (addrs ip s) bn) as Ec.
  { rewrite <- (gr_content _ _ _ _ _ _ G1) by done. unfold content. by rewrite (proj2 (Z.eqb_neq _ _)). }
  eapply f_update; [exact I2 | exact Hi | exact Hh | exact Htx | by eapply budget_log | apply HF; by eapply fsok_len |].
  intros t3 I3 V3. rewrite Ec in V3. simpl in V3.
  pose proof (updated_store g H L1 ip s1 bn (F (content (V s) (addrs ip s) bn))
    (pinned (node_addr (V s1) (addrs ip s1) (leaf bn)) L1) t3 n O1 Hbn Hn1) as U.
  specialize (U ltac:(apply HF; by eapply content_len) I3 ltac:(pose proof (pinned_length (node_addr (V s1) (addrs ip s1) (leaf bn)) L1); lia)).
  specialize (U ltac:(intros c; rewrite V3; case_decide; [done | apply V2])).
  rewrite (mv_sb _ _ _ (ex_moved _ _ _ _ _ _ _ _ _ X1)) in U. specialize (U (ex_nfree _ _ _ _ _ _ _ _ _ X1)).
  pose proof (updated_trans _ _ _ _ _ _ _ _ _ _ _ _ _ _ _ (updated_extended _ _ _ _ _ _ _ _ _ X1) U) as U2.
  apply (HQ (set_bd t3 s1) (pinned (node_addr (V s1) (addrs ip s1) (leaf bn)) L1)).
  - destruct U2 as [? ? U2c ? ? ? ? ? ?]. split; try assumption. intros bn' Hbn'. rewrite U2c by done.
    case_decide; [done|]. by apply (gr_content _ _ _ _ _ _ G1).
  - rewrite (up_keep _ _ _ _ _ _ _ _ _ _ U); done.
Qed.

(** The bytes of the contents [D]. *)
Definition byte_at (D : Z → block) (i : Z) : Z := bget0 (D (i / BSIZE)) (i mod BSIZE).

Lemma byte_at_splice (D : Z → block) off bs i :
  0 ≤ off → 0 ≤ i → off mod BSIZE + Z.of_nat (length bs) ≤ BSIZE → length (D (off / BSIZE)) = 512%nat →
  byte_at (λ bn, if decide (bn = off / BSIZE) then splice (D (off / BSIZE)) (Z.to_nat (off mod BSIZE)) bs else D bn) i =
  if decide (off ≤ i < off + Z.of_nat (length bs)) then bget0 bs (i - off) else byte_at D i.
Proof.
  intros Ho Hi Hb Hd. unfold byte_at. unfold BSIZE in *.
  pose proof (Z.mod_pos_bound off 512 ltac:(lia)). pose proof (Z.mod_pos_bound i 512 ltac:(lia)).
  destruct (decide (i / 512 = off / 512)) as [E|E].
  - rewrite bget0_splice by (rewrite ?Hd; lia). rewrite E.
    replace (i mod 512) with (off mod 512 + (i - off)) by divmod_lia.
    repeat case_decide; try lia; try (f_equal; lia); done.
  - rewrite (decide_False (P := off ≤ i < off + Z.of_nat (length bs))); [done|]. divmod_lia.
Qed.

Lemma length_slice {A} (l : list A) o m : (o + m ≤ length l)%nat → length (slice l o m) = m.
Proof. intros. unfold slice. rewrite length_take, length_drop. lia. Qed.

Lemma bget0_slice (l : list Z) o m i : 0 ≤ i < Z.of_nat m → bget0 (slice l o m) i = bget0 l (Z.of_nat o + i).
Proof.
  intros Hi. unfold bget0, slice. rewrite lookup_take_lt by lia. rewrite lookup_drop.
  do 2 f_equal. lia.
Qed.

Lemma updated_weaken g H L ip s D k n L' s' k' : updated g H L ip s D k n L' s' → (k ≤ k')%nat →
  updated g H L ip s D k' n L' s'.
Proof. intros [? ? ? ? ? ? ? ? ?] Hk. split; try assumption. lia. Qed.

Lemma byte_in_file i : 0 ≤ i < BSIZE * MAPPED → 0 ≤ i / BSIZE < MAPPED.
Proof. unfold BSIZE. intros. divmod_lia. Qed.

Lemma updated_byte g H L ip s D k n L' s' i : updated g H L ip s D k n L' s' → 0 ≤ i < BSIZE * MAPPED →
  fbyte (V s') (addrs ip s') i = byte_at D i.
Proof. intros U Hi. unfold fbyte, byte_at. by rewrite (up_content _ _ _ _ _ _ _ _ _ _ U) by by apply byte_in_file. Qed.

Lemma f_writei_loop N K fuel g H ip n src nf (Q : Z → fs → Prop) : ∀ s L off tot,
  fsok g H L ip s → g_tx g = true → 0 ≤ off → 0 ≤ tot ≤ n → n ≤ Z.of_nat (length src) →
  n - tot ≤ Z.of_nat fuel → off + (n - tot) ≤ BSIZE * MAPPED →
  (tot < n → off + (n - tot) ≤ BSIZE * (off / BSIZE + Z.of_nat N)) →
  (∀ bn, BSIZE * bn < off + (n - tot) → (bmap_cost bn ≤ K)%nat) →
  budget g H L (1 + (K + 1) * N) → nfree (sb s) (V s) (4 * N + nf) →
  (∀ s' L' D, updated g H L ip s D ((K + 1) * N) nf L' s' →
     (∀ i, 0 ≤ i < BSIZE * MAPPED → byte_at D i =
        if decide (off ≤ i < off + (n - tot)) then bget0 src (tot + (i - off)) else fbyte (V s) (addrs ip s) i) →
     mapped (V s') (addrs ip s') off (n - tot) → Q (off + (n - tot)) s') →
  wp (writei_loop fuel ip src off n tot) Q s.
Proof.
  revert fuel. induction N as [|N IH]; intros fuel s L off tot O Htx Ho Ht Hsrc Hf Hmax HN HK Hbud Hnf HQ;
    (destruct (Z.ltb_spec tot n) as [Hlt|Hge]; [|
      assert (wp (mret off) Q s) as Hw by (apply wp_ret; replace off with (off + (n - tot)) by lia;
        apply (HQ s L (content (V s) (addrs ip s)));
        [eapply updated_refl; [exact O | eapply nfree_le; [exact Hnf | lia]]
        | intros i Hi; rewrite decide_False by lia; done
        | intros i Hi; lia]);
      destruct fuel; cbn [writei_loop]; rewrite (proj2 (Z.ltb_ge tot n)) by lia; exact Hw]).
  - specialize (HN Hlt). unfold BSIZE in *. divmod_lia.
  - destruct fuel as [|fuel]; [lia|]. cbn [writei_loop]. rewrite (proj2 (Z.ltb_lt tot n)) by lia.
    set (m := Z.min (n - tot) (BSIZE - off mod BSIZE)). cbv zeta. specialize (HN Hlt).
    pose proof (Z.mod_pos_bound off BSIZE ltac:(done)) as Hmod.
    assert (0 < m ≤ n - tot ∧ off mod BSIZE + m ≤ BSIZE) as [Hm Hmb] by (unfold m; lia).
    assert (0 ≤ off / BSIZE < MAPPED) as Hbn by (apply byte_in_file; lia).
    assert (length (slice src (Z.to_nat tot) (Z.to_nat m)) = Z.to_nat m) as Hsl by (apply length_slice; lia).
    assert (bmap_cost (off / BSIZE) ≤ K)%nat as Hc by (apply HK; unfold BSIZE in *; divmod_lia).
    eapply (f_write_block _ _ _ _ _ (λ d, splice d (Z.to_nat (off mod BSIZE)) (slice src (Z.to_nat tot) (Z.to_nat m))) (4 * N + nf));
      [exact O | exact Hbn | exact Htx | eapply budget_mono; [exact Hbud | lia]
      | replace (4 + (4 * N + nf))%nat with (4 * Datatypes.S N + nf)%nat by lia; exact Hnf
      | intros d Hd; rewrite length_splice; [exact Hd | rewrite Hsl, Hd; unfold BSIZE in *; lia] |].
    intros s1 L1 U1 Hn1. pose proof (up_ok _ _ _ _ _ _ _ _ _ _ U1) as O1.
    pose proof (mv_sb _ _ _ (up_moved _ _ _ _ _ _ _ _ _ _ U1)) as Esb.
    eapply (IH fuel s1 L1 (off + m) (tot + m)); try assumption; try lia.
    + intros Hlt2. unfold m in *. unfold BSIZE in *. divmod_lia.
    + intros bn Hb. apply HK. lia.
    + eapply budget_grow; [|apply (up_log _ _ _ _ _ _ _ _ _ _ U1)]. eapply budget_mono; [exact Hbud | lia].
    + rewrite Esb. apply (up_nfree _ _ _ _ _ _ _ _ _ _ U1).
    + intros s2 L2 D U2 HD Hmap2. replace (off + (n - tot)) with (off + m + (n - (tot + m))) in HQ by lia.
      apply (HQ s2 L2 D).
      * eapply updated_weaken; [eapply updated_trans; [exact U1 | exact U2] | lia].
      * intros i Hi. rewrite HD by done. rewrite (updated_byte _ _ _ _ _ _ _ _ _ _ _ U1) by done.
        rewrite (byte_at_splice (content (V s) (addrs ip s))) by (rewrite ?Hsl; lia || by eapply content_len).
        rewrite Hsl. repeat case_decide; try lia; try done; [f_equal; lia|].
        rewrite bget0_slice by lia. f_equal. lia.
      * intros i Hi. destruct (decide (i < off + m)).
        -- replace (i / BSIZE) with (off / BSIZE) by (unfold BSIZE in *; divmod_lia).
           rewrite (up_keep _ _ _ _ _ _ _ _ _ _ U2); [exact Hn1 | by apply valid_leaf | exact Hn1].
        -- apply Hmap2. lia.
Qed.

(** ** iupdate *)

Definition iblock (ip : nat) (s : fs) : Z := IBLOCK (i_inum (ip_of ip s)) (sb s).

(** The block of inode [ip] is a block of the inode area: in use, not of the
    free map, not of the file, and held by no one. *)
Record inode_ok (g : bdgeo) (H : held) (ip : nat) (s : fs) : Prop := {
  io_range : 0 ≤ iblock ip s < sb_size (sb s);
  io_home : home g (iblock ip s);
  io_used : used (sb s) (V s) (iblock ip s) = true;
  io_map : no_map (sb s) (iblock ip s);
  io_node : ∀ q, valid_node q → node_addr (V s) (addrs ip s) q ≠ iblock ip s;
  io_free : not_held H (iblock ip s)
}.

Lemma moved_iblock ip s s' : moved ip s s' → iblock ip s' = iblock ip s.
Proof. intros M. unfold iblock. rewrite (mv_ip _ _ _ M), (mv_sb _ _ _ M). done. Qed.

Lemma updated_inode g H L ip s D k n L' s' : updated g H L ip s D k n L' s' → inode_ok g H ip s →
  inode_ok g H ip s' ∧ V s' (iblock ip s') = V s (iblock ip s).
Proof.
  intros U [I1 I2 I3 I4 I5 I6]. pose proof (up_moved _ _ _ _ _ _ _ _ _ _ U) as Mv.
  pose proof (moved_iblock _ _ _ Mv) as Eb. pose proof (mv_sb _ _ _ Mv) as Esb.
  split; [|rewrite Eb; by apply (up_frame _ _ _ _ _ _ _ _ _ _ U)].
  split; rewrite ?Eb, ?Esb; try done; [by apply (up_used _ _ _ _ _ _ _ _ _ _ U)|].
  intros q Hq E. destruct (decide (node_addr (V s') (addrs ip s') q = 0)) as [E0|E0].
  - destruct (decide (node_addr (V s) (addrs ip s) q = 0)) as [Ez|Ez]; [apply (I5 q Hq); congruence|].
    by rewrite (up_keep _ _ _ _ _ _ _ _ _ _ U q Hq Ez) in E0.
  - destruct (up_new _ _ _ _ _ _ _ _ _ _ U q Hq E0) as [E'|E']; [apply (I5 q Hq); congruence | congruence].
Qed.

(** iupdate stores the fields of the inode in its block and keeps the file. *)
Lemma f_iupdate g H L ip (Q : unit → fs → Prop) s :
  fsok g H L ip s → inode_ok g H ip s → g_tx g = true → budget g H L 2 →
  (∀ t, fsok g H (pinned (iblock ip s) L) ip (set_bd t s) →
     (∀ c, bd_view t c = if decide (c = iblock ip s)
        then put_dinode (V s (iblock ip s)) (dinode_off (i_inum (ip_of ip s))) (ip_of ip s) else V s c) →
     (∀ q, valid_node q → node_addr (bd_view t) (addrs ip s) q = node_addr (V s) (addrs ip s) q) →
     (∀ bn, 0 ≤ bn < MAPPED → content (bd_view t) (addrs ip s) bn = content (V s) (addrs ip s) bn) →
     Q tt (set_bd t s)) →
  wp (iupdate ip) Q s.
Proof.
  intros O [I1 I2 I3 I4 I5 I6] Htx Hbud HQ. unfold iupdate. wp_step. wp_step. wp_step. wp_step.
  rewrite (ok_dev _ _ _ _ _ O). fold (iblock ip s). apply wp_bind.
  eapply f_bread; [apply (ok_bd _ _ _ _ _ O) | exact I6 | exact I2 | left; by eapply budget_bread |].
  intros i t2 It2 Hi V2. apply wp_bind. eapply f_bdata; [exact It2 | apply lookup_insert_eq |]. simpl. rewrite V2.
  eapply f_update_end; [exact It2 | exact Hi | exact I2 | exact Htx | by eapply budget_log | |].
  { apply length_put_dinode; [apply dinode_off_range | by eapply fsok_len | apply (fo_len _ _ _ _ (ok_file _ _ _ _ _ O))]. }
  intros t3 I3' V3. simpl in V3.
  assert (∀ c, bd_view t3 c = if decide (c = iblock ip s)
        then put_dinode (V s (iblock ip s)) (dinode_off (i_inum (ip_of ip s))) (ip_of ip s) else V s c) as Vt.
  { intros c. rewrite V3. case_decide; [done | apply V2]. }
  assert (∀ q, valid_node q → node_addr (bd_view t3) (addrs ip s) q = node_addr (V s) (addrs ip s) q) as Hnd.
  { apply node_ext. intros p j Hv Hp. rewrite Vt, decide_False; [done|]. apply I5.
    by eapply valid_parent. }
  change (set_bd t3 (set_bd t2 s)) with (set_bd t3 s). apply HQ; [|exact Vt | exact Hnd |].
  - eapply fsok_frame; [exact O | exact I3' | | exact Hnd]. intros c Hc. rewrite Vt, decide_False; [done|]. by apply I4.
  - intros bn Hbn. unfold content. rewrite Hnd by by apply valid_leaf. case_match; [done|].
    rewrite Vt, decide_False; [done|]. apply I5. by apply valid_leaf.
Qed.

Lemma ip_size ip v (s : fs) : (ip < length (ic s))%nat → ip_of ip (upd_ip ip (set_i_size v) s) = set_i_size v (ip_of ip s).
Proof. apply ip_of_upd_eq. Qed.

Lemma fsok_size g H L ip v s : fsok g H L ip s → fsok g H L ip (upd_ip ip (set_i_size v) s).
Proof.
  intros [O1 O2 O3 O4 O5 O6 O7]. split; rewrite ?ip_size by done; try done.
  unfold upd_ip. simpl. by rewrite length_alter.
Qed.

Lemma inode_size g H ip v (s : fs) : (ip < length (ic s))%nat → inode_ok g H ip s → inode_ok g H ip (upd_ip ip (set_i_size v) s).
Proof.
  intros Hl [I1 I2 I3 I4 I5 I6].
  assert (iblock ip (upd_ip ip (set_i_size v) s) = iblock ip s) as Eb by (unfold iblock; by rewrite ip_size).
  split; rewrite ?Eb; try done. rewrite ip_size by done. done.
Qed.

Lemma inode_frame g H ip s t : inode_ok g H ip s →
  (∀ c, 0 ≤ c < sb_size (sb s) → bd_view t (BBLOCK c (sb s)) = V s (BBLOCK c (sb s))) →
  (∀ q, valid_node q → node_addr (bd_view t) (addrs ip s) q = node_addr (V s) (addrs ip s) q) →
  inode_ok g H ip (set_bd t s).
Proof.
  intros [I1 I2 I3 I4 I5 I6] Hm Hnd. split; try done.
  - rewrite <- I3. by apply used_ext; auto.
  - intros q Hq. change (addrs ip (set_bd t s)) with (addrs ip s). simpl. rewrite Hnd by done. by apply I5.
Qed.

(** What writei(ip, src, off, n) does: the bytes of the range are those of
    [src] and no other byte of the file changed, the range is mapped, the size
    covers it, and the dinode on disk is stored anew only if the size grew. *)
Record written (g : bdgeo) (H : held) (ip : nat) (src : list Z) (off n : Z) (s s' : fs) : Prop := {
  wr_ok : ∃ L, fsok g H L ip s' ∧ (size H + length L < NBUF)%nat;
  wr_inode : inode_ok g H ip s';
  wr_size : i_size (ip_of ip s') = if 0 <? n then Z.max (i_size (ip_of ip s)) (off + n) else i_size (ip_of ip s);
  wr_type : i_type (ip_of ip s') = i_type (ip_of ip s);
  wr_bytes : ∀ i, 0 ≤ i < BSIZE * MAPPED → fbyte (V s') (addrs ip s') i =
    if decide (off ≤ i < off + n) then bget0 src (i - off) else fbyte (V s) (addrs ip s) i;
  wr_mapped : mapped (V s') (addrs ip s') off n;
  wr_dinode : V s' (iblock ip s') =
    if decide (i_size (ip_of ip s') = i_size (ip_of ip s)) then V s (iblock ip s)
    else put_dinode (V s (iblock ip s)) (dinode_off (i_inum (ip_of ip s'))) (ip_of ip s');
  wr_others : ∀ j, j ≠ ip → ip_of j s' = ip_of j s;
  wr_frame : ∀ c, 0 ≤ c < sb_size (sb s) → used (sb s) (V s) c = true → no_map (sb s) c →
    (∀ q, valid_node q → node_addr (V s) (addrs ip s) q ≠ c) → c ≠ iblock ip s → V s' c = V s c
}.

Context (devsw_write : Z → option (nat → list Z → Z → M fs Z)).

Lemma writei_checks off n : 0 ≤ off → 0 ≤ n → off + n ≤ BSIZE * MAPPED →
  (u32 (off + n) <? off) = false ∧ (MAXFILE * BSIZE <? u32 (off + n)) = false.
Proof.
  intros Ho Hn Hmax. change (BSIZE * MAPPED) with 16847872 in *. rewrite u32_id by lia.
  split; apply Z.ltb_ge; [lia|]. etrans; [exact Hmax|]. done.
Qed.

Lemma f_writei N K g H L ip src off n s :
  fsok g H L ip s → inode_ok g H ip s → i_type (ip_of ip s) ≠ T_DEV → g_tx g = true →
  0 ≤ off → 0 ≤ n ≤ Z.of_nat (length src) → off + n ≤ BSIZE * MAPPED →
  off + n ≤ BSIZE * (off / BSIZE + Z.of_nat N) →
  (∀ bn, BSIZE * bn < off + n → (bmap_cost bn ≤ K)%nat) →
  budget g H L (2 + (K + 1) * N) → nfree (sb s) (V s) (4 * N) →
  wp (writei devsw_write ip src off n) (λ r s', r = n ∧ written g H ip src off n s s') s.
Proof.
  intros O I Hty Htx Ho Hn Hmax HN HK Hbud Hnf. unfold writei. wp_step. wp_step.
  rewrite (proj2 (Z.eqb_neq _ _)) by done. destruct (writei_checks off n) as [-> ->]; [lia..|]. apply wp_bind.
  eapply (f_writei_loop N K _ g H ip n src 0); [exact O | exact Htx | lia | lia | lia | lia | lia
    | intros _; rewrite Z.sub_0_r; exact HN | intros bn; rewrite Z.sub_0_r; apply HK
    | eapply budget_mono; [exact Hbud | lia] | rewrite Nat.add_0_r; exact Hnf |].
  rewrite Z.sub_0_r. intros s1 L1 D U HD Hmap. destruct (updated_inode _ _ _ _ _ _ _ _ _ _ U I) as [I1 Vb].
  pose proof (up_moved _ _ _ _ _ _ _ _ _ _ U) as Mv. pose proof (up_ok _ _ _ _ _ _ _ _ _ _ U) as O1.
  assert (budget g H L1 2) as Hb1 by (eapply budget_grow; [|apply (up_log _ _ _ _ _ _ _ _ _ _ U)]; eapply budget_mono; [exact Hbud | lia]).
  assert (i_size (ip_of ip s1) = i_size (ip_of ip s)) as Esz by by rewrite (mv_ip _ _ _ Mv).
  assert (∀ i, 0 ≤ i < BSIZE * MAPPED → fbyte (V s1) (addrs ip s1) i =
    if decide (off ≤ i < off + n) then bget0 src (i - off) else fbyte (V s) (addrs ip s) i) as Hby.
  { intros i Hi. rewrite (updated_byte _ _ _ _ _ _ _ _ _ _ _ U), HD by done. by rewrite Z.add_0_l. }
  wp_step. wp_step. rewrite Esz. apply wp_bind, wp_when; intros Hc.
  - apply andb_true_iff in Hc as [Hn0 Hgr]. apply Z.ltb_lt in Hgr. rewrite <- Esz in Hgr.
    pose proof (ok_ip _ _ _ _ _ O1) as Hip. apply wp_bind, wp_modify. set (s2 := upd_ip ip (set_i_size (off + n)) s1).
    pose proof (ip_size ip (off + n) s1 Hip) as E2. fold s2 in E2.
    assert (iblock ip s2 = iblock ip s1) as Eb2 by (unfold iblock; by rewrite E2).
    eapply f_iupdate; [apply fsok_size, O1 | by apply inode_size | exact Htx | exact Hb1 |].
    fold s2. intros t Ot Vt Hnd Hct. apply wp_ret. split; [done|].
    change (V s2) with (V s1) in *. rewrite E2, Eb2 in Vt. rewrite E2 in Hnd, Hct. simpl in Vt.
    assert (iblock ip s1 = iblock ip s) as Eb1 by by apply moved_iblock.
    split; simpl; change (ip_of ip (set_bd t s2)) with (ip_of ip s2); rewrite ?E2; simpl.
    + exists (pinned (iblock ip s2) L1). split; [exact Ot|]. eapply (budget_bread g H _ 1), budget_pinned, Hb1.
    + apply (inode_frame _ _ _ s2 t); [by apply inode_size | | by rewrite E2].
      intros c Hc. change (V s2) with (V s1). rewrite Vt, decide_False; [done|]. by apply (io_map _ _ _ _ I1).
    + rewrite Hn0. lia.
    + by rewrite (mv_ip _ _ _ Mv).
    + intros i Hi. rewrite <- Hby by done. unfold fbyte. by rewrite Hct by by apply byte_in_file.
    + intros i Hi. rewrite Hnd; [by apply Hmap|]. apply valid_leaf, byte_in_file. lia.
    + rewrite decide_False by lia. change (iblock ip (set_bd t s2)) with (iblock ip s2). rewrite Eb2, Vt, decide_True by done. by rewrite <- Vb.
    + intros j Hj. change (ip_of j (set_bd t s2)) with (ip_of j s2). unfold s2. rewrite ip_of_upd_ne by done. by apply (mv_others _ _ _ Mv).
    + intros c ? ? ? ? Hne. rewrite Vt, decide_False by congruence. by apply (up_frame _ _ _ _ _ _ _ _ _ _ U).
  - apply wp_ret. split; [done|]. split; try done.
    + exists L1. split; [done|]. by eapply budget_bread.
    + rewrite Esz. apply andb_false_iff in Hc. destruct (Z.ltb_spec 0 n), Hc as [Hc|Hc]; try done. apply Z.ltb_ge in Hc. lia.
    + by rewrite (mv_ip _ _ _ Mv).
    + by rewrite decide_True.
    + by apply (mv_others _ _ _ Mv).
    + intros c ? ? ? ? _. by apply (up_frame _ _ _ _ _ _ _ _ _ _ U).
Qed.

(** A range the size type or the block map cannot hold is refused. *)
Lemma f_writei_refuses ip src off n s : i_type (ip_of ip s) ≠ T_DEV →
  u32 (off + n) < off ∨ MAXFILE * BSIZE < u32 (off + n) → writei devsw_write ip src off n s = Ok (-1) s.
Proof.
  intros Hty Hr. unfold writei. unfold mbind, M_bind, gets. rewrite (proj2 (Z.eqb_neq _ _)) by done.
  destruct (Z.ltb_spec (u32 (off + n)) off); [done|]. rewrite (proj2 (Z.ltb_lt _ _)) by lia. done.
Qed.

(** ** Properties *)

(** writei stores bytes and keeps the file system: inside a transaction,
    with free blocks and log space for the [N] blocks of the range, each at
    most [K] allocations deep, writei(ip, src, off, n) returns n; the bytes of
    the range are those of src and no other byte of the file changes; the
    range is mapped, the size grows to cover it, the inode's block holds the
    new inode if the size grew, every other inode and every block in use that
    is not the file's is unchanged, and the invariant of the file system holds
    again. *)
Theorem writei_spec N K g H L ip src off n s :
  fsok g H L ip s → inode_ok g H ip s → i_type (ip_of ip s) ≠ T_DEV → g_tx g = true →
  0 ≤ off → 0 ≤ n ≤ Z.of_nat (length src) → off + n ≤ BSIZE * MAPPED →
  off + n ≤ BSIZE * (off / BSIZE + Z.of_nat N) →
  (∀ bn, BSIZE * bn < off + n → (bmap_cost bn ≤ K)%nat) →
  budget g H L (2 + (K + 1) * N) → nfree (sb s) (V s) (4 * N) →
  wp (writei devsw_write ip src off n) (λ r s', r = n ∧ written g H ip src off n s s') s.
Proof. intros. by eapply (f_writei N K). Qed.

(** A write that only fills a hole is not recorded: where a direct block of
    the range is unmapped and the range ends within the size, writei gives the
    inode in memory a new address, and leaves the inode's block as it was; the
    block allocated is lost when the inode leaves the cache, though the rule at
    iupdate asks for the update after every change of a disk field. *)
Theorem writei_hole_not_recorded g H L ip src off n s :
  fsok g H L ip s → inode_ok g H ip s → i_type (ip_of ip s) ≠ T_DEV → g_tx g = true →
  0 ≤ off → 0 < n ≤ Z.of_nat (length src) → off + n ≤ i_size (ip_of ip s) →
  off / BSIZE < NDIRECT → off + n ≤ BSIZE * (off / BSIZE + 1) →
  node_addr (V s) (addrs ip s) (leaf (off / BSIZE)) = 0 →
  budget g H L 5 → nfree (sb s) (V s) 4 →
  wp (writei devsw_write ip src off n)
    (λ r s', r = n ∧ addrs ip s' ≠ addrs ip s ∧ V s' (iblock ip s') = V s (iblock ip s)) s.
Proof.
  intros O I Hty Htx Ho Hn Hsz Hd HN Hz Hbud Hnf.
  eapply wp_mono; [eapply (f_writei 1 2); try done; try lia|].
  - change (BSIZE * MAPPED) with 16847872. unfold BSIZE, NDIRECT in *. lia.
  - intros bn Hb. unfold bmap_cost. rewrite (proj2 (Z.ltb_lt bn NDIRECT)); [done|]. unfold BSIZE in *. lia.
  - intros r s1 (-> & W). split; [done|]. rewrite (wr_dinode _ _ _ _ _ _ _ _ W).
    rewrite decide_True by (rewrite (wr_size _ _ _ _ _ _ _ _ W), (proj2 (Z.ltb_lt 0 n)); lia). split; [|done].
    intros E. apply (wr_mapped _ _ _ _ _ _ _ _ W off); [lia|]. rewrite E. revert Hz. unfold leaf.
    rewrite (proj2 (Z.ltb_lt _ _)) by done. done.
Qed.

Context (devsw_read : Z → option (nat → Z → M fs (option (list Z)))).

Lemma f_readi g H L ip off n s :
  fsok g H L ip s → (size H + length L < NBUF)%nat → i_type (ip_of ip s) ≠ T_DEV →
  0 ≤ off ≤ i_size (ip_of ip s) → 0 ≤ n → off + n < 2 ^ 32 → i_size (ip_of ip s) ≤ BSIZE * MAPPED →
  mapped (V s) (addrs ip s) off (Z.min n (i_size (ip_of ip s) - off)) →
  wp (readi devsw_read ip off n) (λ r s',
    r = Some (fbytes (V s) (addrs ip s) off (Z.to_nat (Z.min n (i_size (ip_of ip s) - off)))) ∧
    ∃ t, s' = set_bd t s ∧ bd_inv g H L t ∧ ∀ c, bd_view t c = V s c) s.
Proof.
  intros O Hr Hty Ho Hn Hov Hsz Hmap. unfold readi. wp_step. wp_step. rewrite (proj2 (Z.eqb_neq _ _)) by done.
  rewrite u32_id by lia. rewrite (proj2 (Z.ltb_ge _ _)), (proj2 (Z.ltb_ge (off + n) off)) by lia. cbn [orb].
  cbv zeta. apply wp_bind. set (k := Z.min n (i_size (ip_of ip s) - off)) in *.
  replace (if i_size (ip_of ip s) <? off + n then i_size (ip_of ip s) - off else n) with k
    by (unfold k; destruct (Z.ltb_spec (i_size (ip_of ip s)) (off + n)); lia).
  eapply (f_readi_loop g H L ip k); try done; try lia.
  - by rewrite Z.sub_0_r.
  - intros t It Vt. rewrite Z.sub_0_r. apply wp_ret. split; [done|]. by exists t.
Qed.

(** readi is exact on a mapped range: it returns the file's bytes from off
    to off + n, cut at the size, and changes neither a block nor an inode; a
    start beyond the size, or a range that wraps, is refused with -1 and
    nothing is read. *)
Theorem readi_spec g H L ip off n s :
  fsok g H L ip s → (size H + length L < NBUF)%nat → i_type (ip_of ip s) ≠ T_DEV → 0 ≤ off → 0 ≤ n →
  i_size (ip_of ip s) ≤ BSIZE * MAPPED →
  mapped (V s) (addrs ip s) off (Z.min n (i_size (ip_of ip s) - off)) →
  if (i_size (ip_of ip s) <? off) || (u32 (off + n) <? off) then readi devsw_read ip off n s = Ok None s
  else off + n < 2 ^ 32 →
    wp (readi devsw_read ip off n) (λ r s',
      r = Some (fbytes (V s) (addrs ip s) off (Z.to_nat (Z.min n (i_size (ip_of ip s) - off)))) ∧
      ∃ t, s' = set_bd t s ∧ bd_inv g H L t ∧ ∀ c, bd_view t c = V s c) s.
Proof.
  intros O Hr Hty Ho Hn Hsz Hmap. destruct ((i_size (ip_of ip s) <? off) || (u32 (off + n) <? off)) eqn:E.
  - unfold readi, mbind, M_bind, gets. by rewrite (proj2 (Z.eqb_neq _ _)), E by done.
  - intros Hov. apply orb_false_iff in E as [E _]. apply Z.ltb_ge in E. by apply f_readi.
Qed.

(** C2. What writei wrote readi returns: after a writei of n bytes at off, with
    the range in the file's mapped area, readi of the same range gives exactly
    these bytes, and leaves the blocks and the inodes as writei left them. *)
Theorem writei_readi_roundtrip N K g H L ip src off n s :
  fsok g H L ip s → inode_ok g H ip s → i_type (ip_of ip s) ≠ T_DEV → g_tx g = true →
  0 ≤ off → 0 < n ≤ Z.of_nat (length src) → off + n ≤ BSIZE * MAPPED → i_size (ip_of ip s) ≤ BSIZE * MAPPED →
  off + n ≤ BSIZE * (off / BSIZE + Z.of_nat N) →
  (∀ bn, BSIZE * bn < off + n → (bmap_cost bn ≤ K)%nat) →
  budget g H L (2 + (K + 1) * N) → nfree (sb s) (V s) (4 * N) →
  wp (r ← writei devsw_write ip src off n; readi devsw_read ip off n)
    (λ r s'', r = Some (take (Z.to_nat n) src) ∧
       ∃ s', written g H ip src off n s s' ∧ ic s'' = ic s' ∧ ∀ c, V s'' c = V s' c) s.
Proof.
  intros O I Hty Htx Ho Hn Hmax Hsz HN HK Hbud Hnf. apply wp_bind.
  eapply wp_mono; [eapply (f_writei N K); try done; lia|]. intros r s1 (_ & W).
  destruct (wr_ok _ _ _ _ _ _ _ _ W) as (L1 & O1 & Hr1). pose proof (wr_size _ _ _ _ _ _ _ _ W) as Hs1.
  rewrite (proj2 (Z.ltb_lt 0 n)) in Hs1 by lia. change (BSIZE * MAPPED) with 16847872 in *.
  eapply wp_mono; [eapply (f_readi g H L1); try done; [by rewrite (wr_type _ _ _ _ _ _ _ _ W) | (change (BSIZE * MAPPED) with 16847872; lia).. |]|].
  - rewrite Z.min_l by lia. apply (wr_mapped _ _ _ _ _ _ _ _ W).
  - intros r' s2 (-> & t & -> & It & Vt). rewrite Z.min_l by lia. split; [|by exists s1].
    f_equal. apply list_eq. intros i. destruct (decide (i < Z.to_nat n)%nat) as [Hi|Hi].
    + rewrite lookup_fbytes, (wr_bytes _ _ _ _ _ _ _ _ W) by (change (BSIZE * MAPPED) with 16847872; lia).
      rewrite decide_True by lia. replace (off + Z.of_nat i - off) with (Z.of_nat i) by lia.
      rewrite lookup_take_lt by lia. unfold bget0. rewrite Nat2Z.id.
      destruct (lookup_lt_is_Some_2 src i) as [x ->]; [lia|done].
    + rewrite !lookup_ge_None_2 by (rewrite ?length_fbytes, ?length_take; lia). done.
Qed.

End rw.
