(* ===== verification/FsImage.v ===== *)
(** * FsImage: the file system on a small disk

    A disk of 100 blocks laid out as mkfs.c does it (superblock in block 1, a
    log of 30 blocks at 2, the inodes of 200 files at 32, the free map at 58),
    booted, with a transaction open and one empty file locked: the theorems of
    the file system apply to it. *)

From Stdlib Require Import ZArith Lia Bool.
From stdpp Require Import base option list sets gmap strings numbers.
From S2P Require Import Prelude Cstring Locks Bio BioSpec Log Blockdev Fs Dinode FsBlock FsMap FsRw.

#[local] Open Scope string_scope.
#[local] Open Scope list_scope.
#[local] Open Scope Z_scope.

Definition img_sb : superblock := Sb 100 41 200 30 2 32 58.

Definition img_super : block :=
  put32 (put32 (put32 (put32 (put32 (put32 (put32 zero_block 0 100) 4 41) 8 200) 12 30) 16 2) 20 32) 24 58.

(** Blocks 0 to 58 are in use. *)
Definition img_map : block := splice zero_block 0 (replicate 7 255 ++ [7]).

Definition image : disk := Disk 100 {[1 := img_super; 58 := img_map]} [].

Definition img_geo : bdgeo := Bdgeo 100 2 30 true.

(** Inode 5, an empty file of the given size, locked by process 1. *)
Definition img_inode (size : Z) : inode :=
  Inode ROOTDEV 5 1 (Sleeplock true 1) true T_FILE 0 0 1 size (replicate 13 0).

Definition img_fs (size : Z) (t : lst) : fsst lst := Fsst false [img_inode size] img_sb 1 t.

Lemma image_get b : disk_get image b = if decide (b = 1) then img_super else if decide (b = 58) then img_map else zero_block.
Proof.
  unfold disk_get, image. simpl. repeat case_decide; subst; try done.
  by rewrite lookup_insert_ne, lookup_singleton_ne by done.
Qed.

Lemma image_len b : length (disk_get image b) = 512%nat.
Proof. rewrite image_get. repeat case_decide; reflexivity. Qed.

(** The boot of the image, then begin_op. *)
Lemma image_boot : ∃ t, (reboot;; begin_op) (boot_lst image 1) = Ok tt t ∧
  lst_inv img_geo ∅ [] t ∧ ∀ c, c ≠ 2 → view (bc t) c = disk_get image c.
Proof.
  apply (boot_clean image 1 img_geo); try done. apply image_len.
Qed.

Section image.
Context (t : lst) (It : lst_inv img_geo ∅ [] t) (Vt : ∀ c, c ≠ 2 → view (bc t) c = disk_get image c).

Lemma img_bblock b : 0 ≤ b < 100 → BBLOCK b img_sb = 58.
Proof. intros Hb. unfold BBLOCK. simpl. change BPB with 4096. rewrite Z.div_small by lia. done. Qed.

Lemma img_used b : 0 ≤ b < 100 → used img_sb (view (bc t)) b = (b <? 59).
Proof.
  intros Hb. unfold used. rewrite img_bblock by done. rewrite Vt, image_get by done.
  change BPB with 4096. rewrite Z.mod_small by lia. simpl.
  assert (forallb (λ n, eqb (bit_set img_map (Z.of_nat n)) (Z.of_nat n <? 59)) (seq 0 100) = true) as Hall
    by (vm_compute; reflexivity).
  rewrite forallb_forall in Hall. specialize (Hall (Z.to_nat b) ltac:(apply in_seq; lia)).
  rewrite Z2Nat.id in Hall by lia. by apply eqb_prop in Hall.
Qed.

Lemma img_layout : layout img_geo img_sb (view (bc t)).
Proof.
  split; simpl; try lia.
  - intros b Hb. rewrite img_bblock by done. split; [|split; [lia | by rewrite img_used by lia]].
    split; simpl; [lia|]. unfold in_log. lia.
  - by rewrite img_used.
  - intros b Hb Hu. rewrite img_used in Hu by done. apply Z.ltb_ge in Hu.
    split; simpl; [lia|]. unfold in_log. lia.
Qed.

Lemma img_free n : (n ≤ 41)%nat → nfree img_sb (view (bc t)) n.
Proof.
  intros Hn. exists (seqZ 59 (Z.of_nat n)). split; [apply NoDup_seqZ|]. split; [rewrite length_seqZ; lia|].
  intros b Hb. apply elem_of_seqZ in Hb. simpl. split; [lia|]. rewrite img_used by lia. apply Z.ltb_ge. lia.
Qed.

Lemma img_node V p : node_addr V (replicate 13 0) p = 0.
Proof.
  unfold node_addr, bget0. destruct (replicate 13 0 !! Z.to_nat p.1) as [x|] eqn:E; simpl; [|apply walk_zero].
  apply lookup_replicate in E as [-> _]. apply walk_zero.
Qed.

Lemma img_held : held_ok img_sb (view (bc t)) ∅.
Proof. intros i b m Hi. by rewrite lookup_empty in Hi. Qed.

Lemma img_fsok size : fsok img_geo ∅ [] 0 (img_fs size t).
Proof.
  split.
  - exact It.
  - apply img_layout.
  - apply img_held.
  - split; [done|intros p _ Hp|intros p q _ _ Hp]; by rewrite img_node in Hp.
  - intros p _ Hp. by rewrite img_node in Hp.
  - reflexivity.
  - simpl. lia.
Qed.

Lemma img_inode_ok size : inode_ok img_geo ∅ 0 (img_fs size t).
Proof.
  assert (iblock 0 (img_fs size t) = 32) as E by reflexivity. split; rewrite ?E; simpl; try lia.
  - split; simpl; [lia|]. unfold in_log. lia.
  - by rewrite img_used.
  - intros c Hc. simpl in Hc. rewrite img_bblock by done. lia.
  - intros q _. rewrite img_node. lia.
  - apply not_held_empty.
Qed.

Lemma img_budget k : (k < 30)%nat → budget img_geo ∅ [] k.
Proof. intros Hk. unfold budget. rewrite map_size_empty. simpl. lia. Qed.

End image.

(** The theorems of the lower files on the image. *)

#[local] Ltac image_state t It Vt :=
  destruct image_boot as (t & _ & It & Vt).

Lemma balloc_fresh_witness : ∃ (s s' : fsst lst) b, balloc ROOTDEV s = Ok b s' ∧ b ≠ 0.
Proof.
  image_state t It Vt. destruct (balloc_fresh img_geo ∅ [] (img_fs 0 t)) as (b & s' & L' & E & _ & _ & Hb & _).
  - exact It.
  - by apply img_layout.
  - apply img_held.
  - reflexivity.
  - apply img_budget. lia.
  - exists 59. split; [simpl; lia|]. simpl. by rewrite img_used.
  - exists (img_fs 0 t), s', b. split; [exact E | lia].
Defined.

Lemma bfree_spec_witness : ∃ s s' : fsst lst, bfree ROOTDEV 58 s = Ok tt s' ∧ bfree ROOTDEV 70 s = Panic "freeing free block".
Proof.
  image_state t It Vt.
  assert (∀ b, 0 ≤ b < 100 → if used img_sb (view (bc t)) b then
    ∃ s', bfree ROOTDEV b (img_fs 0 t) = Ok tt s' else bfree ROOTDEV b (img_fs 0 t) = Panic "freeing free block") as Hb.
  { intros b Hb. pose proof (bfree_spec img_geo ∅ [] (img_fs 0 t) b It (img_layout t Vt)
      (img_held t) eq_refl (img_budget 1 ltac:(lia)) Hb) as Hs.
    simpl in Hs. destruct (used img_sb (view (bc t)) b); [|exact Hs]. destruct Hs as (s' & E & _). eauto. }
  pose proof (Hb 58 ltac:(lia)) as H1. pose proof (Hb 70 ltac:(lia)) as H2.
  rewrite img_used in H1, H2 by (done || lia). simpl in H1, H2. destruct H1 as [s' H1]. eauto.
Defined.

Lemma bmap_maps_witness : ∃ (s s' : fsst lst) b, bmap 0 300 s = Ok b s' ∧ b ≠ 0.
Proof.
  image_state t It Vt.
  destruct (bmap_maps img_geo ∅ [] 0 300 0 (img_fs 0 t)) as (b & s' & L' & E & _ & Hb & _).
  - by apply img_fsok.
  - split; [lia | reflexivity].
  - reflexivity.
  - apply img_budget. vm_compute. lia.
  - apply img_free; [exact Vt | lia].
  - exists (img_fs 0 t), s', b. split; [exact E | exact Hb].
Defined.

Lemma bmap_triple_out_of_bounds_witness : ∃ s : fsst lst, bmap 0 40000 s = Undef "a[] out of bounds".
Proof.
  image_state t It Vt. exists (img_fs 0 t). apply (bmap_triple_out_of_bounds img_geo ∅ [] 0 40000 0 (img_fs 0 t)).
  - by apply img_fsok.
  - split; [vm_compute; discriminate | vm_compute; reflexivity].
  - reflexivity.
  - apply img_budget. lia.
  - apply img_free; [exact Vt | lia].
Defined.

(** A file without devices. *)
Definition no_read : Z → option (nat → Z → M (fsst lst) (option (list Z))) := λ _, None.
Definition no_write : Z → option (nat → list Z → Z → M (fsst lst) Z) := λ _, None.

Lemma direct_cost bn : BSIZE * bn < 1024 → (bmap_cost bn ≤ 2)%nat.
Proof. intros Hb. unfold bmap_cost. rewrite (proj2 (Z.ltb_lt bn NDIRECT)); [done|]. unfold BSIZE, NDIRECT in *. lia. Qed.

Lemma writei_spec_witness : ∃ s s' : fsst lst, writei no_write 0 [1; 2; 3] 700 3 s = Ok 3 s' ∧ i_size (ip_of 0 s') = 703.
Proof.
  image_state t It Vt.
  pose proof (writei_spec no_write 1 2 img_geo ∅ [] 0 [1; 2; 3] 700 3 (img_fs 0 t)
    (img_fsok t It Vt 0) (img_inode_ok t Vt 0)) as Hw.
  specialize (Hw ltac:(discriminate) eq_refl ltac:(lia) ltac:(simpl; lia) ltac:(vm_compute; discriminate)).
  specialize (Hw ltac:(vm_compute; discriminate) ltac:(intros bn Hb; apply direct_cost; lia)).
  specialize (Hw (img_budget 5 ltac:(lia)) (img_free t Vt 4 ltac:(lia))).
  apply wp_elim in Hw as (r & s' & E & -> & W). exists (img_fs 0 t), s'. split; [exact E|].
  exact (wr_size _ _ _ _ _ _ _ _ W).
Defined.

Lemma writei_readi_roundtrip_witness : ∃ s s' : fsst lst,
  (r ← writei no_write 0 [1; 2; 3] 700 3; readi no_read 0 700 3) s = Ok (Some [1; 2; 3]) s'.
Proof.
  image_state t It Vt.
  pose proof (writei_readi_roundtrip no_write no_read 1 2 img_geo ∅ [] 0 [1; 2; 3] 700 3 (img_fs 0 t)
    (img_fsok t It Vt 0) (img_inode_ok t Vt 0)) as Hw.
  specialize (Hw ltac:(discriminate) eq_refl ltac:(lia) ltac:(simpl; lia) ltac:(vm_compute; discriminate)).
  specialize (Hw ltac:(vm_compute; discriminate) ltac:(vm_compute; discriminate) ltac:(intros bn Hb; apply direct_cost; lia)).
  specialize (Hw (img_budget 5 ltac:(lia)) (img_free t Vt 4 ltac:(lia))).
  apply wp_elim in Hw as (r & s' & E & -> & _). exists (img_fs 0 t), s'. exact E.
Defined.

Lemma readi_spec_witness : ∃ s s' : fsst lst, readi no_read 0 0 10 s = Ok (Some []) s' ∧ readi no_read 0 1 10 s = Ok None s.
Proof.
  image_state t It Vt.
  assert (∀ off, mapped (view (bc t)) (replicate 13 0) off (Z.min 10 (0 - off)) ∨ 0 > off) as Hm.
  { intros off. destruct (Z_lt_ge_dec off 0); [right; lia | left; intros i Hi; lia]. }
  assert (∀ off, 0 ≤ off → if (i_size (ip_of 0 (img_fs 0 t)) <? off) || (u32 (off + 10) <? off)
    then readi no_read 0 off 10 (img_fs 0 t) = Ok None (img_fs 0 t)
    else off + 10 < 2 ^ 32 → ∃ s', readi no_read 0 off 10 (img_fs 0 t) = Ok (Some (fbytes (view (bc t)) (replicate 13 0) off (Z.to_nat (Z.min 10 (0 - off))))) s') as Hr.
  { intros off Ho. destruct (Hm off) as [Hm'|]; [|lia].
    pose proof (readi_spec no_read img_geo ∅ [] 0 off 10 (img_fs 0 t) (img_fsok t It Vt 0)
      ltac:(rewrite map_size_empty; unfold NBUF; simpl; lia) ltac:(discriminate) Ho ltac:(lia)
      ltac:(vm_compute; discriminate) Hm') as Hs.
    destruct ((i_size (ip_of 0 (img_fs 0 t)) <? off) || (u32 (off + 10) <? off)); [exact Hs|].
    intros Hov. apply Hs in Hov. apply wp_elim in Hov as (r & s' & E & -> & _). by exists s'. }
  destruct (Hr 0 ltac:(lia) ltac:(reflexivity)) as [s' E]. exists (img_fs 0 t), s'.
  split; [exact E | exact (Hr 1 ltac:(lia))].
Defined.

Lemma writei_hole_not_recorded_witness : ∃ s s' : fsst lst,
  writei no_write 0 [9] 700 1 s = Ok 1 s' ∧ i_addrs (ip_of 0 s') ≠ i_addrs (ip_of 0 s) ∧
  view (bc (bd s')) (iblock 0 s') = view (bc (bd s)) (iblock 0 s).
Proof.
  image_state t It Vt.
  pose proof (writei_hole_not_recorded no_write img_geo ∅ [] 0 [9] 700 1 (img_fs 2000 t)
    (img_fsok t It Vt 2000) (img_inode_ok t Vt 2000)) as Hw.
  specialize (Hw ltac:(discriminate) eq_refl ltac:(lia) ltac:(simpl; lia) ltac:(vm_compute; discriminate)).
  specialize (Hw ltac:(reflexivity) ltac:(vm_compute; discriminate) (img_node _ _)).
  specialize (Hw (img_budget 5 ltac:(lia)) (img_free t Vt 4 ltac:(lia))).
  apply wp_elim in Hw as (r & s' & E & -> & Ha & Hv). exists (img_fs 2000 t), s'. split; [exact E|]. split; [exact Ha | exact Hv].
Defined.

(** Reading a hole brings the kernel down: after a transaction that writes
    3 bytes at offset 700 of an empty file, reading the file from 0 outside a
    transaction, as fileread and filepread do, makes bmap allocate the missing
    block, and log_write panics. *)
Theorem readi_hole_panics :
  (blk reboot;; blk begin_op;; writei no_write 0 [1; 2; 3] 700 3;; blk end_op;; readi no_read 0 0 10)
    (img_fs 0 (boot_lst image 1)) = Panic "log_write outside of trans".
Proof. vm_compute. reflexivity. Qed.
