(* ===== verification/FsDir.v ===== *)
(** * FsDir: directories

    A directory is a file of 16-byte entries (struct dirent of fs.h).  Its
    specification is the list of the entries:
    dirlookup of fs.c finds the first entry in use that has the name, and
    dirlink puts the name in the first free entry, or appends one; a lookup
    after a link finds the new entry, and other names find what they found
    before.  Names compare on their bytes before the terminator, DIRSIZ at
    most ([dname]).  The proofs are over any block device that satisfies the
    laws of Blockdev.v. *)

From Stdlib Require Import ZArith Lia Bool.
From stdpp Require Import base option list sets gmap strings numbers.
From S2P Require Import Prelude Cstring Locks Bio BioSpec Log Blockdev Fs Dinode FsBlock FsMap FsRw.

#[local] Open Scope string_scope.
#[local] Open Scope list_scope.
#[local] Open Scope Z_scope.

(** ** Names *)

Fixpoint cut (n : nat) (l : list Z) : list Z :=
  match n, l with
  | S n, c :: l => if c =? 0 then [] else c :: cut n l
  | _, _ => []
  end.

Definition dname (l : list Z) : list Z := cut 14 l.

(** The entry is in use and has the name. *)
Definition live (name de : list Z) : Prop := de_inum de ≠ 0 ∧ dname (de_name de) = dname name.
#[global] Instance live_dec name de : Decision (live name de).
Proof. unfold live. apply _. Defined.

(** A free entry. *)
Definition free_entry (de : list Z) : Prop := de_inum de = 0.
#[global] Instance free_entry_dec de : Decision (free_entry de).
Proof. unfold free_entry. apply _. Defined.

Definition dir_find (name : list Z) (es : list (list Z)) : option (nat * list Z) := list_find (live name) es.

(** The first [n] entries of the file at [a]. *)
Definition dirents (V : Z → block) (a : list Z) (n : nat) : list (list Z) :=
  map (λ k, fbytes V a (16 * Z.of_nat k) 16) (seq 0 n).

Lemma cstr_drop (l : list Z) i : cstr (drop i l) 0 = cstr l (Z.of_nat i).
Proof. unfold cstr. simpl. rewrite (proj2 (Z.ltb_ge _ _)) by lia. unfold bget0. by rewrite lookup_drop, Nat2Z.id, Nat.add_0_r. Qed.

Lemma cut_step n (l : list Z) i : cut (S n) (drop i l) =
  if cstr l (Z.of_nat i) =? 0 then [] else cstr l (Z.of_nat i) :: cut n (drop (S i) l).
Proof.
  rewrite <- cstr_drop. destruct (drop i l) as [|c r] eqn:E; [done|]. simpl. change (cstr (c :: r) 0) with c.
  replace (drop (S i) l) with r; [done|]. rewrite <- Nat.add_1_r, <- drop_drop, E. done.
Qed.

Lemma strncmp_cut (s t : list Z) n : ∀ i, Forall is_byte s → Forall is_byte t →
  strncmp_loop (cstr s) (cstr t) (Z.of_nat i) n = 0 ↔ cut n (drop i s) = cut n (drop i t).
Proof.
  induction n as [|n IH]; intros i Hs Ht; [done|]. rewrite !cut_step. cbn [strncmp_loop].
  assert (∀ l j, Forall is_byte l → is_byte (cstr l j)) as Hb.
  { intros l j Hl. unfold cstr, bget0. case_match; [done|].
    destruct (l !! Z.to_nat j) as [x|] eqn:E; [|done]. simpl. by eapply list.Forall_lookup_1. }
  pose proof (Hb s (Z.of_nat i) Hs). pose proof (Hb t (Z.of_nat i) Ht). unfold is_byte in *.
  set (x := cstr s (Z.of_nat i)) in *. set (y := cstr t (Z.of_nat i)) in *. unfold u8. rewrite !Z.mod_small by (change (2 ^ 8) with 256; lia).
  replace (Z.of_nat i + 1) with (Z.of_nat (S i)) by lia.
  clearbody x y. destruct (Z.eqb_spec x 0), (Z.eqb_spec x y), (Z.eqb_spec y 0); cbn [negb andb]; try lia;
    try (rewrite IH by done); split; intros E; simplify_eq; try done; try congruence; lia.
Qed.

Lemma namecmp_dname (s t : list Z) : Forall is_byte s → Forall is_byte t → namecmp s t = 0 ↔ dname s = dname t.
Proof. intros Hs Ht. apply (strncmp_cut s t 14 0 Hs Ht). Qed.

(** *** The name that dirlink stores *)

Lemma cut_length n l : (length (cut n l) ≤ n)%nat.
Proof. revert l. induction n as [|n IH]; intros [|c l]; simpl; try lia. case_match; simpl; [lia|]. specialize (IH l). lia. Qed.

Lemma cut_nth n l i : (i < length (cut n l))%nat → ∃ x, l !! i = Some x ∧ cut n l !! i = Some x ∧ x ≠ 0.
Proof.
  revert l i. induction n as [|n IH]; intros [|c l] i; simpl; try lia.
  destruct (Z.eqb_spec c 0); simpl; [lia|]. destruct i as [|i]; simpl; [by exists c|]. intros. apply IH. lia.
Qed.

Lemma cut_end n l : (length (cut n l) < n)%nat → default 0 (l !! length (cut n l)) = 0.
Proof.
  revert l. induction n as [|n IH]; intros [|c l]; simpl; try lia; try done.
  destruct (Z.eqb_spec c 0); simpl; [done|]. intros. apply IH. lia.
Qed.

Lemma cut_pad n m l : cut n (cut n l ++ replicate m 0) = cut n l.
Proof.
  revert l. induction n as [|n IH]; intros l; [by destruct l|]. destruct l as [|c l].
  - simpl. by destruct m.
  - cbn [cut]. destruct (c =? 0) eqn:E; simpl; [by destruct m|]. by rewrite E, IH.
Qed.

Lemma strncpy_name_cut name : Forall is_byte name →
  strncpy_name name = cut 14 name ++ replicate (14 - length (cut 14 name)) 0.
Proof.
  intros Hb. pose proof (cut_length 14 name) as Hl. set (k := length (cut 14 name)) in *.
  assert (∀ i, (i < 14)%nat → strncpy (λ a, cstr name (a - 16)) 0 16 DIRSIZ (Z.of_nat i) =
    if decide (i < k)%nat then default 0 (name !! i) else 0) as Hi.
  { intros i Hi. unfold strncpy. change DIRSIZ with (Z.of_nat 14). rewrite Nat2Z.id.
    rewrite (strncpy_loop_spec _ _ _ _ (Z.of_nat k)); [|intros x|lia|lia|intros j Hj|intros Hk].
    - unfold within. case_decide; in_range; try done.
      unfold cstr. rewrite (proj2 (Z.ltb_ge _ _)) by lia. unfold bget0. do 2 f_equal. lia.
    - unfold cstr, bget0. case_match; [done|].
      destruct (name !! Z.to_nat (x - 16)) as [y|] eqn:E; [|done]. simpl. by eapply list.Forall_lookup_1.
    - destruct (cut_nth 14 name (Z.to_nat j)) as (y & Hy & _ & Hy0); [lia|].
      unfold cstr. rewrite (proj2 (Z.ltb_ge _ _)) by lia. unfold bget0.
      replace (16 + j - 16) with j by lia. by rewrite Hy.
    - unfold cstr. rewrite (proj2 (Z.ltb_ge _ _)) by lia. unfold bget0.
      replace (Z.to_nat (16 + Z.of_nat k - 16)) with k by lia. apply cut_end. lia. }
  apply list_eq. intros i. unfold strncpy_name. rewrite list_lookup_fmap.
  destruct (decide (i < 14)%nat) as [Hlt|Hge].
  - rewrite lookup_seq_lt by done. cbn [fmap option_fmap option_map Nat.add]. rewrite Hi by done. case_decide as Hk.
    + rewrite lookup_app_l by done. destruct (cut_nth 14 name i Hk) as (y & -> & -> & _). done.
    + rewrite lookup_app_r by lia. rewrite lookup_replicate_2 by lia. done.
  - rewrite lookup_seq_ge by lia. rewrite lookup_ge_None_2; [done|]. rewrite length_app, length_replicate. fold k. lia.
Qed.

Lemma dname_strncpy name : Forall is_byte name → dname (strncpy_name name) = dname name.
Proof. intros Hb. rewrite strncpy_name_cut by done. apply cut_pad. Qed.

(** ** dirlookup *)

Lemma length_dirents V a n : length (dirents V a n) = n.
Proof. unfold dirents. by rewrite length_map, length_seq. Qed.

Lemma lookup_dirents V a n k : (k < n)%nat → dirents V a n !! k = Some (fbytes V a (16 * Z.of_nat k) 16).
Proof. intros Hk. unfold dirents. by rewrite list_lookup_fmap, lookup_seq_lt by done. Qed.

Lemma drop_dirents V a n k : (k < n)%nat →
  drop k (dirents V a n) = fbytes V a (16 * Z.of_nat k) 16 :: drop (S k) (dirents V a n).
Proof. intros Hk. apply drop_S. by apply lookup_dirents. Qed.

(** The first free entry, or the end; and the entries with [de] put there. *)
Definition free_slot (es : list (list Z)) : nat :=
  match list_find free_entry es with Some (j, _) => j | None => length es end.

Fixpoint place (de : list Z) (es : list (list Z)) : list (list Z) :=
  match es with
  | [] => [de]
  | e :: es => if decide (free_entry e) then de :: es else e :: place de es
  end.

Lemma free_slot_cons e es : free_slot (e :: es) = if decide (free_entry e) then 0%nat else S (free_slot es).
Proof. unfold free_slot. cbn [list_find]. case_decide; [done|]. by destruct (list_find free_entry es) as [[j ?]|]. Qed.

Lemma free_slot_le es : (free_slot es ≤ length es)%nat.
Proof. induction es as [|e es IH]; [done|]. rewrite free_slot_cons. case_decide; simpl; lia. Qed.

Lemma lookup_place de es k : place de es !! k = if decide (k = free_slot es) then Some de else es !! k.
Proof.
  revert k. induction es as [|e es IH]; intros k.
  - by destruct k.
  - cbn [place]. rewrite free_slot_cons. case_decide as Hf; destruct k as [|k]; cbn [lookup list_lookup].
    + by rewrite decide_True.
    + by rewrite decide_False.
    + by rewrite decide_False.
    + rewrite IH. repeat case_decide; try done; congruence || lia.
Qed.

Lemma length_place de es : length (place de es) = Nat.max (length es) (S (free_slot es)).
Proof.
  induction es as [|e es IH]; [done|]. cbn [place]. rewrite free_slot_cons. pose proof (free_slot_le es).
  case_decide; simpl; [lia|]. rewrite IH. lia.
Qed.

(** A lookup after a link. *)
Lemma find_place name de es : live name de → dir_find name es = None → dir_find name (place de es) = Some (free_slot es, de).
Proof.
  intros Hl. induction es as [|e es IH]; intros Hn.
  - unfold dir_find. simpl. by rewrite decide_True.
  - unfold dir_find in *. cbn [list_find place] in *. rewrite free_slot_cons.
    destruct (decide (live name e)) as [|He]; [done|].
    destruct (list_find (live name) es) as [[]|] eqn:E; [done|].
    case_decide; cbn [list_find]; [by rewrite decide_True|]. by rewrite decide_False, IH.
Qed.

Lemma find_place_ne name de es : ¬ live name de → dir_find name (place de es) = dir_find name es.
Proof.
  intros Hl. induction es as [|e es IH]; unfold dir_find in *; cbn [list_find place].
  - by rewrite decide_False.
  - case_decide as Hf; cbn [list_find].
    + rewrite decide_False by done. rewrite decide_False; [done|]. intros [? _]. by destruct Hf.
    + by rewrite IH.
Qed.

Lemma length_mk_dirent n name : length (mk_dirent n name) = 16%nat.
Proof. unfold mk_dirent, strncpy_name. by rewrite length_app, length_map, length_seq. Qed.

Lemma bytes_mk_dirent n name : Forall is_byte name → Forall is_byte (mk_dirent n name).
Proof.
  intros Hb. unfold mk_dirent. apply Forall_app. split.
  - repeat constructor; unfold is_byte; apply Z.mod_pos_bound; lia.
  - rewrite strncpy_name_cut by done. apply Forall_app. split; [|apply Forall_replicate; done].
    clear -Hb. generalize 14%nat. intros m. revert m. induction Hb; intros [|m]; simpl; try constructor. case_match; constructor; auto.
Qed.

Lemma de_inum_mk n name : 0 ≤ n < 2 ^ 16 → de_inum (mk_dirent n name) = n.
Proof.
  intros Hn. unfold de_inum, mk_dirent, get16, bget0, le16. change (2 ^ 16) with 65536 in Hn.
  cbn [Z.to_nat lookup list_lookup app Pos.to_nat Pos.iter_op default Z.add]. change (Pos.to_nat 1) with 1%nat. simpl. divmod_lia.
Qed.

Lemma de_name_mk n name : Forall is_byte name → dname (de_name (mk_dirent n name)) = dname name.
Proof.
  intros Hb. unfold de_name, mk_dirent, slice. change (drop 2 (le16 n ++ strncpy_name name)) with (strncpy_name name).
  rewrite take_ge; [by apply dname_strncpy|]. unfold strncpy_name. by rewrite length_map, length_seq.
Qed.

Lemma live_mk n name name' : 0 < n < 2 ^ 16 → Forall is_byte name → live name' (mk_dirent n name) ↔ dname name = dname name'.
Proof. intros Hn Hb. unfold live. rewrite de_inum_mk, de_name_mk by (done || lia). split; [by intros []|]. intros. split; [lia | done]. Qed.

(** The icache entry that iget takes, and what it does to it: one that holds
    the inode, or else the first unused one. *)
Definition cached (dev inum : Z) (x : inode) : Prop := 0 < i_ref x ∧ i_dev x = dev ∧ i_inum x = inum.
#[global] Instance cached_dec dev inum x : Decision (cached dev inum x).
Proof. unfold cached. apply _. Defined.
Definition unused (x : inode) : Prop := i_ref x = 0.
#[global] Instance unused_dec x : Decision (unused x).
Proof. unfold unused. apply _. Defined.

Definition iget_slot (dev inum : Z) (l : list inode) : option (nat * (inode → inode)) :=
  match list_find (cached dev inum) l with
  | Some (j, _) => Some (j, λ x, set_i_ref (i_ref x + 1) x)
  | None => (λ p, (p.1, set_i_key dev inum 1)) <$> list_find unused l
  end.

(** How far a search reads: to the entry it finds, or to the end. *)
Definition reach {A} (r : option (nat * A)) (n : nat) : nat := match r with Some (j, _) => S j | None => n end.

Lemma reach_le name l : (reach (dir_find name l) (length l) ≤ length l)%nat.
Proof.
  destruct (dir_find name l) as [[j de]|] eqn:E; simpl; [|done].
  apply list_find_Some in E as (E & _). by apply lookup_lt_Some in E.
Qed.

Section dir.
Context {S : Type} {BD : BlockDev S} {BL : BlockDevLaws S}.
#[local] Notation fs := (fsst S).
#[local] Notation V s := (bd_view (bd s)).
#[local] Notation addrs ip s := (i_addrs (ip_of ip s)).

(** *** iget *)

Lemma iget_scan_spec dev inum l : ∀ i e, iget_scan l i e dev inum =
  match list_find (cached dev inum) l with
  | Some (j, _) => inl (i + j)%nat
  | None => inr (match e with Some x => Some x | None => (λ p, (i + p.1)%nat) <$> list_find unused l end)
  end.
Proof.
  induction l as [|x l IH]; intros i e; cbn [iget_scan list_find]; [by destruct e|].
  replace ((0 <? i_ref x) && (i_dev x =? dev) && (i_inum x =? inum)) with (bool_decide (cached dev inum x)).
  2: { apply eq_true_iff_eq. unfold cached. rewrite bool_decide_eq_true, !andb_true_iff, Z.ltb_lt, !Z.eqb_eq. tauto. }
  case_bool_decide as Hc; [rewrite decide_True by done; by rewrite Nat.add_0_r|]. rewrite decide_False by done. rewrite IH.
  destruct (list_find (cached dev inum) l) as [[j y]|]; simpl; [by rewrite Nat.add_succ_r|].
  f_equal. destruct e; [done|]. unfold unused. destruct (Z.eqb_spec (i_ref x) 0).
  - rewrite decide_True by done. simpl. by rewrite Nat.add_0_r.
  - rewrite decide_False by done. destruct (list_find _ l) as [[j y]|]; simpl; [|done]. by rewrite Nat.add_succ_r.
Qed.

Lemma wp_iget dev inum ip f (Q : nat → fs → Prop) s :
  ic_lock s = false → iget_slot dev inum (ic s) = Some (ip, f) → Q ip (upd_ip ip f s) → wp (iget dev inum) Q s.
Proof.
  intros Hl Hs HQ. unfold iget, acquire_icache. wp_step. wp_step. wp_step. rewrite Hl. wp_step. wp_step. wp_step.
  change (ic (set_ic_lock true s)) with (ic s). rewrite iget_scan_spec. unfold iget_slot in Hs.
  assert (wp (set_ip ip f;; release_icache;; mret ip) Q (set_ic_lock true s)) as Hw.
  { unfold set_ip, release_icache. wp_steps. simpl. wp_steps. destruct s as [l c b p d]. simpl in *. subst l. exact HQ. }
  destruct (list_find (cached dev inum) (ic s)) as [[j x]|]; [injection Hs as <- <-; exact Hw|].
  destruct (list_find unused (ic s)) as [[j x]|]; [injection Hs as <- <-; exact Hw | done].
Qed.

(** The entry that iget returns is the inode asked for, with a reference. *)
Lemma iget_slot_ok dev inum ip f (s : fs) : iget_slot dev inum (ic s) = Some (ip, f) →
  (∀ x, x ∈ ic s → 0 ≤ i_ref x) → (ip < length (ic s))%nat ∧ cached dev inum (ip_of ip (upd_ip ip f s)).
Proof.
  intros Hs Hr. unfold iget_slot in Hs. destruct (list_find (cached dev inum) (ic s)) as [[j x]|] eqn:E.
  - injection Hs as <- <-. apply list_find_Some in E as (Hx & (C1 & C2 & C3) & _).
    pose proof (lookup_lt_Some _ _ _ Hx). split; [done|]. rewrite ip_of_upd_eq by done. unfold ip_of. rewrite Hx.
    split; simpl; [lia | done].
  - destruct (list_find unused (ic s)) as [[j x]|] eqn:E'; [|done]. injection Hs as <- <-.
    apply list_find_Some in E' as (Hx & _). pose proof (lookup_lt_Some _ _ _ Hx). split; [done|].
    rewrite ip_of_upd_eq by done. done.
Qed.

Context (devsw_read : Z → option (nat → Z → M fs (option (list Z)))).
Context (devsw_write : Z → option (nat → list Z → Z → M fs Z)).

(** The directory [dp]: a file of [n] entries, of bytes. *)
Record dir_ok (g : bdgeo) (H : held) (L : list Z) (dp : nat) (n : nat) (s : fs) : Prop := {
  dk_fs : fsok g H L dp s;
  dk_room : (size H + length L < NBUF)%nat;
  dk_type : i_type (ip_of dp s) = T_DIR;
  dk_size : i_size (ip_of dp s) = 16 * Z.of_nat n;
  dk_max : 16 * Z.of_nat n ≤ BSIZE * MAPPED;
  dk_bytes : ∀ k, 0 ≤ k < 16 * Z.of_nat n → is_byte (fbyte (V s) (addrs dp s) k)
}.

#[local] Notation entries dp n s := (dirents (V s) (addrs dp s) n).

Lemma fbytes_same g H L ip s t off n : fsok g H L ip s → bd_inv g H L t → (∀ c, bd_view t c = V s c) →
  0 ≤ off → off + Z.of_nat n ≤ BSIZE * MAPPED →
  fbytes (bd_view t) (addrs ip s) off n = fbytes (V s) (addrs ip s) off n.
Proof.
  intros O It Vt Ho Hn. destruct (same_fsok _ _ _ _ _ _ O It Vt) as (_ & _ & Hc). apply list_eq. intros i.
  destruct (decide (i < n)%nat) as [Hi|Hi].
  - rewrite !lookup_fbytes by done. f_equal. unfold fbyte. rewrite Hc; [done|]. apply byte_in_file. lia.
  - rewrite !lookup_ge_None_2 by (rewrite length_fbytes; lia). done.
Qed.

Lemma dir_same g H L dp n s t : dir_ok g H L dp n s → bd_inv g H L t → (∀ c, bd_view t c = V s c) →
  dir_ok g H L dp n (set_bd t s) ∧ entries dp n (set_bd t s) = entries dp n s ∧
  (∀ off m, 0 ≤ off → off + m ≤ BSIZE * MAPPED → mapped (V s) (addrs dp s) off m → mapped (bd_view t) (addrs dp s) off m).
Proof.
  intros [D1 D2 D3 D4 D5 D6] It Vt. destruct (same_fsok _ _ _ _ _ _ D1 It Vt) as (O' & Hn & Hc). split; [|split].
  - split; try done. intros k Hk. unfold fbyte. simpl. change (addrs dp (set_bd t s)) with (addrs dp s).
    rewrite Hc; [by apply D6|]. apply byte_in_file. lia.
  - apply list_eq. intros k. destruct (decide (k < n)%nat).
    + rewrite !lookup_dirents by done. f_equal. eapply (fbytes_same _ _ _ _ _ _ _ _ D1); try done; lia.
    + rewrite !lookup_ge_None_2 by (rewrite length_dirents; lia). done.
  - intros off m Ho Hm Hmap i Hi. rewrite Hn; [by apply Hmap|]. apply valid_leaf, byte_in_file. lia.
Qed.

(** One entry is read. *)
Lemma f_read_entry g H L dp n k (Q : option (list Z) → fs → Prop) s :
  dir_ok g H L dp n s → (k < n)%nat → mapped (V s) (addrs dp s) (16 * Z.of_nat k) 16 →
  (∀ t, bd_inv g H L t → (∀ c, bd_view t c = V s c) →
     Q (Some (fbytes (V s) (addrs dp s) (16 * Z.of_nat k) 16)) (set_bd t s)) →
  wp (readi devsw_read dp (16 * Z.of_nat k) 16) Q s.
Proof.
  intros [D1 D2 D3 D4 D5 D6] Hk Hm HQ. change (BSIZE * MAPPED) with 16847872 in D5.
  eapply wp_mono; [eapply f_readi; [done | done | by rewrite D3 | lia | lia | lia | rewrite D4; done | ]|].
  - rewrite D4. replace (Z.min 16 (16 * Z.of_nat n - 16 * Z.of_nat k)) with 16 by lia. exact Hm.
  - intros r s' (-> & t & -> & It & Vt). rewrite D4.
    replace (Z.min 16 (16 * Z.of_nat n - 16 * Z.of_nat k)) with 16 by lia. by apply HQ.
Qed.

Lemma Forall_fbytes dp n k s g H L : dir_ok g H L dp n s → (k < n)%nat →
  Forall is_byte (fbytes (V s) (addrs dp s) (16 * Z.of_nat k) 16).
Proof.
  intros D Hk. apply list.Forall_lookup. intros i x Hx. pose proof (lookup_lt_Some _ _ _ Hx) as Hi.
  rewrite length_fbytes in Hi. rewrite lookup_fbytes in Hx by done. injection Hx as <-. apply (dk_bytes _ _ _ _ _ _ D). lia.
Qed.

Lemma Forall_de_name de : Forall is_byte de → Forall is_byte (de_name de).
Proof. intros Hd. unfold de_name, slice. by apply Forall_take, Forall_drop. Qed.

(** What the two tests of the loop decide. *)
Lemma live_tests name de : Forall is_byte name → Forall is_byte de →
  (if de_inum de =? 0 then false else namecmp name (de_name de) =? 0) = bool_decide (live name de).
Proof.
  intros Hn Hd. unfold live. destruct (Z.eqb_spec (de_inum de) 0) as [E|E].
  - symmetry. apply bool_decide_eq_false. by intros [? _].
  - apply eq_true_iff_eq. rewrite Z.eqb_eq, namecmp_dname, bool_decide_eq_true by auto using Forall_de_name. naive_solver.
Qed.

Lemma wp_dirlookup_loop g H L dp name n (Q : option (nat * Z) → fs → Prop) fuel : ∀ k s,
  dir_ok g H L dp n s → Forall is_byte name → (k ≤ n)%nat → (n - k ≤ fuel)%nat →
  mapped (V s) (addrs dp s) (16 * Z.of_nat k) (16 * Z.of_nat (reach (dir_find name (drop k (entries dp n s))) (n - k))) →
  (∀ t, bd_inv g H L t → (∀ c, bd_view t c = V s c) →
    match dir_find name (drop k (entries dp n s)) with
    | Some (j, de) => wp (iget (i_dev (ip_of dp s)) (de_inum de)) (λ ip, Q (Some (ip, 16 * Z.of_nat (k + j)))) (set_bd t s)
    | None => Q None (set_bd t s)
    end) →
  wp (dirlookup_loop devsw_read fuel dp name (16 * Z.of_nat k)) Q s.
Proof.
  induction fuel as [|fuel IH]; intros k s D Hb Hk Hf Hm HQ.
  - assert (k = n) as -> by lia. cbn [dirlookup_loop]. wp_step. wp_step. rewrite (dk_size _ _ _ _ _ _ D), Z.ltb_irrefl.
    wp_step. specialize (HQ (bd s) (ok_bd _ _ _ _ _ (dk_fs _ _ _ _ _ _ D)) (λ _, eq_refl)).
    rewrite drop_ge in HQ by (rewrite length_dirents; lia). by destruct s.
  - cbn [dirlookup_loop]. wp_step. wp_step. rewrite (dk_size _ _ _ _ _ _ D). destruct (Z.ltb_spec (16 * Z.of_nat k) (16 * Z.of_nat n)) as [Hlt|Hge].
    2: { wp_step. specialize (HQ (bd s) (ok_bd _ _ _ _ _ (dk_fs _ _ _ _ _ _ D)) (λ _, eq_refl)).
      rewrite drop_ge in HQ by (rewrite length_dirents; lia). by destruct s. }
    assert (k < n)%nat as Hkn by lia. rewrite drop_dirents in Hm, HQ by done.
    set (de := fbytes (V s) (addrs dp s) (16 * Z.of_nat k) 16) in *.
    pose proof (Forall_fbytes _ _ _ _ _ _ _ D Hkn) as Hde. fold de in Hde.
    pose proof (live_tests name de Hb Hde) as Hlive. wp_step.
    eapply f_read_entry; [exact D | done | |].
    { intros i Hi. apply Hm. destruct (dir_find name _) as [[j ?]|]; simpl; lia. }
    intros t It Vt. fold de. change (length de) with 16%nat. cbn [Nat.eqb negb].
    assert (¬ live name de → wp (dirlookup_loop devsw_read fuel dp name (16 * Z.of_nat k + 16)) Q (set_bd t s)) as Hnext.
    { intros Hnl. destruct (dir_same _ _ _ _ _ _ _ D It Vt) as (D' & Ee & Em).
      unfold dir_find in Hm, HQ. cbn [list_find] in Hm, HQ. rewrite decide_False in Hm, HQ by done.
      replace (16 * Z.of_nat k + 16) with (16 * Z.of_nat (Datatypes.S k)) by lia.
      apply IH; [exact D' | done | lia | lia | |]; rewrite Ee; unfold dir_find.
      - apply Em; [lia | |].
        + pose proof (dk_max _ _ _ _ _ _ D). pose proof (reach_le name (drop (Datatypes.S k) (entries dp n s))) as Hr.
          rewrite length_drop, length_dirents in Hr. unfold dir_find in Hr. lia.
        + intros i Hi. apply Hm. destruct (list_find _ _) as [[j ?]|]; simpl in *; lia.
      - intros t' It' Vt'. simpl in Vt'. specialize (HQ t' It' ltac:(intros c; by rewrite Vt')).
        destruct (list_find _ _) as [[j ?]|]; simpl in *; [|exact HQ]. by rewrite Nat.add_succ_r in HQ. }
    destruct (Z.eqb_spec (de_inum de) 0) as [E0|E0]; [apply Hnext; by intros [? _]|].
    destruct (namecmp name (de_name de) =? 0) eqn:En.
    + symmetry in Hlive. apply bool_decide_eq_true in Hlive. specialize (HQ t It Vt).
      unfold dir_find in HQ. cbn [list_find] in HQ. rewrite decide_True in HQ by done. rewrite Nat.add_0_r in HQ.
      wp_step. exact HQ.
    + symmetry in Hlive. by apply bool_decide_eq_false, Hnext in Hlive.
Qed.

Lemma wp_dirlookup g H L dp name n (Q : option (nat * Z) → fs → Prop) s :
  dir_ok g H L dp n s → Forall is_byte name →
  mapped (V s) (addrs dp s) 0 (16 * Z.of_nat (reach (dir_find name (entries dp n s)) n)) →
  (∀ t, bd_inv g H L t → (∀ c, bd_view t c = V s c) →
    match dir_find name (entries dp n s) with
    | Some (j, de) => wp (iget (i_dev (ip_of dp s)) (de_inum de)) (λ ip, Q (Some (ip, 16 * Z.of_nat j))) (set_bd t s)
    | None => Q None (set_bd t s)
    end) →
  wp (dirlookup devsw_read dp name) Q s.
Proof.
  intros D Hb Hm HQ. unfold dirlookup. wp_step. wp_step. rewrite (dk_type _ _ _ _ _ _ D). cbn [negb T_DIR Z.eqb].
  change 0 with (16 * Z.of_nat 0). apply (wp_dirlookup_loop g H L dp name n); try done; try lia.
  - rewrite (dk_size _ _ _ _ _ _ D). lia.
  - rewrite drop_0, Nat.sub_0_r. exact Hm.
Qed.

(** ** dirlink *)

Lemma wp_dirlink_loop g H L dp n (Q : Z → fs → Prop) fuel : ∀ k s,
  dir_ok g H L dp n s → (k ≤ n)%nat → (n - k ≤ fuel)%nat →
  mapped (V s) (addrs dp s) 0 (16 * Z.of_nat n) →
  (∀ t, bd_inv g H L t → (∀ c, bd_view t c = V s c) →
    Q (16 * Z.of_nat (k + free_slot (drop k (entries dp n s)))) (set_bd t s)) →
  wp (dirlink_loop devsw_read fuel dp (16 * Z.of_nat k)) Q s.
Proof.
  induction fuel as [|fuel IH]; intros k s D Hk Hf Hm HQ; cbn [dirlink_loop]; wp_step; wp_step;
    rewrite (dk_size _ _ _ _ _ _ D); (destruct (Z.ltb_spec (16 * Z.of_nat k) (16 * Z.of_nat n)) as [Hlt|Hge]; [|
      wp_step; specialize (HQ (bd s) (ok_bd _ _ _ _ _ (dk_fs _ _ _ _ _ _ D)) (λ _, eq_refl));
      rewrite drop_ge in HQ by (rewrite length_dirents; lia); cbn in HQ; rewrite Nat.add_0_r in HQ; by destruct s]).
  - lia.
  - assert (k < n)%nat as Hkn by lia. rewrite drop_dirents in HQ by done.
    set (de := fbytes (V s) (addrs dp s) (16 * Z.of_nat k) 16) in *. wp_step.
    eapply f_read_entry; [exact D | done | intros i Hi; apply Hm; lia |].
    intros t It Vt. fold de. change (length de) with 16%nat. cbn [Nat.eqb negb]. unfold free_slot in HQ. cbn [list_find] in HQ.
    destruct (Z.eqb_spec (de_inum de) 0) as [E0|E0].
    + wp_step. rewrite decide_True in HQ by done. specialize (HQ t It Vt). by rewrite Nat.add_0_r in HQ.
    + rewrite decide_False in HQ by done. destruct (dir_same _ _ _ _ _ _ _ D It Vt) as (D' & Ee & Em).
      replace (16 * Z.of_nat k + 16) with (16 * Z.of_nat (Datatypes.S k)) by lia.
      apply IH; [exact D' | lia | lia | apply Em; [lia | apply D | done] |]. rewrite Ee.
      intros t' It' Vt'. simpl in Vt'. specialize (HQ t' It' ltac:(intros c; by rewrite Vt')).
      unfold free_slot. destruct (list_find _ _) as [[j ?]|]; simpl in *; by rewrite Nat.add_succ_r in HQ.
Qed.

Lemma entries_written g H L L' dp n j de (s s' : fs) :
  dir_ok g H L dp n s → written g H dp de (16 * Z.of_nat j) 16 s s' → fsok g H L' dp s' → (size H + length L' < NBUF)%nat →
  length de = 16%nat → Forall is_byte de → j = free_slot (entries dp n s) → 16 * (Z.of_nat n + 1) ≤ BSIZE * MAPPED →
  let n' := Nat.max n (Datatypes.S j) in
  dir_ok g H L' dp n' s' ∧ entries dp n' s' = place de (entries dp n s).
Proof.
  intros D W O' Hr Hlen Hde Hj Hmax n'. pose proof (free_slot_le (entries dp n s)) as Hfl. rewrite length_dirents in Hfl.
  pose proof (dk_size _ _ _ _ _ _ D) as Hsz. split.
  - split; try done.
    + rewrite (wr_type _ _ _ _ _ _ _ _ W). apply D.
    + rewrite (wr_size _ _ _ _ _ _ _ _ W), Hsz. cbn [Z.ltb Z.compare]. lia.
    + lia.
    + intros k Hk. rewrite (wr_bytes _ _ _ _ _ _ _ _ W) by lia. case_decide as Hc.
      * unfold bget0. destruct (de !! Z.to_nat (k - 16 * Z.of_nat j)) as [x|] eqn:E; [|done].
        simpl. by eapply list.Forall_lookup_1.
      * apply (dk_bytes _ _ _ _ _ _ D). lia.
  - apply list_eq. intros k. rewrite lookup_place, <- Hj.
    destruct (decide (k < n')%nat) as [Hk|Hk].
    2: { rewrite decide_False by lia. rewrite !lookup_ge_None_2 by (rewrite length_dirents; lia). done. }
    rewrite lookup_dirents by done. case_decide as Hkj.
    + f_equal. subst k. apply list_eq. intros i. destruct (decide (i < 16)%nat).
      * rewrite lookup_fbytes by done. rewrite (wr_bytes _ _ _ _ _ _ _ _ W) by lia. rewrite decide_True by lia.
        destruct (lookup_lt_is_Some_2 de i) as [x Hx]; [lia|]. rewrite Hx. unfold bget0.
        replace (Z.to_nat (16 * Z.of_nat j + Z.of_nat i - 16 * Z.of_nat j)) with i by lia. by rewrite Hx.
      * rewrite !lookup_ge_None_2; [done | lia | rewrite length_fbytes; lia].
    + rewrite lookup_dirents by lia. f_equal. apply list_eq. intros i. destruct (decide (i < 16)%nat).
      * rewrite !lookup_fbytes by done. rewrite (wr_bytes _ _ _ _ _ _ _ _ W) by lia. by rewrite decide_False by lia.
      * rewrite !lookup_ge_None_2; [done | rewrite length_fbytes; lia..].
Qed.

Lemma wp_unbind {A B} (m : M fs A) (k : A → M fs B) Q s : wp (m ≫= k) Q s → wp m (λ a, wp (k a) Q) s.
Proof. unfold wp, mbind, M_bind. by destruct (m s). Qed.

Lemma nfree_same sb0 (V0 V1 : Z → block) n : (∀ c, V1 c = V0 c) → nfree sb0 V0 n → nfree sb0 V1 n.
Proof.
  intros He (l & Hn & Hl & Hb). exists l. split_and!; [done..|]. intros b Hin. rewrite (used_ext _ V0) by done. by apply Hb.
Qed.

(** C19. Linking a name: in a directory whose entries are mapped, dirlink of a
    name that no entry in use has puts an entry with the name and the inode
    number in the first free slot, or at the end, and leaves every other entry;
    the directory is well formed again, a lookup of the name then finds that
    entry and a lookup of any other name what it found before.  If an entry in
    use has the name, nothing is written and -1 is returned, after iget and
    iput of that entry's inode. *)
Theorem dirlink_links K g H L dp name inum n s :
  dir_ok g H L dp n s → inode_ok g H dp s → g_tx g = true → Forall is_byte name → 0 < inum < 2 ^ 16 →
  mapped (V s) (addrs dp s) 0 (16 * Z.of_nat n) → 16 * (Z.of_nat n + 1) ≤ BSIZE * MAPPED →
  (∀ bn, BSIZE * bn < 16 * (Z.of_nat n + 1) → (bmap_cost bn ≤ K)%nat) →
  budget g H L (3 + K) → nfree (sb s) (V s) 4 →
  let es := entries dp n s in
  match dir_find name es with
  | Some (j, de) => ∀ Q, (∀ t, bd_inv g H L t → (∀ c, bd_view t c = V s c) →
      wp (ip ← iget (i_dev (ip_of dp s)) (de_inum de); iput ip;; mret (-1)) Q (set_bd t s)) →
      wp (dirlink devsw_read devsw_write dp name inum) Q s
  | None => wp (dirlink devsw_read devsw_write dp name inum) (λ r s', r = 0 ∧ ∃ L' n', let es' := entries dp n' s' in
      dir_ok g H L' dp n' s' ∧ inode_ok g H dp s' ∧ es' = place (mk_dirent inum name) es ∧
      dir_find name es' = Some (free_slot es, mk_dirent inum name) ∧ de_inum (mk_dirent inum name) = inum ∧
      ∀ name', dname name' ≠ dname name → dir_find name' es' = dir_find name' es) s
  end.
Proof.
  intros D I Htx Hb Hi Hm Hmax HK Hbud Hnf es.
  assert (mapped (V s) (addrs dp s) 0 (16 * Z.of_nat (reach (dir_find name es) n))) as Hm'.
  { intros i Hi'. apply Hm. pose proof (reach_le name es) as Hr. unfold es in Hr. rewrite length_dirents in Hr. fold es in Hr. lia. }
  destruct (dir_find name es) as [[j de]|] eqn:Ef.
  - intros Q HQ. unfold dirlink. wp_step. eapply (wp_dirlookup g H L dp name n); [done | done | by fold es; rewrite Ef |].
    intros t It Vt. fold es. rewrite Ef. specialize (HQ t It Vt). apply wp_unbind in HQ.
    eapply wp_mono; [exact HQ|]. by intros ip s'.
  - unfold dirlink. wp_step. eapply (wp_dirlookup g H L dp name n); [done | done | by fold es; rewrite Ef |].
    intros t It Vt. fold es. rewrite Ef. wp_step. wp_step. wp_step.
    destruct (dir_same _ _ _ _ _ _ _ D It Vt) as (D1 & E1 & M1). fold es in E1.
    change 0 with (16 * Z.of_nat 0) at 1. apply (wp_dirlink_loop g H L dp n); [done | lia | | apply M1; [lia | lia | done] |].
    { change (ip_of dp (set_bd t s)) with (ip_of dp s). rewrite (dk_size _ _ _ _ _ _ D). lia. }
    intros t2 It2 Vt2'. simpl in Vt2'. rewrite drop_0, E1, Nat.add_0_l. change (set_bd t2 (set_bd t s)) with (set_bd t2 s).
    assert (∀ c, bd_view t2 c = V s c) as Vt2 by (intros c; by rewrite Vt2'). clear Vt2'.
    destruct (dir_same _ _ _ _ _ _ _ D It2 Vt2) as (D2 & E2 & M2). fold es in E2. wp_step.
    destruct (same_fsok _ _ _ _ _ _ (dk_fs _ _ _ _ _ _ D) It2 Vt2) as (_ & Hnd & _).
    pose proof (free_slot_le es) as Hfl. unfold es in Hfl at 2. rewrite length_dirents in Hfl.
    set (j := free_slot es) in *.
    eapply wp_mono; [eapply (f_writei devsw_write 1 K g H L dp (mk_dirent inum name) (16 * Z.of_nat j) 16)|].
    + apply D2.
    + apply inode_frame; auto.
    + by rewrite (dk_type _ _ _ _ _ _ D2).
    + done.
    + lia.
    + rewrite length_mk_dirent. lia.
    + lia.
    + change BSIZE with 512. divmod_lia.
    + intros bn Hbn. apply HK. lia.
    + eapply budget_mono; [exact Hbud | lia].
    + eapply nfree_same; [exact Vt2 | exact Hnf].
    + intros r s' (-> & W). cbn [Z.eqb Pos.eqb negb]. wp_step. split; [done|].
      destruct (wr_ok _ _ _ _ _ _ _ _ W) as (L' & O' & Hr').
      pose proof (bytes_mk_dirent inum name Hb) as Hbd.
      destruct (entries_written _ _ _ _ _ _ _ _ _ _ D2 W O' Hr' (length_mk_dirent _ _) Hbd ltac:(by rewrite E2) Hmax) as [D3 E3].
      rewrite E2 in E3. exists L', (Nat.max n (Datatypes.S j)). rewrite E3. split; [done|]. split; [apply W|].
      split; [done|]. split; [apply find_place; [by apply live_mk | done]|]. split; [apply de_inum_mk; lia|].
      intros name' Hne. apply find_place_ne. rewrite live_mk by done. congruence.
Qed.

(** Looking a name up: in a directory mapped as far as the search goes,
    dirlookup returns the inode of the first entry in use with the name and
    the entry's offset, after iget has counted a reference to an icache entry
    for that inode; it returns nothing when no entry in use has the name; and
    no block of the disk and no other inode changes. *)
Theorem dirlookup_finds g H L dp name n s :
  dir_ok g H L dp n s → Forall is_byte name → ic_lock s = false → (∀ x, x ∈ ic s → 0 ≤ i_ref x) →
  let es := entries dp n s in
  mapped (V s) (addrs dp s) 0 (16 * Z.of_nat (reach (dir_find name es) n)) →
  match dir_find name es with
  | None => wp (dirlookup devsw_read dp name) (λ r s', r = None ∧ ∃ t, s' = set_bd t s ∧ ∀ c, bd_view t c = V s c) s
  | Some (j, de) => ∀ ip f, iget_slot (i_dev (ip_of dp s)) (de_inum de) (ic s) = Some (ip, f) →
      wp (dirlookup devsw_read dp name) (λ r s', r = Some (ip, 16 * Z.of_nat j) ∧
        cached (i_dev (ip_of dp s)) (de_inum de) (ip_of ip s') ∧
        ∃ t, s' = upd_ip ip f (set_bd t s) ∧ ∀ c, bd_view t c = V s c) s
  end.
Proof.
  intros D Hb Hl Hr es Hm. destruct (dir_find name es) as [[j de]|] eqn:Ef.
  - intros ip f Hs. eapply (wp_dirlookup g H L dp name n); [done | done | by fold es; rewrite Ef |].
    intros t It Vt. fold es. rewrite Ef. eapply (wp_iget _ _ ip f); [done | exact Hs |]. split; [done|].
    split; [|by exists t]. by apply (iget_slot_ok _ _ ip f (set_bd t s)).
  - eapply (wp_dirlookup g H L dp name n); [done | done | by fold es; rewrite Ef |].
    intros t It Vt. fold es. rewrite Ef. split; [done|]. by exists t.
Qed.

End dir.
