(* ===== verification/FsPath.v ===== *)
(** * FsPath: the inode cache and path names

    namei of fs.c walks a path one element at a time: it locks the inode it
    has, which loads it from its block if the cache does not hold it, looks the
    element up in that directory, takes a reference to the inode found and
    drops the one it had.  The specification is resolution on the disk alone:
    [resolves] relates an inode number, a path and the inode number the path
    names, or none.  The theorem says that namei returns a cache entry for that
    inode, with one reference more than before and every other count as it was,
    whatever the cache held, and that it returns nothing, and keeps no
    reference, when an element is missing or is not a directory. *)

From Stdlib Require Import ZArith Lia Bool.
From stdpp Require Import base option list sets gmap strings numbers.
From S2P Require Import Prelude Cstring Locks Bio BioSpec Log Blockdev Fs Dinode FsBlock FsMap FsRw FsDir.

#[local] Open Scope string_scope.
#[local] Open Scope list_scope.
#[local] Open Scope Z_scope.

(** ** What the disk holds *)

(** Inode [n] as ilock loads it. *)
Definition disk_inode (sb : superblock) (V : Z → block) (n : Z) : inode :=
  get_dinode (V (IBLOCK n sb)) (dinode_off n) inode0.

Record inode_at (g : bdgeo) (sb : superblock) (V : Z → block) (n : Z) : Prop := {
  ia_home : home g (IBLOCK n sb);
  ia_type : i_type (disk_inode sb V n) ≠ 0;
  ia_nlink : i_nlink (disk_inode sb V n) ≠ 0
}.

(** Inode [n] is a directory of [cnt] entries. *)
Record dir_at (g : bdgeo) (sb : superblock) (V : Z → block) (n : Z) (cnt : nat) : Prop := {
  da_inode : inode_at g sb V n;
  da_type : i_type (disk_inode sb V n) = T_DIR;
  da_size : i_size (disk_inode sb V n) = 16 * Z.of_nat cnt;
  da_max : 16 * Z.of_nat cnt ≤ BSIZE * MAPPED;
  da_file : file_ok g sb V (i_addrs (disk_inode sb V n));
  da_bytes : ∀ k, 0 ≤ k < 16 * Z.of_nat cnt → is_byte (fbyte V (i_addrs (disk_inode sb V n)) k)
}.

(** The entry of [name], with the search in mapped blocks. *)
Definition dir_entry (g : bdgeo) (sb : superblock) (V : Z → block) (n : Z) (name : list Z) (r : option (nat * list Z)) : Prop :=
  ∃ cnt, dir_at g sb V n cnt ∧ dir_find name (dirents V (i_addrs (disk_inode sb V n)) cnt) = r ∧
    mapped V (i_addrs (disk_inode sb V n)) 0 (16 * Z.of_nat (reach r cnt)).

Inductive resolves (g : bdgeo) (sb : superblock) (V : Z → block) : Z → list Z → option Z → Prop :=
  | rs_done n path : skip_slashes path = [] → resolves g sb V n path (Some n)
  | rs_step n path e rest j de r : skip_slashes path ≠ [] → elem_of_path (skip_slashes path) = (e, rest) →
      Forall is_byte e → dir_entry g sb V n e (Some (j, de)) → resolves g sb V (de_inum de) rest r →
      resolves g sb V n path r
  | rs_missing n path e rest : skip_slashes path ≠ [] → elem_of_path (skip_slashes path) = (e, rest) →
      Forall is_byte e → dir_entry g sb V n e None → resolves g sb V n path None
  | rs_notdir n path : skip_slashes path ≠ [] → inode_at g sb V n → i_type (disk_inode sb V n) ≠ T_DIR →
      resolves g sb V n path None.

(** *** Disks that hold the same blocks *)

Lemma node_same V V' a p : (∀ c, V' c = V c) → valid_node p → node_addr V' a p = node_addr V a p.
Proof. intros He. by apply node_ext. Qed.

Lemma fbyte_same V V' a i : (∀ c, V' c = V c) → 0 ≤ i < BSIZE * MAPPED → fbyte V' a i = fbyte V a i.
Proof.
  intros He Hi. unfold fbyte, content. rewrite (node_same V V') by (done || by apply valid_leaf, byte_in_file).
  by rewrite He.
Qed.

Lemma mapped_same V V' a n : (∀ c, V' c = V c) → n ≤ BSIZE * MAPPED → mapped V a 0 n → mapped V' a 0 n.
Proof.
  intros He Hn Hm i Hi. rewrite (node_same V V'); [by apply Hm | done |]. apply valid_leaf, byte_in_file. lia.
Qed.

Lemma dirents_same V V' a cnt : (∀ c, V' c = V c) → 16 * Z.of_nat cnt ≤ BSIZE * MAPPED →
  dirents V' a cnt = dirents V a cnt.
Proof.
  intros He Hn. apply list_eq. intros k. destruct (decide (k < cnt)%nat) as [Hk|Hk].
  - rewrite !lookup_dirents by done. f_equal. apply list_eq. intros i. destruct (decide (i < 16)%nat).
    + rewrite !lookup_fbytes by done. f_equal. apply fbyte_same; [done | lia].
    + rewrite !lookup_ge_None_2 by (rewrite length_fbytes; lia). done.
  - rewrite !lookup_ge_None_2 by (rewrite length_dirents; lia). done.
Qed.

Lemma file_ok_same g sb V V' a : (∀ c, V' c = V c) → file_ok g sb V a → file_ok g sb V' a.
Proof.
  intros He [F1 F2 F3]. split; [done| |].
  - intros p Hp. rewrite (node_same V V') by done. intros Hne. destruct (F2 p Hp Hne) as (D1 & D2 & D3 & D4).
    split; [done|]. split; [done|]. split; [|done]. by rewrite (used_ext _ V) by done.
  - intros p q Hp Hq. rewrite !(node_same V V') by done. by apply F3.
Qed.

(** *** The element in namex's buffer *)

Lemma cut_app_zero n (e r : list Z) : cut n (e ++ 0 :: r) = cut n e.
Proof. revert e. induction n as [|n IH]; intros [|c e]; simpl; try done. case_match; [done|]. by rewrite IH. Qed.

Lemma cut_take n m (e r : list Z) : (n ≤ m)%nat → (m ≤ length e)%nat → cut n (take m e ++ r) = cut n e.
Proof.
  revert m e. induction n as [|n IH]; intros m e Hn Hm; [by destruct e, m|].
  destruct m as [|m]; [lia|]. destruct e as [|c e]; simpl in *; [lia|]. case_match; [done|]. f_equal. apply IH; lia.
Qed.

Lemma skipelem_spec path name e rest : skip_slashes path ≠ [] → elem_of_path (skip_slashes path) = (e, rest) →
  length name = 14%nat → Forall is_byte name → Forall is_byte e →
  ∃ buf, skipelem path name = Some (skip_slashes rest, buf) ∧ dname buf = dname e ∧ length buf = 14%nat ∧ Forall is_byte buf.
Proof.
  intros Hne He Hl Hn Hb. unfold skipelem. destruct (skip_slashes path) as [|c p] eqn:Es; [done|]. rewrite He.
  eexists. split; [reflexivity|]. change DIRSIZ with 14. unfold dname.
  destruct (Z.leb_spec 14 (Z.of_nat (length e))) as [Hlen|Hlen]; unfold splice; rewrite take_0; cbn [app Nat.add].
  - change (Z.to_nat 14) with 14%nat. rewrite length_take, Nat.min_l by lia. rewrite drop_ge by lia.
    split; [apply cut_take; lia|]. split; [rewrite app_nil_r, length_take; lia|].
    apply Forall_app. split; [by apply Forall_take | done].
  - split; [rewrite <- app_assoc; apply cut_app_zero|]. split; [rewrite !length_app, length_drop; cbn [length]; lia|].
    rewrite !Forall_app. split_and!; [done | by repeat constructor | by apply Forall_drop].
Qed.

(** ** Cache entries *)

Section path.
Context {S : Type} {BD : BlockDev S} {BL : BlockDevLaws S}.
#[local] Notation fs := (fsst S).
#[local] Notation V s := (bd_view (bd s)).
Context (devsw_read : Z → option (nat → Z → M fs (option (list Z)))).

(** [s] with [x] in entry [ip]. *)
Definition put_ip (ip : nat) (x : inode) (s : fs) : fs := Fsst (ic_lock s) (<[ip := x]> (ic s)) (sb s) (fcur s) (bd s).

Lemma isl_upd_put ip f x (s : fs) : ic s !! ip = Some x → upd_ip ip f s = put_ip ip (f x) s.
Proof. intros Hx. unfold upd_ip, put_ip. f_equal. apply list_eq. intros j. destruct (decide (j = ip)) as [->|Hj].
  - rewrite list_lookup_alter_eq, Hx. symmetry. apply list_lookup_insert_eq. by eapply lookup_lt_Some.
  - by rewrite list_lookup_alter_ne, list_lookup_insert_ne by done.
Qed.

Lemma isl_put_put ip x y (s : fs) : put_ip ip y (put_ip ip x s) = put_ip ip y s.
Proof. unfold put_ip. simpl. by rewrite list_insert_insert_eq. Qed.

Lemma lookup_put ip x (s : fs) j : (ip < length (ic s))%nat →
  ic (put_ip ip x s) !! j = if decide (j = ip) then Some x else ic s !! j.
Proof.
  intros Hl. simpl. case_decide; subst; [by apply list_lookup_insert_eq | by apply list_lookup_insert_ne].
Qed.

Lemma ip_of_lookup ip x (s : fs) : ic s !! ip = Some x → ip_of ip s = x.
Proof. unfold ip_of. by intros ->. Qed.

Lemma wp_set_ip ip f x (Q : unit → fs → Prop) s : ic s !! ip = Some x → Q tt (put_ip ip (f x) s) → wp (set_ip ip f) Q s.
Proof. intros Hx HQ. unfold set_ip. wp_step. by rewrite (isl_upd_put _ _ x). Qed.

Section disk.
Context (g : bdgeo) (sb0 : superblock) (V0 : Z → block) (L : list Z).
Context (Hroom : (length L < NBUF)%nat).

#[local] Notation disk n := (disk_inode sb0 V0 n).

(** What loading makes of an entry. *)
Definition loaded (x : inode) : inode := get_dinode (V0 (IBLOCK (i_inum x) sb0)) (dinode_off (i_inum x)) x.

(** An entry at rest: unlocked, and if it is in use and valid it holds what
    is on the disk. *)
Record entry_ok (x : inode) : Prop := {
  en_ref : 0 ≤ i_ref x;
  en_lock : sl_locked (i_lock x) = false;
  en_dev : 0 < i_ref x → i_dev x = ROOTDEV;
  en_valid : 0 < i_ref x → i_valid x = true → loaded x = x
}.

Record cache_ok (s : fs) : Prop := {
  co_lock : ic_lock s = false;
  co_sb : sb s = sb0;
  co_bd : bd_inv g ∅ L (bd s);
  co_view : ∀ c, V s c = V0 c;
  co_entry : ∀ j x, ic s !! j = Some x → entry_ok x
}.

Definition locked_by (pid : Z) (x : inode) : inode := set_i_lock (Sleeplock true pid) (set_i_valid true (loaded x)).

Lemma wp_ilock ip x (Q : unit → fs → Prop) s :
  sb s = sb0 → bd_inv g ∅ L (bd s) → (∀ c, V s c = V0 c) → ic s !! ip = Some x → entry_ok x → 0 < i_ref x →
  inode_at g sb0 V0 (i_inum x) →
  (∀ t, bd_inv g ∅ L t → (∀ c, bd_view t c = V0 c) → Q tt (put_ip ip (locked_by (fcur s) x) (set_bd t s))) →
  wp (ilock ip) Q s.
Proof.
  intros Hsb Hbd HV Hx [E1 E2 E3 E4] Hr [A1 A2 A3] HQ. pose proof (lookup_lt_Some _ _ _ Hx) as Hlt.
  unfold ilock. wp_step. wp_step. rewrite (ip_of_lookup _ _ _ Hx), (proj2 (Z.ltb_ge _ _)) by lia.
  wp_step. unfold acquiresleep_i. wp_step. wp_step. rewrite (ip_of_lookup _ _ _ Hx), E2.
  apply (wp_set_ip _ _ x); [done|]. wp_step. wp_step. set (s1 := put_ip ip _ s).
  assert (ic s1 !! ip = Some (set_i_lock (Sleeplock true (fcur s)) x)) as Hx1 by (unfold s1; rewrite lookup_put, decide_True by done; done).
  rewrite (ip_of_lookup _ _ _ Hx1). cbn [set_i_lock i_valid i_dev i_inum]. destruct (i_valid x) eqn:Ev; cbn [negb when].
  - apply wp_ret. specialize (HQ (bd s) Hbd HV). unfold locked_by in HQ. rewrite E4 in HQ by done. unfold s1.
    replace (set_i_valid true x) with x in HQ by (destruct x; simpl in *; by subst). by destruct s.
  - wp_step. wp_step. change (sb s1) with (sb s). rewrite Hsb, E3 by done. wp_step.
    eapply (f_bread g ∅ L); [exact Hbd | apply not_held_empty | done | left; by rewrite map_size_empty |].
    intros i t It _ Vt. wp_step. eapply f_bdata; [exact It | apply lookup_insert_eq |]. cbn [bd set_bd].
    rewrite Vt. change (V s1 _) with (V s (IBLOCK (i_inum x) sb0)). rewrite HV. wp_step.
    eapply wp_set_ip; [exact Hx1|]. wp_step.
    eapply (f_brelse g ∅ L); [exact It | apply lookup_empty |]. intros t2 It2 Vt2. wp_step.
    eapply wp_set_ip; [unfold s1; cbn [set_bd ic put_ip]; apply list_lookup_insert_eq; by rewrite !length_insert|].
    wp_step. wp_step. unfold s1.
    assert (∀ y w t, set_bd t2 (put_ip ip w (set_bd t (put_ip ip y s))) = put_ip ip w (set_bd t2 s)) as Epp
      by (intros; unfold put_ip, set_bd; simpl; by rewrite list_insert_insert_eq).
    rewrite Epp, isl_put_put.
    rewrite (ip_of_lookup ip (locked_by (fcur s) x)) by (rewrite lookup_put, decide_True by done; done).
    change (i_type (locked_by (fcur s) x)) with (i_type (disk (i_inum x))).
    rewrite (proj2 (Z.eqb_neq _ _)) by done. wp_step. apply HQ; [done|]. intros c. rewrite Vt2. simpl. rewrite Vt. apply HV.
Qed.

Lemma wp_iunlockput ip x (Q : unit → fs → Prop) s :
  ic_lock s = false → ic s !! ip = Some x → i_lock x = Sleeplock true (fcur s) → 0 < i_ref x → i_nlink x ≠ 0 →
  Q tt (put_ip ip (set_i_ref (i_ref x - 1) (set_i_lock (Sleeplock false 0) x)) s) → wp (iunlockput ip) Q s.
Proof.
  intros Hl Hx Hlk Hr Hn HQ. pose proof (lookup_lt_Some _ _ _ Hx) as Hlt.
  assert (∀ y (s' : fs), length (ic s') = length (ic s) → ic (put_ip ip y s') !! ip = Some y) as Hput
    by (intros y s' E; rewrite lookup_put, decide_True by (done || lia); done).
  unfold iunlockput, iunlock, holdingsleep_i, releasesleep_i. wp_steps. rewrite (ip_of_lookup _ _ _ Hx), Hlk.
  unfold holdingsleep. cbn [sl_locked sl_pid andb]. rewrite Z.eqb_refl, (proj2 (Z.ltb_ge _ _)) by lia. cbn [negb orb].
  eapply wp_set_ip; [exact Hx|]. unfold iput, acquiresleep_i, releasesleep_i. wp_step. wp_step. wp_step.
  rewrite (ip_of_lookup _ _ _ (Hput _ s eq_refl)). cbn [set_i_lock i_lock sl_locked].
  eapply wp_set_ip; [by apply Hput|]. rewrite isl_put_put. wp_step. wp_step. wp_step.
  rewrite (ip_of_lookup _ _ _ (Hput _ s eq_refl)). cbn [set_i_lock i_valid i_nlink].
  rewrite (proj2 (Z.eqb_neq _ _)), andb_false_r by done. cbn [when]. wp_step. wp_step.
  eapply wp_set_ip; [by apply Hput|]. rewrite isl_put_put. unfold acquire_icache, release_icache.
  wp_steps. cbn [put_ip ic_lock]. rewrite Hl. wp_steps.
  eapply wp_set_ip; [cbn [set_ic_lock ic put_ip]; by apply list_lookup_insert_eq|]. wp_steps. cbn [set_ic_lock ic_lock put_ip]. wp_steps.
  assert (∀ y z, set_ic_lock false (put_ip ip y (set_ic_lock true (put_ip ip z s))) = put_ip ip y s) as E.
  { intros y z. unfold set_ic_lock, put_ip. simpl. by rewrite list_insert_insert_eq, Hl. }
  rewrite E. exact HQ.
Qed.

(** *** One round of namex *)

Context (Hlay : layout g sb0 V0).

Lemma entry_unlocked x r pid : entry_ok x → 0 < i_ref x → 0 ≤ r →
  entry_ok (set_i_ref r (set_i_lock (Sleeplock false 0) (locked_by pid x))).
Proof. intros [E1 E2 E3 E4] Hr Hr'. split; simpl; try done. intros _. by apply E3. Qed.

Lemma dir_find_dname a b es : dname a = dname b → dir_find a es = dir_find b es.
Proof. intros E. unfold dir_find. apply list_find_ext. intros de. unfold live. by rewrite E. Qed.

(** The file, once its inode is locked. *)
Lemma fsok_locked ip x t pid s :
  sb s = sb0 → bd_inv g ∅ L t → (∀ c, bd_view t c = V0 c) → ic s !! ip = Some x → entry_ok x → 0 < i_ref x →
  file_ok g sb0 V0 (i_addrs (disk (i_inum x))) →
  let s1 := put_ip ip (locked_by pid x) (set_bd t s) in fsok g ∅ L ip s1 ∧ ip_of ip s1 = locked_by pid x.
Proof.
  intros Hsb It Vt Hx E Hr F s1. pose proof (lookup_lt_Some _ _ _ Hx) as Hlt.
  assert (ip_of ip s1 = locked_by pid x) as Ei by (apply ip_of_lookup; unfold s1; rewrite lookup_put, decide_True by done; done).
  assert (i_addrs (locked_by pid x) = i_addrs (disk (i_inum x))) as Ea by done.
  split; [|done]. split; rewrite ?Ei, ?Ea; cbn [s1 put_ip set_bd sb bd ic].
  - exact It.
  - rewrite Hsb. eapply layout_ext; [|exact Hlay]. intros; apply Vt.
  - intros i b m Hi. by rewrite lookup_empty in Hi.
  - rewrite Hsb. by eapply file_ok_same.
  - intros p _ _. apply not_held_empty.
  - by apply E.
  - by rewrite length_insert.
Qed.

(** The directory, once it is locked. *)
Lemma dir_locked ip x cnt t pid s :
  sb s = sb0 → bd_inv g ∅ L t → (∀ c, bd_view t c = V0 c) → ic s !! ip = Some x → entry_ok x → 0 < i_ref x →
  dir_at g sb0 V0 (i_inum x) cnt →
  let s1 := put_ip ip (locked_by pid x) (set_bd t s) in
  dir_ok g ∅ L ip cnt s1 ∧ i_addrs (ip_of ip s1) = i_addrs (disk (i_inum x)) ∧ i_dev (ip_of ip s1) = ROOTDEV ∧
  dirents (V s1) (i_addrs (ip_of ip s1)) cnt = dirents V0 (i_addrs (disk (i_inum x))) cnt.
Proof.
  intros Hsb It Vt Hx E Hr [A1 A2 A3 A4 A5 A6] s1.
  destruct (fsok_locked ip x t pid s Hsb It Vt Hx E Hr A5) as [F Ei]. fold s1 in F, Ei.
  assert (i_addrs (locked_by pid x) = i_addrs (disk (i_inum x))) as Ea by done.
  rewrite Ei, Ea. split_and!; [|done | by apply E | apply dirents_same; [exact Vt | done]].
  split; rewrite ?Ei, ?Ea; try done.
  intros k Hk. rewrite (fbyte_same V0) by (done || lia). by apply A6.
Qed.

(** Reference counts: those of [s0], and one more on [ip]. *)
Record holding (s0 s : fs) (ip : option nat) : Prop := {
  hd_len : length (ic s) = length (ic s0);
  hd_ref : ∀ j, i_ref (ip_of j s) = i_ref (ip_of j s0) + (if decide (ip = Some j) then 1 else 0)
}.

(** Two entries of the cache are unused. *)
Definition two_unused (s0 : fs) : Prop :=
  ∃ a b, a ≠ b ∧ (a < length (ic s0))%nat ∧ (b < length (ic s0))%nat ∧ i_ref (ip_of a s0) = 0 ∧ i_ref (ip_of b s0) = 0.

Lemma iget_slot_cases dev m l j y : l !! j = Some y → i_ref y = 0 →
  ∃ nx w f, iget_slot dev m l = Some (nx, f) ∧ l !! nx = Some w ∧
    ((cached dev m w ∧ f = λ x, set_i_ref (i_ref x + 1) x) ∨ (i_ref w = 0 ∧ f = set_i_key dev m 1)).
Proof.
  intros Hj Hy. unfold iget_slot. destruct (list_find (cached dev m) l) as [[nx w]|] eqn:E.
  - apply list_find_Some in E as (Hw & Hc & _). eexists nx, w, _. split; [done|]. auto.
  - destruct (list_find_elem_of unused l y) as [[nx w] E']; [by eapply list_elem_of_lookup_2 | done |].
    rewrite E'. apply list_find_Some in E' as (Hw & Hc & _). eexists nx, w, _. split; [done|]. auto.
Qed.

Lemma unused_other s0 s ip : two_unused s0 → holding s0 s (Some ip) →
  ∃ j y, ic s !! j = Some y ∧ i_ref y = 0 ∧ j ≠ ip.
Proof.
  intros (a & b & Hab & Ha & Hb & Ra & Rb) [Hl Hr].
  assert (∀ j, (j < length (ic s0))%nat → i_ref (ip_of j s0) = 0 → j ≠ ip → ∃ j y, ic s !! j = Some y ∧ i_ref y = 0 ∧ j ≠ ip) as Hj.
  { intros j Hj Hj0 Hne. destruct (lookup_lt_is_Some_2 (ic s) j) as [y Hy]; [lia|]. exists j, y. split_and!; [done| |done].
    specialize (Hr j). rewrite (ip_of_lookup _ _ _ Hy), Hj0, decide_False in Hr by congruence. lia. }
  destruct (decide (a = ip)) as [->|Hne]; eauto.
Qed.

Lemma cache_put s ip z t : cache_ok s → bd_inv g ∅ L t → (∀ c, bd_view t c = V0 c) → entry_ok z →
  cache_ok (put_ip ip z (set_bd t s)).
Proof.
  intros [C1 C2 C3 C4 C5] It Vt Hz. split; try done. intros j x. cbn [put_ip set_bd ic]. intros Hj.
  destruct (decide (j = ip)) as [->|Hne].
  - apply list_lookup_insert_Some in Hj as [(_ & <- & _)|(? & _)]; done.
  - rewrite list_lookup_insert_ne in Hj by done. by eapply C5.
Qed.

Lemma put_mask ip nx y z w t t2 (s : fs) :
  put_ip ip z (put_ip nx w (set_bd t2 (put_ip ip y (set_bd t s)))) = put_ip ip z (put_ip nx w (set_bd t2 s)).
Proof.
  unfold put_ip, set_bd. simpl. f_equal. destruct (decide (nx = ip)) as [->|Hne].
  - by rewrite !list_insert_insert_eq.
  - rewrite (list_insert_insert_ne _ nx ip) by done. by rewrite list_insert_insert_eq, list_insert_insert_ne by done.
Qed.

Lemma ref_put ip z (s : fs) j : (ip < length (ic s))%nat →
  i_ref (ip_of j (put_ip ip z s)) = if decide (j = ip) then i_ref z else i_ref (ip_of j s).
Proof. intros Hl. unfold ip_of. rewrite lookup_put by done. by case_decide. Qed.

(** The entry that iget has taken. *)
Lemma got_entry m w f : entry_ok w →
  (cached ROOTDEV m w ∧ f = λ y, set_i_ref (i_ref y + 1) y) ∨ (i_ref w = 0 ∧ f = set_i_key ROOTDEV m 1) →
  entry_ok (f w) ∧ i_inum (f w) = m ∧ i_ref (f w) = i_ref w + 1.
Proof.
  intros [E1 E2 E3 E4] [[(Hc1 & Hc2 & Hc3) ->]|[Hf ->]]; cbn.
  - split_and!; [|done|done]. split; cbn; try done; [lia|].
    intros _ Hv. pose proof (E4 Hc1 Hv) as Hl. destruct w. unfold loaded, get_dinode in *. cbn in *.
    by injection Hl as -> -> -> -> -> ->.
  - split_and!; [|done|lia]. split; cbn; done || lia.
Qed.

(** The cache after a round that found the next inode. *)
Lemma round_found s0 s ip x m nx w w0 f t t2 pid :
  cache_ok s → holding s0 s (Some ip) → ic s !! ip = Some x → 0 < i_ref x →
  bd_inv g ∅ L t2 → (∀ c, bd_view t2 c = V0 c) →
  w0 = (if decide (nx = ip) then locked_by pid x else w) → ic s !! nx = Some w →
  ((cached ROOTDEV m w0 ∧ f = λ y, set_i_ref (i_ref y + 1) y) ∨ (i_ref w0 = 0 ∧ f = set_i_key ROOTDEV m 1)) →
  let y := if decide (nx = ip) then f w0 else locked_by pid x in
  let s' := put_ip ip (set_i_ref (i_ref y - 1) (set_i_lock (Sleeplock false 0) y))
              (put_ip nx (f w0) (set_bd t2 (put_ip ip (locked_by pid x) (set_bd t s)))) in
  cache_ok s' ∧ holding s0 s' (Some nx) ∧ i_inum (ip_of nx s') = m ∧ 0 < i_ref (ip_of nx s').
Proof.
  intros C [Hlen Href] Hx Hr It Vt -> Hw Hf y s'. unfold s'. rewrite put_mask. clear s'.
  pose proof (co_entry _ C _ _ Hx) as Ex. pose proof (co_entry _ C _ _ Hw) as Ew.
  pose proof (lookup_lt_Some _ _ _ Hx) as Lx. pose proof (lookup_lt_Some _ _ _ Hw) as Lw.
  assert (∀ j, i_ref (ip_of j s0) = i_ref (ip_of j s) - (if decide (j = ip) then 1 else 0)) as Hr0.
  { intros j. specialize (Href j). repeat case_decide; simplify_eq; lia. }
  destruct (decide (nx = ip)) as [->|Hne].
  - assert (w = x) as -> by congruence. destruct Hf as [[(Hc1 & Hc2 & Hc3) ->]|[Hf _]]; [|simpl in Hf; lia].
    unfold y. rewrite isl_put_put. cbn in Hc3.
    set (z := set_i_ref _ (set_i_lock _ _)). assert (z = set_i_ref (i_ref x) (set_i_lock (Sleeplock false 0) (locked_by pid x))) as Ez.
    { unfold z, set_i_ref, set_i_lock. cbn. f_equal. lia. }
    assert (ip_of ip (put_ip ip z (set_bd t2 s)) = z) as Ei by (apply ip_of_lookup; rewrite lookup_put, decide_True by done; done).
    split; [apply cache_put; [done..|]; rewrite Ez; apply entry_unlocked; done || lia|]. split; [|rewrite Ei, Ez; done].
    split; [cbn; by rewrite length_insert|]. intros j. rewrite ref_put by done. specialize (Hr0 j). rewrite Ez.
    change (ip_of j (set_bd t2 s)) with (ip_of j s).
    destruct (decide (j = ip)) as [->|Hj]; [rewrite decide_True by done | rewrite decide_False by congruence; lia].
    rewrite (ip_of_lookup _ _ _ Hx) in Hr0. simpl. lia.
  - unfold y. change (i_ref (locked_by pid x)) with (i_ref x).
    set (z := set_i_ref _ (set_i_lock _ _)). set (s2 := put_ip nx (f w) (set_bd t2 s)).
    destruct (got_entry _ _ _ Ew Hf) as (Efw & Hm & Hrw).
    assert (cache_ok s2) as C2 by (by apply cache_put).
    split.
    { change (put_ip ip z s2) with (put_ip ip z (set_bd (bd s2) s2)). apply cache_put; [done | apply C2 | apply C2 |].
      apply entry_unlocked; [done | done | lia]. }
    assert (ip_of nx (put_ip ip z s2) = f w) as Enx.
    { apply ip_of_lookup. unfold s2. cbn [put_ip set_bd ic]. rewrite list_lookup_insert_ne by done. by apply list_lookup_insert_eq. }
    rewrite Enx. split; [|split; [done | rewrite Hrw; pose proof (en_ref _ Ew); lia]].
    split; [cbn; by rewrite !length_insert|]. intros j. rewrite ref_put by (unfold s2; cbn; by rewrite length_insert).
    unfold s2. rewrite ref_put by done. change (ip_of j (set_bd t2 s)) with (ip_of j s). specialize (Hr0 j).
    destruct (decide (j = ip)) as [->|Hj].
    + rewrite decide_False by congruence. rewrite (ip_of_lookup _ _ _ Hx) in Hr0. cbn. lia.
    + destruct (decide (j = nx)) as [->|Hj'].
      * rewrite decide_True by done. rewrite (ip_of_lookup _ _ _ Hw) in Hr0. lia.
      * rewrite decide_False by congruence. lia.
Qed.

(** The cache after a round that found nothing. *)
Lemma round_dropped s0 s ip x t t2 pid :
  cache_ok s → holding s0 s (Some ip) → ic s !! ip = Some x → 0 < i_ref x →
  bd_inv g ∅ L t2 → (∀ c, bd_view t2 c = V0 c) →
  let s' := put_ip ip (set_i_ref (i_ref x - 1) (set_i_lock (Sleeplock false 0) (locked_by pid x)))
              (set_bd t2 (put_ip ip (locked_by pid x) (set_bd t s))) in
  cache_ok s' ∧ holding s0 s' None.
Proof.
  intros C [Hlen Href] Hx Hr It Vt s'. pose proof (lookup_lt_Some _ _ _ Hx) as Lx.
  assert (s' = put_ip ip (set_i_ref (i_ref x - 1) (set_i_lock (Sleeplock false 0) (locked_by pid x))) (set_bd t2 s)) as ->
    by (unfold s', put_ip, set_bd; cbn; by rewrite list_insert_insert_eq).
  split; [apply cache_put; [done..|]; apply entry_unlocked; [by eapply co_entry | done | lia]|].
  split; [cbn; by rewrite length_insert|]. intros j. rewrite ref_put by done. rewrite (decide_False (P := None = Some j)) by done.
  change (ip_of j (set_bd t2 s)) with (ip_of j s). specialize (Href j).
  destruct (decide (j = ip)) as [->|Hj]; [rewrite decide_True in Href by done | rewrite decide_False in Href by congruence; lia].
  rewrite (ip_of_lookup _ _ _ Hx) in Href. cbn. lia.
Qed.

Lemma elem_skip_skip path : skip_slashes (skip_slashes path) = skip_slashes path.
Proof. induction path as [|c p IH]; [done|]. simpl. destruct (c =? SLASH) eqn:Ec; [done|]. simpl. by rewrite Ec. Qed.

Lemma skip_length path : (length (skip_slashes path) ≤ length path)%nat.
Proof. induction path as [|c p IH]; simpl; [done|]. case_match; simpl; lia. Qed.

Lemma namex_skip fuel ip path b name :
  namex_loop devsw_read fuel ip (skip_slashes path) b name = namex_loop devsw_read fuel ip path b name.
Proof.
  assert (skipelem (skip_slashes path) name = skipelem path name) as E by (unfold skipelem; by rewrite elem_skip_skip).
  destruct fuel; cbn [namex_loop]; by rewrite E.
Qed.

Lemma elem_shorter path e rest : skip_slashes path ≠ [] → elem_of_path (skip_slashes path) = (e, rest) →
  (length (skip_slashes rest) < length (skip_slashes path))%nat.
Proof.
  intros Hne He.
  assert (∀ p e r, elem_of_path p = (e, r) → (length e + length r = length p)%nat) as Hl.
  { intros p. induction p as [|c p IH]; intros e' r; simpl; [by intros [= <- <-]|].
    destruct (c =? SLASH); [by intros [= <- <-]|]. destruct (elem_of_path p) as [e1 r1].
    intros [= <- <-]. specialize (IH e1 r1 eq_refl). simpl. lia. }
  pose proof (Hl _ _ _ He) as Hle. pose proof (skip_length rest) as Hr.
  destruct (skip_slashes path) as [|c p] eqn:Es; [done|].
  assert (c ≠ SLASH) as Hc.
  { clear -Es. induction path as [|d q IH]; [done|]. simpl in Es. destruct (Z.eqb_spec d SLASH); [auto|]. by injection Es as -> ->. }
  simpl in He. rewrite (proj2 (Z.eqb_neq _ _)) in He by done. destruct (elem_of_path p) as [e1 r1]. injection He as <- <-.
  simpl in *. lia.
Qed.

(** What a walk leaves: a reference to the inode found and no other, or none. *)
Definition walked (s0 : fs) (r : option Z) (res : option nat) (s' : fs) : Prop :=
  cache_ok s' ∧
  match r with
  | Some m => ∃ ip, res = Some ip ∧ holding s0 s' (Some ip) ∧ cached ROOTDEV m (ip_of ip s')
  | None => res = None ∧ holding s0 s' None
  end.

(** Locking the directory and looking the element up. *)
Lemma wp_lookup_locked {A} ip x buf e r cnt (A1 A2 : M fs A) (k : option (nat * Z) → M fs A) (Q : A → fs → Prop) s :
  cache_ok s → ic s !! ip = Some x → 0 < i_ref x → dir_at g sb0 V0 (i_inum x) cnt →
  dir_find e (dirents V0 (i_addrs (disk (i_inum x))) cnt) = r →
  mapped V0 (i_addrs (disk (i_inum x))) 0 (16 * Z.of_nat (reach r cnt)) → dname buf = dname e → Forall is_byte buf →
  (∀ t t2, bd_inv g ∅ L t2 → (∀ c, bd_view t2 c = V0 c) →
    let s1 := set_bd t2 (put_ip ip (locked_by (fcur s) x) (set_bd t s)) in
    match r with
    | Some (j, de) => wp (iget ROOTDEV (de_inum de)) (λ nx, wp (k (Some (nx, 16 * Z.of_nat j))) Q) s1
    | None => wp (k None) Q s1
    end) →
  wp (ilock ip;; y ← gets (ip_of ip); if negb (i_type y =? T_DIR) then A1 else
      if false && (match ([] : list Z) with [] => true | _ => false end) then A2 else
      res ← dirlookup devsw_read ip buf; k res) Q s.
Proof.
  intros C Hx Hr Hdir Hfind Hmap Hd Hb HQ. pose proof (co_entry _ C _ _ Hx) as Ex.
  wp_step. eapply wp_ilock; [apply C | apply C | apply C | done | done | done | apply Hdir |].
  intros t It Vt. destruct (dir_locked ip x cnt t (fcur s) s) as (D & Ea & Edev & Ee); [by apply C | done..|].
  wp_step. wp_step. rewrite (dk_type _ _ _ _ _ _ D). cbn [T_DIR Z.eqb Pos.eqb negb andb].
  assert (dir_find buf (dirents V0 (i_addrs (disk (i_inum x))) cnt) = r) as Hfind' by (by rewrite (dir_find_dname _ e)).
  wp_step. set (s1 := put_ip _ _ _) in *.
  eapply (wp_dirlookup devsw_read g ∅ L ip buf cnt); [done | done | |].
  - rewrite Ee, Hfind', Ea. eapply mapped_same; [exact Vt | | done].
    pose proof (da_max _ _ _ _ _ Hdir). rewrite <- Hfind.
    pose proof (reach_le e (dirents V0 (i_addrs (disk (i_inum x))) cnt)) as Hre. rewrite length_dirents in Hre. lia.
  - intros t2 It2 Vt2. rewrite Ee, Hfind', Edev.
    assert (∀ c, bd_view t2 c = V0 c) as Vt2' by (intros c; rewrite Vt2; apply Vt).
    specialize (HQ t t2 It2 Vt2'). destruct r as [[j de]|]; exact HQ.
Qed.

Lemma wp_namex_loop s0 n path r : resolves g sb0 V0 n path r → two_unused s0 → ∀ fuel ip x name s,
  (length (skip_slashes path) ≤ fuel)%nat → cache_ok s → holding s0 s (Some ip) → ic s !! ip = Some x →
  i_inum x = n → 0 < i_ref x → length name = 14%nat → Forall is_byte name →
  wp (namex_loop devsw_read fuel ip path false name) (λ res, walked s0 r res.1) s.
Proof.
  intros R H2. induction R as [n path Hs|n path e rest j de r Hne He Hb (cnt & Hdir & Hfind & Hmap) R IH|
      n path e rest Hne He Hb (cnt & Hdir & Hfind & Hmap)|n path Hne Hat Hty];
    intros fuel ip x name s Hf C Ho Hx Hn Hr Hl Hbn.
  - assert (skipelem path name = None) as E by (unfold skipelem; by rewrite Hs).
    assert (wp (mret (Some ip, name)) (λ res, walked s0 (Some n) res.1) s) as Hw.
    { apply wp_ret. split; [done|]. exists ip. split; [done|]. split; [done|]. rewrite (ip_of_lookup _ _ _ Hx).
      split; [done|]. split; [by apply (co_entry _ C _ _ Hx) | done]. }
    destruct fuel; cbn [namex_loop]; by rewrite E.
  - destruct (skipelem_spec _ _ _ _ Hne He Hl Hbn Hb) as (buf & E & Hd & Hbl & Hbb).
    pose proof (elem_shorter _ _ _ Hne He). destruct fuel as [|fuel]; [lia|]. cbn [namex_loop]. rewrite E. subst n.
    eapply (wp_lookup_locked ip x buf e _ cnt _ _ (λ r0, match r0 with None => _ | Some (next, _) => _ end)); try done.
    intros t t2 It2 Vt2 s1. pose proof (lookup_lt_Some _ _ _ Hx) as Lx.
    assert (∀ i, ic s1 !! i = if decide (i = ip) then Some (locked_by (fcur s) x) else ic s !! i) as Hs1
      by (intros i; unfold s1; cbn [set_bd ic]; by rewrite lookup_put).
    destruct (unused_other _ _ _ H2 Ho) as (u & y & Hu & Hy & Hui).
    destruct (iget_slot_cases ROOTDEV (de_inum de) (ic s1) u y) as (nx & w0 & f & Hs & Hw0 & Hf');
      [by rewrite Hs1, decide_False | done |].
    assert (∃ w, ic s !! nx = Some w ∧ w0 = if decide (nx = ip) then locked_by (fcur s) x else w) as (w & Hw & Ew).
    { rewrite Hs1 in Hw0. case_decide; [subst; exists x; split; [done | congruence] | by exists w0]. }
    eapply (wp_iget _ _ nx f); [exact (co_lock _ C) | exact Hs |]. rewrite (isl_upd_put _ _ w0) by done. wp_step.
    destruct (round_found s0 s ip x (de_inum de) nx w w0 f t t2 (fcur s) C Ho Hx Hr It2 Vt2 Ew Hw Hf') as (C' & Ho' & Hm & Hrf).
    eapply wp_iunlockput; [exact (co_lock _ C) | | | | |].
    + instantiate (1 := if decide (nx = ip) then f w0 else locked_by (fcur s) x). cbn [put_ip ic].
      case_decide as Hni; [subst nx; apply list_lookup_insert_eq; by eapply lookup_lt_Some | rewrite list_lookup_insert_ne by done; by rewrite Hs1, decide_True].
    + cbn [put_ip set_bd fcur]. case_decide; [|done]. destruct Hf' as [[_ ->]|[Hf0 _]]; [by rewrite Ew|].
      rewrite Ew in Hf0. cbn in Hf0. lia.
    + case_decide; [|done]. destruct Hf' as [[_ ->]|[Hf0 _]]; rewrite Ew in *; cbn in *; lia.
    + assert (i_nlink (locked_by (fcur s) x) ≠ 0) as Hnl by apply Hdir.
      case_decide; [|done]. destruct Hf' as [[_ ->]|[Hf0 _]]; rewrite Ew in *; [done | cbn in Hf0; lia].
    + rewrite namex_skip.
      match goal with |- wp _ _ ?st => set (s4 := st); change (cache_ok s4) in C'; change (holding s0 s4 (Some nx)) in Ho';
        change (i_inum (ip_of nx s4) = de_inum de) in Hm; change (0 < i_ref (ip_of nx s4)) in Hrf end.
      destruct (lookup_lt_is_Some_2 (ic s4) nx) as [z Hz]; [cbn; rewrite !length_insert; by eapply lookup_lt_Some|].
      rewrite (ip_of_lookup _ _ _ Hz) in Hm, Hrf.
      eapply (IH fuel nx z); try done. lia.
  - destruct (skipelem_spec _ _ _ _ Hne He Hl Hbn Hb) as (buf & E & Hd & Hbl & Hbb).
    pose proof (elem_shorter _ _ _ Hne He). destruct fuel as [|fuel]; [lia|]. cbn [namex_loop]. rewrite E. subst n.
    eapply (wp_lookup_locked ip x buf e _ cnt _ _ (λ r0, match r0 with None => _ | Some (next, _) => _ end)); try done.
    intros t t2 It2 Vt2 s1. pose proof (lookup_lt_Some _ _ _ Hx) as Lx. cbv beta iota. wp_step.
    eapply wp_iunlockput; [exact (co_lock _ C) | by apply list_lookup_insert_eq | done | done | apply Hdir |].
    wp_step. destruct (round_dropped s0 s ip x t t2 (fcur s) C Ho Hx Hr It2 Vt2) as [C' Ho']. by split.
  - assert (∃ rest buf, skipelem path name = Some (rest, buf)) as (rest & buf & E).
    { unfold skipelem. destruct (skip_slashes path) as [|c p]; [done|]. destruct (elem_of_path (c :: p)). eauto. }
    destruct fuel as [|fuel]; [destruct (skip_slashes path); [done | simpl in Hf; lia]|].
    cbn [namex_loop]. rewrite E. subst n. pose proof (lookup_lt_Some _ _ _ Hx) as Lx.
    wp_step. eapply wp_ilock; [apply C | apply C | apply C | done | by eapply co_entry | done | done |].
    intros t It Vt. wp_step. wp_step.
    rewrite (ip_of_lookup ip (locked_by (fcur s) x)) by (rewrite lookup_put, decide_True by done; done).
    change (i_type (locked_by (fcur s) x)) with (i_type (disk (i_inum x))). rewrite (proj2 (Z.eqb_neq _ _)) by done.
    cbn [negb]. wp_step.
    eapply wp_iunlockput; [exact (co_lock _ C) | by apply list_lookup_insert_eq | done | done | apply Hat |].
    wp_step. destruct (round_dropped s0 s ip x t t (fcur s) C Ho Hx Hr It Vt) as [C' Ho']. by split.
Qed.

(** *** The first inode of a walk *)

Lemma wp_start_root (Q : nat → fs → Prop) s0 : cache_ok s0 → two_unused s0 →
  (∀ ip x s, cache_ok s → holding s0 s (Some ip) → ic s !! ip = Some x → i_inum x = ROOTINO → 0 < i_ref x → Q ip s) →
  wp (iget ROOTDEV ROOTINO) Q s0.
Proof.
  intros C (a & b & _ & Ha & _ & Ra & _) HQ. destruct (lookup_lt_is_Some_2 (ic s0) a Ha) as [y Hy].
  rewrite (ip_of_lookup _ _ _ Hy) in Ra.
  destruct (iget_slot_cases ROOTDEV ROOTINO (ic s0) a y Hy Ra) as (nx & w & f & Hs & Hw & Hf).
  eapply (wp_iget _ _ nx f); [apply C | done |]. rewrite (isl_upd_put _ _ w) by done.
  destruct (got_entry _ _ _ (co_entry _ C _ _ Hw) Hf) as (E & Hm & Hr).
  pose proof (lookup_lt_Some _ _ _ Hw) as Lw. pose proof (en_ref _ (co_entry _ C _ _ Hw)).
  apply (HQ nx (f w)); [| |by rewrite lookup_put, decide_True by done|done|lia].
  - change (put_ip nx (f w) s0) with (put_ip nx (f w) (set_bd (bd s0) s0)). apply cache_put; try done; apply C.
  - split; [cbn; by rewrite length_insert|]. intros j. rewrite ref_put by done.
    destruct (decide (j = nx)) as [->|Hj]; [rewrite decide_True by done; by rewrite (ip_of_lookup _ _ _ Hw)|].
    rewrite decide_False by congruence. lia.
Qed.

Lemma wp_start_cwd cwd x (Q : nat → fs → Prop) s0 : cache_ok s0 → ic s0 !! cwd = Some x → 0 < i_ref x →
  (∀ ip x' s, cache_ok s → holding s0 s (Some ip) → ic s !! ip = Some x' → i_inum x' = i_inum x → 0 < i_ref x' → Q ip s) →
  wp (idup cwd) Q s0.
Proof.
  intros C Hx Hr HQ. pose proof (lookup_lt_Some _ _ _ Hx) as Lx.
  set (f := λ y, set_i_ref (i_ref y + 1) y).
  assert (wp (idup cwd) (λ ip s, ip = cwd ∧ s = put_ip cwd (f x) s0) s0) as Hw.
  { unfold idup, acquire_icache, release_icache. wp_steps. rewrite (co_lock _ C). wp_steps.
    eapply wp_set_ip; [exact Hx|]. wp_steps. cbn [put_ip set_ic_lock ic_lock]. wp_steps. split; [done|].
    pose proof (co_lock _ C). destruct s0. cbn in *. by subst. }
  eapply wp_mono; [exact Hw|]. intros ip s (-> & ->).
  destruct (got_entry (i_inum x) x f (co_entry _ C _ _ Hx)) as (E & Hm & Hr').
  { left. split; [|done]. split; [done|]. split; [by apply (co_entry _ C _ _ Hx) | done]. }
  apply (HQ cwd (f x)); [| |by rewrite lookup_put, decide_True by done|done|lia].
  - change (put_ip cwd (f x) s0) with (put_ip cwd (f x) (set_bd (bd s0) s0)). apply cache_put; try done; apply C.
  - split; [cbn; by rewrite length_insert|]. intros j. rewrite ref_put by done.
    destruct (decide (j = cwd)) as [->|Hj]; [rewrite decide_True by done; by rewrite (ip_of_lookup _ _ _ Hx)|].
    rewrite decide_False by congruence. lia.
Qed.

(** Where a path starts: the root, or the current directory, of which the
    process holds a reference. *)
Definition absolute (path : list Z) : bool := match path with c :: _ => c =? SLASH | [] => false end.

Definition path_start (cwd : nat) (path : list Z) (s : fs) : Z :=
  if absolute path then ROOTINO else i_inum (ip_of cwd s).

Definition cwd_ok (cwd : nat) (path : list Z) (s : fs) : Prop :=
  absolute path = false → (cwd < length (ic s))%nat ∧ 0 < i_ref (ip_of cwd s).

Lemma wp_namei cwd path r s :
  cache_ok s → two_unused s → cwd_ok cwd path s →
  resolves g sb0 V0 (path_start cwd path s) path r → wp (namei devsw_read cwd path) (walked s r) s.
Proof.
  intros C H2 Hc R. pose proof (skip_length path) as Hl. unfold namei, namex. wp_step. wp_step.
  assert (∀ ip y s', cache_ok s' → holding s s' (Some ip) → ic s' !! ip = Some y → i_inum y = path_start cwd path s → 0 < i_ref y →
    wp (namex_loop devsw_read (length path) ip path false (replicate 14 0)) (λ res, wp (mret res.1) (walked s r)) s') as Hloop.
  { intros ip y s' C' Ho Hy Hi Hry. eapply wp_mono; [eapply (wp_namex_loop s _ _ r R H2); try done; by repeat constructor|].
    intros res s'' Hw. by apply wp_ret. }
  unfold path_start in Hloop. destruct (absolute path) eqn:Ea.
  - destruct path as [|c p]; [done|]. unfold absolute in Ea. rewrite Ea. by apply wp_start_root.
  - destruct (Hc Ea) as [Hc1 Hc2]. destruct (lookup_lt_is_Some_2 (ic s) cwd Hc1) as [x Hx]. rewrite (ip_of_lookup _ _ _ Hx) in *.
    destruct path as [|c p]; [|unfold absolute in Ea; rewrite Ea]; by apply (wp_start_cwd cwd x).
Qed.

End disk.

(** C18. Path resolution: for a cache whose entries in use agree with the disk
    and are unlocked, with two entries free, namei of a path that resolves on
    the disk, from the root or from the current directory, returns an entry for
    the inode the path names, with one reference more than before, and no
    other reference count changes; for a path with a missing element, or that
    goes on after a file, it returns 0 and every reference count is as before.
    The disk is not written and the cache is again in agreement with it. *)
Theorem namei_resolves g L s cwd path r :
  layout g (sb s) (V s) → (length L < NBUF)%nat → cache_ok g (sb s) (V s) L s → two_unused s →
  cwd_ok cwd path s → resolves g (sb s) (V s) (path_start cwd path s) path r →
  wp (namei devsw_read cwd path) (λ res s', cache_ok g (sb s) (V s) L s' ∧
    match r with
    | Some m => ∃ ip, res = Some ip ∧ holding s s' (Some ip) ∧ cached ROOTDEV m (ip_of ip s')
    | None => res = None ∧ holding s s' None
    end) s.
Proof. intros Hlay HL C H2 Hc R. by apply wp_namei. Qed.

End path.
