(* ===== verification/Mkfs.v ===== *)
(** * Mkfs: the program that builds the file system image

    mkfs.c runs on the host: it zeroes FSSIZE sectors, writes the super block,
    makes the root directory and one file for each argument, and marks the
    blocks it used in the free map.  The image is a map from sectors to blocks;
    the files named on the command line are a parameter, the results of the
    successive read calls on each.  The theorem says that the image is a file
    system in the sense of the kernel's own proofs (FsBlock.v, FsMap.v): the
    kernel finds the super block, an empty log, the free map, and behind each
    inode exactly the bytes of the file.  iappend fills direct blocks and one
    indirect block only; what it does beyond them is the second theorem. *)

From Stdlib Require Import ZArith Lia Bool.
From stdpp Require Import base option list sets gmap strings numbers.
From S2P Require Import Prelude Cstring Locks Bio BioSpec Log Blockdev Fs Dinode FsBlock FsMap FsRw FsDir FsPath.

#[local] Open Scope string_scope.
#[local] Open Scope list_scope.
#[local] Open Scope Z_scope.

(** ** The program *)

Definition FSSIZE : Z := 40000.
Definition NINODES : Z := 200.
Definition nbitmap : Z := FSSIZE / (BSIZE * 8) + 1.
Definition ninodeblocks : Z := NINODES / IPB + 1.
Definition nlog : Z := LOGSIZE.
Definition nmeta : Z := 2 + nlog + ninodeblocks + nbitmap.

(** The super block that main fills in, and its bytes in sector 1. *)
Definition mk_sb : superblock :=
  Sb FSSIZE (FSSIZE - nmeta) NINODES nlog 2 (2 + nlog) (2 + nlog + ninodeblocks).

Definition sb_block (b : superblock) : block :=
  put32 (put32 (put32 (put32 (put32 (put32 (put32 zero_block 0 (sb_size b)) 4 (sb_nblocks b))
    8 (sb_ninodes b)) 12 (sb_nlog b)) 16 (sb_logstart b)) 20 (sb_inodestart b)) 24 (sb_bmapstart b).

(** The image file fsfd, [k_len] sectors long, and the two counters. *)
Record mkst := Mk { k_img : gmap Z block; k_len : Z; k_freeinode : Z; k_freeblock : Z }.

Definition mk0 : mkst := Mk ∅ 0 1 0.

Definition img (s : mkst) (b : Z) : block := default zero_block (k_img s !! b).

Definition set_freeblock (v : Z) (s : mkst) : mkst := Mk (k_img s) (k_len s) (k_freeinode s) v.
Definition set_freeinode (v : Z) (s : mkst) : mkst := Mk (k_img s) (k_len s) v (k_freeblock s).
Definition put_sect (b : Z) (d : block) (s : mkst) : mkst :=
  Mk (<[b := d]> (k_img s)) (Z.max (k_len s) (b + 1)) (k_freeinode s) (k_freeblock s).

(** lseek to sec * BSIZE, an unsigned product, then write or read BSIZE bytes;
    a read past the end of the file is short, and mkfs exits. *)
Definition sect (sec : Z) : Z := u32 (sec * BSIZE) / BSIZE.

Definition wsect (sec : Z) (buf : block) : M mkst unit := modify (put_sect (sect sec) buf).

Definition rsect (sec : Z) : M mkst block :=
  n ← gets k_len;
  if n <=? sect sec then panic "read" else gets (λ s, img s (sect sec)).

(** struct dinode is the disk part of the kernel's struct inode. *)
Definition winode (inum : Z) (ip : inode) : M mkst unit :=
  let bn := IBLOCK inum mk_sb in
  buf ← rsect bn;
  wsect bn (put_dinode buf (dinode_off inum) ip).

Definition rinode (inum : Z) : M mkst inode :=
  buf ← rsect (IBLOCK inum mk_sb);
  mret (get_dinode buf (dinode_off inum) inode0).

Definition ialloc (type : Z) : M mkst Z :=
  inum ← gets k_freeinode;
  modify (set_freeinode (u32 (inum + 1)));;
  winode inum (set_i_size 0 (set_i_nlink 1 (set_i_type type inode0)));;
  mret inum.

Definition balloc (used : Z) : M mkst unit :=
  if BSIZE * 8 <=? used then panic "assert used < BSIZE*8" else
  wsect (sb_bmapstart mk_sb) (foldl set_bit zero_block (map Z.of_nat (seq 0 (Z.to_nat used)))).

(** freeblock++ *)
Definition newblock : M mkst Z :=
  b ← gets k_freeblock;
  modify (set_freeblock (u32 (b + 1)));;
  mret b.

(** din.addrs[k], given a block if it has none. *)
Definition addr_alloc (k : Z) (din : inode) : M mkst inode :=
  if addr_of din k =? 0 then b ← newblock; mret (set_i_addr k b din) else mret din.

(** The block of the file that holds byte fbn * BSIZE: indirect[] is an array
    of NINDIRECT numbers. *)
Definition iappend_block (fbn : Z) (din : inode) : M mkst (inode * Z) :=
  if fbn <? NDIRECT then
    din ← addr_alloc fbn din;
    mret (din, addr_of din fbn)
  else
    din ← addr_alloc NDIRECT din;
    ind ← rsect (addr_of din NDIRECT);
    let j := fbn - NDIRECT in
    if NINDIRECT <=? j then undef "indirect[fbn - NDIRECT]" else
    if get32 ind (4 * j) =? 0 then
      b ← newblock;
      wsect (addr_of din NDIRECT) (put32 ind (4 * j) b);;
      mret (din, b)
    else mret (din, get32 ind (4 * j)).

(** The loop of iappend: it ends within as many rounds as there are bytes.
    off stays below MAXFILE * BSIZE + BSIZE < 2^32. *)
Fixpoint iappend_loop (fuel : nat) (din : inode) (off : Z) (p : list Z) : M mkst (inode * Z) :=
  match p, fuel with
  | [], _ => mret (din, off)
  | _, O => undef "fuel"
  | _, S fuel =>
      let fbn := off / BSIZE in
      if MAXFILE <=? fbn then panic "assert fbn < MAXFILE" else
      '(din, x) ← iappend_block fbn din;
      let n1 := Z.min (Z.of_nat (length p)) ((fbn + 1) * BSIZE - off) in
      buf ← rsect x;
      wsect x (splice buf (Z.to_nat (off - fbn * BSIZE)) (take (Z.to_nat n1) p));;
      iappend_loop fuel din (off + n1) (drop (Z.to_nat n1) p)
  end.

Definition iappend (inum : Z) (p : list Z) : M mkst unit :=
  din ← rinode inum;
  '(din, off) ← iappend_loop (length p) din (i_size din) p;
  winode inum (set_i_size off din).

(** The entries of the root directory: bzero, the inum, then strcpy for . and
    .., and strncpy (Fs.mk_dirent) for the files. *)
Definition de_strcpy (inum : Z) (name : list Z) : list Z :=
  splice (splice (replicate 16 0) 0 (le16 inum)) 2 (name ++ [0]).

Definition UNDERSCORE : Z := 95.

(** ++argv[i] for a name that begins with an underscore. *)
Definition skip_underscore (name : list Z) : list Z :=
  match name with c :: rest => if c =? UNDERSCORE then rest else name | [] => [] end.

Section main.
(** The host: whether the image can be created, and for each file the results
    of the successive reads, or None when it cannot be opened. *)
Context (creat : list Z → bool) (host : list Z → option (list (list Z))).

Definition mkfs_file (rootino : Z) (name : list Z) : M mkst unit :=
  if existsb (Z.eqb SLASH) name then panic "assert index(argv[i], '/') == 0" else
  match host name with
  | None => panic "open"
  | Some chunks =>
      inum ← ialloc T_FILE;
      iappend rootino (mk_dirent inum (skip_underscore name));;
      foreach chunks (iappend inum)
  end.

Definition main (argv : list (list Z)) : M mkst unit :=
  match argv with
  | _ :: fsimg :: files =>
      if negb (creat fsimg) then panic "open" else
      modify (set_freeblock nmeta);;
      foreach (map Z.of_nat (seq 0 (Z.to_nat FSSIZE))) (λ i, wsect i zero_block);;
      wsect 1 (sb_block mk_sb);;
      rootino ← ialloc T_DIR;
      if negb (rootino =? ROOTINO) then panic "assert rootino == ROOTINO" else
      iappend rootino (de_strcpy rootino [46]);;
      iappend rootino (de_strcpy rootino [46; 46]);;
      foreach files (mkfs_file rootino);;
      din ← rinode rootino;
      winode rootino (set_i_size (u32 ((i_size din / BSIZE + 1) * BSIZE)) din);;
      used ← gets k_freeblock;
      balloc used
  | _ => panic "Usage: mkfs fs.img files..."
  end.

End main.

(** ** Files of the image *)

(** A file as iappend has built it: its bytes, its blocks in order, and its
    indirect block (0 when it has none). *)
Record mfile := MF { mf_type : Z; mf_data : list Z; mf_blk : list Z; mf_ind : Z }.

#[local] Notation zlen l := (Z.of_nat (length l)).

Definition fblocks (f : mfile) : list Z := mf_blk f ++ (if mf_ind f =? 0 then [] else [mf_ind f]).
Definition blks (fs : list mfile) : list Z := concat (map fblocks fs).

(** The addresses of the inode.  [bget0] is 0 past the end of a list. *)
Record addrs_rep (f : mfile) (a : list Z) : Prop := {
  ar_len : length a = 13%nat;
  ar_direct : ∀ k, 0 ≤ k < 10 → bget0 a k = bget0 (mf_blk f) k;
  ar_ind : bget0 a 10 = mf_ind f;
  ar_rest : bget0 a 11 = 0 ∧ bget0 a 12 = 0
}.

(** What the blocks of the file hold: pointers, and the bytes then zeroes. *)
Record file_rep (V : Z → block) (f : mfile) : Prop := {
  fr_len : zlen (mf_data f) ≤ 512 * zlen (mf_blk f) ≤ zlen (mf_data f) + 512;
  fr_max : zlen (mf_blk f) ≤ 138;
  fr_ind : mf_ind f = 0 → zlen (mf_blk f) ≤ 10;
  fr_ptr : mf_ind f ≠ 0 → ∀ j, 0 ≤ j < 128 → get32 (V (mf_ind f)) (4 * j) = bget0 (mf_blk f) (10 + j);
  fr_data : ∀ k i, 0 ≤ k < zlen (mf_blk f) → 0 ≤ i < 512 →
    bget0 (V (bget0 (mf_blk f) k)) i = bget0 (mf_data f) (512 * k + i)
}.

(** No block more than the bytes need. *)
Definition nb (n : Z) : Z := (n + 511) / 512.
Definition tight (f : mfile) : Prop :=
  zlen (mf_blk f) = nb (zlen (mf_data f)) ∧ (mf_ind f = 0 ↔ zlen (mf_blk f) ≤ 10).

(** The data area: the files own distinct blocks, those below freeblock, and
    what is not yet allocated is zero. *)
Record mk_ok (s : mkst) (fs : list mfile) : Prop := {
  mo_nodup : NoDup (blks fs);
  mo_range : ∀ b, b ∈ blks fs → nmeta ≤ b < k_freeblock s;
  mo_count : k_freeblock s = nmeta + zlen (blks fs);
  mo_fresh : ∀ b, k_freeblock s ≤ b → img s b = zero_block;
  mo_len : ∀ b, length (img s b) = 512%nat;
  mo_size : k_len s = FSSIZE;
  mo_file : ∀ f, f ∈ fs → file_rep (img s) f
}.

(** ** Sectors *)

Lemma sect_id b : 0 ≤ b ≤ FSSIZE → sect b = b.
Proof.
  unfold sect, FSSIZE, BSIZE. intros. rewrite u32_id by (change (2 ^ 32) with 4294967296; lia).
  by rewrite Z.div_mul.
Qed.

Lemma img_put b d s c : img (put_sect b d s) c = if decide (c = b) then d else img s c.
Proof.
  unfold img, put_sect. simpl. case_decide; subst; [by rewrite lookup_insert_eq | by rewrite lookup_insert_ne].
Qed.

Lemma img_freeblock v s c : img (set_freeblock v s) c = img s c.
Proof. done. Qed.

Lemma wp_rsect b Q s : k_len s = FSSIZE → 0 ≤ b < FSSIZE → Q (img s b) s → wp (rsect b) Q s.
Proof.
  intros Hl Hb HQ. unfold rsect. wp_steps. rewrite sect_id, Hl, (proj2 (Z.leb_gt _ _)) by lia.
  by wp_step.
Qed.

Lemma wp_wsect b d Q s : 0 ≤ b < FSSIZE → Q tt (put_sect b d s) → wp (wsect b d) Q s.
Proof. intros Hb HQ. unfold wsect. rewrite sect_id by lia. by wp_step. Qed.

Lemma wp_newblock Q s : 0 ≤ k_freeblock s < FSSIZE →
  Q (k_freeblock s) (set_freeblock (k_freeblock s + 1) s) → wp newblock Q s.
Proof.
  intros Hb HQ. unfold newblock. wp_steps. rewrite u32_id by (revert Hb; unfold FSSIZE; lia). done.
Qed.

(** ** Bytes past the end, and appending *)

Lemma bget0_past l i : zlen l ≤ i → bget0 l i = 0.
Proof. intros Hi. unfold bget0. by rewrite lookup_ge_None_2 by lia. Qed.

Lemma bget0_app l1 l2 i : 0 ≤ i →
  bget0 (l1 ++ l2) i = if decide (i < zlen l1) then bget0 l1 i else bget0 l2 (i - zlen l1).
Proof.
  intros Hi. unfold bget0. case_decide.
  - by rewrite lookup_app_l by lia.
  - rewrite lookup_app_r by lia. f_equal. f_equal. lia.
Qed.

Lemma bget0_in l k : 0 ≤ k < zlen l → bget0 l k ∈ l.
Proof.
  intros Hk. unfold bget0. destruct (lookup_lt_is_Some_2 l (Z.to_nat k)) as [x Hx]; [lia|].
  rewrite Hx. by eapply list_elem_of_lookup_2.
Qed.

Lemma bget0_zero i : bget0 zero_block i = 0.
Proof.
  unfold bget0, zero_block. destruct (replicate 512 0 !! Z.to_nat i) as [x|] eqn:E; [|done].
  by apply lookup_replicate in E as [-> _].
Qed.

Lemma bget0_inj l i j : NoDup l → 0 ≤ i < zlen l → 0 ≤ j < zlen l → bget0 l i = bget0 l j → i = j.
Proof.
  intros Hn Hi Hj He. unfold bget0 in He.
  destruct (lookup_lt_is_Some_2 l (Z.to_nat i)) as [x Hx]; [lia|].
  destruct (lookup_lt_is_Some_2 l (Z.to_nat j)) as [y Hy]; [lia|]. rewrite Hx, Hy in He. simpl in He. subst.
  pose proof (list.NoDup_lookup _ _ _ _ Hn Hx Hy). lia.
Qed.

(** ** The data area, file by file *)

Lemma blks_split l1 f l2 : blks (l1 ++ f :: l2) = blks l1 ++ fblocks f ++ blks l2.
Proof. unfold blks. by rewrite map_app, concat_app. Qed.

Lemma elem_blks b f fs : f ∈ fs → b ∈ fblocks f → b ∈ blks fs.
Proof.
  intros Hf Hb. apply list_elem_of_split in Hf as (l1 & l2 & ->). rewrite blks_split, !elem_of_app. auto.
Qed.

Lemma blk_in f k : 0 ≤ k < zlen (mf_blk f) → bget0 (mf_blk f) k ∈ fblocks f.
Proof. intros. apply elem_of_app. left. by apply bget0_in. Qed.

Lemma ind_in f : mf_ind f ≠ 0 → mf_ind f ∈ fblocks f.
Proof. intros. unfold fblocks. rewrite (proj2 (Z.eqb_neq _ _)) by done. set_solver. Qed.

Lemma file_rep_ext V V' f : (∀ b, b ∈ fblocks f → V' b = V b) → file_rep V f → file_rep V' f.
Proof.
  intros He [H1 H2 H3 H4 H5]. split; try done.
  - intros Hi j Hj. rewrite He by (by apply ind_in). by apply H4.
  - intros k i Hk Hi. rewrite He by (by apply blk_in). by apply H5.
Qed.

Lemma mo_own s l1 f l2 b g : mk_ok s (l1 ++ f :: l2) → b ∈ fblocks f → g ∈ l1 ++ l2 → b ∉ fblocks g.
Proof.
  intros O Hb Hg Hb'. pose proof (mo_nodup _ _ O) as Hn. rewrite blks_split in Hn.
  rewrite (Permutation_app_swap_app (blks l1)) in Hn.
  apply list.NoDup_app in Hn as (_ & Hd & _). apply (Hd b Hb). apply elem_of_app.
  apply elem_of_app in Hg as [Hg|Hg]; eauto using elem_blks.
Qed.

Lemma mo_disjoint s fs i j f g b : mk_ok s fs → fs !! i = Some f → fs !! j = Some g → i ≠ j →
  b ∈ fblocks f → b ∉ fblocks g.
Proof.
  intros O Hf Hg Hij Hb. rewrite <- (take_drop_middle fs i f Hf) in O. eapply mo_own; [done..|].
  apply elem_of_app. destruct (decide (j < i)%nat).
  - left. apply (list_elem_of_lookup_2 _ j). by rewrite lookup_take_lt.
  - right. apply (list_elem_of_lookup_2 _ (j - S i)). rewrite lookup_drop. by replace (S i + (j - S i))%nat with j by lia.
Qed.

(** One file changes, and takes [new] blocks. *)
Lemma mk_change s s' l1 f f' l2 new :
  mk_ok s (l1 ++ f :: l2) → fblocks f' ≡ₚ new ++ fblocks f → new = [] ∨ new = [k_freeblock s] →
  k_freeblock s' = k_freeblock s + zlen new → k_len s' = FSSIZE →
  (∀ b, b ∉ fblocks f → img s' b = img s b) → (∀ b, length (img s' b) = 512%nat) →
  file_rep (img s') f' → mk_ok s' (l1 ++ f' :: l2).
Proof.
  intros O Hp Hnew Hfb Hl Hsame Hlen Hrep.
  assert (blks (l1 ++ f' :: l2) ≡ₚ new ++ blks (l1 ++ f :: l2)) as Hb.
  { rewrite !blks_split, Hp, <- app_assoc. apply Permutation_app_swap_app. }
  assert (zlen (blks (l1 ++ f' :: l2)) = zlen new + zlen (blks (l1 ++ f :: l2))) as Hc
    by (rewrite Hb, length_app; lia).
  split; try done.
  - rewrite Hb. destruct Hnew as [->| ->]; [apply O|]. apply list.NoDup_cons. split; [|apply O].
    intros Hin. apply (mo_range _ _ O) in Hin. lia.
  - intros b. rewrite Hb, elem_of_app. intros [Hin|Hin%(mo_range _ _ O)]; [|lia].
    pose proof (mo_count _ _ O). destruct Hnew as [->| ->]; [set_solver|].
    apply list_elem_of_singleton in Hin as ->. simpl in Hfb. lia.
  - pose proof (mo_count _ _ O). lia.
  - intros b Hb'. rewrite Hsame; [apply (mo_fresh _ _ O); lia|]. intros Hin.
    apply (elem_blks _ f (l1 ++ f :: l2)), (mo_range _ _ O) in Hin; [lia | set_solver].
  - intros g Hg. apply elem_of_app in Hg as [Hg|[->|Hg]%elem_of_cons]; [|done|];
      (eapply file_rep_ext; [|apply (mo_file _ _ O); set_solver]);
      intros b Hin; apply Hsame; intros Hf; eapply (mo_own _ _ _ _ _ g O Hf); set_solver.
Qed.

Definition with_blk (b : Z) (f : mfile) : mfile := MF (mf_type f) (mf_data f) (mf_blk f ++ [b]) (mf_ind f).
Definition with_ind (b : Z) (f : mfile) : mfile := MF (mf_type f) (mf_data f) (mf_blk f) b.
Definition with_data (q : list Z) (f : mfile) : mfile := MF (mf_type f) (mf_data f ++ q) (mf_blk f) (mf_ind f).

Lemma mo_self s l1 f l2 : mk_ok s (l1 ++ f :: l2) → file_rep (img s) f.
Proof. intros O. apply (mo_file _ _ O). set_solver. Qed.

(** Data of a block appended to the list, fresh and so zero. *)
Lemma data_with_blk V f b : file_rep V f → V b = zero_block → zlen (mf_data f) = 512 * zlen (mf_blk f) →
  ∀ k i, 0 ≤ k < zlen (mf_blk f ++ [b]) → 0 ≤ i < 512 →
    bget0 (V (bget0 (mf_blk f ++ [b]) k)) i = bget0 (mf_data f) (512 * k + i).
Proof.
  intros R Hz Hd k i Hk Hi. rewrite length_app in Hk. simpl in Hk. rewrite bget0_app by lia. case_decide.
  - apply (fr_data _ _ R); lia.
  - replace (k - zlen (mf_blk f)) with 0 by lia. change (bget0 [b] 0) with b.
    rewrite Hz, bget0_zero, bget0_past by lia. done.
Qed.

Lemma grow_direct s l1 f l2 :
  mk_ok s (l1 ++ f :: l2) → zlen (mf_data f) = 512 * zlen (mf_blk f) → zlen (mf_blk f) < 10 → mf_ind f = 0 →
  mk_ok (set_freeblock (k_freeblock s + 1) s) (l1 ++ with_blk (k_freeblock s) f :: l2).
Proof.
  intros O Hd Hl Hi. pose proof (mo_self _ _ _ _ O) as R.
  eapply (mk_change s _ l1 f _ l2 [k_freeblock s] O); simpl;
    [|by right|lia|apply O|done|apply O|].
  - unfold fblocks, with_blk. simpl. rewrite Hi. simpl. rewrite !app_nil_r. symmetry. apply Permutation_cons_append.
  - split; simpl; [rewrite length_app; simpl; lia.. | by rewrite Hi |].
    apply (data_with_blk (img s)); try done. apply (mo_fresh _ _ O). lia.
Qed.

Lemma grow_ind s l1 f l2 :
  mk_ok s (l1 ++ f :: l2) → zlen (mf_blk f) = 10 → mf_ind f = 0 →
  mk_ok (set_freeblock (k_freeblock s + 1) s) (l1 ++ with_ind (k_freeblock s) f :: l2).
Proof.
  intros O Hl Hi. pose proof (mo_self _ _ _ _ O) as R. pose proof (mo_count _ _ O) as Hc.
  assert (0 < k_freeblock s) by (rewrite Hc; unfold nmeta; vm_compute (2 + _ + _ + _); lia).
  eapply (mk_change s _ l1 f _ l2 [k_freeblock s] O); simpl;
    [|by right|lia|apply O|done|apply O|].
  - unfold fblocks, with_ind. simpl. rewrite Hi, (proj2 (Z.eqb_neq _ _)) by lia. simpl. rewrite app_nil_r.
    symmetry. apply Permutation_cons_append.
  - destruct R as [R1 R2 R3 R4 R5]. split; simpl; try done; try lia.
    intros _ j Hj. rewrite img_freeblock, (mo_fresh _ _ O) by lia. rewrite get32_zero, bget0_past by lia. done.
Qed.

Lemma mo_nodup_self s l1 f l2 : mk_ok s (l1 ++ f :: l2) → NoDup (fblocks f).
Proof.
  intros O. pose proof (mo_nodup _ _ O) as Hn. rewrite blks_split in Hn.
  apply list.NoDup_app in Hn as (_ & _ & Hn). by apply list.NoDup_app in Hn as (Hn & _ & _).
Qed.

Lemma mo_self_range s l1 f l2 b : mk_ok s (l1 ++ f :: l2) → b ∈ fblocks f → nmeta ≤ b < k_freeblock s.
Proof. intros O Hb. apply (mo_range _ _ O). eapply elem_blks; [|done]. set_solver. Qed.

Lemma ind_not_blk s l1 f l2 k : mk_ok s (l1 ++ f :: l2) → mf_ind f ≠ 0 → 0 ≤ k < zlen (mf_blk f) →
  bget0 (mf_blk f) k ≠ mf_ind f.
Proof.
  intros O Hi Hk He. pose proof (mo_nodup_self _ _ _ _ O) as Hn. unfold fblocks in Hn.
  rewrite (proj2 (Z.eqb_neq _ _)) in Hn by done. apply list.NoDup_app in Hn as (_ & Hn & _).
  apply (Hn (mf_ind f)); [rewrite <- He; by apply bget0_in | set_solver].
Qed.

Lemma grow_indirect s l1 f l2 :
  mk_ok s (l1 ++ f :: l2) → k_freeblock s < FSSIZE → zlen (mf_data f) = 512 * zlen (mf_blk f) →
  10 ≤ zlen (mf_blk f) < 138 → mf_ind f ≠ 0 →
  mk_ok (put_sect (mf_ind f) (put32 (img s (mf_ind f)) (4 * (zlen (mf_blk f) - 10)) (k_freeblock s))
          (set_freeblock (k_freeblock s + 1) s))
    (l1 ++ with_blk (k_freeblock s) f :: l2).
Proof.
  intros O Hfb Hd Hl Hi. pose proof (mo_self _ _ _ _ O) as R. pose proof (mo_len _ _ O (mf_ind f)) as Hil.
  pose proof (mo_self_range _ _ _ _ _ O (ind_in f Hi)) as Hr. unfold FSSIZE in Hfb.
  assert (0 < nmeta) as Hm by (vm_compute; done).
  set (j0 := zlen (mf_blk f) - 10) in *.
  eapply (mk_change s _ l1 f _ l2 [k_freeblock s] O); simpl; [|by right|lia| | | |].
  - unfold fblocks, with_blk. simpl. rewrite (proj2 (Z.eqb_neq _ _)) by done. rewrite <- app_assoc.
    symmetry. apply (Permutation_middle _ [_]).
  - rewrite (mo_size _ _ O). unfold FSSIZE. lia.
  - intros b Hb. rewrite img_put, decide_False; [done|]. intros ->. by apply Hb, ind_in.
  - intros b. rewrite img_put. case_decide; [|apply O]. rewrite length_put32; lia.
  - split; simpl; [rewrite length_app; simpl; lia.. | done | |].
    + intros _ j Hj. rewrite img_put, decide_True by done. rewrite bget0_app by lia.
      destruct (decide (j = j0)) as [->|Hne].
      * rewrite get32_put32 by lia. rewrite decide_False by lia.
        replace (10 + j0 - zlen (mf_blk f)) with 0 by lia. change (u32 (k_freeblock s) = k_freeblock s). apply u32_id. lia.
      * rewrite get32_put32_ne by lia. rewrite (fr_ptr _ _ R) by done. case_decide; [done|].
        rewrite !bget0_past; simpl; lia.
    + intros k i Hk Hi'. rewrite length_app in Hk. simpl in Hk. rewrite img_put, img_freeblock, decide_False.
      * apply data_with_blk; [done | apply (mo_fresh _ _ O); lia | done | rewrite length_app; simpl; lia | done].
      * rewrite bget0_app by lia. case_decide; [eapply ind_not_blk; [done..|lia]|].
        replace (k - zlen (mf_blk f)) with 0 by lia. change (bget0 [k_freeblock s] 0) with (k_freeblock s). lia.
Qed.

(** Bytes stored after the last one, in the last block. *)
Lemma append_data s l1 f l2 q :
  mk_ok s (l1 ++ f :: l2) → k_freeblock s ≤ FSSIZE → zlen (mf_data f) < 512 * zlen (mf_blk f) →
  zlen (mf_data f) + zlen q ≤ 512 * zlen (mf_blk f) →
  let k := zlen (mf_data f) / 512 in let x := bget0 (mf_blk f) k in
  mk_ok (put_sect x (splice (img s x) (Z.to_nat (zlen (mf_data f) - k * 512)) q) s) (l1 ++ with_data q f :: l2).
Proof.
  intros O Hfb Hd Hq k x. pose proof (mo_self _ _ _ _ O) as R. pose proof (mo_len _ _ O x) as Hxl.
  destruct (fr_len _ _ R) as [Hle Hge].
  assert (k = zlen (mf_blk f) - 1) as Hk by (unfold k; divmod_lia).
  assert (0 ≤ zlen (mf_data f) - k * 512 < 512) as Ho by (unfold k; divmod_lia).
  assert (x ∈ fblocks f) as Hx by (apply blk_in; lia).
  pose proof (mo_self_range _ _ _ _ _ O Hx) as Hr.
  eapply (mk_change s _ l1 f _ l2 [] O); simpl; [done|by left|lia| | | |].
  - rewrite (mo_size _ _ O). lia.
  - intros b Hb. rewrite img_put, decide_False; [done|]. by intros ->.
  - intros b. rewrite img_put. case_decide; [|apply O]. rewrite length_splice; lia.
  - destruct R as [_ R2 R3 R4 R5]. split; simpl; [rewrite length_app; lia|done|done| |].
    + intros Hi j Hj. rewrite img_put, decide_False; [by apply R4|]. intros He.
      eapply (ind_not_blk _ _ _ _ k O Hi); [lia | done].
    + intros k' i Hk' Hi. rewrite img_put. rewrite bget0_app by lia. case_decide as Hc.
      * assert (k' = k) as ->.
        { eapply (bget0_inj (mf_blk f)); [|lia|lia|done]. pose proof (mo_nodup_self _ _ _ _ O) as Hn.
          by apply list.NoDup_app in Hn as (Hn & _ & _). }
        rewrite bget0_splice by lia. pose proof (R5 k i ltac:(lia) Hi) as R5'. fold x in R5'.
        repeat case_decide; try lia; first [f_equal; lia | exact R5' | idtac].
        rewrite R5', !bget0_past by lia. done.
      * rewrite R5 by lia. rewrite decide_True; [done|].
        assert (k' ≠ k) by (by intros ->). lia.
Qed.

(** ** iappend *)

Lemma nmeta_pos : 0 < nmeta < FSSIZE.
Proof. split; vm_compute; done. Qed.

Lemma blk_pos s l1 f l2 k : mk_ok s (l1 ++ f :: l2) → 0 ≤ k < zlen (mf_blk f) →
  nmeta ≤ bget0 (mf_blk f) k < k_freeblock s.
Proof. intros O Hk. eapply mo_self_range; [done | by apply blk_in]. Qed.

(** The file after a step: the same bytes, and a block for the next one. *)
Record stepped (l1 l2 : list mfile) (f f' : mfile) (a : list Z) (s s' : mkst) : Prop := {
  sp_ok : mk_ok s' (l1 ++ f' :: l2);
  sp_data : mf_data f' = mf_data f;
  sp_type : mf_type f' = mf_type f;
  sp_room : zlen (mf_data f) < 512 * zlen (mf_blk f');
  sp_ind : mf_ind f' = 0 ↔ zlen (mf_blk f') ≤ 10;
  sp_addrs : addrs_rep f' a;
  sp_meta : ∀ b, b < nmeta → img s' b = img s b;
  sp_inode : k_freeinode s' = k_freeinode s;
  sp_free : k_freeblock s' ≤ FSSIZE
}.

Lemma addrs_direct f a b : addrs_rep f a → zlen (mf_blk f) < 10 →
  addrs_rep (with_blk b f) (<[Z.to_nat (zlen (mf_blk f)) := b]> a).
Proof.
  intros [A1 A2 A3 [A4 A5]] Hl. split; simpl; rewrite ?length_insert, ?bget0_insert by (rewrite ?A1; lia).
  - done.
  - intros k Hk. rewrite bget0_insert by (rewrite ?A1; lia). rewrite bget0_app by lia.
    destruct (decide (k = zlen (mf_blk f))) as [->|Hne].
    + rewrite decide_False by lia. by rewrite Z.sub_diag.
    + rewrite A2 by done. case_decide; [done|]. rewrite !bget0_past; simpl; lia.
  - rewrite decide_False by lia. done.
  - rewrite !decide_False by lia. done.
Qed.

Lemma addrs_ind f a b : addrs_rep f a → addrs_rep (with_ind b f) (<[Z.to_nat NDIRECT := b]> a).
Proof.
  intros [A1 A2 A3 [A4 A5]]. unfold NDIRECT.
  split; simpl; rewrite ?length_insert, ?bget0_insert by (rewrite ?A1; lia).
  - done.
  - intros k Hk. rewrite bget0_insert by (rewrite ?A1; lia). rewrite decide_False by lia. by apply A2.
  - by rewrite decide_True.
  - by rewrite !decide_False.
Qed.

Lemma addrs_far f a b : addrs_rep f a → 10 ≤ zlen (mf_blk f) → addrs_rep (with_blk b f) a.
Proof.
  intros [A1 A2 A3 A4] Hl. split; simpl; try done. intros k Hk. rewrite A2, bget0_app by lia.
  by rewrite decide_True by lia.
Qed.

(** The part of the step beyond the direct blocks, once there is an indirect
    block. *)
Definition indirect_block (fbn : Z) (din : inode) : M mkst (inode * Z) :=
  ind ← rsect (addr_of din NDIRECT);
  let j := fbn - NDIRECT in
  if NINDIRECT <=? j then undef "indirect[fbn - NDIRECT]" else
  if get32 ind (4 * j) =? 0 then
    b ← newblock;
    wsect (addr_of din NDIRECT) (put32 ind (4 * j) b);;
    mret (din, b)
  else mret (din, get32 ind (4 * j)).

Lemma wp_indirect l1 f l2 din Q s :
  mk_ok s (l1 ++ f :: l2) → addrs_rep f (i_addrs din) → mf_ind f ≠ 0 → k_freeblock s < FSSIZE →
  let k := zlen (mf_data f) / 512 in 10 ≤ k < 138 → k ≤ zlen (mf_blk f) →
  (k < zlen (mf_blk f) → 10 < zlen (mf_blk f)) →
  (∀ f' s', stepped l1 l2 f f' (i_addrs din) s s' → Q (din, bget0 (mf_blk f') k) s') →
  wp (indirect_block k din) Q s.
Proof.
  intros O A Hi Hfb k Hk Hkl Hb HQ. pose proof (mo_self _ _ _ _ O) as R. pose proof nmeta_pos as Hnm.
  pose proof (mo_self_range _ _ _ _ _ O (ind_in f Hi)) as Hir.
  assert (512 * k ≤ zlen (mf_data f) < 512 * k + 512) as Hdk by (unfold k; divmod_lia).
  unfold indirect_block. wp_step. unfold addr_of. change NDIRECT with 10. rewrite (ar_ind _ _ A).
  apply wp_rsect; [apply O | lia |]. change NINDIRECT with 128. cbv zeta.
  rewrite (proj2 (Z.leb_gt _ _)), (fr_ptr _ _ R) by (done || lia). replace (10 + (k - 10)) with k by lia.
  destruct (decide (k < zlen (mf_blk f))) as [Hlt|Hge].
  - pose proof (blk_pos _ _ _ _ k O ltac:(lia)). rewrite (proj2 (Z.eqb_neq _ _)) by lia. apply wp_ret, HQ.
    split; try done; lia.
  - assert (k = zlen (mf_blk f)) as Ek by lia. rewrite bget0_past by lia. rewrite Z.eqb_refl. wp_step.
    apply wp_newblock; [lia|]. wp_step. apply wp_wsect; [lia|]. wp_step.
    replace (k_freeblock s) with (bget0 (mf_blk (with_blk (k_freeblock s) f)) k) at 1.
    2: { simpl. rewrite bget0_app, decide_False by lia. by rewrite Ek, Z.sub_diag. }
    apply HQ. rewrite Ek. destruct (fr_len _ _ R). split; simpl; try done.
    + apply grow_indirect; try done; lia.
    + rewrite length_app. simpl. lia.
    + rewrite length_app. simpl. lia.
    + apply addrs_far; [done | lia].
    + intros b Hb'. rewrite img_put, decide_False by lia. done.
    + lia.
Qed.

Lemma set_i_addrs_id din : set_i_addrs (i_addrs din) din = din.
Proof. by destruct din. Qed.

Lemma wp_iappend_block l1 f l2 din Q s :
  mk_ok s (l1 ++ f :: l2) → tight f → addrs_rep f (i_addrs din) → k_freeblock s + 2 ≤ FSSIZE →
  let k := zlen (mf_data f) / 512 in k < 138 →
  (∀ f' a s', stepped l1 l2 f f' a s s' → Q (set_i_addrs a din, bget0 (mf_blk f') k) s') →
  wp (iappend_block k din) Q s.
Proof.
  intros O [Ht Hti] A Hfb k Hk HQ. pose proof (mo_self _ _ _ _ O) as R. pose proof nmeta_pos as Hnm.
  destruct (fr_len _ _ R) as [Hlen _]. pose proof (mo_count _ _ O) as Hc.
  assert (512 * k ≤ zlen (mf_data f) < 512 * k + 512) as Hdk by (unfold k; divmod_lia).
  assert (k ≤ zlen (mf_blk f) ≤ k + 1 ∧ (zlen (mf_blk f) = k → zlen (mf_data f) = 512 * k)) as (Hkb & Hk0).
  { unfold nb in Ht. split; [|intros]; divmod_lia. }
  unfold iappend_block. change NDIRECT with 10. destruct (Z.ltb_spec k 10) as [H10|H10].
  - wp_step. unfold addr_alloc, addr_of. rewrite (ar_direct _ _ A) by lia.
    destruct (decide (k < zlen (mf_blk f))) as [Hlt|Hge].
    + pose proof (blk_pos _ _ _ _ k O ltac:(lia)). rewrite (proj2 (Z.eqb_neq _ _)) by lia. wp_steps.
      rewrite (ar_direct _ _ A) by lia. rewrite <- (set_i_addrs_id din) at 1. apply HQ. split; try done; lia.
    + assert (k = zlen (mf_blk f)) as Ek by lia. rewrite bget0_past by lia. rewrite Z.eqb_refl. wp_step.
      apply wp_newblock; [lia|]. wp_steps. pose proof (addrs_direct f _ (k_freeblock s) A ltac:(lia)) as A'.
      rewrite <- Ek in A'. rewrite (ar_direct _ _ A') by lia. apply HQ.
      assert (mf_ind f = 0) as Hi by (apply Hti; lia).
      split; simpl; rewrite ?length_app; simpl; try done; try lia. apply grow_direct; try done; lia.
  - wp_step. unfold addr_alloc, addr_of. rewrite (ar_ind _ _ A). destruct (Z.eqb_spec (mf_ind f) 0) as [Hi|Hi].
    + assert (zlen (mf_blk f) = 10 ∧ k = 10) as [Hl Ek] by (pose proof (proj1 Hti Hi); lia).
      wp_step. apply wp_newblock; [lia|]. wp_step.
      pose proof (grow_ind _ _ _ _ O Hl Hi) as O'. pose proof (addrs_ind f _ (k_freeblock s) A) as A'.
      change (wp (indirect_block k (set_i_addr 10 (k_freeblock s) din)) Q (set_freeblock (k_freeblock s + 1) s)).
      apply (wp_indirect l1 (with_ind (k_freeblock s) f) l2); [exact O' | exact A' | simpl; lia.. |].
      intros f' s' [S1 S2 S3 S4 S5 S6 S7 S8 S9]. apply (HQ f' (<[Z.to_nat 10 := k_freeblock s]> (i_addrs din))).
      by split.
    + wp_step. change (wp (indirect_block k din) Q s). rewrite Hti in Hi.
      eapply wp_indirect; try done; try lia.
      intros f' s' S. rewrite <- (set_i_addrs_id din) at 1. by apply HQ.
Qed.

(** The blocks a file of [n] bytes takes. *)
Definition bcost (n : Z) : Z := nb n + (if 10 <? nb n then 1 else 0).

Lemma nb_mono m n : m ≤ n → nb m ≤ nb n.
Proof. unfold nb. intros. apply Z.div_le_mono; lia. Qed.

Lemma bcost_mono m n : m ≤ n → bcost m ≤ bcost n.
Proof.
  intros H%nb_mono. unfold bcost. destruct (Z.ltb_spec 10 (nb m)), (Z.ltb_spec 10 (nb n)); lia.
Qed.

Lemma tight_fblocks f : tight f → zlen (fblocks f) = bcost (zlen (mf_data f)).
Proof.
  intros [Ht Hi]. unfold fblocks, bcost. rewrite <- Ht, length_app.
  destruct (Z.eqb_spec (mf_ind f) 0), (Z.ltb_spec 10 (zlen (mf_blk f))); simpl; tauto || lia.
Qed.

Record appended (l1 l2 : list mfile) (f f' : mfile) (p a : list Z) (s s' : mkst) : Prop := {
  ap_ok : mk_ok s' (l1 ++ f' :: l2);
  ap_data : mf_data f' = mf_data f ++ p;
  ap_type : mf_type f' = mf_type f;
  ap_tight : tight f';
  ap_addrs : addrs_rep f' a;
  ap_meta : ∀ b, b < nmeta → img s' b = img s b;
  ap_inode : k_freeinode s' = k_freeinode s
}.

(** There is room for the file to grow to [n] bytes: in the blocks that its
    inode can map here, and in the part of the disk that balloc can mark. *)
Definition room (l1 l2 : list mfile) (n : Z) : Prop :=
  n ≤ 512 * 138 ∧ nmeta + zlen (blks l1) + bcost n + zlen (blks l2) < BSIZE * 8.

Lemma room_freeblock s l1 f l2 n : mk_ok s (l1 ++ f :: l2) → tight f → room l1 l2 n → zlen (mf_data f) ≤ n →
  k_freeblock s + 2 ≤ FSSIZE.
Proof.
  intros O Ht [_ Hr] Hn. rewrite (mo_count _ _ O), blks_split, !length_app. pose proof (bcost_mono _ _ Hn).
  pose proof (tight_fblocks _ Ht). unfold BSIZE, FSSIZE in *. lia.
Qed.

(** The bytes q of one round, in the block that the step has found. *)
Lemma stepped_append l1 l2 f f' a s s' q :
  stepped l1 l2 f f' a s s' → tight f → 0 < zlen q →
  let k := zlen (mf_data f) / 512 in zlen (mf_data f) + zlen q ≤ (k + 1) * 512 →
  appended l1 l2 f (with_data q f') q a s
    (put_sect (bget0 (mf_blk f') k) (splice (img s' (bget0 (mf_blk f') k)) (Z.to_nat (zlen (mf_data f) - k * 512)) q) s').
Proof.
  intros [S1 S2 S3 S4 S5 S6 S7 S8 Hfb] [Ht _] Hq k Hk. pose proof (mo_self _ _ _ _ S1) as R.
  destruct (fr_len _ _ R) as [H1 H2]. rewrite S2 in H1, H2.
  assert (zlen (mf_blk f') = k + 1) as Hl by (unfold k in *; divmod_lia).
  split; simpl; try done.
  - unfold k. rewrite <- S2. apply append_data; [done | done | rewrite S2; lia | rewrite S2; lia].
  - by rewrite S2.
  - split; [|apply S5]. simpl. rewrite S2, length_app. unfold nb, k in *. divmod_lia.
  - split; apply S6.
  - intros b Hb. rewrite img_put, decide_False; [by apply S7|].
    pose proof (blk_pos _ _ _ _ k S1 ltac:(unfold k in *; divmod_lia)). lia.
Qed.

Lemma wp_iappend_loop l1 l2 din fuel : ∀ p f a Q s,
  (length p ≤ fuel)%nat → mk_ok s (l1 ++ f :: l2) → tight f → addrs_rep f a →
  room l1 l2 (zlen (mf_data f) + zlen p) →
  (∀ f' a' s', appended l1 l2 f f' p a' s s' → Q (set_i_addrs a' din, zlen (mf_data f) + zlen p) s') →
  wp (iappend_loop fuel (set_i_addrs a din) (zlen (mf_data f)) p) Q s.
Proof.
  induction fuel as [|fuel IH]; intros p f a Q s Hp O Ht A Hr HQ.
  - destruct p; [|simpl in Hp; lia]. cbn [iappend_loop]. apply wp_ret.
    rewrite <- (Z.add_0_r (zlen (mf_data f))). apply (HQ f). split; try done. by rewrite app_nil_r.
  - destruct p as [|c p0].
    { cbn [iappend_loop]. apply wp_ret.
      rewrite <- (Z.add_0_r (zlen (mf_data f))). apply (HQ f). split; try done. by rewrite app_nil_r. }
    cbn [iappend_loop]. set (p := c :: p0) in *. assert (0 < zlen p) as Hp0 by (subst p; simpl; lia).
    cbv zeta. change BSIZE with 512.
    set (k := zlen (mf_data f) / 512).
    assert (512 * k ≤ zlen (mf_data f) < 512 * k + 512) as Hdk by (unfold k; divmod_lia).
    pose proof (room_freeblock _ _ _ _ _ O Ht Hr ltac:(lia)) as Hfb. destruct Hr as [Hr1 Hr2].
    rewrite (proj2 (Z.leb_gt _ _)) by (change MAXFILE with 2113674; lia). wp_step.
    apply (wp_iappend_block l1 f l2); try done; [lia|]. intros f1 a1 s1 S. cbv beta iota. fold k.
    set (n1 := Z.min (zlen p) ((k + 1) * 512 - zlen (mf_data f))).
    set (q := take (Z.to_nat n1) p).
    assert (zlen q = n1) as Hq by (unfold q; rewrite length_take; lia).
    pose proof (stepped_append _ _ _ _ _ _ _ q S Ht ltac:(lia) ltac:(fold k; lia)) as P. fold k in P.
    pose proof (blk_pos _ _ _ _ k (sp_ok _ _ _ _ _ _ _ S)
      ltac:(pose proof (sp_room _ _ _ _ _ _ _ S); lia)) as Hx.
    pose proof (sp_free _ _ _ _ _ _ _ S). pose proof nmeta_pos.
    wp_step. apply wp_rsect; [apply (sp_ok _ _ _ _ _ _ _ S) | lia |]. wp_step. apply wp_wsect; [lia|].
    replace (zlen (mf_data f) + n1) with (zlen (mf_data (with_data q f1)))
      by (rewrite (ap_data _ _ _ _ _ _ _ _ P), length_app; lia).
    assert (zlen (mf_data f) + n1 + zlen (drop (Z.to_nat n1) p) = zlen (mf_data f) + zlen p) as El
      by (rewrite length_drop; lia).
    apply IH; try apply P.
    + rewrite length_drop. lia.
    + rewrite (ap_data _ _ _ _ _ _ _ _ P), length_app, Nat2Z.inj_add, Hq, El. by split.
    + intros f2 a2 s2 P2. rewrite (ap_data _ _ _ _ _ _ _ _ P), length_app, Nat2Z.inj_add, Hq, El. apply (HQ f2).
      destruct P as [P1 P3 P4 P5 P6 P7 P8], P2 as [R1 R3 R4 R5 R6 R7 R8]. split; try done.
      * rewrite R3, P3, <- app_assoc. unfold q. by rewrite take_drop.
      * by rewrite R4.
      * intros b Hb. by rewrite R7, P7.
      * by rewrite R8.
Qed.

(** ** Inodes *)

Definition mk_inode (type size : Z) (a : list Z) : inode :=
  Inode 0 0 0 initsleeplock false type 0 0 1 size a.

(** The inode the kernel loads for number [n]. *)
#[local] Notation dinode := (disk_inode mk_sb).

Definition dinode_rep (V : Z → block) (n : Z) (f : mfile) : Prop :=
  ∃ a, dinode V n = mk_inode (mf_type f) (zlen (mf_data f)) a ∧ addrs_rep f a.

(** The image between two steps of main: file i has inode i + 1. *)
Record mk_inv (s : mkst) (fs : list mfile) : Prop := {
  mv_ok : mk_ok s fs;
  mv_tight : ∀ f, f ∈ fs → tight f ∧ 0 ≤ mf_type f < 2 ^ 15;
  mv_dinode : ∀ i f, fs !! i = Some f → dinode_rep (img s) (Z.of_nat i + 1) f;
  mv_inode : k_freeinode s = zlen fs + 1;
  mv_super : img s 1 = sb_block mk_sb;
  mv_zero : ∀ b, 0 ≤ b < 32 ∨ 58 ≤ b < nmeta → b ≠ 1 → img s b = zero_block
}.

Lemma iblock_range n : 0 ≤ n < 200 → 32 ≤ IBLOCK n mk_sb < 57.
Proof. unfold IBLOCK, mk_sb, nlog, LOGSIZE, IPB. simpl. intros. divmod_lia. Qed.

Lemma mk_ok_meta s fs b d : mk_ok s fs → 0 ≤ b < nmeta → length d = 512%nat → mk_ok (put_sect b d s) fs.
Proof.
  intros [O1 O2 O3 O4 O5 O6 O7] Hb Hd. pose proof nmeta_pos.
  split; simpl; try done.
  - intros c Hc. rewrite img_put, decide_False by lia. by apply O4.
  - intros c. rewrite img_put. by case_decide.
  - rewrite O6. lia.
  - intros f Hf. apply (file_rep_ext (img s)); [|by apply O7]. intros c Hc. rewrite img_put, decide_False; [done|].
    pose proof (O2 c (elem_blks _ _ _ Hf Hc)). lia.
Qed.

Lemma wp_winode fs n ip Q s :
  mk_ok s fs → 0 ≤ n < 200 → dinode_ok ip →
  (∀ s', mk_ok s' fs → k_freeinode s' = k_freeinode s → (∀ b, b < 32 ∨ 57 ≤ b → img s' b = img s b) →
    dinode (img s') n = Inode 0 0 0 initsleeplock false (i_type ip) (i_major ip) (i_minor ip) (i_nlink ip)
      (i_size ip) (i_addrs ip) →
    (∀ m, 0 ≤ m → m ≠ n → dinode (img s') m = dinode (img s) m) → Q tt s') →
  wp (winode n ip) Q s.
Proof.
  intros O Hn Hip HQ. pose proof (iblock_range n Hn) as Hib. pose proof nmeta_pos.
  assert (nmeta = 68) as Hm by done.
  unfold winode. wp_step. apply wp_rsect; [apply O | lia |]. apply wp_wsect; [lia|].
  pose proof (dinode_roundtrip (img s (IBLOCK n mk_sb)) n ip inode0 (mo_len _ _ O _) Hip) as (E1 & E2 & E3).
  apply HQ; clear HQ.
  - apply mk_ok_meta; [done | lia | done].
  - done.
  - intros b Hb. rewrite img_put, decide_False by lia. done.
  - unfold disk_inode. rewrite img_put, decide_True by done. exact E1.
  - intros m Hm0 Hne. unfold disk_inode. rewrite img_put. case_decide as Eb; [|done].
    rewrite E3; [by rewrite Eb|]. revert Eb. unfold IBLOCK, IPB. intros. divmod_lia.
Qed.

Lemma addrs_forall s l1 f l2 a : mk_ok s (l1 ++ f :: l2) → k_freeblock s ≤ FSSIZE → addrs_rep f a →
  Forall (λ x, 0 ≤ x < 2 ^ 32) a.
Proof.
  intros O Hfb [A1 A2 A3 [A4 A5]]. unfold FSSIZE in Hfb. pose proof nmeta_pos.
  apply list.Forall_lookup. intros i x Hx.
  assert (bget0 a (Z.of_nat i) = x) as <- by (unfold bget0; by rewrite Nat2Z.id, Hx).
  apply lookup_lt_Some in Hx. rewrite A1 in Hx.
  destruct (decide (Z.of_nat i < 10)) as [Hi|Hi].
  - rewrite A2 by lia. destruct (decide (Z.of_nat i < zlen (mf_blk f))).
    + pose proof (blk_pos _ _ _ _ (Z.of_nat i) O ltac:(lia)). lia.
    + rewrite bget0_past; lia.
  - assert (Z.of_nat i = 10 ∨ Z.of_nat i = 11 ∨ Z.of_nat i = 12) as [->|[->| ->]] by lia; [|lia..].
    rewrite A3. destruct (decide (mf_ind f = 0)) as [->|Hi']; [lia|].
    pose proof (mo_self_range _ _ _ _ _ O (ind_in f Hi')). lia.
Qed.

Lemma wp_rinode fs n Q s : mk_ok s fs → 0 ≤ n < 200 → Q (dinode (img s) n) s → wp (rinode n) Q s.
Proof.
  intros O Hn HQ. pose proof (iblock_range n Hn). pose proof nmeta_pos. assert (nmeta = 68) as Hm by done.
  unfold rinode. wp_step. apply wp_rsect; [apply O | lia |]. by wp_step.
Qed.

Lemma lookup_middle_ne {A} (l1 l2 : list A) x y i : i ≠ length l1 → (l1 ++ x :: l2) !! i = (l1 ++ y :: l2) !! i.
Proof.
  intros Hi. destruct (decide (i < length l1)%nat); [by rewrite !lookup_app_l|].
  rewrite !lookup_app_r by lia. by destruct (i - length l1)%nat eqn:E; [lia|].
Qed.

Lemma mk_inode_ok s l1 f l2 a size : mk_ok s (l1 ++ f :: l2) → k_freeblock s ≤ FSSIZE → addrs_rep f a →
  0 ≤ mf_type f < 2 ^ 15 → 0 ≤ size < 2 ^ 32 → dinode_ok (mk_inode (mf_type f) size a).
Proof.
  intros O Hfb A Ht Hs. split; simpl; try lia. split; [apply A | by eapply addrs_forall].
Qed.

Lemma wp_iappend l1 f l2 p Q s :
  mk_inv s (l1 ++ f :: l2) → (length (l1 ++ f :: l2) < 200)%nat → room l1 l2 (zlen (mf_data f) + zlen p) →
  (∀ f' s', mk_inv s' (l1 ++ f' :: l2) → mf_data f' = mf_data f ++ p → mf_type f' = mf_type f → Q tt s') →
  wp (iappend (zlen l1 + 1) p) Q s.
Proof.
  intros [I1 I2 I3 I4 I5 I6] Hlen Hr HQ. rewrite length_app in Hlen. simpl in Hlen.
  destruct (I2 f) as [Ht Hty]; [set_solver|].
  destruct (I3 (length l1) f) as (a & Hd & A); [by rewrite list_lookup_middle|].
  unfold iappend. wp_step. eapply wp_rinode; [done | lia |]. rewrite Hd. wp_step.
  change (mk_inode (mf_type f) (zlen (mf_data f)) a)
    with (set_i_addrs a (mk_inode (mf_type f) (zlen (mf_data f)) a)) at 1. cbn [i_size mk_inode].
  eapply (wp_iappend_loop l1 l2); try done. intros f' a' s' [P1 P2 P3 P4 P5 P6 P7].
  cbv beta iota.
  assert (k_freeblock s' + 2 ≤ FSSIZE) as Hfb
    by (eapply (room_freeblock _ _ _ _ _ P1 P4 Hr); rewrite P2, length_app; lia).
  change (set_i_size _ _) with (mk_inode (mf_type f) (zlen (mf_data f) + zlen p) a'). rewrite <- P3.
  destruct Hr as [Hr1 Hr2].
  eapply wp_winode; [exact P1 | lia | eapply mk_inode_ok; [done | lia | done | by rewrite P3 | lia] |].
  intros s2 O2 N2 E2 D2 D2'. apply (HQ f'); try done.
  assert (∀ b, b < nmeta → b < 32 ∨ 57 ≤ b → img s2 b = img s b) as Em
    by (intros b Hb Hb'; by rewrite E2, P6).
  assert (nmeta = 68) as Hm by done.
  split; [done | | | | |].
  - intros g Hg. apply elem_of_app in Hg as [Hg|[->|Hg]%elem_of_cons]; [apply I2; set_solver| |apply I2; set_solver].
    by rewrite P3.
  - intros i g Hg. destruct (decide (i = length l1)) as [->|Hne].
    + rewrite list_lookup_middle in Hg by done. injection Hg as <-. exists a'. split; [|done].
      rewrite D2. unfold mk_inode. simpl. rewrite P2, length_app. f_equal. lia.
    + destruct (I3 i g) as (b & Hb & Ab).
      { rewrite <- Hg. by apply lookup_middle_ne. }
      exists b. split; [|done]. rewrite D2' by lia. rewrite <- Hb. unfold disk_inode. rewrite P6; [done|].
      assert (i < length (l1 ++ f' :: l2))%nat by (by eapply lookup_lt_Some). rewrite length_app in *. simpl in *.
      pose proof (iblock_range (Z.of_nat i + 1)). lia.
  - rewrite N2, P7, I4, !length_app. done.
  - rewrite Em by lia. done.
  - intros b Hb Hb1. rewrite Em by lia. by apply I6.
Qed.

Definition empty_file (type : Z) : mfile := MF type [] [] 0.

Lemma blks_snoc_empty fs t : blks (fs ++ [empty_file t]) = blks fs.
Proof. rewrite blks_split. unfold blks. simpl. by rewrite app_nil_r. Qed.

Lemma wp_ialloc fs t Q s :
  mk_inv s fs → (length fs < 199)%nat → 0 ≤ t < 2 ^ 15 →
  (∀ s', mk_inv s' (fs ++ [empty_file t]) → Q (zlen fs + 1) s') → wp (ialloc t) Q s.
Proof.
  intros [I1 I2 I3 I4 I5 I6] Hl Ht HQ. unfold ialloc. wp_steps. rewrite I4.
  assert (nmeta = 68) as Hm by done.
  rewrite u32_id by (change (2 ^ 32) with 4294967296; lia).
  change (set_i_size 0 _) with (mk_inode t 0 (replicate 13 0)).
  assert (addrs_rep (empty_file t) (replicate 13 0)) as A.
  { split; [done | | done | done]. intros k Hk. rewrite (bget0_past (mf_blk _)) by (simpl; lia).
    unfold bget0. by rewrite lookup_replicate_2 by lia. }
  eapply (wp_winode fs); [by destruct I1; split | lia | |].
  { split; simpl; try lia. split; [done|]. repeat constructor; lia. }
  intros s' O' N' E' D' D''. wp_step. apply HQ. cbn in N', E'. split.
  - destruct O' as [O1 O2 O3 O4 O5 O6 O7]. split; rewrite ?blks_snoc_empty; try done.
    intros f Hf. apply elem_of_app in Hf as [Hf| ->%list_elem_of_singleton]; [by apply O7|].
    split; simpl; intros; lia.
  - intros f Hf. apply elem_of_app in Hf as [Hf| ->%list_elem_of_singleton]; [by apply I2|]. done.
  - intros i f Hf. apply lookup_app_Some in Hf as [Hf|[Hi Hf]].
    + pose proof (lookup_lt_Some _ _ _ Hf) as Hlt.
      destruct (I3 i f Hf) as (a & Hd & Ha). exists a. split; [|done]. rewrite D'' by lia. exact Hd.
    + apply list_lookup_singleton_Some in Hf as [Hf <-]. assert (i = length fs) as -> by lia.
      by exists (replicate 13 0).
  - rewrite N', length_app. simpl. lia.
  - rewrite E' by lia. done.
  - intros b Hb Hb1. rewrite E' by lia. by apply I6.
Qed.

(** ** The files of the command line *)

Definition cost_of (ds : list (list Z)) : Z := foldr (λ d n, bcost (zlen d) + n) 0 ds.

Lemma cost_of_app l1 l2 : cost_of (l1 ++ l2) = cost_of l1 + cost_of l2.
Proof. induction l1 as [|d l1 IH]; simpl; [done|]. unfold cost_of in *. simpl. lia. Qed.

Lemma bcost_nonneg n : 0 ≤ n → 0 ≤ bcost n.
Proof. intros. unfold bcost, nb. case_match; divmod_lia. Qed.

Lemma cost_of_nonneg ds : 0 ≤ cost_of ds.
Proof. induction ds as [|d ds IH]; simpl; [done|]. pose proof (bcost_nonneg (zlen d)). unfold cost_of in *. lia. Qed.

Lemma blks_cost fs : (∀ f, f ∈ fs → tight f) → zlen (blks fs) = cost_of (map mf_data fs).
Proof.
  induction fs as [|f fs IH]; intros Ht; [done|]. change (blks (f :: fs)) with (fblocks f ++ blks fs).
  rewrite length_app, Nat2Z.inj_add, IH by set_solver. rewrite tight_fblocks by set_solver. done.
Qed.

(** [room], from the sizes of the other files. *)
Lemma mk_room s l1 f l2 n B : mk_inv s (l1 ++ f :: l2) → n ≤ 512 * 138 → n ≤ B →
  nmeta + cost_of (map mf_data l1) + bcost B + cost_of (map mf_data l2) < BSIZE * 8 → room l1 l2 n.
Proof.
  intros I Hn HB Hr. split; [done|]. pose proof (bcost_mono _ _ HB).
  rewrite !blks_cost; [lia | intros g Hg; apply (mv_tight _ _ I); set_solver..].
Qed.

(** The root directory for the files [names]. *)
Definition root_entries (names : list (list Z)) : list (list Z) :=
  mk_dirent 1 [46] :: mk_dirent 1 [46; 46] ::
  imap (λ i name, mk_dirent (Z.of_nat i + 2) (skip_underscore name)) names.

Definition root_data (names : list (list Z)) : list Z := concat (root_entries names).

Lemma entry_length names e : e ∈ root_entries names → length e = 16%nat.
Proof.
  intros [->|[->|(i & x & -> & _)%elem_of_lookup_imap]%elem_of_cons]%elem_of_cons; apply length_mk_dirent.
Qed.

Lemma length_concat16 (es : list (list Z)) : (∀ e, e ∈ es → length e = 16%nat) → length (concat es) = (16 * length es)%nat.
Proof. induction es as [|e es IH]; intros He; [done|]. simpl. rewrite length_app, IH, He by set_solver. lia. Qed.

Lemma length_root_entries names : length (root_entries names) = (2 + length names)%nat.
Proof. unfold root_entries. simpl. by rewrite length_imap. Qed.

Lemma length_root_data names : zlen (root_data names) = 16 * (2 + zlen names).
Proof. unfold root_data. rewrite length_concat16 by apply entry_length. rewrite length_root_entries. lia. Qed.

Lemma root_data_snoc names name : root_data (names ++ [name]) =
  root_data names ++ mk_dirent (zlen names + 2) (skip_underscore name).
Proof.
  unfold root_data, root_entries. rewrite imap_app. cbn [concat imap compose]. rewrite concat_app.
  cbn [concat]. by rewrite app_nil_r, Nat.add_0_r, <- !app_assoc.
Qed.

Section build.
Context (creat : list Z → bool) (host : list Z → option (list (list Z))).

(** The bytes of a file. *)
Definition fdata (name : list Z) : list Z := concat (default [] (host name)).

(** What mkfs accepts: names without a slash of files that can be read, each
    at most as long as the direct blocks and one indirect block, and together
    within the first block of the free map. *)
Record mkfs_input (names : list (list Z)) : Prop := {
  mi_num : (length names ≤ 198)%nat;
  mi_name : ∀ name, name ∈ names → SLASH ∉ name ∧ is_Some (host name) ∧ zlen (fdata name) ≤ 512 * 138;
  mi_total : nmeta + bcost (16 * (2 + zlen names)) + cost_of (map fdata names) < BSIZE * 8
}.

(** The files built so far. *)
Record built (names : list (list Z)) (fs : list mfile) : Prop := {
  bu_root : ∃ r rest, fs = r :: rest ∧ mf_type r = T_DIR ∧ mf_data r = root_data names ∧
    Forall2 (λ name f, mf_type f = T_FILE ∧ mf_data f = fdata name) names rest
}.

Lemma built_cost names rest :
  Forall2 (λ name f, mf_type f = T_FILE ∧ mf_data f = fdata name) names rest → map mf_data rest = map fdata names.
Proof. induction 1 as [|n f ns rest [_ E] _ IH]; simpl; [done|]. by rewrite E, IH. Qed.

Lemma no_slash name : SLASH ∉ name → existsb (Z.eqb SLASH) name = false.
Proof.
  intros Hn. apply not_true_iff_false. intros (c & Hc & He)%existsb_exists. apply Z.eqb_eq in He as <-.
  by apply Hn, list_elem_of_In.
Qed.

(** The chunks of one file, appended to the last file. *)
Lemma wp_chunks l1 f chunks Q s :
  mk_inv s (l1 ++ [f]) → (length l1 < 199)%nat → mf_data f = [] → zlen (concat chunks) ≤ 512 * 138 →
  nmeta + cost_of (map mf_data l1) + bcost (zlen (concat chunks)) < BSIZE * 8 →
  (∀ f' s', mk_inv s' (l1 ++ [f']) → mf_data f' = concat chunks → mf_type f' = mf_type f → Q tt s') →
  wp (foreach chunks (iappend (zlen l1 + 1))) Q s.
Proof.
  intros I Hl Hf Hn Hr HQ.
  apply (wp_foreach (λ cs t, ∃ g, mk_inv t (l1 ++ [g]) ∧ mf_data g = concat cs ∧ mf_type g = mf_type f)).
  - by exists f.
  - intros c1 c c2 t -> (g & Ig & Hg & Htg).
    assert (zlen (mf_data g) + zlen c ≤ zlen (concat (c1 ++ c :: c2))) as Hle
      by (rewrite Hg, concat_app, !length_app; simpl; rewrite length_app; lia).
    eapply (wp_iappend l1 g []); [done | rewrite length_app; simpl; lia | |].
    + eapply mk_room; [exact Ig | | exact Hle |]; [lia|]. simpl. lia.
    + intros g' s' Ig' Hg' Ht'. exists g'. split_and!; [done | | by rewrite Ht'].
      rewrite Hg', Hg, concat_app. simpl. by rewrite app_nil_r.
  - intros t (g & Ig & Hg & Htg). by apply (HQ g).
Qed.

Lemma wp_mkfs_file names n1 name n2 Q s :
  mkfs_input names → names = n1 ++ name :: n2 → (∃ fs, mk_inv s fs ∧ built n1 fs) →
  (∀ s', (∃ fs, mk_inv s' fs ∧ built (n1 ++ [name]) fs) → Q tt s') → wp (mkfs_file host ROOTINO name) Q s.
Proof.
  intros [M1 M2 M3] -> (fs & I & [(r & rest & -> & Hr & Hrd & Hrest)]) HQ.
  destruct (M2 name) as (Hs & [chunks Hc] & Hsz); [set_solver|]. pose proof (built_cost _ _ Hrest) as Hcost.
  pose proof (Forall2_length Hrest) as Hlr. rewrite !length_app in M1. simpl in M1.
  rewrite map_app, cost_of_app, length_app in M3. cbn [map length] in M3.
  assert (fdata name = concat chunks) as Hfd by (unfold fdata; by rewrite Hc).
  change (cost_of (fdata name :: map fdata n2)) with (bcost (zlen (fdata name)) + cost_of (map fdata n2)) in M3.
  pose proof (cost_of_nonneg (map fdata n2)). pose proof (bcost_nonneg (zlen (fdata name)) ltac:(lia)).
  unfold mkfs_file. rewrite no_slash, Hc by done. wp_step.
  eapply wp_ialloc; [done | simpl; lia | done |]. intros s1 I1. wp_step.
  change ROOTINO with (zlen (@nil mfile) + 1). change ((r :: rest) ++ [empty_file T_FILE]) with ([] ++ r :: (rest ++ [empty_file T_FILE])) in I1.
  eapply wp_iappend; [exact I1 | simpl; rewrite length_app; simpl; lia | |].
  - eapply (mk_room _ _ _ _ _ (16 * (2 + Z.of_nat (length n1 + S (length n2)))) I1);
      [rewrite Hrd, length_root_data, length_mk_dirent; lia.. |].
    rewrite map_app, cost_of_app, Hcost. simpl. change (bcost (Z.of_nat 0)) with 0. lia.
  - intros r' s2 I2 Hr' Ht'. change ([] ++ r' :: rest ++ [empty_file T_FILE]) with ((r' :: rest) ++ [empty_file T_FILE]) in I2.
    change (zlen (r :: rest) + 1) with (zlen (r' :: rest) + 1).
    assert (mf_data r' = root_data (n1 ++ [name])) as Hrd'.
    { rewrite Hr', Hrd, root_data_snoc. simpl length. rewrite Hlr. do 2 f_equal. lia. }
    eapply wp_chunks; [exact I2 | simpl; lia | done | by rewrite <- Hfd | |].
    + rewrite <- Hfd. cbn [map]. rewrite Hcost.
      change (cost_of (mf_data r' :: map fdata n1)) with (bcost (zlen (mf_data r')) + cost_of (map fdata n1)).
      rewrite Hrd', length_root_data, length_app. cbn [length].
      pose proof (bcost_mono (16 * (2 + Z.of_nat (length n1 + 1))) (16 * (2 + Z.of_nat (length n1 + S (length n2)))) ltac:(lia)). lia.
    + intros f' s3 I3 Hf' Ht3. apply HQ. exists ((r' :: rest) ++ [f']). split; [done|]. split.
      exists r', (rest ++ [f']). split_and!; [done | by rewrite Ht' | done |].
      apply Forall2_app; [done|]. constructor; [|constructor]. by rewrite Hfd.
Qed.

End build.

(** ** The image as the kernel sees it *)

Definition mk_geo (tx : bool) : bdgeo := Bdgeo FSSIZE 2 nlog tx.

(** The nodes of the file's map: its blocks, each at its leaf, and the
    indirect block. *)
Lemma mk_node_cases V f a p : file_rep V f → addrs_rep f a → valid_node p → node_addr V a p ≠ 0 →
  (∃ k, 0 ≤ k < zlen (mf_blk f) ∧ p = leaf k ∧ node_addr V a p = bget0 (mf_blk f) k) ∨
  (mf_ind f ≠ 0 ∧ p = (10, []) ∧ node_addr V a p = mf_ind f).
Proof.
  intros R [A1 A2 A3 [A4 A5]] (Hk & Hd & Hj) Hne. destruct p as [k js]. unfold node_addr in *. cbn [fst snd] in *.
  unfold depth in Hd. change NDIRECT with 10 in Hd.
  destruct (Z.ltb_spec k 10) as [H10|H10].
  - destruct js; [|simpl in Hd; lia]. cbn [walk_addr] in *. rewrite A2 in Hne |- * by lia. left. exists k.
    destruct (decide (k < zlen (mf_blk f))) as [Hl|Hl]; [|by rewrite bget0_past in Hne by lia].
    split_and!; [lia | lia | | done]. unfold leaf. change NDIRECT with 10. by rewrite (proj2 (Z.ltb_lt k 10)).
  - destruct (decide (k = 10)) as [->|Hk10].
    2: { assert (k = 11 ∨ k = 12) as [-> | ->] by lia; rewrite ?A4, ?A5, walk_zero in Hne; done. }
    rewrite A3 in Hne |- *. destruct js as [|j [|j2 js]]; [| |simpl in Hd; lia]; cbn [walk_addr] in *.
    + by right.
    + left. apply list.Forall_cons in Hj as [Hj _]. change NINDIRECT with 128 in Hj. unfold lvl_get in *.
      destruct (Z.eqb_spec (mf_ind f) 0) as [|Hi]; [done|]. rewrite (fr_ptr _ _ R) in Hne |- * by done.
      exists (10 + j). destruct (decide (10 + j < zlen (mf_blk f))); [|by rewrite bget0_past in Hne by lia].
      split_and!; [lia | lia | | done]. unfold leaf. change NDIRECT with 10. change NINDIRECT with 128.
      rewrite (proj2 (Z.ltb_ge (10 + j) 10)) by lia. replace (10 + j - 10) with j by lia.
      by rewrite (proj2 (Z.ltb_lt j 128)) by lia.
Qed.

Lemma node_in V f a p : file_rep V f → addrs_rep f a → valid_node p → node_addr V a p ≠ 0 →
  node_addr V a p ∈ fblocks f.
Proof.
  intros R A Hp Hne. destruct (mk_node_cases _ _ _ _ R A Hp Hne) as [(k & Hk & _ & ->)|(Hi & _ & ->)];
    [by apply blk_in | by apply ind_in].
Qed.

Lemma node_leaf V f a k : file_rep V f → addrs_rep f a → 0 ≤ k < zlen (mf_blk f) →
  node_addr V a (leaf k) = bget0 (mf_blk f) k.
Proof.
  intros R [A1 A2 A3 _] Hk. pose proof (fr_max _ _ R). unfold leaf, node_addr. change NDIRECT with 10. change NINDIRECT with 128.
  destruct (Z.ltb_spec k 10); [apply A2; lia|]. rewrite (proj2 (Z.ltb_lt _ _)) by lia. cbn [fst snd walk_addr].
  rewrite A3. unfold lvl_get. destruct (Z.eqb_spec (mf_ind f) 0) as [Hi|Hi].
  - pose proof (fr_ind _ _ R Hi). lia.
  - rewrite (fr_ptr _ _ R) by (done || lia). f_equal. lia.
Qed.

(** The free map that balloc writes: the first [n] bits. *)
Lemma map_bits n j : (n ≤ 4096)%nat → 0 ≤ j < 4096 →
  length (foldl set_bit zero_block (map Z.of_nat (seq 0 n))) = 512%nat ∧
  bit_set (foldl set_bit zero_block (map Z.of_nat (seq 0 n))) j = (j <? Z.of_nat n).
Proof.
  intros Hn Hj. induction n as [|n IH].
  - split; [done|]. cbn [seq map foldl]. rewrite bit_set_testbit, bget0_zero, Z.testbit_0_l.
    symmetry. apply Z.ltb_ge. lia.
  - rewrite seq_S, map_app, foldl_app. cbn [map foldl]. destruct IH as [IHl IHb]; [lia|].
    rewrite length_set_bit, bit_set_set; [|rewrite IHl; done|change BPB with 4096; lia..].
    split; [done|]. rewrite IHb. destruct (Z.eqb_spec (Z.of_nat (0 + n)) j), (Z.ltb_spec j (Z.of_nat n)), (Z.ltb_spec j (Z.of_nat (S n))); lia || done.
Qed.

Section finished.
Context (s : mkst) (fs : list mfile).
Context (O : mk_ok s fs) (Hfb : k_freeblock s < 4096).
Context (Hmap : img s 58 = foldl set_bit zero_block (map Z.of_nat (seq 0 (Z.to_nat (k_freeblock s))))).
Context (Hzero : ∀ b, 58 < b < nmeta → img s b = zero_block).

#[local] Lemma meta68 : nmeta = 68 ∧ 68 ≤ k_freeblock s.
Proof. pose proof (mo_count _ _ O). assert (nmeta = 68) by done. lia. Qed.

Lemma bblock_range b : 0 ≤ b < FSSIZE → BBLOCK b mk_sb = 58 + b / 4096 ∧ 0 ≤ b / 4096 < 10.
Proof. unfold FSSIZE. intros. split; [unfold BBLOCK; change BPB with 4096; change (sb_bmapstart mk_sb) with 58; lia | divmod_lia]. Qed.

Lemma used_exact b : 0 ≤ b < FSSIZE → used mk_sb (img s) b = (b <? k_freeblock s).
Proof.
  intros Hb. destruct meta68, (bblock_range b Hb) as [E Hr]. unfold used. rewrite E. change BPB with 4096.
  destruct (decide (b / 4096 = 0)) as [E0|E0].
  - rewrite E0, Z.add_0_r, Hmap. assert (b < 4096) by divmod_lia. rewrite Z.mod_small by lia.
    destruct (map_bits (Z.to_nat (k_freeblock s)) b) as [_ ->]; [lia..|]. by rewrite Z2Nat.id by lia.
  - rewrite Hzero by lia. rewrite bit_set_testbit, bget0_zero, Z.testbit_0_l. symmetry. apply Z.ltb_ge. divmod_lia.
Qed.

Lemma home_range tx b : 32 ≤ b < FSSIZE → home (mk_geo tx) b.
Proof. intros Hb. split; simpl; [lia|]. unfold in_log, nlog, LOGSIZE. lia. Qed.

Lemma image_layout tx : layout (mk_geo tx) mk_sb (img s).
Proof.
  destruct meta68 as [Hm Hf]. split; simpl.
  - done.
  - done.
  - intros b Hb. destruct (bblock_range b Hb) as [E Hr]. rewrite E. unfold FSSIZE in *. split; [apply home_range; unfold FSSIZE; lia|].
    split; [lia|]. rewrite used_exact by (unfold FSSIZE; lia). apply Z.ltb_lt. lia.
  - rewrite used_exact by done. apply Z.ltb_lt. lia.
  - intros b Hb Hu. rewrite used_exact in Hu by done. apply Z.ltb_ge in Hu. apply home_range. lia.
Qed.

Lemma own_data_ok tx b : b ∈ blks fs → data_ok (mk_geo tx) mk_sb (img s) b.
Proof.
  intros Hb%(mo_range _ _ O). destruct meta68 as [Hm Hf]. split; [simpl; unfold FSSIZE; lia|]. split; [|split].
  - apply home_range. unfold FSSIZE. lia.
  - rewrite used_exact by (unfold FSSIZE; lia). apply Z.ltb_lt. lia.
  - intros c Hc. destruct (bblock_range c Hc). lia.
Qed.

Lemma image_file_ok tx f a : f ∈ fs → addrs_rep f a → file_ok (mk_geo tx) mk_sb (img s) a.
Proof.
  intros Hf A. pose proof (mo_file _ _ O f Hf) as R. split; [apply A | |].
  - intros p Hp Hne. apply own_data_ok. eapply elem_blks; [done | by eapply node_in].
  - intros p q Hp Hq Hne E. apply list_elem_of_split in Hf as (l1 & l2 & ->).
    pose proof (mo_nodup_self _ _ _ _ O) as Hn. apply list.NoDup_app in Hn as (Hn & _ & _).
    assert (node_addr (img s) a q ≠ 0) as Hne' by (by rewrite <- E).
    destruct (mk_node_cases _ _ _ _ R A Hp Hne) as [(k & Hk & -> & Ek)|(Hi & -> & Ek)],
      (mk_node_cases _ _ _ _ R A Hq Hne') as [(j & Hj & -> & Ej)|(Hi' & -> & Ej)]; [| | |done].
    + rewrite Ek, Ej in E. f_equal. by apply (bget0_inj (mf_blk f)).
    + exfalso. eapply (ind_not_blk _ _ _ _ k O); [done | done | congruence].
    + exfalso. eapply (ind_not_blk _ _ _ _ j O); [done | done | congruence].
Qed.

Lemma image_mapped f a : f ∈ fs → addrs_rep f a → mapped (img s) a 0 (zlen (mf_data f)).
Proof.
  intros Hf A i Hi. pose proof (mo_file _ _ O f Hf) as R. destruct (fr_len _ _ R). change BSIZE with 512.
  rewrite (node_leaf _ f) by (done || (split; [divmod_lia | apply Z.div_lt_upper_bound; lia])).
  destruct meta68. apply list_elem_of_split in Hf as (l1 & l2 & ->).
  pose proof (blk_pos _ _ _ _ (i / 512) O ltac:(split; [divmod_lia | apply Z.div_lt_upper_bound; lia])). lia.
Qed.

Lemma image_bytes f a k : f ∈ fs → addrs_rep f a → 0 ≤ k < BSIZE * MAPPED → fbyte (img s) a k = bget0 (mf_data f) k.
Proof.
  intros Hf A Hk. pose proof (mo_file _ _ O f Hf) as R. destruct (fr_len _ _ R). unfold fbyte, content.
  pose proof (byte_in_file k Hk) as Hb. change BSIZE with 512 in Hb |- *.
  destruct (Z.eqb_spec (node_addr (img s) a (leaf (k / 512))) 0) as [E|E].
  - rewrite bget0_zero. symmetry. apply bget0_past.
    destruct (decide (zlen (mf_data f) ≤ k)) as [|Hlt]; [done|]. exfalso.
    apply (image_mapped f a Hf A k); [lia | exact E].
  - destruct (valid_leaf _ Hb) as [Hv _]. destruct (mk_node_cases _ _ _ _ R A Hv E) as [(j & Hj & El & ->)|(Hi & El & _)].
    + pose proof (fr_max _ _ R). apply leaf_inj in El; [|done|change MAPPED with 32906; lia]. rewrite <- El in Hj |- *.
      rewrite (fr_data _ _ R) by (done || divmod_lia). f_equal. divmod_lia.
    + exfalso. apply (leaf_not_parent (k / 512) (10, []) 0 Hb); [|done].
      split_and!; cbn; [lia | lia | lia | repeat constructor; done].
Qed.

End finished.

(** Inode [n] is a file of [type] with one link, whose bytes are [data], then
    zeroes; its blocks are its own, and mapped as far as [data] goes. *)
Record stored (V : Z → block) (n type size : Z) (data : list Z) : Prop := {
  st_inode : ∃ a, dinode V n = mk_inode type size a;
  st_file : ∀ tx, file_ok (mk_geo tx) mk_sb V (i_addrs (dinode V n));
  st_len : zlen data ≤ 512 * 138;
  st_area : ∀ p, valid_node p → node_addr V (i_addrs (dinode V n)) p ≠ 0 → nmeta ≤ node_addr V (i_addrs (dinode V n)) p;
  st_mapped : mapped V (i_addrs (dinode V n)) 0 (zlen data);
  st_bytes : ∀ k, 0 ≤ k < BSIZE * MAPPED → fbyte V (i_addrs (dinode V n)) k = bget0 data k
}.

Record image_fs (host : list Z → option (list (list Z))) (names : list (list Z)) (V : Z → block) : Prop := {
  im_super : sb_decode (V 1) = mk_sb;
  im_layout : ∀ tx, layout (mk_geo tx) mk_sb V;
  im_used : ∀ b, 0 ≤ b < FSSIZE → used mk_sb V b =
    (b <? nmeta + bcost (16 * (2 + zlen names)) + cost_of (map (fdata host) names));
  im_root : stored V ROOTINO T_DIR (512 * (16 * (2 + zlen names) / 512 + 1)) (root_data names);
  im_file : ∀ i name, names !! i = Some name →
    stored V (Z.of_nat i + 2) T_FILE (zlen (fdata host name)) (fdata host name);
  im_disjoint : ∀ m n p q, 1 ≤ m ≤ zlen names + 1 → 1 ≤ n ≤ zlen names + 1 → m ≠ n →
    valid_node p → valid_node q → node_addr V (i_addrs (dinode V m)) p ≠ 0 →
    node_addr V (i_addrs (dinode V m)) p ≠ node_addr V (i_addrs (dinode V n)) q
}.

(** The file system, and a log without a committed transaction. *)
Definition image_ok (host : list Z → option (list (list Z))) (names : list (list Z)) (V : Z → block) : Prop :=
  image_fs host names V ∧ V (sb_logstart mk_sb) = zero_block ∧ ∀ b, length (V b) = 512%nat.

(** The zeroing loop. *)
Lemma wp_zero n Q s : Z.of_nat n ≤ FSSIZE → (∀ b, img s b = zero_block) → k_len s = 0 →
  (∀ s', (∀ b, img s' b = zero_block) → k_len s' = Z.of_nat n → k_freeinode s' = k_freeinode s →
    k_freeblock s' = k_freeblock s → Q tt s') →
  wp (foreach (map Z.of_nat (seq 0 n)) (λ i, wsect i zero_block)) Q s.
Proof.
  intros Hn Hz Hl HQ.
  apply (wp_foreach (λ l t, (∀ b, img t b = zero_block) ∧ k_len t = zlen l ∧ k_freeinode t = k_freeinode s ∧
    k_freeblock t = k_freeblock s)); [done| |].
  - intros l1 x l2 t E (Z1 & Z2 & Z3 & Z4).
    assert (x = zlen l1 ∧ (length l1 < n)%nat) as [-> Hlt].
    { pose proof (f_equal (.!! length l1) E) as E'. simpl in E'.
      rewrite list_lookup_middle, list_lookup_fmap in E' by done.
      apply fmap_Some in E' as (y & Hy & ->). apply lookup_seq in Hy as [-> Hy]. split; lia. }
    apply wp_wsect; [lia|]. split_and!; simpl; [|rewrite Z2, length_app; simpl; lia|done|done].
    intros b. rewrite img_put. by case_decide.
  - intros t (Z1 & Z2 & Z3 & Z4). apply HQ; try done. rewrite Z2, length_map, length_seq. done.
Qed.

Lemma mk_inv_nil s : (∀ b, img s b = zero_block) → k_len s = FSSIZE → k_freeinode s = 1 → k_freeblock s = nmeta →
  mk_inv (put_sect 1 (sb_block mk_sb) s) [].
Proof.
  intros Hz Hl Hi Hb. pose proof nmeta_pos. assert (nmeta = 68) as Hm by done. split.
  - split; cbn [put_sect k_freeblock k_len].
    + constructor.
    + intros b Hb'. by apply not_elem_of_nil in Hb'.
    + simpl. lia.
    + intros b Hb'. rewrite img_put, decide_False by lia. apply Hz.
    + intros b. rewrite img_put, Hz. by case_decide.
    + by rewrite Hl.
    + intros f Hf. by apply not_elem_of_nil in Hf.
  - intros f Hf. by apply not_elem_of_nil in Hf.
  - done.
  - done.
  - by rewrite img_put.
  - intros b _ Hb1. rewrite img_put, decide_False by done. apply Hz.
Qed.

(** The size that main gives the root directory at the end. *)
Definition final_size (i : nat) (f : mfile) : Z :=
  match i with O => 512 * (zlen (mf_data f) / 512 + 1) | S _ => zlen (mf_data f) end.

Lemma image_of host names s fs :
  mk_ok s fs → (∀ f, f ∈ fs → tight f) → built host names fs → k_freeblock s < 4096 →
  img s 1 = sb_block mk_sb → img s 2 = zero_block → (∀ b, 58 < b < nmeta → img s b = zero_block) →
  img s 58 = foldl set_bit zero_block (map Z.of_nat (seq 0 (Z.to_nat (k_freeblock s)))) →
  (∀ i f, fs !! i = Some f → ∃ a, dinode (img s) (Z.of_nat i + 1) = mk_inode (mf_type f) (final_size i f) a ∧ addrs_rep f a) →
  image_ok host names (img s).
Proof.
  intros O Ht [(r & rest & -> & Hr & Hrd & Hrest)] Hfb H1 H2 Hz Hmap Hd.
  pose proof (Forall2_length Hrest) as Hlr.
  assert (∀ i f n, (r :: rest) !! i = Some f → n = Z.of_nat i + 1 → stored (img s) n (mf_type f) (final_size i f) (mf_data f)) as St.
  { intros i f n Hf ->. destruct (Hd i f Hf) as (a & E & A). apply list_elem_of_lookup_2 in Hf. split; rewrite ?E; simpl.
    - by exists a.
    - intros tx. by eapply image_file_ok.
    - pose proof (mo_file _ _ O f Hf) as R. destruct (fr_len _ _ R). pose proof (fr_max _ _ R). lia.
    - intros p Hp Hne. apply (mo_range _ _ O). eapply elem_blks; [exact Hf | by eapply node_in; [apply O|..]].
    - by eapply image_mapped.
    - intros k Hk. by eapply image_bytes. }
  split; [|split; [done | apply O]]. split.
  - by rewrite H1.
  - intros tx. by eapply image_layout.
  - intros b Hb. erewrite used_exact by done. rewrite (mo_count _ _ O), (blks_cost _ Ht). cbn [map].
    rewrite Hrd, (built_cost _ _ _ Hrest), <- length_root_data. f_equal. unfold cost_of. simpl. lia.
  - rewrite <- Hr, <- Hrd, <- length_root_data, <- Hrd. by apply (St 0%nat).
  - intros i name Hn. destruct (Forall2_lookup_l _ _ _ _ _ Hrest Hn) as (f & Hf & <- & <-).
    apply (St (S i)); [done | lia].
  - intros m n p q Hm Hn Hne Hp Hq Hp0 E.
    destruct (lookup_lt_is_Some_2 (r :: rest) (Z.to_nat (m - 1))) as [f Hf]; [simpl; lia|].
    destruct (lookup_lt_is_Some_2 (r :: rest) (Z.to_nat (n - 1))) as [g Hg]; [simpl; lia|].
    destruct (Hd _ _ Hf) as (a & Ea & A), (Hd _ _ Hg) as (b & Eb & B).
    replace (Z.of_nat (Z.to_nat (m - 1)) + 1) with m in Ea by lia.
    replace (Z.of_nat (Z.to_nat (n - 1)) + 1) with n in Eb by lia. rewrite Ea, Eb in *. cbn [i_addrs mk_inode] in *.
    assert (node_addr (img s) b q ≠ 0) as Hq0 by congruence.
    pose proof (mo_file _ _ O f (list_elem_of_lookup_2 _ _ _ Hf)) as Rf.
    pose proof (mo_file _ _ O g (list_elem_of_lookup_2 _ _ _ Hg)) as Rg.
    apply (mo_disjoint _ _ _ _ _ _ (node_addr (img s) a p) O Hf Hg); [lia | by apply (node_in _ f) |].
    rewrite E. by apply (node_in _ g).
Qed.

(** The end of main: the root's size, then the free map. *)
Lemma wp_finish host names fs Q s :
  mk_inv s fs → built host names fs → mkfs_input host names →
  (∀ s', image_ok host names (img s') → Q tt s') →
  wp (din ← rinode ROOTINO; winode ROOTINO (set_i_size (u32 ((i_size din / BSIZE + 1) * BSIZE)) din);;
      used ← gets k_freeblock; balloc used) Q s.
Proof.
  intros [I1 I2 I3 I4 I5 I6] B [M1 M2 M3] HQ.
  pose proof B as [(r & rest & -> & Hr & Hrd & Hrest)]. pose proof (Forall2_length Hrest) as Hlr.
  assert (∀ f, f ∈ r :: rest → tight f) as Ht by (intros f Hf; by apply I2).
  assert (nmeta + cost_of (map mf_data (r :: rest)) < BSIZE * 8) as Hc.
  { cbn [map]. rewrite (built_cost _ _ _ Hrest). unfold cost_of in *. simpl. rewrite Hrd, length_root_data. lia. }
  rewrite <- (blks_cost _ Ht), <- (mo_count _ _ I1) in Hc. change (BSIZE * 8) with 4096 in Hc.
  destruct (I3 0%nat r eq_refl) as (a & Hd & A). change ROOTINO with (Z.of_nat 0 + 1).
  wp_step. eapply wp_rinode; [done | done |]. rewrite Hd. cbn [i_size mk_inode]. change BSIZE with 512. wp_step.
  assert (0 ≤ zlen (mf_data r) / 512 < 7) as Hsz by (rewrite Hrd, length_root_data; divmod_lia).
  rewrite u32_id by lia. change (set_i_size ?v _) with (mk_inode (mf_type r) v a). rewrite Z.mul_comm.
  eapply (wp_winode (r :: rest)); [done | done | |].
  { eapply (mk_inode_ok s []); [done | unfold FSSIZE; lia | done | by rewrite Hr | lia]. }
  intros s' O' N' E' D' D''. wp_steps.
  assert (k_freeblock s' = k_freeblock s) as Hfb by (rewrite (mo_count _ _ O'); by rewrite (mo_count _ _ I1)).
  rewrite Hfb. unfold balloc. change (BSIZE * 8) with 4096. rewrite (proj2 (Z.leb_gt _ _)) by lia.
  change (sb_bmapstart mk_sb) with 58. apply wp_wsect; [done|]. apply HQ.
  assert (nmeta = 68) as Hm by done. pose proof nmeta_pos. pose proof (mo_count _ _ I1).
  destruct (map_bits (Z.to_nat (k_freeblock s)) 0) as [Hbl _]; [lia..|].
  apply (image_of _ _ _ (r :: rest)); try done.
  - by apply mk_ok_meta.
  - simpl. lia.
  - rewrite img_put, decide_False, E' by lia. done.
  - rewrite img_put, decide_False, E' by lia. apply I6; lia.
  - intros b Hb. rewrite img_put, decide_False, E' by lia. apply I6; lia.
  - rewrite img_put, decide_True by done. cbn [put_sect k_freeblock]. by rewrite Hfb.
  - intros i f Hf. pose proof (lookup_lt_Some _ _ _ Hf) as Hlt. simpl in Hlt.
    pose proof (iblock_range (Z.of_nat i + 1) ltac:(lia)).
    assert (dinode (img (put_sect 58 (foldl set_bit zero_block (map Z.of_nat (seq 0 (Z.to_nat (k_freeblock s))))) s'))
      (Z.of_nat i + 1) = dinode (img s') (Z.of_nat i + 1)) as ->
      by (unfold disk_inode; rewrite img_put, decide_False by lia; done).
    destruct i as [|i]; [injection Hf as <-; by exists a|].
    destruct (I3 (S i) f Hf) as (b & Eb & Ab). exists b. split; [|done]. by rewrite D'' by lia.
Qed.

Lemma wp_mkfs creat host prog fsimg names :
  creat fsimg = true → mkfs_input host names →
  wp (main creat host (prog :: fsimg :: names)) (λ _ s, image_ok host names (img s)) mk0.
Proof.
  intros Hcr M. unfold main. rewrite Hcr. cbn [negb]. wp_step. wp_step. wp_step.
  apply wp_zero; [unfold FSSIZE; lia | done | done |]. intros s1 Z1 Z2 Z3 Z4.
  rewrite Z2Nat.id in Z2 by done. wp_step. apply wp_wsect; [done|].
  pose proof (mk_inv_nil s1 Z1 Z2 Z3 Z4) as I1. wp_step.
  eapply wp_ialloc; [exact I1 | simpl; lia | done |]. intros s2 I2.
  change (zlen (@nil mfile) + 1) with ROOTINO. cbn [negb]. rewrite Z.eqb_refl. cbn [negb].
  change (([] : list mfile) ++ [empty_file T_DIR]) with ([] ++ empty_file T_DIR :: []) in I2.
  wp_step. eapply (wp_iappend [] _ []); [exact I2 | simpl; lia | by split |]. intros r1 s3 I3 Hd1 Ht1.
  wp_step. eapply (wp_iappend [] _ []); [exact I3 | simpl; lia | rewrite Hd1; by split |]. intros r2 s4 I4 Hd2 Ht2.
  wp_step. apply (wp_foreach (λ l t, ∃ fs, mk_inv t fs ∧ built host l fs)).
  - exists [r2]. split; [exact I4|]. split. exists r2, []. split_and!; [done | by rewrite Ht2, Ht1 | | constructor].
    rewrite Hd2, Hd1. done.
  - intros l1 x l2 t El J. by eapply wp_mkfs_file.
  - intros t (fs & I & B). eapply wp_finish; try done.
Qed.

(** C27. mkfs builds a file system that the kernel reads: for readable files
    with names without a slash, at most 198 of them, each no longer than 138
    blocks, and together within one block of the free map, main succeeds; in
    the image the super block decodes to the layout, the log is empty, the free
    map marks exactly the metadata and the blocks of the files, inode 1 is the
    root directory with the entries ., .. and one for each file (a leading
    underscore dropped), and inode i + 2 is the i-th file: type, link count and
    size as written, every block mapped, inside the data area and owned by that
    file alone, and the bytes the kernel reads are the bytes of the host's file. *)
Theorem mkfs_image creat host prog fsimg names :
  creat fsimg = true → mkfs_input host names →
  wp (main creat host (prog :: fsimg :: names)) (λ _ s, image_ok host names (img s)) mk0.
Proof. apply wp_mkfs. Qed.

(** Two files, _cat of 515 bytes and R of 3. *)
Definition sample_host (name : list Z) : option (list (list Z)) :=
  if decide (name = [95; 99; 97; 116]) then Some [replicate 512 7; [1; 2; 3]]
  else if decide (name = [82]) then Some [[104; 105; 10]] else None.

Definition sample_names : list (list Z) := [[95; 99; 97; 116]; [82]].

Lemma sample_input : mkfs_input sample_host sample_names.
Proof.
  split.
  - vm_compute. lia.
  - intros name Hn. unfold sample_names in Hn. rewrite !elem_of_cons, elem_of_nil in Hn.
    destruct Hn as [->|[->|[]]]; (split; [unfold SLASH; rewrite !not_elem_of_cons; split_and?; (done || set_solver) |
      split; [by eexists | vm_compute; done]]).
  - vm_compute. done.
Qed.

Lemma mkfs_image_witness :
  wp (main (λ _, true) sample_host ([109] :: [105] :: sample_names))
    (λ _ s, image_ok sample_host sample_names (img s)) mk0.
Proof.
  apply (mkfs_image (λ _, true) sample_host [109] [105] sample_names); [reflexivity | apply sample_input].
Defined.

(** Beyond the 138th block iappend leaves its array: MAXFILE counts the
    doubly and triply indirect blocks that the kernel maps, so the assertion
    lets a longer file through, and for a file whose size is at least 138
    blocks and below MAXFILE blocks every append of at least one byte accesses
    indirect[] past its NINDIRECT entries. *)
Theorem iappend_past_indirect inum p s :
  k_len s = FSSIZE → 0 ≤ inum < NINODES → p ≠ [] →
  let din := dinode (img s) inum in
  (NDIRECT + NINDIRECT) * BSIZE ≤ i_size din < MAXFILE * BSIZE → 0 < addr_of din NDIRECT < FSSIZE →
  iappend inum p s = Undef "indirect[fbn - NDIRECT]".
Proof.
  intros Hl Hn Hp din Hsz Ha. destruct p as [|c p]; [done|].
  pose proof (iblock_range inum Hn) as Hib.
  assert (∀ b, 0 ≤ b < FSSIZE → rsect b s = Ok (img s b) s) as Hrs.
  { intros b Hb. unfold rsect, mbind, M_bind, gets. rewrite sect_id, Hl, (proj2 (Z.leb_gt _ _)) by lia. done. }
  assert (rinode inum s = Ok din s) as Hri by (unfold rinode; erewrite bind_ok; [|apply Hrs; unfold FSSIZE; lia]; done).
  change ((NDIRECT + NINDIRECT) * BSIZE) with (138 * 512) in Hsz. change BSIZE with 512 in Hsz.
  assert (138 ≤ i_size din / 512) as Hk by (apply Z.div_le_lower_bound; lia).
  assert (i_size din / 512 < MAXFILE) as Hk' by (apply Z.div_lt_upper_bound; lia).
  assert (iappend_block (i_size din / 512) din s = Undef "indirect[fbn - NDIRECT]") as Hib'.
  { unfold iappend_block. change NDIRECT with 10 in *. rewrite (proj2 (Z.ltb_ge _ _)) by lia.
    unfold addr_alloc. rewrite (proj2 (Z.eqb_neq _ _)) by lia. erewrite bind_ok by done.
    erewrite bind_ok by (apply Hrs; lia). cbv zeta. change NINDIRECT with 128. by rewrite (proj2 (Z.leb_le _ _)) by lia. }
  unfold iappend. rewrite (bind_ok _ _ _ _ _ Hri). cbn [iappend_loop length]. cbv zeta. change BSIZE with 512.
  rewrite (proj2 (Z.leb_gt _ _)) by done. unfold mbind, M_bind. by rewrite Hib'.
Qed.

(** Inode 2 with 138 blocks. *)
Definition long_state : mkst :=
  Mk {[32 := put_dinode zero_block (dinode_off 2) (mk_inode T_FILE 70656 (replicate 10 80 ++ [100; 0; 0]))]} FSSIZE 3 300.

Lemma iappend_past_indirect_witness : iappend 2 [1] long_state = Undef "indirect[fbn - NDIRECT]".
Proof.
  apply (iappend_past_indirect 2 [1] long_state).
  - reflexivity.
  - split; [lia | reflexivity].
  - done.
  - vm_compute. split; [done | reflexivity].
  - vm_compute. split; reflexivity.
Defined.
