(* ===== verification/MkfsBoot.v ===== *)
(** * MkfsBoot: from mkfs to a file read by the kernel

    The image that mkfs.c writes is the disk that the kernel boots from.  The
    theorem composes the parts: mkfs builds the image (Mkfs.v); the kernel
    reads the super block, recovers the log (Log.v), sets the inode cache up
    (iinit of fs.c), resolves the name of a file in the root directory
    (FsDir.v, FsPath.v), locks its inode and reads it (FsRw.v); what it reads
    are the bytes of the file that mkfs was given. *)

From Stdlib Require Import ZArith Lia Bool.
From stdpp Require Import base option list sets gmap strings numbers.
From S2P Require Import Prelude Cstring Locks Bio BioSpec Log Blockdev Fs Dinode FsBlock FsMap FsRw FsDir FsPath FsImage Mkfs.

#[local] Open Scope string_scope.
#[local] Open Scope list_scope.
#[local] Open Scope Z_scope.

#[local] Notation zlen l := (Z.of_nat (length l)).
#[local] Notation dinode := (disk_inode mk_sb).

(** ** A disk that differs in the header of the log *)

Section ext.
Context (V V' : Z → block) (He : ∀ c, c ≠ 2 → V' c = V c).

Lemma iblock_ge n : 0 ≤ n → 32 ≤ IBLOCK n mk_sb.
Proof. intros. unfold IBLOCK, mk_sb, nlog, LOGSIZE, IPB. simpl. divmod_lia. Qed.

Lemma dinode_ext n : 0 ≤ n → dinode V' n = dinode V n.
Proof. intros Hn. unfold disk_inode. rewrite He; [done|]. pose proof (iblock_ge n Hn). lia. Qed.

Lemma used_ext2 b : 0 ≤ b → used mk_sb V' b = used mk_sb V b.
Proof.
  intros Hb. apply used_ext, He. unfold BBLOCK. change (sb_bmapstart mk_sb) with 58. change BPB with 4096. divmod_lia.
Qed.

Lemma node_ext2 tx a p : file_ok (mk_geo tx) mk_sb V a → valid_node p → node_addr V' a p = node_addr V a p.
Proof.
  intros F. revert p. apply node_ext. intros p j Hv Hne. apply He. destruct (valid_parent _ _ Hv) as [Hp _].
  destruct (fo_ok _ _ _ _ F p Hp Hne) as (_ & (_ & Hh) & _). intros E. apply Hh. rewrite E. unfold in_log. simpl. done.
Qed.

Lemma stored_ext n type size data : 0 ≤ n → stored V n type size data → stored V' n type size data.
Proof.
  intros Hn [S1 S2 S5 S6 S3 S4]. rewrite <- dinode_ext in S1 by done.
  assert (∀ p, valid_node p → node_addr V' (i_addrs (dinode V n)) p = node_addr V (i_addrs (dinode V n)) p) as Hnd
    by (intros p; apply (node_ext2 true), S2).
  split; [done | | done | | |]; rewrite ?dinode_ext by done.
  - intros tx. destruct (S2 tx) as [F1 F2 F3]. split; [done| |].
    + intros p Hp. rewrite Hnd by done. intros Hne. destruct (F2 p Hp Hne) as (D1 & D2 & D3 & D4).
      split; [done|]. split; [done|]. split; [by rewrite used_ext2 by lia | done].
    + intros p q Hp Hq. rewrite !Hnd by done. by apply F3.
  - intros p Hp. rewrite Hnd by done. by apply S6.
  - intros i Hi. rewrite Hnd; [by apply S3|]. apply valid_leaf, byte_in_file. change (BSIZE * MAPPED) with 16847872. lia.
  - intros k Hk. rewrite <- S4 by done. unfold fbyte, content. pose proof (byte_in_file k Hk) as Hb.
    destruct (valid_leaf _ Hb) as [Hv _]. rewrite Hnd by done. case_match eqn:E; [done|]. rewrite He; [done|].
    apply Z.eqb_neq in E. destruct (fo_ok _ _ _ _ (S2 true) _ Hv E) as (_ & (_ & Hh) & _). intros E2. apply Hh. rewrite E2. done.
Qed.

Lemma image_fs_ext host names : image_fs host names V → image_fs host names V'.
Proof.
  intros [I1 I2 I3 I4 I5 I6]. split.
  - by rewrite He.
  - intros tx. eapply layout_ext; [|apply I2]. intros c Hc. apply He. unfold BBLOCK.
    change (sb_bmapstart mk_sb) with 58. change BPB with 4096. divmod_lia.
  - intros b Hb. rewrite used_ext2 by lia. by apply I3.
  - by apply stored_ext.
  - intros i name Hi. apply stored_ext; [lia | by apply I5].
  - intros m n p q Hm Hn Hne Hp Hq. rewrite !dinode_ext by lia.
    assert (∀ k, 1 ≤ k ≤ zlen names + 1 → file_ok (mk_geo true) mk_sb V (i_addrs (dinode V k))) as Hf.
    { intros k Hk. destruct (decide (k = 1)) as [->|]; [apply (st_file _ _ _ _ _ I4)|].
      destruct (lookup_lt_is_Some_2 names (Z.to_nat (k - 2))) as [name Hname]; [lia|].
      pose proof (st_file _ _ _ _ _ (I5 _ _ Hname) true) as F. by replace (Z.of_nat (Z.to_nat (k - 2)) + 2) with k in F by lia. }
    rewrite !(node_ext2 true) by auto. by apply I6.
Qed.

End ext.

(** ** The root directory *)

Lemma concat16_lookup (es : list (list Z)) k i e : (∀ e, e ∈ es → length e = 16%nat) → es !! k = Some e → (i < 16)%nat →
  concat es !! (16 * k + i)%nat = e !! i.
Proof.
  revert k. induction es as [|e0 es IH]; intros k Hl Hk Hi; [done|]. pose proof (Hl e0 ltac:(set_solver)) as H0.
  destruct k as [|k]; cbn [concat].
  - injection Hk as ->. rewrite lookup_app_l by lia. done.
  - rewrite lookup_app_r by lia. replace (16 * S k + i - length e0)%nat with (16 * k + i)%nat by lia.
    apply IH; [set_solver | done | done].
Qed.

Lemma skip_underscore_sub c name : c ∈ skip_underscore name → c ∈ name.
Proof. destruct name as [|d name]; [done|]. simpl. case_match; set_solver. Qed.

Lemma bytes_underscore name : Forall is_byte name → Forall is_byte (skip_underscore name).
Proof. rewrite !list.Forall_forall. intros Hb c Hc. apply Hb. by apply skip_underscore_sub. Qed.

Lemma inode_home tx n : 0 ≤ n < 200 → home (mk_geo tx) (IBLOCK n mk_sb).
Proof. intros Hn. pose proof (iblock_range n Hn). apply home_range. unfold FSSIZE. lia. Qed.

Section root.
Context (host : list Z → option (list (list Z))) (names : list (list Z)) (V : Z → block).
Context (I : image_fs host names V) (Hnum : (length names ≤ 198)%nat).
Context (Hbytes : ∀ name, name ∈ names → Forall is_byte name).

#[local] Notation ra := (i_addrs (dinode V ROOTINO)).

Definition root_cnt : nat := Z.to_nat (32 * (16 * (2 + zlen names) / 512 + 1)).

Lemma root_cnt_range : Z.of_nat root_cnt = 32 * (16 * (2 + zlen names) / 512 + 1) ∧ (2 + length names < root_cnt ≤ 256)%nat.
Proof. unfold root_cnt. assert (0 ≤ 16 * (2 + zlen names) / 512 < 7) by divmod_lia. split; [lia|]. split; [divmod_lia | lia]. Qed.

Lemma root_bytes : Forall is_byte (root_data names).
Proof.
  unfold root_data. apply Forall_concat. apply list.Forall_forall.
  intros e [->|[->|(i & x & -> & Hx)%elem_of_lookup_imap]%elem_of_cons]%elem_of_cons; apply bytes_mk_dirent.
  - by repeat constructor.
  - by repeat constructor.
  - apply bytes_underscore, Hbytes. by eapply list_elem_of_lookup_2.
Qed.

Lemma root_dir tx : dir_at (mk_geo tx) mk_sb V ROOTINO root_cnt.
Proof.
  pose proof (im_root _ _ _ I) as [(a & E) S2 S3 _ S4 S5]. destruct root_cnt_range as [Hc Hc'].
  split.
  - split; [by apply inode_home | by rewrite E | by rewrite E].
  - by rewrite E.
  - rewrite E. simpl. rewrite Hc. lia.
  - change (BSIZE * MAPPED) with 16847872. lia.
  - apply S2.
  - intros k Hk. rewrite S5 by (change (BSIZE * MAPPED) with 16847872; lia). unfold bget0.
    destruct (root_data names !! Z.to_nat k) as [x|] eqn:Ex; [|done]. simpl.
    eapply list.Forall_lookup_1; [apply root_bytes | done].
Qed.

Lemma root_dirents k e : root_entries names !! k = Some e → dirents V ra root_cnt !! k = Some e.
Proof.
  intros Hk. pose proof (lookup_lt_Some _ _ _ Hk) as Hl. rewrite length_root_entries in Hl. destruct root_cnt_range as [Hc Hc'].
  assert (length e = 16%nat) as He by (eapply entry_length, list_elem_of_lookup_2, Hk).
  rewrite lookup_dirents by lia. f_equal. apply list_eq. intros i. destruct (decide (i < 16)%nat) as [Hi|Hi].
  - rewrite lookup_fbytes by done. rewrite (st_bytes _ _ _ _ _ (im_root _ _ _ I)) by (change (BSIZE * MAPPED) with 16847872; lia).
    unfold bget0, root_data. replace (Z.to_nat (16 * Z.of_nat k + Z.of_nat i)) with (16 * k + i)%nat by lia.
    rewrite (concat16_lookup _ k i e) by (done || apply entry_length).
    destruct (lookup_lt_is_Some_2 e i) as [x Hx]; [lia|]. by rewrite Hx.
  - rewrite !lookup_ge_None_2; [done | lia | rewrite length_fbytes; lia].
Qed.

(** The name is not one of the entries before its own. *)
Definition first_name (i : nat) (nm : list Z) : Prop :=
  dname nm ≠ [46] ∧ dname nm ≠ [46; 46] ∧
  ∀ j name, (j < i)%nat → names !! j = Some name → dname (skip_underscore name) ≠ dname nm.

Lemma root_later k : root_entries names !! (2 + k)%nat =
  imap (λ i name, mk_dirent (Z.of_nat i + 2) (skip_underscore name)) names !! k.
Proof. done. Qed.

Lemma root_find i name : names !! i = Some name → first_name i (skip_underscore name) →
  dir_find (skip_underscore name) (dirents V ra root_cnt) = Some ((i + 2)%nat, mk_dirent (Z.of_nat i + 2) (skip_underscore name)).
Proof.
  intros Hi (Hd1 & Hd2 & Hd3). set (nm := skip_underscore name) in *.
  pose proof (lookup_lt_Some _ _ _ Hi) as Hl.
  assert (Forall is_byte nm) as Hb by (apply bytes_underscore, Hbytes; by eapply list_elem_of_lookup_2).
  assert (root_entries names !! (i + 2)%nat = Some (mk_dirent (Z.of_nat i + 2) nm)) as He.
  { rewrite Nat.add_comm, root_later. by rewrite list_lookup_imap, Hi. }
  apply list_find_Some. split; [by apply root_dirents|]. split; [apply live_mk; [lia | done | done]|].
  intros j y Hy Hj.
  assert (∃ e, root_entries names !! j = Some e) as [e Hej] by (apply lookup_lt_is_Some_2; rewrite length_root_entries; lia).
  rewrite (root_dirents _ _ Hej) in Hy. injection Hy as <-.
  destruct j as [|[|j]].
  - injection Hej as <-. rewrite live_mk by (done || by repeat constructor). intros E. apply Hd1. by rewrite <- E.
  - injection Hej as <-. rewrite live_mk by (done || by repeat constructor). intros E. apply Hd2. by rewrite <- E.
  - change (S (S j)) with (2 + j)%nat in Hej. rewrite root_later, list_lookup_imap in Hej. destruct (names !! j) as [nj|] eqn:Ej; [|done]. injection Hej as <-.
    rewrite live_mk; [apply (Hd3 j nj); [lia | done] | lia |].
    apply bytes_underscore, Hbytes. by eapply list_elem_of_lookup_2.
Qed.

Lemma root_absent nm : first_name (length names) nm →
  dir_find nm (dirents V ra root_cnt) = None.
Proof.
  intros (Hd1 & Hd2 & Hd3). apply list_find_None, list.Forall_lookup. intros k de Hk.
  pose proof (lookup_lt_Some _ _ _ Hk) as Hl. rewrite length_dirents in Hl. destruct root_cnt_range as [Hc Hc'].
  destruct (decide (k < 2 + length names)%nat) as [Hlt|Hge].
  - destruct (lookup_lt_is_Some_2 (root_entries names) k) as [e He]; [by rewrite length_root_entries|].
    rewrite (root_dirents _ _ He) in Hk. injection Hk as <-. destruct k as [|[|k]].
    + injection He as <-. rewrite live_mk by (done || by repeat constructor). intros E. apply Hd1. by rewrite <- E.
    + injection He as <-. rewrite live_mk by (done || by repeat constructor). intros E. apply Hd2. by rewrite <- E.
    + change (S (S k)) with (2 + k)%nat in He. rewrite root_later, list_lookup_imap in He.
      destruct (names !! k) as [nk|] eqn:Ek; [|done]. injection He as <-.
      rewrite live_mk; [by apply (Hd3 k nk); [lia|] | lia | apply bytes_underscore, Hbytes; by eapply list_elem_of_lookup_2].
  - intros [Hn _]. apply Hn. rewrite lookup_dirents in Hk by done. injection Hk as <-.
    assert (∀ i, 0 ≤ i < 16 → bget0 (fbytes V ra (16 * Z.of_nat k) 16) i = 0) as Hz.
    { intros i Hi. unfold bget0. rewrite lookup_fbytes by lia. simpl.
      rewrite (st_bytes _ _ _ _ _ (im_root _ _ _ I)) by (change (BSIZE * MAPPED) with 16847872; lia).
      apply bget0_past. rewrite length_root_data. lia. }
    unfold de_inum, get16. by rewrite !Hz.
Qed.

Lemma elem_no_slash nm : SLASH ∉ nm → elem_of_path nm = (nm, []).
Proof.
  induction nm as [|c nm IH]; intros Hs; [done|]. apply not_elem_of_cons in Hs as [Hc Hs]. simpl.
  rewrite (proj2 (Z.eqb_neq _ _)) by congruence. by rewrite IH.
Qed.

Lemma root_resolves tx i name : names !! i = Some name → SLASH ∉ name → skip_underscore name ≠ [] →
  first_name i (skip_underscore name) →
  resolves (mk_geo tx) mk_sb V ROOTINO (SLASH :: skip_underscore name) (Some (Z.of_nat i + 2)).
Proof.
  intros Hi Hs Hne Hf. pose proof (root_find i name Hi Hf) as Hfind. set (nm := skip_underscore name) in *.
  pose proof (lookup_lt_Some _ _ _ Hi) as Hl.
  assert (SLASH ∉ nm) as Hs' by (intros Hin; by apply Hs, skip_underscore_sub).
  assert (skip_slashes (SLASH :: nm) = nm) as Esk.
  { cbn [skip_slashes]. rewrite Z.eqb_refl. destruct nm as [|c r]; [done|]. apply not_elem_of_cons in Hs' as [Hc _].
    simpl. by rewrite (proj2 (Z.eqb_neq _ _)) by congruence. }
  eapply (rs_step _ _ _ _ _ nm [] (i + 2)%nat (mk_dirent (Z.of_nat i + 2) nm)); rewrite ?Esk; [done | by apply elem_no_slash | | |].
  - apply bytes_underscore, Hbytes. by eapply list_elem_of_lookup_2.
  - exists root_cnt. split; [apply root_dir|]. split; [exact Hfind|]. cbn [reach].
    intros k Hk. apply (st_mapped _ _ _ _ _ (im_root _ _ _ I)). rewrite length_root_data. lia.
  - rewrite de_inum_mk by lia. by apply rs_done.
Qed.

End root.

(** ** The boot, and the read *)

(** iinit; then open the file of the path and read all of it. *)
Definition read_path (path : list Z) : M (fsst lst) (option (list Z)) :=
  iinit ROOTDEV;;
  r ← namei no_read 0 path;
  match r with
  | None => panic "namei"
  | Some ip => ilock ip;; x ← gets (ip_of ip); readi no_read ip 0 (i_size x)
  end.

Definition boot_fs (pid : Z) (t : lst) : fsst lst := Fsst false (replicate NINODE inode0) (Sb 0 0 0 0 0 0 0) pid t.

Lemma wp_iinit pid t (Q : unit → fsst lst → Prop) : lst_inv (mk_geo true) ∅ [] t → sb_decode (bd_view t 1) = mk_sb →
  (∀ t', lst_inv (mk_geo true) ∅ [] t' → (∀ c, bd_view t' c = bd_view t c) →
    Q tt (Fsst false (replicate NINODE inode0) mk_sb pid t')) →
  wp (iinit ROOTDEV) Q (boot_fs pid t).
Proof.
  intros It Hsb HQ. unfold iinit. wp_step. wp_step. wp_step.
  apply (wp_foreach (λ _ s, s = boot_fs pid t)); [done| |].
  - intros l1 i l2 s El ->.
    assert (i < NINODE)%nat as Hi.
    { assert (i ∈ seq 0 NINODE) as Hin by (rewrite El; set_solver). apply elem_of_seq in Hin. lia. }
    eapply (wp_set_ip _ _ inode0); [cbn [boot_fs ic]; by apply lookup_replicate_2|].
    unfold put_ip, boot_fs. cbn [ic_lock ic sb fcur bd]. f_equal.
    change (set_i_lock initsleeplock inode0) with inode0. apply list_insert_id. by apply lookup_replicate_2.
  - intros s ->. wp_step. unfold readsb_fs. wp_step.
    eapply (f_bread (mk_geo true) ∅ []); [exact It | apply not_held_empty | split; [done|] | left; rewrite map_size_empty; unfold NBUF; simpl; lia |].
    { simpl. unfold in_log. lia. }
    intros i t1 It1 _ Vt1. wp_step. eapply f_bdata; [exact It1 | apply lookup_insert_eq |]. wp_step.
    eapply (f_brelse (mk_geo true) ∅ []); [exact It1 | apply lookup_empty |]. intros t2 It2 Vt2. wp_step. wp_step.
    cbn [boot_fs set_bd bd]. rewrite Vt1. cbn [boot_fs bd]. rewrite Hsb. apply HQ; [exact It2|].
    intros c. rewrite Vt2. cbn. apply Vt1.
Qed.

Lemma wp_read_path host names i name pid t :
  lst_inv (mk_geo true) ∅ [] t → image_fs host names (bd_view t) → (length names ≤ 198)%nat →
  (∀ name, name ∈ names → Forall is_byte name) →
  names !! i = Some name → SLASH ∉ name → skip_underscore name ≠ [] → first_name names i (skip_underscore name) →
  wp (read_path (SLASH :: skip_underscore name)) (λ r _, r = Some (fdata host name)) (boot_fs pid t).
Proof.
  intros It Im Hnum Hb Hi Hs Hne Hf. unfold read_path. wp_step.
  apply (wp_iinit pid t); [done | apply Im |]. intros t1 It1 Vt1. wp_step.
  set (s1 := Fsst _ _ _ _ _). set (V0 := bd_view t1).
  assert (image_fs host names V0) as Im0 by (eapply image_fs_ext; [|exact Im]; intros c _; apply Vt1).
  pose proof (im_layout _ _ _ Im0 true) as Hlay. set (n := Z.of_nat i + 2).
  assert (cache_ok (mk_geo true) mk_sb V0 [] s1) as C1.
  { split; try done. intros j x Hj. apply lookup_replicate in Hj as [-> _]. by split. }
  assert (two_unused s1) as H2 by (exists 0%nat, 1%nat; unfold NINODE; split_and!; cbn; (done || lia)).
  eapply wp_mono; [eapply (wp_namei no_read (mk_geo true) mk_sb V0 []); [simpl; unfold NBUF; lia | exact Hlay | exact C1 | exact H2 | done |]|].
  { by eapply (root_resolves host names V0 Im0 Hnum Hb true i name). }
  intros r s2 (C2 & ip & -> & _ & Hc1 & Hc2 & Hc3). fold n in Hc3.
  assert (∃ x, ic s2 !! ip = Some x ∧ ip_of ip s2 = x) as (x & Hx & Ex).
  { unfold ip_of in *. destruct (ic s2 !! ip) as [x|]; [by exists x | cbn in Hc1; lia]. }
  rewrite Ex in *. pose proof (co_entry _ _ _ _ _ C2 _ _ Hx) as En.
  destruct (im_file _ _ _ Im0 i name Hi) as [(a & Ea) S2 S3 _ S4 S5]. fold n in Ea, S2, S4, S5. rewrite <- Hc3 in Ea, S2, S4, S5.
  wp_step. eapply (wp_ilock (mk_geo true) mk_sb V0 []); try done; try apply C2.
  { simpl. unfold NBUF. lia. }
  { pose proof (lookup_lt_Some _ _ _ Hi). split; [apply inode_home; lia | by rewrite Ea | by rewrite Ea]. }
  intros t3 It3 Vt3.
  destruct (fsok_locked (mk_geo true) mk_sb V0 [] Hlay ip x t3 (fcur s2) s2 (co_sb _ _ _ _ _ C2) It3 Vt3 Hx En Hc1 (S2 true)) as [F Ei].
  wp_step. wp_step. rewrite Ei. assert (i_size (locked_by mk_sb V0 (fcur s2) x) = zlen (fdata host name)) as Esz.
  { change (i_size (dinode V0 (i_inum x)) = zlen (fdata host name)). by rewrite Ea. }
  eapply wp_mono; [eapply (f_readi no_read (mk_geo true) ∅ [] ip 0); [exact F | | | | | | |]|]; rewrite ?Ei, ?Esz.
  - rewrite map_size_empty. simpl. unfold NBUF. lia.
  - change (i_type (dinode V0 (i_inum x)) ≠ T_DEV). by rewrite Ea.
  - lia.
  - lia.
  - lia.
  - change (BSIZE * MAPPED) with 16847872. lia.
  - rewrite Z.sub_0_r, Z.min_id. change (i_addrs (locked_by _ _ _ x)) with (i_addrs (dinode V0 (i_inum x))).
    eapply mapped_same; [exact Vt3 | change (BSIZE * MAPPED) with 16847872; lia | exact S4].
  - intros r s4 (-> & _). f_equal. rewrite Z.sub_0_r, Z.min_id, Nat2Z.id.
    change (i_addrs (locked_by _ _ _ x)) with (i_addrs (dinode V0 (i_inum x))).
    apply list_eq. intros k. destruct (decide (k < length (fdata host name))%nat) as [Hk|Hk].
    + rewrite lookup_fbytes by done. destruct (lookup_lt_is_Some_2 _ _ Hk) as [y Hy]. rewrite Hy. f_equal.
      rewrite (fbyte_same V0) by (exact Vt3 || (change (BSIZE * MAPPED) with 16847872; lia)).
      rewrite S5 by (change (BSIZE * MAPPED) with 16847872; lia). unfold bget0. by rewrite Z.add_0_l, Nat2Z.id, Hy.
    + rewrite !lookup_ge_None_2; [done | lia | rewrite length_fbytes; lia].
Qed.


Lemma boot_image host names pid s : image_fs host names (img s) → img s (sb_logstart mk_sb) = zero_block →
  (∀ b, length (img s b) = 512%nat) →
  let d := Disk FSSIZE (k_img s) [] in
  ∃ t, (reboot;; begin_op) (boot_lst d pid) = Ok tt t ∧ lst_inv (mk_geo true) ∅ [] t ∧
    ∀ c, c ≠ 2 → view (bc t) c = img s c.
Proof.
  intros Im Hlog Hlen d. assert (∀ b, disk_get d b = img s b) as Hd by done.
  apply (boot_clean d pid (mk_geo true)); cbn [mk_geo g_start g_lsize g_size].
  - exact Hlen.
  - split; unfold sb_on; rewrite Hd, (im_super _ _ _ Im); reflexivity.
  - reflexivity.
  - lia.
  - unfold nlog, LOGSIZE. lia.
  - unfold nlog, LOGSIZE, FSSIZE. lia.
  - rewrite Hd. change 2 with (sb_logstart mk_sb). rewrite Hlog. reflexivity.
Qed.

(** C3. From mkfs to the kernel's read: for the files that mkfs accepts, with
    names of bytes, the image that mkfs writes boots; the recovery of the log,
    iinit, and namei of /name, with a leading underscore of the host's name
    dropped, then ilock and readi of the whole file, return exactly the bytes
    of the host's file, if the name, cut to DIRSIZ bytes, is neither empty nor .
    or .., and no earlier file has it. *)
Theorem mkfs_then_kernel_reads creat host prog fsimg names pid i name :
  creat fsimg = true → mkfs_input host names → (∀ name, name ∈ names → Forall is_byte name) →
  names !! i = Some name → skip_underscore name ≠ [] → first_name names i (skip_underscore name) →
  wp (main creat host (prog :: fsimg :: names)) (λ _ s,
    ∃ t, (reboot;; begin_op) (boot_lst (Disk FSSIZE (k_img s) []) pid) = Ok tt t ∧
      wp (read_path (SLASH :: skip_underscore name)) (λ r _, r = Some (fdata host name)) (boot_fs pid t)) mk0.
Proof.
  intros Hcr M Hb Hi Hne Hf. eapply wp_mono; [by apply wp_mkfs|]. intros [] s (Im & Hlog & Hlen).
  destruct (boot_image host names pid s Im Hlog Hlen) as (t & Et & It & Vt).
  exists t. split; [exact Et|]. apply (wp_read_path host names i name pid t); [exact It | | apply M | exact Hb | exact Hi | | exact Hne | exact Hf].
  - eapply image_fs_ext; [|exact Im]. exact Vt.
  - apply (mi_name _ _ M name). by eapply list_elem_of_lookup_2.
Qed.

(** The image of Mkfs.v's two files, and the read of /cat. *)
Lemma mkfs_then_kernel_reads_witness :
  wp (main (λ _, true) sample_host ([109] :: [105] :: sample_names)) (λ _ s,
    ∃ t, (reboot;; begin_op) (boot_lst (Disk FSSIZE (k_img s) []) 1) = Ok tt t ∧
      wp (read_path [47; 99; 97; 116]) (λ r _, r = Some (replicate 512 7 ++ [1; 2; 3])) (boot_fs 1 t)) mk0.
Proof.
  apply (mkfs_then_kernel_reads (λ _, true) sample_host [109] [105] sample_names 1 0 [95; 99; 97; 116]).
  - reflexivity.
  - apply sample_input.
  - intros name Hn. unfold sample_names in Hn. rewrite !elem_of_cons, elem_of_nil in Hn.
    destruct Hn as [->|[->|[]]]; repeat constructor; unfold is_byte; lia.
  - reflexivity.
  - discriminate.
  - split; [discriminate|]. split; [discriminate|]. intros j nm Hj. lia.
Defined.

(** ** The theorems on directories and paths, on this image *)

Lemma sample_boot : ∃ t, lst_inv (mk_geo true) ∅ [] t ∧ image_fs sample_host sample_names (bd_view t).
Proof.
  pose proof (wp_mkfs (λ _, true) sample_host [109] [105] sample_names eq_refl sample_input) as Hw.
  apply wp_elim in Hw as ([] & s & _ & Im & Hlog & Hlen).
  destruct (boot_image sample_host sample_names 1 s Im Hlog Hlen) as (t & _ & It & Vt).
  exists t. split; [exact It|]. eapply image_fs_ext; [exact Vt | exact Im].
Qed.

(** The root directory in entry 0 of a cache of three, unlocked and locked. *)
Definition root_entry : inode := Inode ROOTDEV ROOTINO 1 initsleeplock false 0 0 0 0 0 (replicate 13 0).
Definition root_fs (t : lst) : fsst lst := Fsst false [root_entry; inode0; inode0] mk_sb 1 t.
Definition root_locked (t : lst) : fsst lst :=
  put_ip 0 (locked_by mk_sb (bd_view t) 1 root_entry) (set_bd t (root_fs t)).

Section sample.
Context (t : lst) (It : lst_inv (mk_geo true) ∅ [] t) (Im : image_fs sample_host sample_names (bd_view t)).

#[local] Notation ra := (i_addrs (dinode (bd_view t) ROOTINO)).

Lemma sample_bytes name : name ∈ sample_names → Forall is_byte name.
Proof.
  intros Hn. unfold sample_names in Hn. rewrite !elem_of_cons, elem_of_nil in Hn.
  destruct Hn as [->|[->|[]]]; repeat constructor; unfold is_byte; lia.
Qed.

Lemma sample_dir : dir_ok (mk_geo true) ∅ [] 0 32 (root_locked t) ∧ ip_of 0 (root_locked t) = locked_by mk_sb (bd_view t) 1 root_entry ∧
  dirents (bd_view t) ra 32 = dirents (bd_view (bd (root_locked t))) (i_addrs (ip_of 0 (root_locked t))) 32.
Proof.
  pose proof (root_dir _ _ _ Im ltac:(simpl; lia) sample_bytes true) as Hd. change (root_cnt sample_names) with 32%nat in Hd.
  assert (entry_ok mk_sb (bd_view t) root_entry) as En by (split; simpl; [lia | reflexivity | reflexivity | discriminate]).
  destruct (dir_locked (mk_geo true) mk_sb (bd_view t) [] ltac:(simpl; unfold NBUF; lia) (im_layout _ _ _ Im true)
    0 root_entry 32 t 1 (root_fs t) eq_refl It (λ _, eq_refl) eq_refl En ltac:(simpl; lia) Hd) as (D & _ & _ & Ee).
  split; [exact D|]. split; [reflexivity | exact (eq_sym Ee)].
Qed.

Lemma sample_find : dir_find [82] (dirents (bd_view t) ra 32) = Some (3%nat, mk_dirent 3 [82]).
Proof.
  apply (root_find _ _ _ Im ltac:(simpl; lia) sample_bytes 1 [82]); [done|].
  split; [done|]. split; [done|]. intros [|j] nm Hj Hn; [|lia]. injection Hn as <-. done.
Qed.

Lemma sample_mapped n : n ≤ 512 → mapped (bd_view t) ra 0 n.
Proof.
  intros Hn i Hi. rewrite Z.div_small by (change BSIZE with 512; lia).
  apply (st_mapped _ _ _ _ _ (im_root _ _ _ Im) 0). rewrite length_root_data. simpl. lia.
Qed.

End sample.

Lemma dirlookup_finds_witness : ∃ s s' : fsst lst, dirlookup no_read 0 [82] s = Ok (Some (1%nat, 48)) s'.
Proof.
  destruct sample_boot as (t & It & Im). destruct (sample_dir t It Im) as (D & Ei & Ee).
  pose proof (dirlookup_finds no_read (mk_geo true) ∅ [] 0 [82] 32 (root_locked t) D) as W.
  cbv zeta in W. rewrite <- Ee, (sample_find t Im) in W. exists (root_locked t).
  assert (wp (dirlookup no_read 0 [82]) (λ r _, r = Some (1%nat, 48)) (root_locked t)) as Hw.
  { eapply wp_mono; [apply W with (ip := 1%nat) (f := set_i_key ROOTDEV 3 1)|].
    - repeat constructor; unfold is_byte; lia.
    - reflexivity.
    - intros x Hx. change (x ∈ [locked_by mk_sb (bd_view t) 1 root_entry; inode0; inode0]) in Hx. rewrite !elem_of_cons, elem_of_nil in Hx. destruct Hx as [->|[->|[->|[]]]]; simpl; lia.
    - rewrite Ei. apply (sample_mapped t Im). simpl. lia.
    - reflexivity.
    - by intros r s' (-> & _). }
  apply wp_elim in Hw as (r & s' & E & ->). by exists s'.
Defined.

Lemma sample_inode t : image_fs sample_host sample_names (bd_view t) → inode_ok (mk_geo true) ∅ 0 (root_locked t).
Proof.
  intros Im. pose proof (im_root _ _ _ Im) as St.
  assert (iblock 0 (root_locked t) = 32) as E by reflexivity. split; rewrite ?E.
  - split; [lia | reflexivity].
  - apply home_range. unfold FSSIZE. lia.
  - change (used mk_sb (bd_view t) 32 = true). rewrite (im_used _ _ _ Im) by (unfold FSSIZE; lia). vm_compute. reflexivity.
  - intros c Hc. change (0 ≤ c < FSSIZE) in Hc. change (c / 4096 + 58 ≠ 32). pose proof (Z.div_pos c 4096). lia.
  - intros q Hq. change (node_addr (bd_view t) (i_addrs (dinode (bd_view t) ROOTINO)) q ≠ 32). intros Eq.
    pose proof (st_area _ _ _ _ _ St q Hq ltac:(lia)) as Ha. rewrite Eq in Ha. vm_compute in Ha. by apply Ha.
  - apply not_held_empty.
Qed.

Lemma sample_free t n : image_fs sample_host sample_names (bd_view t) → (n ≤ 100)%nat → nfree mk_sb (bd_view t) n.
Proof.
  intros Im Hn. exists (seqZ 1000 (Z.of_nat n)). split; [apply NoDup_seqZ|]. split; [rewrite length_seqZ; lia|].
  intros b Hb. apply elem_of_seqZ in Hb. change (sb_size mk_sb) with 40000. split; [lia|].
  rewrite (im_used _ _ _ Im) by (unfold FSSIZE; lia). apply Z.ltb_ge. etrans; [|apply Hb]. vm_compute. discriminate.
Qed.

Lemma dirlink_links_witness : ∃ s s' : fsst lst, dirlink no_read no_write 0 [110] 9 s = Ok 0 s'.
Proof.
  destruct sample_boot as (t & It & Im). destruct (sample_dir t It Im) as (D & Ei & Ee).
  assert (dir_find [110] (dirents (bd_view t) (i_addrs (dinode (bd_view t) ROOTINO)) 32) = None) as Hnone.
  { apply (root_absent _ _ _ Im ltac:(simpl; lia) sample_bytes). split; [discriminate|]. split; [discriminate|].
    intros [|[|j]] nm Hj Hn; [injection Hn as <-; discriminate.. | simpl in Hj; lia]. }
  pose proof (dirlink_links no_read no_write 2 (mk_geo true) ∅ [] 0 [110] 9 32 (root_locked t) D) as W.
  cbv zeta in W. rewrite <- Ee, Hnone in W. exists (root_locked t).
  assert (wp (dirlink no_read no_write 0 [110] 9) (λ r _, r = 0) (root_locked t)) as Hw.
  { eapply wp_mono; [apply W|by intros r s' (-> & _)].
    - by apply sample_inode.
    - reflexivity.
    - repeat constructor; unfold is_byte; lia.
    - lia.
    - rewrite Ei. apply (sample_mapped t Im). simpl. lia.
    - change (BSIZE * MAPPED) with 16847872. lia.
    - intros bn Hbn. apply direct_cost. lia.
    - unfold budget. rewrite map_size_empty. cbn. unfold nlog, LOGSIZE, NBUF. lia.
    - apply (sample_free t 4 Im). lia. }
  apply wp_elim in Hw as (r & s' & E & ->). by exists s'.
Defined.

Lemma namei_resolves_witness : ∃ (s s' : fsst lst) ip, namei no_read 0 [47; 82] s = Ok (Some ip) s' ∧ i_inum (ip_of ip s') = 3.
Proof.
  destruct sample_boot as (t & It & Im). exists (root_fs t).
  assert (wp (namei no_read 0 [47; 82]) (λ r s', ∃ ip, r = Some ip ∧ i_inum (ip_of ip s') = 3) (root_fs t)) as Hw.
  { eapply wp_mono; [apply (namei_resolves no_read (mk_geo true) [] (root_fs t) 0 [47; 82] (Some 3))|].
    - exact (im_layout _ _ _ Im true).
    - simpl. unfold NBUF. lia.
    - split; [reflexivity | reflexivity | exact It | reflexivity |]. intros [|[|[|j]]] x Hx; simplify_eq/=; (split; simpl; [lia | reflexivity | (reflexivity || lia) | (discriminate || lia)]).
    - exists 1%nat, 2%nat. split_and!; simpl; lia.
    - discriminate.
    - apply (root_resolves _ _ _ Im ltac:(simpl; lia) sample_bytes true 1 [82]); [reflexivity | | discriminate |].
      + unfold SLASH. set_solver.
      + split; [discriminate|]. split; [discriminate|]. intros [|j] nm Hj Hn; [injection Hn as <-; discriminate | lia].
    - intros r s' (_ & ip & -> & _ & _ & _ & Hi). by exists ip. }
  apply wp_elim in Hw as (r & s' & E & ip & -> & Hi). by exists s', ip.
Defined.
