(* ===== verification/Kalloc.v ===== *)
(** * Kalloc: the physical page allocator of kalloc.c

    Kernel memory is a function from 32-bit addresses to bytes.  The free pages
    are linked through their first word, as struct run has it, so the list
    lives in the memory that the clients of the allocator write to: the
    invariant [kinv] says that it is the list of distinct pages [l], and a
    client that writes outside the pages of [l] keeps it. *)

From Stdlib Require Import ZArith Lia Bool.
From stdpp Require Import base option list sets gmap strings numbers.
From S2P Require Import Prelude Cstring.

#[local] Open Scope string_scope.
#[local] Open Scope list_scope.
#[local] Open Scope Z_scope.

(** ** Memory *)

Definition ld32 (m : mem) (a : Z) : Z :=
  u8 (m a) + 256 * u8 (m (a + 1)) + 65536 * u8 (m (a + 2)) + 16777216 * u8 (m (a + 3)).
Definition stbytes (m : mem) (a : Z) (bs : list Z) : mem :=
  λ x, if (a <=? x) && (x <? a + Z.of_nat (length bs)) then bget0 bs (x - a) else m x.
Definition st32 (m : mem) (a v : Z) : mem := stbytes m a (le32 v).
(** What memset and memmove of string.c do (Cstring.v). *)
Definition mem_fill (m : mem) (a c n : Z) : mem := λ x, if (a <=? x) && (x <? a + n) then u8 c else m x.
Definition mem_copy (m : mem) (dst src n : Z) : mem :=
  λ x, if (dst <=? x) && (x <? dst + n) then m (src + (x - dst)) else m x.

(** memlayout.h and mmu.h. *)
Definition PGSIZE : Z := 4096.
Definition KERNBASE : Z := 0x80000000.
Definition EXTMEM : Z := 0x100000.
Definition PHYSTOP : Z := 0xE000000.
Definition DEVSPACE : Z := 0xFE000000.
Definition KERNLINK : Z := KERNBASE + EXTMEM.
Definition V2P (a : Z) : Z := u32 (a - KERNBASE).
Definition P2V (a : Z) : Z := u32 (a + KERNBASE).
Definition PGROUNDUP (sz : Z) : Z := Z.land (u32 (sz + PGSIZE - 1)) 0xFFFFF000.
Definition PGROUNDDOWN (a : Z) : Z := Z.land a 0xFFFFF000.

(** The memory and struct kmem of kalloc.c. *)
Record kst := Kst { km : mem; k_locked : bool; use_lock : bool; freelist : Z }.
Definition set_km (m : mem) (s : kst) : kst := Kst m (k_locked s) (use_lock s) (freelist s).
Definition set_k_locked (b : bool) (s : kst) : kst := Kst (km s) b (use_lock s) (freelist s).
Definition set_use_lock (b : bool) (s : kst) : kst := Kst (km s) (k_locked s) b (freelist s).
Definition set_freelist (v : Z) (s : kst) : kst := Kst (km s) (k_locked s) (use_lock s) v.
Definition upd_km (f : mem → mem) : M kst unit := modify (λ s, set_km (f (km s)) s).

Definition acquire_kmem : M kst unit :=
  l ← gets k_locked; if l : bool then panic "acquire" else modify (set_k_locked true).
Definition release_kmem : M kst unit :=
  l ← gets k_locked; if l : bool then modify (set_k_locked false) else panic "release".

Section kalloc.
(** end[] of the linker script: the first address after the kernel. *)
Context (kend : Z).

Definition kfree (v : Z) : M kst unit :=
  if negb (v mod PGSIZE =? 0) || (v <? kend) || (PHYSTOP <=? V2P v) then panic "kfree" else
  upd_km (λ m, mem_fill m v 1 PGSIZE);;
  ul ← gets use_lock;
  when ul acquire_kmem;;
  fl ← gets freelist;
  upd_km (λ m, st32 m v fl);;
  modify (set_freelist v);;
  when ul release_kmem.

Definition kalloc : M kst Z :=
  ul ← gets use_lock;
  when ul acquire_kmem;;
  r ← gets freelist;
  when (negb (r =? 0)) (m ← gets km; modify (set_freelist (ld32 m r)));;
  when ul release_kmem;;
  mret r.

(** for(; p + PGSIZE <= vend; p += PGSIZE) *)
Fixpoint freerange_loop (fuel : nat) (p vend : Z) : M kst unit :=
  if p + PGSIZE <=? vend then
    match fuel with
    | O => undef "out of fuel"
    | S fuel => kfree p;; freerange_loop fuel (p + PGSIZE) vend
    end
  else mret tt.

Definition freerange (vstart vend : Z) : M kst unit :=
  freerange_loop (Z.to_nat (vend / PGSIZE)) (PGROUNDUP vstart) vend.

Definition kinit1 (vstart vend : Z) : M kst unit :=
  modify (set_k_locked false);;
  modify (set_use_lock false);;
  freerange vstart vend.

Definition kinit2 (vstart vend : Z) : M kst unit :=
  freerange vstart vend;;
  modify (set_use_lock true).

(** ** Specifications *)

(** A page kfree accepts. *)
Definition is_page (v : Z) : Prop := v mod PGSIZE = 0 ∧ kend ≤ v ∧ KERNBASE ≤ v < KERNBASE + PHYSTOP.

Definition in_page (v x : Z) : Prop := v ≤ x < v + PGSIZE.

(** The words of the free pages link [l], from the address [v]. *)
Fixpoint runs (m : mem) (v : Z) (l : list Z) : Prop :=
  match l with
  | [] => v = 0
  | p :: l => v = p ∧ runs m (ld32 m p) l
  end.

Record kinv (l : list Z) (s : kst) : Prop := {
  ki_runs : runs (km s) (freelist s) l;
  ki_pages : Forall is_page l;
  ki_nodup : NoDup l;
  ki_lock : k_locked s = false
}.

(** *** Loads and stores *)

Lemma ld32_ext m m' a : (∀ x, a ≤ x < a + 4 → m x = m' x) → ld32 m a = ld32 m' a.
Proof. intros He. unfold ld32. by rewrite !He by lia. Qed.

Lemma ld32_range m a : 0 ≤ ld32 m a < 2 ^ 32.
Proof.
  unfold ld32, u8. change (2 ^ 8) with 256.
  pose proof (Z.mod_pos_bound (m a) 256 ltac:(lia)). pose proof (Z.mod_pos_bound (m (a + 1)) 256 ltac:(lia)).
  pose proof (Z.mod_pos_bound (m (a + 2)) 256 ltac:(lia)). pose proof (Z.mod_pos_bound (m (a + 3)) 256 ltac:(lia)). lia.
Qed.

Lemma stbytes_in m a bs x : a ≤ x < a + Z.of_nat (length bs) → stbytes m a bs x = bget0 bs (x - a).
Proof. intros. unfold stbytes. rewrite (proj2 (Z.leb_le _ _)), (proj2 (Z.ltb_lt _ _)) by lia. done. Qed.

Lemma stbytes_out m a bs x : x < a ∨ a + Z.of_nat (length bs) ≤ x → stbytes m a bs x = m x.
Proof.
  intros [H|H]; unfold stbytes; [by rewrite (proj2 (Z.leb_gt _ _)) by lia|].
  rewrite (proj2 (Z.ltb_ge _ _)) by lia. by rewrite andb_false_r.
Qed.

Lemma st32_out m a v x : x < a ∨ a + 4 ≤ x → st32 m a v x = m x.
Proof. intros H. by apply stbytes_out. Qed.

Lemma mem_fill_in m a c n x : a ≤ x < a + n → mem_fill m a c n x = u8 c.
Proof. intros. unfold mem_fill. rewrite (proj2 (Z.leb_le _ _)), (proj2 (Z.ltb_lt _ _)) by lia. done. Qed.

Lemma mem_fill_out m a c n x : x < a ∨ a + n ≤ x → mem_fill m a c n x = m x.
Proof.
  intros [H|H]; unfold mem_fill; [by rewrite (proj2 (Z.leb_gt _ _)) by lia|].
  rewrite (proj2 (Z.ltb_ge _ _)) by lia. by rewrite andb_false_r.
Qed.

Lemma mem_copy_in m d s n x : d ≤ x < d + n → mem_copy m d s n x = m (s + (x - d)).
Proof. intros. unfold mem_copy. rewrite (proj2 (Z.leb_le _ _)), (proj2 (Z.ltb_lt _ _)) by lia. done. Qed.

Lemma mem_copy_out m d s n x : x < d ∨ d + n ≤ x → mem_copy m d s n x = m x.
Proof.
  intros [H|H]; unfold mem_copy; [by rewrite (proj2 (Z.leb_gt _ _)) by lia|].
  rewrite (proj2 (Z.ltb_ge _ _)) by lia. by rewrite andb_false_r.
Qed.

Lemma u8_le32 v i : u8 (bget0 (le32 v) i) = bget0 (le32 v) i.
Proof.
  unfold bget0. destruct (le32 v !! Z.to_nat i) as [x|] eqn:E; [|done]. simpl.
  apply list_elem_of_lookup_2 in E. unfold le32 in E. rewrite !elem_of_cons, elem_of_nil in E. unfold u8. change (2 ^ 8) with 256.
  destruct E as [->|[->|[->|[->|[]]]]]; apply Z.mod_mod; lia.
Qed.

Lemma ld32_st32 m a v : ld32 (st32 m a v) a = u32 v.
Proof.
  unfold ld32, st32. rewrite !stbytes_in by (simpl; lia). rewrite !u8_le32.
  replace (a - a) with 0 by lia. replace (a + 1 - a) with 1 by lia. replace (a + 2 - a) with 2 by lia.
  replace (a + 3 - a) with 3 by lia. apply le32_bytes.
Qed.

Lemma ld32_st32_ne m a v b : b + 4 ≤ a ∨ a + 4 ≤ b → ld32 (st32 m a v) b = ld32 m b.
Proof. intros H. apply ld32_ext. intros x Hx. apply st32_out. lia. Qed.

Lemma ld32_memset0 m a n b : a ≤ b → b + 4 ≤ a + n → ld32 (mem_fill m a 0 n) b = 0.
Proof. intros. unfold ld32. rewrite !mem_fill_in by lia. reflexivity. Qed.

Lemma ld32_memset_ne m a c n b : b + 4 ≤ a ∨ a + n ≤ b → ld32 (mem_fill m a c n) b = ld32 m b.
Proof. intros H. apply ld32_ext. intros x Hx. apply mem_fill_out. lia. Qed.

(** *** The free list *)

Lemma runs_ext m m' l : ∀ v, runs m v l → (∀ p, p ∈ l → ∀ x, in_page p x → m' x = m x) → runs m' v l.
Proof.
  induction l as [|p l IH]; intros v; simpl; [done|]. intros [-> H] He. split; [done|].
  rewrite (ld32_ext m' m).
  - apply IH; [done|]. intros q Hq. apply He. by right.
  - intros x Hx. apply (He p); [by left|]. unfold in_page, PGSIZE. lia.
Qed.

Lemma page_disjoint p q x : is_page p → is_page q → in_page p x → in_page q x → p = q.
Proof. unfold is_page, in_page, PGSIZE. intros (? & ? & ?) (? & ? & ?) ? ?. divmod_lia. Qed.

(** A client that leaves the free pages alone. *)
Lemma kinv_frame l s m : kinv l s → (∀ p, p ∈ l → ∀ x, in_page p x → m x = km s x) → kinv l (set_km m s).
Proof. intros [H1 H2 H3 H4] He. split; try done. by eapply runs_ext. Qed.

Lemma page_accepted v : is_page v → negb (v mod PGSIZE =? 0) || (v <? kend) || (PHYSTOP <=? V2P v) = false.
Proof.
  intros (H1 & H2 & H3). rewrite (proj2 (Z.eqb_eq _ _) H1). simpl. rewrite (proj2 (Z.ltb_ge _ _)) by lia.
  unfold V2P. rewrite u32_id by (unfold KERNBASE, PHYSTOP in *; lia). simpl. apply Z.leb_gt. lia.
Qed.

Lemma page_refused v : 0 ≤ v < 2 ^ 32 → ¬ is_page v → negb (v mod PGSIZE =? 0) || (v <? kend) || (PHYSTOP <=? V2P v) = true.
Proof.
  intros Hv Hn. destruct (Z.eqb_spec (v mod PGSIZE) 0) as [H1|]; [|done]. simpl.
  destruct (Z.ltb_spec v kend) as [|H2]; [done|]. simpl. apply Z.leb_le. unfold V2P, u32.
  unfold is_page, KERNBASE, PHYSTOP in *. change (2 ^ 32) with 4294967296 in *. divmod_lia.
Qed.

Lemma wp_lock_kmem (ul : bool) Q s : k_locked s = false → Q tt (set_k_locked ul s) → wp (when ul acquire_kmem) Q s.
Proof.
  intros Hl HQ. destruct ul; unfold acquire_kmem; cbn [when]; wp_steps; rewrite ?Hl; wp_steps; [done|].
  by destruct s; simpl in *; subst.
Qed.

Lemma wp_unlock_kmem (ul : bool) Q s : k_locked s = ul → Q tt (set_k_locked false s) → wp (when ul release_kmem) Q s.
Proof.
  intros Hl HQ. destruct ul; unfold release_kmem; cbn [when]; wp_steps; rewrite ?Hl; wp_steps; [done|].
  by destruct s; simpl in *; subst.
Qed.

Lemma wp_kfree v l Q s : kinv l s → is_page v → v ∉ l →
  (∀ s', kinv (v :: l) s' → (∀ x, ¬ in_page v x → km s' x = km s x) → use_lock s' = use_lock s → Q tt s') →
  wp (kfree v) Q s.
Proof.
  intros [H1 H2 H3 H4] Hp Hv HQ. unfold kfree. rewrite page_accepted by done.
  assert (∀ w x, ¬ in_page v x → st32 (mem_fill (km s) v 1 PGSIZE) v w x = km s x) as Hf.
  { unfold in_page, PGSIZE. intros w x Hx. rewrite st32_out by lia. by apply mem_fill_out; lia. }
  assert (kinv (v :: l) (Kst (st32 (mem_fill (km s) v 1 PGSIZE) v (freelist s)) false (use_lock s) v)) as Hk.
  { split; simpl; try done.
    - split; [done|]. rewrite ld32_st32. destruct l as [|p l]; simpl in H1 |- *; [by rewrite H1|].
      destruct H1 as [-> H1]. apply list.Forall_cons in H2 as [Hpp H2]. split.
      + apply u32_id. unfold is_page, KERNBASE, PHYSTOP in Hpp. lia.
      + rewrite (ld32_ext _ (km s)).
        * eapply runs_ext; [exact H1|]. intros q Hq x Hx. apply Hf. intros Hx'.
          apply Hv. rewrite (page_disjoint v q x); try done; [by right|]. by eapply (list.Forall_forall is_page l).
        * intros x Hx. apply Hf. intros Hx'. apply Hv. rewrite (page_disjoint v p x); try done; [by left|].
          unfold in_page, PGSIZE. lia.
    - by constructor.
    - by constructor. }
  unfold upd_km. wp_steps. simpl. apply wp_lock_kmem; [done|]. wp_steps. simpl.
  apply wp_unlock_kmem; [done|]. by apply HQ; [exact Hk | exact (Hf _) |].
Qed.

Lemma wp_kalloc l Q s : kinv l s →
  (∀ r s', match l with [] => r = 0 ∧ kinv [] s' | p :: l' => r = p ∧ kinv l' s' end →
     km s' = km s → use_lock s' = use_lock s → Q r s') →
  wp kalloc Q s.
Proof.
  intros [H1 H2 H3 H4] HQ. unfold kalloc. wp_steps. apply wp_lock_kmem; [done|]. wp_steps. simpl.
  destruct l as [|p l]; simpl in H1.
  - rewrite H1. simpl. cbn [when]. wp_steps. apply wp_unlock_kmem; [done|]. wp_steps. by apply HQ.
  - destruct H1 as [-> H1]. apply list.Forall_cons in H2 as [Hp H2]. apply list.NoDup_cons in H3 as [H3 H5].
    assert (p ≠ 0) by (unfold is_page, KERNBASE in Hp; lia). rewrite (proj2 (Z.eqb_neq _ _)) by done.
    simpl. wp_steps. simpl. apply wp_unlock_kmem; [done|]. wp_steps. by apply HQ.
Qed.

(** *** Initialisation *)

(** The pages of [p, vend), the last one first. *)
Fixpoint pages_from (n : nat) (p : Z) (acc : list Z) : list Z :=
  match n with O => acc | S n => pages_from n (p + PGSIZE) (p :: acc) end.

Lemma elem_pages_from n : ∀ p acc v, v ∈ pages_from n p acc ↔ v ∈ acc ∨ ∃ i, 0 ≤ i < Z.of_nat n ∧ v = p + PGSIZE * i.
Proof.
  induction n as [|n IH]; intros p acc v; cbn [pages_from].
  - split; [by left|]. intros [|(i & ? & _)]; [done|lia].
  - rewrite IH, elem_of_cons. split.
    + intros [[->|]|(i & Hi & ->)]; [right; exists 0; lia | by left | right; exists (i + 1); lia].
    + intros [|(i & Hi & ->)]; [by left; right|]. destruct (decide (i = 0)) as [->|]; [left; left; lia|].
      right. exists (i - 1). lia.
Qed.

Lemma wp_freerange_loop n : ∀ fuel p vend l Q s, kinv l s → (n ≤ fuel)%nat →
  p + PGSIZE * Z.of_nat n ≤ vend < p + PGSIZE * Z.of_nat (S n) →
  (∀ i, 0 ≤ i < Z.of_nat n → is_page (p + PGSIZE * i) ∧ p + PGSIZE * i ∉ l) →
  (∀ s', kinv (pages_from n p l) s' → use_lock s' = use_lock s → Q tt s') →
  wp (freerange_loop fuel p vend) Q s.
Proof.
  induction n as [|n IH]; intros fuel p vend l Q s Hk Hf Hv Hp HQ.
  - assert ((p + PGSIZE <=? vend) = false) as E by (apply Z.leb_gt; unfold PGSIZE in *; lia).
    destruct fuel; cbn [freerange_loop]; rewrite E; wp_steps; by apply HQ.
  - destruct fuel as [|fuel]; [lia|]. cbn [freerange_loop]. rewrite (proj2 (Z.leb_le _ _)) by (unfold PGSIZE in *; lia).
    destruct (Hp 0 ltac:(lia)) as [Hp0 Hl0]. rewrite Z.mul_0_r, Z.add_0_r in Hp0, Hl0.
    wp_steps. eapply wp_kfree; [done..|]. intros s1 K1 _ Hu. apply (IH fuel (p + PGSIZE) vend (p :: l)); [done | lia | unfold PGSIZE in *; lia | |].
    + intros i Hi. destruct (Hp (i + 1) ltac:(lia)) as [Hpi Hli].
      replace (p + PGSIZE + PGSIZE * i) with (p + PGSIZE * (i + 1)) by lia. split; [done|].
      rewrite elem_of_cons. intros [|]; [unfold PGSIZE in *; lia | done].
    + intros s' K' Hu'. apply HQ; [done | congruence].
Qed.

Lemma land_page x : 0 ≤ x < 2 ^ 32 → Z.land x 0xFFFFF000 = PGSIZE * (x / PGSIZE).
Proof.
  intros Hx. unfold PGSIZE. rewrite Z.mul_comm. change 0xFFFFF000 with (Z.ones 20 * 2 ^ 12). change 4096 with (2 ^ 12).
  rewrite <- !Z.shiftl_mul_pow2 by lia. rewrite <- Z.shiftr_div_pow2 by lia. apply Z.bits_inj'. intros n Hn.
  rewrite Z.land_spec, !Z.shiftl_spec by lia. destruct (decide (n < 12)).
  - rewrite (Z.testbit_neg_r (Z.ones 20)), (Z.testbit_neg_r (Z.shiftr x 12)) by lia. by rewrite andb_false_r.
  - rewrite Z.shiftr_spec by lia. replace (n - 12 + 12) with n by lia. destruct (decide (n < 32)).
    + rewrite Z.ones_spec_low by lia. by rewrite andb_true_r.
    + rewrite Z.ones_spec_high by lia. rewrite andb_false_r. symmetry.
      destruct (decide (x = 0)) as [->|]; [apply Z.testbit_0_l|].
      apply Z.bits_above_log2; [lia|]. apply Z.log2_lt_pow2; [lia|].
      eapply Z.lt_le_trans; [apply Hx|]. apply Z.pow_le_mono_r; lia.
Qed.

Lemma PGROUNDUP_spec a : 0 ≤ a → a + PGSIZE < 2 ^ 32 →
  PGROUNDUP a mod PGSIZE = 0 ∧ a ≤ PGROUNDUP a < a + PGSIZE.
Proof.
  intros H0 H1. unfold PGROUNDUP. rewrite u32_id by (unfold PGSIZE in *; lia).
  rewrite land_page by (unfold PGSIZE in *; lia). unfold PGSIZE in *. divmod_lia.
Qed.

Lemma wp_freerange vstart vend l Q s : kinv l s → kend ≤ vstart → KERNBASE ≤ vstart → vend ≤ KERNBASE + PHYSTOP →
  vstart ≤ KERNBASE + PHYSTOP → (∀ v, v ∈ l → v + PGSIZE ≤ vstart ∨ vend ≤ v) →
  (∀ s' l', kinv l' s' → (∀ v, v ∈ l' ↔ v ∈ l ∨ (v mod PGSIZE = 0 ∧ vstart ≤ v ∧ v + PGSIZE ≤ vend)) →
     use_lock s' = use_lock s → Q tt s') →
  wp (freerange vstart vend) Q s.
Proof.
  intros Hk H1 H2 H3 H3' H4 HQ. unfold freerange, KERNBASE, PHYSTOP, PGSIZE in *.
  destruct (PGROUNDUP_spec vstart) as [Hm Hr]; [unfold PGSIZE; lia..|]. unfold PGSIZE in *.
  set (p := PGROUNDUP vstart) in *.
  destruct (decide (p ≤ vend)) as [Hle|Hgt].
  - apply (wp_freerange_loop (Z.to_nat ((vend - p) / 4096)) _ p vend l); [done | unfold PGSIZE; divmod_lia.. | |].
    + intros i Hi. unfold is_page, PGSIZE, KERNBASE, PHYSTOP. split; [divmod_lia|]. intros Hin. apply H4 in Hin. divmod_lia.
    + intros s' K' Hu. eapply HQ; [exact K' | | exact Hu]. intros v. rewrite elem_pages_from. unfold PGSIZE.
      split; intros [?|Hv]; [by left | right | by left | right].
      * destruct Hv as (i & Hi & ->). divmod_lia.
      * exists ((v - p) / 4096). divmod_lia.
  - assert ((p + PGSIZE <=? vend) = false) as E by (apply Z.leb_gt; unfold PGSIZE; lia).
    assert (∀ fuel, wp (freerange_loop fuel p vend) Q s) as Hw; [|apply Hw].
    intros fuel. destruct fuel; cbn [freerange_loop]; rewrite E; wp_steps; (eapply HQ; [exact Hk | | done]);
      intros v; (split; [by left|]); (intros [|]; [done|divmod_lia]).
Qed.

(** C33. The allocator hands out every page once: with free list [l], kalloc
    returns 0 if [l] is empty, and else a page of [l] that is not among the
    remaining free pages, changing no byte of memory; giving it back with kfree
    makes it free again and touches no byte of another page; an address that
    is not a page between the kernel's end and PHYSTOP makes kfree panic. *)
Theorem kalloc_kfree_exclusive l s : kinv l s →
  (∃ r s', kalloc s = Ok r s' ∧ km s' = km s ∧
    match l with
    | [] => r = 0 ∧ kinv [] s'
    | p :: l' => r = p ∧ is_page p ∧ p ∉ l' ∧ kinv l' s' ∧
        ∃ s'', kfree p s' = Ok tt s'' ∧ kinv l s'' ∧ ∀ x, ¬ in_page p x → km s'' x = km s x
    end) ∧
  ∀ v, 0 ≤ v < 2 ^ 32 → ¬ is_page v → kfree v s = Panic "kfree".
Proof.
  intros K. split.
  - assert (wp kalloc (λ r s', km s' = km s ∧ match l with [] => r = 0 ∧ kinv [] s' | p :: l' => r = p ∧ kinv l' s' end) s)
      as Hw by (eapply wp_kalloc; eauto).
    apply wp_elim in Hw as (r & s' & E & Em & Hm). exists r, s'. split; [done|]. split; [done|].
    destruct l as [|p l]; [done|]. destruct Hm as [-> K'].
    pose proof (ki_pages _ _ K) as Hp. pose proof (ki_nodup _ _ K) as Hn.
    apply list.Forall_cons in Hp as [Hp _]. apply list.NoDup_cons in Hn as [Hn _]. split_and!; try done.
    assert (wp (kfree p) (λ _ s'', kinv (p :: l) s'' ∧ ∀ x, ¬ in_page p x → km s'' x = km s x) s') as Hw.
    { eapply wp_kfree; [done..|]. intros s'' K'' Hf _. rewrite <- Em. done. }
    apply wp_elim in Hw as ([] & s'' & ? & ? & ?). eauto.
  - intros v Hv Hn. unfold kfree. by rewrite page_refused.
Qed.

(** Booting frees all of memory: kinit1(end, P2V(4 MB)) and then
    kinit2(P2V(4 MB), P2V(PHYSTOP)), as main calls them, from an empty list,
    put exactly the pages between the kernel's end and PHYSTOP on the free
    list, once each, and leave the lock in use. *)
Theorem kinit_frees_all s : KERNBASE ≤ kend ≤ P2V 0x400000 → freelist s = 0 →
  ∃ s' l, (kinit1 kend (P2V 0x400000);; kinit2 (P2V 0x400000) (P2V PHYSTOP)) s = Ok tt s' ∧
    kinv l s' ∧ use_lock s' = true ∧
    ∀ v, v ∈ l ↔ v mod PGSIZE = 0 ∧ kend ≤ v ∧ v + PGSIZE ≤ P2V PHYSTOP.
Proof.
  intros Hend Hfl. change (P2V 0x400000) with 0x80400000 in *. change (P2V PHYSTOP) with 0x8E000000.
  assert (wp (kinit1 kend 0x80400000;; kinit2 0x80400000 0x8E000000) (λ _ s', ∃ l, kinv l s' ∧ use_lock s' = true ∧
    ∀ v, v ∈ l ↔ v mod PGSIZE = 0 ∧ kend ≤ v ∧ v + PGSIZE ≤ 0x8E000000) s) as Hw.
  2: { apply wp_elim in Hw as ([] & s' & E & l & ? & ? & ?). eauto 6. }
  unfold kinit1, kinit2, KERNBASE in *. wp_steps. eapply (wp_freerange _ _ []).
  - split; [done | constructor | constructor | done].
  - done.
  - unfold KERNBASE. lia.
  - unfold KERNBASE, PHYSTOP. lia.
  - unfold KERNBASE, PHYSTOP. lia.
  - intros v Hv. by apply elem_of_nil in Hv.
  - intros s1 l1 K1 H1 _. wp_steps. eapply (wp_freerange _ _ l1); [done | lia | unfold KERNBASE, PHYSTOP; lia.. | |].
    + intros v Hv. apply H1 in Hv as [Hv|Hv]; [by apply elem_of_nil in Hv | lia].
    + intros s2 l2 K2 H2 _. wp_steps. exists l2. split; [by destruct K2|]. split; [done|].
      intros v. rewrite H2, H1, elem_of_nil. unfold PGSIZE. divmod_lia.
Qed.

End kalloc.

(** Memory with the page [v] alone on the free list, and nothing else. *)
Definition one_page (v : Z) : kst := Kst (λ _, 0) false true v.

Lemma one_page_inv : kinv 0x80110000 [0x80200000] (one_page 0x80200000).
Proof.
  split; [done | | |done].
  - constructor; [|constructor]. unfold is_page, PGSIZE, KERNBASE, PHYSTOP. split; [reflexivity | lia].
  - apply NoDup_singleton.
Qed.

Lemma kalloc_kfree_exclusive_witness :
  ∃ s', kalloc (one_page 0x80200000) = Ok 0x80200000 s' ∧ kfree 0x80110000 7 (one_page 0x80200000) = Panic "kfree".
Proof.
  destruct (kalloc_kfree_exclusive 0x80110000 _ _ one_page_inv) as [(r & s' & E & _ & -> & _) Hr].
  exists s'. split; [exact E | apply Hr; [lia|]]. unfold is_page. lia.
Defined.

Lemma kinit_frees_all_witness :
  ∃ s' (l : list Z), (kinit1 0x80110000 0x80110000 (P2V 0x400000);; kinit2 0x80110000 (P2V 0x400000) (P2V PHYSTOP)) (one_page 0) = Ok tt s' ∧ 0x80200000 ∈ l.
Proof.
  destruct (kinit_frees_all 0x80110000 (one_page 0)) as (s' & l & E & _ & _ & Hl).
  - split; vm_compute; discriminate.
  - reflexivity.
  - exists s', l. split; [exact E|]. apply Hl. split; [reflexivity|]. split; vm_compute; discriminate.
Defined.
