(* ===== verification/Vm.v ===== *)
(** * Vm: page tables and user memory, vm.c

    Page directories and page tables are pages of the memory of Kalloc.v, read
    and written a word at a time.  [pteval m pd n] is the entry for page number
    [n] in the page table at [pd]; [as_ok] says that the directory, its tables
    and the user pages it maps are distinct pages, none of them free.  The
    operations are specified by what they do to the entries and to the free
    list. *)

From Stdlib Require Import ZArith Lia Bool.
From stdpp Require Import base option list sets gmap strings numbers.
From S2P Require Import Prelude Cstring Kalloc.

#[local] Open Scope string_scope.
#[local] Open Scope list_scope.
#[local] Open Scope Z_scope.

(** ** mmu.h *)

Definition PTE_P : Z := 1.
Definition PTE_W : Z := 2.
Definition PTE_U : Z := 4.
Definition NPDENTRIES : Z := 1024.
Definition PDX (va : Z) : Z := Z.land (Z.shiftr va 22) 0x3FF.
Definition PTX (va : Z) : Z := Z.land (Z.shiftr va 12) 0x3FF.
Definition PGADDR (d t o : Z) : Z := u32 (Z.lor (Z.lor (Z.shiftl d 22) (Z.shiftl t 12)) o).
Definition PTE_ADDR (pte : Z) : Z := Z.land pte 0xFFFFF000.
Definition PTE_FLAGS (pte : Z) : Z := Z.land pte 0xFFF.
Definition has (flag e : Z) : bool := negb (Z.land e flag =? 0).

(** *p and *p = v for a pointer to a word. *)
Definition load (p : Z) : M kst Z := gets (λ s, ld32 (km s) p).
Definition store (p v : Z) : M kst unit := upd_km (λ m, st32 m p v).

(** ** vm.c *)

Definition walkpgdir (pgdir va : Z) (alloc : bool) : M kst Z :=
  let pde := pgdir + 4 * PDX va in
  e ← load pde;
  if has PTE_P e then mret (P2V (PTE_ADDR e) + 4 * PTX va)
  else if negb alloc then mret 0
  else
    pgtab ← kalloc;
    if pgtab =? 0 then mret 0 else
    upd_km (λ m, mem_fill m pgtab 0 PGSIZE);;
    store pde (Z.lor (Z.lor (Z.lor (V2P pgtab) PTE_P) PTE_W) PTE_U);;
    mret (pgtab + 4 * PTX va).

(** for(;;) of mappages; [fuel] counts the pages still to come. *)
Fixpoint mappages_loop (fuel : nat) (pgdir a last pa perm : Z) : M kst Z :=
  pte ← walkpgdir pgdir a true;
  if pte =? 0 then mret (-1) else
  e ← load pte;
  if has PTE_P e then panic "remap" else
  store pte (Z.lor (Z.lor pa perm) PTE_P);;
  if a =? last then mret 0 else
  match fuel with
  | O => undef "out of fuel"
  | S fuel => mappages_loop fuel pgdir (u32 (a + PGSIZE)) last (u32 (pa + PGSIZE)) perm
  end.

Definition mappages (pgdir va size pa perm : Z) : M kst Z :=
  let a := PGROUNDDOWN va in
  let last := PGROUNDDOWN (u32 (va + size - 1)) in
  mappages_loop (Z.to_nat (u32 (last - a) / PGSIZE)) pgdir a last pa perm.

Section vm.
(** end[] and data[] of the linker script. *)
Context (kend kdata : Z).

(** struct kmap: virt, phys_start, phys_end, perm. *)
Definition kmap : list (Z * Z * Z * Z) :=
  [(KERNBASE, 0, EXTMEM, PTE_W);
   (KERNLINK, V2P KERNLINK, V2P kdata, 0);
   (kdata, V2P kdata, PHYSTOP, PTE_W);
   (DEVSPACE, DEVSPACE, 0, PTE_W)].

(** for(; a < oldsz; a += PGSIZE) *)
Fixpoint deallocuvm_loop (fuel : nat) (pgdir a oldsz : Z) : M kst unit :=
  if a <? oldsz then
    match fuel with
    | O => undef "out of fuel"
    | S fuel =>
        pte ← walkpgdir pgdir a false;
        if pte =? 0 then
          deallocuvm_loop fuel pgdir (u32 (u32 (PGADDR (PDX a + 1) 0 0 - PGSIZE) + PGSIZE)) oldsz
        else
          e ← load pte;
          when (has PTE_P e)
            (let pa := PTE_ADDR e in
             if pa =? 0 then panic "kfree" else
             kfree kend (P2V pa);;
             store pte 0);;
          deallocuvm_loop fuel pgdir (u32 (a + PGSIZE)) oldsz
    end
  else mret tt.

Definition deallocuvm (pgdir oldsz newsz : Z) : M kst Z :=
  if oldsz <=? newsz then mret oldsz else
  deallocuvm_loop (Z.to_nat (oldsz / PGSIZE + 1)) pgdir (PGROUNDUP newsz) oldsz;;
  mret newsz.

Definition freevm (pgdir : Z) : M kst unit :=
  if pgdir =? 0 then panic "freevm: no pgdir" else
  deallocuvm pgdir KERNBASE 0;;
  foreach (seq 0 (Z.to_nat NPDENTRIES)) (λ i,
    e ← load (pgdir + 4 * Z.of_nat i);
    when (has PTE_P e) (kfree kend (P2V (PTE_ADDR e))));;
  kfree kend pgdir.

Fixpoint setupkvm_loop (ks : list (Z * Z * Z * Z)) (pgdir : Z) : M kst Z :=
  match ks with
  | [] => mret pgdir
  | (virt, phys_start, phys_end, perm) :: ks =>
      r ← mappages pgdir virt (u32 (phys_end - phys_start)) phys_start perm;
      if r <? 0 then freevm pgdir;; mret 0 else setupkvm_loop ks pgdir
  end.

Definition setupkvm : M kst Z :=
  pgdir ← kalloc;
  if pgdir =? 0 then mret 0 else
  upd_km (λ m, mem_fill m pgdir 0 PGSIZE);;
  if DEVSPACE <? P2V PHYSTOP then panic "PHYSTOP too high" else
  setupkvm_loop kmap pgdir.

Definition inituvm (pgdir : Z) (init : list Z) : M kst unit :=
  if PGSIZE <=? Z.of_nat (length init) then panic "inituvm: more than a page" else
  mem ← kalloc;
  if mem =? 0 then undef "null pointer" else
  upd_km (λ m, mem_fill m mem 0 PGSIZE);;
  mappages pgdir 0 PGSIZE (V2P mem) (Z.lor PTE_W PTE_U);;
  upd_km (λ m, stbytes m mem init).

(** for(; a < newsz; a += PGSIZE) *)
Fixpoint allocuvm_loop (fuel : nat) (pgdir a oldsz newsz : Z) : M kst Z :=
  if a <? newsz then
    match fuel with
    | O => undef "out of fuel"
    | S fuel =>
        mem ← kalloc;
        if mem =? 0 then deallocuvm pgdir newsz oldsz;; mret 0 else
        upd_km (λ m, mem_fill m mem 0 PGSIZE);;
        r ← mappages pgdir a PGSIZE (V2P mem) (Z.lor PTE_W PTE_U);
        if r <? 0 then deallocuvm pgdir newsz oldsz;; kfree kend mem;; mret 0 else
        allocuvm_loop fuel pgdir (u32 (a + PGSIZE)) oldsz newsz
    end
  else mret newsz.

Definition allocuvm (pgdir oldsz newsz : Z) : M kst Z :=
  if KERNBASE <=? newsz then mret 0 else
  if newsz <? oldsz then mret oldsz else
  allocuvm_loop (Z.to_nat (newsz / PGSIZE + 1)) pgdir (PGROUNDUP oldsz) oldsz newsz.

Definition clearpteu (pgdir uva : Z) : M kst unit :=
  pte ← walkpgdir pgdir uva false;
  if pte =? 0 then panic "clearpteu" else
  e ← load pte;
  store pte (Z.land e (Z.lxor 0xFFFFFFFF PTE_U)).

(** for(i = 0; i < sz; i += PGSIZE) *)
Fixpoint copyuvm_loop (fuel : nat) (pgdir d i sz : Z) : M kst Z :=
  if i <? sz then
    match fuel with
    | O => undef "out of fuel"
    | S fuel =>
        pte ← walkpgdir pgdir i false;
        if pte =? 0 then panic "copyuvm: pte should exist" else
        e ← load pte;
        if negb (has PTE_P e) then panic "copyuvm: page not present" else
        mem ← kalloc;
        if mem =? 0 then freevm d;; mret 0 else
        upd_km (λ m, mem_copy m mem (P2V (PTE_ADDR e)) PGSIZE);;
        r ← mappages d i PGSIZE (V2P mem) (PTE_FLAGS e);
        if r <? 0 then kfree kend mem;; freevm d;; mret 0 else
        copyuvm_loop fuel pgdir d (u32 (i + PGSIZE)) sz
    end
  else mret d.

Definition copyuvm (pgdir sz : Z) : M kst Z :=
  d ← setupkvm;
  if d =? 0 then mret 0 else
  copyuvm_loop (Z.to_nat (sz / PGSIZE + 1)) pgdir d 0 sz.

End vm.

Definition uva2ka (pgdir uva : Z) : M kst Z :=
  pte ← walkpgdir pgdir uva false;
  if pte =? 0 then undef "null pointer" else
  e ← load pte;
  if negb (has PTE_P e) then mret 0 else
  if negb (has PTE_U e) then mret 0 else
  mret (P2V (PTE_ADDR e)).

(** while(len > 0); len is the length of [buf]. *)
Fixpoint copyout_loop (fuel : nat) (pgdir va : Z) (buf : list Z) : M kst Z :=
  if 0 <? Z.of_nat (length buf) then
    match fuel with
    | O => undef "out of fuel"
    | S fuel =>
        let va0 := PGROUNDDOWN va in
        pa0 ← uva2ka pgdir va0;
        if pa0 =? 0 then mret (-1) else
        let n := Z.min (PGSIZE - (va - va0)) (Z.of_nat (length buf)) in
        upd_km (λ m, stbytes m (pa0 + (va - va0)) (take (Z.to_nat n) buf));;
        copyout_loop fuel pgdir (u32 (va0 + PGSIZE)) (drop (Z.to_nat n) buf)
    end
  else mret 0.

Definition copyout (pgdir va : Z) (p : list Z) : M kst Z := copyout_loop (length p) pgdir va p.

(** loaduvm reads the segment with readi; [rd off n] is readi(ip, ·, off, n),
    the bytes read or None for -1, and [vm] runs an operation on the memory. *)
Section load.
Context {S : Type} (vm : ∀ A, M kst A → M S A) (rd : Z → Z → M S (option (list Z))).

Fixpoint loaduvm_loop (fuel : nat) (pgdir addr offset sz i : Z) : M S Z :=
  if i <? sz then
    match fuel with
    | O => undef "out of fuel"
    | Datatypes.S fuel =>
        pte ← vm _ (walkpgdir pgdir (u32 (addr + i)) false);
        if pte =? 0 then panic "loaduvm: address should exist" else
        e ← vm _ (load pte);
        let n := if sz - i <? PGSIZE then sz - i else PGSIZE in
        r ← rd (u32 (offset + i)) n;
        match r with
        | None => mret (-1)
        | Some bs =>
            vm _ (upd_km (λ m, stbytes m (P2V (PTE_ADDR e)) bs));;
            if negb (Z.of_nat (length bs) =? n) then mret (-1) else
            loaduvm_loop fuel pgdir addr offset sz (u32 (i + PGSIZE))
        end
    end
  else mret 0.

Definition loaduvm (pgdir addr offset sz : Z) : M S Z :=
  if negb (addr mod PGSIZE =? 0) then panic "loaduvm: addr must be page aligned" else
  loaduvm_loop (Z.to_nat (sz / PGSIZE + 1)) pgdir addr offset sz 0.

End load.

(** ** Memory accesses of the kernel at a user address

    The processor translates the address with the current page table; a
    missing page, or a write to a page without PTE_W, is a page fault in
    kernel mode, on which trap() panics. *)

Definition translate (pgdir va : Z) (write : bool) : M kst Z :=
  pte ← walkpgdir pgdir va false;
  if pte =? 0 then panic "trap" else
  e ← load pte;
  if negb (has PTE_P e) || (write && negb (has PTE_W e)) then panic "trap" else
  mret (P2V (PTE_ADDR e) + va mod PGSIZE).

Definition vload8 (pgdir va : Z) : M kst Z :=
  a ← translate pgdir va false; gets (λ s, u8 (km s a)).
Definition vstore8 (pgdir va b : Z) : M kst unit :=
  a ← translate pgdir va true; upd_km (λ m, stbytes m a [u8 b]).

Fixpoint vload (pgdir va : Z) (n : nat) : M kst (list Z) :=
  match n with
  | O => mret []
  | S n => b ← vload8 pgdir va; bs ← vload pgdir (u32 (va + 1)) n; mret (b :: bs)
  end.
Fixpoint vstore (pgdir va : Z) (bs : list Z) : M kst unit :=
  match bs with
  | [] => mret tt
  | b :: bs => vstore8 pgdir va b;; vstore pgdir (u32 (va + 1)) bs
  end.

Definition vload32 (pgdir va : Z) : M kst Z := bs ← vload pgdir va 4; mret (get32 bs 0).
Definition vstore32 (pgdir va v : Z) : M kst unit := vstore pgdir va (le32 v).
