(* ===== verification/VmSpec.v ===== *)
(** * VmSpec: what the operations of vm.c do to an address space

    [pteval] reads the entry of a page number through the directory and its
    table.  [as_ok X pd l] says that the directory [pd], the tables it points
    to and the user pages mapped are distinct pages of memory, outside the free
    list [l] and outside [X], the pages of everything else. *)

From Stdlib Require Import ZArith Lia Bool.
From stdpp Require Import base option list sets gmap strings numbers.
From S2P Require Import Prelude Cstring Kalloc Vm.

#[local] Open Scope string_scope.
#[local] Open Scope list_scope.
#[local] Open Scope Z_scope.

(** ** Bits *)

Lemma has_lor f a b : has f (Z.lor a b) = has f a || has f b.
Proof.
  unfold has. rewrite Z.land_lor_distr_l.
  destruct (Z.eqb_spec (Z.land a f) 0) as [->|Ha]; simpl; [by rewrite Z.lor_0_l|].
  destruct (Z.eqb_spec (Z.lor (Z.land a f) (Z.land b f)) 0) as [E|]; [|done].
  apply Z.lor_eq_0_iff in E as [? _]. done.
Qed.

Lemma u32_land v : u32 v = Z.land v 0xFFFFFFFF.
Proof. unfold u32. change 0xFFFFFFFF with (Z.ones 32). symmetry. apply Z.land_ones. lia. Qed.

Lemma has_u32 f v : Z.land 0xFFFFFFFF f = f → has f (u32 v) = has f v.
Proof. intros Hf. unfold has. by rewrite u32_land, <- Z.land_assoc, Hf. Qed.

Lemma PTE_ADDR_u32 v : PTE_ADDR (u32 v) = PTE_ADDR v.
Proof. unfold PTE_ADDR. rewrite u32_land, <- Z.land_assoc. done. Qed.

Lemma PTE_ADDR_lor a b : PTE_ADDR (Z.lor a b) = Z.lor (PTE_ADDR a) (PTE_ADDR b).
Proof. apply Z.land_lor_distr_l. Qed.

Lemma PTE_ADDR_page a : 0 ≤ a < 2 ^ 32 → a mod PGSIZE = 0 → PTE_ADDR a = a.
Proof. intros Ha Hm. unfold PTE_ADDR. rewrite land_page by done. unfold PGSIZE in *. divmod_lia. Qed.

Lemma has_page f a : a mod PGSIZE = 0 → 0 ≤ f < PGSIZE → has f a = false.
Proof.
  intros Hm Hf. unfold has. replace a with (Z.shiftl (a / 2 ^ 12) 12)
    by (rewrite Z.shiftl_mul_pow2 by lia; unfold PGSIZE in *; change (2 ^ 12) with 4096; divmod_lia).
  apply negb_false_iff, Z.eqb_eq. apply Z.bits_inj'. intros k Hk. rewrite Z.land_spec, Z.testbit_0_l, Z.shiftl_spec by lia.
  destruct (decide (k < 12)); [by rewrite Z.testbit_neg_r by lia|].
  rewrite (Z.bits_above_log2 f k), andb_false_r; [done | lia |].
  destruct (decide (f = 0)) as [->|]; [simpl; lia|]. apply Z.log2_lt_pow2; [lia|].
  eapply Z.lt_le_trans; [apply Hf|]. change PGSIZE with (2 ^ 12). apply Z.pow_le_mono_r; lia.
Qed.

(** The entry for the page at physical address [pa] with permissions [perm]. *)
Definition entry (pa perm : Z) : Z := u32 (Z.lor (Z.lor pa perm) PTE_P).

Lemma entry_present pa perm : has PTE_P (entry pa perm) = true.
Proof. unfold entry. rewrite has_u32, has_lor by done. apply orb_true_r. Qed.

Lemma entry_addr pa perm : 0 ≤ pa < 2 ^ 32 → pa mod PGSIZE = 0 → PTE_ADDR perm = 0 → PTE_ADDR (entry pa perm) = pa.
Proof.
  intros. unfold entry. rewrite PTE_ADDR_u32, !PTE_ADDR_lor, PTE_ADDR_page by done.
  change (PTE_ADDR PTE_P) with 0. rewrite H1, !Z.lor_0_r. done.
Qed.

Lemma PDX_spec va : 0 ≤ va < 2 ^ 32 → PDX va = va / PGSIZE / 1024 ∧ PTX va = (va / PGSIZE) mod 1024.
Proof.
  intros Hva. unfold PDX, PTX. change 0x3FF with (Z.ones 10). rewrite !Z.land_ones, !Z.shiftr_div_pow2 by lia.
  unfold PGSIZE. change (2 ^ 22) with 4194304. change (2 ^ 12) with 4096. change (2 ^ 10) with 1024.
  change (2 ^ 32) with 4294967296 in *. split; divmod_lia.
Qed.

(** ** Address spaces *)

Definition npde (m : mem) (pd i : Z) : Z := ld32 m (pd + 4 * i).
Definition tab (m : mem) (pd i : Z) : Z := P2V (PTE_ADDR (npde m pd i)).
Definition pteaddr (m : mem) (pd n : Z) : Z := tab m pd (n / 1024) + 4 * (n mod 1024).
Definition pteval (m : mem) (pd n : Z) : Z :=
  if has PTE_P (npde m pd (n / 1024)) then ld32 m (pteaddr m pd n) else 0.
Definition frame (e : Z) : Z := P2V (PTE_ADDR e).

(** Page numbers, and those below KERNBASE. *)
Definition pageno (n : Z) : Prop := 0 ≤ n < 2 ^ 20.
Definition user (n : Z) : Prop := 0 ≤ n < 2 ^ 19.

Section spec.
Context (kend : Z).
#[local] Notation is_page := (is_page kend).
#[local] Notation kinv := (kinv kend).

Record as_ok (X : Z → Prop) (pd : Z) (l : list Z) (m : mem) : Prop := {
  as_pd : is_page pd ∧ pd ∉ l ∧ ¬ X pd;
  as_tab : ∀ i, 0 ≤ i < 1024 → has PTE_P (npde m pd i) = true →
    is_page (tab m pd i) ∧ tab m pd i ∉ l ∧ tab m pd i ≠ pd ∧ ¬ X (tab m pd i);
  as_tab_inj : ∀ i j, 0 ≤ i < 1024 → 0 ≤ j < 1024 → has PTE_P (npde m pd i) = true →
    has PTE_P (npde m pd j) = true → tab m pd i = tab m pd j → i = j;
  as_user : ∀ n, user n → has PTE_P (pteval m pd n) = true →
    is_page (frame (pteval m pd n)) ∧ frame (pteval m pd n) ∉ l ∧ frame (pteval m pd n) ≠ pd ∧
    ¬ X (frame (pteval m pd n)) ∧
    ∀ i, 0 ≤ i < 1024 → has PTE_P (npde m pd i) = true → tab m pd i ≠ frame (pteval m pd n);
  as_user_inj : ∀ n n', user n → user n' → has PTE_P (pteval m pd n) = true →
    has PTE_P (pteval m pd n') = true → frame (pteval m pd n) = frame (pteval m pd n') → n = n';
  as_others : ∀ p, X p → is_page p ∧ p ∉ l
}.

(** The directory and the tables. *)
Definition dir_page (m : mem) (pd p : Z) : Prop :=
  p = pd ∨ ∃ i, 0 ≤ i < 1024 ∧ has PTE_P (npde m pd i) = true ∧ tab m pd i = p.

(** All pages of the address space. *)
Definition owned (m : mem) (pd p : Z) : Prop :=
  dir_page m pd p ∨ ∃ n, user n ∧ has PTE_P (pteval m pd n) = true ∧ frame (pteval m pd n) = p.

Lemma pageno_dir n : pageno n → 0 ≤ n / 1024 < 1024 ∧ 0 ≤ n mod 1024 < 1024.
Proof. unfold pageno. change (2 ^ 20) with 1048576. intros. divmod_lia. Qed.

Lemma user_pageno n : user n → pageno n.
Proof. unfold user, pageno. lia. Qed.

(** Agreement on the directory and the tables. *)
Lemma same_dir m m' pd : (∀ p x, dir_page m pd p → in_page p x → m' x = m x) →
  (∀ i, 0 ≤ i < 1024 → npde m' pd i = npde m pd i) ∧
  (∀ i, 0 ≤ i < 1024 → tab m' pd i = tab m pd i) ∧
  (∀ n, pageno n → pteval m' pd n = pteval m pd n).
Proof.
  intros He. assert (∀ i, 0 ≤ i < 1024 → npde m' pd i = npde m pd i) as H1.
  { intros i Hi. apply ld32_ext. intros x Hx. apply (He pd); [by left|]. unfold in_page, PGSIZE. lia. }
  assert (∀ i, 0 ≤ i < 1024 → tab m' pd i = tab m pd i) as H2 by (intros i Hi; unfold tab; by rewrite H1).
  split; [done|]. split; [done|]. intros n Hn. destruct (pageno_dir n Hn) as [Hd Ht].
  unfold pteval. rewrite H1 by done. destruct (has PTE_P (npde m pd (n / 1024))) eqn:E; [|done].
  unfold pteaddr. rewrite H2 by done. apply ld32_ext. intros x Hx.
  apply (He (tab m pd (n / 1024))); [right; eauto|]. unfold in_page, PGSIZE. lia.
Qed.

(** [as_ok] depends on the entries only. *)
Lemma as_ok_ext X pd l m X' l' m' : as_ok X pd l m →
  (∀ i, 0 ≤ i < 1024 → npde m' pd i = npde m pd i) →
  (∀ n, pageno n → pteval m' pd n = pteval m pd n) →
  (∀ p, owned m pd p → p ∉ l' ∧ ¬ X' p) → (∀ p, X' p → is_page p ∧ p ∉ l') →
  as_ok X' pd l' m'.
Proof.
  intros [A1 A2 A3 A4 A5 A6] Hd Hp Ho Hx.
  assert (∀ i, 0 ≤ i < 1024 → tab m' pd i = tab m pd i) as Ht by (intros i Hi; unfold tab; by rewrite Hd).
  split.
  - destruct (Ho pd) as [? ?]; [by left; left|]. split_and!; try done. apply A1.
  - intros i Hi. rewrite Hd, Ht by done. intros Hh. destruct (A2 i Hi Hh) as (? & ? & ? & ?).
    destruct (Ho (tab m pd i)) as [? ?]; [left; right; eauto | done].
  - intros i j Hi Hj. rewrite !Hd, !Ht by done. by apply A3.
  - intros n Hn. rewrite Hp by by apply user_pageno. intros Hh. destruct (A4 n Hn Hh) as (? & ? & ? & ? & Hi).
    destruct (Ho (frame (pteval m pd n))) as [? ?]; [right; eauto|]. split_and!; try done.
    intros i Hi'. rewrite Hd, Ht by done. by apply Hi.
  - intros n n' Hn Hn'. rewrite !Hp by by apply user_pageno. by apply A5.
  - exact Hx.
Qed.

Lemma as_owned X pd l m p : as_ok X pd l m → owned m pd p → is_page p ∧ p ∉ l ∧ ¬ X p.
Proof.
  intros [A1 A2 A3 A4 A5 A6] [[->|(i & Hi & Hh & <-)]|(n & Hn & Hh & <-)]; [done| |].
  - by destruct (A2 i Hi Hh) as (? & ? & ? & ?).
  - by destruct (A4 n Hn Hh) as (? & ? & ? & ? & ?).
Qed.

Lemma frame_V2P p v : is_page p → PTE_ADDR v = 0 → frame (u32 (Z.lor (V2P p) v)) = p.
Proof.
  intros (Hm & _ & Hr) Hv. unfold frame. rewrite PTE_ADDR_u32, PTE_ADDR_lor, Hv, Z.lor_0_r.
  unfold V2P, P2V. unfold KERNBASE, PHYSTOP, PGSIZE in *.
  rewrite (u32_id (p - 2147483648)) by lia. rewrite PTE_ADDR_page by (unfold PGSIZE; divmod_lia).
  rewrite u32_id by lia. lia.
Qed.

Lemma entry_frame p perm : is_page p → PTE_ADDR perm = 0 → frame (entry (V2P p) perm) = p.
Proof.
  intros Hp Hv. unfold entry. rewrite <- Z.lor_assoc. apply frame_V2P; [done|]. by rewrite PTE_ADDR_lor, Hv.
Qed.

(** Stores into a page leave the other pages alone. *)
Lemma st32_other p q m a v x : is_page p → is_page q → q ≠ p → p ≤ a → a + 4 ≤ p + PGSIZE → in_page q x →
  st32 m a v x = m x.
Proof.
  intros Hp Hq Hne H1 H2 Hx. apply st32_out. destruct (decide (a ≤ x < a + 4)); [|lia].
  exfalso. apply Hne. eapply (page_disjoint kend q p x); try done. unfold in_page. lia.
Qed.

Lemma mem_fill_other p q m c x : is_page p → is_page q → q ≠ p → in_page q x → mem_fill m p c PGSIZE x = m x.
Proof.
  intros Hp Hq Hne Hx. apply mem_fill_out. destruct (decide (p ≤ x < p + PGSIZE)); [|lia].
  exfalso. apply Hne. by eapply (page_disjoint kend q p x).
Qed.

(** The memory after a new table [p] was entered for directory slot [i]. *)
Definition with_table (m : mem) (pd p i : Z) : mem :=
  st32 (mem_fill m p 0 PGSIZE) (pd + 4 * i) (Z.lor (Z.lor (Z.lor (V2P p) PTE_P) PTE_W) PTE_U).

Lemma with_table_dir m pd p i j : is_page pd → is_page p → p ≠ pd → 0 ≤ i < 1024 → 0 ≤ j < 1024 →
  npde (with_table m pd p i) pd j =
    if decide (j = i) then u32 (Z.lor (Z.lor (Z.lor (V2P p) PTE_P) PTE_W) PTE_U) else npde m pd j.
Proof.
  intros Hpd Hp Hne Hi Hj. unfold npde, with_table. case_decide as E; [subst; apply ld32_st32|].
  rewrite ld32_st32_ne by lia. apply ld32_ext. intros x Hx. apply (mem_fill_other p pd); try done. unfold in_page, PGSIZE. lia.
Qed.

(** The entries then: the slot has the table, and no entry changed. *)
Lemma with_table_view X pd p l m i : as_ok X pd (p :: l) m → is_page p → 0 ≤ i < 1024 →
  has PTE_P (npde m pd i) = false →
  has PTE_P (npde (with_table m pd p i) pd i) = true ∧ tab (with_table m pd p i) pd i = p ∧
  (∀ j, 0 ≤ j < 1024 → j ≠ i → npde (with_table m pd p i) pd j = npde m pd j ∧ tab (with_table m pd p i) pd j = tab m pd j) ∧
  (∀ q x, is_page q → q ≠ pd → q ≠ p → in_page q x → with_table m pd p i x = m x) ∧
  (∀ n, pageno n → pteval (with_table m pd p i) pd n = pteval m pd n).
Proof.
  intros A Hp Hi Hh. pose proof A as [(Hpd & Hpdl & HpdX) A2 A3 A4 A5 A6].
  assert (p ≠ pd) as Hne by (intros ->; apply Hpdl; by left).
  set (m' := with_table m pd p i). set (v := Z.lor (Z.lor (Z.lor (V2P p) PTE_P) PTE_W) PTE_U).
  assert (∀ j, 0 ≤ j < 1024 → npde m' pd j = if decide (j = i) then u32 v else npde m pd j) as Hd
    by (intros j Hj; by apply with_table_dir).
  assert (∀ q x, is_page q → q ≠ pd → q ≠ p → in_page q x → m' x = m x) as Hf.
  { intros q x Hq Hqpd Hqp Hx. unfold m', with_table.
    rewrite (st32_other pd q) by (done || unfold PGSIZE; lia). by apply (mem_fill_other p q). }
  assert (has PTE_P (npde m' pd i) = true) as Hhi.
  { rewrite Hd, decide_True by done. unfold v. rewrite has_u32, !has_lor by done. by rewrite orb_true_r. }
  assert (tab m' pd i = p) as Hti.
  { unfold tab. rewrite Hd, decide_True by done. unfold v. rewrite <- !Z.lor_assoc. by apply frame_V2P. }
  assert (∀ j, 0 ≤ j < 1024 → j ≠ i → npde m' pd j = npde m pd j ∧ tab m' pd j = tab m pd j) as Hj.
  { intros j Hj Hji. unfold tab. rewrite Hd, decide_False by done. done. }
  split_and!; try done. intros n Hn. destruct (pageno_dir n Hn) as [Hdn Htn]. unfold pteval.
  destruct (decide (n / 1024 = i)) as [E|E].
  - rewrite E, Hhi, Hh. unfold pteaddr. rewrite E, Hti. unfold m', with_table.
    rewrite ld32_st32_ne; [apply ld32_memset0; unfold PGSIZE; lia|].
    destruct Hpd as (? & ? & ?), Hp as (? & ? & ?). unfold PGSIZE in *. divmod_lia.
  - destruct (Hj _ Hdn E) as [E1 E2]. rewrite E1. destruct (has PTE_P (npde m pd (n / 1024))) eqn:Eh; [|done].
    unfold pteaddr. rewrite E2. destruct (A2 _ Hdn Eh) as (T1 & T2 & T3 & T4).
    apply ld32_ext. intros x Hx. apply (Hf (tab m pd (n / 1024))); try done; [|unfold in_page, PGSIZE; lia].
    intros Ep. apply T2. rewrite Ep. by left.
Qed.

Lemma with_table_dirs X pd p l m i q : as_ok X pd (p :: l) m → is_page p → 0 ≤ i < 1024 →
  has PTE_P (npde m pd i) = false → dir_page (with_table m pd p i) pd q ↔ dir_page m pd q ∨ q = p.
Proof.
  intros A Hp Hi Hh. destruct (with_table_view X pd p l m i A Hp Hi Hh) as (Hhi & Hti & Hj & _). split.
  - intros [->|(j & Hj' & Hhj & <-)]; [by left; left|]. destruct (decide (j = i)) as [->|E]; [by right|].
    destruct (Hj j Hj' E) as [E1 E2]. rewrite E1 in Hhj. rewrite E2. left; right; eauto.
  - intros [[->|(j & Hj' & Hhj & <-)]| ->]; [by left| |right; eauto].
    assert (j ≠ i) as E by congruence. destruct (Hj j Hj' E) as [E1 E2]. right. exists j. by rewrite E1, E2.
Qed.

Lemma new_table_owned X pd p l m i q : as_ok X pd (p :: l) m → is_page p → 0 ≤ i < 1024 →
  has PTE_P (npde m pd i) = false → owned (with_table m pd p i) pd q ↔ owned m pd q ∨ q = p.
Proof.
  intros A Hp Hi Hh. destruct (with_table_view X pd p l m i A Hp Hi Hh) as (_ & _ & _ & _ & Hpt).
  unfold owned. rewrite (with_table_dirs X pd p l) by done.
  assert ((∃ n, user n ∧ has PTE_P (pteval (with_table m pd p i) pd n) = true ∧ frame (pteval (with_table m pd p i) pd n) = q)
    ↔ ∃ n, user n ∧ has PTE_P (pteval m pd n) = true ∧ frame (pteval m pd n) = q) as ->; [|tauto].
  split; intros (n & Hn & Hh' & E); exists n; rewrite Hpt in * by (by apply user_pageno); done.
Qed.

Lemma new_table_ok X pd p l m i : as_ok X pd (p :: l) m → is_page p → p ∉ l → 0 ≤ i < 1024 →
  has PTE_P (npde m pd i) = false → as_ok X pd l (with_table m pd p i).
Proof.
  intros A Hp Hpl Hi Hh. pose proof A as [(Hpd & Hpdl & HpdX) A2 A3 A4 A5 A6].
  destruct (with_table_view X pd p l m i A Hp Hi Hh) as (Hhi & Hti & Hj & _ & Hpt).
  assert (∀ q, q ∉ p :: l → q ≠ p ∧ q ∉ l) as Hl by (intros q Hq; rewrite elem_of_cons in Hq; tauto).
  assert (∀ j, 0 ≤ j < 1024 → has PTE_P (npde m pd j) = true → tab m pd j ≠ p ∧ tab m pd j ∉ l) as Ht.
  { intros j Hj' Hh'. apply Hl. apply (A2 j Hj' Hh'). }
  split.
  - split; [done|]. split; [by apply Hl | done].
  - intros j Hj'. destruct (decide (j = i)) as [->|E].
    + rewrite Hti. intros _. split_and!; try done; [by apply Hl in Hpdl as [? _]; congruence|].
      intros Hx. apply A6 in Hx as [_ Hx]. apply Hx. by left.
    + destruct (Hj j Hj' E) as [-> ->]. intros Hh'. destruct (A2 j Hj' Hh') as (? & ? & ? & ?).
      split_and!; try done. by apply Ht.
  - intros j k Hj' Hk. destruct (decide (j = i)) as [->|Ej], (decide (k = i)) as [->|Ek]; try done.
    + rewrite Hti. destruct (Hj k Hk Ek) as [-> ->]. intros _ Hh' E. by destruct (Ht k Hk Hh').
    + rewrite Hti. destruct (Hj j Hj' Ej) as [-> ->]. intros Hh' _ E. by destruct (Ht j Hj' Hh').
    + destruct (Hj k Hk Ek) as [-> ->]. destruct (Hj j Hj' Ej) as [-> ->]. by apply A3.
  - intros n Hn. rewrite Hpt by by apply user_pageno. intros Hh'. destruct (A4 n Hn Hh') as (? & Hnl & ? & ? & Htn).
    apply Hl in Hnl as [Hnp Hnl]. split_and!; try done. intros j Hj'.
    destruct (decide (j = i)) as [->|E]; [by rewrite Hti|]. destruct (Hj j Hj' E) as [-> ->]. by apply Htn.
  - intros n n' Hn Hn'. rewrite !Hpt by by apply user_pageno. by apply A5.
  - intros q Hq. destruct (A6 q Hq) as [? Hql]. split; [done|]. by apply Hl.
Qed.

(** The memory after the entry of page number [n] was set to [v]. *)
Definition with_entry (m : mem) (pd n v : Z) : mem := st32 m (pteaddr m pd n) v.

Lemma with_entry_view X pd l m n v : as_ok X pd l m → pageno n → has PTE_P (npde m pd (n / 1024)) = true →
  (∀ i, 0 ≤ i < 1024 → npde (with_entry m pd n v) pd i = npde m pd i) ∧
  (∀ i, 0 ≤ i < 1024 → tab (with_entry m pd n v) pd i = tab m pd i) ∧
  (∀ k, pageno k → pteval (with_entry m pd n v) pd k = if decide (k = n) then u32 v else pteval m pd k) ∧
  (∀ q x, is_page q → q ≠ tab m pd (n / 1024) → in_page q x → with_entry m pd n v x = m x).
Proof.
  intros A Hn Hh. pose proof A as [(Hpd & _) A2 A3 A4 A5 A6]. destruct (pageno_dir n Hn) as [Hd Ht].
  destruct (A2 _ Hd Hh) as (T1 & T2 & T3 & T4).
  assert (∀ q x, is_page q → q ≠ tab m pd (n / 1024) → in_page q x → with_entry m pd n v x = m x) as Hf.
  { intros q x Hq Hne Hx. unfold with_entry. apply (st32_other (tab m pd (n / 1024)) q); try done;
      unfold pteaddr, PGSIZE; lia. }
  assert (∀ i, 0 ≤ i < 1024 → npde (with_entry m pd n v) pd i = npde m pd i) as H1.
  { intros i Hi. apply ld32_ext. intros x Hx. apply (Hf pd); try done. unfold in_page, PGSIZE. lia. }
  assert (∀ i, 0 ≤ i < 1024 → tab (with_entry m pd n v) pd i = tab m pd i) as H2 by (intros i Hi; unfold tab; by rewrite H1).
  split_and!; try done. intros k Hk. destruct (pageno_dir k Hk) as [Hdk Htk]. unfold pteval. rewrite H1 by done.
  case_decide as E.
  - subst k. rewrite Hh. unfold pteaddr at 1. rewrite H2 by done. apply ld32_st32.
  - destruct (has PTE_P (npde m pd (k / 1024))) eqn:Ek; [|done]. unfold pteaddr at 1. rewrite H2 by done.
    unfold with_entry. destruct (decide (k / 1024 = n / 1024)) as [Ed|Ed].
    + unfold pteaddr. rewrite Ed. apply ld32_st32_ne.
      assert (k mod 1024 ≠ n mod 1024) by (intros Em; apply E; divmod_lia). lia.
    + destruct (A2 _ Hdk Ek) as (U1 & _). unfold pteaddr at 2. apply ld32_ext. intros x Hx.
      apply (Hf (tab m pd (k / 1024))); [done | | unfold in_page, PGSIZE; lia].
      intros Et. apply Ed. by apply A3.
Qed.

Lemma with_entry_ok X pd l m n v : as_ok X pd l m → pageno n → has PTE_P (npde m pd (n / 1024)) = true →
  (user n → has PTE_P v = true → ¬ X (frame (u32 v)) ∧ as_ok (λ p, X p ∨ p = frame (u32 v)) pd l m) →
  as_ok X pd l (with_entry m pd n v).
Proof.
  intros A Hn Hh Hv. destruct (with_entry_view X pd l m n v A Hn Hh) as (H1 & H2 & H3 & _).
  pose proof A as [A1 A2 A3 A4 A5 A6]. split.
  - exact A1.
  - intros i Hi. rewrite H1, H2 by done. by apply A2.
  - intros i j Hi Hj. rewrite !H1, !H2 by done. by apply A3.
  - intros k Hk. rewrite H3 by by apply user_pageno. case_decide as E.
    + subst k. rewrite has_u32 by done. intros Hp. destruct (Hv Hk Hp) as [Hx B]. pose proof B as [B1 B2 _ _ _ B6].
      destruct (B6 (frame (u32 v))) as [? ?]; [by right|]. split_and!; try done.
      * intros E. destruct B1 as (_ & _ & B1). apply B1. by right.
      * intros i Hi. rewrite H1, H2 by done. intros Hi' E. destruct (B2 i Hi Hi') as (_ & _ & _ & B'). apply B'. by right.
    + intros Hp. destruct (A4 k Hk Hp) as (? & ? & ? & ? & Hi). split_and!; try done.
      intros i Hi'. rewrite H1, H2 by done. by apply Hi.
  - assert (∀ k, user k → k ≠ n → user n → has PTE_P v = true → has PTE_P (pteval m pd k) = true →
      frame (pteval m pd k) ≠ frame (u32 v)) as Hne.
    { intros k Hk Hkn Hu Hp Hpk E. destruct (Hv Hu Hp) as [_ B]. destruct (as_user _ _ _ _ B k Hk Hpk) as (_ & _ & _ & B' & _).
      apply B'. by right. }
    intros k k' Hk Hk'. rewrite !H3 by by apply user_pageno. repeat case_decide; subst; try done.
    + rewrite has_u32 by done. intros Hp Hp' E. exfalso. by apply (Hne k').
    + rewrite has_u32 by done. intros Hp Hp' E. exfalso. by apply (Hne k).
    + by apply A5.
  - exact A6.
Qed.

(** Owned pages when an absent entry is set, and when a user entry is cleared. *)
Lemma with_entry_owned X pd l m n v q : as_ok X pd l m → pageno n → has PTE_P (npde m pd (n / 1024)) = true →
  has PTE_P (pteval m pd n) = false →
  owned (with_entry m pd n v) pd q ↔ owned m pd q ∨ (user n ∧ has PTE_P v = true ∧ q = frame (u32 v)).
Proof.
  intros A Hn Hh Ha. destruct (with_entry_view X pd l m n v A Hn Hh) as (H1 & H2 & H3 & _). split.
  - intros [[->|(i & Hi & Hhi & <-)]|(k & Hk & Hhk & <-)].
    + by left; left; left.
    + rewrite H1 in Hhi by done. rewrite H2 by done. left; left; right; eauto.
    + rewrite H3 in Hhk |- * by by apply user_pageno. case_decide; [subst; right; by rewrite has_u32 in Hhk|].
      left; right; eauto.
  - intros [[[->|(i & Hi & Hhi & <-)]|(k & Hk & Hhk & <-)]|(Hu & Hp & ->)].
    + by left; left.
    + left; right. exists i. by rewrite H1, H2.
    + right. exists k. rewrite H3 by by apply user_pageno. rewrite decide_False by congruence. done.
    + right. exists n. rewrite H3, decide_True, has_u32 by done. done.
Qed.

Lemma cleared_owned X pd l m n q : as_ok X pd l m → user n → has PTE_P (npde m pd (n / 1024)) = true →
  has PTE_P (pteval m pd n) = true →
  owned m pd q ↔ owned (with_entry m pd n 0) pd q ∨ q = frame (pteval m pd n).
Proof.
  intros A Hu Hh Ha. pose proof (user_pageno n Hu) as Hn.
  destruct (with_entry_view X pd l m n 0 A Hn Hh) as (H1 & H2 & H3 & _). split.
  - intros [[->|(i & Hi & Hhi & <-)]|(k & Hk & Hhk & <-)].
    + by left; left; left.
    + left; left; right. exists i. by rewrite H1, H2.
    + destruct (decide (k = n)) as [->|E]; [by right|]. left; right. exists k.
      rewrite H3, decide_False by (done || by apply user_pageno). done.
  - intros [[[->|(i & Hi & Hhi & <-)]|(k & Hk & Hhk & <-)]| ->].
    + by left; left.
    + rewrite H1 in Hhi by done. rewrite H2 by done. left; right; eauto.
    + rewrite H3 in Hhk |- * by by apply user_pageno. case_decide; [done|]. right; eauto.
    + right; eauto.
Qed.

(** ** walkpgdir *)

Lemma wp_walk_find pd va Q s : 0 ≤ va < 2 ^ 32 →
  Q (if has PTE_P (npde (km s) pd (va / PGSIZE / 1024)) then pteaddr (km s) pd (va / PGSIZE) else 0) s →
  wp (walkpgdir pd va false) Q s.
Proof.
  intros Hva HQ. unfold walkpgdir, load. destruct (PDX_spec va Hva) as [-> ->]. wp_steps.
  fold (npde (km s) pd (va / PGSIZE / 1024)). destruct (has PTE_P _); cbn [negb]; wp_steps; exact HQ.
Qed.

(** From [s] to [s'] tables were added to the address space, and the pages [E]. *)
Record grow (E X : Z → Prop) (pd : Z) (l : list Z) (s : kst) (l' : list Z) (s' : kst) : Prop := {
  gw_kinv : kinv l' s';
  gw_ok : as_ok X pd l' (km s');
  gw_sub : ∀ q, q ∈ l' → q ∈ l;
  gw_dir : ∀ q, dir_page (km s') pd q → dir_page (km s) pd q ∨ q ∈ l;
  gw_frame : ∀ q x, is_page q → q ∉ l → ¬ dir_page (km s) pd q → in_page q x → km s' x = km s x;
  gw_pool : ∀ q, q ∈ l' ∨ owned (km s') pd q ↔ q ∈ l ∨ owned (km s) pd q ∨ E q
}.

Definition none : Z → Prop := λ _, False.

Lemma grow_refl X pd l s : kinv l s → as_ok X pd l (km s) → grow none X pd l s l s.
Proof. intros K A. split; auto. intros q. unfold none. tauto. Qed.

Lemma grow_same X pd l s l' s' : kinv l' s' → l' = l → km s' = km s → as_ok X pd l (km s) → grow none X pd l s l' s'.
Proof. intros K -> Em A. split; rewrite ?Em; auto. intros q. unfold none. tauto. Qed.

Lemma grow_trans E E' X X' pd l s l1 s1 l2 s2 : grow E X pd l s l1 s1 → grow E' X' pd l1 s1 l2 s2 →
  grow (λ q, E q ∨ E' q) X' pd l s l2 s2.
Proof.
  intros [A1 A2 A3 A4 A5 A6] [B1 B2 B3 B4 B5 B6]. split; auto.
  - intros q Hq. destruct (B4 q Hq) as [H|H]; [by apply A4 | right; by apply A3].
  - intros q x Hq Hl Hd Hx. rewrite (B5 q); [by apply (A5 q) | done | by auto | | done].
    intros H. apply A4 in H as [|]; done.
  - intros q. rewrite B6. specialize (A6 q). tauto.
Qed.

Lemma grow_iff E E' X pd l s l' s' : (∀ q, E q ↔ E' q) → grow E X pd l s l' s' → grow E' X pd l s l' s'.
Proof. intros HE [A1 A2 A3 A4 A5 A6]. split; auto. intros q. rewrite A6, HE. done. Qed.

Lemma wp_walk_alloc X pd va l Q s : kinv l s → as_ok X pd l (km s) → 0 ≤ va < 2 ^ 32 →
  (∀ s', grow none X pd l s [] s' → km s' = km s → l = [] → Q 0 s') →
  (∀ l' s', grow none X pd l s l' s' → (∀ k, pageno k → pteval (km s') pd k = pteval (km s) pd k) →
     has PTE_P (npde (km s') pd (va / PGSIZE / 1024)) = true → (length l ≤ length l' + 1)%nat →
     Q (pteaddr (km s') pd (va / PGSIZE)) s') →
  wp (walkpgdir pd va true) Q s.
Proof.
  intros K A Hva HQ0 HQ. unfold walkpgdir, load. destruct (PDX_spec va Hva) as [-> ->]. wp_steps.
  set (n := va / PGSIZE) in *. assert (pageno n) as Hn by (unfold n, pageno, PGSIZE; change (2 ^ 32) with 4294967296 in *; change (2 ^ 20) with 1048576; divmod_lia).
  destruct (pageno_dir n Hn) as [Hd _]. fold (npde (km s) pd (n / 1024)).
  destruct (has PTE_P (npde (km s) pd (n / 1024))) eqn:Eh; cbn [negb].
  - wp_steps. apply (HQ l s); [by apply grow_refl | done | done | lia].
  - wp_steps. eapply wp_kalloc; [exact K|]. intros r s1 Hr Em _. destruct l as [|p l].
    + destruct Hr as [-> K1]. cbn. wp_steps. apply HQ0; [by apply grow_same | done | done].
    + destruct Hr as [-> K1]. pose proof (ki_pages _ _ _ K) as Hps. pose proof (ki_nodup _ _ _ K) as Hnd.
      apply list.Forall_cons in Hps as [Hp _]. apply list.NoDup_cons in Hnd as [Hpl _].
      assert (p ≠ 0) by (destruct Hp as (? & ? & ?); unfold KERNBASE in *; lia).
      rewrite (proj2 (Z.eqb_neq p 0)) by done. unfold store, upd_km. wp_steps. simpl. rewrite Em.
      destruct (with_table_view X pd p l (km s) (n / 1024) A Hp Hd Eh) as (Hhi & Hti & _ & Hf & Hpt).
      set (m' := with_table (km s) pd p (n / 1024)) in *. change (Q (p + 4 * (n mod 1024)) (set_km m' s1)).
      replace (p + 4 * (n mod 1024)) with (pteaddr m' pd n) by (unfold pteaddr; by rewrite Hti).
      apply (HQ l (set_km m' s1)); [|exact Hpt | exact Hhi | simpl; lia]. split; simpl.
      * apply kinv_frame; [exact K1|]. rewrite Em. intros q Hq x Hx. apply (Hf q x); try done.
        -- eapply (list.Forall_forall is_page l); [apply (ki_pages _ _ _ K1) | exact Hq].
        -- intros ->. destruct (as_pd _ _ _ _ A) as (_ & Hno & _). apply Hno. by right.
        -- by intros ->.
      * by apply new_table_ok.
      * intros q Hq. by right.
      * intros q Hq. apply (with_table_dirs X pd p l) in Hq as [Hq| ->]; [by left | right; by left | done..].
      * intros q x Hq Hql Hqd Hx. apply (Hf q); try done; [intros ->; apply Hqd; by left | intros ->; apply Hql; by left].
      * intros q. unfold m'. rewrite (new_table_owned X pd p l) by done. rewrite elem_of_cons. unfold none. tauto.
Qed.

(** ** mappages *)

Lemma page_pageno a : 0 ≤ a < 2 ^ 32 → pageno (a / PGSIZE).
Proof. unfold pageno, PGSIZE. change (2 ^ 32) with 4294967296. change (2 ^ 20) with 1048576. intros. divmod_lia. Qed.

(** Storing [v] into the entry of [n], after the walk. *)
Lemma grow_entry X X' pd l s n v : kinv l s → as_ok X pd l (km s) → pageno n →
  has PTE_P (npde (km s) pd (n / 1024)) = true → has PTE_P (pteval (km s) pd n) = false →
  as_ok X' pd l (with_entry (km s) pd n v) →
  grow (λ q, user n ∧ has PTE_P v = true ∧ q = frame (u32 v)) X' pd l s l (set_km (with_entry (km s) pd n v) s).
Proof.
  intros K A Hn Hh Ha A'. destruct (with_entry_view X pd l (km s) n v A Hn Hh) as (H1 & H2 & _ & Hf).
  destruct (pageno_dir n Hn) as [Hd _]. destruct (as_tab _ _ _ _ A _ Hd Hh) as (T1 & T2 & T3 & T4). split; simpl; auto.
  - apply kinv_frame; [exact K|]. intros p Hp x Hx. apply (Hf p); try done.
    + eapply (list.Forall_forall is_page l); [apply (ki_pages _ _ _ K) | exact Hp].
    + by intros ->.
  - intros q [->|(i & Hi & Hhi & <-)]; [by left; left|]. rewrite H1 in Hhi by done. rewrite H2 by done. left; right; eauto.
  - intros q x Hq Hql Hqd Hx. apply (Hf q); try done. intros ->. apply Hqd. right; eauto.
  - intros q. rewrite (with_entry_owned X pd l) by done. tauto.
Qed.

(** One round of mappages, then [k]. *)
Lemma wp_map_one X X' pd a l v (k : M kst Z) Q s :
  kinv l s → as_ok X pd l (km s) → 0 ≤ a < 2 ^ 32 → has PTE_P (pteval (km s) pd (a / PGSIZE)) = false →
  (∀ l' m', as_ok X pd l' m' → has PTE_P (npde m' pd (a / PGSIZE / 1024)) = true →
     as_ok X' pd l' (with_entry m' pd (a / PGSIZE) v)) →
  (∀ s', grow none X pd l s [] s' → km s' = km s → l = [] → Q (-1) s') →
  (∀ l' s', grow (λ q, user (a / PGSIZE) ∧ has PTE_P v = true ∧ q = frame (u32 v)) X' pd l s l' s' →
     (∀ j, pageno j → pteval (km s') pd j = if decide (j = a / PGSIZE) then u32 v else pteval (km s) pd j) →
     (length l ≤ length l' + 1)%nat → wp k Q s') →
  wp (pte ← walkpgdir pd a true; if pte =? 0 then mret (-1) else e ← load pte;
      if has PTE_P e then panic "remap" else store pte v;; k) Q s.
Proof.
  intros K A Ha Hno Hst HQ0 HQ. pose proof (page_pageno a Ha) as Hn. destruct (pageno_dir _ Hn) as [Hd Ht].
  wp_steps. eapply wp_walk_alloc; [exact K | exact A | exact Ha | |].
  - intros s' G Em El. cbn. wp_steps. by apply HQ0.
  - intros l1 s1 G1 Hpt Hh Hlen. pose proof (gw_ok _ _ _ _ _ _ _ G1) as A1.
    destruct (as_tab _ _ _ _ A1 _ Hd Hh) as (T1 & _).
    assert (pteaddr (km s1) pd (a / PGSIZE) ≠ 0) as Hnz.
    { unfold pteaddr. destruct T1 as (_ & _ & T1). unfold KERNBASE in T1. lia. }
    rewrite (proj2 (Z.eqb_neq _ 0) Hnz). unfold load. wp_steps.
    assert (ld32 (km s1) (pteaddr (km s1) pd (a / PGSIZE)) = pteval (km s1) pd (a / PGSIZE)) as E by (unfold pteval; by rewrite Hh).
    rewrite E, Hpt, Hno by done. unfold store, upd_km. wp_steps. fold (with_entry (km s1) pd (a / PGSIZE) v).
    apply (HQ l1).
    + eapply grow_iff; [|eapply grow_trans; [exact G1|]].
      2: { apply (grow_entry X X'); try done; [apply (gw_kinv _ _ _ _ _ _ _ G1) | by rewrite Hpt | by apply Hst]. }
      intros q. unfold none. tauto.
    + intros j Hj. simpl. destruct (with_entry_view X pd l1 (km s1) (a / PGSIZE) v A1 Hn Hh) as (_ & _ & H3 & _).
      rewrite H3 by done. case_decide; [done | by apply Hpt].
    + exact Hlen.
Qed.

Lemma PGROUNDDOWN_page a : 0 ≤ a < 2 ^ 32 → PGROUNDDOWN a = PGSIZE * (a / PGSIZE).
Proof. apply land_page. Qed.

(** [X] with the page [p]. *)
Definition plus (X : Z → Prop) (p : Z) : Z → Prop := λ q, X q ∨ q = p.

(** mappages of one user page: the page [p], which nothing owned, is mapped. *)
Lemma wp_mappages_user X pd a l p perm Q s :
  kinv l s → as_ok (plus X p) pd l (km s) → ¬ X p → PTE_ADDR perm = 0 → a mod PGSIZE = 0 → 0 ≤ a < KERNBASE →
  has PTE_P (pteval (km s) pd (a / PGSIZE)) = false →
  (∀ s', grow none (plus X p) pd l s [] s' → km s' = km s → l = [] → Q (-1) s') →
  (∀ l' s', grow (λ q, q = p) X pd l s l' s' →
     (∀ j, pageno j → pteval (km s') pd j = if decide (j = a / PGSIZE) then entry (V2P p) perm else pteval (km s) pd j) →
     (length l ≤ length l' + 1)%nat → Q 0 s') →
  wp (mappages pd a PGSIZE (V2P p) perm) Q s.
Proof.
  intros K A HX Hperm Ham Ha Hno HQ0 HQ. unfold KERNBASE in Ha. unfold mappages.
  destruct (as_others _ _ _ _ A p) as [Hp _]; [by right|].
  rewrite !PGROUNDDOWN_page by (rewrite ?u32_id; unfold PGSIZE; lia).
  rewrite (u32_id (a + PGSIZE - 1)) by (unfold PGSIZE; lia).
  replace ((a + PGSIZE - 1) / PGSIZE) with (a / PGSIZE) by (unfold PGSIZE in *; divmod_lia).
  replace (PGSIZE * (a / PGSIZE)) with a by (unfold PGSIZE in *; divmod_lia).
  rewrite Z.sub_diag. change (Z.to_nat (u32 0 / PGSIZE)) with 0%nat. cbn [mappages_loop]. rewrite Z.eqb_refl.
  pose proof (entry_present (V2P p) perm) as Hpr. pose proof (entry_frame p perm Hp Hperm) as Hfr. unfold entry in *.
  assert (user (a / PGSIZE)) as Hu by (unfold user, PGSIZE; change (2 ^ 19) with 524288; divmod_lia).
  eapply (wp_map_one (plus X p) X); [exact K | exact A | lia | exact Hno | | exact HQ0 |].
  - intros l' m' A' Hh. apply with_entry_ok; [| by apply user_pageno | exact Hh |].
    + eapply as_ok_ext; [exact A' | done | done | |].
      * intros q Hq. destruct (as_owned _ _ _ _ _ A' Hq) as (_ & ? & Hx). split; [done|]. intros Hx'. apply Hx. by left.
      * intros q Hq. apply (as_others _ _ _ _ A'). by left.
    + intros _ _. rewrite Hfr. split; [exact HX | exact A'].
  - intros l' s' G Hpt Hlen. wp_steps. apply (HQ l' s'); [|exact Hpt | exact Hlen].
    eapply grow_iff; [|exact G]. intros q. rewrite Hfr. rewrite has_u32 in Hpr by done. tauto.
Qed.

(** The pages from number [n] on mapped to [pa] on, [k] + 1 of them. *)
Definition mapped_range (m m' : mem) (pd n : Z) (k : nat) (pa perm : Z) : Prop :=
  ∀ j, pageno j → pteval m' pd j =
    if decide (n ≤ j ≤ n + Z.of_nat k) then entry (u32 (pa + PGSIZE * (j - n))) perm else pteval m pd j.

Lemma wp_mappages_kernel X pd perm k : ∀ a pa l Q s,
  kinv l s → as_ok X pd l (km s) → a mod PGSIZE = 0 → KERNBASE ≤ a → a + PGSIZE * Z.of_nat k < 2 ^ 32 → 0 ≤ pa < 2 ^ 32 →
  (∀ j, a / PGSIZE ≤ j ≤ a / PGSIZE + Z.of_nat k → has PTE_P (pteval (km s) pd j) = false) →
  (∀ s', grow none X pd l s [] s' →
     (∀ j, pageno j → j < a / PGSIZE ∨ a / PGSIZE + Z.of_nat k < j → pteval (km s') pd j = pteval (km s) pd j) → Q (-1) s') →
  (∀ l' s', grow none X pd l s l' s' → mapped_range (km s) (km s') pd (a / PGSIZE) k pa perm →
     (length l ≤ length l' + k + 1)%nat → Q 0 s') →
  wp (mappages_loop k pd a (a + PGSIZE * Z.of_nat k) pa perm) Q s.
Proof.
  induction k as [|k IH]; intros a pa l Q s K A Ham Ha Hend Hpa Hno HQ0 HQ; cbn [mappages_loop];
    (assert (¬ user (a / PGSIZE)) as Hu by (unfold user, KERNBASE, PGSIZE in *; change (2 ^ 19) with 524288; divmod_lia));
    (eapply (wp_map_one X X); [exact K | exact A | unfold KERNBASE, PGSIZE in *; lia | apply Hno; lia | | |];
     [intros l' m' A' Hh; apply with_entry_ok; [exact A' | apply page_pageno; unfold KERNBASE, PGSIZE in *; lia | exact Hh | done]
     | intros s' G Em El; apply HQ0; [exact G | intros; by rewrite Em] |]).
  - intros l' s' G Hpt Hlen. rewrite (proj2 (Z.eqb_eq _ _)) by (unfold PGSIZE; lia). wp_steps. eapply (HQ l' s').
    + eapply grow_iff; [|exact G]. intros q. unfold none. tauto.
    + intros j Hj. rewrite Hpt by done. repeat case_decide; try lia; try done. subst.
      rewrite Z.sub_diag, Z.mul_0_r, Z.add_0_r, (u32_id pa) by done. done.
    + lia.
  - intros l1 s1 G1 Hpt Hlen1. rewrite (proj2 (Z.eqb_neq _ _)) by (unfold PGSIZE in *; lia).
    assert (grow none X pd l s l1 s1) as G by (eapply grow_iff; [|exact G1]; intros q; unfold none; tauto).
    assert (u32 (a + PGSIZE) = a + PGSIZE) as -> by (apply u32_id; unfold KERNBASE, PGSIZE in *; lia).
    replace (a + PGSIZE * Z.of_nat (S k)) with (a + PGSIZE + PGSIZE * Z.of_nat k) by lia.
    assert ((a + PGSIZE) / PGSIZE = a / PGSIZE + 1) as En by (unfold PGSIZE; divmod_lia).
    eapply (IH (a + PGSIZE) (u32 (pa + PGSIZE)) l1).
    + apply (gw_kinv _ _ _ _ _ _ _ G).
    + apply (gw_ok _ _ _ _ _ _ _ G).
    + unfold PGSIZE in *. divmod_lia.
    + unfold PGSIZE. lia.
    + unfold PGSIZE in *. lia.
    + apply u32_range.
    + intros j Hj. rewrite En in Hj. rewrite Hpt, decide_False; [apply Hno; lia | lia |].
      unfold pageno, KERNBASE, PGSIZE in *. change (2 ^ 32) with 4294967296 in *. change (2 ^ 20) with 1048576. divmod_lia.
    + intros s2 G2 H2. apply HQ0; [eapply grow_iff; [|by eapply grow_trans]; intros q; unfold none; tauto|].
      intros j Hj Hout. rewrite H2 by (done || rewrite En; lia). rewrite Hpt, decide_False by (done || lia). done.
    + intros l2 s2 G2 H2 Hlen2. apply (HQ l2 s2); [eapply grow_iff; [|by eapply grow_trans]; intros q; unfold none; tauto| |lia].
      intros j Hj. rewrite H2, En, Hpt by done. repeat case_decide; try lia; try done.
      * f_equal. unfold u32. rewrite Zplus_mod_idemp_l. f_equal. unfold PGSIZE. lia.
      * subst j. rewrite Z.sub_diag, Z.mul_0_r, Z.add_0_r, (u32_id pa) by done. done.
Qed.

(** ** deallocuvm *)

(** From [s] to [s'] the user pages with numbers in [lo, hi) were unmapped and
    freed; no other entry changed. *)
Record unmapped (X : Z → Prop) (pd : Z) (l : list Z) (s : kst) (l' : list Z) (s' : kst) (lo hi : Z) : Prop := {
  un_kinv : kinv l' s';
  un_ok : as_ok X pd l' (km s');
  un_absent : ∀ n, lo ≤ n < hi → has PTE_P (pteval (km s') pd n) = false;
  un_keep : ∀ n, pageno n → n < lo ∨ hi ≤ n → pteval (km s') pd n = pteval (km s) pd n;
  un_dir : ∀ i, 0 ≤ i < 1024 → npde (km s') pd i = npde (km s) pd i;
  un_free : ∀ q, q ∈ l' ↔ q ∈ l ∨ ∃ n, lo ≤ n < hi ∧ has PTE_P (pteval (km s) pd n) = true ∧ frame (pteval (km s) pd n) = q;
  un_frame : ∀ q x, is_page q → ¬ q ∈ l' → ¬ dir_page (km s) pd q → in_page q x → km s' x = km s x
}.

Lemma dir_page_ext m m' pd q : (∀ i, 0 ≤ i < 1024 → npde m' pd i = npde m pd i) → dir_page m' pd q ↔ dir_page m pd q.
Proof.
  intros He. unfold dir_page. split; (intros [->|(i & Hi & Hh & <-)]; [by left|right; exists i]); unfold tab in *; rewrite He in * by done; done.
Qed.

Lemma unmapped_refl X pd l s lo hi : kinv l s → as_ok X pd l (km s) →
  (∀ n, lo ≤ n < hi → has PTE_P (pteval (km s) pd n) = false) → unmapped X pd l s l s lo hi.
Proof.
  intros K A Hno. split; auto. intros q. split; [by left|]. intros [|(n & Hn & Hh & _)]; [done|].
  rewrite Hno in Hh; done.
Qed.

Lemma unmapped_trans X pd l s l1 s1 l2 s2 lo mid hi : lo ≤ mid ≤ hi → 0 ≤ lo → hi ≤ 2 ^ 20 →
  unmapped X pd l s l1 s1 lo mid → unmapped X pd l1 s1 l2 s2 mid hi → unmapped X pd l s l2 s2 lo hi.
Proof.
  intros Hmid Hlo Hhi [A1 A2 A3 A4 A5 A6 A7] [B1 B2 B3 B4 B5 B6 B7].
  assert (∀ n, lo ≤ n < hi → pageno n) as Hpn by (unfold pageno; lia). split; auto.
  - intros n Hn. destruct (decide (n < mid)); [|apply B3; lia]. rewrite B4 by (auto || lia). apply A3. lia.
  - intros n Hp Hn. rewrite B4, A4 by (done || lia). done.
  - intros i Hi. rewrite B5, A5 by done. done.
  - intros q. rewrite B6, A6. split.
    + intros [[|(n & Hn & ?)]|(n & Hn & Hh & E)]; [by left | right; exists n; split; [lia|done] | right; exists n].
      rewrite A4 in Hh, E by (lia || apply Hpn; lia). split; [lia|done].
    + intros [|(n & Hn & Hh & E)]; [by left; left|]. destruct (decide (n < mid)); [left; right; exists n; split; [lia|done]|].
      right. exists n. rewrite A4 by (lia || apply Hpn; lia). split; [lia|done].
  - intros q x Hq Hl Hd Hx. rewrite (B7 q); try done; [apply (A7 q); try done|].
    + intros Hq1. apply Hl. apply B6. by left.
    + by rewrite dir_page_ext.
Qed.

Context (Hkend : KERNBASE < kend).

Lemma cleared_frame X pd l m n : as_ok X pd l m → user n → has PTE_P (npde m pd (n / 1024)) = true →
  has PTE_P (pteval m pd n) = true → ¬ owned (with_entry m pd n 0) pd (frame (pteval m pd n)).
Proof.
  intros A Hu Hh Ha. pose proof (user_pageno n Hu) as Hn.
  destruct (with_entry_view X pd l m n 0 A Hn Hh) as (H1 & H2 & H3 & _).
  destruct (as_user _ _ _ _ A n Hu Ha) as (F1 & F2 & F3 & F4 & F5).
  intros [[E|(i & Hi & Hhi & E)]|(k & Hk & Hhk & E)]; [done| |].
  - rewrite H1 in Hhi by done. rewrite H2 in E by done. by apply (F5 i).
  - rewrite H3 in Hhk, E by by apply user_pageno. case_decide as Ek; [done|]. apply Ek. by eapply (as_user_inj _ _ _ _ A).
Qed.

Lemma present_table m pd n : has PTE_P (pteval m pd n) = true → has PTE_P (npde m pd (n / 1024)) = true.
Proof. unfold pteval. by destruct (has PTE_P (npde m pd (n / 1024))). Qed.

(** The page of the entry [n] is freed and the entry cleared. *)
Lemma unmapped_one X pd l s n s1 : kinv l s → as_ok X pd l (km s) → user n → has PTE_P (pteval (km s) pd n) = true →
  kinv (frame (pteval (km s) pd n) :: l) s1 →
  (∀ x, ¬ in_page (frame (pteval (km s) pd n)) x → km s1 x = km s x) →
  unmapped X pd l s (frame (pteval (km s) pd n) :: l) (set_km (st32 (km s1) (pteaddr (km s) pd n) 0) s1) n (n + 1).
Proof.
  intros K A Hu Ha K1 Hf. pose proof (user_pageno n Hu) as Hn. pose proof (present_table _ _ _ Ha) as Hh.
  destruct (as_user _ _ _ _ A n Hu Ha) as (F1 & F2 & F3 & F4 & F5). set (f := frame (pteval (km s) pd n)) in *.
  destruct (pageno_dir n Hn) as [Hd Ht]. destruct (as_tab _ _ _ _ A _ Hd Hh) as (T1 & T2 & T3 & T4).
  assert (∀ p x, is_page p → p ≠ f → in_page p x → km s1 x = km s x) as Hf'.
  { intros p x Hp Hne Hx. apply Hf. intros Hx'. apply Hne. by eapply (page_disjoint kend p f x). }
  destruct (same_dir (km s) (km s1) pd) as (D1 & D2 & D3).
  { intros p x Hp Hx. apply (Hf' p); try done.
    - destruct Hp as [->|(i & Hi & Hhi & <-)]; [apply (as_pd _ _ _ _ A) | by apply (as_tab _ _ _ _ A)].
    - destruct Hp as [->|(i & Hi & Hhi & <-)]; [by apply not_eq_sym | by apply F5]. }
  assert (as_ok X pd l (km s1)) as A1 by (eapply as_ok_ext; [exact A | exact D1 | exact D3 | intros p Hp; by apply (as_owned _ _ _ _ _ A Hp) | apply (as_others _ _ _ _ A)]).
  assert (pteaddr (km s1) pd n = pteaddr (km s) pd n) as Ea by (unfold pteaddr; by rewrite D2).
  rewrite <- Ea. fold (with_entry (km s1) pd n 0). set (m' := with_entry (km s1) pd n 0).
  assert (has PTE_P (npde (km s1) pd (n / 1024)) = true) as Hh1 by by rewrite D1.
  destruct (with_entry_view X pd l (km s1) n 0 A1 Hn Hh1) as (H1 & H2 & H3 & H4).
  pose proof (with_entry_ok X pd l (km s1) n 0 A1 Hn Hh1 ltac:(done)) as A2.
  assert (has PTE_P (pteval (km s1) pd n) = true) as Ha1 by by rewrite D3.
  assert (frame (pteval (km s1) pd n) = f) as Ef by by rewrite D3.
  pose proof (cleared_frame X pd l (km s1) n A1 Hu Hh1 Ha1) as Hno. rewrite Ef in Hno.
  split; simpl.
  - apply kinv_frame; [exact K1|]. intros p Hp x Hx. apply (H4 p); try done.
    + eapply (list.Forall_forall is_page (f :: l)); [apply (ki_pages _ _ _ K1) | exact Hp].
    + rewrite D2 by done. intros ->. apply elem_of_cons in Hp as [Hp|Hp]; [by apply (F5 (n / 1024)) | done].
  - eapply as_ok_ext; [exact A2 | done | done | |].
    + intros p Hp. destruct (as_owned _ _ _ _ _ A2 Hp) as (_ & ? & ?). split; [|done].
      rewrite elem_of_cons. intros [->|]; done.
    + intros p Hp. destruct (as_others _ _ _ _ A p Hp). split; [done|]. rewrite elem_of_cons. intros [->|]; done.
  - intros k Hk. assert (k = n) as -> by lia. rewrite H3, decide_True by done. done.
  - intros k Hk Hout. rewrite H3, decide_False by (done || lia). by apply D3.
  - intros i Hi. rewrite H1, D1 by done. done.
  - intros q. rewrite elem_of_cons. split.
    + intros [->|]; [right; exists n; split; [lia|done] | by left].
    + intros [|(k & Hk & Hhk & <-)]; [by right|]. left. assert (k = n) as -> by lia. done.
  - intros q x Hq Hl Hqd Hx. rewrite (H4 q); [|done| |done].
    + apply (Hf' q); try done. intros ->. apply Hl. by left.
    + rewrite D2 by done. intros ->. apply Hqd. right; eauto.
Qed.

Lemma frame_nonzero e : is_page (frame e) → (PTE_ADDR e =? 0) = false.
Proof.
  intros (_ & H1 & H2). apply Z.eqb_neq. intros E. unfold frame in *. rewrite E in *. change (P2V 0) with KERNBASE in *. lia.
Qed.

Lemma wp_unmap_one X pd l n (k : M kst unit) Q s : kinv l s → as_ok X pd l (km s) → user n →
  has PTE_P (npde (km s) pd (n / 1024)) = true →
  (∀ l' s', unmapped X pd l s l' s' n (n + 1) → wp k Q s') →
  wp (e ← load (pteaddr (km s) pd n);
      when (has PTE_P e) (let pa := PTE_ADDR e in if pa =? 0 then panic "kfree" else
        kfree kend (P2V pa);; store (pteaddr (km s) pd n) 0);; k) Q s.
Proof.
  intros K A Hu Hh HQ. unfold load. wp_steps.
  assert (ld32 (km s) (pteaddr (km s) pd n) = pteval (km s) pd n) as -> by (unfold pteval; by rewrite Hh).
  apply wp_when; intros Hp.
  - destruct (as_user _ _ _ _ A n Hu Hp) as (F1 & F2 & _). cbv zeta. rewrite frame_nonzero by done.
    wp_steps. fold (frame (pteval (km s) pd n)). eapply wp_kfree; [exact K | exact F1 | exact F2 |].
    intros s1 K1 Hf _. unfold store, upd_km. wp_steps. eapply HQ. by apply unmapped_one.
  - eapply HQ. apply unmapped_refl; [done..|]. intros k' Hk'. assert (k' = n) as -> by lia. done.
Qed.

Lemma PGADDR_next a : 0 ≤ a < KERNBASE → u32 (u32 (PGADDR (PDX a + 1) 0 0 - PGSIZE) + PGSIZE) = PGSIZE * (1024 * (a / PGSIZE / 1024 + 1)).
Proof.
  intros Ha. unfold KERNBASE in Ha. destruct (PDX_spec a ltac:(lia)) as [-> _]. unfold PGADDR.
  rewrite !Z.lor_0_r, Z.shiftl_mul_pow2 by lia. unfold u32, PGSIZE. change (2 ^ 22) with 4194304. change (2 ^ 32) with 4294967296. divmod_lia.
Qed.

Lemma unmapped_widen X pd l s l' s' lo lo' hi : 0 ≤ lo ≤ lo' → hi ≤ 2 ^ 20 →
  (∀ k, lo ≤ k < lo' → has PTE_P (pteval (km s) pd k) = false) →
  unmapped X pd l s l' s' lo' hi → unmapped X pd l s l' s' lo hi.
Proof.
  intros Hlo Hhi Hno [A1 A2 A3 A4 A5 A6 A7]. split; auto.
  - intros n Hn. destruct (decide (n < lo')); [|apply A3; lia]. rewrite A4 by (unfold pageno; lia). apply Hno. lia.
  - intros n Hp Hn. apply A4; [done|lia].
  - intros q. rewrite A6. split; (intros [|(n & Hn & Hh & E)]; [by left|right; exists n]); [split; [lia|done]|].
    destruct (decide (n < lo')); [rewrite Hno in Hh by lia; done | split; [lia|done]].
Qed.

Lemma wp_deallocuvm_loop X pd oldsz fuel : ∀ a l Q s,
  kinv l s → as_ok X pd l (km s) → 0 ≤ oldsz ≤ KERNBASE → a mod PGSIZE = 0 → 0 ≤ a ≤ KERNBASE →
  (oldsz + PGSIZE - 1) / PGSIZE - a / PGSIZE ≤ Z.of_nat fuel →
  (∀ l' s', unmapped X pd l s l' s' (a / PGSIZE) ((oldsz + PGSIZE - 1) / PGSIZE) → Q tt s') →
  wp (deallocuvm_loop kend fuel pd a oldsz) Q s.
Proof.
  induction fuel as [|fuel IH]; intros a l Q s K A Ho Ham Ha Hf HQ; cbn [deallocuvm_loop];
    (destruct (Z.ltb_spec a oldsz) as [Hlt|Hge]; [|wp_steps; apply (HQ l s), unmapped_refl; [done..|];
      unfold PGSIZE in *; divmod_lia]).
  - exfalso. unfold PGSIZE in *. divmod_lia.
  - set (n := a / PGSIZE) in *. set (hi := (oldsz + PGSIZE - 1) / PGSIZE) in *.
    assert (user n ∧ n < hi ∧ hi ≤ 2 ^ 19) as (Hu & Hn & Hhi).
    { unfold user, n, hi, KERNBASE, PGSIZE in *. change (2 ^ 19) with 524288. divmod_lia. }
    wp_steps. apply wp_walk_find; [unfold KERNBASE in *; lia|]. fold n.
    destruct (has PTE_P (npde (km s) pd (n / 1024))) eqn:Hh.
    + destruct (pageno_dir n (user_pageno n Hu)) as [Hd Ht]. destruct (as_tab _ _ _ _ A _ Hd Hh) as ((_ & _ & T1) & _).
      rewrite (proj2 (Z.eqb_neq _ 0)) by (unfold pteaddr, KERNBASE in *; lia).
      eapply (wp_unmap_one X pd l n _ _ s); [done..|]. intros l1 s1 U1.
      assert (u32 (a + PGSIZE) = a + PGSIZE) as -> by (apply u32_id; unfold KERNBASE, PGSIZE in *; lia).
      assert ((a + PGSIZE) / PGSIZE = n + 1) as En by (unfold n, PGSIZE; divmod_lia).
      eapply (IH (a + PGSIZE) l1); [apply (un_kinv _ _ _ _ _ _ _ _ U1) | apply (un_ok _ _ _ _ _ _ _ _ U1) | done | | | | ].
      * unfold PGSIZE in *. divmod_lia.
      * unfold KERNBASE, PGSIZE in *. divmod_lia.
      * rewrite En. fold hi. lia.
      * intros l2 s2 U2. rewrite En in U2. apply (HQ l2 s2). unfold user in Hu.
        eapply (unmapped_trans _ _ _ _ _ _ _ _ n (n + 1) hi); [lia | lia | lia | exact U1 | exact U2].
    + simpl. rewrite PGADDR_next by lia. fold n.
      assert (PGSIZE * (1024 * (n / 1024 + 1)) / PGSIZE = 1024 * (n / 1024 + 1)) as En by (unfold PGSIZE; divmod_lia).
      assert (∀ k, n ≤ k < 1024 * (n / 1024 + 1) → has PTE_P (pteval (km s) pd k) = false) as Hno.
      { intros k Hk. unfold pteval. replace (k / 1024) with (n / 1024) by divmod_lia. by rewrite Hh. }
      eapply (IH _ l); [done | done | done | | | |].
      * unfold PGSIZE. divmod_lia.
      * unfold user, KERNBASE, PGSIZE in *. change (2 ^ 19) with 524288 in *. divmod_lia.
      * rewrite En. fold hi. divmod_lia.
      * intros l2 s2 U2. rewrite En in U2. fold hi in U2. apply (HQ l2 s2). unfold user in Hu.
        eapply unmapped_widen; [| | exact Hno | exact U2]; [divmod_lia | lia].
Qed.

(** The number of pages of a process of size [sz]. *)
Definition npages (sz : Z) : Z := (sz + PGSIZE - 1) / PGSIZE.

Lemma npages_up sz : 0 ≤ sz ≤ KERNBASE → PGROUNDUP sz mod PGSIZE = 0 ∧ PGROUNDUP sz / PGSIZE = npages sz ∧ 0 ≤ PGROUNDUP sz ≤ KERNBASE.
Proof.
  intros Hsz. unfold KERNBASE in *. destruct (PGROUNDUP_spec sz ltac:(lia) ltac:(unfold PGSIZE; lia)) as [H1 H2].
  unfold npages, PGSIZE in *. divmod_lia.
Qed.

Lemma npages_user sz : 0 ≤ sz ≤ KERNBASE → 0 ≤ npages sz ≤ 2 ^ 19.
Proof. unfold npages, KERNBASE, PGSIZE. change (2 ^ 19) with 524288. intros. divmod_lia. Qed.

Lemma wp_deallocuvm X pd oldsz newsz l Q s : kinv l s → as_ok X pd l (km s) → 0 ≤ oldsz ≤ KERNBASE → 0 ≤ newsz →
  (oldsz ≤ newsz → Q oldsz s) →
  (newsz < oldsz → ∀ l' s', unmapped X pd l s l' s' (npages newsz) (npages oldsz) → Q newsz s') →
  wp (deallocuvm kend pd oldsz newsz) Q s.
Proof.
  intros K A Ho Hn HQ1 HQ2. unfold deallocuvm. destruct (Z.leb_spec oldsz newsz) as [|Hlt]; [wp_steps; by apply HQ1|].
  destruct (npages_up newsz ltac:(lia)) as (R1 & R2 & R3). wp_steps.
  eapply (wp_deallocuvm_loop X); [done | done | done | done | done | |].
  - rewrite R2. fold (npages oldsz). unfold npages, KERNBASE, PGSIZE in *. divmod_lia.
  - rewrite R2. intros l' s' U. wp_steps. by eapply HQ2.
Qed.

(** Pages that leave the address space go to the free list. *)
Lemma unmapped_pool X pd l s l' s' lo hi q : 0 ≤ lo → hi ≤ 2 ^ 19 → as_ok X pd l (km s) →
  unmapped X pd l s l' s' lo hi → q ∈ l' ∨ owned (km s') pd q ↔ q ∈ l ∨ owned (km s) pd q.
Proof.
  intros Hlo Hhi A [U1 U2 U3 U4 U5 U6 U7]. unfold owned. rewrite U6, (dir_page_ext _ _ _ _ U5). split.
  - intros [[|(n & Hn & Hh & E)]|[|(n & Hn & Hh & E)]]; [by left| | by right; left |].
    + right; right. exists n. split; [unfold user; lia | done].
    + right; right. exists n. destruct (decide (lo ≤ n < hi)) as [Hr|Hr]; [rewrite U3 in Hh; done|].
      rewrite U4 in Hh, E by (by apply user_pageno || lia). done.
  - intros [|[|(n & Hn & Hh & E)]]; [by left; left | by right; left|].
    destruct (decide (lo ≤ n < hi)) as [Hr|Hr]; [left; right; eauto|]. right; right. exists n.
    rewrite U4 by (by apply user_pageno || lia). done.
Qed.

End spec.
