(* ===== verification/VmUser.v ===== *)
(** * VmUser: growing, copying and accessing user memory

    The properties of allocuvm, deallocuvm, freevm, setupkvm, copyuvm and
    copyout, from the specifications of VmSpec.v.  Failures for want of memory
    are part of them: the pages taken are given back. *)

From Stdlib Require Import ZArith Lia Bool.
From stdpp Require Import base option list sets gmap strings numbers.
From S2P Require Import Prelude Cstring Kalloc Vm VmSpec.

#[local] Open Scope string_scope.
#[local] Open Scope list_scope.
#[local] Open Scope Z_scope.

Section user.
Context (kend kdata : Z) (Hkend : KERNBASE < kend).
#[local] Notation is_page := (is_page kend).
#[local] Notation kinv := (kinv kend).
#[local] Notation as_ok := (as_ok kend).
#[local] Notation grow := (grow kend).
#[local] Notation unmapped := (unmapped kend).

(** ** A page taken from the free list *)

(** The page [p] of the free list is set aside. *)
Lemma as_ok_take X pd p l m : kinv (p :: l) m → as_ok X pd (p :: l) (km m) → as_ok (plus X p) pd l (km m).
Proof.
  intros K A. pose proof (ki_pages _ _ _ K) as Hps. pose proof (ki_nodup _ _ _ K) as Hnd.
  apply list.Forall_cons in Hps as [Hp _]. apply list.NoDup_cons in Hnd as [Hpl _].
  eapply as_ok_ext; [exact A | done | done | |].
  - intros q Hq. destruct (as_owned _ _ _ _ _ _ A Hq) as (_ & Hl & Hx). rewrite elem_of_cons in Hl.
    split; [tauto|]. intros [|]; [done|]. subst. tauto.
  - intros q [Hq| ->]; [|done]. destruct (as_others _ _ _ _ _ A q Hq) as [? Hl]. rewrite elem_of_cons in Hl. tauto.
Qed.

(** Changing the page set aside. *)
Lemma as_ok_page X pd p l s m : kinv l s → as_ok (plus X p) pd l (km s) →
  (∀ x, ¬ in_page p x → m x = km s x) →
  kinv l (set_km m s) ∧ as_ok (plus X p) pd l m ∧ (∀ q, owned m pd q ↔ owned (km s) pd q) ∧
  (∀ n, pageno n → pteval m pd n = pteval (km s) pd n) ∧ (∀ i, 0 ≤ i < 1024 → npde m pd i = npde (km s) pd i).
Proof.
  intros K A Hf. destruct (as_others _ _ _ _ _ A p) as [Hp Hpl]; [by right|].
  assert (∀ q x, is_page q → q ≠ p → in_page q x → m x = km s x) as Hf'.
  { intros q x Hq Hne Hx. apply Hf. intros Hx'. apply Hne. by eapply (page_disjoint kend q p x). }
  destruct (same_dir (km s) m pd) as (D1 & D2 & D3).
  { intros q x Hq Hx. destruct (as_owned _ _ _ _ _ _ A (or_introl Hq)) as (Hqp & _ & Hqx). apply (Hf' q); try done.
    intros ->. apply Hqx. by right. }
  split_and!; try done.
  - apply kinv_frame; [done|]. intros q Hq x Hx. apply (Hf' q); try done; [|by intros ->].
    eapply (list.Forall_forall is_page l); [apply (ki_pages _ _ _ K) | exact Hq].
  - eapply as_ok_ext; [exact A | done | done | |]; [intros q Hq; by apply (as_owned _ _ _ _ _ _ A Hq) | apply (as_others _ _ _ _ _ A)].
  - intros q. unfold owned. rewrite (dir_page_ext _ _ _ _ D1).
    split; (intros [|(n & Hn & Hh & E)]; [by left|right; exists n]); rewrite D3 in * by (by apply user_pageno); done.
Qed.

(** Taking the page [p], changing it and mapping it. *)
Lemma grow_taken X pd p l s s1 m l2 s2 : kinv (p :: l) s → as_ok X pd (p :: l) (km s) → km s1 = km s →
  kinv l s1 → (∀ x, ¬ in_page p x → m x = km s x) →
  grow (λ q, q = p) X pd l (set_km m s1) l2 s2 → grow none X pd (p :: l) s l2 s2.
Proof.
  intros K A Em K1 Hf [G1 G2 G3 G4 G5 G6]. simpl in *.
  pose proof (as_ok_take _ _ _ _ _ K A) as A1. rewrite <- Em in A1, Hf.
  destruct (as_ok_page _ _ _ _ s1 m K1 A1 Hf) as (_ & A2 & Ho & _ & Hd). rewrite Em in Hf, Hd, Ho.
  destruct (as_others _ _ _ _ _ A2 p) as [Hp Hpl]; [by right|]. split; auto.
  - intros q Hq. right. by apply G3.
  - intros q Hq. apply G4 in Hq as [Hq|Hq]; [left; by rewrite (dir_page_ext _ _ _ _ Hd) in Hq | right; by right].
  - intros q x Hq Hl Hqd Hx. rewrite elem_of_cons in Hl. rewrite (G5 q); try done; [| tauto | by rewrite (dir_page_ext _ _ _ _ Hd)].
    apply Hf. intros Hx'. apply Hl. left. by eapply (page_disjoint kend q p x).
  - intros q. rewrite G6, Ho, elem_of_cons. unfold none. tauto.
Qed.

(** ** allocuvm *)

Definition UW : Z := Z.lor PTE_W PTE_U.

(** Entry [n] maps a page taken from [l], writable by the user, all zero. *)
Definition fresh_entry (l : list Z) (m : mem) (pd n : Z) : Prop :=
  ∃ p, p ∈ l ∧ is_page p ∧ pteval m pd n = entry (V2P p) UW ∧ ∀ x, in_page p x → m x = 0.

(** [s'] has zeroed pages at the numbers [lo, hi), and is otherwise as [s]. *)
Record extended (X : Z → Prop) (pd : Z) (l : list Z) (s : kst) (l' : list Z) (s' : kst) (lo hi : Z) : Prop := {
  xt_grow : grow none X pd l s l' s';
  xt_new : ∀ n, lo ≤ n < hi → fresh_entry l (km s') pd n;
  xt_keep : ∀ n, pageno n → n < lo ∨ hi ≤ n → pteval (km s') pd n = pteval (km s) pd n
}.

Lemma fresh_grow E X pd l l1 s1 l2 s2 n : 0 ≤ n < 2 ^ 19 → grow E X pd l1 s1 l2 s2 → as_ok X pd l1 (km s1) →
  pteval (km s2) pd n = pteval (km s1) pd n → fresh_entry l (km s1) pd n → fresh_entry l (km s2) pd n.
Proof.
  intros Hn [G1 G2 G3 G4 G5 G6] A Ep (p & Hp & Hpp & Ev & Hz). exists p. split_and!; try done; [congruence|].
  intros x Hx. rewrite (G5 p x); [by apply Hz | done | | | done].
  - destruct (as_user _ _ _ _ _ A n) as (_ & Hl & _); [unfold user; lia | by rewrite Ev, entry_present|].
    by rewrite Ev, (entry_frame kend) in Hl by done.
  - destruct (as_user _ _ _ _ _ A n) as (_ & _ & H1 & _ & H2); [unfold user; lia | by rewrite Ev, entry_present|].
    rewrite Ev, (entry_frame kend) in H1, H2 by done. intros [->|(i & Hi & Hh & E')]; [done|]. by apply (H2 i).
Qed.

Lemma uvm_extended_refl X pd l s lo : kinv l s → as_ok X pd l (km s) → extended X pd l s l s lo lo.
Proof. intros K A. split; [by apply grow_refl | lia | done]. Qed.

(** One more page. *)
Lemma extended_step X pd l s p l1 s1 s2 l3 s3 lo n m : 0 ≤ lo ≤ n → n < 2 ^ 19 →
  extended X pd l s (p :: l1) s1 lo n → kinv l1 s2 → km s2 = km s1 →
  m = mem_fill (km s1) p 0 PGSIZE → grow (λ q, q = p) X pd l1 (set_km m s2) l3 s3 →
  (∀ j, pageno j → pteval (km s3) pd j = if decide (j = n) then entry (V2P p) UW else pteval m pd j) →
  extended X pd l s l3 s3 lo (n + 1).
Proof.
  intros Hlo Hn [G N K] K2 Em -> G3 Hpt. pose proof (gw_kinv _ _ _ _ _ _ _ _ G) as K1. pose proof (gw_ok _ _ _ _ _ _ _ _ G) as A1.
  assert (∀ x, ¬ in_page p x → mem_fill (km s1) p 0 PGSIZE x = km s1 x) as Hf.
  { intros x Hx. apply mem_fill_out. unfold in_page in Hx. lia. }
  pose proof (grow_taken _ _ _ _ _ _ _ _ _ K1 A1 Em K2 Hf G3) as G4.
  pose proof (as_ok_take _ _ _ _ _ K1 A1) as A2. rewrite <- Em in A2, Hf.
  destruct (as_ok_page _ _ _ _ s2 _ K2 A2 Hf) as (_ & A3 & _ & Hpm & _). rewrite Em in Hpm, A3.
  destruct (as_others _ _ _ _ _ A3 p) as [Hp Hpl]; [by right|]. split.
  - eapply grow_iff; [|eapply grow_trans; [exact G | exact G4]]. intros q. unfold none. tauto.
  - intros j Hj. destruct (decide (j = n)) as [->|E].
    + exists p. split; [apply (gw_sub _ _ _ _ _ _ _ _ G); by left|]. split; [done|].
      split; [rewrite Hpt, decide_True by (done || unfold pageno; lia); done|].
      intros x Hx. rewrite (gw_frame _ _ _ _ _ _ _ _ G3 p x); [simpl; by rewrite mem_fill_in | done | done | | done].
      simpl. intros Hd. destruct (as_owned _ _ _ _ _ _ A3 (or_introl Hd)) as (_ & _ & Hx'). apply Hx'. by right.
    + eapply (fresh_grow none X pd l (p :: l1) s1); [lia | exact G4 | exact A1 | | apply N; lia].
      rewrite Hpt, decide_False by (done || unfold pageno; lia). apply Hpm. unfold pageno. lia.
  - intros j Hp' Hj. rewrite Hpt, decide_False, Hpm by (done || lia). apply K; [done|lia].
Qed.

(** [s'] has no pages at the numbers [lo, hi), the other entries of [s], and
    the pages of [s], each in the address space or free. *)
Record restored (X : Z → Prop) (pd : Z) (l : list Z) (s : kst) (l' : list Z) (s' : kst) (lo hi : Z) : Prop := {
  rs_kinv : kinv l' s';
  rs_ok : as_ok X pd l' (km s');
  rs_absent : ∀ n, lo ≤ n < hi → has PTE_P (pteval (km s') pd n) = false;
  rs_keep : ∀ n, pageno n → n < lo ∨ hi ≤ n → pteval (km s') pd n = pteval (km s) pd n;
  rs_pool : ∀ q, q ∈ l' ∨ owned (km s') pd q ↔ q ∈ l ∨ owned (km s) pd q
}.

Lemma restored_unmapped X pd l s l1 s1 l2 s2 lo mid hi : 0 ≤ lo ≤ mid → mid ≤ hi ≤ 2 ^ 19 →
  extended X pd l s l1 s1 lo mid → as_ok X pd l1 (km s1) →
  unmapped X pd l1 s1 l2 s2 lo hi → restored X pd l s l2 s2 lo hi.
Proof.
  intros Hlo Hhi [G N Kp] A U. pose proof U as [U1 U2 U3 U4 U5 U6 U7]. split; try done.
  - intros n Hp Hn. rewrite U4, Kp by (done || lia). done.
  - intros q. rewrite (unmapped_pool kend X pd l1 s1 l2 s2 lo hi) by (done || lia).
    rewrite (gw_pool _ _ _ _ _ _ _ _ G). unfold none. tauto.
Qed.

(** The page set aside is freed. *)
Lemma wp_kfree_aside X pd p l Q s : kinv l s → as_ok (plus X p) pd l (km s) → ¬ X p →
  (∀ s', kinv (p :: l) s' → as_ok X pd (p :: l) (km s') → (∀ q, owned (km s') pd q ↔ owned (km s) pd q) →
     (∀ n, pageno n → pteval (km s') pd n = pteval (km s) pd n) → (∀ x, ¬ in_page p x → km s' x = km s x) → Q tt s') →
  wp (kfree kend p) Q s.
Proof.
  intros K A HX HQ. destruct (as_others _ _ _ _ _ A p) as [Hp Hpl]; [by right|].
  eapply wp_kfree; [exact K | exact Hp | exact Hpl |]. intros s1 K1 Hf _.
  destruct (as_ok_page _ _ _ _ s (km s1) K A Hf) as (_ & A1 & Ho & Hpt & _). apply HQ; try done.
  eapply as_ok_ext; [exact A1 | done | done | |].
  - intros q Hq. destruct (as_owned _ _ _ _ _ _ A1 Hq) as (_ & Hl & Hx). unfold plus in Hx. rewrite elem_of_cons. tauto.
  - intros q Hq. destruct (as_others _ _ _ _ _ A1 q) as [? ?]; [by left|]. split; [done|].
    rewrite elem_of_cons. intros [->|]; done.
Qed.

(** The page [p] was set aside and could not be mapped. *)
Lemma wp_alloc_undo X pd p l s s1 s3 oldsz newsz n Q :
  0 ≤ oldsz < newsz → newsz < KERNBASE → npages oldsz ≤ n ≤ npages newsz → ¬ X p →
  extended X pd l s [p] s1 (npages oldsz) n → kinv [] s3 → as_ok (plus X p) pd [] (km s3) →
  (∀ q, owned (km s3) pd q ↔ owned (km s1) pd q) → (∀ j, pageno j → pteval (km s3) pd j = pteval (km s1) pd j) →
  (∀ l' s', restored X pd l s l' s' (npages oldsz) (npages newsz) → Q 0 s') →
  wp (deallocuvm kend pd newsz oldsz;; kfree kend p;; mret 0) Q s3.
Proof.
  intros Hsz Hk Hn HX [G N Kp] K3 A3 Ho3 Hp3 HQ. pose proof (npages_user oldsz ltac:(lia)). pose proof (npages_user newsz ltac:(lia)).
  wp_steps. eapply (wp_deallocuvm kend Hkend (plus X p) _ _ _ []); [exact K3 | exact A3 | lia | lia | lia |].
  intros _ l4 s4 U. pose proof U as [U1 U2 U3 U4 U5 U6 U7]. wp_steps.
  eapply (wp_kfree_aside X pd p l4); [exact U1 | exact U2 | exact HX |]. intros s5 K5 A5 Ho5 Hp5 _. wp_steps.
  apply (HQ (p :: l4) s5). split; try done.
  - intros j Hj. rewrite Hp5 by (unfold pageno; lia). by apply U3.
  - intros j Hj Hout. rewrite Hp5, U4, Hp3, Kp by (done || lia). done.
  - intros q. rewrite elem_of_cons, Ho5.
    pose proof (unmapped_pool kend (plus X p) pd [] s3 l4 s4 (npages oldsz) (npages newsz) q ltac:(lia) ltac:(lia) A3 U) as P1.
    pose proof (gw_pool _ _ _ _ _ _ _ _ G q) as P2. rewrite Ho3, elem_of_nil in P1. rewrite list_elem_of_singleton in P2.
    unfold none in P2. clear - P1 P2. tauto.
Qed.

Lemma wp_allocuvm_loop X pd oldsz newsz l s Q fuel : ∀ a l1 s1,
  extended X pd l s l1 s1 (npages oldsz) (a / PGSIZE) → a mod PGSIZE = 0 → PGROUNDUP oldsz ≤ a →
  Z.of_nat (length l) ≤ Z.of_nat (length l1) + 2 * (a / PGSIZE - npages oldsz) →
  0 ≤ oldsz ≤ newsz → newsz < KERNBASE → a / PGSIZE ≤ npages newsz →
  npages newsz - a / PGSIZE ≤ Z.of_nat fuel →
  (∀ n, npages oldsz ≤ n < npages newsz → has PTE_P (pteval (km s) pd n) = false) →
  (∀ l' s', extended X pd l s l' s' (npages oldsz) (npages newsz) → Q newsz s') →
  (∀ l' s', restored X pd l s l' s' (npages oldsz) (npages newsz) →
     Z.of_nat (length l) < 2 * (npages newsz - npages oldsz) → Q 0 s') →
  wp (allocuvm_loop kend fuel pd a oldsz newsz) Q s1.
Proof.
  induction fuel as [|fuel IH]; intros a l1 s1 Xt Ham Hoa Hlen Hsz Hk Hahi Hf Hno HQ HQ0; cbn [allocuvm_loop];
    (destruct (Z.ltb_spec a newsz) as [Hlt|Hge]; [|wp_steps; apply (HQ l1 s1);
      assert (a / PGSIZE = npages newsz) as <- by (unfold npages, PGSIZE in *; divmod_lia); exact Xt]).
  - exfalso. unfold npages, PGSIZE in *. divmod_lia.
  - destruct (npages_up oldsz ltac:(lia)) as (R1 & R2 & R3). pose proof (npages_user oldsz ltac:(lia)) as R4.
    assert (oldsz < newsz) as Hon by (destruct (PGROUNDUP_spec oldsz ltac:(lia) ltac:(unfold KERNBASE, PGSIZE in *; lia)); lia).
    pose proof (npages_user newsz ltac:(lia)) as R5. set (lo := npages oldsz) in *. set (hi := npages newsz) in *.
    set (n := a / PGSIZE) in *. assert (lo ≤ n) as Hlo by (unfold n; rewrite <- R2; unfold PGSIZE in *; divmod_lia).
    assert (n < hi) as Hn by (unfold n, hi, npages, PGSIZE in *; divmod_lia).
    pose proof (xt_grow _ _ _ _ _ _ _ _ Xt) as G. pose proof (gw_kinv _ _ _ _ _ _ _ _ G) as K1.
    pose proof (gw_ok _ _ _ _ _ _ _ _ G) as A1. wp_steps. eapply wp_kalloc; [exact K1|]. intros r s2 Hr Em _.
    destruct l1 as [|p l1]; destruct Hr as [-> K2].
    + cbn. wp_steps. eapply (wp_deallocuvm kend Hkend X _ _ _ []); [exact K2 | by rewrite Em | lia | lia | lia |].
      intros _ l3 s3 U. wp_steps. apply (HQ0 l3 s3); [|fold lo hi; simpl in Hlen; lia]. eapply (restored_unmapped _ _ _ _ [] s2 _ _ lo n hi); [lia | lia | | by rewrite Em | exact U].
      destruct Xt as [X1 X2 X3]. split; rewrite ?Em; try done. destruct X1 as [? ? ? ? ? ?]. split; rewrite ?Em; done.
    + pose proof (ki_pages _ _ _ K1) as Hps. apply list.Forall_cons in Hps as [Hp _].
      assert (p ≠ 0) by (destruct Hp as (? & ? & ?); unfold KERNBASE in *; lia).
      rewrite (proj2 (Z.eqb_neq p 0)) by done. unfold upd_km. wp_steps.
      pose proof (as_ok_take _ _ _ _ _ K1 A1) as A2. rewrite <- Em in A2.
      assert (¬ X p) as HXp by (intros Hx; destruct (as_others _ _ _ _ _ A1 p Hx) as [_ Hx']; apply Hx'; by left).
      set (m := mem_fill (km s2) p 0 PGSIZE).
      assert (∀ x, ¬ in_page p x → m x = km s2 x) as Hf2 by (intros x Hx; apply mem_fill_out; unfold in_page in Hx; lia).
      destruct (as_ok_page _ _ _ _ s2 m K2 A2 Hf2) as (K3 & A3 & Ho3 & Hp3 & _).
      assert (has PTE_P (pteval m pd n) = false) as Ha3.
      { rewrite Hp3, Em, (xt_keep _ _ _ _ _ _ _ _ Xt) by (lia || apply page_pageno; unfold KERNBASE in *; lia). apply Hno. lia. }
      eapply (wp_mappages_user kend X); [exact K3 | exact A3 | exact HXp | reflexivity | exact Ham | lia | exact Ha3 | |].
      * intros s3 G3 Em3 ->. cbn.
        eapply (wp_alloc_undo X pd p l s s1 s3 oldsz newsz n); [lia | lia | fold lo hi; lia | exact HXp | exact Xt | apply (gw_kinv _ _ _ _ _ _ _ _ G3)
          | apply (gw_ok _ _ _ _ _ _ _ _ G3) | | | intros l' s' R; apply (HQ0 l' s' R); fold lo hi; simpl in Hlen; lia];
          rewrite Em3; simpl; intros q; [by rewrite Ho3, Em | intros Hq; by rewrite Hp3, Em].
      * intros l3 s3 G3 Hpt Hlen3. cbn. assert (u32 (a + PGSIZE) = a + PGSIZE) as -> by (apply u32_id; unfold KERNBASE, PGSIZE in *; lia).
        assert ((a + PGSIZE) / PGSIZE = n + 1) as En by (unfold n, PGSIZE; divmod_lia).
        apply (IH (a + PGSIZE) l3 s3); rewrite ?En; try done; try (simpl in Hlen; lia); [| unfold PGSIZE in *; divmod_lia | unfold PGSIZE; lia].
        eapply (extended_step X pd l s p l1 s1 s2 l3 s3 lo n m); [lia | lia | exact Xt | exact K2 | exact Em | unfold m; by rewrite Em | exact G3 | exact Hpt].
Qed.

Lemma wp_allocuvm X pd oldsz newsz l Q s : kinv l s → as_ok X pd l (km s) → 0 ≤ oldsz ≤ newsz → newsz < KERNBASE →
  (∀ n, npages oldsz ≤ n < npages newsz → has PTE_P (pteval (km s) pd n) = false) →
  (∀ l' s', extended X pd l s l' s' (npages oldsz) (npages newsz) → Q newsz s') →
  (∀ l' s', restored X pd l s l' s' (npages oldsz) (npages newsz) →
     Z.of_nat (length l) < 2 * (npages newsz - npages oldsz) → Q 0 s') →
  wp (allocuvm kend pd oldsz newsz) Q s.
Proof.
  intros K A Hsz Hk Hno HQ HQ0. unfold allocuvm. rewrite (proj2 (Z.leb_gt _ _)), (proj2 (Z.ltb_ge _ _)) by lia.
  destruct (npages_up oldsz ltac:(lia)) as (R1 & R2 & R3).
  eapply (wp_allocuvm_loop X pd oldsz newsz l s Q _ _ l s); rewrite ?R2; try done; try lia.
  - by apply uvm_extended_refl.
  - unfold npages, PGSIZE in *. divmod_lia.
  - unfold npages, PGSIZE in *. divmod_lia.
Qed.

(** C23. allocuvm grows a process: where the pages between the two sizes are not
    mapped, it returns newsz with each of them mapped to a page taken from the
    free list, writable by the user and all zero, and every other entry as
    before; or, only if fewer free pages than two per page asked for were left,
    0 with the entries as before and every page taken back on the free list or
    kept as a table.  A size in the kernel's half is refused, and shrinking is
    left to deallocuvm. *)
Theorem allocuvm_grows X pd oldsz newsz l s : kinv l s → as_ok X pd l (km s) → 0 ≤ oldsz → 0 ≤ newsz →
  (∀ n, npages oldsz ≤ n < npages newsz → has PTE_P (pteval (km s) pd n) = false) →
  ∃ r s', allocuvm kend pd oldsz newsz s = Ok r s' ∧
    if KERNBASE <=? newsz then r = 0 ∧ s' = s
    else if newsz <? oldsz then r = oldsz ∧ s' = s
    else ∃ l', (r = newsz ∧ extended X pd l s l' s' (npages oldsz) (npages newsz)) ∨
      (r = 0 ∧ restored X pd l s l' s' (npages oldsz) (npages newsz) ∧
       Z.of_nat (length l) < 2 * (npages newsz - npages oldsz)).
Proof.
  intros K A Ho Hn Hno. destruct (Z.leb_spec KERNBASE newsz) as [Hk|Hk].
  { exists 0, s. unfold allocuvm. by rewrite (proj2 (Z.leb_le _ _)). }
  destruct (Z.ltb_spec newsz oldsz) as [Hlt|Hge].
  { exists oldsz, s. unfold allocuvm. rewrite (proj2 (Z.leb_gt _ _)), (proj2 (Z.ltb_lt _ _)) by done. done. }
  assert (wp (allocuvm kend pd oldsz newsz) (λ r s', ∃ l', (r = newsz ∧ extended X pd l s l' s' (npages oldsz) (npages newsz)) ∨
      (r = 0 ∧ restored X pd l s l' s' (npages oldsz) (npages newsz) ∧
       Z.of_nat (length l) < 2 * (npages newsz - npages oldsz))) s) as Hw.
  { eapply (wp_allocuvm X); try done; [intros l' s' H; exists l'; by left | intros l' s' H H'; exists l'; by right]. }
  apply wp_elim in Hw as (r & s' & ? & ?). eauto.
Qed.

(** deallocuvm shrinks a process: every page between the two sizes is
    unmapped and on the free list afterwards, with no other page; no entry
    outside the range, no table and no byte of a page that stays changes. *)
Theorem deallocuvm_shrinks X pd oldsz newsz l s : kinv l s → as_ok X pd l (km s) → 0 ≤ oldsz ≤ KERNBASE → 0 ≤ newsz →
  ∃ r s', deallocuvm kend pd oldsz newsz s = Ok r s' ∧
    if oldsz <=? newsz then r = oldsz ∧ s' = s
    else r = newsz ∧ ∃ l', unmapped X pd l s l' s' (npages newsz) (npages oldsz).
Proof.
  intros K A Ho Hn.
  assert (wp (deallocuvm kend pd oldsz newsz) (λ r s', if oldsz <=? newsz then r = oldsz ∧ s' = s
    else r = newsz ∧ ∃ l', unmapped X pd l s l' s' (npages newsz) (npages oldsz)) s) as Hw.
  { eapply (wp_deallocuvm kend Hkend X); try done.
    - intros H. by rewrite (proj2 (Z.leb_le _ _)).
    - intros H l' s' U. rewrite (proj2 (Z.leb_gt _ _)) by done. eauto. }
  apply wp_elim in Hw as (r & s' & ? & ?). eauto.
Qed.

(** ** copyout *)

(** The byte at user address [va]. *)
Definition ubyte (m : mem) (pd va : Z) : Z := m (frame (pteval m pd (va / PGSIZE)) + va mod PGSIZE).

(** Page [n] is mapped for the user. *)
Definition upage (m : mem) (pd n : Z) : Prop :=
  has PTE_P (pteval m pd n) = true ∧ has PTE_U (pteval m pd n) = true.

Lemma wp_uva2ka X pd va l Q s : as_ok X pd l (km s) → 0 ≤ va < KERNBASE →
  has PTE_P (npde (km s) pd (va / PGSIZE / 1024)) = true →
  Q (if has PTE_P (pteval (km s) pd (va / PGSIZE)) && has PTE_U (pteval (km s) pd (va / PGSIZE))
     then frame (pteval (km s) pd (va / PGSIZE)) else 0) s →
  wp (uva2ka pd va) Q s.
Proof.
  intros A Hva Hh HQ. unfold KERNBASE in Hva. unfold uva2ka. wp_steps. apply wp_walk_find; [lia|]. rewrite Hh.
  pose proof (page_pageno va ltac:(lia)) as Hn. destruct (pageno_dir _ Hn) as [Hd Ht].
  destruct (as_tab _ _ _ _ _ A _ Hd Hh) as ((_ & _ & T) & _).
  rewrite (proj2 (Z.eqb_neq _ 0)) by (unfold pteaddr, KERNBASE in *; lia). unfold load. wp_steps.
  replace (ld32 (km s) (pteaddr (km s) pd (va / PGSIZE))) with (pteval (km s) pd (va / PGSIZE)) by (unfold pteval; by rewrite Hh).
  destruct (has PTE_P (pteval (km s) pd (va / PGSIZE))); cbn [negb andb] in *; [|wp_steps; exact HQ].
  destruct (has PTE_U (pteval (km s) pd (va / PGSIZE))); cbn [negb] in *; wp_steps; exact HQ.
Qed.

(** Bytes stored in the page of a user address are at user addresses of the
    same page, and nowhere else in the address space. *)
Lemma store_user X pd l s va bs : kinv l s → as_ok X pd l (km s) → 0 ≤ va < KERNBASE →
  has PTE_P (pteval (km s) pd (va / PGSIZE)) = true → va mod PGSIZE + Z.of_nat (length bs) ≤ PGSIZE →
  let m := stbytes (km s) (frame (pteval (km s) pd (va / PGSIZE)) + va mod PGSIZE) bs in
  kinv l (set_km m s) ∧ as_ok X pd l m ∧ (∀ n, pageno n → pteval m pd n = pteval (km s) pd n) ∧
  (∀ va', 0 ≤ va' < KERNBASE → has PTE_P (pteval (km s) pd (va' / PGSIZE)) = true →
     ubyte m pd va' = if decide (va ≤ va' < va + Z.of_nat (length bs)) then bget0 bs (va' - va) else ubyte (km s) pd va').
Proof.
  intros K A Hva Hp Hlen m. set (f := frame (pteval (km s) pd (va / PGSIZE))) in *.
  assert (∀ v, 0 ≤ v < KERNBASE → user (v / PGSIZE)) as Hus.
  { unfold user, KERNBASE, PGSIZE. change (2 ^ 19) with 524288. intros. divmod_lia. }
  pose proof (Z.mod_pos_bound va PGSIZE ltac:(done)) as Hvm.
  destruct (as_user _ _ _ _ _ A _ (Hus va Hva) Hp) as (F1 & F2 & F3 & F4 & F5). fold f in F1, F2, F3, F4, F5.
  assert (∀ q x, is_page q → q ≠ f → in_page q x → m x = km s x) as Hf.
  { intros q x Hq Hne Hx. apply stbytes_out.
    destruct (decide (f + va mod PGSIZE ≤ x < f + va mod PGSIZE + Z.of_nat (length bs))); [|lia].
    exfalso. apply Hne. eapply (page_disjoint kend q f x); try done. unfold in_page. lia. }
  destruct (same_dir (km s) m pd) as (D1 & D2 & D3).
  { intros q x Hq Hx. destruct (as_owned _ _ _ _ _ _ A (or_introl Hq)) as (Hqp & _). apply (Hf q); try done.
    destruct Hq as [->|(i & Hi & Hh & <-)]; [by apply not_eq_sym | by apply F5]. }
  split_and!; try done.
  - apply kinv_frame; [done|]. intros q Hq x Hx. apply (Hf q); try done; [|by intros ->].
    eapply (list.Forall_forall is_page l); [apply (ki_pages _ _ _ K) | exact Hq].
  - eapply as_ok_ext; [exact A | done | done | |]; [intros q Hq; by apply (as_owned _ _ _ _ _ _ A Hq) | apply (as_others _ _ _ _ _ A)].
  - intros va' Hva' Hp'. unfold ubyte. rewrite D3 by (apply user_pageno, Hus; done).
    pose proof (Z.mod_pos_bound va' PGSIZE ltac:(done)) as Hvm'.
    destruct (decide (va' / PGSIZE = va / PGSIZE)) as [E|E].
    + rewrite E. fold f. case_decide as Hr.
      * unfold m. rewrite stbytes_in by (unfold PGSIZE in *; divmod_lia). f_equal. unfold PGSIZE in *. divmod_lia.
      * unfold m. apply stbytes_out. unfold PGSIZE in *. divmod_lia.
    + rewrite decide_False by (unfold PGSIZE in *; divmod_lia).
      destruct (as_user _ _ _ _ _ A _ (Hus va' Hva') Hp') as (G1 & _). eapply (Hf _ _ G1); [|unfold in_page; lia].
      intros Ef. apply E. by apply (as_user_inj _ _ _ _ _ A); auto.
Qed.

Lemma wp_copyout_loop X pd l fuel : ∀ va buf Q s,
  kinv l s → as_ok X pd l (km s) → 0 ≤ va → va + Z.of_nat (length buf) ≤ KERNBASE → (length buf ≤ fuel)%nat →
  (∀ v, va ≤ v < va + Z.of_nat (length buf) → upage (km s) pd (v / PGSIZE)) →
  (∀ s', kinv l s' → as_ok X pd l (km s') → (∀ n, pageno n → pteval (km s') pd n = pteval (km s) pd n) →
     (∀ v, 0 ≤ v < KERNBASE → has PTE_P (pteval (km s) pd (v / PGSIZE)) = true →
        ubyte (km s') pd v = if decide (va ≤ v < va + Z.of_nat (length buf)) then bget0 buf (v - va) else ubyte (km s) pd v) →
     Q 0 s') →
  wp (copyout_loop fuel pd va buf) Q s.
Proof.
  induction fuel as [|fuel IH]; intros va buf Q s K A Hva Hend Hf Hup HQ; cbn [copyout_loop];
    (destruct (Z.ltb_spec 0 (Z.of_nat (length buf))) as [Hlt|Hge]; [|wp_steps; apply HQ; try done;
      intros v Hv Hp; rewrite decide_False by lia; done]).
  - lia.
  - destruct (Hup va ltac:(lia)) as [Hp HpU]. rewrite PGROUNDDOWN_page by (unfold KERNBASE in *; lia).
    set (va0 := PGSIZE * (va / PGSIZE)). assert (va0 / PGSIZE = va / PGSIZE) as En by (unfold va0, PGSIZE; divmod_lia).
    assert (va - va0 = va mod PGSIZE) as Em by (unfold va0, PGSIZE; divmod_lia). rewrite Em.
    wp_steps. eapply (wp_uva2ka X); [exact A | unfold va0, KERNBASE, PGSIZE in *; divmod_lia | |].
    { rewrite En. by apply present_table. }
    rewrite En, Hp, HpU. cbn [andb]. pose proof (Z.mod_pos_bound va PGSIZE ltac:(done)) as Hvm.
    destruct (as_user _ _ _ _ _ A (va / PGSIZE)) as ((_ & _ & F1) & _); [unfold user, KERNBASE, PGSIZE in *; change (2 ^ 19) with 524288; divmod_lia | done |].
    rewrite (proj2 (Z.eqb_neq _ 0)) by (unfold KERNBASE in *; lia). unfold upd_km. cbv zeta. wp_steps.
    set (n := Z.min (PGSIZE - va mod PGSIZE) (Z.of_nat (length buf))).
    assert (Z.of_nat (length (take (Z.to_nat n) buf)) = n) as Hn by (rewrite length_take; unfold n; lia).
    destruct (store_user X pd l s va (take (Z.to_nat n) buf) K A ltac:(lia) Hp ltac:(unfold n in *; lia)) as (K1 & A1 & P1 & B1).
    set (m := stbytes _ _ _) in *. rewrite Hn in B1.
    assert (∀ v, va ≤ v < va + Z.of_nat (length buf) → pageno (v / PGSIZE)) as Hpn.
    { intros v Hv. apply page_pageno. unfold KERNBASE in *. lia. }
    assert (u32 (va0 + PGSIZE) = va + (PGSIZE - va mod PGSIZE)) as -> by (rewrite u32_id; unfold va0, KERNBASE, PGSIZE in *; divmod_lia).
    destruct (decide (n = Z.of_nat (length buf))) as [E|E].
    + rewrite (drop_ge buf) by lia. destruct fuel; cbn [copyout_loop length]; wp_steps; apply HQ; try done;
        intros v Hv Hpv; simpl; rewrite B1, E by done; repeat case_decide; try lia; try done; by rewrite take_ge by lia.
    + assert (PGSIZE - va mod PGSIZE = n) as -> by (unfold n in *; lia).
      assert (length (drop (Z.to_nat n) buf) = (length buf - Z.to_nat n)%nat) as Hd by apply length_drop.
      eapply (IH (va + n) (drop (Z.to_nat n) buf) Q (set_km m s)); rewrite ?Hd; try done; try lia.
      * intros v Hv. unfold upage. simpl. rewrite P1 by (apply Hpn; lia). apply Hup. lia.
      * intros s2 K2 A2 P2 B2. simpl in P2, B2. apply HQ; try done.
        -- intros j Hj. rewrite P2, P1 by done. done.
        -- intros v Hv Hpv. rewrite B2 by (rewrite ?P1; try done; apply page_pageno; unfold KERNBASE in *; lia).
           rewrite B1 by done. repeat case_decide; try lia; try done.
           ++ unfold bget0. rewrite lookup_drop. do 2 f_equal. lia.
           ++ unfold bget0. by rewrite lookup_take_lt by lia.
Qed.

(** ** freevm *)

(** The pages of the first [k] slots of the directory are freed. *)
Record freed_tables (m0 : mem) (pd : Z) (l0 l : list Z) (s : kst) (k : Z) : Prop := {
  ft_kinv : kinv l s;
  ft_dir : ∀ i, 0 ≤ i < 1024 → npde (km s) pd i = npde m0 pd i;
  ft_free : ∀ q, q ∈ l ↔ q ∈ l0 ∨ ∃ i, 0 ≤ i < k ∧ has PTE_P (npde m0 pd i) = true ∧ tab m0 pd i = q;
  ft_frame : ∀ q x, is_page q → q ∉ l → in_page q x → km s x = m0 x
}.

Lemma wp_free_tables X pd l0 s0 Q : kinv l0 s0 → as_ok X pd l0 (km s0) →
  (∀ l s, freed_tables (km s0) pd l0 l s 1024 → Q tt s) →
  wp (foreach (seq 0 (Z.to_nat NPDENTRIES)) (λ i, e ← load (pd + 4 * Z.of_nat i);
    when (has PTE_P e) (kfree kend (P2V (PTE_ADDR e))))) Q s0.
Proof.
  intros K A HQ. pose proof (as_pd _ _ _ _ _ A) as (Hpd & _).
  apply (wp_foreach (λ li s, ∃ l, freed_tables (km s0) pd l0 l s (Z.of_nat (length li)))).
  - exists l0. split; [done | done | |done]. intros q. split; [by left|]. simpl. intros [|(i & ? & _)]; [done|lia].
  - intros l1 i l2 t Hl (l & F). pose proof F as [F1 F2 F3 F4].
    assert (length l1 = i ∧ (i < 1024)%nat) as [Hi1 Hi].
    { assert (seq 0 (Z.to_nat NPDENTRIES) !! length l1 = Some i) as Hlk by (by rewrite Hl, lookup_app_r, Nat.sub_diag by done).
      apply lookup_seq in Hlk as [? ?]. change (Z.to_nat NPDENTRIES) with 1024%nat in *. lia. }
    rewrite length_app. simpl. unfold load. wp_steps. fold (npde (km t) pd (Z.of_nat i)). rewrite F2 by lia.
    apply wp_when; intros Hh.
    + fold (frame (npde (km s0) pd (Z.of_nat i))). change (frame (npde (km s0) pd (Z.of_nat i))) with (tab (km s0) pd (Z.of_nat i)).
      destruct (as_tab _ _ _ _ _ A (Z.of_nat i) ltac:(lia) Hh) as (T1 & T2 & T3 & T4).
      eapply wp_kfree; [exact F1 | exact T1 | |].
      * rewrite F3. intros [|(j & Hj & Hhj & E)]; [done|].
        assert (j = Z.of_nat i) by (eapply (as_tab_inj _ _ _ _ _ A); try done; lia). lia.
      * intros s' K' Hf _. exists (tab (km s0) pd (Z.of_nat i) :: l). split; [done| | |].
        -- intros j Hj. rewrite <- F2 by done. apply ld32_ext. intros x Hx. apply Hf. intros Hx'. apply T3.
           eapply (page_disjoint kend _ pd x); try done. unfold in_page, PGSIZE. lia.
        -- intros q. rewrite elem_of_cons, F3. split.
           ++ intros [->|[|(j & Hj & ?)]]; [right; exists (Z.of_nat i); split; [lia|done] | by left | right; exists j; split; [lia|done]].
           ++ intros [|(j & Hj & Hhj & E)]; [by right; left|]. destruct (decide (j = Z.of_nat i)) as [->|]; [by left|].
              right; right. exists j. split; [lia|done].
        -- intros q x Hq Hn Hx. rewrite elem_of_cons in Hn. rewrite Hf; [by apply (F4 q); tauto|].
           intros Hx'. apply Hn. left. by eapply (page_disjoint kend q _ x).
    + exists l. split; [done | done | |done]. intros q. rewrite F3. split; (intros [|(j & Hj & Hhj & E)]; [by left|right; exists j]); [split; [lia|done]|].
      assert (j ≠ Z.of_nat i) by congruence. split; [lia|done].
  - intros t (l & F). rewrite length_seq in F. by eapply HQ.
Qed.

(** [s'] has all pages of the address space [pd] of [s] on its free list. *)
Record released (pd : Z) (l : list Z) (s : kst) (l' : list Z) (s' : kst) : Prop := {
  rl_kinv : kinv l' s';
  rl_free : ∀ q, q ∈ l' ↔ q ∈ l ∨ owned (km s) pd q;
  rl_frame : ∀ q x, is_page q → q ∉ l' → in_page q x → km s' x = km s x
}.

Lemma released_grow X pd l s l1 s1 l2 s2 : grow none X pd l s l1 s1 → released pd l1 s1 l2 s2 → released pd l s l2 s2.
Proof.
  intros G [K2 Hl2 Hf2]. split; [done| |].
  - intros q. rewrite Hl2, (gw_pool _ _ _ _ _ _ _ _ G). unfold none. tauto.
  - intros q x Hq Hn Hx. rewrite (Hf2 q) by done. apply (gw_frame _ _ _ _ _ _ _ _ G q); try done.
    + intros H. apply Hn, Hl2, (gw_pool _ _ _ _ _ _ _ _ G). by left.
    + intros H. apply Hn, Hl2, (gw_pool _ _ _ _ _ _ _ _ G). right; left. by left.
Qed.

Lemma wp_freevm X pd l Q s : kinv l s → as_ok X pd l (km s) →
  (∀ l' s', released pd l s l' s' → Q tt s') →
  wp (freevm kend pd) Q s.
Proof.
  intros K A HQ. pose proof (as_pd _ _ _ _ _ A) as (Hpd & _).
  assert (pd ≠ 0) as Hz by (destruct Hpd as (? & ? & ?); unfold KERNBASE in *; lia).
  unfold freevm. rewrite (proj2 (Z.eqb_neq _ 0)) by done. wp_steps.
  eapply (wp_deallocuvm kend Hkend X); [done | done | unfold KERNBASE; lia | lia | unfold KERNBASE; lia |].
  change (npages 0) with 0. change (npages KERNBASE) with (2 ^ 19). intros _ l1 s1 U. pose proof U as [U1 U2 U3 U4 U5 U6 U7].
  wp_steps. eapply (wp_free_tables X); [exact U1 | exact U2 |]. intros l2 s2 [F1 F2 F3 F4].
  assert (∀ q, q ∈ l2 ↔ q ∈ l ∨ (owned (km s) pd q ∧ q ≠ pd)) as Hl2.
  { intros q. rewrite F3, U6. split.
    - intros [[|(n & Hn & Hh & <-)]|(i & Hi & Hh & <-)]; [by left| |].
      + right. split; [right; by exists n|]. by apply (as_user _ _ _ _ _ A).
      + rewrite U5 in Hh by done. unfold tab. rewrite U5 by done. fold (tab (km s) pd i).
        right. split; [left; right; eauto|]. by apply (as_tab _ _ _ _ _ A).
    - intros [|[[[->|(i & Hi & Hh & <-)]|(n & Hn & Hh & <-)] Hne]]; [by left; left | done | |].
      + right. exists i. unfold tab. rewrite U5 by done. done.
      + left; right. by exists n. }
  eapply wp_kfree; [exact F1 | exact Hpd | |].
  - rewrite Hl2. intros [Hin|[_ ?]]; [|done]. destruct (as_pd _ _ _ _ _ A) as (_ & Hno & _). by apply Hno.
  - intros s3 K3 Hf _. apply (HQ (pd :: l2) s3). split; [done| |].
    + intros q. rewrite elem_of_cons, Hl2. destruct (decide (q = pd)) as [->|]; [split; [intros _; right; by left; left | by left] | tauto].
    + intros q x Hq Hn Hx. rewrite elem_of_cons in Hn. assert (q ∉ l2) as Hn2 by tauto.
      rewrite Hf by (intros Hx'; apply Hn; left; by eapply (page_disjoint kend q pd x)).
      rewrite (F4 q) by done. apply (U7 q); [done | | | done].
      * intros H1. apply Hn2, F3. by left.
      * intros H1. apply Hn2, Hl2. right. split; [by left | tauto].
Qed.

(** The pages of an address space with no user page at [k] or above, in a list. *)
Lemma owned_list m pd k : 0 ≤ k → (∀ n, user n → k ≤ n → has PTE_P (pteval m pd n) = false) →
  ∃ L, Z.of_nat (length L) = 1025 + k ∧ ∀ q, owned m pd q → q ∈ L.
Proof.
  intros Hk Hno. exists (pd :: (tab m pd <$> seqZ 0 1024) ++ ((λ n, frame (pteval m pd n)) <$> seqZ 0 k)). split.
  - cbn [length]. rewrite length_app, !length_fmap, !length_seqZ. lia.
  - intros q [[->|(i & Hi & Hh & <-)]|(n & Hn & Hh & <-)]; [by left| |]; right; apply elem_of_app; [left|right].
    + apply list_elem_of_fmap_2, elem_of_seqZ. lia.
    + apply (list_elem_of_fmap_2 (λ n, frame (pteval m pd n))). apply elem_of_seqZ. unfold user in Hn.
      destruct (decide (k ≤ n)) as [Hkn|]; [rewrite Hno in Hh; done | lia].
Qed.

(** The free pages and those of the address space fit a list of [k]. *)
Definition exhausted (pd : Z) (l : list Z) (s : kst) (k : Z) : Prop :=
  ∃ L, Z.of_nat (length L) ≤ k ∧ ∀ q, q ∈ l ∨ owned (km s) pd q → q ∈ L.

Lemma exhausted_length pd l s k : kinv l s → exhausted pd l s k → Z.of_nat (length l) ≤ k.
Proof.
  intros K (L & HL & Hq). assert (length l ≤ length L)%nat; [|lia]. apply submseteq_length, NoDup_submseteq; [apply (ki_nodup _ _ _ K)|]. auto.
Qed.

Lemma exhausted_grow X pd l s l' s' k : grow none X pd l s l' s' → exhausted pd l' s' k → exhausted pd l s k.
Proof.
  intros G (L & HL & Hq). exists L. split; [done|]. intros q Hx. apply Hq, (gw_pool _ _ _ _ _ _ _ _ G). unfold none. tauto.
Qed.

(** ** setupkvm *)

Definition seg_lo (k : Z * Z * Z * Z) : Z := let '(virt, _, _, _) := k in virt / PGSIZE.
Definition seg_len (k : Z * Z * Z * Z) : Z := let '(_, ps, pe, _) := k in u32 (pe - ps) / PGSIZE.
Definition in_seg (k : Z * Z * Z * Z) (n : Z) : Prop := seg_lo k ≤ n < seg_lo k + seg_len k.
Definition seg_pte (k : Z * Z * Z * Z) (n : Z) : Z :=
  let '(_, ps, _, perm) := k in entry (u32 (ps + PGSIZE * (n - seg_lo k))) perm.

#[global] Instance in_seg_dec k n : Decision (in_seg k n).
Proof. unfold in_seg. apply _. Defined.

(** The entry of page [n] in a page table with the segments [ks], and [d]
    elsewhere. *)
Fixpoint kpte (ks : list (Z * Z * Z * Z)) (d : Z → Z) (n : Z) : Z :=
  match ks with
  | [] => d n
  | k :: ks => if decide (in_seg k n) then seg_pte k n else kpte ks d n
  end.

(** A segment of whole pages in the kernel's half. *)
Definition seg_ok (k : Z * Z * Z * Z) : Prop :=
  let '(virt, ps, pe, perm) := k in
  virt mod PGSIZE = 0 ∧ KERNBASE ≤ virt ∧ 0 < u32 (pe - ps) ∧ u32 (pe - ps) mod PGSIZE = 0 ∧
  virt + u32 (pe - ps) ≤ 2 ^ 32 ∧ 0 ≤ ps < 2 ^ 32.

Fixpoint segs_apart (ks : list (Z * Z * Z * Z)) : Prop :=
  match ks with
  | [] => True
  | k :: ks => seg_ok k ∧ (∀ k' n, k' ∈ ks → in_seg k n → ¬ in_seg k' n) ∧ segs_apart ks
  end.

Lemma segs_ok ks k : segs_apart ks → k ∈ ks → seg_ok k.
Proof.
  induction ks as [|k' ks IH]; [intros _ Hk; by apply elem_of_nil in Hk|]. intros (H1 & _ & H2) Hk.
  apply elem_of_cons in Hk as [->|Hk]; auto.
Qed.

Lemma seg_kernel k n : seg_ok k → in_seg k n → pageno n ∧ ¬ user n.
Proof.
  destruct k as [[[virt ps] pe] perm]. intros (H1 & H2 & H3 & H4 & H5 & H6). unfold in_seg, seg_lo, seg_len, pageno, user.
  unfold KERNBASE, PGSIZE in *. change (2 ^ 32) with 4294967296 in *. change (2 ^ 20) with 1048576. change (2 ^ 19) with 524288.
  intros. split; divmod_lia.
Qed.

Lemma kpte_out ks d n : (∀ k, k ∈ ks → ¬ in_seg k n) → kpte ks d n = d n.
Proof.
  induction ks as [|k ks IH]; intros Hn; [done|]. simpl. rewrite decide_False by (apply Hn; by left).
  apply IH. intros k' Hk'. apply Hn. by right.
Qed.

Lemma kpte_ext ks d d' n : d n = d' n → kpte ks d n = kpte ks d' n.
Proof. intros E. induction ks as [|k ks IH]; [done|]. simpl. by rewrite IH. Qed.

Lemma wp_mappages_seg X pd virt ps pe perm l Q s : seg_ok (virt, ps, pe, perm) →
  kinv l s → as_ok X pd l (km s) →
  (∀ n, in_seg (virt, ps, pe, perm) n → has PTE_P (pteval (km s) pd n) = false) →
  (∀ s', grow none X pd l s [] s' → (∀ n, user n → pteval (km s') pd n = pteval (km s) pd n) → Q (-1) s') →
  (∀ l' s', grow none X pd l s l' s' →
     (∀ n, pageno n → pteval (km s') pd n = kpte [(virt, ps, pe, perm)] (pteval (km s) pd) n) → Q 0 s') →
  wp (mappages pd virt (u32 (pe - ps)) ps perm) Q s.
Proof.
  intros (H1 & H2 & H3 & H4 & H5 & H6) K A Hno HQ0 HQ. unfold in_seg, seg_lo, seg_len in Hno. unfold mappages.
  set (size := u32 (pe - ps)) in *. pose proof (u32_range (pe - ps)) as Hsz. fold size in Hsz.
  assert (u32 (virt + size - 1) = virt + size - 1) as E1 by (apply u32_id; unfold KERNBASE in *; lia).
  rewrite E1, !PGROUNDDOWN_page by (unfold KERNBASE in *; lia).
  set (k := Z.to_nat (size / PGSIZE - 1)).
  assert (Z.of_nat k = size / PGSIZE - 1) as Hk by (unfold k, PGSIZE in *; divmod_lia).
  replace (PGSIZE * (virt / PGSIZE)) with virt by (unfold PGSIZE in *; divmod_lia).
  replace (PGSIZE * ((virt + size - 1) / PGSIZE)) with (virt + PGSIZE * Z.of_nat k)
    by (rewrite Hk; unfold PGSIZE in *; divmod_lia).
  replace (Z.to_nat (u32 (virt + PGSIZE * Z.of_nat k - virt) / PGSIZE)) with k.
  2: { rewrite u32_id by (rewrite Hk; unfold PGSIZE in *; divmod_lia). rewrite Hk. unfold k, PGSIZE in *. f_equal. divmod_lia. }
  eapply (wp_mappages_kernel kend X); [exact K | exact A | exact H1 | exact H2 | | exact H6 | | |].
  - rewrite Hk. unfold PGSIZE in *. divmod_lia.
  - intros j Hj. apply Hno. lia.
  - intros s' G Hu. apply HQ0; [done|]. intros n Hn. apply Hu; [by apply user_pageno|]. left.
    unfold user, KERNBASE, PGSIZE in *. change (2 ^ 19) with 524288 in *. divmod_lia.
  - intros l' s' G Hm _. eapply (HQ l' s'); [exact G|]. intros n Hn. rewrite Hm by done. simpl. unfold in_seg, seg_lo, seg_len. fold size.
    repeat case_decide; try lia; done.
Qed.

Lemma wp_setupkvm_loop X pd ks : ∀ l s Q, segs_apart ks → kinv l s → as_ok X pd l (km s) →
  (∀ k n, k ∈ ks → in_seg k n → has PTE_P (pteval (km s) pd n) = false) →
  (∀ n, user n → has PTE_P (pteval (km s) pd n) = false) →
  (∀ l' s', released pd l s l' s' → exhausted pd l s 1025 → Q 0 s') →
  (∀ l' s', grow none X pd l s l' s' → (∀ n, pageno n → pteval (km s') pd n = kpte ks (pteval (km s) pd) n) → Q pd s') →
  wp (setupkvm_loop kend ks pd) Q s.
Proof.
  induction ks as [|[[[virt ps] pe] perm] ks IH]; intros l s Q Hap K A Hno Hus HQ0 HQ; cbn [setupkvm_loop].
  - wp_steps. apply (HQ l s); [by apply grow_refl | done].
  - destruct Hap as (Hok & Hap & Haps). wp_steps.
    eapply (wp_mappages_seg X pd virt ps pe perm l); [exact Hok | exact K | exact A | intros n Hn; eapply Hno; [by left | exact Hn] | |].
    + intros s1 G Hu1. cbn. wp_steps. eapply (wp_freevm X pd []); [apply (gw_kinv _ _ _ _ _ _ _ _ G) | apply (gw_ok _ _ _ _ _ _ _ _ G) |].
      intros l' s' R. wp_steps. apply (HQ0 l' s'); [by eapply released_grow|]. eapply exhausted_grow; [exact G|].
      destruct (owned_list (km s1) pd 0) as (L & HL & Hq); [lia | intros n Hn _; rewrite Hu1 by done; by apply Hus|].
      exists L. split; [lia|]. intros q [Hx|]; [by apply elem_of_nil in Hx | by apply Hq].
    + intros l1 s1 G Hm. cbn. simpl in Hm. eapply (IH l1 s1); [exact Haps | apply (gw_kinv _ _ _ _ _ _ _ _ G) | apply (gw_ok _ _ _ _ _ _ _ _ G) | | | |].
      * intros k n Hk Hn. assert (pageno n) as Hpn by (eapply seg_kernel; [by eapply segs_ok | exact Hn]). rewrite Hm, decide_False; [eapply Hno; [by right | exact Hn] | | done].
        intros Hn'. by eapply Hap.
      * intros n Hn. rewrite Hm, decide_False; [by apply Hus | | by apply user_pageno]. intros Hs. by apply seg_kernel in Hs as [_ ?].
      * intros l' s' R Ex. apply (HQ0 l' s'); [by eapply released_grow | by eapply exhausted_grow].
      * intros l2 s2 G2 Hm2. apply (HQ l2 s2); [eapply grow_iff; [|by eapply grow_trans]; intros q; unfold none; tauto|].
        intros n Hn. rewrite Hm2 by done. simpl. case_decide as Hin.
        -- rewrite kpte_out by (intros k Hk; by eapply Hap). by rewrite Hm, decide_True.
        -- apply kpte_ext. by rewrite Hm, decide_False.
Qed.

Context (Hdata : kdata mod PGSIZE = 0 ∧ KERNLINK < kdata < KERNBASE + PHYSTOP).

Lemma V2P_data : V2P kdata = kdata - KERNBASE ∧ u32 (V2P kdata - V2P KERNLINK) = kdata - KERNLINK ∧
  u32 (PHYSTOP - V2P kdata) = KERNBASE + PHYSTOP - kdata.
Proof.
  destruct Hdata as [D1 D2]. unfold V2P, KERNLINK, KERNBASE, PHYSTOP, EXTMEM in *.
  rewrite (u32_id (kdata - _)) by lia. change (u32 (2147483648 + 1048576 - 2147483648)) with 1048576.
  rewrite !u32_id by lia. lia.
Qed.

(** The page numbers of the segments. *)
Lemma kmap_ranges k n : k ∈ kmap kdata → in_seg k n → seg_ok k ∧
  ((k = (KERNBASE, 0, EXTMEM, PTE_W) ∧ 524288 ≤ n < 524544) ∨
   (k = (KERNLINK, V2P KERNLINK, V2P kdata, 0) ∧ 524544 ≤ n < kdata / 4096) ∨
   (k = (kdata, V2P kdata, PHYSTOP, PTE_W) ∧ kdata / 4096 ≤ n < 581632) ∨
   (k = (DEVSPACE, DEVSPACE, 0, PTE_W) ∧ 1040384 ≤ n < 1048576)).
Proof.
  intros Hk Hn. destruct V2P_data as (E1 & E2 & E3). destruct Hdata as [D1 D2]. unfold kmap in Hk.
  rewrite !elem_of_cons, elem_of_nil in Hk. destruct Hk as [->|[->|[->|[->|[]]]]]; unfold in_seg, seg_lo, seg_len, seg_ok in *.
  - change (u32 (EXTMEM - 0)) with 1048576 in *. unfold KERNBASE, PGSIZE in *. split; [divmod_lia|]. left. split; [done|]. divmod_lia.
  - rewrite E2 in *. change (V2P KERNLINK) with 1048576. unfold KERNLINK, KERNBASE, EXTMEM, PHYSTOP, PGSIZE in *.
    split; [divmod_lia|]. right; left. split; [done|]. divmod_lia.
  - rewrite E3 in *. rewrite E1. unfold KERNLINK, KERNBASE, EXTMEM, PHYSTOP, PGSIZE in *.
    split; [divmod_lia|]. right; right; left. split; [done|]. divmod_lia.
  - change (u32 (0 - DEVSPACE)) with 33554432 in *. unfold DEVSPACE, KERNBASE, PGSIZE in *. split; [divmod_lia|]. right; right; right. split; [done|]. divmod_lia.
Qed.

Lemma kmap_seg_ok k : k ∈ kmap kdata → seg_ok k.
Proof.
  intros Hk. destruct V2P_data as (E1 & E2 & E3). destruct Hdata as [D1 D2]. unfold kmap in Hk.
  apply (kmap_ranges k (seg_lo k) Hk). unfold in_seg, seg_lo, seg_len.
  rewrite !elem_of_cons, elem_of_nil in Hk. destruct Hk as [->|[->|[->|[->|[]]]]].
  - change (u32 (EXTMEM - 0)) with 1048576. unfold PGSIZE. divmod_lia.
  - rewrite E2. unfold KERNLINK, KERNBASE, EXTMEM, PGSIZE in *. divmod_lia.
  - rewrite E3. unfold KERNLINK, KERNBASE, EXTMEM, PHYSTOP, PGSIZE in *. divmod_lia.
  - change (u32 (0 - DEVSPACE)) with 33554432. unfold PGSIZE. divmod_lia.
Qed.

Lemma kmap_apart : segs_apart (kmap kdata).
Proof.
  assert (∀ k1 k2 n, k1 ∈ kmap kdata → k2 ∈ kmap kdata → in_seg k1 n → in_seg k2 n → k1 = k2) as Hd.
  { intros k1 k2 n H1 H2 Hn1 Hn2. destruct Hdata as [D1 D2]. unfold KERNLINK, KERNBASE, EXTMEM, PHYSTOP, PGSIZE in *.
    destruct (kmap_ranges k1 n H1 Hn1) as [_ [[-> R1]|[[-> R1]|[[-> R1]|[-> R1]]]]];
    destruct (kmap_ranges k2 n H2 Hn2) as [_ [[-> R2]|[[-> R2]|[[-> R2]|[-> R2]]]]]; try done; exfalso; divmod_lia. }
  assert (NoDup (kmap kdata)) as Hnd.
  { destruct Hdata as [D1 D2]. unfold KERNLINK, KERNBASE, EXTMEM, PHYSTOP, kmap in *.
    repeat constructor; rewrite ?elem_of_cons, ?elem_of_nil; intros ?; destruct_or?; simplify_eq; unfold KERNLINK, KERNBASE, DEVSPACE, EXTMEM in *; lia. }
  pose proof kmap_seg_ok as Hok. revert Hd Hnd Hok. generalize (kmap kdata).
  induction l as [|k ks IH]; intros Hd Hnd Hok; [done|]. apply list.NoDup_cons in Hnd as [Hk Hnd]. simpl. split_and!.
  - apply Hok. by left.
  - intros k' n Hk' Hn Hn'. apply Hk. rewrite (Hd k k' n); try done; [by left | by right].
  - apply IH; [|done|]; intros; [eapply Hd; try done; by right | apply Hok; by right].
Qed.

(** A zeroed page is an address space without entries. *)
Lemma zero_dir X p l m : is_page p → p ∉ l → (∀ q, X q → is_page q ∧ q ∉ l ∧ q ≠ p) →
  (∀ x, in_page p x → m x = 0) →
  as_ok X p l m ∧ (∀ n, pteval m p n = 0 ∨ ¬ pageno n) ∧ ∀ q, owned m p q ↔ q = p.
Proof.
  intros Hp Hl HX Hz. assert (∀ i, 0 ≤ i < 1024 → npde m p i = 0) as Hd.
  { intros i Hi. unfold npde, ld32. rewrite !Hz by (unfold in_page, PGSIZE; lia). done. }
  assert (∀ n, pageno n → pteval m p n = 0) as Hpt.
  { intros n Hn. destruct (pageno_dir n Hn) as [Hdn _]. unfold pteval. by rewrite Hd. }
  split_and!.
  - split.
    + split_and!; try done. intros Hx. by destruct (HX p Hx) as (_ & _ & ?).
    + intros i Hi. by rewrite Hd.
    + intros i j Hi Hj. by rewrite Hd.
    + intros n Hn. by rewrite Hpt by by apply user_pageno.
    + intros n n' Hn Hn'. by rewrite Hpt by by apply user_pageno.
    + intros q Hq. destruct (HX q Hq) as (? & ? & ?). done.
  - intros n. destruct (decide (0 ≤ n < 2 ^ 20)); [left; by apply Hpt | by right].
  - intros q. split; [|intros ->; by left; left].
    intros [[->|(i & Hi & Hh & _)]|(n & Hn & Hh & _)]; [done | by rewrite Hd in Hh | by rewrite Hpt in Hh by by apply user_pageno].
Qed.

(** [s'] has the page table [d], made of pages of [l], with the entries [f]. *)
Record newvm (X : Z → Prop) (l : list Z) (s : kst) (d : Z) (l' : list Z) (s' : kst) (f : Z → Z) : Prop := {
  nv_kinv : kinv l' s';
  nv_ok : as_ok X d l' (km s');
  nv_pool : ∀ q, q ∈ l' ∨ owned (km s') d q ↔ q ∈ l;
  nv_pte : ∀ n, pageno n → pteval (km s') d n = f n;
  nv_frame : ∀ q x, is_page q → q ∉ l → in_page q x → km s' x = km s x
}.

(** [s'] has the free pages of [s], in some order, and the bytes of the others. *)
Record unchanged (l : list Z) (s : kst) (l' : list Z) (s' : kst) : Prop := {
  uc_kinv : kinv l' s';
  uc_free : ∀ q, q ∈ l' ↔ q ∈ l;
  uc_frame : ∀ q x, is_page q → q ∉ l → in_page q x → km s' x = km s x
}.

Lemma released_new X l s d l1 s1 l2 s2 f : newvm X l s d l1 s1 f → released d l1 s1 l2 s2 → unchanged l s l2 s2.
Proof.
  intros [N1 N2 N3 N4 N5] [R1 R2 R3]. split; [done| |].
  - intros q. by rewrite R2, N3.
  - intros q x Hq Hl Hx. rewrite (R3 q); try done; [by apply (N5 q)|]. by rewrite R2, N3.
Qed.

Definition no_pte : Z → Z := λ _, 0.

Lemma wp_setupkvm X l Q s : kinv l s → (∀ q, X q → is_page q ∧ q ∉ l) →
  (∀ l' s', unchanged l s l' s' → Z.of_nat (length l) ≤ 1025 → Q 0 s') →
  (∀ d l' s', newvm X l s d l' s' (kpte (kmap kdata) no_pte) → Q d s') →
  wp (setupkvm kend kdata) Q s.
Proof.
  intros K HX HQ0 HQ. unfold setupkvm. wp_steps. eapply wp_kalloc; [exact K|]. intros r s1 Hr Em _.
  destruct l as [|p l]; destruct Hr as [-> K1].
  - cbn. wp_steps. apply (HQ0 [] s1); [|simpl; lia]. split; [done | done | by rewrite Em].
  - pose proof (ki_pages _ _ _ K) as Hps. pose proof (ki_nodup _ _ _ K) as Hnd.
    apply list.Forall_cons in Hps as [Hp Hps]. apply list.NoDup_cons in Hnd as [Hpl _].
    assert (p ≠ 0) by (destruct Hp as (? & ? & ?); unfold KERNBASE in *; lia).
    rewrite (proj2 (Z.eqb_neq p 0)) by done. unfold upd_km. wp_steps. change (DEVSPACE <? P2V PHYSTOP) with false. cbn [when].
    set (m := mem_fill (km s1) p 0 PGSIZE).
    assert (∀ q x, is_page q → q ≠ p → in_page q x → m x = km s x) as Hf
      by (intros q x Hq Hne Hx; rewrite <- Em; by apply (mem_fill_other kend p q)).
    destruct (zero_dir X p l m Hp Hpl) as (A & Hz & Ho).
    { intros q Hq. destruct (HX q Hq) as [? Hl]. rewrite elem_of_cons in Hl. tauto. }
    { intros x Hx. unfold m. by rewrite mem_fill_in. }
    assert (kinv l (set_km m s1)) as K2.
    { apply kinv_frame; [done|]. intros q Hq x Hx. rewrite Em. apply (Hf q); [by eapply (list.Forall_forall is_page l) | by intros -> | done]. }
    eapply (wp_setupkvm_loop X p _ l (set_km m s1)); [apply kmap_apart | exact K2 | exact A | | | |].
    + intros k n Hk Hn. simpl. destruct (Hz n) as [->|Hpn]; [done|]. destruct Hpn. by eapply seg_kernel; [apply kmap_seg_ok|].
    + intros n Hn. simpl. destruct (Hz n) as [->|Hpn]; [done|]. by destruct Hpn; apply user_pageno.
    + intros l' s' [R1 R2 R3] Ex. apply (HQ0 l' s').
      2: { destruct Ex as (L & HL & Hq). assert (length (p :: l) ≤ length L)%nat; [|lia].
           apply submseteq_length, NoDup_submseteq; [apply (ki_nodup _ _ _ K)|]. intros q Hx. apply Hq. simpl. rewrite Ho.
           apply elem_of_cons in Hx. tauto. }
      split; [done| |].
      * intros q. rewrite R2, elem_of_cons. simpl. rewrite Ho. tauto.
      * intros q x Hq Hl Hx. rewrite elem_of_cons in Hl. rewrite (R3 q); [apply (Hf q); [done | tauto | done] | done | | done].
        rewrite R2. simpl. rewrite Ho. tauto.
    + intros l' s' G Hm. apply (HQ p l' s'). split.
      * apply (gw_kinv _ _ _ _ _ _ _ _ G).
      * apply (gw_ok _ _ _ _ _ _ _ _ G).
      * intros q. rewrite (gw_pool _ _ _ _ _ _ _ _ G). simpl. rewrite Ho, elem_of_cons. unfold none. tauto.
      * intros n Hn. rewrite Hm by done. apply kpte_ext. simpl. by destruct (Hz n).
      * intros q x Hq Hl Hx. rewrite elem_of_cons in Hl. rewrite (gw_frame _ _ _ _ _ _ _ _ G q); try done; [simpl; apply (Hf q); [done | tauto | done] | tauto |].
        simpl. intros Hd. assert (owned m p q) as Hqo by by left. apply Ho in Hqo. tauto.
Qed.

(** ** copyuvm *)

(** Page [n] of [d] in [m] is a copy of page [n] of [pd] in [m0]. *)
Definition copied (m0 : mem) (pd : Z) (m : mem) (d n : Z) : Prop :=
  ∃ p, is_page p ∧ pteval m d n = entry (V2P p) (PTE_FLAGS (pteval m0 pd n)) ∧
    ∀ k, 0 ≤ k < PGSIZE → m (p + k) = m0 (frame (pteval m0 pd n) + k).

(** The child [d] has copies of the first [i] pages of [pd], and the kernel's
    entries. *)
Record copying (Xc : Z → Prop) (pd : Z) (l0 : list Z) (s0 : kst) (d : Z) (l : list Z) (s : kst) (i : Z) : Prop := {
  cp_new : newvm Xc l0 s0 d l s (pteval (km s) d);
  cp_done : ∀ n, 0 ≤ n < i → copied (km s0) pd (km s) d n;
  cp_rest : ∀ n, pageno n → i ≤ n → pteval (km s) d n = kpte (kmap kdata) no_pte n
}.

Lemma newvm_grow X l0 s0 d l s f l' s' : newvm X l0 s0 d l s f → grow none X d l s l' s' →
  newvm X l0 s0 d l' s' (pteval (km s') d).
Proof.
  intros [N1 N2 N3 N4 N5] [G1 G2 G3 G4 G5 G6]. split; try done.
  - intros q. rewrite G6. unfold none. specialize (N3 q). tauto.
  - intros q x Hq Hl Hx. rewrite (G5 q); [by apply (N5 q) | done | | | done].
    + intros H. apply Hl, N3. by left.
    + intros H. apply Hl, N3. right. by left.
Qed.

Lemma flags_addr e : PTE_ADDR (PTE_FLAGS e) = 0.
Proof. unfold PTE_ADDR, PTE_FLAGS. rewrite <- Z.land_assoc. by rewrite Z.land_0_r. Qed.

Lemma kpte_user n : user n → kpte (kmap kdata) no_pte n = 0.
Proof.
  intros Hu. rewrite kpte_out; [done|]. intros k Hk Hn. destruct (seg_kernel k n); [by apply kmap_seg_ok | done |]. done.
Qed.

(** A mapped page keeps its bytes while tables and other pages are added. *)
Lemma mapped_bytes E X pd l s l' s' n p perm x : user n → grow E X pd l s l' s' → as_ok X pd l (km s) → is_page p →
  PTE_ADDR perm = 0 → pteval (km s) pd n = entry (V2P p) perm → in_page p x → km s' x = km s x.
Proof.
  intros Hn G A Hp Hperm Ev Hx. assert (has PTE_P (pteval (km s) pd n) = true) as Hh by by rewrite Ev, entry_present.
  destruct (as_user _ _ _ _ _ A n Hn Hh) as (_ & H1 & H2 & _ & H3). rewrite Ev, (entry_frame kend) in H1, H2, H3 by done.
  apply (gw_frame _ _ _ _ _ _ _ _ G p); try done. intros [->|(i & Hi & Hhi & E')]; [done|]. by apply (H3 i).
Qed.

(** One more page copied. *)
Lemma copying_step Xc pd l0 s0 d p l1 s1 s2 m l3 s3 n : user n →
  (∀ q, owned (km s0) pd q → Xc q ∧ is_page q ∧ q ∉ l0) → has PTE_P (pteval (km s0) pd n) = true →
  copying Xc pd l0 s0 d (p :: l1) s1 n → kinv l1 s2 → km s2 = km s1 →
  m = mem_copy (km s1) p (frame (pteval (km s0) pd n)) PGSIZE →
  grow (λ q, q = p) Xc d l1 (set_km m s2) l3 s3 →
  (∀ j, pageno j → pteval (km s3) d j = if decide (j = n) then entry (V2P p) (PTE_FLAGS (pteval (km s0) pd n)) else pteval m d j) →
  copying Xc pd l0 s0 d l3 s3 (n + 1).
Proof.
  intros Hu Hown Hpres [Nv Dn Rs] K2 Em -> G3 Hpt. pose proof (nv_kinv _ _ _ _ _ _ _ Nv) as K1. pose proof (nv_ok _ _ _ _ _ _ _ Nv) as A1.
  pose proof (user_pageno n Hu) as Hn. set (src := frame (pteval (km s0) pd n)) in *.
  assert (∀ x, ¬ in_page p x → mem_copy (km s1) p src PGSIZE x = km s1 x) as Hf.
  { intros x Hx. apply mem_copy_out. unfold in_page in Hx. lia. }
  pose proof (grow_taken _ _ _ _ _ _ _ _ _ K1 A1 Em K2 Hf G3) as G4.
  pose proof (as_ok_take _ _ _ _ _ K1 A1) as A2. rewrite <- Em in A2, Hf.
  destruct (as_ok_page _ _ _ _ s2 _ K2 A2 Hf) as (_ & A3 & _ & Hpm & _). rewrite Em in Hpm, A3.
  destruct (as_others _ _ _ _ _ A3 p) as [Hp Hpl]; [by right|].
  destruct (Hown src) as (HXs & Hps & Hsl); [right; by exists n|]. split.
  - by eapply newvm_grow.
  - intros j Hj. destruct (decide (j = n)) as [->|E].
    + exists p. split; [done|]. split; [by rewrite Hpt, decide_True|]. intros k Hk.
      rewrite (gw_frame _ _ _ _ _ _ _ _ G3 p); [| done | done | | unfold in_page; lia].
      * simpl. rewrite mem_copy_in by lia. replace (p + k - p) with k by lia.
        apply (nv_frame _ _ _ _ _ _ _ Nv src); [done | done | unfold in_page; lia].
      * simpl. intros Hd. destruct (as_owned _ _ _ _ _ _ A3 (or_introl Hd)) as (_ & _ & Hx'). apply Hx'. by right.
    + destruct (Dn j ltac:(lia)) as (pj & Hpj & Ej & Hb). assert (user j) as Huj by (unfold user in *; lia).
      exists pj. split; [done|]. split.
      * rewrite Hpt, decide_False, Hpm by (done || by apply user_pageno). done.
      * intros k Hk. rewrite <- Hb by done.
        eapply (mapped_bytes none Xc d (p :: l1) s1 l3 s3 j pj); try done; [apply flags_addr | unfold in_page; lia].
  - intros j Hj Hlt. rewrite Hpt, decide_False, Hpm by (done || lia). apply Rs; [done|lia].
Qed.

Lemma copying_length Xc pd l0 s0 d l s i : kinv l0 s0 → copying Xc pd l0 s0 d l s i → 0 ≤ i →
  Z.of_nat (length l0) ≤ Z.of_nat (length l) + 1025 + i.
Proof.
  intros K0 [Nv Dn Rs] Hi. destruct (owned_list (km s) d i) as (L & HL & Hq); [done| |].
  - intros n Hn Hin. rewrite Rs, kpte_user by (done || by apply user_pageno). done.
  - assert (length l0 ≤ length (l ++ L))%nat as Hlen; [|rewrite length_app in Hlen; lia].
    apply submseteq_length, NoDup_submseteq; [apply (ki_nodup _ _ _ K0)|]. intros q Hx.
    apply (nv_pool _ _ _ _ _ _ _ Nv) in Hx as [|Hx]; apply elem_of_app; [by left | right; auto].
Qed.

(** The page [p] was set aside and could not be mapped. *)
Lemma wp_copy_undo Xc l0 s0 d p s f s3 Q : newvm Xc l0 s0 d [p] s f → ¬ Xc p →
  kinv [] s3 → as_ok (plus Xc p) d [] (km s3) → (∀ q, owned (km s3) d q ↔ owned (km s) d q) →
  (∀ x, ¬ in_page p x → km s3 x = km s x) → (∀ l' s', unchanged l0 s0 l' s' → Q 0 s') →
  wp (kfree kend p;; freevm kend d;; mret 0) Q s3.
Proof.
  intros Nv HX K3 A3 Ho Hf HQ. wp_steps. eapply (wp_kfree_aside Xc d p []); [done..|]. intros s4 K4 A4 Ho4 _ Hf4. wp_steps.
  assert (newvm Xc l0 s0 d [p] s4 (pteval (km s4) d)) as Nv4.
  { destruct Nv as [N1 N2 N3 N4 N5]. split; try done.
    - intros q. rewrite <- N3, Ho4, Ho. done.
    - intros q x Hq Hl Hx. assert (¬ in_page p x) as Hnx.
      { intros Hx'. apply Hl. apply N3. left. apply list_elem_of_singleton.
        eapply (page_disjoint kend q p x); try done. pose proof (ki_pages _ _ _ N1) as Hps. by apply list.Forall_cons in Hps as [? _]. }
      rewrite Hf4, Hf by done. by apply (N5 q). }
  eapply (wp_freevm Xc d [p]); [done..|]. intros l' s' R. wp_steps. apply (HQ l' s'). by eapply released_new.
Qed.

Lemma wp_copyuvm_loop X pd l0 s0 sz d Q fuel : ∀ i l s,
  kinv l0 s0 → as_ok X pd l0 (km s0) → copying (λ q, X q ∨ owned (km s0) pd q) pd l0 s0 d l s (i / PGSIZE) →
  i mod PGSIZE = 0 → 0 ≤ i → 0 ≤ sz ≤ KERNBASE → i / PGSIZE ≤ npages sz → npages sz - i / PGSIZE ≤ Z.of_nat fuel →
  (∀ n, 0 ≤ n < npages sz → has PTE_P (pteval (km s0) pd n) = true) →
  (∀ l' s', unchanged l0 s0 l' s' → Z.of_nat (length l0) ≤ 1026 + npages sz → Q 0 s') →
  (∀ l' s', copying (λ q, X q ∨ owned (km s0) pd q) pd l0 s0 d l' s' (npages sz) → Q d s') →
  wp (copyuvm_loop kend fuel pd d i sz) Q s.
Proof.
  induction fuel as [|fuel IH]; intros i l s K0 A0 C Him Hi Hsz Hle Hf Hpres HQ0 HQ; cbn [copyuvm_loop];
    (destruct (Z.ltb_spec i sz) as [Hlt|Hge]; [|wp_steps; apply (HQ l s);
      assert (npages sz = i / PGSIZE) as -> by (unfold npages, PGSIZE in *; divmod_lia); exact C]).
  - exfalso. unfold npages, PGSIZE in *. divmod_lia.
  - set (Xc := λ q, X q ∨ owned (km s0) pd q) in *. set (n := i / PGSIZE) in *. pose proof (npages_user sz Hsz) as Hnu.
    assert (user n ∧ n < npages sz) as [Hu Hn] by (unfold user, n, npages, KERNBASE, PGSIZE in *; change (2 ^ 19) with 524288 in *; divmod_lia).
    assert (∀ q, owned (km s0) pd q → Xc q ∧ is_page q ∧ q ∉ l0) as Hown.
    { intros q Hq. destruct (as_owned _ _ _ _ _ _ A0 Hq) as (? & ? & ?). split; [by right | done]. }
    pose proof (cp_new _ _ _ _ _ _ _ _ C) as Nv. pose proof (nv_kinv _ _ _ _ _ _ _ Nv) as K. pose proof (nv_ok _ _ _ _ _ _ _ Nv) as A.
    destruct (same_dir (km s0) (km s) pd) as (D1 & D2 & D3).
    { intros q x Hq Hx. destruct (Hown q (or_introl Hq)) as (_ & ? & ?). by apply (nv_frame _ _ _ _ _ _ _ Nv q). }
    pose proof (user_pageno n Hu) as Hpn. destruct (pageno_dir n Hpn) as [Hd Ht]. specialize (Hpres n) as Hp. specialize (Hp ltac:(unfold user in Hu; lia)).
    pose proof (present_table _ _ _ Hp) as Hh. wp_steps. apply wp_walk_find; [unfold KERNBASE in *; lia|]. fold n. rewrite D1, Hh by done.
    destruct (as_tab _ _ _ _ _ A0 _ Hd Hh) as ((_ & _ & T) & _).
    rewrite (proj2 (Z.eqb_neq _ 0)) by (unfold pteaddr; rewrite D2 by done; unfold KERNBASE in *; lia). unfold load. wp_steps.
    assert (ld32 (km s) (pteaddr (km s) pd n) = pteval (km s0) pd n) as ->.
    { rewrite <- D3 by done. unfold pteval. by rewrite D1, Hh. }
    rewrite Hp. cbn [negb]. wp_steps. eapply wp_kalloc; [exact K|]. intros r s2 Hr Em _.
    destruct l as [|p l1]; destruct Hr as [-> K2].
    + cbn. wp_steps. assert (newvm Xc l0 s0 d [] s2 (pteval (km s2) d)) as Nv2.
      { destruct Nv as [? ? ? ? ?]. split; rewrite ?Em; done. }
      eapply (wp_freevm Xc d []); [done | by rewrite Em |]. intros l' s' R. wp_steps. apply (HQ0 l' s'); [by eapply released_new|].
      pose proof (copying_length _ _ _ _ _ _ _ _ K0 C ltac:(unfold user in Hu; fold n; lia)) as HL. simpl in HL. unfold user in Hu. fold n in HL. lia.
    + pose proof (ki_pages _ _ _ K) as Hps. apply list.Forall_cons in Hps as [Hpp _].
      assert (p ≠ 0) by (destruct Hpp as (? & ? & ?); unfold KERNBASE in *; lia).
      rewrite (proj2 (Z.eqb_neq p 0)) by done. unfold upd_km. wp_steps. fold (frame (pteval (km s0) pd n)).
      pose proof (as_ok_take _ _ _ _ _ K A) as A2. rewrite <- Em in A2.
      assert (¬ Xc p) as HXp by (intros Hx; destruct (as_others _ _ _ _ _ A p Hx) as [_ Hx']; apply Hx'; by left).
      set (m := mem_copy (km s2) p (frame (pteval (km s0) pd n)) PGSIZE).
      assert (∀ x, ¬ in_page p x → m x = km s2 x) as Hf2 by (intros x Hx; apply mem_copy_out; unfold in_page in Hx; lia).
      destruct (as_ok_page _ _ _ _ s2 m K2 A2 Hf2) as (K3 & A3 & Ho3 & Hp3 & _).
      assert (has PTE_P (pteval m d n) = false) as Ha3.
      { rewrite Hp3, Em, (cp_rest _ _ _ _ _ _ _ _ C), kpte_user by (done || lia). done. }
      eapply (wp_mappages_user kend Xc); [exact K3 | exact A3 | exact HXp | apply flags_addr | exact Him | lia | exact Ha3 | |].
      * intros s3 G3 Em3 ->. cbn. eapply (wp_copy_undo Xc l0 s0 d p s); [exact Nv | exact HXp | apply (gw_kinv _ _ _ _ _ _ _ _ G3)
          | apply (gw_ok _ _ _ _ _ _ _ _ G3) | | | intros l' s' R; apply (HQ0 l' s' R)].
        { rewrite Em3. simpl. intros q. by rewrite Ho3, Em. }
        { rewrite Em3. simpl. intros x Hx. by rewrite Hf2, Em. }
        pose proof (copying_length _ _ _ _ _ _ _ _ K0 C ltac:(unfold user in Hu; fold n; lia)) as HL. simpl in HL. unfold user in Hu. lia.
      * intros l3 s3 G3 Hpt _. cbn. assert (u32 (i + PGSIZE) = i + PGSIZE) as -> by (apply u32_id; unfold KERNBASE, PGSIZE in *; lia).
        assert ((i + PGSIZE) / PGSIZE = n + 1) as En by (unfold n, PGSIZE; divmod_lia).
        eapply (IH (i + PGSIZE) l3 s3); rewrite ?En; try done; try lia; [| unfold PGSIZE in *; divmod_lia | unfold PGSIZE; lia].
        eapply (copying_step Xc pd l0 s0 d p l1 s s2 m l3 s3 n); [exact Hu | exact Hown | exact Hp | exact C | exact K2 | exact Em | unfold m; by rewrite Em | exact G3 | exact Hpt].
Qed.

(** C9. fork's copy of memory: where every page of the parent below sz is
    mapped, copyuvm returns a new page table with, for each of them, a page of
    its own with the same bytes and the same flags, and with the kernel's
    entries elsewhere, built from free pages, while no byte of the parent or of
    anything else changes; or, only if no more than 1026 pages beyond those of
    the parent's size were free, it returns 0 with the free pages as before. *)
Theorem copyuvm_copies X pd sz l s : kinv l s → as_ok X pd l (km s) → 0 ≤ sz ≤ KERNBASE →
  (∀ n, 0 ≤ n < npages sz → has PTE_P (pteval (km s) pd n) = true) →
  ∃ r s' l', copyuvm kend kdata pd sz s = Ok r s' ∧
    ((r = 0 ∧ unchanged l s l' s' ∧ Z.of_nat (length l) ≤ 1026 + npages sz) ∨
     (newvm (λ q, X q ∨ owned (km s) pd q) l s r l' s' (pteval (km s') r) ∧
      (∀ n, 0 ≤ n < npages sz → copied (km s) pd (km s') r n) ∧
      (∀ n, pageno n → npages sz ≤ n → pteval (km s') r n = kpte (kmap kdata) no_pte n))).
Proof.
  intros K A Hsz Hpres.
  assert (wp (copyuvm kend kdata pd sz) (λ r s', ∃ l', (r = 0 ∧ unchanged l s l' s' ∧ Z.of_nat (length l) ≤ 1026 + npages sz) ∨
     (newvm (λ q, X q ∨ owned (km s) pd q) l s r l' s' (pteval (km s') r) ∧
      (∀ n, 0 ≤ n < npages sz → copied (km s) pd (km s') r n) ∧
      (∀ n, pageno n → npages sz ≤ n → pteval (km s') r n = kpte (kmap kdata) no_pte n))) s) as Hw.
  2: { apply wp_elim in Hw as (r & s' & E & l' & H). eauto 10. }
  unfold copyuvm. wp_steps. eapply (wp_setupkvm (λ q, X q ∨ owned (km s) pd q) l); [exact K | | |].
  - intros q [Hq|Hq]; [by apply (as_others _ _ _ _ _ A)|]. destruct (as_owned _ _ _ _ _ _ A Hq) as (? & ? & ?). done.
  - intros l' s' U Hl. cbn. wp_steps. exists l'. left. split_and!; try done. pose proof (npages_user sz Hsz). lia.
  - intros d l1 s1 Nv. pose proof Nv as [N1 N2 N3 N4 N5].
    assert (d ≠ 0) by (destruct (as_pd _ _ _ _ _ N2) as ((? & ? & ?) & _); unfold KERNBASE in *; lia).
    rewrite (proj2 (Z.eqb_neq d 0)) by done.
    eapply (wp_copyuvm_loop X pd l s sz d _ _ 0 l1 s1); try done; try lia.
    + change (0 / PGSIZE) with 0. split; [by split | lia |]. intros n Hn _. by apply N4.
    + pose proof (npages_user sz Hsz). change (0 / PGSIZE) with 0. lia.
    + change (0 / PGSIZE) with 0. unfold npages, PGSIZE. divmod_lia.
    + intros l' s' U Hl. exists l'. by left.
    + intros l' s' [C1 C2 C3]. exists l'. by right.
Qed.

(** copyout writes user memory: where the pages of the range are mapped for
    the user, copyout(va, p, len) returns 0, the bytes at va on, as the process
    sees them, are those of p, and every other byte of the process and every
    entry of its page table is unchanged. *)
Theorem copyout_writes X pd va buf l s : kinv l s → as_ok X pd l (km s) → 0 ≤ va →
  va + Z.of_nat (length buf) ≤ KERNBASE →
  (∀ v, va ≤ v < va + Z.of_nat (length buf) → upage (km s) pd (v / PGSIZE)) →
  ∃ s', copyout pd va buf s = Ok 0 s' ∧ kinv l s' ∧ as_ok X pd l (km s') ∧
    (∀ n, pageno n → pteval (km s') pd n = pteval (km s) pd n) ∧
    ∀ v, 0 ≤ v < KERNBASE → has PTE_P (pteval (km s) pd (v / PGSIZE)) = true →
      ubyte (km s') pd v = if decide (va ≤ v < va + Z.of_nat (length buf)) then bget0 buf (v - va) else ubyte (km s) pd v.
Proof.
  intros K A Hva Hend Hup.
  assert (wp (copyout pd va buf) (λ r s', r = 0 ∧ kinv l s' ∧ as_ok X pd l (km s') ∧
    (∀ n, pageno n → pteval (km s') pd n = pteval (km s) pd n) ∧
    ∀ v, 0 ≤ v < KERNBASE → has PTE_P (pteval (km s) pd (v / PGSIZE)) = true →
      ubyte (km s') pd v = if decide (va ≤ v < va + Z.of_nat (length buf)) then bget0 buf (v - va) else ubyte (km s) pd v) s) as Hw.
  { by eapply (wp_copyout_loop X pd l). }
  apply wp_elim in Hw as (r & s' & E & -> & ?). eauto.
Qed.

(** copyout to an address whose page table does not exist reads through a
    null pointer: walkpgdir returns 0 and uva2ka does not test it. *)
Theorem copyout_null_pointer pd va buf s : 0 ≤ va < KERNBASE → buf ≠ [] →
  has PTE_P (npde (km s) pd (va / PGSIZE / 1024)) = false → copyout pd va buf s = Undef "null pointer".
Proof.
  clear Hkend Hdata. intros Hva Hb Hh. unfold KERNBASE in Hva. destruct buf as [|x buf]; [done|]. unfold copyout. cbn [length copyout_loop].
  rewrite (proj2 (Z.ltb_lt 0 _)) by lia. rewrite PGROUNDDOWN_page by lia. cbv zeta.
  assert (walkpgdir pd (PGSIZE * (va / PGSIZE)) false s = Ok 0 s) as E.
  { assert (PGSIZE * (va / PGSIZE) / PGSIZE = va / PGSIZE) as En by (unfold PGSIZE; divmod_lia).
    assert (wp (walkpgdir pd (PGSIZE * (va / PGSIZE)) false) (λ r s', r = 0 ∧ s' = s) s) as Hw.
    { apply wp_walk_find; [unfold PGSIZE; divmod_lia|]. rewrite En, Hh. done. }
    apply wp_elim in Hw as (r & s' & E & -> & ->). exact E. }
  unfold uva2ka, mbind, M_bind. by rewrite E.
Qed.

End user.

(** ** A small memory *)

Definition kend0 : Z := 0x80110000.
Definition kdata0 : Z := 0x80108000.
Definition pd0 : Z := 0x80200000.

(** Two free pages, and an empty page directory at [pd0]. *)
Definition mem0 : kst := Kst (st32 (λ _, 0) 0x80300000 0x80301000) false true 0x80300000.

Lemma mem0_ok : kinv kend0 [0x80300000; 0x80301000] mem0 ∧ as_ok kend0 none pd0 [0x80300000; 0x80301000] (km mem0) ∧
  ∀ n, pageno n → pteval (km mem0) pd0 n = 0.
Proof.
  assert (∀ p, p ∈ [pd0; 0x80300000; 0x80301000] → is_page kend0 p) as Hp.
  { intros p Hp. rewrite !elem_of_cons, elem_of_nil in Hp. unfold is_page, kend0, KERNBASE, PHYSTOP, PGSIZE, pd0 in *.
    destruct Hp as [->|[->|[->|[]]]]; (split; [reflexivity | lia]). }
  destruct (zero_dir kend0 none pd0 [0x80300000; 0x80301000] (km mem0)) as (A & Hz & _).
  - apply Hp. by left.
  - rewrite !elem_of_cons, elem_of_nil. unfold pd0. lia.
  - intros q [].
  - intros x Hx. unfold in_page, pd0, PGSIZE in Hx. simpl. rewrite st32_out by lia. done.
  - split_and!; [|done|].
    + split; [by vm_compute | | |done].
      * constructor; [apply Hp; by right; left | constructor; [apply Hp; by right; right; left | constructor]].
      * apply NoDup_cons_2; [rewrite list_elem_of_singleton; lia | apply NoDup_singleton].
    + intros n Hn. by destruct (Hz n).
Qed.

Lemma kend0_ok : KERNBASE < kend0.
Proof. reflexivity. Qed.

Lemma kdata0_ok : kdata0 mod PGSIZE = 0 ∧ KERNLINK < kdata0 < KERNBASE + PHYSTOP.
Proof. by vm_compute. Qed.

(** A process of one page. *)
Lemma one_page_process : ∃ l s, kinv kend0 l s ∧ as_ok kend0 none pd0 l (km s) ∧ upage (km s) pd0 0.
Proof.
  destruct mem0_ok as (K & A & Hz).
  assert (wp (allocuvm kend0 pd0 0 100) (λ _ s, ∃ l, kinv kend0 l s ∧ as_ok kend0 none pd0 l (km s) ∧ upage (km s) pd0 0) mem0) as Hw.
  { eapply (wp_allocuvm kend0 kend0_ok none); [exact K | exact A | lia | done | | |].
    - intros n Hn. change (npages 0) with 0 in Hn. change (npages 100) with 1 in Hn. rewrite Hz by (unfold pageno; lia). done.
    - intros l' s' [G N _]. exists l'. split; [apply (gw_kinv _ _ _ _ _ _ _ _ G)|]. split; [apply (gw_ok _ _ _ _ _ _ _ _ G)|].
      destruct (N 0) as (p & _ & _ & E & _); [by vm_compute|]. unfold upage. rewrite E. split; [apply entry_present|].
      unfold entry. rewrite has_u32, !has_lor by done. unfold UW. by rewrite orb_true_r.
    - intros l' s' _ Hb. vm_compute in Hb. done. }
  apply wp_elim in Hw as (r & s & _ & l & H). eauto.
Qed.

Lemma allocuvm_grows_witness : ∃ s', allocuvm kend0 pd0 0 100 mem0 = Ok 100 s'.
Proof.
  destruct mem0_ok as (K & A & Hz).
  destruct (allocuvm_grows kend0 kend0_ok none pd0 0 100 _ mem0 K A ltac:(lia) ltac:(lia)) as (r & s' & E & Hr).
  - intros n Hn. change (npages 0) with 0 in Hn. change (npages 100) with 1 in Hn. rewrite Hz by (unfold pageno; lia). done.
  - change (KERNBASE <=? 100) with false in Hr. change (100 <? 0) with false in Hr. cbv iota in Hr.
    destruct Hr as (l' & [[-> _]|(_ & _ & Hb)]); [exists s'; exact E | vm_compute in Hb; done].
Defined.

Lemma deallocuvm_shrinks_witness : ∃ s s', upage (km s) pd0 0 ∧ deallocuvm kend0 pd0 100 0 s = Ok 0 s' ∧
  has PTE_P (pteval (km s') pd0 0) = false.
Proof.
  destruct one_page_process as (l & s & K & A & Hu).
  destruct (deallocuvm_shrinks kend0 kend0_ok none pd0 100 0 l s K A ltac:(unfold KERNBASE; lia) ltac:(lia)) as (r & s' & E & -> & l' & U).
  exists s, s'. split; [exact Hu|]. split; [exact E|]. apply (un_absent _ _ _ _ _ _ _ _ _ U). by vm_compute.
Defined.

Lemma copyuvm_copies_witness : ∃ s r s', upage (km s) pd0 0 ∧ copyuvm kend0 kdata0 pd0 100 s = Ok r s'.
Proof.
  destruct one_page_process as (l & s & K & A & Hu).
  destruct (copyuvm_copies kend0 kdata0 kend0_ok kdata0_ok none pd0 100 l s K A ltac:(unfold KERNBASE; lia)) as (r & s' & l' & E & _).
  - intros n Hn. change (npages 100) with 1 in Hn. assert (n = 0) as -> by lia. apply Hu.
  - exists s, r, s'. split; [exact Hu | exact E].
Defined.

Lemma copyout_writes_witness : ∃ s s', copyout pd0 4000 [1; 2; 3] s = Ok 0 s' ∧ ubyte (km s') pd0 4001 = 2.
Proof.
  destruct one_page_process as (l & s & K & A & Hu).
  destruct (copyout_writes kend0 none pd0 4000 [1; 2; 3] l s K A ltac:(lia) ltac:(vm_compute; discriminate)) as (s' & E & _ & _ & _ & Hb).
  - intros v Hv. simpl in Hv. replace (v / PGSIZE) with 0 by (unfold PGSIZE; divmod_lia). exact Hu.
  - exists s, s'. split; [exact E|]. rewrite Hb; [reflexivity | unfold KERNBASE; lia | apply Hu].
Defined.

Lemma copyout_null_pointer_witness : copyout pd0 4000 [1] mem0 = Undef "null pointer".
Proof. apply (copyout_null_pointer pd0 4000 [1] mem0); [unfold KERNBASE; lia | discriminate | reflexivity]. Defined.
