(* ===== verification/Proc.v ===== *)
(** * Proc: processes and threads, proc.c

    The process table is a list of NPROC records with the fields of struct
    proc.  A pointer into the table is an index, NULL is None.  Trap frames and
    contexts are in the kernel stacks, pages of the memory of Kalloc.v; the
    page tables are those of Vm.v.  What the files and inodes of a process
    need of the layers below is the class [FileOps].

    The functions run in the process with index [me], which is what myproc()
    returns there.  [swtch] is what the rest of the machine does between the
    swtch of sched() and its return; the theorems hold for every such function
    that keeps their invariant.  The scheduler's own swtch is [run].  Floats
    are integers: every value that reaches a float is one.  cprintf has no
    effect on the state. *)

From Stdlib Require Import ZArith Lia Bool.
From stdpp Require Import base option list sets gmap strings numbers.
From S2P Require Import Prelude Cstring Kalloc Vm.

#[local] Open Scope string_scope.
#[local] Open Scope list_scope.
#[local] Open Scope Z_scope.

(** param.h *)
Definition NPROC : nat := 64.
Definition NOFILE : nat := 16.
Definition KSTACKSIZE : Z := 4096.

Inductive procstate := UNUSED | EMBRYO | SLEEPING | RUNNABLE | RUNNING | ZOMBIE.

#[export] Instance procstate_eq_dec : EqDecision procstate.
Proof. solve_decision. Defined.

(** struct proc of proc.h; [p_name] is the string before its terminator. *)
Record proc := Proc {
  p_sz : Z;
  p_pgdir : Z;
  p_kstack : Z;
  p_state : procstate;
  p_pid : Z;
  p_parent : option nat;
  p_tf : Z;
  p_context : Z;
  p_chan : chan;
  p_killed : Z;
  p_ofile : list (option nat);
  p_cwd : option nat;
  p_name : list Z;
  p_qLevel : Z;
  p_runTime : Z;
  p_round : Z;
  p_quantumtick : Z;
  p_checkMLFQ : Z;
  p_pass : Z;
  p_stride : Z;
  p_myPortion : Z;
  p_havet : Z;
  p_main_thread : option nat;
  p_t_flag : Z;
  p_tid : Z;
  p_retval : Z;
  p_ptid : Z;
  p_start : Z;
  p_end : Z;
  p_thread_count : Z;
  p_check_count : Z;
  p_indexing : Z
}.

Definition proc_eta (p : proc) : proc :=
  Proc (p_sz p) (p_pgdir p) (p_kstack p) (p_state p) (p_pid p) (p_parent p) (p_tf p) (p_context p) (p_chan p) (p_killed p) (p_ofile p) (p_cwd p) (p_name p) (p_qLevel p) (p_runTime p) (p_round p) (p_quantumtick p) (p_checkMLFQ p) (p_pass p) (p_stride p) (p_myPortion p) (p_havet p) (p_main_thread p) (p_t_flag p) (p_tid p) (p_retval p) (p_ptid p) (p_start p) (p_end p) (p_thread_count p) (p_check_count p) (p_indexing p).

Definition set_p_sz (v : Z) (p : proc) : proc := ltac:(with_field proc_eta p p_sz v).
Definition set_p_pgdir (v : Z) (p : proc) : proc := ltac:(with_field proc_eta p p_pgdir v).
Definition set_p_kstack (v : Z) (p : proc) : proc := ltac:(with_field proc_eta p p_kstack v).
Definition set_p_state (v : procstate) (p : proc) : proc := ltac:(with_field proc_eta p p_state v).
Definition set_p_pid (v : Z) (p : proc) : proc := ltac:(with_field proc_eta p p_pid v).
Definition set_p_parent (v : option nat) (p : proc) : proc := ltac:(with_field proc_eta p p_parent v).
Definition set_p_tf (v : Z) (p : proc) : proc := ltac:(with_field proc_eta p p_tf v).
Definition set_p_context (v : Z) (p : proc) : proc := ltac:(with_field proc_eta p p_context v).
Definition set_p_chan (v : chan) (p : proc) : proc := ltac:(with_field proc_eta p p_chan v).
Definition set_p_killed (v : Z) (p : proc) : proc := ltac:(with_field proc_eta p p_killed v).
Definition set_p_ofile (v : list (option nat)) (p : proc) : proc := ltac:(with_field proc_eta p p_ofile v).
Definition set_p_cwd (v : option nat) (p : proc) : proc := ltac:(with_field proc_eta p p_cwd v).
Definition set_p_name (v : list Z) (p : proc) : proc := ltac:(with_field proc_eta p p_name v).
Definition set_p_qLevel (v : Z) (p : proc) : proc := ltac:(with_field proc_eta p p_qLevel v).
Definition set_p_runTime (v : Z) (p : proc) : proc := ltac:(with_field proc_eta p p_runTime v).
Definition set_p_round (v : Z) (p : proc) : proc := ltac:(with_field proc_eta p p_round v).
Definition set_p_quantumtick (v : Z) (p : proc) : proc := ltac:(with_field proc_eta p p_quantumtick v).
Definition set_p_checkMLFQ (v : Z) (p : proc) : proc := ltac:(with_field proc_eta p p_checkMLFQ v).
Definition set_p_pass (v : Z) (p : proc) : proc := ltac:(with_field proc_eta p p_pass v).
Definition set_p_stride (v : Z) (p : proc) : proc := ltac:(with_field proc_eta p p_stride v).
Definition set_p_myPortion (v : Z) (p : proc) : proc := ltac:(with_field proc_eta p p_myPortion v).
Definition set_p_havet (v : Z) (p : proc) : proc := ltac:(with_field proc_eta p p_havet v).
Definition set_p_main_thread (v : option nat) (p : proc) : proc := ltac:(with_field proc_eta p p_main_thread v).
Definition set_p_t_flag (v : Z) (p : proc) : proc := ltac:(with_field proc_eta p p_t_flag v).
Definition set_p_tid (v : Z) (p : proc) : proc := ltac:(with_field proc_eta p p_tid v).
Definition set_p_retval (v : Z) (p : proc) : proc := ltac:(with_field proc_eta p p_retval v).
Definition set_p_ptid (v : Z) (p : proc) : proc := ltac:(with_field proc_eta p p_ptid v).
Definition set_p_start (v : Z) (p : proc) : proc := ltac:(with_field proc_eta p p_start v).
Definition set_p_end (v : Z) (p : proc) : proc := ltac:(with_field proc_eta p p_end v).
Definition set_p_thread_count (v : Z) (p : proc) : proc := ltac:(with_field proc_eta p p_thread_count v).
Definition set_p_check_count (v : Z) (p : proc) : proc := ltac:(with_field proc_eta p p_check_count v).
Definition set_p_indexing (v : Z) (p : proc) : proc := ltac:(with_field proc_eta p p_indexing v).

(** A zeroed slot of ptable. *)
Definition proc0 : proc :=
  Proc 0 0 0 UNUSED 0 None 0 0 ChNone 0 (replicate NOFILE None) None [] 0 0 0 0 0 0 0 0
    0 None 0 0 0 0 0 0 0 0 0.

(** struct cpu: the depth of pushcli, the interrupt flag before the first one,
    the flag now, the process running, and what switchuvm loads. *)
Record cpu := Cpu {
  c_ncli : Z; c_intena : bool; c_if : bool; c_proc : option nat; c_cr3 : Z; c_esp0 : Z
}.

(** The offsets of struct trapframe (x86.h) and its size, of struct context
    (proc.h) and its size. *)
Definition tf_eax : Z := 28.
Definition tf_es : Z := 40.
Definition tf_ds : Z := 44.
Definition tf_eip : Z := 56.
Definition tf_cs : Z := 60.
Definition tf_eflags : Z := 64.
Definition tf_esp : Z := 68.
Definition tf_ss : Z := 72.
Definition sizeof_trapframe : Z := 76.
Definition cx_eip : Z := 16.
Definition sizeof_context : Z := 20.

(** SEG_UCODE, SEG_UDATA, DPL_USER and FL_IF of mmu.h. *)
Definition USER_CS : Z := Z.lor (Z.shiftl 3 3) 3.
Definition USER_DS : Z := Z.lor (Z.shiftl 4 3) 3.
Definition FL_IF : Z := 0x200.

(** What proc.c calls of file.c, fs.c and log.c, on the state [W] of those
    layers and the page allocator, to which the last close of a pipe returns a
    page. *)
Class FileOps (W : Type) := {
  filedup : nat → M (kst * W) nat;
  fileclose : nat → M (kst * W) unit;
  idup : nat → M (kst * W) nat;
  iput : nat → M (kst * W) unit;
  begin_op : M (kst * W) unit;
  end_op : M (kst * W) unit;
  namei : list Z → M (kst * W) (option nat);
  iinit : M (kst * W) unit;
  initlog : M (kst * W) unit
}.

(** The laws proc.c relies on: filedup and idup return their argument. *)
Class FileLaws (W : Type) `{FileOps W} := {
  filedup_same : ∀ f w f' w', filedup f w = Ok f' w' → f' = f;
  idup_same : ∀ i w i' w', idup i w = Ok i' w' → i' = i
}.

(** ** The state *)

Record pst (W : Type) := Pst {
  pt_lock : bool;
  procs : list proc;
  initproc : option nat;
  nextpid : Z;
  nexttid : Z;
  totPortion : Z;
  passOfMlfq : Z;
  strideOfMlfq : Z;
  pcount : Z;
  numStride : Z;
  fork_first : bool;
  kpgdir : Z;
  ucpu : cpu;
  kmst : kst;
  files : W
}.
Arguments Pst {W}. Arguments pt_lock {W}. Arguments procs {W}. Arguments initproc {W}.
Arguments nextpid {W}. Arguments nexttid {W}. Arguments totPortion {W}.
Arguments passOfMlfq {W}. Arguments strideOfMlfq {W}. Arguments pcount {W}.
Arguments numStride {W}. Arguments fork_first {W}. Arguments kpgdir {W}. Arguments ucpu {W}.
Arguments kmst {W}. Arguments files {W}.

Definition pst_eta {W} (s : pst W) : pst W :=
  Pst (pt_lock s) (procs s) (initproc s) (nextpid s) (nexttid s) (totPortion s) (passOfMlfq s)
    (strideOfMlfq s) (pcount s) (numStride s) (fork_first s) (kpgdir s) (ucpu s) (kmst s)
    (files s).
Definition cpu_eta (c : cpu) : cpu :=
  Cpu (c_ncli c) (c_intena c) (c_if c) (c_proc c) (c_cr3 c) (c_esp0 c).

Definition set_c_ncli (v : Z) (c : cpu) : cpu := ltac:(with_field cpu_eta c c_ncli v).
Definition set_c_intena (v : bool) (c : cpu) : cpu := ltac:(with_field cpu_eta c c_intena v).
Definition set_c_if (v : bool) (c : cpu) : cpu := ltac:(with_field cpu_eta c c_if v).
Definition set_c_proc (v : option nat) (c : cpu) : cpu := ltac:(with_field cpu_eta c c_proc v).
Definition set_c_cr3 (v : Z) (c : cpu) : cpu := ltac:(with_field cpu_eta c c_cr3 v).
Definition set_c_esp0 (v : Z) (c : cpu) : cpu := ltac:(with_field cpu_eta c c_esp0 v).

(** The address passed to sleep and wakeup for a pointer to a process. *)
Definition chan_of (p : option nat) : chan := match p with Some i => ChProc i | None => ChNone end.

Definition is_state (st : procstate) (p : proc) : bool := bool_decide (p_state p = st).

Section state.
Context {W : Type}.

Definition set_pt_lock (v : bool) (s : pst W) : pst W := ltac:(with_field (@pst_eta W) s (@pt_lock W) v).
Definition set_procs (v : list proc) (s : pst W) : pst W := ltac:(with_field (@pst_eta W) s (@procs W) v).
Definition set_initproc (v : option nat) (s : pst W) : pst W := ltac:(with_field (@pst_eta W) s (@initproc W) v).
Definition set_nextpid (v : Z) (s : pst W) : pst W := ltac:(with_field (@pst_eta W) s (@nextpid W) v).
Definition set_nexttid (v : Z) (s : pst W) : pst W := ltac:(with_field (@pst_eta W) s (@nexttid W) v).
Definition set_totPortion (v : Z) (s : pst W) : pst W := ltac:(with_field (@pst_eta W) s (@totPortion W) v).
Definition set_passOfMlfq (v : Z) (s : pst W) : pst W := ltac:(with_field (@pst_eta W) s (@passOfMlfq W) v).
Definition set_strideOfMlfq (v : Z) (s : pst W) : pst W := ltac:(with_field (@pst_eta W) s (@strideOfMlfq W) v).
Definition set_pcount (v : Z) (s : pst W) : pst W := ltac:(with_field (@pst_eta W) s (@pcount W) v).
Definition set_numStride (v : Z) (s : pst W) : pst W := ltac:(with_field (@pst_eta W) s (@numStride W) v).
Definition set_fork_first (v : bool) (s : pst W) : pst W := ltac:(with_field (@pst_eta W) s (@fork_first W) v).
Definition set_kpgdir (v : Z) (s : pst W) : pst W := ltac:(with_field (@pst_eta W) s (@kpgdir W) v).
Definition set_ucpu (v : cpu) (s : pst W) : pst W := ltac:(with_field (@pst_eta W) s (@ucpu W) v).
Definition set_kmst (v : kst) (s : pst W) : pst W := ltac:(with_field (@pst_eta W) s (@kmst W) v).
Definition set_files (v : W) (s : pst W) : pst W := ltac:(with_field (@pst_eta W) s (@files W) v).

#[local] Notation P := (M (pst W)).

Definition proc_at (s : pst W) (i : nat) : proc := default proc0 (procs s !! i).
(** *p, an assignment through p, and the two views on the layers below. *)
Definition proc_of (i : nat) : P proc := gets (λ s, proc_at s i).
Definition upd (i : nat) (f : proc → proc) : P unit := modify (λ s, set_procs (alter f i (procs s)) s).
Definition upd_cpu (f : cpu → cpu) : P unit := modify (λ s, set_ucpu (f (ucpu s)) s).
Definition kvm {A} (m : M kst A) : P A := zoom kmst set_kmst m.
Definition fsys {A} (m : M (kst * W) A) : P A :=
  zoom (λ s, (kmst s, files s)) (λ w s, set_files (snd w) (set_kmst (fst w) s)) m.

(** for(p = ptable.proc; p < &ptable.proc[NPROC]; p++) *)
Definition for_procs (body : nat → P unit) : P unit := foreach (seq 0 NPROC) body.

(** The values a C int takes; beyond them ++ is undefined. *)
Definition INT_MAX : Z := 2 ^ 31 - 1.

(** ** Locking *)

Definition pushcli : P unit :=
  upd_cpu (λ c, let c' := if c_ncli c =? 0 then set_c_intena (c_if c) c else c in
                set_c_ncli (c_ncli c + 1) (set_c_if false c')).
Definition popcli : P unit :=
  c ← gets ucpu;
  if c_if c then panic "popcli - interruptible" else
  if c_ncli c - 1 <? 0 then panic "popcli" else
  upd_cpu (λ c, let n := c_ncli c - 1 in
                set_c_ncli n (if (n =? 0) && c_intena c then set_c_if true c else c)).

(** acquire(&ptable.lock) and release(&ptable.lock). *)
Definition acquire_pt : P unit :=
  pushcli;;
  l ← gets pt_lock;
  if l : bool then panic "acquire" else modify (set_pt_lock true).
Definition release_pt : P unit :=
  l ← gets pt_lock;
  if l : bool then modify (set_pt_lock false);; popcli else panic "release".

(** ** switchuvm and switchkvm of vm.c *)

Definition switchkvm : P unit :=
  k ← gets kpgdir; upd_cpu (set_c_cr3 (V2P k)).
Definition switchuvm (i : nat) : P unit :=
  p ← proc_of i;
  if p_kstack p =? 0 then panic "switchuvm: no kstack" else
  if p_pgdir p =? 0 then panic "switchuvm: no pgdir" else
  pushcli;;
  upd_cpu (λ c, set_c_cr3 (V2P (p_pgdir p)) (set_c_esp0 (p_kstack p + KSTACKSIZE) c));;
  popcli.

(** ** wakeup and kill *)

Definition wakeup1 (ch : chan) : P unit :=
  for_procs (λ i,
    p ← proc_of i;
    when (is_state SLEEPING p && bool_decide (p_chan p = ch)) (upd i (set_p_state RUNNABLE))).

Definition wakeup (ch : chan) : P unit :=
  acquire_pt;; wakeup1 ch;; release_pt.

Fixpoint kill_scan (l : list nat) (pid : Z) : P Z :=
  match l with
  | [] => release_pt;; mret (-1)
  | i :: l =>
      p ← proc_of i;
      if p_pid p =? pid then
        upd i (set_p_killed 1);;
        when (is_state SLEEPING p) (upd i (set_p_state RUNNABLE));;
        release_pt;;
        mret 0
      else kill_scan l pid
  end.
Definition kill (pid : Z) : P Z :=
  acquire_pt;; kill_scan (seq 0 NPROC) pid.

(** ** The MLFQ and stride fields *)

Definition priorityBoost : P unit :=
  acquire_pt;;
  for_procs (λ i,
    p ← proc_of i;
    when (p_checkMLFQ p =? 0)
      (upd i (λ p, set_p_quantumtick 0 (set_p_round 0 (set_p_runTime 0 (set_p_qLevel 0 p))))));;
  release_pt.

Definition getlev (p : option nat) : P Z :=
  match p with
  | None => mret (-1)
  | Some i => q ← proc_of i; mret (p_qLevel q)
  end.

Definition set_stride_value : P unit :=
  for_procs (λ i,
    p ← proc_of i;
    when (p_checkMLFQ p =? 1)
      (if p_myPortion p =? 0 then undef "division by zero"
       else upd i (set_p_stride (Z.quot 100 (p_myPortion p))));;
    tot ← gets totPortion;
    let d := u32 (100 - tot) in
    if d =? 0 then undef "division by zero" else modify (set_strideOfMlfq (100 / d))).

Definition min_pass (s : pst W) : Z :=
  foldl (λ m i, let p := proc_at s i in
                if (p_checkMLFQ p =? 1) && (p_pass p <? m) then p_pass p else m)
    (passOfMlfq s) (seq 0 NPROC).

Definition set_pass_value : P unit :=
  m ← gets min_pass;
  modify (λ s, set_passOfMlfq (passOfMlfq s - m) s);;
  for_procs (λ i,
    p ← proc_of i;
    when (p_checkMLFQ p =? 1) (upd i (set_p_pass (p_pass p - m)))).

Definition set_cpu_share (me : nat) (portion : Z) : P Z :=
  tot ← gets totPortion;
  if 80 <? u32 (tot + portion) then mret (-1) else
  acquire_pt;;
  modify (λ s, set_numStride (numStride s + 1) s);;
  modify (λ s, set_pcount (pcount s - 1) s);;
  upd me (λ p, set_p_myPortion portion (set_p_quantumtick 0 (set_p_qLevel (-1) (set_p_checkMLFQ 1 p))));;
  modify (λ s, set_totPortion (u32 (totPortion s + portion)) s);;
  set_stride_value;;
  set_pass_value;;
  release_pt;;
  mret 0.

End state.

Section proc.
Context {W : Type} `{FileOps W}.
#[local] Notation P := (M (pst W)).
(** end[] and data[] of the linker script, the addresses of trapret and
    forkret, and the bytes of initcode. *)
Context (kend kdata trapret forkret_addr : Z) (initcode : list Z).

(** ** allocproc and the first process *)

Definition find_unused (s : pst W) : option nat :=
  head (filter (λ i, is_state UNUSED (proc_at s i)) (seq 0 NPROC)).

Definition alloc_fields (pid : Z) (p : proc) : proc :=
  let p := set_p_pid pid (set_p_state EMBRYO p) in
  let p := set_p_runTime 0 (set_p_qLevel 0 p) in
  let p := set_p_myPortion 0 (set_p_stride 0 (set_p_pass 0 (set_p_checkMLFQ 0 p))) in
  let p := set_p_quantumtick 0 (set_p_round 0 p) in
  let p := set_p_ptid pid (set_p_t_flag 0 p) in
  set_p_indexing 0 (set_p_check_count 0 (set_p_thread_count 0 (set_p_havet 0 p))).

Definition allocproc : P (option nat) :=
  acquire_pt;;
  u ← gets find_unused;
  match u with
  | None => release_pt;; mret None
  | Some i =>
      pid ← gets nextpid;
      if pid =? INT_MAX then undef "signed overflow" else
      modify (set_nextpid (pid + 1));;
      upd i (alloc_fields pid);;
      modify (λ s, set_pcount (pcount s + 1) s);;
      release_pt;;
      k ← kvm kalloc;
      upd i (set_p_kstack k);;
      if k =? 0 then upd i (set_p_state UNUSED);; mret None else
      let sp := k + KSTACKSIZE - sizeof_trapframe in
      upd i (set_p_tf sp);;
      kvm (store (sp - 4) trapret);;
      let sp := sp - 4 - sizeof_context in
      upd i (set_p_context sp);;
      kvm (upd_km (λ m, mem_fill m sp 0 sizeof_context));;
      kvm (store (sp + cx_eip) forkret_addr);;
      mret (Some i)
  end.

(** A ushort of a trap frame. *)
Definition store16 (a v : Z) : M kst unit := upd_km (λ m, stbytes m a (le16 v)).

Definition slash : list Z := [47].
(** "initcode" *)
Definition initcode_name : list Z := [105; 110; 105; 116; 99; 111; 100; 101].

(** safestrcpy(name, s, sizeof(name)) *)
Definition name_of (s : list Z) : list Z := take 15 s.

(** kvmalloc of vm.c *)
Definition kvmalloc : P unit :=
  pgdir ← kvm (setupkvm kend kdata);
  modify (set_kpgdir pgdir);;
  switchkvm.

Definition userinit : P unit :=
  u ← allocproc;
  modify (set_initproc u);;
  match u with
  | None => undef "null pointer"
  | Some i =>
      pgdir ← kvm (setupkvm kend kdata);
      upd i (set_p_pgdir pgdir);;
      if pgdir =? 0 then panic "userinit: out of memory?" else
      kvm (inituvm pgdir initcode);;
      upd i (set_p_sz PGSIZE);;
      p ← proc_of i;
      let tf := p_tf p in
      kvm (upd_km (λ m, mem_fill m tf 0 sizeof_trapframe));;
      kvm (store16 (tf + tf_cs) USER_CS);;
      kvm (store16 (tf + tf_ds) USER_DS);;
      kvm (store16 (tf + tf_es) USER_DS);;
      kvm (store16 (tf + tf_ss) USER_DS);;
      kvm (store (tf + tf_eflags) FL_IF);;
      kvm (store (tf + tf_esp) PGSIZE);;
      kvm (store (tf + tf_eip) 0);;
      upd i (set_p_name (name_of initcode_name));;
      c ← fsys (namei slash);
      upd i (set_p_cwd c);;
      acquire_pt;;
      upd i (set_p_state RUNNABLE);;
      release_pt
  end.

Definition growproc (me : nat) (n : Z) : P Z :=
  p ← proc_of me;
  let sz := p_sz p in
  let finish sz := upd me (set_p_sz sz);; switchuvm me;; mret 0 in
  if 0 <? n then
    sz ← kvm (allocuvm kend (p_pgdir p) sz (u32 (sz + n)));
    if sz =? 0 then mret (-1) else finish sz
  else if n <? 0 then
    sz ← kvm (deallocuvm kend (p_pgdir p) sz (u32 (sz + n)));
    if sz =? 0 then mret (-1) else finish sz
  else finish sz.

(** ** fork *)

(** *np->tf = *p->tf *)
Definition copy_tf (np p : nat) : P unit :=
  q ← proc_of np; r ← proc_of p;
  kvm (upd_km (λ m, mem_copy m (p_tf q) (p_tf r) sizeof_trapframe)).

(** for(i = 0; i < NOFILE; i++) if(p->ofile[i]) np->ofile[i] = filedup(p->ofile[i]); *)
Definition dup_files (np p : nat) : P unit :=
  foreach (seq 0 NOFILE) (λ i,
    q ← proc_of p;
    match p_ofile q !! i with
    | Some (Some f) => f' ← fsys (filedup f); upd np (λ r, set_p_ofile (<[i := Some f']> (p_ofile r)) r)
    | _ => mret tt
    end).

(** np->cwd = idup(p->cwd) *)
Definition dup_cwd (np p : nat) : P unit :=
  q ← proc_of p;
  match p_cwd q with
  | None => undef "null pointer"
  | Some c => c' ← fsys (idup c); upd np (set_p_cwd (Some c'))
  end.

(** From the copy of the memory to the name: the same lines in fork and
    create_thread. *)
Definition copy_process (np p : nat) : P unit :=
  q ← proc_of p;
  upd np (λ r, set_p_parent (Some p) (set_p_sz (p_sz q) r));;
  copy_tf np p;;
  r ← proc_of np;
  kvm (store (p_tf r + tf_eax) 0);;
  dup_files np p;;
  dup_cwd np p;;
  q ← proc_of p;
  upd np (set_p_name (name_of (p_name q))).

Definition fork (me : nat) : P Z :=
  u ← allocproc;
  match u with
  | None => mret (-1)
  | Some np =>
      p ← proc_of me;
      pgdir ← kvm (copyuvm kend kdata (p_pgdir p) (p_sz p));
      upd np (set_p_pgdir pgdir);;
      if pgdir =? 0 then
        q ← proc_of np;
        kvm (kfree kend (p_kstack q));;
        upd np (λ q, set_p_state UNUSED (set_p_kstack 0 q));;
        mret (-1)
      else
        copy_process np me;;
        q ← proc_of np;
        let pid := p_pid q in
        acquire_pt;;
        upd np (set_p_state RUNNABLE);;
        release_pt;;
        mret pid
  end.

Definition create_thread (p : nat) : P Z :=
  u ← allocproc;
  match u with
  | None => mret (-1)
  | Some np =>
      q ← proc_of p;
      pgdir ← kvm (copyuvm kend kdata (p_pgdir q) (p_sz q));
      upd np (set_p_pgdir pgdir);;
      if pgdir =? 0 then
        q ← proc_of np;
        kvm (kfree kend (p_kstack q));;
        upd np (λ q, set_p_state UNUSED (set_p_kstack 0 q));;
        mret (-1)
      else
        copy_process np p;;
        q ← proc_of p;
        upd np (λ r, set_p_state RUNNABLE (set_p_ptid (p_pid q) (set_p_main_thread (Some p) r)));;
        mret 0
  end.

(** ** The context switch *)

Context (swtch : nat → P unit).

Definition sched (me : nat) : P unit :=
  l ← gets pt_lock;
  if negb l then panic "sched ptable.lock" else
  c ← gets ucpu;
  if negb (c_ncli c =? 1) then panic "sched locks" else
  p ← proc_of me;
  if is_state RUNNING p then panic "sched running" else
  if c_if c then panic "sched interruptible" else
  swtch me;;
  upd_cpu (set_c_intena (c_intena c)).

Definition yield (me : nat) : P Z :=
  acquire_pt;;
  upd me (set_p_state RUNNABLE);;
  sched me;;
  release_pt;;
  mret 0.

Definition thread_yield (me : nat) : P Z :=
  acquire_pt;;
  upd me (set_p_state RUNNABLE);;
  release_pt;;
  mret 0.

Definition forkret : P unit :=
  release_pt;;
  first ← gets fork_first;
  when first
    (modify (set_fork_first false);;
     fsys iinit;;
     fsys initlog).

(** The lock passed to sleep: ptable.lock, or another with its release and
    acquire. *)
Inductive slock := LkNull | LkPtable | LkOther (release acquire : P unit).

Definition sleep (me : nat) (ch : chan) (lk : slock) : P unit :=
  match lk with
  | LkNull => panic "sleep without lk"
  | LkPtable =>
      upd me (λ p, set_p_state SLEEPING (set_p_chan ch p));;
      sched me;;
      upd me (set_p_chan ChNone)
  | LkOther rel acq =>
      acquire_pt;; rel;;
      upd me (λ p, set_p_state SLEEPING (set_p_chan ch p));;
      sched me;;
      upd me (set_p_chan ChNone);;
      release_pt;; acq
  end.

(** ** exit and wait *)

(** Close all open files. *)
Definition close_files (me : nat) : P unit :=
  foreach (seq 0 NOFILE) (λ fd,
    p ← proc_of me;
    match p_ofile p !! fd with
    | Some (Some f) => fsys (fileclose f);; upd me (λ p, set_p_ofile (<[fd := None]> (p_ofile p)) p)
    | _ => mret tt
    end).

(** begin_op(); iput(curproc->cwd); end_op(); curproc->cwd = 0; *)
Definition put_cwd (me : nat) : P unit :=
  fsys begin_op;;
  p ← proc_of me;
  match p_cwd p with
  | None => undef "null pointer"
  | Some c => fsys (iput c)
  end;;
  fsys end_op;;
  upd me (set_p_cwd None).

(** Pass abandoned children to init. *)
Definition reparent (me : nat) : P unit :=
  for_procs (λ i,
    p ← proc_of i;
    when (bool_decide (p_parent p = Some me))
      (init ← gets initproc;
       upd i (set_p_parent init);;
       when (is_state ZOMBIE p) (wakeup1 (chan_of init)))).

Definition exit (me : nat) : P unit :=
  init ← gets initproc;
  if bool_decide (init = Some me) then panic "init exiting" else
  close_files me;;
  put_cwd me;;
  acquire_pt;;
  p ← proc_of me;
  wakeup1 (chan_of (p_parent p));;
  reparent me;;
  for_procs (λ k,
    p ← proc_of me;
    q ← proc_of k;
    when ((p_ptid q =? p_pid p) && negb (is_state UNUSED q)) (upd k (set_p_state ZOMBIE)));;
  p ← proc_of me;
  when (p_t_flag p =? 1)
    (for_procs (λ j,
       q ← proc_of j;
       when ((p_ptid p =? p_ptid q) || bool_decide (p_main_thread p = Some j))
         (upd j (set_p_killed 1))));;
  upd me (set_p_state ZOMBIE);;
  sched me;;
  panic "zombie exit".

(** The fields that wait and thread_join clear of the slot they free. *)
Definition clear_slot (p : proc) : proc :=
  set_p_state UNUSED (set_p_killed 0 (set_p_name [] (set_p_parent None (set_p_pid 0 p)))).

(** thread free *)
Definition free_threads (i : nat) : P unit :=
  for_procs (λ k,
    q ← proc_of k;
    when (bool_decide (p_main_thread q = Some i))
      (upd k (λ q, set_p_tid 0 (set_p_t_flag 0 (clear_slot (set_p_kstack 0 q))));;
       p ← proc_of i;
       sz ← kvm (deallocuvm kend (p_pgdir p) (p_start p) (u32 (p_start p - 2 * PGSIZE)));
       upd k (set_p_sz sz))).

(** Found one. *)
Definition reap_slot (i : nat) : P Z :=
  p ← proc_of i;
  let pid := p_pid p in
  kvm (kfree kend (p_kstack p));;
  upd i (set_p_kstack 0);;
  p ← proc_of i;
  kvm (freevm kend (p_pgdir p));;
  upd i clear_slot;;
  mret pid.

(** The body of wait for the child in slot [i], a zombie. *)
Definition reap (i : nat) : P Z := free_threads i;; reap_slot i.

(** One scan of the table: the pid of a child that was reaped, and havekids. *)
Fixpoint wait_scan (me : nat) (l : list nat) (havekids : bool) : P (option Z * bool) :=
  match l with
  | [] => mret (None, havekids)
  | i :: l =>
      p ← proc_of i;
      if bool_decide (p_parent p = Some me) then
        if is_state ZOMBIE p then pid ← reap i; mret (Some pid, true)
        else wait_scan me l true
      else wait_scan me l havekids
  end.

(** for(;;) of wait; [fuel] bounds the number of times it sleeps. *)
Fixpoint wait_loop (fuel : nat) (me : nat) : P Z :=
  r ← wait_scan me (seq 0 NPROC) false;
  match r with
  | (Some pid, _) => release_pt;; mret pid
  | (None, havekids) =>
      p ← proc_of me;
      if negb havekids || negb (p_killed p =? 0) then release_pt;; mret (-1) else
      match fuel with
      | O => undef "out of fuel"
      | S fuel => sleep me (ChProc me) LkPtable;; wait_loop fuel me
      end
  end.
Definition wait (fuel : nat) (me : nat) : P Z := acquire_pt;; wait_loop fuel me.

(** ** Threads *)

(** for(update ...) if(update->ptid == p->ptid) update->sz = sz; *)
Definition set_group_sz (me : nat) (sz : Z) : P unit :=
  for_procs (λ u,
    p ← proc_of me; q ← proc_of u;
    when (p_ptid q =? p_ptid p) (upd u (set_p_sz sz))).

(** stride or MLFQ: the scheduling fields the new thread takes over. *)
Definition inherit_sched (p np : proc) : proc :=
  if p_checkMLFQ p =? 0 then
    set_p_checkMLFQ 0 (set_p_quantumtick (p_quantumtick p) (set_p_round (p_round p)
      (set_p_runTime (p_runTime p) (set_p_qLevel (p_qLevel p) np))))
  else
    set_p_checkMLFQ 1 (set_p_quantumtick (p_quantumtick p) (set_p_runTime (p_runTime p)
      (set_p_myPortion (p_myPortion p) (set_p_stride (p_stride p) (set_p_pass (p_pass p) np))))).

(** The part of thread_create between the copyout and the release: np joins
    the group of me and gets its trap frame. *)
Definition thread_setup (me np : nat) (thread start_routine sp sz : Z) : P unit :=
  p ← proc_of me;
  upd np (λ q, set_p_t_flag 1 (set_p_ptid (if p_t_flag p =? 0 then p_pid p else p_ptid p) q));;
  upd np (inherit_sched p);;
  upd me (set_p_havet 1);;
  upd np (set_p_main_thread (Some me));;
  upd me (λ p, set_p_thread_count (p_thread_count p + 1) p);;
  tid ← gets nexttid;
  if tid =? INT_MAX then undef "signed overflow" else
  modify (set_nexttid (tid + 1));;
  upd np (set_p_tid tid);;
  kvm (vstore32 (p_pgdir p) thread tid);;
  upd np (set_p_pgdir (p_pgdir p));;
  copy_tf np me;;
  q ← proc_of np;
  kvm (store (p_tf q + tf_eip) start_routine);;
  kvm (store (p_tf q + tf_esp) sp);;
  set_group_sz me sz.

Definition thread_create (me : nat) (thread start_routine arg : Z) : P Z :=
  p ← proc_of me;
  u ← allocproc;
  match u with
  | None => mret (-1)
  | Some np =>
      sz ← kvm (allocuvm kend (p_pgdir p) (p_sz p) (u32 (p_sz p + 2 * PGSIZE)));
      if sz =? 0 then mret (-1) else
      kvm (clearpteu (p_pgdir p) (u32 (p_sz p - 2 * PGSIZE)));;
      acquire_pt;;
      set_group_sz me sz;;
      release_pt;;
      acquire_pt;;
      p ← proc_of me;
      let sp := p_sz p in
      upd np (λ q, set_p_end (u32 (sp - 2 * PGSIZE)) (set_p_start sp q));;
      let sp := u32 (sp - 8) in
      r ← kvm (copyout (p_pgdir p) sp (le32 0xffffffff ++ le32 arg));
      if r <? 0 then mret (-1) else
      thread_setup me np thread start_routine sp sz;;
      release_pt;;
      dup_files np me;;
      dup_cwd np me;;
      p ← proc_of me;
      upd np (set_p_name (name_of (p_name p)));;
      acquire_pt;;
      upd np (set_p_state RUNNABLE);;
      release_pt;;
      mret 0
  end.

Definition thread_exit (me : nat) (retval : Z) : P unit :=
  close_files me;;
  put_cwd me;;
  acquire_pt;;
  p ← proc_of me;
  wakeup1 (chan_of (p_main_thread p));;
  for_procs (λ i,
    q ← proc_of i;
    when (bool_decide (p_main_thread q = Some me))
      (init ← gets initproc;
       upd i (set_p_main_thread init);;
       when (is_state ZOMBIE q) (wakeup1 (chan_of init))));;
  upd me (λ p, set_p_state ZOMBIE (set_p_retval retval p));;
  sched me;;
  panic "zombie exit thread".

(** The loop over k that links the gap: the first slot whose end is the start
    of the freed stack. *)
Fixpoint relink (l : list nat) (i : nat) : P unit :=
  match l with
  | [] => mret tt
  | k :: l =>
      p ← proc_of i; q ← proc_of k;
      if p_end q =? p_start p then upd k (set_p_end (p_end p)) else relink l i
  end.

(** The body of thread_join for the thread in slot [i], a zombie. *)
Definition join_reap (me i : nat) (retval : Z) : P unit :=
  p ← proc_of i;
  kvm (kfree kend (p_kstack p));;
  upd i (λ q, set_p_sz 0 (set_p_tid 0 (set_p_t_flag 0 (clear_slot (set_p_kstack 0 q)))));;
  me_p ← proc_of me;
  kvm (vstore32 (p_pgdir me_p) retval (p_retval p));;
  relink (seq 0 NPROC) i;;
  p ← proc_of i;
  match p_main_thread p with
  | None => undef "null pointer"
  | Some j =>
      q ← proc_of j;
      when (p_start p =? p_sz q)
        (for_procs (λ k,
           q ← proc_of k; me_p ← proc_of me; p ← proc_of i;
           when (negb (is_state UNUSED q) && (p_ptid q =? p_ptid me_p))
             (upd k (set_p_sz (p_end p)))))
  end;;
  p ← proc_of i;
  kvm (deallocuvm kend (p_pgdir p) (p_start p) (u32 (p_start p - 2 * PGSIZE)));;
  upd i (λ q, set_p_end 0 (set_p_start 0 q)).

Fixpoint join_scan (me : nat) (thread retval : Z) (l : list nat) (havekids : bool) : P (bool * bool) :=
  match l with
  | [] => mret (false, havekids)
  | i :: l =>
      p ← proc_of i;
      if bool_decide (p_main_thread p = Some me) && (p_tid p =? thread) then
        if is_state ZOMBIE p then join_reap me i retval;; mret (true, true)
        else join_scan me thread retval l true
      else join_scan me thread retval l havekids
  end.

(** for(;;) of thread_join; [fuel] bounds the number of times it sleeps. *)
Fixpoint join_loop (fuel : nat) (me : nat) (thread retval : Z) : P Z :=
  r ← join_scan me thread retval (seq 0 NPROC) false;
  match r with
  | (true, _) => release_pt;; mret 0
  | (false, havekids) =>
      p ← proc_of me;
      if negb havekids || negb (p_killed p =? 0) then release_pt;; mret (-1) else
      match fuel with
      | O => undef "out of fuel"
      | S fuel => sleep me (ChProc me) LkPtable;; join_loop fuel me thread retval
      end
  end.
Definition thread_join (fuel : nat) (me : nat) (thread retval : Z) : P Z :=
  acquire_pt;; join_loop fuel me thread retval.

End proc.

(** ** The scheduler *)

Section scheduler.
Context {W : Type}.
#[local] Notation P := (M (pst W)).
(** What the process in slot i does from the swtch of the scheduler to its
    own swtch back. *)
Context (run : nat → P unit).

(** The body of the loop over the table. *)
Definition scheduler_slot (i : nat) : P unit :=
  p ← proc_of i;
  when (is_state RUNNABLE p)
    (upd_cpu (set_c_proc (Some i));;
     switchuvm i;;
     upd i (set_p_state RUNNING);;
     run i;;
     switchkvm;;
     upd_cpu (set_c_proc None)).

(** One round of for(;;). *)
Definition scheduler_round : P unit :=
  upd_cpu (set_c_if true);;
  acquire_pt;;
  for_procs scheduler_slot;;
  release_pt.

(** The first [n] rounds. *)
Definition scheduler (n : nat) : P unit :=
  upd_cpu (set_c_proc None);;
  foreach (seq 0 n) (λ _, scheduler_round).

End scheduler.
