(* ===== verification/ProcSpec.v ===== *)
(** * ProcSpec: the process table stays well formed

    [table_ok] is the type of the table: NPROC slots with NOFILE file entries
    each, process pointers into the table, and positive pids below nextpid
    that no two slots in use share.  Every operation of proc.c keeps it, as
    long as the processes that run in between do. *)

From Stdlib Require Import ZArith Lia Bool.
From stdpp Require Import base option list sets gmap strings numbers.
From S2P Require Import Prelude Cstring Kalloc Vm Proc.

#[local] Open Scope string_scope.
#[local] Open Scope list_scope.
#[local] Open Scope Z_scope.

Definition used (p : proc) : Prop := p_state p ≠ UNUSED.

Definition slot_ref (r : option nat) : Prop := ∀ j, r = Some j → (j < NPROC)%nat.

Definition slot_ok (n : Z) (p : proc) : Prop :=
  0 ≤ p_pid p < n ∧ (used p → 0 < p_pid p) ∧ length (p_ofile p) = NOFILE ∧
  slot_ref (p_parent p) ∧ slot_ref (p_main_thread p).

Section table.
Context {W : Type}.
#[local] Notation P := (M (pst W)).

Definition table_ok (s : pst W) : Prop :=
  length (procs s) = NPROC ∧ 0 < nextpid s ∧ slot_ref (initproc s) ∧
  (∀ i p, procs s !! i = Some p → slot_ok (nextpid s) p) ∧
  (∀ i j p q, procs s !! i = Some p → procs s !! j = Some q → i ≠ j →
     used p → used q → p_pid p ≠ p_pid q).

(** The table is well formed and the slots of [l] are in use. *)
Definition live (l : list nat) (s : pst W) : Prop :=
  table_ok s ∧ ∀ i, i ∈ l → (i < NPROC)%nat ∧ used (proc_at s i).

(** The operations under study run between states with [live] slots. *)
#[local] Notation ok := (safe table_ok).

(** An update of a slot that takes nothing into use and keeps the pid. *)
Definition mild (f : proc → proc) (p : proc) : Prop :=
  (∀ n, slot_ok n p → slot_ok n (f p)) ∧ (used (f p) → p_pid (f p) = p_pid p ∧ used p).

Lemma lookup_proc_at (s : pst W) i : length (procs s) = NPROC → (i < NPROC)%nat →
  procs s !! i = Some (proc_at s i).
Proof.
  intros Hl Hi. unfold proc_at. destruct (procs s !! i) eqn:E; [done|].
  apply lookup_ge_None in E. lia.
Qed.

Lemma proc_at_ge (s : pst W) i : length (procs s) = NPROC → (NPROC ≤ i)%nat → proc_at s i = proc0.
Proof. intros Hl Hi. unfold proc_at. by rewrite lookup_ge_None_2 by lia. Qed.

Lemma proc_at_alter (s : pst W) f i j : (i < length (procs s))%nat →
  proc_at (set_procs (alter f i (procs s)) s) j =
    if decide (i = j) then f (proc_at s i) else proc_at s j.
Proof.
  intros Hi. unfold proc_at. simpl. case_decide as E.
  - subst j. rewrite list_lookup_alter_eq. destruct (procs s !! i) eqn:Hp; [done|].
    apply lookup_ge_None in Hp. lia.
  - by rewrite list_lookup_alter_ne.
Qed.

Lemma alter_ge (s : pst W) f i : (length (procs s) ≤ i)%nat →
  set_procs (alter f i (procs s)) s = s.
Proof.
  intros Hi. replace (alter f i (procs s)) with (procs s); [by destruct s|].
  apply list_eq. intros j. destruct (decide (i = j)) as [->|].
  - by rewrite list_lookup_alter_eq, lookup_ge_None_2.
  - by rewrite list_lookup_alter_ne.
Qed.

Lemma table_ok_slot s i : table_ok s → (i < NPROC)%nat → slot_ok (nextpid s) (proc_at s i).
Proof. intros (Hl & _ & _ & Hs & _) Hi. apply (Hs i). by apply lookup_proc_at. Qed.

Lemma table_ok_upd s i f : table_ok s → ((i < NPROC)%nat → mild f (proc_at s i)) →
  table_ok (set_procs (alter f i (procs s)) s).
Proof.
  intros Hok Hf. pose proof Hok as (Hl & Hn & Hinit & Hs & Hd).
  destruct (decide (i < NPROC)%nat) as [Hi|Hi]; [|by rewrite alter_ge by lia].
  destruct (Hf Hi) as [Hf1 Hf2]. pose proof (lookup_proc_at s i Hl Hi) as Hpi.
  split_and!; simpl; [by rewrite length_alter | done | done | |].
  - intros j p. destruct (decide (i = j)) as [<-|].
    + rewrite list_lookup_alter_eq, Hpi. intros [= <-]. by apply Hf1, (Hs i).
    + rewrite list_lookup_alter_ne by done. apply Hs.
  - intros j k p q Hp Hq Hjk Up Uq.
    destruct (decide (i = j)) as [<-|]; destruct (decide (i = k)) as [<-|]; [done | ..];
      rewrite ?list_lookup_alter_eq, ?Hpi in Hp; rewrite ?list_lookup_alter_eq, ?Hpi in Hq;
      rewrite ?list_lookup_alter_ne in Hp by done; rewrite ?list_lookup_alter_ne in Hq by done;
      simplify_eq/=.
    + destruct (Hf2 Up) as [-> Up']. by apply (Hd i k).
    + destruct (Hf2 Uq) as [-> Uq']. by apply (Hd j i).
    + by apply (Hd j k).
Qed.

Lemma live_upd l s i f : live l s → ((i < NPROC)%nat → mild f (proc_at s i)) →
  (i ∈ l → used (proc_at s i) → used (f (proc_at s i))) →
  live l (set_procs (alter f i (procs s)) s).
Proof.
  intros [Hok Hu] Hf Hl. split; [by apply table_ok_upd|]. intros j Hj. destruct (Hu j Hj) as [Hj' Huj].
  split; [done|]. destruct (decide (i < length (procs s))%nat) as [Hi|Hi].
  - rewrite proc_at_alter by done. case_decide; [subst; auto | done].
  - by rewrite alter_ge by lia.
Qed.

(** States with the same table. *)
Lemma live_same l (s t : pst W) : live l s →
  procs t = procs s → initproc t = initproc s → nextpid t = nextpid s → live l t.
Proof.
  intros [(Hl & Hn & Hi & Hs & Hd) Hu] Hp Hit Hnp. split.
  - unfold table_ok. rewrite Hp, Hit, Hnp. done.
  - unfold proc_at. rewrite Hp. done.
Qed.

Lemma live_table l s : live l s → table_ok s.
Proof. by intros []. Qed.

Lemma live_sub l l' s : live l s → l' ⊆ l → live l' s.
Proof. intros [Hok Hu] Hsub. split; [done|]. intros i Hi. apply Hu. by apply Hsub. Qed.

Lemma used_lt (s : pst W) i : length (procs s) = NPROC → used (proc_at s i) → (i < NPROC)%nat.
Proof.
  intros Hl Hu. destruct (decide (i < NPROC)%nat); [done|].
  rewrite proc_at_ge in Hu by (done || lia). by destruct Hu.
Qed.

Lemma live_add l s i : live l s → used (proc_at s i) → live (i :: l) s.
Proof.
  intros [Hok Hu] Hi. split; [done|]. intros j [->|Hj]%elem_of_cons; [|by apply Hu].
  split; [|done]. apply (used_lt s); [|done]. by destruct Hok.
Qed.

Lemma live_drop l s i : live (i :: l) s → live l s.
Proof. intros Hl. apply (live_sub (i :: l)); [done|]. intros j Hj. by right. Qed.

Lemma live_nil s : table_ok s → live [] s.
Proof. intros Hok. split; [done|]. intros i Hi. by apply elem_of_nil in Hi. Qed.

(** ** Rules for the operations *)

Lemma ok_upd l i f (Q : unit → pst W → Prop) s : live l s →
  ((i < NPROC)%nat → mild f (proc_at s i)) → (i ∈ l → used (proc_at s i) → used (f (proc_at s i))) →
  (∀ a t, live l t → Q a t) → ok (upd i f) Q s.
Proof. intros Hl Hf Hu HQ. apply safe_modify, HQ. by apply live_upd. Qed.

Lemma ok_modify l f (Q : unit → pst W → Prop) s : live l s →
  procs (f s) = procs s → initproc (f s) = initproc s → nextpid (f s) = nextpid s →
  (live l (f s) → Q tt (f s)) → ok (modify f) Q s.
Proof. intros Hl H1 H2 H3 HQ. apply safe_modify, HQ. by apply (live_same l s). Qed.

Lemma ok_kvm l {A} (m : M kst A) (Q : A → pst W → Prop) s : live l s →
  (∀ a t, live l t → Q a t) → ok (kvm m) Q s.
Proof.
  intros Hl HQ. apply safe_zoom; intros; [apply HQ | apply (live_table l)]; by apply (live_same l s).
Qed.

Lemma ok_fsys l {A} (m : M (kst * W) A) (Q : A → pst W → Prop) s : live l s →
  (∀ a t, live l t → Q a t) → ok (fsys m) Q s.
Proof.
  intros Hl HQ. apply safe_zoom; intros; [apply HQ | apply (live_table l)]; by apply (live_same l s).
Qed.

Lemma ok_acquire l (Q : unit → pst W → Prop) s : live l s → (∀ a t, live l t → Q a t) →
  ok acquire_pt Q s.
Proof.
  intros Hl HQ. unfold acquire_pt, pushcli, upd_cpu. safe_steps. destruct (pt_lock _); safe_steps.
  apply HQ. by apply (live_same l s).
Qed.

Lemma ok_popcli l (Q : unit → pst W → Prop) s : live l s → (∀ a t, live l t → Q a t) →
  ok popcli Q s.
Proof.
  intros Hl HQ. unfold popcli, upd_cpu. safe_steps.
  destruct (c_if _); safe_steps. case_match; safe_steps.
  apply HQ. by apply (live_same l s).
Qed.

Lemma ok_release l (Q : unit → pst W → Prop) s : live l s → (∀ a t, live l t → Q a t) →
  ok release_pt Q s.
Proof.
  intros Hl HQ. unfold release_pt. safe_steps. destruct (pt_lock _); safe_steps.
  eapply ok_popcli, HQ. by apply (live_same l s).
Qed.

Lemma ok_for l (body : nat → P unit) (Q : unit → pst W → Prop) s : live l s →
  (∀ i t, (i < NPROC)%nat → live l t → ok (body i) (λ _, live l) t) →
  (∀ a t, live l t → Q a t) → ok (for_procs body) Q s.
Proof.
  intros Hl Hb HQ. unfold for_procs. apply (safe_foreach _ (live l)); [done | | by apply HQ].
  intros i t Hi. apply Hb. apply elem_of_seq in Hi. lia.
Qed.

End table.

Lemma mild_keep f p : p_pid (f p) = p_pid p → length (p_ofile (f p)) = length (p_ofile p) →
  (slot_ref (p_parent p) → slot_ref (p_parent (f p))) →
  (slot_ref (p_main_thread p) → slot_ref (p_main_thread (f p))) → (used (f p) → used p) → mild f p.
Proof.
  intros Hpid Hlen Hpar Hmain Hu. split; [|auto]. intros n (H1 & H2 & H3 & H4 & H5).
  unfold slot_ok. rewrite Hpid, Hlen. auto 10.
Qed.

Lemma mild_clear f p : p_state (f p) = UNUSED → p_pid (f p) = 0 →
  length (p_ofile (f p)) = length (p_ofile p) → slot_ref (p_parent (f p)) →
  (slot_ref (p_main_thread p) → slot_ref (p_main_thread (f p))) → mild f p.
Proof.
  intros Hst Hpid Hlen Hpar Hmain. unfold mild, slot_ok, used. rewrite Hst, Hpid, Hlen.
  split; [|done]. intros n (H1 & H2 & H3 & H4 & H5). split_and!; try done; [lia | auto].
Qed.

Lemma slot_ref_none : slot_ref None.
Proof. done. Qed.

Lemma live_in {W} l (s : pst W) i : live l s → i ∈ l → used (proc_at s i).
Proof. intros [_ Hu] Hi. by apply Hu. Qed.

Lemma is_state_true st p : is_state st p = true → p_state p = st.
Proof. apply bool_decide_eq_true. Qed.
Lemma is_state_false st p : is_state st p = false → p_state p ≠ st.
Proof. apply bool_decide_eq_false. Qed.

(** The slot is in use: it is one of the live slots, or its state was tested. *)
Ltac used_solve :=
  simpl;
  first
    [ done
    | congruence
    | match goal with H : _ ∈ [] |- _ => by apply elem_of_nil in H end
    | match goal with Hl : live ?l ?s |- used (proc_at ?s ?i) =>
        apply (live_in l s i Hl); set_solver end
    | repeat match goal with H : _ && _ = true |- _ => apply andb_true_iff in H as [] end;
      repeat match goal with H : negb _ = true |- _ => apply negb_true_iff in H end;
      repeat match goal with
        | H : is_state _ _ = true |- _ => apply is_state_true in H
        | H : is_state _ _ = false |- _ => apply is_state_false in H end;
      unfold used in *; congruence ].

(** A slot update that only assigns fields. *)
Ltac mild_solve :=
  intros _;
  first
    [ apply mild_clear; [reflexivity | reflexivity | reflexivity | done | exact id]
    | apply mild_keep; [reflexivity | simpl; rewrite ?length_insert; reflexivity | try exact id | try exact id |
                        intros ?; used_solve] ].

(** One step of code over states with [live] slots. *)
Ltac ok_step :=
  lazymatch goal with
  | |- safe _ (mbind _ _) _ _ => apply safe_bind
  | |- safe _ (mret _) _ _ => apply safe_ret
  | |- safe _ (gets _) _ _ => apply safe_gets
  | |- safe _ (proc_of _) _ _ => apply safe_gets
  | |- safe _ (panic _) _ _ => apply safe_panic
  | |- safe _ (undef _) _ _ => apply safe_undef
  | |- safe _ (when _ _) _ _ => apply safe_when; intros ?
  | H : live ?l ?s |- safe _ (kvm _) _ ?s =>
      eapply (ok_kvm l); [exact H | intros ? ? ?; clear H]
  | H : live ?l ?s |- safe _ (fsys _) _ ?s =>
      eapply (ok_fsys l); [exact H | intros ? ? ?; clear H]
  | H : live ?l ?s |- safe _ acquire_pt _ ?s =>
      eapply (ok_acquire l); [exact H | intros ? ? ?; clear H]
  | H : live ?l ?s |- safe _ release_pt _ ?s =>
      eapply (ok_release l); [exact H | intros ? ? ?; clear H]
  | H : live ?l ?s |- safe _ (upd _ _) _ ?s =>
      eapply (ok_upd l); [exact H | try mild_solve | try (intros ? ?; used_solve) | intros ? ? ?; clear H]
  | H : live ?l ?s |- safe _ (modify _) _ ?s =>
      eapply (ok_modify l); [exact H | reflexivity | reflexivity | reflexivity | intros ?; clear H]
  | H : live ?l ?s |- safe _ (for_procs _) _ ?s =>
      eapply (ok_for l); [exact H | intros ? ? ? ?; clear H | intros ? ? ?; clear H]
  | |- safe _ (match ?x with _ => _ end) _ _ => destruct x eqn:?
  end; cbv beta.
Ltac ok_steps := repeat ok_step; try done.

Section ops.
Context {W : Type} `{FileOps W}.
#[local] Notation P := (M (pst W)).
#[local] Notation ok := (safe (table_ok (W := W))).
Context (kend kdata trapret forkret_addr : Z) (initcode : list Z).

Lemma ok_wakeup1 l ch (Q : unit → pst W → Prop) s : live l s → (∀ a t, live l t → Q a t) →
  ok (wakeup1 ch) Q s.
Proof. intros Hl HQ. unfold wakeup1. ok_steps. by apply HQ. Qed.

Lemma ok_kill l pid (Q : Z → pst W → Prop) s : live l s → (∀ r t, live l t → Q r t) →
  ok (kill pid) Q s.
Proof.
  intros Hl HQ. unfold kill. ok_steps.
  match goal with H : live _ ?t |- _ => revert H; generalize t; clear s end.
  induction (seq 0 NPROC) as [|i ps IH]; intros s Hl; simpl; [by ok_steps; apply HQ|].
  apply safe_bind, safe_gets. destruct (p_pid _ =? pid); [|by apply IH].
  destruct (is_state SLEEPING (proc_at s i)) eqn:Hst; simpl; [|by ok_steps; apply HQ].
  apply is_state_true in Hst.
  assert (live (i :: l) s) as Hl' by (apply live_add; [done | unfold used; congruence]).
  clear Hl. ok_steps. apply HQ. by apply (live_drop _ _ i).
Qed.

(** allocproc takes an unused slot and gives it a pid of its own. *)
Lemma find_unused_spec (s : pst W) i : find_unused s = Some i →
  (i < NPROC)%nat ∧ p_state (proc_at s i) = UNUSED.
Proof.
  unfold find_unused. intros Hh.
  assert (i ∈ filter (λ i, is_state UNUSED (proc_at s i)) (seq 0 NPROC)) as Hi.
  { destruct (filter _ _); [done|]. injection Hh as ->. by left. }
  apply list_elem_of_filter in Hi as [Hst Hi%elem_of_seq]. split; [lia|].
  apply is_state_true. by apply Is_true_eq_true.
Qed.

Lemma live_alloc l (s : pst W) i : live l s → find_unused s = Some i →
  live (i :: l) (set_procs (alter (alloc_fields (nextpid s)) i (procs s))
                   (set_nextpid (nextpid s + 1) s)).
Proof.
  intros [(Hl & Hn & Hinit & Hs & Hd) Hu] [Hi Hst]%find_unused_spec.
  pose proof (lookup_proc_at s i Hl Hi) as Hpi.
  split; [split_and!; simpl; [by rewrite length_alter | lia | done | |] |].
  - intros j p. destruct (decide (i = j)) as [<-|].
    + rewrite list_lookup_alter_eq, Hpi. intros [= <-]. destruct (Hs i _ Hpi) as (? & ? & ? & ? & ?).
      unfold slot_ok. simpl. split_and!; try done; lia.
    + rewrite list_lookup_alter_ne by done. intros Hp. destruct (Hs j _ Hp) as (? & ? & ?).
      split; [lia | done].
  - intros j k p q Hp Hq Hjk Up Uq.
    destruct (decide (i = j)) as [<-|]; destruct (decide (i = k)) as [<-|]; [done | ..];
      rewrite ?list_lookup_alter_eq, ?Hpi in Hp; rewrite ?list_lookup_alter_eq, ?Hpi in Hq;
      rewrite ?list_lookup_alter_ne in Hp by done; rewrite ?list_lookup_alter_ne in Hq by done;
      simplify_eq/=.
    + destruct (Hs k _ Hq) as (? & _). lia.
    + destruct (Hs j _ Hp) as (? & _). lia.
    + by apply (Hd j k).
  - intros j Hj. rewrite (proc_at_alter (set_nextpid (nextpid s + 1) s)) by (simpl; lia). case_decide as E.
    + subst j. done.
    + apply elem_of_cons in Hj as [->|Hj]; [done|]. by apply Hu.
Qed.

Lemma live_fresh_neq l (s : pst W) i : live l s → find_unused s = Some i → i ∉ l.
Proof. intros Hl [_ Hst]%find_unused_spec Hi. by apply (live_in l s i Hl) in Hi. Qed.

Lemma ok_allocproc l (Q : option nat → pst W → Prop) s : live l s →
  (∀ t, live l t → Q None t) → (∀ i t, i ∉ l → live (i :: l) t → Q (Some i) t) →
  ok (allocproc trapret forkret_addr) Q s.
Proof.
  intros Hl Hnone Hsome. unfold allocproc. do 2 ok_step.
  match goal with H : live _ ?t |- _ => rename t into s0 end.
  apply safe_bind, safe_gets. destruct (find_unused s0) as [i|] eqn:Hf; [|by ok_steps; apply Hnone].
  apply safe_bind, safe_gets. case_match; [done|].
  assert (i ∉ l) as Hni by by apply (live_fresh_neq l s0).
  match goal with H : live l s0 |- _ => pose proof (live_alloc l s0 i H Hf) as Hl'; clear H end.
  apply safe_bind, safe_modify, safe_bind, safe_modify.
  match goal with |- safe _ _ _ ?u => change (live (i :: l) u) in Hl'; generalize dependent u end.
  intros t Hl'. do 9 ok_step; [|by ok_steps; apply Hsome].
  match goal with H : live (i :: l) _ |- _ => apply live_drop in H end.
  ok_steps. by apply Hnone.
Qed.

(** fork and its parts keep the new slot and the caller in use. *)
Lemma ok_dup_files l np p (Q : unit → pst W → Prop) s : live l s → (∀ a t, live l t → Q a t) →
  ok (dup_files np p) Q s.
Proof.
  intros Hl HQ. unfold dup_files. apply (safe_foreach _ (live l)); [done| |by apply HQ].
  intros i t _ Ht. ok_steps.
Qed.

Lemma ok_dup_cwd l np p (Q : unit → pst W → Prop) s : live l s → (∀ a t, live l t → Q a t) →
  ok (dup_cwd np p) Q s.
Proof. intros Hl HQ. unfold dup_cwd. ok_steps. by apply HQ. Qed.

Lemma ok_copy_tf l np p (Q : unit → pst W → Prop) s : live l s → (∀ a t, live l t → Q a t) →
  ok (copy_tf np p) Q s.
Proof. intros Hl HQ. unfold copy_tf. ok_steps. by apply HQ. Qed.

Lemma ok_copy_process l np p (Q : unit → pst W → Prop) s : live l s → (p < NPROC)%nat →
  (∀ a t, live l t → Q a t) → ok (copy_process np p) Q s.
Proof.
  intros Hl Hp HQ. unfold copy_process. ok_steps; [by intros _ j [= <-]|].
  eapply ok_copy_tf; [done | intros]. ok_steps.
  eapply ok_dup_files; [done | intros]. ok_steps.
  eapply ok_dup_cwd; [done | intros]. ok_steps. by apply HQ.
Qed.

Lemma live_cons l (s : pst W) i : live (i :: l) s → used (proc_at s i).
Proof. intros Hl. apply (live_in (i :: l)); [done | left]. Qed.

Lemma live_lt l (s : pst W) i : live l s → i ∈ l → (i < NPROC)%nat.
Proof. intros [_ Hu] Hi. by apply Hu. Qed.

(** A slot given back: it leaves the live ones. *)
Lemma ok_free l i f (Q : unit → pst W → Prop) s : live (i :: l) s → i ∉ l →
  ((i < NPROC)%nat → mild f (proc_at s i)) → (∀ a t, live l t → Q a t) → ok (upd i f) Q s.
Proof. intros Hl Hi Hf HQ. apply live_drop in Hl. by eapply (ok_upd l). Qed.

(** if((np->pgdir = copyuvm(...)) == 0) of fork and create_thread. *)
Lemma ok_fork_copy l np p (Q : Z → pst W → Prop) (k : P Z) s : live (np :: l) s → np ∉ l →
  (∀ r t, live l t → Q r t) → (∀ t, live (np :: l) t → ok k Q t) →
  ok (pgdir ← kvm (copyuvm kend kdata (p_pgdir p) (p_sz p));
      upd np (set_p_pgdir pgdir);;
      if pgdir =? 0 then
        q ← proc_of np;
        kvm (kfree kend (p_kstack q));;
        upd np (λ q, set_p_state UNUSED (set_p_kstack 0 q));;
        mret (-1)
      else k) Q s.
Proof.
  intros Hl Hnp HQ Hk. do 5 ok_step; [|by apply Hk].
  match goal with H : live (np :: l) _ |- _ => apply live_drop in H end. ok_steps. by apply HQ.
Qed.

Lemma ok_fork l me (Q : Z → pst W → Prop) s : live l s → me ∈ l → (∀ r t, live l t → Q r t) →
  ok (fork kend kdata trapret forkret_addr me) Q s.
Proof.
  intros Hl Hme HQ. unfold fork. ok_step. eapply ok_allocproc; [done | by ok_steps; apply HQ|].
  intros np t Hnp Ht. do 2 ok_step. eapply ok_fork_copy; [done | done | done |]. intros u Hu.
  ok_step. eapply ok_copy_process; [done | by apply (live_lt l s)|]. intros. ok_steps.
  apply HQ. by eapply live_drop.
Qed.

Lemma ok_create_thread l p (Q : Z → pst W → Prop) s : live l s → p ∈ l → (∀ r t, live l t → Q r t) →
  ok (create_thread kend kdata trapret forkret_addr p) Q s.
Proof.
  intros Hl Hp HQ. unfold create_thread. ok_step. eapply ok_allocproc; [done | by ok_steps; apply HQ|].
  intros np t Hnp Ht. do 2 ok_step. eapply ok_fork_copy; [done | done | done |]. intros u Hu.
  ok_step. eapply ok_copy_process; [done | by apply (live_lt l s)|]. intros. ok_steps.
  - intros _ j [= <-]. by apply (live_lt l s).
  - apply HQ. by eapply live_drop.
Qed.

Lemma live_init l (s : pst W) u : live l s → slot_ref u → live l (set_initproc u s).
Proof. intros [(? & ? & ? & ? & ?) Hu] Hr. done. Qed.

Lemma live_initproc l (s : pst W) : live l s → slot_ref (initproc s).
Proof. by intros [(_ & _ & Hi & _) _]. Qed.

Lemma ok_userinit (Q : unit → pst W → Prop) s : table_ok s → (∀ a t, table_ok t → Q a t) →
  ok (userinit kend kdata trapret forkret_addr initcode) Q s.
Proof.
  intros Hok%live_nil HQ. unfold userinit. ok_step.
  eapply (ok_allocproc []); [done | by intros; apply safe_bind, safe_modify |].
  intros i t _ Ht. apply safe_bind, safe_modify.
  assert (live [i] (set_initproc (Some i) t)) as Ht'.
  { apply live_init; [done|]. intros j [= <-]. apply (live_lt [i] t); [done | left]. }
  clear Ht. ok_steps. apply HQ. by eapply live_table.
Qed.

Lemma ok_switchuvm l i (Q : unit → pst W → Prop) s : live l s → (∀ a t, live l t → Q a t) →
  ok (switchuvm i) Q s.
Proof.
  intros Hl HQ. unfold switchuvm, pushcli, upd_cpu. ok_steps. by eapply ok_popcli.
Qed.

Lemma ok_growproc l me n (Q : Z → pst W → Prop) s : live l s → me ∈ l → (∀ a t, live l t → Q a t) →
  ok (growproc kend me n) Q s.
Proof.
  intros Hl Hme HQ. unfold growproc. ok_steps; try (by apply HQ);
    eapply ok_switchuvm; try done; intros; ok_steps; by apply HQ.
Qed.

(** ** Code that gives the processor away *)

Context (swtch : nat → P unit).
(** When the scheduler comes back to a process its slot is still in use, and
    the table is well formed. *)
Definition swtch_ok : Prop := ∀ me s, table_ok s → ok (swtch me) (λ _ t, live [me] t) s.
Context (Hsw : swtch_ok).

Lemma ok_sched me (Q : unit → pst W → Prop) s : table_ok s → (∀ a t, live [me] t → Q a t) →
  ok (sched swtch me) Q s.
Proof.
  intros Hl HQ. unfold sched, upd_cpu, proc_of. safe_steps. repeat (case_match; safe_steps).
  all: eapply safe_mono; [by apply Hsw|]; intros ? t Ht; safe_steps; apply HQ; by apply (live_same [me] t).
Qed.

Lemma ok_yield me (Q : Z → pst W → Prop) s : live [me] s → (∀ r t, live [me] t → Q r t) →
  ok (yield swtch me) Q s.
Proof.
  intros Hl HQ. unfold yield. ok_steps. eapply ok_sched; [by eapply live_table|].
  intros. ok_steps. by apply HQ.
Qed.

Lemma ok_thread_yield me (Q : Z → pst W → Prop) s : live [me] s → (∀ r t, live [me] t → Q r t) →
  ok (thread_yield me) Q s.
Proof. intros Hl HQ. unfold thread_yield. ok_steps. by apply HQ. Qed.

(** sleep with ptable.lock held. *)
Lemma ok_sleep_pt me ch (Q : unit → pst W → Prop) s : live [me] s → (∀ a t, live [me] t → Q a t) →
  ok (sleep swtch me ch LkPtable) Q s.
Proof.
  intros Hl HQ. unfold sleep. ok_steps. eapply ok_sched; [by eapply live_table|].
  intros. ok_steps. by apply HQ.
Qed.

Lemma ok_close_files l me (Q : unit → pst W → Prop) s : live l s → (∀ a t, live l t → Q a t) →
  ok (close_files me) Q s.
Proof.
  intros Hl HQ. unfold close_files. apply (safe_foreach _ (live l)); [done| |by apply HQ].
  intros i t _ Ht. ok_steps.
Qed.

Lemma ok_put_cwd l me (Q : unit → pst W → Prop) s : live l s → (∀ a t, live l t → Q a t) →
  ok (put_cwd me) Q s.
Proof. intros Hl HQ. unfold put_cwd. ok_steps. by apply HQ. Qed.

Lemma ok_reparent l me (Q : unit → pst W → Prop) s : live l s → (∀ a t, live l t → Q a t) →
  ok (reparent me) Q s.
Proof.
  intros Hl HQ. unfold reparent. ok_steps; [| |by apply HQ].
  - intros _. by eapply live_initproc.
  - by eapply ok_wakeup1.
Qed.

(** exit never returns, and leaves a well-formed table to the scheduler. *)
Lemma ok_exit me (Q : unit → pst W → Prop) s : live [me] s → ok (exit swtch me) Q s.
Proof.
  intros Hl. unfold exit. ok_steps. eapply ok_close_files; [done|]. intros. ok_steps.
  eapply ok_put_cwd; [done|]. intros. ok_steps.
  eapply ok_wakeup1; [done|]. intros. ok_steps.
  eapply ok_reparent; [done|]. intros. ok_steps.
  all: eapply ok_sched; [by eapply live_table | by intros; ok_steps].
Qed.

Lemma ok_thread_exit me retval (Q : unit → pst W → Prop) s : live [me] s →
  ok (thread_exit swtch me retval) Q s.
Proof.
  intros Hl. unfold thread_exit. ok_steps. eapply ok_close_files; [done|]. intros. ok_steps.
  eapply ok_put_cwd; [done|]. intros. ok_steps.
  eapply ok_wakeup1; [done|]. intros. ok_steps.
  - intros _. by eapply live_initproc.
  - by eapply ok_wakeup1.
  - eapply ok_sched; [by eapply live_table | by intros; ok_steps].
Qed.

(** wait and thread_join may free any slot, the caller's included (see
    ProcBugs.v), so afterwards only the table itself is known to be well
    formed. *)
Lemma ok_reap i (Q : Z → pst W → Prop) s : live [] s → (∀ r t, live [] t → Q r t) →
  ok (reap kend i) Q s.
Proof. intros Hl HQ. unfold reap, reap_slot, free_threads. ok_steps. by apply HQ. Qed.

Lemma ok_wait_scan me l hk (Q : option Z * bool → pst W → Prop) s : live [me] s →
  (∀ pid t, live [] t → Q (Some pid, true) t) → (∀ hk t, live [me] t → Q (None, hk) t) →
  ok (wait_scan kend me l hk) Q s.
Proof.
  intros Hl Hsome Hnone. revert hk. induction l as [|i l IH]; intros hk; simpl; [by ok_steps; apply Hnone|].
  apply safe_bind, safe_gets. do 2 (case_match; [|by apply IH]). ok_step.
  eapply ok_reap; [by eapply live_drop|]. intros. ok_steps. by apply Hsome.
Qed.

Lemma ok_wait fuel me (Q : Z → pst W → Prop) s : live [me] s → (∀ r t, live [] t → Q r t) →
  ok (wait kend swtch fuel me) Q s.
Proof.
  intros Hl HQ. unfold wait. ok_steps.
  match goal with H : live _ ?t |- _ => revert H; generalize t end.
  induction fuel as [|fuel IH]; intros u Hu; cbn [wait_loop]; ok_step;
    (eapply ok_wait_scan; [done | intros; ok_steps; by apply HQ|]); intros; do 2 ok_step;
    (case_match; [ok_steps; apply HQ; by eapply live_drop|]); [done|].
  ok_step. eapply ok_sleep_pt; [done|]. intros. by apply IH.
Qed.

Lemma ok_relink l i (Q : unit → pst W → Prop) ks s : live l s → (∀ a t, live l t → Q a t) →
  ok (relink ks i) Q s.
Proof.
  intros Hl HQ. induction ks as [|k ks IH]; simpl; ok_steps. all: by apply HQ.
Qed.

Lemma ok_join_reap me i retval (Q : unit → pst W → Prop) s : live [] s → (∀ a t, live [] t → Q a t) →
  ok (join_reap kend me i retval) Q s.
Proof.
  intros Hl HQ. unfold join_reap. ok_steps. eapply ok_relink; [done|]. intros. ok_steps.
  all: by apply HQ.
Qed.

Lemma ok_join_scan me th rv l hk (Q : bool * bool → pst W → Prop) s : live [me] s →
  (∀ t, live [] t → Q (true, true) t) → (∀ hk t, live [me] t → Q (false, hk) t) →
  ok (join_scan kend me th rv l hk) Q s.
Proof.
  intros Hl Hsome Hnone. revert hk. induction l as [|i l IH]; intros hk; simpl; [by ok_steps; apply Hnone|].
  apply safe_bind, safe_gets. do 2 (case_match; [|by apply IH]). ok_step.
  eapply ok_join_reap; [by eapply live_drop|]. intros. ok_steps. by apply Hsome.
Qed.

Lemma ok_thread_join fuel me th rv (Q : Z → pst W → Prop) s : live [me] s →
  (∀ r t, live [] t → Q r t) → ok (thread_join kend swtch fuel me th rv) Q s.
Proof.
  intros Hl HQ. unfold thread_join. ok_steps.
  match goal with H : live _ ?t |- _ => revert H; generalize t end.
  induction fuel as [|fuel IH]; intros u Hu; cbn [join_loop]; ok_step;
    (eapply ok_join_scan; [done | intros; ok_steps; by apply HQ|]); intros; do 2 ok_step;
    (case_match; [ok_steps; apply HQ; by eapply live_drop|]); [done|].
  ok_step. eapply ok_sleep_pt; [done|]. intros. by apply IH.
Qed.

Lemma ok_set_group_sz l me sz (Q : unit → pst W → Prop) s : live l s → (∀ a t, live l t → Q a t) →
  ok (set_group_sz me sz) Q s.
Proof. intros Hl HQ. unfold set_group_sz. ok_steps. by apply HQ. Qed.

Lemma mild_inherit p q : mild (inherit_sched p) q.
Proof. unfold inherit_sched. apply mild_keep; case_match; try done; by intros. Qed.

Lemma ok_thread_setup l me np th start sp sz (Q : unit → pst W → Prop) s : live l s → me ∈ l →
  (∀ a t, live l t → Q a t) → ok (thread_setup me np th start sp sz) Q s.
Proof.
  intros Hl Hme HQ. pose proof (live_lt l s me Hl Hme). unfold thread_setup. ok_steps.
  - intros _. apply mild_inherit.
  - intros _. unfold inherit_sched. by case_match.
  - by intros _ j [= <-].
  - eapply ok_copy_tf; [done|]. intros. ok_steps. by eapply ok_set_group_sz.
Qed.

Lemma ok_thread_create l me th start arg (Q : Z → pst W → Prop) s : live l s → me ∈ l →
  (∀ r t, live l t → Q r t) →
  ok (thread_create kend trapret forkret_addr me th start arg) Q s.
Proof.
  intros Hl Hme HQ. unfold thread_create. do 3 ok_step.
  eapply ok_allocproc; [done | by ok_steps; apply HQ|]. intros np t Hnp Ht. ok_steps.
  { apply HQ. by eapply live_drop. }
  eapply ok_set_group_sz; [done|]. intros. ok_steps. { apply HQ. by eapply live_drop. }
  eapply ok_thread_setup; [done | by right|]. intros. ok_steps.
  eapply ok_dup_files; [done|]. intros. ok_steps. eapply ok_dup_cwd; [done|]. intros. ok_steps.
  apply HQ. by eapply live_drop.
Qed.

Lemma ok_set_cpu_share l me portion (Q : Z → pst W → Prop) s : live l s → (∀ r t, live l t → Q r t) →
  ok (set_cpu_share me portion) Q s.
Proof.
  intros Hl HQ. unfold set_cpu_share, set_stride_value, set_pass_value. ok_steps. all: by apply HQ.
Qed.

Lemma ok_priorityBoost l (Q : unit → pst W → Prop) s : live l s → (∀ a t, live l t → Q a t) →
  ok priorityBoost Q s.
Proof. intros Hl HQ. unfold priorityBoost. ok_steps. by apply HQ. Qed.

Lemma ok_wakeup l ch (Q : unit → pst W → Prop) s : live l s → (∀ a t, live l t → Q a t) →
  ok (wakeup ch) Q s.
Proof.
  intros Hl HQ. unfold wakeup. ok_steps. eapply ok_wakeup1; [done|]. intros. ok_steps. by apply HQ.
Qed.

Lemma ok_forkret l (Q : unit → pst W → Prop) s : live l s → (∀ a t, live l t → Q a t) →
  ok forkret Q s.
Proof. intros Hl HQ. unfold forkret. ok_steps. all: by apply HQ. Qed.

(** The entry points of proc.c that a process calls. *)
Inductive pcall :=
  | Cfork | Cexit | Cwait | Ckill (pid : Z) | Cyield | Cgrowproc (n : Z) | Csleep (ch : chan)
  | Cwakeup (ch : chan) | Cthread_create (thread start_routine arg : Z)
  | Cthread_exit (retval : Z) | Cthread_join (thread retval : Z) | Cset_cpu_share (portion : Z)
  | CpriorityBoost | Cforkret.

Definition do_call (fuel me : nat) (c : pcall) : P Z :=
  match c with
  | Cfork => fork kend kdata trapret forkret_addr me
  | Cexit => exit swtch me;; mret 0
  | Cwait => wait kend swtch fuel me
  | Ckill pid => kill pid
  | Cyield => yield swtch me
  | Cgrowproc n => growproc kend me n
  | Csleep ch => acquire_pt;; sleep swtch me ch LkPtable;; release_pt;; mret 0
  | Cwakeup ch => wakeup ch;; mret 0
  | Cthread_create th start arg => thread_create kend trapret forkret_addr me th start arg
  | Cthread_exit rv => thread_exit swtch me rv;; mret 0
  | Cthread_join th rv => thread_join kend swtch fuel me th rv
  | Cset_cpu_share n => set_cpu_share me n
  | CpriorityBoost => priorityBoost;; mret 0
  | Cforkret => forkret;; mret 0
  end.

Lemma ok_call fuel me c s : live [me] s → ok (do_call fuel me c) (λ _, table_ok) s.
Proof.
  intros Hl. destruct c; cbn [do_call].
  - eapply ok_fork; [done | left | intros; by eapply live_table].
  - ok_step. by eapply ok_exit.
  - eapply ok_wait; [done | intros; by eapply live_table].
  - eapply ok_kill; [done | intros; by eapply live_table].
  - eapply ok_yield; [done | intros; by eapply live_table].
  - eapply ok_growproc; [done | left | intros; by eapply live_table].
  - ok_steps. eapply ok_sleep_pt; [done|]. intros. ok_steps. by eapply live_table.
  - ok_step. eapply ok_wakeup; [done|]. intros. ok_steps. by eapply live_table.
  - eapply ok_thread_create; [done | left | intros; by eapply live_table].
  - ok_step. by eapply ok_thread_exit.
  - eapply ok_thread_join; [done | intros; by eapply live_table].
  - eapply ok_set_cpu_share; [done | intros; by eapply live_table].
  - ok_step. eapply ok_priorityBoost; [done|]. intros. ok_steps. by eapply live_table.
  - ok_step. eapply ok_forkret; [done|]. intros. ok_steps. by eapply live_table.
Qed.

(** The scheduler, running processes that keep the table. *)
Context (run : nat → P unit).
Definition run_ok : Prop := ∀ i s, table_ok s → ok (run i) (λ _, table_ok) s.
Context (Hrun : run_ok).

Lemma ok_scheduler_slot i s : live [] s → ok (scheduler_slot run i) (λ _, live []) s.
Proof.
  intros Hl. unfold scheduler_slot, upd_cpu, switchkvm. ok_step. ok_step.
  apply safe_when; [|done]. intros Hst%is_state_true.
  assert (live [i] s) as Hi by (apply live_add; [done | unfold used; congruence]).
  clear Hl. ok_steps. eapply ok_switchuvm; [done|]. intros. ok_steps.
  eapply safe_mono; [apply Hrun; by eapply live_table|]. intros _ ? Ht%live_nil. by ok_steps.
Qed.

Lemma ok_scheduler n s : table_ok s → ok (scheduler run n) (λ _, table_ok) s.
Proof.
  intros Hok%live_nil. unfold scheduler, upd_cpu. ok_steps.
  apply (safe_foreach _ (live [])); [done | |intros; by eapply live_table].
  intros x t _ Ht. unfold scheduler_round, upd_cpu. ok_steps. by apply ok_scheduler_slot.
Qed.
End ops.

(** C5. The process table keeps its type: from a well-formed table userinit,
    every call a process makes into proc.c, whatever its arguments and however
    often it sleeps, and every round of the scheduler leave NPROC slots with
    NOFILE file entries, process pointers into the table, and distinct
    positive pids below nextpid in the slots in use; also where the code
    returns early with an error, and at each point where it sleeps. *)
Theorem proc_table_invariant {W} `{FileOps W} (kend kdata trapret forkret_addr : Z) (initcode : list Z)
    (swtch run : nat → M (pst W) unit) :
  swtch_ok swtch → run_ok run →
  (∀ s, table_ok s → safe table_ok (userinit kend kdata trapret forkret_addr initcode) (λ _, table_ok) s) ∧
  (∀ fuel me c s, live [me] s →
     safe table_ok (do_call kend kdata trapret forkret_addr swtch fuel me c) (λ _, table_ok) s) ∧
  (∀ n s, table_ok s → safe table_ok (scheduler run n) (λ _, table_ok) s).
Proof.
  intros Hsw Hrun. split_and!; intros.
  - by apply ok_userinit.
  - by apply ok_call.
  - by eapply ok_scheduler.
Qed.
