(* ===== verification/ProcLife.v ===== *)
(** * ProcLife: what fork and wait do to the table, exactly

    [fview s x m w lk t] describes a state [t] in the middle of an operation
    started in [s] that changes one slot: the slot holds [x], the memory is
    [m], the files are [w], and ptable.lock is held iff [lk]. *)

From Stdlib Require Import ZArith Lia Bool.
From stdpp Require Import base option list sets gmap strings numbers.
From S2P Require Import Prelude Cstring Kalloc Vm Proc ProcSpec.

#[local] Open Scope string_scope.
#[local] Open Scope list_scope.
#[local] Open Scope Z_scope.

(** ** Definitions *)

(** The slot after allocproc with the kernel stack [k]. *)
Definition new_proc (k pid : Z) (p : proc) : proc :=
  set_p_context (k + KSTACKSIZE - sizeof_trapframe - 4 - sizeof_context)
    (set_p_tf (k + KSTACKSIZE - sizeof_trapframe) (set_p_kstack k (alloc_fields pid p))).

(** The kernel stack allocproc builds: trapret above a context that starts at
    forkret. *)
Definition stack_frame (k trapret forkret_addr : Z) (m : kst) : kst :=
  let sp := k + KSTACKSIZE - sizeof_trapframe - 4 in
  let cx := sp - sizeof_context in
  set_km (st32 (mem_fill (st32 (km m) sp trapret) cx 0 sizeof_context) (cx + cx_eip) forkret_addr) m.

(** The files of the child: those of the parent where it has one, and what was
    in the slot elsewhere. *)
Fixpoint merge_files (i : nat) (fs o : list (option nat)) : list (option nat) :=
  match fs with
  | [] => o
  | a :: fs => merge_files (S i) fs (match a with Some f => <[i := Some f]> o | None => o end)
  end.

Definition fork_child (me : nat) (k pid pgdir : Z) (p old : proc) : proc :=
  set_p_state RUNNABLE (set_p_name (name_of (p_name p)) (set_p_cwd (p_cwd p)
    (set_p_ofile (merge_files 0 (p_ofile p) (p_ofile old))
      (set_p_parent (Some me) (set_p_sz (p_sz p) (set_p_pgdir pgdir (new_proc k pid old))))))).

(** *np->tf = *p->tf; np->tf->eax = 0 *)
Definition child_frame (tf ptf : Z) (m : kst) : kst :=
  set_km (st32 (mem_copy (km m) tf ptf sizeof_trapframe) (tf + tf_eax) 0) m.

(** filedup of every open file. *)
Definition dup_all {W} `{FileOps W} (fs : list (option nat)) : M (kst * W) unit :=
  foreach fs (λ a, match a with Some f => filedup f;; mret tt | None => mret tt end).

Section life.
Context {W : Type} `{FL : FileLaws W}.
#[local] Notation P := (M (pst W)).
Context (kend kdata trapret forkret_addr : Z).

Record fview (s : pst W) (np : nat) (pid : Z) (x : proc) (m : kst) (w : W) (lk : bool) (t : pst W) : Prop := {
  fv_procs : procs t = <[np := x]> (procs s);
  fv_mem : kmst t = m;
  fv_files : files t = w;
  fv_lock : pt_lock t = lk;
  fv_cli : c_ncli (ucpu t) = c_ncli (ucpu s) + (if lk then 1 else 0);
  fv_if : lk = true → c_if (ucpu t) = false;
  fv_init : initproc t = initproc s;
  fv_pid : nextpid t = pid
}.

Lemma fv_at s np pid x m w lk t : (np < length (procs s))%nat → fview s np pid x m w lk t →
  proc_at t np = x.
Proof. intros Hn Hv. unfold proc_at. rewrite (fv_procs _ _ _ _ _ _ _ _ Hv), list_lookup_insert_eq by done. done. Qed.

Lemma fv_other s np pid x m w lk t j : j ≠ np → fview s np pid x m w lk t → proc_at t j = proc_at s j.
Proof. intros Hn Hv. unfold proc_at. by rewrite (fv_procs _ _ _ _ _ _ _ _ Hv), list_lookup_insert_ne. Qed.

Lemma alter_insert_same {A} (f : A → A) (l : list A) i x : alter f i (<[i := x]> l) = <[i := f x]> l.
Proof.
  apply list_eq. intros j. destruct (decide (i = j)) as [<-|].
  - rewrite list_lookup_alter_eq. destruct (decide (i < length l)%nat).
    + by rewrite !list_lookup_insert_eq.
    + by rewrite !lookup_ge_None_2 by (rewrite length_insert; lia).
  - by rewrite list_lookup_alter_ne, !list_lookup_insert_ne.
Qed.

Lemma fv_upd s np pid x m w lk f (Q : unit → pst W → Prop) t : fview s np pid x m w lk t →
  (∀ t', fview s np pid (f x) m w lk t' → Q tt t') → wp (upd np f) Q t.
Proof.
  intros [] HQ. apply wp_modify, HQ. split; try done. simpl. rewrite fv_procs0. apply alter_insert_same.
Qed.

Lemma fv_kvm s np pid x m w lk {A} (k : M kst A) a m' (Q : A → pst W → Prop) t :
  fview s np pid x m w lk t → k m = Ok a m' →
  (∀ t', fview s np pid x m' w lk t' → Q a t') → wp (kvm k) Q t.
Proof. intros [] Hk HQ. apply zoom_wp. rewrite fv_mem0. unfold wp. rewrite Hk. by apply HQ. Qed.

Lemma fv_fsys s np pid x w lk {A} (k : M (kst * W) A) a w' (Q : A → pst W → Prop) t :
  fview s np pid x (fst w) (snd w) lk t → k w = Ok a w' →
  (∀ t', fview s np pid x (fst w') (snd w') lk t' → Q a t') → wp (fsys k) Q t.
Proof.
  intros [] Hk HQ. apply zoom_wp. rewrite fv_mem0, fv_files0, <- surjective_pairing. unfold wp. rewrite Hk.
  by apply HQ.
Qed.

Lemma fv_acquire s np pid x m w (Q : unit → pst W → Prop) t : fview s np pid x m w false t →
  (∀ t', fview s np pid x m w true t' → Q tt t') → wp acquire_pt Q t.
Proof.
  intros [] HQ. unfold acquire_pt, pushcli, upd_cpu. wp_steps. simpl. rewrite fv_lock0. wp_steps.
  apply HQ. split; simpl; try done. lia.
Qed.

Lemma fv_release s np pid x m w (Q : unit → pst W → Prop) t : 0 ≤ c_ncli (ucpu s) →
  fview s np pid x m w true t → (∀ t', fview s np pid x m w false t' → Q tt t') → wp release_pt Q t.
Proof.
  intros Hc [] HQ. unfold release_pt, popcli, upd_cpu. wp_steps. rewrite fv_lock0. wp_steps. simpl.
  rewrite fv_if0 by done. rewrite (proj2 (Z.ltb_ge _ _)) by lia. wp_steps.
  apply HQ. split; simpl; try done. lia.
Qed.

(** allocproc in a table with a free slot; [k] is 0 if memory is exhausted. *)
Lemma wp_allocproc s np k m1 (Q : option nat → pst W → Prop) : length (procs s) = NPROC →
  pt_lock s = false → 0 ≤ c_ncli (ucpu s) → find_unused s = Some np → nextpid s ≠ INT_MAX →
  kalloc (kmst s) = Ok k m1 →
  (∀ t, k = 0 →
        fview s np (nextpid s + 1)
          (set_p_state UNUSED (set_p_kstack 0 (alloc_fields (nextpid s) (proc_at s np)))) m1 (files s)
          false t → Q None t) →
  (∀ t, k ≠ 0 → fview s np (nextpid s + 1) (new_proc k (nextpid s) (proc_at s np))
          (stack_frame k trapret forkret_addr m1) (files s) false t → Q (Some np) t) →
  wp (allocproc trapret forkret_addr) Q s.
Proof.
  intros Hlen Hlk Hcli Hf Hpid Hk Hfail HQ. pose proof (find_unused_spec s np Hf) as [Hnp _].
  unfold allocproc. wp_step.
  eapply (fv_acquire s np (nextpid s) (proc_at s np) (kmst s) (files s)).
  { split; try done; [|lia]. symmetry. apply list_insert_id. by apply lookup_proc_at. }
  intros t Ht. wp_steps. replace (find_unused t) with (Some np).
  2: { rewrite <- Hf. unfold find_unused, proc_at. rewrite (fv_procs _ _ _ _ _ _ _ _ Ht).
       rewrite list_insert_id; [done|]. by apply lookup_proc_at. }
  wp_steps. rewrite (fv_pid _ _ _ _ _ _ _ _ Ht). rewrite (proj2 (Z.eqb_neq _ _)) by done. wp_steps.
  assert (fview s np (nextpid s + 1) (proc_at s np) (kmst s) (files s) true
            (set_nextpid (nextpid s + 1) t)) as Ht' by (destruct Ht; by split).
  clear Ht. eapply fv_upd; [done|]. intros t1 H1. wp_steps.
  assert (fview s np (nextpid s + 1) (alloc_fields (nextpid s) (proc_at s np)) (kmst s) (files s) true
            (set_pcount (pcount t1 + 1) t1)) as H2 by (destruct H1; by split).
  eapply fv_release; [done | done |]. intros t2 H3. wp_steps.
  eapply fv_kvm; [done | done |]. intros t3 H4. wp_steps.
  eapply fv_upd; [done|]. intros t4 H5. destruct (Z.eqb_spec k 0) as [->|Hk0].
  { wp_steps. eapply fv_upd; [done|]. intros t5 H6. wp_steps. by apply Hfail. }
  wp_steps. eapply fv_upd; [done|]. intros t5 H6. wp_steps. eapply fv_kvm; [done | done |]. intros t6 H7. wp_steps.
  eapply fv_upd; [done|]. intros t7 H8. wp_steps. eapply fv_kvm; [done | done |]. intros t8 H9. wp_steps.
  eapply fv_kvm; [done | done |]. intros t9 H10. wp_steps. by apply HQ.
Qed.

Lemma dup_one (f : nat) (w : kst * W) u w' : (filedup f;; mret tt) w = Ok u w' → filedup f w = Ok f w'.
Proof.
  intros Hd. apply bind_inv in Hd as (f' & w1 & Hf & Hr). injection Hr as _ ->.
  by rewrite <- (filedup_same f w f' w' Hf) at 2.
Qed.

(** The loop over the files, from entry [i] on. *)
Lemma fv_dup_from s np me pid lk w' (Q : unit → pst W → Prop) (fs : list (option nat)) :
  ∀ (i : nat) x w t, me ≠ np → drop i (p_ofile (proc_at s me)) = fs →
  fview s np pid x (fst w) (snd w) lk t → dup_all fs w = Ok tt w' →
  (∀ t', fview s np pid (set_p_ofile (merge_files i fs (p_ofile x)) x) (fst w') (snd w') lk t' → Q tt t') →
  wp (foreach (seq i (length fs)) (λ i,
        q ← proc_of me;
        match p_ofile q !! i with
        | Some (Some f) => f' ← fsys (filedup f); upd np (λ r, set_p_ofile (<[i := Some f']> (p_ofile r)) r)
        | _ => mret tt
        end)) Q t.
Proof.
  induction fs as [|a fs IH]; intros i x w t Hne Hfs Hv Hd HQ; simpl.
  { injection Hd as <-. apply wp_ret, HQ. simpl. destruct x. exact Hv. }
  assert (p_ofile (proc_at s me) !! i = Some a) as Ha.
  { rewrite <- (Nat.add_0_r i), <- lookup_drop, Hfs. done. }
  assert (drop (S i) (p_ofile (proc_at s me)) = fs) as Hfs'.
  { replace (S i) with (i + 1)%nat by lia. by rewrite <- drop_drop, Hfs. }
  apply bind_inv in Hd as ([] & w1 & Hd1 & Hd2).
  wp_step. wp_step. apply wp_gets. rewrite (fv_other _ _ _ _ _ _ _ _ _ Hne Hv), Ha.
  destruct a as [f|].
  - wp_step. eapply fv_fsys; [done | by apply (dup_one _ _ _ _ Hd1) |]. intros t1 H1.
    eapply fv_upd; [done|]. intros t2 H2. by eapply IH.
  - injection Hd1 as <-. apply wp_ret. by eapply IH.
Qed.

Lemma fv_dup_files s np me pid x w lk w' (Q : unit → pst W → Prop) t : me ≠ np →
  length (p_ofile (proc_at s me)) = NOFILE → fview s np pid x (fst w) (snd w) lk t →
  dup_all (p_ofile (proc_at s me)) w = Ok tt w' →
  (∀ t', fview s np pid (set_p_ofile (merge_files 0 (p_ofile (proc_at s me)) (p_ofile x)) x)
            (fst w') (snd w') lk t' → Q tt t') →
  wp (dup_files np me) Q t.
Proof.
  intros Hne Hlen Hv Hd HQ. unfold dup_files. rewrite <- Hlen. by eapply fv_dup_from.
Qed.

Lemma fv_dup_cwd s np me pid x w lk c w' (Q : unit → pst W → Prop) t : me ≠ np →
  p_cwd (proc_at s me) = Some c → fview s np pid x (fst w) (snd w) lk t → idup c w = Ok c w' →
  (∀ t', fview s np pid (set_p_cwd (Some c) x) (fst w') (snd w') lk t' → Q tt t') → wp (dup_cwd np me) Q t.
Proof.
  intros Hne Hc Hv Hi HQ. unfold dup_cwd. wp_step. apply wp_gets.
  rewrite (fv_other _ _ _ _ _ _ _ _ _ Hne Hv), Hc. wp_step.
  eapply fv_fsys; [done | done |]. intros t1 H1. by eapply fv_upd.
Qed.

Lemma lookup_merge fs : ∀ i o j, (i + length fs ≤ length o)%nat →
  merge_files i fs o !! j =
    match fs !! (j - i)%nat with
    | Some (Some f) => if decide (i ≤ j)%nat then Some (Some f) else o !! j
    | _ => o !! j
    end.
Proof.
  induction fs as [|a fs IH]; intros i o j Hlen; simpl in *; [done|].
  rewrite IH by (destruct a; rewrite ?length_insert; lia).
  destruct (lt_eq_lt_dec i j) as [[Hij|<-]|Hij].
  - replace (j - i)%nat with (S (j - S i)) by lia. simpl.
    destruct (fs !! (j - S i)%nat) as [[f|]|]; [by rewrite !decide_True by lia | |];
      (destruct a; [by rewrite list_lookup_insert_ne by lia | done]).
  - rewrite Nat.sub_diag. replace (i - S i)%nat with 0%nat by lia. simpl.
    destruct a as [f|]; destruct (fs !! 0%nat) as [[g|]|]; repeat case_decide; try lia;
      by rewrite ?list_lookup_insert_eq by lia.
  - replace (j - i)%nat with 0%nat by lia. replace (j - S i)%nat with 0%nat by lia. simpl.
    destruct a as [f|]; destruct (fs !! 0%nat) as [[g|]|]; repeat case_decide; try lia;
      by rewrite ?list_lookup_insert_ne by lia.
Qed.

(** The rest of fork once the memory is copied. *)
Lemma fv_copy_process s np me pid x m w lk c w1 w2 (Q : unit → pst W → Prop) t : me ≠ np →
  (np < length (procs s))%nat → length (p_ofile (proc_at s me)) = NOFILE →
  p_cwd (proc_at s me) = Some c → fview s np pid x m w lk t →
  dup_all (p_ofile (proc_at s me)) (child_frame (p_tf x) (p_tf (proc_at s me)) m, w) = Ok tt w1 →
  idup c w1 = Ok c w2 →
  (∀ t', fview s np pid
     (set_p_name (name_of (p_name (proc_at s me))) (set_p_cwd (Some c)
        (set_p_ofile (merge_files 0 (p_ofile (proc_at s me)) (p_ofile x))
           (set_p_parent (Some me) (set_p_sz (p_sz (proc_at s me)) x)))))
     (fst w2) (snd w2) lk t' → Q tt t') →
  wp (copy_process np me) Q t.
Proof.
  intros Hne Hnp Hlen Hc Hv Hd Hi HQ. unfold copy_process. wp_step. apply wp_gets.
  rewrite (fv_other _ _ _ _ _ _ _ _ _ Hne Hv). wp_step. eapply fv_upd; [done|]. intros t1 H1. wp_step.
  unfold copy_tf. wp_step. apply wp_gets. wp_step. apply wp_gets.
  rewrite (fv_at _ _ _ _ _ _ _ _ Hnp H1), (fv_other _ _ _ _ _ _ _ _ _ Hne H1).
  eapply fv_kvm; [done | reflexivity |]. intros t2 H2. wp_step. apply wp_gets.
  rewrite (fv_at _ _ _ _ _ _ _ _ Hnp H2). wp_step.
  eapply fv_kvm; [done | reflexivity |]. intros t3 H3. wp_step.
  eapply (fv_dup_files s np me pid _ (child_frame (p_tf x) (p_tf (proc_at s me)) m, w));
    [done | done | done | done |]. intros t4 H4. wp_step.
  eapply fv_dup_cwd; [done | done | done | done |]. intros t5 H5. wp_step. apply wp_gets.
  rewrite (fv_other _ _ _ _ _ _ _ _ _ Hne H5). eapply fv_upd; [done|]. intros t6 H6. by apply HQ.
Qed.

(** The states in which a process calls fork. *)
Definition can_call (me : nat) (s : pst W) : Prop :=
  table_ok s ∧ used (proc_at s me) ∧ pt_lock s = false ∧ 0 ≤ c_ncli (ucpu s) ∧ nextpid s ≠ INT_MAX.

Lemma can_call_fresh me s np : can_call me s → find_unused s = Some np →
  length (procs s) = NPROC ∧ me ≠ np ∧ (np < length (procs s))%nat ∧
  length (p_ofile (proc_at s me)) = NOFILE.
Proof.
  intros (Hok & Hu & _) [Hnp Hst]%find_unused_spec. pose proof Hok as (Hlen & _).
  split_and!; [done | by intros -> | lia |].
  apply (table_ok_slot s me Hok). by apply (used_lt s).
Qed.

Lemma fork_succeeds me s np k m1 d m2 c w1 w2 :
  can_call me s → find_unused s = Some np →
  kalloc (kmst s) = Ok k m1 → k ≠ 0 →
  copyuvm kend kdata (p_pgdir (proc_at s me)) (p_sz (proc_at s me)) (stack_frame k trapret forkret_addr m1)
    = Ok d m2 → d ≠ 0 →
  p_cwd (proc_at s me) = Some c →
  dup_all (p_ofile (proc_at s me)) (child_frame (k + KSTACKSIZE - sizeof_trapframe) (p_tf (proc_at s me)) m2,
    files s) = Ok tt w1 →
  idup c w1 = Ok c w2 →
  wp (fork kend kdata trapret forkret_addr me)
     (λ r t, r = nextpid s ∧
        fview s np (nextpid s + 1) (fork_child me k (nextpid s) d (proc_at s me) (proc_at s np))
          (fst w2) (snd w2) false t) s.
Proof.
  intros Hcan Hf Hk Hk0 Hd Hd0 Hc Hw1 Hw2.
  destruct (can_call_fresh me s np Hcan Hf) as (Hlen & Hne & Hnp & Hof).
  destruct Hcan as (_ & _ & Hlk & Hcli & Hpid). unfold fork. wp_step.
  eapply wp_allocproc; [done | done | done | done | done | done | by intros |]. intros t1 _ H1.
  wp_step. apply wp_gets.
  rewrite (fv_other _ _ _ _ _ _ _ _ _ Hne H1). wp_step.
  eapply fv_kvm; [done | done |]. intros t2 H2. wp_step. eapply fv_upd; [done|]. intros t3 H3.
  rewrite (proj2 (Z.eqb_neq _ _)) by done. wp_step.
  eapply fv_copy_process; [done ..|]. intros t4 H4. wp_step. apply wp_gets.
  rewrite (fv_at _ _ _ _ _ _ _ _ Hnp H4). wp_step.
  eapply fv_acquire; [done|]. intros t5 H5. wp_step. eapply fv_upd; [done|]. intros t6 H6. wp_step.
  eapply fv_release; [done | done |]. intros t7 H7. wp_steps. split; [done|].
  unfold fork_child. by rewrite Hc.
Qed.

Lemma fork_no_slot me s : can_call me s → find_unused s = None →
  wp (fork kend kdata trapret forkret_addr me)
     (λ r t, r = -1 ∧ procs t = procs s ∧ kmst t = kmst s ∧ files t = files s ∧ pt_lock t = false) s.
Proof.
  intros (Hok & Hu & Hlk & Hcli & _) Hf. unfold fork, allocproc. do 2 wp_step.
  eapply (fv_acquire s me (nextpid s) (proc_at s me) (kmst s) (files s)).
  { split; try done; [|lia]. symmetry. apply list_insert_id. apply lookup_proc_at; [by destruct Hok|].
    apply (used_lt s); [by destruct Hok | done]. }
  intros t Ht. assert (procs t = procs s) as Hp.
  { rewrite (fv_procs _ _ _ _ _ _ _ _ Ht). apply list_insert_id. apply lookup_proc_at; [by destruct Hok|].
    apply (used_lt s); [by destruct Hok | done]. }
  wp_steps. replace (find_unused t) with (@None nat).
  2: { rewrite <- Hf. unfold find_unused, proc_at. by rewrite Hp. }
  wp_step. eapply fv_release; [done | done |]. intros t' Ht'. wp_steps.
  pose proof (fv_procs _ _ _ _ _ _ _ _ Ht). destruct Ht'. split_and!; congruence.
Qed.

Lemma fork_no_stack me s np m1 : can_call me s → find_unused s = Some np → kalloc (kmst s) = Ok 0 m1 →
  wp (fork kend kdata trapret forkret_addr me)
     (λ r t, r = -1 ∧ ∃ x, p_state x = UNUSED ∧ fview s np (nextpid s + 1) x m1 (files s) false t) s.
Proof.
  intros Hcan Hf Hk. destruct (can_call_fresh me s np Hcan Hf) as (Hlen & _).
  destruct Hcan as (_ & _ & Hlk & Hcli & Hpid). unfold fork. wp_step.
  eapply wp_allocproc; [done | done | done | done | done | done | | done].
  intros t1 _ H1. wp_steps. split; [done|]. eexists. by split; [|exact H1].
Qed.

Lemma fork_no_memory me s np k m1 m2 m3 : can_call me s → find_unused s = Some np →
  kalloc (kmst s) = Ok k m1 → k ≠ 0 →
  copyuvm kend kdata (p_pgdir (proc_at s me)) (p_sz (proc_at s me)) (stack_frame k trapret forkret_addr m1)
    = Ok 0 m2 → kfree kend k m2 = Ok tt m3 →
  wp (fork kend kdata trapret forkret_addr me)
     (λ r t, r = -1 ∧ ∃ x, p_state x = UNUSED ∧ fview s np (nextpid s + 1) x m3 (files s) false t) s.
Proof.
  intros Hcan Hf Hk Hk0 Hd Hfr. destruct (can_call_fresh me s np Hcan Hf) as (Hlen & Hne & Hnp & _).
  destruct Hcan as (_ & _ & Hlk & Hcli & Hpid). unfold fork. wp_step.
  eapply wp_allocproc; [done | done | done | done | done | done | by intros |]. intros t1 _ H1.
  wp_step. apply wp_gets. rewrite (fv_other _ _ _ _ _ _ _ _ _ Hne H1). wp_step.
  eapply fv_kvm; [done | done |]. intros t2 H2. wp_step. eapply fv_upd; [done|]. intros t3 H3. simpl.
  wp_step. apply wp_gets. rewrite (fv_at _ _ _ _ _ _ _ _ Hnp H3). wp_step.
  eapply fv_kvm; [done | done |]. intros t4 H4. wp_step. eapply fv_upd; [done|]. intros t5 H5. wp_steps.
  split; [done|]. eexists. by split; [|exact H5].
Qed.


(** ** wait *)

(** The run up to the first context switch. *)
Definition stop : nat → P unit := λ i, sleep_on (ChProc i).

Definition is_child (me : nat) (p : proc) : bool := bool_decide (p_parent p = Some me).
Definition zombie_child (me : nat) (p : proc) : bool := is_child me p && is_state ZOMBIE p.

Lemma wait_scan_none me l hk (s : pst W) : Forall (λ i, zombie_child me (proc_at s i) = false) l →
  wait_scan kend me l hk s =
    Ok (None, hk || existsb (λ i, is_child me (proc_at s i)) l) s.
Proof.
  revert hk. induction l as [|i l IH]; intros hk Hz; simpl; [by rewrite orb_false_r|].
  apply list.Forall_cons in Hz as [Hi Hz]. rewrite (bind_ok _ _ s (proc_at s i) s) by done.
  unfold zombie_child, is_child in *. destruct (bool_decide (p_parent (proc_at s i) = Some me)); simpl in *.
  - rewrite Hi, IH by done. simpl. by rewrite orb_true_r.
  - by rewrite IH.
Qed.

Lemma wait_scan_first me l i l' hk (s : pst W) : Forall (λ i, zombie_child me (proc_at s i) = false) l →
  zombie_child me (proc_at s i) = true →
  wait_scan kend me (l ++ i :: l') hk s = (pid ← reap kend i; mret (Some pid, true)) s.
Proof.
  intros Hl Hi. revert hk. induction l as [|j l IH]; intros hk; simpl.
  - apply andb_true_iff in Hi as [H1 H2]. rewrite (bind_ok _ _ s (proc_at s i) s) by done.
    unfold is_child in H1. by rewrite H1, H2.
  - apply list.Forall_cons in Hl as [Hj Hl]. rewrite (bind_ok _ _ s (proc_at s j) s) by done.
    unfold zombie_child, is_child in Hj. destruct (bool_decide _); simpl in *; [rewrite Hj|]; by rewrite IH.
Qed.

(** No slot has [i] as its main thread. *)
Definition no_threads (i : nat) (s : pst W) : Prop := ∀ k, p_main_thread (proc_at s k) ≠ Some i.

Lemma free_threads_none i s : no_threads i s → free_threads kend i s = Ok tt s.
Proof.
  intros Hn. unfold free_threads, for_procs. induction (seq 0 NPROC) as [|k l IH]; [done|].
  simpl. rewrite (bind_ok _ _ s tt s); [done|]. rewrite (bind_ok _ _ s (proc_at s k) s) by done.
  by rewrite bool_decide_eq_false_2.
Qed.

Lemma fv_reap_slot s i m m1 m2 t (Q : Z → pst W → Prop) : let p := proc_at s i in
  (i < length (procs s))%nat → fview s i (nextpid s) p m (files s) true t →
  kfree kend (p_kstack p) m = Ok tt m1 → freevm kend (p_pgdir p) m1 = Ok tt m2 →
  (∀ t', fview s i (nextpid s) (clear_slot (set_p_kstack 0 p)) m2 (files s) true t' → Q (p_pid p) t') →
  wp (reap_slot kend i) Q t.
Proof.
  intros p Hi Ht Hk Hf HQ. unfold reap_slot. wp_step. apply wp_gets.
  rewrite (fv_at _ _ _ _ _ _ _ _ Hi Ht). wp_step.
  eapply fv_kvm; [done | done |]. intros t1 H1. wp_step. eapply fv_upd; [done|]. intros t2 H2. wp_step.
  apply wp_gets. rewrite (fv_at _ _ _ _ _ _ _ _ Hi H2). wp_step.
  eapply fv_kvm; [done | done |]. intros t3 H3. wp_step. eapply fv_upd; [done|]. intros t4 H4. wp_steps.
  by apply HQ.
Qed.

Lemma fv_reap s i m m1 m2 t (Q : Z → pst W → Prop) : let p := proc_at s i in
  (i < length (procs s))%nat → no_threads i s →
  fview s i (nextpid s) p m (files s) true t → kfree kend (p_kstack p) m = Ok tt m1 →
  freevm kend (p_pgdir p) m1 = Ok tt m2 →
  (∀ t', fview s i (nextpid s) (clear_slot (set_p_kstack 0 p)) m2 (files s) true t' → Q (p_pid p) t') →
  wp (reap kend i) Q t.
Proof.
  intros p Hi Hn Ht Hk Hf HQ. unfold reap. wp_step.
  assert (procs t = procs s) as Hp.
  { rewrite (fv_procs _ _ _ _ _ _ _ _ Ht). apply list_insert_id.
    unfold p, proc_at. destruct (procs s !! i) eqn:E; [done|]. apply lookup_ge_None in E. lia. }
  assert (no_threads i t) as Hn' by (intros k; unfold proc_at; rewrite Hp; apply Hn).
  eapply wp_ok; [by apply free_threads_none|]. by eapply fv_reap_slot.
Qed.

Lemma seq_split_at i : (i < NPROC)%nat → seq 0 NPROC = seq 0 i ++ i :: seq (S i) (NPROC - S i).
Proof.
  intros Hi. replace NPROC with (i + S (NPROC - S i))%nat at 1 by lia. by rewrite seq_app.
Qed.

(** wakeup1 makes exactly the sleepers on the channel runnable. *)
Definition woken (ch : chan) (p : proc) : proc :=
  if is_state SLEEPING p && bool_decide (p_chan p = ch) then set_p_state RUNNABLE p else p.

Lemma wakeup1_exact ch (s : pst W) (Q : unit → pst W → Prop) : length (procs s) = NPROC →
  Q tt (set_procs (woken ch <$> procs s) s) → wp (wakeup1 ch) Q s.
Proof.
  intros Hlen HQ. unfold wakeup1, for_procs.
  apply (wp_foreach (λ l1 t, t = set_procs ((woken ch <$> take (length l1) (procs s)) ++ drop (length l1) (procs s)) s)).
  - simpl. destruct s. done.
  - intros l1 i l2 t Hl ->. assert (i = length l1 ∧ (i < NPROC)%nat) as [-> Hi].
    { assert (seq 0 NPROC !! length l1 = Some i) as Hx by (rewrite Hl; by rewrite list_lookup_middle).
      apply lookup_seq in Hx as [-> Hx]. simpl. split; [done | lia]. }
    destruct (lookup_lt_is_Some_2 (procs s) (length l1)) as [p Hp]; [lia|].
    assert (length (woken ch <$> take (length l1) (procs s)) = length l1) as Hlt.
    { rewrite length_fmap, length_take. lia. }
    assert (proc_at (set_procs ((woken ch <$> take (length l1) (procs s)) ++ drop (length l1) (procs s)) s)
              (length l1) = p) as Hat.
    { unfold proc_at. simpl. rewrite lookup_app_r by lia. by rewrite Hlt, Nat.sub_diag, lookup_drop, Nat.add_0_r, Hp. }
    assert ((woken ch <$> take (length (l1 ++ [length l1])) (procs s)) ++ drop (length (l1 ++ [length l1])) (procs s)
       = (woken ch <$> take (length l1) (procs s)) ++ woken ch p :: drop (S (length l1)) (procs s)) as ->.
    { rewrite length_app, Nat.add_1_r. simpl. rewrite (take_S_r _ _ _ Hp), fmap_app, <- app_assoc. done. }
    rewrite (drop_S _ _ _ Hp) in *. wp_step. apply wp_gets. rewrite Hat.
    assert (woken ch p = if is_state SLEEPING p && bool_decide (p_chan p = ch) then set_p_state RUNNABLE p else p)
      as -> by done.
    apply wp_when; intros ->; [|done]. apply wp_modify. unfold set_procs. simpl. f_equal.
    rewrite alter_app_r_alt by lia. by rewrite Hlt, Nat.sub_diag.
  - intros t ->. rewrite length_seq, <- Hlen, firstn_all, drop_all, app_nil_r. done.
Qed.

(** The states in which a process can start an operation on the table. *)
Definition calm (s : pst W) : Prop :=
  length (procs s) = NPROC ∧ pt_lock s = false ∧ 0 ≤ c_ncli (ucpu s).

Lemma fv_start s i : length (procs s) = NPROC → (i < NPROC)%nat → pt_lock s = false →
  fview s i (nextpid s) (proc_at s i) (kmst s) (files s) false s.
Proof.
  intros. split; try done; [|lia]. symmetry. apply list_insert_id. by apply lookup_proc_at.
Qed.

Lemma fv_same_procs s i m w lk t : length (procs s) = NPROC → (i < NPROC)%nat →
  fview s i (nextpid s) (proc_at s i) m w lk t → procs t = procs s.
Proof. intros ?? []. rewrite fv_procs0. apply list_insert_id. by apply lookup_proc_at. Qed.

Lemma zombie_scan_ext me l (s t : pst W) : procs t = procs s →
  Forall (λ i, zombie_child me (proc_at s i) = false) l →
  Forall (λ i, zombie_child me (proc_at t i) = false) l.
Proof. intros Hp. unfold proc_at. by rewrite Hp. Qed.

(** The first scan finds the zombie child in slot [i] and reaps it. *)
Lemma wait_scan_finds me i (s : pst W) {A} (k : option Z * bool → P A) Q : (i < NPROC)%nat →
  zombie_child me (proc_at s i) = true → (∀ j, (j < i)%nat → zombie_child me (proc_at s j) = false) →
  wp (reap kend i) (λ pid, wp (k (Some pid, true)) Q) s →
  wp (r ← wait_scan kend me (seq 0 NPROC) false; k r) Q s.
Proof.
  intros Hi Hz Hfirst Hw. unfold wp, mbind, M_bind in *. rewrite (seq_split_at i Hi), wait_scan_first.
  - unfold mbind, M_bind. by destruct (reap kend i s).
  - apply list.Forall_forall. intros j Hj%elem_of_seq. apply Hfirst. lia.
  - done.
Qed.

Lemma wait_reaps swtch fuel me (s : pst W) i m1 m2 : let p := proc_at s i in calm s →
  (i < NPROC)%nat → zombie_child me p = true →
  (∀ j, (j < i)%nat → zombie_child me (proc_at s j) = false) → no_threads i s →
  kfree kend (p_kstack p) (kmst s) = Ok tt m1 → freevm kend (p_pgdir p) m1 = Ok tt m2 →
  wp (wait kend swtch fuel me) (λ r t, r = p_pid p ∧
     fview s i (nextpid s) (clear_slot (set_p_kstack 0 p)) m2 (files s) false t) s.
Proof.
  intros p (Hlen & Hlk & Hcli) Hi Hz Hfirst Hn Hk Hf. unfold wait. wp_step.
  eapply (fv_acquire s i); [by apply fv_start|]. intros t Ht.
  pose proof (fv_same_procs s i _ _ _ t Hlen Hi Ht) as Hp.
  destruct fuel; cbn [wait_loop]; (apply (wait_scan_finds me i); [done | by unfold proc_at; rewrite Hp
      | by unfold proc_at; rewrite Hp |]);
    (eapply (fv_reap s i); [lia | done | done | done | done |]); intros t' Ht'; wp_step;
    (eapply fv_release; [done | done |]); intros t'' Ht''; wp_steps; done.
Qed.

(** No child is a zombie. *)
Lemma wait_returns_error swtch fuel me (s : pst W) : calm s → (me < NPROC)%nat →
  (∀ i, zombie_child me (proc_at s i) = false) →
  (∀ i, (i < NPROC)%nat → is_child me (proc_at s i) = false) ∨ p_killed (proc_at s me) ≠ 0 →
  wp (wait kend swtch fuel me) (λ r t, r = -1 ∧ procs t = procs s ∧ pt_lock t = false) s.
Proof.
  intros (Hlen & Hlk & Hcli) Hme Hz Hno. unfold wait. wp_step.
  eapply (fv_acquire s me); [by apply fv_start|]. intros t Ht.
  pose proof (fv_same_procs s me _ _ _ t Hlen Hme Ht) as Hp.
  assert (wait_scan kend me (seq 0 NPROC) false t
          = Ok (None, existsb (λ i, is_child me (proc_at t i)) (seq 0 NPROC)) t) as Hscan.
  { rewrite wait_scan_none; [done|]. apply (zombie_scan_ext me _ s); [done|]. by apply list.Forall_forall. }
  assert (negb (existsb (λ i, is_child me (proc_at t i)) (seq 0 NPROC)) || negb (p_killed (proc_at t me) =? 0)
          = true) as Hret.
  { unfold proc_at. rewrite Hp. fold (proc_at s me). destruct Hno as [Hno|Hk].
    - replace (existsb _ _) with false; [done|]. symmetry. apply not_true_iff_false.
      rewrite existsb_exists. intros (i & Hi & Hc). apply in_seq in Hi.
      pose proof (Hno i ltac:(lia)) as Hc'. unfold proc_at in Hc'. congruence.
    - rewrite (proj2 (Z.eqb_neq _ _)) by done. by rewrite orb_true_r. }
  destruct fuel; cbn [wait_loop]; wp_step; (eapply wp_ok; [exact Hscan|]); cbv beta iota; wp_step; apply wp_gets;
    rewrite Hret; wp_step; (eapply fv_release; [done | done |]); intros t' Ht'; wp_steps;
    split_and!; try done; [by apply (fv_same_procs s me _ _ _ _ Hlen Hme Ht') | by destruct Ht' |
                           by apply (fv_same_procs s me _ _ _ _ Hlen Hme Ht') | by destruct Ht'].
Qed.

Lemma wait_sleeps fuel me (s : pst W) : calm s → (me < NPROC)%nat → c_ncli (ucpu s) = 0 →
  (∀ i, zombie_child me (proc_at s i) = false) → (∃ i, (i < NPROC)%nat ∧ is_child me (proc_at s i) = true) →
  p_killed (proc_at s me) = 0 →
  ∃ t, wait kend stop (S fuel) me s = Sleep (ChProc me) t ∧
    procs t = <[me := set_p_state SLEEPING (set_p_chan (ChProc me) (proc_at s me))]> (procs s) ∧
    pt_lock t = true.
Proof.
  intros (Hlen & Hlk & Hcli) Hme Hcli0 Hz (i & Hi & Hc) Hk. unfold wait.
  edestruct (wp_elim (acquire_pt (W := W)) (λ _, fview s me (nextpid s) (proc_at s me) (kmst s) (files s) true) s)
    as ([] & t & Hacq & Ht).
  { eapply (fv_acquire s me); [by apply fv_start|]. done. }
  rewrite (bind_ok _ _ _ _ _ Hacq). pose proof (fv_same_procs s me _ _ _ t Hlen Hme Ht) as Hp.
  cbn [wait_loop]. erewrite (bind_ok _ _ t).
  2: { rewrite wait_scan_none; [done|]. apply (zombie_scan_ext me _ s); [done|]. by apply list.Forall_forall. }
  cbv beta iota. rewrite (bind_ok _ _ t (proc_at t me) t) by done.
  replace (existsb _ _) with true.
  2: { symmetry. apply existsb_exists. exists i. split; [apply in_seq; lia|]. unfold proc_at. by rewrite Hp. }
  rewrite (fv_at s me _ _ _ _ _ t ltac:(lia) Ht), Hk. simpl. unfold sleep.
  edestruct (wp_elim (upd me (λ p, set_p_state SLEEPING (set_p_chan (ChProc me) p)))
    (λ _, fview s me (nextpid s) (set_p_state SLEEPING (set_p_chan (ChProc me) (proc_at s me))) (kmst s)
       (files s) true) t) as ([] & t1 & Hu & H1).
  { eapply fv_upd; [done|]. done. }
  exists t1. split_and!; [|by destruct H1 ..].
  unfold mbind, M_bind. rewrite Hu. unfold sched, mbind, M_bind, proc_of, gets. cbv beta iota.
  rewrite (fv_lock _ _ _ _ _ _ _ _ H1). cbn [negb].
  rewrite (fv_cli _ _ _ _ _ _ _ _ H1), Hcli0. simpl.
  rewrite (fv_at s me _ _ _ _ _ t1 ltac:(lia) H1). simpl.
  by rewrite (fv_if _ _ _ _ _ _ _ _ H1).
Qed.

(** C26. wait, called by a process in an unlocked table: it reaps the first
    zombie child in the table, if that has no threads, returning its pid, with
    its kernel stack and memory freed and its slot cleared, and changes no
    other slot; with no children, or killed while none is a zombie, it
    returns -1 and changes nothing; and with children none of which is a
    zombie it goes to sleep on its own address, still holding the lock, so an
    exit in between is not missed. *)
Theorem wait_outcomes me s : calm s → (me < NPROC)%nat →
  (∀ swtch fuel i m1 m2, (i < NPROC)%nat → zombie_child me (proc_at s i) = true →
     (∀ j, (j < i)%nat → zombie_child me (proc_at s j) = false) → no_threads i s →
     kfree kend (p_kstack (proc_at s i)) (kmst s) = Ok tt m1 →
     freevm kend (p_pgdir (proc_at s i)) m1 = Ok tt m2 →
     ∃ t, wait kend swtch fuel me s = Ok (p_pid (proc_at s i)) t ∧
       procs t = <[i := clear_slot (set_p_kstack 0 (proc_at s i))]> (procs s) ∧
       kmst t = m2 ∧ pt_lock t = false) ∧
  ((∀ i, zombie_child me (proc_at s i) = false) →
     (∀ swtch fuel, (∀ i, (i < NPROC)%nat → is_child me (proc_at s i) = false) ∨ p_killed (proc_at s me) ≠ 0 →
        ∃ t, wait kend swtch fuel me s = Ok (-1) t ∧ procs t = procs s ∧ pt_lock t = false) ∧
     (∀ fuel i, (i < NPROC)%nat → is_child me (proc_at s i) = true → p_killed (proc_at s me) = 0 →
        c_ncli (ucpu s) = 0 →
        ∃ t, wait kend stop (S fuel) me s = Sleep (ChProc me) t ∧
          procs t = <[me := set_p_state SLEEPING (set_p_chan (ChProc me) (proc_at s me))]> (procs s) ∧
          pt_lock t = true)).
Proof.
  intros Hcalm Hme. split.
  - intros. edestruct (wp_elim _ _ _ (wait_reaps swtch fuel me s i m1 m2 Hcalm H0 H1 H2 H3 H4 H5))
      as (r & t & Hr & -> & []). eauto 10.
  - intros Hz. split.
    + intros swtch fuel Hno.
      destruct (wp_elim _ _ _ (wait_returns_error swtch fuel me s Hcalm Hme Hz Hno)) as (r & t & Hr & -> & ?).
      eauto.
    + intros. eapply wait_sleeps; eauto.
Qed.
End life.
