(* ===== verification/ProcExit.v ===== *)
(** * ProcExit: exit, and what wait does to a slot with a stale main thread

    Between two states of exit every slot evolves by [slot_step]: pids and
    stacks stay, a zombie stays a zombie, nobody falls asleep, and nobody
    becomes a child of the process that exits.  Each loop of exit establishes
    a fact about every slot that such steps keep. *)

From Stdlib Require Import ZArith Lia Bool.
From stdpp Require Import base option list sets gmap strings numbers.
From S2P Require Import Prelude Cstring Kalloc Vm Proc ProcSpec ProcLife.

#[local] Open Scope string_scope.
#[local] Open Scope list_scope.
#[local] Open Scope Z_scope.

(** fileclose of every open file. *)
Definition close_all {W} `{FileOps W} (fs : list (option nat)) : M (kst * W) unit :=
  foreach fs (λ a, match a with Some f => fileclose f | None => mret tt end).

(** How a slot may change while [me] exits and [init] is the init process. *)
Record slot_step (me : nat) (init : option nat) (q q' : proc) : Prop := {
  st_pid : p_pid q' = p_pid q;
  st_ptid : p_ptid q' = p_ptid q;
  st_pgdir : p_pgdir q' = p_pgdir q;
  st_kstack : p_kstack q' = p_kstack q;
  st_chan : p_chan q' = p_chan q;
  st_files : p_ofile q' = p_ofile q;
  st_cwd : p_cwd q' = p_cwd q;
  st_flag : p_t_flag q' = p_t_flag q;
  st_used : used q' ↔ used q;
  st_sleep : p_state q' = SLEEPING → p_state q = SLEEPING;
  st_zombie : p_state q = ZOMBIE → p_state q' = ZOMBIE;
  st_parent : p_parent q' = p_parent q ∨ (p_parent q = Some me ∧ p_parent q' = init)
}.

Lemma slot_step_refl me init q : slot_step me init q q.
Proof. split; auto. Qed.
Lemma slot_step_trans me init q1 q2 q3 :
  slot_step me init q1 q2 → slot_step me init q2 q3 → slot_step me init q1 q3.
Proof. intros [] []. split; try congruence; try tauto; auto. intuition congruence. Qed.

Section exit.
Context {W : Type} `{FL : FileLaws W}.
#[local] Notation P := (M (pst W)).

(** The state [t] is reached from [s] by slot steps under ptable.lock. *)
Record evolved (me : nat) (s t : pst W) : Prop := {
  ev_len : length (procs t) = length (procs s);
  ev_slot : ∀ j, slot_step me (initproc s) (proc_at s j) (proc_at t j);
  ev_init : initproc t = initproc s;
  ev_lock : pt_lock t = pt_lock s;
  ev_cpu : ucpu t = ucpu s;
  ev_mem : kmst t = kmst s;
  ev_files : files t = files s
}.

Lemma evolved_refl me s : evolved me s s.
Proof. split; try done. intros. apply slot_step_refl. Qed.
Lemma evolved_trans me s t u : evolved me s t → evolved me t u → evolved me s u.
Proof.
  intros [] []. split; try congruence. intros j. eapply slot_step_trans; [done|]. by rewrite <- ev_init0.
Qed.

Lemma evolved_alter me s i f : ((i < length (procs s))%nat → slot_step me (initproc s) (proc_at s i) (f (proc_at s i))) →
  evolved me s (set_procs (alter f i (procs s)) s).
Proof.
  intros Hf. destruct (decide (i < length (procs s))%nat) as [Hi|Hi].
  - split; try done; [simpl; by rewrite length_alter|]. intros j. rewrite proc_at_alter by done.
    case_decide; [subst; auto | apply slot_step_refl].
  - rewrite alter_ge by lia. apply evolved_refl.
Qed.

(** A loop over the table whose body for slot [i] establishes [R i] there,
    where slot steps keep [R i]. *)
Lemma for_evolves me (R : nat → proc → Prop) (body : nat → P unit) (Q : unit → pst W → Prop) s :
  (∀ i q q', R i q → slot_step me (initproc s) q q' → R i q') →
  (∀ i t, (i < NPROC)%nat → evolved me s t →
     wp (body i) (λ _ t', evolved me t t' ∧ R i (proc_at t' i)) t) →
  (∀ t, evolved me s t → (∀ i, (i < NPROC)%nat → R i (proc_at t i)) → Q tt t) →
  wp (for_procs body) Q s.
Proof.
  intros Hst Hb HQ. unfold for_procs.
  apply (wp_foreach (λ l1 t, evolved me s t ∧ ∀ i, i ∈ l1 → R i (proc_at t i))).
  - split; [apply evolved_refl|]. intros i Hi. by apply elem_of_nil in Hi.
  - intros l1 i l2 t Hl [Het HR]. eapply wp_mono; [apply Hb; [|done]|].
    + assert (i ∈ seq 0 NPROC) as Hi by (rewrite Hl; apply elem_of_app; right; left).
      apply elem_of_seq in Hi. lia.
    + intros _ t' [Het' HRi]. split; [by eapply evolved_trans|]. intros j Hj.
      apply elem_of_app in Hj as [Hj|Hj%list_elem_of_singleton]; [|by subst].
      eapply Hst; [by apply HR|]. rewrite <- (ev_init _ _ _ Het). apply Het'.
  - intros t [Het HR]. apply HQ; [done|]. intros i Hi. apply HR, elem_of_seq. lia.
Qed.

(** wakeup1 leaves no sleeper on the channel. *)
Lemma wakeup1_evolves me ch (Q : unit → pst W → Prop) s : length (procs s) = NPROC →
  (∀ t, evolved me s t →
     (∀ i, (i < NPROC)%nat → ¬ (p_state (proc_at t i) = SLEEPING ∧ p_chan (proc_at t i) = ch)) → Q tt t) →
  wp (wakeup1 ch) Q s.
Proof.
  intros Hlen HQ. unfold wakeup1.
  apply (for_evolves me (λ _ q, ¬ (p_state q = SLEEPING ∧ p_chan q = ch))); [| |done].
  - intros _ q q' Hq [] [Hs Hc]. apply Hq. split; [auto | congruence].
  - intros i t Hi Het. wp_step. apply wp_gets. destruct (is_state SLEEPING (proc_at t i)) eqn:Hst; simpl.
    + apply is_state_true in Hst. destruct (bool_decide_reflect (p_chan (proc_at t i) = ch)) as [Hc|Hc]; simpl.
      * apply wp_modify. split.
        -- apply evolved_alter. intros _. split; try done; unfold used; simpl; rewrite ?Hst; try split; auto; congruence.
        -- rewrite proc_at_alter by (rewrite (ev_len _ _ _ Het); lia). rewrite decide_True by done.
           simpl. by intros [? _].
      * apply wp_ret. split; [apply evolved_refl|]. tauto.
    + apply is_state_false in Hst. apply wp_ret. split; [apply evolved_refl|]. tauto.
Qed.

(** The loop that passes the children to init. *)
Lemma reparent_evolves me (Q : unit → pst W → Prop) s : length (procs s) = NPROC →
  initproc s ≠ Some me →
  (∀ t, evolved me s t → (∀ i, (i < NPROC)%nat → p_parent (proc_at t i) ≠ Some me) → Q tt t) →
  wp (reparent me) Q s.
Proof.
  intros Hlen Hinit HQ. unfold reparent.
  apply (for_evolves me (λ _ q, p_parent q ≠ Some me)); [| |done].
  { intros _ q q' Hq [] Hp. destruct st_parent0 as [|[]]; congruence. }
  intros i t Hi Het. wp_step. apply wp_gets. apply wp_when; intros Hp.
  2: { split; [apply evolved_refl|]. by apply bool_decide_eq_false in Hp. }
  apply bool_decide_eq_true in Hp. wp_steps. rewrite (ev_init _ _ _ Het).
  set (t1 := set_procs (alter (set_p_parent (initproc s)) i (procs t)) t).
  assert (evolved me t t1) as H1.
  { apply evolved_alter. intros _. split; try done. right. by rewrite (ev_init _ _ _ Het). }
  assert (p_parent (proc_at t1 i) = initproc s) as Hpar.
  { unfold t1. rewrite proc_at_alter by (rewrite (ev_len _ _ _ Het); lia). by rewrite decide_True. }
  apply wp_modify. change (set_procs _ t) with t1. apply wp_when; intros Hz.
  - apply (wakeup1_evolves me); [exact (eq_trans (ev_len _ _ _ H1) (eq_trans (ev_len _ _ _ Het) Hlen))|].
    intros t2 H2 _. split; [by eapply evolved_trans|]. intros Hp2.
    destruct (st_parent _ _ _ _ (ev_slot _ _ _ H2 i)) as [E|[_ E]]; [congruence|].
    rewrite (ev_init _ _ _ H1), (ev_init _ _ _ Het) in E. congruence.
  - split; [done|]. congruence.
Qed.

Lemma fv_close_from s me pid lk w' (Q : unit → pst W → Prop) (fs : list (option nat)) :
  (me < length (procs s))%nat → ∀ (i : nat) x w t, p_ofile x = replicate i None ++ fs →
  fview s me pid x (fst w) (snd w) lk t → close_all fs w = Ok tt w' →
  (∀ t', fview s me pid (set_p_ofile (replicate (i + length fs) None) x) (fst w') (snd w') lk t' → Q tt t') →
  wp (foreach (seq i (length fs)) (λ fd,
        p ← proc_of me;
        match p_ofile p !! fd with
        | Some (Some f) => fsys (fileclose f);; upd me (λ p, set_p_ofile (<[fd := None]> (p_ofile p)) p)
        | _ => mret tt
        end)) Q t.
Proof.
  intros Hme. induction fs as [|a fs IH]; intros i x w t Hx Hv Hd HQ; simpl.
  { injection Hd as <-. apply wp_ret, HQ. simpl. rewrite Nat.add_0_r. rewrite app_nil_r in Hx.
    rewrite <- Hx. destruct x. exact Hv. }
  apply bind_inv in Hd as ([] & w1 & Hd1 & Hd2). wp_step. wp_step. apply wp_gets.
  rewrite (fv_at _ _ _ _ _ _ _ _ Hme Hv), Hx.
  assert ((replicate i None ++ a :: fs) !! i = Some a) as ->.
  { rewrite lookup_app_r by (rewrite length_replicate; lia). by rewrite length_replicate, Nat.sub_diag. }
  assert (∀ o : list (option nat), replicate i None ++ None :: o = replicate (S i) None ++ o) as Hshift.
  { intros o. rewrite (replicate_S_end i), <- app_assoc. done. }
  destruct a as [f|].
  - wp_step. eapply fv_fsys; [done | done |]. intros t1 H1. eapply fv_upd; [done|]. intros t2 H2.
    eapply IH; [| exact H2 | done |].
    + rewrite <- Hshift. simpl. rewrite Hx.
      rewrite insert_app_r_alt by (rewrite length_replicate; lia).
      by rewrite length_replicate, Nat.sub_diag.
    + intros t' Ht'. apply HQ. by replace (i + length (Some f :: fs))%nat with (S i + length fs)%nat by (simpl; lia).
  - injection Hd1 as <-. apply wp_ret. eapply IH; [| exact Hv | done |].
    + by rewrite Hx, Hshift.
    + intros t' Ht'. apply HQ. by replace (i + length (None :: fs))%nat with (S i + length fs)%nat by (simpl; lia).
Qed.

(** The files and the directory of the process are given back. *)
Lemma fv_exit_files s me c w1 w2 (Q : unit → pst W → Prop) : let p := proc_at s me in
  length (procs s) = NPROC → (me < NPROC)%nat → pt_lock s = false → length (p_ofile p) = NOFILE →
  p_cwd p = Some c → close_all (p_ofile p) (kmst s, files s) = Ok tt w1 →
  (begin_op;; iput c;; end_op) w1 = Ok tt w2 →
  (∀ t, fview s me (nextpid s) (set_p_cwd None (set_p_ofile (replicate NOFILE None) p)) (fst w2) (snd w2) false t →
     Q tt t) →
  wp (close_files me) (λ _, wp (put_cwd me) Q) s.
Proof.
  intros p Hlen Hme Hlk Hof Hc Hw1 Hw2 HQ. unfold close_files. rewrite <- Hof.
  eapply (fv_close_from s me _ _ _ _ _ ltac:(lia) _ _ (kmst s, files s)); [| by apply fv_start | done |]; [done|].
  intros t Ht. simpl in Ht. rewrite Hof in Ht. unfold put_cwd.
  apply bind_inv in Hw2 as ([] & w3 & Hb & Hw2). apply bind_inv in Hw2 as ([] & w4 & Hi & He).
  wp_step. eapply fv_fsys; [done | done |]. intros t1 H1. wp_step. apply wp_gets.
  rewrite (fv_at s me _ _ _ _ _ t1 ltac:(lia) H1). simpl. fold p. rewrite Hc. wp_step.
  eapply fv_fsys; [done | done |]. intros t2 H2. wp_step.
  eapply fv_fsys; [done | done |]. intros t3 H3. eapply fv_upd; [done|]. intros t4 H4. by apply HQ.
Qed.

(** The loop over the threads, and the one of a thread over its group. *)
Lemma zombies_evolve me (Q : unit → pst W → Prop) s : length (procs s) = NPROC →
  (∀ t, evolved me s t →
     (∀ i, (i < NPROC)%nat → used (proc_at t i) → p_ptid (proc_at t i) = p_pid (proc_at t me) →
        p_state (proc_at t i) = ZOMBIE) → Q tt t) →
  wp (for_procs (λ k,
        p ← proc_of me;
        q ← proc_of k;
        when ((p_ptid q =? p_pid p) && negb (is_state UNUSED q)) (upd k (set_p_state ZOMBIE)))) Q s.
Proof.
  intros Hlen HQ.
  apply (for_evolves me (λ _ q, used q → p_ptid q = p_pid (proc_at s me) → p_state q = ZOMBIE)).
  - intros _ q q' Hq [] Hu Hp. apply st_zombie0, Hq; [by apply st_used0 | congruence].
  - intros i t Hi Het. wp_step. apply wp_gets. wp_step. apply wp_gets.
    rewrite (st_pid _ _ _ _ (ev_slot _ _ _ Het me)). apply wp_when; intros Hc.
    + apply andb_true_iff in Hc as [Hp Hu%negb_true_iff%is_state_false]. apply wp_modify. split.
      * apply evolved_alter. intros _. split; try done; simpl; auto.
      * rewrite proc_at_alter by (rewrite (ev_len _ _ _ Het); lia). by rewrite decide_True.
    + split; [apply evolved_refl|]. intros Hu Hp. apply andb_false_iff in Hc as [Hc|Hc].
      * by apply Z.eqb_neq in Hc.
      * by apply negb_false_iff, is_state_true in Hc.
  - intros t Het HR. apply HQ; [done|]. intros i Hi Hu Hp. apply HR; [done | done |].
    rewrite Hp. apply (ev_slot _ _ _ Het me).
Qed.

Lemma kills_evolve me (c : nat → proc → bool) (Q : unit → pst W → Prop) s :
  (∀ t, evolved me s t → Q tt t) →
  wp (for_procs (λ j, q ← proc_of j; when (c j q) (upd j (set_p_killed 1)))) Q s.
Proof.
  intros HQ. apply (for_evolves me (λ _ _, True)); [done | | intros; by apply HQ].
  intros i t Hi Het. wp_step. apply wp_gets. apply wp_when; intros _; [|split; [apply evolved_refl | done]].
  apply wp_modify. split; [|done]. apply evolved_alter. intros _. split; try done; auto.
Qed.

(** What the table looks like when the scheduler takes over from an exit. *)
Record exited (me : nat) (s t : pst W) : Prop := {
  ex_zombie : p_state (proc_at t me) = ZOMBIE;
  ex_files : p_ofile (proc_at t me) = replicate NOFILE None;
  ex_cwd : p_cwd (proc_at t me) = None;
  ex_same : ∀ i, (i < NPROC)%nat →
    p_pid (proc_at t i) = p_pid (proc_at s i) ∧ p_pgdir (proc_at t i) = p_pgdir (proc_at s i) ∧
    p_kstack (proc_at t i) = p_kstack (proc_at s i) ∧ (used (proc_at t i) ↔ used (proc_at s i));
  ex_parent : ∀ i, (i < NPROC)%nat →
    p_parent (proc_at t i) = if decide (p_parent (proc_at s i) = Some me) then initproc s
                             else p_parent (proc_at s i);
  ex_woken : ∀ i, (i < NPROC)%nat →
    ¬ (p_state (proc_at t i) = SLEEPING ∧ p_chan (proc_at t i) = chan_of (p_parent (proc_at s me)));
  ex_threads : ∀ i, (i < NPROC)%nat → used (proc_at s i) →
    p_ptid (proc_at s i) = p_pid (proc_at s me) → p_state (proc_at t i) = ZOMBIE
}.

(** From the state after the acquire to the swtch. *)
Lemma exited_by_steps me s x m w t u : length (procs s) = NPROC → (me < NPROC)%nat →
  initproc s ≠ Some me → used (proc_at s me) →
  let p := proc_at s me in
  x = set_p_cwd None (set_p_ofile (replicate NOFILE None) p) →
  fview s me (nextpid s) x m w true t → evolved me t u →
  p_state (proc_at u me) = ZOMBIE →
  (∀ i, (i < NPROC)%nat → p_parent (proc_at u i) ≠ Some me) →
  (∀ i, (i < NPROC)%nat → ¬ (p_state (proc_at u i) = SLEEPING ∧ p_chan (proc_at u i) = chan_of (p_parent p))) →
  (∀ i, (i < NPROC)%nat → used (proc_at u i) → p_ptid (proc_at u i) = p_pid (proc_at u me) →
     p_state (proc_at u i) = ZOMBIE) → exited me s u.
Proof.
  intros Hlen Hme Hinit Hu p -> Ht Hev Hz Hpar Hwk Hth.
  pose proof (fv_at s me _ _ _ _ _ t ltac:(lia) Ht) as Hm.
  assert (∀ i, p_pid (proc_at t i) = p_pid (proc_at s i) ∧ p_pgdir (proc_at t i) = p_pgdir (proc_at s i) ∧
    p_kstack (proc_at t i) = p_kstack (proc_at s i) ∧ (used (proc_at t i) ↔ used (proc_at s i)) ∧
    p_parent (proc_at t i) = p_parent (proc_at s i) ∧ p_ptid (proc_at t i) = p_ptid (proc_at s i)) as Hts.
  { intros i. destruct (decide (i = me)) as [->|Hne]; [by rewrite Hm|].
    by rewrite (fv_other _ _ _ _ _ _ _ _ _ Hne Ht). }
  split; try done.
  - rewrite (st_files _ _ _ _ (ev_slot _ _ _ Hev me)). by rewrite Hm.
  - rewrite (st_cwd _ _ _ _ (ev_slot _ _ _ Hev me)). by rewrite Hm.
  - intros i Hi. destruct (Hts i) as (H1 & H2 & H3 & H4 & _). destruct (ev_slot _ _ _ Hev i).
    split_and!; [congruence .. | by rewrite st_used0].
  - intros i Hi. destruct (Hts i) as (_ & _ & _ & _ & H5 & _). rewrite <- H5.
    destruct (st_parent _ _ _ _ (ev_slot _ _ _ Hev i)) as [E|[E1 E2]].
    + rewrite decide_False; [done|]. rewrite <- E. by apply Hpar.
    + rewrite decide_True by done. rewrite E2. by destruct Ht.
  - intros i Hi Hui Hp. destruct (Hts i) as (_ & _ & _ & H4 & _ & H6), (Hts me) as (H7 & _).
    destruct (ev_slot _ _ _ Hev i), (ev_slot _ _ _ Hev me). apply Hth; [done | tauto | congruence].
Qed.

Lemma zombie_evolves me (s : pst W) : (me < length (procs s))%nat → used (proc_at s me) →
  let u := set_procs (alter (set_p_state ZOMBIE) me (procs s)) s in
  evolved me s u ∧ p_state (proc_at u me) = ZOMBIE.
Proof.
  intros Hme Hu u. split.
  - apply evolved_alter. intros _. split; try done; simpl; auto.
  - unfold u. rewrite proc_at_alter by done. by rewrite decide_True.
Qed.

Lemma kept_parent me (s t : pst W) i : evolved me s t → initproc s ≠ Some me →
  p_parent (proc_at s i) ≠ Some me → p_parent (proc_at t i) ≠ Some me.
Proof. intros He Hinit Hp. destruct (st_parent _ _ _ _ (ev_slot _ _ _ He i)) as [|[]]; congruence. Qed.

Lemma kept_awake me (s t : pst W) i ch : evolved me s t →
  ¬ (p_state (proc_at s i) = SLEEPING ∧ p_chan (proc_at s i) = ch) →
  ¬ (p_state (proc_at t i) = SLEEPING ∧ p_chan (proc_at t i) = ch).
Proof. intros He Hs [H1 H2]. destruct (ev_slot _ _ _ He i). apply Hs. split; [auto | congruence]. Qed.

Lemma kept_zombie me (s t : pst W) i : evolved me s t →
  (used (proc_at s i) → p_ptid (proc_at s i) = p_pid (proc_at s me) → p_state (proc_at s i) = ZOMBIE) →
  used (proc_at t i) → p_ptid (proc_at t i) = p_pid (proc_at t me) → p_state (proc_at t i) = ZOMBIE.
Proof.
  intros He Hs Hu Hp. destruct (ev_slot _ _ _ He i), (ev_slot _ _ _ He me).
  apply st_zombie0, Hs; [tauto | congruence].
Qed.

Lemma sched_stops me (s : pst W) Q : pt_lock s = true → c_ncli (ucpu s) = 1 → c_if (ucpu s) = false →
  p_state (proc_at s me) ≠ RUNNING → Q (ChProc me) s → sleeps (sched stop me) Q s.
Proof.
  intros Hl Hn Hi Hs HQ. unfold sched. apply sleeps_bind, wp_gets. rewrite Hl. cbn [negb].
  apply sleeps_bind, wp_gets. rewrite Hn. cbn [Z.eqb negb]. simpl. apply sleeps_bind, wp_gets.
  unfold is_state. rewrite bool_decide_eq_false_2, Hi by done. by apply sleeps_first.
Qed.

(** C25. exit, called by a process other than init whose files and directory
    can be given back, never returns: it gives up the processor as a zombie
    that holds no files and no directory, with ptable.lock held. Its children
    belong to init, its threads are zombies, no process is left asleep in wait
    for it, and no pid, page table or kernel stack has changed. A call by init
    panics. *)
Theorem exit_leaves_zombie me s c w1 w2 : table_ok s → used (proc_at s me) → pt_lock s = false →
  c_ncli (ucpu s) = 0 → p_cwd (proc_at s me) = Some c →
  close_all (p_ofile (proc_at s me)) (kmst s, files s) = Ok tt w1 → (begin_op;; iput c;; end_op) w1 = Ok tt w2 →
  (initproc s ≠ Some me →
     ∃ t, exit stop me s = Sleep (ChProc me) t ∧ exited me s t ∧ files t = snd w2 ∧ pt_lock t = true) ∧
  (initproc s = Some me → ∀ swtch, exit swtch me s = Panic "init exiting").
Proof.
  intros Hok Hu Hlk Hcli Hc Hw1 Hw2. split.
  2: { intros Hi swtch. unfold exit, mbind, M_bind, gets. rewrite Hi. by rewrite bool_decide_eq_true_2. }
  intros Hinit. pose proof Hok as (Hlen & _). assert (me < NPROC)%nat as Hme by by apply (used_lt s).
  destruct (table_ok_slot s me Hok Hme) as (_ & _ & Hof & _).
  assert (sleeps (exit stop me) (λ ch t, ch = ChProc me ∧ exited me s t ∧ files t = snd w2 ∧ pt_lock t = true) s)
    as (ch & t & -> & -> & ?)%sleeps_elim; [|eauto].
  unfold exit. apply sleeps_bind, wp_gets. rewrite bool_decide_eq_false_2 by done. apply sleeps_bind.
  set (x := set_p_cwd None (set_p_ofile (replicate NOFILE None) (proc_at s me))).
  eapply wp_mono; [eapply (fv_exit_files s me c w1 w2 (λ _, fview s me (nextpid s) x (fst w2) (snd w2) false)); done|].
  intros [] t0 Hput. apply sleeps_bind. eapply wp_mono; [exact Hput|]. intros [] t0' H0. apply sleeps_bind.
  eapply fv_acquire; [done|]. intros t H1. apply sleeps_bind, wp_gets.
  rewrite (fv_at s me _ _ _ _ _ t ltac:(lia) H1).
  assert (length (procs t) = NPROC) as Hlt by (rewrite (fv_procs _ _ _ _ _ _ _ _ H1), length_insert; done).
  apply sleeps_bind, (wakeup1_evolves me); [done|]. intros t1 E1 Hwk. apply sleeps_bind.
  apply reparent_evolves; [by rewrite (ev_len _ _ _ E1) | by rewrite (ev_init _ _ _ E1), (fv_init _ _ _ _ _ _ _ _ H1)|].
  intros t2 E2 Hpar. pose proof (evolved_trans _ _ _ _ E1 E2) as E12. apply sleeps_bind.
  apply zombies_evolve; [by rewrite (ev_len _ _ _ E12)|]. intros t3 E3 Hth. apply sleeps_bind, wp_gets.
  pose proof (evolved_trans _ _ _ _ E12 E3) as E13. apply sleeps_bind.
  apply wp_mono with (P := λ _, evolved me t3).
  { apply wp_when; intros _; [|apply evolved_refl].
    by apply (kills_evolve me (λ j q, (p_ptid (proc_at t3 me) =? p_ptid q)
                || bool_decide (p_main_thread (proc_at t3 me) = Some j))). }
  intros [] t4 E4. pose proof (evolved_trans _ _ _ _ E13 E4) as E14. apply sleeps_bind, wp_modify.
  set (u := set_procs (alter (set_p_state ZOMBIE) me (procs t4)) t4).
  assert (evolved me t4 u ∧ p_state (proc_at u me) = ZOMBIE) as [E5 Hz].
  { apply zombie_evolves; [by rewrite (ev_len _ _ _ E14), Hlt|].
    apply (st_used _ _ _ _ (ev_slot _ _ _ E14 me)). by rewrite (fv_at s me _ _ _ _ _ t ltac:(lia) H1). }
  pose proof (evolved_trans _ _ _ _ E14 E5) as E15.
  apply sleeps_first, sched_stops; [by rewrite (ev_lock _ _ _ E15), (fv_lock _ _ _ _ _ _ _ _ H1) | | | by rewrite Hz|].
  - by rewrite (ev_cpu _ _ _ E15), (fv_cli _ _ _ _ _ _ _ _ H1), Hcli.
  - by rewrite (ev_cpu _ _ _ E15), (fv_if _ _ _ _ _ _ _ _ H1).
  - split_and!; [done | | by rewrite (ev_files _ _ _ E15), (fv_files _ _ _ _ _ _ _ _ H1)
                | by rewrite (ev_lock _ _ _ E15), (fv_lock _ _ _ _ _ _ _ _ H1)].
    apply (exited_by_steps me s x (fst w2) (snd w2) t u); try done.
    + intros i Hi. apply (kept_parent me t2 u); [by eapply evolved_trans, E5; eapply evolved_trans | | by apply Hpar].
      by rewrite (ev_init _ _ _ E12), (fv_init _ _ _ _ _ _ _ _ H1).
    + intros i Hi. apply (kept_awake me t1 u); [|by apply Hwk].
      eapply evolved_trans, E5. eapply evolved_trans, E4. by eapply evolved_trans.
    + intros i Hi. apply (kept_zombie me t3 u); [by eapply evolved_trans | by apply Hth].
Qed.

(** ** A slot with a stale main thread *)

Context (kend : Z).

(** What free_threads makes of the one slot [k] that names [i] as its main
    thread, where [i] is a process: its start is 0. *)
Definition wiped (q : proc) : proc :=
  set_p_sz 0 (set_p_tid 0 (set_p_t_flag 0 (clear_slot (set_p_kstack 0 q)))).

Lemma free_threads_other i l (s : pst W) : Forall (λ k, p_main_thread (proc_at s k) ≠ Some i) l →
  wp (foreach l (λ k,
    q ← proc_of k;
    when (bool_decide (p_main_thread q = Some i))
      (upd k (λ q, set_p_tid 0 (set_p_t_flag 0 (clear_slot (set_p_kstack 0 q))));;
       p ← proc_of i;
       sz ← kvm (deallocuvm kend (p_pgdir p) (p_start p) (u32 (p_start p - 2 * PGSIZE)));
       upd k (set_p_sz sz)))) (λ _ t, t = s) s.
Proof.
  induction l as [|k l IH]; intros Hl; simpl; [done|]. apply list.Forall_cons in Hl as [Hk Hl].
  wp_step. wp_step. apply wp_gets. rewrite bool_decide_eq_false_2 by done. apply wp_ret. by apply IH.
Qed.

Lemma insert_as_alter (f : proc → proc) (s : pst W) k : length (procs s) = NPROC → (k < NPROC)%nat →
  alter f k (procs s) = <[k := f (proc_at s k)]> (procs s).
Proof.
  intros Hlen Hk. rewrite <- (list_insert_id (procs s) k (proc_at s k)) at 1 by by apply lookup_proc_at.
  apply alter_insert_same.
Qed.

Lemma free_threads_one i k (s : pst W) : length (procs s) = NPROC →
  (k < NPROC)%nat → k ≠ i → p_main_thread (proc_at s k) = Some i → p_start (proc_at s i) = 0 →
  (∀ j, j ≠ k → p_main_thread (proc_at s j) ≠ Some i) →
  wp (free_threads kend i) (λ _ t, t = set_procs (<[k := wiped (proc_at s k)]> (procs s)) s) s.
Proof.
  intros Hlen Hk Hki Hm Hst Hother. unfold free_threads, for_procs. rewrite (seq_split_at k Hk).
  apply wp_foreach_app. eapply wp_mono.
  { apply free_threads_other, list.Forall_forall. intros j Hj%elem_of_seq. apply Hother. lia. }
  intros [] ? ->. cbn [foreach]. wp_step. wp_step. apply wp_gets. rewrite bool_decide_eq_true_2 by done.
  cbn [when]. wp_step. apply wp_modify. wp_step. apply wp_gets.
  rewrite proc_at_alter by lia. rewrite decide_False by done. rewrite Hst.
  wp_step. eapply wp_ok; [done|]. apply wp_modify. eapply wp_mono.
  - apply free_threads_other, list.Forall_forall. intros j Hj%elem_of_seq.
    unfold proc_at. simpl. rewrite !list_lookup_alter_ne by lia. apply Hother. lia.
  - intros [] t ->. simpl. rewrite insert_as_alter, alter_insert_same by done. by destruct s.
Qed.

Lemma child_other me (s : pst W) k q j : j ≠ k →
  zombie_child me (proc_at (set_procs (<[k := q]> (procs s)) s) j) = zombie_child me (proc_at s j).
Proof. intros Hj. unfold proc_at. simpl. by rewrite list_lookup_insert_ne. Qed.

(** A slot keeps the main thread of its previous user: thread_join leaves
    the field in the slot it frees, and neither allocproc nor fork clears it.
    When the process the stale field points to exits and its parent waits,
    wait takes the slot's new owner, a process that never was a thread of it,
    for one of its threads: the live process loses its pid, kernel stack and
    slot. *)
Theorem stale_main_thread me pidnp pgdir kst_np (s : pst W) i k m1 m2 swtch fuel :
  (∀ p old, p_main_thread (fork_child me kst_np pidnp pgdir p old) = p_main_thread old) ∧
  (∀ p, p_main_thread (clear_slot p) = p_main_thread p) ∧
  (calm s → (i < NPROC)%nat → (k < NPROC)%nat → k ≠ i →
   zombie_child me (proc_at s i) = true → (∀ j, (j < i)%nat → zombie_child me (proc_at s j) = false) →
   p_start (proc_at s i) = 0 →
   p_main_thread (proc_at s k) = Some i → (∀ j, j ≠ k → p_main_thread (proc_at s j) ≠ Some i) →
   kfree kend (p_kstack (proc_at s i)) (kmst s) = Ok tt m1 →
   freevm kend (p_pgdir (proc_at s i)) m1 = Ok tt m2 →
   ∃ t, wait kend swtch fuel me s = Ok (p_pid (proc_at s i)) t ∧
     proc_at t k = wiped (proc_at s k) ∧ p_state (proc_at t k) = UNUSED ∧ p_pid (proc_at t k) = 0 ∧
     p_kstack (proc_at t k) = 0).
Proof.
  split_and!; [done | done |]. intros (Hlen & Hlk & Hcli) Hi Hk Hki Hz Hfirst Hst Hm Hother Hkf Hfv.
  set (s2 := set_procs (<[k := wiped (proc_at s k)]> (procs s)) s).
  assert (proc_at s2 i = proc_at s i) as Hi2 by (unfold proc_at; simpl; by rewrite list_lookup_insert_ne).
  assert (length (procs s2) = NPROC) as Hlen2 by (simpl; by rewrite length_insert).
  assert (wp (wait kend swtch fuel me) (λ r t, r = p_pid (proc_at s i) ∧ ∃ x, procs t = <[i := x]> (procs s2)) s)
    as (r & t & Hw & -> & x & Hp)%wp_elim.
  - unfold wait. wp_step. eapply (fv_acquire s i); [by apply fv_start|]. intros t Ht.
    pose proof (fv_same_procs s i _ _ _ t Hlen Hi Ht) as Hp.
    assert (∀ j, proc_at t j = proc_at s j) as Hat by (intros j; unfold proc_at; by rewrite Hp).
    assert (wp (reap kend i) (λ r t, r = p_pid (proc_at s i) ∧
      fview s2 i (nextpid s) (clear_slot (set_p_kstack 0 (proc_at s i))) m2 (files s) true t) t) as Hreap.
    { unfold reap. wp_step. eapply wp_mono.
      { apply (free_threads_one i k); rewrite ?Hat, ?Hp; try done. intros j Hj. rewrite Hat. by apply Hother. }
      intros [] t1 ->. rewrite Hat, Hp.
      eapply (fv_reap_slot kend s2 i); rewrite ?Hi2; [lia | | done | done | by split].
      rewrite <- Hi2. destruct Ht. split; try done. simpl. symmetry. apply list_insert_id.
      by apply (lookup_proc_at s2). }
    destruct fuel; cbn [wait_loop]; (apply (wait_scan_finds kend me i); [done | by rewrite Hat
        | intros j Hj; rewrite Hat; by apply Hfirst |]);
      (eapply wp_mono; [exact Hreap|]); intros r t2 [-> H2]; wp_step;
      (eapply (fv_release s2); [done | done |]); intros t3 []; wp_steps; eauto.
  - exists t. split; [done|]. unfold proc_at. rewrite Hp, list_lookup_insert_ne by done.
    simpl. rewrite list_lookup_insert_eq by lia. done.
Qed.
End exit.
