(* ===== verification/Sched.v ===== *)
(** * Sched: the scheduler and the CPU shares of proc.c

    The scheduler is a round robin over the table: a round runs every process
    that is runnable when its slot is reached, in the order of the slots.  The
    fields for the multi-level queue and for stride scheduling, which
    set_cpu_share, priorityBoost and thread_create maintain, are not read by
    it. *)

From Stdlib Require Import ZArith Lia Bool Sorting.Sorted.
From stdpp Require Import base option list sets gmap strings numbers.
From S2P Require Import Prelude Cstring Kalloc Vm Proc ProcSpec ProcLife.

#[local] Open Scope string_scope.
#[local] Open Scope list_scope.
#[local] Open Scope Z_scope.

Section sched.
Context {W : Type}.
#[local] Notation P := (M (pst W)).

(** What the scheduler needs of a runnable process, see switchuvm. *)
Definition runnable_ok (s : pst W) : Prop :=
  ∀ i, (i < NPROC)%nat → p_state (proc_at s i) = RUNNABLE →
    p_kstack (proc_at s i) ≠ 0 ∧ p_pgdir (proc_at s i) ≠ 0.

(** The scheduler's state between two slots. *)
Definition sched_inv (s : pst W) : Prop :=
  length (procs s) = NPROC ∧ pt_lock s = true ∧ c_ncli (ucpu s) = 1 ∧ c_if (ucpu s) = false ∧
  runnable_ok s.

(** ** Definitions for the fairness theorem *)

(** [turns] is the list of the processes that ran, kept by [run] in the part
    of the state it owns. *)
Context (run : nat → P unit) (turns : W → list nat).

(** A process runs from the swtch of the scheduler to its own: it is recorded,
    comes back with the lock held, and takes no other process off the
    runnable ones. *)
Definition run_fair : Prop := ∀ i s,
  length (procs s) = NPROC → pt_lock s = true → c_ncli (ucpu s) = 1 → c_if (ucpu s) = false →
  runnable_ok s → (i < NPROC)%nat → p_state (proc_at s i) = RUNNING → c_proc (ucpu s) = Some i →
  c_cr3 (ucpu s) = V2P (p_pgdir (proc_at s i)) → p_kstack (proc_at s i) ≠ 0 → p_pgdir (proc_at s i) ≠ 0 →
  wp (run i) (λ _ t, sched_inv t ∧ turns (files t) = turns (files s) ++ [i] ∧
    ∀ j, j ≠ i → p_state (proc_at s j) = RUNNABLE → p_state (proc_at t j) = RUNNABLE) s.

Context (Hrun : run_fair).

Lemma wp_switchuvm i s (Q : unit → pst W → Prop) : c_ncli (ucpu s) = 1 → c_if (ucpu s) = false →
  p_kstack (proc_at s i) ≠ 0 → p_pgdir (proc_at s i) ≠ 0 →
  (∀ c, c_ncli c = 1 → c_if c = false → c_proc c = c_proc (ucpu s) →
     c_cr3 c = V2P (p_pgdir (proc_at s i)) → Q tt (set_ucpu c s)) → wp (switchuvm i) Q s.
Proof.
  intros Hn Hi Hk Hp HQ. unfold switchuvm, pushcli, popcli, upd_cpu. wp_step. apply wp_gets.
  rewrite (proj2 (Z.eqb_neq _ _)), (proj2 (Z.eqb_neq _ 0)) by done. wp_steps. simpl. rewrite Hn. simpl.
  wp_steps. simpl.
  match goal with |- Q tt (set_ucpu ?c ?t) => replace (set_ucpu c t) with (set_ucpu c s) by by destruct s end.
  apply HQ; rewrite ?Hn; done.
Qed.

(** One slot of the round. *)
Lemma wp_scheduler_slot i s : sched_inv s → (i < NPROC)%nat →
  wp (scheduler_slot run i) (λ _ t, sched_inv t ∧
    (∃ tr, turns (files t) = turns (files s) ++ tr ∧ (tr = [] ∨ tr = [i]) ∧
       (p_state (proc_at s i) = RUNNABLE → tr = [i])) ∧
    ∀ j, j ≠ i → p_state (proc_at s j) = RUNNABLE → p_state (proc_at t j) = RUNNABLE) s.
Proof.
  intros (Hlen & Hlk & Hn & Hif & Hok) Hi. unfold scheduler_slot. wp_step. apply wp_gets.
  apply wp_when; intros Hst.
  2: { apply is_state_false in Hst. split_and!; try done. exists []. rewrite app_nil_r. split_and!; [done | by left | done]. }
  apply is_state_true in Hst. destruct (Hok i Hi Hst) as [Hk Hp].
  wp_step. unfold upd_cpu at 1. wp_steps. apply wp_switchuvm; [done .. |]. intros c Hc1 Hc2 Hc3 Hc4.
  wp_step. apply wp_modify. wp_step.
  set (s1 := set_ucpu c (set_ucpu (set_c_proc (Some i) (ucpu s)) s)).
  set (s2 := set_procs (alter (set_p_state RUNNING) i (procs s1)) s1).
  assert (∀ j, proc_at s2 j = if decide (i = j) then set_p_state RUNNING (proc_at s i) else proc_at s j) as Hat.
  { intros j. unfold s2. rewrite proc_at_alter by (simpl; lia). done. }
  eapply wp_mono; [apply (Hrun i s2); try done|].
  - simpl. by rewrite length_alter.
  - intros j Hj. rewrite Hat. case_decide; [done|]. by apply Hok.
  - by rewrite Hat, decide_True.
  - simpl in Hc4. by rewrite Hat, decide_True.
  - by rewrite Hat, decide_True.
  - by rewrite Hat, decide_True.
  - intros [] t ((Hl & Hlt & Hnt & Hit & Hokt) & Htr & Hother).
    unfold switchkvm, upd_cpu. wp_steps. split_and!; try done.
    + exists [i]. split_and!; auto.
    + intros j Hj Hr. apply (Hother j Hj). rewrite Hat. by rewrite decide_False by congruence.
Qed.

Lemma seq_split_elem l1 (i : nat) l2 : seq 0 NPROC = l1 ++ i :: l2 →
  (i < NPROC)%nat ∧ ∀ j, j ∈ l1 → (j < i)%nat.
Proof.
  intros Hl. assert (∀ k, (l1 ++ i :: l2) !! k = if decide (k < NPROC)%nat then Some k else None) as Hk.
  { intros k. rewrite <- Hl. case_decide; [by rewrite lookup_seq_lt | by apply lookup_seq_ge; lia]. }
  pose proof (Hk (length l1)) as Hi. rewrite list_lookup_middle in Hi by done.
  case_decide; [|done]. injection Hi as ->. split; [done|]. intros j [k Hj]%list_elem_of_lookup.
  pose proof (lookup_lt_Some _ _ _ Hj). pose proof (Hk k) as E. rewrite lookup_app_l, Hj in E by done.
  case_decide; [|done]. injection E as ->. done.
Qed.

Lemma StronglySorted_snoc (l : list nat) x : StronglySorted lt l → (∀ y, y ∈ l → (y < x)%nat) →
  StronglySorted lt (l ++ [x]).
Proof.
  induction 1 as [|y l Hs IH Hy]; intros Hx; simpl; [by repeat constructor|]. constructor.
  - apply IH. intros z Hz. apply Hx. by right.
  - apply list.Forall_app. split; [done|]. constructor; [|done]. apply Hx. left.
Qed.

(** A round: [tr] is strictly increasing and has every process that was
    runnable when the round began. *)
Lemma wp_scheduler_round s (Q : unit → pst W → Prop) : length (procs s) = NPROC → pt_lock s = false →
  c_ncli (ucpu s) = 0 → runnable_ok s →
  (∀ t tr, turns (files t) = turns (files s) ++ tr → StronglySorted lt tr →
     (∀ i, i ∈ tr → (i < NPROC)%nat) →
     (∀ i, (i < NPROC)%nat → p_state (proc_at s i) = RUNNABLE → i ∈ tr) →
     length (procs t) = NPROC → pt_lock t = false → c_ncli (ucpu t) = 0 → runnable_ok t → Q tt t) →
  wp (scheduler_round run) Q s.
Proof.
  intros Hlen Hlk Hn Hok HQ. unfold scheduler_round, acquire_pt, pushcli, upd_cpu. wp_steps. simpl.
  rewrite Hlk. wp_steps.
  match goal with |- wp _ _ ?x => set (s1 := x) end. unfold for_procs.
  apply (wp_foreach (λ l1 t, sched_inv t ∧ ∃ tr, turns (files t) = turns (files s) ++ tr ∧
    StronglySorted lt tr ∧ (∀ i, i ∈ tr → i ∈ l1) ∧
    (∀ i, (i < NPROC)%nat → p_state (proc_at s i) = RUNNABLE →
       i ∈ tr ∨ i ∉ l1 ∧ p_state (proc_at t i) = RUNNABLE))).
  - split; [split_and!; simpl; try done; by rewrite Hn|]. exists []. rewrite app_nil_r. split_and!; [done | constructor | done |].
    intros i _ Hi. right. split; [apply not_elem_of_nil | done].
  - intros l1 i l2 t Hl (Hinv & tr & Htr & Hsort & Hin & Hall).
    destruct (seq_split_elem l1 i l2 Hl) as [Hi Hl1].
    eapply wp_mono; [by apply wp_scheduler_slot|]. intros [] t' (Hinv' & (tr' & Htr' & Hcase & Hrunnable) & Hkeep).
    split; [done|]. exists (tr ++ tr'). split_and!.
    + by rewrite Htr', Htr, app_assoc.
    + destruct Hcase as [->| ->]; [by rewrite app_nil_r|]. apply StronglySorted_snoc; [done|].
      intros j Hj. by apply Hl1, Hin.
    + intros j [Hj|Hj]%elem_of_app; apply elem_of_app; [left; by apply Hin | right].
      destruct Hcase as [->| ->]; [by apply elem_of_nil in Hj | done].
    + intros j Hj Hr. destruct (Hall j Hj Hr) as [Hj'|[Hj1 Hj2]]; [left; apply elem_of_app; by left|].
      destruct (decide (j = i)) as [->|Hne].
      * left. apply elem_of_app. right. rewrite (Hrunnable Hj2). left.
      * right. split; [|by apply Hkeep]. rewrite elem_of_app, list_elem_of_singleton. tauto.
  - intros t ((Hlt & Hlkt & Hnt & Hit & Hokt) & tr & Htr & Hsort & Hin & Hall).
    unfold release_pt, popcli, upd_cpu. wp_steps. rewrite Hlkt. wp_steps. simpl. rewrite Hit, Hnt. simpl.
    wp_steps. apply (HQ _ tr); simpl; try done.
    + intros i Hi. apply Hin, elem_of_seq in Hi. lia.
    + intros i Hi Hr. destruct (Hall i Hi Hr) as [|[Hn' _]]; [done|]. destruct Hn'. apply elem_of_seq. lia.
    + by rewrite Hnt.
Qed.

Lemma wp_scheduler_rounds n : ∀ m s (Q : unit → pst W → Prop), length (procs s) = NPROC → pt_lock s = false →
  c_ncli (ucpu s) = 0 → runnable_ok s →
  (∀ t trs, length trs = n → turns (files t) = turns (files s) ++ concat trs →
     Forall (StronglySorted lt) trs → Q tt t) →
  wp (foreach (seq m n) (λ _, scheduler_round run)) Q s.
Proof.
  induction n as [|n IH]; intros m s Q Hlen Hlk Hn Hok HQ; simpl.
  { apply wp_ret, (HQ s []); [done | by rewrite app_nil_r | done]. }
  wp_step. apply wp_scheduler_round; [done .. |]. intros t tr Htr Hs _ _ H1 H2 H3 H4.
  apply IH; [done ..|]. intros u trs Hl Hu Hf. apply (HQ u (tr :: trs)); simpl; [by rewrite Hl | | by constructor].
  by rewrite Hu, Htr, app_assoc.
Qed.
End sched.


(** A machine on which every process yields at once. *)
Definition yielder (i : nat) : M (pst (list nat)) unit :=
  modify (λ s, set_files (files s ++ [i]) s);; upd i (set_p_state RUNNABLE).

Lemma yielder_fair : run_fair yielder id.
Proof.
  intros i s Hlen Hlk Hn Hif Hok Hi Hst Hc _ Hk Hp. unfold yielder, upd. wp_steps.
  match goal with |- context [set_procs (alter ?f i (procs ?x)) ?x] =>
    assert (∀ j, proc_at (set_procs (alter f i (procs x)) x) j =
                 if decide (i = j) then set_p_state RUNNABLE (proc_at s i) else proc_at s j) as Hat end.
  { intros j. rewrite proc_at_alter by (simpl; lia). done. }
  split_and!; [unfold sched_inv; split_and! | ..]; try done.
  - exact (eq_trans (length_alter _ _ _) Hlen).
  - intros j Hj. rewrite Hat. case_decide; [done | by apply Hok].
  - intros j Hj Hr. rewrite Hat. by rewrite decide_False by congruence.
Qed.

(** Slots 3 and 7 hold runnable processes. *)
Definition two_ready : pst (list nat) :=
  let p := set_p_state RUNNABLE (set_p_kstack 0x80400000 (set_p_pgdir 0x80500000 proc0)) in
  Pst false (<[3%nat := p]> (<[7%nat := p]> (replicate NPROC proc0))) None 3 0 0 0 0 0 0 false 0
    (Cpu 0 false true None 0 0) (Kst (λ _, 0) false true 0) [].


(** ** The scheduler does not look at the shares *)

(** A process, and a state, without what the multi-level queue and stride
    scheduling record. *)
Definition unshare (p : proc) : proc :=
  Proc (p_sz p) (p_pgdir p) (p_kstack p) (p_state p) (p_pid p) (p_parent p) (p_tf p) (p_context p)
    (p_chan p) (p_killed p) (p_ofile p) (p_cwd p) (p_name p) 0 0 0 0 0 0 0 0 (p_havet p)
    (p_main_thread p) (p_t_flag p) (p_tid p) (p_retval p) (p_ptid p) (p_start p) (p_end p)
    (p_thread_count p) (p_check_count p) (p_indexing p).

Definition erase {W} (s : pst W) : pst W :=
  Pst (pt_lock s) (unshare <$> procs s) (initproc s) (nextpid s) (nexttid s) 0 0 0 0 0 (fork_first s)
    (kpgdir s) (ucpu s) (kmst s) (files s).

Definition erase_out {W A} (o : outcome (pst W) A) : outcome (pst W) A :=
  match o with
  | Ok a s => Ok a (erase s)
  | Sleep c s => Sleep c (erase s)
  | Panic msg => Panic msg
  | Undef why => Undef why
  end.

(** Two programs that agree on states that agree but for the shares. *)
Definition blind {W A} (m n : M (pst W) A) : Prop :=
  ∀ s t, erase s = erase t → erase_out (m s) = erase_out (n t).

#[local] Arguments erase : simpl never.

Section blind.
Context {W : Type}.
#[local] Notation P := (M (pst W)).

Lemma blind_ret {A} (a : A) : blind (W := W) (mret a) (mret a).
Proof. intros s t Hst. unfold mret, M_ret, erase_out. by rewrite Hst. Qed.

Lemma Ok_inj {S A} (a b : A) (s t : S) : Ok a s = Ok b t → a = b ∧ s = t.
Proof. by intros [= -> ->]. Qed.

Lemma blind_bind {A B} (m n : P A) (k l : A → P B) : blind m n → (∀ a, blind (k a) (l a)) →
  blind (m ≫= k) (n ≫= l).
Proof.
  intros Hm Hk s t Hst. specialize (Hm s t Hst). unfold mbind, M_bind.
  destruct (m s), (n t); simpl in *; try congruence. apply Ok_inj in Hm as [-> Hs]. by apply Hk.
Qed.

Lemma blind_gets {A B} (f : pst W → A) (g : pst W → A) (k l : A → P B) :
  (∀ s t, erase s = erase t → f s = g t) → (∀ a, blind (k a) (l a)) → blind (gets f ≫= k) (gets g ≫= l).
Proof. intros Hf Hk s t Hst. unfold mbind, M_bind, gets. rewrite (Hf s t Hst). by apply Hk. Qed.

Lemma blind_proc {B} i (k l : proc → P B) : (∀ p q, unshare p = unshare q → blind (k p) (l q)) →
  blind (proc_of i ≫= k) (proc_of i ≫= l).
Proof.
  intros Hk s t Hst. apply Hk; [|done]. assert (unshare <$> procs s = unshare <$> procs t) as Hp.
  { change (procs (erase s) = procs (erase t)). by rewrite Hst. }
  assert (unshare <$> (procs s !! i) = unshare <$> (procs t !! i)) as Hi by by rewrite <- !list_lookup_fmap, Hp.
  unfold proc_at. destruct (procs s !! i), (procs t !! i); simpl in *; congruence.
Qed.

Lemma blind_upd i f : (∀ p, unshare (f p) = f (unshare p)) → blind (W := W) (upd i f) (upd i f).
Proof.
  intros Hf s t Hst. unfold upd, modify, erase_out. f_equal.
  assert (unshare <$> procs s = unshare <$> procs t) as Hp.
  { change (procs (erase s) = procs (erase t)). by rewrite Hst. }
  assert (∀ u : pst W, erase (set_procs (alter f i (procs u)) u) = set_procs (alter f i (procs (erase u))) (erase u)) as He.
  { intros u. unfold erase, set_procs. simpl. f_equal. apply list_eq. intros j.
    rewrite list_lookup_fmap. destruct (decide (i = j)) as [<-|].
    - rewrite !list_lookup_alter_eq, list_lookup_fmap. destruct (procs u !! i); simpl; [by rewrite Hf | done].
    - by rewrite !list_lookup_alter_ne, list_lookup_fmap. }
  rewrite !He, Hst. done.
Qed.

Lemma blind_cpu f : blind (W := W) (upd_cpu f) (upd_cpu f).
Proof.
  intros s t Hst. unfold upd_cpu, modify, erase_out. f_equal.
  assert (∀ u : pst W, erase (set_ucpu (f (ucpu u)) u) = set_ucpu (f (ucpu (erase u))) (erase u)) as He by done.
  by rewrite !He, Hst.
Qed.

Lemma blind_lock b : blind (W := W) (modify (set_pt_lock b)) (modify (set_pt_lock b)).
Proof.
  intros s t Hst. unfold modify, erase_out. f_equal.
  assert (∀ u : pst W, erase (set_pt_lock b u) = set_pt_lock b (erase u)) as He by done.
  by rewrite !He, Hst.
Qed.

Lemma blind_panic {A} msg : blind (W := W) (A := A) (panic msg) (panic msg).
Proof. done. Qed.

Lemma blind_when (b c : bool) (m n : P unit) : b = c → blind m n → blind (when b m) (when c n).
Proof. intros -> Hm. destruct c; [done | apply blind_ret]. Qed.

Lemma blind_foreach {A} (l : list A) (m n : A → P unit) : (∀ x, blind (m x) (n x)) →
  blind (foreach l m) (foreach l n).
Proof. intros Hm. induction l as [|x l IH]; simpl; [apply blind_ret | apply blind_bind; auto]. Qed.

(** A field that is not erased. *)
Lemma erase_field {A} (f : pst W → A) : (∀ s, f (erase s) = f s) → ∀ s t, erase s = erase t → f s = f t.
Proof. intros Hf s t Hst. by rewrite <- (Hf s), <- (Hf t), Hst. Qed.
Lemma unshare_field {A} (f : proc → A) : (∀ p, f (unshare p) = f p) → ∀ p q, unshare p = unshare q → f p = f q.
Proof. intros Hf p q Hpq. by rewrite <- (Hf p), <- (Hf q), Hpq. Qed.

Lemma blind_popcli : blind (W := W) popcli popcli.
Proof.
  unfold popcli. apply blind_gets; [by apply erase_field|]. intros c.
  destruct (c_if c); [apply blind_panic|]. destruct (_ <? _); [apply blind_panic | apply blind_cpu].
Qed.

Lemma blind_switchuvm i : blind (W := W) (switchuvm i) (switchuvm i).
Proof.
  unfold switchuvm. apply blind_proc. intros p q Hpq.
  rewrite (unshare_field p_kstack (λ _, eq_refl) _ _ Hpq), (unshare_field p_pgdir (λ _, eq_refl) _ _ Hpq).
  destruct (p_kstack q =? 0); [apply blind_panic|]. destruct (p_pgdir q =? 0); [apply blind_panic|].
  apply blind_bind; [apply blind_cpu|]. intros _. apply blind_bind; [apply blind_cpu|]. intros _.
  apply blind_popcli.
Qed.

Lemma blind_scheduler_slot (run : nat → P unit) i : (∀ i, blind (run i) (run i)) →
  blind (scheduler_slot run i) (scheduler_slot run i).
Proof.
  intros Hrun. unfold scheduler_slot. apply blind_proc. intros p q Hpq. apply blind_when.
  { unfold is_state. by rewrite (unshare_field p_state (λ _, eq_refl) _ _ Hpq). }
  apply blind_bind; [apply blind_cpu|]. intros _. apply blind_bind; [apply blind_switchuvm|]. intros _.
  apply blind_bind; [by apply blind_upd|]. intros _. apply blind_bind; [apply Hrun|]. intros _.
  apply blind_bind; [|intros _; apply blind_cpu].
  unfold switchkvm. apply blind_gets; [by apply erase_field|]. intros k. apply blind_cpu.
Qed.
End blind.

(** The scheduler does not look at the shares: from two states that differ
    only in the queue levels, ticks, rounds, passes, strides and portions, and
    with processes whose own runs do not depend on these, any number of rounds
    has the same outcome up to the same fields.  So set_cpu_share,
    priorityBoost and the fields a thread inherits have no effect on which
    process runs. *)
Theorem scheduler_ignores_shares {W} (run : nat → M (pst W) unit) n : (∀ i, blind (run i) (run i)) →
  blind (scheduler run n) (scheduler run n).
Proof.
  intros Hrun. unfold scheduler. apply blind_bind; [apply blind_cpu|]. intros _. apply blind_foreach.
  intros _. unfold scheduler_round, acquire_pt, release_pt. apply blind_bind; [apply blind_cpu|]. intros _.
  apply blind_bind.
  - apply blind_bind; [apply blind_cpu|]. intros _. apply blind_gets; [by apply erase_field|].
    intros []; [apply blind_panic | apply blind_lock].
  - intros _. apply blind_bind; [apply blind_foreach; intros; by apply blind_scheduler_slot|]. intros _.
    apply blind_gets; [by apply erase_field|]. intros []; [|apply blind_panic].
    apply blind_bind; [apply blind_lock|]. intros _. apply blind_popcli.
Qed.

Lemma yielder_blind i : blind (yielder i) (yielder i).
Proof.
  unfold yielder. apply blind_bind; [|intros _; by apply blind_upd].
  intros s t Hst. unfold modify, erase_out. f_equal.
  assert (∀ u : pst (list nat), erase (set_files (files u ++ [i]) u) = set_files (files (erase u) ++ [i]) (erase u))
    as He by done.
  by rewrite !He, Hst.
Qed.

(** The table of [two_ready] after its process in slot 7 asked for 80 percent. *)
Definition greedy : pst (list nat) :=
  set_procs (alter (λ p, set_p_myPortion 80 (set_p_stride 1 (set_p_checkMLFQ 1 (set_p_qLevel (-1) p)))) 7%nat
    (procs two_ready)) two_ready.

Lemma scheduler_ignores_shares_witness :
  erase_out (scheduler yielder 5 greedy) = erase_out (scheduler yielder 5 two_ready).
Proof. apply (scheduler_ignores_shares yielder 5 yielder_blind). vm_compute. reflexivity. Defined.

(** ** set_cpu_share *)

Section share.
Context {W : Type}.
#[local] Notation P := (M (pst W)).

(** [t] has the shares of [s]: the loops of set_cpu_share change only strides
    and passes. *)
Record same_shares (s t : pst W) : Prop := {
  sh_len : length (procs t) = length (procs s);
  sh_lock : pt_lock t = pt_lock s;
  sh_cpu : ucpu t = ucpu s;
  sh_tot : totPortion t = totPortion s;
  sh_slot : ∀ i, p_checkMLFQ (proc_at t i) = p_checkMLFQ (proc_at s i) ∧
    p_myPortion (proc_at t i) = p_myPortion (proc_at s i) ∧ p_qLevel (proc_at t i) = p_qLevel (proc_at s i)
}.

Lemma same_shares_refl s : same_shares s s.
Proof. by split. Qed.
Lemma same_shares_trans s t u : same_shares s t → same_shares t u → same_shares s u.
Proof.
  intros [] []. split; try congruence. intros i. destruct (sh_slot0 i) as (? & ? & ?), (sh_slot1 i) as (? & ? & ?).
  split_and!; congruence.
Qed.

Lemma same_shares_alter s i f : (∀ p, p_checkMLFQ (f p) = p_checkMLFQ p ∧ p_myPortion (f p) = p_myPortion p ∧
    p_qLevel (f p) = p_qLevel p) → same_shares s (set_procs (alter f i (procs s)) s).
Proof.
  intros Hf. destruct (decide (i < length (procs s))%nat).
  - split; try done; [exact (length_alter _ _ _)|]. intros j. rewrite proc_at_alter by done.
    case_decide; [subst; apply Hf | done].
  - rewrite alter_ge by lia. apply same_shares_refl.
Qed.

(** 100 - totPortion is at least 20. *)
Lemma mlfq_divisor tot : 0 ≤ tot ≤ 80 → u32 (100 - tot) = 100 - tot ∧ 1 ≤ 100 / (100 - tot) ≤ 5.
Proof.
  intros. unfold u32. split; [rewrite Z.mod_small by lia; lia|].
  split; [apply Z.div_le_lower_bound; lia | apply Z.div_le_upper_bound; lia].
Qed.

(** The body of set_stride_value for one slot. *)
Lemma wp_stride_slot i s (Q : unit → pst W → Prop) : 0 ≤ totPortion s ≤ 80 → (i < length (procs s))%nat →
  (p_checkMLFQ (proc_at s i) = 1 → p_myPortion (proc_at s i) ≠ 0) →
  (∀ t, same_shares s t → strideOfMlfq t = 100 / (100 - totPortion s) →
     (p_checkMLFQ (proc_at s i) = 1 → p_stride (proc_at t i) = Z.quot 100 (p_myPortion (proc_at s i))) →
     (∀ j, j ≠ i → p_stride (proc_at t j) = p_stride (proc_at s j)) → Q tt t) →
  wp (p ← proc_of i;
      when (p_checkMLFQ p =? 1)
        (if p_myPortion p =? 0 then undef "division by zero"
         else upd i (set_p_stride (Z.quot 100 (p_myPortion p))));;
      tot ← gets totPortion;
      let d := u32 (100 - tot) in
      if d =? 0 then undef "division by zero" else modify (set_strideOfMlfq (100 / d))) Q s.
Proof.
  intros Htot Hi Hp HQ. destruct (mlfq_divisor _ Htot) as [Hd _]. wp_step. apply wp_gets. wp_step.
  destruct (Z.eqb_spec (p_checkMLFQ (proc_at s i)) 1) as [Hc|Hc]; cbn [when].
  - rewrite (proj2 (Z.eqb_neq _ _)) by auto. apply wp_modify. wp_steps. cbn [totPortion set_procs].
    rewrite Hd, (proj2 (Z.eqb_neq _ _)) by lia. wp_steps. apply HQ; [| done | |].
    + pose proof (same_shares_alter s i (set_p_stride (Z.quot 100 (p_myPortion (proc_at s i)))) ltac:(done)) as [].
      by split.
    + intros _. change (proc_at (set_strideOfMlfq ?v ?x) i) with (proc_at x i).
      rewrite proc_at_alter by done. by rewrite decide_True.
    + intros j Hj. change (proc_at (set_strideOfMlfq ?v ?x) j) with (proc_at x j).
      rewrite proc_at_alter by done. by rewrite decide_False by congruence.
  - apply wp_ret. wp_steps. rewrite Hd, (proj2 (Z.eqb_neq _ _)) by lia. wp_steps. apply HQ; [by split | done | done | done].
Qed.

Lemma wp_set_stride_value s (Q : unit → pst W → Prop) : 0 ≤ totPortion s ≤ 80 → length (procs s) = NPROC →
  (∀ i, p_checkMLFQ (proc_at s i) = 1 → p_myPortion (proc_at s i) ≠ 0) →
  (∀ t, same_shares s t → strideOfMlfq t = 100 / (100 - totPortion s) →
     (∀ i, (i < NPROC)%nat → p_checkMLFQ (proc_at s i) = 1 →
        p_stride (proc_at t i) = Z.quot 100 (p_myPortion (proc_at s i))) → Q tt t) →
  wp set_stride_value Q s.
Proof.
  intros Htot Hlen Hp HQ. unfold set_stride_value, for_procs.
  apply (wp_foreach (λ l1 t, same_shares s t ∧ (l1 ≠ [] → strideOfMlfq t = 100 / (100 - totPortion s)) ∧
    ∀ i, i ∈ l1 → p_checkMLFQ (proc_at s i) = 1 →
      p_stride (proc_at t i) = Z.quot 100 (p_myPortion (proc_at s i)))).
  - split_and!; [apply same_shares_refl | done | intros i Hi; by apply elem_of_nil in Hi].
  - intros l1 i l2 t Hl (Hsh & _ & Hst). destruct (seq_split_elem l1 i l2 Hl) as [Hi Hlt]. pose proof Hsh as [].
    destruct (sh_slot0 i) as (E1 & E2 & _).
    apply wp_stride_slot; [lia | lia | rewrite E1, E2; apply Hp |].
    rewrite sh_tot0, E1, E2. intros u Hu Hm Hs Ho. split_and!; [by eapply same_shares_trans | done |].
    intros j [Hj|Hj%list_elem_of_singleton]%elem_of_app Hc; [|subst; auto].
    rewrite Ho; [by apply Hst|]. apply Hlt in Hj. lia.
  - intros t (Hsh & Hm & Hst). apply HQ; [done | by apply Hm |]. intros i Hi. apply Hst, elem_of_seq. lia.
Qed.

Lemma wp_set_pass_value s (Q : unit → pst W → Prop) : length (procs s) = NPROC →
  (∀ t, same_shares s t → strideOfMlfq t = strideOfMlfq s →
     (∀ i, p_stride (proc_at t i) = p_stride (proc_at s i)) → Q tt t) →
  wp set_pass_value Q s.
Proof.
  intros Hlen HQ. unfold set_pass_value, for_procs. wp_steps.
  match goal with |- wp _ _ ?x => assert (same_shares s x) as Hsh by by split end.
  apply (wp_foreach (λ _ t, same_shares s t ∧ strideOfMlfq t = strideOfMlfq s ∧
    ∀ i, p_stride (proc_at t i) = p_stride (proc_at s i))).
  - done.
  - intros l1 i l2 t Hl (Ht & Hm & Hst). destruct (seq_split_elem l1 i l2 Hl) as [Hi _].
    wp_step. apply wp_gets. apply wp_when; [|done]. intros _. apply wp_modify. split_and!.
    + eapply same_shares_trans; [done|]. by apply same_shares_alter.
    + done.
    + intros j. rewrite proc_at_alter by (rewrite (sh_len _ _ Ht); lia). case_decide; [subst; apply Hst | apply Hst].
  - intros t (Ht & Hm & Hst). by apply HQ.
Qed.

(** The state in which set_cpu_share calls set_stride_value. *)
Definition shared (me : nat) (portion : Z) (s : pst W) : pst W → Prop := λ t,
  length (procs t) = NPROC ∧ pt_lock t = true ∧ c_ncli (ucpu t) = c_ncli (ucpu s) + 1 ∧
  c_if (ucpu t) = false ∧ totPortion t = u32 (totPortion s + portion) ∧
  ∀ i, proc_at t i =
    if decide (me = i) then set_p_myPortion portion (set_p_quantumtick 0 (set_p_qLevel (-1)
                              (set_p_checkMLFQ 1 (proc_at s me))))
    else proc_at s i.

Definition share_prefix (me : nat) (portion : Z) : P unit :=
  acquire_pt;;
  modify (λ s, set_numStride (numStride s + 1) s);;
  modify (λ s, set_pcount (pcount s - 1) s);;
  upd me (λ p, set_p_myPortion portion (set_p_quantumtick 0 (set_p_qLevel (-1) (set_p_checkMLFQ 1 p))));;
  modify (λ s, set_totPortion (u32 (totPortion s + portion)) s).

Lemma wp_share_prefix me portion (s : pst W) : calm s → (me < NPROC)%nat →
  wp (share_prefix me portion) (λ _, shared me portion s) s.
Proof.
  intros (Hlen & Hlk & Hn) Hme. unfold share_prefix, acquire_pt, pushcli, upd_cpu. wp_steps. simpl. rewrite Hlk.
  wp_steps. apply wp_modify. wp_steps. split_and!; try done.
  - exact (eq_trans (length_alter _ _ _) Hlen).
  - intros i. match goal with |- proc_at (set_totPortion _ ?x) _ = _ => change (proc_at x i =
      if decide (me = i) then set_p_myPortion portion (set_p_quantumtick 0 (set_p_qLevel (-1)
                              (set_p_checkMLFQ 1 (proc_at s me)))) else proc_at s i) end.
    rewrite proc_at_alter by (simpl; lia). done.
Qed.

Lemma set_cpu_share_eq me portion (s : pst W) : u32 (totPortion s + portion) ≤ 80 →
  set_cpu_share me portion s =
    (share_prefix me portion;; set_stride_value;; set_pass_value;; release_pt;; mret 0) s.
Proof.
  intros Hle. unfold set_cpu_share, share_prefix, mbind, M_bind, gets.
  rewrite (proj2 (Z.ltb_ge _ _)) by lia. destruct (acquire_pt s); done.
Qed.

(** set_stride_value divides by the portion 0 of the slot [me]. *)
Lemma stride_by_zero me (s : pst W) : 0 ≤ totPortion s ≤ 80 → length (procs s) = NPROC → (me < NPROC)%nat →
  p_checkMLFQ (proc_at s me) = 1 → p_myPortion (proc_at s me) = 0 →
  (∀ i, i ≠ me → p_checkMLFQ (proc_at s i) = 1 → p_myPortion (proc_at s i) ≠ 0) →
  set_stride_value s = Undef "division by zero".
Proof.
  intros Htot Hlen Hme Hc Hz Hp. unfold set_stride_value, for_procs. rewrite (seq_split_at me Hme).
  rewrite foreach_app.
  match goal with |- ((foreach _ ?b) ≫= _) _ = _ =>
    destruct (wp_elim (foreach (seq 0 me) b) (λ _, same_shares s) s) as ([] & t & Ht & Hsh) end.
  { apply (wp_foreach (λ _, same_shares s)); [apply same_shares_refl | | done].
    intros l1 i l2 t Hl Hsh. assert (i < me)%nat as Hi.
    { assert (i ∈ seq 0 me) as Hi by (rewrite Hl; apply elem_of_app; right; left). apply elem_of_seq in Hi. lia. }
    pose proof Hsh as []. destruct (sh_slot0 i) as (E1 & E2 & _).
    apply wp_stride_slot; [lia | lia | rewrite E1, E2; apply Hp; lia |].
    intros u Hu _ _ _. by eapply same_shares_trans. }
  rewrite (bind_ok _ _ _ _ _ Ht). cbn [foreach]. unfold mbind at 1, M_bind at 1.
  rewrite (bind_ok _ _ t (proc_at t me) t) by done. destruct (sh_slot _ _ Hsh me) as (E1 & E2 & _).
  rewrite E1, E2, Hc, Hz. done.
Qed.

(** From the state set up by [share_prefix] to the return. *)
Lemma share_loops me portion (s : pst W) : length (procs s) = NPROC → (me < NPROC)%nat → pt_lock s = true →
  c_if (ucpu s) = false → 0 ≤ totPortion s ≤ 80 → portion ≠ 0 → p_checkMLFQ (proc_at s me) = 1 →
  p_qLevel (proc_at s me) = -1 → p_myPortion (proc_at s me) = portion → 1 ≤ c_ncli (ucpu s) →
  (∀ i, i ≠ me → p_checkMLFQ (proc_at s i) = 1 → p_myPortion (proc_at s i) ≠ 0) →
  ∀ T, totPortion s = T →
  ∃ t, (set_stride_value;; set_pass_value;; release_pt;; mret 0) s = Ok 0 t ∧ totPortion t = T ∧
    0 ≤ totPortion t ≤ 80 ∧ strideOfMlfq t = 100 / (100 - totPortion t) ∧ 1 ≤ strideOfMlfq t ≤ 5 ∧
    p_checkMLFQ (proc_at t me) = 1 ∧ p_qLevel (proc_at t me) = -1 ∧
    p_myPortion (proc_at t me) = portion ∧ p_stride (proc_at t me) = Z.quot 100 portion ∧
    (∀ i, p_checkMLFQ (proc_at t i) = 1 → p_myPortion (proc_at t i) ≠ 0).
Proof.
  intros Hlen Hme Hlk Hif Htot Hnz Hc Hq Hpm Hn Hp T <-.
  assert (∀ i, p_checkMLFQ (proc_at s i) = 1 → p_myPortion (proc_at s i) ≠ 0) as Hall.
  { intros i. destruct (decide (i = me)) as [->|Hi]; [congruence | by apply Hp]. }
  edestruct (wp_elim (set_stride_value;; set_pass_value;; release_pt;; mret 0)
    (λ r t, r = 0 ∧ ∃ u, same_shares s u ∧ strideOfMlfq t = 100 / (100 - totPortion s) ∧
       p_stride (proc_at t me) = Z.quot 100 portion ∧ totPortion t = totPortion u ∧ ∀ i, proc_at t i = proc_at u i) s)
    as (r & t & Ht & -> & u & Hu & Hst & Hs & Hto & Hat).
  { wp_step. apply wp_set_stride_value; [done .. |]. intros t1 S1 M1 P1. wp_step.
    apply wp_set_pass_value; [by rewrite (sh_len _ _ S1)|]. intros t2 S2 M2 P2. wp_step.
    pose proof (same_shares_trans _ _ _ S1 S2) as S12. unfold release_pt, popcli, upd_cpu. wp_steps.
    rewrite (sh_lock _ _ S12), Hlk. wp_steps. simpl. rewrite (sh_cpu _ _ S12), Hif.
    rewrite (proj2 (Z.ltb_ge _ _)) by lia. wp_steps. split; [done|]. exists t2.
    split_and!; [done | by rewrite <- M1 | | done | done].
    change (p_stride (proc_at t2 me) = Z.quot 100 portion). rewrite P2, P1, Hpm by done. done. }
  destruct (sh_slot _ _ Hu me) as (E1 & E2 & E3). rewrite (sh_tot _ _ Hu) in Hto.
  exists t. rewrite Hst, Hto, Hs, (Hat me), E1, E2, E3. split_and!; try done; try lia; try apply mlfq_divisor; try lia.
  intros i. rewrite Hat. destruct (sh_slot _ _ Hu i) as (-> & -> & _). apply Hall.
Qed.

(** A process in stride scheduling has a portion. *)
Definition stride_ok (s : pst W) (i : nat) : Prop :=
  p_checkMLFQ (proc_at s i) = 1 → p_myPortion (proc_at s i) ≠ 0.

(** CPU shares are bounded: the total stays within 80 percent, so the
    divisor of the queue's stride is never 0 and the stride is between 1 and
    5. A request that would exceed the bound is refused and changes nothing;
    otherwise the caller leaves the queue with the portion it asked for and
    the stride for it. A request for 0 percent, which the check lets through,
    divides by zero in the kernel. *)
Theorem cpu_share_bounded me portion (s : pst W) : calm s → (me < NPROC)%nat → 0 ≤ totPortion s ≤ 80 →
  - 2 ^ 31 ≤ portion < 2 ^ 31 →
  (∀ i, i ≠ me → stride_ok s i) →
  (80 < u32 (totPortion s + portion) → set_cpu_share me portion s = Ok (-1) s) ∧
  (u32 (totPortion s + portion) ≤ 80 → portion ≠ 0 →
     ∃ t, set_cpu_share me portion s = Ok 0 t ∧ totPortion t = totPortion s + portion ∧
       0 ≤ totPortion t ≤ 80 ∧ strideOfMlfq t = 100 / (100 - totPortion t) ∧ 1 ≤ strideOfMlfq t ≤ 5 ∧
       p_checkMLFQ (proc_at t me) = 1 ∧ p_qLevel (proc_at t me) = -1 ∧
       p_myPortion (proc_at t me) = portion ∧ p_stride (proc_at t me) = Z.quot 100 portion ∧
       (∀ i, stride_ok t i)) ∧
  (portion = 0 → set_cpu_share me portion s = Undef "division by zero").
Proof.
  intros Hcalm Hme Htot Hport Hp.
  assert (u32 (totPortion s + portion) ≤ 80 → u32 (totPortion s + portion) = totPortion s + portion ∧
          0 ≤ totPortion s + portion) as Hu.
  { unfold u32. intros Hle. destruct (decide (0 ≤ totPortion s + portion)).
    - split; [apply Z.mod_small; lia | done].
    - rewrite <- (Z.mod_add _ 1), Z.mod_small in Hle by lia. lia. }
  destruct (wp_elim _ _ _ (wp_share_prefix me portion s Hcalm Hme)) as ([] & t & Ht & Hlen & Hlk & Hn & Hif & Htt & Hat).
  pose proof (Hat me) as Hm. rewrite decide_True in Hm by done.
  assert (∀ i, i ≠ me → proc_at t i = proc_at s i) as Ho by (intros i Hi; by rewrite Hat, decide_False by congruence).
  split_and!.
  - intros Hgt. unfold set_cpu_share, mbind, M_bind, gets. by rewrite (proj2 (Z.ltb_lt _ _)).
  - intros Hle Hnz. destruct (Hu Hle) as [Hu1 Hu2]. rewrite set_cpu_share_eq by done.
    rewrite (bind_ok _ _ _ _ _ Ht).
    destruct Hcalm as (_ & _ & Hc).
    apply (share_loops me portion t); try done; try lia; try (by rewrite Hm).
    intros i Hi. rewrite Ho by done. by apply Hp.
  - intros ->. destruct (Hu ltac:(rewrite Z.add_0_r; unfold u32; rewrite Z.mod_small; lia)) as [Hu1 Hu2].
    rewrite set_cpu_share_eq, (bind_ok _ _ _ _ _ Ht) by lia. unfold mbind, M_bind.
    rewrite (stride_by_zero me t); try done; [lia | by rewrite Hm | by rewrite Hm |].
    intros i Hi. rewrite Ho by done. by apply Hp.
Qed.
End share.

Lemma cpu_share_bounded_witness :
  (∃ t, set_cpu_share 7 80 two_ready = Ok 0 t ∧ totPortion t = 80 ∧ 1 ≤ strideOfMlfq t ≤ 5) ∧
  set_cpu_share 7 0 two_ready = Undef "division by zero".
Proof.
  assert (∀ i, i ≠ 7%nat → p_checkMLFQ (proc_at two_ready i) = 1 → p_myPortion (proc_at two_ready i) ≠ 0) as Hp.
  { intros i _. unfold proc_at. destruct (procs two_ready !! i) as [p|] eqn:E; [|done].
    assert (Forall (λ p, p_checkMLFQ p = 0) (procs two_ready)) as Hf by (vm_compute; repeat constructor).
    rewrite list.Forall_forall in Hf. simpl. rewrite (Hf p); [done|]. by eapply list_elem_of_lookup_2. }
  split.
  - destruct (cpu_share_bounded 7 80 two_ready) as (_ & (t & Ht & Htot & _ & _ & Hst & _) & _);
      [by split_and! | unfold NPROC; lia | done | lia | done | done | done |].
    exists t. split_and!; [exact Ht | exact Htot | apply Hst | apply Hst].
  - apply (cpu_share_bounded 7 0 two_ready); [by split_and! | unfold NPROC; lia | done | lia | done | done].
Defined.
