(* ===== verification/Xem.v ===== *)
(** * Xem: the semaphores and reader-writer locks of proc.c

    A semaphore lives in user memory; here the semaphores are a map from the
    page table of the process and their address in it.  xem_wait takes a number from [count] and sleeps on the address
    of that entry of [arr]; xem_unlock wakes the entry numbered [dcount].  So
    the sleepers form a queue, which the invariant [xinv] spells out, and the
    semaphore is a refinement of a counting semaphore that hands its units out
    in order.  The channel is an address of the caller's memory, which another
    process may use for its own semaphore: see [xem_foreign_wakeup]. *)

From Stdlib Require Import ZArith Lia Bool.
From stdpp Require Import base option list sets gmap strings numbers.
From S2P Require Import Prelude Cstring Kalloc Vm Proc.

#[local] Open Scope string_scope.
#[local] Open Scope list_scope.
#[local] Open Scope Z_scope.

(** SIZE and QUEUESIZE of types.h. *)
Definition SIZE : Z := 9991.
Definition QUEUESIZE : Z := 1000.

(** struct queue. *)
Record queue := Queue { q_q : Z → Z; q_last : Z; q_first : Z; q_count : Z }.

(** struct xem of sleeplock.h; of arr only the addresses are used. *)
Record xem := Xem {
  x_value : Z; x_end : Z; x_locked : bool; x_q : Z; x_count : Z; x_dcount : Z
}.
Definition xem_arr : Z := 64.
Definition sizeof_xem : Z := 40036.

(** struct rwlock: lk, writelock and readers. *)
Definition rw_lk (a : Z) : Z := a.
Definition rw_writelock (a : Z) : Z := a + sizeof_xem.
Definition rw_readers (a : Z) : Z := a + 2 * sizeof_xem.
Definition sizeof_rwlock : Z := 2 * sizeof_xem + 4.

(** The semaphores, the queues and the reader counts in memory. *)
Record xworld := Xworld {
  xems : gmap (Z * Z) xem; xqueues : gmap (Z * Z) queue; xreaders : gmap (Z * Z) Z
}.

(** Where the state below the process table has them. *)
Class XemStore (W : Type) := {
  getx : W → xworld;
  setx : xworld → W → W;
  getx_setx : ∀ x w, getx (setx x w) = x
}.
#[export] Instance xworld_store : XemStore xworld := {| getx := id; setx := λ x _, x; getx_setx := λ _ _, eq_refl |}.

(** ** The queue *)

Definition init_queue (q : queue) : queue := Queue (q_q q) (QUEUESIZE - 1) 0 0.
Definition enqueue (q : queue) (x : Z) : queue * Z :=
  let last := Z.rem (q_last q + 1) QUEUESIZE in
  (Queue (λ i, if i =? last then x else q_q q i) last (q_first q) (q_count q + 1), last).
Definition dequeue (q : queue) : queue * Z :=
  (Queue (q_q q) (q_last q) (Z.rem (q_first q + 1) QUEUESIZE) (q_count q - 1), q_q q (q_first q)).

(** ** What the operations do to the semaphore *)

(** xem_wait before its sleep: the entry of arr to sleep on, if any. *)
Definition wait_enter (x : xem) : xem * option Z :=
  let v := x_value x - 1 in
  if v <? 0 then
    (Xem v (x_end x) (x_locked x) (x_q x) (x_count x + 1) (x_dcount x), Some (Z.rem (x_count x) SIZE))
  else (Xem v (x_end x) (x_locked x) (x_q x) (x_count x) (x_dcount x), None).

(** xem_wait after its sleep. *)
Definition wait_exit (x : xem) : xem :=
  Xem (x_value x) (x_end x - 1) (x_locked x) (x_q x) (x_count x) (x_dcount x).

(** xem_unlock: the entry of arr to wake, if any. *)
Definition unlock_step (x : xem) : xem * option Z :=
  let v := x_value x + 1 in
  if v <=? 0 then
    (Xem v (x_end x + 1) (x_locked x) (x_q x) (x_count x) (x_dcount x + 1), Some (Z.rem (x_dcount x) SIZE))
  else (Xem v (x_end x) (x_locked x) (x_q x) (x_count x) (x_dcount x), None).

Definition xem_reset (x : xem) : xem := Xem 1 0 false (x_q x) 0 0.

(** ** The operations *)

Section xem.
Context {W : Type} `{XemStore W}.
#[local] Notation P := (M (pst W)).
(** The context switch of Proc.v. *)
Context (swtch : nat → P unit).

Definition xw : P xworld := gets (λ s, getx (files s)).
Definition upd_xw (f : xworld → xworld) : P unit :=
  modify (λ s, set_files (setx (f (getx (files s))) (files s)) s).

(** An address in the memory of the process [me]. *)
Definition uaddr (me : nat) (a : Z) : P (Z * Z) := p ← proc_of me; mret (p_pgdir p, a).

Definition xem0 : xem := Xem 0 0 false 0 0 0.
Definition xem_at (me : nat) (a : Z) : P xem :=
  k ← uaddr me a; w ← xw; mret (default xem0 (xems w !! k)).
Definition set_xem (me : nat) (a : Z) (x : xem) : P unit :=
  k ← uaddr me a; upd_xw (λ w, Xworld (<[k := x]> (xems w)) (xqueues w) (xreaders w)).
Definition lock_xem (b : bool) (x : xem) : xem :=
  Xem (x_value x) (x_end x) b (x_q x) (x_count x) (x_dcount x).

(** acquire(&semaphore->lk) and release(&semaphore->lk). *)
Definition acquire_xem (me : nat) (a : Z) : P unit :=
  pushcli;; x ← xem_at me a; if x_locked x then panic "acquire" else set_xem me a (lock_xem true x).
Definition release_xem (me : nat) (a : Z) : P unit :=
  x ← xem_at me a; if x_locked x then set_xem me a (lock_xem false x);; popcli else panic "release".

(** The address of an entry of arr. *)
Definition arr_chan (a k : Z) : chan := ChUser (a + xem_arr + 4 * k).

Definition xem_init (me : nat) (a : Z) : P Z :=
  x ← xem_at me a;
  q ← uaddr me (x_q x);
  upd_xw (λ w, Xworld (xems w)
    (<[q := init_queue (default (Queue (λ _, 0) 0 0 0) (xqueues w !! q))]> (xqueues w)) (xreaders w));;
  set_xem me a (xem_reset x);;
  mret 0.

Definition xem_wait (me : nat) (a : Z) : P Z :=
  acquire_xem me a;;
  x ← xem_at me a;
  if (x_value x =? - 2 ^ 31) || (x_count x =? INT_MAX) then undef "signed overflow" else
  let '(x', slot) := wait_enter x in
  set_xem me a x';;
  match slot with
  | None => mret tt
  | Some k =>
      upd me (set_p_chan (arr_chan a k));;
      p ← proc_of me;
      sleep swtch me (p_chan p) (LkOther (release_xem me a) (acquire_xem me a));;
      x ← xem_at me a;
      set_xem me a (wait_exit x)
  end;;
  release_xem me a;;
  mret 0.

Definition xem_unlock (me : nat) (a : Z) : P Z :=
  acquire_xem me a;;
  x ← xem_at me a;
  if (x_value x =? INT_MAX) || (x_dcount x =? INT_MAX) then undef "signed overflow" else
  let '(x', slot) := unlock_step x in
  set_xem me a x';;
  match slot with
  | None => mret tt
  | Some k => wakeup (arr_chan a k)
  end;;
  release_xem me a;;
  mret 0.

Definition set_readers (me : nat) (a v : Z) : P unit :=
  k ← uaddr me (rw_readers a); upd_xw (λ w, Xworld (xems w) (xqueues w) (<[k := v]> (xreaders w))).
Definition readers (me : nat) (a : Z) : P Z :=
  k ← uaddr me (rw_readers a); w ← xw; mret (default 0 (xreaders w !! k)).

Definition rwlock_init (me : nat) (a : Z) : P Z :=
  xem_init me (rw_lk a);; xem_init me (rw_writelock a);; set_readers me a 0;; mret 0.

Definition rwlock_acquire_readlock (me : nat) (a : Z) : P Z :=
  xem_wait me (rw_lk a);;
  r ← readers me a;
  set_readers me a (r + 1);;
  r ← readers me a;
  when (r =? 1) (xem_wait me (rw_writelock a);; mret tt);;
  xem_unlock me (rw_lk a);;
  mret 0.

Definition rwlock_acquire_writelock (me : nat) (a : Z) : P Z :=
  xem_wait me (rw_writelock a);; mret 0.

Definition rwlock_release_readlock (me : nat) (a : Z) : P Z :=
  xem_wait me (rw_lk a);;
  r ← readers me a;
  set_readers me a (r - 1);;
  r ← readers me a;
  when (r =? 0) (xem_unlock me (rw_writelock a);; mret tt);;
  xem_unlock me (rw_lk a);;
  mret 0.

Definition rwlock_release_writelock (me : nat) (a : Z) : P Z := xem_unlock me (rw_writelock a);; mret 0.

End xem.

(** ** The protocol of the threads that share a semaphore *)

(** Outside, asleep in xem_wait on an entry of arr, woken and not yet returned
    from sleep, inside. *)
Inductive tstate := TOut | TWaiting (k : Z) | TWoken | TIn.

#[export] Instance tstate_eq_dec : EqDecision tstate.
Proof. solve_decision. Defined.

(** wakeup of an entry of arr. *)
Definition wake_slot (k : Z) (t : list tstate) : list tstate :=
  (λ s, if decide (s = TWaiting k) then TWoken else s) <$> t.

(** A step of one thread of the process: the parts of xem_wait and xem_unlock
    that run with the lock of the semaphore held. *)
Inductive xstep : xem * list tstate → xem * list tstate → Prop :=
  | step_enter i x x' t : t !! i = Some TOut → wait_enter x = (x', None) →
      xstep (x, t) (x', <[i := TIn]> t)
  | step_sleep i x x' k t : t !! i = Some TOut → wait_enter x = (x', Some k) →
      xstep (x, t) (x', <[i := TWaiting k]> t)
  | step_resume i x t : t !! i = Some TWoken → xstep (x, t) (wait_exit x, <[i := TIn]> t)
  | step_unlock i x x' t : t !! i = Some TIn → unlock_step x = (x', None) →
      xstep (x, t) (x', <[i := TOut]> t)
  | step_unlock_wake i x x' k t : t !! i = Some TIn → unlock_step x = (x', Some k) →
      xstep (x, t) (x', wake_slot k (<[i := TOut]> t)).

(** A semaphore with value [n], and threads outside. *)
Inductive xreach (n : Z) (m : nat) : xem * list tstate → Prop :=
  | xreach_init e l q : xreach n m (Xem n e l q 0 0, replicate m TOut)
  | xreach_step c c' : xreach n m c → xstep c c' → xreach n m c'.

(** The specification: a counting semaphore with the units available, the
    threads that hold one, and a queue of the threads that wait for one. *)
Record semaphore := Semaphore { avail : Z; holders : list nat; waitq : list nat }.

Inductive sstep : semaphore → semaphore → Prop :=
  | s_take i v h : 0 < v → i ∉ h → sstep (Semaphore v h []) (Semaphore (v - 1) (i :: h) [])
  | s_queue i h q : i ∉ h → i ∉ q → sstep (Semaphore 0 h q) (Semaphore 0 h (q ++ [i]))
  | s_give i v h1 h2 : sstep (Semaphore v (h1 ++ i :: h2) []) (Semaphore (v + 1) (h1 ++ h2) [])
  | s_pass i j h1 h2 q : sstep (Semaphore 0 (h1 ++ i :: h2) (j :: q)) (Semaphore 0 (j :: h1 ++ h2) q).

Inductive sreach (n : Z) : semaphore → Prop :=
  | sreach_init : sreach n (Semaphore n [] [])
  | sreach_step a a' : sreach n a → sstep a a' → sreach n a'.

(** The state of the protocol that represents a state of the specification. *)
Record refines (c : xem * list tstate) (a : semaphore) : Prop := {
  rf_size : Z.of_nat (length c.2) ≤ SIZE;
  rf_dcount : 0 ≤ x_dcount c.1;
  rf_count : x_count c.1 = x_dcount c.1 + Z.of_nat (length (waitq a));
  rf_value : x_value c.1 = avail a - Z.of_nat (length (waitq a));
  rf_avail : 0 ≤ avail a;
  rf_busy : waitq a ≠ [] → avail a = 0;
  rf_queue : ∀ k j, waitq a !! k = Some j →
    c.2 !! j = Some (TWaiting ((x_dcount c.1 + Z.of_nat k) mod SIZE));
  rf_waits : ∀ j k, c.2 !! j = Some (TWaiting k) → j ∈ waitq a;
  rf_nodup : NoDup (waitq a);
  rf_holds : ∀ j, j ∈ holders a ↔ c.2 !! j = Some TIn ∨ c.2 !! j = Some TWoken;
  rf_once : NoDup (holders a)
}.

Lemma slots_distinct d i j : 0 ≤ i < SIZE → 0 ≤ j < SIZE → (d + i) mod SIZE = (d + j) mod SIZE → i = j.
Proof. unfold SIZE. intros Hi Hj E. Z.div_mod_to_equations. lia. Qed.

Lemma rem_mod x : 0 ≤ x → Z.rem x SIZE = x mod SIZE.
Proof. intros. apply Z.rem_mod_nonneg; [done | unfold SIZE; lia]. Qed.

Lemma wake_slot_lookup k t j : wake_slot k t !! j =
  (λ s, if decide (s = TWaiting k) then TWoken else s) <$> (t !! j).
Proof. apply list_lookup_fmap. Qed.

Lemma wait_enter_cases x x' o : wait_enter x = (x', o) →
  x_value x' = x_value x - 1 ∧ x_dcount x' = x_dcount x ∧
  (0 ≤ x_value x - 1 ∧ o = None ∧ x_count x' = x_count x ∨
   x_value x - 1 < 0 ∧ o = Some (Z.rem (x_count x) SIZE) ∧ x_count x' = x_count x + 1).
Proof.
  unfold wait_enter. destruct (Z.ltb_spec (x_value x - 1) 0); intros [= <- <-]; simpl; auto 10.
Qed.

Lemma unlock_cases x x' o : unlock_step x = (x', o) →
  x_value x' = x_value x + 1 ∧ x_count x' = x_count x ∧
  (0 < x_value x + 1 ∧ o = None ∧ x_dcount x' = x_dcount x ∨
   x_value x + 1 ≤ 0 ∧ o = Some (Z.rem (x_dcount x) SIZE) ∧ x_dcount x' = x_dcount x + 1).
Proof.
  unfold unlock_step. destruct (Z.leb_spec (x_value x + 1) 0); intros [= <- <-]; simpl; auto 10.
Qed.

(** A waiting thread does not hold a unit, and the other way round. *)
Lemma refines_not_both c a j : refines c a → j ∈ holders a → j ∉ waitq a.
Proof.
  intros [] Hh [k Hk]%list_elem_of_lookup. apply rf_queue0 in Hk. apply rf_holds0 in Hh.
  destruct Hh as [Hh|Hh]; congruence.
Qed.

Lemma refines_outside c a j : refines c a → c.2 !! j = Some TOut → j ∉ holders a ∧ j ∉ waitq a.
Proof.
  intros [] Hj. split.
  - intros Hh%rf_holds0. destruct Hh; congruence.
  - intros [k Hk]%list_elem_of_lookup. apply rf_queue0 in Hk. congruence.
Qed.

(** The waiting threads are fewer than the entries of arr. *)
Lemma refines_queue_bound c a : refines c a → Z.of_nat (length (waitq a)) ≤ SIZE.
Proof.
  intros []. assert (length (waitq a) ≤ length c.2)%nat; [|lia].
  rewrite <- (length_seq (length c.2) 0). apply submseteq_length, NoDup_submseteq; [done|].
  intros j [k Hk]%list_elem_of_lookup. apply rf_queue0, lookup_lt_Some in Hk. apply elem_of_seq. lia.
Qed.

Lemma refines_enter i x x' t a : refines (x, t) a → t !! i = Some TOut → wait_enter x = (x', None) →
  ∃ a', sstep a a' ∧ refines (x', <[i := TIn]> t) a'.
Proof.
  intros Hr Hi Hw. destruct (refines_outside _ _ i Hr Hi) as [Hh Hq].
  apply wait_enter_cases in Hw as (Hv & Hd & [(Hge & _ & Hc)|(_ & Hf & _)]); [|done].
  destruct Hr, a as [v h q]; simpl in *.
  destruct q as [|j q]; [|rewrite rf_busy0 in rf_value0 by done; simpl in rf_value0; lia].
  exists (Semaphore (v - 1) (i :: h) []). split; [constructor; [simpl in *; lia | done]|].
  split; simpl in *; try lia; try done.
  - by rewrite length_insert.
  - intros j k Hj. destruct (decide (i = j)) as [<-|]; [by rewrite list_lookup_insert_eq in Hj by eauto using lookup_lt_Some|].
    rewrite list_lookup_insert_ne in Hj by done. eauto.
  - intros j. rewrite elem_of_cons. destruct (decide (i = j)) as [<-|].
    + rewrite list_lookup_insert_eq by eauto using lookup_lt_Some. tauto.
    + rewrite list_lookup_insert_ne by done. rewrite rf_holds0. naive_solver.
  - by constructor.
Qed.

Lemma refines_sleep i x x' k t a : refines (x, t) a → t !! i = Some TOut → wait_enter x = (x', Some k) →
  ∃ a', sstep a a' ∧ refines (x', <[i := TWaiting k]> t) a'.
Proof.
  intros Hr Hi Hw. destruct (refines_outside _ _ i Hr Hi) as [Hh Hq].
  apply wait_enter_cases in Hw as (Hv & Hd & [(_ & Hf & _)|(Hlt & [= ->] & Hc)]); [done|].
  destruct Hr, a as [v h q]; simpl in *. pose proof (lookup_lt_Some _ _ _ Hi) as Hit.
  assert (v = 0) as ->.
  { destruct q; [simpl in rf_value0; lia | by apply rf_busy0]. }
  exists (Semaphore 0 h (q ++ [i])). split; [by constructor|].
  assert (length (q ++ [i]) = S (length q)) as Hlen by (rewrite length_app; simpl; lia).
  split; simpl; rewrite ?Hlen; try lia; try done.
  - by rewrite length_insert.
  - intros k j Hj. destruct (decide (k < length q)%nat).
    + rewrite lookup_app_l in Hj by done. rewrite Hd. pose proof (rf_queue0 _ _ Hj) as Hw.
      rewrite list_lookup_insert_ne; [done|]. intros ->. congruence.
    + rewrite lookup_app_r in Hj by lia. destruct (k - length q)%nat eqn:E; simpl in Hj; [|by destruct n0].
      injection Hj as ->. rewrite list_lookup_insert_eq by done. rewrite rem_mod by lia. do 3 f_equal. lia.
  - intros j k' Hj. apply elem_of_app. destruct (decide (i = j)) as [<-|]; [right; by left|].
    rewrite list_lookup_insert_ne in Hj by done. left. eauto.
  - apply list.NoDup_app. split_and!; [done | | by repeat constructor; apply not_elem_of_nil].
    intros j Hj Hj'%list_elem_of_singleton. by subst.
  - intros j. destruct (decide (i = j)) as [<-|].
    + rewrite list_lookup_insert_eq by done. split; [done | by intros []].
    + rewrite list_lookup_insert_ne by done. apply rf_holds0.
Qed.

Lemma refines_resume i x t a : refines (x, t) a → t !! i = Some TWoken →
  refines (wait_exit x, <[i := TIn]> t) a.
Proof.
  intros [] Hi. pose proof (lookup_lt_Some _ _ _ Hi). split; simpl in *; try done.
  - by rewrite length_insert.
  - intros k j Hj. pose proof (rf_queue0 _ _ Hj) as Hw. rewrite list_lookup_insert_ne; [done|].
    intros ->. congruence.
  - intros j k Hj. destruct (decide (i = j)) as [<-|]; [by rewrite list_lookup_insert_eq in Hj|].
    rewrite list_lookup_insert_ne in Hj by done. eauto.
  - intros j. rewrite rf_holds0. destruct (decide (i = j)) as [<-|].
    + rewrite list_lookup_insert_eq by done. naive_solver.
    + by rewrite list_lookup_insert_ne by done.
Qed.

Lemma refines_unlock i x x' t a : refines (x, t) a → t !! i = Some TIn → unlock_step x = (x', None) →
  ∃ a', sstep a a' ∧ refines (x', <[i := TOut]> t) a'.
Proof.
  intros [] Hi Hu. apply unlock_cases in Hu as (Hv & Hc & [(Hgt & _ & Hd)|(_ & Hf & _)]); [|done].
  destruct a as [v h q]; simpl in *. pose proof (lookup_lt_Some _ _ _ Hi).
  destruct q as [|j q]; [|rewrite rf_busy0 in rf_value0 by done; simpl in rf_value0; lia].
  assert (i ∈ h) as (h1 & h2 & ->)%list_elem_of_split by (apply rf_holds0; auto).
  exists (Semaphore (v + 1) (h1 ++ h2) []). split; [constructor|].
  apply list.NoDup_app in rf_once0 as (N1 & N2 & [N3 N4]%list.NoDup_cons).
  split; simpl in *; try lia; try done.
  - by rewrite length_insert.
  - intros j k Hj. destruct (decide (i = j)) as [<-|]; [by rewrite list_lookup_insert_eq in Hj|].
    rewrite list_lookup_insert_ne in Hj by done. eauto.
  - intros j. specialize (rf_holds0 j). rewrite elem_of_app, elem_of_cons in rf_holds0. rewrite elem_of_app.
    destruct (decide (i = j)) as [<-|].
    + rewrite list_lookup_insert_eq by done. split; [|by intros []]. intros [Hj|Hj]; [|done].
      destruct (N2 i Hj). by left.
    + rewrite list_lookup_insert_ne by done. rewrite <- rf_holds0. naive_solver.
  - apply list.NoDup_app. split_and!; [done | | done]. intros j Hj Hj2. apply (N2 j Hj). by right.
Qed.

(** The entry that xem_unlock wakes is that of the head of the queue alone. *)
Lemma refines_head c v h j0 q : refines c (Semaphore v h (j0 :: q)) →
  c.2 !! j0 = Some (TWaiting (x_dcount c.1 mod SIZE)) ∧
  (∀ m j, q !! m = Some j → c.2 !! j = Some (TWaiting ((x_dcount c.1 + 1 + Z.of_nat m) mod SIZE)) ∧
     (x_dcount c.1 + 1 + Z.of_nat m) mod SIZE ≠ x_dcount c.1 mod SIZE) ∧
  (∀ j, c.2 !! j = Some (TWaiting (x_dcount c.1 mod SIZE)) → j = j0).
Proof.
  intros Hr. pose proof (refines_queue_bound _ _ Hr) as Hb. destruct Hr; simpl in *.
  assert (∀ m j, q !! m = Some j → c.2 !! j = Some (TWaiting ((x_dcount c.1 + 1 + Z.of_nat m) mod SIZE)) ∧
     (x_dcount c.1 + 1 + Z.of_nat m) mod SIZE ≠ x_dcount c.1 mod SIZE) as Hq.
  { intros m j Hm. pose proof (lookup_lt_Some _ _ _ Hm). split.
    - rewrite (rf_queue0 (S m) j Hm). do 3 f_equal. lia.
    - intros E. rewrite <- (Z.add_0_r (x_dcount c.1)) in E at 2. rewrite <- Z.add_assoc in E.
      apply slots_distinct in E; lia. }
  split_and!; [|done|].
  - rewrite (rf_queue0 0%nat j0 eq_refl). simpl. by rewrite Z.add_0_r.
  - intros j Hj. pose proof (rf_waits0 _ _ Hj) as Hin. apply elem_of_cons in Hin as [|[m Hm]%list_elem_of_lookup]; [done|].
    destruct (Hq m j Hm) as [Hj' Hne]. congruence.
Qed.

Lemma refines_unlock_wake i x x' k t a : refines (x, t) a → t !! i = Some TIn →
  unlock_step x = (x', Some k) → ∃ a', sstep a a' ∧ refines (x', wake_slot k (<[i := TOut]> t)) a'.
Proof.
  intros Hr Hi Hu. apply unlock_cases in Hu as (Hv & Hc & [(_ & Hf & _)|(Hle & [= ->] & Hd)]); [done|].
  destruct a as [v h q]. pose proof (lookup_lt_Some _ _ _ Hi).
  destruct q as [|j0 q]; [destruct Hr; simpl in *; lia|].
  destruct (refines_head _ _ _ _ _ Hr) as (Hj0 & Hq & Hone). destruct Hr; simpl in *.
  rewrite rf_busy0 in * by done. clear rf_busy0. rewrite rem_mod by done.
  assert (i ∈ h) as (h1 & h2 & ->)%list_elem_of_split by (apply rf_holds0; auto).
  assert (i ≠ j0) as Hij by (intros ->; congruence).
  exists (Semaphore 0 (j0 :: h1 ++ h2) q). split; [constructor|].
  apply list.NoDup_app in rf_once0 as (N1 & N2 & [N3 N4]%list.NoDup_cons).
  apply list.NoDup_cons in rf_nodup0 as [N5 N6].
  split; simpl in *; try lia; try done.
  - unfold wake_slot. by rewrite length_fmap, length_insert.
  - intros m j Hm. destruct (Hq m j Hm) as [Hj Hne]. rewrite wake_slot_lookup, list_lookup_insert_ne by congruence.
    rewrite Hj. simpl. rewrite decide_False by congruence. by rewrite Hd.
  - intros j k. rewrite wake_slot_lookup. destruct (decide (i = j)) as [<-|].
    { by rewrite list_lookup_insert_eq by done. }
    rewrite list_lookup_insert_ne by done. destruct (t !! j) as [s|] eqn:Hj; simpl; [|done].
    case_decide as E; intros [= ->]. pose proof (rf_waits0 _ _ Hj) as Hin.
    apply elem_of_cons in Hin as [->|]; [congruence | done].
  - intros j. specialize (rf_holds0 j). rewrite elem_of_cons, !elem_of_app, elem_of_cons in *.
    rewrite wake_slot_lookup. destruct (decide (i = j)) as [<-|].
    + rewrite list_lookup_insert_eq by done. simpl. split; [|by intros []].
      intros [|[Hj|]]; [done | | done]. destruct (N2 i Hj). by left.
    + rewrite list_lookup_insert_ne by done. destruct (t !! j) as [s|] eqn:Hj; simpl.
      * case_decide as E; [subst s; rewrite (Hone j Hj); tauto|].
        assert (j ≠ j0) by congruence. naive_solver.
      * assert (j ≠ j0) by congruence. naive_solver.
  - constructor.
    + intros Hin. assert (j0 ∈ h1 ++ i :: h2) as Hh.
      { apply elem_of_app in Hin as [|]; apply elem_of_app; [by left | right; by right]. }
      apply rf_holds0 in Hh as [|]; congruence.
    + apply list.NoDup_app. split_and!; [done | | done]. intros j Hj Hj2. apply (N2 j Hj). by right.
Qed.

(** Every step is a step of the specification, or stutters. *)
Lemma xstep_refines c c' a : refines c a → xstep c c' → refines c' a ∨ ∃ a', sstep a a' ∧ refines c' a'.
Proof.
  intros Hr. destruct 1.
  - right. by eapply refines_enter.
  - right. by eapply refines_sleep.
  - left. by apply refines_resume.
  - right. by eapply refines_unlock.
  - right. by eapply refines_unlock_wake.
Qed.

Lemma refines_init n m e l q : 0 ≤ n → Z.of_nat m ≤ SIZE →
  refines (Xem n e l q 0 0, replicate m TOut) (Semaphore n [] []).
Proof.
  intros. split; simpl; try done; try lia; try constructor.
  - by rewrite length_replicate.
  - intros j k [Hj _]%lookup_replicate. done.
  - intros Hj. by apply elem_of_nil in Hj.
  - intros [[Hj _]%lookup_replicate|[Hj _]%lookup_replicate]; done.
Qed.

(** The specification never hands out more than its units. *)
Lemma sreach_units n a : sreach n a → avail a + Z.of_nat (length (holders a)) = n.
Proof.
  induction 1 as [|a a' Hr IH Hs]; simpl; [lia|].
  destruct Hs; simpl in *; rewrite ?length_app in *; simpl in *; lia.
Qed.


