(* ===== verification/XemCode.v ===== *)
(** * XemCode: the code of xem_wait and xem_unlock, run on the process table

    What a call does to the semaphore is the step of the protocol of Xem.v,
    and to the table a sleep or a wakeup on the address of an entry of arr. *)

From Stdlib Require Import ZArith Lia Bool.
From stdpp Require Import base option list sets gmap strings numbers.
From S2P Require Import Prelude Cstring Kalloc Vm Proc ProcSpec ProcLife Xem.

#[local] Open Scope string_scope.
#[local] Open Scope list_scope.
#[local] Open Scope Z_scope.

Section code.
Context {W : Type} `{XemStore W} .
#[local] Notation P := (M (pst W)).

(** The semaphore at address [a] of the memory with page table [pg]. *)
Definition sem_of (s : pst W) (pg a : Z) : xem := default xem0 (xems (getx (files s)) !! (pg, a)).

(** [t] is [s] but for the semaphore at [a], which is [x], and the processor. *)
Record semstate (s : pst W) (pg a : Z) (x : xem) (n : Z) (t : pst W) : Prop := {
  ss_procs : procs t = procs s;
  ss_lock : pt_lock t = pt_lock s;
  ss_sem : sem_of t pg a = x;
  ss_other : ∀ pg' a', (pg', a') ≠ (pg, a) → sem_of t pg' a' = sem_of s pg' a';
  ss_cli : c_ncli (ucpu t) = n;
  ss_if : 0 < n → c_if (ucpu t) = false
}.

Lemma ss_at s pg a x n t j : semstate s pg a x n t → proc_at t j = proc_at s j.
Proof. intros []. unfold proc_at. by rewrite ss_procs0. Qed.

Lemma wp_xem_at me a s (Q : xem → pst W → Prop) : Q (sem_of s (p_pgdir (proc_at s me)) a) s →
  wp (xem_at me a) Q s.
Proof. intros HQ. unfold xem_at, uaddr, xw. by do 5 (wp_step || apply wp_gets). Qed.

Lemma wp_set_xem me a x s t y n (Q : unit → pst W → Prop) : let pg := p_pgdir (proc_at s me) in
  semstate s pg a y n t → (∀ u, semstate s pg a x n u → Q tt u) → wp (set_xem me a x) Q t.
Proof.
  intros pg Ht HQ. unfold set_xem, uaddr, upd_xw. wp_step. wp_step. apply wp_gets. wp_step. wp_step.
  rewrite (ss_at _ _ _ _ _ _ me Ht). fold pg. destruct Ht. apply HQ. split; simpl; try done.
  - unfold sem_of. simpl. rewrite getx_setx. simpl. by rewrite lookup_insert_eq.
  - intros pg' a' Hne. rewrite <- ss_other0 by done. unfold sem_of. simpl. rewrite getx_setx. simpl.
    by rewrite lookup_insert_ne by congruence.
Qed.

Lemma ss_start s pg a : c_ncli (ucpu s) = 0 → semstate s pg a (sem_of s pg a) 0 s.
Proof. by split. Qed.

Lemma wp_acquire_xem me a s t x n (Q : unit → pst W → Prop) : let pg := p_pgdir (proc_at s me) in
  0 ≤ n → semstate s pg a x n t → x_locked x = false →
  (∀ u, semstate s pg a (lock_xem true x) (n + 1) u → Q tt u) → wp (acquire_xem me a) Q t.
Proof.
  intros pg Hn Ht Hx HQ. unfold acquire_xem, pushcli, upd_cpu. wp_steps.
  match goal with |- wp _ _ ?t' => assert (semstate s pg a x (n + 1) t') as Ht' end.
  { destruct Ht. split; simpl; try done. by rewrite ss_cli0. }
  apply wp_xem_at. rewrite (ss_at _ _ _ _ _ _ me Ht'). fold pg. rewrite (ss_sem _ _ _ _ _ _ Ht'), Hx.
  by eapply wp_set_xem.
Qed.

Lemma wp_release_xem me a s t x n (Q : unit → pst W → Prop) : let pg := p_pgdir (proc_at s me) in
  0 < n → semstate s pg a x n t → x_locked x = true →
  (∀ u, semstate s pg a (lock_xem false x) (n - 1) u → Q tt u) → wp (release_xem me a) Q t.
Proof.
  intros pg Hn Ht Hx HQ. unfold release_xem. wp_step. apply wp_xem_at.
  rewrite (ss_at _ _ _ _ _ _ me Ht). fold pg. rewrite (ss_sem _ _ _ _ _ _ Ht), Hx. wp_step.
  eapply wp_set_xem; [done|]. intros u Hu. unfold popcli, upd_cpu. wp_steps.
  rewrite (ss_if _ _ _ _ _ _ Hu), (ss_cli _ _ _ _ _ _ Hu) by done.
  rewrite (proj2 (Z.ltb_ge _ _)) by lia. wp_steps. apply HQ. destruct Hu. split; simpl; try done.
  - by rewrite ss_cli0.
  - intros Hn'. rewrite ss_cli0. rewrite (proj2 (Z.eqb_neq _ _)) by lia. simpl. auto.
Qed.

Lemma proc_at_woken ch (s : pst W) j : proc_at (set_procs (woken ch <$> procs s) s) j = woken ch (proc_at s j).
Proof. unfold proc_at. simpl. rewrite list_lookup_fmap. by destruct (procs s !! j). Qed.

(** wakeup with the lock of a semaphore held. *)
Lemma ss_wakeup s pg a x t ch (Q : unit → pst W → Prop) : length (procs s) = NPROC → pt_lock s = false →
  semstate s pg a x 1 t →
  (∀ u, semstate (set_procs (woken ch <$> procs s) s) pg a x 1 u → Q tt u) → wp (wakeup ch) Q t.
Proof.
  intros Hlen Hlk Ht HQ. unfold wakeup, acquire_pt, release_pt, pushcli, popcli, upd_cpu. wp_steps. simpl.
  rewrite (ss_lock _ _ _ _ _ _ Ht), Hlk. wp_steps. apply wakeup1_exact; [simpl; by rewrite (ss_procs _ _ _ _ _ _ Ht)|].
  wp_steps. simpl. wp_steps. simpl. rewrite (ss_cli _ _ _ _ _ _ Ht). simpl. wp_steps. apply HQ.
  destruct Ht. split; simpl; try done. by rewrite ss_procs0.
Qed.

Lemma lock_unlock x : lock_xem false (unlock_step (lock_xem true x)).1 = lock_xem false (unlock_step x).1 ∧
  (unlock_step (lock_xem true x)).2 = (unlock_step x).2 ∧ x_locked (unlock_step (lock_xem true x)).1 = true.
Proof. unfold unlock_step, lock_xem. simpl. by destruct (_ <=? 0). Qed.

Lemma unlock_keeps_lock x : x_locked x = false → lock_xem false (unlock_step x).1 = (unlock_step x).1.
Proof. unfold unlock_step, lock_xem. destruct x, (_ <=? 0); simpl; congruence. Qed.

(** xem_unlock is one step of the protocol, and wakes the sleepers on the
    address of the entry. *)
Lemma xem_unlock_run me a s : let pg := p_pgdir (proc_at s me) in let x := sem_of s pg a in
  length (procs s) = NPROC → pt_lock s = false → c_ncli (ucpu s) = 0 → x_locked x = false →
  x_value x ≠ INT_MAX → x_dcount x ≠ INT_MAX →
  wp (xem_unlock me a) (λ r t, r = 0 ∧ sem_of t pg a = (unlock_step x).1 ∧
    (∀ pg' a', (pg', a') ≠ (pg, a) → sem_of t pg' a' = sem_of s pg' a') ∧
    procs t = match (unlock_step x).2 with
              | Some k => woken (arr_chan a k) <$> procs s
              | None => procs s
              end) s.
Proof.
  intros pg x Hlen Hlk Hcli Hx Hv Hd. unfold xem_unlock. wp_step.
  eapply (wp_acquire_xem me a s s x 0); [lia | by apply ss_start | done |]. intros t1 H1. wp_step.
  apply wp_xem_at. rewrite (ss_at _ _ _ _ _ _ me H1). fold pg. fold pg in H1.
  rewrite (ss_sem _ _ _ _ _ _ H1). destruct (lock_unlock x) as (Hu1 & Hu2 & Hu3).
  destruct (unlock_step (lock_xem true x)) as [x' o] eqn:Hu. simpl in Hu1, Hu2, Hu3. cbn [lock_xem x_value x_dcount].
  rewrite !(proj2 (Z.eqb_neq _ _)) by done. cbn [orb]. wp_step.
  eapply wp_set_xem; [done|]. intros t2 H2. wp_step. rewrite <- Hu2, <- (unlock_keeps_lock x), <- Hu1 by done.
  destruct o as [k|].
  - eapply (ss_wakeup s); [done | done | done |]. intros t3 H3. wp_step.
    assert (p_pgdir (proc_at (set_procs (woken (arr_chan a k) <$> procs s) s) me) = pg) as Hpg.
    { rewrite proc_at_woken. unfold woken. by destruct (_ && _). }
    fold pg in H3. rewrite <- Hpg in H3. eapply (wp_release_xem me a _ _ _ 1); [lia | done | done |]. intros t4 [].
    wp_steps. rewrite Hpg in *. split_and!; try done. 
  - apply wp_ret. wp_step. eapply (wp_release_xem me a s _ _ 1); [lia | done | done |]. intros t4 []. by wp_steps.
Qed.

Lemma ss_upd s pg a x n t i f (Q : unit → pst W → Prop) : semstate s pg a x n t →
  (∀ u, semstate (set_procs (alter f i (procs s)) s) pg a x n u → Q tt u) → wp (upd i f) Q t.
Proof. intros [] HQ. apply wp_modify, HQ. split; try done. simpl. by rewrite ss_procs0. Qed.

Lemma ss_acquire_pt s pg a x n t (Q : unit → pst W → Prop) : 0 ≤ n → pt_lock s = false → semstate s pg a x n t →
  (∀ u, semstate (set_pt_lock true s) pg a x (n + 1) u → Q tt u) → wp acquire_pt Q t.
Proof.
  intros Hn Hlk Ht HQ. unfold acquire_pt, pushcli, upd_cpu. wp_steps. simpl.
  rewrite (ss_lock _ _ _ _ _ _ Ht), Hlk. wp_steps. apply HQ. destruct Ht. split; simpl; try done. by rewrite ss_cli0.
Qed.

Lemma ss_release_pt s pg a x n t (Q : unit → pst W → Prop) : 0 < n → pt_lock s = true → semstate s pg a x n t →
  (∀ u, semstate (set_pt_lock false s) pg a x (n - 1) u → Q tt u) → wp release_pt Q t.
Proof.
  intros Hn Hlk Ht HQ. unfold release_pt, popcli, upd_cpu. wp_steps.
  rewrite (ss_lock _ _ _ _ _ _ Ht), Hlk. wp_steps. simpl.
  rewrite (ss_if _ _ _ _ _ _ Ht), (ss_cli _ _ _ _ _ _ Ht) by done.
  rewrite (proj2 (Z.ltb_ge _ _)) by lia. wp_steps. apply HQ. destruct Ht. split; simpl; try done.
  - by rewrite ss_cli0.
  - intros Hn'. rewrite ss_cli0. rewrite (proj2 (Z.eqb_neq _ _)) by lia. simpl. auto.
Qed.

(** The scheduler comes back to [me], woken by whatever it was: the table is
    locked and the semaphore, which is [y] now, is not. *)
Definition comes_back (swtch : nat → P unit) (me : nat) (pg a : Z) (y : xem) : Prop := ∀ t,
  p_state (proc_at t me) = SLEEPING →
  wp (swtch me) (λ _ u, length (procs u) = NPROC ∧ pt_lock u = true ∧ c_ncli (ucpu u) = 1 ∧
    c_if (ucpu u) = false ∧ p_pgdir (proc_at u me) = pg ∧ sem_of u pg a = y) t.

(** sleep with the lock of the semaphore. *)
Lemma ss_sleep swtch me a ch s t x y (Q : unit → pst W → Prop) : let pg := p_pgdir (proc_at s me) in
  length (procs s) = NPROC → (me < NPROC)%nat → pt_lock s = false → semstate s pg a x 1 t →
  x_locked x = true → x_locked y = false → comes_back swtch me pg a y →
  (∀ u v, semstate u pg a (lock_xem true y) 1 v → pg = p_pgdir (proc_at u me) → Q tt v) →
  wp (sleep swtch me ch (LkOther (release_xem me a) (acquire_xem me a))) Q t.
Proof.
  intros pg Hlen Hme Hlk Ht Hx Hy Hcb HQ. unfold sleep. wp_step.
  eapply (ss_acquire_pt s pg a x 1); [lia | done | done |]. intros t1 H1. wp_step.
  eapply (wp_release_xem me a (set_pt_lock true s) _ _ 2); [lia | done | done |]. intros t2 H2. wp_step.
  eapply ss_upd; [done|]. intros t3 H3. wp_step.
  match type of H3 with semstate ?b _ _ _ _ _ => set (s3 := b) in H3 end.
  assert (proc_at s3 me = set_p_state SLEEPING (set_p_chan ch (proc_at s me))) as Hat3.
  { unfold s3. rewrite proc_at_alter by (simpl; lia). by rewrite decide_True. }
  unfold sched. wp_step. apply wp_gets. rewrite (ss_lock _ _ _ _ _ _ H3). cbn [s3 set_procs set_pt_lock pt_lock negb].
  wp_step. apply wp_gets. rewrite (ss_cli _ _ _ _ _ _ H3). cbn [negb Z.eqb Z.sub]. simpl.
  wp_step. apply wp_gets. rewrite (ss_at _ _ _ _ _ _ me H3), Hat3. simpl.
  rewrite (ss_if _ _ _ _ _ _ H3) by lia. wp_step. eapply wp_mono.
  { apply Hcb. rewrite (ss_at _ _ _ _ _ _ me H3), Hat3. done. }
  intros [] u (Hlu & Hlku & Hnu & Hiu & Hpu & Hsu). unfold upd_cpu. wp_steps.
  match goal with |- wp _ _ ?u' => assert (semstate u pg a y 1 u') as Hu by by split end.
  eapply ss_upd; [done|]. intros u1 H4. wp_step. eapply (ss_release_pt _ pg a y 1); [lia | | exact H4 |]; [done|]. intros u2 H5.
  match type of H5 with semstate ?b _ _ _ _ _ => assert (p_pgdir (proc_at b me) = pg) as Hpb end.
  { match goal with |- p_pgdir (proc_at (set_pt_lock _ ?z) _) = _ => change (p_pgdir (proc_at z me) = pg) end.
    rewrite proc_at_alter by lia. by rewrite decide_True. }
  rewrite <- Hpb in H5. eapply wp_acquire_xem; [| exact H5 | done |]; [lia|]. intros u3 H6.
  rewrite Hpb in H6. by eapply HQ.
Qed.

Lemma wait_enter_lock x : (wait_enter (lock_xem true x)).1 = lock_xem true (wait_enter x).1 ∧
  (wait_enter (lock_xem true x)).2 = (wait_enter x).2.
Proof. unfold wait_enter, lock_xem. simpl. by destruct (_ <? 0). Qed.

Lemma wait_enter_unlocked x : x_locked x = false → lock_xem false (lock_xem true (wait_enter x).1) = (wait_enter x).1.
Proof. unfold wait_enter, lock_xem. destruct x, (_ <? 0); simpl; congruence. Qed.

(** xem_wait is a step of the protocol; if it sleeps, it returns once the
    scheduler comes back to it. *)
Lemma xem_wait_run swtch me a s y : let pg := p_pgdir (proc_at s me) in let x := sem_of s pg a in
  length (procs s) = NPROC → (me < NPROC)%nat → pt_lock s = false → c_ncli (ucpu s) = 0 → x_locked x = false →
  x_value x ≠ - 2 ^ 31 → x_count x ≠ INT_MAX → x_locked y = false → comes_back swtch me pg a y →
  wp (xem_wait swtch me a) (λ r t, r = 0 ∧
    sem_of t pg a = match (wait_enter x).2 with None => (wait_enter x).1 | Some _ => wait_exit y end) s.
Proof.
  intros pg x Hlen Hme Hlk Hcli Hx Hv Hc Hy Hcb. unfold xem_wait. wp_step.
  eapply (wp_acquire_xem me a s s x 0); [lia | by apply ss_start | done |]. intros t1 H1. wp_step.
  apply wp_xem_at. rewrite (ss_at _ _ _ _ _ _ me H1). fold pg. fold pg in H1. rewrite (ss_sem _ _ _ _ _ _ H1).
  destruct (wait_enter_lock x) as (He1 & He2). pose proof (wait_enter_unlocked x Hx) as He3.
  destruct (wait_enter (lock_xem true x)) as [x' o] eqn:He. simpl in He1, He2. cbn [lock_xem x_value x_count].
  rewrite !(proj2 (Z.eqb_neq _ _)) by done. cbn [orb]. wp_step.
  eapply wp_set_xem; [done|]. intros t2 H2. wp_step. rewrite <- He2, <- He3. subst x'.
  destruct o as [k|].
  - wp_step. eapply ss_upd; [done|]. intros t3 H3. wp_step. apply wp_gets.
    match type of H3 with semstate ?b _ _ _ _ _ => set (s3 := b) in H3 end.
    assert (proc_at s3 me = set_p_chan (arr_chan a k) (proc_at s me)) as Hat3.
    { unfold s3. rewrite proc_at_alter by lia. by rewrite decide_True. }
    wp_step. eapply (ss_sleep swtch me a _ s3); rewrite ?Hat3; try done;
      [unfold s3; simpl; by rewrite length_alter |]. intros u v Huv Hpu. rewrite Hpu in Huv. wp_step.
    apply wp_xem_at. rewrite (ss_at _ _ _ _ _ _ me Huv), (ss_sem _ _ _ _ _ _ Huv).
    eapply wp_set_xem; [done|]. intros v1 H4. wp_step.
    eapply (wp_release_xem me a u _ _ 1); [lia | done | done |]. intros v2 H5. wp_steps. split; [done|].
    change pg with (p_pgdir (set_p_chan (arr_chan a k) (proc_at s me))). rewrite Hpu, (ss_sem _ _ _ _ _ _ H5).
    destruct y. simpl in *. by subst.
  - apply wp_ret. wp_step. eapply (wp_release_xem me a s _ _ 1); [lia | done | done |].
    intros t4 H4. wp_steps. split; [done|]. by apply H4.
Qed.

(** A semaphore takes any wakeup for its own. The channel of a waiter is
    an address in its process, so when another process unlocks a semaphore at
    the same address and entry, wakeup makes the waiter of the first process
    runnable although no unit of its semaphore was given back; and xem_wait,
    which does not test anything after its sleep, then returns 0. *)
Theorem xem_foreign_wakeup me j a s : let pg := p_pgdir (proc_at s me) in let pgB := p_pgdir (proc_at s j) in
  length (procs s) = NPROC → (j < NPROC)%nat → pt_lock s = false → c_ncli (ucpu s) = 0 → pg ≠ pgB →
  x_locked (sem_of s pg a) = false → x_value (sem_of s pg a) < 0 → x_dcount (sem_of s pg a) ≠ INT_MAX →
  p_state (proc_at s j) = SLEEPING →
  p_chan (proc_at s j) = arr_chan a (Z.rem (x_dcount (sem_of s pg a)) SIZE) →
  (∃ t, xem_unlock me a s = Ok 0 t ∧ p_state (proc_at t j) = RUNNABLE ∧ sem_of t pgB a = sem_of s pgB a) ∧
  (∀ swtch s0 y, p_pgdir (proc_at s0 j) = pgB → length (procs s0) = NPROC → pt_lock s0 = false →
     c_ncli (ucpu s0) = 0 → x_locked (sem_of s0 pgB a) = false → - 2 ^ 31 < x_value (sem_of s0 pgB a) ≤ 0 →
     x_count (sem_of s0 pgB a) ≠ INT_MAX → x_locked y = false → comes_back swtch j pgB a y →
     ∃ t, xem_wait swtch j a s0 = Ok 0 t ∧ sem_of t pgB a = wait_exit y).
Proof.
  intros pg pgB Hlen Hj Hlk Hcli Hpg Hx Hv Hd Hst Hch. split.
  - destruct (wp_elim _ _ _ (xem_unlock_run me a s Hlen Hlk Hcli Hx ltac:(unfold INT_MAX, pg in *; lia) Hd))
      as (r & t & Hr & -> & _ & Hother & Hp). fold pg in Hp, Hother.
    exists t. split_and!; [done | | by apply Hother; congruence].
    assert ((unlock_step (sem_of s pg a)).2 = Some (Z.rem (x_dcount (sem_of s pg a)) SIZE)) as Hu.
    { unfold unlock_step. by rewrite (proj2 (Z.leb_le _ _)) by lia. }
    rewrite Hu in Hp. unfold proc_at. rewrite Hp, list_lookup_fmap, (lookup_proc_at s j) by done. simpl.
    unfold woken. rewrite <- Hch. unfold is_state. by rewrite Hst, !bool_decide_eq_true_2.
  - intros swtch s0 y Hp0 Hlen0 Hlk0 Hcli0 Hx0 Hv0 Hc0 Hy Hcb. rewrite <- Hp0 in *.
    destruct (wp_elim _ _ _ (xem_wait_run swtch j a s0 y Hlen0 Hj Hlk0 Hcli0 Hx0 ltac:(lia) Hc0 Hy Hcb))
      as (r & t & Hr & -> & Hs). exists t. split; [done|]. rewrite Hs.
    unfold wait_enter. by rewrite (proj2 (Z.ltb_lt _ _)) by lia.
Qed.
End code.

(** Two processes with a semaphore at address 4096, a thread of each inside
    and one asleep; slot 1 is the sleeper of the second process. *)
Definition two_semaphores : pst xworld :=
  let x := Xem (-1) 0 false 0 1 0 in
  let pA := set_p_state RUNNING (set_p_pgdir 0x80500000 proc0) in
  let pB := set_p_state SLEEPING (set_p_chan (arr_chan 4096 0) (set_p_pgdir 0x80600000 proc0)) in
  Pst false (pA :: pB :: replicate 62 proc0) None 3 0 0 0 0 0 0 false 0
    (Cpu 0 false true None 0 0) (Kst (λ _, 0) false true 0)
    (Xworld {[ (0x80500000, 4096) := x; (0x80600000, 4096) := x ]} ∅ ∅).

Lemma xem_foreign_wakeup_witness : ∃ t, xem_unlock 0 4096 two_semaphores = Ok 0 t ∧
  p_state (proc_at t 1) = RUNNABLE ∧ x_value (sem_of t 0x80600000 4096) = -1.
Proof.
  destruct (xem_foreign_wakeup 0 1 4096 two_semaphores) as [(t & Ht & Hst & Hs) _];
    [done | unfold NPROC; lia | done | done | done | done | done | done | done | done |].
  exists t. split_and!; [exact Ht | exact Hst |].
  change (p_pgdir (proc_at two_semaphores 1)) with 0x80600000 in Hs. rewrite Hs. reflexivity.
Defined.
