(* ===== verification/Rwlock.v ===== *)
(** * Rwlock: exclusion between readers and writers

    The four rwlock operations of proc.c as the steps of the threads that call
    them, over the counting semaphores that Xem.v shows lk and writelock to
    be.  A thread is at one of the points between the calls of xem_wait and
    xem_unlock; readers is only touched with lk held. *)

From Stdlib Require Import ZArith Lia Bool.
From stdpp Require Import base option list sets gmap strings numbers.
From S2P Require Import Prelude.

#[local] Open Scope list_scope.
#[local] Open Scope Z_scope.

(** The points of a thread in rwlock_acquire_readlock, rwlock_release_readlock
    and the operations of a writer. *)
Inductive rwpc :=
  | Idle          (* outside *)
  | AcqCount      (* has lk, before readers++ *)
  | AcqWait       (* readers is 1: in xem_wait(&rwlock->writelock) *)
  | AcqDone       (* before xem_unlock(&rwlock->lk) *)
  | Reading
  | RelCount      (* has lk again, before readers-- *)
  | RelGive       (* readers is 0: before xem_unlock(&rwlock->writelock) *)
  | RelDone       (* before xem_unlock(&rwlock->lk) *)
  | Writing.

(** The units of the two semaphores, readers, and the threads. *)
Record rwstate := Rw { rw_lk_avail : Z; rw_wl_avail : Z; rw_count : Z; rw_pcs : list rwpc }.

(** One step of one thread; a wait is the moment the unit is handed out. *)
Inductive rwstep : rwstate → rwstate → Prop :=
  | rd_wait_lk i l w r t : t !! i = Some Idle → 0 < l →
      rwstep (Rw l w r t) (Rw (l - 1) w r (<[i := AcqCount]> t))
  | rd_count i l w r t : t !! i = Some AcqCount →
      rwstep (Rw l w r t) (Rw l w (r + 1) (<[i := if r + 1 =? 1 then AcqWait else AcqDone]> t))
  | rd_wait_wl i l w r t : t !! i = Some AcqWait → 0 < w →
      rwstep (Rw l w r t) (Rw l (w - 1) r (<[i := AcqDone]> t))
  | rd_unlock_lk i l w r t : t !! i = Some AcqDone →
      rwstep (Rw l w r t) (Rw (l + 1) w r (<[i := Reading]> t))
  | rr_wait_lk i l w r t : t !! i = Some Reading → 0 < l →
      rwstep (Rw l w r t) (Rw (l - 1) w r (<[i := RelCount]> t))
  | rr_count i l w r t : t !! i = Some RelCount →
      rwstep (Rw l w r t) (Rw l w (r - 1) (<[i := if r - 1 =? 0 then RelGive else RelDone]> t))
  | rr_unlock_wl i l w r t : t !! i = Some RelGive →
      rwstep (Rw l w r t) (Rw l (w + 1) r (<[i := RelDone]> t))
  | rr_unlock_lk i l w r t : t !! i = Some RelDone →
      rwstep (Rw l w r t) (Rw (l + 1) w r (<[i := Idle]> t))
  | wr_wait i l w r t : t !! i = Some Idle → 0 < w →
      rwstep (Rw l w r t) (Rw l (w - 1) r (<[i := Writing]> t))
  | wr_unlock i l w r t : t !! i = Some Writing →
      rwstep (Rw l w r t) (Rw l (w + 1) r (<[i := Idle]> t)).

(** After rwlock_init, with [m] threads outside. *)
Inductive rwreach (m : nat) : rwstate → Prop :=
  | rwreach_init : rwreach m (Rw 1 1 0 (replicate m Idle))
  | rwreach_step s s' : rwreach m s → rwstep s s' → rwreach m s'.

(** ** Counting threads *)

Fixpoint total (f : rwpc → Z) (t : list rwpc) : Z :=
  match t with [] => 0 | p :: t => f p + total f t end.

Definition has_lk (p : rwpc) : Z :=
  match p with Idle | Reading | Writing => 0 | _ => 1 end.
Definition counted (p : rwpc) : Z :=
  match p with AcqWait | AcqDone | Reading | RelCount => 1 | _ => 0 end.
Definition at_wait (p : rwpc) : Z := match p with AcqWait => 1 | _ => 0 end.
Definition at_give (p : rwpc) : Z := match p with RelGive => 1 | _ => 0 end.
Definition is_reading (p : rwpc) : Z := match p with Reading => 1 | _ => 0 end.
Definition is_writing (p : rwpc) : Z := match p with Writing => 1 | _ => 0 end.

Lemma total_insert f t i p q : t !! i = Some p → total f (<[i := q]> t) = total f t - f p + f q.
Proof.
  revert i. induction t as [|x t IH]; intros [|i] Hi; simplify_eq/=; [lia|]. rewrite (IH i Hi). lia.
Qed.

Lemma total_le f g t : (∀ p, f p ≤ g p) → total f t ≤ total g t.
Proof. intros Hfg. induction t as [|p t IH]; simpl; [lia|]. pose proof (Hfg p). lia. Qed.

Lemma total_add f g t : total (λ p, f p + g p) t = total f t + total g t.
Proof. induction t as [|p t IH]; simpl; [done|]. rewrite IH. lia. Qed.

Lemma total_nonneg f t : (∀ p, 0 ≤ f p) → 0 ≤ total f t.
Proof. intros Hf. induction t as [|p t IH]; simpl; [lia|]. pose proof (Hf p). lia. Qed.

Lemma total_zero f m : f Idle = 0 → total f (replicate m Idle) = 0.
Proof. intros Hf. induction m as [|m IH]; simpl; [done|]. rewrite Hf, IH. lia. Qed.

Lemma total_bounds t : total at_wait t + total at_give t ≤ total has_lk t ∧
  total is_reading t + total at_wait t ≤ total counted t ∧
  0 ≤ total at_wait t ∧ 0 ≤ total at_give t ∧ 0 ≤ total is_reading t ∧ 0 ≤ total is_writing t.
Proof.
  rewrite <- !total_add. split_and!; try (apply total_nonneg; by intros []);
    apply total_le; intros []; simpl; lia.
Qed.

Lemma total_ge f t i p : t !! i = Some p → (∀ q, 0 ≤ f q) → f p ≤ total f t.
Proof.
  intros Hi Hf. revert i Hi. induction t as [|x t IH]; intros [|i] Hi; simplify_eq/=.
  - pose proof (total_nonneg f t Hf). lia.
  - pose proof (Hf x). specialize (IH i Hi). lia.
Qed.

(** What one thread contributes. *)
Lemma total_at t i p : t !! i = Some p →
  total at_wait t + total at_give t + (has_lk p - at_wait p - at_give p) ≤ total has_lk t ∧
  at_wait p ≤ total at_wait t ∧ at_give p ≤ total at_give t ∧ is_writing p ≤ total is_writing t ∧
  counted p ≤ total counted t.
Proof.
  intros Hi.
  assert (has_lk p - at_wait p - at_give p ≤ total (λ q, has_lk q - at_wait q - at_give q) t) as H.
  { apply (total_ge (λ q, has_lk q - at_wait q - at_give q) t i p Hi). intros []; simpl; lia. }
  assert (total has_lk t = total (λ q, has_lk q - at_wait q - at_give q) t + total at_wait t + total at_give t) as ->.
  { clear. induction t as [|q t IH]; simpl; [done|]. rewrite IH. lia. }
  split_and!; try lia; apply (total_ge _ t i p Hi); intros []; simpl; lia.
Qed.

(** The unit of writelock is with a writer, with the group of readers, or
    available; the first reader gets it and the last one gives it back. *)
Record rw_inv (s : rwstate) : Prop := {
  ri_lk : rw_lk_avail s + total has_lk (rw_pcs s) = 1;
  ri_lk0 : 0 ≤ rw_lk_avail s;
  ri_wl0 : 0 ≤ rw_wl_avail s;
  ri_count : rw_count s = total counted (rw_pcs s);
  ri_wl : rw_wl_avail s + total is_writing (rw_pcs s)
          + (if (0 <? rw_count s) && (total at_wait (rw_pcs s) =? 0) || (0 <? total at_give (rw_pcs s))
             then 1 else 0) = 1;
  ri_first : 0 < total at_wait (rw_pcs s) → rw_count s = 1;
  ri_last : 0 < total at_give (rw_pcs s) → rw_count s = 0
}.

Ltac case_ltb :=
  repeat match goal with
  | |- context [?a <? ?b] => destruct (Z.ltb_spec a b)
  | |- context [?a =? ?b] => destruct (Z.eqb_spec a b)
  | H : context [?a <? ?b] |- _ => destruct (Z.ltb_spec a b)
  | H : context [?a =? ?b] |- _ => destruct (Z.eqb_spec a b)
  end.

Lemma rw_inv_step s s' : rw_inv s → rwstep s s' → rw_inv s'.
Proof.
  intros [] Hs. destruct Hs as [i l w r t Hi ? | i l w r t Hi | i l w r t Hi ? | i l w r t Hi | i l w r t Hi ?
    | i l w r t Hi | i l w r t Hi | i l w r t Hi | i l w r t Hi ? | i l w r t Hi]; simpl in *;
    destruct (total_bounds t) as (? & ? & ? & ? & ? & ?);
    destruct (total_at t i _ Hi) as (? & ? & ? & ? & ?); simpl in *;
    try (destruct (Z.eqb_spec (r + 1) 1)); try (destruct (Z.eqb_spec (r - 1) 0));
    split; simpl; rewrite ?(total_insert _ _ _ _ _ Hi); simpl;
    case_ltb; simpl in *; try lia.
Qed.


