(* ===== verification/Pipe.v ===== *)
(** * Pipe: the ring buffer of pipe.c

    A pipe lives in a page from kalloc, whose address names it.  The counters
    nread and nwrite are C uints, so they wrap around; the buffer is indexed
    by their remainders.  [PipeHost] is what pipe.c needs of the rest of the
    kernel: the memory that holds the pipes, the caller's killed flag and
    wakeup; kfree is an argument.  The theorems show that the buffer is a bounded first-in
    first-out queue of bytes, whatever the values of the counters.  pipealloc,
    which also fills two file structures, is in File.v. *)

From Stdlib Require Import ZArith Lia Bool.
From stdpp Require Import base option list sets gmap strings numbers.
From S2P Require Import Prelude.

#[local] Open Scope string_scope.
#[local] Open Scope list_scope.
#[local] Open Scope Z_scope.

Definition PIPESIZE : Z := 512.

Record pipe := Pipe {
  pi_lock : bool; pi_data : list Z; pi_nread : Z; pi_nwrite : Z; pi_readopen : bool; pi_writeopen : bool
}.
Definition pipe_eta (p : pipe) : pipe :=
  Pipe (pi_lock p) (pi_data p) (pi_nread p) (pi_nwrite p) (pi_readopen p) (pi_writeopen p).
Definition set_pi_lock (v : bool) (p : pipe) : pipe := ltac:(with_field pipe_eta p pi_lock v).
Definition set_pi_data (v : list Z) (p : pipe) : pipe := ltac:(with_field pipe_eta p pi_data v).
Definition set_pi_nread (v : Z) (p : pipe) : pipe := ltac:(with_field pipe_eta p pi_nread v).
Definition set_pi_nwrite (v : Z) (p : pipe) : pipe := ltac:(with_field pipe_eta p pi_nwrite v).
Definition set_pi_readopen (v : bool) (p : pipe) : pipe := ltac:(with_field pipe_eta p pi_readopen v).
Definition set_pi_writeopen (v : bool) (p : pipe) : pipe := ltac:(with_field pipe_eta p pi_writeopen v).

(** The rest of the kernel, as pipe.c uses it. *)
Class PipeHost (S : Type) := {
  ph_get : Z → S → option pipe;
  ph_put : Z → pipe → S → S;
  ph_killed : S → bool;
  ph_wakeup : chan → S → S
}.
Class PipeHostLaws (S : Type) `{PipeHost S} := {
  ph_get_put : ∀ a p s, ph_get a (ph_put a p s) = Some p;
  ph_killed_put : ∀ a p s, ph_killed (ph_put a p s) = ph_killed s;
  ph_get_wakeup : ∀ a c s, ph_get a (ph_wakeup c s) = ph_get a s;
  ph_killed_wakeup : ∀ c s, ph_killed (ph_wakeup c s) = ph_killed s
}.

Section pipe.
Context {S : Type} `{PipeHost S}.
#[local] Notation P := (M S).

(** *p and an assignment through p. *)
Definition pipe_of (a : Z) : P pipe := λ s,
  match ph_get a s with Some p => Ok p s | None => Undef "no pipe in this page" end.
Definition set_pipe (a : Z) (f : pipe → pipe) : P unit := p ← pipe_of a; modify (ph_put a (f p)).
Definition wakeup_pipe (c : chan) : P unit := modify (ph_wakeup c).

Definition acquire_pipe (a : Z) : P unit :=
  p ← pipe_of a; if pi_lock p : bool then panic "acquire" else set_pipe a (set_pi_lock true).
Definition release_pipe (a : Z) : P unit :=
  p ← pipe_of a; if pi_lock p : bool then set_pipe a (set_pi_lock false) else panic "release".

(** kfree of the page of a pipe. *)
Context (kfree_page : Z → P unit).

Definition pipeclose (a : Z) (writable : bool) : P unit :=
  acquire_pipe a;;
  (if writable then
     set_pipe a (set_pi_writeopen false);;
     wakeup_pipe (ChPipeRead a)
   else
     set_pipe a (set_pi_readopen false);;
     wakeup_pipe (ChPipeWrite a));;
  p ← pipe_of a;
  if negb (pi_readopen p) && negb (pi_writeopen p) then
    release_pipe a;;
    kfree_page a
  else release_pipe a.

(** What happens between going to sleep on a channel and running again. *)
Context (rest : chan → P unit).

(** sleep(chan, &p->lock) *)
Definition sleep_pipe (a : Z) (c : chan) : P unit := release_pipe a;; rest c;; acquire_pipe a.

Definition pipe_full (p : pipe) : bool := pi_nwrite p =? u32 (pi_nread p + PIPESIZE).

(** while(p->nwrite == p->nread + PIPESIZE); the result is false where the
    function returns -1. *)
Fixpoint pipewrite_wait (fuel : nat) (a : Z) : P bool :=
  p ← pipe_of a;
  if pipe_full p then
    match fuel with
    | O => undef "out of fuel"
    | Datatypes.S fuel =>
        k ← gets ph_killed;
        if negb (pi_readopen p) || k then release_pipe a;; mret false
        else
          wakeup_pipe (ChPipeRead a);;
          sleep_pipe a (ChPipeWrite a);;
          pipewrite_wait fuel a
    end
  else mret true.

(** p->data[p->nwrite++ % PIPESIZE] = c *)
Definition put_byte (c : Z) (p : pipe) : pipe :=
  set_pi_nwrite (u32 (pi_nwrite p + 1))
    (set_pi_data (<[Z.to_nat (pi_nwrite p mod PIPESIZE) := u8 c]> (pi_data p)) p).

(** for(i = 0; i < n; i++), with [k] iterations to go and addr + i at [src]. *)
Fixpoint pipewrite_loop (fuel : nat) (a : Z) (src : list Z) (k : nat) {struct k} : P bool :=
  match k with
  | O => mret true
  | Datatypes.S k =>
      room ← pipewrite_wait fuel a;
      if negb room then mret false else
      match src with
      | [] => undef "pipewrite reads past the buffer"
      | c :: src => set_pipe a (put_byte c);; pipewrite_loop fuel a src k
      end
  end.

Definition pipewrite (fuel : nat) (a : Z) (src : list Z) (n : Z) : P Z :=
  acquire_pipe a;;
  done ← pipewrite_loop fuel a src (Z.to_nat n);
  if negb done then mret (-1) else
  wakeup_pipe (ChPipeRead a);;
  release_pipe a;;
  mret n.

(** while(p->nread == p->nwrite && p->writeopen) *)
Fixpoint piperead_wait (fuel : nat) (a : Z) : P bool :=
  p ← pipe_of a;
  if (pi_nread p =? pi_nwrite p) && pi_writeopen p then
    match fuel with
    | O => undef "out of fuel"
    | Datatypes.S fuel =>
        k ← gets ph_killed;
        if k : bool then release_pipe a;; mret false
        else sleep_pipe a (ChPipeRead a);; piperead_wait fuel a
    end
  else mret true.

(** The copying loop, with [k] iterations to go; [dst] is what addr holds. *)
Fixpoint piperead_loop (a : Z) (k : nat) (dst : list Z) : P (list Z) :=
  match k with
  | O => mret dst
  | Datatypes.S k =>
      p ← pipe_of a;
      if pi_nread p =? pi_nwrite p then mret dst else
      set_pipe a (set_pi_nread (u32 (pi_nread p + 1)));;
      piperead_loop a k (dst ++ [bget0 (pi_data p) (pi_nread p mod PIPESIZE)])
  end.

(** The bytes stored at addr, whose number is the result; None is -1. *)
Definition piperead (fuel : nat) (a : Z) (n : Z) : P (option (list Z)) :=
  acquire_pipe a;;
  go ← piperead_wait fuel a;
  if negb go then mret None else
  bs ← piperead_loop a (Z.to_nat n) [];
  wakeup_pipe (ChPipeWrite a);;
  release_pipe a;;
  mret (Some bs).

End pipe.

(** ** The buffer as a queue *)

(** Number of bytes in the buffer, and the bytes, oldest first. *)
Definition pipe_len (p : pipe) : nat := Z.to_nat (u32 (pi_nwrite p - pi_nread p)).
Definition contents (p : pipe) : list Z :=
  (λ k, bget0 (pi_data p) ((pi_nread p + Z.of_nat k) mod PIPESIZE)) <$> seq 0 (pipe_len p).

Record pipe_ok (p : pipe) : Prop := {
  po_data : length (pi_data p) = 512%nat;
  po_nread : 0 ≤ pi_nread p < 2 ^ 32;
  po_nwrite : 0 ≤ pi_nwrite p < 2 ^ 32;
  po_len : (pipe_len p ≤ 512)%nat
}.

(** A bounded queue of bytes with two ends. *)
Record queue := Queue { q_bytes : list Z; q_rd : bool; q_wr : bool }.
Definition pipe_queue (p : pipe) : queue := Queue (contents p) (pi_readopen p) (pi_writeopen p).
Definition q_push (l : list Z) (q : queue) : queue := Queue (q_bytes q ++ l) (q_rd q) (q_wr q).
Definition q_drop (n : nat) (q : queue) : queue := Queue (drop n (q_bytes q)) (q_rd q) (q_wr q).

(** In state [s] the page [a] holds a pipe, locked or not, that is the queue [q]. *)
Definition pipe_is {S : Type} `{PipeHost S} (a : Z) (lk : bool) (q : queue) (s : S) : Prop :=
  ∃ p, ph_get a s = Some p ∧ pipe_ok p ∧ pi_lock p = lk ∧ pipe_queue p = q.

Lemma length_contents p : length (contents p) = pipe_len p.
Proof. unfold contents. by rewrite length_fmap, length_seq. Qed.

Lemma pipe_full_len p : pipe_ok p → pipe_full p = bool_decide (length (contents p) = 512%nat).
Proof.
  intros [_ Hr Hw _]. rewrite length_contents. unfold pipe_full, pipe_len, u32, PIPESIZE.
  apply eq_true_iff_eq. rewrite Z.eqb_eq, bool_decide_eq_true. divmod_lia.
Qed.

Lemma pipe_empty_len p : pipe_ok p → (pi_nread p =? pi_nwrite p) = bool_decide (contents p = []).
Proof.
  intros [_ Hr Hw _]. apply eq_true_iff_eq. rewrite Z.eqb_eq, bool_decide_eq_true, <- length_zero_iff_nil.
  rewrite length_contents. unfold pipe_len, u32. divmod_lia.
Qed.

Lemma put_byte_len p c : pipe_ok p → (length (contents p) < 512)%nat →
  pipe_len (put_byte c p) = Datatypes.S (pipe_len p).
Proof.
  intros [_ Hr Hw _]. rewrite length_contents. unfold pipe_len, put_byte, u32. simpl. intros. divmod_lia.
Qed.

Lemma put_byte_spec p c : is_byte c → pipe_ok p → (length (contents p) < 512)%nat →
  pipe_ok (put_byte c p) ∧ pipe_queue (put_byte c p) = q_push [c] (pipe_queue p).
Proof.
  intros Hc Hok Hlt. pose proof (put_byte_len p c Hok Hlt) as Hl. destruct Hok as [Hd Hr Hw Hn].
  rewrite length_contents in Hlt. split.
  - split; [simpl; by rewrite length_insert | done | apply u32_range | lia].
  - unfold pipe_queue, q_push. f_equal. simpl. unfold contents. rewrite Hl, seq_S, fmap_app.
    assert (∀ k, (k ≤ pipe_len p)%nat → bget0 (pi_data (put_byte c p)) ((pi_nread p + Z.of_nat k) mod PIPESIZE)
       = if decide (k = pipe_len p) then c else bget0 (pi_data p) ((pi_nread p + Z.of_nat k) mod PIPESIZE)) as Hb.
    { intros k Hk. simpl. rewrite bget0_insert by (unfold PIPESIZE; rewrite ?Hd; divmod_lia).
      unfold pipe_len, u32, u8, PIPESIZE, is_byte in *.
      repeat case_decide; [divmod_lia | exfalso; divmod_lia | exfalso; divmod_lia | done]. }
    f_equal.
    + apply list_fmap_ext. intros i k [-> Hk]%lookup_seq. rewrite Hb by lia. rewrite decide_False by lia. done.
    + simpl. f_equal. rewrite Hb by lia. by rewrite decide_True.
Qed.

Lemma get_byte_spec p : pipe_ok p → contents p ≠ [] →
  let p' := set_pi_nread (u32 (pi_nread p + 1)) p in
  pipe_ok p' ∧ contents p = bget0 (pi_data p) (pi_nread p mod PIPESIZE) :: contents p' ∧
  pipe_queue p' = q_drop 1 (pipe_queue p).
Proof.
  intros [Hd Hr Hw Hn] Hne p'.
  assert (pipe_len p = Datatypes.S (pipe_len p')) as Hl.
  { rewrite <- length_zero_iff_nil, length_contents in Hne. subst p'. unfold pipe_len, u32 in *. simpl. divmod_lia. }
  assert (contents p = bget0 (pi_data p) (pi_nread p mod PIPESIZE) :: contents p') as Hc.
  { unfold contents. rewrite Hl. simpl. rewrite Z.add_0_r. f_equal. rewrite <- fmap_S_seq, <- list_fmap_compose.
    apply list_fmap_ext. intros i k _. simpl. f_equal. unfold u32, PIPESIZE. divmod_lia. }
  split_and!; [|done|].
  - split; [done | apply u32_range | done | lia].
  - unfold pipe_queue, q_drop. simpl. by rewrite Hc.
Qed.

Lemma q_drop_0 q : q_drop 0 q = q.
Proof. by destruct q. Qed.
Lemma q_push_nil q : q_push [] q = q.
Proof. destruct q. unfold q_push. simpl. by rewrite app_nil_r. Qed.
Lemma q_push_app l1 l2 q : q_push l2 (q_push l1 q) = q_push (l1 ++ l2) q.
Proof. unfold q_push. simpl. by rewrite app_assoc. Qed.
Lemma q_drop_drop m n q : q_drop m (q_drop n q) = q_drop (n + m) q.
Proof. unfold q_drop. simpl. by rewrite drop_drop. Qed.
Lemma q_drop_push m l q : (m ≤ length (q_bytes q))%nat → q_push l (q_drop m q) = q_drop m (q_push l q).
Proof. intros Hm. unfold q_push, q_drop. simpl. by rewrite drop_app_le. Qed.
Lemma q_drop_min m q : q_drop m q = q_drop (m `min` length (q_bytes q)) q.
Proof.
  unfold q_drop. f_equal. destruct (decide (m ≤ length (q_bytes q))%nat).
  - by rewrite Nat.min_l.
  - rewrite Nat.min_r, !drop_ge by lia. done.
Qed.

Section queue.
Context {S : Type} `{PL : PipeHostLaws S}.
#[local] Notation P := (M S).

(** [pipe_is], and whether the caller has been killed. *)
Definition pv (a : Z) (lk : bool) (q : queue) (k : bool) (s : S) : Prop :=
  pipe_is a lk q s ∧ ph_killed s = k.

Lemma wp_pipe_of a lk q k (Q : pipe → S → Prop) s : pv a lk q k s →
  (∀ p, pipe_ok p → pi_lock p = lk → pipe_queue p = q → Q p s) → wp (pipe_of a) Q s.
Proof. intros [(p & Hp & ? & ? & ?) _] HQ. unfold wp, pipe_of. rewrite Hp. by apply HQ. Qed.

Lemma wp_set_pipe a lk q k lk' q' f (Q : unit → S → Prop) s : pv a lk q k s →
  (∀ p, pipe_ok p → pi_lock p = lk → pipe_queue p = q → pipe_ok (f p) ∧ pi_lock (f p) = lk' ∧ pipe_queue (f p) = q') →
  (∀ s', pv a lk' q' k s' → Q tt s') → wp (set_pipe a f) Q s.
Proof.
  intros Hs Hf HQ. unfold set_pipe. wp_step. unfold wp, pipe_of. destruct Hs as [(p & Hp & ? & ? & ?) <-].
  rewrite Hp. apply wp_modify, HQ. destruct (Hf p) as (? & ? & ?); [done..|].
  split; [|apply ph_killed_put]. exists (f p). by rewrite ph_get_put.
Qed.

Lemma wp_acquire_pipe a q k (Q : unit → S → Prop) s : pv a false q k s →
  (∀ s', pv a true q k s' → Q tt s') → wp (acquire_pipe a) Q s.
Proof.
  intros Hs HQ. unfold acquire_pipe. wp_step. eapply wp_pipe_of; [done|]. intros p _ -> _.
  eapply wp_set_pipe; [done | | done]. intros r [] _ Hr. done.
Qed.

Lemma wp_release_pipe a q k (Q : unit → S → Prop) s : pv a true q k s →
  (∀ s', pv a false q k s' → Q tt s') → wp (release_pipe a) Q s.
Proof.
  intros Hs HQ. unfold release_pipe. wp_step. eapply wp_pipe_of; [done|]. intros p _ -> _.
  eapply wp_set_pipe; [done | | done]. intros r [] _ Hr. done.
Qed.

Lemma wp_wakeup_pipe a lk q k c (Q : unit → S → Prop) s : pv a lk q k s →
  (∀ s', pv a lk q k s' → Q tt s') → wp (wakeup_pipe c) Q s.
Proof.
  intros [(p & Hp & Hr) <-] HQ. apply wp_modify, HQ. split; [|apply ph_killed_wakeup].
  exists p. by rewrite ph_get_wakeup.
Qed.

Lemma queue_full p q : pipe_ok p → pipe_queue p = q → pipe_full p = bool_decide (length (q_bytes q) = 512%nat).
Proof. intros Hp <-. by apply pipe_full_len. Qed.
Lemma queue_empty p q : pipe_ok p → pipe_queue p = q → (pi_nread p =? pi_nwrite p) = bool_decide (q_bytes q = []).
Proof. intros Hp <-. by apply pipe_empty_len. Qed.

Context (rest : chan → P unit).

(** One byte, where there is room. *)
Lemma write_byte fuel a q k c s : pv a true q k s → is_byte c → (length (q_bytes q) < 512)%nat →
  ∃ s', pv a true (q_push [c] q) k s' ∧
    ∀ l n, pipewrite_loop rest fuel a (c :: l) (Datatypes.S n) s = pipewrite_loop rest fuel a l n s'.
Proof.
  intros Hs Hc Hq.
  assert (wp (pipewrite_wait rest fuel a) (λ b s', b = true ∧ s' = s) s) as (b & s1 & Hw & -> & ->)%wp_elim.
  { destruct fuel; cbn [pipewrite_wait]; wp_step; (eapply wp_pipe_of; [done|]); intros p Hp _ Hpq;
      rewrite (queue_full p q Hp Hpq), bool_decide_eq_false_2 by lia; by apply wp_ret. }
  assert (wp (set_pipe a (put_byte c)) (λ _ s', pv a true (q_push [c] q) k s') s) as ([] & s' & Hp & Hs')%wp_elim.
  { eapply wp_set_pipe; [done | | done]. intros p Hp Hl <-.
    destruct (put_byte_spec p c Hc Hp Hq) as [? ?]. done. }
  exists s'. split; [done|]. intros l n. cbn [pipewrite_loop]. rewrite (bind_ok _ _ _ _ _ Hw). cbn [negb].
  by rewrite (bind_ok _ _ _ _ _ Hp).
Qed.

(** The bytes that fit are appended without waiting. *)
Lemma write_bytes fuel a k l : Forall is_byte l → ∀ q s, pv a true q k s → (length (q_bytes q) + length l ≤ 512)%nat →
  ∃ s', pv a true (q_push l q) k s' ∧
    ∀ l2 n, pipewrite_loop rest fuel a (l ++ l2) (length l + n) s = pipewrite_loop rest fuel a l2 n s'.
Proof.
  induction 1 as [|c l Hc _ IH]; intros q s Hs Hlen; cbn [length app Nat.add] in *.
  { exists s. by rewrite q_push_nil. }
  destruct (write_byte fuel a q k c s Hs Hc ltac:(lia)) as (s1 & Hs1 & E1).
  destruct (IH _ s1 Hs1) as (s2 & Hs2 & E2). { unfold q_push. simpl. rewrite length_app. simpl. lia. }
  exists s2. split; [by rewrite q_push_app in Hs2|]. intros l2 n. by rewrite E1, E2.
Qed.

(** At a full buffer the loop waits, and gives up when nobody will read. *)
Lemma write_full fuel a q k s l n : pv a true q k s → length (q_bytes q) = 512%nat →
  negb (q_rd q) || k = true →
  wp (pipewrite_loop rest (Datatypes.S fuel) a l (Datatypes.S n)) (λ b s', b = false ∧ pv a false q k s') s.
Proof.
  intros Hs Hq Hk.
cbn [pipewrite_loop]. wp_step. cbn [pipewrite_wait]. wp_step. eapply wp_pipe_of; [done|].
  intros p Hp _ Hpq. rewrite (queue_full p q Hp Hpq), bool_decide_eq_true_2 by done. wp_steps.
  replace (pi_readopen p) with (q_rd q) by (by rewrite <- Hpq). destruct Hs as [Hs Hkk]. rewrite Hkk, Hk.
  wp_step. eapply wp_release_pipe; [by split|]. intros s' Hs'. by wp_steps.
Qed.

Lemma write_sleeps fuel a q s l n : pv a true q false s → length (q_bytes q) = 512%nat → q_rd q = true →
  sleeps (pipewrite_loop sleep_on (Datatypes.S fuel) a l (Datatypes.S n))
    (λ c s', c = ChPipeWrite a ∧ pv a false q false s') s.
Proof.
  intros Hs Hq Hr. cbn [pipewrite_loop]. apply sleeps_first. cbn [pipewrite_wait]. apply sleeps_bind. eapply wp_pipe_of; [done|].
  intros p Hp _ Hpq. rewrite (queue_full p q Hp Hpq), bool_decide_eq_true_2 by done. apply sleeps_bind, wp_gets.
  replace (pi_readopen p) with true by (by rewrite <- Hr, <- Hpq). destruct Hs as [Hs Hk]. rewrite Hk. simpl.
  apply sleeps_bind. eapply wp_wakeup_pipe; [by split|]. intros s1 H1. apply sleeps_first. unfold sleep_pipe.
  apply sleeps_bind. eapply wp_release_pipe; [done|]. intros s2 H2. by apply sleeps_first.
Qed.

(** The copying loop of piperead. *)
Lemma wp_read_loop a k n : ∀ q dst (Q : list Z → S → Prop) s, pv a true q k s →
  (∀ s', pv a true (q_drop n q) k s' → Q (dst ++ take n (q_bytes q)) s') → wp (piperead_loop a n dst) Q s.
Proof.
  induction n as [|n IH]; intros q dst Q s Hs HQ; cbn [piperead_loop].
  { apply wp_ret. rewrite <- (app_nil_r dst). rewrite take_0, q_drop_0 in HQ. by apply HQ. }
  destruct Hs as [(p & Hg & Hp & Hl & Hpq) Hk]. wp_step. unfold wp at 1, pipe_of at 1. rewrite Hg.
  rewrite (queue_empty p q Hp Hpq). case_bool_decide as E.
  { apply wp_ret. rewrite E, take_nil, app_nil_r in HQ. apply HQ. split; [|done]. exists p. split_and!; try done.
    rewrite Hpq. destruct q. simpl in E. by rewrite E. }
  pose proof E as E'. rewrite <- Hpq in E'. destruct (get_byte_spec p Hp E') as (Hp' & Hc & Hq').
  wp_step. unfold set_pipe. wp_step. unfold wp at 1, pipe_of at 1. rewrite Hg. apply wp_modify.
  apply (IH (q_drop 1 q)).
  { split; [|by rewrite ph_killed_put]. eexists. rewrite ph_get_put. split_and!; try done. by rewrite Hq', Hpq. }
  intros s' Hs'. rewrite q_drop_drop in Hs'.
  replace (take (Datatypes.S n) (q_bytes q)) with
    (bget0 (pi_data p) (pi_nread p mod PIPESIZE) :: take n (q_bytes (q_drop 1 q))) in HQ.
  2: { rewrite <- Hpq. simpl. by rewrite Hc. }
  rewrite <- app_assoc. by apply HQ.
Qed.

Lemma read_ready fuel a q k s : pv a true q k s → q_bytes q ≠ [] ∨ q_wr q = false →
  wp (piperead_wait rest fuel a) (λ b s', b = true ∧ s' = s) s.
Proof.
  intros Hs Hq. destruct fuel; cbn [piperead_wait]; wp_step; (eapply wp_pipe_of; [done|]); intros p Hp _ Hpq;
    rewrite (queue_empty p q Hp Hpq); replace (pi_writeopen p) with (q_wr q) by (by rewrite <- Hpq);
    (replace (bool_decide (q_bytes q = []) && q_wr q) with false; [by apply wp_ret|]);
    (destruct Hq as [Hq| ->]; [by rewrite bool_decide_eq_false_2 | by rewrite andb_false_r]).
Qed.

Lemma read_waits fuel a q k s : pv a true q k s → q_bytes q = [] → q_wr q = true →
  (k = true → wp (piperead_wait rest (Datatypes.S fuel) a) (λ b s', b = false ∧ pv a false q k s') s) ∧
  (k = false → sleeps (piperead_wait sleep_on (Datatypes.S fuel) a)
                 (λ c s', c = ChPipeRead a ∧ pv a false q k s') s).
Proof.
  intros Hs Hq Hw. pose proof Hs as [_ Hk]. cbn [piperead_wait].
  assert (∀ p, pipe_ok p → pipe_queue p = q → (pi_nread p =? pi_nwrite p) && pi_writeopen p = true) as Hc.
  { intros p Hp Hpq. rewrite (queue_empty p q Hp Hpq), bool_decide_eq_true_2 by done.
    change (pi_writeopen p) with (q_wr (pipe_queue p)). by rewrite Hpq, Hw. }
  split; intros ->.
  - wp_step. eapply wp_pipe_of; [done|]. intros p Hp _ Hpq. rewrite (Hc p Hp Hpq). wp_steps. rewrite Hk. wp_step.
    eapply wp_release_pipe; [done|]. intros s' Hs'. by wp_steps.
  - apply sleeps_bind. eapply wp_pipe_of; [done|]. intros p Hp _ Hpq. rewrite (Hc p Hp Hpq).
    apply sleeps_bind, wp_gets. rewrite Hk. apply sleeps_first. unfold sleep_pipe. apply sleeps_bind.
    eapply wp_release_pipe; [done|]. intros s' Hs'. by apply sleeps_first.
Qed.

Lemma pv_len a lk q k s : pv a lk q k s → (length (q_bytes q) ≤ 512)%nat.
Proof. intros [(p & _ & Hp & _ & <-) _]. simpl. rewrite length_contents. apply Hp. Qed.

(** What fits of [l] is written and the rest finds the buffer full. *)
Lemma write_overflow fuel a q k l s : pv a true q k s → Forall is_byte l →
  (512 < length (q_bytes q) + length l)%nat →
  ∃ s' l2 n, pv a true (q_push (take (512 - length (q_bytes q)) l) q) k s' ∧
    pipewrite_loop rest fuel a l (length l) s = pipewrite_loop rest fuel a l2 (Datatypes.S n) s'.
Proof.
  intros Hs Hl Hlen. pose proof (pv_len _ _ _ _ _ Hs) as Hq.
  set (r := (512 - length (q_bytes q))%nat).
  destruct (write_bytes fuel a k (take r l) (Forall_take _ _ _ Hl) q s Hs) as (s' & Hs' & E).
  { rewrite length_take. lia. }
  exists s', (drop r l), (length l - r - 1)%nat. split; [done|]. rewrite <- E, take_drop. f_equal.
  rewrite length_take. lia.
Qed.
End queue.

Section refinement.
Context {S : Type} `{PL : PipeHostLaws S}.

Lemma wp_piperead rest fuel a q k n (s : S) : pv a false q k s → q_bytes q ≠ [] ∨ q_wr q = false →
  wp (piperead rest fuel a (Z.of_nat n))
     (λ r s', r = Some (take n (q_bytes q)) ∧ pv a false (q_drop n q) k s') s.
Proof.
  intros Hs Hq. unfold piperead. wp_step. eapply wp_acquire_pipe; [done|]. intros s1 H1.
  wp_step. eapply wp_mono; [by apply (read_ready rest fuel a q k s1)|]. intros b s2 [-> ->]. cbn [negb]. wp_step.
  rewrite Nat2Z.id. eapply wp_read_loop; [done|]. intros s2 H2. wp_step. eapply wp_wakeup_pipe; [done|].
  intros s3 H3. wp_step. eapply wp_release_pipe; [done|]. intros s4 H4. by wp_steps.
Qed.

(** C6. A pipe is a bounded first-in first-out queue of bytes, whatever the
    values of its wrapping counters. pipewrite of bytes that fit appends them
    and returns their number; of more bytes than fit it appends what fits and
    then returns -1 if the read end is closed or the caller was killed, and
    otherwise sleeps on the pipe's write channel with the lock released.
    piperead takes up to n of the oldest bytes if there are any or the write
    end is closed; on an empty pipe it returns -1 if the caller was killed,
    and otherwise sleeps on the read channel. No byte is lost, repeated or
    reordered, and the lock is free again in every case. *)
Theorem pipe_refines_queue (a : Z) (q : queue) (k : bool) (s : S) : pv a false q k s →
  (∀ rest fuel l, Forall is_byte l → (length (q_bytes q) + length l ≤ 512)%nat →
     ∃ s', pipewrite rest fuel a l (Z.of_nat (length l)) s = Ok (Z.of_nat (length l)) s' ∧
       pv a false (q_push l q) k s') ∧
  (∀ fuel l, Forall is_byte l → (512 < length (q_bytes q) + length l)%nat →
     let q' := q_push (take (512 - length (q_bytes q)) l) q in
     (q_rd q = false ∨ k = true → ∀ rest,
        ∃ s', pipewrite rest (Datatypes.S fuel) a l (Z.of_nat (length l)) s = Ok (-1) s' ∧ pv a false q' k s') ∧
     (q_rd q = true → k = false →
        ∃ s', pipewrite sleep_on (Datatypes.S fuel) a l (Z.of_nat (length l)) s = Sleep (ChPipeWrite a) s' ∧
          pv a false q' k s')) ∧
  (∀ rest fuel n, q_bytes q ≠ [] ∨ q_wr q = false →
     ∃ s', piperead rest fuel a (Z.of_nat n) s = Ok (Some (take n (q_bytes q))) s' ∧ pv a false (q_drop n q) k s') ∧
  (∀ fuel n, q_bytes q = [] → q_wr q = true →
     (k = true → ∀ rest, ∃ s', piperead rest (Datatypes.S fuel) a n s = Ok None s' ∧ pv a false q k s') ∧
     (k = false → ∃ s', piperead sleep_on (Datatypes.S fuel) a n s = Sleep (ChPipeRead a) s' ∧ pv a false q k s')).
Proof.
  intros Hs. split_and!.
  - intros rest fuel l Hl Hlen. apply wp_exact.
    unfold pipewrite. wp_step. eapply wp_acquire_pipe; [done|]. intros s1 H1. rewrite Nat2Z.id. wp_step.
    destruct (write_bytes rest fuel a k l Hl q s1 H1 Hlen) as (s2 & H2 & E). specialize (E [] 0%nat).
    rewrite app_nil_r, Nat.add_0_r in E. eapply wp_ok; [exact E|]. cbn [negb]. wp_step.
    eapply wp_wakeup_pipe; [done|]. intros s3 H3. wp_step. eapply wp_release_pipe; [done|]. intros s4 H4. by wp_steps.
  - intros fuel l Hl Hlen q'. assert (length (q_bytes q') = 512%nat) as Hq'.
    { subst q'. simpl. rewrite length_app, length_take. pose proof (pv_len _ _ _ _ _ Hs). lia. }
    split.
    + intros Hk rest. apply wp_exact. unfold pipewrite. wp_step. eapply wp_acquire_pipe; [done|]. intros s1 H1.
      rewrite Nat2Z.id. wp_step.
      destruct (write_overflow rest (Datatypes.S fuel) a q k l s1 H1 Hl Hlen) as (s2 & l2 & n & H2 & E).
      unfold wp at 1. rewrite E. eapply wp_mono; [apply (write_full rest fuel a q' k s2); [done | done |]|].
      { simpl. destruct Hk as [-> | ->]; [done | by rewrite orb_true_r]. }
      intros b s3 [-> H3]. cbn [negb]. by wp_steps.
    + intros Hr ->. apply sleeps_exact. unfold pipewrite. apply sleeps_bind. eapply wp_acquire_pipe; [done|].
      intros s1 H1. rewrite Nat2Z.id. apply sleeps_first.
      destruct (write_overflow sleep_on (Datatypes.S fuel) a q false l s1 H1 Hl Hlen) as (s2 & l2 & n & H2 & E).
      unfold sleeps. rewrite E. by apply (write_sleeps fuel a q' s2).
  - intros rest fuel n Hq. apply wp_exact. by apply wp_piperead.
  - intros fuel n Hq Hw. unfold piperead. split; [intros Hk rest; apply wp_exact; wp_step | intros Hk; apply sleeps_exact, sleeps_bind];
      (eapply wp_acquire_pipe; [done|]); intros s1 H1; [wp_step | apply sleeps_first].
    + destruct (read_waits rest fuel a q k s1 H1 Hq Hw) as [HT _]. eapply wp_mono; [by apply HT|].
      intros b s2 [-> H2]. cbn [negb]. by wp_steps.
    + destruct (read_waits sleep_on fuel a q k s1 H1 Hq Hw) as [_ HF]. by apply HF.
Qed.

(** While a writer sleeps at a full pipe, a reader takes some bytes. *)
Definition reader_drains (a : Z) (rest : chan → M S unit) : Prop :=
  ∀ q s, pv a false q false s → q_rd q = true → length (q_bytes q) = 512%nat →
    wp (rest (ChPipeWrite a)) (λ _ s', ∃ m, (0 < m)%nat ∧ pv a false (q_drop m q) false s') s.

(** A reader that takes [n] bytes is one. *)
Lemma piperead_drains a n : (0 < n)%nat →
  reader_drains a (λ _, piperead sleep_on 0 a (Z.of_nat n);; mret tt).
Proof.
  intros Hn q s Hs _ Hq. wp_step. eapply wp_mono; [apply (wp_piperead _ _ _ _ _ _ _ Hs)|].
  - left. intros E. by rewrite E in Hq.
  - intros r s' [_ Hs']. apply wp_ret. eauto.
Qed.

Lemma write_waits rest fuel a q (Q : bool → S → Prop) s : reader_drains a rest → pv a true q false s →
  q_rd q = true →
  (∀ m s', (m ≤ length (q_bytes q))%nat → pv a true (q_drop m q) false s' →
     (length (q_bytes q) - m < 512)%nat → Q true s') →
  wp (pipewrite_wait rest (Datatypes.S fuel) a) Q s.
Proof.
  intros Hrest Hs Hr HQ. cbn [pipewrite_wait]. wp_step. eapply wp_pipe_of; [done|]. intros p Hp _ Hpq.
  pose proof (pv_len _ _ _ _ _ Hs) as Hlen.
  rewrite (queue_full p q Hp Hpq). case_bool_decide as E.
  2: { apply wp_ret, (HQ 0%nat); [lia | by rewrite q_drop_0 | lia]. }
  wp_steps. destruct Hs as [Hs Hk]. rewrite Hk. replace (pi_readopen p) with true by (by rewrite <- Hr, <- Hpq). simpl.
  wp_step. eapply wp_wakeup_pipe; [by split|]. intros s1 H1. unfold sleep_pipe. do 2 wp_step.
  eapply wp_release_pipe; [done|]. intros s2 H2. wp_step. eapply wp_mono; [by apply (Hrest q)|].
  intros [] s3 (m & Hm & H3). eapply wp_acquire_pipe; [done|]. intros s4 H4. rewrite q_drop_min in H4.
  assert (∀ (fl : nat), wp (pipewrite_wait rest fl a) Q s4) as HX; [|apply HX].
  intros fl. destruct fl; cbn [pipewrite_wait]; wp_step; (eapply wp_pipe_of; [done|]); intros r Hr' _ Hrq;
    rewrite (queue_full r _ Hr' Hrq), bool_decide_eq_false_2 by (simpl; rewrite length_drop; lia);
    (apply wp_ret; eapply HQ; [|exact H4|]; lia).
Qed.

Lemma write_all rest fuel a : reader_drains a rest → ∀ l q s, Forall is_byte l → pv a true q false s →
  q_rd q = true →
  wp (pipewrite_loop rest (Datatypes.S fuel) a l (length l))
     (λ b s', b = true ∧ ∃ m, pv a true (q_drop m (q_push l q)) false s') s.
Proof.
  intros Hrest l. induction l as [|c l IH]; intros q s Hl Hs Hr; cbn [length pipewrite_loop].
  { apply wp_ret. split; [done|]. exists 0%nat. by rewrite q_push_nil, q_drop_0. }
  apply list.Forall_cons in Hl as [Hc Hl]. wp_step. eapply write_waits; [done | done | done |].
  intros m s1 Hm H1 Hlt. cbn [negb]. wp_step.
  eapply (wp_set_pipe a true _ false true (q_push [c] (q_drop m q))); [done | |].
  { intros p Hp Hlk Hpq. destruct (put_byte_spec p c Hc Hp) as [? Hq].
    - change (contents p) with (q_bytes (pipe_queue p)). rewrite Hpq. simpl. rewrite length_drop. lia.
    - split_and!; [done | done |]. by rewrite Hq, Hpq. }
  intros s2 H2. eapply wp_mono; [by apply IH|]. intros b s3 [-> [m' H3]]. split; [done|]. exists (m + m')%nat.
  by rewrite q_push_app, q_drop_push, q_drop_drop in H3 by done.
Qed.

(** A write longer than the buffer terminates and delivers every byte:
    if each time the writer sleeps at the full pipe some bytes are read, the
    read end stays open and the writer is not killed, pipewrite returns the
    number of bytes it was given, and what the pipe then holds is a suffix of
    the old contents followed by these bytes, the rest having been taken by
    the readers in this order. *)
Theorem pipewrite_delivers rest fuel a q l s : reader_drains a rest → pv a false q false s →
  q_rd q = true → Forall is_byte l →
  ∃ s' m, pipewrite rest (Datatypes.S fuel) a l (Z.of_nat (length l)) s = Ok (Z.of_nat (length l)) s' ∧
    pv a false (q_drop m (q_push l q)) false s'.
Proof.
  intros Hrest Hs Hr Hl.
  assert (wp (pipewrite rest (Datatypes.S fuel) a l (Z.of_nat (length l)))
    (λ r s', r = Z.of_nat (length l) ∧ ∃ m, pv a false (q_drop m (q_push l q)) false s') s)
    as (s' & E & m & H')%wp_exact; [|eauto].
  unfold pipewrite. wp_step. eapply wp_acquire_pipe; [done|]. intros s1 H1. rewrite Nat2Z.id. wp_step.
  eapply wp_mono; [by apply (write_all rest fuel a Hrest l q)|]. intros b s2 [-> [m H2]]. cbn [negb]. wp_step.
  eapply wp_wakeup_pipe; [done|]. intros s3 H3. wp_step. eapply wp_release_pipe; [done|]. intros s4 H4. wp_steps. eauto.
Qed.
End refinement.
