(* ===== verification/File.v ===== *)
(** * File: the table of open files of file.c, and pipealloc of pipe.c

    A struct file is named by its index in ftable.  The layer owns the file
    table and the pipes, on top of the file system [fsst S] of Fs.v and the
    page allocator; a wakeup it issues is recorded in [fwakes].  [Txn] is
    begin_op, end_op and initlog of log.c.  The calls that read return the bytes they
    store at addr, and [None] for -1. *)

From Stdlib Require Import ZArith Lia Bool.
From stdpp Require Import base option list sets gmap strings numbers.
From S2P Require Import Prelude Cstring Bio Log Blockdev Fs Kalloc Pipe.

#[local] Open Scope string_scope.
#[local] Open Scope list_scope.
#[local] Open Scope Z_scope.

Inductive fdtype := FD_NONE | FD_PIPE | FD_INODE.
#[export] Instance fdtype_eq_dec : EqDecision fdtype.
Proof. solve_decision. Defined.

Record file := File {
  f_type : fdtype; f_ref : Z; f_readable : bool; f_writable : bool; f_pipe : Z; f_ip : nat; f_off : Z
}.
Definition file0 : file := File FD_NONE 0 false false 0 0 0.
Definition file_eta (f : file) : file :=
  File (f_type f) (f_ref f) (f_readable f) (f_writable f) (f_pipe f) (f_ip f) (f_off f).
Definition set_f_type (v : fdtype) (f : file) : file := ltac:(with_field file_eta f f_type v).
Definition set_f_ref (v : Z) (f : file) : file := ltac:(with_field file_eta f f_ref v).
Definition set_f_readable (v : bool) (f : file) : file := ltac:(with_field file_eta f f_readable v).
Definition set_f_writable (v : bool) (f : file) : file := ltac:(with_field file_eta f f_writable v).
Definition set_f_pipe (v : Z) (f : file) : file := ltac:(with_field file_eta f f_pipe v).
Definition set_f_ip (v : nat) (f : file) : file := ltac:(with_field file_eta f f_ip v).
Definition set_f_off (v : Z) (f : file) : file := ltac:(with_field file_eta f f_off v).

Definition NFILE : nat := 100.

(** begin_op, end_op and initlog of log.c. *)
Class Txn (S : Type) := { txn_begin : M S unit; txn_end : M S unit; txn_init : Z → M S unit }.
#[export] Instance lst_txn : Txn lst :=
  {| txn_begin := Log.begin_op; txn_end := Log.end_op; txn_init := Log.initlog |}.

Record fw (S : Type) := Fw {
  ft_lock : bool; ftab : list file; pipes : gmap Z pipe; fss : fsst S; fkilled : bool; fwakes : list chan
}.
Arguments Fw {S}. Arguments ft_lock {S}. Arguments ftab {S}. Arguments pipes {S}. Arguments fss {S}.
Arguments fkilled {S}. Arguments fwakes {S}.

Section file.
Context {S : Type}.

Definition fw_eta (w : fw S) : fw S := Fw (ft_lock w) (ftab w) (pipes w) (fss w) (fkilled w) (fwakes w).
Definition set_ft_lock (v : bool) (w : fw S) : fw S := ltac:(with_field fw_eta w (@ft_lock S) v).
Definition set_ftab (v : list file) (w : fw S) : fw S := ltac:(with_field fw_eta w (@ftab S) v).
Definition set_pipes (v : gmap Z pipe) (w : fw S) : fw S := ltac:(with_field fw_eta w (@pipes S) v).
Definition set_fss (v : fsst S) (w : fw S) : fw S := ltac:(with_field fw_eta w (@fss S) v).
Definition set_fkilled (v : bool) (w : fw S) : fw S := ltac:(with_field fw_eta w (@fkilled S) v).
Definition set_fwakes (v : list chan) (w : fw S) : fw S := ltac:(with_field fw_eta w (@fwakes S) v).

(** The pages and the files. *)
#[local] Notation T := (kst * fw S)%type.
#[local] Notation F := (M T).

Definition kal {A} (m : M kst A) : F A := zoom fst (λ k t, (k, snd t)) m.
Definition fsm {A} (m : M (fsst S) A) : F A := zoom (λ t, fss (snd t)) (λ x t, (fst t, set_fss x (snd t))) m.
Definition updw (f : fw S → fw S) : F unit := modify (λ t, (fst t, f (snd t))).
Definition file_at (t : T) (i : nat) : file := default file0 (ftab (snd t) !! i).
Definition file_of (i : nat) : F file := gets (λ t, file_at t i).
Definition set_file (i : nat) (f : file → file) : F unit := updw (λ w, set_ftab (alter f i (ftab w)) w).

#[export] Instance file_pipes : PipeHost T := {|
  ph_get := λ a t, pipes (snd t) !! a;
  ph_put := λ a p t, (fst t, set_pipes (<[a := p]> (pipes (snd t))) (snd t));
  ph_killed := λ t, fkilled (snd t);
  ph_wakeup := λ c t, (fst t, set_fwakes (fwakes (snd t) ++ [c]) (snd t))
|}.

#[export] Instance file_pipes_laws : PipeHostLaws T.
Proof. split; try done. intros a p t. apply lookup_insert_eq. Qed.

Definition acquire_ft : F unit :=
  l ← gets (λ t, ft_lock (snd t)); if l : bool then panic "acquire" else updw (set_ft_lock true).
Definition release_ft : F unit :=
  l ← gets (λ t, ft_lock (snd t)); if l : bool then updw (set_ft_lock false) else panic "release".

(** for(f = ftable.file; f < ftable.file + NFILE; f++) if(f->ref == 0) *)
Fixpoint free_file (l : list file) (i : nat) : option nat :=
  match l with
  | [] => None
  | f :: l => if f_ref f =? 0 then Some i else free_file l (Datatypes.S i)
  end.

Definition filealloc : F (option nat) :=
  acquire_ft;;
  l ← gets (λ t, ftab (snd t));
  match free_file l 0 with
  | Some i =>
      set_file i (set_f_ref 1);;
      release_ft;;
      mret (Some i)
  | None =>
      release_ft;;
      mret None
  end.

Definition filedup (i : nat) : F nat :=
  acquire_ft;;
  f ← file_of i;
  if f_ref f <? 1 then panic "filedup" else
  set_file i (λ f, set_f_ref (f_ref f + 1) f);;
  release_ft;;
  mret i.

(** end[], the first address after the kernel. *)
Context (kend : Z).

(** kfree of the page of a pipe: the page is not a pipe any more. *)
Definition kfree_pipe (a : Z) : F unit :=
  kal (kfree kend a);;
  updw (λ w, set_pipes (delete a (pipes w)) w).

Context `{BD : BlockDev S} `{TX : Txn S}.

Definition begin_op : F unit := fsm (blk txn_begin).
Definition end_op : F unit := fsm (blk txn_end).

Definition fileclose (i : nat) : F unit :=
  acquire_ft;;
  f ← file_of i;
  if f_ref f <? 1 then panic "fileclose" else
  set_file i (λ f, set_f_ref (f_ref f - 1) f);;
  f ← file_of i;
  if 0 <? f_ref f then release_ft else
  let ff := f in
  set_file i (λ f, set_f_type FD_NONE (set_f_ref 0 f));;
  release_ft;;
  match f_type ff with
  | FD_PIPE => pipeclose kfree_pipe (f_pipe ff) (f_writable ff)
  | FD_INODE =>
      begin_op;;
      fsm (iput (f_ip ff));;
      end_op
  | FD_NONE => mret tt
  end.

Definition filestat (i : nat) : F (option stat) :=
  f ← file_of i;
  match f_type f with
  | FD_INODE =>
      fsm (ilock (f_ip f));;
      st ← fsm (gets (λ s, stati (ip_of (f_ip f) s)));
      fsm (iunlock (f_ip f));;
      mret (Some st)
  | _ => mret None
  end.

(** p->data of a page from kalloc: it holds what the page held. *)
Definition page_data (m : mem) (a : Z) : list Z := (λ i, u8 (m (a + 52 + Z.of_nat i))) <$> seq 0 512.

(** The label bad of pipealloc, with p == 0. *)
Definition pipealloc_bad (f0 f1 : option nat) : F (option (nat * nat)) :=
  (match f0 with Some i => fileclose i | None => mret tt end);;
  (match f1 with Some i => fileclose i | None => mret tt end);;
  mret None.

(** *f0 and *f1, or [None] for -1. *)
Definition pipealloc : F (option (nat * nat)) :=
  f0 ← filealloc;
  match f0 with
  | None => pipealloc_bad None None
  | Some i0 =>
      f1 ← filealloc;
      match f1 with
      | None => pipealloc_bad (Some i0) None
      | Some i1 =>
          p ← kal kalloc;
          if p =? 0 then pipealloc_bad (Some i0) (Some i1) else
          m ← gets (λ t, km (fst t));
          updw (λ w, set_pipes (<[p := Pipe false (page_data m p) 0 0 true true]> (pipes w)) w);;
          set_file i0 (λ f, set_f_pipe p (set_f_writable false (set_f_readable true (set_f_type FD_PIPE f))));;
          set_file i1 (λ f, set_f_pipe p (set_f_writable true (set_f_readable false (set_f_type FD_PIPE f))));;
          mret (Some (i0, i1))
      end
  end.

(** ** Reading and writing *)

Context (devsw_read : Z → option (nat → Z → M (fsst S) (option (list Z)))).
Context (devsw_write : Z → option (nat → list Z → Z → M (fsst S) Z)).
(** The rest of the machine while the caller sleeps at a pipe. *)
Context (rest : chan → F unit).

Definition fileread (fuel : nat) (i : nat) (n : Z) : F (option (list Z)) :=
  f ← file_of i;
  if negb (f_readable f) then mret None else
  match f_type f with
  | FD_PIPE => piperead rest fuel (f_pipe f) n
  | FD_INODE =>
      fsm (ilock (f_ip f));;
      r ← fsm (readi devsw_read (f_ip f) (f_off f) (u32 n));
      (match r with
       | Some bs => when (0 <? Z.of_nat (length bs)) (set_file i (λ f, set_f_off (u32 (f_off f + Z.of_nat (length bs))) f))
       | None => mret tt
       end);;
      fsm (iunlock (f_ip f));;
      mret r
  | FD_NONE => panic "fileread"
  end.

Definition write_max : Z := (MAXOPBLOCKS - 1 - 1 - 2) / 2 * 512.

(** while(i < n); the result is the final i. *)
Fixpoint filewrite_loop (fuel : nat) (i : nat) (ip : nat) (src : list Z) (n k : Z) : F Z :=
  if k <? n then
    match fuel with
    | O => undef "out of fuel"
    | Datatypes.S fuel =>
        let n1 := Z.min (n - k) write_max in
        begin_op;;
        fsm (ilock ip);;
        f ← file_of i;
        r ← fsm (writei devsw_write ip (drop (Z.to_nat k) src) (f_off f) n1);
        when (0 <? r) (set_file i (λ f, set_f_off (u32 (f_off f + r)) f));;
        fsm (iunlock ip);;
        end_op;;
        if r <? 0 then mret k else
        if negb (r =? n1) then panic "short filewrite" else
        filewrite_loop fuel i ip src n (k + r)
    end
  else mret k.

Definition filewrite (fuel : nat) (i : nat) (src : list Z) (n : Z) : F Z :=
  f ← file_of i;
  if negb (f_writable f) then mret (-1) else
  match f_type f with
  | FD_PIPE => pipewrite rest fuel (f_pipe f) src n
  | FD_INODE =>
      k ← filewrite_loop (Z.to_nat n) i (f_ip f) src n 0;
      mret (if k =? n then n else -1)
  | FD_NONE => panic "filewrite"
  end.

Definition pread (fuel : nat) (i : nat) (n off : Z) : F (option (list Z)) :=
  f ← file_of i;
  if negb (f_readable f) then mret None else
  match f_type f with
  | FD_PIPE => piperead rest fuel (f_pipe f) n
  | FD_INODE =>
      fsm (ilock (f_ip f));;
      r ← fsm (readi devsw_read (f_ip f) (u32 off) (u32 n));
      fsm (iunlock (f_ip f));;
      mret r
  | FD_NONE => panic "fileread"
  end.

(** The loop of pwrite, with off as a local variable; writei takes it as a uint. *)
Fixpoint pwrite_loop (fuel : nat) (ip : nat) (src : list Z) (n k off : Z) : F Z :=
  if k <? n then
    match fuel with
    | O => undef "out of fuel"
    | Datatypes.S fuel =>
        let n1 := Z.min (n - k) write_max in
        begin_op;;
        fsm (ilock ip);;
        r ← fsm (writei devsw_write ip (drop (Z.to_nat k) src) (u32 off) n1);
        let off := if 0 <? r then off + r else off in
        fsm (iunlock ip);;
        end_op;;
        if r <? 0 then mret k else
        if negb (r =? n1) then panic "short filewrite" else
        pwrite_loop fuel ip src n (k + r) off
    end
  else mret k.

Definition pwrite (fuel : nat) (i : nat) (src : list Z) (n off : Z) : F Z :=
  f ← file_of i;
  if negb (f_writable f) then mret (-1) else
  match f_type f with
  | FD_PIPE => pipewrite rest fuel (f_pipe f) src n
  | FD_INODE =>
      k ← pwrite_loop (Z.to_nat n) (f_ip f) src n 0 off;
      mret (if k =? n then n else -1)
  | FD_NONE => panic "filewrite"
  end.

End file.
