(* ===== verification/FileSpec.v ===== *)
(** * FileSpec: positional input and output, and the file table

    pread and pwrite are fileread and filewrite at an offset of the caller's
    instead of that of the open file: the two runs go through the same states
    of the file system, and only the offset of the file differs ([sim]). *)

From Stdlib Require Import ZArith Lia Bool.
From stdpp Require Import base option list sets gmap strings numbers.
From S2P Require Import Prelude Cstring Bio Log Blockdev Fs Kalloc Pipe File.

#[local] Open Scope string_scope.
#[local] Open Scope list_scope.
#[local] Open Scope Z_scope.

Section positional.
Context {S : Type} `{BD : BlockDev S} `{TX : Txn S}.
#[local] Notation T := (kst * fw S)%type.
#[local] Notation F := (M T).
Context (i : nat).

(** The state with another offset in file [i]. *)
Definition with_off (v : Z) (t : T) : T :=
  (fst t, set_ftab (alter (set_f_off v) i (ftab (snd t))) (snd t)).

(** Two outcomes that agree except for the offset of file [i]; the first one
    leaves the file table [l]. *)
Definition sim {A} (l : list file) (Q : A → Z → Prop) (o1 o2 : outcome T A) : Prop :=
  match o1, o2 with
  | Ok a t, Ok b u => a = b ∧ ftab (snd t) = l ∧ ∃ v, u = with_off v t ∧ Q a v
  | Sleep c t, Sleep d u => c = d ∧ ftab (snd t) = l ∧ ∃ v, u = with_off v t
  | Panic m, Panic m' => m = m'
  | Undef m, Undef m' => m = m'
  | _, _ => False
  end.

Lemma sim_ret {A} l (Q : A → Z → Prop) a v (t : T) : ftab (snd t) = l → Q a v →
  sim l Q (mret (M := M T) a t) (mret (M := M T) a (with_off v t)).
Proof. intros. split_and!; eauto. Qed.

Lemma sim_bind {A B} l (Q : B → Z → Prop) (R : A → Z → Prop) (m1 m2 : F A) (k1 k2 : A → F B) t u :
  sim l R (m1 t) (m2 u) →
  (∀ a t' v, ftab (snd t') = l → R a v → sim l Q (k1 a t') (k2 a (with_off v t'))) →
  sim l Q ((m1 ≫= k1) t) ((m2 ≫= k2) u).
Proof.
  intros Hm Hk. unfold mbind, M_bind. destruct (m1 t) as [a t1|c t1|msg|why], (m2 u) as [b u1|d u1|msg'|why'];
    simpl in *; try done.
  destruct Hm as (<- & Hl & v & -> & Hr). by apply Hk.
Qed.

(** An operation of the file system does not see the file table. *)
Lemma sim_fsm {A} l (m : M (fsst S) A) v (t : T) : ftab (snd t) = l →
  sim l (λ _ v', v' = v) (fsm m t) (fsm m (with_off v t)).
Proof.
  intros Hl. unfold fsm, zoom, with_off. simpl. destruct (m (fss (snd t))); simpl; [split_and!; eauto | split_and!; eauto | done | done].
Qed.

(** The second run advances its offset by [r]. *)
Lemma sim_advance l v r (t : T) : ftab (snd t) = l →
  sim l (λ _ v', v' = (if 0 <? r then u32 (v + r) else v))
    (mret (M := M T) tt t) (when (0 <? r) (set_file i (λ f, set_f_off (u32 (f_off f + r)) f)) (with_off v t)).
Proof.
  intros Hl. unfold when. destruct (0 <? r).
  - split_and!; [done | done |]. exists (u32 (v + r)). split; [|done].
    unfold with_off. f_equal. simpl. unfold set_ftab. simpl. f_equal.
    generalize (ftab (snd t)). intros fl. apply list_eq. intros j. destruct (decide (i = j)) as [<-|].
    + rewrite !list_lookup_alter_eq. by destruct (fl !! i).
    + by rewrite !list_lookup_alter_ne.
  - split_and!; eauto.
Qed.

Lemma file_at_off v (t : T) : (i < length (ftab (snd t)))%nat → f_off (file_at (with_off v t) i) = v.
Proof.
  intros Hi. unfold file_at, with_off. simpl. rewrite list_lookup_alter_eq.
  destruct (lookup_lt_is_Some_2 _ _ Hi) as [x ->]. done.
Qed.

Context (devsw_read : Z → option (nat → Z → M (fsst S) (option (list Z)))).
Context (devsw_write : Z → option (nat → list Z → Z → M (fsst S) Z)).

Lemma sim_write_loop fuel ip src n l : (i < length l)%nat → ∀ k off t, 0 ≤ k ≤ n → ftab (snd t) = l →
  sim l (λ r v, k ≤ r ∧ v = u32 (off + (r - k)))
    (pwrite_loop devsw_write fuel ip src n k off t)
    (filewrite_loop devsw_write fuel i ip src n k (with_off (u32 off) t)).
Proof.
  intros Hi. induction fuel as [|fuel IH]; intros k off t Hk Hl; cbn [pwrite_loop filewrite_loop];
    (destruct (Z.ltb_spec k n); [|apply sim_ret; [done | split; [lia | f_equal; lia]]]); [done|].
  eapply sim_bind; [by apply sim_fsm|]. intros [] t1 ? L1 ->.
  eapply sim_bind; [by apply sim_fsm|]. intros [] t2 ? L2 ->.
  unfold file_of. rewrite (bind_ok _ _ (with_off (u32 off) t2) (file_at (with_off (u32 off) t2) i) (with_off (u32 off) t2)) by done.
  rewrite file_at_off by (by rewrite L2).
  eapply sim_bind; [by apply sim_fsm|]. intros r t3 ? L3 ->.
  set (off' := if 0 <? r then off + r else off).
  assert (∀ (k1 k2 : unit → F Z) R, (∀ t4, ftab (snd t4) = l → sim l R (k1 tt t4) (k2 tt (with_off (u32 off') t4))) →
    sim l R (k1 tt t3) ((when (0 <? r) (set_file i (λ f, set_f_off (u32 (f_off f + r)) f)) ≫= k2) (with_off (u32 off) t3))) as Hadv.
  { intros k1 k2 R Hk12. change (k1 tt t3) with ((mret tt ≫= k1) t3).
    eapply sim_bind; [by apply sim_advance|]. intros [] t4 v L4 ->.
    replace (if 0 <? r then u32 (u32 off + r) else u32 off) with (u32 off'); [by apply Hk12|].
    subst off'. destruct (0 <? r); [|done]. unfold u32. divmod_lia. }
  eapply (Hadv (λ _, _)). clear Hadv. intros t4 L4.
  eapply sim_bind; [by apply sim_fsm|]. intros [] t5 ? L5 ->.
  eapply sim_bind; [by apply sim_fsm|]. intros [] t6 ? L6 ->.
  destruct (Z.ltb_spec r 0).
  { subst off'. rewrite (proj2 (Z.ltb_ge 0 r)) by lia. apply sim_ret; [done|]. split; [lia | f_equal; lia]. }
  destruct (Z.eqb_spec r (Z.min (n - k) write_max)) as [Hr|]; cbn [negb]; [|done].
  assert (0 < r) as Hr0 by (change write_max with 1536 in Hr; lia).
  assert (off' = off + r) as -> by (subst off'; by rewrite (proj2 (Z.ltb_lt 0 r)) by lia).
  pose proof (IH (k + r) (off + r) t6 ltac:(lia) L6) as H'. clear -H' Hr0.
  destruct (pwrite_loop _ _ _ _ _ _ _ t6) as [a u1|c u1|msg|why],
    (filewrite_loop _ _ _ _ _ _ _ (with_off (u32 (off + r)) t6)) as [b u2|d u2|msg'|why']; simpl in *; try done.
  destruct H' as (-> & Hl' & v & -> & Hb & ->). split_and!; [done | done |]. eexists. split; [done|].
  split; [lia | f_equal; lia].
Qed.

Lemma file_at_seek v (t : T) : let f := file_at t i in (i < length (ftab (snd t)))%nat →
  file_at (with_off v t) i = set_f_off v f.
Proof.
  intros f Hi. subst f. unfold file_at, with_off. simpl. rewrite list_lookup_alter_eq.
  destruct (lookup_lt_is_Some_2 _ _ Hi) as [x ->]. done.
Qed.

(** C29. pread and pwrite on an inode are fileread and filewrite of the file
    moved to the given offset: they return the same, sleep or panic in the
    same places, and leave the same file system, pages and pipes; but they
    leave the table of open files as it was, while fileread and filewrite
    leave the offset of the file behind the bytes moved, modulo 2^32. *)
Theorem positional_io rest fuel n off (t : T) : let l := ftab (snd t) in
  (i < length l)%nat → f_type (file_at t i) = FD_INODE →
  sim l (λ r v, v = u32 (off + match r with Some bs => Z.of_nat (length bs) | None => 0 end))
    (pread devsw_read rest fuel i n off t) (fileread devsw_read rest fuel i n (with_off (u32 off) t)) ∧
  ∀ src, 0 ≤ n →
    sim l (λ r v, r = n ∧ v = u32 (off + n) ∨ r = -1)
      (pwrite devsw_write rest fuel i src n off t) (filewrite devsw_write rest fuel i src n (with_off (u32 off) t)).
Proof.
  intros l Hi Ht. unfold pread, fileread, pwrite, filewrite, file_of. split; [|intros src Hn];
    rewrite (bind_ok _ _ (with_off (u32 off) t) (file_at (with_off (u32 off) t) i) (with_off (u32 off) t)) by done;
    rewrite (bind_ok _ _ t (file_at t i) t) by done; rewrite file_at_seek by done; simpl; rewrite Ht.
  - destruct (f_readable (file_at t i)); cbn [negb]; [|apply sim_ret; [done | by rewrite Z.add_0_r]].
    eapply sim_bind; [by apply sim_fsm|]. intros [] t1 ? L1 ->.
    eapply sim_bind; [by apply sim_fsm|]. intros r t2 ? L2 ->.
    set (d := match r with Some bs => Z.of_nat (length bs) | None => 0 end).
    rewrite <- (bind_ok (mret tt) (λ _, fsm (iunlock (f_ip (file_at t i))) ≫= λ _, mret r) t2 tt t2) by done.
    eapply (sim_bind _ _ (λ _ v, v = u32 (off + d))).
    { destruct r as [bs|]; [|by apply sim_ret; [done | by rewrite Z.add_0_r]].
      pose proof (sim_advance l (u32 off) (Z.of_nat (length bs)) t2 L2) as H. subst d.
      destruct (Z.ltb_spec 0 (Z.of_nat (length bs))).
      - destruct H as (_ & _ & v & E & ->). split_and!; [done | done |]. eexists. split; [exact E|].
        unfold u32. divmod_lia.
      - apply sim_ret; [done|]. f_equal. lia. }
    intros [] t3 ? L3 ->. eapply sim_bind; [by apply sim_fsm|]. intros [] t4 ? L4 ->. by apply sim_ret.
  - destruct (f_writable (file_at t i)); cbn [negb]; [|apply sim_ret; auto].
    eapply sim_bind; [by apply sim_write_loop; [| lia|]|]. intros r t1 v L1 [_ ->]. apply sim_ret; [done|].
    destruct (Z.eqb_spec r n) as [->|]; [left | by right]. split; [done|]. f_equal. lia.
Qed.

End positional.

(** ** References *)

Section refs.
Context {S : Type} `{BD : BlockDev S} `{TX : Txn S}.
#[local] Notation T := (kst * fw S)%type.
#[local] Notation F := (M T).
Context (kend : Z).

(** The number of references to file [i] among those held. *)
Definition held_refs (h : list nat) (i : nat) : nat := length (filter (λ j, j = i) h).

(** [h] lists who holds what: one entry for each descriptor, or other
    reference, to a file.  Every file counts its references, and a free one
    has no type. *)
Definition refs_ok (h : list nat) (t : T) : Prop :=
  length (ftab (snd t)) = NFILE ∧ ft_lock (snd t) = false ∧
  ∀ i, (i < NFILE)%nat → f_ref (file_at t i) = Z.of_nat (held_refs h i).

Lemma held_cons h i j : held_refs (i :: h) j = (if decide (i = j) then 1 + held_refs h j else held_refs h j)%nat.
Proof. unfold held_refs. rewrite filter_cons. by repeat case_decide. Qed.

Lemma held_elem h i : i ∈ h ↔ (0 < held_refs h i)%nat.
Proof.
  induction h as [|j h IH]; [unfold held_refs; simpl; rewrite elem_of_nil; lia|].
  rewrite held_cons, elem_of_cons, IH. case_decide; intuition lia.
Qed.

Lemma free_file_spec l k : match free_file l k with
  | Some i => ∃ j f, i = (k + j)%nat ∧ l !! j = Some f ∧ f_ref f = 0
  | None => ∀ j f, l !! j = Some f → f_ref f ≠ 0
  end.
Proof.
  revert k. induction l as [|f l IH]; intros k; simpl; [done|].
  destruct (Z.eqb_spec (f_ref f) 0) as [E|E].
  { exists 0%nat, f. split_and!; [lia | done | done]. }
  specialize (IH (Datatypes.S k)). destruct (free_file l (Datatypes.S k)) as [i|].
  - destruct IH as (j & g & -> & Hj & Hg). exists (Datatypes.S j), g. split_and!; [lia | done | done].
  - intros [|j] g Hj; [by simplify_eq/= | by apply (IH j)].
Qed.

Lemma file_at_alter f i j (t : T) : (i < length (ftab (snd t)))%nat →
  file_at (fst t, set_ftab (alter f i (ftab (snd t))) (snd t)) j =
    if decide (i = j) then f (file_at t i) else file_at t j.
Proof.
  intros Hi. unfold file_at. simpl. case_decide as E.
  - subst. rewrite list_lookup_alter_eq. destruct (lookup_lt_is_Some_2 _ _ Hi) as [x ->]. done.
  - by rewrite list_lookup_alter_ne.
Qed.

(** The operation does not change the file table or its lock. *)
Definition keeps_files {A} (m : F A) : Prop := ∀ (t : T),
  safe (λ u, ftab (snd u) = ftab (snd t) ∧ ft_lock (snd u) = ft_lock (snd t)) m
       (λ _ u, ftab (snd u) = ftab (snd t) ∧ ft_lock (snd u) = ft_lock (snd t)) t.

Lemma keeps_bind {A B} (m : F A) (k : A → F B) : keeps_files m → (∀ a, keeps_files (k a)) → keeps_files (m ≫= k).
Proof.
  intros Hm Hk t. apply safe_bind. specialize (Hm t). unfold safe in *. destruct (m t) as [a u|c u| |]; try done.
  destruct Hm as [H1 H2]. specialize (Hk a u). unfold safe in Hk. rewrite H1, H2 in Hk. exact Hk.
Qed.
Lemma keeps_fsm {A} (m : M (fsst S) A) : keeps_files (fsm m).
Proof. intros t. unfold safe, fsm, zoom. by destruct (m _). Qed.
Lemma keeps_kal {A} (m : M kst A) : keeps_files (kal m).
Proof. intros t. unfold safe, kal, zoom. by destruct (m _). Qed.
Lemma keeps_set_pipe a f : keeps_files (set_pipe (S := T) a f).
Proof. intros t. unfold safe, set_pipe, pipe_of, mbind, M_bind, modify. by destruct (ph_get a t). Qed.
Lemma keeps_pipe_of a : keeps_files (pipe_of (S := T) a).
Proof. intros t. unfold safe, pipe_of. by destruct (ph_get a t). Qed.
Lemma keeps_ret {A} (a : A) : keeps_files (mret a).
Proof. done. Qed.
Lemma keeps_panic {A} msg : keeps_files (panic (A := A) msg).
Proof. done. Qed.
Lemma keeps_wakeup c : keeps_files (wakeup_pipe (S := T) c).
Proof. done. Qed.
Lemma keeps_updw f : (∀ w : fw S, ftab (f w) = ftab w ∧ ft_lock (f w) = ft_lock w) → keeps_files (updw f).
Proof. intros Hf t. apply Hf. Qed.

Lemma keeps_pipeclose a w : keeps_files (pipeclose (kfree_pipe kend) a w).
Proof.
  assert (∀ a, keeps_files (release_pipe (S := T) a)) as Hrel.
  { intros b. unfold release_pipe. apply keeps_bind; [apply keeps_pipe_of|]. intros p.
    destruct (pi_lock p); [apply keeps_set_pipe | apply keeps_panic]. }
  unfold pipeclose, acquire_pipe. apply keeps_bind.
  { apply keeps_bind; [apply keeps_pipe_of|]. intros p. destruct (pi_lock p); [apply keeps_panic | apply keeps_set_pipe]. }
  intros _. apply keeps_bind.
  { destruct w; (apply keeps_bind; [apply keeps_set_pipe | intros _; apply keeps_wakeup]). }
  intros _. apply keeps_bind; [apply keeps_pipe_of|]. intros p. destruct (_ && _); [|apply Hrel].
  apply keeps_bind; [apply Hrel|]. intros _. apply keeps_bind; [apply keeps_kal|]. intros _. by apply keeps_updw.
Qed.

(** Taking and dropping a reference. *)
Lemma refs_step h h' i f (t : T) : refs_ok h t → (i < NFILE)%nat →
  (∀ j, j ≠ i → held_refs h' j = held_refs h j) → f_ref (f (file_at t i)) = Z.of_nat (held_refs h' i) →
  refs_ok h' (fst t, set_ftab (alter f i (ftab (snd t))) (snd t)).
Proof.
  intros (Hlen & Hlk & Hr) Hi Hother Hf. split_and!; [simpl; by rewrite length_alter | done |].
  intros j Hj. rewrite file_at_alter by lia. case_decide as E; [by subst|]. rewrite Hr by done. by rewrite Hother.
Qed.

Lemma held_perm h h' i : h ≡ₚ h' → held_refs h i = held_refs h' i.
Proof. intros E. unfold held_refs. by rewrite E. Qed.

Lemma filealloc_refs h (t : T) : refs_ok h t → ∃ r t', filealloc t = Ok r t' ∧
  match r with
  | Some i => (i < NFILE)%nat ∧ i ∉ h ∧ refs_ok (i :: h) t'
  | None => t' = t ∧ ∀ i, (i < NFILE)%nat → i ∈ h
  end.
Proof.
  intros Hok. pose proof Hok as (Hlen & Hlk & Hr). destruct t as [k w]. simpl in *.
  unfold filealloc, acquire_ft, release_ft, mbind, M_bind, gets, updw, modify. simpl. rewrite Hlk. simpl.
  pose proof (free_file_spec (ftab w) 0) as Hs. destruct (free_file (ftab w) 0) as [i|]; simpl.
  - destruct Hs as (j & f & -> & Hj & Hf). simpl. pose proof (lookup_lt_Some _ _ _ Hj) as Hlt. rewrite Hlen in Hlt.
    assert (held_refs h j = 0%nat) as H0.
    { specialize (Hr j Hlt). unfold file_at in Hr. simpl in Hr. rewrite Hj in Hr. simpl in Hr. lia. }
    eexists _, _. split; [done|]. split_and!; [done | rewrite held_elem; lia |].
    pose proof (refs_step h (j :: h) j (set_f_ref 1) (k, w) Hok Hlt) as H'. simpl in H'.
    destruct w; simpl in *; subst. apply H'; [|rewrite held_cons, decide_True by done; simpl; lia].
    intros x Hx. rewrite held_cons. by rewrite decide_False.
  - eexists None, _. split; [done|]. split; [by destruct w; simpl in *; subst|]. intros i Hi. rewrite held_elem.
    specialize (Hr i Hi). unfold file_at in Hr. simpl in Hr.
    destruct (lookup_lt_is_Some_2 (ftab w) i ltac:(lia)) as [f Hf]. rewrite Hf in Hr. simpl in Hr.
    pose proof (Hs i f Hf). lia.
Qed.

Lemma filedup_refs h i (t : T) : refs_ok h t → (i < NFILE)%nat →
  (i ∈ h → ∃ t', filedup i t = Ok i t' ∧ refs_ok (i :: h) t') ∧ (i ∉ h → filedup i t = Panic "filedup").
Proof.
  intros Hok Hi. pose proof Hok as (Hlen & Hlk & Hr). destruct t as [k w]. simpl in *.
  specialize (Hr i Hi). unfold file_at in Hr. simpl in Hr.
  unfold filedup, acquire_ft, release_ft, file_of, set_file, mbind, M_bind, gets, updw, modify. simpl. rewrite Hlk. simpl.
  unfold file_at. simpl. rewrite Hr, held_elem. split; intros Hh.
  - rewrite (proj2 (Z.ltb_ge _ _)) by lia. simpl. eexists. split; [done|].
    pose proof (refs_step h (i :: h) i (λ f, set_f_ref (f_ref f + 1) f) (k, w) Hok Hi) as H'. simpl in H'.
    destruct w; simpl in *; subst. apply H'.
    + intros x Hx. rewrite held_cons. by rewrite decide_False.
    + rewrite held_cons, decide_True by done. unfold file_at. simpl. rewrite Hr. simpl. lia.
  - by rewrite (proj2 (Z.ltb_lt _ _)) by lia.
Qed.

(** fileclose up to the release of ftable.lock: the file is still open, or it
    is free, and what it was is to be closed. *)
Lemma fileclose_last h i (t : T) : refs_ok h t → (i < NFILE)%nat → i ∈ h → held_refs h i = 1%nat →
  let ff := file_at t i in
  fileclose kend i t =
    (match f_type ff with
     | FD_PIPE => pipeclose (kfree_pipe kend) (f_pipe ff) (f_writable ff)
     | FD_INODE => begin_op;; fsm (iput (f_ip ff));; end_op
     | FD_NONE => mret tt
     end) (fst t, set_ftab (alter (λ f, set_f_type FD_NONE (set_f_ref 0 f)) i (ftab (snd t))) (snd t)).
Proof.
  intros (Hlen & Hlk & Hr) Hi Hh H1 ff. specialize (Hr i Hi). rewrite H1 in Hr.
  destruct t as [k [lk tab pp fs kl wk]]. simpl in *. subst lk ff.
  destruct (lookup_lt_is_Some_2 tab i ltac:(lia)) as [f Hf]. unfold file_at in *. simpl in *. rewrite Hf in *. simpl in *.
  unfold fileclose. rewrite (bind_ok _ _ _ tt (k, Fw true tab pp fs kl wk)) by done.
  rewrite (bind_ok _ _ _ f (k, Fw true tab pp fs kl wk)) by (unfold file_of, gets, file_at; simpl; by rewrite Hf).
  rewrite Hr. simpl. rewrite (bind_ok _ _ _ tt (k, Fw true (alter (λ f, set_f_ref (f_ref f - 1) f) i tab) pp fs kl wk)) by done.
  rewrite (bind_ok _ _ _ (set_f_ref 0 f) (k, Fw true (alter (λ f, set_f_ref (f_ref f - 1) f) i tab) pp fs kl wk)).
  2: { unfold file_of, gets, file_at. simpl. rewrite list_lookup_alter_eq, Hf. simpl. by rewrite Hr. }
  simpl. rewrite (bind_ok _ _ _ tt (k, Fw true (alter (λ f, set_f_type FD_NONE (set_f_ref 0 f)) i tab) pp fs kl wk)).
  2: { unfold set_file, updw, modify, set_ftab. simpl. do 3 f_equal. apply list_eq. intros j. destruct (decide (i = j)) as [<-|].
       - rewrite !list_lookup_alter_eq, Hf. done.
       - by rewrite !list_lookup_alter_ne. }
  by rewrite (bind_ok _ _ _ tt (k, Fw false (alter (λ f, set_f_type FD_NONE (set_f_ref 0 f)) i tab) pp fs kl wk)) by done.
Qed.

Lemma fileclose_more h i (t : T) : refs_ok h t → (i < NFILE)%nat → (1 < held_refs h i)%nat →
  fileclose kend i t =
    Ok tt (fst t, set_ftab (alter (λ f, set_f_ref (f_ref f - 1) f) i (ftab (snd t))) (snd t)).
Proof.
  intros (Hlen & Hlk & Hr) Hi H1. specialize (Hr i Hi).
  destruct t as [k [lk tab pp fs kl wk]]. simpl in *. subst lk.
  destruct (lookup_lt_is_Some_2 tab i ltac:(lia)) as [f Hf]. unfold file_at in *. simpl in *. rewrite Hf in *. simpl in *.
  unfold fileclose. rewrite (bind_ok _ _ _ tt (k, Fw true tab pp fs kl wk)) by done.
  rewrite (bind_ok _ _ _ f (k, Fw true tab pp fs kl wk)) by (unfold file_of, gets, file_at; simpl; by rewrite Hf).
  rewrite (proj2 (Z.ltb_ge _ _)) by lia.
  rewrite (bind_ok _ _ _ tt (k, Fw true (alter (λ f, set_f_ref (f_ref f - 1) f) i tab) pp fs kl wk)) by done.
  rewrite (bind_ok _ _ _ (set_f_ref (f_ref f - 1) f) (k, Fw true (alter (λ f, set_f_ref (f_ref f - 1) f) i tab) pp fs kl wk)).
  2: { unfold file_of, gets, file_at. simpl. by rewrite list_lookup_alter_eq, Hf. }
  simpl. by rewrite (proj2 (Z.ltb_lt _ _)) by lia.
Qed.

Lemma fileclose_refs h i (t : T) : refs_ok (i :: h) t → (i < NFILE)%nat →
  safe (refs_ok h) (fileclose kend i) (λ _ u, refs_ok h u ∧ (i ∉ h → f_type (file_at u i) = FD_NONE)) t ∧
  (i ∈ h → ∃ u, fileclose kend i t = Ok tt u ∧ fss (snd u) = fss (snd t) ∧ pipes (snd u) = pipes (snd t)).
Proof.
  intros Hok Hi. pose proof Hok as (Hlen & Hlk & Hr). specialize (Hr i Hi).
  assert (held_refs (i :: h) i = Datatypes.S (held_refs h i)) as Hc by (by rewrite held_cons, decide_True).
  assert (∀ j, j ≠ i → held_refs h j = held_refs (i :: h) j) as Ho.
  { intros j Hj. rewrite held_cons. by rewrite decide_False. }
  destruct (decide (i ∈ h)) as [Hin|Hin]; rewrite held_elem in Hin.
  - rewrite (fileclose_more (i :: h) i t Hok Hi ltac:(lia)). split; [|intros _; eexists; split_and!; done].
    unfold safe. rewrite (fileclose_more (i :: h) i t Hok Hi ltac:(lia)). split; [|rewrite held_elem; lia].
    apply (refs_step (i :: h) h i); [done | done | done | simpl; lia].
  - split; [|rewrite held_elem; lia].
    pose proof (fileclose_last (i :: h) i t Hok Hi ltac:(left) ltac:(lia)) as E. unfold safe. rewrite E.
    set (u := (_, _)). assert (refs_ok h u) as Hu.
    { apply (refs_step (i :: h) h i); [done | done | done | simpl; lia]. }
    assert (f_type (file_at u i) = FD_NONE) as Hn by (unfold u; rewrite file_at_alter, decide_True by lia; done).
    assert (∀ m : F unit, keeps_files m → match m u with
      | Ok _ v => refs_ok h v ∧ (i ∉ h → f_type (file_at v i) = FD_NONE) | Sleep _ v => refs_ok h v | _ => True end) as Hk.
    { intros m Hm. specialize (Hm u). unfold safe in Hm.
      assert (∀ v : T, ftab (snd v) = ftab (snd u) ∧ ft_lock (snd v) = ft_lock (snd u) →
        refs_ok h v ∧ f_type (file_at v i) = FD_NONE) as Hv.
      { intros v [H1 H2]. unfold refs_ok, file_at in *. rewrite H1, H2. done. }
      destruct (m u); try done; [split; [by apply Hv | intros _; by apply Hv] | by apply Hv]. }
    destruct (f_type (file_at t i)); apply Hk.
    + apply keeps_ret.
    + apply keeps_pipeclose.
    + apply keeps_bind; [apply keeps_fsm|]. intros _. apply keeps_bind; [apply keeps_fsm|]. intros _. apply keeps_fsm.
Qed.

(** The table of open files counts references: where every file's count
    is the number of references held, filealloc returns a file nobody holds,
    with one reference, or finds all NFILE files held; filedup adds a
    reference to a held file and panics on one nobody holds; and fileclose
    gives one back, leaving a file that is still held and the file system and
    pipes alone, and freeing the file with the last reference, also if it
    then sleeps in the file system. *)
Theorem file_references h (t : T) : refs_ok h t →
  (∃ r t', filealloc t = Ok r t' ∧
     match r with
     | Some i => (i < NFILE)%nat ∧ i ∉ h ∧ refs_ok (i :: h) t'
     | None => t' = t ∧ ∀ i, (i < NFILE)%nat → i ∈ h
     end) ∧
  (∀ i, (i < NFILE)%nat →
     (i ∈ h → ∃ t', filedup i t = Ok i t' ∧ refs_ok (i :: h) t') ∧ (i ∉ h → filedup i t = Panic "filedup")) ∧
  (∀ i h', (i < NFILE)%nat → h = i :: h' →
     safe (refs_ok h') (fileclose kend i) (λ _ u, refs_ok h' u ∧ (i ∉ h' → f_type (file_at u i) = FD_NONE)) t ∧
     (i ∈ h' → ∃ u, fileclose kend i t = Ok tt u ∧ fss (snd u) = fss (snd t) ∧ pipes (snd u) = pipes (snd t))).
Proof.
  intros Hok. split_and!.
  - by apply filealloc_refs.
  - intros i Hi. by apply filedup_refs.
  - intros i h' Hi ->. by apply fileclose_refs.
Qed.
End refs.
