(* ===== verification/Kworld.v ===== *)
(** * Kworld: the state below the process table

    The layers proc.c and the system calls work on: the open files with the
    file system, the user semaphores of Xem.v and the clock.  The instances
    show that the file layer of File.v provides what Proc.v asks of it. *)

From Stdlib Require Import ZArith Lia Bool.
From stdpp Require Import base option list sets gmap strings numbers.
From S2P Require Import Prelude Cstring Bio Log Blockdev Fs Kalloc Pipe File Vm Proc Xem.

#[local] Open Scope string_scope.
#[local] Open Scope list_scope.
#[local] Open Scope Z_scope.

(** The files, the semaphores, ticks and tickslock of trap.c. *)
Record kw (S : Type) := Kw { kfw : fw S; kx : xworld; ticks : Z; tickslock : bool }.
Arguments Kw {S}. Arguments kfw {S}. Arguments kx {S}. Arguments ticks {S}. Arguments tickslock {S}.

Section kworld.
Context {S : Type}.

Definition set_kfw (v : fw S) (w : kw S) : kw S := Kw v (kx w) (ticks w) (tickslock w).
Definition set_kx (v : xworld) (w : kw S) : kw S := Kw (kfw w) v (ticks w) (tickslock w).
Definition set_ticks (v : Z) (w : kw S) : kw S := Kw (kfw w) (kx w) v (tickslock w).
Definition set_tickslock (v : bool) (w : kw S) : kw S := Kw (kfw w) (kx w) (ticks w) v.

#[export] Instance kw_xem : XemStore (kw S) := {| getx := kx; setx := set_kx; getx_setx := λ _ _, eq_refl |}.

(** An operation of the file layer. *)
Definition infw {A} (m : M (kst * fw S) A) : M (kst * kw S) A :=
  zoom (λ t, (fst t, kfw (snd t))) (λ r t, (fst r, set_kfw (snd r) (snd t))) m.

Context (kend : Z) `{BD : BlockDev S} `{TX : Txn S}.
Context (devsw_read : Z → option (nat → Z → M (fsst S) (option (list Z)))).

(** namei is called by proc.c for an absolute path, so no directory is current. *)
#[export] Instance kw_files : FileOps (kw S) := {|
  Proc.filedup := λ f, infw (File.filedup f);
  Proc.fileclose := λ f, infw (File.fileclose kend f);
  Proc.idup := λ i, infw (fsm (Fs.idup i));
  Proc.iput := λ i, infw (fsm (Fs.iput i));
  Proc.begin_op := infw File.begin_op;
  Proc.end_op := infw File.end_op;
  Proc.namei := λ path, infw (fsm (Fs.namei devsw_read 0 path));
  Proc.iinit := infw (fsm (Fs.iinit ROOTDEV));
  Proc.initlog := infw (fsm (blk (txn_init ROOTDEV)))
|}.

#[export] Instance kw_file_laws : FileLaws (kw S).
Proof.
  split.
  - intros f [k w] f' w'. unfold Proc.filedup, kw_files, infw, zoom, File.filedup, mbind, M_bind. simpl.
    unfold acquire_ft, release_ft, file_of, set_file, updw, gets, modify, panic, mbind, M_bind, mret, M_ret. simpl.
    repeat (case_match; simplify_eq; simpl in *; try done); by intros [= <-].
  - intros i [k w] i' w'. unfold Proc.idup, kw_files, infw, fsm, zoom, Fs.idup, mbind, M_bind. simpl.
    unfold acquire_icache, release_icache, set_ip, gets, modify, panic, mbind, M_bind, mret, M_ret. simpl.
    repeat (case_match; simplify_eq; simpl in *; try done); by intros [= <-].
Qed.

End kworld.
