(* ===== verification/Syscall.v ===== *)
(** * Syscall: the arguments of a system call, syscall.c

    fetchint, fetchstr, argint, argptr and argstr read the memory of the
    calling process at user addresses, through its page table.  [None] is the
    result -1; a string argument is represented by its bytes.  The theorem
    shows that the checks keep every access and every accepted buffer below
    the size of the process, although addresses are unsigned and wrap. *)

From Stdlib Require Import ZArith Lia Bool.
From stdpp Require Import base option list sets gmap strings numbers.
From S2P Require Import Prelude Cstring Kalloc Vm Proc.

#[local] Open Scope string_scope.
#[local] Open Scope list_scope.
#[local] Open Scope Z_scope.

Section args.
Context {W : Type}.
#[local] Notation P := (M (pst W)).

(** A word of the trap frame of the process [me]. *)
Definition tf_word (me : nat) (off : Z) : P Z := p ← proc_of me; kvm (load (p_tf p + off)).
Definition set_tf_word (me : nat) (off v : Z) : P unit := p ← proc_of me; kvm (store (p_tf p + off) v).

Definition fetchint (me : nat) (addr : Z) : P (option Z) :=
  p ← proc_of me;
  if (p_sz p <=? addr) || (p_sz p <? u32 (addr + 4)) then mret None else
  v ← kvm (vload32 (p_pgdir p) addr);
  mret (Some (s32 v)).

(** for(s = *pp; s < ep; s++), with the bytes passed so far. *)
Fixpoint fetchstr_loop (fuel : nat) (pgdir s ep : Z) (acc : list Z) : M kst (option (list Z)) :=
  if s <? ep then
    match fuel with
    | O => undef "out of fuel"
    | S fuel =>
        c ← vload8 pgdir s;
        if c =? 0 then mret (Some acc) else fetchstr_loop fuel pgdir (s + 1) ep (acc ++ [c])
    end
  else mret None.

(** The string at addr, whose length is the result. *)
Definition fetchstr (me : nat) (addr : Z) : P (option (list Z)) :=
  p ← proc_of me;
  if p_sz p <=? addr then mret None else
  kvm (fetchstr_loop (Z.to_nat (p_sz p - addr)) (p_pgdir p) addr (p_sz p) []).

Definition argint (me : nat) (n : Z) : P (option Z) :=
  esp ← tf_word me tf_esp;
  fetchint me (u32 (esp + 4 + 4 * n)).

(** The pointer, as an address. *)
Definition argptr (me : nat) (n size : Z) : P (option Z) :=
  i ← argint me n;
  match i with
  | None => mret None
  | Some i =>
      p ← proc_of me;
      if (size <? 0) || (p_sz p <=? u32 i) || (p_sz p <? u32 (u32 i + size)) then mret None
      else mret (Some (u32 i))
  end.

Definition argstr (me : nat) (n : Z) : P (option (list Z)) :=
  addr ← argint me n;
  match addr with
  | None => mret None
  | Some addr => fetchstr me (u32 addr)
  end.

End args.

(** ** What is accepted *)

(** The bytes of a user memory: [b a] is the byte at [a], for the addresses
    below [sz], in the page table [pgdir]. *)
Definition user_bytes (pgdir sz : Z) (k : kst) (b : Z → Z) : Prop :=
  ∀ a, 0 ≤ a < sz → vload8 pgdir a k = Ok (b a) k.

(** The word at [a]. *)
Definition word_at (b : Z → Z) (a : Z) : Z := get32 [b a; b (a + 1); b (a + 2); b (a + 3)] 0.

(** [l] is the string at [a], terminated before [sz]. *)
Definition string_at (b : Z → Z) (a sz : Z) (l : list Z) : Prop :=
  a + Z.of_nat (length l) < sz ∧ b (a + Z.of_nat (length l)) = 0 ∧
  ∀ i, 0 ≤ i < Z.of_nat (length l) → bget0 l i = b (a + i) ∧ b (a + i) ≠ 0.

Lemma kvm_ok {W A} (m : M kst A) (a : A) (s : pst W) : m (kmst s) = Ok a (kmst s) → kvm m s = Ok a s.
Proof. intros E. unfold kvm, zoom. rewrite E. by destruct s. Qed.

Lemma vload_word pgdir sz k b a : user_bytes pgdir sz k b → 0 ≤ a → a + 4 ≤ sz → sz ≤ KERNBASE →
  vload32 pgdir a k = Ok (word_at b a) k.
Proof.
  intros Hb Ha Hs Hk. unfold KERNBASE in Hk. unfold vload32. simpl.
  rewrite (u32_id (a + 1)), (u32_id (a + 1 + 1)), (u32_id (a + 1 + 1 + 1)) by lia.
  unfold mbind, M_bind. rewrite (Hb a) by lia. rewrite (Hb (a + 1)) by lia.
  rewrite (Hb (a + 1 + 1)) by lia. rewrite (Hb (a + 1 + 1 + 1)) by lia. unfold mret, M_ret, word_at.
  by rewrite <- !Z.add_assoc.
Qed.

Lemma fetchstr_loop_spec pgdir sz k b : user_bytes pgdir sz k b → ∀ n a acc, 0 ≤ a → a + Z.of_nat n = sz →
  (∃ l, fetchstr_loop n pgdir a sz acc k = Ok (Some (acc ++ l)) k ∧ string_at b a sz l) ∨
  (fetchstr_loop n pgdir a sz acc k = Ok None k ∧ ∀ c, a ≤ c < sz → b c ≠ 0).
Proof.
  intros Hb n. induction n as [|n IH]; intros a acc Ha Hn; cbn [fetchstr_loop].
  { rewrite (proj2 (Z.ltb_ge _ _)) by lia. right. split; [done | lia]. }
  rewrite (proj2 (Z.ltb_lt _ _)) by lia. rewrite (bind_ok _ _ _ _ _ (Hb a ltac:(lia))).
  destruct (Z.eqb_spec (b a) 0) as [E|E].
  { left. exists []. rewrite app_nil_r. split; [done|]. unfold string_at.
    change (Z.of_nat (length [])) with 0. rewrite Z.add_0_r. split_and!; [lia | done | lia]. }
  destruct (IH (a + 1) (acc ++ [b a]) ltac:(lia) ltac:(lia)) as [(l & El & H1 & H2 & H3)|[El Hc]]; rewrite El.
  - left. exists (b a :: l). rewrite <- app_assoc. split; [done|]. unfold string_at. simpl length.
    rewrite Nat2Z.inj_succ, <- Z.add_1_l, Z.add_assoc. split_and!; [lia | done |].
    intros i Hi. destruct (decide (i = 0)) as [->|]; [by rewrite Z.add_0_r|].
    destruct (H3 (i - 1) ltac:(lia)) as [Hi1 Hne]. replace (a + 1 + (i - 1)) with (a + i) in * by lia.
    split; [|done]. rewrite <- Hi1. unfold bget0. by replace (Z.to_nat i) with (S (Z.to_nat (i - 1))) by lia.
  - right. split; [done|]. intros c Hc'. destruct (decide (c = a)) as [->|]; [done|]. apply Hc. lia.
Qed.

Section checks.
Context {W : Type}.

(** C32. The argument checks of syscall.c are exact for a process whose size
    is at most KERNBASE and whose memory is mapped below it. fetchint returns
    the word at addr if all of it lies below sz, and -1 otherwise. fetchstr
    returns the string at addr if it is terminated below sz, and -1 otherwise.
    argptr accepts the pointer i for size bytes if 0 <= size and all of
    [i, i+size) lies below sz and i itself does, and returns -1 otherwise. No
    call changes the state, whatever the user passes. *)
Theorem syscall_args_bounded (me : nat) (s : pst W) (b : Z → Z) :
  let p := proc_at s me in
  0 ≤ p_sz p ≤ KERNBASE → user_bytes (p_pgdir p) (p_sz p) (kmst s) b →
  (∀ addr, 0 ≤ addr < 2 ^ 32 →
     fetchint me addr s =
       Ok (if decide (addr + 4 ≤ p_sz p) then Some (s32 (word_at b addr)) else None) s) ∧
  (∀ addr, 0 ≤ addr < 2 ^ 32 →
     (∃ l, fetchstr me addr s = Ok (Some l) s ∧ string_at b addr (p_sz p) l) ∨
     (fetchstr me addr s = Ok None s ∧ ∀ c, addr ≤ c < p_sz p → b c ≠ 0)) ∧
  (∀ n size, - 2 ^ 31 ≤ size < 2 ^ 31 →
     let a := u32 (ld32 (km (kmst s)) (p_tf p + tf_esp) + 4 + 4 * n) in
     let i := u32 (word_at b a) in
     argptr me n size s =
       Ok (if decide (a + 4 ≤ p_sz p ∧ 0 ≤ size ∧ i < p_sz p ∧ i + size ≤ p_sz p) then Some i else None) s).
Proof.
  intros p Hsz Hb.
  assert (∀ addr, 0 ≤ addr < 2 ^ 32 → fetchint me addr s =
       Ok (if decide (addr + 4 ≤ p_sz p) then Some (s32 (word_at b addr)) else None) s) as Hint.
  { intros addr Ha. unfold fetchint, proc_of, mbind, M_bind, gets. fold p. unfold KERNBASE in *.
    destruct (Z.leb_spec (p_sz p) addr).
    { by rewrite decide_False by lia. }
    rewrite u32_id by lia. case_decide.
    - rewrite (proj2 (Z.ltb_ge _ _)) by lia. cbn [orb].
      by rewrite (kvm_ok _ (word_at b addr)) by (apply (vload_word _ (p_sz p)); [done | unfold KERNBASE; lia ..]).
    - by rewrite (proj2 (Z.ltb_lt _ _)) by lia. }
  split_and!; [done | |].
  - intros addr Ha. unfold fetchstr, proc_of, mbind, M_bind, gets. fold p.
    destruct (Z.leb_spec (p_sz p) addr). { right. split; [done | lia]. }
    destruct (fetchstr_loop_spec _ _ _ b Hb (Z.to_nat (p_sz p - addr)) addr [] ltac:(lia) ltac:(lia))
      as [(l & E & Hl)|[E Hl]].
    + left. exists l. split; [by apply kvm_ok | done].
    + right. split; [by apply kvm_ok | done].
  - intros n size Hs a i.
    assert (argint me n s = Ok (if decide (a + 4 ≤ p_sz p) then Some (s32 (word_at b a)) else None) s) as Harg.
    { rewrite <- Hint by apply u32_range. unfold argint.
      rewrite (bind_ok _ _ s (ld32 (km (kmst s)) (p_tf p + tf_esp)) s); [done|].
      unfold tf_word. rewrite (bind_ok _ _ s p s) by done. by apply kvm_ok. }
    unfold argptr. rewrite (bind_ok _ _ _ _ _ Harg). case_decide as Ha.
    2: { by rewrite decide_False by tauto. }
    unfold proc_of, mbind, M_bind, gets. fold p. rewrite u32_s32. fold i.
    pose proof (u32_range (word_at b a)) as Hi. fold i in Hi. unfold KERNBASE in *.
    destruct (Z.ltb_spec size 0); [by rewrite decide_False by lia|].
    destruct (Z.leb_spec (p_sz p) i); [by rewrite decide_False by lia|]. rewrite u32_id by lia. cbn [orb].
    destruct (Z.ltb_spec (p_sz p) (i + size)); [by rewrite decide_False by lia | by rewrite decide_True by lia].
Qed.
End checks.
