(* ===== verification/Exec.v ===== *)
(** * Exec: exec of exec.c

    exec replaces the memory of the calling process by a program read from an
    ELF file.  The argument strings and the path are their bytes; the bytes of
    the file headers are decoded at the offsets of elf.h. *)

From Stdlib Require Import ZArith Lia Bool.
From stdpp Require Import base option list sets gmap strings numbers.
From S2P Require Import Prelude Cstring Kalloc Vm Proc Xem Bio Log Blockdev Fs Pipe File Kworld Syscall.

#[local] Open Scope string_scope.
#[local] Open Scope list_scope.
#[local] Open Scope Z_scope.

Definition MAXARG : Z := 32.

(** struct elfhdr and struct proghdr of elf.h. *)
Definition ELF_MAGIC : Z := 0x464C457F.
Definition ELF_PROG_LOAD : Z := 1.
Definition sizeof_elfhdr : Z := 52.
Definition elf_magic (l : list Z) : Z := get32 l 0.
Definition elf_entry (l : list Z) : Z := get32 l 24.
Definition elf_phoff (l : list Z) : Z := get32 l 28.
Definition elf_phnum (l : list Z) : Z := get16 l 44.
Definition sizeof_proghdr : Z := 32.
Definition ph_type (l : list Z) : Z := get32 l 0.
Definition ph_off (l : list Z) : Z := get32 l 4.
Definition ph_vaddr (l : list Z) : Z := get32 l 8.
Definition ph_filesz (l : list Z) : Z := get32 l 16.
Definition ph_memsz (l : list Z) : Z := get32 l 20.

(** for(last=s=path; *s; s++) if( *s == '/' ) last = s+1; *)
Fixpoint last_elem (path last : list Z) : list Z :=
  match path with
  | [] => last
  | c :: s => last_elem s (if c =? SLASH then s else last)
  end.

(** The argument words: the fake return PC, argc, the argv pointer, argv. *)
Definition ustack (argc sp : Z) (args : list Z) : list Z :=
  concat (le32 <$> ([0xffffffff; argc; u32 (sp - (argc + 1) * 4)] ++ args ++ [0])).

Section exec.
Context {S : Type}.
#[local] Notation P := (M (pst (kw S))).

(** myproc(): the pid and the killed flag of the caller, for the layers below. *)
Definition as_caller (p : proc) (w : fw S) : fw S :=
  set_fkilled (negb (p_killed p =? 0))
    (set_fss (Fsst (ic_lock (fss w)) (ic (fss w)) (sb (fss w)) (p_pid p) (bd (fss w))) w).
Definition onfile {A} (me : nat) (m : M (kst * fw S) A) : P A :=
  p ← proc_of me;
  fsys (infw (updw (as_caller p);; m)).

(** namei with the current directory of the caller. *)
Definition cwd_of (me : nat) (path : list Z) : P nat :=
  p ← proc_of me;
  match p_cwd p with
  | Some c => mret c
  | None => match path with
            | c :: _ => if c =? SLASH then mret 0%nat else undef "null pointer"
            | [] => undef "null pointer"
            end
  end.

Context (kend kdata : Z) `{BD : BlockDev S} `{TX : Txn S}.
Context (devsw_read : Z → option (nat → Z → M (fsst S) (option (list Z)))).

Definition namei_of (me : nat) (path : list Z) : P (option nat) :=
  c ← cwd_of me path; onfile me (fsm (namei devsw_read c path)).
Definition readi_of (me ip : nat) (off n : Z) : P (option (list Z)) :=
  onfile me (fsm (readi devsw_read ip off n)).

(** The label bad. *)
Definition exec_bad (me : nat) (pgdir : Z) (ip : option nat) : P Z :=
  when (negb (pgdir =? 0)) (kvm (freevm kend pgdir));;
  (match ip with
   | Some ip => onfile me (fsm (iunlockput ip));; onfile me end_op
   | None => mret tt
   end);;
  mret (-1).

(** for(i=0, off=elf.phoff; i<elf.phnum; i++, off+=sizeof(ph)), with [n]
    iterations to go; the result is sz, or [None] for goto bad. *)
Fixpoint exec_load (n : nat) (me ip : nat) (pgdir off sz : Z) : P (option Z) :=
  match n with
  | O => mret (Some sz)
  | Datatypes.S n =>
      r ← readi_of me ip (u32 off) sizeof_proghdr;
      match r with
      | None => mret None
      | Some ph =>
          if negb (Z.of_nat (length ph) =? sizeof_proghdr) then mret None else
          if negb (ph_type ph =? ELF_PROG_LOAD) then exec_load n me ip pgdir (off + sizeof_proghdr) sz else
          if ph_memsz ph <? ph_filesz ph then mret None else
          if u32 (ph_vaddr ph + ph_memsz ph) <? ph_vaddr ph then mret None else
          sz ← kvm (allocuvm kend pgdir sz (u32 (ph_vaddr ph + ph_memsz ph)));
          if sz =? 0 then mret None else
          if negb (ph_vaddr ph mod PGSIZE =? 0) then mret None else
          r ← loaduvm (λ A (m : M kst A), kvm m) (readi_of me ip) pgdir (ph_vaddr ph) (ph_off ph) (ph_filesz ph);
          if r <? 0 then mret None else
          exec_load n me ip pgdir (off + sizeof_proghdr) sz
      end
  end.

(** for(argc = 0; argv[argc]; argc++): sp and the addresses of the strings. *)
Fixpoint push_args (argv : list (list Z)) (argc pgdir sp : Z) (args : list Z) : M kst (option (Z * list Z)) :=
  match argv with
  | [] => mret (Some (sp, args))
  | a :: argv =>
      if MAXARG <=? argc then mret None else
      let sp := Z.land (u32 (sp - (Z.of_nat (length a) + 1))) 0xFFFFFFFC in
      r ← copyout pgdir sp (a ++ [0]);
      if r <? 0 then mret None else
      push_args argv (argc + 1) pgdir sp (args ++ [sp])
  end.

(** Commit to the user image. *)
Definition exec_commit (me : nat) (path : list Z) (pgdir sz entry sp : Z) : P Z :=
  upd me (set_p_name (name_of (last_elem path path)));;
  p ← proc_of me;
  let oldpgdir := p_pgdir p in
  upd me (set_p_pgdir pgdir);;
  upd me (set_p_sz sz);;
  kvm (store (p_tf p + tf_eip) entry);;
  kvm (store (p_tf p + tf_esp) sp);;
  switchuvm me;;
  kvm (freevm kend oldpgdir);;
  mret 0.

(** From the allocation of the stack on; the file is closed. *)
Definition exec_stack (me : nat) (path : list Z) (argv : list (list Z)) (pgdir sz entry : Z) : P Z :=
  let sz := PGROUNDUP sz in
  sz ← kvm (allocuvm kend pgdir sz (u32 (sz + 2 * PGSIZE)));
  if sz =? 0 then exec_bad me pgdir None else
  kvm (clearpteu pgdir (u32 (sz - 2 * PGSIZE)));;
  r ← kvm (push_args argv 0 pgdir sz []);
  match r with
  | None => exec_bad me pgdir None
  | Some (sp, args) =>
      let argc := Z.of_nat (length argv) in
      let us := ustack argc sp args in
      let sp := u32 (sp - (3 + argc + 1) * 4) in
      r ← kvm (copyout pgdir sp us);
      if r <? 0 then exec_bad me pgdir None else
      exec_commit me path pgdir sz entry sp
  end.

Definition exec (me : nat) (path : list Z) (argv : list (list Z)) : P Z :=
  onfile me begin_op;;
  ip ← namei_of me path;
  match ip with
  | None => onfile me end_op;; mret (-1)
  | Some ip =>
      onfile me (fsm (ilock ip));;
      r ← readi_of me ip 0 sizeof_elfhdr;
      match r with
      | None => exec_bad me 0 (Some ip)
      | Some elf =>
          if negb (Z.of_nat (length elf) =? sizeof_elfhdr) then exec_bad me 0 (Some ip) else
          if negb (elf_magic elf =? ELF_MAGIC) then exec_bad me 0 (Some ip) else
          pgdir ← kvm (setupkvm kend kdata);
          if pgdir =? 0 then exec_bad me 0 (Some ip) else
          sz ← exec_load (Z.to_nat (elf_phnum elf)) me ip pgdir (elf_phoff elf) 0;
          match sz with
          | None => exec_bad me pgdir (Some ip)
          | Some sz =>
              onfile me (fsm (iunlockput ip));;
              onfile me end_op;;
              exec_stack me path argv pgdir sz (elf_entry elf)
          end
      end
  end.

End exec.

(** ** exec is all or nothing *)

Section atomic.
Context {S : Type} `{BD : BlockDev S} `{TX : Txn S}.
#[local] Notation P := (M (pst (kw S))).
Context (kend kdata : Z).
Context (devsw_read : Z → option (nat → Z → M (fsst S) (option (list Z)))).

(** The operation does not change the process table. *)
Definition same_procs {A} (m : P A) : Prop := ∀ s, safe (λ t, procs t = procs s) m (λ _ t, procs t = procs s) s.

Lemma sp_bind {A B} (m : P A) (k : A → P B) : same_procs m → (∀ a, same_procs (k a)) → same_procs (m ≫= k).
Proof.
  intros Hm Hk s. apply safe_bind. specialize (Hm s). unfold safe in *. destruct (m s) as [a t|c t| |]; try done.
  specialize (Hk a t). unfold safe in Hk. by rewrite Hm in Hk.
Qed.
Lemma sp_ret {A} (a : A) : same_procs (mret a).
Proof. done. Qed.
Lemma sp_gets {A} (g : pst (kw S) → A) : same_procs (gets g).
Proof. done. Qed.
Lemma sp_proc_of i : same_procs (proc_of (W := kw S) i).
Proof. done. Qed.
Lemma sp_undef {A} why : same_procs (undef (A := A) why).
Proof. done. Qed.
Lemma sp_panic {A} msg : same_procs (panic (A := A) msg).
Proof. done. Qed.
Lemma sp_kvm {A} (m : M kst A) : same_procs (kvm m).
Proof. intros s. unfold safe, kvm, zoom. by destruct (m (kmst s)). Qed.
Lemma sp_onfile {A} me (m : M (kst * fw S) A) : same_procs (onfile me m).
Proof. unfold onfile. apply sp_bind; [apply sp_gets|]. intros p s. apply safe_zoom; done. Qed.
Lemma sp_when b (m : P unit) : same_procs m → same_procs (when b m).
Proof. by destruct b. Qed.

Create HintDb sp.
#[local] Hint Resolve sp_ret sp_gets sp_proc_of sp_undef sp_panic sp_kvm sp_onfile : sp.
Ltac sp := repeat first
  [ solve [auto with sp]
  | apply sp_bind; [|intros ?]
  | apply sp_when
  | match goal with |- same_procs (if ?b then _ else _) => destruct b end
  | match goal with |- same_procs (match ?o with _ => _ end) => destruct o end ].

Lemma sp_loaduvm pgdir me ip addr off sz :
  same_procs (loaduvm (λ A (m : M kst A), kvm m) (readi_of devsw_read me ip) pgdir addr off sz).
Proof.
  unfold loaduvm. destruct (negb _); [apply sp_panic|]. generalize 0 as i. generalize (Z.to_nat (sz / PGSIZE + 1)) as n.
  induction n as [|n IH]; intros i; cbn [loaduvm_loop]; unfold readi_of; sp; apply IH.
Qed.

Lemma sp_exec_load n : ∀ me ip pgdir off sz, same_procs (exec_load kend devsw_read n me ip pgdir off sz).
Proof.
  induction n as [|n IH]; intros; cbn [exec_load]; unfold readi_of; sp; first [apply IH | apply sp_loaduvm].
Qed.

Lemma sp_exec_bad me pgdir ip : same_procs (exec_bad kend me pgdir ip).
Proof. unfold exec_bad. sp. Qed.

(** What exec makes of the process. *)
Definition exec_image (path : list Z) (pgdir sz : Z) (p : proc) : proc :=
  set_p_sz sz (set_p_pgdir pgdir (set_p_name (name_of (last_elem path path)) p)).

Lemma alter_alter {A} (f g : A → A) (l : list A) i : alter g i (alter f i l) = alter (λ x, g (f x)) i l.
Proof.
  apply list_eq. intros j. destruct (decide (i = j)) as [<-|].
  - rewrite !list_lookup_alter_eq. by destruct (l !! i).
  - by rewrite !list_lookup_alter_ne.
Qed.

Section run.
Context (me : nat) (path : list Z) (s : pst (kw S)).

Definition committed (t : pst (kw S)) : Prop :=
  ∃ pgdir sz, pgdir ≠ 0 ∧ procs t = alter (exec_image path pgdir sz) me (procs s).
#[local] Notation ok := (safe (λ t : pst (kw S), procs t = procs s ∨ committed t)).
Definition exec_result (r : Z) (t : pst (kw S)) : Prop := r = -1 ∧ procs t = procs s ∨ r = 0 ∧ committed t.

Lemma ok_same {A} (m : P A) (Q : A → pst (kw S) → Prop) t : same_procs m → procs t = procs s →
  (∀ a u, procs u = procs s → Q a u) → ok m Q t.
Proof.
  intros Hm Ht HQ. specialize (Hm t). unfold safe in *. destruct (m t); try done; [apply HQ | left]; congruence.
Qed.

Lemma ok_committed {A} (m : P A) (Q : A → pst (kw S) → Prop) t : same_procs m → committed t →
  (∀ a u, committed u → Q a u) → ok m Q t.
Proof.
  intros Hm (d & z & Hd & Ht) HQ. specialize (Hm t). unfold safe in *.
  destruct (m t); try done; [apply HQ | right]; exists d, z; split; congruence.
Qed.

Lemma ok_exec_bad pgdir ip t : procs t = procs s → ok (exec_bad kend me pgdir ip) exec_result t.
Proof.
  intros Ht. unfold exec_bad. apply safe_bind. eapply ok_same; [sp | done |]. intros _ u Hu. apply safe_bind.
  eapply ok_same; [sp | done |]. intros _ v Hv. apply safe_ret. by left.
Qed.

Lemma sp_switchuvm i : same_procs (switchuvm (W := kw S) i).
Proof.
  assert (∀ f, same_procs (upd_cpu (W := kw S) f)) as Hc by done.
  assert (same_procs (popcli (W := kw S))) as Hp by (unfold popcli; sp).
  unfold switchuvm, pushcli. sp.
Qed.

Lemma ok_exec_commit pgdir sz entry sp t : pgdir ≠ 0 → procs t = procs s →
  ok (exec_commit kend me path pgdir sz entry sp) exec_result t.
Proof.
  intros Hd Ht. unfold exec_commit, upd. safe_steps. apply safe_gets. safe_steps.
  match goal with |- safe _ _ _ ?u => assert (committed u) as Hu end.
  { exists pgdir, sz. split; [done|]. simpl. rewrite !alter_alter, Ht. done. }
  do 2 (eapply ok_committed; [apply sp_kvm | exact Hu |]; clear Hu; intros [] ? Hu; apply safe_bind).
  eapply ok_committed; [apply sp_switchuvm | exact Hu |]. clear Hu. intros [] ? Hu. apply safe_bind.
  eapply ok_committed; [apply sp_kvm | exact Hu |]. intros. apply safe_ret. by right.
Qed.

Lemma ok_exec_stack argv pgdir sz entry t : pgdir ≠ 0 → procs t = procs s →
  ok (exec_stack kend me path argv pgdir sz entry) exec_result t.
Proof.
  intros Hd Ht. unfold exec_stack. apply safe_bind. eapply ok_same; [sp | done |]. intros z t1 H1.
  destruct (z =? 0); [by apply ok_exec_bad|]. apply safe_bind. eapply ok_same; [sp | done |]. intros _ t2 H2.
  apply safe_bind. eapply ok_same; [sp | done |]. intros [[sp args]|] t3 H3; [|by apply ok_exec_bad].
  apply safe_bind. eapply ok_same; [apply sp_kvm | done |]. intros r t4 H4.
  destruct (r <? 0); [by apply ok_exec_bad | by apply ok_exec_commit].
Qed.
End run.

End atomic.
