(* ===== verification/Sysproc.v ===== *)
(** * Sysproc: the process system calls of sysproc.c and proc.c

    Each sys_ function takes the calling process, checks its arguments with
    Syscall.v and calls Proc.v or Xem.v.  [fuel] bounds the number of times
    the call sleeps. *)

From Stdlib Require Import ZArith Lia Bool.
From stdpp Require Import base option list sets gmap strings numbers.
From S2P Require Import Prelude Cstring Kalloc Vm Proc Xem Bio Log Blockdev Fs Pipe File Kworld Syscall.

#[local] Open Scope string_scope.
#[local] Open Scope list_scope.
#[local] Open Scope Z_scope.

Section sysproc.
Context {S : Type} {FO : FileOps (kw S)}.
#[local] Notation P := (M (pst (kw S))).
Context (kend kdata trapret forkret_addr : Z) (swtch : nat → P unit).

Definition updk (f : kw S → kw S) : P unit := modify (λ s, set_files (f (files s)) s).

Definition acquire_ticks : P unit :=
  pushcli;; s ← mget;
  if tickslock (files s) then panic "acquire" else updk (set_tickslock true).
Definition release_ticks : P unit :=
  s ← mget;
  if tickslock (files s) then updk (set_tickslock false);; popcli else panic "release".

Definition sys_fork (me : nat) : P Z := fork kend kdata trapret forkret_addr me.
Definition sys_exit (me : nat) : P Z := exit swtch me;; mret 0.
Definition sys_wait (fuel me : nat) : P Z := wait kend swtch fuel me.

Definition sys_kill (me : nat) : P Z :=
  pid ← argint me 0;
  match pid with None => mret (-1) | Some pid => kill pid end.

Definition sys_getpid (me : nat) : P Z := p ← proc_of me; mret (p_pid p).

Definition sys_sbrk (me : nat) : P Z :=
  n ← argint me 0;
  match n with
  | None => mret (-1)
  | Some n =>
      p ← proc_of me;
      let addr := s32 (p_sz p) in
      r ← growproc kend me n;
      if r <? 0 then mret (-1) else mret addr
  end.

(** while(ticks - ticks0 < n), an unsigned comparison. *)
Fixpoint sys_sleep_loop (fuel me : nat) (ticks0 n : Z) : P Z :=
  s ← mget;
  if u32 (ticks (files s) - ticks0) <? u32 n then
    match fuel with
    | O => undef "out of fuel"
    | Datatypes.S fuel =>
        if negb (p_killed (proc_at s me) =? 0) then release_ticks;; mret (-1) else
        sleep swtch me ChTicks (LkOther release_ticks acquire_ticks);;
        sys_sleep_loop fuel me ticks0 n
    end
  else release_ticks;; mret 0.

Definition sys_sleep (fuel me : nat) : P Z :=
  n ← argint me 0;
  match n with
  | None => mret (-1)
  | Some n =>
      acquire_ticks;;
      s ← mget;
      sys_sleep_loop fuel me (ticks (files s)) n
  end.

Definition sys_uptime : P Z :=
  acquire_ticks;;
  s ← mget;
  let xticks := ticks (files s) in
  release_ticks;;
  mret (s32 xticks).

Definition sys_yield (me : nat) : P Z := yield swtch me;; mret 0.
Definition sys_getlev (me : nat) : P Z := getlev (Some me).

Definition sys_set_cpu_share (me : nat) : P Z :=
  a ← argint me 0;
  match a with None => mret (-1) | Some a => set_cpu_share me a end.

(** The pointers are not checked. *)
Definition sys_thread_create (me : nat) : P Z :=
  thread ← argint me 0;
  match thread with None => mret (-1) | Some thread =>
  start_routine ← argint me 1;
  match start_routine with None => mret (-1) | Some start_routine =>
  arg ← argint me 2;
  match arg with None => mret (-1) | Some arg =>
  thread_create kend trapret forkret_addr me (u32 thread) (u32 start_routine) (u32 arg)
  end end end.

Definition sys_thread_exit (me : nat) : P Z :=
  retval ← argint me 0;
  match retval with None => mret (-1) | Some retval => thread_exit swtch me (u32 retval);; mret 0 end.

Definition sys_thread_join (fuel me : nat) : P Z :=
  thread ← argint me 0;
  match thread with None => mret (-1) | Some thread =>
  retval ← argint me 1;
  match retval with None => mret (-1) | Some retval =>
  thread_join kend swtch fuel me thread (u32 retval)
  end end.

(** argptr of the semaphore or lock, and the operation on it. *)
Definition on_object (me : nat) (size : Z) (op : Z → P Z) : P Z :=
  x ← argptr me 0 size;
  match x with None => mret (-1) | Some x => op x end.

Definition sys_xem_init (me : nat) : P Z := on_object me sizeof_xem (xem_init me).
Definition sys_xem_wait (me : nat) : P Z := on_object me sizeof_xem (xem_wait swtch me).
Definition sys_xem_unlock (me : nat) : P Z := on_object me sizeof_xem (xem_unlock me).
Definition sys_rwlock_init (me : nat) : P Z := on_object me sizeof_rwlock (rwlock_init me).
Definition sys_rwlock_acquire_readlock (me : nat) : P Z :=
  on_object me sizeof_rwlock (rwlock_acquire_readlock swtch me).
Definition sys_rwlock_release_readlock (me : nat) : P Z :=
  on_object me sizeof_rwlock (rwlock_release_readlock swtch me).
Definition sys_rwlock_acquire_writelock (me : nat) : P Z :=
  on_object me sizeof_rwlock (rwlock_acquire_writelock swtch me).
Definition sys_rwlock_release_writelock (me : nat) : P Z :=
  on_object me sizeof_rwlock (rwlock_release_writelock me).

End sysproc.
