(* ===== verification/SysprocSpec.v ===== *)
(** * SysprocSpec: sleep returns when the time has passed

    The clock is a C uint that wraps around.  [ticking] describes the machine
    while a process is off the processor: the clock advances, and the process
    comes back with the locks as it left them. *)

From Stdlib Require Import ZArith Lia Bool.
From stdpp Require Import base option list sets gmap strings numbers.
From S2P Require Import Prelude Cstring Kalloc Vm Proc Xem Bio Log Blockdev Fs Pipe File Kworld Syscall Sysproc.

#[local] Open Scope string_scope.
#[local] Open Scope list_scope.
#[local] Open Scope Z_scope.

Section sleep.
Context {S : Type}.
#[local] Notation P := (M (pst (kw S))).
#[local] Notation st := (pst (kw S)).

(** The clock shows [tk]; the process, not killed, holds tickslock iff [tl]
    and ptable.lock iff [pl], and no other lock. *)
Record clocked (me : nat) (tl pl : bool) (tk : Z) (s : st) : Prop := {
  ck_me : (me < length (procs s))%nat;
  ck_pt : pt_lock s = pl;
  ck_tl : tickslock (files s) = tl;
  ck_ticks : ticks (files s) = tk;
  ck_killed : p_killed (proc_at s me) = 0;
  ck_cli : c_ncli (ucpu s) = (if tl then 1 else 0) + (if pl then 1 else 0);
  ck_if : tl || pl = true → c_if (ucpu s) = false
}.

Context (swtch : nat → P unit).

(** Off the processor: at least one tick passes, and not so many that the
    clock comes round again. *)
Definition ticking (me : nat) : Prop := ∀ tk s, 0 ≤ tk < 2 ^ 32 → clocked me false true tk s → p_state (proc_at s me) = SLEEPING →
  wp (swtch me) (λ _ t, ∃ d, 1 ≤ d ≤ 2 ^ 31 ∧ clocked me false true (u32 (tk + d)) t) s.

Lemma clocked_upd me tl pl tk f (s : st) : (∀ p, p_killed (f p) = p_killed p) → clocked me tl pl tk s →
  clocked me tl pl tk (set_procs (alter f me (procs s)) s).
Proof.
  intros Hf []. split; simpl; try done; [by rewrite length_alter|]. unfold proc_at in *. simpl.
  rewrite list_lookup_alter_eq. destruct (procs s !! me) as [p|] eqn:E; simpl in *; [by rewrite Hf | done].
Qed.

Lemma wp_acquire_ticks me pl tk (Q : unit → st → Prop) s : clocked me false pl tk s →
  (∀ t, clocked me true pl tk t → Q tt t) → wp acquire_ticks Q s.
Proof.
  intros [] HQ. unfold acquire_ticks, pushcli, upd_cpu, updk. wp_steps. simpl. rewrite ck_tl0. wp_steps.
  apply HQ. split; simpl; try done. rewrite ck_cli0. by destruct pl.
Qed.

Lemma wp_popcli (Q : unit → st → Prop) s : c_if (ucpu s) = false → 1 ≤ c_ncli (ucpu s) →
  (∀ t, procs t = procs s → pt_lock t = pt_lock s → files t = files s →
        c_ncli (ucpu t) = c_ncli (ucpu s) - 1 → (c_ncli (ucpu t) ≠ 0 → c_if (ucpu t) = false) → Q tt t) →
  wp popcli Q s.
Proof.
  intros Hif Hc HQ. unfold popcli, upd_cpu. wp_steps. rewrite Hif. wp_steps. simpl.
  destruct (Z.ltb_spec (c_ncli (ucpu s) - 1) 0); [lia|]. wp_steps.
  apply HQ; try done; simpl; destruct (Z.eqb_spec (c_ncli (ucpu s) - 1) 0); simpl; try done; by destruct (c_intena _).
Qed.

Lemma wp_release_ticks me pl tk (Q : unit → st → Prop) s : clocked me true pl tk s →
  (∀ t, clocked me false pl tk t → Q tt t) → wp release_ticks Q s.
Proof.
  intros [] HQ. unfold release_ticks, updk. wp_steps. rewrite ck_tl0. wp_steps.
  apply wp_popcli; simpl; [by apply ck_if0 | rewrite ck_cli0; destruct pl; lia |]. intros t E1 E2 E3 E4 E5. apply HQ.
  split; try done; rewrite ?E1, ?E2, ?E3; simpl; try done.
  - unfold proc_at in *. by rewrite E1.
  - rewrite E4, ck_cli0. destruct pl; lia.
  - intros ->. apply E5. rewrite E4, ck_cli0. lia.
Qed.

Lemma wp_acquire_pt me tl tk (Q : unit → st → Prop) s : clocked me tl false tk s →
  (∀ t, clocked me tl true tk t → Q tt t) → wp acquire_pt Q s.
Proof.
  intros [] HQ. unfold acquire_pt, pushcli, upd_cpu. wp_steps. simpl. rewrite ck_pt0. wp_steps.
  apply HQ. split; simpl; try done. rewrite ck_cli0. by destruct tl.
Qed.

Lemma wp_release_pt me tl tk (Q : unit → st → Prop) s : clocked me tl true tk s →
  (∀ t, clocked me tl false tk t → Q tt t) → wp release_pt Q s.
Proof.
  intros [] HQ. unfold release_pt. wp_steps. rewrite ck_pt0. wp_steps.
  apply wp_popcli; simpl; [by apply ck_if0; rewrite orb_true_r | rewrite ck_cli0; destruct tl; lia |].
  intros t E1 E2 E3 E4 E5. apply HQ.
  split; try done; rewrite ?E1, ?E2, ?E3; simpl; try done.
  - unfold proc_at in *. by rewrite E1.
  - rewrite E4, ck_cli0. destruct tl; lia.
  - intros Htl. apply E5. rewrite E4, ck_cli0. by destruct tl.
Qed.

(** One sleep of sys_sleep. *)
Lemma wp_sleep_tick me tk (Q : unit → st → Prop) s : ticking me → 0 ≤ tk < 2 ^ 32 → clocked me true false tk s →
  (∀ t d, 1 ≤ d ≤ 2 ^ 31 → clocked me true false (u32 (tk + d)) t → Q tt t) →
  wp (sleep swtch me ChTicks (LkOther release_ticks acquire_ticks)) Q s.
Proof.
  intros Hsw Htk Hs HQ. unfold sleep. wp_step. eapply wp_acquire_pt; [done|]. intros t1 H1.
  wp_step. eapply wp_release_ticks; [done|]. intros t2 H2. wp_step. apply wp_modify.
  set (t3 := set_procs _ _). assert (clocked me false true tk t3) as H3 by (by apply clocked_upd).
  assert (p_state (proc_at t3 me) = SLEEPING) as Hst.
  { unfold proc_at. simpl. rewrite list_lookup_alter_eq.
    destruct (lookup_lt_is_Some_2 _ _ (ck_me _ _ _ _ _ H2)) as [p ->]. done. }
  wp_step. unfold sched. pose proof H3 as []. wp_steps. rewrite ck_pt0. cbn [negb]. wp_steps. rewrite ck_cli0.
  change (0 + 1 =? 1) with true. cbn [negb]. wp_step. apply wp_gets. unfold is_state. rewrite bool_decide_eq_false_2 by congruence.
  rewrite ck_if0 by done. wp_step. eapply wp_mono; [by apply (Hsw tk)|]. intros [] t4 (d & Hd & H4). unfold upd_cpu.
  apply wp_modify.
  match goal with |- wp _ _ ?x => assert (clocked me false true (u32 (tk + d)) x) as H5 by (destruct H4; by split) end.
  wp_step. apply wp_modify. wp_step. eapply wp_release_pt; [apply clocked_upd; [done | exact H5]|]. intros t6 H6.
  eapply wp_acquire_ticks; [done|]. intros t7 H7. by eapply HQ.
Qed.

Lemma wp_sleep_loop me ticks0 n : ticking me → 0 ≤ ticks0 < 2 ^ 32 → 0 ≤ n < 2 ^ 31 → ∀ fuel e s, 0 ≤ e < 2 ^ 32 →
  n - e ≤ Z.of_nat fuel → clocked me true false (u32 (ticks0 + e)) s →
  wp (sys_sleep_loop swtch fuel me ticks0 n) (λ r t, r = 0 ∧ ∃ e', n ≤ e' < 2 ^ 32 ∧ e ≤ e' ∧
        clocked me false false (u32 (ticks0 + e')) t) s.
Proof.
  intros Hsw Ht0 Hn. induction fuel as [|fuel IH]; intros e s He Hf Hs; cbn [sys_sleep_loop]; wp_steps;
    rewrite (ck_ticks _ _ _ _ _ Hs); replace (u32 (u32 (ticks0 + e) - ticks0)) with e by (unfold u32; divmod_lia);
    rewrite (u32_id n) by lia; destruct (Z.ltb_spec e n); try lia.
  1, 3: (wp_step; eapply wp_release_ticks; [done|]; intros t Ht; wp_steps; split; [done|]; exists e; split_and!; [lia..|done]).
  rewrite (ck_killed _ _ _ _ _ Hs). cbn [Z.eqb negb]. wp_step.
  eapply wp_sleep_tick; [done | apply u32_range | done |]. intros t d Hd Ht.
  eapply wp_mono; [apply (IH (e + d) t); [lia | lia |]|].
  - replace (u32 (ticks0 + (e + d))) with (u32 (u32 (ticks0 + e) + d)) by (unfold u32; divmod_lia). done.
  - intros r u (-> & e' & He' & Hle & Hu). split; [done|]. exists e'. split_and!; [lia | lia | lia | done].
Qed.

(** sleep(n) with 0 <= n returns: it sleeps at most n times, and when it
    returns 0 at least n ticks have passed, although the clock wraps around,
    and both locks are free again. Called with n = 0 it does not sleep. A
    process that was killed gets -1 at once. *)
Theorem sys_sleep_elapses me n tk (s : st) : 0 ≤ tk < 2 ^ 32 → 0 ≤ n < 2 ^ 31 → argint me 0 s = Ok (Some n) s →
  (ticking me → clocked me false false tk s →
     ∃ t e, sys_sleep swtch (Z.to_nat n) me s = Ok 0 t ∧ n ≤ e < 2 ^ 32 ∧ clocked me false false (u32 (tk + e)) t) ∧
  (∀ fuel, 0 < n → pt_lock s = false → tickslock (files s) = false → 0 ≤ c_ncli (ucpu s) → ticks (files s) = tk →
     p_killed (proc_at s me) ≠ 0 → ∃ t, sys_sleep swtch (Datatypes.S fuel) me s = Ok (-1) t ∧ tickslock (files t) = false).
Proof.
  intros Htk Hn Harg. unfold sys_sleep. split.
  - intros Hsw Hs. rewrite (bind_ok _ _ _ _ _ Harg).
    assert (wp (acquire_ticks;; x ← mget; sys_sleep_loop swtch (Z.to_nat n) me (ticks (files x)) n)
      (λ r t, r = 0 ∧ ∃ e, n ≤ e < 2 ^ 32 ∧ clocked me false false (u32 (tk + e)) t) s) as (t & E & e & He)%wp_exact; [|eauto].
    wp_step. eapply wp_acquire_ticks; [done|]. intros t Ht. wp_steps. rewrite (ck_ticks _ _ _ _ _ Ht).
    eapply wp_mono; [apply (wp_sleep_loop me tk n Hsw Htk Hn (Z.to_nat n) 0 t); [lia | lia |]|].
    + by rewrite Z.add_0_r, u32_id.
    + intros r u (-> & e & He & _ & Hu). eauto.
  - intros fuel Hpos Hpt Htl Hc Htick Hk. rewrite (bind_ok _ _ _ _ _ Harg). apply wp_exact.
    unfold acquire_ticks, pushcli, upd_cpu, updk. wp_steps. simpl. rewrite Htl. wp_steps. simpl.
    rewrite Z.sub_diag, (u32_id n) by lia. change (u32 0) with 0. rewrite (proj2 (Z.ltb_lt 0 n)) by lia.
    change (proc_at _ me) with (proc_at s me). rewrite (proj2 (Z.eqb_neq _ _) Hk). cbn [negb].
    unfold release_ticks, updk. wp_steps. simpl. wp_steps.
    apply wp_popcli; simpl; [done | lia |]. intros t _ _ E _ _. wp_steps. split; [done|]. by rewrite E.
Qed.
End sleep.
