(* ===== verification/Sysfile.v ===== *)
(** * Sysfile: the file system calls of sysfile.c

    The parts of the calls that work on inodes only ([create], [link],
    [unlink]) are operations of the file system; the sys_ functions check the
    arguments with Syscall.v and use the descriptors of the calling process
    and the file layer of File.v.  A user buffer is loaded before a write and
    stored after a read; [fuel] bounds the number of times a call sleeps at a
    pipe, and [rest] is what the machine does meanwhile. *)

From Stdlib Require Import ZArith Lia Bool.
From stdpp Require Import base option list sets gmap strings numbers.
From S2P Require Import Prelude Cstring Kalloc Vm Proc Xem Bio Log Blockdev Fs Pipe File Kworld Syscall Exec.

#[local] Open Scope string_scope.
#[local] Open Scope list_scope.
#[local] Open Scope Z_scope.

(** fcntl.h *)
Definition O_RDONLY : Z := 0.
Definition O_WRONLY : Z := 1.
Definition O_RDWR : Z := 2.
Definition O_CREATE : Z := 0x200.

Definition sizeof_dirent : Z := 16.
Definition dot : list Z := [46].
Definition dotdot : list Z := [46; 46].

(** struct stat of stat.h, as stati fills it in at a user address. *)
Definition sizeof_stat : Z := 20.
Definition store_stat (pgdir a : Z) (st : stat) : M kst unit :=
  vstore pgdir (u32 (a + 4)) (le32 (st_dev st));;
  vstore pgdir (u32 (a + 8)) (le32 (st_ino st));;
  vstore pgdir a (le16 (st_type st));;
  vstore pgdir (u32 (a + 12)) (le16 (st_nlink st));;
  vstore pgdir (u32 (a + 16)) (le32 (st_size st)).

(** ** On inodes *)

Section inodes.
Context {S : Type} `{BD : BlockDev S} `{TX : Txn S}.
Context (devsw_read : Z → option (nat → Z → M (fsst S) (option (list Z)))).
Context (devsw_write : Z → option (nat → list Z → Z → M (fsst S) Z)).
#[local] Notation F := (M (fsst S)).

Definition txb : F unit := blk txn_begin.
Definition txe : F unit := blk txn_end.
Definition node (ip : nat) : F inode := gets (ip_of ip).

(** ip->nlink += d *)
Definition add_nlink (ip : nat) (d : Z) : F unit := set_ip ip (λ x, set_i_nlink (s16 (i_nlink x + d)) x).

(** The label bad of sys_link. *)
Definition link_bad (ip : nat) : F Z :=
  ilock ip;;
  add_nlink ip (-1);;
  iupdate ip;;
  iunlockput ip;;
  txe;;
  mret (-1).

(** sys_link once the two paths are fetched. *)
Definition link (cwd : nat) (old new : list Z) : F Z :=
  txb;;
  r ← namei devsw_read cwd old;
  match r with
  | None => txe;; mret (-1)
  | Some ip =>
      ilock ip;;
      x ← node ip;
      if i_type x =? T_DIR then iunlockput ip;; txe;; mret (-1) else
      add_nlink ip 1;;
      iupdate ip;;
      iunlock ip;;
      r ← nameiparent devsw_read cwd new (replicate 14 0);
      match r with
      | (None, _) => link_bad ip
      | (Some dp, name) =>
          ilock dp;;
          d ← node dp;
          x ← node ip;
          if negb (i_dev d =? i_dev x) then iunlockput dp;; link_bad ip else
          r ← dirlink devsw_read devsw_write dp name (i_inum x);
          if r <? 0 then iunlockput dp;; link_bad ip else
          iunlockput dp;;
          iput ip;;
          txe;;
          mret 0
      end
  end.

(** for(off=2*sizeof(de); off<dp->size; off+=sizeof(de)) *)
Fixpoint isdirempty_loop (fuel : nat) (dp : nat) (off : Z) : F bool :=
  x ← node dp;
  if off <? i_size x then
    match fuel with
    | O => undef "out of fuel"
    | Datatypes.S fuel =>
        r ← readi devsw_read dp off sizeof_dirent;
        match r with
        | Some de =>
            if negb (Z.of_nat (length de) =? sizeof_dirent) then panic "isdirempty: readi" else
            if negb (de_inum de =? 0) then mret false else
            isdirempty_loop fuel dp (off + sizeof_dirent)
        | None => panic "isdirempty: readi"
        end
    end
  else mret true.

Definition isdirempty (dp : nat) : F bool :=
  x ← node dp;
  isdirempty_loop (Z.to_nat (i_size x)) dp (2 * sizeof_dirent).

(** The label bad of sys_unlink. *)
Definition unlink_bad (dp : nat) : F Z := iunlockput dp;; txe;; mret (-1).

(** sys_unlink once the path is fetched. *)
Definition unlink (cwd : nat) (path : list Z) : F Z :=
  txb;;
  r ← nameiparent devsw_read cwd path (replicate 14 0);
  match r with
  | (None, _) => txe;; mret (-1)
  | (Some dp, name) =>
      ilock dp;;
      if (namecmp name dot =? 0) || (namecmp name dotdot =? 0) then unlink_bad dp else
      r ← dirlookup devsw_read dp name;
      match r with
      | None => unlink_bad dp
      | Some (ip, off) =>
          ilock ip;;
          x ← node ip;
          if i_nlink x <? 1 then panic "unlink: nlink < 1" else
          empty ← (if i_type x =? T_DIR then isdirempty ip else mret true);
          if negb empty then iunlockput ip;; unlink_bad dp else
          r ← writei devsw_write dp (replicate 16 0) off sizeof_dirent;
          if negb (r =? sizeof_dirent) then panic "unlink: writei" else
          x ← node ip;
          when (i_type x =? T_DIR) (add_nlink dp (-1);; iupdate dp);;
          iunlockput dp;;
          add_nlink ip (-1);;
          iupdate ip;;
          iunlockput ip;;
          txe;;
          mret 0
      end
  end.

(** create; the inode is locked, and [None] is 0. *)
Definition create (cwd : nat) (path : list Z) (type major minor : Z) : F (option nat) :=
  r ← nameiparent devsw_read cwd path (replicate 14 0);
  match r with
  | (None, _) => mret None
  | (Some dp, name) =>
      ilock dp;;
      r ← dirlookup devsw_read dp name;
      match r with
      | Some (ip, _) =>
          iunlockput dp;;
          ilock ip;;
          x ← node ip;
          if (type =? T_FILE) && (i_type x =? T_FILE) then mret (Some ip) else
          iunlockput ip;;
          mret None
      | None =>
          d ← node dp;
          ip ← ialloc (i_dev d) type;
          ilock ip;;
          set_ip ip (λ x, set_i_nlink 1 (set_i_dev (s16 major) (s16 minor) x));;
          iupdate ip;;
          x ← node ip;
          when (type =? T_DIR)
            (add_nlink dp 1;;
             iupdate dp;;
             r ← dirlink devsw_read devsw_write ip dot (i_inum x);
             if r <? 0 then panic "create dots" else
             r ← dirlink devsw_read devsw_write ip dotdot (i_inum d);
             if r <? 0 then panic "create dots" else mret tt);;
          r ← dirlink devsw_read devsw_write dp name (i_inum x);
          if r <? 0 then panic "create: dirlink" else
          iunlockput dp;;
          mret (Some ip)
      end
  end.

End inodes.

(** ** The calls *)

Section sysfile.
Context {S : Type} `{BD : BlockDev S} `{TX : Txn S}.
Context (kend kdata : Z).
Context (devsw_read : Z → option (nat → Z → M (fsst S) (option (list Z)))).
Context (devsw_write : Z → option (nat → list Z → Z → M (fsst S) Z)).
#[local] Notation P := (M (pst (kw S))).

(** The descriptor and its file. *)
Definition argfd (me : nat) (n : Z) : P (option (nat * nat)) :=
  fd ← argint me n;
  match fd with
  | None => mret None
  | Some fd =>
      if (fd <? 0) || (Z.of_nat NOFILE <=? fd) then mret None else
      p ← proc_of me;
      match p_ofile p !! Z.to_nat fd with
      | Some (Some f) => mret (Some (Z.to_nat fd, f))
      | _ => mret None
      end
  end.

(** for(fd = 0; fd < NOFILE; fd++) if(curproc->ofile[fd] == 0) *)
Fixpoint free_fd (l : list (option nat)) (fd : nat) : option nat :=
  match l with
  | [] => None
  | None :: _ => Some fd
  | Some _ :: l => free_fd l (Datatypes.S fd)
  end.

Definition set_fd (me fd : nat) (f : option nat) : P unit :=
  upd me (λ p, set_p_ofile (<[fd := f]> (p_ofile p)) p).

(** [None] is -1. *)
Definition fdalloc (me f : nat) : P (option nat) :=
  p ← proc_of me;
  match free_fd (p_ofile p) 0 with
  | Some fd => set_fd me fd (Some f);; mret (Some fd)
  | None => mret None
  end.

Definition sys_dup (me : nat) : P Z :=
  a ← argfd me 0;
  match a with
  | None => mret (-1)
  | Some (_, f) =>
      fd ← fdalloc me f;
      match fd with
      | None => mret (-1)
      | Some fd => onfile me (File.filedup f);; mret (Z.of_nat fd)
      end
  end.

(** argfd(0), argint(2) and argptr(1, n): the file, the buffer and its size. *)
Definition arg_buffer (me : nat) : P (option (nat * Z * Z)) :=
  a ← argfd me 0;
  match a with None => mret None | Some (_, f) =>
  n ← argint me 2;
  match n with None => mret None | Some n =>
  p ← argptr me 1 n;
  match p with None => mret None | Some p => mret (Some (f, p, n)) end end end.

(** The same with argint(3) before argptr: the offset. *)
Definition arg_buffer_off (me : nat) : P (option (nat * Z * Z * Z)) :=
  a ← argfd me 0;
  match a with None => mret None | Some (_, f) =>
  n ← argint me 2;
  match n with None => mret None | Some n =>
  off ← argint me 3;
  match off with None => mret None | Some off =>
  p ← argptr me 1 n;
  match p with None => mret None | Some p => mret (Some (f, p, n, off)) end end end end.

(** The bytes a read returns go to the user's buffer. *)
Definition store_bytes (me : nat) (p : Z) (r : option (list Z)) : P Z :=
  match r with
  | None => mret (-1)
  | Some bs => c ← proc_of me; kvm (vstore (p_pgdir c) p bs);; mret (Z.of_nat (length bs))
  end.

Context (rest : chan → M (kst * fw S) unit).

Definition sys_read (fuel me : nat) : P Z :=
  a ← arg_buffer me;
  match a with
  | None => mret (-1)
  | Some (f, p, n) => r ← onfile me (fileread devsw_read rest fuel f n); store_bytes me p r
  end.

Definition sys_write (fuel me : nat) : P Z :=
  a ← arg_buffer me;
  match a with
  | None => mret (-1)
  | Some (f, p, n) =>
      c ← proc_of me;
      src ← kvm (vload (p_pgdir c) p (Z.to_nat n));
      onfile me (filewrite devsw_write rest fuel f src n)
  end.

Definition sys_close (me : nat) : P Z :=
  a ← argfd me 0;
  match a with
  | None => mret (-1)
  | Some (fd, f) =>
      set_fd me fd None;;
      onfile me (File.fileclose kend f);;
      mret 0
  end.

Definition sys_fstat (me : nat) : P Z :=
  a ← argfd me 0;
  match a with
  | None => mret (-1)
  | Some (_, f) =>
      st ← argptr me 1 sizeof_stat;
      match st with
      | None => mret (-1)
      | Some st =>
          r ← onfile me (filestat f);
          match r with
          | None => mret (-1)
          | Some x => c ← proc_of me; kvm (store_stat (p_pgdir c) st x);; mret 0
          end
      end
  end.

Definition sys_link (me : nat) : P Z :=
  old ← argstr me 0;
  match old with None => mret (-1) | Some old =>
  new ← argstr me 1;
  match new with None => mret (-1) | Some new =>
  c ← cwd_of me old;
  onfile me (fsm (link devsw_read devsw_write c old new)) end end.

Definition sys_unlink (me : nat) : P Z :=
  path ← argstr me 0;
  match path with None => mret (-1) | Some path =>
  c ← cwd_of me path;
  onfile me (fsm (unlink devsw_read devsw_write c path)) end.

Definition create_of (me : nat) (path : list Z) (type major minor : Z) : P (option nat) :=
  c ← cwd_of me path;
  onfile me (fsm (create devsw_read devsw_write c path type major minor)).

(** end_op(); return -1; *)
Definition end_fail (me : nat) : P Z := onfile me end_op;; mret (-1).

(** The inode sys_open opens, locked; [None] where it returns -1. *)
Definition open_inode (me : nat) (path : list Z) (omode : Z) : P (option nat) :=
  if negb (Z.land omode O_CREATE =? 0) then create_of me path T_FILE 0 0
  else
    r ← namei_of devsw_read me path;
    match r with
    | None => mret None
    | Some ip =>
        onfile me (fsm (ilock ip));;
        x ← onfile me (fsm (gets (ip_of ip)));
        if (i_type x =? T_DIR) && negb (omode =? O_RDONLY) then
          onfile me (fsm (iunlockput ip));; mret None
        else mret (Some ip)
    end.

Definition sys_open (me : nat) : P Z :=
  path ← argstr me 0;
  match path with None => mret (-1) | Some path =>
  omode ← argint me 1;
  match omode with None => mret (-1) | Some omode =>
  onfile me begin_op;;
  r ← open_inode me path omode;
  match r with
  | None => end_fail me
  | Some ip =>
      f ← onfile me filealloc;
      match f with
      | None => onfile me (fsm (iunlockput ip));; end_fail me
      | Some f =>
          fd ← fdalloc me f;
          match fd with
          | None => onfile me (File.fileclose kend f);; onfile me (fsm (iunlockput ip));; end_fail me
          | Some fd =>
              onfile me (fsm (iunlock ip));;
              onfile me end_op;;
              onfile me (set_file f (λ x,
                set_f_writable (negb (Z.land omode O_WRONLY =? 0) || negb (Z.land omode O_RDWR =? 0))
                  (set_f_readable (Z.land omode O_WRONLY =? 0)
                    (set_f_off 0 (set_f_ip ip (set_f_type FD_INODE x))))));;
              mret (Z.of_nat fd)
          end
      end
  end end end.

(** iunlockput(ip); end_op(); return 0; *)
Definition put_done (me ip : nat) : P Z :=
  onfile me (fsm (iunlockput ip));; onfile me end_op;; mret 0.

Definition sys_mkdir (me : nat) : P Z :=
  onfile me begin_op;;
  path ← argstr me 0;
  match path with None => end_fail me | Some path =>
  r ← create_of me path T_DIR 0 0;
  match r with None => end_fail me | Some ip => put_done me ip end end.

Definition sys_mknod (me : nat) : P Z :=
  onfile me begin_op;;
  path ← argstr me 0;
  match path with None => end_fail me | Some path =>
  major ← argint me 1;
  match major with None => end_fail me | Some major =>
  minor ← argint me 2;
  match minor with None => end_fail me | Some minor =>
  r ← create_of me path T_DEV major minor;
  match r with None => end_fail me | Some ip => put_done me ip end end end end.

Definition sys_chdir (me : nat) : P Z :=
  onfile me begin_op;;
  path ← argstr me 0;
  match path with None => end_fail me | Some path =>
  r ← namei_of devsw_read me path;
  match r with None => end_fail me | Some ip =>
  onfile me (fsm (ilock ip));;
  x ← onfile me (fsm (gets (ip_of ip)));
  if negb (i_type x =? T_DIR) then onfile me (fsm (iunlockput ip));; end_fail me else
  onfile me (fsm (iunlock ip));;
  p ← proc_of me;
  match p_cwd p with
  | None => undef "null pointer"
  | Some c =>
      onfile me (fsm (Fs.iput c));;
      onfile me end_op;;
      upd me (set_p_cwd (Some ip));;
      mret 0
  end end end.

(** for(i=0;; i++), with [n] entries of argv to go. *)
Fixpoint fetch_argv (n : nat) (me : nat) (uargv : Z) (argv : list (list Z)) : P (option (list (list Z))) :=
  match n with
  | O => mret None
  | Datatypes.S n =>
      uarg ← fetchint me uargv;
      match uarg with None => mret None | Some uarg =>
      if uarg =? 0 then mret (Some argv) else
      a ← fetchstr me (u32 uarg);
      match a with None => mret None | Some a => fetch_argv n me (u32 (uargv + 4)) (argv ++ [a]) end end
  end.

Definition sys_exec (me : nat) : P Z :=
  path ← argstr me 0;
  match path with None => mret (-1) | Some path =>
  uargv ← argint me 1;
  match uargv with None => mret (-1) | Some uargv =>
  argv ← fetch_argv (Z.to_nat MAXARG) me (u32 uargv) [];
  match argv with None => mret (-1) | Some argv => exec kend kdata devsw_read me path argv end end end.

Definition sys_pipe (me : nat) : P Z :=
  fd ← argptr me 0 8;
  match fd with None => mret (-1) | Some fd =>
  r ← onfile me (pipealloc kend);
  match r with None => mret (-1) | Some (rf, wf) =>
  let bad := onfile me (File.fileclose kend rf);; onfile me (File.fileclose kend wf);; mret (-1) in
  a ← fdalloc me rf;
  match a with None => bad | Some fd0 =>
  b ← fdalloc me wf;
  match b with None => set_fd me fd0 None;; bad | Some fd1 =>
  c ← proc_of me;
  kvm (vstore32 (p_pgdir c) fd (Z.of_nat fd0));;
  kvm (vstore32 (p_pgdir c) (u32 (fd + 4)) (Z.of_nat fd1));;
  mret 0
  end end end end.

Definition sys_pread (fuel me : nat) : P Z :=
  a ← arg_buffer_off me;
  match a with
  | None => mret (-1)
  | Some (f, p, n, off) => r ← onfile me (pread devsw_read rest fuel f n off); store_bytes me p r
  end.

Definition sys_pwrite (fuel me : nat) : P Z :=
  a ← arg_buffer_off me;
  match a with
  | None => mret (-1)
  | Some (f, p, n, off) =>
      c ← proc_of me;
      src ← kvm (vload (p_pgdir c) p (Z.to_nat n));
      onfile me (pwrite devsw_write rest fuel f src n off)
  end.

End sysfile.
