(* ===== verification/SysfileSpec.v ===== *)
(** * SysfileSpec: descriptors and file references

    Every system call that makes or drops a descriptor keeps the count in the
    file table equal to the number of descriptors of all processes, also when
    it fails half way, and at every point where it sleeps. *)

From Stdlib Require Import ZArith Lia Bool.
From stdpp Require Import base option list sets gmap strings numbers.
From S2P Require Import Prelude Cstring Kalloc Vm Proc Xem Bio Log Blockdev Fs Pipe File FileSpec Kworld Syscall Exec Sysfile.

#[local] Open Scope string_scope.
#[local] Open Scope list_scope.
#[local] Open Scope Z_scope.

(** The elements of a list are small, by assumption. *)
Ltac all_lt := repeat (apply list.Forall_cons_2; [assumption|]); first [assumption | apply list.Forall_nil_2].

(** The files of one process, and those of a process table. *)
Definition fds_of (p : proc) : list nat := omap id (p_ofile p).
Definition all_fds (ps : list proc) : list nat := ps ≫= fds_of.

Lemma omap_insert_none {A} (l : list (option A)) i x : l !! i = Some None →
  omap id (<[i := Some x]> l) ≡ₚ x :: omap id l.
Proof.
  revert i. induction l as [|a l IH]; intros [|i] Hi; simpl in *; simplify_eq; [done|].
  specialize (IH i Hi). destruct a; simpl; [|done]. rewrite IH. by rewrite Permutation_swap.
Qed.

Lemma omap_insert_some {A} (l : list (option A)) i x : l !! i = Some (Some x) →
  omap id l ≡ₚ x :: omap id (<[i := None]> l).
Proof.
  revert i. induction l as [|a l IH]; intros [|i] Hi; simpl in *; simplify_eq; [done|].
  specialize (IH i Hi). destruct a; simpl; [|done]. rewrite IH. by rewrite Permutation_swap.
Qed.

Lemma all_fds_alter ps i p f : ps !! i = Some p → ∃ rest, all_fds ps ≡ₚ fds_of p ++ rest ∧
  all_fds (alter f i ps) ≡ₚ fds_of (f p) ++ rest.
Proof.
  revert i. induction ps as [|q ps IH]; intros [|i] Hi; simplify_eq/=; [by exists (all_fds ps)|].
  destruct (IH i Hi) as (rest & H1 & H2). unfold all_fds in *. simpl. exists (fds_of q ++ rest).
  rewrite H1, H2. split; rewrite !app_assoc, (Permutation_app_comm (fds_of q)); done.
Qed.

Lemma free_fd_spec l k : match free_fd l k with
  | Some i => ∃ j, i = (k + j)%nat ∧ l !! j = Some None ∧ ∀ x, (x < j)%nat → ∃ f, l !! x = Some (Some f)
  | None => True
  end.
Proof.
  revert k. induction l as [|[f|] l IH]; intros k; simpl; [done | |].
  - specialize (IH (S k)). destruct (free_fd l (S k)) as [i|]; [|done]. destruct IH as (j & -> & Hj & Hx).
    exists (S j). split_and!; [lia | done |]. intros [|x] Hlt; [by exists f | apply Hx; lia].
  - exists 0%nat. split_and!; [lia | done | lia].
Qed.

Section refs.
Context {S : Type} `{BD : BlockDev S} `{TX : Txn S}.
#[local] Notation P := (M (pst (kw S))).
Context (kend : Z).
Context (devsw_read : Z → option (nat → Z → M (fsst S) (option (list Z)))).
Context (devsw_write : Z → option (nat → list Z → Z → M (fsst S) Z)).

(** The files are referenced by the descriptors, and by the [e] besides. *)
Definition counted (e : list nat) (s : pst (kw S)) : Prop :=
  Forall (λ i, i < NFILE)%nat (e ++ all_fds (procs s)) ∧
  refs_ok (e ++ all_fds (procs s)) (kmst s, kfw (files s)).

(** What holds at the points where a call sleeps. *)
Definition fds_ok (s : pst (kw S)) : Prop := ∃ e, counted e s.

#[local] Notation ok := (safe fds_ok).

Lemma refs_perm h h' (t : kst * fw S) : h ≡ₚ h' → refs_ok h t → refs_ok h' t.
Proof. intros E (H1 & H2 & H3). split_and!; [done | done |]. intros i Hi. rewrite (held_perm _ h i); [by apply H3 | done]. Qed.

Lemma refs_same h (t u : kst * fw S) : ftab (snd u) = ftab (snd t) → ft_lock (snd u) = ft_lock (snd t) →
  refs_ok h t → refs_ok h u.
Proof. intros E1 E2 (H1 & H2 & H3). unfold refs_ok, file_at in *. rewrite E1, E2. done. Qed.

Lemma counted_perm e e' (s : pst (kw S)) : e ++ all_fds (procs s) ≡ₚ e' ++ all_fds (procs s) → counted e s → counted e' s.
Proof. intros E [H1 H2]. split; [by rewrite <- E | by eapply refs_perm]. Qed.

(** The same descriptors and files. *)
Definition same (s t : pst (kw S)) : Prop := procs t = procs s ∧ kfw (files t) = kfw (files s).

Lemma counted_same e s t : same s t → counted e s → counted e t.
Proof. intros [E1 E2] [H1 H2]. unfold counted. rewrite E1, E2. split; [done|]. by eapply refs_same, H2. Qed.

(** An operation that changes neither. *)
Definition quiet {A} (m : P A) : Prop := ∀ s, safe (same s) m (λ _, same s) s.

Lemma quiet_bind {A B} (m : P A) (k : A → P B) : quiet m → (∀ a, quiet (k a)) → quiet (m ≫= k).
Proof.
  intros Hm Hk s. apply safe_bind. specialize (Hm s). unfold safe in *. destruct (m s) as [a t|c t| |]; try done.
  destruct Hm as [E1 E2]. specialize (Hk a t). unfold safe, same in *. rewrite E1, E2 in Hk. exact Hk.
Qed.
Lemma quiet_ret {A} (a : A) : quiet (mret a).
Proof. done. Qed.
Lemma quiet_gets {A} (g : pst (kw S) → A) : quiet (gets g).
Proof. done. Qed.
Lemma quiet_undef {A} why : quiet (undef (A := A) why).
Proof. done. Qed.
Lemma quiet_kvm {A} (m : M kst A) : quiet (kvm m).
Proof. intros s. unfold safe, kvm, zoom. by destruct (m (kmst s)). Qed.

Lemma ok_quiet e {A} (m : P A) (Q : A → pst (kw S) → Prop) s : quiet m → counted e s →
  (∀ a t, counted e t → procs t = procs s → Q a t) → ok m Q s.
Proof.
  intros Hm Hs HQ. specialize (Hm s). unfold safe in *. destruct (m s) as [a t|c t| |]; try done.
  - apply HQ; [by eapply counted_same | apply Hm].
  - exists e. by eapply counted_same.
Qed.

Lemma quiet_argint me n : quiet (argint me n).
Proof.
  unfold argint, tf_word, fetchint. repeat (apply quiet_bind; [first [apply quiet_kvm | apply quiet_gets |
    apply quiet_bind; [apply quiet_gets | intros; apply quiet_kvm]] | intros]). destruct (_ || _); [done|].
  apply quiet_bind; [apply quiet_kvm | done].
Qed.
Lemma quiet_argptr me n size : quiet (argptr me n size).
Proof.
  unfold argptr. apply quiet_bind; [apply quiet_argint|]. intros [i|]; [|done]. apply quiet_bind; [apply quiet_gets|].
  intros p. by destruct (_ || _).
Qed.
Lemma quiet_argstr me n : quiet (argstr me n).
Proof.
  unfold argstr, fetchstr. apply quiet_bind; [apply quiet_argint|]. intros [i|]; [|done].
  apply quiet_bind; [apply quiet_gets|]. intros p. destruct (_ <=? _); [done | apply quiet_kvm].
Qed.
Lemma quiet_cwd me path : quiet (cwd_of me path).
Proof. unfold cwd_of. apply quiet_bind; [apply quiet_gets|]. intros p. by repeat case_match. Qed.

Lemma ok_argfd e me n (Q : option (nat * nat) → pst (kw S) → Prop) s : counted e s →
  (∀ t, counted e t → procs t = procs s → Q None t) →
  (∀ t fd f, counted e t → procs t = procs s → p_ofile (proc_at t me) !! fd = Some (Some f) → Q (Some (fd, f)) t) →
  ok (argfd me n) Q s.
Proof.
  intros Hs H0 H1. unfold argfd. apply safe_bind. eapply ok_quiet; [apply quiet_argint | done |].
  intros [fd|] t Ht Hp; [|by apply H0]. destruct (_ || _); [by apply H0|]. apply safe_bind, safe_gets.
  destruct (p_ofile (proc_at t me) !! Z.to_nat fd) as [[f|]|] eqn:E; [by apply H1 | by apply H0 | by apply H0].
Qed.

(** A call of the file layer. *)
Lemma ok_onfile h {A} me (m : M (kst * fw S) A) (Q : A → pst (kw S) → Prop) s :
  refs_ok h (kmst s, kfw (files s)) →
  (∀ t, refs_ok h t →
     safe (λ u, ∃ e, Forall (λ i, i < NFILE)%nat (e ++ all_fds (procs s)) ∧ refs_ok (e ++ all_fds (procs s)) u) m
       (λ a u, ∀ v, procs v = procs s → (kmst v, kfw (files v)) = u → Q a v) t) →
  ok (onfile me m) Q s.
Proof.
  intros Hr Hm. unfold onfile. apply safe_bind, safe_gets.
  set (t := (kmst s, as_caller (proc_at s me) (kfw (files s)))).
  set (back u := set_files (set_kfw (snd u) (files s)) (set_kmst (fst u) s)).
  assert (fsys (infw (updw (as_caller (proc_at s me));; m)) s =
    match m t with Ok a u => Ok a (back u) | Sleep c u => Sleep c (back u) | Panic x => Panic x | Undef x => Undef x end)
    as E by (unfold fsys, infw, zoom, updw, modify, mbind, M_bind, t, back; simpl; by destruct (m _)).
  unfold safe at 1. rewrite E. specialize (Hm t ltac:(by eapply refs_same, Hr)). unfold safe in Hm.
  destruct (m t) as [a u|c u| |]; [| |done|done].
  - apply Hm; [done | by destruct u].
  - destruct Hm as (e & He & Hu). exists e. split; simpl; [done | by destruct u].
Qed.

Lemma ok_onfile_keep e {A} me (m : M (kst * fw S) A) (Q : A → pst (kw S) → Prop) s : counted e s → keeps_files m →
  (∀ a t, counted e t → procs t = procs s → Q a t) → ok (onfile me m) Q s.
Proof.
  intros Hs Hm HQ. pose proof Hs as [Hf Hr]. apply (ok_onfile _ _ _ _ _ Hr). intros t Ht. specialize (Hm t). unfold safe in *. destruct (m t) as [a u|c u| |]; try done.
  - destruct Hm as [E1 E2]. intros v Ev Eu. apply HQ; [|done]. unfold counted. rewrite Ev, Eu. split; [done|].
    by eapply refs_same, Ht.
  - destruct Hm as [E1 E2]. exists e. split; [done|]. by eapply refs_same, Ht.
Qed.

(** ** The descriptors *)

Lemma set_fd_some me fd f (s : pst (kw S)) : (me < length (procs s))%nat → p_ofile (proc_at s me) !! fd = Some None →
  all_fds (alter (λ p, set_p_ofile (<[fd := Some f]> (p_ofile p)) p) me (procs s)) ≡ₚ f :: all_fds (procs s).
Proof.
  intros Hme Hfd. destruct (lookup_lt_is_Some_2 _ _ Hme) as [p Hp].
  destruct (all_fds_alter (procs s) me p (λ p, set_p_ofile (<[fd := Some f]> (p_ofile p)) p) Hp) as (r & -> & ->).
  unfold proc_at in Hfd. rewrite Hp in Hfd. simpl in Hfd. unfold fds_of. simpl. by rewrite omap_insert_none.
Qed.

Lemma set_fd_none me fd f (s : pst (kw S)) : p_ofile (proc_at s me) !! fd = Some (Some f) →
  (me < length (procs s))%nat ∧
  all_fds (procs s) ≡ₚ f :: all_fds (alter (λ p, set_p_ofile (<[fd := None]> (p_ofile p)) p) me (procs s)).
Proof.
  intros Hfd. unfold proc_at in Hfd. destruct (procs s !! me) as [p|] eqn:Hp; cbn [default] in Hfd.
  2: { change (replicate NOFILE None !! fd = Some (Some f)) in Hfd. by apply lookup_replicate in Hfd as [? _]. }
  simpl in Hfd.
  split; [by eapply lookup_lt_Some|].
  destruct (all_fds_alter (procs s) me p (λ p, set_p_ofile (<[fd := None]> (p_ofile p)) p) Hp) as (r & -> & ->).
  unfold fds_of. simpl. by rewrite (omap_insert_some _ fd f).
Qed.

(** fdalloc makes the reference [f] that is held besides a descriptor. *)
Lemma ok_fdalloc e me f (Q : option nat → pst (kw S) → Prop) s : (me < length (procs s))%nat → counted (f :: e) s →
  Q None s →
  (∀ fd t, counted e t → length (procs t) = length (procs s) → p_ofile (proc_at t me) !! fd = Some (Some f) → Q (Some fd) t) →
  ok (fdalloc me f) Q s.
Proof.
  intros Hme [Hf Hr] H0 H1. unfold fdalloc. apply safe_bind, safe_gets.
  pose proof (free_fd_spec (p_ofile (proc_at s me)) 0) as Hs. destruct (free_fd _ 0) as [fd|]; [|done].
  destruct Hs as (j & -> & Hj & _). simpl. apply safe_bind, safe_modify, safe_ret. apply H1.
  - pose proof (set_fd_some me j f s Hme Hj) as E. split; simpl in *.
    + rewrite E. by rewrite <- Permutation_middle.
    + eapply refs_perm, Hr. simpl. rewrite E. by rewrite <- Permutation_middle.
  - simpl. by rewrite length_alter.
  - unfold proc_at. simpl. rewrite list_lookup_alter_eq. destruct (lookup_lt_is_Some_2 _ _ Hme) as [p Hp].
    rewrite Hp. simpl. unfold proc_at in Hj. rewrite Hp in Hj. simpl in Hj.
    apply list_lookup_insert_eq. by eapply lookup_lt_Some.
Qed.

Lemma ok_fileclose e me f (Q : unit → pst (kw S) → Prop) s : counted (f :: e) s →
  (∀ t, counted e t → procs t = procs s → Q tt t) → ok (onfile me (fileclose kend f)) Q s.
Proof.
  intros [Hf Hr] HQ. apply (ok_onfile _ _ _ _ _ Hr). intros t Ht. simpl in *.
  apply list.Forall_cons in Hf as [Hi Hf].
  destruct (fileclose_refs kend (e ++ all_fds (procs s)) f t Ht Hi) as [H _]. unfold safe in *.
  destruct (fileclose kend f t) as [[] u|c u| |]; try done; [|by exists e].
  intros v Ev Eu. apply HQ; [|done]. unfold counted. rewrite Ev, Eu. by split; [|apply H].
Qed.

Lemma ok_filealloc e me (Q : option nat → pst (kw S) → Prop) s : counted e s →
  (∀ t, counted e t → procs t = procs s → Q None t) →
  (∀ f t, counted (f :: e) t → procs t = procs s → Q (Some f) t) → ok (onfile me filealloc) Q s.
Proof.
  intros [Hf Hr] H0 H1. apply (ok_onfile _ _ _ _ _ Hr). intros t Ht.
  destruct (filealloc_refs _ t Ht) as (r & t' & E & Hr'). unfold safe. rewrite E. intros v Ev Eu.
  destruct r as [i|].
  - destruct Hr' as (Hi & _ & Hr'). apply H1; [|done]. split; rewrite Ev, ?Eu; [all_lt | done].
  - destruct Hr' as [-> _]. apply H0; [|done]. split; rewrite Ev, ?Eu; done.
Qed.

Lemma ok_sys_dup me s : (me < length (procs s))%nat → counted [] s → ok (sys_dup me) (λ _, counted []) s.
Proof.
  intros Hme Hs. unfold sys_dup. apply safe_bind. eapply ok_argfd; [done | done |].
  intros t fd f Ht Hp Hfd. apply safe_bind. unfold fdalloc. apply safe_bind, safe_gets.
  pose proof (free_fd_spec (p_ofile (proc_at t me)) 0) as Hfree. destruct (free_fd _ 0) as [fd'|]; [|done].
  destruct Hfree as (j & -> & Hj & _). simpl. apply safe_bind, safe_modify, safe_ret. destruct Ht as [Hf Hr].
  pose proof (set_fd_some me j f t ltac:(by rewrite Hp) Hj) as E. destruct (set_fd_none me fd f t Hfd) as [_ E0].
  assert (f ∈ all_fds (procs t)) as Hin by (rewrite E0; left).
  assert (f < NFILE)%nat as Hlt by (by eapply list.Forall_forall in Hf).
  apply safe_bind. apply (ok_onfile (all_fds (procs t))); [done|]. intros u Hu.
  destruct (filedup_refs _ f u Hu Hlt) as [H _]. destruct (H Hin) as (u' & Eu & Hu'). unfold safe. rewrite Eu.
  intros v Ev Eu'. apply safe_ret. unfold counted. rewrite Ev, Eu'. simpl in *. split; [rewrite E; all_lt|].
  by eapply refs_perm, Hu'.
Qed.

Lemma ok_sys_close me s : counted [] s → ok (sys_close kend me) (λ _, counted []) s.
Proof.
  intros Hs. unfold sys_close. apply safe_bind. eapply ok_argfd; [done | done |]. intros t fd f Ht Hp Hfd.
  apply safe_bind, safe_modify. destruct (set_fd_none me fd f t Hfd) as [Hme E]. destruct Ht as [Hf Hr]. simpl in *.
  apply safe_bind. eapply (ok_fileclose [] me f); [|intros; by apply safe_ret].
  split; simpl; [by rewrite <- E | by eapply refs_perm, Hr].
Qed.

(** ** pipe and open *)

(** pipealloc: two references more, or none. *)
Definition refs_more (h : list nat) (u : kst * fw S) : Prop :=
  ∃ e, Forall (λ i, i < NFILE)%nat e ∧ refs_ok (e ++ h) u.

Lemma close_more h i (Q : unit → kst * fw S → Prop) t : (i < NFILE)%nat → refs_ok (i :: h) t → (∀ u, refs_ok h u → Q tt u) →
  ∀ h0, (∃ e, Forall (λ i, i < NFILE)%nat e ∧ h = e ++ h0) → safe (refs_more h0) (fileclose kend i) Q t.
Proof.
  intros Hi Ht HQ h0 (e & He & ->). destruct (fileclose_refs kend _ i t Ht Hi) as [H _]. unfold safe in *.
  destruct (fileclose kend i t) as [[] u|c u| |]; try done; [apply HQ, H | by exists e].
Qed.

Lemma wp_alloc h (Q : option nat → kst * fw S → Prop) t : refs_ok h t → (refs_ok h t → Q None t) →
  (∀ i u, (i < NFILE)%nat → refs_ok (i :: h) u → Q (Some i) u) → ∀ I, safe I filealloc Q t.
Proof.
  intros Ht H0 H1 I. destruct (filealloc_refs h t Ht) as (r & u & E & Hr). unfold safe. rewrite E.
  destruct r as [i|]; [apply H1; by destruct Hr as (? & ? & ?) | destruct Hr as [-> _]; by apply H0].
Qed.

Lemma refs_set_file h i g (t : kst * fw S) : (i < NFILE)%nat → (∀ f, f_ref (g f) = f_ref f) → refs_ok h t →
  refs_ok h (fst t, set_ftab (alter g i (ftab (snd t))) (snd t)).
Proof. intros Hi Hg Ht. apply (refs_step h h i); try done. rewrite Hg. by apply Ht. Qed.

Lemma pipealloc_refs h t : refs_ok h t → safe (refs_more h) (pipealloc kend)
  (λ r u, match r with Some (i0, i1) => (i0 < NFILE)%nat ∧ (i1 < NFILE)%nat ∧ refs_ok (i0 :: i1 :: h) u | None => refs_ok h u end) t.
Proof.
  intros Ht. unfold pipealloc. apply safe_bind. eapply wp_alloc; [done | by intros; safe_steps |]. intros i0 t0 Hi0 H0.
  apply safe_bind. eapply wp_alloc; [done | |].
  { intros _. unfold pipealloc_bad. apply safe_bind. eapply close_more; [done | done | | by exists []].
    intros u Hu. by safe_steps. }
  intros i1 t1 Hi1 H1. apply safe_bind.
  assert (refs_ok (i0 :: i1 :: h) t1) as H1' by (eapply refs_perm, H1; apply Permutation_swap).
  pose proof (keeps_kal (S := S) kalloc t1) as Hk. unfold safe at 1. unfold safe in Hk.
  destruct (kal kalloc t1) as [p u|c u| |]; try done.
  2: { exists [i0; i1]. split; [all_lt|]. simpl. by eapply refs_same, H1'; apply Hk. }
  assert (refs_ok (i0 :: i1 :: h) u) as Hu by (eapply refs_same, H1'; apply Hk).
  destruct (p =? 0).
  - unfold pipealloc_bad. apply safe_bind. eapply close_more; [done | done | |exists [i1]; split; [all_lt | done]].
    intros u1 Hu1. apply safe_bind. eapply close_more; [done | done | | by exists []]. intros u2 Hu2. by safe_steps.
  - unfold set_file, updw. safe_steps. split_and!; [done | done |].
    do 2 (apply (refs_set_file (i0 :: i1 :: h) _ _ (_, _)); [done | done |]). by eapply refs_same, Hu.
Qed.

Lemma ok_sys_pipe me s : (me < length (procs s))%nat → counted [] s → ok (sys_pipe kend me) (λ _, counted []) s.
Proof.
  intros Hme Hs. unfold sys_pipe. apply safe_bind. eapply ok_quiet; [apply quiet_argptr | done |].
  intros [fd|] t Ht Hp; [|done]. apply safe_bind. destruct Ht as [Hf Hr]. simpl in Hf, Hr.
  apply (ok_onfile _ _ _ _ _ Hr). intros u Hu. pose proof (pipealloc_refs _ u Hu) as Hpa. unfold safe at 1. unfold safe in Hpa.
  destruct (pipealloc kend u) as [r u'|c u'| |]; try done.
  2: { destruct Hpa as (e & He & Hu'). exists e. split; [by apply list.Forall_app|done]. }
  destruct r as [[rf wf]|]; intros v Ev Eu.
  2: { apply safe_ret. unfold counted. by rewrite Ev, Eu. }
  destruct Hpa as (Hrf & Hwf & Hu').
  assert (counted [rf; wf] v) as Hv.
  { unfold counted. rewrite Ev, Eu. split; [all_lt | done]. }
  assert (∀ x, counted [rf; wf] x → ok (onfile me (fileclose kend rf);; onfile me (fileclose kend wf);; mret (-1)) (λ _, counted []) x) as Hbad.
  { intros x Hx. apply safe_bind. eapply ok_fileclose; [done|]. intros y Hy _. apply safe_bind.
    eapply ok_fileclose; [done|]. intros z Hz _. by apply safe_ret. }
  apply safe_bind. apply (ok_fdalloc [wf]); [by rewrite Ev, Hp | done | by apply Hbad |].
  intros fd0 x Hx Hlen Hfd. apply safe_bind. apply (ok_fdalloc []); [by rewrite Hlen, Ev, Hp | done | |].
  - apply safe_bind, safe_modify, Hbad. destruct (set_fd_none me fd0 rf x Hfd) as [_ E]. destruct Hx as [Hx1 Hx2].
    assert ([rf; wf] ++ all_fds (alter (λ p, set_p_ofile (<[fd0:=None]> (p_ofile p)) p) me (procs x)) ≡ₚ [wf] ++ all_fds (procs x)) as E'.
    { rewrite E. simpl. by rewrite Permutation_swap. }
    split; [simpl; by rewrite E' | by eapply refs_perm, Hx2].
  - intros fd1 y Hy _ _. apply safe_bind, safe_gets, safe_bind. eapply ok_quiet; [apply quiet_kvm | done |].
    intros [] z Hz _. apply safe_bind. eapply ok_quiet; [apply quiet_kvm | done |]. intros [] z' Hz' _. by apply safe_ret.
Qed.

Lemma ok_sys_open me s : (me < length (procs s))%nat → counted [] s →
  ok (sys_open kend devsw_read devsw_write me) (λ _, counted []) s.
Proof.
  intros Hme Hs. unfold sys_open. apply safe_bind. eapply ok_quiet; [apply quiet_argstr | done |].
  intros [path|] t1 H1 P1; [|done]. apply safe_bind. eapply ok_quiet; [apply quiet_argint | done |].
  intros [omode|] t2 H2 P2; [|done]. apply safe_bind. eapply ok_onfile_keep; [done | apply keeps_fsm |].
  intros [] t3 H3 P3. apply safe_bind.
  assert (ok (open_inode devsw_read devsw_write me path omode) (λ _ t, counted [] t ∧ procs t = procs t3) t3) as Hoi.
  { unfold open_inode, create_of, namei_of. destruct (negb _); apply safe_bind.
    - eapply ok_quiet; [apply quiet_cwd | done |]. intros c u Hu Pu.
      eapply ok_onfile_keep; [done | apply keeps_fsm |]. intros r v Hv Pv. split; [done | congruence].
    - apply safe_bind. eapply ok_quiet; [apply quiet_cwd | done |]. intros c u Hu Pu.
      eapply ok_onfile_keep; [done | apply keeps_fsm |]. intros [ip|] v Hv Pv; [|split; [done | congruence]].
      apply safe_bind. eapply ok_onfile_keep; [done | apply keeps_fsm |]. intros [] v1 Hv1 Pv1.
      apply safe_bind. eapply ok_onfile_keep; [done | apply keeps_fsm |]. intros x v2 Hv2 Pv2.
      destruct (_ && _); [|split; [done | congruence]].
      apply safe_bind. eapply ok_onfile_keep; [done | apply keeps_fsm |]. intros [] v3 Hv3 Pv3. split; [done | congruence]. }
  eapply safe_mono; [exact Hoi|]. intros r t4 [H4 P4].
  assert (∀ u, counted [] u → ok (end_fail me) (λ _, counted []) u) as Hfail.
  { intros u Hu. apply safe_bind. eapply ok_onfile_keep; [done | apply keeps_fsm |]. intros. by apply safe_ret. }
  destruct r as [ip|]; [|by apply Hfail]. apply safe_bind. eapply ok_filealloc; [done | |].
  { intros t5 H5 P5. apply safe_bind. eapply ok_onfile_keep; [done | apply keeps_fsm |]. intros. by apply Hfail. }
  intros f t5 H5 P5. apply safe_bind. apply (ok_fdalloc []); [rewrite P5, P4, P3, P2, P1; done | done | |].
  - apply safe_bind. eapply ok_fileclose; [done|]. intros t6 H6 P6. apply safe_bind.
    eapply ok_onfile_keep; [done | apply keeps_fsm |]. intros. by apply Hfail.
  - intros fd t6 H6 L6 Hfd. apply safe_bind. eapply ok_onfile_keep; [done | apply keeps_fsm |]. intros [] t7 H7 P7.
    apply safe_bind. eapply ok_onfile_keep; [done | apply keeps_fsm |]. intros [] t8 H8 P8. apply safe_bind.
    destruct H8 as [F8 R8]. apply (ok_onfile _ _ _ _ _ R8). intros u Hu. unfold set_file, updw. apply safe_modify.
    intros v Ev Eu. apply safe_ret. unfold counted. rewrite Ev, Eu. split; [done|].
    assert (f < NFILE)%nat as Hf.
    { destruct H5 as [F5 _]. by apply list.Forall_cons in F5 as [? _]. }
    by apply refs_set_file.
Qed.

(** The calls that make or drop descriptors. *)
Inductive fdcall := Fdup | Fclose | Fpipe | Fopen.
Definition do_fdcall (me : nat) (c : fdcall) : P Z :=
  match c with
  | Fdup => sys_dup me
  | Fclose => sys_close kend me
  | Fpipe => sys_pipe kend me
  | Fopen => sys_open kend devsw_read devsw_write me
  end.

(** C15. Descriptors and file references agree: where every file's reference
    count is the number of descriptors of all processes that name it, a call
    of dup, close, pipe or open by any process, with any arguments, keeps it
    so, whether the call succeeds or fails (bad arguments, no descriptor, file
    or page left, a missing path); and where it sleeps the counts are those
    of the descriptors and of the files it is working on. *)
Theorem descriptors_counted (me : nat) (c : fdcall) (s : pst (kw S)) :
  (me < length (procs s))%nat → counted [] s → safe fds_ok (do_fdcall me c) (λ _, counted []) s.
Proof.
  intros Hme Hs. destruct c; cbn [do_fdcall].
  - by apply ok_sys_dup.
  - by apply ok_sys_close.
  - by apply ok_sys_pipe.
  - by apply ok_sys_open.
Qed.
End refs.
