(* ===== verification/Trap.v ===== *)
(** * Trap: the dispatch of system calls (syscall.c) and of traps (trap.c)

    [syscalls] is the table of handlers and [trap] the C entry point of every
    trap, run by the process [me], if there is one, on the processor [cpu].
    The device interrupt handlers and the interrupt controller are arguments. *)

From Stdlib Require Import ZArith Lia Bool.
From stdpp Require Import base option list sets gmap strings numbers.
From S2P Require Import Prelude Cstring Kalloc Vm Proc Xem Bio Log Blockdev Fs Pipe File Kworld Syscall Exec Sysproc Sysfile.

#[local] Open Scope string_scope.
#[local] Open Scope list_scope.
#[local] Open Scope Z_scope.

(** traps.h *)
Definition T_SYSCALL : Z := 64.
Definition T_IRQ0 : Z := 32.
Definition IRQ_TIMER : Z := 0.
Definition IRQ_KBD : Z := 1.
Definition IRQ_COM1 : Z := 4.
Definition IRQ_IDE : Z := 14.
Definition IRQ_SPURIOUS : Z := 31.
Definition DPL_USER : Z := 3.
Definition tf_trapno : Z := 48.

(** An entry of idt: SETGATE(gate, istrap, sel, off, d). *)
Record gatedesc := Gate { g_istrap : bool; g_sel : Z; g_off : Z; g_dpl : Z }.
Definition SEG_KCODE : Z := 1.

(** tvinit: the table of the 256 entry points [vectors]. *)
Definition tvinit (vectors : nat → Z) : list gatedesc :=
  <[Z.to_nat T_SYSCALL := Gate true (Z.shiftl SEG_KCODE 3) (vectors (Z.to_nat T_SYSCALL)) DPL_USER]>
    ((λ i, Gate false (Z.shiftl SEG_KCODE 3) (vectors i) 0) <$> seq 0 256).

Section trap.
Context {S : Type} `{BD : BlockDev S} `{TX : Txn S} {FO : FileOps (kw S)}.
#[local] Notation P := (M (pst (kw S))).
Context (kend kdata trapret forkret_addr : Z) (swtch : nat → P unit) (fuel : nat).
Context (devsw_read : Z → option (nat → Z → M (fsst S) (option (list Z)))).
Context (devsw_write : Z → option (nat → list Z → Z → M (fsst S) Z)).
Context (rest : chan → M (kst * fw S) unit).

(** The table of system calls, at the numbers of syscall.h. *)
Definition syscalls (me : nat) (num : Z) : option (P Z) :=
  match num with
  | 1 => Some (sys_fork kend kdata trapret forkret_addr me)
  | 2 => Some (sys_exit swtch me)
  | 3 => Some (sys_wait kend swtch fuel me)
  | 4 => Some (sys_pipe kend me)
  | 5 => Some (sys_read devsw_read rest fuel me)
  | 6 => Some (sys_kill me)
  | 7 => Some (sys_exec kend kdata devsw_read me)
  | 8 => Some (sys_fstat me)
  | 9 => Some (sys_chdir devsw_read me)
  | 10 => Some (sys_dup me)
  | 11 => Some (sys_getpid me)
  | 12 => Some (sys_sbrk kend me)
  | 13 => Some (sys_sleep swtch fuel me)
  | 14 => Some sys_uptime
  | 15 => Some (sys_open kend devsw_read devsw_write me)
  | 16 => Some (sys_write devsw_write rest fuel me)
  | 17 => Some (sys_mknod devsw_read devsw_write me)
  | 18 => Some (sys_unlink devsw_read devsw_write me)
  | 19 => Some (sys_link devsw_read devsw_write me)
  | 20 => Some (sys_mkdir devsw_read devsw_write me)
  | 21 => Some (sys_close kend me)
  | 22 => Some (sys_yield swtch me)
  | 23 => Some (sys_getlev me)
  | 24 => Some (sys_set_cpu_share me)
  | 25 => Some (sys_thread_create kend trapret forkret_addr me)
  | 26 => Some (sys_thread_exit swtch me)
  | 27 => Some (sys_thread_join kend swtch fuel me)
  | 28 => Some (sys_xem_init me)
  | 29 => Some (sys_xem_wait swtch me)
  | 30 => Some (sys_xem_unlock me)
  | 31 => Some (sys_rwlock_init me)
  | 32 => Some (sys_rwlock_acquire_readlock swtch me)
  | 33 => Some (sys_rwlock_release_readlock swtch me)
  | 34 => Some (sys_rwlock_acquire_writelock swtch me)
  | 35 => Some (sys_rwlock_release_writelock me)
  | 36 => Some (sys_pread devsw_read rest fuel me)
  | 37 => Some (sys_pwrite devsw_write rest fuel me)
  | _ => None
  end.

Definition syscall (me : nat) : P unit :=
  eax ← tf_word me tf_eax;
  let num := s32 eax in
  match syscalls me num with
  | Some h => r ← h; set_tf_word me tf_eax (u32 r)
  | None => set_tf_word me tf_eax (u32 (-1))
  end.

(** The handlers of ide.c, kbd.c and uart.c, and lapiceoi of lapic.c. *)
Context (ideintr kbdintr uartintr lapiceoi : P unit).

Definition killed (me : nat) : P bool := p ← proc_of me; mret (negb (p_killed p =? 0)).

(** if(myproc() && myproc()->killed && (tf->cs&3) == DPL_USER) exit(); *)
Definition exit_if_killed (me : option nat) (user : bool) : P unit :=
  match me with
  | None => mret tt
  | Some i => k ← killed i; when (k && user) (exit swtch i)
  end.

(** case T_IRQ0 + IRQ_TIMER *)
Definition timer_tick (cpu : Z) : P unit :=
  when (cpu =? 0)
    (acquire_ticks;;
     updk (λ w, set_ticks (u32 (ticks w + 1)) w);;
     wakeup ChTicks;;
     release_ticks);;
  lapiceoi.

Definition trap (me : option nat) (cpu : Z) (tf : Z) : P unit :=
  trapno ← kvm (load (tf + tf_trapno));
  cs ← kvm (load (tf + tf_cs));
  let user := Z.land cs 3 =? DPL_USER in
  if trapno =? T_SYSCALL then
    match me with
    | None => undef "null pointer"
    | Some i =>
        k ← killed i;
        when k (exit swtch i);;
        upd i (set_p_tf tf);;
        syscall i;;
        k ← killed i;
        when k (exit swtch i)
    end
  else
  (if trapno =? T_IRQ0 + IRQ_TIMER then timer_tick cpu
   else if trapno =? T_IRQ0 + IRQ_IDE then ideintr;; lapiceoi
   else if trapno =? T_IRQ0 + IRQ_IDE + 1 then mret tt
   else if trapno =? T_IRQ0 + IRQ_KBD then kbdintr;; lapiceoi
   else if trapno =? T_IRQ0 + IRQ_COM1 then uartintr;; lapiceoi
   else if (trapno =? T_IRQ0 + 7) || (trapno =? T_IRQ0 + IRQ_SPURIOUS) then lapiceoi
   else match me with
        | None => panic "trap"
        | Some i => if Z.land cs 3 =? 0 then panic "trap" else upd i (set_p_killed 1)
        end);;
  exit_if_killed me user;;
  (match me with
   | None => mret tt
   | Some i =>
       p ← proc_of i;
       when (is_state RUNNING p && (trapno =? T_IRQ0 + IRQ_TIMER)) (yield swtch i;; mret tt)
   end);;
  exit_if_killed me user.

End trap.
