(* ===== verification/KernelImage.v ===== *)
(** * KernelImage: a small running kernel

    Four processes: init, a child of it with a pipe open, a zombie child of
    that one, and a fourth process.  One page is free.  The theorems on
    processes, pipes, files and system calls apply to it. *)

From Stdlib Require Import ZArith Lia Bool.
From stdpp Require Import base option list sets gmap strings numbers.
From S2P Require Import Prelude Cstring Locks Kalloc Vm Proc ProcSpec ProcLife ProcExit Xem Bio Log Blockdev Fs FsImage Pipe File FileSpec Kworld Syscall Exec Sysproc SysprocSpec Sysfile SysfileSpec.

#[local] Open Scope string_scope.
#[local] Open Scope list_scope.
#[local] Open Scope Z_scope.

Definition kimg_end : Z := 0x80108000.
Definition kimg_data : Z := 0x80107000.
Definition kimg_page (i : Z) : Z := 0x80400000 + i * PGSIZE.

(** A process with its kernel stack and page directory. *)
Definition kimg_proc (st : procstate) (pid page : Z) (parent : option nat) : proc :=
  set_p_state st (set_p_pid pid (set_p_ptid pid (set_p_parent parent
    (set_p_kstack (kimg_page page) (set_p_pgdir (kimg_page (page + 1))
      (set_p_cwd (Some 0%nat) proc0)))))).

(** The last process names [mt] as its main thread. *)
Definition kimg_procs (mt : option nat) : list proc :=
  [kimg_proc SLEEPING 1 1 None;
   set_p_ofile (<[0%nat := Some 0%nat]> (replicate NOFILE None)) (kimg_proc RUNNING 2 3 (Some 0%nat));
   set_p_cwd None (kimg_proc ZOMBIE 3 5 (Some 1%nat));
   set_p_main_thread mt (kimg_proc RUNNABLE 4 7 (Some 0%nat))] ++ replicate 60 proc0.

Definition kimg_pipe : pipe := Pipe false (replicate 512 0) 0 0 true true.

Definition kimg_fw : fw lst :=
  Fw false (File FD_PIPE 1 false true (kimg_page 9) 0 0 :: replicate 99 file0) {[kimg_page 9 := kimg_pipe]}
    (Fsst false (Inode ROOTDEV 1 4 (Sleeplock false 0) false 0 0 0 0 0 (replicate 13 0) :: replicate 49 inode0)
       img_sb 2 (boot_lst image 2)) false [].

Definition kimg (mt : option nat) : pst (kw lst) :=
  Pst false (kimg_procs mt) (Some 0%nat) 5 0 0 0 0 0 0 false 0 (Cpu 0 false true (Some 1%nat) 0 0)
    (Kst (λ _, 0) false true (kimg_page 11)) (Kw kimg_fw (Xworld ∅ ∅ ∅) 0 false).

Definition no_dev_read : Z → option (nat → Z → M (fsst lst) (option (list Z))) := λ _, None.
#[local] Existing Instance kw_files.
#[local] Instance kimg_files : FileOps (kw lst) := kw_files kimg_end no_dev_read.
#[local] Instance kimg_laws : FileLaws (kw lst) := kw_file_laws kimg_end no_dev_read.

(** The value a run returns. *)
Definition result {S A} (m : M S A) (s : S) : option A := match m s with Ok a _ => Some a | _ => None end.
Lemma result_ok {S A} (m : M S A) s a : result m s = Some a → ∃ t, m s = Ok a t.
Proof. unfold result. destruct (m s) as [b t| | |]; try done. intros [= ->]. eauto. Qed.

Lemma kimg_unused mt i : (4 ≤ i)%nat → proc_at (kimg mt) i = proc0.
Proof.
  intros Hi. unfold proc_at. change (procs (kimg mt)) with (kimg_procs mt). unfold kimg_procs.
  rewrite lookup_app_r by exact Hi.
  destruct (_ !! _) eqn:E; [|done]. by apply lookup_replicate in E as [-> _].
Qed.

Lemma kimg_slots (P : proc → Prop) mt i : Forall P (take 4 (kimg_procs mt)) → P proc0 → P (proc_at (kimg mt) i).
Proof.
  intros Hf H0. cbn [take app kimg_procs] in Hf.
  apply list.Forall_cons in Hf as [F0 Hf]. apply list.Forall_cons in Hf as [F1 Hf].
  apply list.Forall_cons in Hf as [F2 Hf]. apply list.Forall_cons in Hf as [F3 _].
  destruct i as [|[|[|[|i]]]]; [exact F0 | exact F1 | exact F2 | exact F3 | by rewrite kimg_unused by lia].
Qed.

Lemma kimg_table mt : slot_ref mt → table_ok (kimg mt).
Proof.
  intros Hmt. assert (length (procs (kimg mt)) = NPROC) as Hlen by reflexivity.
  assert (∀ i p, procs (kimg mt) !! i = Some p → p = proc_at (kimg mt) i) as Hat.
  { intros i p Hp. unfold proc_at. by rewrite Hp. }
  split_and!; [done | done | intros j [= <-]; unfold NPROC; lia | |].
  - intros i p ->%Hat. apply (kimg_slots (slot_ok 5)).
    + repeat apply list.Forall_cons_2; try apply list.Forall_nil_2;
        (split_and!; [simpl; lia | simpl; lia | intros _; simpl; lia | reflexivity | | ]); try done;
        intros j [= <-]; unfold NPROC; lia.
    + by split_and!.
  - intros i j p q ->%Hat ->%Hat Hij Hp Hq.
    assert (∀ k, used (proc_at (kimg mt) k) → (k < 4)%nat) as Hu.
    { intros k Hk. destruct (decide (k < 4)%nat); [done|]. rewrite kimg_unused in Hk by lia. by destruct Hk. }
    pose proof (Hu i Hp). pose proof (Hu j Hq).
    destruct i as [|[|[|[|i]]]]; try lia; destruct j as [|[|[|[|j]]]]; try lia; done.
Qed.

(** ** The theorems on the image *)

(** A processor that never comes back. *)
Definition no_run : nat → M (pst (kw lst)) unit := λ i, sleep_on (ChProc i).

Lemma proc_table_invariant_witness :
  safe table_ok (do_call kimg_end kimg_data 0 0 no_run 3 1 Cfork) (λ _, table_ok) (kimg None).
Proof.
  refine (proj1 (proj2 (proc_table_invariant kimg_end kimg_data 0 0 [] no_run no_run _ _)) 3%nat 1%nat Cfork (kimg None) _).
  - intros i s Hs. exact Hs.
  - intros i s Hs. exact Hs.
  - split; [by apply kimg_table|]. intros i Hi. apply list_elem_of_singleton in Hi as ->.
    split; [unfold NPROC; lia | done].
Defined.


(** The zombie's stack and page directory can be freed. *)
Lemma kimg_free mt : ∃ m1 m2, kfree kimg_end (kimg_page 5) (kmst (kimg mt)) = Ok tt m1 ∧
  freevm kimg_end (kimg_page 6) m1 = Ok tt m2.
Proof.
  destruct (result_ok (kfree kimg_end (kimg_page 5);; freevm kimg_end (kimg_page 6)) (kmst (kimg mt)) tt) as [t Ht].
  { vm_compute. reflexivity. }
  apply bind_inv in Ht as ([] & m1 & H1 & H2). eauto.
Qed.

Lemma kimg_zombies mt j : (j < 2)%nat → zombie_child 1 (proc_at (kimg mt) j) = false.
Proof. destruct j as [|[|j]]; [done | done | lia]. Qed.

Lemma wait_outcomes_witness : ∃ t, wait kimg_end stop 0 1 (kimg None) = Ok 3 t ∧ pt_lock t = false.
Proof.
  destruct (kimg_free None) as (m1 & m2 & H1 & H2).
  destruct (wait_outcomes kimg_end 1 (kimg None)) as [H _]; [by split_and! | unfold NPROC; lia |].
  assert (no_threads 2 (kimg None)) as Hn.
  { intros k. apply (kimg_slots (λ p, p_main_thread p ≠ Some 2%nat)); [|discriminate].
    repeat apply list.Forall_cons_2; try apply list.Forall_nil_2; discriminate. }
  destruct (H stop 0%nat 2%nat m1 m2 ltac:(unfold NPROC; lia) eq_refl (kimg_zombies None) Hn H1 H2) as (t & Ht & _ & _ & Hl).
  exists t. split; [exact Ht | exact Hl].
Defined.

Lemma stale_main_thread_witness : ∃ t, wait kimg_end stop 0 1 (kimg (Some 2%nat)) = Ok 3 t ∧
  p_state (proc_at (kimg (Some 2%nat)) 3) = RUNNABLE ∧ p_state (proc_at t 3) = UNUSED.
Proof.
  destruct (kimg_free (Some 2%nat)) as (m1 & m2 & H1 & H2).
  destruct (stale_main_thread kimg_end 1 0 0 0 (kimg (Some 2%nat)) 2 3 m1 m2 stop 0) as (_ & _ & H).
  assert (∀ j, j ≠ 3%nat → p_main_thread (proc_at (kimg (Some 2%nat)) j) ≠ Some 2%nat) as Ho.
  { intros j Hj. destruct (decide (4 ≤ j)%nat) as [H4|H4]; [rewrite kimg_unused by exact H4; discriminate|].
    destruct j as [|[|[|[|j]]]]; [discriminate .. | lia | lia]. }
  destruct (H ltac:(split_and!; [reflexivity | reflexivity | simpl; lia]) ltac:(unfold NPROC; lia) ltac:(unfold NPROC; lia)
    ltac:(lia) eq_refl (kimg_zombies _) eq_refl eq_refl Ho H1 H2) as (t & Ht & _ & Hs & _).
  exists t. split_and!; [exact Ht | reflexivity | exact Hs].
Defined.

Lemma exit_leaves_zombie_witness : ∃ t, exit stop 1 (kimg None) = Sleep (ChProc 1) t ∧ exited 1 (kimg None) t.
Proof.
  destruct (result_ok (close_all (p_ofile (proc_at (kimg None) 1));; Proc.begin_op;; Proc.iput 0;; Proc.end_op)
    (kmst (kimg None), files (kimg None)) tt) as [w2 Hw]; [vm_compute; reflexivity|].
  apply bind_inv in Hw as ([] & w1 & H1 & H2).
  destruct (exit_leaves_zombie 1 (kimg None) 0 w1 w2) as [H _].
  - apply kimg_table. discriminate.
  - discriminate.
  - reflexivity.
  - reflexivity.
  - reflexivity.
  - exact H1.
  - exact H2.
  - destruct (H ltac:(discriminate)) as (t & Ht & He & _). exists t. split; [exact Ht | exact He].
Defined.

(** ** Pipes and files *)

Definition kimg_t : kst * fw lst := (kmst (kimg None), kimg_fw).

Lemma kimg_pv : pv (kimg_page 9) false (Pipe.Queue [] true true) false kimg_t.
Proof.
  split; [|reflexivity]. exists kimg_pipe. split_and!; [reflexivity | | reflexivity | reflexivity].
  split; [reflexivity | simpl; lia | simpl; lia | vm_compute; lia].
Qed.

Lemma pipe_refines_queue_witness : ∃ t, pipewrite sleep_on 0 (kimg_page 9) [1; 2; 3] 3 kimg_t = Ok 3 t ∧
  pv (kimg_page 9) false (Pipe.Queue [1; 2; 3] true true) false t.
Proof.
  destruct (pipe_refines_queue (kimg_page 9) (Pipe.Queue [] true true) false kimg_t kimg_pv) as (H & _).
  destruct (H sleep_on 0%nat [1; 2; 3]) as (t & Ht & Hp).
  - repeat apply list.Forall_cons_2; try apply list.Forall_nil_2; unfold is_byte; lia.
  - simpl. lia.
  - exists t. split; [exact Ht | exact Hp].
Defined.

Lemma pipewrite_delivers_witness : ∃ t,
  pipewrite (λ _, piperead sleep_on 0 (kimg_page 9) (Z.of_nat 100);; mret tt) 1 (kimg_page 9) (replicate 600 7) 600 kimg_t
    = Ok 600 t.
Proof.
  destruct (pipewrite_delivers (λ _, piperead sleep_on 0 (kimg_page 9) (Z.of_nat 100);; mret tt) 0 (kimg_page 9)
    (Pipe.Queue [] true true) (replicate 600 7) kimg_t) as (t & m & Ht & _).
  - apply piperead_drains. lia.
  - exact kimg_pv.
  - reflexivity.
  - apply Forall_replicate. unfold is_byte. lia.
  - exists t. exact Ht.
Defined.

(** The image with the pipe's file opened on an inode instead. *)
Definition kimg_inode : kst * fw lst :=
  (fst kimg_t, set_ftab (alter (set_f_type FD_INODE) 0%nat (ftab kimg_fw)) kimg_fw).

Lemma positional_io_witness : sim 0 (ftab (snd kimg_inode))
  (λ r v, v = u32 (7 + match r with Some bs => Z.of_nat (length bs) | None => 0 end))
  (pread no_dev_read sleep_on 0 0 10 7 kimg_inode) (fileread no_dev_read sleep_on 0 0 10 (with_off 0 (u32 7) kimg_inode)).
Proof.
  destruct (positional_io 0 no_dev_read (λ _, None) sleep_on 0 10 7 kimg_inode) as [H _].
  - simpl. lia.
  - reflexivity.
  - exact H.
Defined.

Lemma kimg_refs : refs_ok [0%nat] kimg_t.
Proof.
  split_and!; [reflexivity | reflexivity |]. intros [|i] Hi; [reflexivity|].
  unfold file_at. change (ftab (snd kimg_t) !! S i) with (replicate 99 file0 !! i).
  destruct (replicate 99 file0 !! i) eqn:E; [|reflexivity]. by apply lookup_replicate in E as [-> _].
Qed.

Lemma file_references_witness : ∃ t, filedup 0 kimg_t = Ok 0%nat t ∧ refs_ok [0%nat; 0%nat] t.
Proof.
  destruct (file_references kimg_end [0%nat] kimg_t kimg_refs) as (_ & H & _).
  destruct (H 0%nat) as [H1 _]; [unfold NFILE; lia|]. apply H1. left.
Defined.

Lemma descriptors_counted_witness :
  safe fds_ok (do_fdcall kimg_end no_dev_read (λ _, None) 1 Fdup) (λ _, counted []) (kimg None).
Proof.
  refine (descriptors_counted kimg_end no_dev_read (λ _, None) 1 Fdup (kimg None) _ _).
  - vm_compute. lia.
  - split; [|exact kimg_refs]. change (Forall (λ i, i < NFILE)%nat [0%nat]).
    apply list.Forall_cons_2; [unfold NFILE; lia | apply list.Forall_nil_2].
Defined.

(** ** System calls *)

(** Memory with a page table for process 1: user page 0, of 8 bytes, holds the
    words 0 and 3, and the saved stack pointer is 0. *)
Definition umem : mem :=
  st32 (st32 (st32 (λ _, 0) (kimg_page 4) (Z.lor (V2P (kimg_page 12)) 7)) (kimg_page 12) (Z.lor (V2P (kimg_page 13)) 7))
    (kimg_page 13 + 4) 3.
Definition usr : pst (kw lst) :=
  let s := kimg None in
  set_kmst (set_km umem (kmst s))
    (set_procs (alter (λ p, set_p_sz 8 (set_p_tf (kimg_page 3) p)) 1%nat (procs s)) s).

Lemma usr_bytes : user_bytes (kimg_page 4) 8 (kmst usr) (λ a, if a =? 4 then 3 else 0).
Proof.
  intros a Ha. assert (a = 0 ∨ a = 1 ∨ a = 2 ∨ a = 3 ∨ a = 4 ∨ a = 5 ∨ a = 6 ∨ a = 7) as Hc by lia.
  repeat destruct Hc as [->|Hc]; try reflexivity. subst. reflexivity.
Qed.

Lemma syscall_args_bounded_witness : fetchint 1 4 usr = Ok (Some 3) usr ∧ fetchint 1 5 usr = Ok None usr.
Proof.
  destruct (syscall_args_bounded 1 usr (λ a, if a =? 4 then 3 else 0)) as [H _].
  - split; [vm_compute; discriminate | vm_compute; discriminate].
  - exact usr_bytes.
  - split; [exact (H 4 ltac:(lia)) | exact (H 5 ltac:(lia))].
Defined.

Lemma usr_argint : argint 1 0 usr = Ok (Some 3) usr.
Proof.
  unfold argint. rewrite (bind_ok _ _ usr 0 usr).
  - change (u32 (0 + 4 + 4 * 0)) with 4. unfold fetchint. rewrite (bind_ok _ _ usr (proc_at usr 1) usr) by reflexivity.
    change (_ || _) with false. cbv beta iota.
    rewrite (bind_ok _ _ usr 3 usr); [reflexivity|]. apply kvm_ok.
    apply (vload_word (kimg_page 4) 8 (kmst usr) (λ a, if a =? 4 then 3 else 0) 4 usr_bytes); [lia | lia | vm_compute; discriminate].
  - unfold tf_word. rewrite (bind_ok _ _ usr (proc_at usr 1) usr) by reflexivity. apply kvm_ok. reflexivity.
Qed.

(** A machine on which one tick passes at every context switch. *)
Definition one_tick : nat → M (pst (kw lst)) unit := λ _, updk (λ w, set_ticks (u32 (ticks w + 1)) w).

Lemma sys_sleep_elapses_witness : ∃ t e, sys_sleep one_tick 3 1 usr = Ok 0 t ∧ 3 ≤ e ∧ ticks (files t) = u32 e.
Proof.
  destruct (sys_sleep_elapses one_tick 1 3 0 usr) as [H _]; [lia | lia | exact usr_argint |].
  destruct H as (t & e & Ht & He & Hc).
  - intros tk s Htk Hs _. unfold one_tick, updk. apply wp_modify. exists 1. split; [lia|]. destruct Hs. split; try done.
    simpl. by rewrite ck_ticks.
  - split; try reflexivity; [vm_compute; lia | discriminate].
  - exists t, e. split; [exact Ht|]. split; [lia|]. rewrite (ck_ticks _ _ _ _ _ Hc). reflexivity.
Defined.
