(* ===== verification/Fmt.v ===== *)
(** * Fmt: printing of numbers and formats

    The kernel's cprintf (console.c) and the user library's printf (printf.c)
    print the same small language of formats, each with its own printint.  The
    routines return the characters they hand to consputc or putc, in order;
    None is behaviour C leaves undefined: an argument that was not passed, a
    store past the end of the digit buffer, or the negation of the least int.

    Shown: printint prints the number, with a sign and without leading zeroes,
    and never overruns its buffer; the two format loops print the same. *)

From Stdlib Require Import ZArith Lia Bool.
From stdpp Require Import base option list numbers.
From S2P Require Import Prelude.

#[local] Open Scope Z_scope.

Definition INT_MIN : Z := - 2 ^ 31.
Definition ch_minus : Z := 45.
Definition ch_percent : Z := 37.
Definition ch_d : Z := 100.
Definition ch_x : Z := 120.
Definition ch_p : Z := 112.
Definition ch_s : Z := 115.
Definition ch_c : Z := 99.

(** "0123456789abcdef" of console.c and "0123456789ABCDEF" of printf.c. *)
Definition digits_lower : list Z := [48; 49; 50; 51; 52; 53; 54; 55; 56; 57; 97; 98; 99; 100; 101; 102].
Definition digits_upper : list Z := [48; 49; 50; 51; 52; 53; 54; 55; 56; 57; 65; 66; 67; 68; 69; 70].
(** "(null)" *)
Definition null_string : list Z := [40; 110; 117; 108; 108; 41].

(** An argument of a format: a word, or a pointer to a string. *)
Inductive arg := Word (w : Z) | Str (s : option (list Z)).
Definition arg_word (a : arg) : option Z := match a with Word w => Some w | Str _ => None end.
Definition arg_str (a : arg) : option (list Z) :=
  match a with Str s => Some (default null_string s) | Word _ => None end.

Section printint.
Context (digits : list Z).

(** do buf[i++] = digits[x % base]; while((x /= base) != 0); with [room]
    entries of buf left and [buf] the ones stored. *)
Fixpoint digit_loop (room : nat) (x base : Z) (buf : list Z) : option (list Z) :=
  match room with
  | O => None
  | S room =>
      let buf := buf ++ [bget0 digits (x mod base)] in
      let x := x / base in
      if x =? 0 then Some buf else digit_loop room x base buf
  end.

(** printint; buf has 16 entries. *)
Definition printint (xx base : Z) (sgn : bool) : option (list Z) :=
  let neg := sgn && (xx <? 0) in
  if neg && (xx =? INT_MIN) then None else
  let x := if neg then - xx else u32 xx in
  buf ← digit_loop 16 x base [];
  if neg then if (length buf <? 16)%nat then Some (reverse (buf ++ [ch_minus])) else None
  else Some (reverse buf).
End printint.

(** The loop of cprintf: [fmt] is what is left of the format. *)
Fixpoint cprintf_loop (fmt : list Z) (args : list arg) (out : list Z) {struct fmt} : option (list Z) :=
  match fmt with
  | [] => Some out
  | c :: fmt =>
      if negb (c =? ch_percent) then cprintf_loop fmt args (out ++ [c]) else
      match fmt with
      | [] => Some out
      | c :: fmt =>
          if c =? ch_d then
            a ← head args; w ← arg_word a; l ← printint digits_lower (s32 w) 10 true;
            cprintf_loop fmt (tail args) (out ++ l)
          else if (c =? ch_x) || (c =? ch_p) then
            a ← head args; w ← arg_word a; l ← printint digits_lower (s32 w) 16 false;
            cprintf_loop fmt (tail args) (out ++ l)
          else if c =? ch_s then
            a ← head args; l ← arg_str a; cprintf_loop fmt (tail args) (out ++ l)
          else if c =? ch_percent then cprintf_loop fmt args (out ++ [ch_percent])
          else cprintf_loop fmt args (out ++ [ch_percent; c])
      end
  end.

(** The characters cprintf prints. *)
Definition cprintf_chars (fmt : list Z) (args : list arg) : option (list Z) := cprintf_loop fmt args [].

(** The loop of printf: [percent] is state == '%'. *)
Fixpoint printf_loop (fmt : list Z) (args : list arg) (percent : bool) (out : list Z) : option (list Z) :=
  match fmt with
  | [] => Some out
  | c :: fmt =>
      if negb percent then
        if c =? ch_percent then printf_loop fmt args true out else printf_loop fmt args false (out ++ [c])
      else if c =? ch_d then
        a ← head args; w ← arg_word a; l ← printint digits_upper (s32 w) 10 true;
        printf_loop fmt (tail args) false (out ++ l)
      else if (c =? ch_x) || (c =? ch_p) then
        a ← head args; w ← arg_word a; l ← printint digits_upper (s32 w) 16 false;
        printf_loop fmt (tail args) false (out ++ l)
      else if c =? ch_s then
        a ← head args; l ← arg_str a; printf_loop fmt (tail args) false (out ++ l)
      else if c =? ch_c then
        a ← head args; w ← arg_word a; printf_loop fmt (tail args) false (out ++ [u8 w])
      else if c =? ch_percent then printf_loop fmt args false (out ++ [c])
      else printf_loop fmt args false (out ++ [ch_percent; c])
  end.

Definition printf_chars (fmt : list Z) (args : list arg) : option (list Z) := printf_loop fmt args false [].

(** ** The printed number *)

(** The value of digits, the most significant one first. *)
Definition value (base : Z) (ds : list Z) : Z := foldl (λ n d, n * base + d) 0 ds.

(** The digits of [x] in [base], without leading zeroes. *)
Record numeral (base x : Z) (ds : list Z) : Prop := {
  nl_value : value base ds = x;
  nl_digits : Forall (λ d, 0 ≤ d < base) ds;
  nl_lead : head ds = Some 0 → ds = [0];
  nl_ne : ds ≠ []
}.

Lemma numeral_snoc base x ds : 2 ≤ base → 0 < x → numeral base (x / base) ds → x / base ≠ 0 →
  numeral base x (ds ++ [x mod base]).
Proof.
  intros Hb Hx [Hv Hd Hl Hne] Hq. split.
  - unfold value in *. rewrite foldl_app. simpl. rewrite Hv. pose proof (Z.div_mod x base). lia.
  - apply list.Forall_app. split; [done|]. constructor; [|done]. apply Z.mod_pos_bound. lia.
  - destruct ds as [|d ds]; [done|]. simpl. intros [= ->]. exfalso. apply Hq.
    rewrite <- Hv, (Hl eq_refl). done.
  - by destruct ds.
Qed.

Lemma digit_loop_spec digits base room : 2 ≤ base → ∀ x buf, 0 ≤ x < base ^ Z.of_nat (S room) →
  ∃ ds, digit_loop digits (S room) x base buf = Some (buf ++ reverse (bget0 digits <$> ds)) ∧
    numeral base x ds ∧ (length ds ≤ S room)%nat.
Proof.
  intros Hb. induction room as [|room IH]; intros x buf Hx.
  - assert (x / base = 0) as Hq by (apply Z.div_small; lia). exists [x]. cbn [digit_loop].
    rewrite Hq, Z.mod_small by lia. simpl. split_and!; [done | | lia].
    split; [unfold value; simpl; lia | apply list.Forall_singleton; lia | by intros [= ->] | done].
  - assert (0 ≤ x / base < base ^ Z.of_nat (S room)) as Hx'.
    { split; [apply Z.div_pos; lia|]. apply Z.div_lt_upper_bound; [lia|].
      rewrite <- Z.pow_succ_r by lia. replace (Z.succ _) with (Z.of_nat (S (S room))) by lia. lia. }
    remember (S room) as r eqn:Hr. cbn [digit_loop]. destruct (Z.eqb_spec (x / base) 0) as [Hq|Hq].
    + exists [x]. assert (x < base) by (apply Z.div_small_iff in Hq; lia).
      rewrite Z.mod_small by lia. split_and!; [done | | simpl; lia].
      split; [unfold value; simpl; lia | apply list.Forall_singleton; lia | by intros [= ->] | done].
    + destruct (IH _ (buf ++ [bget0 digits (x mod base)]) Hx') as (ds & -> & Hn & Hl).
      exists (ds ++ [x mod base]). split_and!.
      * by rewrite fmap_app, reverse_app, <- app_assoc.
      * apply numeral_snoc; [done | | done | done]. destruct (Z.eq_dec x 0) as [->|]; [by rewrite Z.div_0_l in Hq by lia | lia].
      * rewrite length_app. simpl. lia.
Qed.

Lemma digit_loop_more digits room k x base buf l :
  digit_loop digits room x base buf = Some l → digit_loop digits (room + k) x base buf = Some l.
Proof.
  revert x buf. induction room as [|room IH]; intros x buf; simpl; [done|]. case_match; auto.
Qed.

(** printint prints the number in base 10 or 16, the sign first and
    without leading zeroes, in at most eleven characters, so that the buffer
    of sixteen is large enough; only the least int, printed with a sign, is
    undefined. *)
Theorem printint_prints digits xx base sgn : base = 10 ∨ base = 16 → - 2 ^ 31 ≤ xx < 2 ^ 31 →
  let neg := sgn && (xx <? 0) in
  (neg = true → xx ≠ INT_MIN) →
  ∃ ds, printint digits xx base sgn = Some ((if neg then [ch_minus] else []) ++ (bget0 digits <$> ds)) ∧
    numeral base (if sgn then Z.abs xx else u32 xx) ds ∧ (length ds ≤ 10)%nat.
Proof.
  intros Hb Hx neg Hmin.
  set (x := if neg then - xx else u32 xx).
  assert (0 ≤ x < 2 ^ 32 ∧ x = if sgn then Z.abs xx else u32 xx) as [Hx' Ex].
  { pose proof (u32_range xx). subst x neg. destruct sgn; simpl; [|by split].
    destruct (Z.ltb_spec xx 0); [lia|]. rewrite u32_id by lia. lia. }
  destruct (digit_loop_spec digits base 9 ltac:(lia) x []) as (ds & Hl & Hn & Hlen).
  { change (Z.of_nat 10) with 10. destruct Hb as [-> | ->]; lia. }
  exists ds. rewrite <- Ex. split_and!; [|done|lia]. unfold printint. fold neg. fold x.
  assert (neg && (xx =? INT_MIN) = false) as ->.
  { destruct neg; [|done]. simpl. apply Z.eqb_neq. auto. }
  pose proof (digit_loop_more _ 10 6 _ _ _ _ Hl) as Hl'. change (10 + 6)%nat with 16%nat in Hl'.
  rewrite Hl', app_nil_l. cbn [mbind option_bind]. destruct neg.
  - rewrite (proj2 (Nat.ltb_lt _ _)) by (rewrite length_reverse, length_fmap; lia).
    rewrite reverse_snoc, reverse_involutive. reflexivity.
  - rewrite reverse_involutive. reflexivity.
Qed.


Lemma printint_prints_witness : printint digits_upper (-2019) 10 true = Some [ch_minus; 50; 48; 49; 57].
Proof.
  destruct (printint_prints digits_upper (-2019) 10 true) as (ds & H & _); [by left | lia | |].
  - intros _. unfold INT_MIN. lia.
  - rewrite H in *. revert H. vm_compute. intros [= <-]. reflexivity.
Defined.

(** ** The two format loops *)

(** No %c and nothing printed in hexadecimal: what cprintf and printf share. *)
Fixpoint plain (fmt : list Z) : bool :=
  match fmt with
  | c :: fmt =>
      if c =? ch_percent then
        match fmt with
        | c :: fmt => negb ((c =? ch_c) || (c =? ch_x) || (c =? ch_p)) && plain fmt
        | [] => true
        end
      else plain fmt
  | [] => true
  end.

Lemma decimal_digit_loop room : ∀ x buf, digit_loop digits_lower room x 10 buf = digit_loop digits_upper room x 10 buf.
Proof.
  induction room as [|n IH]; intros x buf; [done|]. cbn [digit_loop].
  assert (bget0 digits_lower (x mod 10) = bget0 digits_upper (x mod 10)) as ->; [|case_match; auto].
  pose proof (Z.mod_pos_bound x 10 ltac:(lia)) as H. revert H. generalize (x mod 10). intros d H.
  assert (d = 0 ∨ d = 1 ∨ d = 2 ∨ d = 3 ∨ d = 4 ∨ d = 5 ∨ d = 6 ∨ d = 7 ∨ d = 8 ∨ d = 9) as Hd by lia.
  repeat destruct Hd as [-> | Hd]; try reflexivity. by subst.
Qed.

Lemma decimal_digits xx : printint digits_lower xx 10 true = printint digits_upper xx 10 true.
Proof. unfold printint. by rewrite decimal_digit_loop. Qed.

Lemma format_loops_agree n : ∀ fmt args out, (length fmt ≤ n)%nat → plain fmt = true →
  cprintf_loop fmt args out = printf_loop fmt args false out.
Proof.
  induction n as [|n IH]; intros fmt args out Hn Hp.
  - destruct fmt; [done | simpl in Hn; lia].
  - destruct fmt as [|c fmt]; [done|]. simpl in Hn. cbn [cprintf_loop printf_loop plain] in *. simpl negb.
    destruct (c =? ch_percent) eqn:Hc; simpl; [|by apply IH; [lia|]].
    destruct fmt as [|d fmt]; [done|]. simpl in Hn. cbn [printf_loop]. simpl negb.
    apply andb_prop in Hp as [Hd Hp]. apply negb_true_iff in Hd. rewrite !orb_false_iff in Hd.
    destruct Hd as [[Hdc Hdx] Hdp]. rewrite Hdc, Hdx, Hdp. cbn [orb].
    assert (∀ a o, cprintf_loop fmt a o = printf_loop fmt a false o) as E by (intros; apply IH; [lia | exact Hp]).
    destruct (d =? ch_d); [|destruct (d =? ch_s); [|destruct (Z.eqb_spec d ch_percent) as [->|]; apply E]].
    + apply option_bind_ext_fun. intros a. apply option_bind_ext_fun. intros w. rewrite decimal_digits.
      apply option_bind_ext_fun. intros l. apply E.
    + apply option_bind_ext_fun. intros a. apply option_bind_ext_fun. intros l. apply E.
Qed.

(** cprintf and printf print the same characters for every format without
    %c, which cprintf does not know, and without the hexadecimal formats,
    whose digits differ in case. *)
Theorem cprintf_printf_agree fmt args : plain fmt = true → cprintf_chars fmt args = printf_chars fmt args.
Proof. intros. by eapply format_loops_agree. Qed.

Lemma cprintf_printf_agree_witness :
  printf_chars [65; ch_percent; ch_d; ch_percent] [Word (2 ^ 32 - 7)] = Some [65; ch_minus; 55].
Proof. rewrite <- (cprintf_printf_agree [65; ch_percent; ch_d; ch_percent] _ eq_refl). reflexivity. Defined.
