(* ===== verification/Ulib.v ===== *)
(** * Ulib: the user library (ulib.c, printf.c)

    A user program runs on its memory, a function from addresses to bytes, and
    on the system calls, whose state is a type [W]; [UserSys] is what the
    programs use of them.  A routine that only reads takes the bytes its
    pointer points at, as in Cstring.v.  The fuel of a loop over a string
    bounds the length of the string.

    Shown: atoi reads back what printf prints; strchr finds the first
    occurrence; gets stores one line, terminated, within its buffer. *)

From Stdlib Require Import ZArith Lia Bool.
From stdpp Require Import base option list strings numbers.
From S2P Require Import Prelude Cstring Fmt.

#[local] Open Scope string_scope.
#[local] Open Scope list_scope.
#[local] Open Scope Z_scope.

(** The system calls of user.h: read gives the bytes it stored or None for
    -1, write takes the bytes, open the name and fstat gives the bytes of the
    struct stat. *)
Class UserSys (W : Type) := {
  us_read : Z → Z → M W (option (list Z));
  us_write : Z → list Z → M W Z;
  us_open : list Z → Z → M W Z;
  us_close : Z → M W Z;
  us_fstat : Z → M W (option (list Z));
  us_sbrk : Z → M W Z
}.

Record ust (W : Type) := Ust { u_mem : mem; u_os : W }.
Arguments Ust {W} u_mem u_os.
Arguments u_mem {W} u.
Arguments u_os {W} u.

Definition os {W A} (m : M W A) : M (ust W) A := zoom u_os (λ w s, Ust (u_mem s) w) m.
Definition poke {W} (a v : Z) : M (ust W) unit := modify (λ s, Ust (store8 (u_mem s) a v) (u_os s)).

(** ** ulib.c *)

Fixpoint strcpy (fuel : nat) (m : mem) (s t : Z) : option mem :=
  match fuel with
  | O => None
  | S fuel =>
      let c := m t in
      let m := store8 m s c in
      if c =? 0 then Some m else strcpy fuel m (s + 1) (t + 1)
  end.

Fixpoint strcmp (fuel : nat) (p q : Z → Z) (i : Z) : option Z :=
  match fuel with
  | O => None
  | S fuel => if negb (p i =? 0) && (p i =? q i) then strcmp fuel p q (i + 1) else Some (u8 (p i) - u8 (q i))
  end.

Fixpoint strlen (fuel : nat) (s : Z → Z) (n : Z) : option Z :=
  match fuel with
  | O => None
  | S fuel => if s n =? 0 then Some n else strlen fuel s (n + 1)
  end.

Definition memset (m : mem) (dst c n : Z) : mem := stosb m dst c (Z.to_nat n).

(** The outer None is out of fuel, the inner one the null pointer. *)
Fixpoint strchr (fuel : nat) (m : mem) (s c : Z) : option (option Z) :=
  match fuel with
  | O => None
  | S fuel => if m s =? 0 then Some None else if m s =? c then Some (Some s) else strchr fuel m (s + 1) c
  end.

(** memmove copies upwards only. *)
Definition memmove (m : mem) (dst src n : Z) : mem := copy_up m dst src (Z.to_nat n).

Section sys.
Context {W : Type} `{UserSys W}.

(** The loop of gets, with at most [k] characters to go; the result is i. *)
Fixpoint gets_loop (k : nat) (buf i : Z) : M (ust W) Z :=
  match k with
  | O => mret i
  | S k =>
      r ← os (us_read 0 1);
      match r with
      | Some (c :: _) =>
          poke (buf + i) c;;
          if (c =? 10) || (c =? 13) then mret (i + 1) else gets_loop k buf (i + 1)
      | _ => mret i
      end
  end.

Definition ugets (buf max : Z) : M (ust W) Z :=
  i ← gets_loop (Z.to_nat (max - 1)) buf 0;
  poke (buf + i) 0;;
  mret buf.

Definition O_RDONLY : Z := 0.
Definition stat (n : list Z) : M (ust W) (option (list Z)) :=
  fd ← os (us_open n O_RDONLY);
  if fd <? 0 then mret None else
  r ← os (us_fstat fd);
  os (us_close fd);;
  mret r.

(** putc and printf of printf.c: each character is one write. *)
Definition putc (fd c : Z) : M (ust W) unit := os (us_write fd [u8 c]);; mret tt.
Definition printf (fd : Z) (fmt : list Z) (args : list arg) : M (ust W) unit :=
  match printf_chars fmt args with
  | Some l => foreach l (putc fd)
  | None => undef "printf"
  end.
End sys.

Definition INT_MAX : Z := 2 ^ 31 - 1.
Definition add_int (a b : Z) : option Z :=
  if (INT_MIN <=? a + b) && (a + b <=? INT_MAX) then Some (a + b) else None.
Definition mul_int (a b : Z) : option Z :=
  if (INT_MIN <=? a * b) && (a * b <=? INT_MAX) then Some (a * b) else None.

(** n = n*10 + *s++ - '0'; None also where an int overflows. *)
Fixpoint atoi_loop (fuel : nat) (s : Z → Z) (i n : Z) : option Z :=
  match fuel with
  | O => None
  | S fuel =>
      if (48 <=? s i) && (s i <=? 57) then
        a ← mul_int n 10; b ← add_int a (s i); n ← add_int b (-48);
        atoi_loop fuel s (i + 1) n
      else Some n
  end.

Definition atoi (fuel : nat) (s : Z → Z) : option Z := atoi_loop fuel s 0 0.

(** ** atoi reads what printf prints *)

Lemma value_grows ds n : 0 ≤ n → Forall (λ d, 0 ≤ d < 10) ds → n ≤ foldl (λ n d, n * 10 + d) n ds.
Proof.
  revert n. induction ds as [|d ds IH]; intros n Hn Hd; simpl; [lia|].
  inversion Hd as [|? ? Hd1 Hd2]. subst. specialize (IH (n * 10 + d) ltac:(lia) Hd2). lia.
Qed.

Lemma atoi_loop_digits s ds : ∀ i n, 0 ≤ n → Forall (λ d, 0 ≤ d < 10) ds →
  (∀ k d, ds !! k = Some d → s (i + Z.of_nat k) = 48 + d) →
  ¬ 48 ≤ s (i + Z.of_nat (length ds)) ≤ 57 → foldl (λ n d, n * 10 + d) n ds ≤ INT_MAX - 48 →
  atoi_loop (S (length ds)) s i n = Some (foldl (λ n d, n * 10 + d) n ds).
Proof.
  induction ds as [|d ds IH]; intros i n Hn Hd Hs Hend Hmax.
  - simpl in Hend. rewrite Z.add_0_r in Hend. cbn [atoi_loop].
    replace ((48 <=? s i) && (s i <=? 57)) with false; [done|]. symmetry. apply andb_false_iff. lia.
  - inversion Hd as [|? ? Hd1 Hd2]. subst. simpl length. remember (S (length ds)) as f. cbn [atoi_loop].
    pose proof (Hs 0%nat d eq_refl) as H0. rewrite Z.add_0_r in H0. rewrite H0. simpl foldl in *.
    pose proof (value_grows ds (n * 10 + d) ltac:(lia) Hd2). unfold mul_int, add_int, INT_MIN, INT_MAX in *.
    rewrite (proj2 (andb_true_iff _ _)) by lia. rewrite (proj2 (andb_true_iff _ _)) by lia. simpl.
    rewrite (proj2 (andb_true_iff _ _)) by lia. simpl. rewrite (proj2 (andb_true_iff _ _)) by lia. simpl.
    replace (n * 10 + (48 + d) + -48) with (n * 10 + d) by lia. subst f. apply IH; [lia | done | | | done].
    + intros k e Hk. rewrite <- (Hs (S k) e Hk). f_equal. lia.
    + simpl length in Hend. by replace (i + 1 + Z.of_nat (length ds)) with (i + Z.of_nat (S (length ds))) by lia.
Qed.

Lemma upper_digit d : 0 ≤ d < 10 → bget0 digits_upper d = 48 + d.
Proof.
  intros H. assert (d = 0 ∨ d = 1 ∨ d = 2 ∨ d = 3 ∨ d = 4 ∨ d = 5 ∨ d = 6 ∨ d = 7 ∨ d = 8 ∨ d = 9) as Hd by lia.
  repeat destruct Hd as [-> | Hd]; try reflexivity. by subst.
Qed.

(** A non-negative number printed with %d is read back by atoi, whatever
    follows it, up to the bound above which n*10 + *s overflows an int. *)
Theorem atoi_printint x rest : 0 ≤ x ≤ INT_MAX - 48 → ¬ 48 ≤ bget0 rest 0 ≤ 57 →
  ∃ out, printf_chars [ch_percent; ch_d] [Word x] = Some out ∧
    atoi (S (length out)) (cstr (out ++ rest)) = Some x.
Proof.
  intros Hx Hrest. destruct (printint_prints digits_upper x 10 true) as (ds & Hp & Hn & _);
    [by left | unfold INT_MAX in *; lia | intros H; apply andb_prop in H as [_ H]; lia |].
  rewrite (proj2 (Z.ltb_ge x 0)), app_nil_l in Hp by lia. exists (bget0 digits_upper <$> ds). split.
  - unfold printf_chars. cbn [printf_loop negb]. rewrite Z.eqb_refl. cbn [printf_loop negb]. rewrite Z.eqb_refl.
    cbn [head arg_word mbind option_bind]. rewrite s32_id by (unfold INT_MAX in *; lia). by rewrite Hp.
  - destruct Hn as [Hv Hd _ _]. rewrite Z.abs_eq in Hv by lia. rewrite length_fmap. unfold atoi.
    rewrite (atoi_loop_digits _ ds); [by f_equal | lia | done | | | unfold value in Hv; lia].
    + intros k d Hk. unfold cstr, bget0 at 1. rewrite (proj2 (Z.ltb_ge _ _)) by lia.
      rewrite Z.add_0_l, Nat2Z.id, lookup_app_l by (rewrite length_fmap; by eapply lookup_lt_Some).
      rewrite list_lookup_fmap, Hk. simpl. apply upper_digit. by eapply list.Forall_lookup_1 in Hd.
    + unfold cstr. rewrite (proj2 (Z.ltb_ge _ _)) by lia. unfold bget0. rewrite Z.add_0_l, Nat2Z.id.
      rewrite lookup_app_r by (rewrite length_fmap; lia). rewrite length_fmap, Nat.sub_diag. exact Hrest.
Qed.

Lemma atoi_printint_witness : atoi 5 (cstr [50; 48; 49; 57; 32]) = Some 2019.
Proof.
  destruct (atoi_printint 2019 [32]) as (out & H & Ha); [unfold INT_MAX; lia | change (bget0 [32] 0) with 32; lia |].
  assert (out = [50; 48; 49; 57]) as -> by (revert H; vm_compute; congruence). exact Ha.
Defined.

(** The largest int is out of reach of atoi: '7' is added before '0' is
    subtracted. *)
Lemma atoi_int_max_overflows : ∃ out, printf_chars [ch_percent; ch_d] [Word INT_MAX] = Some out ∧
  atoi (S (length out)) (cstr out) = None.
Proof. exists [50; 49; 52; 55; 52; 56; 51; 54; 52; 55]. split; vm_compute; reflexivity. Qed.

(** ** strchr and gets *)

Lemma strchr_spec m c fuel : ∀ s k, c ≠ 0 → (∀ j, 0 ≤ j < k → m (s + j) ≠ 0 ∧ m (s + j) ≠ c) → 0 ≤ k < Z.of_nat fuel →
  (m (s + k) = c → strchr fuel m s c = Some (Some (s + k))) ∧
  (m (s + k) = 0 → strchr fuel m s c = Some None).
Proof.
  induction fuel as [|fuel IH]; intros s k Hc Hj Hk; [lia|]. cbn [strchr].
  destruct (Z.eq_dec k 0) as [->|Hk0].
  - rewrite Z.add_0_r. split; intros ->; [|done]. by rewrite (proj2 (Z.eqb_neq c 0)), Z.eqb_refl.
  - destruct (Hj 0 ltac:(lia)) as [H0 H1]. rewrite Z.add_0_r in H0, H1.
    apply Z.eqb_neq in H0, H1. rewrite H0, H1.
    replace (s + k) with (s + 1 + (k - 1)) by lia. apply IH; [done | | lia].
    intros j ?. replace (s + 1 + j) with (s + (j + 1)) by lia. apply Hj. lia.
Qed.

(** The bytes of [l] at address [a]. *)
Definition bytes_at (m : mem) (a : Z) (l : list Z) : Prop := ∀ k c, l !! k = Some c → m (a + Z.of_nat k) = c.

(** The line at the start of [l], cut to [k] characters. *)
Fixpoint first_line (k : nat) (l : list Z) : list Z :=
  match k, l with
  | S k, c :: l => c :: if (c =? 10) || (c =? 13) then [] else first_line k l
  | _, _ => []
  end.

Section gets_line.
Context {W : Type} `{UserSys W} (stdin : W → list Z).
(** read(0, &c, 1) takes the next byte of the standard input. *)
Hypothesis read_stdin : ∀ w, match stdin w with
  | [] => ∃ r w', us_read 0 1 w = Ok r w' ∧ (r = None ∨ r = Some []) ∧ stdin w' = []
  | c :: l => is_byte c ∧ ∃ w', us_read 0 1 w = Ok (Some [c]) w' ∧ stdin w' = l
  end.

Definition read_line (l : list Z) (buf i : Z) (s s' : ust W) : Prop :=
  bytes_at (u_mem s') (buf + i) l ∧ (∀ x, x < buf + i ∨ buf + i + Z.of_nat (length l) ≤ x → u_mem s' x = u_mem s x) ∧
  stdin (u_os s') = drop (length l) (stdin (u_os s)).

Lemma gets_loop_line k : ∀ buf i s, let l := first_line k (stdin (u_os s)) in
  ∃ s', gets_loop k buf i s = Ok (i + Z.of_nat (length l)) s' ∧ read_line l buf i s s'.
Proof.
  induction k as [|k IH]; intros buf i s l.
  - exists s. subst l. simpl. rewrite Z.add_0_r. done.
  - pose proof (read_stdin (u_os s)) as Hr. subst l. cbn [gets_loop]. unfold read_line. destruct (stdin (u_os s)) as [|c l] eqn:El.
    + destruct Hr as (r & w' & Hr & Hn & Hw). exists (Ust (u_mem s) w'). simpl. rewrite Z.add_0_r.
      unfold mbind, M_bind, os, zoom. rewrite Hr. destruct Hn as [-> | ->]; done.
    + destruct Hr as (Hc & w' & Hr & Hw). set (s1 := Ust (store8 (u_mem s) (buf + i) c) w').
      assert (∀ m, m = (if (c =? 10) || (c =? 13) then mret (i + 1) else gets_loop k buf (i + 1)) s1 →
        gets_loop (S k) buf i s = m) as Hstep.
      { intros m ->. cbn [gets_loop]. unfold mbind, M_bind, os, zoom. by rewrite Hr. }
      assert (store8 (u_mem s) (buf + i) c (buf + i) = c) as Hb by (rewrite store8_eq; by apply u8_id).
      cbn [gets_loop] in Hstep. cbn [first_line]. destruct ((c =? 10) || (c =? 13)).
      * exists s1. split_and!; [by apply Hstep | | | simpl; by rewrite drop_0].
        -- intros [|k'] c' [= <-]. by rewrite Z.add_0_r.
        -- intros x Hx. apply store8_ne. simpl in Hx. lia.
      * destruct (IH buf (i + 1) s1) as (s' & Hg & Hs1 & Hs2 & Hs3). simpl u_os in *. rewrite Hw in *.
        exists s'. split_and!; [rewrite (Hstep _ eq_refl), Hg; simpl; f_equal; lia | | | by rewrite Hs3].
        -- intros [|k'] c' Hk; [injection Hk as <-; rewrite Z.add_0_r, Hs2 by lia; apply Hb|].
           rewrite <- (Hs1 k' c' Hk). f_equal. lia.
        -- intros x Hx. simpl in Hx. rewrite Hs2 by lia. apply store8_ne. lia.
Qed.

(** gets stores the next line, at most max - 1 characters of it, and a
    terminator, and nothing else. *)
Lemma ugets_line buf max s : 1 ≤ max → let l := first_line (Z.to_nat (max - 1)) (stdin (u_os s)) in
  ∃ s', ugets buf max s = Ok buf s' ∧ bytes_at (u_mem s') buf (l ++ [0]) ∧ Z.of_nat (length l) < max ∧
    (∀ x, x < buf ∨ buf + max ≤ x → u_mem s' x = u_mem s x) ∧
    stdin (u_os s') = drop (length l) (stdin (u_os s)).
Proof.
  intros Hm l. destruct (gets_loop_line (Z.to_nat (max - 1)) buf 0 s) as (s1 & Hg & Hb & Hu & Hd). fold l in Hg, Hb, Hu, Hd.
  assert (length l ≤ Z.to_nat (max - 1))%nat as Hl.
  { subst l. generalize (stdin (u_os s)). clear. induction (Z.to_nat (max - 1)) as [|k IH]; intros [|c l]; simpl; try lia.
    case_match; simpl; [lia|]. specialize (IH l). lia. }
  rewrite Z.add_0_r in *. rewrite Z.add_0_l in Hg. exists (Ust (store8 (u_mem s1) (buf + Z.of_nat (length l)) 0) (u_os s1)).
  split_and!; [unfold ugets; by rewrite (bind_ok _ _ _ _ _ Hg) | | lia | | done].
  - intros k c [Hk|[Hk1 Hk2]]%lookup_app_Some; simpl.
    + rewrite store8_ne; [by apply Hb|]. apply lookup_lt_Some in Hk. lia.
    + apply list_lookup_singleton_Some in Hk2 as [Hk2 <-]. replace k with (length l) by lia. by rewrite store8_eq.
  - intros x Hx. simpl. rewrite store8_ne by lia. apply Hu. lia.
Qed.
End gets_line.
