(* ===== verification/Grep.v ===== *)
(** * Grep: the pattern matcher and the line loop of grep.c

    [matchhere], [matchstar] and [rmatch] (match, a keyword here) work on
    the bytes of the two strings; the end of a list is the terminator.  [grep]
    runs on the memory that holds its buffer.

    Shown: the matcher decides the language its patterns denote; grep prints
    exactly the lines that match of a file whose lines fit its buffer; and a
    short read, as of a pipe, loses the beginning of a line. *)

From Stdlib Require Import ZArith Lia Bool.
From stdpp Require Import base option list sets strings numbers.
From S2P Require Import Prelude Cstring Fmt Ulib.

#[local] Open Scope string_scope.
#[local] Open Scope list_scope.
#[local] Open Scope Z_scope.

Definition ch_caret : Z := 94.
Definition ch_dollar : Z := 36.
Definition ch_star : Z := 42.
Definition ch_dot : Z := 46.
Definition ch_nl : Z := 10.

(** matchstar, where [here] is matchhere of the rest of the pattern. *)
Fixpoint matchstar (here : list Z → bool) (c : Z) (text : list Z) : bool :=
  if here text then true else
  match text with
  | [] => false
  | t :: text => if (t =? c) || (c =? ch_dot) then matchstar here c text else false
  end.

Fixpoint matchhere (re text : list Z) {struct re} : bool :=
  match re with
  | [] => true
  | r :: re1 =>
      let one :=
        match text with
        | [] => false
        | t :: text => if (r =? ch_dot) || (r =? t) then matchhere re1 text else false
        end in
      match re1 with
      | [] => if r =? ch_dollar then match text with [] => true | _ => false end else one
      | s :: re2 => if s =? ch_star then matchstar (matchhere re2) r text else one
      end
  end.

(** The do loop of match. *)
Fixpoint match_anywhere (re text : list Z) : bool :=
  if matchhere re text then true else
  match text with
  | [] => false
  | _ :: text => match_anywhere re text
  end.

Definition rmatch (re text : list Z) : bool :=
  match re with
  | r :: re1 => if r =? ch_caret then matchhere re1 text else match_anywhere re text
  | [] => match_anywhere re text
  end.

(** The string at address [p]. *)
Fixpoint string_at (fuel : nat) (m : mem) (p : Z) : option (list Z) :=
  match fuel with
  | O => None
  | S fuel => if m p =? 0 then Some [] else cons (m p) <$> string_at fuel m (p + 1)
  end.

(** The [n] bytes at address [p], and bytes stored there. *)
Definition bytes (m : mem) (p n : Z) : list Z := (λ k, m (p + Z.of_nat k)) <$> seq 0 (Z.to_nat n).
Fixpoint store_bytes (m : mem) (p : Z) (l : list Z) : mem :=
  match l with
  | [] => m
  | c :: l => store_bytes (store8 m p c) (p + 1) l
  end.

Section grep.
Context {W : Type} `{UserSys W}.
(** The address of buf, which has 1024 bytes. *)
Context (buf : Z).
#[local] Notation G := (M (ust W)).
Definition BUFSZ : Z := 1024.

(** The loop over the lines in the buffer, from [p] on; the result is p. *)
Fixpoint grep_lines (fuel : nat) (pattern : list Z) (p : Z) : G Z :=
  match fuel with
  | O => undef "out of fuel"
  | S fuel =>
      m ← gets u_mem;
      match strchr (Z.to_nat BUFSZ) m p ch_nl with
      | None => undef "the buffer is not terminated"
      | Some None => mret p
      | Some (Some q) =>
          poke q 0;;
          m ← gets u_mem;
          match string_at (Z.to_nat BUFSZ) m p with
          | None => undef "the line is not terminated"
          | Some text =>
              when (rmatch pattern text)
                (poke q ch_nl;;
                 m ← gets u_mem;
                 os (us_write 1 (bytes m p (q + 1 - p)));;
                 mret tt);;
              grep_lines fuel pattern (q + 1)
          end
      end
  end.

(** while((n = read(fd, buf+m, sizeof(buf)-m-1)) > 0) *)
Fixpoint grep_loop (fuel : nat) (pattern : list Z) (fd m : Z) : G unit :=
  match fuel with
  | O => undef "out of fuel"
  | S fuel =>
      r ← os (us_read fd (BUFSZ - m - 1));
      match r with
      | None | Some [] => mret tt
      | Some l =>
          modify (λ s, Ust (store_bytes (u_mem s) (buf + m) l) (u_os s));;
          let m := m + Z.of_nat (length l) in
          poke (buf + m) 0;;
          p ← grep_lines (Z.to_nat BUFSZ) pattern buf;
          let m := if p =? buf then 0 else m in
          if 0 <? m then
            let m := m - (p - buf) in
            modify (λ s, Ust (memmove (u_mem s) buf p m) (u_os s));;
            grep_loop fuel pattern fd m
          else grep_loop fuel pattern fd m
      end
  end.

Definition grep (fuel : nat) (pattern : list Z) (fd : Z) : G unit := grep_loop fuel pattern fd 0.
End grep.

(** ** What a pattern denotes *)

Inductive atom := ALit (c : Z) | AAny.
Inductive item := One (a : atom) | Many (a : atom).
Definition atom_of (c : Z) : atom := if c =? ch_dot then AAny else ALit c.

(** The items of a pattern after its '^', and whether a '$' ends it. *)
Fixpoint parse_items (re : list Z) : list item * bool :=
  match re with
  | [] => ([], false)
  | r :: re1 =>
      match re1 with
      | [] => if r =? ch_dollar then ([], true) else ([One (atom_of r)], false)
      | s :: re2 =>
          if s =? ch_star then let '(l, e) := parse_items re2 in (Many (atom_of r) :: l, e)
          else let '(l, e) := parse_items re1 in (One (atom_of r) :: l, e)
      end
  end.

Record regex := Regex { r_bol : bool; r_items : list item; r_eol : bool }.
Definition parse_regex (re : list Z) : regex :=
  match re with
  | r :: re1 =>
      if r =? ch_caret then Regex true (parse_items re1).1 (parse_items re1).2
      else Regex false (parse_items re).1 (parse_items re).2
  | [] => Regex false [] false
  end.

Definition atom_has (a : atom) (c : Z) : Prop := match a with ALit d => c = d | AAny => True end.

(** The texts a list of items matches in full. *)
Inductive denotes : list item → list Z → Prop :=
  | den_nil : denotes [] []
  | den_one a c l w : atom_has a c → denotes l w → denotes (One a :: l) (c :: w)
  | den_many a v l w : Forall (atom_has a) v → denotes l w → denotes (Many a :: l) (v ++ w).

(** Some part of the text is matched, at its ends where the pattern says so. *)
Definition occurs (r : regex) (text : list Z) : Prop :=
  ∃ pre mid post, text = pre ++ mid ++ post ∧ denotes (r_items r) mid ∧
    (r_bol r = true → pre = []) ∧ (r_eol r = true → post = []).

(** The pattern matches a prefix of the text. *)
Definition prefix_of (l : list item) (e : bool) (text : list Z) : Prop :=
  ∃ mid post, text = mid ++ post ∧ denotes l mid ∧ (e = true → post = []).

Lemma atom_of_has r t : (r =? ch_dot) || (r =? t) = true ↔ atom_has (atom_of r) t.
Proof. unfold atom_of. destruct (Z.eqb_spec r ch_dot); simpl; [done|]. rewrite Z.eqb_eq. naive_solver. Qed.

Lemma prefix_one a l e text : prefix_of (One a :: l) e text ↔
  ∃ t text', text = t :: text' ∧ atom_has a t ∧ prefix_of l e text'.
Proof.
  split.
  - intros (mid & post & -> & Hd & He). inversion Hd as [|? c ? w Hc Hw|]; subst.
    exists c, (w ++ post). split_and!; [done | done | by exists w, post].
  - intros (t & text' & -> & Ht & mid & post & -> & Hd & He). exists (t :: mid), post.
    split_and!; [done | by constructor | done].
Qed.

Lemma prefix_many a l e text : prefix_of (Many a :: l) e text ↔
  ∃ v text', text = v ++ text' ∧ Forall (atom_has a) v ∧ prefix_of l e text'.
Proof.
  split.
  - intros (mid & post & -> & Hd & He). inversion Hd as [| |? v ? w Hv Hw]; subst.
    exists v, (w ++ post). split_and!; [by rewrite app_assoc | done | by exists w, post].
  - intros (v & text' & -> & Hv & mid & post & -> & Hd & He). exists (v ++ mid), post.
    split_and!; [by rewrite app_assoc | by constructor | done].
Qed.

Lemma matchstar_spec here r (Q : list Z → Prop) text : (∀ t, here t = true ↔ Q t) →
  matchstar here r text = true ↔ ∃ v text', text = v ++ text' ∧ Forall (atom_has (atom_of r)) v ∧ Q text'.
Proof.
  intros HQ. induction text as [|t text IH]; simpl.
  - destruct (here []) eqn:Hh.
    + split; [|done]. intros _. exists [], []. split_and!; [done | done | by apply HQ].
    + split; [done|]. intros (v & text' & [-> ->]%eq_sym%app_nil & _ & Hq%HQ). congruence.
  - destruct (here (t :: text)) eqn:Hh.
    + split; [|done]. intros _. exists [], (t :: text). split_and!; [done | done | by apply HQ].
    + assert ((t =? r) || (r =? ch_dot) = true ↔ atom_has (atom_of r) t) as Ha.
      { rewrite <- atom_of_has, (Z.eqb_sym t r), orb_comm. done. }
      destruct ((t =? r) || (r =? ch_dot)); [rewrite IH|]; (split; [|intros ([|u v] & text' & Ht & Hv & Hq)]).
      * intros (v & text' & -> & Hv & Hq). exists (t :: v), text'. split_and!; [done | | done].
        constructor; [by apply Ha | done].
      * simpl in Ht. subst. apply HQ in Hq. congruence.
      * injection Ht as <- ->. inversion Hv. subst. by exists v, text'.
      * done.
      * simpl in Ht. subst. apply HQ in Hq. congruence.
      * injection Ht as <- ->. inversion Hv as [|? ? Hu _]. subst. by apply Ha in Hu.
Qed.

Lemma matchhere_two r s re text : matchhere (r :: s :: re) text =
  if s =? ch_star then matchstar (matchhere re) r text
  else match text with
       | [] => false
       | t :: text => if (r =? ch_dot) || (r =? t) then matchhere (s :: re) text else false
       end.
Proof. done. Qed.

Lemma parse_items_two r s re : parse_items (r :: s :: re) =
  if s =? ch_star then (Many (atom_of r) :: (parse_items re).1, (parse_items re).2)
  else (One (atom_of r) :: (parse_items (s :: re)).1, (parse_items (s :: re)).2).
Proof.
  change (parse_items (r :: s :: re)) with
    (if s =? ch_star then let '(l, e) := parse_items re in (Many (atom_of r) :: l, e)
     else let '(l, e) := parse_items (s :: re) in (One (atom_of r) :: l, e)).
  destruct (s =? ch_star); [by destruct (parse_items re) | by destruct (parse_items (s :: re))].
Qed.

Lemma matchhere_spec n : ∀ re text, (length re ≤ n)%nat →
  matchhere re text = true ↔ prefix_of (parse_items re).1 (parse_items re).2 text.
Proof.
  induction n as [|n IH]; intros re text Hn.
  { destruct re; [|simpl in Hn; lia]. split; [|done]. intros _. exists [], text. split_and!; [done | constructor | done]. }
  destruct re as [|r re1].
  { split; [|done]. intros _. exists [], text. split_and!; [done | constructor | done]. }
  assert (∀ re', (length re' ≤ n)%nat → match text with
      | [] => false
      | t :: text => if (r =? ch_dot) || (r =? t) then matchhere re' text else false end = true ↔
    prefix_of (One (atom_of r) :: (parse_items re').1) (parse_items re').2 text) as Hone.
  { intros re' Hl. rewrite prefix_one. destruct text as [|t text]; [naive_solver|].
    pose proof (atom_of_has r t) as Ha. destruct ((r =? ch_dot) || (r =? t)).
    - rewrite IH by done. naive_solver.
    - naive_solver. }
  simpl in Hn. destruct re1 as [|s re2].
  - cbn [matchhere parse_items]. destruct (r =? ch_dollar); [|exact (Hone [] ltac:(simpl; lia))]. simpl. split.
    + destruct text; [|done]. intros _. exists [], []. split_and!; [done | constructor | done].
    + intros (mid & post & -> & Hd & He). inversion Hd. subst. by rewrite (He eq_refl).
  - rewrite matchhere_two, parse_items_two. destruct (s =? ch_star); [|apply Hone; lia].
    cbn [fst snd]. rewrite prefix_many. apply matchstar_spec. intros t. apply IH. simpl in Hn. lia.
Qed.

Lemma match_anywhere_spec re text :
  match_anywhere re text = true ↔ ∃ pre rest, text = pre ++ rest ∧ matchhere re rest = true.
Proof.
  induction text as [|t text IH]; simpl.
  - destruct (matchhere re []) eqn:E.
    + split; [|done]. intros _. by exists [], [].
    + split; [done|]. intros (pre & rest & [-> ->]%eq_sym%app_nil & H). congruence.
  - destruct (matchhere re (t :: text)) eqn:E.
    + split; [|done]. intros _. by exists [], (t :: text).
    + rewrite IH. split.
      * intros (pre & rest & -> & H). by exists (t :: pre), rest.
      * intros ([|u pre] & rest & Ht & H); simpl in Ht; [subst; congruence|].
        injection Ht as <- ->. by exists pre, rest.
Qed.

(** match decides the language of its patterns: it succeeds exactly where
    some part of the text is matched by the characters, dots and stars of the
    pattern, at the start of the text after a '^' and up to its end before a
    '$'. *)
Theorem match_decides re text : rmatch re text = true ↔ occurs (parse_regex re) text.
Proof.
  assert (∀ re, match_anywhere re text = true ↔ occurs (Regex false (parse_items re).1 (parse_items re).2) text) as Hany.
  { intros re'. rewrite match_anywhere_spec. unfold occurs. simpl. split.
    - intros (pre & rest & -> & (mid & post & -> & Hd & He)%(matchhere_spec (length re'))); [|done]. by exists pre, mid, post.
    - intros (pre & mid & post & -> & Hd & _ & He). exists pre, (mid ++ post). split; [done|].
      apply (matchhere_spec (length re')); [done|]. by exists mid, post. }
  destruct re as [|r re]; [apply (Hany [])|]. simpl. destruct (r =? ch_caret); [|apply (Hany (r :: re))].
  rewrite (matchhere_spec (length re)) by done. unfold occurs. simpl. split.
  - intros (mid & post & -> & Hd & He). by exists [], mid, post.
  - intros (pre & mid & post & -> & Hd & Hb & He). rewrite (Hb eq_refl). by exists mid, post.
Qed.

(** ** The lines grep prints *)

(** The complete lines of a text, the part before it being [acc], and what
    follows the last of them. *)
Fixpoint lines (acc l : list Z) : list (list Z) :=
  match l with
  | [] => []
  | c :: l => if c =? ch_nl then acc :: lines [] l else lines (acc ++ [c]) l
  end.
Fixpoint last_part (acc l : list Z) : list Z :=
  match l with
  | [] => acc
  | c :: l => if c =? ch_nl then last_part [] l else last_part (acc ++ [c]) l
  end.
Definition matching (pattern l : list Z) : list Z :=
  concat ((λ x, x ++ [ch_nl]) <$> filter (λ x, rmatch pattern x = true) (lines [] l)).

Lemma lines_none acc l : ch_nl ∉ l → lines acc l = [] ∧ last_part acc l = acc ++ l.
Proof.
  revert acc. induction l as [|c l IH]; intros acc Hl; simpl; [by rewrite app_nil_r|].
  rewrite (proj2 (Z.eqb_neq c ch_nl)) by set_solver. rewrite (cons_middle c acc l), app_assoc.
  apply IH. set_solver.
Qed.

Lemma lines_cons acc a b : ch_nl ∉ a →
  lines acc (a ++ ch_nl :: b) = (acc ++ a) :: lines [] b ∧ last_part acc (a ++ ch_nl :: b) = last_part [] b.
Proof.
  revert acc. induction a as [|c a IH]; intros acc Ha; simpl; [by rewrite app_nil_r|].
  rewrite (proj2 (Z.eqb_neq c ch_nl)) by set_solver. rewrite (cons_middle c acc a), app_assoc.
  apply IH. set_solver.
Qed.

Lemma line_split l : ch_nl ∉ l ∨ ∃ a b, l = a ++ ch_nl :: b ∧ ch_nl ∉ a.
Proof.
  destruct (decide (ch_nl ∈ l)) as [Hin|]; [right | by left].
  by apply list_elem_of_split_l in Hin as (a & b & ? & ?); exists a, b.
Qed.

(** Induction on the lines of a text. *)
Lemma lines_ind (P : list Z → Prop) :
  (∀ l, ch_nl ∉ l → P l) → (∀ a b, ch_nl ∉ a → P b → P (a ++ ch_nl :: b)) → ∀ l, P l.
Proof.
  intros H1 H2 l. induction (well_founded_ltof _ length l) as [l _ IH]. unfold ltof in IH.
  destruct (line_split l) as [?|(a & b & -> & ?)]; [by apply H1|]. apply H2; [done|]. apply IH.
  rewrite length_app. simpl. lia.
Qed.

Lemma matching_none pattern l : ch_nl ∉ l → matching pattern l = [].
Proof. intros Hl. unfold matching. by rewrite (proj1 (lines_none [] l Hl)). Qed.

Lemma matching_cons pattern a b : ch_nl ∉ a →
  matching pattern (a ++ ch_nl :: b) = (if rmatch pattern a then a ++ [ch_nl] else []) ++ matching pattern b.
Proof.
  intros Ha. unfold matching. rewrite (proj1 (lines_cons [] a b Ha)), app_nil_l, filter_cons.
  destruct (rmatch pattern a); [by rewrite decide_True | by rewrite decide_False].
Qed.

Lemma matching_app pattern l r : matching pattern (l ++ r) = matching pattern l ++ matching pattern (last_part [] l ++ r).
Proof.
  induction l as [l Hl|a b Ha IH] using lines_ind.
  - by rewrite (proj2 (lines_none [] l Hl)), (matching_none _ l).
  - rewrite <- app_assoc. simpl. rewrite !matching_cons, IH, (proj2 (lines_cons [] a b Ha)) by done.
    by rewrite app_assoc.
Qed.

Lemma lines_app l r : lines [] (l ++ r) = lines [] l ++ lines [] (last_part [] l ++ r).
Proof.
  induction l as [l Hl|a b Ha IH] using lines_ind.
  - destruct (lines_none [] l Hl) as [-> ->]. done.
  - rewrite <- app_assoc. simpl. rewrite (proj1 (lines_cons [] a (b ++ r) Ha)), IH.
    destruct (lines_cons [] a b Ha) as [-> ->]. done.
Qed.

Lemma last_part_suffix l : last_part [] l `suffix_of` l ∧ ch_nl ∉ last_part [] l ∧ (ch_nl ∈ l → last_part [] l ≠ l).
Proof.
  induction l as [l Hl|a b Ha (IH1 & IH2 & IH3)] using lines_ind.
  - rewrite (proj2 (lines_none [] l Hl)). done.
  - rewrite (proj2 (lines_cons [] a b Ha)). split_and!; [|done|].
    + apply suffix_app_r, suffix_cons_r, IH1.
    + intros _ E. apply IH2. rewrite E. set_solver.
Qed.

(** ** Strings in memory *)

Lemma bytes_at_app m p a b : bytes_at m p (a ++ b) ↔ bytes_at m p a ∧ bytes_at m (p + Z.of_nat (length a)) b.
Proof.
  split.
  - intros H. split; intros k c Hk.
    + apply H. by rewrite lookup_app_l by (by eapply lookup_lt_Some).
    + rewrite <- (H (length a + k)%nat c); [f_equal; lia|]. rewrite lookup_app_r by lia.
      by replace (length a + k - length a)%nat with k by lia.
  - intros [Ha Hb] k c [Hk|[Hl Hk]]%lookup_app_Some; [by apply Ha|].
    rewrite <- (Hb _ _ Hk). f_equal. lia.
Qed.

Lemma bytes_at_cons m p c l : bytes_at m p (c :: l) ↔ m p = c ∧ bytes_at m (p + 1) l.
Proof.
  rewrite (bytes_at_app m p [c] l). simpl. split; intros [H ?]; (split; [|done]).
  - rewrite <- (H 0%nat c eq_refl). f_equal. lia.
  - intros [|k] d [= <-]. by rewrite Z.add_0_r.
Qed.

Lemma bytes_at_agree m m' p l : (∀ x, p ≤ x → m' x = m x) → bytes_at m p l → bytes_at m' p l.
Proof. intros Hm Hl k c Hk. rewrite Hm by lia. by apply Hl. Qed.

Lemma bytes_spec m p l : bytes_at m p l → bytes m p (Z.of_nat (length l)) = l.
Proof.
  intros H. apply list_eq. intros i. unfold bytes. rewrite list_lookup_fmap, Nat2Z.id.
  destruct (decide (i < length l)%nat) as [Hi|Hi].
  - rewrite lookup_seq_lt by done. destruct (lookup_lt_is_Some_2 l i Hi) as [c Hc]. simpl. rewrite Hc. f_equal. by apply H.
  - by rewrite lookup_seq_ge, lookup_ge_None_2 by lia.
Qed.

Lemma string_at_spec m a : ∀ p fuel, bytes_at m p a → 0 ∉ a → m (p + Z.of_nat (length a)) = 0 →
  (length a < fuel)%nat → string_at fuel m p = Some a.
Proof.
  induction a as [|c a IH]; intros p [|fuel] Ha H0 Hend Hf; simpl in *; try lia.
  - rewrite Z.add_0_r in Hend. by rewrite Hend.
  - apply bytes_at_cons in Ha as [-> Ha]. rewrite (proj2 (Z.eqb_neq c 0)) by set_solver.
    rewrite IH; [done | done | set_solver | | lia]. rewrite <- Hend. f_equal. lia.
Qed.

Lemma strchr_bytes m p a c x fuel : bytes_at m p a → 0 ∉ a → c ∉ a → c ≠ 0 → (length a < fuel)%nat →
  m (p + Z.of_nat (length a)) = x →
  (x = c → strchr fuel m p c = Some (Some (p + Z.of_nat (length a)))) ∧ (x = 0 → strchr fuel m p c = Some None).
Proof.
  intros Ha H0 Hc Hc0 Hf <-. apply strchr_spec; [done | | lia]. intros j Hj.
  destruct (lookup_lt_is_Some_2 a (Z.to_nat j) ltac:(lia)) as [d Hd].
  pose proof (Ha _ _ Hd) as E. rewrite Z2Nat.id in E by lia. rewrite E. apply list_elem_of_lookup_2 in Hd. split; intros ->; contradiction.
Qed.

Lemma store_bytes_spec l : Forall is_byte l → ∀ m p,
  bytes_at (store_bytes m p l) p l ∧
  (∀ x, x < p ∨ p + Z.of_nat (length l) ≤ x → store_bytes m p l x = m x) ∧
  (wf_mem m → wf_mem (store_bytes m p l)).
Proof.
  induction 1 as [|c l Hc Hl IH]; intros m p; simpl; [done|]. destruct (IH (store8 m p c) (p + 1)) as (H1 & H2 & H3).
  split_and!.
  - apply bytes_at_cons. split; [|done]. rewrite H2 by lia. rewrite store8_eq. by apply u8_id.
  - intros x Hx. rewrite H2 by lia. apply store8_ne. lia.
  - intros Hm. by apply H3, wf_store8.
Qed.

Lemma wf_copy_up n : ∀ m d s, wf_mem m → wf_mem (copy_up m d s n).
Proof. induction n as [|n IH]; intros m d s Hm; simpl; [done|]. by apply IH, wf_store8. Qed.

(** memmove to a lower address moves the bytes. *)
Lemma memmove_down m d s l : wf_mem m → bytes_at m s l → d ≤ s → bytes_at (memmove m d s (Z.of_nat (length l))) d l.
Proof.
  intros Hm Hl Hd k c Hk. pose proof (lookup_lt_Some _ _ _ Hk). unfold memmove. rewrite copy_up_spec by (done || lia).
  unfold within. rewrite Nat2Z.id. rewrite (proj2 (Z.leb_le _ _)), (proj2 (Z.ltb_lt _ _)) by lia.
  rewrite <- (Hl k c Hk). simpl. f_equal. lia.
Qed.

Section prints.
Context {W : Type} `{UserSys W} (fd : Z) (file out : W → list Z).
(** [fd] is a file of which [file] is still to be read, and [out] is what has
    been written to the standard output. *)
Hypothesis read_file : ∀ w n, 0 < n → ∃ w', us_read fd n w = Ok (Some (take (Z.to_nat n) (file w))) w' ∧
  file w' = drop (Z.to_nat n) (file w) ∧ out w' = out w.
Hypothesis write_out : ∀ w l, ∃ r w', us_write 1 l w = Ok r w' ∧ out w' = out w ++ l ∧ file w' = file w.
Context (buf : Z) (pattern : list Z).

(** [s'] differs from [s] by what grep printed. *)
Definition printed (l : list Z) (p : Z) (s s' : ust W) : Prop :=
  out (u_os s') = out (u_os s) ++ l ∧ file (u_os s') = file (u_os s) ∧
  (∀ x, p ≤ x → u_mem s' x = u_mem s x) ∧ (wf_mem (u_mem s) → wf_mem (u_mem s')).

(** One line. *)
Lemma grep_line fuel p a b s : bytes_at (u_mem s) p (a ++ ch_nl :: b) → 0 ∉ a → ch_nl ∉ a → (length a < 1024)%nat →
  ∃ s', grep_lines (S fuel) pattern p s = grep_lines fuel pattern (p + Z.of_nat (length a) + 1) s' ∧
    printed (if rmatch pattern a then a ++ [ch_nl] else []) (p + Z.of_nat (length a) + 1) s s'.
Proof.
  intros Hm H0 Ha Hl. set (q := p + Z.of_nat (length a)). apply bytes_at_app in Hm as [Hma [Hq Hmb]%bytes_at_cons].
  fold q in Hq, Hmb. cbn [grep_lines]. rewrite (bind_ok (gets u_mem) _ s (u_mem s) s eq_refl).
  destruct (strchr_bytes (u_mem s) p a ch_nl ch_nl (Z.to_nat BUFSZ)) as [Hs _]; [done.. | unfold BUFSZ; lia | done |].
  rewrite (Hs eq_refl). fold q. set (s1 := Ust (store8 (u_mem s) q 0) (u_os s)).
  rewrite (bind_ok (poke q 0) _ s tt s1 eq_refl). rewrite (bind_ok (gets u_mem) _ s1 (u_mem s1) s1 eq_refl).
  assert (bytes_at (u_mem s1) p a) as Hma1.
  { intros k c Hk. subst s1. simpl. rewrite store8_ne; [by apply Hma|]. apply lookup_lt_Some in Hk. lia. }
  rewrite (string_at_spec _ a); [|done|done|subst s1; simpl; fold q; by rewrite store8_eq | unfold BUFSZ; lia].
  destruct (rmatch pattern a).
  - set (s2 := Ust (store8 (u_mem s1) q ch_nl) (u_os s1)).
    assert (bytes (u_mem s2) p (q + 1 - p) = a ++ [ch_nl]) as Hb.
    { replace (q + 1 - p) with (Z.of_nat (length (a ++ [ch_nl]))) by (rewrite length_app; simpl; lia).
      apply bytes_spec. apply bytes_at_app. split.
      - intros k c Hk. subst s2. simpl. rewrite store8_ne; [by apply Hma1|]. apply lookup_lt_Some in Hk. lia.
      - fold q. intros [|k] d [= <-]. rewrite Z.add_0_r. subst s2. simpl. by rewrite store8_eq. }
    destruct (write_out (u_os s) (a ++ [ch_nl])) as (r & w' & Hw & Ho & Hf).
    exists (Ust (u_mem s2) w'). split; [|split_and!; simpl; [done | done | |]].
    + refine (bind_ok _ (λ _, grep_lines fuel pattern (q + 1)) s1 tt _ _). unfold when.
      rewrite (bind_ok (poke q ch_nl) _ s1 tt s2 eq_refl). unfold gets, mbind, M_bind, os, zoom.
      rewrite Hb. simpl. by rewrite Hw.
    + intros x Hx. rewrite !store8_ne by lia. done.
    + intros. by apply wf_store8, wf_store8.
  - exists s1. split; [done|]. split_and!; simpl; [by rewrite app_nil_r | done | |].
    + intros x Hx. rewrite store8_ne by lia. done.
    + intros. by apply wf_store8.
Qed.

Lemma grep_lines_spec l : 0 ∉ l → ∀ fuel p s, (length l < fuel)%nat → (length l < 1024)%nat →
  bytes_at (u_mem s) p l → u_mem s (p + Z.of_nat (length l)) = 0 →
  let p' := p + Z.of_nat (length l) - Z.of_nat (length (last_part [] l)) in
  ∃ s', grep_lines fuel pattern p s = Ok p' s' ∧ printed (matching pattern l) p' s s'.
Proof.
  induction l as [l Hl|a b Ha IH] using lines_ind; intros H0 [|fuel] p s Hf Hlen Hm Hend p'; [lia| |lia|].
  - exists s. subst p'. rewrite (proj2 (lines_none [] l Hl)), app_nil_l, (matching_none _ l) by done.
    replace (p + Z.of_nat (length l) - Z.of_nat (length l)) with p by lia. cbn [grep_lines].
    destruct (strchr_bytes (u_mem s) p l ch_nl 0 (Z.to_nat BUFSZ)) as [_ Hs]; [done.. | unfold BUFSZ; lia | done |].
    split; [unfold gets, mbind, M_bind; by rewrite (Hs eq_refl)|]. unfold printed. by rewrite app_nil_r.
  - assert (0 ∉ a ∧ 0 ∉ b) as [H0a H0b] by set_solver. rewrite length_app in Hf, Hlen, Hend. simpl in Hf, Hlen, Hend.
    destruct (grep_line fuel p a b s) as (s1 & E & Ho1 & Hf1 & Hm1 & Hw1); [done.. | lia |].
    apply bytes_at_app in Hm as [_ [_ Hmb]%bytes_at_cons].
    destruct (IH H0b fuel (p + Z.of_nat (length a) + 1) s1) as (s' & E' & Ho & Hf' & Hm' & Hw); [lia | lia | | |].
    + by eapply bytes_at_agree.
    + rewrite Hm1 by lia. rewrite <- Hend. f_equal. lia.
    + exists s'. assert (p' = p + Z.of_nat (length a) + 1 + Z.of_nat (length b) - Z.of_nat (length (last_part [] b))) as Ep.
      { subst p'. rewrite (proj2 (lines_cons [] a b Ha)), length_app. simpl. lia. }
      destruct (last_part_suffix b) as ([t Et] & _). pose proof (f_equal length Et) as El. rewrite length_app in El.
      rewrite E, E', Ep. split; [done|]. split_and!.
      * rewrite Ho, Ho1, matching_cons by done. by rewrite app_assoc.
      * by rewrite Hf'.
      * intros x Hx. rewrite Hm' by lia. apply Hm1. lia.
      * auto.
Qed.

(** A text of lines that fit the buffer. *)
Definition text_ok (l : list Z) : Prop := Forall (λ c, is_byte c ∧ c ≠ 0) l.
Definition fits (l : list Z) : Prop := Forall (λ x, (length x < 1023)%nat) (lines [] l).

(** The buffer starts with [c], an incomplete line. *)
Record carries (c : list Z) (s : ust W) : Prop := {
  ca_bytes : bytes_at (u_mem s) buf c;
  ca_wf : wf_mem (u_mem s);
  ca_nl : ch_nl ∉ c;
  ca_len : (length c < 1023)%nat;
  ca_text : text_ok (c ++ file (u_os s));
  ca_fits : fits (c ++ file (u_os s))
}.

Lemma text_ok_zero l : text_ok l → 0 ∉ l ∧ Forall is_byte l.
Proof.
  intros Hl. split; [|by eapply list.Forall_impl; [exact Hl | naive_solver]].
  intros H0. eapply list.Forall_forall in Hl; [|exact H0]. naive_solver.
Qed.

(** A full buffer without a newline is the end of the lines that matter. *)
Lemma no_newline_left l r : ch_nl ∉ l → (length l < 1023)%nat ∧ r = [] ∨ length l = 1023%nat →
  fits (l ++ r) → ch_nl ∉ r.
Proof.
  intros Hl [[_ ->]|Hlen] Hf; [set_solver|]. destruct (line_split r) as [?|(a & b & -> & Ha)]; [done|].
  rewrite app_assoc in Hf. unfold fits in Hf. rewrite (proj1 (lines_cons [] (l ++ a) b ltac:(set_solver))) in Hf.
  inversion Hf as [|? ? Hx _]. subst. simpl in Hx. rewrite length_app in Hx. lia.
Qed.

(** read and the terminator: [l] is what was read. *)
Lemma grep_read fuel c s : carries c s → file (u_os s) ≠ [] →
  ∃ l s1, l ≠ [] ∧ file (u_os s) = l ++ file (u_os s1) ∧ out (u_os s1) = out (u_os s) ∧ wf_mem (u_mem s1) ∧
    ((length (c ++ l) < 1023)%nat ∧ file (u_os s1) = [] ∨ length (c ++ l) = 1023%nat) ∧
    bytes_at (u_mem s1) buf (c ++ l) ∧ u_mem s1 (buf + Z.of_nat (length (c ++ l))) = 0 ∧
    grep_loop buf (S fuel) pattern fd (Z.of_nat (length c)) s =
      (p ← grep_lines (Z.to_nat BUFSZ) pattern buf;
       let m := if p =? buf then 0 else Z.of_nat (length (c ++ l)) in
       if 0 <? m then
         modify (λ s, Ust (memmove (u_mem s) buf p (m - (p - buf))) (u_os s));;
         grep_loop buf fuel pattern fd (m - (p - buf))
       else grep_loop buf fuel pattern fd m) s1.
Proof.
  intros [Hb Hwf Hnl Hlen Htx Hfit] Hne. set (n := BUFSZ - Z.of_nat (length c) - 1).
  assert (Z.to_nat n = 1023 - length c)%nat as En by (subst n; unfold BUFSZ; lia).
  destruct (read_file (u_os s) n ltac:(lia)) as (w' & Hr & Hf & Ho).
  set (l := take (Z.to_nat n) (file (u_os s))) in *.
  apply list.Forall_app in Htx as [_ Htx]. rewrite <- (take_drop (Z.to_nat n) (file (u_os s))) in Htx.
  apply list.Forall_app in Htx as [[Hl0 Hlb]%text_ok_zero _].
  destruct (store_bytes_spec l Hlb (u_mem s) (buf + Z.of_nat (length c))) as (Hs1 & Hs2 & Hs3).
  set (m := store_bytes (u_mem s) (buf + Z.of_nat (length c)) l) in *.
  assert (l ≠ []) as Hlne.
  { subst l. destruct (file (u_os s)); [done|]. by destruct (Z.to_nat n) eqn:E; [lia|]. }
  exists l, (Ust (store8 m (buf + Z.of_nat (length (c ++ l))) 0) w'). cbn [u_mem u_os]. split_and!.
  - done.
  - rewrite Hf. subst l. by rewrite take_drop.
  - done.
  - by apply wf_store8, Hs3.
  - rewrite Hf. subst l. rewrite length_app, length_take. destruct (decide (Z.to_nat n ≤ length (file (u_os s)))%nat).
    + right. lia.
    + left. split; [lia|]. apply drop_ge. lia.
  - intros k x Hk. rewrite store8_ne by (apply lookup_lt_Some in Hk; lia).
    revert k x Hk. apply bytes_at_app. split; [|done]. intros k x Hk. rewrite Hs2; [by apply Hb|].
    apply lookup_lt_Some in Hk. lia.
  - by rewrite store8_eq.
  - cbn [grep_loop]. unfold mbind at 1, M_bind at 1, os, zoom. fold n. rewrite Hr. cbv beta iota.
    clearbody l. destruct l as [|x l']; [done|]. fold m. rewrite length_app, Nat2Z.inj_add, Z.add_assoc. reflexivity.
Qed.

(** One read, and the lines it completes. *)
Lemma grep_round fuel c s : carries c s → file (u_os s) ≠ [] →
  ∃ c' s', grep_loop buf (S fuel) pattern fd (Z.of_nat (length c)) s = grep_loop buf fuel pattern fd (Z.of_nat (length c')) s' ∧
    carries c' s' ∧ (length (file (u_os s')) < length (file (u_os s)))%nat ∧
    out (u_os s') ++ matching pattern (c' ++ file (u_os s')) = out (u_os s) ++ matching pattern (c ++ file (u_os s)).
Proof.
  intros Hc Hne. destruct (grep_read fuel c s Hc Hne) as (l & s1 & Hl & Hf & Ho & Hwf & Hfull & Hb & Hz & ->).
  destruct Hc as [_ _ Hnl _ Htx Hfit]. rewrite Hf in Htx, Hfit |- *. rewrite app_assoc in Htx, Hfit |- *.
  set (t := c ++ l) in *. set (r := file (u_os s1)) in *. pose proof (proj1 (list.Forall_app _ t r) Htx) as [Htt Htr].
  destruct (grep_lines_spec t (proj1 (text_ok_zero t Htt)) (Z.to_nat BUFSZ) buf s1)
    as (s2 & Hg & Ho2 & Hf2 & Hm2 & Hw2); [unfold BUFSZ; lia | lia | done | done |].
  rewrite (bind_ok _ _ _ _ _ Hg). clear Hg. cbv zeta. destruct (last_part_suffix t) as ([u Hu] & Hnt & Hneq).
  pose proof (f_equal length Hu) as Hul. rewrite length_app in Hul. set (k := last_part [] t) in *.
  assert (length l > 0)%nat as Hlpos by (destruct l; [done | simpl; lia]).
  rewrite length_app. destruct (line_split t) as [Hnot|(a & b & Hab & Ha)].
  - exists [], s2. assert (k = t) as -> by (subst k; by rewrite (proj2 (lines_none [] t Hnot))).
    rewrite (proj2 (Z.eqb_eq _ buf)) by lia. rewrite (proj2 (Z.ltb_ge 0 0)) by lia.
    pose proof (no_newline_left t r Hnot Hfull Hfit) as Hr.
    split_and!; [done | | rewrite Hf2; fold r; lia |].
    + split; simpl; [by intros ? ? ? | auto | set_solver | lia | by rewrite Hf2 |].
      rewrite Hf2. fold r. unfold fits. rewrite (proj1 (lines_none [] r Hr)). constructor.
    + rewrite Hf2, Ho2, Ho. fold r. simpl. rewrite !matching_none by set_solver. by rewrite !app_nil_r.
  - assert (ch_nl ∈ t) as Hin by (rewrite Hab; set_solver).
    assert (length k < length t)%nat as Hkt.
    { destruct u as [|x u]; [by destruct (Hneq Hin)|]. simpl in Hul. lia. }
    rewrite (proj2 (Z.eqb_neq _ buf)) by lia. rewrite (proj2 (Z.ltb_lt _ _)) by lia.
    set (p := buf + Z.of_nat (length t) - Z.of_nat (length k)) in *.
    replace (Z.of_nat (length t) - (p - buf)) with (Z.of_nat (length k)) by lia.
    exists k, (Ust (memmove (u_mem s2) buf p (Z.of_nat (length k))) (u_os s2)).
    split_and!; [done | | simpl; rewrite Hf2; fold r; lia |].
    + assert (bytes_at (u_mem s2) p k) as Hbk.
      { rewrite Hu in Hb. apply bytes_at_app in Hb as [_ Hb].
        replace (buf + Z.of_nat (length u)) with p in Hb by lia. by eapply bytes_at_agree. }
      split; cbn [u_mem u_os].
      * by apply memmove_down; [auto | | lia].
      * apply wf_copy_up. auto.
      * done.
      * lia.
      * rewrite Hf2. fold r. apply list.Forall_app. split; [|done]. unfold text_ok in Htt. rewrite Hu in Htt.
        by apply list.Forall_app in Htt as [_ ?].
      * rewrite Hf2. fold r. unfold fits in Hfit |- *. rewrite lines_app in Hfit. by apply list.Forall_app in Hfit as [_ ?].
    + simpl. rewrite Hf2, Ho2, Ho, (matching_app _ t r). fold r k. by rewrite app_assoc.
Qed.

Lemma grep_loop_spec fuel : ∀ c s, carries c s → (length (file (u_os s)) < fuel)%nat →
  ∃ s', grep_loop buf fuel pattern fd (Z.of_nat (length c)) s = Ok tt s' ∧
    out (u_os s') = out (u_os s) ++ matching pattern (c ++ file (u_os s)).
Proof.
  induction fuel as [|fuel IH]; intros c s Hc Hf; [lia|].
  destruct (decide (file (u_os s) = [])) as [E|Hne].
  - destruct Hc as [_ _ Hnl Hlen _ _].
    destruct (read_file (u_os s) (BUFSZ - Z.of_nat (length c) - 1)) as (w' & Hr & _ & Ho); [unfold BUFSZ; lia|].
    exists (Ust (u_mem s) w'). cbn [grep_loop u_os]. unfold mbind, M_bind, os, zoom. rewrite Hr, E, take_nil.
    split; [done|]. by rewrite Ho, app_nil_r, matching_none, app_nil_r.
  - destruct (grep_round fuel c s Hc Hne) as (c' & s1 & -> & Hc' & Hlt & Hout).
    destruct (IH c' s1 Hc' ltac:(lia)) as (s' & Hg & Ho). exists s'. split; [done|]. by rewrite Ho, Hout.
Qed.

(** C34. grep on a regular file without NUL bytes whose lines have at most 1022
    characters terminates and prints exactly the lines that match, in order;
    a last line without a newline is not looked at. *)
Theorem grep_prints_matching fuel s : wf_mem (u_mem s) → text_ok (file (u_os s)) → fits (file (u_os s)) →
  (length (file (u_os s)) < fuel)%nat →
  ∃ s', grep buf fuel pattern fd s = Ok tt s' ∧ out (u_os s') = out (u_os s) ++ matching pattern (file (u_os s)).
Proof.
  intros Hw Ht Hf Hl. apply (grep_loop_spec fuel [] s); [|done].
  split; [by intros ? ? ? | done | set_solver | simpl; lia | done | done].
Qed.
End prints.

(** ** A file and a pipe *)

(** The system calls of a process that reads a regular file. *)
Record disk_file := DiskFile { df_rest : list Z; df_out : list Z }.
#[export] Instance disk_file_sys : UserSys disk_file := {|
  us_read _ n w := Ok (Some (take (Z.to_nat n) (df_rest w))) (DiskFile (drop (Z.to_nat n) (df_rest w)) (df_out w));
  us_write _ l w := Ok (Z.of_nat (length l)) (DiskFile (df_rest w) (df_out w ++ l));
  us_open _ _ w := Ok 3 w;
  us_close _ w := Ok 0 w;
  us_fstat _ w := Ok None w;
  us_sbrk _ w := Ok (-1) w
|}.

Lemma grep_prints_matching_witness :
  ∃ s', grep 4096 20 [ch_caret; 97] 3 (Ust (λ _, 0) (DiskFile [97; 98; 10; 98; 97; 10; 97; 10] [])) = Ok tt s' ∧
    df_out (u_os s') = [97; 98; 10; 97; 10].
Proof.
  refine (grep_prints_matching 3 df_rest df_out _ _ 4096 [ch_caret; 97] 20 _ _ _ _ _).
  - intros w n _. eexists. split_and!; reflexivity.
  - intros w l. eexists _, _. split_and!; reflexivity.
  - intros x. cbn. unfold is_byte. lia.
  - unfold text_ok. cbn [u_os df_rest]. repeat (apply list.Forall_cons; split; [unfold is_byte; lia|]). apply list.Forall_nil. exact I.
  - unfold fits. vm_compute. repeat constructor.
  - cbn. lia.
Defined.

(** The system calls of a process that reads a pipe: one chunk per read. *)
Record pipe_in := PipeIn { pn_chunks : list (list Z); pn_out : list Z }.
#[export] Instance pipe_in_sys : UserSys pipe_in := {|
  us_read _ n w :=
    match pn_chunks w with
    | [] => Ok (Some []) w
    | c :: l => Ok (Some (take (Z.to_nat n) c)) (PipeIn (if (Z.to_nat n <? length c)%nat then drop (Z.to_nat n) c :: l else l) (pn_out w))
    end;
  us_write _ l w := Ok (Z.of_nat (length l)) (PipeIn (pn_chunks w) (pn_out w ++ l));
  us_open _ _ w := Ok 3 w;
  us_close _ w := Ok 0 w;
  us_fstat _ w := Ok None w;
  us_sbrk _ w := Ok (-1) w
|}.

(** A read that ends before the first newline is thrown away, although the
    buffer has room: "a" and then "b\n" from a pipe do not match the pattern
    "a", while the same line from a file does. *)
Lemma grep_short_read_loses :
  wp (grep 4096 5 [97] 0) (λ _ s', pn_out (u_os s') = []) (Ust (λ _, 0) (PipeIn [[97]; [98; 10]] [])) ∧
  wp (grep 4096 5 [97] 0) (λ _ s', df_out (u_os s') = [97; 98; 10]) (Ust (λ _, 0) (DiskFile [97; 98; 10] [])).
Proof. split; vm_compute; reflexivity. Qed.
