(* ===== verification/Progs.v ===== *)
(** * Progs: the small user programs (cat, wc, echo, ls, kill, ln, mkdir, rm, init, zombie)

    The programs run on the memory and the system calls of Ulib.v, and on the
    further calls of [ProgSys].  exit does not return: a routine gives None
    where the program has exited.  A program is given its arguments as strings,
    or where it hands out pointers into them, as addresses.

    Shown: cat writes the bytes of its files in order, and wc their lines, words
    and characters, however the reads are cut; both stop with a message at a
    file that cannot be opened; echo writes its arguments; the line of ls for a
    file has the part of the path after the last slash, filled with blanks, and
    the numbers of its stat. *)

From Stdlib Require Import ZArith Lia Bool Ascii.
From stdpp Require Import base option list sets strings numbers.
From S2P Require Import Prelude Cstring Fmt Ulib Grep.

#[local] Open Scope string_scope.
#[local] Open Scope list_scope.
#[local] Open Scope Z_scope.

(** The characters of a literal, and those of a line. *)
Definition chars (s : string) : list Z := (λ a, Z.of_N (N_of_ascii a)) <$> String.list_ascii_of_string s.
Definition line (s : string) : list Z := chars s ++ [ch_nl].

(** The other system calls of user.h.  fork is given what the child runs; exec
    gives None where it does not return. *)
Class ProgSys (W : Type) := {
  us_link : list Z → list Z → M W Z;
  us_unlink : list Z → M W Z;
  us_mkdir : list Z → M W Z;
  us_mknod : list Z → Z → Z → M W Z;
  us_dup : Z → M W Z;
  us_kill : Z → M W Z;
  us_sleep : Z → M W Z;
  us_wait : M W Z;
  us_exec : list Z → list (list Z) → M W (option Z);
  us_fork : M (ust W) (option unit) → M (ust W) Z
}.

Section progs.
Context {W : Type} `{!UserSys W} `{!ProgSys W}.
#[local] Notation G := (M (ust W)).
#[local] Notation X A := (M (ust W) (option A)).

(** What goes on after a routine that may exit. *)
Definition xbind {A B} (m : X A) (k : A → X B) : X B := r ← m; match r with Some a => k a | None => mret None end.
Definition exit {A} : X A := mret None.
Definition run {A} (m : G A) : X A := a ← m; mret (Some a).
#[local] Notation "m ;;; k" := (xbind m (λ _, k)) (at level 100, k at level 200, right associativity).

(** The static array buf of cat.c and of wc.c, of 512 bytes. *)
Context (buf : Z).
Definition BUF : Z := 512.

(** The loop of cat.c, wc.c and grep.c over the files in the arguments. *)
Fixpoint open_each (msg : list Z) (body : Z → list Z → X unit) (args : list (list Z)) : X unit :=
  match args with
  | [] => mret (Some tt)
  | name :: args =>
      fd ← os (us_open name 0);
      if fd <? 0 then run (printf 1 msg [Str (Some name)]);;; exit else
      body fd name;;;
      run (os (us_close fd));;;
      open_each msg body args
  end.

(** ** cat.c *)

Fixpoint cat (fuel : nat) (fd : Z) : X unit :=
  match fuel with
  | O => undef "out of fuel"
  | S fuel =>
      r ← os (us_read fd BUF);
      match r with
      | None => run (printf 1 (line "cat: read error") []);;; exit
      | Some [] => mret (Some tt)
      | Some l =>
          modify (λ s, Ust (store_bytes (u_mem s) buf l) (u_os s));;
          m ← gets u_mem;
          let n := Z.of_nat (length l) in
          k ← os (us_write 1 (bytes m buf n));
          if negb (k =? n) then run (printf 1 (line "cat: write error") []);;; exit else cat fuel fd
      end
  end.

(** for(i = 1; i < argc; i++) *)
Definition cat_files (fuel : nat) : list (list Z) → X unit := open_each (line "cat: cannot open %s") (λ fd _, cat fuel fd).

Definition cat_main (fuel : nat) (argv : list (list Z)) : X unit :=
  match argv with
  | _ :: name :: args => cat_files fuel (name :: args);;; exit
  | _ => cat fuel 0;;; exit
  end.

(** ** wc.c *)

(** l, w, c and inword *)
Record counts := Counts { wc_l : Z; wc_w : Z; wc_c : Z; wc_inword : bool }.

(** The string of the blanks: space, carriage return, tab, newline and vertical tab. *)
Definition blanks : list Z := [32; 13; 9; 10; 11].

(** One character; None where an int overflows. *)
Definition wc_char (ch : Z) (k : counts) : option counts :=
  c ← add_int (wc_c k) 1;
  l ← (if ch =? ch_nl then add_int (wc_l k) 1 else Some (wc_l k));
  match strchr 6 (cstr blanks) 0 ch with
  | None => None
  | Some (Some _) => Some (Counts l (wc_w k) c false)
  | Some None =>
      if negb (wc_inword k) then w ← add_int (wc_w k) 1; Some (Counts l w c true)
      else Some (Counts l (wc_w k) c (wc_inword k))
  end.

(** for(i=0; i<n; i++), with [n] rounds to go. *)
Fixpoint wc_buf (m : mem) (n : nat) (i : Z) (k : counts) : option counts :=
  match n with
  | O => Some k
  | S n => k ← wc_char (m (buf + i)) k; wc_buf m n (i + 1) k
  end.

Fixpoint wc_loop (fuel : nat) (fd : Z) (k : counts) : X counts :=
  match fuel with
  | O => undef "out of fuel"
  | S fuel =>
      r ← os (us_read fd BUF);
      match r with
      | None => run (printf 1 (line "wc: read error") []);;; exit
      | Some [] => mret (Some k)
      | Some l =>
          modify (λ s, Ust (store_bytes (u_mem s) buf l) (u_os s));;
          m ← gets u_mem;
          match wc_buf m (length l) 0 k with
          | None => undef "int overflow"
          | Some k => wc_loop fuel fd k
          end
      end
  end.

Definition wc (fuel : nat) (fd : Z) (name : list Z) : X unit :=
  xbind (wc_loop fuel fd (Counts 0 0 0 false)) (λ k,
  run (printf 1 (line "%d %d %d %s") [Word (wc_l k); Word (wc_w k); Word (wc_c k); Str (Some name)])).

Definition wc_files (fuel : nat) : list (list Z) → X unit := open_each (line "wc: cannot open %s") (wc fuel).

Definition wc_main (fuel : nat) (argv : list (list Z)) : X unit :=
  match argv with
  | _ :: name :: args => wc_files fuel (name :: args);;; exit
  | _ => wc fuel 0 [];;; exit
  end.

(** ** echo.c *)

Fixpoint echo_args (args : list (list Z)) : G unit :=
  match args with
  | [] => mret tt
  | a :: args =>
      printf 1 (chars "%s%s") [Str (Some a); Str (Some match args with [] => [ch_nl] | _ => [32] end)];;
      echo_args args
  end.
Definition echo_main (argv : list (list Z)) : X unit := run (echo_args (tail argv));;; exit.

(** ** main of grep.c; [gbuf] is its buffer *)

Section grep_main.
Context (gbuf : Z).

Definition grep_files (fuel : nat) (pattern : list Z) : list (list Z) → X unit :=
  open_each (line "grep: cannot open %s") (λ fd _, run (grep gbuf fuel pattern fd)).

Definition grep_main (fuel : nat) (argv : list (list Z)) : X unit :=
  match argv with
  | _ :: pattern :: name :: args => grep_files fuel pattern (name :: args);;; exit
  | _ :: pattern :: [] => run (grep gbuf fuel pattern 0);;; exit
  | _ => run (printf 2 (line "usage: grep pattern [file ...]") []);;; exit
  end.
End grep_main.

(** ** ls.c *)

Definition DIRSIZ : Z := 14.
Definition T_DIR : Z := 1.
Definition T_FILE : Z := 2.
Definition s16 (x : Z) : Z := if x <? 2 ^ 15 then x else x - 2 ^ 16.

(** struct stat of stat.h. *)
Definition st_type (st : list Z) : Z := s16 (get16 st 0).
Definition st_ino (st : list Z) : Z := get32 st 8.
Definition st_size (st : list Z) : Z := get32 st 16.

(** for(p=path+strlen(path); p >= path && *p != '/'; p--), from the [k]-th
    character down; the result is p. *)
Fixpoint last_slash (m : mem) (path : Z) (k : nat) : Z :=
  match k with
  | O => path - 1
  | S k => if m (path + Z.of_nat k) =? 47 then path + Z.of_nat k else last_slash m path k
  end.

(** strlen of the string at an address. *)
Definition len_at (fuel : nat) (a : Z) : G Z :=
  m ← gets u_mem;
  match strlen fuel (λ i, m (a + i)) 0 with Some n => mret n | None => undef "out of fuel" end.
Definition str_at (fuel : nat) (a : Z) : G (list Z) :=
  m ← gets u_mem;
  match string_at fuel m a with Some l => mret l | None => undef "out of fuel" end.

Section ls.
(** The static array of fmtname, of DIRSIZ + 1 bytes; buf and de of ls; and the
    bound on the strings. *)
Context (nbuf pbuf de : Z) (fuel : nat).

Definition fmtname (path : Z) : G Z :=
  n ← len_at fuel path;
  m ← gets u_mem;
  let p := last_slash m path (S (Z.to_nat n)) + 1 in
  n ← len_at fuel p;
  if DIRSIZ <=? n then mret p else
  modify (λ s, Ust (memmove (u_mem s) nbuf p n) (u_os s));;
  n ← len_at fuel p;
  modify (λ s, Ust (memset (u_mem s) (nbuf + n) 32 (DIRSIZ - n)) (u_os s));;
  mret nbuf.

(** printf(1, "%s %d %d %d\n", fmtname(path), st.type, st.ino, st.size) *)
Definition ls_line (path : Z) (st : list Z) : G unit :=
  f ← fmtname path;
  name ← str_at fuel f;
  printf 1 (line "%s %d %d %d") [Str (Some name); Word (st_type st); Word (st_ino st); Word (st_size st)].

(** while(read(fd, &de, sizeof(de)) == sizeof(de)), where [p] is behind the slash. *)
Fixpoint ls_entries (n : nat) (fd p : Z) : G unit :=
  match n with
  | O => undef "out of fuel"
  | S n =>
      r ← os (us_read fd 16);
      let l := default [] r in
      modify (λ s, Ust (store_bytes (u_mem s) de l) (u_os s));;
      if negb (Z.of_nat (length l) =? 16) then mret tt else
      m ← gets u_mem;
      if m de + 256 * m (de + 1) =? 0 then ls_entries n fd p else
      modify (λ s, Ust (memmove (u_mem s) p (de + 2) DIRSIZ) (u_os s));;
      poke (p + DIRSIZ) 0;;
      name ← str_at fuel pbuf;
      r ← stat name;
      match r with
      | None => printf 1 (line "ls: cannot stat %s") [Str (Some name)]
      | Some st => ls_line pbuf st
      end;;
      ls_entries n fd p
  end.

Definition ls (path : Z) : G unit :=
  name ← str_at fuel path;
  fd ← os (us_open name 0);
  if fd <? 0 then printf 2 (line "ls: cannot open %s") [Str (Some name)] else
  r ← os (us_fstat fd);
  match r with
  | None => printf 2 (line "ls: cannot stat %s") [Str (Some name)];; os (us_close fd);; mret tt
  | Some st =>
      (if st_type st =? T_FILE then ls_line path st
       else if st_type st =? T_DIR then
         n ← len_at fuel path;
         if 512 <? n + 1 + DIRSIZ + 1 then printf 1 (line "ls: path too long") [] else
         m ← gets u_mem;
         match strcpy fuel m pbuf path with
         | None => undef "out of fuel"
         | Some m =>
             modify (λ s, Ust m (u_os s));;
             n ← len_at fuel pbuf;
             poke (pbuf + n) 47;;
             ls_entries fuel fd (pbuf + n + 1)
         end
       else mret tt);;
      os (us_close fd);; mret tt
  end.

(** [dot] is the address of the literal "."; argv holds addresses. *)
Definition ls_main (dot : Z) (argv : list Z) : X unit :=
  match argv with
  | _ :: a :: args => run (foreach (a :: args) ls);;; exit
  | _ => run (ls dot);;; exit
  end.
End ls.

(** ** kill.c, ln.c, mkdir.c, rm.c *)

Definition kill_main (fuel : nat) (argv : list (list Z)) : X unit :=
  match argv with
  | _ :: a :: args =>
      run (foreach (a :: args) (λ a,
        match atoi fuel (cstr a) with
        | Some pid => os (us_kill pid);; mret tt
        | None => undef "int overflow"
        end));;; exit
  | _ => run (printf 2 (line "usage: kill pid...") []);;; exit
  end.

Definition ln_main (argv : list (list Z)) : X unit :=
  match argv with
  | [_; old; new] =>
      r ← os (us_link old new);
      run (when (r <? 0) (printf 2 (line "link %s %s: failed") [Str (Some old); Str (Some new)]));;; exit
  | _ => run (printf 2 (line "Usage: ln old new") []);;; exit
  end.

(** The loop of mkdir.c and rm.c, which stops at the first failure. *)
Fixpoint each_file (call : list Z → M W Z) (msg : list Z) (args : list (list Z)) : G unit :=
  match args with
  | [] => mret tt
  | a :: args =>
      r ← os (call a);
      if r <? 0 then printf 2 msg [Str (Some a)] else each_file call msg args
  end.

Definition mkdir_main (argv : list (list Z)) : X unit :=
  match argv with
  | _ :: a :: args => run (each_file us_mkdir (line "mkdir: %s failed to create") (a :: args));;; exit
  | _ => run (printf 2 (line "Usage: mkdir files...") []);;; exit
  end.
Definition rm_main (argv : list (list Z)) : X unit :=
  match argv with
  | _ :: a :: args => run (each_file us_unlink (line "rm: %s failed to delete") (a :: args));;; exit
  | _ => run (printf 2 (line "Usage: rm files...") []);;; exit
  end.

(** ** init.c and zombie.c *)

(** What the child of init runs. *)
Definition init_child : X unit :=
  r ← os (us_exec (chars "sh") [chars "sh"]);
  match r with
  | None => exit
  | Some _ => run (printf 1 (line "init: exec sh failed") []);;; exit
  end.

(** while((wpid=wait()) >= 0 && wpid != pid) *)
Fixpoint init_wait (fuel : nat) (pid : Z) : G unit :=
  match fuel with
  | O => undef "out of fuel"
  | S fuel =>
      wpid ← os us_wait;
      if (0 <=? wpid) && negb (wpid =? pid) then printf 1 (line "zombie!") [];; init_wait fuel pid else mret tt
  end.

(** One round of for(;;), which waits at most [fuel] times. *)
Definition init_round (fuel : nat) : X unit :=
  run (printf 1 (line "init: starting sh") []);;;
  pid ← us_fork init_child;
  if pid <? 0 then run (printf 1 (line "init: fork failed") []);;; exit else
  run (init_wait fuel pid).

Definition init_open : G unit :=
  let console := chars "console" in
  fd ← os (us_open console 2);
  when (fd <? 0) (os (us_mknod console 1 1);; os (us_open console 2);; mret tt);;
  os (us_dup 0);;
  os (us_dup 0);;
  mret tt.

(** [rounds] rounds of the loop; None once init has exited. *)
Fixpoint init_loop (rounds fuel : nat) : X unit :=
  match rounds with O => mret (Some tt) | S rounds => init_round fuel;;; init_loop rounds fuel end.
Definition init_main (rounds fuel : nat) : X unit := run init_open;;; init_loop rounds fuel.

Definition zombie_main : X unit :=
  pid ← us_fork exit;
  when (0 <? pid) (os (us_sleep 5);; mret tt);;
  exit.
End progs.

(** ** Files *)

Definition upd {A} (f : Z → A) (x : Z) (a : A) : Z → A := λ y, if y =? x then a else f y.

Lemma upd_eq {A} (f : Z → A) x a : upd f x a x = a.
Proof. unfold upd. by rewrite Z.eqb_refl. Qed.
Lemma upd_upd {A} (f : Z → A) x a b y : upd (upd f x a) x b y = upd f x b y.
Proof. unfold upd. by destruct (y =? x). Qed.
Lemma upd_id {A} (f : Z → A) x a y : f x = a → upd f x a y = f y.
Proof. unfold upd. intros <-. by destruct (Z.eqb_spec y x) as [->|]. Qed.

(** The unread bytes of the open descriptors, and what was written to each. *)
Definition sees {W} (rest : W → Z → option (list Z)) (out : W → Z → list Z) (w : W) (R : Z → option (list Z)) (O : Z → list Z) : Prop :=
  (∀ fd, rest w fd = R fd) ∧ (∀ fd, out w fd = O fd).

(** The system calls on the files of [files]: open succeeds where a descriptor
    is closed, read gives at least one byte before the end, and the standard
    output and error take what is written. *)
Class Files {W} `{!UserSys W} (files : list Z → option (list Z)) (rest : W → Z → option (list Z)) (out : W → Z → list Z) := {
  fl_open w R O name l : sees rest out w R O → files name = Some l → (∃ fd, 0 ≤ fd < 16 ∧ R fd = None) →
    wp (us_open name 0) (λ fd w', 0 ≤ fd ∧ R fd = None ∧ sees rest out w' (upd R fd (Some l)) O) w;
  fl_absent w R O name : sees rest out w R O → files name = None →
    wp (us_open name 0) (λ fd w', fd < 0 ∧ sees rest out w' R O) w;
  fl_read w R O fd l n : sees rest out w R O → R fd = Some l → 0 < n →
    wp (us_read fd n) (λ r w', ∃ c l', r = Some c ∧ l = c ++ l' ∧ Z.of_nat (length c) ≤ n ∧ (c = [] → l' = []) ∧
      sees rest out w' (upd R fd (Some l')) O) w;
  fl_write w R O fd l : sees rest out w R O → fd = 1 ∨ fd = 2 →
    wp (us_write fd l) (λ n w', n = Z.of_nat (length l) ∧ sees rest out w' R (upd O fd (O fd ++ l))) w;
  fl_close w R O fd : sees rest out w R O → wp (us_close fd) (λ _ w', sees rest out w' (upd R fd None) O) w
}.

Section files.
Context {W : Type} `{!UserSys W} `{!ProgSys W}.
Context (files : list Z → option (list Z)) (rest : W → Z → option (list Z)) (out : W → Z → list Z).
Context `{!Files files rest out}.
#[local] Notation sees := (sees rest out).

Lemma sees_ext w R R' O O' : (∀ fd, R fd = R' fd) → (∀ fd, O fd = O' fd) → sees w R O → sees w R' O'.
Proof. intros HR HO [H1 H2]. split; intros fd; [by rewrite H1 | by rewrite H2]. Qed.

Lemma wp_os {A} (m : M W A) (Q : A → ust W → Prop) s : wp m (λ a w, Q a (Ust (u_mem s) w)) (u_os s) → wp (os m) Q s.
Proof. intros H. unfold os. apply zoom_wp. by eapply wp_mono; [exact H|]. Qed.

(** What printf prints, on the standard output or error. *)
Lemma wp_prints fd fmt args l R O (Q : unit → ust W → Prop) s : printf_chars fmt args = Some l → Forall is_byte l → fd = 1 ∨ fd = 2 →
  sees (u_os s) R O → (∀ w, sees w R (upd O fd (O fd ++ l)) → Q tt (Ust (u_mem s) w)) → wp (printf fd fmt args) Q s.
Proof.
  intros Hp Hb Hfd Hs HQ. unfold printf. rewrite Hp. clear Hp. revert O s Hs HQ. induction l as [|c l IH]; intros O s Hs HQ; cbn [foreach].
  - wp_step. destruct s as [m w]. apply HQ. eapply sees_ext; [| |exact Hs]; [done|]. intros x. symmetry. apply upd_id. by rewrite app_nil_r.
  - apply list.Forall_cons in Hb as [Hc Hb]. wp_step. unfold putc. wp_step. apply wp_os. rewrite u8_id by done.
    eapply wp_mono; [by apply fl_write|]. intros n w [-> Hw]. wp_step. eapply IH; [done | exact Hw |].
    intros w' Hw'. apply HQ. eapply sees_ext; [done | | exact Hw']. intros x. cbn beta. rewrite upd_upd, upd_eq. by rewrite <- app_assoc.
Qed.

Lemma wp_xbind {A B} (m : M (ust W) (option A)) (k : A → M (ust W) (option B)) Q s :
  wp m (λ r s', match r with Some a => wp (k a) Q s' | None => Q None s' end) s → wp (xbind m k) Q s.
Proof. intros H. unfold xbind. wp_step. eapply wp_mono; [exact H|]. intros [a|] s' H'; [done|]. by wp_step. Qed.

Lemma wp_run {A} (m : M (ust W) A) Q s : wp m (λ a s', Q (Some a) s') s → wp (run m) Q s.
Proof. intros H. unfold run. wp_step. eapply wp_mono; [exact H|]. intros a s' H'. by wp_step. Qed.

(** What a program that handles one file after the other writes: [text] for a
    file that can be opened, and otherwise [absent], and no more. *)
Fixpoint each_text (text : list Z → list Z → list Z) (absent : list Z) (names : list (list Z)) : list Z :=
  match names with
  | [] => []
  | name :: names =>
      match files name with
      | Some l => text name l ++ each_text text absent names
      | None => absent ++ name ++ [ch_nl]
      end
  end.

(** The files that can be opened satisfy [ok]. *)
Definition each_ok (ok : list Z → list Z → Prop) (names : list (list Z)) : Prop :=
  ∀ name, name ∈ names → Forall is_byte name ∧ match files name with Some l => ok name l | None => True end.

(** [body] reads the file and writes [text] to the standard output. *)
Definition body_ok (ok : list Z → list Z → Prop) (text : list Z → list Z → list Z) (body : Z → list Z → M (ust W) (option unit)) : Prop :=
  ∀ name l fd R O s, Forall is_byte name → ok name l → sees (u_os s) R O → R fd = Some l →
  wp (body fd name) (λ r s', r = Some tt ∧ ∃ x, sees (u_os s') (upd R fd x) (upd O 1 (O 1 ++ text name l))) s.

Lemma wp_open_each ok text body msg absent names :
  body_ok ok text body → (∀ name, printf_chars msg [Str (Some name)] = Some (absent ++ name ++ [ch_nl])) → Forall is_byte absent →
  ∀ R O s, each_ok ok names → sees (u_os s) R O → (∃ fd, 0 ≤ fd < 16 ∧ R fd = None) →
  wp (open_each msg body names) (λ _ s', sees (u_os s') R (upd O 1 (O 1 ++ each_text text absent names))) s.
Proof.
  intros Hbody Hmsg Habs. induction names as [|name names IH]; intros R O s Hok Hs Hfd; cbn [open_each each_text].
  - wp_step. eapply sees_ext; [done | | exact Hs]. intros x. symmetry. apply upd_id. by rewrite app_nil_r.
  - destruct (Hok name ltac:(by left)) as [Hn Hf]. wp_step. apply wp_os. destruct (files name) as [l|] eqn:E.
    + eapply wp_mono; [by eapply fl_open|]. intros fd w (Hfd0 & HR & Hw). rewrite (proj2 (Z.ltb_ge _ _)) by lia. cbv iota.
      apply wp_xbind. eapply wp_mono; [by eapply Hbody; [exact Hn | exact Hf | exact Hw | apply upd_eq]|]. intros r s1 (-> & x & Hs1).
      apply wp_xbind, wp_run, wp_os. eapply wp_mono; [by eapply fl_close|]. intros rc w2 Hw2.
      eapply wp_mono; [eapply (IH R); [by intros ? ?; apply Hok; right | | exact Hfd]|].
      * eapply sees_ext; [| |exact Hw2]; intros y; [|done]. rewrite !upd_upd. by apply upd_id.
      * intros r s' Hs'. eapply sees_ext; [done | |exact Hs']. intros y. by rewrite upd_upd, upd_eq, <- app_assoc.
    + eapply wp_mono; [by eapply fl_absent|]. intros fd w [Hneg Hw]. rewrite (proj2 (Z.ltb_lt _ _)) by lia. cbv iota.
      apply wp_xbind, wp_run. eapply (wp_prints 1 _ _ (absent ++ name ++ [ch_nl])); [apply Hmsg | | by left | exact Hw |].
      * rewrite !list.Forall_app. split_and!; [done | done | by repeat constructor].
      * intros w' Hw'. unfold exit. by wp_step.
Qed.

Section cat.
Context (buf : Z).

Lemma wp_cat fuel : ∀ fd l R O s, Forall is_byte l → (length l < fuel)%nat → sees (u_os s) R O → R fd = Some l →
  wp (cat buf fuel fd) (λ r s', r = Some tt ∧ sees (u_os s') (upd R fd (Some [])) (upd O 1 (O 1 ++ l))) s.
Proof.
  induction fuel as [|fuel IH]; intros fd l R O s Hb Hl Hs HR; [lia|]. cbn [cat]. wp_step. apply wp_os.
  eapply wp_mono; [by apply fl_read|]. intros r w (c & l' & -> & -> & _ & Hc & Hw). destruct c as [|b c].
  - wp_step. split; [done|]. rewrite (Hc eq_refl) in *. eapply sees_ext; [done | | exact Hw]. intros x. symmetry. apply upd_id. by rewrite app_nil_r.
  - cbv beta iota. set (t := b :: c) in *. rewrite length_app in Hl. change (length t) with (S (length c)) in Hl.
    apply list.Forall_app in Hb as [Ht Hb]. destruct (store_bytes_spec t Ht (u_mem s) buf) as (Hst & _ & _).
    do 4 wp_step. cbv zeta. wp_step. apply wp_os. cbn [u_os u_mem]. rewrite bytes_spec by done.
    eapply wp_mono; [apply fl_write; [exact Hw | by left]|]. intros n w' [-> Hw']. rewrite Z.eqb_refl. cbn [negb].
    eapply wp_mono; [eapply (IH fd l'); [exact Hb | lia | exact Hw' | apply upd_eq]|]. intros r s' [-> Hs']. split; [done|].
    eapply sees_ext; [| |exact Hs']; intros x; [apply upd_upd|]. cbn beta. by rewrite upd_upd, upd_eq, <- app_assoc.
Qed.

Lemma wp_cat_main fuel prog names stdin R O s :
  let ok l := Forall is_byte l ∧ (length l < fuel)%nat ∧ Z.of_nat (length l) ≤ INT_MAX in
  sees (u_os s) R O → (∃ fd, 0 ≤ fd < 16 ∧ R fd = None) → each_ok (λ _, ok) names → R 0 = Some stdin → ok stdin →
  wp (cat_main buf fuel (prog :: names)) (λ r s', r = None ∧
    sees (u_os s') (if decide (names = []) then upd R 0 (Some []) else R)
      (upd O 1 (O 1 ++ if decide (names = []) then stdin else each_text (λ _ l, l) (chars "cat: cannot open ") names))) s.
Proof.
  intros ok Hs Hfd Hok HR (Hb & Hl & _). destruct names as [|name names]; cbn [cat_main]; apply wp_xbind.
  - eapply wp_mono; [apply (wp_cat fuel 0 _ _ _ _ Hb Hl Hs HR)|]. intros r s' [-> Hs']. unfold exit. by wp_step.
  - eapply wp_mono; [apply (wp_open_each (λ _, ok) (λ _ l, l) _ _ (chars "cat: cannot open ")); [ | reflexivity | by repeat constructor | exact Hok | exact Hs | exact Hfd]|].
    + intros nm l fd R' O' s' _ (Hb' & Hl' & _) Hs' HR'. eapply wp_mono; [by apply (wp_cat fuel fd l)|]. intros r s2 [-> Hs2]. eauto.
    + intros [[]|] s' Hs'; [|done]. unfold exit. by wp_step.
Qed.
End cat.
End files.

(** ** Lines, words and characters *)

Definition blank (c : Z) : bool := bool_decide (c ∈ blanks).

(** The text cut at its blanks, and the words: the parts that are not empty. *)
Fixpoint cut_blanks (l : list Z) : list (list Z) :=
  match l with
  | [] => [[]]
  | c :: l =>
      if blank c then [] :: cut_blanks l else
      match cut_blanks l with x :: xs => (c :: x) :: xs | [] => [[c]] end
  end.
Definition nonempty (x : list Z) : bool := match x with [] => false | _ => true end.
Definition words (l : list Z) : list (list Z) := List.filter nonempty (cut_blanks l).
Definition newlines (l : list Z) : list Z := List.filter (Z.eqb ch_nl) l.

(** The words that begin in [l], where a word is already under way if [b]. *)
Definition new_words (b : bool) (l : list Z) : list (list Z) :=
  if b then List.filter nonempty (tail (cut_blanks l)) else words l.

Lemma cut_blanks_cons l : ∃ x xs, cut_blanks l = x :: xs.
Proof. destruct l as [|c l]; simpl; [eauto|]. destruct (blank c); [eauto|]. destruct (cut_blanks l); eauto. Qed.

Lemma new_words_cons b c l : new_words b (c :: l) = if blank c then new_words false l else
  match b with true => new_words true l | false => (c :: hd [] (cut_blanks l)) :: new_words true l end.
Proof.
  unfold new_words, words. destruct (cut_blanks_cons l) as (x & xs & E). cbn [cut_blanks]. rewrite E. by destruct b, (blank c).
Qed.

Lemma strchr_blanks c : ∃ p, strchr 6 (cstr blanks) 0 c = Some (if blank c then Some p else None).
Proof.
  assert (blank c = (32 =? c) || (13 =? c) || (9 =? c) || (10 =? c) || (11 =? c)) as ->.
  { unfold blank, blanks. case_bool_decide as Hc.
    - rewrite !elem_of_cons in Hc. destruct Hc as [-> |[-> |[-> |[-> |[-> |Hc]]]]]; [done..|]. by apply list.not_elem_of_nil in Hc.
    - rewrite !not_elem_of_cons in Hc. destruct Hc as (H1 & H2 & H3 & H4 & H5 & _). symmetry. rewrite !orb_false_iff, !Z.eqb_neq. by repeat split. }
  cbn [strchr]. change (cstr blanks 0) with 32. change (cstr blanks (0 + 1)) with 13. change (cstr blanks (0 + 1 + 1)) with 9.
  change (cstr blanks (0 + 1 + 1 + 1)) with 10. change (cstr blanks (0 + 1 + 1 + 1 + 1)) with 11.
  change (cstr blanks (0 + 1 + 1 + 1 + 1 + 1)) with 0.
  change (32 =? 0) with false. change (13 =? 0) with false. change (9 =? 0) with false. change (10 =? 0) with false. change (11 =? 0) with false. cbv iota.
  destruct (32 =? c); [by exists 0|]. destruct (13 =? c); [by exists 1|]. destruct (9 =? c); [by exists 2|].
  destruct (10 =? c); [by exists 3|]. destruct (11 =? c); [by exists 4|]. by exists 0.
Qed.

(** The loop over a buffer. *)
Fixpoint wc_list (l : list Z) (k : counts) : option counts :=
  match l with [] => Some k | c :: l => k ← wc_char c k; wc_list l k end.

Lemma wc_buf_list m buf l : ∀ i k, bytes_at m (buf + i) l → wc_buf buf m (length l) i k = wc_list l k.
Proof.
  induction l as [|c l IH]; intros i k Hb; [done|]. apply bytes_at_cons in Hb as [Hc Hb]. cbn [wc_buf wc_list length]. rewrite Hc.
  destruct (wc_char c k) as [k'|]; [|done]. cbn [mbind option_bind]. apply IH. by rewrite Z.add_assoc.
Qed.

Lemma wc_list_app l1 l2 k : wc_list (l1 ++ l2) k = k ← wc_list l1 k; wc_list l2 k.
Proof.
  revert k. induction l1 as [|c l1 IH]; intros k; [done|]. cbn [app wc_list]. destruct (wc_char c k); [|done]. cbn [mbind option_bind]. apply IH.
Qed.

Lemma wc_char_counts c k : 0 ≤ wc_l k ≤ wc_c k → 0 ≤ wc_w k ≤ wc_c k → wc_c k < INT_MAX →
  wc_char c k = Some (Counts (wc_l k + if ch_nl =? c then 1 else 0) (wc_w k + if blank c || wc_inword k then 0 else 1) (wc_c k + 1) (negb (blank c))).
Proof.
  intros Hl Hw Hc. unfold wc_char, add_int, INT_MIN, INT_MAX in *. destruct (strchr_blanks c) as [p ->].
  assert (∀ x, 0 ≤ x ≤ wc_c k → (-2 ^ 31 <=? x + 1) && (x + 1 <=? 2 ^ 31 - 1) = true) as Hx by (intros x Hx; apply andb_true_iff; lia).
  rewrite (Hx (wc_c k)) by lia. cbn [mbind option_bind]. rewrite (Z.eqb_sym c).
  destruct (ch_nl =? c); rewrite ?Hx by lia; cbn [mbind option_bind]; rewrite ?Z.add_0_r;
    (destruct (blank c), (wc_inword k) eqn:E; cbn [negb orb]; rewrite ?Z.add_0_r; try reflexivity; by rewrite Hx by lia).
Qed.

Lemma wc_list_counts l : ∀ k, 0 ≤ wc_l k ≤ wc_c k → 0 ≤ wc_w k ≤ wc_c k → wc_c k + Z.of_nat (length l) ≤ INT_MAX →
  ∃ b, wc_list l k = Some (Counts (wc_l k + Z.of_nat (length (newlines l))) (wc_w k + Z.of_nat (length (new_words (wc_inword k) l)))
    (wc_c k + Z.of_nat (length l)) b).
Proof.
  induction l as [|c l IH]; intros [kl kw kc kb] Hl Hw Hc; cbn [wc_l wc_w wc_c wc_inword wc_list] in *.
  - exists kb. destruct kb; cbn; by rewrite !Z.add_0_r.
  - cbn [length] in Hc. rewrite wc_char_counts by (cbn; lia). cbn [mbind option_bind wc_l wc_w wc_c wc_inword].
    destruct (IH (Counts (kl + if ch_nl =? c then 1 else 0) (kw + if blank c || kb then 0 else 1) (kc + 1) (negb (blank c)))) as [b Hb];
      cbn [wc_l wc_w wc_c wc_inword]; [by destruct (_ =? _); lia | by destruct (_ || _); lia | lia |].
    exists b. rewrite Hb. cbn [wc_l wc_w wc_c wc_inword newlines List.filter length]. rewrite new_words_cons. fold (newlines l).
    f_equal. f_equal; [by destruct (_ =? _); cbn [length]; lia | by destruct (blank c), kb; cbn [negb orb length]; lia | lia].
Qed.

(** What %d prints. *)
Definition dec (x : Z) : list Z := default [] (printint digits_upper (s32 x) 10 true).

Lemma dec_prints x : 0 ≤ x ≤ INT_MAX → printint digits_upper (s32 x) 10 true = Some (dec x) ∧ Forall is_byte (dec x).
Proof.
  intros Hx. unfold dec, INT_MAX in *. rewrite s32_id by lia.
  destruct (printint_prints digits_upper x 10 true) as (ds & -> & Hn & _); [by left | lia | intros H; apply andb_prop in H as [_ H]; lia |].
  split; [done|]. rewrite (proj2 (Z.ltb_ge _ _)) by lia. cbn [andb app default]. apply list.Forall_fmap.
  eapply list.Forall_impl; [exact (nl_digits _ _ _ Hn)|]. intros d Hd. cbv beta in Hd. change (is_byte (bget0 digits_upper d)). rewrite upper_digit by done. unfold is_byte. lia.
Qed.

(** The line of wc for a file. *)
Definition wc_text (name l : list Z) : list Z :=
  dec (Z.of_nat (length (newlines l))) ++ [32] ++ dec (Z.of_nat (length (words l))) ++ [32] ++ dec (Z.of_nat (length l)) ++ [32] ++ name ++ [ch_nl].

Lemma wc_format a b c name : 0 ≤ a ≤ INT_MAX → 0 ≤ b ≤ INT_MAX → 0 ≤ c ≤ INT_MAX →
  printf_chars (line "%d %d %d %s") [Word a; Word b; Word c; Str (Some name)] = Some (dec a ++ [32] ++ dec b ++ [32] ++ dec c ++ [32] ++ name ++ [ch_nl]).
Proof.
  intros Ha Hb Hc. change (line "%d %d %d %s") with [ch_percent; ch_d; 32; ch_percent; ch_d; 32; ch_percent; ch_d; 32; ch_percent; ch_s; ch_nl].
  unfold printf_chars. cbv [printf_loop negb ch_percent ch_d ch_x ch_p ch_s ch_c ch_nl Z.eqb Pos.eqb head tail arg_word arg_str orb].
  cbn [mbind option_bind]. rewrite (proj1 (dec_prints a Ha)). cbn [mbind option_bind]. rewrite (proj1 (dec_prints b Hb)). cbn [mbind option_bind].
  rewrite (proj1 (dec_prints c Hc)). cbn [mbind option_bind default app]. by rewrite <- !app_assoc.
Qed.

Lemma newlines_words_le l : (length (newlines l) ≤ length l)%nat ∧ ∀ b, (length (new_words b l) ≤ length l)%nat.
Proof.
  split; [unfold newlines; induction l as [|c l IH]; cbn [List.filter length]; [lia|]; destruct (ch_nl =? c); cbn [length]; lia|].
  induction l as [|c l IH]; intros b; [by destruct b|]. rewrite new_words_cons.
  pose proof (IH true). pose proof (IH false). destruct (blank c), b; cbn [length]; lia.
Qed.

Section wc.
Context {W : Type} `{!UserSys W} `{!ProgSys W}.
Context (files : list Z → option (list Z)) (rest : W → Z → option (list Z)) (out : W → Z → list Z).
Context `{!Files files rest out} (buf : Z).
#[local] Notation sees := (sees rest out).

Lemma wp_wc_loop fuel : ∀ fd l R O s k k', Forall is_byte l → (length l < fuel)%nat → sees (u_os s) R O → R fd = Some l →
  wc_list l k = Some k' → wp (wc_loop buf fuel fd k) (λ r s', r = Some k' ∧ sees (u_os s') (upd R fd (Some [])) O) s.
Proof.
  induction fuel as [|fuel IH]; intros fd l R O s k k' Hb Hl Hs HR Hk; [lia|]. cbn [wc_loop]. wp_step. apply wp_os.
  eapply wp_mono; [by apply fl_read|]. intros r w (c & l' & -> & -> & _ & Hc & Hw). destruct c as [|b c].
  - wp_step. rewrite (Hc eq_refl) in *. split; [|done]. by injection Hk as <-.
  - cbv beta iota. set (t := b :: c) in *. rewrite length_app in Hl. change (length t) with (S (length c)) in Hl.
    apply list.Forall_app in Hb as [Ht Hb]. destruct (store_bytes_spec t Ht (u_mem s) buf) as (Hst & _ & _).
    rewrite wc_list_app in Hk. destruct (wc_list t k) as [k1|] eqn:E; [|done].
    do 4 wp_step. cbn [u_mem u_os]. rewrite (wc_buf_list _ _ t) by (by rewrite Z.add_0_r). rewrite E.
    eapply wp_mono; [eapply (IH fd l'); [exact Hb | lia | exact Hw | apply upd_eq | exact Hk]|]. intros r s' [-> Hs']. split; [done|].
    eapply sees_ext; [| |exact Hs']; intros x; [apply upd_upd | done].
Qed.

Lemma wp_wc fuel fd l name R O s : Forall is_byte l ∧ (length l < fuel)%nat ∧ Z.of_nat (length l) ≤ INT_MAX → Forall is_byte name →
  sees (u_os s) R O → R fd = Some l →
  wp (wc buf fuel fd name) (λ r s', r = Some tt ∧ sees (u_os s') (upd R fd (Some [])) (upd O 1 (O 1 ++ wc_text name l))) s.
Proof.
  intros (Hb & Hl & Hmax) Hn Hs HR. destruct (wc_list_counts l (Counts 0 0 0 false)) as [b Hk]; [cbn; lia | cbn; lia | cbn; lia |].
  cbn [wc_l wc_w wc_c wc_inword] in Hk. rewrite !Z.add_0_l in Hk. destruct (newlines_words_le l) as [Hnl Hw]. specialize (Hw false).
  change (new_words false l) with (words l) in *. unfold wc. apply wp_xbind. eapply wp_mono; [apply (wp_wc_loop fuel fd l R O s _ _ Hb Hl Hs HR Hk)|].
  intros r s1 [-> Hs1]. cbn [wc_l wc_w wc_c]. apply wp_run. eapply (wp_prints files rest out 1 _ _ (wc_text name l)).
  - apply wc_format; lia.
  - unfold wc_text. rewrite !list.Forall_app. split_and!; try (apply dec_prints; lia); try done; by repeat constructor.
  - by left.
  - exact Hs1.
  - done.
Qed.

(** C40. cat and wc: both terminate and exit with no descriptor left open.  cat
    has then written the bytes of its files to the standard output, in order,
    and wc a line for each file with the number of its newlines, of its words,
    the runs of characters that are not blanks, and of its bytes; in either
    case however the reads were cut, and up to the first file that cannot be
    opened, which ends the output with a message.  Without arguments both do
    this for the standard input. *)
Theorem cat_wc_outputs fuel prog names stdin R O s :
  let ok l := Forall is_byte l ∧ (length l < fuel)%nat ∧ Z.of_nat (length l) ≤ INT_MAX in
  sees (u_os s) R O → (∃ fd, 0 ≤ fd < 16 ∧ R fd = None) → each_ok files (λ _, ok) names → R 0 = Some stdin → ok stdin →
  let R' := if decide (names = []) then upd R 0 (Some []) else R in
  wp (cat_main buf fuel (prog :: names)) (λ r s', r = None ∧ sees (u_os s') R'
      (upd O 1 (O 1 ++ if decide (names = []) then stdin else each_text files (λ _ l, l) (chars "cat: cannot open ") names))) s ∧
  wp (wc_main buf fuel (prog :: names)) (λ r s', r = None ∧ sees (u_os s') R'
      (upd O 1 (O 1 ++ if decide (names = []) then wc_text [] stdin else each_text files wc_text (chars "wc: cannot open ") names))) s.
Proof.
  intros ok Hs Hfd Hok HR Hin R'. split.
  - by apply (wp_cat_main files rest out).
  - destruct names as [|name names]; cbn [wc_main]; apply wp_xbind.
    + eapply wp_mono; [by apply (wp_wc fuel 0 stdin [])|]. intros r s' [-> Hs']. unfold exit. by wp_step.
    + eapply wp_mono; [apply (wp_open_each files rest out (λ _, ok) wc_text _ _ (chars "wc: cannot open "));
        [ | reflexivity | by repeat constructor | exact Hok | exact Hs | exact Hfd]|].
      * intros nm l fd R1 O1 s1 Hnm Hl Hs1 HR1. eapply wp_mono; [by apply (wp_wc fuel fd l)|]. intros r s2 [-> Hs2]. eauto.
      * intros [[]|] s' Hs'; [|done]. unfold exit. by wp_step.
Qed.
End wc.

(** ** echo and ls *)

(** The arguments, separated by blanks, and a newline. *)
Fixpoint echo_text (args : list (list Z)) : list Z :=
  match args with [] => [] | [a] => a ++ [ch_nl] | a :: args => a ++ [32] ++ echo_text args end.

(** The string [l] is at the address [a]. *)
Definition str_in (m : mem) (a : Z) (l : list Z) : Prop := bytes_at m a l ∧ 0 ∉ l ∧ m (a + Z.of_nat (length l)) = 0.

(** The part of a path behind its last slash. *)
Fixpoint after_slash (l : list Z) : list Z :=
  match l with [] => [] | c :: l' => if bool_decide (47 ∈ l') then after_slash l' else if c =? 47 then l' else c :: l' end.
(** Blanks up to DIRSIZ characters. *)
Definition padded (l : list Z) : list Z := l ++ replicate (Z.to_nat DIRSIZ - length l) 32.

Lemma after_slash_split l : ∃ pre, l = pre ++ after_slash l ∧ 47 ∉ after_slash l ∧ (pre = [] ∨ ∃ pre', pre = pre' ++ [47]).
Proof.
  induction l as [|c l (pre & E & Hn & Hp)]; cbn [after_slash]; [by exists []; split_and!; [|apply list.not_elem_of_nil|left]|].
  case_bool_decide as Hs.
  - exists (c :: pre). split_and!; [cbn; by rewrite <- E|done|]. right. destruct Hp as [->|[pre' ->]]; [|by exists (c :: pre')].
    exfalso. apply Hn. cbn [app] in E. by rewrite E in Hs.
  - destruct (Z.eqb_spec c 47) as [->|Hc]; [exists [47]; split_and!; [done|done|right; by exists []]|].
    exists []. split_and!; [done| |by left]. rewrite elem_of_cons. naive_solver.
Qed.

Lemma str_in_app m a l1 l2 : str_in m a (l1 ++ l2) → str_in m (a + Z.of_nat (length l1)) l2.
Proof.
  intros (Hb & Hn & Hz). split_and!.
  - intros k c Hk. rewrite <- (Hb (length l1 + k)%nat c); [f_equal; lia|]. by rewrite lookup_app_r, Nat.add_comm, Nat.add_sub by lia.
  - intros Hin. apply Hn, elem_of_app. by right.
  - rewrite <- Hz, length_app. f_equal. lia.
Qed.

Lemma strlen_in m a fuel l : ∀ n, str_in m (a + n) l → (length l < fuel)%nat → strlen fuel (λ i, m (a + i)) n = Some (n + Z.of_nat (length l)).
Proof.
  revert l. induction fuel as [|fuel IH]; intros l n (Hb & Hn & Hz) Hf; [lia|]. cbn [strlen]. destruct l as [|c l].
  - cbn [length] in *. rewrite Z.add_0_r in Hz. rewrite Hz. cbn. f_equal. lia.
  - pose proof (Hb 0%nat c eq_refl) as Hc. rewrite Z.add_0_r in Hc. rewrite Hc.
    rewrite (proj2 (Z.eqb_neq _ _)) by (intros ->; apply Hn; rewrite elem_of_cons; by left). rewrite (IH l); [cbn [length]; f_equal; lia| |cbn [length] in *; lia].
    rewrite Z.add_assoc. apply (str_in_app m (a + n) [c] l). done.
Qed.

Lemma last_slash_skip m path k j : (∀ i, (j ≤ i < k)%nat → m (path + Z.of_nat i) ≠ 47) → (j ≤ k)%nat → last_slash m path k = last_slash m path j.
Proof.
  induction k as [|k IH]; intros Hm Hj; [by replace j with 0%nat by lia|]. destruct (decide (j = S k)) as [->|]; [done|]. cbn [last_slash].
  rewrite (proj2 (Z.eqb_neq _ _)) by (apply Hm; lia). apply IH; [intros; apply Hm; lia|lia].
Qed.

Lemma last_slash_in m path l : str_in m path l → last_slash m path (S (length l)) + 1 = path + Z.of_nat (length l - length (after_slash l)).
Proof.
  intros (Hb & Hn & Hz). destruct (after_slash_split l) as (pre & E & Hns & Hp). set (b := after_slash l) in *. clearbody b. subst l.
  rewrite length_app in *. replace (length pre + length b - length b)%nat with (length pre) by lia.
  rewrite (last_slash_skip _ _ _ (length pre)); [|intros i Hi|lia].
  - destruct Hp as [->|[pre' ->]]; [cbn; lia|]. rewrite length_app. cbn [length]. rewrite Nat.add_1_r. cbn [last_slash].
    rewrite (Hb (length pre') 47); [cbn; lia|]. rewrite <- app_assoc, lookup_app_r, Nat.sub_diag by lia. done.
  - destruct (decide (i = length pre + length b)%nat) as [->|Hne]; [by rewrite Hz|].
    destruct (lookup_lt_is_Some_2 b (i - length pre)) as [c Hc]; [lia|]. rewrite (Hb i c) by (by rewrite lookup_app_r by lia).
    intros ->. by apply Hns, (list_elem_of_lookup_2 _ _ _ Hc).
Qed.

Lemma str_in_ext m m' a l : (∀ x, a ≤ x ≤ a + Z.of_nat (length l) → m' x = m x) → str_in m a l → str_in m' a l.
Proof.
  intros He (Hb & Hn & Hz). split_and!; [|done|by rewrite He by lia]. intros k c Hk. apply lookup_lt_Some in Hk as Hlt.
  rewrite He by lia. by apply Hb.
Qed.

(** The buffer of fmtname after the copy of [b] and the blanks. *)
Lemma padded_in m p nbuf b : wf_mem m → str_in m p b → (length b < 14)%nat → nbuf + 14 ≤ p ∨ p + Z.of_nat (length b) ≤ nbuf → m (nbuf + 14) = 0 →
  let n := Z.of_nat (length b) in let m' := memset (memmove m nbuf p n) (nbuf + n) 32 (14 - n) in
  str_in m' nbuf (padded b) ∧ (∀ x, ¬ (nbuf ≤ x < nbuf + 14) → memmove m nbuf p n x = m x ∧ m' x = m x).
Proof.
  intros Hwf (Hb & Hn & _) Hl Hap Hz n m'. subst n.
  assert (Hm : ∀ x, memmove m nbuf p (Z.of_nat (length b)) x = if within nbuf (Z.of_nat (length b)) x then m (p + (x - nbuf)) else m x).
  { intros x. unfold memmove. rewrite copy_up_spec, Nat2Z.id by (done || lia). done. }
  assert (Hm' : ∀ x, m' x = if within (nbuf + Z.of_nat (length b)) (14 - Z.of_nat (length b)) x then 32 else memmove m nbuf p (Z.of_nat (length b)) x).
  { intros x. subst m'. unfold memset. rewrite stosb_spec, Z2Nat.id by lia. done. }
  unfold within in *. split.
  - split_and!.
    + intros k c Hk. unfold padded, DIRSIZ in Hk. rewrite Hm', Hm. apply lookup_app_Some in Hk as [Hk|[Hge Hk]].
      * apply lookup_lt_Some in Hk as Hlt. rewrite (proj2 (Z.leb_gt _ _)) by lia. cbn [andb].
        rewrite (proj2 (Z.leb_le _ _)), (proj2 (Z.ltb_lt _ _)) by lia. cbn [andb]. rewrite <- (Hb k c Hk). f_equal. lia.
      * apply lookup_replicate in Hk as [-> Hk]. rewrite (proj2 (Z.leb_le _ _)), (proj2 (Z.ltb_lt _ _)) by lia. done.
    + unfold padded. rewrite elem_of_app. intros [?|[? ?]%elem_of_replicate]; done.
    + unfold padded, DIRSIZ. rewrite length_app, length_replicate. replace (Z.of_nat _) with 14 by lia.
      rewrite Hm', Hm, !(proj2 (Z.ltb_ge _ _)), !andb_false_r by lia. done.
  - intros x Hx. rewrite Hm', Hm. destruct (Z.leb_spec nbuf x), (Z.leb_spec (nbuf + Z.of_nat (length b)) x); cbn [andb]; try lia; try done.
    rewrite !(proj2 (Z.ltb_ge _ _)) by lia. done.
Qed.

Section names.
Context {W : Type} `{!UserSys W} `{!ProgSys W}.
Context (files : list Z → option (list Z)) (rest : W → Z → option (list Z)) (out : W → Z → list Z).
Context `{!Files files rest out}.
#[local] Notation sees := (sees rest out).

Lemma wp_len_at fuel a l (Q : Z → ust W → Prop) s : str_in (u_mem s) a l → (length l < fuel)%nat → Q (Z.of_nat (length l)) s → wp (len_at fuel a) Q s.
Proof.
  intros Hl Hf HQ. unfold len_at. wp_step. wp_step. rewrite (strlen_in _ _ _ l 0) by (rewrite ?Z.add_0_r; done). by wp_step.
Qed.

(** fmtname returns the address of the name behind the last slash, filled with
    blanks to DIRSIZ characters. *)
Lemma wp_fmtname nbuf fuel path l (s : ust W) : wf_mem (u_mem s) → str_in (u_mem s) path l → (length l < fuel)%nat → (14 < fuel)%nat →
  nbuf + DIRSIZ < path ∨ path + Z.of_nat (length l) < nbuf → u_mem s (nbuf + DIRSIZ) = 0 →
  wp (fmtname nbuf fuel path) (λ r s', str_in (u_mem s') r (padded (after_slash l)) ∧ u_os s' = u_os s ∧
    ∀ x, ¬ (nbuf ≤ x < nbuf + DIRSIZ) → u_mem s' x = u_mem s x) s.
Proof.
  intros Hwf Hl Hf Hf14 Hap Hz. pose proof (last_slash_in _ _ _ Hl) as Hls. destruct (after_slash_split l) as (pre & E & _).
  set (b := after_slash l) in *. assert (Hlen : length l = (length pre + length b)%nat) by (rewrite E at 1; apply length_app).
  assert (Hb : str_in (u_mem s) (path + Z.of_nat (length pre)) b) by (apply str_in_app; by rewrite <- E).
  unfold fmtname. wp_step. apply (wp_len_at _ _ l); [done|done|]. wp_step. wp_step. rewrite Nat2Z.id, Hls.
  replace (length l - length b)%nat with (length pre) by lia. set (p := path + Z.of_nat (length pre)) in *.
  wp_step. apply (wp_len_at _ _ b); [done|lia|]. unfold DIRSIZ in *. destruct (Z.leb_spec 14 (Z.of_nat (length b))) as [Hge|Hlt].
  - wp_step. unfold padded, DIRSIZ. replace (Z.to_nat 14 - length b)%nat with 0%nat by lia. cbn [replicate]. rewrite app_nil_r. done.
  - destruct (padded_in (u_mem s) p nbuf b) as [Hp Hm]; [done|done|lia|lia|done|]. wp_step. wp_step. wp_step. apply (wp_len_at _ _ b); cbn [u_mem].
    { eapply str_in_ext; [|exact Hb]. intros x Hx. apply Hm. lia. }
    { lia. }
    wp_step. wp_step. wp_step. cbn [u_mem u_os]. split; [done|]. split; [done|]. intros x Hx. by apply Hm.
Qed.

Lemma ls_format name a b c : 0 ≤ a ≤ INT_MAX → 0 ≤ b ≤ INT_MAX → 0 ≤ c ≤ INT_MAX →
  printf_chars (line "%s %d %d %d") [Str (Some name); Word a; Word b; Word c] = Some (name ++ [32] ++ dec a ++ [32] ++ dec b ++ [32] ++ dec c ++ [ch_nl]).
Proof.
  intros Ha Hb Hc. change (line "%s %d %d %d") with [ch_percent; ch_s; 32; ch_percent; ch_d; 32; ch_percent; ch_d; 32; ch_percent; ch_d; ch_nl].
  unfold printf_chars. cbv [printf_loop negb ch_percent ch_d ch_x ch_p ch_s ch_c ch_nl Z.eqb Pos.eqb head tail arg_word arg_str orb].
  cbn [mbind option_bind]. rewrite (proj1 (dec_prints a Ha)). cbn [mbind option_bind]. rewrite (proj1 (dec_prints b Hb)). cbn [mbind option_bind].
  rewrite (proj1 (dec_prints c Hc)). cbn [mbind option_bind default app]. by rewrite <- !app_assoc.
Qed.

(** The line that ls writes for a file or an entry of a directory. *)
Theorem ls_line_prints nbuf fuel path l st R O (s : ust W) : wf_mem (u_mem s) → str_in (u_mem s) path l → Forall is_byte l →
  (length l < fuel)%nat → (14 < fuel)%nat → nbuf + DIRSIZ < path ∨ path + Z.of_nat (length l) < nbuf → u_mem s (nbuf + DIRSIZ) = 0 →
  0 ≤ st_type st ≤ INT_MAX → 0 ≤ st_ino st ≤ INT_MAX → 0 ≤ st_size st ≤ INT_MAX → sees (u_os s) R O →
  wp (ls_line nbuf fuel path st) (λ _ s', sees (u_os s') R
    (upd O 1 (O 1 ++ padded (after_slash l) ++ [32] ++ dec (st_type st) ++ [32] ++ dec (st_ino st) ++ [32] ++ dec (st_size st) ++ [ch_nl])) ∧
    ∀ x, ¬ (nbuf ≤ x < nbuf + DIRSIZ) → u_mem s' x = u_mem s x) s.
Proof.
  intros Hwf Hl Hb Hf Hf14 Hap Hz Ht Hi Hs Hsee. destruct (after_slash_split l) as (pre & E & _).
  assert (Hp : Forall is_byte (padded (after_slash l))).
  { unfold padded. apply list.Forall_app. rewrite E, list.Forall_app in Hb. split; [apply Hb|]. apply list.Forall_replicate. unfold is_byte. lia. }
  assert (Hpl : (length (padded (after_slash l)) < fuel)%nat).
  { unfold padded, DIRSIZ. rewrite length_app, length_replicate. apply (f_equal length) in E. rewrite length_app in E. lia. }
  unfold ls_line. wp_step. eapply wp_mono; [by apply (wp_fmtname nbuf fuel path l)|]. intros f s1 ((Hp1 & Hp2 & Hp3) & Hos & Hm).
  wp_step. unfold str_at. wp_step. wp_step. rewrite (string_at_spec _ (padded (after_slash l))) by done. wp_step.
  eapply (wp_prints files rest out 1 _ _ (padded (after_slash l) ++ [32] ++ dec (st_type st) ++ [32] ++ dec (st_ino st) ++ [32] ++ dec (st_size st) ++ [ch_nl])).
  - by apply ls_format.
  - rewrite !list.Forall_app. split_and!; try (apply dec_prints; lia); try done; by repeat constructor.
  - by left.
  - rewrite Hos. exact Hsee.
  - done.
Qed.

(** echo writes its arguments. *)
Theorem echo_outputs prog args R O (s : ust W) : Forall (Forall is_byte) args → sees (u_os s) R O →
  wp (echo_main (prog :: args)) (λ r s', r = None ∧ sees (u_os s') R (upd O 1 (O 1 ++ echo_text args)) ∧ u_mem s' = u_mem s) s.
Proof.
  intros Hb Hs. unfold echo_main. apply wp_xbind, wp_run. cbn [tail].
  eapply (wp_mono _ (λ _ s', sees (u_os s') R (upd O 1 (O 1 ++ echo_text args)) ∧ u_mem s' = u_mem s)); [|intros [] s' H; unfold exit; by wp_step].
  revert O s Hs. induction Hb as [|a args Ha Hb IH]; intros O s Hs; cbn [echo_args].
  - wp_step. split; [|done]. eapply sees_ext; [done| |exact Hs]. intros x. symmetry. apply upd_id. by rewrite app_nil_r.
  - wp_step. set (sep := match args with [] => [ch_nl] | _ => [32] end).
    eapply (wp_prints files rest out 1 _ _ (a ++ sep)); [reflexivity| |by left|exact Hs|].
    { apply list.Forall_app. split; [done|]. subst sep. destruct args; by repeat constructor. }
    intros w Hw. eapply wp_mono; [exact (IH _ (Ust (u_mem s) w) Hw)|]. intros [] s' [Hs' Hm]. split; [|done].
    eapply sees_ext; [done| |exact Hs']. intros x. cbv beta. rewrite upd_upd, upd_eq. f_equal. subst sep.
    rewrite <- !app_assoc. destruct args; cbn [echo_text]; by rewrite ?app_nil_r.
Qed.
End names.

(** ** An example *)

(** Descriptors and outputs as functions; the files are a and b.  A read gives
    at most two bytes. *)
Record desk := Desk { dk_rest : Z → option (list Z); dk_out : Z → list Z }.
Definition desk_files (name : list Z) : option (list Z) :=
  if decide (name = [97]) then Some (line "to be  or") else if decide (name = [98]) then Some (line "" ++ chars "not") else None.
Definition desk_free (w : desk) : option Z :=
  List.find (λ fd, match dk_rest w fd with None => true | Some _ => false end) (Z.of_nat <$> seq 0 16).

#[local] Instance desk_sys : UserSys desk := {|
  us_read fd n w :=
    match dk_rest w fd with
    | None => Ok None w
    | Some l => Ok (Some (take (Z.to_nat (n `min` 2)) l)) (Desk (upd (dk_rest w) fd (Some (drop (Z.to_nat (n `min` 2)) l))) (dk_out w))
    end;
  us_write fd l w := Ok (Z.of_nat (length l)) (Desk (dk_rest w) (upd (dk_out w) fd (dk_out w fd ++ l)));
  us_open name _ w :=
    match desk_files name, desk_free w with
    | Some l, Some fd => Ok fd (Desk (upd (dk_rest w) fd (Some l)) (dk_out w))
    | _, _ => Ok (-1) w
    end;
  us_close fd w := Ok 0 (Desk (upd (dk_rest w) fd None) (dk_out w));
  us_fstat _ w := Ok None w;
  us_sbrk _ w := Ok (-1) w
|}.

Lemma sees_upd (w : desk) R O fd r : sees dk_rest dk_out w R O → sees dk_rest dk_out (Desk (upd (dk_rest w) fd r) (dk_out w)) (upd R fd r) O.
Proof. intros [H1 H2]. split; [|done]. intros x. cbn. unfold upd. by rewrite H1. Qed.

Lemma desk_free_spec w R O : sees dk_rest dk_out w R O → (∃ fd, 0 ≤ fd < 16 ∧ R fd = None) →
  ∃ fd, desk_free w = Some fd ∧ 0 ≤ fd ∧ R fd = None.
Proof.
  intros [H1 H2] (fd & Hfd & HR). destruct (desk_free w) as [fd'|] eqn:E; unfold desk_free in E.
  - apply find_some in E as [Hin E]. apply list_elem_of_In, list_elem_of_fmap in Hin as (k & -> & _).
    rewrite H1 in E. exists (Z.of_nat k). destruct (R (Z.of_nat k)); [done|]. split_and!; [done | lia | done].
  - exfalso. eapply (find_none _ _) in E; [|apply list_elem_of_In, list_elem_of_fmap; exists (Z.to_nat fd); split; [reflexivity | apply elem_of_seq; lia]].
    by rewrite Z2Nat.id, H1, HR in E by lia.
Qed.

#[local] Instance desk_files_laws : Files desk_files dk_rest dk_out.
Proof.
  split.
  - intros w R O name l Hs Hf Hfd. unfold wp. cbn [us_open desk_sys]. rewrite Hf.
    destruct (desk_free_spec w R O Hs Hfd) as (fd & -> & H0 & HR). split_and!; [done | done | by apply sees_upd].
  - intros w R O name Hs Hf. unfold wp. cbn. by rewrite Hf.
  - intros w R O fd l n Hs HR Hn. unfold wp. cbn. pose proof (proj1 Hs fd) as E. rewrite HR in E. rewrite E.
    eexists _, _. split_and!; [done | by rewrite take_drop | rewrite length_take; lia | | by apply sees_upd].
    destruct l as [|c l]; [by rewrite drop_nil|]. destruct (Z.to_nat (n `min` 2)) eqn:En; [lia | done].
  - intros w R O fd l [H1 H2] _. split; [done|]. split; [done|]. intros x. cbn. unfold upd. by rewrite !H2.
  - intros w R O fd Hs. by apply sees_upd.
Qed.

Definition desk0 : ust desk := Ust (λ _, 0) (Desk (λ fd, if (0 <=? fd) && (fd <? 3) then Some [] else None) (λ _, [])).

Example cat_wc_outputs_witness :
  wp (cat_main 4096 20 [[99]; [97]; [98]; [99]]) (λ _ s', dk_out (u_os s') 1 = line "to be  or" ++ line "" ++ chars "not" ++ line "cat: cannot open c") desk0 ∧
  wp (wc_main 4096 20 [[99]; [97]; [98]; [99]]) (λ _ s', dk_out (u_os s') 1 = line "1 3 10 a" ++ line "1 1 4 b" ++ line "wc: cannot open c") desk0.
Proof.
  assert (sees dk_rest dk_out (u_os desk0) (dk_rest (u_os desk0)) (dk_out (u_os desk0))) as Hs by done.
  assert (∃ fd, 0 ≤ fd < 16 ∧ dk_rest (u_os desk0) fd = None) as Hfd by (exists 3; split; [lia | done]).
  assert (each_ok desk_files (λ _ l, Forall is_byte l ∧ (length l < 20)%nat ∧ Z.of_nat (length l) ≤ INT_MAX) [[97]; [98]; [99]]) as Hok.
  { intros name Hin. rewrite !elem_of_cons in Hin.
    destruct Hin as [-> |[-> |[-> |Hin]]]; [..|by apply list.not_elem_of_nil in Hin]; (split; [by repeat constructor|]); cbn; try done;
    (split; [by repeat constructor | vm_compute; lia || (split; [lia | done])]). }
  destruct (cat_wc_outputs desk_files dk_rest dk_out 4096 20 [99] [[97]; [98]; [99]] [] _ _ desk0 Hs Hfd Hok eq_refl
    ltac:(split; [constructor | split; [cbn; lia | done]])) as [Hcat Hwc].
  split; [eapply wp_mono; [exact Hcat|] | eapply wp_mono; [exact Hwc|]]; intros r s' [_ [_ Ho]]; rewrite (Ho 1); vm_compute; reflexivity.
Defined.
