(* ===== verification/Dump.v ===== *)
(** * Dump: the listing of the processes on the console (procdump of proc.c)

    procdump prints a line for each slot in use: the pid, the state and the name,
    and for a process that sleeps the return addresses on its kernel stack, which
    getcallerpcs of Locks.v finds from the ebp that swtch saved in its context.
    The result is the characters that the calls of cprintf print, None where one
    of them has no meaning.

    Shown: the listing has one line per used slot, in the order of the table;
    the line of a process has the pid in decimal, and where it sleeps at most ten
    addresses in hexadecimal, up to the first that is null. *)

From Stdlib Require Import ZArith Lia Bool.
From stdpp Require Import base option list sets strings numbers.
From S2P Require Import Prelude Cstring Locks Kalloc Proc Fmt Ulib Grep Progs.

#[local] Open Scope string_scope.
#[local] Open Scope list_scope.
#[local] Open Scope Z_scope.

(** The array states. *)
Definition states (st : procstate) : list Z :=
  match st with
  | UNUSED => chars "unused" | EMBRYO => chars "embryo" | SLEEPING => chars "sleep "
  | RUNNABLE => chars "runble" | RUNNING => chars "run   " | ZOMBIE => chars "zombie"
  end.

(** p->context->ebp *)
Definition context_ebp (m : mem) (p : proc) : Z := load32 m (p_context p + 12).

(** for(i=0; i<10 && pc[i] != 0; i++) cprintf(" %p", pc[i]); *)
Fixpoint dump_pcs (pc : list Z) : option (list Z) :=
  match pc with
  | [] => Some []
  | a :: pc => if a =? 0 then Some [] else l ← cprintf_chars (chars " %p") [Word a]; r ← dump_pcs pc; Some (l ++ r)
  end.

Definition dump_slot (m : mem) (p : proc) : option (list Z) :=
  if decide (p_state p = UNUSED) then Some [] else
  l ← cprintf_chars (chars "%d %s %s") [Word (p_pid p); Str (Some (states (p_state p))); Str (Some (p_name p))];
  r ← (if decide (p_state p = SLEEPING) then dump_pcs (getcallerpcs m (u32 (context_ebp m p + 8))) else Some []);
  Some (l ++ r ++ [ch_nl]).

Fixpoint procdump (m : mem) (ps : list proc) : option (list Z) :=
  match ps with [] => Some [] | p :: ps => l ← dump_slot m p; r ← procdump m ps; Some (l ++ r) end.

(** ** What it prints *)

(** An address as %p prints it. *)
Definition hex (a : Z) : list Z := default [] (printint digits_lower (s32 a) 16 false).

(** The addresses before the first null one. *)
Fixpoint before_null (l : list Z) : list Z := match l with [] => [] | a :: l => if a =? 0 then [] else a :: before_null l end.

Definition used (p : proc) : bool := negb (bool_decide (p_state p = UNUSED)).

Definition dump_text (m : mem) (p : proc) : list Z :=
  dec (p_pid p) ++ [32] ++ states (p_state p) ++ [32] ++ p_name p ++
  (if decide (p_state p = SLEEPING) then (before_null (getcallerpcs m (u32 (context_ebp m p + 8)))) ≫= (λ a, 32 :: hex a) else []) ++ [ch_nl].

Lemma s32_bounds a : - 2 ^ 31 ≤ s32 a < 2 ^ 31.
Proof. unfold s32. pose proof (Z.mod_pos_bound (a + 2 ^ 31) (2 ^ 32)). lia. Qed.

Lemma hex_prints a : cprintf_chars (chars " %p") [Word a] = Some (32 :: hex a).
Proof.
  change (chars " %p") with [32; ch_percent; ch_p]. unfold cprintf_chars.
  cbv [cprintf_loop negb ch_percent ch_d ch_x ch_p ch_s ch_c Z.eqb Pos.eqb head tail arg_word orb]. cbn [mbind option_bind].
  destruct (printint_prints digits_lower (s32 a) 16 false) as (ds & E & _); [by right|apply s32_bounds|done|].
  unfold hex. rewrite E. done.
Qed.

Lemma dump_pcs_prints pc : dump_pcs pc = Some (before_null pc ≫= (λ a, 32 :: hex a)).
Proof.
  induction pc as [|a pc IH]; [done|]. cbn [dump_pcs before_null]. destruct (a =? 0); [done|].
  by rewrite hex_prints, IH.
Qed.

Lemma dump_slot_prints m p : 0 ≤ p_pid p ≤ INT_MAX → dump_slot m p = Some (if used p then dump_text m p else []).
Proof.
  intros Hp. unfold dump_slot, used. case_decide as Hu; [by rewrite bool_decide_true|]. rewrite bool_decide_false by done. cbn [negb].
  change (chars "%d %s %s") with [ch_percent; ch_d; 32; ch_percent; ch_s; 32; ch_percent; ch_s].
  unfold cprintf_chars. cbv [cprintf_loop negb ch_percent ch_d ch_x ch_p ch_s ch_c Z.eqb Pos.eqb head tail arg_word arg_str orb]. cbn [mbind option_bind].
  rewrite decimal_digits, (proj1 (dec_prints _ Hp)). cbn [mbind option_bind default app]. unfold dump_text.
  case_decide; [rewrite dump_pcs_prints|]; cbn [mbind option_bind]; by rewrite <- !app_assoc.
Qed.

(** The listing: one line for each slot in use, in order. *)
Theorem procdump_prints m ps : Forall (λ p, 0 ≤ p_pid p ≤ INT_MAX) ps →
  procdump m ps = Some (List.filter used ps ≫= dump_text m).
Proof.
  induction 1 as [|p ps Hp _ IH]; [done|]. cbn [procdump]. rewrite (dump_slot_prints m p Hp), IH. cbn [List.filter].
  by destruct (used p).
Qed.

(** At most ten addresses. *)
Lemma before_null_length l : (length (before_null l) ≤ length l)%nat ∧ 0 ∉ before_null l.
Proof.
  induction l as [|a l [IH1 IH2]]; cbn [before_null]; [split; [done|apply list.not_elem_of_nil]|].
  destruct (Z.eqb_spec a 0); [split; [cbn; lia|apply list.not_elem_of_nil]|]. split; [cbn [length]; lia|]. rewrite elem_of_cons. naive_solver.
Qed.
Theorem dump_addresses m p : (length (before_null (getcallerpcs m (u32 (context_ebp m p + 8)))) ≤ 10)%nat.
Proof.
  etransitivity; [apply before_null_length|]. unfold getcallerpcs. generalize (u32 (u32 (context_ebp m p + 8) - 8)). generalize 10%nat.
  intros n. induction n as [|n IH]; intros e; cbn [walk_ebp]; [done|]. destruct (_ || _ || _); [by rewrite length_replicate|].
  cbn [length]. apply le_n_S, IH.
Qed.
