(* ===== verification/Umalloc.v ===== *)
(** * Umalloc: the allocator of the user library (umalloc.c)

    The free blocks form a circular list in increasing order of address, which
    starts at the static header [base]; a header holds the address of the next
    block and the size of its own, in units of a header.  Headers are words of
    the memory of the program, next to the bytes the program stores in its
    blocks; sbrk is a system call, an argument of the model.

    Shown: malloc returns a block that is large enough and overlaps no block
    in use, free gives a block back and joins it with its neighbours, neither
    touches the contents of a block in use, and both terminate. *)

From Stdlib Require Import ZArith Lia Bool Sorted.
From stdpp Require Import base option list sorting gmap sets strings numbers.
From S2P Require Import Prelude Cstring Fmt Ulib.

#[local] Open Scope string_scope.
#[local] Open Scope list_scope.
#[local] Open Scope Z_scope.

(** sizeof(Header) *)
Definition HDR : Z := 8.

Record hst (W : Type) := Hst { h_mem : mem; h_freep : Z; h_os : W }.
Arguments Hst {W} h_mem h_freep h_os.
Arguments h_mem {W} h.
Arguments h_freep {W} h.
Arguments h_os {W} h.

(** p->s.ptr and p->s.size *)
Definition hptr (m : mem) (p : Z) : Z := load32 m p.
Definition hsize (m : mem) (p : Z) : Z := load32 m (p + 4).

Section malloc.
Context {W : Type} `{UserSys W}.
(** The address of base. *)
Context (base : Z).
#[local] Notation P := (M (hst W)).

Definition ptr (p : Z) : P Z := gets (λ s, hptr (h_mem s) p).
Definition size (p : Z) : P Z := gets (λ s, hsize (h_mem s) p).
Definition set_ptr (p v : Z) : P unit := modify (λ s, Hst (store32 (h_mem s) p v) (h_freep s) (h_os s)).
Definition set_size (p v : Z) : P unit := modify (λ s, Hst (store32 (h_mem s) (p + 4) v) (h_freep s) (h_os s)).
Definition set_freep (p : Z) : P unit := modify (λ s, Hst (h_mem s) p (h_os s)).

(** The loop of free: for(p = freep; ...; p = p->s.ptr) *)
Fixpoint free_find (fuel : nat) (bp p : Z) : P Z :=
  match fuel with
  | O => undef "out of fuel"
  | S fuel =>
      n ← ptr p;
      if (p <? bp) && (bp <? n) then mret p
      else if (n <=? p) && ((p <? bp) || (bp <? n)) then mret p
      else free_find fuel bp n
  end.

(** if(bp + bp->s.size == p->s.ptr) ... else ... *)
Definition join_upper (bp p : Z) : P unit :=
  n ← ptr p;
  sz ← size bp;
  if u32 (bp + HDR * sz) =? n then
    nsz ← size n;
    set_size bp (u32 (sz + nsz));;
    n ← ptr p;
    nn ← ptr n;
    set_ptr bp nn
  else
    n ← ptr p;
    set_ptr bp n.

(** if(p + p->s.size == bp) ... else ... *)
Definition join_lower (bp p : Z) : P unit :=
  psz ← size p;
  if u32 (p + HDR * psz) =? bp then
    sz ← size bp;
    set_size p (u32 (psz + sz));;
    bn ← ptr bp;
    set_ptr p bn
  else set_ptr p bp.

Definition free (fuel : nat) (ap : Z) : P unit :=
  let bp := u32 (ap - HDR) in
  f ← gets h_freep;
  p ← free_find fuel bp f;
  join_upper bp p;;
  join_lower bp p;;
  set_freep p.

Definition morecore (fuel : nat) (nu : Z) : P Z :=
  let nu := if nu <? 4096 then 4096 else nu in
  p ← zoom h_os (λ w s, Hst (h_mem s) (h_freep s) w) (us_sbrk (s32 (nu * HDR)));
  if p =? -1 then mret 0 else
  set_size p nu;;
  free fuel (p + HDR);;
  gets h_freep.

(** The loop of malloc. *)
Fixpoint malloc_loop (fuel : nat) (nunits prevp p : Z) : P Z :=
  match fuel with
  | O => undef "out of fuel"
  | S fuel =>
      sz ← size p;
      if nunits <=? sz then
        r ← (if sz =? nunits then
               n ← ptr p;
               set_ptr prevp n;;
               mret p
             else
               set_size p (sz - nunits);;
               let r := u32 (p + HDR * (sz - nunits)) in
               set_size r nunits;;
               mret r);
        set_freep prevp;;
        mret (u32 (r + HDR))
      else
        f ← gets h_freep;
        p ← (if p =? f then morecore fuel nunits else mret p);
        if p =? 0 then mret 0 else
        n ← ptr p;
        malloc_loop fuel nunits p n
  end.

Definition malloc (fuel : nat) (nbytes : Z) : P Z :=
  let nunits := u32 (nbytes + HDR - 1) / HDR + 1 in
  f ← gets h_freep;
  (if f =? 0 then
     set_ptr base base;;
     set_freep base;;
     set_size base 0
   else mret tt);;
  prevp ← gets h_freep;
  p ← ptr prevp;
  malloc_loop fuel nunits prevp p.
End malloc.

Arguments free_find {W} fuel bp p _ : simpl never.
Arguments malloc_loop {W _} fuel nunits prevp p _ : simpl never.

(** ** Headers in memory *)

(** The header at [p] holds [n] and [sz]. *)
Definition hdr (m : mem) (p n sz : Z) : Prop := hptr m p = n ∧ hsize m p = sz.

Lemma load32_store32 m a v : 0 ≤ v < 2 ^ 32 → load32 (store32 m a v) a = v.
Proof.
  intros Hv. unfold load32. rewrite !store32_spec. in_range. unfold u8.
  change (2 ^ 8) with 256. change (2 ^ 32) with 4294967296 in Hv. divmod_lia.
Qed.

Lemma load32_agree m m' a : (∀ x, a ≤ x < a + 4 → m' x = m x) → load32 m' a = load32 m a.
Proof. intros E. unfold load32. by rewrite !E by lia. Qed.

Lemma store32_ne m a v x : x < a ∨ a + 4 ≤ x → store32 m a v x = m x.
Proof. intros Hx. rewrite store32_spec. in_range. Qed.

Lemma load32_store32_ne m a b v : b + 4 ≤ a ∨ a + 4 ≤ b → load32 (store32 m a v) b = load32 m b.
Proof. intros Hd. apply load32_agree. intros x Hx. apply store32_ne. lia. Qed.

Lemma hdr_agree m m' p n sz : (∀ x, p ≤ x < p + HDR → m' x = m x) → hdr m p n sz → hdr m' p n sz.
Proof.
  unfold HDR. intros E [<- <-]. split; apply load32_agree; intros x Hx; apply E; lia.
Qed.

Lemma hdr_set_ptr m p n sz v : 0 ≤ v < 2 ^ 32 → hdr m p n sz → hdr (store32 m p v) p v sz.
Proof.
  intros Hv [_ <-]. split; [by apply load32_store32 | apply load32_store32_ne; lia].
Qed.

Lemma hdr_set_size m p n sz v : 0 ≤ v < 2 ^ 32 → hdr m p n sz → hdr (store32 m (p + 4) v) p n v.
Proof.
  intros Hv [<- _]. split; [apply load32_store32_ne; lia | by apply load32_store32].
Qed.

(** ** The free list *)

(** A block: the address of its header and its size in units. *)
Definition block : Type := Z * Z.
Definition bend (b : block) : Z := b.1 + HDR * Z.max 1 b.2.
Definition disj (b c : block) : Prop := bend b ≤ c.1 ∨ bend c ≤ b.1.

(** [b] lies before [c], and they are not to be joined. *)
Definition gap (b c : block) : Prop := bend b ≤ c.1 ∧ b.1 + HDR * b.2 ≠ c.1.

(** The blocks of [l] are linked in order, the last one to [n]. *)
Definition first (l : list block) (n : Z) : Z := match l with [] => n | b :: _ => b.1 end.
Fixpoint linked (m : mem) (l : list block) (n : Z) : Prop :=
  match l with
  | [] => True
  | b :: l => hdr m b.1 (first l n) b.2 ∧ linked m l n
  end.

Lemma first_app l1 l2 n : first (l1 ++ l2) n = first l1 (first l2 n).
Proof. by destruct l1. Qed.

Lemma linked_app m l1 l2 n : linked m (l1 ++ l2) n ↔ linked m l1 (first l2 n) ∧ linked m l2 n.
Proof. induction l1 as [|b l1 IH]; simpl; [naive_solver|]. rewrite IH, first_app. naive_solver. Qed.

Lemma linked_agree m m' l n : (∀ b x, b ∈ l → b.1 ≤ x < b.1 + HDR → m' x = m x) → linked m l n → linked m' l n.
Proof.
  induction l as [|b l IH]; simpl; [done|]. intros E [Hb Hl]. split.
  - eapply hdr_agree; [|done]. intros. eapply E; [left|done].
  - apply IH; [|done]. intros c x Hc. apply E. by right.
Qed.

Section walk.
Context {W : Type}.
Context (bp base : Z).

(** One iteration of the search of free. *)
Lemma free_find_step fuel p n (s : hst W) : hptr (h_mem s) p = n →
  free_find (S fuel) bp p s =
    if (p <? bp) && (bp <? n) || (n <=? p) && ((p <? bp) || (bp <? n)) then Ok p s else free_find fuel bp n s.
Proof.
  intros <-. unfold free_find at 1. fold (@free_find W). unfold ptr. rewrite (bind_ok (gets _) _ s (hptr (h_mem s) p) s eq_refl).
  destruct ((p <? bp) && _); [done|]. by destruct ((_ <=? p) && _).
Qed.

Ltac decide_bools :=
  repeat match goal with
  | |- context [?x <? ?y] => destruct (Z.ltb_spec x y)
  | |- context [?x <=? ?y] => destruct (Z.leb_spec x y)
  end; try lia; cbn [andb orb].

(** From a block below bp the search goes up to the last such block. *)
Lemma walk_below (s : hst W) lb p la : ∀ fuel, base ≤ p.1 < bp → linked (h_mem s) (la ++ p :: lb) base →
  StronglySorted (λ b c, b.1 < c.1) (la ++ p :: lb) → Forall (λ b, bp < b.1) lb → (length la < fuel)%nat →
  free_find fuel bp (first (la ++ [p]) base) s = Ok p.1 s.
Proof.
  induction la as [|b la IH]; intros [|fuel] Hp Hl Hs Hlb Hf; simpl in Hf; try lia.
  - destruct Hl as [[Hn _] _]. simpl. rewrite (free_find_step _ _ _ _ Hn).
    destruct lb as [|c lb]; simpl; [|inversion Hlb; subst]; decide_bools; done.
  - destruct Hl as [[Hn _] Hl]. simpl. inversion Hs as [|? ? Hs1 Hs2]. subst.
    apply list.Forall_app in Hs2 as [Hs2 Hs3]. inversion Hs3 as [|? ? Hbp _]. subst.
    rewrite (free_find_step _ _ _ _ Hn). specialize (IH fuel Hp Hl Hs1 Hlb ltac:(lia)).
    assert (b.1 < first (la ++ p :: lb) base ≤ p.1) as [Hn1 Hn2].
    { destruct la as [|c la]; simpl; [lia|]. inversion Hs2. subst. inversion Hs1 as [|? ? _ Hc]. subst.
      apply list.Forall_app in Hc as [_ Hc]. inversion Hc. subst. lia. }
    rewrite first_app in Hn1, Hn2 |- *. rewrite first_app in IH. simpl in *. decide_bools. exact IH.
Qed.

(** From a block above bp it goes round to base. *)
Lemma walk_above (s : hst W) lb : ∀ fuel r, base < bp → linked (h_mem s) lb base →
  StronglySorted (λ b c, b.1 < c.1) lb → Forall (λ b, bp < b.1) lb →
  (∀ k, (fuel ≤ k)%nat → free_find k bp base s = Ok r s) →
  free_find (length lb + fuel) bp (first lb base) s = Ok r s.
Proof.
  induction lb as [|b lb IH]; intros fuel r Hb Hl Hs Hlb Hk; simpl; [by apply Hk|].
  destruct Hl as [[Hn _] Hl]. inversion Hs as [|? ? Hs1 Hs2]. inversion Hlb as [|? ? Hb1 Hlb1]. subst.
  rewrite (free_find_step _ _ _ _ Hn). specialize (IH fuel r Hb Hl Hs1 Hlb1 Hk).
  destruct lb as [|c lb]; simpl in *; [|inversion Hs2; inversion Hlb1; subst]; decide_bools; exact IH.
Qed.
End walk.

(** ** Joining neighbours *)

(** [p] in front of [l], as one block with the first of [l] if they touch. *)
Definition join (p : block) (l : list block) : list block :=
  match l with
  | c :: l' => if p.1 + HDR * p.2 =? c.1 then (p.1, p.2 + c.2) :: l' else p :: l
  | [] => [p]
  end.

(** The bytes of the blocks of a list. *)
Definition in_block (b : block) (x : Z) : Prop := b.1 ≤ x < b.1 + HDR * b.2.
Definition covers (l : list block) (x : Z) : Prop := ∃ b, b ∈ l ∧ in_block b x.

Lemma join_first p l n : first (join p l) n = p.1.
Proof. destruct l as [|c l]; simpl; [done|]. by case_match. Qed.

Lemma join_in p l : p.1 ∈ (join p l).*1.
Proof. destruct l as [|c l]; simpl; [set_solver|]. case_match; csimpl; set_solver. Qed.

Lemma join_addr p l b : b ∈ join p l → b.1 = p.1 ∨ ∃ c, c ∈ l ∧ c.1 = b.1.
Proof.
  destruct l as [|c l]; simpl; [intros ->%list_elem_of_singleton; by left|].
  case_match; rewrite elem_of_cons; intros [-> | Hb]; [by left | right | by left | by right; exists b].
  exists b. split; [by right | done].
Qed.

Lemma join_covers p l x : Forall (λ c, 0 ≤ c.2) (p :: l) → covers (join p l) x ↔ covers (p :: l) x.
Proof.
  intros Hz. destruct l as [|c l]; [done|]. simpl. destruct (Z.eqb_spec (p.1 + HDR * p.2) c.1) as [E|]; [|done].
  rewrite !list.Forall_cons in Hz. destruct Hz as (Hp & Hc & _). unfold covers, in_block. split.
  - intros (b & [-> | Hb]%elem_of_cons & Hx); simpl in *.
    + destruct (decide (x < c.1)); [exists p | exists c]; (split; [set_solver | unfold HDR in *; lia]).
    + exists b. split; [set_solver | done].
  - intros (b & Hb & Hx). rewrite !elem_of_cons in Hb. destruct Hb as [-> | [-> | Hb]].
    + exists (p.1, p.2 + c.2). split; [set_solver | simpl; unfold HDR in *; lia].
    + exists (p.1, p.2 + c.2). split; [set_solver | simpl; unfold HDR in *; lia].
    + exists b. split; [set_solver | done].
Qed.

Lemma join_disj p l c : Forall (λ b, bend p ≤ b.1) l → Forall (λ b, 1 ≤ b.2) l →
  Forall (λ b, disj b c) (p :: l) → Forall (λ b, disj b c) (join p l).
Proof.
  intros Hp Hl Hd. destruct l as [|b l]; [done|]. simpl. destruct (Z.eqb_spec (p.1 + HDR * p.2) b.1) as [E|]; [|done].
  rewrite !list.Forall_cons in *. destruct Hd as (Hpc & Hbc & Hd), Hl as [Hb _]. split; [|done].
  unfold disj, bend, HDR in *. simpl. destruct Hp as [Hp _]. lia.
Qed.

Lemma join_sorted p l : Forall (λ b, bend p ≤ b.1) l → 0 ≤ p.2 →
  Forall (λ b, 1 ≤ b.2) l → StronglySorted gap l → StronglySorted gap (join p l).
Proof.
  intros Hp Hp0 Hl Hs. destruct l as [|b l]; [simpl; by repeat constructor|].
  inversion Hs as [|? ? Hs1 Hs2]. rewrite !list.Forall_cons in *. destruct Hp as [Hpb Hp], Hl as [Hb Hl]. subst. simpl.
  destruct (Z.eqb_spec (p.1 + HDR * p.2) b.1) as [E|E].
  - constructor; [done|]. eapply list.Forall_impl; [exact Hs2|]. intros c [Hg1 Hg2].
    unfold gap, bend, HDR in *. simpl. lia.
  - constructor; [done|]. constructor; [by split|]. eapply list.Forall_impl; [exact Hs2|]. intros c [Hg1 Hg2].
    unfold gap, bend, HDR in *. lia.
Qed.

Lemma join_sizes p l hi : 1 ≤ p.2 → Forall (λ b, 1 ≤ b.2 ∧ bend b ≤ hi) (p :: l) →
  Forall (λ b, 1 ≤ b.2 ∧ bend b ≤ hi) (join p l).
Proof.
  intros Hp Hl. destruct l as [|b l]; [done|]. simpl. destruct (Z.eqb_spec (p.1 + HDR * p.2) b.1) as [E|]; [|done].
  rewrite !list.Forall_cons in *. destruct Hl as ([? ?] & [? ?] & ?). split; [|done]. unfold bend, HDR in *. simpl. lia.
Qed.

(** Only the header at [p] changes. *)
Definition header_only {W} (p : Z) (s s' : hst W) : Prop :=
  (∀ x, x < p ∨ p + HDR ≤ x → h_mem s' x = h_mem s x) ∧ h_freep s' = h_freep s ∧ h_os s' = h_os s.

(** The blocks of [l] lie after [p], in the address space. *)
Definition after (p : block) (l : list block) : Prop :=
  Forall (λ b, bend p ≤ b.1 ∧ 1 ≤ b.2 ∧ bend b ≤ 2 ^ 31) l.

Section join.
Context {W : Type}.
Context (base : Z).

Lemma linked_header_only p l n (s s' : hst W) : Forall (λ b, b.1 + HDR ≤ p ∨ p + HDR ≤ b.1) l →
  header_only p s s' → linked (h_mem s) l n → linked (h_mem s') l n.
Proof.
  intros Hl (Hm & _). apply linked_agree. intros b x Hb Hx. apply Hm.
  eapply list.Forall_forall in Hl; [|exact Hb]. simpl in Hl. unfold HDR in *. lia.
Qed.

(** Storing the header of the joined block. *)
Lemma header_stored b n sz (s : hst W) : 0 ≤ n < 2 ^ 32 → 0 ≤ sz < 2 ^ 32 →
  let s' := Hst (store32 (store32 (h_mem s) (b + 4) sz) b n) (h_freep s) (h_os s) in
  hdr (h_mem s') b n sz ∧ header_only b s s'.
Proof.
  intros Hn Hsz. simpl. split.
  - eapply hdr_set_ptr; [done|]. eapply hdr_set_size; [done | by split].
  - split; [|done]. intros x Hx. unfold HDR in *. simpl. rewrite !store32_ne by lia. done.
Qed.

Lemma pointer_stored b n (s : hst W) : 0 ≤ n < 2 ^ 32 →
  let s' := Hst (store32 (h_mem s) b n) (h_freep s) (h_os s) in
  hdr (h_mem s') b n (hsize (h_mem s) b) ∧ header_only b s s'.
Proof.
  intros Hn. simpl. split; [eapply hdr_set_ptr; [done | by split]|].
  split; [|done]. intros x Hx. unfold HDR in *. simpl. rewrite !store32_ne by lia. done.
Qed.

Lemma after_first p l : base < 2 ^ 31 → 0 < base → 0 < p.1 → after p l → 0 ≤ first l base < 2 ^ 32.
Proof.
  intros ? ? ? Hl. destruct l as [|b l]; simpl; [lia|]. inversion Hl as [|? ? (? & ? & ?) _]. subst.
  unfold bend, HDR in *. lia.
Qed.

Lemma after_tail p b l : after p (b :: l) → StronglySorted gap (b :: l) → after b l.
Proof.
  intros [_ Hl]%list.Forall_cons Hs. inversion Hs as [|? ? _ Hg]. subst. apply list.Forall_forall. intros c Hc.
  eapply list.Forall_forall in Hl; [|exact Hc]. eapply list.Forall_forall in Hg; [|exact Hc]. destruct Hl, Hg. done.
Qed.

Lemma after_apart p l : after p l → Forall (λ b, b.1 + HDR ≤ p.1 ∨ p.1 + HDR ≤ b.1) l.
Proof.
  intros Hl. eapply list.Forall_impl; [exact Hl|]. intros b (? & ? & ?). unfold bend, HDR in *. lia.
Qed.

Lemma wp_join_upper p bp z l (s : hst W) : 0 < base < 2 ^ 31 → p + HDR ≤ bp → base < bp → 0 ≤ z → bend (bp, z) ≤ 2 ^ 31 →
  hptr (h_mem s) p = first l base → hsize (h_mem s) bp = z → linked (h_mem s) l base → after (bp, z) l → StronglySorted gap l →
  wp (join_upper bp p) (λ _ s', linked (h_mem s') (join (bp, z) l) base ∧ header_only bp s s') s.
Proof.
  intros Hbase Hp Hbp Hz Hend Hn Hsz Hl Ha Hs. unfold join_upper, ptr, size, set_size, set_ptr. wp_steps. rewrite Hn, Hsz.
  pose proof (after_first (bp, z) l) as Hf. simpl in Hf. specialize (Hf ltac:(lia) ltac:(lia) ltac:(lia) Ha).
  assert (u32 (bp + HDR * z) = bp + HDR * z) as -> by (apply u32_id; unfold bend, HDR in *; simpl in *; lia).
  pose proof (after_apart _ _ Ha) as Hap. simpl in Hap. destruct l as [|c l]; simpl in *.
  - rewrite (proj2 (Z.eqb_neq _ _)) by (unfold HDR; lia). wp_steps. rewrite Hn.
    destruct (pointer_stored bp base s) as [? ?]; [done|]. rewrite Hsz in *. done.
  - destruct Hl as [[Hc1 Hc2] Hl], (Z.eqb_spec (bp + HDR * z) c.1) as [E|E]; wp_steps.
    + pose proof (after_tail _ _ _ Ha Hs) as Ha'. inversion Ha as [|? ? (Hb1 & Hb2 & Hb3) _]. subst.
      assert (u32 (hsize (h_mem s) bp + hsize (h_mem s) c.1) = hsize (h_mem s) bp + c.2) as ->.
      { rewrite Hc2. apply u32_id. unfold bend, HDR in *. simpl in *. lia. }
      simpl. set (v := hsize (h_mem s) bp + c.2) in *.
      assert (hptr (store32 (h_mem s) (bp + 4) v) p = c.1) as ->.
      { rewrite <- Hn. apply load32_store32_ne. unfold HDR in *. lia. }
      assert (hptr (store32 (h_mem s) (bp + 4) v) c.1 = first l base) as ->.
      { rewrite <- Hc1. apply load32_store32_ne. unfold bend, HDR in *. simpl in *. lia. }
      pose proof (after_first c l ltac:(lia) ltac:(lia)) as Hf'.
      destruct (header_stored bp (first l base) v s) as [Hh Ho].
      * apply Hf'; [unfold bend, HDR in *; simpl in *; lia | done].
      * subst v. unfold bend, HDR in *. simpl in *. lia.
      * split; [|done]. simpl. split; [done|]. refine (linked_header_only bp l base s _ _ Ho Hl).
        by apply list.Forall_cons in Hap as [_ ?].
    + rewrite Hn. destruct (pointer_stored bp c.1 s) as [? Ho]; [done|]. rewrite Hsz in *. split; [|done].
      simpl. split; [done|]. refine (linked_header_only bp (c :: l) base s _ Hap Ho _). done.
Qed.

Lemma wp_join_lower p c l (s : hst W) : 0 < base < 2 ^ 31 → 0 < p.1 → 0 ≤ p.2 → bend p ≤ c.1 → 1 ≤ c.2 →
  hsize (h_mem s) p.1 = p.2 → linked (h_mem s) (c :: l) base → after p (c :: l) → StronglySorted gap (c :: l) →
  wp (join_lower c.1 p.1) (λ _ s', linked (h_mem s') (join p (c :: l)) base ∧ header_only p.1 s s') s.
Proof.
  intros Hbase Hp1 Hp2 Hpc Hc Hsz Hl Ha Hs. unfold join_lower, ptr, size, set_size, set_ptr. wp_steps. rewrite Hsz.
  pose proof (after_apart _ _ Ha) as Hap. pose proof (after_tail _ _ _ Ha Hs) as Ha'.
  pose proof Ha as [(Hc1 & Hc2 & Hc3) _]%list.Forall_cons. destruct Hl as [[Hn Hcs] Hl].
  assert (u32 (p.1 + HDR * p.2) = p.1 + HDR * p.2) as -> by (apply u32_id; unfold bend, HDR in *; lia).
  simpl. destruct (Z.eqb_spec (p.1 + HDR * p.2) c.1) as [E|E]; wp_steps.
  - assert (u32 (p.2 + hsize (h_mem s) c.1) = p.2 + c.2) as ->.
    { rewrite Hcs. apply u32_id. unfold bend, HDR in *. lia. }
    cbn [h_mem h_freep h_os].
    assert (hptr (store32 (h_mem s) (p.1 + 4) (p.2 + c.2)) c.1 = first l base) as ->.
    { rewrite <- Hn. apply load32_store32_ne. unfold bend, HDR in *. lia. }
    destruct (header_stored p.1 (first l base) (p.2 + c.2) s) as [Hh Ho].
    + apply (after_first c l); [lia | lia | unfold bend, HDR in *; lia | done].
    + unfold bend, HDR in *. lia.
    + split; [|done]. split; [done|]. refine (linked_header_only p.1 l base s _ _ Ho Hl).
      by apply list.Forall_cons in Hap as [_ ?].
  - destruct (pointer_stored p.1 c.1 s) as [Hh Ho]; [unfold bend, HDR in *; lia|]. rewrite Hsz in Hh. split; [|done].
    split; [done|]. refine (linked_header_only p.1 (c :: l) base s _ Hap Ho _). split; [by split | done].
Qed.
End join.

Lemma covers_app l1 l2 x : covers (l1 ++ l2) x ↔ covers l1 x ∨ covers l2 x.
Proof. unfold covers. set_solver. Qed.
Lemma covers_cons b l x : covers (b :: l) x ↔ in_block b x ∨ covers l x.
Proof. unfold covers. set_solver. Qed.

Lemma length_join p l : (length (join p l) ≤ S (length l))%nat.
Proof. destruct l as [|c l]; simpl; [lia|]. case_match; simpl; lia. Qed.

Lemma join_large p l z : Forall (λ b, 0 ≤ b.2) l → z ≤ p.2 → ∃ b, b ∈ join p l ∧ z ≤ b.2.
Proof.
  intros Hl Hz. destruct l as [|c l]; simpl; [exists p; set_solver|].
  apply list.Forall_cons in Hl as [Hc _]. case_match; eexists; (split; [by left | simpl; lia]).
Qed.

Lemma join_large_mono p l z : 0 ≤ p.2 → (∃ b, b ∈ l ∧ z ≤ b.2) → ∃ b, b ∈ join p l ∧ z ≤ b.2.
Proof.
  intros Hp (b & Hb & Hz). destruct l as [|c l]; [set_solver|]. simpl.
  apply elem_of_cons in Hb as [-> | Hb]; case_match.
  - exists (p.1, p.2 + c.2). split; [by left | simpl; lia].
  - exists c. split; [set_solver | done].
  - exists b. split; [by right | done].
  - exists b. split; [set_solver | done].
Qed.

Lemma after_sizes p l : after p l → Forall (λ b, bend p ≤ b.1) l ∧ Forall (λ b, 1 ≤ b.2) l ∧ Forall (λ b, 0 ≤ b.2) l.
Proof. intros Ha. split_and!; (eapply list.Forall_impl; [exact Ha|]); simpl; intros; lia. Qed.

(** ** free *)

Section free.
Context {W : Type}.
Context (base hi : Z).
Hypothesis base_ok : 0 < base ∧ base + HDR ≤ hi ≤ 2 ^ 31.

(** The circular list in memory is [l]: it starts at base, and the other
    blocks lie in increasing order up to the end [hi] of the heap. *)
Record free_ok (l : list block) (s : hst W) : Prop := {
  fo_split : ∃ hs, l = (base, 0) :: hs ∧ Forall (λ b, 1 ≤ b.2 ∧ bend b ≤ hi) hs;
  fo_sorted : StronglySorted gap l;
  fo_linked : linked (h_mem s) l base;
  fo_freep : h_freep s ∈ l.*1
}.

Lemma gap_lt l : StronglySorted gap l → StronglySorted (λ b c : block, b.1 < c.1) l.
Proof.
  induction 1 as [|b l Hs IH Hg]; constructor; [done|]. eapply list.Forall_impl; [exact Hg|].
  intros c [? _]. unfold bend, HDR in *. lia.
Qed.

(** The list around the address of a block that is not in it. *)
Lemma split_at bp l : ∀ b, StronglySorted (λ b c : block, b.1 < c.1) (b :: l) → b.1 < bp → Forall (λ b, b.1 ≠ bp) l →
  ∃ la p lb, b :: l = la ++ p :: lb ∧ p.1 < bp ∧ Forall (λ b, bp < b.1) lb.
Proof.
  induction l as [|c l IH]; intros b Hs Hb Hn; [by exists [], b, []|].
  inversion Hs as [|? ? Hs1 Hs2]. inversion Hn as [|? ? Hn1 Hn2]. subst.
  destruct (decide (c.1 < bp)) as [Hc|Hc].
  - destruct (IH c Hs1 Hc Hn2) as (la & p & lb & -> & Hp & Hlb). by exists (b :: la), p, lb.
  - exists [], b, (c :: l). split_and!; [done | done |]. constructor; [lia|].
    inversion Hs1 as [|? ? _ Hs3]. eapply list.Forall_impl; [exact Hs3|]. simpl. intros. lia.
Qed.

(** A block in use next to a free list. *)
Record usable (bp z : Z) (l : list block) (s : hst W) : Prop := {
  us_size : 1 ≤ z;
  us_lo : base + HDR ≤ bp;
  us_hi : bend (bp, z) ≤ hi;
  us_hdr : hsize (h_mem s) bp = z;
  us_disj : Forall (λ b, disj b (bp, z)) l
}.

Lemma free_find_spec fuel bp z l s : free_ok l s → usable bp z l s → (length l < fuel)%nat →
  ∃ la p lb, l = la ++ p :: lb ∧ bend p ≤ bp ∧ after (bp, z) lb ∧ free_find fuel bp (h_freep s) s = Ok p.1 s.
Proof.
  intros [(hs & El & Hhs) Hs Hl Hf] [Hz Hlo Hhi _ Hd] Hfuel.
  assert (Forall (λ b : block, b.1 ≠ bp) l) as Hne.
  { eapply list.Forall_impl; [exact Hd|]. intros b. unfold disj, bend, HDR. simpl. lia. }
  pose proof (gap_lt l Hs) as Hlt. rewrite El in Hlt, Hne. apply list.Forall_cons in Hne as [_ Hne].
  destruct (split_at bp hs (base, 0) Hlt) as (la & p & lb & E & Hp & Hlb); [unfold HDR in *; simpl; lia | done |].
  apply (eq_trans El) in E. rewrite <- El in Hlt. rewrite E in Hd, Hlt, Hl. apply list.Forall_app in Hd as [_ [Hdp Hdb]%list.Forall_cons].
  assert (base ≤ p.1 ∧ first (la ++ [p]) base = base) as [Hbp Hfst].
  { destruct la as [|b la]; simpl in E; rewrite El in E; injection E as <- E; simpl; [lia|].
    inversion Hlt as [|? ? _ Hb]. apply list.Forall_app in Hb as [_ [Hb _]%list.Forall_cons]. simpl in Hb. lia. }
  exists la, p, lb. split_and!; [done | unfold disj, bend, HDR in *; simpl in *; lia | |].
  - apply list.Forall_forall. intros b Hb. pose proof (proj1 (list.Forall_forall _ _) Hlb b Hb) as H1.
    pose proof (proj1 (list.Forall_forall _ _) Hdb b Hb) as H2. simpl in H1, H2.
    assert (b ∈ hs) as Hin.
    { assert (b ∈ l) as Hbl by (rewrite E; set_solver). rewrite El in Hbl. apply elem_of_cons in Hbl as [-> | ?]; [simpl in H1; unfold HDR in *; lia | done]. }
    pose proof (proj1 (list.Forall_forall _ _) Hhs b Hin) as [H3 H4]. unfold disj, bend, HDR in *. simpl in *. lia.
  - assert (∀ k, (S (length la) ≤ k)%nat → free_find k bp base s = Ok p.1 s) as Hk.
    { intros k Hk. rewrite <- Hfst. by eapply walk_below. }
    rewrite E in Hf, Hfuel. rewrite length_app in Hfuel. simpl in Hfuel.
    apply list_elem_of_fmap in Hf as (b & -> & Hin). rewrite elem_of_app, elem_of_cons in Hin.
    apply linked_app in Hl as [Hla Hl]. pose proof (proj1 (StronglySorted_app _ _ _) Hlt) as (_ & Hsa & Hsb).
    destruct Hin as [Hin | [-> | Hin]].
    + apply list_elem_of_split in Hin as (l1 & l2 & ->).
      rewrite <- app_assoc in Hlt. apply StronglySorted_app in Hlt as (_ & _ & Hlt). rewrite length_app in Hfuel. simpl in Hfuel.
      apply (walk_below bp base s lb p (b :: l2) fuel); [lia | | done | done | simpl; lia].
      apply linked_app in Hla as [_ Hla]. apply linked_app. done.
    + apply (walk_below bp base s lb p [] fuel); [lia | done | done | done | simpl; lia].
    + apply list_elem_of_split in Hin as (l1 & l2 & ->).
      destruct Hl as [_ Hl]. apply linked_app in Hl as [_ Hl]. apply StronglySorted_cons in Hsb as [_ Hsb].
      apply StronglySorted_app in Hsb as (_ & _ & Hsb). apply list.Forall_app in Hlb as [_ Hlb].
      rewrite length_app in Hfuel. simpl in Hfuel. replace fuel with (length (b :: l2) + (fuel - S (length l2)))%nat by (simpl; lia).
      apply (walk_above bp base s (b :: l2)); [unfold HDR in *; lia | done | done | done |].
      intros k ?. apply Hk. lia.
Qed.

(** What free makes of the list: the block is in it, alone or joined, and
    nothing else is. *)
Record freed (bp z : Z) (l l' : list block) : Prop := {
  fr_covers : ∀ x, covers l' x ↔ covers l x ∨ in_block (bp, z) x;
  fr_disj : ∀ c, Forall (λ b, disj b c) l → disj (bp, z) c → Forall (λ b, disj b c) l';
  fr_large : ∃ b, b ∈ l' ∧ z ≤ b.2;
  fr_length : (length l' ≤ S (length l))%nat
}.

(** The list after free, and the invariants it keeps. *)
Lemma freed_list bp z (la : list block) (p : block) (lb : list block) : 1 ≤ z → 0 ≤ p.2 → bend p ≤ bp → after (bp, z) lb →
  Forall (λ b, disj b (bp, z)) (la ++ p :: lb) → StronglySorted gap (la ++ p :: lb) →
  Forall (λ b, bend p ≤ b.1) (join (bp, z) lb) ∧ Forall (λ b, 1 ≤ b.2) (join (bp, z) lb) ∧
  StronglySorted gap (la ++ join p (join (bp, z) lb)) ∧ freed bp z (la ++ p :: lb) (la ++ join p (join (bp, z) lb)).
Proof.
  intros Hz Hp0 Hp Ha Hd Hs. destruct (after_sizes _ _ Ha) as (Hb1 & Hb2 & Hb3).
  apply StronglySorted_app in Hs as (Hs1 & Hs2 & [Hs3 Hs4]%StronglySorted_cons).
  apply list.Forall_app in Hd as [_ [_ Hd]%list.Forall_cons].
  assert (Forall (λ b : block, 1 ≤ b.2) (join (bp, z) lb)) as Hj2.
  { eapply list.Forall_impl; [apply (join_sizes (bp, z) lb (Z.max (2 ^ 31) (bend (bp, z)))); [done|]|naive_solver].
    constructor; [cbn [snd]; lia|]. eapply list.Forall_impl; [exact Ha|]. intros b (? & ? & ?).
    lia. }
  assert (Forall (λ b : block, bend p ≤ b.1) (join (bp, z) lb)) as Hj1.
  { apply list.Forall_forall. intros b [-> | (c & Hc & <-)]%join_addr; [done|].
    eapply list.Forall_forall in Hs3; [|exact Hc]. by destruct Hs3. }
  split_and!; [done | done | |].
  - apply StronglySorted_app. split_and!; [|done|].
    + intros x y Hx Hy. pose proof (Hs1 x p Hx ltac:(by left)) as [Hxp1 Hxp2].
      apply join_addr in Hy as [Hy | (c & [Hc | (d & Hd' & Hdc)]%join_addr & Hcy)]; [by rewrite <- Hy in *; split | |].
      * unfold gap, bend, HDR in *. simpl in *. lia.
      * destruct (Hs1 x d Hx ltac:(by right)) as [? ?]. unfold gap. rewrite <- Hcy, <- Hdc. done.
    + apply join_sorted; [done | done | done |]. apply join_sorted; [done | simpl; lia | done | done].
  - assert (Forall (λ b : block, 0 ≤ b.2) (join (bp, z) lb)) as Hj3 by (eapply list.Forall_impl; [exact Hj2 | simpl; lia]).
    split.
    + intros x. rewrite !covers_app, join_covers, !covers_cons, join_covers, covers_cons by (constructor; simpl; [lia | done]).
      naive_solver.
    + intros c [Hca [Hcp Hcb]%list.Forall_cons]%list.Forall_app Hc. apply list.Forall_app. split; [done|].
      apply join_disj; [done | done |]. constructor; [done|]. apply join_disj; [done | done |]. by constructor.
    + destruct (join_large_mono p (join (bp, z) lb) z) as (b & Hb & Hbz); [done | by apply join_large |].
      exists b. split; [set_solver | done].
    + rewrite !length_app. pose proof (length_join p (join (bp, z) lb)). pose proof (length_join (bp, z) lb).
      simpl in *. unfold block in *. lia.
Qed.

(** Memory outside the headers of [l] is unchanged. *)
Definition headers_only (l : list block) (s s' : hst W) : Prop :=
  ∀ x, Forall (λ b : block, x < b.1 ∨ b.1 + HDR ≤ x) l → h_mem s' x = h_mem s x.

Lemma wp_free fuel bp z l s : free_ok l s → usable bp z l s → (length l < fuel)%nat →
  wp (free fuel (bp + HDR)) (λ _ s', ∃ l', free_ok l' s' ∧ freed bp z l l' ∧ h_os s' = h_os s ∧
    headers_only ((bp, z) :: l) s s') s.
Proof.
  intros Hok Hu Hfuel. destruct (free_find_spec fuel bp z l s Hok Hu Hfuel) as (la & p & lb & El & Hp & Ha & Hfind).
  destruct Hok as [(hs & Ehs & Hhs) Hs Hl _], Hu as [Hz Hlo Hhi Hhdr Hd]. unfold free.
  replace (u32 (bp + HDR - HDR)) with bp by (rewrite u32_id; unfold bend, HDR in *; simpl in *; lia).
  assert (p = (base, 0) ∧ la = [] ∨ 1 ≤ p.2 ∧ bend p ≤ hi ∧ base < p.1 ∧ ∃ la', la = (base, 0) :: la') as Hpcase.
  { rewrite Ehs in El, Hs. destruct la as [|b la]; injection El as <- El; [by left|]. right.
    assert (p ∈ hs) as Hin by (rewrite El; set_solver).
    pose proof (proj1 (list.Forall_forall _ _) Hhs p Hin) as [? ?]. split_and!; [done | done | | by eexists].
    apply StronglySorted_cons in Hs as [Hs _]. pose proof (proj1 (list.Forall_forall _ _) Hs p Hin) as [Hg _].
    unfold bend, HDR in Hg. simpl in Hg. lia. }
  assert (0 < p.1 ∧ 0 ≤ p.2) as [Hp1 Hp0] by (destruct Hpcase as [[-> _]|?]; simpl; lia).
  rewrite El in Hd, Hs, Hl. destruct (freed_list bp z la p lb Hz Hp0 Hp Ha Hd Hs) as (Hj1 & Hj2 & Hs' & Hfr).
  apply linked_app in Hl as [Hla [[Hpn Hps] Hlb]].
  pose proof (proj1 (StronglySorted_app _ _ _) Hs) as (Hsa & _ & [_ Hsb]%StronglySorted_cons).
  wp_step. wp_step. wp_step. eapply wp_ok; [exact Hfind|]. wp_step. eapply wp_mono.
  { apply (wp_join_upper base p.1 bp z lb); try done; unfold bend, HDR in *; simpl in *; lia. }
  intros [] s1 [Hl1 Ho1]. simpl. wp_step.
  assert (after p (join (bp, z) lb)) as Hap.
  { apply list.Forall_forall. intros b Hb. pose proof (proj1 (list.Forall_forall _ _) Hj1 b Hb). 
    assert (Forall (λ b : block, 1 ≤ b.2 ∧ bend b ≤ 2 ^ 31) (join (bp, z) lb)) as Hj.
    { apply join_sizes; [done|]. constructor; [cbn [snd]; lia|]. eapply list.Forall_impl; [exact Ha | naive_solver]. }
    split; [done|]. by apply (proj1 (list.Forall_forall _ _) Hj b Hb). }
  assert (StronglySorted gap (join (bp, z) lb)) as Hsj.
  { destruct (after_sizes _ _ Ha) as (? & ? & ?). apply join_sorted; [done | simpl; lia | done | done]. }
  assert (Forall (λ b : block, 1 ≤ b.2 ∧ bend b ≤ hi) (join (bp, z) lb)) as Hjh.
  { apply join_sizes; [done|]. constructor; [done|]. apply list.Forall_forall. intros b Hb.
    apply (proj1 (list.Forall_forall _ _) Hhs b). assert (b ∈ la ++ p :: lb) as Hin by set_solver.
    rewrite <- El, Ehs in Hin. apply elem_of_cons in Hin as [-> | ?]; [|done].
    pose proof (proj1 (list.Forall_forall _ _) Ha _ Hb) as [Hx _]. unfold bend, HDR in *. simpl in *. lia. }
  assert (∃ c j, join (bp, z) lb = c :: j ∧ c.1 = bp) as (c & j & Ej & Hjf).
  { destruct lb as [|d lb]; simpl; [by eexists _, _|]. case_match; by eexists _, _. }
  rewrite Ej in *.
  rewrite <- Hjf. eapply wp_mono.
  { apply (wp_join_lower base p c j); try done.
    - unfold HDR in *; lia.
    - by rewrite Hjf.
    - by apply list.Forall_cons in Hj2 as [? _].
    - rewrite <- Hps. apply load32_agree. intros x Hx. apply Ho1. unfold bend, HDR in *. lia. }
  intros [] s2 [Hl2 Ho2]. apply wp_modify. exists (la ++ join p (c :: j)). rewrite El.
  rewrite Hjf. split_and!; [split|done| |].
  - destruct Hpcase as [[-> ->]|(Hp2 & Hp3 & _ & la' & ->)].
    + exists (c :: j). split; [|done]. simpl. rewrite (proj2 (Z.eqb_neq _ _)); [done | unfold HDR in *; lia].
    + exists (la' ++ join p (c :: j)). split; [done|]. apply list.Forall_app. split.
      * rewrite Ehs in El. injection El as El. rewrite El in Hhs. by apply list.Forall_app in Hhs as [? _].
      * apply join_sizes; [done|]. by constructor.
  - done.
  - cbn [h_mem]. apply linked_app. rewrite join_first. split; [|done].
    eapply linked_header_only; [|exact Ho2|]; [|eapply linked_header_only; [|exact Ho1 | exact Hla]];
      apply list.Forall_forall; intros b Hb; destruct (Hsa b p Hb ltac:(by left)) as [Hg _]; left;
      unfold bend, HDR in *; lia.
  - cbn [h_freep]. rewrite fmap_app, elem_of_app. right. apply join_in.
  - simpl. by rewrite (proj2 (proj2 Ho2)), (proj2 (proj2 Ho1)).
  - intros x [Hx [_ [Hxp _]%list.Forall_cons]%list.Forall_app]%list.Forall_cons. simpl in *.
    rewrite (proj1 Ho2), (proj1 Ho1); [done | done | done].
Qed.
End free.

(** ** The heap *)

Lemma sorted_pair l b c : StronglySorted gap l → b ∈ l → c ∈ l → b = c ∨ gap b c ∨ gap c b.
Proof.
  induction 1 as [|d l Hs IH Hg]; [set_solver|]. rewrite list.Forall_forall in Hg.
  intros [-> | Hb]%elem_of_cons [-> | Hc]%elem_of_cons; auto.
Qed.

Section heap.
Context {W : Type} `{UserSys W}.
Context (base : Z) (brk : W → Z).
Hypothesis base_pos : 0 < base.
(** sbrk moves the end of the heap, which stays below the kernel. *)
Hypothesis sbrk_grows : ∀ w n, 0 < n < 2 ^ 31 → ∃ p w', us_sbrk n w = Ok p w' ∧
  (p = -1 ∧ brk w' = brk w ∨ p = brk w ∧ brk w' = brk w + n ∧ brk w' ≤ 2 ^ 31).

(** The free list is [l] and the blocks in use are [live], the address of the
    header and the size. *)
Record heap_is (l : list block) (live : gmap Z Z) (s : hst W) : Prop := {
  hi_brk : base + HDR ≤ brk (h_os s) ≤ 2 ^ 31;
  hi_free : free_ok base (brk (h_os s)) l s;
  hi_live : ∀ a z, live !! a = Some z → usable base (brk (h_os s)) a z l s;
  hi_disj : ∀ a z a' z', live !! a = Some z → live !! a' = Some z' → a ≠ a' → disj (a, z) (a', z')
}.

(** The blocks in use keep their bytes. *)
Definition kept (live : gmap Z Z) (s s' : hst W) : Prop :=
  ∀ a z x, live !! a = Some z → in_block (a, z) x → h_mem s' x = h_mem s x.

(** All bytes the allocator manages. *)
Definition arena (l : list block) (live : gmap Z Z) (x : Z) : Prop :=
  covers l x ∨ ∃ a z, live !! a = Some z ∧ in_block (a, z) x.

Lemma kept_size live s s' a z : kept live s s' → live !! a = Some z → 1 ≤ z → hsize (h_mem s') a = hsize (h_mem s) a.
Proof.
  intros Hk Ha Hz. apply load32_agree. intros x Hx. eapply Hk; [done|]. unfold in_block, HDR. simpl. lia.
Qed.

Lemma kept_headers l live s s' : headers_only l s s' →
  (∀ a z, live !! a = Some z → 1 ≤ z ∧ Forall (λ b, disj b (a, z)) l) → kept live s s'.
Proof.
  intros Hh Hd a z x Ha Hx. apply Hh. destruct (Hd a z Ha) as [Hz Hl].
  eapply list.Forall_impl; [exact Hl|]. intros b. unfold disj, bend, in_block, HDR in *. simpl in *. lia.
Qed.

Lemma kept_trans live s1 s2 s3 : kept live s1 s2 → kept live s2 s3 → kept live s1 s3.
Proof. intros H1 H2 a z x Ha Hx. rewrite (H2 a z x Ha Hx). by eapply H1. Qed.

(** free of a block in use. *)
Lemma wp_free_heap fuel bp z l live s : heap_is l live s → live !! bp = Some z → (length l < fuel)%nat →
  wp (free fuel (bp + HDR)) (λ _ s', ∃ l', heap_is l' (delete bp live) s' ∧ kept (delete bp live) s s' ∧
    (∀ x, arena l' (delete bp live) x ↔ arena l live x) ∧ freed bp z l l' ∧ h_os s' = h_os s) s.
Proof.
  intros [Hb Hf Hl Hd] Hbp Hfuel. eapply wp_mono; [apply (wp_free base (brk (h_os s))); [lia | done | by apply Hl | done]|].
  intros [] s' (l' & Hf' & Hfr & Hos & Hh).
  assert (∀ a x, delete bp live !! a = Some x → live !! a = Some x ∧ disj (bp, z) (a, x)) as Hdel.
  { intros a x [Hne Ha]%lookup_delete_Some. split; [done|]. by eapply Hd. }
  assert (kept (delete bp live) s s') as Hk.
  { eapply kept_headers; [exact Hh|]. intros a x [Ha Hx]%Hdel. destruct (Hl a x Ha). split; [done | by constructor]. }
  exists l'. split_and!; [|done | |done|done].
  - split; rewrite ?Hos; [done | done | |].
    + intros a x Hax. destruct (Hdel a x Hax) as [Ha Hx], (Hl a x Ha) as [? ? ? ? ?]. split; [done..| |].
      * by erewrite kept_size.
      * by apply Hfr.
    + intros a x a' x' [Ha _]%Hdel [Ha' _]%Hdel. by eapply Hd.
  - intros x. unfold arena. rewrite (fr_covers _ _ _ _ Hfr). split.
    + intros [[?|?]|(a & y & [? _]%Hdel & ?)]; [by left | by right; exists bp, z | by right; exists a, y].
    + intros [?|(a & y & Ha & Hy)]; [by left; left|]. destruct (decide (a = bp)) as [->|].
      * left. right. congruence.
      * right. exists a, y. split; [by rewrite lookup_delete_ne | done].
Qed.

(** ** malloc takes the end of a free block *)

(** What is left of [b] when [n] units are taken from its end. *)
Definition rest (b : block) (n : Z) : list block := if b.2 =? n then [] else [(b.1, b.2 - n)].
Definition taken (b : block) (n : Z) : Z := b.1 + HDR * (b.2 - n).

Lemma rest_cases b n : 1 ≤ n ≤ b.2 → rest b n = [] ∧ b.2 = n ∨ rest b n = [(b.1, b.2 - n)] ∧ n < b.2.
Proof. intros Hn. unfold rest. destruct (Z.eqb_spec b.2 n); [by left | right; split; [done | lia]]. Qed.

Lemma rest_sorted l1 b l2 n : 1 ≤ n ≤ b.2 → StronglySorted gap (l1 ++ b :: l2) → StronglySorted gap (l1 ++ rest b n ++ l2).
Proof.
  intros Hn (H1 & H2 & [H3 H4]%StronglySorted_cons)%StronglySorted_app.
  destruct (rest_cases b n Hn) as [[-> _]|[-> Hlt]]; simpl; apply StronglySorted_app; (split_and!; [|done|]).
  - intros x y Hx Hy. apply H1; [done | by right].
  - done.
  - intros x y Hx [-> | Hy]%elem_of_cons; [exact (H1 x b Hx ltac:(by left)) | apply H1; [done | by right]].
  - constructor; [done|]. eapply list.Forall_impl; [exact H3|]. intros c [? ?]. unfold gap, bend, HDR in *. simpl. lia.
Qed.

Lemma rest_covers l1 b l2 n x : 1 ≤ n ≤ b.2 → covers (l1 ++ b :: l2) x → covers (l1 ++ rest b n ++ l2) x ∨ in_block (taken b n, n) x.
Proof.
  intros Hn Hc. apply covers_app in Hc as [Hc | [Hc | Hc]%covers_cons]; rewrite !covers_app.
  - by left; left.
  - unfold in_block, taken, HDR in *. simpl.
    destruct (rest_cases b n Hn) as [[-> ?]|[-> Hlt]]; [right; lia|].
    destruct (decide (x < b.1 + 8 * (b.2 - n))); [left; right; left | right; lia].
    exists (b.1, b.2 - n). unfold in_block, HDR. simpl. split; [set_solver | lia].
  - by left; right; right.
Qed.

Lemma rest_disj l1 b l2 n c : 1 ≤ n ≤ b.2 → Forall (λ b, disj b c) (l1 ++ b :: l2) → Forall (λ b, disj b c) (l1 ++ rest b n ++ l2).
Proof.
  intros Hn [H1 [H2 H3]%list.Forall_cons]%list.Forall_app. apply list.Forall_app. split; [done|].
  apply list.Forall_app. split; [|done]. destruct (rest_cases b n Hn) as [[-> ?]|[-> Hlt]]; [constructor|].
  apply list.Forall_singleton. unfold disj, bend, HDR in *. simpl. lia.
Qed.

Lemma taken_disj l1 b l2 n : 1 ≤ n ≤ b.2 → StronglySorted gap (l1 ++ b :: l2) →
  Forall (λ c, disj c (taken b n, n)) (l1 ++ rest b n ++ l2).
Proof.
  intros Hn (H1 & H2 & [H3 H4]%StronglySorted_cons)%StronglySorted_app. rewrite !list.Forall_app. split_and!.
  - apply list.Forall_forall. intros c Hc. destruct (H1 c b Hc ltac:(by left)) as [Hg _].
    unfold disj, taken, bend, HDR in *. simpl. lia.
  - destruct (rest_cases b n Hn) as [[-> ?]|[-> Hlt]]; [constructor|]. apply list.Forall_singleton.
    unfold disj, taken, bend, HDR in *. simpl. lia.
  - eapply list.Forall_impl; [exact H3|]. intros c [Hg _]. unfold disj, taken, bend, HDR in *. simpl. lia.
Qed.

(** The state after the block of [n] units has been taken. *)
Record took (l1 : list block) (pv b : block) (l2 : list block) (n : Z) (s s' : hst W) : Prop := {
  tk_linked : linked (h_mem s') ((l1 ++ [pv]) ++ rest b n ++ l2) base;
  tk_size : hsize (h_mem s') (taken b n) = n;
  tk_mem : ∀ x, x < pv.1 ∨ pv.1 + HDR ≤ x → x < b.1 ∨ bend b ≤ x → h_mem s' x = h_mem s x;
  tk_os : h_os s' = h_os s;
  tk_freep : h_freep s' = pv.1
}.

Lemma took_ok l1 pv b l2 n live s s' : heap_is (l1 ++ pv :: b :: l2) live s → b.1 ≠ base → 1 ≤ n ≤ b.2 →
  took l1 pv b l2 n s s' → let l' := (l1 ++ [pv]) ++ rest b n ++ l2 in
  live !! taken b n = None ∧ heap_is l' (<[taken b n := n]> live) s' ∧ kept live s s' ∧
  (∀ x, arena (l1 ++ pv :: b :: l2) live x → arena l' (<[taken b n := n]> live) x) ∧ 0 < taken b n ∧ bend (taken b n, n) ≤ 2 ^ 31.
Proof.
  intros [Hb [(hs & El & Hhs) Hs Hl _] Hlive Hd] Hbb Hn [Hl' Hsz Hm Hos Hfp] l'.
  assert (l1 ++ pv :: b :: l2 = (l1 ++ [pv]) ++ b :: l2) as E by (by rewrite <- app_assoc). rewrite E in *.
  assert (b ∈ hs) as Hin.
  { assert (b ∈ (l1 ++ [pv]) ++ b :: l2) as Hi by set_solver. rewrite El in Hi. by apply elem_of_cons in Hi as [-> | ?]. }
  pose proof (proj1 (list.Forall_forall _ _) Hhs b Hin) as [Hb1 Hb2].
  assert (base + HDR ≤ b.1) as Hblo.
  { rewrite El in Hs. apply StronglySorted_cons in Hs as [Hs _]. pose proof (proj1 (list.Forall_forall _ _) Hs b Hin) as [Hg _].
    unfold bend, HDR in *. simpl in *. lia. }
  assert (∀ a z, live !! a = Some z → 1 ≤ z ∧ disj pv (a, z) ∧ disj b (a, z)) as Hlb.
  { intros a z Ha. destruct (Hlive a z Ha) as [? _ _ _ Hda]. rewrite !list.Forall_app in Hda.
    by destruct Hda as [[_ [? _]%list.Forall_cons] [? _]%list.Forall_cons]. }
  assert (kept live s s') as Hk.
  { intros a z x Ha Hx. destruct (Hlb a z Ha) as (? & ? & ?). apply Hm; unfold disj, bend, in_block, HDR in *; simpl in *; lia. }
  assert (∀ a z, live !! a = Some z → disj (taken b n, n) (a, z)) as Htd.
  { intros a z Ha. destruct (Hlb a z Ha) as (? & _ & ?). unfold disj, taken, bend, HDR in *. simpl in *. lia. }
  assert (live !! taken b n = None) as Hnone.
  { destruct (live !! taken b n) as [z|] eqn:Hz; [|done]. destruct (Hlb _ _ Hz) as [? _]. specialize (Htd _ _ Hz).
    unfold disj, bend, HDR in Htd. simpl in Htd. lia. }
  assert (base + HDR ≤ taken b n ∧ bend (taken b n, n) = bend b) as [Htlo Hthi].
  { unfold taken, bend, HDR in *. simpl. lia. }
  split_and!; [done | | done | | unfold HDR in *; lia | lia].
  - split; rewrite ?Hos; [done | | |].
    + split; [|by apply rest_sorted | done |].
      * subst l'. destruct (l1 ++ [pv]) as [|c k] eqn:Ek; [by destruct l1|]. injection El as -> El.
        exists (k ++ rest b n ++ l2). split; [done|]. rewrite <- El in Hhs.
        apply list.Forall_app in Hhs as [? [_ ?]%list.Forall_cons]. rewrite !list.Forall_app. split_and!; [done | | done].
        destruct (rest_cases b n Hn) as [[-> ?]|[-> Hlt]]; [constructor|]. apply list.Forall_singleton.
        unfold bend, HDR in *. simpl. lia.
      * rewrite Hfp. subst l'. rewrite !fmap_app, !elem_of_app. left. right. simpl. by left.
    + intros a z [[<- <-]|[Hne Ha]]%lookup_insert_Some.
      * split; [lia | done | lia | done | by apply taken_disj].
      * destruct (Hlive a z Ha) as [? ? ? ? ?]. split; [done..| |by apply rest_disj]. by erewrite kept_size.
    + intros a z a' z' [[<- <-]|[Hne Ha]]%lookup_insert_Some [[<- <-]|[Hne' Ha']]%lookup_insert_Some Hneq.
      * done.
      * by apply Htd.
      * destruct (Htd a z Ha); [by right | by left].
      * by eapply Hd.
  - intros x [Hx|(a & z & Ha & Hx)].
    + destruct (rest_covers _ _ _ n x Hn Hx) as [?|?]; [by left | right]. exists (taken b n), n. by rewrite lookup_insert_eq.
    + right. exists a, z. rewrite lookup_insert_ne; [done | congruence].
Qed.

(** The free list around a block and the one before it. *)
Record around (l1 : list block) (pv b : block) (l2 : list block) (s : hst W) : Prop := {
  ar_l1 : linked (h_mem s) l1 pv.1;
  ar_pv : hdr (h_mem s) pv.1 b.1 pv.2;
  ar_b : hdr (h_mem s) b.1 (first l2 base) b.2;
  ar_l2 : linked (h_mem s) l2 base;
  ar_size : 1 ≤ b.2 ∧ bend b ≤ 2 ^ 31;
  ar_order : 0 < pv.1 ∧ bend pv ≤ b.1;
  ar_below : Forall (λ c, bend c ≤ pv.1) l1;
  ar_above : Forall (λ c, bend b ≤ c.1) l2;
  ar_first : 0 ≤ first l2 base < 2 ^ 32
}.

Lemma heap_around l1 pv b l2 live s : heap_is (l1 ++ pv :: b :: l2) live s → b.1 ≠ base → around l1 pv b l2 s.
Proof.
  intros [Hb [(hs & El & Hhs) Hs Hl _] _ _] Hbb. apply linked_app in Hl as (Hl1 & Hp & Hbh & Hl2).
  assert (∀ c, c ∈ l1 ++ pv :: b :: l2 → c.1 ≠ base → 1 ≤ c.2 ∧ bend c ≤ 2 ^ 31) as Hsz.
  { intros c Hi Hc. rewrite El in Hi. apply elem_of_cons in Hi as [-> | Hi]; [done|].
    pose proof (proj1 (list.Forall_forall _ _) Hhs c Hi) as [? ?]. lia. }
  apply StronglySorted_app in Hs as (Hs1 & _ & [[[Hpb _] _]%list.Forall_cons [Hs3 _]%StronglySorted_cons]%StronglySorted_cons).
  assert (base ≤ pv.1) as Hbp.
  { destruct l1 as [|c l1]; injection El as -> El; [done|].
    destruct (Hs1 (base, 0) pv ltac:(by left) ltac:(by left)) as [Hg _]. unfold bend, HDR in Hg. simpl in Hg. lia. }
  assert (Forall (λ c, bend b ≤ c.1) l2) as Habove by (eapply list.Forall_impl; [exact Hs3|]; by intros c [? _]).
  split; try done.
  - apply Hsz; [set_solver | done].
  - split; [lia | done].
  - apply list.Forall_forall. intros c Hc. by destruct (Hs1 c pv Hc ltac:(by left)).
  - destruct l2 as [|c l2]; simpl; [unfold HDR in *; lia|]. apply list.Forall_cons in Habove as [Hc _].
    assert (c.1 ≠ base) by (unfold bend, HDR in *; lia).
    destruct (Hsz c) as [? ?]; [set_solver | done |]. unfold bend, HDR in *. lia.
Qed.

Lemma took_whole l1 pv b l2 s : around l1 pv b l2 s →
  took l1 pv b l2 b.2 s (Hst (store32 (h_mem s) pv.1 (first l2 base)) pv.1 (h_os s)).
Proof.
  intros [Hl1 Hp Hb Hl2 [Hz Hbe] [Hpp Hpb] Hlo Hhi Hf].
  assert (taken b b.2 = b.1 ∧ rest b b.2 = []) as [Et Er].
  { unfold taken, rest. rewrite Z.eqb_refl. split; [lia | done]. }
  destruct (pointer_stored pv.1 (first l2 base) s Hf) as [Hpv Ho]. rewrite (proj2 Hp) in Hpv. simpl in Hpv.
  split; cbn [h_mem h_os h_freep]; rewrite ?Et, ?Er; try done.
  - rewrite app_nil_l, !linked_app. split_and!; [|simpl; by rewrite ?(proj2 Hp)|].
    + refine (linked_header_only _ _ _ _ _ _ Ho Hl1). eapply list.Forall_impl; [exact Hlo|]. intros c Hc. left.
      unfold bend, HDR in *. lia.
    + refine (linked_header_only _ _ _ _ _ _ Ho Hl2). eapply list.Forall_impl; [exact Hhi|]. intros c Hc. right.
      unfold bend, HDR in *. lia.
  - rewrite <- (proj2 Hb). apply load32_store32_ne. unfold bend, HDR in *. lia.
  - intros x Hx _. apply store32_ne. unfold HDR in *. lia.
Qed.

Lemma took_part l1 pv b l2 n s : around l1 pv b l2 s → 1 ≤ n < b.2 →
  took l1 pv b l2 n s (Hst (store32 (store32 (h_mem s) (b.1 + 4) (b.2 - n)) (taken b n + 4) n) pv.1 (h_os s)).
Proof.
  intros [Hl1 Hp Hb Hl2 [Hz Hbe] [Hpp Hpb] Hlo Hhi Hf] Hn.
  assert (rest b n = [(b.1, b.2 - n)]) as Er by (unfold rest; by rewrite (proj2 (Z.eqb_neq _ _)) by lia).
  set (m' := store32 (store32 (h_mem s) (b.1 + 4) (b.2 - n)) (taken b n + 4) n).
  assert (∀ x, x < b.1 + 4 ∨ bend b ≤ x → m' x = h_mem s x) as Hm.
  { intros x Hx. subst m'. unfold taken, bend, HDR in *. rewrite !store32_ne by lia. done. }
  assert (∀ l k, linked (h_mem s) l k → Forall (λ c, bend c ≤ b.1 ∨ bend b ≤ c.1) l → linked m' l k) as Hk.
  { intros l k Hl Hc. eapply linked_agree; [|exact Hl]. intros c x Hin Hx. apply Hm.
    pose proof (proj1 (list.Forall_forall _ _) Hc c Hin) as Hcb. simpl in Hcb. unfold bend, HDR in *. lia. }
  split; cbn [h_mem h_os h_freep]; fold m'; rewrite ?Er; try done.
  - rewrite !linked_app. split_and!; [|split; [|done]|simpl; split; [|done]|].
    + apply Hk; [done|]. eapply list.Forall_impl; [exact Hlo|]. intros c Hc. left. unfold bend, HDR in *. lia.
    + apply (Hk [pv] b.1); [done|]. apply list.Forall_singleton. by left.
    + split; [rewrite <- (proj1 Hb); apply load32_agree; intros; apply Hm; lia|].
      subst m'. unfold hsize. rewrite load32_store32_ne by (unfold taken, HDR; lia). apply load32_store32.
      unfold bend, HDR in *. lia.
    + apply Hk; [done|]. eapply list.Forall_impl; [exact Hhi|]. by right.
  - apply load32_store32. unfold bend, HDR in *. lia.
  - intros x _ Hx. apply Hm. lia.
Qed.

(** The branch of malloc's loop that takes from [b], the block after [pv]. *)
Lemma malloc_takes l1 pv b l2 n live s fuel : heap_is (l1 ++ pv :: b :: l2) live s → b.1 ≠ base → 1 ≤ n ≤ b.2 →
  wp (malloc_loop (S fuel) n pv.1 b.1) (λ r s', r = taken b n + HDR ∧ took l1 pv b l2 n s s') s.
Proof.
  intros Hh Hbb Hn. pose proof (heap_around _ _ _ _ _ _ Hh Hbb) as Har.
  pose proof Har as [_ _ [Hb1 Hb2] _ [Hz Hbe] [Hpp Hpb] _ _ Hf].
  unfold malloc_loop. fold (@malloc_loop W _). unfold size, ptr, set_ptr, set_size, set_freep. wp_steps.
  rewrite Hb2, (proj2 (Z.leb_le _ _)) by lia. wp_steps.
  assert (u32 (taken b n) = taken b n ∧ u32 (taken b n + HDR) = taken b n + HDR) as [Hu1 Hu2].
  { unfold taken, bend, HDR in *. split; apply u32_id; lia. }
  destruct (Z.eqb_spec b.2 n) as [<-|E]; wp_steps.
  - rewrite Hb1. cbn [h_mem h_freep h_os]. split; [|by apply took_whole]. rewrite <- Hu2. unfold taken. f_equal. lia.
  - fold (taken b n). rewrite Hu1. cbn [h_mem h_freep h_os]. split; [done|]. apply took_part; [done | lia].
Qed.

(** ** The search of malloc *)

(** The address of the last block of [q], or [pv]. *)
Definition last_addr (pv : Z) (q : list block) : Z := match list.last q with Some c => c.1 | None => pv end.

Lemma malloc_walk q n k s : ∀ pv fuel, linked (h_mem s) q k →
  Forall (λ c : block, c.2 < n ∧ c.1 ≠ h_freep s ∧ c.1 ≠ 0) q →
  malloc_loop (length q + fuel) n pv (first q k) s = malloc_loop fuel n (last_addr pv q) k s.
Proof.
  induction q as [|c q IH]; intros pv fuel Hl Hq; [done|]. destruct Hl as [[Hn Hsz] Hl].
  apply list.Forall_cons in Hq as [(H1 & H2 & H3) Hq].
  simpl length. simpl first. rewrite Nat.add_succ_l. unfold malloc_loop at 1. fold (@malloc_loop W _).
  unfold size. rewrite (bind_ok (gets _) _ s (hsize (h_mem s) c.1) s eq_refl).
  rewrite Hsz, (proj2 (Z.leb_gt _ _)) by lia. rewrite (bind_ok (gets _) _ s (h_freep s) s eq_refl).
  rewrite (proj2 (Z.eqb_neq _ _)) by done. rewrite (bind_ok (mret c.1) _ s c.1 s eq_refl).
  rewrite (proj2 (Z.eqb_neq _ _)) by done. unfold ptr. rewrite (bind_ok (gets _) _ s (hptr (h_mem s) c.1) s eq_refl).
  rewrite Hn, IH by done. f_equal. unfold last_addr. destruct q as [|d q]; [done|].
  rewrite last_cons_cons. by destruct (list.last (d :: q)) eqn:E; [|apply last_None in E].
Qed.

(** The order in which the blocks are visited, starting after freep. *)
Lemma visit_order (l1 l2 hs qa qb : list block) (f b : block) : l1 ++ f :: l2 = (base, 0) :: hs → b.1 ≠ base →
  l2 ++ l1 ++ [f] = qa ++ b :: qb →
  ∃ la pv lb, l1 ++ f :: l2 = la ++ pv :: b :: lb ∧ last_addr f.1 qa = pv.1.
Proof.
  intros El Hb Hq. assert (∀ k x, l1 ++ [f] = b :: k → x) as Hhead.
  { intros k x Ek. exfalso. destruct l1 as [|c l1]; injection Ek as -> Ek; injection El as -> El; done. }
  assert (∀ k : list block, k ≠ [] → ∃ k' c, k = k' ++ [c]) as Hlast by (intros k Hk; by apply exists_last in Hk as (k' & c & ->); exists k', c).
  apply app_eq_inv in Hq as [(k & -> & Hk)|(k & -> & Hk)].
  - destruct k as [|c k]; [by apply (Hhead qb)|]. injection Hk as <- Hk.
    destruct (Hlast (f :: qa)) as (k' & c & Ek); [done|].
    exists (l1 ++ k'), c, k. split.
    + rewrite <- app_assoc. f_equal. change (k' ++ c :: b :: k) with (k' ++ [c] ++ b :: k). by rewrite app_assoc, <- Ek.
    + unfold last_addr. destruct qa as [|d qa]; [by destruct k' as [|? [|? ?]]; simplify_eq/=|].
      assert (list.last (f :: d :: qa) = Some c) as E by (rewrite Ek; apply last_snoc). rewrite last_cons_cons in E. by rewrite E.
  - destruct k as [|c k]; [by apply (Hhead qb)|].
    destruct (Hlast (c :: k)) as (k' & d & Ek); [done|]. rewrite Ek in *. exists k', d, (qb ++ l2). split.
    + change (f :: l2) with ([f] ++ l2). by rewrite app_assoc, Hk, <- !app_assoc.
    + unfold last_addr. by rewrite app_assoc, last_snoc.
Qed.

(** The first block that is large enough. *)
Lemma first_fit n (q : list block) : (∃ b, b ∈ q ∧ n ≤ b.2) →
  ∃ qa b qb, q = qa ++ b :: qb ∧ n ≤ b.2 ∧ Forall (λ c, c.2 < n) qa.
Proof.
  intros (b & Hb & Hn). induction q as [|c q IH]; [set_solver|]. destruct (decide (n ≤ c.2)).
  - by exists [], c, q.
  - apply elem_of_cons in Hb as [-> | Hb]; [done|]. destruct (IH Hb) as (qa & d & qb & -> & ? & ?).
    exists (c :: qa), d, qb. split_and!; [done | done |]. constructor; [lia | done].
Qed.

(** The ring as malloc visits it from freep on. *)
Lemma heap_ring l live s : heap_is l live s →
  ∃ l1 f l2, l = l1 ++ f :: l2 ∧ f.1 = h_freep s ∧ hptr (h_mem s) f.1 = first (l2 ++ l1 ++ [f]) 0 ∧
    linked (h_mem s) (l2 ++ l1 ++ [f]) (first l2 base) ∧
    Forall (λ c : block, c.1 ≠ h_freep s ∧ c.1 ≠ 0) (l2 ++ l1) ∧ Forall (λ c : block, 0 < c.1) l.
Proof.
  intros [_ [(hs & El & _) Hs Hl Hf] _ _]. apply list_elem_of_fmap in Hf as (f & Hf & Hin).
  apply list_elem_of_split in Hin as (l1 & l2 & ->). exists l1, f, l2.
  assert (first (l1 ++ [f]) 0 = base) as Hfst by (by destruct l1; injection El as -> El).
  apply linked_app in Hl as [Hl1 [Hfh Hl2]].
  assert (Forall (λ c : block, 0 < c.1) (l1 ++ f :: l2)) as Hpos.
  { apply gap_lt in Hs. rewrite El in Hs |- *. apply StronglySorted_cons in Hs as [Hs _]. constructor; [done|].
    eapply list.Forall_impl; [exact Hs|]. simpl. intros. lia. }
  split_and!; [done | done | | | |done].
  - rewrite (proj1 Hfh), first_app. f_equal. symmetry. exact Hfst.
  - rewrite !linked_app, !first_app. rewrite first_app in Hfst. simpl in *. destruct l1 as [|c l1]; simpl in *; subst; done.
  - apply gap_lt, StronglySorted_app in Hs as (H1 & _ & [H2 _]%StronglySorted_cons).
    rewrite !list.Forall_app, list.Forall_cons in Hpos. destruct Hpos as (Hp1 & _ & Hp2).
    apply list.Forall_app. split; apply list.Forall_forall; intros c Hc.
    + pose proof (proj1 (list.Forall_forall _ _) H2 c Hc). pose proof (proj1 (list.Forall_forall _ _) Hp2 c Hc).
      simpl in *. lia.
    + specialize (H1 c f Hc ltac:(by left)). pose proof (proj1 (list.Forall_forall _ _) Hp1 c Hc). simpl in *. lia.
Qed.

Lemma base_size l live s b : heap_is l live s → b ∈ l → b.1 = base → b.2 = 0.
Proof.
  intros [_ [(hs & -> & _) Hs _ _] _ _] [-> | Hb]%elem_of_cons Eb; [done|].
  apply gap_lt, StronglySorted_cons in Hs as [Hs _]. pose proof (proj1 (list.Forall_forall _ _) Hs b Hb) as Hlt.
  simpl in Hlt. lia.
Qed.

(** malloc's result: a block of [n] units that was not in use. *)
Definition allocated (l : list block) (live : gmap Z Z) (n r : Z) (s s' : hst W) : Prop :=
  ∃ l', live !! (r - HDR) = None ∧ heap_is l' (<[r - HDR := n]> live) s' ∧ kept live s s' ∧
    (∀ x, arena l live x → arena l' (<[r - HDR := n]> live) x) ∧ HDR < r ∧ r - HDR + HDR * n ≤ 2 ^ 31.

Lemma malloc_finds l live s n fuel : heap_is l live s → 1 ≤ n → (∃ b, b ∈ l ∧ n ≤ b.2) → (length l < fuel)%nat →
  wp (malloc_loop fuel n (h_freep s) (hptr (h_mem s) (h_freep s))) (λ r s', allocated l live n r s s') s.
Proof.
  intros Hh Hn (b0 & Hb0 & Hbn) Hfuel. destruct (heap_ring l live s Hh) as (l1 & f & l2 & El & Hfe & Hpt & Hl & Hq & _).
  rewrite <- Hfe, Hpt.
  destruct (first_fit n (l2 ++ l1 ++ [f])) as (qa & b & qb & Eq & Hfit & Hqa); [exists b0; set_solver|].
  pose proof Hh as [_ [(hs & Ehs & _) _ _ _] _ _].
  assert (b.1 ≠ base) as Hbb.
  { intros Eb. assert (b ∈ l2 ++ l1 ++ [f]) as Hin by (rewrite Eq; set_solver).
    assert (b ∈ l) as Hin' by (rewrite El; set_solver). rewrite (base_size l live s b Hh Hin' Eb) in Hfit. lia. }
  destruct (visit_order l1 l2 hs qa qb f b) as (la & pv & lb & E & Hlast); [by rewrite <- El | done | done |].
  rewrite Eq in Hl |- *. apply linked_app in Hl as [Hl _]. rewrite first_app. simpl.
  assert (length qa < length l)%nat as Hlen.
  { rewrite El. apply (f_equal length) in Eq. rewrite !length_app in *. simpl in *. unfold block in *. lia. }
  replace fuel with (length qa + (fuel - length qa))%nat by lia. unfold wp. rewrite malloc_walk; [|done|].
  - rewrite Hlast. destruct (fuel - length qa)%nat as [|k] eqn:Ek; [lia|].
    eapply wp_mono; [apply (malloc_takes la pv b lb n live); [by rewrite <- E, <- El | done | lia]|].
    intros r s' [-> Ht]. eapply took_ok in Ht as (H1 & H2 & H3 & H4 & H5 & H6); [|by rewrite <- E, <- El | done | lia].
    exists ((la ++ [pv]) ++ rest b n ++ lb). replace (taken b n + HDR - HDR) with (taken b n) by lia.
    rewrite <- El, E in *. split_and!; [done.. | lia | unfold bend, HDR in *; simpl in *; lia].
  - assert (∃ k, qa ++ k = l2 ++ l1) as [k Ek].
    { destruct (exists_last (l := b :: qb)) as (k & d & Ed); [done|]. rewrite Ed, !app_assoc in Eq.
      apply app_inj_tail in Eq as [E' _]. by exists k. }
    rewrite <- Ek in Hq. apply list.Forall_app in Hq as [Hq _].
    apply list.Forall_and. split; [done | exact Hq].
Qed.

(** ** morecore *)

(** The memory sbrk added is a block in use until morecore frees it. *)
Lemma heap_grow l live s w nu : heap_is l live s → let p := brk (h_os s) in
  brk w = p + HDR * nu → brk w ≤ 2 ^ 31 → 1 ≤ nu →
  let s1 := Hst (store32 (h_mem s) (p + 4) nu) (h_freep s) w in
  heap_is l (<[p := nu]> live) s1 ∧ live !! p = None ∧ kept live s s1.
Proof.
  intros [Hb [(hs & El & Hhs) Hs Hl Hf] Hlive Hd] p Hw Hle Hnu s1.
  assert (∀ x, x < p → h_mem s1 x = h_mem s x) as Hm by (intros x Hx; apply store32_ne; lia).
  assert (Forall (λ b : block, bend b ≤ p) l) as Hlp.
  { rewrite El. constructor; [unfold bend, HDR in *; simpl in *; lia|]. eapply list.Forall_impl; [exact Hhs | naive_solver]. }
  assert (kept live s s1) as Hk.
  { intros a z x Ha Hx. apply Hm. destruct (Hlive a z Ha) as [? ? Hhi ? ?].
    unfold bend, in_block, HDR in *. simpl in *. lia. }
  assert (live !! p = None) as Hnone.
  { destruct (live !! p) as [z|] eqn:Hz; [|done]. destruct (Hlive p z Hz) as [? ? Hhi ? ?].
    unfold bend, HDR in *. simpl in *. lia. }
  assert (∀ a z, live !! a = Some z → bend (a, z) ≤ p) as Hap by (intros a z Ha; by destruct (Hlive a z Ha)).
  split_and!; [|done | done]. split; simpl.
  - unfold HDR in *. lia.
  - split; [|done | |done].
    + exists hs. split; [done|]. eapply list.Forall_impl; [exact Hhs|]. intros b [? ?]. unfold HDR in *. lia.
    + eapply linked_agree; [|exact Hl]. intros b x Hin Hx. apply Hm.
      pose proof (proj1 (list.Forall_forall _ _) Hlp b Hin) as Hbp. simpl in Hbp. unfold bend, HDR in *. lia.
  - intros a z [[<- <-]|[Hne Ha]]%lookup_insert_Some.
    + split; [done | lia | unfold bend, HDR in *; simpl; lia | apply load32_store32; unfold HDR in *; lia |].
      eapply list.Forall_impl; [exact Hlp|]. intros b Hbp. by left.
    + destruct (Hlive a z Ha) as [? ? ? Hz ?]. split; [done | done | unfold HDR in *; simpl in *; lia | | done].
      rewrite <- Hz. by eapply (kept_size live s s1).
  - intros a z a' z' [[<- <-]|[Hne Ha]]%lookup_insert_Some [[<- <-]|[Hne' Ha']]%lookup_insert_Some Hneq.
    + done.
    + right. by apply Hap.
    + left. by apply Hap.
    + by eapply Hd.
Qed.

Lemma wp_morecore fuel n l live s : heap_is l live s → 1 ≤ n < 2 ^ 28 → (length l < fuel)%nat →
  wp (morecore fuel n) (λ p s', p = 0 ∧ heap_is l live s' ∧ h_mem s' = h_mem s ∨
    ∃ l', heap_is l' live s' ∧ p = h_freep s' ∧ 0 < p ∧ kept live s s' ∧ (∃ b, b ∈ l' ∧ n ≤ b.2) ∧
      (∀ x, arena l live x → arena l' live x) ∧ (length l' ≤ S (length l))%nat) s.
Proof.
  intros Hh Hn Hfuel. unfold morecore. set (nu := if n <? 4096 then 4096 else n).
  assert (n ≤ nu < 2 ^ 28) as Hnu by (subst nu; destruct (Z.ltb_spec n 4096); lia).
  rewrite s32_id by (unfold HDR; lia). wp_step.
  destruct (sbrk_grows (h_os s) (nu * HDR)) as (p & w & Hw & Hcase); [unfold HDR; lia|].
  apply zoom_wp. eapply wp_ok; [exact Hw|]. pose proof Hh as [Hb [(hs & El & Hhs) Hs Hl Hf] Hlive Hd].
  destruct Hcase as [[-> Hbrk]|(-> & Hbrk & Hle)].
  - rewrite Z.eqb_refl. wp_step. left. split_and!; [done | | done].
    split; simpl; rewrite ?Hbrk; [done | | |done]; [by split; [exists hs|..]|].
    intros a z Ha. destruct (Hlive a z Ha). by split.
  - rewrite (proj2 (Z.eqb_neq _ _)) by (unfold HDR in *; lia). unfold set_size. wp_steps.
    destruct (heap_grow l live s w nu Hh) as (Hh1 & Hnone & Hk1); [lia | done | lia |]. cbn [h_mem h_freep h_os].
    eapply wp_mono; [apply (wp_free_heap fuel _ nu l _ _ Hh1); [by rewrite lookup_insert_eq | done]|].
    intros [] s' (l' & Hh' & Hk & Har & Hfr & Hos). wp_step. right. exists l'.
    rewrite delete_insert_id in Hh', Hk, Har by done. split_and!; [done | done | | | | |apply Hfr].
    + destruct (heap_ring l' live s' Hh') as (l1 & f & l2 & E & <- & _ & _ & _ & Hpos).
      rewrite E in Hpos. by apply list.Forall_app in Hpos as [_ [? _]%list.Forall_cons].
    + by eapply kept_trans.
    + destruct (fr_large _ _ _ _ Hfr) as (b & ? & ?). exists b. split; [done | lia].
    + intros x Hx. apply Har. destruct Hx as [?|(a & z & Ha & Hx)]; [by left | right].
      exists a, z. rewrite lookup_insert_ne; [done | congruence].
Qed.

(** ** malloc *)

Lemma allocated_later l live n r s l' s1 s2 : kept live s s1 → (∀ x, arena l live x → arena l' live x) →
  allocated l' live n r s1 s2 → allocated l live n r s s2.
Proof.
  intros Hk Ha (l2 & H1 & H2 & H3 & H4 & H5). exists l2. split_and!; [done | done | by eapply kept_trans | auto | apply H5 | apply H5].
Qed.

Lemma wp_malloc_loop l live s n fuel : heap_is l live s → 1 ≤ n < 2 ^ 28 → (2 * length l + 2 ≤ fuel)%nat →
  wp (malloc_loop fuel n (h_freep s) (hptr (h_mem s) (h_freep s)))
    (λ r s', r = 0 ∧ (∃ l', heap_is l' live s') ∧ kept live s s' ∨ allocated l live n r s s') s.
Proof.
  intros Hh Hn Hfuel. destruct (decide (Exists (λ b : block, n ≤ b.2) l)) as [Hex|Hex].
  { apply list.Exists_exists in Hex. eapply wp_mono; [apply (malloc_finds l live); [done | lia | done | lia]|]. by right. }
  assert (Forall (λ b : block, b.2 < n) l) as Hsmall.
  { apply list.Forall_forall. intros b Hb. destruct (Z.lt_ge_cases b.2 n); [done|]. destruct Hex.
    apply list.Exists_exists. exists b. split; [done | lia]. }
  destruct (heap_ring l live s Hh) as (l1 & f & l2 & El & Hf & Hpt & Hl & Hq & Hpos).
  rewrite <- Hf, Hpt. rewrite !app_assoc in *. apply linked_app in Hl as [Hl [[Hfn Hfs] _]]. rewrite first_app. simpl.
  rewrite El in Hsmall, Hpos, Hfuel. apply list.Forall_app in Hsmall as [Hs1 [Hsf Hs2]%list.Forall_cons].
  apply list.Forall_app in Hpos as [_ [Hfpos _]%list.Forall_cons].
  rewrite length_app in Hfuel. simpl in Hfuel. set (k := (fuel - S (length (l2 ++ l1)))%nat).
  assert (S (length l) < k)%nat as Hk by (subst k; rewrite El, !length_app; simpl; lia).
  eapply (wp_eq _ (malloc_loop (S k) n _ f.1)).
  { replace fuel with (length (l2 ++ l1) + S k)%nat by (subst k; rewrite length_app; lia).
    apply malloc_walk; [done|]. apply list.Forall_and. split; [by apply list.Forall_app | done]. }
  unfold malloc_loop. fold (@malloc_loop W _). unfold size, ptr. wp_steps.
  rewrite Hfs, (proj2 (Z.leb_gt _ _)) by lia. wp_steps. rewrite (proj2 (Z.eqb_eq _ _)) by done.
  eapply wp_mono; [apply (wp_morecore k n l live); [done | lia | lia]|].
  intros p s' [(-> & Hh' & Hm)|(l' & Hh' & -> & Hp & Hkept & Hlarge & Har & Hlen)].
  - rewrite Z.eqb_refl. wp_step. left. split_and!; [done | by exists l |]. intros a z x _ _. by rewrite Hm.
  - rewrite (proj2 (Z.eqb_neq _ _)) by lia. wp_steps.
    eapply wp_mono; [apply (malloc_finds l' live); [done | lia | done | lia]|].
    intros r s2 Ha. right. by eapply allocated_later.
Qed.

(** The heap before or after the first call of malloc. *)
Definition heap_ok (l : list block) (live : gmap Z Z) (s : hst W) : Prop :=
  h_freep s = 0 ∧ l = [] ∧ live = ∅ ∧ base + HDR ≤ brk (h_os s) ≤ 2 ^ 31 ∨ heap_is l live s.

(** The first call links base to itself. *)
Lemma heap_start w m m' : base + HDR ≤ brk w ≤ 2 ^ 31 → hdr m' base base 0 → 
  heap_is [(base, 0)] ∅ (Hst m' base w) ∧ kept ∅ (Hst m 0 w) (Hst m' base w).
Proof.
  intros Hb Hh. split.
  - split; [done | | by intros a z ? | by intros a z a' z' ?]. split; simpl.
    + by exists [].
    + by repeat constructor.
    + done.
    + set_solver.
  - intros a z x ?. done.
Qed.

(** C21. malloc terminates and returns either null or a block that holds the
    bytes asked for and overlaps no block in use; it changes no byte of a
    block in use, and the heap stays well-formed: the free list is in order of
    address, without touching neighbours, and disjoint from the blocks in
    use. *)
Theorem malloc_disjoint l live s nbytes fuel : heap_ok l live s → 0 ≤ nbytes ≤ 2 ^ 31 - 16 → (2 * length l + 4 ≤ fuel)%nat →
  ∃ r s', malloc base fuel nbytes s = Ok r s' ∧ kept live s s' ∧
    (r = 0 ∧ (∃ l', heap_ok l' live s') ∨
     ∃ l' z, live !! (r - HDR) = None ∧ heap_ok l' (<[r - HDR := z]> live) s' ∧ HDR < r ∧ r + nbytes ≤ 2 ^ 31 ∧
       nbytes ≤ HDR * (z - 1) ∧ ∀ a y, live !! a = Some y → r + nbytes ≤ a ∨ a + HDR * y ≤ r - HDR).
Proof.
  intros Hok Hnb Hfuel.
  assert (u32 (nbytes + HDR - 1) / HDR + 1 = (nbytes + 7) / 8 + 1) as En by (rewrite u32_id; unfold HDR; [f_equal; f_equal; lia | lia]).
  set (n := (nbytes + 7) / 8 + 1) in *. assert (1 ≤ n < 2 ^ 28 ∧ nbytes ≤ 8 * (n - 1)) as [Hn Hfit] by (subst n; divmod_lia).
  assert (∃ l1 s1, heap_is l1 live s1 ∧ kept live s s1 ∧ (2 * length l1 + 2 ≤ fuel)%nat ∧
    malloc base fuel nbytes s = malloc_loop fuel n (h_freep s1) (hptr (h_mem s1) (h_freep s1)) s1) as (l1 & s1 & Hh & Hk & Hf & ->).
  { unfold malloc. rewrite En. rewrite (bind_ok (gets h_freep) _ s (h_freep s) s eq_refl).
    destruct Hok as [(Hfp & -> & -> & Hb)|Hh].
    - rewrite Hfp. simpl. destruct s as [m fp w]. simpl in Hfp, Hb. subst fp.
      set (m' := store32 (store32 m base base) (base + 4) 0).
      destruct (heap_start w m m') as [Hh Hk]; [done | |].
      { subst m'. eapply hdr_set_size; [lia|]. eapply (hdr_set_ptr m base (hptr m base)); [unfold HDR in *; lia | by split]. }
      by exists [(base, 0)], (Hst m' base w).
    - destruct (heap_ring l live s Hh) as (l1 & f & l2 & E & Hfe & _ & _ & _ & Hpos).
      rewrite E in Hpos. apply list.Forall_app in Hpos as [_ [Hfp _]%list.Forall_cons].
      rewrite (proj2 (Z.eqb_neq _ _)) by lia. exists l, s. split_and!; [done | done | lia | done]. }
  destruct (wp_elim _ _ _ (wp_malloc_loop l1 live s1 n fuel Hh Hn Hf)) as (r & s' & Hr & Hcase).
  exists r, s'. destruct Hcase as [(-> & (l' & Hh') & Hk')|(l' & H1 & H2 & H3 & _ & H5 & H6)].
  - split_and!; [done | by eapply kept_trans |]. left. split; [done|]. exists l'. by right.
  - split_and!; [done | by eapply kept_trans |]. right. exists l', n.
    split_and!; [done | by right | done | unfold HDR in *; lia | done |].
    intros a y Ha. assert (r - HDR ≠ a) as Hne by congruence.
    pose proof (hi_disj _ _ _ H2 (r - HDR) n a y (lookup_insert_eq _ _ _)) as Hd. rewrite lookup_insert_ne in Hd by done.
    specialize (Hd Ha Hne). destruct (hi_live _ _ _ H2 a y) as [Hy _ _ _ _]; [by rewrite lookup_insert_ne|].
    unfold disj, bend, HDR in *. simpl in Hd. lia.
Qed.

(** C22. free terminates, gives the block back to the free list, joined with
    the free blocks it touches, so that no byte is lost and no two free blocks
    touch, and changes no byte of another block in use. *)
Theorem free_joins l live s a z fuel : heap_ok l live s → live !! a = Some z → (length l < fuel)%nat →
  ∃ l' s', free fuel (a + HDR) s = Ok tt s' ∧ heap_ok l' (delete a live) s' ∧ kept (delete a live) s s' ∧
    (∀ x, covers l' x ↔ covers l x ∨ in_block (a, z) x) ∧
    ∀ b c, b ∈ l' → c ∈ l' → b.1 + HDR * b.2 ≠ c.1 ∨ b.2 = 0.
Proof.
  intros [(_ & _ & -> & _)|Hh] Ha Hf; [done|].
  destruct (wp_elim _ _ _ (wp_free_heap fuel a z l live s Hh Ha Hf)) as ([] & s' & Hrun & l' & Hh' & Hk & _ & Hfr & _).
  exists l', s'. split_and!; [done | by right | done | apply Hfr |].
  intros b c Hb Hc. pose proof Hh' as [_ [(hs & El & Hhs) Hs _ _] _ _].
  assert (0 ≤ b.2) as Hbz.
  { rewrite El in Hb. apply elem_of_cons in Hb as [-> | Hb]; [done|].
    pose proof (proj1 (list.Forall_forall _ _) Hhs b Hb) as [? _]. lia. }
  destruct (sorted_pair l' b c Hs Hb Hc) as [-> | [[_ ?]|[? _]]]; unfold bend, HDR in *; lia.
Qed.

(** What the program stores in its blocks does not disturb the heap. *)
Lemma heap_store l live s a z x v : heap_is l live s → live !! a = Some z → a + HDR ≤ x < a + HDR * z →
  heap_is l live (Hst (store8 (h_mem s) x v) (h_freep s) (h_os s)).
Proof.
  intros [Hb [Hsp Hs Hl Hf] Hlive Hd] Ha Hx. destruct (Hlive a z Ha) as [Hz Hlo Hhi Hh Hda].
  split; simpl; [done | | |done].
  - split; [done | done | | done]. eapply linked_agree; [|exact Hl]. intros b y Hin Hy. apply store8_ne.
    pose proof (proj1 (list.Forall_forall _ _) Hda b Hin) as Hdb. unfold disj, bend, HDR in *. simpl in *. lia.
  - intros a' z' Ha'. destruct (Hlive a' z' Ha') as [? ? ? Hh' ?]. split; [done..| |done].
    rewrite <- Hh'. apply load32_agree. intros y Hy. apply store8_ne. destruct (decide (a' = a)) as [->|Hne].
    + unfold HDR in *. lia.
    + specialize (Hd a' z' a z Ha' Ha Hne). unfold disj, bend, HDR in *. simpl in *. lia.
Qed.
End heap.

(** ** A program with a heap *)

(** The end of the data segment is all that sbrk needs. *)
Record brk_only := BrkOnly { bo_brk : Z }.
#[export] Instance brk_only_sys : UserSys brk_only := {|
  us_read _ _ w := Ok None w;
  us_write _ l w := Ok (Z.of_nat (length l)) w;
  us_open _ _ w := Ok (-1) w;
  us_close _ w := Ok 0 w;
  us_fstat _ w := Ok None w;
  us_sbrk n w := if bo_brk w + n <=? 2 ^ 31 then Ok (bo_brk w) (BrkOnly (bo_brk w + n)) else Ok (-1) w
|}.

Definition fresh_heap : hst brk_only := Hst (λ _, 0) 0 (BrkOnly 8192).

Lemma brk_only_grows (w : brk_only) n : 0 < n < 2 ^ 31 → ∃ p w', us_sbrk n w = Ok p w' ∧
  (p = -1 ∧ bo_brk w' = bo_brk w ∨ p = bo_brk w ∧ bo_brk w' = bo_brk w + n ∧ bo_brk w' ≤ 2 ^ 31).
Proof.
  intros Hn. simpl. destruct (Z.leb_spec (bo_brk w + n) (2 ^ 31)); eexists _, _; (split; [reflexivity|]); simpl; lia.
Qed.

Lemma malloc_disjoint_witness : ∃ r s', malloc 4096 4 100 fresh_heap = Ok r s' ∧ (r = 0 ∨ r + 100 ≤ 2 ^ 31).
Proof.
  destruct (malloc_disjoint 4096 bo_brk ltac:(lia) brk_only_grows [] ∅ fresh_heap 100 4) as (r & s' & Hr & _ & Hc).
  - left. cbn. unfold HDR. split_and!; [reflexivity | reflexivity | reflexivity | lia | lia].
  - lia.
  - simpl. lia.
  - exists r, s'. split; [exact Hr|]. destruct Hc as [[-> _]|(l' & z & _ & _ & _ & H & _)]; [by left | by right].
Defined.

(** The heap after one malloc. *)
Definition one_block : hst brk_only :=
  Hst (store32 (store32 (λ _, 0) 4096 4096) 8196 2) 4096 (BrkOnly 8208).

Lemma one_block_ok : heap_is 4096 bo_brk [(4096, 0)] {[8192 := 2]} one_block.
Proof.
  split; [cbn; unfold HDR; lia | | |].
  - split; [by exists [] | by repeat constructor | by repeat split | by left].
  - intros a z [<- <-]%lookup_singleton_Some. split; [lia | unfold HDR; lia | vm_compute; congruence | reflexivity |].
    apply list.Forall_singleton. left. vm_compute. congruence.
  - intros a z a' z' [<- <-]%lookup_singleton_Some [<- <-]%lookup_singleton_Some. done.
Qed.

Lemma free_joins_witness : ∃ s', free 4 8200 one_block = Ok tt s'.
Proof.
  destruct (free_joins 4096 bo_brk ltac:(lia) [(4096, 0)] {[8192 := 2]} one_block 8192 2 4)
    as (l' & s' & H & _); [right; exact one_block_ok | reflexivity | simpl; lia | exists s'; exact H].
Defined.

(** The number of units of a huge request wraps around: malloc(0xffffffff)
    returns a block of one unit, which has room for no byte at all. *)
Lemma malloc_size_wraps : wp (malloc 4096 6 (2 ^ 32 - 1)) (λ r s', r ≠ 0 ∧ hsize (h_mem s') (r - HDR) = 1) fresh_heap.
Proof. vm_compute. split; congruence. Qed.
