(* ===== verification/Ports.v ===== *)
(** * Ports: input and output ports

    inb, outb, insl and outsl of x86.h talk to devices, whose state is a type
    [D].  What a driver relies on is stated next to the driver. *)

From Stdlib Require Import ZArith Lia Bool.
From stdpp Require Import base option list strings numbers.
From S2P Require Import Prelude.

#[local] Open Scope Z_scope.

(** A port is read and written a byte at a time; insl and outsl move words,
    given here as their bytes. *)
Class Ports (D : Type) := {
  port_in : Z → M D Z;
  port_out : Z → Z → M D unit;
  port_in_bytes : Z → nat → M D (list Z);
  port_out_bytes : Z → list Z → M D unit
}.

Section ports.
Context {D : Type} `{Ports D}.

Definition inb (port : Z) : M D Z := x ← port_in port; mret (u8 x).
Definition outb (port data : Z) : M D unit := port_out port (u8 data).
(** [cnt] is a number of 32-bit words. *)
Definition insl (port cnt : Z) : M D (list Z) := port_in_bytes port (Z.to_nat (4 * cnt)).
Definition outsl (port : Z) (bytes : list Z) (cnt : Z) : M D unit := port_out_bytes port (take (Z.to_nat (4 * cnt)) bytes).
End ports.
