(* ===== verification/Console.v ===== *)
(** * Console: console.c and uart.c

    Output goes to the serial port and to the screen memory crt, whose cursor
    is kept in two registers of the display; input is a ring buffer of 128
    bytes that the interrupt handler edits and consoleread takes from.  The
    devices are reached through the ports of Ports.v.  iunlock and ilock of
    the console's inode, the wait of sleep and ioapicenable are arguments.

    Shown: the interrupt handler and consoleread implement a line-oriented
    terminal, for all values of the three wrapping indices of the buffer; the
    cursor stays on the screen. *)

From Stdlib Require Import ZArith Lia Bool.
From stdpp Require Import base option list sets strings numbers.
From S2P Require Import Prelude Cstring Fmt Ports.

#[local] Open Scope string_scope.
#[local] Open Scope list_scope.
#[local] Open Scope Z_scope.

Definition INPUT_BUF : Z := 128.
Definition BACKSPACE : Z := 256.
Definition CRTPORT : Z := 980.
Definition COM1 : Z := 1016.
(** C(x) *)
Definition Ctl (x : Z) : Z := x - 64.
Definition IRQ_KBD : Z := 1.
Definition IRQ_COM1 : Z := 4.

Record input := Input { in_buf : list Z; in_r : Z; in_w : Z; in_e : Z }.

Record cst (D : Type) := Cst {
  k_lock : bool; k_locking : bool; k_panicked : bool; k_crt : Z → Z; k_input : input; k_uart : bool;
  k_shift : Z; k_killed : bool; k_wakes : list chan; k_dumps : Z; k_dev : D
}.
Arguments Cst {D}. Arguments k_lock {D}. Arguments k_locking {D}. Arguments k_panicked {D}. Arguments k_crt {D}.
Arguments k_input {D}. Arguments k_uart {D}. Arguments k_shift {D}. Arguments k_killed {D}. Arguments k_wakes {D}.
Arguments k_dumps {D}. Arguments k_dev {D}.

Section console.
Context {D : Type} `{Ports D}.
#[local] Notation C := (M (cst D)).

Definition cst_eta (s : cst D) : cst D :=
  Cst (k_lock s) (k_locking s) (k_panicked s) (k_crt s) (k_input s) (k_uart s) (k_shift s) (k_killed s)
    (k_wakes s) (k_dumps s) (k_dev s).
Definition set_k_lock (v : bool) (s : cst D) : cst D := ltac:(with_field cst_eta s (@k_lock D) v).
Definition set_k_locking (v : bool) (s : cst D) : cst D := ltac:(with_field cst_eta s (@k_locking D) v).
Definition set_k_panicked (v : bool) (s : cst D) : cst D := ltac:(with_field cst_eta s (@k_panicked D) v).
Definition set_k_crt (v : Z → Z) (s : cst D) : cst D := ltac:(with_field cst_eta s (@k_crt D) v).
Definition set_k_input (v : input) (s : cst D) : cst D := ltac:(with_field cst_eta s (@k_input D) v).
Definition set_k_uart (v : bool) (s : cst D) : cst D := ltac:(with_field cst_eta s (@k_uart D) v).
Definition set_k_shift (v : Z) (s : cst D) : cst D := ltac:(with_field cst_eta s (@k_shift D) v).
Definition set_k_wakes (v : list chan) (s : cst D) : cst D := ltac:(with_field cst_eta s (@k_wakes D) v).
Definition set_k_dumps (v : Z) (s : cst D) : cst D := ltac:(with_field cst_eta s (@k_dumps D) v).
Definition set_k_dev (v : D) (s : cst D) : cst D := ltac:(with_field cst_eta s (@k_dev D) v).

Definition dev {A} (m : M D A) : C A := zoom k_dev set_k_dev m.
Definition acquire_cons : C unit := l ← gets k_lock; if l : bool then panic "acquire" else modify (set_k_lock true).
Definition release_cons : C unit := l ← gets k_lock; if l : bool then modify (set_k_lock false) else panic "release".

(** ** uart.c *)

(** for(i = 0; i < 128 && !(inb(COM1+5) & 0x20); i++); microdelay is empty. *)
Fixpoint uart_ready (i : nat) : C unit :=
  match i with
  | O => mret tt
  | S i => x ← dev (inb (COM1 + 5)); if Z.land x 32 =? 0 then uart_ready i else mret tt
  end.

Definition uartputc (c : Z) : C unit :=
  u ← gets k_uart;
  if negb u then mret tt else
  uart_ready 128;;
  dev (outb COM1 c).

Definition uartgetc : C Z :=
  u ← gets k_uart;
  if negb u then mret (-1) else
  x ← dev (inb (COM1 + 5));
  if Z.land x 1 =? 0 then mret (-1) else dev (inb COM1).

(** "xv6...\n" *)
Definition uart_banner : list Z := [120; 118; 54; 46; 46; 46; 10].
Context (ioapicenable : Z → Z → M D unit).

Definition uartinit : C unit :=
  dev (outb (COM1 + 2) 0);;
  dev (outb (COM1 + 3) 128);;
  dev (outb COM1 (Z.quot 115200 9600));;
  dev (outb (COM1 + 1) 0);;
  dev (outb (COM1 + 3) 3);;
  dev (outb (COM1 + 4) 0);;
  dev (outb (COM1 + 1) 1);;
  x ← dev (inb (COM1 + 5));
  if x =? 255 then mret tt else
  modify (set_k_uart true);;
  dev (inb (COM1 + 2));;
  dev (inb COM1);;
  dev (ioapicenable IRQ_COM1 0);;
  foreach uart_banner uartputc.

(** ** The screen *)

Definition set_cell (crt : Z → Z) (i v : Z) : Z → Z := λ x, if x =? i then v else crt x.
(** memmove(crt, crt+80, sizeof(crt[0])*23*80) and memset(crt+pos, 0, sizeof(crt[0])*(24*80 - pos)) *)
Definition scroll (crt : Z → Z) (pos : Z) : Z → Z := λ x,
  if (pos <=? x) && (x <? 24 * 80) then 0 else if (0 <=? x) && (x <? 23 * 80) then crt (x + 80) else crt x.

(** Cursor position: col + 80*row, in registers 14 and 15 of the display. *)
Definition get_cursor : M D Z :=
  outb CRTPORT 14;;
  hi ← inb (CRTPORT + 1);
  outb CRTPORT 15;;
  lo ← inb (CRTPORT + 1);
  mret (Z.lor (Z.shiftl hi 8) lo).
Definition put_cursor (pos : Z) : M D unit :=
  outb CRTPORT 14;;
  outb (CRTPORT + 1) (Z.shiftr pos 8);;
  outb CRTPORT 15;;
  outb (CRTPORT + 1) pos.

Definition cgaputc (c : Z) : C unit :=
  pos ← dev get_cursor;
  pos ← (if c =? 10 then mret (pos + (80 - Z.rem pos 80))
         else if c =? BACKSPACE then mret (if 0 <? pos then pos - 1 else pos)
         else modify (λ s, set_k_crt (set_cell (k_crt s) pos (Z.lor (Z.land c 255) 1792)) s);; mret (pos + 1));
  if (pos <? 0) || (25 * 80 <? pos) then panic "pos under/overflow" else
  pos ← (if 24 <=? Z.quot pos 80 then
           modify (λ s, set_k_crt (scroll (k_crt s) (pos - 80)) s);; mret (pos - 80)
         else mret pos);
  dev (put_cursor pos);;
  modify (λ s, set_k_crt (set_cell (k_crt s) pos (Z.lor 32 1792)) s).

Definition consputc (c : Z) : C unit :=
  p ← gets k_panicked;
  if p : bool then panic "frozen" else
  (if c =? BACKSPACE then uartputc 8;; uartputc 32;; uartputc 8 else uartputc c);;
  cgaputc c.

(** ** Printing *)

Definition cprintf (fmt : list Z) (args : list arg) : C unit :=
  locking ← gets k_locking;
  when locking acquire_cons;;
  match cprintf_chars fmt args with
  | Some l => foreach l consputc
  | None => undef "cprintf"
  end;;
  when locking release_cons.

(** "lapicid %d: panic: ", "\n" and " %p" *)
Definition panic_fmt : list Z := [108; 97; 112; 105; 99; 105; 100; 32; 37; 100; 58; 32; 112; 97; 110; 105; 99; 58; 32].
(** panic up to its endless loop, given lapicid() and the result of getcallerpcs. *)
Definition kpanic (lapicid : Z) (pcs : list Z) (msg : list Z) : C unit :=
  modify (set_k_locking false);;
  cprintf panic_fmt [Word lapicid];;
  cprintf msg [];;
  cprintf [10] [];;
  foreach pcs (λ pc, cprintf [32; ch_percent; ch_p] [Word pc]);;
  modify (set_k_panicked true).

(** ** Input *)

Definition wakeup_input : C unit := modify (λ s, set_k_wakes (k_wakes s ++ [ChInput]) s).
Definition upd_input (f : input → input) : C unit := modify (λ s, set_k_input (f (k_input s)) s).
Definition in_last (i : input) : Z := bget0 (in_buf i) (u32 (in_e i - 1) mod INPUT_BUF).
Definition in_back (i : input) : input := Input (in_buf i) (in_r i) (in_w i) (u32 (in_e i - 1)).
(** input.buf[input.e++ % INPUT_BUF] = c *)
Definition in_put (c : Z) (i : input) : input :=
  Input (<[Z.to_nat (in_e i mod INPUT_BUF) := u8 c]> (in_buf i)) (in_r i) (in_w i) (u32 (in_e i + 1)).
Definition in_commit (i : input) : input := Input (in_buf i) (in_r i) (in_e i) (in_e i).

(** The loop of control-U. *)
Fixpoint kill_line (fuel : nat) : C unit :=
  i ← gets k_input;
  if negb (in_e i =? in_w i) && negb (in_last i =? 10) then
    match fuel with
    | O => undef "out of fuel"
    | S fuel => upd_input in_back;; consputc BACKSPACE;; kill_line fuel
    end
  else mret tt.

(** One character of the loop of consoleintr; true asks for procdump. *)
Definition console_key (c : Z) : C bool :=
  if c =? Ctl 80 then mret true
  else if c =? Ctl 85 then kill_line 128;; mret false
  else if (c =? Ctl 72) || (c =? 127) then
    i ← gets k_input;
    when (negb (in_e i =? in_w i)) (upd_input in_back;; consputc BACKSPACE);;
    mret false
  else
    i ← gets k_input;
    when (negb (c =? 0) && (u32 (in_e i - in_r i) <? INPUT_BUF))
      (let c := if c =? 13 then 10 else c in
       upd_input (in_put c);;
       consputc c;;
       i ← gets k_input;
       when ((c =? 10) || (c =? Ctl 68) || (in_e i =? u32 (in_r i + INPUT_BUF)))
         (upd_input in_commit;; wakeup_input));;
    mret false.

Fixpoint console_loop (fuel : nat) (getc : C Z) (dump : bool) : C bool :=
  match fuel with
  | O => undef "out of fuel"
  | S fuel =>
      c ← getc;
      if c <? 0 then mret dump else
      d ← console_key c;
      console_loop fuel getc (dump || d)
  end.

Definition consoleintr (fuel : nat) (getc : C Z) : C unit :=
  acquire_cons;;
  dump ← console_loop fuel getc false;
  release_cons;;
  when dump (modify (λ s, set_k_dumps (k_dumps s + 1) s)).

Definition uartintr (fuel : nat) : C unit := consoleintr fuel uartgetc.

Context (iunlock ilock : nat → C unit).
(** What happens while the caller sleeps on &input.r. *)
Context (rest : C unit).

Definition sleep_input : C unit := release_cons;; rest;; acquire_cons.

(** while(input.r == input.w); false where the caller was killed. *)
Fixpoint input_wait (fuel : nat) : C bool :=
  i ← gets k_input;
  if in_r i =? in_w i then
    k ← gets k_killed;
    if k : bool then mret false else
    match fuel with
    | O => undef "out of fuel"
    | S fuel => sleep_input;; input_wait fuel
    end
  else mret true.

Definition in_take (i : input) : input := Input (in_buf i) (u32 (in_r i + 1)) (in_w i) (in_e i).
Definition in_untake (i : input) : input := Input (in_buf i) (u32 (in_r i - 1)) (in_w i) (in_e i).

(** while(n > 0), with [n] bytes to go of [target]; None where the caller was killed. *)
Fixpoint read_loop (fuel : nat) (n : nat) (target : Z) (dst : list Z) {struct n} : C (option (list Z)) :=
  match n with
  | O => mret (Some dst)
  | S n' =>
      go ← input_wait fuel;
      if negb go then mret None else
      i ← gets k_input;
      let c := bget0 (in_buf i) (in_r i mod INPUT_BUF) in
      upd_input in_take;;
      if c =? Ctl 68 then
        when (Z.of_nat n <? target) (upd_input in_untake);;
        mret (Some dst)
      else if c =? 10 then mret (Some (dst ++ [c]))
      else read_loop fuel n' target (dst ++ [c])
  end.

(** The bytes stored at dst; None is -1. *)
Definition consoleread (fuel : nat) (ip : nat) (n : Z) : C (option (list Z)) :=
  iunlock ip;;
  acquire_cons;;
  r ← read_loop fuel (Z.to_nat n) (u32 n) [];
  release_cons;;
  ilock ip;;
  mret r.

Definition consolewrite (ip : nat) (buf : list Z) (n : Z) : C Z :=
  iunlock ip;;
  acquire_cons;;
  foreach (take (Z.to_nat n) buf) (λ c, consputc (Z.land c 255));;
  release_cons;;
  ilock ip;;
  mret n.

(** The entries of devsw are consolewrite and consoleread. *)
Definition consoleinit : C unit :=
  modify (set_k_lock false);;
  modify (set_k_locking true);;
  dev (ioapicenable IRQ_KBD 0).
End console.

(** ** Output *)

(** Only the screen and the devices change. *)
Definition output_only {D} (s s' : cst D) : Prop := ∃ crt d, s' = set_k_dev d (set_k_crt crt s).

Lemma output_only_trans {D} (s1 s2 s3 : cst D) : output_only s1 s2 → output_only s2 s3 → output_only s1 s3.
Proof. intros (? & ? & ->) (? & ? & ->). by eexists _, _. Qed.

(** The display keeps the cursor, the serial line answers, and neither touches
    what is [pending] at the keyboard. *)
Class Terminal {D I : Type} `{Ports D} (cursor : D → Z) (pending : D → I) : Prop := {
  cursor_pos d : 0 ≤ cursor d;
  cursor_get d : wp get_cursor (λ p d', p = cursor d ∧ cursor d' = cursor d ∧ pending d' = pending d) d;
  cursor_put d p : 0 ≤ p < 2 ^ 16 → wp (put_cursor p) (λ _ d', cursor d' = p ∧ pending d' = pending d) d;
  serial_status d : wp (port_in (COM1 + 5)) (λ _ d', cursor d' = cursor d ∧ pending d' = pending d) d;
  serial_out d v : wp (port_out COM1 v) (λ _ d', cursor d' = cursor d ∧ pending d' = pending d) d
}.

Section output.
Context {D I : Type} `{Ports D} (cursor : D → Z) (pending : D → I) `{!Terminal cursor pending}.

(** A step that keeps the cursor. *)
Definition quiet (s s' : cst D) : Prop :=
  ∃ d, s' = set_k_dev d s ∧ cursor d = cursor (k_dev s) ∧ pending d = pending (k_dev s).

Lemma quiet_refl s : quiet s s.
Proof. exists (k_dev s). by destruct s. Qed.
Lemma quiet_trans s1 s2 s3 : quiet s1 s2 → quiet s2 s3 → quiet s1 s3.
Proof. intros (d & -> & E1 & E2) (d' & -> & E3 & E4). exists d'. simpl in *. split_and!; [done | congruence | congruence]. Qed.

Lemma wp_uartputc c s : wp (uartputc c) (λ _ s', quiet s s') s.
Proof.
  unfold uartputc. wp_steps. destruct (k_uart s); cbn [negb]; [|apply wp_ret, quiet_refl]. wp_step.
  assert (∀ n s, wp (uart_ready n) (λ _ s', quiet s s') s) as Hready.
  { intros n. induction n as [|n IH]; intros t; simpl; [apply wp_ret, quiet_refl|]. wp_step.
    eapply (wp_mono _ (λ _ s', quiet t s')).
    { apply zoom_wp. unfold inb. wp_step. eapply wp_mono; [apply serial_status|]. intros x d Hd. wp_step. by exists d. }
    intros x t' Ht. case_match; [|by apply wp_ret].
    eapply wp_mono; [apply IH|]. intros [] u Hu. exact (quiet_trans _ _ _ Ht Hu). }
  eapply wp_mono; [apply Hready|]. intros [] t Ht. apply zoom_wp. unfold outb.
  eapply wp_mono; [apply serial_out|]. intros [] d Hd. eapply quiet_trans; [exact Ht|]. by exists d.
Qed.

(** The cells outside the screen of 25 lines are left alone. *)
Definition on_screen (s s' : cst D) : Prop := ∀ x, x < 0 ∨ 25 * 80 ≤ x → k_crt s' x = k_crt s x.

Lemma wp_cgaputc c s : cursor (k_dev s) < 25 * 80 →
  wp (cgaputc c) (λ _ s', output_only s s' ∧ cursor (k_dev s') ≤ 24 * 80 ∧ on_screen s s' ∧ pending (k_dev s') = pending (k_dev s)) s.
Proof.
  intros Hc. pose proof (cursor_pos (k_dev s)) as Hc0. unfold cgaputc. wp_step. apply zoom_wp.
  eapply wp_mono; [apply cursor_get|]. intros p d (-> & Hd & Hpd). wp_step. set (p := cursor (k_dev s)) in *.
  eapply (wp_mono _ (λ p' s1, 0 ≤ p' ≤ 25 * 80 ∧ ∃ crt, s1 = set_k_dev d (set_k_crt crt s) ∧
    ∀ x, x < 0 ∨ 25 * 80 ≤ x → crt x = k_crt s x)).
  { destruct (c =? 10); [|destruct (c =? BACKSPACE)]; wp_steps.
    - split; [|by exists (k_crt s); destruct s]. rewrite Z.rem_mod_nonneg by lia. divmod_lia.
    - split; [destruct (Z.ltb_spec 0 p); lia | by exists (k_crt s); destruct s].
    - split; [lia|]. eexists. split; [by destruct s|]. intros x Hx. unfold set_cell. by rewrite (proj2 (Z.eqb_neq _ _)) by lia. }
  intros p' s1 [Hp (crt & -> & Hcrt)]. rewrite (proj2 (orb_false_iff _ _)) by lia. wp_step.
  eapply (wp_mono _ (λ p2 s2, 0 ≤ p2 ≤ 24 * 80 ∧ ∃ crt, s2 = set_k_dev d (set_k_crt crt s) ∧
    ∀ x, x < 0 ∨ 25 * 80 ≤ x → crt x = k_crt s x)).
  { rewrite Z.quot_div_nonneg by lia. destruct (Z.leb_spec 24 (p' / 80)); wp_steps.
    - assert (24 * 80 ≤ p') by divmod_lia. split; [lia|]. eexists. split; [by destruct s|]. intros x Hx. simpl. unfold scroll.
      rewrite !(proj2 (andb_false_iff _ _)) by lia. by apply Hcrt.
    - split; [divmod_lia|]. by exists crt. }
  intros p2 s2 [Hp2 (crt2 & -> & Hcrt2)]. wp_step. apply zoom_wp. eapply wp_mono; [apply cursor_put; lia|].
  intros [] d2 [Hd2 Hpd2]. wp_step. simpl in *. split_and!; [by eexists _, _ | lia | | congruence].
  intros x Hx. simpl. unfold set_cell. rewrite (proj2 (Z.eqb_neq _ _)) by lia. by apply Hcrt2.
Qed.

Lemma wp_consputc c s : k_panicked s = false → cursor (k_dev s) < 25 * 80 →
  wp (consputc c) (λ _ s', output_only s s' ∧ cursor (k_dev s') ≤ 24 * 80 ∧ on_screen s s' ∧ pending (k_dev s') = pending (k_dev s)) s.
Proof.
  intros Hp Hc. unfold consputc. wp_steps. rewrite Hp. wp_step.
  eapply (wp_mono _ (λ _ s', quiet s s')).
  { case_match; [|apply wp_uartputc]. do 2 (wp_step; eapply wp_mono; [apply wp_uartputc|]; intros [] ? ?).
    eapply wp_mono; [apply wp_uartputc|]. intros [] u Hu. eapply quiet_trans; [|exact Hu]. eapply quiet_trans; eassumption. }
  intros [] s1 (d & -> & Hd & Hpd). eapply wp_mono; [apply wp_cgaputc; simpl; lia|].
  intros [] s2 (Ho & Hcur & Hs & Hp2). split_and!; [|done | done | simpl in *; congruence].
  destruct Ho as (crt & d2 & ->). by eexists _, _.
Qed.
End output.

(** ** The terminal *)

(** What the reader may take, and the line being edited. *)
Record term := Term { t_ready : list Z; t_edit : list Z }.

Definition term_key (c : Z) (t : term) : term :=
  if c =? 16 then t
  else if c =? 21 then Term (t_ready t) []
  else if (c =? 8) || (c =? 127) then Term (t_ready t) (take (length (t_edit t) - 1) (t_edit t))
  else if (c =? 0) || (128 <=? length (t_ready t) + length (t_edit t))%nat then t
  else
    let c := if c =? 13 then 10 else c in
    let e := t_edit t ++ [c] in
    if (c =? 10) || (c =? 4) || (length (t_ready t) + length e =? 128)%nat
    then Term (t_ready t ++ e) [] else Term (t_ready t) e.

(** A read of [n] bytes: what it returns and what it leaves, or None if it has
    to wait.  Control-D ends a read, and is left for the next one unless it is
    the first character. *)
Fixpoint term_read (n : nat) (is_first : bool) (l : list Z) : option (list Z * list Z) :=
  match n with
  | O => Some ([], l)
  | S n =>
      match l with
      | [] => None
      | c :: l =>
          if c =? 4 then Some ([], if is_first then l else c :: l)
          else if c =? 10 then Some ([c], l)
          else '(bs, r) ← term_read n false l; Some (c :: bs, r)
      end
  end.

(** The buffer holds the two parts of the terminal, whatever its indices. *)
Record input_is (i : input) (t : term) : Prop := {
  ii_buf : length (in_buf i) = 128%nat;
  ii_r : 0 ≤ in_r i < 2 ^ 32;
  ii_w : in_w i = u32 (in_r i + Z.of_nat (length (t_ready t)));
  ii_e : in_e i = u32 (in_r i + Z.of_nat (length (t_ready t ++ t_edit t)));
  ii_len : (length (t_ready t ++ t_edit t) ≤ 128)%nat;
  ii_bytes : ∀ k c, (t_ready t ++ t_edit t) !! k = Some c → bget0 (in_buf i) ((in_r i + Z.of_nat k) mod 128) = c
}.

Lemma input_empty i t : input_is i t → (in_e i =? in_w i) = bool_decide (t_edit t = []).
Proof.
  intros [_ Hr Hw He Hl _]. rewrite Hw, He. rewrite length_app in *. apply eq_true_iff_eq.
  rewrite Z.eqb_eq, bool_decide_eq_true, <- length_zero_iff_nil. unfold u32. divmod_lia.
Qed.

Lemma input_nothing i t : input_is i t → (in_r i =? in_w i) = bool_decide (t_ready t = []).
Proof.
  intros [_ Hr Hw He Hl _]. rewrite Hw. rewrite length_app in *. apply eq_true_iff_eq.
  rewrite Z.eqb_eq, bool_decide_eq_true, <- length_zero_iff_nil. unfold u32. divmod_lia.
Qed.

Lemma input_room i t : input_is i t → u32 (in_e i - in_r i) = Z.of_nat (length (t_ready t ++ t_edit t)).
Proof. intros [_ Hr Hw He Hl _]. rewrite He. unfold u32. divmod_lia. Qed.

Lemma input_full i t : input_is i t →
  (in_e i =? u32 (in_r i + INPUT_BUF)) = (length (t_ready t ++ t_edit t) =? 128)%nat.
Proof.
  intros [_ Hr Hw He Hl _]. rewrite He. apply eq_true_iff_eq. rewrite Z.eqb_eq, Nat.eqb_eq.
  unfold u32, INPUT_BUF. divmod_lia.
Qed.

Lemma input_last i r e c : input_is i (Term r (e ++ [c])) → in_last i = c.
Proof.
  intros [_ Hr Hw He Hl Hb]. simpl in *. unfold in_last.
  rewrite <- (Hb (length (r ++ e)) c); [|rewrite app_assoc, lookup_app_r, Nat.sub_diag by lia; done].
  f_equal. rewrite He. rewrite !app_assoc, (length_app (r ++ e)). simpl. unfold u32, INPUT_BUF. divmod_lia.
Qed.

Lemma input_back i r e c : input_is i (Term r (e ++ [c])) → input_is (in_back i) (Term r e).
Proof.
  intros [Hbuf Hr Hw He Hl Hb]. simpl in *. rewrite app_assoc, length_app in He, Hl. simpl in He, Hl.
  split; simpl; [done | done | done | | lia |].
  - rewrite He. unfold u32. divmod_lia.
  - intros k d Hk. apply Hb. rewrite app_assoc. by apply lookup_app_l_Some.
Qed.

Lemma input_put i r e c : is_byte c → input_is i (Term r e) → (length (r ++ e) < 128)%nat →
  input_is (in_put c i) (Term r (e ++ [c])).
Proof.
  intros Hc [Hbuf Hr Hw He Hl Hb] Hlt. simpl in *.
  split; simpl; [by rewrite length_insert | done | done | | |].
  - rewrite He, app_assoc, (length_app (r ++ e)). simpl. unfold u32. divmod_lia.
  - rewrite app_assoc, length_app. simpl. lia.
  - intros k d Hk. rewrite bget0_insert by (unfold INPUT_BUF; divmod_lia). rewrite app_assoc in Hk.
    apply lookup_app_Some in Hk as [Hk|[Hk1 Hk2]].
    + pose proof (lookup_lt_Some _ _ _ Hk). rewrite decide_False; [by apply Hb|]. rewrite He. unfold u32, INPUT_BUF. divmod_lia.
    + apply list_lookup_singleton_Some in Hk2 as [Hk2 <-]. rewrite decide_True; [unfold u8; apply Z.mod_small; exact Hc|].
      rewrite He. unfold u32, INPUT_BUF. divmod_lia.
Qed.

Lemma input_commit i r e : input_is i (Term r e) → input_is (in_commit i) (Term (r ++ e) []).
Proof. intros [Hbuf Hr Hw He Hl Hb]. simpl in *. split; simpl; rewrite ?app_nil_r; done. Qed.

Lemma input_take i c r e : input_is i (Term (c :: r) e) →
  bget0 (in_buf i) (in_r i mod INPUT_BUF) = c ∧ input_is (in_take i) (Term r e) ∧
  input_is (in_untake (in_take i)) (Term (c :: r) e).
Proof.
  intros [Hbuf Hr Hw He Hl Hb]. simpl in *. split_and!.
  - rewrite <- (Hb 0%nat c eq_refl). unfold INPUT_BUF. do 2 f_equal. lia.
  - split; simpl; [done | apply u32_range | | | lia |].
    + rewrite Hw. unfold u32. divmod_lia.
    + rewrite He. unfold u32. divmod_lia.
    + intros k d Hk. rewrite <- (Hb (S k) d Hk). f_equal. unfold u32. divmod_lia.
  - assert (u32 (u32 (in_r i + 1) - 1) = in_r i) as E by (unfold u32; divmod_lia).
    split; simpl; rewrite ?E; done.
Qed.

Section terminal.
Context {D I : Type} `{Ports D} (cursor : D → Z) (pending : D → I) `{!Terminal cursor pending}.
(** The characters of the pending input, given the state of the shift keys. *)
Context (keys : Z → I → list Z).
(** Whether there is a serial port. *)
Context (up : bool).

(** The console is the terminal [t], with its lock as given; [w] are the
    wakeups issued, [ks] the keys to come and [kd] says whether the reader has
    been killed. *)
Record cons_is (t : term) (lk kd : bool) (w : list chan) (ks : list Z) (s : cst D) : Prop := {
  ci_input : input_is (k_input s) t;
  ci_up : k_panicked s = false;
  ci_uart : k_uart s = up;
  ci_cursor : cursor (k_dev s) < 25 * 80;
  ci_lock : k_lock s = lk;
  ci_killed : k_killed s = kd;
  ci_wakes : k_wakes s = w;
  ci_keys : keys (k_shift s) (pending (k_dev s)) = ks
}.

Lemma wp_echo c t lk kd w ks (Q : unit → cst D → Prop) s : cons_is t lk kd w ks s →
  (∀ s', cons_is t lk kd w ks s' → Q tt s') → wp (consputc c) Q s.
Proof.
  intros [Hi Hp Hu Hc Hl Hk Hw Hks] HQ. eapply wp_mono; [by apply (wp_consputc cursor pending)|].
  intros [] s' ((crt & d & ->) & Hcur & _ & Hpd). apply HQ. split; simpl in *; try done; [lia | congruence].
Qed.

Lemma wp_upd_input f t t' lk kd w ks (Q : unit → cst D → Prop) s : cons_is t lk kd w ks s →
  (∀ i, input_is i t → input_is (f i) t') → (∀ s', cons_is t' lk kd w ks s' → Q tt s') → wp (upd_input f) Q s.
Proof. intros [Hi Hp Hu Hc Hl Hk Hw Hks] Hf HQ. apply wp_modify, HQ. split; simpl; auto. Qed.

Lemma wp_erase r e c lk kd w ks (Q : unit → cst D → Prop) s : cons_is (Term r (e ++ [c])) lk kd w ks s →
  (∀ s', cons_is (Term r e) lk kd w ks s' → Q tt s') → wp (upd_input in_back;; consputc BACKSPACE) Q s.
Proof.
  intros Hs HQ. wp_step. eapply wp_upd_input; [done | by intros i; apply input_back|]. intros s' Hs'. by eapply wp_echo.
Qed.

Lemma wp_kill_line r lk kd w ks (Q : unit → cst D → Prop) fuel : ∀ e s, (length e ≤ fuel)%nat → 10 ∉ e →
  cons_is (Term r e) lk kd w ks s → (∀ s', cons_is (Term r []) lk kd w ks s' → Q tt s') → wp (kill_line fuel) Q s.
Proof.
  induction fuel as [|fuel IH]; intros e s Hf He Hs HQ; pose proof (ci_input _ _ _ _ _ _ Hs) as Hi;
    cbn [kill_line]; wp_steps; rewrite (input_empty _ _ Hi); simpl t_edit.
  - destruct e; [|simpl in Hf; lia]. rewrite bool_decide_eq_true_2 by done. by apply wp_ret, HQ.
  - destruct (decide (e = [])) as [->|Hne];
      [rewrite bool_decide_eq_true_2 by done; by apply wp_ret, HQ|]. rewrite bool_decide_eq_false_2 by done.
    destruct (exists_last Hne) as (e' & c & ->). rewrite (input_last _ _ _ _ Hi), (proj2 (Z.eqb_neq c 10)) by set_solver.
    rewrite length_app in Hf. simpl in *. change (wp (upd_input in_back;; consputc BACKSPACE;; kill_line fuel) Q s).
    wp_step. eapply wp_upd_input; [done | by intros i; apply input_back|]. intros s1 Hs1. wp_step.
    eapply wp_echo; [done|]. intros s2 Hs2. apply (IH e'); [lia | set_solver | done | done].
Qed.

(** Whether a key completes the line, so that the reader is woken. *)
Definition term_wakes (c : Z) (t : term) : bool :=
  negb (bool_decide (t_ready (term_key c t) = t_ready t)).

(** A key does to the buffer what it does to the terminal. *)
Lemma wp_console_key c t kd w ks s : 0 ≤ c < 256 → cons_is t true kd w ks s → 10 ∉ t_edit t →
  wp (console_key c) (λ d s', d = (c =? 16) ∧
    cons_is (term_key c t) true kd (w ++ if term_wakes c t then [ChInput] else []) ks s' ∧
    10 ∉ t_edit (term_key c t)) s.
Proof.
  intros Hc Hs He. pose proof (ci_input _ _ _ _ _ _ Hs) as Hi. unfold console_key, term_wakes, term_key.
  change (Ctl 80) with 16. change (Ctl 85) with 21. change (Ctl 72) with 8. change (Ctl 68) with 4.
  destruct (Z.eqb_spec c 16) as [->|H16].
  { wp_step. rewrite bool_decide_eq_true_2, app_nil_r by done. done. }
  destruct t as [r e]. cbn [t_ready t_edit] in *.
  destruct (Z.eqb_spec c 21) as [->|H21].
  { wp_step. eapply wp_kill_line; [|done|done|]; [pose proof (ii_len _ _ Hi) as Hl; rewrite length_app in Hl; simpl in Hl; lia|].
    intros s' Hs'. wp_step. simpl. rewrite bool_decide_eq_true_2, app_nil_r by done. split_and!; [done | done | set_solver]. }
  destruct ((c =? 8) || (c =? 127)) eqn:H8.
  { wp_steps. rewrite (input_empty _ _ Hi). cbn [t_ready t_edit]. rewrite (bool_decide_eq_true_2 (r = r)), app_nil_r by done.
    assert (10 ∉ take (length e - 1) e) by (intros (j & Hj & _)%elem_of_take; apply He; by eapply list_elem_of_lookup_2).
    apply wp_when.
    - intros Hne%negb_true_iff%bool_decide_eq_false_1. destruct (exists_last Hne) as (e' & d & ->).
      eapply wp_erase; [done|]. intros s' Hs'. wp_step.
      assert (take (length (e' ++ [d]) - 1) (e' ++ [d]) = e') as E.
      { replace (length (e' ++ [d]) - 1)%nat with (length e') by (rewrite length_app; simpl; lia). apply take_app_length. }
      rewrite E in *. done.
    - intros ->%negb_false_iff%bool_decide_eq_true_1. wp_step. done. }
  wp_steps. rewrite (input_room _ _ Hi). cbn [t_ready t_edit]. rewrite length_app. apply wp_when.
  - intros [H0 Hroom]%andb_prop. apply negb_true_iff in H0. apply Z.ltb_lt in Hroom. unfold INPUT_BUF in Hroom. rewrite H0.
    rewrite (proj2 (Nat.leb_gt _ _)) by lia. cbn [orb]. set (c' := if c =? 13 then 10 else c).
    assert (is_byte c') as Hc' by (unfold is_byte; subst c'; case_match; lia).
    wp_step. eapply wp_upd_input; [done | intros i Hii; apply input_put; [exact Hc' | exact Hii | rewrite length_app; lia] |].
    intros s1 Hs1. wp_step. eapply wp_echo; [done|]. intros s2 Hs2. wp_steps.
    rewrite (input_full _ _ (ci_input _ _ _ _ _ _ Hs2)). cbn [t_ready t_edit]. rewrite length_app.
    destruct ((c' =? 10) || (c' =? 4) || (length r + length (e ++ [c']) =? 128)%nat) eqn:Hdone; cbn [when t_ready t_edit].
    + rewrite bool_decide_eq_false_2; [|intros E%(f_equal length); rewrite !length_app in E; simpl in E; lia].
      wp_step. eapply wp_upd_input; [done | by intros i; apply input_commit|]. intros s3 Hs3.
      unfold wakeup_input. wp_steps. split_and!; [done | | set_solver].
      destruct Hs3 as [? ? ? ? ? ? Hw3 ?]. split; simpl; try done. by rewrite Hw3.
    + rewrite bool_decide_eq_true_2, app_nil_r by done. wp_steps. split_and!; [done | done|].
      apply orb_false_iff in Hdone as [[Hdone _]%orb_false_iff _]. apply Z.eqb_neq in Hdone. set_solver.
  - intros Hfull. apply wp_ret.
    assert ((c =? 0) || (128 <=? length r + length e)%nat = true) as ->.
    { unfold INPUT_BUF in Hfull. apply andb_false_iff in Hfull as [Hf%negb_false_iff|Hf%Z.ltb_ge]; [by rewrite Hf|].
      apply orb_true_iff. right. apply Nat.leb_le. lia. }
    rewrite bool_decide_eq_true_2, app_nil_r by done. done.
Qed.

Lemma wp_acquire_cons t kd w ks (Q : unit → cst D → Prop) s : cons_is t false kd w ks s →
  (∀ s', cons_is t true kd w ks s' → Q tt s') → wp acquire_cons Q s.
Proof.
  intros Hs HQ. unfold acquire_cons. wp_steps. rewrite (ci_lock _ _ _ _ _ _ Hs). apply wp_modify, HQ. destruct Hs. by split.
Qed.
Lemma wp_release_cons t kd w ks (Q : unit → cst D → Prop) s : cons_is t true kd w ks s →
  (∀ s', cons_is t false kd w ks s' → Q tt s') → wp release_cons Q s.
Proof.
  intros Hs HQ. unfold release_cons. wp_steps. rewrite (ci_lock _ _ _ _ _ _ Hs). apply wp_modify, HQ. destruct Hs. by split.
Qed.

(** What getc may change: its device and the state of the shift keys. *)
Definition key_read (s s' : cst D) : Prop :=
  ∃ d sh, s' = set_k_shift sh (set_k_dev d s) ∧ cursor d = cursor (k_dev s) ∧ 
    keys sh (pending d) = tail (keys (k_shift s) (pending (k_dev s))).
(** getc takes the next character at the keyboard or is negative. *)
Definition takes_key (getc : M (cst D) Z) : Prop := ∀ s, k_uart s = up →
  wp getc (λ c s', key_read s s' ∧
    match keys (k_shift s) (pending (k_dev s)) with [] => c < 0 | k :: _ => c = k ∧ 0 ≤ k < 256 end) s.

Lemma wp_console_loop getc fuel : takes_key getc → ∀ ks t kd w dump s, (length ks < fuel)%nat →
  cons_is t true kd w ks s → 10 ∉ t_edit t →
  wp (console_loop fuel getc dump) (λ d s', d = dump || existsb (Z.eqb 16) ks ∧
    ∃ v, cons_is (foldl (λ t c, term_key c t) t ks) true kd (w ++ replicate v ChInput) [] s' ∧
      10 ∉ t_edit (foldl (λ t c, term_key c t) t ks) ∧
      (v = 0%nat → t_ready (foldl (λ t c, term_key c t) t ks) = t_ready t)) s.
Proof.
  intros Hgetc. induction fuel as [|fuel IH]; intros ks t kd w dump s Hf Hs He; [lia|]. cbn [console_loop]. wp_step.
  eapply wp_mono; [apply Hgetc, (ci_uart _ _ _ _ _ _ Hs)|]. rewrite (ci_keys _ _ _ _ _ _ Hs). intros c s1 ((d & sh & -> & Hcur & Hpd) & Hc).
  rewrite (ci_keys _ _ _ _ _ _ Hs) in Hpd.
  assert (cons_is t true kd w (tail ks) (set_k_shift sh (set_k_dev d s))) as Hs1 by (destruct Hs; split; simpl; congruence || lia).
  destruct ks as [|k ks]; simpl in *.
  - rewrite (proj2 (Z.ltb_lt _ _)) by done. wp_step. rewrite orb_false_r. split; [done|]. exists 0%nat. by rewrite app_nil_r.
  - destruct Hc as [-> Hk]. rewrite (proj2 (Z.ltb_ge _ _)) by lia. wp_step.
    eapply wp_mono; [by apply wp_console_key|]. intros b s2 (-> & Hs2 & He2).
    eapply wp_mono; [eapply IH; [|exact Hs2 | exact He2]; lia|]. intros b s3 (-> & v & Hs3 & He3 & Hv).
    split; [by rewrite <- orb_assoc, (Z.eqb_sym k 16)|]. unfold term_wakes in Hs3.
    exists ((if bool_decide (t_ready (term_key k t) = t_ready t) then 0 else 1) + v)%nat. case_bool_decide as Hb.
    + cbn [negb] in Hs3. rewrite app_nil_r in Hs3. split_and!; [done | done|]. intros E. by rewrite Hv.
    + rewrite <- app_assoc in Hs3. by split_and!.
Qed.

(** ** The reader *)

Context (iunlock ilock : nat → M (cst D) unit).
(** The inode of the console is not part of the console. *)
Hypothesis iunlock_ok : ∀ ip s, iunlock ip s = Ok tt s.
Hypothesis ilock_ok : ∀ ip s, ilock ip s = Ok tt s.
Context (rest : M (cst D) unit).

Lemma wp_console_read_loop fuel e kd w ks n : ∀ r target dst bs r' s,
  term_read n (Z.of_nat n =? target) r = Some (bs, r') → (Z.of_nat n ≤ target) → cons_is (Term r e) true kd w ks s →
  wp (read_loop rest fuel n target dst) (λ x s', x = Some (dst ++ bs) ∧ cons_is (Term r' e) true kd w ks s') s.
Proof.
  induction n as [|n IH]; intros r target dst bs r' s Hr Ht Hs.
  { simpl in Hr. injection Hr as <- <-. apply wp_ret. by rewrite app_nil_r. }
  destruct r as [|c r]; [done|]. cbn [read_loop]. wp_step.
  eapply (wp_mono _ (λ b s', b = true ∧ s' = s)).
  { destruct fuel; cbn [input_wait]; wp_steps; rewrite (input_nothing _ _ (ci_input _ _ _ _ _ _ Hs)); by apply wp_ret. }
  intros b s1 [-> ->]. cbn [negb]. wp_steps.
  destruct (input_take _ _ _ _ (ci_input _ _ _ _ _ _ Hs)) as (-> & Ht1 & Ht2). unfold upd_input. wp_steps.
  set (s1 := set_k_input (in_take (k_input s)) s).
  assert (cons_is (Term r e) true kd w ks s1 ∧ cons_is (Term (c :: r) e) true kd w ks (set_k_input (in_untake (k_input s1)) s1))
    as [Hs1 Hs2] by (destruct Hs; split; split; done).
  change (Ctl 68) with 4.
  remember (Z.of_nat (S n) =? target) as b eqn:Hb. cbn [term_read] in Hr. destruct (Z.eqb_spec c 4) as [->|H4].
  - injection Hr as <- <-. rewrite app_nil_r. wp_step. subst b. destruct (Z.eqb_spec (Z.of_nat (S n)) target) as [E|E].
    + rewrite (proj2 (Z.ltb_ge _ _)) by lia. cbn [when]. by apply wp_ret, wp_ret.
    + rewrite (proj2 (Z.ltb_lt _ _)) by lia. cbn [when]. by apply wp_modify, wp_ret.
  - destruct (Z.eqb_spec c 10) as [->|H10]; [injection Hr as <- <-; by apply wp_ret|].
    destruct (term_read n false r) as [[bs1 r1]|] eqn:Hr1; [|done]. simpl in Hr. injection Hr as <- <-.
    eapply wp_mono; [apply (IH r target (dst ++ [c]) bs1 r1); [|lia|done]|].
    + rewrite (proj2 (Z.eqb_neq _ _)) by lia. done.
    + intros x s3 [-> Hs3]. by rewrite <- app_assoc.
Qed.

Lemma console_intr t kd w ks s getc fuel : takes_key getc → cons_is t false kd w ks s → 10 ∉ t_edit t →
  (length ks < fuel)%nat →
  let t' := foldl (λ t c, term_key c t) t ks in
  ∃ s' v, consoleintr fuel getc s = Ok tt s' ∧ cons_is t' false kd (w ++ replicate v ChInput) [] s' ∧
    10 ∉ t_edit t' ∧ (t_ready t' ≠ t_ready t → (0 < v)%nat).
Proof.
  intros Hg Hs He Hf t'.
  cut (wp (consoleintr fuel getc) (λ _ s', ∃ v, cons_is t' false kd (w ++ replicate v ChInput) [] s' ∧
    10 ∉ t_edit t' ∧ (v = 0%nat → t_ready t' = t_ready t)) s).
  { intros ([] & s' & Hr & v & Hs' & He' & Hv)%wp_elim. exists s', v. split_and!; [done | done | done |].
    intros Hne. destruct v; [by destruct Hne; apply Hv | lia]. }
  unfold consoleintr. wp_step. eapply wp_acquire_cons; [done|]. intros s1 Hs1. wp_step.
  eapply wp_mono; [by eapply wp_console_loop|]. intros d s2 (_ & v & Hs2 & Hrest). wp_step.
  eapply wp_release_cons; [done|]. intros s3 Hs3.
  apply wp_when; [intros _; apply wp_modify | intros _]; exists v; (split; [|exact Hrest]); [destruct Hs3; by split | done].
Qed.

(** A read that finds enough, and one that finds nothing and was killed. *)
Lemma console_read t kd w ks s fuel ip n bs r : cons_is t false kd w ks s →
  0 ≤ n < 2 ^ 31 → term_read (Z.to_nat n) true (t_ready t) = Some (bs, r) →
  ∃ s', consoleread iunlock ilock rest fuel ip n s = Ok (Some bs) s' ∧ cons_is (Term r (t_edit t)) false kd w ks s'.
Proof.
  intros Hs Hn Hr. apply wp_exact. unfold consoleread. wp_step. eapply wp_ok; [apply iunlock_ok|]. wp_step.
  eapply wp_acquire_cons; [done|]. intros s1 Hs1. wp_step. destruct t as [l e]. simpl in *.
  eapply wp_mono; [eapply (wp_console_read_loop fuel e _ _ _ _ _ _ [] bs r); [| |exact Hs1]|].
  - rewrite u32_id by lia. rewrite Z2Nat.id, Z.eqb_refl by lia. exact Hr.
  - rewrite u32_id by lia. lia.
  - intros x s2 [-> Hs2]. wp_step. eapply wp_release_cons; [done|]. intros s3 Hs3. wp_step.
    eapply wp_ok; [apply ilock_ok|]. by apply wp_ret.
Qed.

Lemma console_read_killed t w ks s fuel ip n : cons_is t false true w ks s → 0 < n → t_ready t = [] →
  ∃ s', consoleread iunlock ilock rest fuel ip n s = Ok None s' ∧ cons_is t false true w ks s'.
Proof.
  intros Hs Hn Hl. apply wp_exact. unfold consoleread. wp_step. eapply wp_ok; [apply iunlock_ok|]. wp_step.
  eapply wp_acquire_cons; [done|]. intros s1 Hs1. wp_step.
  eapply (wp_mono _ (λ x s', x = None ∧ s' = s1)).
  - destruct (Z.to_nat n) as [|k] eqn:Ek; [lia|]. cbn [read_loop]. wp_step.
    eapply (wp_mono _ (λ b s', b = false ∧ s' = s1)); [|intros b s' [-> ->]; by apply wp_ret].
    destruct fuel; cbn [input_wait]; wp_steps; rewrite (input_nothing _ _ (ci_input _ _ _ _ _ _ Hs1)), Hl;
      rewrite bool_decide_eq_true_2 by done; wp_steps; rewrite (ci_killed _ _ _ _ _ _ Hs1); by apply wp_ret.
  - intros x s2 [-> ->]. wp_step. eapply wp_release_cons; [done|]. intros s3 Hs3. wp_step.
    eapply wp_ok; [apply ilock_ok|]. by apply wp_ret.
Qed.

(** C16. The console is a line-oriented terminal, whatever the values of the
    wrapping indices of its buffer: the interrupt handler does to the buffer
    what each key does to the terminal, wakes the reader if there is more to
    read, and shows the keys without the cursor leaving the screen; a read
    returns a completed line or the part of it that was asked for, ends before
    control-D, and is -1 when the reader has been killed and there is nothing
    to read. *)
Theorem console_line_discipline t kd w ks s getc fuel : takes_key getc → cons_is t false kd w ks s → 10 ∉ t_edit t →
  (length ks < fuel)%nat →
  (let t' := foldl (λ t c, term_key c t) t ks in
   ∃ s' v, consoleintr fuel getc s = Ok tt s' ∧ cons_is t' false kd (w ++ replicate v ChInput) [] s' ∧
     10 ∉ t_edit t' ∧ (t_ready t' ≠ t_ready t → (0 < v)%nat) ∧ cursor (k_dev s') < 25 * 80) ∧
  (∀ ip n bs r, 0 ≤ n < 2 ^ 31 → term_read (Z.to_nat n) true (t_ready t) = Some (bs, r) →
     ∃ s', consoleread iunlock ilock rest fuel ip n s = Ok (Some bs) s' ∧ cons_is (Term r (t_edit t)) false kd w ks s') ∧
  (∀ ip n, 0 < n < 2 ^ 31 → t_ready t = [] → kd = true →
     ∃ s', consoleread iunlock ilock rest fuel ip n s = Ok None s' ∧ cons_is t false kd w ks s').
Proof.
  intros Hg Hs He Hf. split_and!.
  - destruct (console_intr t kd w ks s getc fuel) as (s' & v & Hr & Hs' & Hrest); [done..|].
    exists s', v. destruct Hrest. split_and!; try done. by destruct Hs'.
  - intros ip n bs r. by apply console_read.
  - intros ip n Hn Hl ->. by apply console_read_killed; [|lia|].
Qed.
End terminal.

(** ** A machine: a display, a serial line with a terminal and a keyboard *)

Record tty := Tty { y_sel : Z; y_hi : Z; y_lo : Z; y_keys : list Z; y_codes : list Z }.
Definition tty_in (p : Z) (d : tty) : outcome tty Z :=
  let 'Tty sel hi lo keys codes := d in
  if p =? CRTPORT + 1 then Ok (if sel =? 14 then hi else lo) d
  else if p =? COM1 + 5 then Ok (if bool_decide (keys = []) then 32 else 33) d
  else if p =? COM1 then Ok (default 0 (head keys)) (Tty sel hi lo (tail keys) codes)
  else if p =? 100 then Ok (if bool_decide (codes = []) then 0 else 1) d
  else if p =? 96 then Ok (default 0 (head codes)) (Tty sel hi lo keys (tail codes))
  else Ok 255 d.
Definition tty_out (p v : Z) (d : tty) : outcome tty unit :=
  let 'Tty sel hi lo keys codes := d in
  if p =? CRTPORT then Ok tt (Tty v hi lo keys codes)
  else if p =? CRTPORT + 1 then Ok tt (if sel =? 14 then Tty sel v lo keys codes else Tty sel hi v keys codes)
  else Ok tt d.
#[export] Instance tty_ports : Ports tty :=
  {| port_in := tty_in; port_out := tty_out; port_in_bytes _ n := mret (replicate n 0); port_out_bytes _ _ := mret tt |}.
Definition tty_cursor (d : tty) : Z := Z.lor (Z.shiftl (u8 (y_hi d)) 8) (u8 (y_lo d)).
(** Characters are bytes. *)
Definition tty_pending (d : tty) : list Z := u8 <$> y_keys d.

Definition tty_pending_codes (d : tty) : list Z := u8 <$> y_codes d.

(** The display and the line do not depend on what is typed. *)
Lemma tty_laws {I} (f : tty → I) :
  (∀ sel hi lo sel' hi' lo' keys codes, f (Tty sel hi lo keys codes) = f (Tty sel' hi' lo' keys codes)) → Terminal tty_cursor f.
Proof.
  intros Hf. split.
  - intros d. apply Z.lor_nonneg. split; [apply Z.shiftl_nonneg|]; apply Z.mod_pos_bound; lia.
  - intros [sel hi lo keys codes]. eapply wp_ok; [reflexivity|]. split_and!; [done | done | apply Hf].
  - intros [sel hi lo keys codes] p Hp.
    apply (wp_ok _ _ _ tt (Tty 15 (u8 (Z.shiftr p 8)) (u8 p) keys codes)); [reflexivity|].
    split; [|apply Hf]. unfold tty_cursor. cbn [y_hi y_lo]. rewrite !u8_u8, Z.shiftr_div_pow2 by lia.
    unfold u8. rewrite lor_shiftl by divmod_lia. change (2 ^ 8) with 256. divmod_lia.
  - intros []. by eapply wp_ok; [reflexivity|].
  - intros [] v. by eapply wp_ok; [reflexivity|].
Qed.
#[export] Instance tty_terminal : Terminal tty_cursor tty_pending.
Proof. by apply tty_laws. Qed.
#[export] Instance tty_terminal_codes : Terminal tty_cursor tty_pending_codes.
Proof. by apply tty_laws. Qed.

Lemma tty_takes_key : takes_key tty_cursor tty_pending (λ _ l, l) true uartgetc.
Proof.
  intros s Hu. unfold uartgetc. wp_steps. rewrite Hu. cbn [negb]. wp_step. apply zoom_wp.
  destruct (k_dev s) as [sel hi lo ks codes] eqn:Hd. destruct ks as [|k ks].
  - eapply wp_ok; [reflexivity|]. change (Z.land (u8 32) 1 =? 0) with true. apply wp_ret. split; [|done].
    eexists _, (k_shift s). split; [|by rewrite Hd]. rewrite <- Hd. by destruct s.
  - eapply wp_ok; [reflexivity|]. change (Z.land (u8 33) 1 =? 0) with false. apply zoom_wp. eapply wp_ok; [reflexivity|].
    split; [|split; [done | apply Z.mod_pos_bound; lia]].
    exists (Tty sel hi lo ks codes), (k_shift s). split; [by destruct s|]. by rewrite Hd.
Qed.

(** "a", backspace, "b", control-M, "c" typed at an empty terminal. *)
Definition console_example : cst tty :=
  Cst false true false (λ _, 0) (Input (replicate 128 0) (2 ^ 32 - 1) (2 ^ 32 - 1) (2 ^ 32 - 1)) true 0 true [] 0
    (Tty 0 0 0 [97; 8; 98; 13; 99] []).

Lemma console_line_discipline_witness :
  (∃ s' v, uartintr 6 console_example = Ok tt s' ∧
     cons_is tty_cursor tty_pending (λ _ l, l) true (Term [98; 10] [99]) false true (replicate v ChInput) [] s' ∧ (0 < v)%nat) ∧
  (∃ s', consoleread (λ _, mret tt) (λ _, mret tt) (mret tt) 6 0 10 console_example = Ok None s').
Proof.
  destruct (console_line_discipline tty_cursor tty_pending (λ _ l, l)) with (up := true) (iunlock := λ _ : nat, mret (M := M (cst tty)) tt)
    (ilock := λ _ : nat, mret (M := M (cst tty)) tt) (rest := mret (M := M (cst tty)) tt)
    (t := Term [] []) (kd := true) (w := @nil chan) (ks := [97; 8; 98; 13; 99]) (s := console_example) (getc := uartgetc) (fuel := 6%nat)
    as ((s1 & v & H1 & H2 & _ & H3 & _) & _ & Hn).
  - done.
  - done.
  - apply tty_takes_key.
  - split; try done. split; simpl; done || lia.
  - apply not_elem_of_nil.
  - simpl. lia.
  - split; [exists s1, v; split_and!; [exact H1 | exact H2 | by apply H3] |].
    destruct (Hn 0%nat 10) as (s2 & H4 & _); [lia | done | done |]. by exists s2.
Defined.
