(* ===== verification/Kbd.v ===== *)
(** * Kbd: kbd.c and the tables of kbd.h

    kbdgetc turns the scan codes of the keyboard into characters, with the
    state of the modifier keys in its static variable shift ([k_shift] of
    Console.v).

    Shown: typing a text, with the shift key where it is needed, gives its
    characters, and a typed line is what the next read of the console
    returns. *)

From Stdlib Require Import ZArith Lia Bool.
From stdpp Require Import base option list sets strings numbers.
From S2P Require Import Prelude Cstring Ports Console.

#[local] Open Scope list_scope.
#[local] Open Scope Z_scope.

Definition KBSTATP : Z := 100.
Definition KBS_DIB : Z := 1.
Definition KBDATAP : Z := 96.

Definition SHIFT : Z := 1.
Definition CTL : Z := 2.
Definition ALT : Z := 4.
Definition CAPSLOCK : Z := 8.
Definition NUMLOCK : Z := 16.
Definition SCROLLLOCK : Z := 32.
Definition E0ESC : Z := 64.

Definition KEY_HOME : Z := 224.
Definition KEY_END : Z := 225.
Definition KEY_UP : Z := 226.
Definition KEY_DN : Z := 227.
Definition KEY_LF : Z := 228.
Definition KEY_RT : Z := 229.
Definition KEY_PGUP : Z := 230.
Definition KEY_PGDN : Z := 231.
Definition KEY_INS : Z := 232.
Definition KEY_DEL : Z := 233.

(** An array of 256 bytes: its first elements in order, then the designated
    ones; the others are 0. *)
Definition table (first : list Z) (designated : list (Z * Z)) : list Z :=
  foldl (λ t '(i, v), <[Z.to_nat i := u8 v]> t) (resize 256 0 (u8 <$> first)) designated.

Definition shiftcode : list Z :=
  table [] [(29, CTL); (42, SHIFT); (54, SHIFT); (56, ALT); (157, CTL); (184, ALT)].
Definition togglecode : list Z := table [] [(58, CAPSLOCK); (69, NUMLOCK); (70, SCROLLLOCK)].

(** The keys that are the same in the three maps. *)
Definition special_keys : list (Z * Z) :=
  [(200, KEY_UP); (208, KEY_DN); (201, KEY_PGUP); (209, KEY_PGDN); (203, KEY_LF); (205, KEY_RT);
   (151, KEY_HOME); (207, KEY_END); (210, KEY_INS); (211, KEY_DEL)].

Definition normalmap : list Z := table
  [0; 27; 49; 50; 51; 52; 53; 54;
   55; 56; 57; 48; 45; 61; 8; 9;
   113; 119; 101; 114; 116; 121; 117; 105;
   111; 112; 91; 93; 10; 0; 97; 115;
   100; 102; 103; 104; 106; 107; 108; 59;
   39; 96; 0; 92; 122; 120; 99; 118;
   98; 110; 109; 44; 46; 47; 0; 42;
   0; 32; 0; 0; 0; 0; 0; 0;
   0; 0; 0; 0; 0; 0; 0; 55;
   56; 57; 45; 52; 53; 54; 43; 49;
   50; 51; 48; 46; 0; 0; 0; 0]
  ((156, 10) :: (181, 47) :: special_keys).

Definition shiftmap : list Z := table
  [0; 27; 33; 64; 35; 36; 37; 94;
   38; 42; 40; 41; 95; 43; 8; 9;
   81; 87; 69; 82; 84; 89; 85; 73;
   79; 80; 123; 125; 10; 0; 65; 83;
   68; 70; 71; 72; 74; 75; 76; 58;
   34; 126; 0; 124; 90; 88; 67; 86;
   66; 78; 77; 60; 62; 63; 0; 42;
   0; 32; 0; 0; 0; 0; 0; 0;
   0; 0; 0; 0; 0; 0; 0; 55;
   56; 57; 45; 52; 53; 54; 43; 49;
   50; 51; 48; 46; 0; 0; 0; 0]
  ((156, 10) :: (181, 47) :: special_keys).

Definition ctlmap : list Z := table
  [0; 0; 0; 0; 0; 0; 0; 0;
   0; 0; 0; 0; 0; 0; 0; 0;
   Ctl 81; Ctl 87; Ctl 69; Ctl 82; Ctl 84; Ctl 89; Ctl 85; Ctl 73;
   Ctl 79; Ctl 80; 0; 0; 13; 0; Ctl 65; Ctl 83;
   Ctl 68; Ctl 70; Ctl 71; Ctl 72; Ctl 74; Ctl 75; Ctl 76; 0;
   0; 0; 0; Ctl 92; Ctl 90; Ctl 88; Ctl 67; Ctl 86;
   Ctl 66; Ctl 78; Ctl 77; 0; 0; Ctl 47; 0; 0]
  ((156, 13) :: (181, Ctl 47) :: special_keys).

(** charcode[i] *)
Definition charcode (i : Z) : list Z :=
  if i =? 0 then normalmap else if i =? 1 then shiftmap else ctlmap.

(** The new shift and the result, for one scan code. *)
Definition kbd_decode (shift data : Z) : Z * Z :=
  if data =? 224 then (Z.lor shift E0ESC, 0)
  else if negb (Z.land data 128 =? 0) then
    let data := if negb (Z.land shift E0ESC =? 0) then data else Z.land data 127 in
    (Z.ldiff shift (Z.lor (bget0 shiftcode data) E0ESC), 0)
  else
    let '(shift, data) := if negb (Z.land shift E0ESC =? 0) then (Z.ldiff shift E0ESC, Z.lor data 128) else (shift, data) in
    let shift := Z.lor shift (bget0 shiftcode data) in
    let shift := Z.lxor shift (bget0 togglecode data) in
    let c := bget0 (charcode (Z.land shift (Z.lor CTL SHIFT))) data in
    (shift,
     if negb (Z.land shift CAPSLOCK =? 0) then
       if (97 <=? c) && (c <=? 122) then c + (65 - 97)
       else if (65 <=? c) && (c <=? 90) then c + (97 - 65) else c
     else c).

Section kbd.
Context {D : Type} `{Ports D}.

Definition kbdgetc : M (cst D) Z :=
  st ← dev (inb KBSTATP);
  if Z.land st KBS_DIB =? 0 then mret (-1) else
  data ← dev (inb KBDATAP);
  shift ← gets k_shift;
  let '(shift, c) := kbd_decode shift data in
  modify (set_k_shift shift);;
  mret c.

Definition kbdintr (fuel : nat) : M (cst D) unit := consoleintr fuel kbdgetc.
End kbd.

(** ** The characters of a sequence of scan codes *)

Fixpoint kbd_keys (shift : Z) (codes : list Z) : list Z :=
  match codes with
  | [] => []
  | d :: codes => let '(shift, c) := kbd_decode shift d in c :: kbd_keys shift codes
  end.
Definition kbd_shift (shift : Z) (codes : list Z) : Z := foldl (λ sh d, (kbd_decode sh d).1) shift codes.

Lemma kbd_keys_app shift l1 l2 : kbd_keys shift (l1 ++ l2) = kbd_keys shift l1 ++ kbd_keys (kbd_shift shift l1) l2.
Proof.
  revert shift. induction l1 as [|d l1 IH]; intros shift; [done|]. simpl. destruct (kbd_decode shift d) as [sh c] eqn:E.
  by rewrite IH.
Qed.

Lemma kbd_keys_length shift l : length (kbd_keys shift l) = length l.
Proof.
  revert shift. induction l as [|d l IH]; intros shift; [done|]. simpl. destruct (kbd_decode shift d). simpl. by rewrite IH.
Qed.

Lemma table_bytes first des i : is_byte (bget0 (table first des) i).
Proof.
  assert (Forall is_byte (table first des)) as Ht.
  { unfold table. apply list.Forall_forall. intros x. rename i into k.
    assert (Forall is_byte (resize 256 0 (u8 <$> first))) as H0.
    { apply Forall_resize; [unfold is_byte; lia|]. apply Forall_fmap, Forall_true. intros y. apply u8_byte. }
    revert H0. generalize (resize 256 0 (u8 <$> first)). induction des as [|[j v] des IH]; intros t Ht; simpl.
    - by apply list.Forall_forall.
    - apply IH. apply Forall_insert; [done | apply u8_byte]. }
  unfold bget0. destruct (_ !! Z.to_nat i) eqn:E; simpl; [by eapply Forall_lookup_1 | unfold is_byte; lia].
Qed.

Lemma kbd_decode_byte shift d : is_byte (kbd_decode shift d).2.
Proof.
  unfold kbd_decode. destruct (d =? 224); [unfold is_byte; simpl; lia|].
  destruct (negb (Z.land d 128 =? 0)); [unfold is_byte; simpl; lia|].
  destruct (if negb (Z.land shift E0ESC =? 0) then _ else _) as [sh k]. cbn [snd].
  set (c := bget0 (charcode _) k). assert (is_byte c) as Hc by (subst c; unfold charcode; repeat case_match; apply table_bytes).
  clearbody c. unfold is_byte in *. repeat case_match; lia.
Qed.

Section driver.
Context {D : Type} `{Ports D} (cursor : D → Z) (codes : D → list Z) `{!Terminal cursor codes}.
(** The status says whether a scan code is waiting; reading the data takes it. *)
Hypothesis kbd_status : ∀ d, wp (inb KBSTATP) (λ st d', cursor d' = cursor d ∧ codes d' = codes d ∧
  (Z.land st KBS_DIB = 0 ↔ codes d = [])) d.
Hypothesis kbd_data : ∀ d k l, codes d = k :: l →
  wp (inb KBDATAP) (λ x d', x = k ∧ cursor d' = cursor d ∧ codes d' = l) d.

Lemma kbd_takes_key up : takes_key cursor codes kbd_keys up kbdgetc.
Proof.
  intros s _. unfold kbdgetc. wp_step. apply zoom_wp. eapply wp_mono; [apply kbd_status|]. intros st d (Hc & Hp & Hst).
  destruct (codes (k_dev s)) as [|k l] eqn:Ek.
  - rewrite (proj2 Hst) by done. apply wp_ret. split; [|done]. exists d, (k_shift s). rewrite Hp, Ek. by destruct s.
  - rewrite (proj2 (Z.eqb_neq _ _)) by (intros E%Hst; done). wp_step. apply zoom_wp. simpl.
    eapply wp_mono; [by apply kbd_data|]. intros x d' (-> & Hc' & Hp'). wp_steps. simpl.
    pose proof (kbd_decode_byte (k_shift s) k) as Hb. destruct (kbd_decode (k_shift s) k) as [sh c] eqn:E. wp_steps.
    split; [|simpl in Hb; unfold is_byte in Hb; split; [done | lia]]. exists d', sh. rewrite Ek, Hp'. simpl. rewrite E. split_and!; [by destruct s | congruence | done].
Qed.
End driver.

(** ** Typing a text *)

(** The key that gives [c] in a map. *)
Definition key_of (m : list Z) (c : Z) : option Z := (λ p, Z.of_nat p.1) <$> list_find (λ x, x = c) (take 128 m).
(** A key is pressed and released; a modifier is held around it. *)
Definition tap (k : Z) : list Z := [k; k + 128].
Definition type_char (c : Z) : option (list Z) :=
  match key_of normalmap c, key_of shiftmap c, key_of ctlmap c with
  | Some k, _, _ => Some (tap k)
  | _, Some k, _ => Some (42 :: tap k ++ [42 + 128])
  | _, _, Some k => Some (29 :: tap k ++ [29 + 128])
  | _, _, _ => None
  end.
Definition typable (c : Z) : bool := (0 <? c) && (c <? 256) && bool_decide (is_Some (type_char c)).
Definition typed (cs : list Z) : list Z := concat ((λ c, default [] (type_char c)) <$> cs).

(** No modifier is held; the locks may be on. *)
Definition at_rest (shift : Z) : bool := (0 <=? shift) && (shift <? 64) && (Z.land shift (Z.lor CTL SHIFT) =? 0).
Definition caps (shift c : Z) : Z :=
  if Z.land shift CAPSLOCK =? 0 then c
  else if (97 <=? c) && (c <=? 122) then c - 32 else if (65 <=? c) && (c <=? 90) then c + 32 else c.

Definition types_ok (shift c : Z) : bool :=
  let codes := default [] (type_char c) in
  bool_decide (filter (λ k, k ≠ 0) (kbd_keys shift codes) = [caps shift c]) && (kbd_shift shift codes =? shift).

Lemma types_all : forallb (λ c, negb (typable c) || forallb (λ sh, negb (at_rest sh) || types_ok sh c) (seqZ 0 64)) (seqZ 0 256) = true.
Proof. vm_compute. reflexivity. Qed.

Lemma typable_printable : forallb typable (10 :: seqZ 32 95) = true.
Proof. vm_compute. reflexivity. Qed.

Lemma types_char shift c : typable c = true → at_rest shift = true → types_ok shift c = true.
Proof.
  intros Hc Hs. pose proof types_all as Ha. rewrite forallb_forall in Ha.
  assert (0 < c < 256 ∧ 0 ≤ shift < 64) as [Hc' Hs'] by (unfold typable, at_rest in *; lia).
  specialize (Ha c ltac:(apply list_elem_of_In, elem_of_seqZ; lia)). rewrite Hc in Ha. cbn [negb orb] in Ha.
  rewrite forallb_forall in Ha. specialize (Ha shift ltac:(apply list_elem_of_In, elem_of_seqZ; lia)).
  rewrite Hs in Ha. exact Ha.
Qed.

(** The characters of a typed text are its own, up to caps lock, and no
    modifier is left held. *)
Lemma typed_keys shift cs : at_rest shift = true → forallb typable cs = true →
  filter (λ k, k ≠ 0) (kbd_keys shift (typed cs)) = caps shift <$> cs ∧ kbd_shift shift (typed cs) = shift.
Proof.
  intros Hs. induction cs as [|c cs IH]; intros Hc; [done|]. apply andb_prop in Hc as [Hc Hcs].
  destruct (IH Hcs) as [IH1 IH2]. pose proof (types_char _ _ Hc Hs) as Ht. unfold types_ok in Ht.
  apply andb_prop in Ht as [Ht1%bool_decide_eq_true_1 Ht2%Z.eqb_eq].
  unfold typed in *. rewrite fmap_cons. cbn [concat]. split.
  - rewrite kbd_keys_app, list.filter_app, Ht1, Ht2, IH1. done.
  - unfold kbd_shift in *. by rewrite foldl_app, Ht2.
Qed.

(** ** Typing a line *)

Definition printable (c : Z) : bool := (32 <=? c) && (c <? 127).

Lemma printable_typable c : printable c = true → typable c = true.
Proof.
  intros Hc. unfold printable in Hc. pose proof typable_printable as Ha. rewrite forallb_forall in Ha.
  apply Ha, list_elem_of_In, elem_of_cons. right. apply elem_of_seqZ. lia.
Qed.
Lemma caps_printable shift c : printable c = true → printable (caps shift c) = true.
Proof. unfold printable, caps. intros Hc. repeat case_match; lia. Qed.

(** A release code gives 0, which the terminal ignores. *)
Lemma term_keys_filter ks : ∀ t, foldl (λ t c, term_key c t) t ks = foldl (λ t c, term_key c t) t (filter (λ k, k ≠ 0) ks).
Proof.
  induction ks as [|k ks IH]; intros t; [done|]. destruct (decide (k = 0)) as [->|Hk].
  - rewrite filter_cons_False by auto. apply IH.
  - rewrite filter_cons_True by done. apply IH.
Qed.

Lemma term_keys_line cs : ∀ r e, forallb printable cs = true → (length r + length e + length cs < 128)%nat →
  foldl (λ t c, term_key c t) (Term r e) (cs ++ [10]) = Term (r ++ e ++ cs ++ [10]) [].
Proof.
  induction cs as [|c cs IH]; intros r e Hc Hl; cbn [app foldl forallb length] in *.
  - unfold term_key. cbn [t_ready t_edit]. rewrite (proj2 (Nat.leb_gt _ _)) by lia. done.
  - apply andb_prop in Hc as [Hc Hcs]. unfold printable in Hc. unfold term_key at 2. cbn [t_ready t_edit].
    rewrite !(proj2 (Z.eqb_neq c _)) by lia. rewrite (proj2 (Nat.leb_gt _ _)) by lia. rewrite length_app. cbn [orb length].
    rewrite (proj2 (Nat.eqb_neq _ _)) by lia. rewrite IH by (try done; rewrite length_app; simpl; lia).
    by rewrite <- (app_assoc e).
Qed.

Lemma term_read_line cs : ∀ n b, forallb printable cs = true → (length cs < n)%nat →
  term_read n b (cs ++ [10]) = Some (cs ++ [10], []).
Proof.
  induction cs as [|c cs IH]; intros n b Hc Hn; simpl in *; (destruct n as [|n]; [lia|]); [done|].
  apply andb_prop in Hc as [Hc Hcs]. unfold printable in Hc. cbn [term_read]. rewrite !(proj2 (Z.eqb_neq c _)) by lia.
  by rewrite IH by (done || lia).
Qed.

Section line.
Context {D : Type} `{Ports D} (cursor : D → Z) (codes : D → list Z) `{!Terminal cursor codes}.
Hypothesis kbd_status : ∀ d, wp (inb KBSTATP) (λ st d', cursor d' = cursor d ∧ codes d' = codes d ∧
  (Z.land st KBS_DIB = 0 ↔ codes d = [])) d.
Hypothesis kbd_data : ∀ d k l, codes d = k :: l →
  wp (inb KBDATAP) (λ x d', x = k ∧ cursor d' = cursor d ∧ codes d' = l) d.
Context (iunlock ilock : nat → M (cst D) unit).
Hypothesis iunlock_ok : ∀ ip s, iunlock ip s = Ok tt s.
Hypothesis ilock_ok : ∀ ip s, ilock ip s = Ok tt s.
Context (rest : M (cst D) unit).

(** C35. A line typed at the keyboard is what the next read of the console
    returns: for every text of printable characters that fits the buffer and
    every state of the lock keys, the scan codes of the text and of the enter
    key, with the shift key held where a character needs it, wake the reader,
    and a read of enough bytes gives the text, its letters as caps lock has
    them, and the newline, and leaves the terminal empty. *)
Theorem keyboard_line_read up kd w s fuel ip n cs :
  cons_is cursor codes kbd_keys up (Term [] []) false kd w (kbd_keys (k_shift s) (typed (cs ++ [10]))) s →
  codes (k_dev s) = typed (cs ++ [10]) → at_rest (k_shift s) = true →
  forallb printable cs = true → (length cs < 128)%nat → (length (typed (cs ++ [10%Z])) < fuel)%nat →
  Z.of_nat (length cs) < n < 2 ^ 31 →
  ∃ s1 s2 v, kbdintr fuel s = Ok tt s1 ∧ (0 < v)%nat ∧
    consoleread iunlock ilock rest fuel ip n s1 = Ok (Some ((caps (k_shift s) <$> cs) ++ [10])) s2 ∧
    cons_is cursor codes kbd_keys up (Term [] []) false kd (w ++ replicate v ChInput) [] s2.
Proof.
  intros Hs Hcodes Hrest Hcs Hlen Hf Hn. set (l := caps (k_shift s) <$> cs).
  assert (forallb printable l = true) as Hl.
  { subst l. rewrite forallb_forall in *. intros x (y & -> & Hy)%list_elem_of_In%list_elem_of_fmap.
    apply caps_printable, Hcs. by apply list_elem_of_In. }
  assert (forallb typable (cs ++ [10]) = true) as Ht.
  { rewrite forallb_app, andb_true_iff. split; [|by vm_compute]. rewrite forallb_forall in *. intros x Hx.
    by apply printable_typable, Hcs. }
  assert (length (kbd_keys (k_shift s) (typed (cs ++ [10%Z]))) < fuel)%nat as Hk by (by rewrite kbd_keys_length).
  destruct (console_intr cursor codes kbd_keys up _ _ _ _ _ kbdgetc fuel
    (kbd_takes_key _ _ kbd_status kbd_data up) Hs (not_elem_of_nil _) Hk) as (s1 & v & H1 & Hs1 & _ & Hv).
  rewrite term_keys_filter, (proj1 (typed_keys _ _ Hrest Ht)), fmap_app in Hs1, Hv.
  replace (caps (k_shift s) <$> [10]) with [10] in Hs1, Hv by (unfold caps; simpl; by case_match). fold l in Hs1, Hv.
  rewrite term_keys_line in Hs1, Hv by (try done; subst l; rewrite length_fmap; simpl; lia). simpl in Hs1, Hv.
  destruct (console_read cursor codes kbd_keys up iunlock ilock iunlock_ok ilock_ok rest _ _ _ _ _ fuel ip n (l ++ [10]) [] Hs1)
    as (s2 & H2 & Hs2); [lia | apply term_read_line; [done | subst l; rewrite length_fmap; lia] |].
  exists s1, s2, v. split_and!; try done. apply Hv. by destruct l.
Qed.
End line.

(** "Hi" typed with caps lock on. *)
Definition kbd_example : cst tty :=
  Cst false true false (λ _, 0) (Input (replicate 128 0) 126 126 126) false CAPSLOCK false [] 0
    (Tty 0 0 0 [] [42; 35; 163; 170; 23; 151; 28; 156]).

Lemma keyboard_line_read_witness :
  typed [72; 105; 10] = y_codes (k_dev kbd_example) ∧
  ∃ s1 s2, kbdintr 9 kbd_example = Ok tt s1 ∧
    consoleread (λ _, mret tt) (λ _, mret tt) (mret tt) 9 0 100 s1 = Ok (Some [104; 73; 10]) s2.
Proof.
  split; [by vm_compute|].
  destruct (keyboard_line_read tty_cursor tty_pending_codes) with (iunlock := λ _ : nat, mret (M := M (cst tty)) tt)
    (ilock := λ _ : nat, mret (M := M (cst tty)) tt) (rest := mret (M := M (cst tty)) tt) (up := false) (kd := false)
    (w := @nil chan) (s := kbd_example) (fuel := 9%nat) (ip := 0%nat) (n := 100) (cs := [72; 105])
    as (s1 & s2 & _ & H1 & _ & H2 & _).
  - intros [sel hi lo keys codes]. eapply wp_ok; [reflexivity|]. by destruct codes.
  - intros [sel hi lo keys codes] k l Hk. destruct codes as [|k' codes]; [done|]. injection Hk as <- <-.
    by eapply wp_ok; [reflexivity|].
  - done.
  - done.
  - split; try done. split; simpl; done || lia.
  - by vm_compute.
  - by vm_compute.
  - by vm_compute.
  - simpl. lia.
  - vm_compute. lia.
  - simpl. lia.
  - exists s1, s2. split; [exact H1 | exact H2].
Defined.
