(* ===== verification/Ide.v ===== *)
(** * Ide: the interrupt-driven disk driver of ide.c

    A request is a locked buffer, linked into idequeue by its qnext field; the
    first one is the request the disk is working on, and the interrupt handler
    completes it and starts the next.  The disk is reached through the ports
    of Ports.v; what the driver relies on of it is the class [Ata]: its task
    registers, a status register that says ready after finitely many reads,
    and a data register.  The buffers are those of Bio.v.

    Shown: requests complete one at a time in the order of submission,
    however submissions, interrupts and the work of the owners of the other
    buffers interleave, and what they do to the buffers and to the disk is what
    syncing them one after the other does; iderw does what the one of memide.c
    does, so that what is proved of the buffer cache holds for either. *)

From Stdlib Require Import ZArith Lia Bool.
From stdpp Require Import base option list sets gmap strings numbers.
From S2P Require Import Prelude Locks Bio Ports.

#[local] Open Scope string_scope.
#[local] Open Scope list_scope.
#[local] Open Scope Z_scope.

Definition SECTOR_SIZE : Z := 512.
Definition IDE_BSY : Z := 128.
Definition IDE_DRDY : Z := 64.
Definition IDE_DF : Z := 32.
Definition IDE_ERR : Z := 1.
Definition IDE_CMD_READ : Z := 32.
Definition IDE_CMD_WRITE : Z := 48.
Definition IDE_CMD_RDMUL : Z := 196.
Definition IDE_CMD_WRMUL : Z := 197.
Definition IRQ_IDE : Z := 14.
Definition FSSIZE : Z := 40000.

(** idelock, idequeue, the qnext fields, the buffers, havedisk1, the pid of
    myproc() and the wakeups. *)
Record ist (D : Type) := Ist {
  i_lock : bool; i_queue : option nat; i_qnext : nat → option nat; i_bufs : list buf;
  i_disk1 : bool; i_cur : Z; i_wakes : list chan; i_dev : D
}.
Arguments Ist {D}. Arguments i_lock {D}. Arguments i_queue {D}. Arguments i_qnext {D}. Arguments i_bufs {D}.
Arguments i_disk1 {D}. Arguments i_cur {D}. Arguments i_wakes {D}. Arguments i_dev {D}.

Section ide.
Context {D : Type} `{Ports D}.
#[local] Notation C := (M (ist D)).

Definition ist_eta (s : ist D) : ist D :=
  Ist (i_lock s) (i_queue s) (i_qnext s) (i_bufs s) (i_disk1 s) (i_cur s) (i_wakes s) (i_dev s).
Definition set_i_lock (v : bool) (s : ist D) : ist D := ltac:(with_field ist_eta s (@i_lock D) v).
Definition set_i_queue (v : option nat) (s : ist D) : ist D := ltac:(with_field ist_eta s (@i_queue D) v).
Definition set_i_qnext (v : nat → option nat) (s : ist D) : ist D := ltac:(with_field ist_eta s (@i_qnext D) v).
Definition set_i_bufs (v : list buf) (s : ist D) : ist D := ltac:(with_field ist_eta s (@i_bufs D) v).
Definition set_i_disk1 (v : bool) (s : ist D) : ist D := ltac:(with_field ist_eta s (@i_disk1 D) v).
Definition set_i_wakes (v : list chan) (s : ist D) : ist D := ltac:(with_field ist_eta s (@i_wakes D) v).
Definition set_i_dev (v : D) (s : ist D) : ist D := ltac:(with_field ist_eta s (@i_dev D) v).

Definition idev {A} (m : M D A) : C A := zoom i_dev set_i_dev m.
Definition ibuf (b : nat) (s : ist D) : buf := default buf0 (i_bufs s !! b).
Definition upd_ibuf (b : nat) (f : buf → buf) : C unit := modify (λ s, set_i_bufs (alter f b (i_bufs s)) s).
Definition set_qnext (b : nat) (v : option nat) : C unit :=
  modify (λ s, set_i_qnext (λ x, if decide (x = b) then v else i_qnext s x) s).
Definition acquire_ide : C unit := l ← gets i_lock; if l : bool then panic "acquire" else modify (set_i_lock true).
Definition release_ide : C unit := l ← gets i_lock; if l : bool then modify (set_i_lock false) else panic "release".

(** How long the disk may be busy. *)
Context (fuel : nat).

Fixpoint idewait_loop (n : nat) (checkerr : bool) : M D Z :=
  match n with
  | O => undef "out of fuel"
  | S n =>
      r ← inb 503;
      if Z.land r (Z.lor IDE_BSY IDE_DRDY) =? IDE_DRDY then
        mret (if checkerr && negb (Z.land r (Z.lor IDE_DF IDE_ERR) =? 0) then -1 else 0)
      else idewait_loop n checkerr
  end.
Definition idewait (checkerr : bool) : C Z := idev (idewait_loop fuel checkerr).

(** for(i=0; i<1000; i++) *)
Fixpoint probe_disk1 (n : nat) : C unit :=
  match n with
  | O => mret tt
  | S n => r ← idev (inb 503); if negb (r =? 0) then modify (set_i_disk1 true) else probe_disk1 n
  end.

Definition ideinit (ioapicenable : Z → Z → M D unit) (ncpu : Z) : C unit :=
  modify (set_i_lock false);;
  idev (ioapicenable IRQ_IDE (ncpu - 1));;
  idewait false;;
  idev (outb 502 (Z.lor 224 (Z.shiftl 1 4)));;
  probe_disk1 1000;;
  idev (outb 502 (Z.lor 224 (Z.shiftl 0 4))).

Definition idestart (b : option nat) : C unit :=
  match b with
  | None => panic "idestart"
  | Some b =>
      x ← gets (ibuf b);
      if FSSIZE <=? b_blockno x then panic "incorrect blockno" else
      let sector_per_block := Z.quot BSIZE SECTOR_SIZE in
      let sector := s32 (b_blockno x * sector_per_block) in
      let read_cmd := if sector_per_block =? 1 then IDE_CMD_READ else IDE_CMD_RDMUL in
      let write_cmd := if sector_per_block =? 1 then IDE_CMD_WRITE else IDE_CMD_WRMUL in
      if 7 <? sector_per_block then panic "idestart" else
      idewait false;;
      idev (outb 1014 0);;
      idev (outb 498 sector_per_block);;
      idev (outb 499 (Z.land sector 255));;
      idev (outb 500 (Z.land (Z.shiftr sector 8) 255));;
      idev (outb 501 (Z.land (Z.shiftr sector 16) 255));;
      idev (outb 502 (Z.lor (Z.lor 224 (Z.shiftl (Z.land (b_dev x) 1) 4)) (Z.land (Z.shiftr sector 24) 15)));;
      if negb (Z.land (b_flags x) B_DIRTY =? 0) then
        idev (outb 503 write_cmd);;
        idev (outsl 496 (b_data x) (Z.quot BSIZE 4))
      else idev (outb 503 read_cmd)
  end.

Definition wakeup_buf (b : nat) : C unit := modify (λ s, set_i_wakes (i_wakes s ++ [ChBuf b]) s).

Definition ideintr : C unit :=
  acquire_ide;;
  q ← gets i_queue;
  match q with
  | None => release_ide
  | Some b =>
      nx ← gets i_qnext;
      modify (set_i_queue (nx b));;
      x ← gets (ibuf b);
      (if Z.land (b_flags x) B_DIRTY =? 0 then
         r ← idewait true;
         when (0 <=? r) (data ← idev (insl 496 (Z.quot BSIZE 4)); upd_ibuf b (set_data data))
       else mret tt);;
      upd_ibuf b (λ x, set_flags (Z.lor (b_flags x) B_VALID) x);;
      upd_ibuf b (λ x, set_flags (Z.land (b_flags x) (Z.lnot B_DIRTY)) x);;
      wakeup_buf b;;
      q ← gets i_queue;
      when (bool_decide (q ≠ None)) (idestart q);;
      release_ide
  end.

(** pp = &idequeue is None, pp = &x->qnext is Some x. *)
Definition deref (pp : option nat) (s : ist D) : option nat :=
  match pp with None => i_queue s | Some x => i_qnext s x end.
Definition assign (pp : option nat) (v : option nat) : C unit :=
  match pp with None => modify (set_i_queue v) | Some x => set_qnext x v end.
(** The loop that moves pp to the end; a list of distinct buffers ends. *)
Fixpoint queue_end (n : nat) (pp : option nat) (s : ist D) : option (option nat) :=
  match deref pp s, n with
  | None, _ => Some pp
  | Some _, O => None
  | Some x, S n => queue_end n (Some x) s
  end.

(** From acquire to idestart: append to the queue and start the disk. *)
Definition ide_submit (b : nat) : C unit :=
  set_qnext b None;;
  s ← mget;
  match queue_end (length (i_bufs s)) None s with
  | None => undef "the queue does not end"
  | Some pp =>
      assign pp (Some b);;
      q ← gets i_queue;
      when (bool_decide (q = Some b)) (idestart (Some b))
  end.

(** What happens while the caller sleeps. *)
Context (rest : C unit).

(** while((b->flags & (B_VALID|B_DIRTY)) != B_VALID) sleep(b, &idelock); *)
Fixpoint ide_wait (n : nat) (b : nat) : C unit :=
  x ← gets (ibuf b);
  if Z.land (b_flags x) (Z.lor B_VALID B_DIRTY) =? B_VALID then mret tt else
  match n with
  | O => undef "out of fuel"
  | S n => release_ide;; rest;; acquire_ide;; ide_wait n b
  end.

Definition iderw_intr (n : nat) (b : nat) : C unit :=
  x ← gets (ibuf b);
  cur ← gets i_cur;
  disk1 ← gets i_disk1;
  if negb (holdingsleep (b_lock x) cur) then panic "iderw: buf not locked" else
  if Z.land (b_flags x) (Z.lor B_VALID B_DIRTY) =? B_VALID then panic "iderw: nothing to do" else
  if negb (b_dev x =? 0) && negb disk1 then panic "iderw: ide disk 1 not present" else
  acquire_ide;;
  ide_submit b;;
  ide_wait n b;;
  release_ide.
End ide.

(** ** The disk *)

(** The task registers, the contents by drive and sector, and the command
    whose data has not been transferred. *)
Record ata := AtaSt { a_reg : Z → Z; a_disk : Z → Z → block; a_cmd : Z }.

Definition a_lba (a : ata) : Z :=
  a_reg a 499 + 2 ^ 8 * a_reg a 500 + 2 ^ 16 * a_reg a 501 + 2 ^ 24 * Z.land (a_reg a 502) 15.
Definition a_drive (a : ata) : Z := Z.land (Z.shiftr (a_reg a 502) 4) 1.
(** One sector, named by its number. *)
Definition a_single (a : ata) : Prop := a_reg a 498 = 1 ∧ Z.testbit (a_reg a 502) 6 = true.

Definition disk_upd (f : Z → Z → block) (dr n : Z) (x : block) : Z → Z → block :=
  λ dr' n', if (dr' =? dr) && (n' =? n) then x else f dr' n'.

Class Ata {D : Type} `{Ports D} (ata_of : D → ata) (busy : D → nat) (error : D → bool) : Prop := {
  ata_status d : wp (inb 503) (λ r d', ata_of d' = ata_of d ∧
    (Z.land r (Z.lor IDE_BSY IDE_DRDY) = IDE_DRDY ∨ (busy d' < busy d)%nat) ∧
    (Z.land r (Z.lor IDE_BSY IDE_DRDY) = IDE_DRDY → (Z.land r (Z.lor IDE_DF IDE_ERR) = 0 ↔ error d = false))) d;
  ata_control d : wp (outb 1014 0) (λ _ d', ata_of d' = ata_of d) d;
  ata_register d p v : 498 ≤ p ≤ 502 → 0 ≤ v < 2 ^ 8 →
    wp (outb p v) (λ _ d', ata_of d' =
      AtaSt (λ q, if q =? p then v else a_reg (ata_of d) q) (a_disk (ata_of d)) (a_cmd (ata_of d))) d;
  ata_command d v : v = IDE_CMD_READ ∨ v = IDE_CMD_WRITE →
    wp (outb 503 v) (λ _ d', ata_of d' = AtaSt (a_reg (ata_of d)) (a_disk (ata_of d)) v) d;
  ata_write d bs : a_cmd (ata_of d) = IDE_CMD_WRITE → a_single (ata_of d) → length bs = 512%nat →
    wp (port_out_bytes 496 bs) (λ _ d', ata_of d' =
      AtaSt (a_reg (ata_of d)) (disk_upd (a_disk (ata_of d)) (a_drive (ata_of d)) (a_lba (ata_of d)) bs) 0) d;
  ata_read d : a_cmd (ata_of d) = IDE_CMD_READ → a_single (ata_of d) →
    wp (port_in_bytes 496 512) (λ bs d', bs = a_disk (ata_of d) (a_drive (ata_of d)) (a_lba (ata_of d)) ∧
      ata_of d' = AtaSt (a_reg (ata_of d)) (a_disk (ata_of d)) 0) d
}.

(** ** The queue *)

Fixpoint chain (h : option nat) (nx : nat → option nat) (q : list nat) : Prop :=
  match q with
  | [] => h = None
  | b :: q => h = Some b ∧ chain (nx b) nx q
  end.

Lemma chain_ext h nx nx' q : (∀ x, x ∈ q → nx' x = nx x) → chain h nx q → chain h nx' q.
Proof.
  revert h. induction q as [|b q IH]; intros h Hx Hc; [done|]. destruct Hc as [-> Hc]. split; [done|].
  rewrite Hx by set_solver. apply IH; [set_solver | done].
Qed.

Lemma chain_snoc h nx nx' b q : chain h nx q → NoDup q → b ∉ q → nx' b = None →
  (∀ x, x ∈ q → nx' x = if decide (list.last q = Some x) then Some b else nx x) →
  chain (if decide (q = []) then Some b else h) nx' (q ++ [b]).
Proof.
  revert h. induction q as [|a q IH]; intros h Hc Hd Hb Hn Hx; [done|].
  destruct Hc as [-> Hc]. apply list.NoDup_cons in Hd as [Ha Hd]. rewrite decide_False by done. split; [done|].
  rewrite (Hx a) by set_solver. destruct q as [|c q].
  { rewrite decide_True by done. simpl. done. }
  rewrite decide_False; [apply (IH (nx a)); try done; [set_solver|]|].
  - intros x Hxq. rewrite Hx by set_solver. done.
  - intros E. apply Ha. rewrite last_cons_cons in E. by apply last_Some_elem_of in E.
Qed.

Lemma queue_end_chain {D} (s : ist D) q : ∀ n pp, chain (deref pp s) (i_qnext s) q → (length q ≤ n)%nat →
  queue_end n pp s = Some (match list.last q with None => pp | Some x => Some x end).
Proof.
  induction q as [|b q IH]; intros n pp Hc Hn.
  { simpl in Hc. destruct n; cbn [queue_end]; by rewrite Hc. }
  destruct Hc as [Hd Hc]. destruct n as [|n]; simpl in Hn; [lia|]. cbn [queue_end]. rewrite Hd.
  rewrite (IH n (Some b)) by (done || lia). destruct q as [|c q]; [done|]. rewrite last_cons_cons.
  destruct (list.last (c :: q)) eqn:E; [done | by apply last_None in E].
Qed.

(** ** What the driver implements: a queue of requests *)

Definition drive (x : buf) : Z := Z.land (b_dev x) 1.
(** A buffer that may be handed to the driver. *)
Definition req_ok (x : buf) : Prop :=
  0 ≤ b_blockno x < FSSIZE ∧ length (b_data x) = 512%nat ∧ is_valid x && negb (is_dirty x) = false.
#[export] Instance req_ok_dec x : Decision (req_ok x).
Proof. unfold req_ok. apply _. Defined.

(** Syncing one buffer with the disk: the buffer and the disk after it. *)
Definition sync_buf (f : Z → Z → block) (x : buf) : buf :=
  set_flags (Z.land (Z.lor (b_flags x) B_VALID) (Z.lnot B_DIRTY))
    (if is_dirty x then x else set_data (f (drive x) (b_blockno x)) x).
Definition sync_disk (f : Z → Z → block) (x : buf) : Z → Z → block :=
  if is_dirty x then disk_upd f (drive x) (b_blockno x) (b_data x) else f.

Record reqs := Reqs {
  r_queue : list nat; r_bufs : list buf; r_disk : Z → Z → block; r_wakes : list chan; r_disk1 : bool; r_cur : Z
}.

(** The oldest request completes. *)
Definition complete (t : reqs) : reqs :=
  match r_queue t with
  | [] => t
  | b :: q =>
      let x := default buf0 (r_bufs t !! b) in
      Reqs q (<[b := sync_buf (r_disk t) x]> (r_bufs t)) (sync_disk (r_disk t) x) (r_wakes t ++ [ChBuf b])
        (r_disk1 t) (r_cur t)
  end.
Definition submit (b : nat) (t : reqs) : reqs :=
  Reqs (r_queue t ++ [b]) (r_bufs t) (r_disk t) (r_wakes t) (r_disk1 t) (r_cur t).

Section driver.
Context {D : Type} `{Ports D} (ata_of : D → ata) (busy : D → nat) (error : D → bool) `{!Ata ata_of busy error}.
Context (fuel : nat).
Hypothesis busy_fuel : ∀ d, (busy d < fuel)%nat.

(** The command for [x] has been given; the data of a write has been sent. *)
Record started (a : ata) (x : buf) (f : Z → Z → block) : Prop := {
  st_single : a_single a;
  st_lba : a_lba a = b_blockno x;
  st_drive : a_drive a = drive x;
  st_disk : a_disk a = sync_disk f x;
  st_cmd : is_dirty x = false → a_cmd a = IDE_CMD_READ
}.

Record ide_links (lk : bool) (t : reqs) (s : ist D) : Prop := {
  id_lock : i_lock s = lk;
  id_chain : chain (i_queue s) (i_qnext s) (r_queue t);
  id_nodup : NoDup (r_queue t);
  id_req : ∀ b, b ∈ r_queue t → ∃ x, r_bufs t !! b = Some x ∧ req_ok x;
  id_bufs : i_bufs s = r_bufs t;
  id_wakes : i_wakes s = r_wakes t;
  id_disk1 : i_disk1 s = r_disk1 t;
  id_cur : i_cur s = r_cur t
}.

(** The disk is idle or works on the first request. *)
Definition ide_dev (t : reqs) (s : ist D) : Prop :=
  match r_queue t with
  | [] => a_disk (ata_of (i_dev s)) = r_disk t
  | b :: _ => started (ata_of (i_dev s)) (ibuf b s) (r_disk t)
  end.
Definition ide_is (lk : bool) (t : reqs) (s : ist D) : Prop := ide_links lk t s ∧ ide_dev t s.

Lemma wp_idewait c (Q : Z → ist D → Prop) s :
  (∀ d r, ata_of d = ata_of (i_dev s) → (c = false → r = 0) → (∃ d0, r = if c && error d0 then -1 else 0) →
     Q r (set_i_dev d s)) → wp (idewait fuel c) Q s.
Proof.
  intros HQ. unfold idewait. apply zoom_wp. pose proof (busy_fuel (i_dev s)) as Hf. revert HQ Hf.
  assert (∀ n d, (busy d < n)%nat → (∀ d' r, ata_of d' = ata_of d → (c = false → r = 0) → (∃ d0, r = if c && error d0 then -1 else 0) →
    Q r (set_i_dev d' s)) → wp (idewait_loop n c) (λ r d', Q r (set_i_dev d' s)) d) as Hloop; [|eauto].
  intros n. induction n as [|n IH]; intros d Hn HQ; [lia|]. cbn [idewait_loop]. wp_step.
  eapply wp_mono; [apply ata_status|]. intros r d' (Hd & Hr & He). destruct (Z.eqb_spec (Z.land r (Z.lor IDE_BSY IDE_DRDY)) IDE_DRDY) as [Hy|Hy].
  - wp_step. apply HQ; [done | by intros ->|]. exists d. specialize (He Hy).
    destruct (Z.eqb_spec (Z.land r (Z.lor IDE_DF IDE_ERR)) 0) as [E|E]; [by rewrite (proj1 He E)|].
    destruct (error d); [done|]. by destruct E; apply He.
  - destruct Hr as [|Hr]; [done|]. apply IH; [lia|]. intros d2 r2 Hd2. apply HQ. congruence.
Qed.

Lemma land_255_mod x : Z.land x 255 = x mod 256.
Proof. apply (Z.land_ones x 8). lia. Qed.

(** The value of the drive register. *)
Lemma drive_register dev n : 0 ≤ n < FSSIZE →
  let v := Z.lor (Z.lor 224 (Z.shiftl (Z.land dev 1) 4)) (Z.land (Z.shiftr n 24) 15) in
  0 ≤ v < 2 ^ 8 ∧ Z.land v 15 = 0 ∧ Z.land (Z.shiftr v 4) 1 = Z.land dev 1 ∧ Z.testbit v 6 = true.
Proof.
  intros Hn. rewrite Z.shiftr_div_pow2, Z.div_small by (unfold FSSIZE in Hn; lia). assert (Z.land dev 1 = dev mod 2 ^ 1) as -> by (apply (Z.land_ones dev 1); lia).
  assert (dev mod 2 ^ 1 = 0 ∨ dev mod 2 ^ 1 = 1) as [-> | ->] by (change (2 ^ 1) with 2; divmod_lia); done.
Qed.

Lemma wp_ireg p v (Q : unit → ist D → Prop) s : 498 ≤ p ≤ 502 → 0 ≤ v < 2 ^ 8 →
  (∀ d, ata_of d = AtaSt (λ q, if q =? p then v else a_reg (ata_of (i_dev s)) q) (a_disk (ata_of (i_dev s))) (a_cmd (ata_of (i_dev s))) →
     Q tt (set_i_dev d s)) → wp (idev (outb p v)) Q s.
Proof.
  intros Hp Hv HQ. apply zoom_wp. eapply wp_mono; [by apply ata_register|]. intros [] d Hd. by apply HQ.
Qed.

Lemma wp_idestart b x (Q : unit → ist D → Prop) s : ibuf b s = x → req_ok x →
  (∀ d, started (ata_of d) x (a_disk (ata_of (i_dev s))) → Q tt (set_i_dev d s)) → wp (idestart fuel (Some b)) Q s.
Proof.
  intros Hb ([Hn1 Hn2] & Hl & _) HQ. unfold idestart. wp_steps. rewrite Hb.
  rewrite (proj2 (Z.leb_gt _ _)) by done. change (Z.quot BSIZE SECTOR_SIZE) with 1. cbn [Z.eqb Pos.eqb Z.ltb Z.compare Pos.compare Pos.compare_cont].
  assert (s32 (b_blockno x * 1) = b_blockno x) as -> by (rewrite Z.mul_1_r; apply s32_id; unfold FSSIZE in *; lia).
  destruct (drive_register (b_dev x) (b_blockno x) ltac:(done)) as (Hv1 & Hv2 & Hv3 & Hv4).
  set (v := Z.lor (Z.lor 224 _) _) in *. rewrite !land_255_mod, !Z.shiftr_div_pow2 by lia.
  wp_step. apply wp_idewait. intros d0 r Hd0 _ _. wp_step.
  apply zoom_wp. eapply wp_mono; [apply ata_control|]. intros [] d1 Hd1. wp_step.
  apply wp_ireg; [lia | lia |]. intros d2 Hd2. wp_step. apply wp_ireg; [lia | divmod_lia |]. intros d3 Hd3. wp_step.
  apply wp_ireg; [lia | divmod_lia |]. intros d4 Hd4. wp_step. apply wp_ireg; [lia | divmod_lia |]. intros d5 Hd5. wp_step.
  apply wp_ireg; [lia | exact Hv1 |]. intros d6 Hd6. cbn [i_dev set_i_dev] in *. rewrite Hd5, Hd4, Hd3, Hd2, Hd1, Hd0 in Hd6.
  clear Hd0 Hd1 Hd2 Hd3 Hd4 Hd5.
  assert (a_single (ata_of d6) ∧ a_lba (ata_of d6) = b_blockno x ∧ a_drive (ata_of d6) = drive x ∧
    a_disk (ata_of d6) = a_disk (ata_of (i_dev s))) as (Hs & Hlba & Hdr & Hdk).
  { rewrite Hd6. unfold a_single, a_lba, a_drive, drive. simpl. rewrite Hv2, Hv3. split_and!; [done | done | | done | done].
    clear -Hn1 Hn2. unfold FSSIZE in Hn2. change (Z.pow_pos 2 8) with 256. change (Z.pow_pos 2 16) with 65536. divmod_lia. }
  rewrite land_dirty, negb_involutive. destruct (is_dirty x) eqn:Hx.
  - wp_step. apply zoom_wp. eapply wp_mono; [apply ata_command; by right|]. intros [] d7 Hd7. apply zoom_wp. unfold outsl.
    rewrite take_ge by (rewrite Hl; by vm_compute). cbn [i_dev set_i_dev] in *.
    eapply wp_mono; [apply ata_write; rewrite ?Hd7; done|]. intros [] d8 Hd8. rewrite Hd7 in Hd8. apply (HQ d8).
    split; rewrite Hd8; [done | done | done | | by rewrite Hx]. unfold sync_disk. rewrite Hx. cbn [a_disk a_reg] in *.
    change (a_drive _) with (a_drive (ata_of d6)). change (a_lba _) with (a_lba (ata_of d6)). by rewrite Hdr, Hlba, Hdk.
  - apply zoom_wp. eapply wp_mono; [apply ata_command; by left|]. intros [] d7 Hd7. apply (HQ d7). cbn [i_dev set_i_dev] in *.
    split; rewrite Hd7; try done. unfold sync_disk. by rewrite Hx.
Qed.

Lemma wp_acquire_ide t (Q : unit → ist D → Prop) s : ide_is false t s → (∀ s', ide_is true t s' → Q tt s') → wp acquire_ide Q s.
Proof.
  intros [Hs Hd] HQ. unfold acquire_ide. wp_steps. rewrite (id_lock _ _ _ Hs). apply wp_modify, HQ. destruct Hs. by repeat split.
Qed.
Lemma wp_release_ide t (Q : unit → ist D → Prop) s : ide_is true t s → (∀ s', ide_is false t s' → Q tt s') → wp release_ide Q s.
Proof.
  intros [Hs Hd] HQ. unfold release_ide. wp_steps. rewrite (id_lock _ _ _ Hs). apply wp_modify, HQ. destruct Hs. by repeat split.
Qed.

Lemma alter_insert (l : list buf) b x g : l !! b = Some x → alter g b l = <[b := g x]> l.
Proof.
  intros Hx. apply list_eq. intros i. destruct (decide (i = b)) as [->|Hi].
  - rewrite list_lookup_alter_eq, Hx, list_lookup_insert_eq; [done|]. by eapply lookup_lt_Some.
  - by rewrite list_lookup_alter_ne, list_lookup_insert_ne.
Qed.

Lemma alter_inserted (l : list buf) b y g : (b < length l)%nat → alter g b (<[b := y]> l) = <[b := g y]> l.
Proof.
  intros Hb. rewrite (alter_insert _ b y), list_insert_insert_eq; [done|]. by rewrite list_lookup_insert_eq.
Qed.

(** The disk is given the first request of the queue, if there is one. *)
Lemma wp_start_next t (Q : unit → ist D → Prop) s : ide_links true t s → a_disk (ata_of (i_dev s)) = r_disk t →
  (∀ s', ide_is true t s' → Q tt s') → wp (when (bool_decide (i_queue s ≠ None)) (idestart fuel (i_queue s))) Q s.
Proof.
  intros Hs Hd HQ. pose proof (id_chain _ _ _ Hs) as Hc. destruct (r_queue t) as [|b q] eqn:Hq.
  - simpl in Hc. rewrite Hc. apply wp_ret, HQ. split; [done|]. unfold ide_dev. by rewrite Hq.
  - destruct Hc as [-> _]. cbn [when]. destruct (id_req _ _ _ Hs b) as (x & Hx & Hok); [rewrite Hq; set_solver|].
    rewrite bool_decide_eq_true_2 by done. apply (wp_idestart b x); [unfold ibuf; by rewrite (id_bufs _ _ _ Hs), Hx | done |].
    intros d Hst. apply HQ. split; [destruct Hs; by split|]. unfold ide_dev. rewrite Hq, <- Hd. 
    change (ibuf b (set_i_dev d s)) with (ibuf b s). unfold ibuf. by rewrite (id_bufs _ _ _ Hs), Hx.
Qed.

Lemma queue_length t s lk : ide_links lk t s → (length (r_queue t) ≤ length (i_bufs s))%nat.
Proof.
  intros Hs. rewrite <- (List.length_seq (length (i_bufs s)) 0). apply submseteq_length, NoDup_submseteq; [by apply (id_nodup _ _ _ Hs)|].
  intros b (x & Hx & _)%(id_req _ _ _ Hs). apply elem_of_seq. rewrite (id_bufs _ _ _ Hs). apply lookup_lt_Some in Hx. lia.
Qed.

Lemma submit_links b t s x s' : ide_links true t s → b ∉ r_queue t → r_bufs t !! b = Some x → req_ok x →
  i_lock s' = true → i_bufs s' = i_bufs s → i_wakes s' = i_wakes s → i_disk1 s' = i_disk1 s → i_cur s' = i_cur s →
  i_queue s' = (if decide (r_queue t = []) then Some b else i_queue s) → i_qnext s' b = None →
  (∀ y, y ∈ r_queue t → i_qnext s' y = if decide (list.last (r_queue t) = Some y) then Some b else i_qnext s y) →
  ide_links true (submit b t) s'.
Proof.
  intros [L1 L2 L3 L4 L5 L6 L7 L8] Hb Hx Hok E1 E2 E3 E4 E5 E6 E7 E8. split; simpl; try congruence.
  - rewrite E6. by eapply chain_snoc.
  - apply list.NoDup_app. split_and!; [done | set_solver | apply NoDup_singleton].
  - intros c [Hc|Hc]%elem_of_app; [by apply L4|]. apply list_elem_of_singleton in Hc as ->. eauto.
Qed.

Lemma wp_ide_submit b t x (Q : unit → ist D → Prop) s : ide_is true t s → b ∉ r_queue t → r_bufs t !! b = Some x → req_ok x →
  (∀ s', ide_is true (submit b t) s' → Q tt s') → wp (ide_submit fuel b) Q s.
Proof.
  intros [Hs Hd] Hb Hx Hok HQ. unfold ide_submit, set_qnext. wp_steps. set (s1 := set_i_qnext _ s).
  assert (chain (i_queue s) (i_qnext s1) (r_queue t)) as Hc.
  { eapply chain_ext; [|by apply (id_chain _ _ _ Hs)]. intros y Hy. simpl. rewrite decide_False; [done | by intros ->]. }
  rewrite (queue_end_chain s1 (r_queue t) _ None) by (try exact Hc; by apply (queue_length t s true)).
  assert (ibuf b s = x) as Hbx by (unfold ibuf; by rewrite (id_bufs _ _ _ Hs), Hx).
  pose proof (submit_links b t s x) as Hsub. unfold ide_dev in Hd.
  destruct (list.last (r_queue t)) as [l|] eqn:Hl.
  - assert (∃ h q, r_queue t = h :: q) as (h & q & Hq) by (destruct (r_queue t); [done | by eexists _, _]).
    assert (l ∈ r_queue t) as Hlq by (by apply last_Some_elem_of).
    cbn [assign]. unfold set_qnext. wp_steps. cbn [i_queue set_i_qnext s1] in *.
    rewrite Hq in Hc. destruct Hc as [Hh _]. rewrite Hh, bool_decide_eq_false_2 by (intros [= ->]; rewrite Hq in Hb; set_solver).
    apply wp_ret, HQ. split.
    + apply Hsub; try done; try (by destruct Hs).
      * rewrite decide_False by (by rewrite Hq). done.
      * simpl. rewrite decide_False by (intros <-; done). by rewrite decide_True.
      * intros y Hy. simpl. destruct (decide (y = l)) as [->|Hyl]; [by rewrite decide_True|].
        rewrite decide_False by (intros ->; done). rewrite decide_False by congruence. done.
    + unfold ide_dev. simpl. rewrite Hq in *. done.
  - apply last_None in Hl. cbn [assign]. wp_steps. rewrite Hl in *. rewrite bool_decide_eq_true_2 by done. cbn [when].
    apply (wp_idestart b x); [done | done |]. intros d Hst. apply HQ. split.
    + apply Hsub; try done; try (by destruct Hs); [|set_solver]. simpl. by rewrite decide_True.
    + unfold ide_dev. simpl. rewrite Hl. simpl. change (ibuf b (set_i_dev d _)) with (ibuf b s). by rewrite Hbx, <- Hd.
Qed.

(** A read that the disk answers with an error leaves the old bytes in the
    buffer and marks it valid all the same. *)
Theorem ide_read_error b x t s : ide_is false t s → r_queue t = [b] → r_bufs t !! b = Some x → is_dirty x = false →
  (∀ d, error d = true) →
  ∃ s', ideintr fuel s = Ok tt s' ∧ is_valid (ibuf b s') = true ∧ b_data (ibuf b s') = b_data x.
Proof.
  intros Hs Hq Hx Hdx He. apply wp_exact. unfold ideintr. wp_step. eapply wp_acquire_ide; [done|]. clear s Hs. intros s [Hs _]. wp_steps.
  pose proof (id_chain _ _ _ Hs) as Hc. rewrite Hq in Hc. destruct Hc as [-> Hc]. simpl in Hc.
  assert (i_bufs s !! b = Some x) as Hbx by (by rewrite (id_bufs _ _ _ Hs)). wp_steps.
  unfold ibuf at 1. cbn [i_bufs set_i_queue]. rewrite Hbx, land_dirty. simpl default. rewrite Hdx. cbn [negb].
  wp_step. apply wp_idewait. intros d r _ _ [d0 ->]. rewrite He. cbn [andb when Z.leb Z.compare]. unfold upd_ibuf, wakeup_buf. wp_steps.
  simpl. rewrite Hc. cbn [when]. rewrite bool_decide_eq_false_2 by (intros Hn; by apply Hn). apply wp_ret. unfold release_ide. wp_steps. cbn [i_lock set_i_wakes set_i_bufs set_i_dev set_i_queue].
  rewrite (id_lock _ _ _ Hs). apply wp_modify. split; [done|]. unfold ibuf, is_valid. simpl. rewrite !list_lookup_alter_eq, Hbx. simpl.
  split; [|done]. destruct (flags_bits (Z.lor (b_flags x) B_VALID)) as (_ & _ & _ & _ & E & _). etrans; [exact E|].
  apply (flags_bits (b_flags x)).
Qed.

Hypothesis no_errors : ∀ d, error d = false.

Lemma wp_ideintr t (Q : unit → ist D → Prop) s : ide_is false t s →
  (∀ s', ide_is false (complete t) s' → Q tt s') → wp (ideintr fuel) Q s.
Proof.
  intros Hs HQ. unfold ideintr. wp_step. eapply wp_acquire_ide; [done|]. clear s Hs. intros s [Hs Hd]. wp_steps.
  pose proof (id_chain _ _ _ Hs) as Hc. unfold complete in HQ. unfold ide_dev in Hd. destruct (r_queue t) as [|b q] eqn:Hq.
  { simpl in Hc. rewrite Hc. eapply (wp_release_ide t); [|done]. split; [done|]. unfold ide_dev. by rewrite Hq. }
  destruct Hc as [-> Hc]. destruct (id_req _ _ _ Hs b) as (x & Hx & Hok); [rewrite Hq; set_solver|]. rewrite Hx in HQ. simpl in HQ.
  assert (ibuf b s = x) as Hbx by (unfold ibuf; by rewrite (id_bufs _ _ _ Hs), Hx). rewrite Hbx in Hd.
  wp_steps. change (ibuf b (set_i_queue _ s)) with (ibuf b s). rewrite Hbx, land_dirty.
  set (s0 := set_i_queue (i_qnext s b) s). assert (i_bufs s !! b = Some x) as Hxs by (by rewrite (id_bufs _ _ _ Hs)).
  set (y := if is_dirty x then x else set_data (r_disk t (drive x) (b_blockno x)) x).
  eapply (wp_mono _ (λ _ s1, ∃ d, s1 = set_i_dev d (set_i_bufs (<[b := y]> (i_bufs s)) s0) ∧
    a_disk (ata_of d) = sync_disk (r_disk t) x)).
  { pose proof (st_disk _ _ _ Hd) as Hdisk. subst y. destruct (is_dirty x) eqn:Hx'; cbn [negb].
    - wp_step. exists (i_dev s). rewrite list_insert_id by done. by destruct s.
    - wp_step. apply wp_idewait. intros d r Hd' _ [d0 ->]. rewrite no_errors. cbn [andb when Z.leb Z.compare]. wp_step.
      apply zoom_wp. cbn [i_dev set_i_dev s0 set_i_queue] in *. destruct Hd as [H1 H2 H3 _ H5].
      eapply wp_mono; [apply (ata_read d); rewrite Hd'; auto|]. intros bs d2 [-> Hd2]. apply wp_modify. exists d2.
      rewrite Hd2, Hd', H2, H3. split; [|done]. simpl. rewrite (alter_insert _ _ x) by done. unfold sync_disk in Hdisk.
      rewrite Hx' in Hdisk. by rewrite Hdisk. }
  intros [] s1 (d & -> & Hdk). unfold upd_ibuf, wakeup_buf. wp_steps.
  match goal with |- wp _ _ ?s2 => set (s1 := s2) end.
  set (t' := Reqs q _ _ _ _ _) in HQ.
  assert (ide_links true t' s1) as Hl.
  { destruct Hs as [L1 L2 L3 L4 L5 L6 L7 L8]. rewrite Hq in L3, L4. apply list.NoDup_cons in L3 as [Hbq Hnd].
    assert (b < length (i_bufs s))%nat by (by eapply lookup_lt_Some).
    split; simpl; try done.
    - intros c Hcq. rewrite list_lookup_insert_ne by (intros ->; done). apply L4. set_solver.
    - rewrite !alter_inserted by done.
      rewrite L5. f_equal. unfold sync_buf. subst y. by destruct (is_dirty x).
    - by rewrite L6. }
  eapply (wp_start_next t'); [done | done |]. intros s2 Hs2. by eapply wp_release_ide.
Qed.

(** ** Sequences of events *)

(** A process submits a request and waits, the disk interrupts, the owner of a
    buffer that is not queued changes it. *)
Inductive ide_ev := Submit (b : nat) | Interrupt | Owner (b : nat) (x : buf).

Definition ide_step (e : ide_ev) (t : reqs) : option reqs :=
  match e with
  | Submit b =>
      x ← r_bufs t !! b;
      if decide (b ∉ r_queue t ∧ req_ok x) then Some (submit b t) else None
  | Interrupt => Some (complete t)
  | Owner b x =>
      if decide (b ∉ r_queue t)
      then Some (Reqs (r_queue t) (<[b := x]> (r_bufs t)) (r_disk t) (r_wakes t) (r_disk1 t) (r_cur t)) else None
  end.
Fixpoint ide_run (es : list ide_ev) (t : reqs) : option reqs :=
  match es with [] => Some t | e :: es => t ← ide_step e t; ide_run es t end.

Definition ide_do (e : ide_ev) : M (ist D) unit :=
  match e with
  | Submit b => acquire_ide;; ide_submit fuel b;; release_ide
  | Interrupt => ideintr fuel
  | Owner b x => modify (λ s, set_i_bufs (<[b := x]> (i_bufs s)) s)
  end.

Lemma wp_ide_do e t t' (Q : unit → ist D → Prop) s : ide_is false t s → ide_step e t = Some t' →
  (∀ s', ide_is false t' s' → Q tt s') → wp (ide_do e) Q s.
Proof.
  intros Hs He HQ. destruct e as [b| |b x]; simpl in *.
  - destruct (r_bufs t !! b) as [x|] eqn:Hx; [simpl in He | done]. case_decide as Hb; [|done]. destruct Hb. injection He as <-.
    wp_step. eapply wp_acquire_ide; [done|]. intros s1 Hs1. wp_step. eapply wp_ide_submit; [done..|]. intros s2 Hs2.
    by eapply wp_release_ide.
  - injection He as <-. by eapply wp_ideintr.
  - case_decide as Hb; [|done]. injection He as <-. apply wp_modify, HQ. destruct Hs as [[L1 L2 L3 L4 L5 L6 L7 L8] Hd].
    split; [split; simpl; try done; [|congruence]|].
    + intros c Hc. rewrite list_lookup_insert_ne by (intros ->; done). by apply L4.
    + unfold ide_dev in *. simpl. destruct (r_queue t) as [|h q]; [done|]. unfold ibuf in *. simpl.
      by rewrite list_lookup_insert_ne by set_solver.
Qed.

Lemma ide_exec_run es : ∀ t t' s, ide_is false t s → ide_run es t = Some t' →
  ∃ s', foreach es ide_do s = Ok tt s' ∧ ide_is false t' s'.
Proof.
  induction es as [|e es IH]; intros t t' s Hs Hr; simpl in Hr.
  - injection Hr as <-. by exists s.
  - destruct (ide_step e t) as [t1|] eqn:He; [|done]. simpl in Hr.
    destruct (wp_elim (ide_do e) (λ _ s', ide_is false t1 s') s) as ([] & s1 & H1 & Hs1); [by eapply wp_ide_do|].
    destruct (IH _ _ _ Hs1 Hr) as (s' & H2 & Hs'). exists s'. split; [|done]. rewrite <- H2.
    exact (bind_ok (ide_do e) (λ _, foreach es ide_do) s tt s1 H1).
Qed.

(** Interrupts empty the queue. *)
Lemma complete_drains n : ∀ t, length (r_queue t) = n → r_queue (Nat.iter n complete t) = [].
Proof.
  induction n as [|n IH]; intros t Hn; [by apply length_zero_iff_nil|]. rewrite Nat.iter_succ_r. apply IH.
  unfold complete. destruct (r_queue t); simpl in *; lia.
Qed.

Lemma run_interrupts n : ∀ t, ide_run (replicate n Interrupt) t = Some (Nat.iter n complete t).
Proof. induction n as [|n IH]; intros t; [done|]. rewrite Nat.iter_succ_r. apply IH. Qed.


(** ** iderw *)

Lemma flags_synced f : Z.testbit f 2 = false → Z.land (Z.lor f B_VALID) (Z.lnot B_DIRTY) = Z.lor f B_VALID.
Proof.
  intros Hf. apply Z.bits_inj'. intros n Hn. rewrite Z.land_spec, Z.lor_spec, Z.lnot_spec by done.
  change B_DIRTY with (2 ^ 2). rewrite Z.pow2_bits_eqb by done. destruct (Z.eqb_spec 2 n) as [<-|]; [|by rewrite andb_true_r].
  by rewrite Hf.
Qed.
Lemma flags_swap f : Z.land (Z.lor f B_VALID) (Z.lnot B_DIRTY) = Z.lor (Z.land f (Z.lnot B_DIRTY)) B_VALID.
Proof. by rewrite Z.land_lor_distr_l. Qed.

Lemma sync_done f x : is_valid (sync_buf f x) && negb (is_dirty (sync_buf f x)) = true.
Proof.
  unfold is_valid, is_dirty, sync_buf. cbn [b_flags set_flags].
  destruct (flags_bits (Z.lor (b_flags x) B_VALID)) as (_ & _ & _ & _ & -> & ->).
  by destruct (flags_bits (b_flags x)) as (-> & _).
Qed.

(** Waiting completes the requests up to one's own. *)
Lemma wp_ide_wait b (Q : unit → ist D → Prop) : ∀ q n t s, r_queue t = q ++ [b] → (length q < n)%nat → ide_is true t s →
  (∀ s', ide_is true (Nat.iter (S (length q)) complete t) s' → Q tt s') → wp (ide_wait (ideintr fuel) n b) Q s.
Proof.
  induction q as [|a q IH]; intros n t s Hq Hn Hs HQ; (destruct n as [|n]; [simpl in Hn; lia|]); cbn [ide_wait]; wp_step; wp_step;
    (destruct (id_req _ _ _ (proj1 Hs) b) as (x & Hx & _ & _ & Hok); [rewrite Hq; set_solver|]);
    (assert (ibuf b s = x) as -> by (unfold ibuf; by rewrite (id_bufs _ _ _ (proj1 Hs)), Hx)); rewrite land_both, Hok;
    wp_step; (eapply wp_release_ide; [done|]; intros s1 Hs1; wp_step; eapply wp_ideintr; [done|]; intros s2 Hs2; wp_step);
    (eapply wp_acquire_ide; [done|]; intros s3 Hs3).
  - destruct n as [|n]; cbn [ide_wait]; wp_step; wp_step;
    (assert (ibuf b s3 = sync_buf (r_disk t) x) as -> by
      (unfold ibuf; rewrite (id_bufs _ _ _ (proj1 Hs3)); unfold complete; rewrite Hq; simpl; rewrite Hx, list_lookup_insert_eq;
       [done | by eapply lookup_lt_Some])); rewrite land_both, sync_done; by apply wp_ret, HQ.
  - apply (IH n (complete t)); [unfold complete; by rewrite Hq | simpl in Hn; lia | done |].
    intros s' Hs'. apply HQ. by rewrite Nat.iter_succ_r.
Qed.

Lemma wp_iderw b x t n (Q : unit → ist D → Prop) s : ide_is false t s → b ∉ r_queue t → r_bufs t !! b = Some x → req_ok x →
  holdingsleep (b_lock x) (r_cur t) = true → (b_dev x = 0 ∨ r_disk1 t = true) → (length (r_queue t) < n)%nat →
  (∀ s', ide_is false (Nat.iter (S (length (r_queue t))) complete (submit b t)) s' → Q tt s') →
  wp (iderw_intr fuel (ideintr fuel) n b) Q s.
Proof.
  intros Hs Hb Hx Hok Hh Hdev Hn HQ. unfold iderw_intr. wp_steps.
  assert (ibuf b s = x) as -> by (unfold ibuf; by rewrite (id_bufs _ _ _ (proj1 Hs)), Hx).
  rewrite (id_cur _ _ _ (proj1 Hs)), (id_disk1 _ _ _ (proj1 Hs)), Hh, land_both.
  destruct Hok as (Hok1 & Hok2 & Hok3). rewrite Hok3. cbn [negb].
  assert (negb (b_dev x =? 0) && negb (r_disk1 t) = false) as ->
    by (destruct Hdev as [-> | ->]; [done | apply andb_false_r]).
  wp_step. eapply wp_acquire_ide; [done|]. intros s1 Hs1. wp_step. eapply wp_ide_submit; [done..|]. intros s2 Hs2. wp_step.
  eapply (wp_ide_wait b _ (r_queue t) n (submit b t)); [done | done | done |]. intros s3 Hs3. by eapply wp_release_ide.
Qed.

(** The state of the two drivers is the same, the disk of memide.c being disk 1. *)
Record same_disk (m : bst) (t : reqs) : Prop := {
  sd_bufs : bufs m = r_bufs t;
  sd_cur : cur m = r_cur t;
  sd_size : d_size (dsk m) ≤ FSSIZE;
  sd_disk : ∀ n, 0 ≤ n < d_size (dsk m) → r_disk t 1 n = disk_get (dsk m) n
}.

(** What a call of memide.c that returns has checked and done. *)
Lemma memide_iderw_inv b m m' : (b < length (bufs m))%nat → iderw b m = Ok tt m' → let x := buf_of b m in
  holdingsleep (b_lock x) (cur m) = true ∧ is_valid x && negb (is_dirty x) = false ∧ b_dev x = 1 ∧ b_blockno x < d_size (dsk m) ∧
  m' = (if is_dirty x
        then put_buf b (set_flags (Z.lor (Z.land (b_flags x) (Z.lnot B_DIRTY)) B_VALID) x)
               (set_dsk (disk_put (dsk m) (b_blockno x) (b_data x)) m)
        else put_buf b (set_flags (Z.lor (b_flags x) B_VALID) (set_data (disk_get (dsk m) (b_blockno x)) x)) m).
Proof.
  intros Hb Hr x. pose proof Hr as Hr'. unfold iderw, holdingsleep_b in Hr'.
  cbv [mbind M_bind mget gets mret M_ret panic] in Hr'. fold x in Hr'.
  destruct (holdingsleep (b_lock x) (cur m)) eqn:Hh; [|done]. rewrite land_both in Hr'.
  destruct (is_valid x && negb (is_dirty x)) eqn:Hf; [done|]. cbn [negb] in Hr'.
  destruct (Z.eqb_spec (b_dev x) 1) as [Hd|]; [|done]. cbn [negb] in Hr'.
  destruct (Z.leb_spec (d_size (dsk m)) (b_blockno x)) as [|Hn]; [done|]. split_and!; try done.
  match goal with |- _ = ?r => cut (wp (iderw b) (λ _ s', s' = r) m) end.
  { intros ([] & s' & H1 & H2)%wp_elim. rewrite Hr in H1. by injection H1 as <-. }
  destruct (is_dirty x) eqn:Hx; [by apply iderw_write_wp|]. apply iderw_read_wp; try done. by rewrite andb_true_r in Hf.
Qed.

(** The interrupt-driven driver does what the driver of memide.c does: on
    an idle disk 1 with the same contents, a call of iderw that returns in
    memide.c returns here, with an interrupt while it sleeps, and leaves the
    same buffers and the same disk contents, and the disk idle again. *)
Theorem ide_implements_memide b m m' t s : same_disk m t → ide_is false t s → r_queue t = [] → r_disk1 t = true →
  (b < length (bufs m))%nat → 0 ≤ b_blockno (buf_of b m) → length (b_data (buf_of b m)) = 512%nat →
  iderw b m = Ok tt m' →
  ∃ s' t', iderw_intr fuel (ideintr fuel) 1 b s = Ok tt s' ∧ same_disk m' t' ∧ ide_is false t' s' ∧ r_queue t' = [] ∧
    r_disk1 t' = true ∧ r_wakes t' = r_wakes t ++ [ChBuf b].
Proof.
  intros Hm Hs Hq H1 Hb Hn Hl Hr. destruct (memide_iderw_inv b m m' Hb Hr) as (Hh & Hf & Hdev & Hsz & ->).
  set (x := buf_of b m) in *. assert (r_bufs t !! b = Some x) as Hx.
  { rewrite <- (sd_bufs _ _ Hm). subst x. unfold buf_of. destruct (lookup_lt_is_Some_2 _ _ Hb) as [y ->]. done. }
  pose proof (sd_size _ _ Hm) as Hsize.
  destruct (wp_elim (iderw_intr fuel (ideintr fuel) 1 b) (λ _ s', ide_is false (complete (submit b t)) s') s) as ([] & s' & Hr' & Hs').
  { eapply (wp_iderw b x t); rewrite ?Hq; try done; [set_solver | split_and!; [done | lia | done | done] | | by right | simpl; lia].
    by rewrite <- (sd_cur _ _ Hm). }
  eexists s', _. split_and!; [exact Hr' | | exact Hs' | ..]; unfold complete, submit; simpl; rewrite Hq; simpl; try done.
  rewrite Hx. simpl. destruct Hm as [M1 M2 M3 M4]. unfold sync_buf, sync_disk.
  assert (drive x = 1) as Hdr by (unfold drive; by rewrite Hdev). rewrite Hdr.
  destruct (is_dirty x) eqn:Hdx; split; simpl; try done.
  - rewrite M1. rewrite (alter_insert _ _ x) by done. by rewrite flags_swap.
  - intros n Hn'. unfold disk_upd, disk_get. simpl. destruct (Z.eqb_spec n (b_blockno x)) as [->|Hne]; [by rewrite lookup_insert_eq|].
    rewrite lookup_insert_ne by done. by apply M4.
  - rewrite M1, (alter_insert _ _ x), flags_synced by done. by rewrite M4 by lia.
Qed.
End driver.

(** ** A disk *)

(** It is busy for up to three reads of its status after a command. *)
Definition ata_dev : Type := ata * nat.
#[export] Instance ata_dev_ports : Ports ata_dev := {|
  port_in p := λ '(a, n),
    if p =? 503 then match Nat.min n 3 with O => Ok 64 (a, 0%nat) | S n => Ok 128 (a, n) end else Ok 255 (a, n);
  port_out p v := λ '(a, n),
    if (498 <=? p) && (p <=? 502) then Ok tt (AtaSt (λ q, if q =? p then v else a_reg a q) (a_disk a) (a_cmd a), n)
    else if p =? 503 then Ok tt (AtaSt (a_reg a) (a_disk a) v, 3%nat) else Ok tt (a, n);
  port_in_bytes p k := λ '(a, n), Ok (a_disk a (a_drive a) (a_lba a)) (AtaSt (a_reg a) (a_disk a) 0, n);
  port_out_bytes p bs := λ '(a, n), Ok tt (AtaSt (a_reg a) (disk_upd (a_disk a) (a_drive a) (a_lba a) bs) 0, n)
|}.

#[export] Instance ata_dev_laws : Ata (D := ata_dev) fst (λ d, Nat.min d.2 3) (λ _, false).
Proof.
  split.
  - intros [a n]. destruct (Nat.min n 3) as [|k] eqn:E.
    + eapply wp_ok; [unfold inb, mbind, M_bind; simpl; rewrite E; reflexivity|]. simpl. split_and!; [done | by left | done].
    + eapply wp_ok; [unfold inb, mbind, M_bind; simpl; rewrite E; reflexivity|]. simpl. split_and!; [done | right; lia | done].
  - intros [a n]. by eapply wp_ok; [reflexivity|].
  - intros [a n] p v Hp Hv. unfold outb, u8. rewrite (Z.mod_small v) by lia. unfold wp. simpl.
    by rewrite (proj2 (Z.leb_le 498 p)), (proj2 (Z.leb_le p 502)) by lia.
  - intros [a n] v [-> | ->]; by eapply wp_ok; [reflexivity|].
  - intros [a n] bs _ _ _. by eapply wp_ok; [reflexivity|].
  - intros [a n] _ _. by eapply wp_ok; [reflexivity|].
Qed.

Definition ide_example_bufs : list buf :=
  [Buf 0 1 5 (Sleeplock true 7) 1 0 0 (replicate 512 0); Buf B_DIRTY 1 5 (Sleeplock true 8) 1 0 0 (replicate 512 9)].
Definition ide_example : ist ata_dev :=
  Ist false None (λ _, None) ide_example_bufs true 7 [] (AtaSt (λ _, 0) (λ _ _, replicate 512 1) 0, 0%nat).
Definition ide_example_reqs : reqs := Reqs [] ide_example_bufs (λ _ _, replicate 512 1) [] true 7.

Lemma ide_example_is : ide_is (D := ata_dev) fst false ide_example_reqs ide_example.
Proof. split; [split; try done; [apply NoDup_nil_2 | intros b Hb; by apply not_elem_of_nil in Hb] | done]. Qed.


(** The same buffers over memide.c. *)
Definition memide_example : bst :=
  Bst false ide_example_bufs (Disk 100 (gset_to_gmap (replicate 512 1) (list_to_set (seqZ 0 100))) []) 7.

Lemma ide_implements_memide_witness : ∃ (m' : bst) (s' : ist ata_dev),
  iderw 0 memide_example = Ok tt m' ∧
  iderw_intr 4 (ideintr 4) 1 0 ide_example = Ok tt s' ∧ b_data (ibuf 0 s') = b_data (buf_of 0 m').
Proof.
  assert (∃ m', iderw 0 memide_example = Ok tt m') as [m' Hm'] by (eexists; reflexivity).
  exists m'. destruct (ide_implements_memide (D := ata_dev) fst (λ d, Nat.min d.2 3) (λ _, false) 4 ltac:(intros d; simpl; lia) ltac:(done)
    0 memide_example m' ide_example_reqs ide_example)
    as (s' & t' & H1 & [Hb _ _ _] & [Hl _] & _).
  - split; [done | done | simpl; unfold FSSIZE; lia |]. intros n Hn. unfold disk_get. cbn [dsk d_blocks memide_example] in *.
    rewrite lookup_gset_to_gmap, option_guard_True; [done|]. apply elem_of_list_to_set, elem_of_seqZ. simpl in Hn. lia.
  - exact ide_example_is.
  - done.
  - done.
  - simpl. lia.
  - simpl. lia.
  - reflexivity.
  - exact Hm'.
  - exists s'. split; [exact Hm'|]. split; [exact H1|]. unfold ibuf, buf_of. by rewrite (id_bufs _ _ _ Hl), Hb.
Defined.
