(* ===== verification/Boot.v ===== *)
(** * Boot: the boot loader

    bootmain.c reads the first page of the kernel's ELF file from the disk,
    which starts at sector 1, then every program segment to its physical
    address, a sector at a time, and calls the entry point.  The disk is the
    one of Ide.v, with the laws of its class [Ata]; the memory is a function
    from addresses to bytes.  Sectors are read whole, so that bytes around a
    segment are overwritten; the theorem says for which files every segment
    ends up in memory as the file has it, with zeroes up to memsz. *)

From Stdlib Require Import ZArith Lia Bool.
From stdpp Require Import base option list strings numbers.
From S2P Require Import Prelude Cstring Locks Bio Ports Ide.

#[local] Open Scope string_scope.
#[local] Open Scope list_scope.
#[local] Open Scope Z_scope.

Definition SECTSIZE : Z := 512.
Definition ELF_MAGIC : Z := 0x464C457F.

(** The memory, and the device. *)
Record boot (D : Type) := BootSt { bm_mem : mem; bm_dev : D }.
Arguments BootSt {D}. Arguments bm_mem {D}. Arguments bm_dev {D}.

(** *** struct elfhdr and struct proghdr of elf.h, in memory *)
Definition load16 (m : mem) (a : Z) : Z := m a + 256 * m (a + 1).
Definition eh_magic (m : mem) (elf : Z) : Z := load32 m elf.
Definition eh_entry (m : mem) (elf : Z) : Z := load32 m (elf + 24).
Definition eh_phoff (m : mem) (elf : Z) : Z := load32 m (elf + 28).
Definition eh_phnum (m : mem) (elf : Z) : Z := load16 m (elf + 44).
Definition ph_off (m : mem) (ph : Z) : Z := load32 m (ph + 4).
Definition ph_paddr (m : mem) (ph : Z) : Z := load32 m (ph + 12).
Definition ph_filesz (m : mem) (ph : Z) : Z := load32 m (ph + 16).
Definition ph_memsz (m : mem) (ph : Z) : Z := load32 m (ph + 20).

(** The bytes [bs] at [a]. *)
Definition store_bytes (m : mem) (a : Z) (bs : list Z) : mem :=
  λ x, if within a (Z.of_nat (length bs)) x then bget0 bs (x - a) else m x.

Section boot.
Context {D : Type} `{Ports D}.
#[local] Notation B := (M (boot D)).

Definition set_bm_dev (d : D) (s : boot D) : boot D := BootSt (bm_mem s) d.
Definition set_bm_mem (m : mem) (s : boot D) : boot D := BootSt m (bm_dev s).
Definition bdev {A} (m : M D A) : B A := zoom bm_dev set_bm_dev m.

(** How long the disk may be busy. *)
Context (fuel : nat).

Fixpoint waitdisk_loop (n : nat) : M D unit :=
  match n with
  | O => undef "out of fuel"
  | S n => r ← inb 503; if Z.land r 192 =? 64 then mret tt else waitdisk_loop n
  end.
Definition waitdisk : M D unit := waitdisk_loop fuel.

Definition readsect (dst offset : Z) : B unit :=
  bs ← bdev (waitdisk;;
             outb 498 1;;
             outb 499 offset;;
             outb 500 (Z.shiftr offset 8);;
             outb 501 (Z.shiftr offset 16);;
             outb 502 (Z.lor (Z.shiftr offset 24) 224);;
             outb 503 32;;
             waitdisk;;
             insl 496 (SECTSIZE / 4));
  modify (λ s, set_bm_mem (store_bytes (bm_mem s) dst bs) s).

(** for(; pa < epa; pa += SECTSIZE, offset++), with pointers of 32 bits. *)
Fixpoint readseg_loop (n : nat) (pa epa offset : Z) : B unit :=
  if pa <? epa then
    match n with
    | O => undef "out of fuel"
    | S n => readsect pa offset;; readseg_loop n (u32 (pa + SECTSIZE)) epa (u32 (offset + 1))
    end
  else mret tt.

Definition readseg (pa count offset : Z) : B unit :=
  let epa := u32 (pa + count) in
  let pa := u32 (pa - offset mod SECTSIZE) in
  let offset := u32 (offset / SECTSIZE + 1) in
  readseg_loop (Z.to_nat ((epa - pa) / SECTSIZE + 1)) pa epa offset.

(** One round of the loop over the program headers. *)
Definition load_segment (ph : Z) : B unit :=
  m ← gets bm_mem;
  let pa := ph_paddr m ph in
  readseg pa (ph_filesz m ph) (ph_off m ph);;
  m ← gets bm_mem;
  when (ph_filesz m ph <? ph_memsz m ph)
    (modify (set_bm_mem (stosb m (u32 (pa + ph_filesz m ph)) 0 (Z.to_nat (ph_memsz m ph - ph_filesz m ph))))).

(** for(; ph < eph; ph++) *)
Fixpoint load_segments (n : nat) (ph eph : Z) : B unit :=
  if ph <? eph then
    match n with
    | O => undef "out of fuel"
    | S n => load_segment ph;; load_segments n (u32 (ph + 32)) eph
    end
  else mret tt.

(** The address that is called, if any. *)
Definition bootmain : B (option Z) :=
  let elf := 65536 in
  readseg elf 4096 0;;
  m ← gets bm_mem;
  if negb (eh_magic m elf =? ELF_MAGIC) then mret None else
  let ph := u32 (elf + eh_phoff m elf) in
  let eph := u32 (ph + 32 * eh_phnum m elf) in
  load_segments (Z.to_nat (eh_phnum m elf)) ph eph;;
  m ← gets bm_mem;
  mret (Some (eh_entry m elf)).

End boot.

(** ** Reading *)

(** Byte [i] of the file that starts at sector 1 of the first drive. *)
Definition kbyte (dk : Z → Z → block) (i : Z) : Z := bget0 (dk 0 (1 + i / 512)) (i mod 512).

Section load.
Context {D : Type} {P : Ports D} {ata_of : D → ata} {busy : D → nat} {error : D → bool} {A : Ata ata_of busy error}.
Context (fuel : nat) (Hfuel : ∀ d, (busy d < fuel)%nat).
Context (dk : Z → Z → block) (Hdk : ∀ n, length (dk 0 n) = 512%nat).

#[local] Notation disk s := (a_disk (ata_of (bm_dev s))).

Lemma wp_waitdisk (Q : unit → D → Prop) d : (∀ d', ata_of d' = ata_of d → Q tt d') → wp (waitdisk fuel) Q d.
Proof.
  unfold waitdisk. assert (∀ n d, (busy d < n)%nat → (∀ d', ata_of d' = ata_of d → Q tt d') → wp (waitdisk_loop n) Q d) as Hloop;
    [|intros HQ; by apply Hloop].
  intros n. induction n as [|n IH]; intros d0 Hn HQ; [lia|]. cbn [waitdisk_loop]. wp_step.
  eapply wp_mono; [apply ata_status|]. intros r d' (Hd & Hr & _). change (Z.lor IDE_BSY IDE_DRDY) with 192 in Hr. change IDE_DRDY with 64 in Hr.
  destruct (Z.eqb_spec (Z.land r 192) 64) as [E|E].
  - wp_step. by apply HQ.
  - destruct Hr as [?|Hr]; [done|]. apply IH; [lia|]. intros d2 Hd2. apply HQ. by rewrite Hd2.
Qed.

Lemma wp_reg p v (Q : unit → D → Prop) d : 498 ≤ p ≤ 502 →
  (∀ d', ata_of d' = AtaSt (λ q, if q =? p then u8 v else a_reg (ata_of d) q) (a_disk (ata_of d)) (a_cmd (ata_of d)) → Q tt d') →
  wp (outb p v) Q d.
Proof.
  intros Hp HQ. unfold outb. rewrite <- u8_u8. change (port_out p (u8 (u8 v))) with (outb p (u8 v)).
  eapply wp_mono; [apply ata_register; [done | unfold u8; apply Z.mod_pos_bound; lia]|]. intros [] d' Hd'. by apply HQ.
Qed.

(** The sector number in its four registers. *)
Lemma lba_bytes o : 0 ≤ o < 2 ^ 28 →
  u8 o + 2 ^ 8 * u8 (Z.shiftr o 8) + 2 ^ 16 * u8 (Z.shiftr o 16) + 2 ^ 24 * Z.land (u8 (Z.lor (Z.shiftr o 24) 224)) 15 = o ∧
  Z.land (Z.shiftr (u8 (Z.lor (Z.shiftr o 24) 224)) 4) 1 = 0 ∧ Z.testbit (u8 (Z.lor (Z.shiftr o 24) 224)) 6 = true.
Proof.
  intros Ho. rewrite !Z.shiftr_div_pow2 by lia. set (h := o / 2 ^ 24).
  assert (0 ≤ h < 16) as Hh by (unfold h; split; [apply Z.div_pos; lia | apply Z.div_lt_upper_bound; lia]).
  assert (Z.lor h 224 = 224 + h) as El.
  { rewrite Z.lor_comm. change 224 with (Z.shiftl 14 4). by rewrite lor_shiftl by lia. }
  assert (h = 0 ∨ h = 1 ∨ h = 2 ∨ h = 3 ∨ h = 4 ∨ h = 5 ∨ h = 6 ∨ h = 7 ∨ h = 8 ∨ h = 9 ∨ h = 10 ∨ h = 11 ∨ h = 12 ∨ h = 13 ∨ h = 14 ∨ h = 15) as Hcases by lia.
  assert (Z.land (u8 (224 + h)) 15 = h ∧ Z.land (u8 (224 + h) / 2 ^ 4) 1 = 0 ∧ Z.testbit (u8 (224 + h)) 6 = true) as (E1 & E2 & E3).
  { clearbody h. by repeat destruct Hcases as [->|Hcases]; [..|subst h]. }
  rewrite El, E1. split; [|done]. unfold u8, h. change (2 ^ 8) with 256. change (2 ^ 16) with 65536. change (2 ^ 24) with 16777216. divmod_lia.
Qed.

Lemma wp_readsect dst o (Q : unit → boot D → Prop) s : 0 ≤ o < 2 ^ 28 → disk s = dk →
  (∀ d, a_disk (ata_of d) = dk → Q tt (BootSt (store_bytes (bm_mem s) dst (dk 0 o)) d)) → wp (readsect fuel dst o) Q s.
Proof.
  intros Ho Hd HQ. destruct (lba_bytes o Ho) as (E1 & E2 & E3). unfold readsect, bdev. wp_step. apply zoom_wp. wp_step.
  apply wp_waitdisk. intros d1 H1. wp_step. apply wp_reg; [lia|]. intros d2 H2. wp_step. apply wp_reg; [lia|]. intros d3 H3.
  wp_step. apply wp_reg; [lia|]. intros d4 H4. wp_step. apply wp_reg; [lia|]. intros d5 H5. wp_step.
  apply wp_reg; [lia|]. intros d6 H6. wp_step. eapply wp_mono; [apply ata_command; by left|]. intros [] d7 H7. wp_step.
  apply wp_waitdisk. intros d8 H8. unfold insl. change (Z.to_nat (4 * (SECTSIZE / 4))) with 512%nat.
  assert (a_cmd (ata_of d8) = IDE_CMD_READ ∧ a_single (ata_of d8) ∧ a_drive (ata_of d8) = 0 ∧ a_lba (ata_of d8) = o ∧ a_disk (ata_of d8) = dk) as (C1 & C2 & C3 & C4 & C5).
  { rewrite H8, H7, H6, H5, H4, H3, H2, H1. unfold a_single, a_drive, a_lba. cbn [a_reg a_disk a_cmd Z.eqb Pos.eqb]. rewrite E2, E3, Hd. split_and!; done. }
  eapply wp_mono; [by apply ata_read|]. intros bs d9 (-> & H9). wp_step. cbn [set_bm_dev bm_mem set_bm_mem bm_dev].
  rewrite C3, C4, C5. apply (HQ d9). by rewrite H9.
Qed.

(** The file's bytes from [off] on, over [n] bytes from [lo] on. *)
Definition filled (m : mem) (lo n off : Z) : mem := λ x, if within lo n x then kbyte dk (off + (x - lo)) else m x.

Lemma filled_sector m lo j off x : 0 ≤ j → off mod 512 = 0 → 0 ≤ off →
  store_bytes (filled m lo (512 * j) off) (lo + 512 * j) (dk 0 (off / 512 + 1 + j)) x = filled m lo (512 * (j + 1)) off x.
Proof.
  intros Hj Hm Ho. unfold store_bytes, filled, within. rewrite Hdk. change (Z.of_nat 512) with 512. in_range; try done.
  unfold kbyte. f_equal; [f_equal|]; divmod_lia.
Qed.

Lemma wp_readseg_loop m lo epa off (N := (epa - lo + 511) / 512) (Q : unit → boot D → Prop) n : ∀ j s,
  0 ≤ j ≤ Z.max 0 N → Z.max 0 N - j ≤ Z.of_nat n → off mod 512 = 0 → 0 ≤ off → 0 ≤ lo → lo + 512 * Z.max 0 N < 2 ^ 32 →
  off / 512 + 1 + Z.max 0 N < 2 ^ 28 → disk s = dk → (∀ x, bm_mem s x = filled m lo (512 * j) off x) →
  (∀ s', disk s' = dk → (∀ x, bm_mem s' x = filled m lo (512 * Z.max 0 N) off x) → Q tt s') →
  wp (readseg_loop fuel n (lo + 512 * j) epa (off / 512 + 1 + j)) Q s.
Proof.
  induction n as [|n IH]; intros j s Hj Hn Hm Ho Hlo Hmax Hsec Hd Hmem HQ.
  - cbn [readseg_loop]. rewrite (proj2 (Z.ltb_ge _ _)) by (unfold N in *; divmod_lia). wp_step. apply HQ; [done|].
    intros x. rewrite Hmem. f_equal. lia.
  - cbn [readseg_loop]. destruct (Z.ltb_spec (lo + 512 * j) epa) as [Hlt|Hge].
    + wp_step. assert (j < N) by (unfold N; divmod_lia).
      assert (0 ≤ off / 512) by (apply Z.div_pos; lia).
      apply wp_readsect; [lia | done |]. intros d Hd'. change SECTSIZE with 512.
      rewrite !u32_id by lia. replace (lo + 512 * j + 512) with (lo + 512 * (j + 1)) by lia.
      replace (off / 512 + 1 + j + 1) with (off / 512 + 1 + (j + 1)) by lia.
      apply IH; try done; try lia. intros x. rewrite <- filled_sector by (done || lia). cbn [bm_mem]. unfold store_bytes.
      case_match; [done|]. apply Hmem.
    + wp_step. apply HQ; [done|]. intros x. rewrite Hmem. f_equal. unfold N in *. divmod_lia.
Qed.

(** How many bytes readseg stores, from [pa - off mod 512] on. *)
Definition span (count off : Z) : Z := 512 * ((count + off mod 512 + 511) / 512).

Lemma wp_readseg pa count off (Q : unit → boot D → Prop) s :
  0 ≤ count → 0 ≤ off → 0 ≤ pa - off mod 512 → pa - off mod 512 + span count off < 2 ^ 32 → off + span count off < 2 ^ 36 →
  disk s = dk →
  (∀ s', disk s' = dk → (∀ x, bm_mem s' x = filled (bm_mem s) (pa - off mod 512) (span count off) (off - off mod 512) x) → Q tt s') →
  wp (readseg fuel pa count off) Q s.
Proof.
  intros Hc Ho Hlo Hmax Hsec Hd HQ. unfold readseg. change SECTSIZE with 512. cbv zeta.
  pose proof (Z.mod_pos_bound off 512 ltac:(lia)) as Hmod.
  assert (pa + count < 2 ^ 32 ∧ off / 512 + 1 < 2 ^ 28 + 1) as [H1 H2] by (unfold span in *; split; divmod_lia).
  set (N := (count + off mod 512 + 511) / 512) in *. assert (0 ≤ N) as HN by (apply Z.div_pos; lia).
  assert (span count off = 512 * N) as Es by done. rewrite Es in *.
  rewrite (u32_id (pa + count)), (u32_id (pa - off mod 512)), (u32_id (off / 512 + 1)) by divmod_lia.
  replace (pa - off mod 512) with (pa - off mod 512 + 512 * 0) at 2 by lia.
  replace (off / 512 + 1) with ((off - off mod 512) / 512 + 1 + 0) by divmod_lia.
  assert ((pa + count - (pa - off mod 512) + 511) / 512 = N) as EN by (unfold N; f_equal; lia).
  eapply (wp_readseg_loop (bm_mem s)); rewrite ?EN; try done; try lia.
  - rewrite Z.max_r by done. rewrite Z2Nat.id; [unfold N; divmod_lia|]. apply Z.add_nonneg_nonneg; [apply Z.div_pos; lia | lia].
  - divmod_lia.
  - divmod_lia.
  - change (2 ^ 28) with (134217728 * 2). change (2 ^ 36) with (512 * 134217728) in Hsec. divmod_lia.
  - intros x. unfold filled, within. in_range; done.
  - intros s' Hd' Hm'. apply HQ; [done|]. intros x. rewrite Hm', Z.max_r by done. done.
Qed.

(** ** The segments *)

Record seg := Seg { sg_off : Z; sg_paddr : Z; sg_filesz : Z; sg_memsz : Z }.

(** The bytes of the file as a memory, and the headers in it. *)
Definition kmem : mem := λ x, kbyte dk x.
Definition seg_of (i : nat) : seg :=
  let ph := eh_phoff kmem 0 + 32 * Z.of_nat i in
  Seg (ph_off kmem ph) (ph_paddr kmem ph) (ph_filesz kmem ph) (ph_memsz kmem ph).

(** What loading the segment writes. *)
Definition lo_of (g : seg) : Z := sg_paddr g - sg_off g mod 512.
Definition hi_of (g : seg) : Z := Z.max (lo_of g + span (sg_filesz g) (sg_off g)) (sg_paddr g + sg_memsz g).

(** The segment is in memory. *)
Definition loaded_seg (m : mem) (g : seg) : Prop :=
  ∀ k, 0 ≤ k < Z.max (sg_filesz g) (sg_memsz g) → m (sg_paddr g + k) = if k <? sg_filesz g then kbyte dk (sg_off g + k) else 0.

(** A segment that can be loaded: its sectors are below the limit of the disk,
    its addresses do not wrap, and the page at 65536 is outside. *)
Record seg_ok (g : seg) : Prop := {
  so_lo : 0 ≤ lo_of g;
  so_hi : hi_of g < 2 ^ 32;
  so_page : hi_of g ≤ 65536 ∨ 69632 ≤ lo_of g
}.

Definition page_ok (s : boot D) : Prop := disk s = dk ∧ ∀ x, 65536 ≤ x < 69632 → bm_mem s x = kbyte dk (x - 65536).

Lemma load32_page s a : page_ok s → 0 ≤ a ≤ 4092 → load32 (bm_mem s) (65536 + a) = load32 kmem a.
Proof. intros [_ Hm] Ha. unfold load32. rewrite !Hm by lia. unfold kmem. by repeat f_equal; lia. Qed.

Hypothesis Hbytes : ∀ n i, is_byte (bget0 (dk 0 n) i).

Lemma kload_range a : 0 ≤ load32 kmem a < 2 ^ 32.
Proof.
  unfold load32, kmem, kbyte. pose proof (Hbytes (1 + a / 512) (a mod 512)). pose proof (Hbytes (1 + (a + 1) / 512) ((a + 1) mod 512)).
  pose proof (Hbytes (1 + (a + 2) / 512) ((a + 2) mod 512)). pose proof (Hbytes (1 + (a + 3) / 512) ((a + 3) mod 512)).
  unfold is_byte in *. change (2 ^ 32) with 4294967296. lia.
Qed.

(** One segment: its bytes, and what it leaves. *)
Lemma wp_load_segment i (Q : unit → boot D → Prop) s : let g := seg_of i in
  page_ok s → seg_ok g → 0 ≤ eh_phoff kmem 0 + 32 * Z.of_nat i ≤ 4096 - 32 →
  (∀ s', page_ok s' → loaded_seg (bm_mem s') g → (∀ x, x < lo_of g ∨ hi_of g ≤ x → bm_mem s' x = bm_mem s x) → Q tt s') →
  wp (load_segment fuel (65536 + (eh_phoff kmem 0 + 32 * Z.of_nat i))) Q s.
Proof.
  intros g Pg [S1 S2 S3] Hph HQ. set (ph := eh_phoff kmem 0 + 32 * Z.of_nat i) in *.
  assert (∀ s0, page_ok s0 → ph_off (bm_mem s0) (65536 + ph) = sg_off g ∧ ph_paddr (bm_mem s0) (65536 + ph) = sg_paddr g ∧
    ph_filesz (bm_mem s0) (65536 + ph) = sg_filesz g ∧ ph_memsz (bm_mem s0) (65536 + ph) = sg_memsz g) as Hfld.
  { intros s0 P0. unfold ph_off, ph_paddr, ph_filesz, ph_memsz. rewrite <- !Z.add_assoc, !load32_page by (done || lia). done. }
  pose proof (kload_range (ph + 4)) as R1. pose proof (kload_range (ph + 12)) as R2. pose proof (kload_range (ph + 16)) as R3.
  pose proof (kload_range (ph + 20)) as R4.
  change (load32 kmem (ph + 4)) with (sg_off g) in R1. change (load32 kmem (ph + 12)) with (sg_paddr g) in R2.
  change (load32 kmem (ph + 16)) with (sg_filesz g) in R3. change (load32 kmem (ph + 20)) with (sg_memsz g) in R4.
  destruct (Hfld s Pg) as (E1 & E2 & E3 & E4). unfold load_segment. wp_step. wp_step. rewrite E1, E2, E3. wp_step.
  unfold hi_of, lo_of in *. pose proof (Z.mod_pos_bound (sg_off g) 512 ltac:(lia)) as Hmod.
  assert (sg_filesz g + sg_off g mod 512 ≤ span (sg_filesz g) (sg_off g) < sg_filesz g + sg_off g mod 512 + 512) as Hsp by (unfold span; divmod_lia).
  apply wp_readseg; [lia | lia | lia | lia | lia | apply Pg |]. intros s1 D1 M1. wp_step. wp_step.
  assert (page_ok s1) as P1.
  { split; [done|]. intros x Hx. rewrite M1. unfold filled, within. in_range; try (apply Pg; lia). }
  destruct (Hfld s1 P1) as (_ & _ & F3 & F4). rewrite F3, F4.
  set (z := sg_memsz g - sg_filesz g).
  assert (∀ m, (∀ x, m x = if within (sg_paddr g + sg_filesz g) z x then 0 else bm_mem s1 x) → Q tt (BootSt m (bm_dev s1))) as Hfin.
  { intros m Hm. apply HQ; unfold z, within in Hm.
    - split; [done|]. cbn [bm_mem]. intros x Hx. rewrite Hm. in_range; apply P1; lia.
    - intros k Hk. cbn [bm_mem]. rewrite Hm, M1. unfold filled, within. destruct (Z.ltb_spec k (sg_filesz g)); in_range; try done.
      all: f_equal; lia.
    - intros x Hx. cbn [bm_mem]. rewrite Hm, M1. unfold filled, within. in_range; done. }
  destruct (Z.ltb_spec (sg_filesz g) (sg_memsz g)) as [Hlt|Hge]; cbn [when]; wp_step.
  - rewrite u32_id by lia. apply Hfin. intros x. rewrite stosb_spec, Z2Nat.id by lia. done.
  - destruct s1 as [m1 d1]. apply Hfin. intros x. unfold within. in_range; done.
Qed.

(** The kernel file: its program headers are in its first page, its segments
    can be loaded, and no later segment overwrites an earlier one. *)
Record kernel_ok : Prop := {
  ko_magic : eh_magic kmem 0 = ELF_MAGIC;
  ko_headers : eh_phoff kmem 0 + 32 * eh_phnum kmem 0 ≤ 4096;
  ko_seg : ∀ i, Z.of_nat i < eh_phnum kmem 0 → seg_ok (seg_of i);
  ko_order : ∀ i j, (i < j)%nat → Z.of_nat j < eh_phnum kmem 0 →
    let g := seg_of i in let h := seg_of j in
    hi_of h ≤ sg_paddr g ∨ sg_paddr g + Z.max (sg_filesz g) (sg_memsz g) ≤ lo_of h
}.

Lemma load16_range a : 0 ≤ load16 kmem a < 65536.
Proof.
  unfold load16, kmem, kbyte. pose proof (Hbytes (1 + a / 512) (a mod 512)). pose proof (Hbytes (1 + (a + 1) / 512) ((a + 1) mod 512)).
  unfold is_byte in *. lia.
Qed.

Lemma wp_load_segments (Q : unit → boot D → Prop) n : kernel_ok → ∀ i s,
  Z.of_nat i + Z.of_nat n = eh_phnum kmem 0 → page_ok s → (∀ j, (j < i)%nat → loaded_seg (bm_mem s) (seg_of j)) →
  (∀ s', page_ok s' → (∀ j, Z.of_nat j < eh_phnum kmem 0 → loaded_seg (bm_mem s') (seg_of j)) → Q tt s') →
  wp (load_segments fuel n (65536 + (eh_phoff kmem 0 + 32 * Z.of_nat i)) (65536 + (eh_phoff kmem 0 + 32 * eh_phnum kmem 0))) Q s.
Proof.
  intros K. pose proof (kload_range 28) as R1. change (load32 kmem 28) with (eh_phoff kmem 0) in R1. pose proof (ko_headers K) as Hh.
  induction n as [|n IH]; intros i s Hi Pg Hl HQ; cbn [load_segments].
  - rewrite (proj2 (Z.ltb_ge _ _)) by lia. wp_step. apply HQ; [done|]. intros j Hj. apply Hl. lia.
  - rewrite (proj2 (Z.ltb_lt _ _)) by lia. wp_step. apply wp_load_segment; [done | apply (ko_seg K); lia | lia |].
    intros s' P' L' F'. rewrite u32_id by lia.
    replace (65536 + (eh_phoff kmem 0 + 32 * Z.of_nat i) + 32) with (65536 + (eh_phoff kmem 0 + 32 * Z.of_nat (S i))) by lia.
    apply IH; [lia | done | | done]. intros j Hj. destruct (decide (j = i)) as [->|Hne]; [done|].
    intros k Hk. rewrite F'; [apply Hl; [lia | done]|].
    destruct (ko_order K j i ltac:(lia) ltac:(lia)); lia.
Qed.

(** C28. The boot loader: from a disk whose sectors from 1 on hold a kernel file
    with its program headers in the first page and segments that do not
    overwrite each other or that page, bootmain terminates and calls the entry
    point of the file's header, with every segment in memory: filesz bytes of
    the file at its physical address, then zeroes up to memsz.  If the file
    does not start with the ELF magic number it returns. *)
Theorem bootmain_loads s : disk s = dk →
  (kernel_ok → wp (bootmain fuel) (λ r s', r = Some (eh_entry kmem 0) ∧
    ∀ i, Z.of_nat i < eh_phnum kmem 0 → loaded_seg (bm_mem s') (seg_of i)) s) ∧
  (eh_magic kmem 0 ≠ ELF_MAGIC → wp (bootmain fuel) (λ r _, r = None) s).
Proof.
  intros Hd.
  assert (∀ Q, (∀ s1, page_ok s1 → wp (m ← gets bm_mem;
    if negb (eh_magic m 65536 =? ELF_MAGIC) then mret None else
    load_segments fuel (Z.to_nat (eh_phnum m 65536)) (u32 (65536 + eh_phoff m 65536)) (u32 (u32 (65536 + eh_phoff m 65536) + 32 * eh_phnum m 65536));;
    m ← gets bm_mem; mret (Some (eh_entry m 65536))) Q s1) → wp (bootmain fuel) Q s) as Hpage.
  { intros Q HQ. unfold bootmain. cbv zeta. wp_step. apply wp_readseg; [done..|]. intros s1 D1 M1. apply HQ.
    split; [done|]. intros x Hx. rewrite M1. unfold filled, within. change (span 4096 0) with 4096. change (0 mod 512) with 0. in_range. f_equal. }
  pose proof (kload_range 28) as R1. change (load32 kmem 28) with (eh_phoff kmem 0) in R1.
  pose proof (load16_range 44) as R2. change (load16 kmem 44) with (eh_phnum kmem 0) in R2.
  assert (∀ s1, page_ok s1 → eh_magic (bm_mem s1) 65536 = eh_magic kmem 0 ∧ eh_phoff (bm_mem s1) 65536 = eh_phoff kmem 0 ∧
    eh_phnum (bm_mem s1) 65536 = eh_phnum kmem 0 ∧ eh_entry (bm_mem s1) 65536 = eh_entry kmem 0) as Hfld.
  { intros s1 P1. unfold eh_magic, eh_phoff, eh_entry, eh_phnum. rewrite <- (Z.add_0_r 65536) at 1.
    rewrite !load32_page by (done || lia). split_and!; try done. unfold load16. destruct P1 as [_ Hm]. rewrite !Hm by lia. done. }
  split.
  - intros K. apply Hpage. intros s1 P1. destruct (Hfld s1 P1) as (E1 & E2 & E3 & _). wp_step. wp_step.
    rewrite E1, E2, E3, (ko_magic K), Z.eqb_refl. cbn [negb]. pose proof (ko_headers K). rewrite !u32_id by lia.
    replace (65536 + eh_phoff kmem 0) with (65536 + (eh_phoff kmem 0 + 32 * Z.of_nat 0)) at 1 by lia.
    rewrite <- Z.add_assoc. wp_step. apply wp_load_segments; [done | lia | done | lia |].
    intros s2 P2 L2. wp_step. wp_step. wp_step. destruct (Hfld s2 P2) as (_ & _ & _ & E4). by rewrite E4.
  - intros Hne. apply Hpage. intros s1 P1. destruct (Hfld s1 P1) as (E1 & _). wp_step. wp_step.
    rewrite E1, (proj2 (Z.eqb_neq _ _)) by done. cbn [negb]. by wp_step.
Qed.

End load.

(** ** A kernel file of one segment *)

Definition boot_header : block :=
  put32 (put32 (put32 (put32 (put16 (put32 (put32 (put32 (replicate 512 0) 0 ELF_MAGIC) 24 0x10000C) 28 52) 44 1)
    56 4096) 64 0x100000) 68 600) 72 1000.
Definition boot_disk (dr n : Z) : block := if n =? 1 then boot_header else replicate 512 9.
Definition boot_example : boot ata_dev := BootSt (λ _, 0) (AtaSt (λ _, 0) boot_disk 0, 0%nat).

Lemma boot_disk_bytes n i : is_byte (bget0 (boot_disk 0 n) i).
Proof.
  assert (∀ l, forallb (λ b, (0 <=? b) && (b <? 256)) l = true → is_byte (bget0 l i)) as Hl.
  { intros l Hl. unfold bget0. destruct (l !! Z.to_nat i) as [x|] eqn:E; [|done]. simpl.
    rewrite forallb_forall in Hl. apply list_elem_of_lookup_2, list_elem_of_In, Hl, andb_prop in E as [E1 E2].
    unfold is_byte. lia. }
  apply Hl. unfold boot_disk. destruct (n =? 1); vm_compute; reflexivity.
Qed.

Lemma boot_kernel : kernel_ok boot_disk.
Proof.
  assert (eh_phnum (kmem boot_disk) 0 = 1) as E by (vm_compute; reflexivity).
  split; rewrite ?E.
  - vm_compute. reflexivity.
  - vm_compute. discriminate.
  - intros i Hi. assert (i = 0%nat) as -> by lia. split; vm_compute; [discriminate | reflexivity | right; discriminate].
  - intros i j Hij Hj. lia.
Qed.

Lemma bootmain_loads_witness : ∃ s', bootmain 4 boot_example = Ok (Some 0x10000C) s' ∧
  bm_mem s' 0x100000 = 9 ∧ bm_mem s' (0x100000 + 700) = 0.
Proof.
  destruct (bootmain_loads (D := ata_dev) (ata_of := fst) (busy := λ d, Nat.min d.2 3) (error := λ _, false) 4 ltac:(intros d; simpl; lia)
    boot_disk ltac:(intros n; unfold boot_disk; by destruct (n =? 1)) boot_disk_bytes boot_example eq_refl) as [W _].
  specialize (W boot_kernel). apply wp_elim in W as (r & s' & E & -> & HL). exists s'. split; [exact E|].
  assert (loaded_seg boot_disk (bm_mem s') (Seg 4096 0x100000 600 1000)) as L0.
  { replace (Seg 4096 0x100000 600 1000) with (seg_of boot_disk 0) by (vm_compute; reflexivity). apply HL. vm_compute. reflexivity. }
  split; [apply (L0 0) | apply (L0 700)]; simpl; lia.
Defined.
