(* ===== verification/Mp.v ===== *)
(** * Mp: finding the processors

    mp.c searches the memory of the firmware for the floating pointer structure
    of the MultiProcessor specification, checks the configuration table it
    points to, and walks the table's entries for the processors and the I/O
    APIC.  The memory is a function from physical addresses to bytes, what the
    kernel finds at P2V of the address; P2V adds the same KERNBASE to both sides
    of every comparison of pointers.

    Shown: the search finds the first structure in the order of the
    specification; mpinit terminates on a table of the entries it knows, and
    records the processors in order, at most NCPU, and the last I/O APIC; and
    on an entry of any other type it does not terminate. *)

From Stdlib Require Import ZArith Lia Bool.
From stdpp Require Import base option list strings numbers.
From S2P Require Import Prelude Cstring Ports.

#[local] Open Scope string_scope.
#[local] Open Scope list_scope.
#[local] Open Scope Z_scope.

Definition NCPU : nat := 8.
Definition MPPROC : Z := 0.
Definition MPBUS : Z := 1.
Definition MPIOAPIC : Z := 2.
Definition MPIOINTR : Z := 3.
Definition MPLINTR : Z := 4.

(** *** struct mp and struct mpconf of mp.h, and their sizes *)
Definition ld16 (m : mem) (a : Z) : Z := m a + 256 * m (a + 1).
Definition mp_physaddr (m : mem) (mp : Z) : Z := load32 m (mp + 4).
Definition mp_imcrp (m : mem) (mp : Z) : Z := m (mp + 12).
Definition conf_length (m : mem) (conf : Z) : Z := ld16 m (conf + 4).
Definition conf_version (m : mem) (conf : Z) : Z := m (conf + 6).
Definition conf_lapicaddr (m : mem) (conf : Z) : Z := load32 m (conf + 36).
Definition sizeof_mp : Z := 16.
Definition sizeof_mpconf : Z := 44.
Definition sizeof_mpproc : Z := 20.
Definition sizeof_mpioapic : Z := 8.

(** "_MP_" and "PCMP" *)
Definition MP_SIG : list Z := [95; 77; 80; 95].
Definition PCMP_SIG : list Z := [80; 67; 77; 80].

Fixpoint sum_loop (m : mem) (addr i : Z) (n : nat) (sum : Z) : Z :=
  match n with O => sum | S n => sum_loop m addr (i + 1) n (sum + m (addr + i)) end.
Definition sum (m : mem) (addr len : Z) : Z := u8 (sum_loop m addr 0 (Z.to_nat len) 0).

(** for(p = addr; p < e; p += sizeof(struct mp)): the n-th round. *)
Fixpoint mpsearch1_loop (m : mem) (n : nat) (p e : Z) : option Z :=
  match n with
  | O => None
  | S n =>
      if p <? e then
        if (memcmp (λ i, m (p + i)) (cstr MP_SIG) 4 =? 0) && (sum m p sizeof_mp =? 0) then Some p
        else mpsearch1_loop m n (p + sizeof_mp) e
      else None
  end.
Definition mpsearch1 (m : mem) (a len : Z) : option Z := mpsearch1_loop m (Z.to_nat len) a (a + len).

Definition mpsearch (m : mem) : option Z :=
  let bda := 1024 in
  let p := u32 (Z.shiftl (Z.lor (Z.shiftl (m (bda + 15)) 8) (m (bda + 14))) 4) in
  let r := if negb (p =? 0) then mpsearch1 m p 1024
           else mpsearch1 m (u32 (Z.lor (Z.shiftl (m (bda + 20)) 8) (m (bda + 19)) * 1024 - 1024)) 1024 in
  match r with Some mp => Some mp | None => mpsearch1 m 0xF0000 0x10000 end.

(** The floating pointer and the table. *)
Definition mpconfig (m : mem) : option (Z * Z) :=
  match mpsearch m with
  | None => None
  | Some mp =>
      let conf := mp_physaddr m mp in
      if conf =? 0 then None else
      if negb (memcmp (λ i, m (conf + i)) (cstr PCMP_SIG) 4 =? 0) then None else
      if negb (conf_version m conf =? 1) && negb (conf_version m conf =? 4) then None else
      if negb (sum m conf (conf_length m conf) =? 0) then None else
      Some (mp, conf)
  end.

(** The apicid of cpus[0] to cpus[ncpu-1], ioapicid and lapic. *)
Record mpst (D : Type) := Mpst { mp_cpus : list Z; mp_ioapicid : Z; mp_lapic : Z; mp_dev : D }.
Arguments Mpst {D}. Arguments mp_cpus {D}. Arguments mp_ioapicid {D}. Arguments mp_lapic {D}. Arguments mp_dev {D}.

Section mp.
Context {D : Type} `{Ports D}.
Context (m : mem).

Definition add_cpu (id : Z) (s : mpst D) : mpst D :=
  if (length (mp_cpus s) <? NCPU)%nat then Mpst (mp_cpus s ++ [id]) (mp_ioapicid s) (mp_lapic s) (mp_dev s) else s.
Definition set_ioapicid (id : Z) (s : mpst D) : mpst D := Mpst (mp_cpus s) id (mp_lapic s) (mp_dev s).
Definition set_mp_lapic (a : Z) (s : mpst D) : mpst D := Mpst (mp_cpus s) (mp_ioapicid s) a (mp_dev s).
Definition set_mp_dev (d : D) (s : mpst D) : mpst D := Mpst (mp_cpus s) (mp_ioapicid s) (mp_lapic s) d.

(** The loop over the entries, from conf + 1 to conf + conf->length; its result
    is ismp.  The break of the default case leaves the switch only. *)
Fixpoint mp_loop (fuel : nat) (p e : Z) (ismp : bool) : M (mpst D) bool :=
  if p <? e then
    match fuel with
    | O => undef "out of fuel"
    | S fuel =>
        if m p =? MPPROC then
          modify (add_cpu (m (p + 1)));; mp_loop fuel (p + sizeof_mpproc) e ismp
        else if m p =? MPIOAPIC then
          modify (set_ioapicid (m (p + 1)));; mp_loop fuel (p + sizeof_mpioapic) e ismp
        else if (m p =? MPBUS) || (m p =? MPIOINTR) || (m p =? MPLINTR) then mp_loop fuel (p + 8) e ismp
        else mp_loop fuel p e false
    end
  else mret ismp.

Definition mpinit (fuel : nat) : M (mpst D) unit :=
  match mpconfig m with
  | None => panic "Expect to run on an SMP"
  | Some (mp, conf) =>
      modify (set_mp_lapic (conf_lapicaddr m conf));;
      ismp ← mp_loop fuel (conf + sizeof_mpconf) (conf + conf_length m conf) true;
      if negb ismp then panic "Didn't find a suitable machine" else
      when (negb (mp_imcrp m mp =? 0))
        (zoom mp_dev set_mp_dev (outb 34 112;; x ← inb 35; outb 35 (Z.lor x 1)))
  end.

End mp.

(** ** The specification *)

(** The sum of [n] bytes. *)
Definition bsum (m : mem) (a : Z) (n : nat) : Z := foldr (λ i s, m (a + Z.of_nat i) + s) 0 (seq 0 n).

(** The bytes [bs] are at [a]. *)
Definition holds (m : mem) (a : Z) (bs : list Z) : Prop := ∀ i b, bs !! i = Some b → m (a + Z.of_nat i) = b.

(** A floating pointer structure: its signature, and bytes that add up to 0. *)
Definition valid_mp (m : mem) (p : Z) : Prop := holds m p MP_SIG ∧ bsum m p 16 mod 256 = 0.

(** Where it may be, in order: the first KB of the extended BIOS data area, or
    without one the last KB of base memory; then the BIOS ROM. *)
Definition ebda (m : mem) : Z := 16 * (256 * m 1039 + m 1038).
Definition base_end (m : mem) : Z := 1024 * (256 * m 1044 + m 1043).
Definition paragraphs (a : Z) (n : nat) : list Z := map (λ k, a + 16 * Z.of_nat k) (seq 0 n).
Definition candidates (m : mem) : list Z :=
  paragraphs (if ebda m =? 0 then u32 (base_end m - 1024) else ebda m) 64 ++ paragraphs 0xF0000 4096.

(** The first element of the list that is valid. *)
Inductive first_valid (m : mem) : list Z → option Z → Prop :=
  | fv_nil : first_valid m [] None
  | fv_here p l : valid_mp m p → first_valid m (p :: l) (Some p)
  | fv_later p l r : ¬ valid_mp m p → first_valid m l r → first_valid m (p :: l) r.

(** A configuration table: signature, version, and checksum over its length. *)
Record valid_conf (m : mem) (conf : Z) : Prop := {
  vc_sig : holds m conf PCMP_SIG;
  vc_version : conf_version m conf = 1 ∨ conf_version m conf = 4;
  vc_sum : bsum m conf (Z.to_nat (conf_length m conf)) mod 256 = 0
}.

(** The types of the entries that mpinit knows. *)
Definition known_types : list Z := [MPPROC; MPBUS; MPIOAPIC; MPIOINTR; MPLINTR].

(** The entries, with the bytes that mpinit does not look at. *)
Inductive mpentry := Eproc (apicid : Z) (rest : list Z) | Eioapic (id : Z) (rest : list Z) | Eother (kind : Z) (rest : list Z).

Definition entry_bytes (e : mpentry) : list Z :=
  match e with
  | Eproc id rest => MPPROC :: id :: rest
  | Eioapic id rest => MPIOAPIC :: id :: rest
  | Eother k rest => k :: rest
  end.
Definition entry_ok (e : mpentry) : Prop :=
  match e with
  | Eproc _ rest => length rest = 18%nat
  | Eioapic _ rest => length rest = 6%nat
  | Eother k rest => (k = MPBUS ∨ k = MPIOINTR ∨ k = MPLINTR) ∧ length rest = 7%nat
  end.

Definition table_bytes (es : list mpentry) : list Z := concat (map entry_bytes es).
Definition procs (es : list mpentry) : list Z := omap (λ e, match e with Eproc id _ => Some id | _ => None end) es.
Definition ioapics (es : list mpentry) : list Z := omap (λ e, match e with Eioapic id _ => Some id | _ => None end) es.

(** What mpinit keeps of the entries. *)
Definition recorded {D} (es : list mpentry) (s s' : mpst D) : Prop :=
  mp_cpus s' = take NCPU (mp_cpus s ++ procs es) ∧ mp_ioapicid s' = default (mp_ioapicid s) (list.last (ioapics es)) ∧
  mp_lapic s' = mp_lapic s ∧ mp_dev s' = mp_dev s.

(** ** The search *)

Lemma sum_loop_bsum m a n : ∀ i acc, sum_loop m a (Z.of_nat i) n acc = acc + foldr (λ i s, m (a + Z.of_nat i) + s) 0 (seq i n).
Proof.
  induction n as [|n IH]; intros i acc; simpl; [lia|]. replace (Z.of_nat i + 1) with (Z.of_nat (S i)) by lia. rewrite IH. lia.
Qed.

Lemma sum_zero m a len : 0 ≤ len → sum m a len = 0 ↔ bsum m a (Z.to_nat len) mod 256 = 0.
Proof. intros Hl. unfold sum, u8, bsum. change 0 with (Z.of_nat 0) at 1. by rewrite sum_loop_bsum, Z.add_0_l. Qed.

Lemma memcmp_holds m a sig : length sig = 4%nat → memcmp (λ i, m (a + i)) (cstr sig) 4 = 0 ↔ holds m a sig.
Proof.
  intros Hl. unfold memcmp. rewrite memcmp_loop_zero. change (Z.of_nat (Z.to_nat 4)) with 4. unfold holds. split.
  - intros He i b Hb. pose proof (lookup_lt_Some _ _ _ Hb). rewrite He by lia. unfold cstr, bget0.
    rewrite (proj2 (Z.ltb_ge _ _)), Nat2Z.id, Hb by lia. done.
  - intros Hh j Hj. unfold cstr, bget0. rewrite (proj2 (Z.ltb_ge _ _)) by lia.
    destruct (lookup_lt_is_Some_2 sig (Z.to_nat j)) as [b Hb]; [lia|]. rewrite Hb. cbn [default]. by rewrite <- (Hh _ _ Hb), Z2Nat.id by lia.
Qed.

Lemma mp_test m p : (memcmp (λ i, m (p + i)) (cstr MP_SIG) 4 =? 0) && (sum m p sizeof_mp =? 0) = true ↔ valid_mp m p.
Proof. rewrite andb_true_iff, !Z.eqb_eq, memcmp_holds, sum_zero by done. done. Qed.

Lemma mpsearch1_loop_first m k : ∀ n i a, (k ≤ n)%nat →
  first_valid m (map (λ k, a + 16 * Z.of_nat k) (seq i k)) (mpsearch1_loop m n (a + 16 * Z.of_nat i) (a + 16 * Z.of_nat (i + k))).
Proof.
  induction k as [|k IH]; intros n i a Hn.
  - rewrite Nat.add_0_r. destruct n; cbn [mpsearch1_loop seq map]; [constructor|]. rewrite Z.ltb_irrefl. constructor.
  - destruct n as [|n]; [lia|]. cbn [mpsearch1_loop seq map]. rewrite (proj2 (Z.ltb_lt _ _)) by lia.
    destruct (_ && _) eqn:E.
    + apply mp_test in E. by constructor.
    + apply fv_later; [by rewrite <- mp_test, E|]. replace (a + 16 * Z.of_nat i + sizeof_mp) with (a + 16 * Z.of_nat (S i)) by (unfold sizeof_mp; lia).
      replace (i + S k)%nat with (S i + k)%nat by lia. apply IH. lia.
Qed.

Lemma mpsearch1_first m a n : first_valid m (paragraphs a n) (mpsearch1 m a (16 * Z.of_nat n)).
Proof.
  unfold mpsearch1, paragraphs. pose proof (mpsearch1_loop_first m n (Z.to_nat (16 * Z.of_nat n)) 0 a ltac:(lia)) as F.
  by rewrite Z.add_0_r in F.
Qed.

Lemma first_valid_app m l1 l2 r1 r2 : first_valid m l1 r1 → first_valid m l2 r2 →
  first_valid m (l1 ++ l2) (match r1 with Some p => Some p | None => r2 end).
Proof. intros F1 F2. induction F1; simpl; [done | by constructor | by constructor]. Qed.

Lemma first_valid_fun m l r r' : first_valid m l r → first_valid m l r' → r = r'.
Proof. intros F. revert r'. induction F; intros r' F'; inversion F'; subst; try done. by apply IHF. Qed.

Lemma mpsearch_first m : wf_mem m → first_valid m (candidates m) (mpsearch m).
Proof.
  intros Hw. assert (∀ a b, Z.lor (Z.shiftl (m a) 8) (m b) = 256 * m a + m b) as El.
  { intros a b. rewrite lor_shiftl by (lia || apply Hw). change (2 ^ 8) with 256. lia. }
  assert (∀ a, 0 ≤ m a < 256) as Hb by (intros a; apply Hw).
  unfold mpsearch, candidates, ebda, base_end. cbv zeta. change (1024 + 15) with 1039. change (1024 + 14) with 1038.
  change (1024 + 20) with 1044. change (1024 + 19) with 1043. rewrite !El, Z.shiftl_mul_pow2 by lia. change (2 ^ 4) with 16.
  pose proof (Hb 1039). pose proof (Hb 1038). rewrite (u32_id ((256 * m 1039 + m 1038) * 16)) by (change (2 ^ 32) with 4294967296; lia).
  replace ((256 * m 1039 + m 1038) * 16) with (16 * (256 * m 1039 + m 1038)) by lia.
  replace ((256 * m 1044 + m 1043) * 1024) with (1024 * (256 * m 1044 + m 1043)) by lia.
  apply first_valid_app; [|exact (mpsearch1_first m 0xF0000 4096)].
  destruct (_ =? 0); cbn [negb]; exact (mpsearch1_first m _ 64).
Qed.

Lemma mpconfig_ok m mp conf : wf_mem m → first_valid m (candidates m) (Some mp) → mp_physaddr m mp = conf → conf ≠ 0 →
  valid_conf m conf → mpconfig m = Some (mp, conf).
Proof.
  intros Hw F <- Hne [V1 V2 V3]. unfold mpconfig. rewrite (first_valid_fun _ _ _ _ (mpsearch_first m Hw) F). cbv zeta.
  rewrite (proj2 (Z.eqb_neq _ _)) by done. apply memcmp_holds in V1 as ->; [|done]. cbn [negb Z.eqb].
  assert (0 ≤ conf_length m (mp_physaddr m mp)) as Hl.
  { unfold conf_length, ld16. pose proof (Hw (mp_physaddr m mp + 4)). pose proof (Hw (mp_physaddr m mp + 4 + 1)). unfold is_byte in *. lia. }
  apply sum_zero in V3 as ->; [|done]. destruct V2 as [-> | ->]; done.
Qed.

(** ** The table *)

Lemma entry_size e : entry_ok e → (8 ≤ length (entry_bytes e))%nat.
Proof. destruct e; simpl; [lia | lia |]. intros [_ ->]. lia. Qed.

Lemma holds_app m a l1 l2 : holds m a (l1 ++ l2) → holds m a l1 ∧ holds m (a + Z.of_nat (length l1)) l2.
Proof.
  intros Hh. split; intros i b Hb.
  - apply Hh. by rewrite lookup_app_l by (by eapply lookup_lt_Some).
  - replace (a + Z.of_nat (length l1) + Z.of_nat i) with (a + Z.of_nat (length l1 + i)) by lia. apply Hh.
    rewrite lookup_app_r by lia. by replace (length l1 + i - length l1)%nat with i by lia.
Qed.

(** The interrupt mode configuration register, as the specification has it: the
    selector at port 0x22 and, with 0x70 selected, the register at 0x23. *)
Class Imcr {D : Type} `{Ports D} (selector imcr : D → Z) := {
  imcr_select : ∀ v d, wp (port_out 34 v) (λ _ d', selector d' = v ∧ imcr d' = imcr d) d;
  imcr_read : ∀ d, selector d = 112 → wp (port_in 35) (λ v d', v = imcr d ∧ selector d' = selector d ∧ imcr d' = imcr d) d;
  imcr_write : ∀ v d, selector d = 112 → wp (port_out 35 v) (λ _ d', imcr d' = v) d
}.

Section walk.
Context {D : Type} `{Ports D}.
Context (m : mem).
#[local] Notation mps := (mpst D).

(** One entry. *)
Lemma mp_loop_entry x p e ismp fuel (s : mps) : entry_ok x → holds m p (entry_bytes x) → p + Z.of_nat (length (entry_bytes x)) ≤ e →
  (length (mp_cpus s) ≤ NCPU)%nat → ∃ s1, (length (mp_cpus s1) ≤ NCPU)%nat ∧
    (∀ es s', recorded es s1 s' → recorded (x :: es) s s') ∧
    mp_loop m (S fuel) p e ismp s = mp_loop m fuel (p + Z.of_nat (length (entry_bytes x))) e ismp s1.
Proof.
  intros Hx Hh He Hn. pose proof (entry_size x Hx).
  assert (∀ b0 r, entry_bytes x = b0 :: r → m p = b0) as Hb0.
  { intros b0 r E. rewrite E in Hh. by rewrite <- (Hh 0%nat b0 eq_refl), Z.add_0_r. }
  assert (∀ b0 b1 r, entry_bytes x = b0 :: b1 :: r → m (p + 1) = b1) as Hb1.
  { intros b0 b1 r E. rewrite E in Hh. exact (Hh 1%nat b1 eq_refl). }
  cbn [mp_loop]. rewrite (proj2 (Z.ltb_lt _ _)) by lia. destruct x as [id rest|id rest|k rest]; cbn [entry_bytes length] in *.
  - rewrite (Hb0 _ _ eq_refl), (Hb1 _ _ _ eq_refl). cbn in Hx. exists (add_cpu id s). split_and!.
    + unfold add_cpu. destruct (Nat.ltb_spec (length (mp_cpus s)) NCPU); cbn; rewrite ?length_app; cbn; lia.
    + intros es s' (R1 & R2 & R3 & R4). unfold add_cpu in *.
      destruct (Nat.ltb_spec (length (mp_cpus s)) NCPU); cbn [mp_cpus mp_ioapicid mp_lapic mp_dev] in R1, R2, R3, R4; (split; [|done]); rewrite R1; cbn [procs omap list_omap].
      * by rewrite <- app_assoc.
      * by rewrite !take_app_le by lia.
    + unfold mbind, M_bind, modify. cbn. by rewrite Hx.
  - rewrite (Hb0 _ _ eq_refl), (Hb1 _ _ _ eq_refl). cbn in Hx. exists (set_ioapicid id s). split_and!.
    + done.
    + intros es s' (R1 & R2 & R3 & R4). split; [done|]. split; [|done]. rewrite R2. cbn [ioapics omap list_omap].
      fold (ioapics es). rewrite last_cons. by destruct (list.last (ioapics es)).
    + unfold mbind, M_bind, modify. cbn. by rewrite Hx.
  - rewrite (Hb0 _ _ eq_refl). destruct Hx as [Hk Hl]. exists s. split_and!; [done | done |].
    rewrite Hl. by destruct Hk as [-> |[-> | ->]].
Qed.

(** The loop, over entries it knows. *)
Lemma mp_loop_entries es : ∀ p e ismp fuel (s : mps), Forall entry_ok es → holds m p (table_bytes es) →
  p + Z.of_nat (length (table_bytes es)) ≤ e → (length (mp_cpus s) ≤ NCPU)%nat →
  ∃ s', recorded es s s' ∧ mp_loop m (length es + fuel) p e ismp s = mp_loop m fuel (p + Z.of_nat (length (table_bytes es))) e ismp s'.
Proof.
  induction es as [|x es IH]; intros p e ismp fuel s Hok Hh He Hn.
  - exists s. split; [|by rewrite Z.add_0_r]. split; [|done]. rewrite app_nil_r. by rewrite take_ge.
  - apply list.Forall_cons in Hok as [Hx Hok]. change (table_bytes (x :: es)) with (entry_bytes x ++ table_bytes es) in Hh, He |- *.
    rewrite length_app in He |- *. apply holds_app in Hh as [Hhx Hhe].
    destruct (mp_loop_entry x p e ismp (length es + fuel) s Hx Hhx ltac:(lia) Hn) as (s1 & Hn1 & Hr & E).
    destruct (IH (p + Z.of_nat (length (entry_bytes x))) e ismp fuel s1 Hok Hhe ltac:(lia) Hn1) as (s' & Rs & Es).
    exists s'. split; [by apply Hr|]. cbn [length Nat.add]. rewrite E, Es. rewrite Nat2Z.inj_add. by rewrite Z.add_assoc.
Qed.

(** On a byte that is not the type of an entry the loop makes no progress. *)
Lemma mp_loop_stuck p e fuel : p < e → m p ∉ known_types → ∀ ismp (s : mps), mp_loop m fuel p e ismp s = Undef "out of fuel".
Proof.
  intros Hp Hk. unfold known_types in Hk. rewrite !not_elem_of_cons in Hk. destruct Hk as (K1 & K2 & K3 & K4 & K5 & _).
  induction fuel as [|fuel IH]; intros ismp s; cbn [mp_loop]; rewrite (proj2 (Z.ltb_lt _ _)) by done; [done|].
  rewrite !(proj2 (Z.eqb_neq _ _)) by done. apply IH.
Qed.

(** What is not enough rounds stays so with fewer. *)
Lemma mp_loop_fewer k fuel : ∀ p e ismp (s : mps), mp_loop m (k + fuel) p e ismp s = Undef "out of fuel" →
  mp_loop m fuel p e ismp s = Undef "out of fuel".
Proof.
  induction fuel as [|fuel IH]; intros p e ismp s.
  - rewrite Nat.add_0_r. destruct k; [done|]. cbn [mp_loop]. by destruct (p <? e).
  - rewrite Nat.add_succ_r. cbn [mp_loop]. destruct (p <? e); [|done]. unfold mbind, M_bind, modify.
    destruct (m p =? MPPROC); [apply IH|]. destruct (m p =? MPIOAPIC); [apply IH|]. destruct (_ || _); apply IH.
Qed.

(** The table at [conf] holds the entries [es], and more up to its length. *)
Record table_at (conf : Z) (es : list mpentry) (extra : Z) : Prop := {
  ta_ok : Forall entry_ok es;
  ta_bytes : holds m (conf + sizeof_mpconf) (table_bytes es);
  ta_length : conf_length m conf = sizeof_mpconf + Z.of_nat (length (table_bytes es)) + extra
}.

(** The register with its lowest bit set: the external interrupts are masked. *)
Lemma imcr_mask selector imcr `{!Imcr selector imcr} d :
  wp (outb 34 112;; x ← inb 35; outb 35 (Z.lor x 1)) (λ _ d', imcr d' = u8 (Z.lor (u8 (imcr d)) 1)) d.
Proof.
  unfold outb, inb. wp_step. change (u8 112) with 112. eapply wp_mono; [apply (imcr_select 112)|]. intros [] d1 [S1 I1]. wp_steps.
  eapply wp_mono; [by apply imcr_read|]. intros x d2 (-> & S2 & I2). wp_steps.
  eapply wp_mono; [apply imcr_write; by rewrite S2|]. intros [] d3 ->. by rewrite I1.
Qed.


(** An entry of another type: where such an entry follows the ones mpinit
    knows, it does not terminate, for no number of rounds: the break of the
    default case leaves the switch and not the loop, and the pointer is not
    advanced; the panic for an unsuitable machine that ismp = 0 asks for is not
    reached. *)
Theorem mpinit_unknown_entry fuel mp conf es extra (s : mps) :
  wf_mem m → first_valid m (candidates m) (Some mp) → mp_physaddr m mp = conf → conf ≠ 0 → valid_conf m conf →
  table_at conf es extra → 0 < extra → mp_cpus s = [] →
  m (conf + sizeof_mpconf + Z.of_nat (length (table_bytes es))) ∉ known_types →
  mpinit m fuel s = Undef "out of fuel".
Proof.
  intros Hw F Hc Hne Vc [T1 T2 T3] He Hn Hk. unfold mpinit. rewrite (mpconfig_ok m mp conf) by done.
  destruct (mp_loop_entries es (conf + sizeof_mpconf) (conf + conf_length m conf) true fuel
    (set_mp_lapic (conf_lapicaddr m conf) s) T1 T2 ltac:(lia) ltac:(cbn; rewrite Hn; unfold NCPU; cbn; lia)) as (s' & _ & E).
  rewrite (mp_loop_stuck (conf + sizeof_mpconf + _)) in E by (lia || done). apply mp_loop_fewer in E. cbv [mbind M_bind modify] in E |- *. by rewrite E.
Qed.

End walk.

(** ** An example *)

(** A memory with the bytes [l] at the start of the BIOS ROM, and 0 elsewhere. *)
Definition rom (l : list Z) : mem := λ a, if (a <? 0xF0000) || (0xF1000 <=? a) then 0 else default 0 (l !! Z.to_nat (a - 0xF0000)).

Lemma rom_wf l : Forall is_byte l → wf_mem (rom l).
Proof.
  intros Hl a. unfold rom. destruct (_ || _); [done|]. destruct (l !! _) eqn:E; cbn [default]; [|done]. by eapply (list.Forall_lookup_1 _ _ _ _ Hl).
Qed.

Lemma rom_holds l k bs : (length l <=? 4096)%nat = true → take (length bs) (drop k l) = bs → holds (rom l) (0xF0000 + Z.of_nat k) bs.
Proof.
  intros Hl%Nat.leb_le Hb i b Hi. rewrite <- Hb in Hi. apply lookup_take_Some in Hi as [Hi _]. rewrite lookup_drop in Hi.
  pose proof (lookup_lt_Some _ _ _ Hi). unfold rom. rewrite (proj2 (Z.ltb_ge _ _)), (proj2 (Z.leb_gt _ _)) by lia. cbn [orb].
  replace (Z.to_nat _) with (k + i)%nat by lia. by rewrite Hi.
Qed.

(** A floating pointer structure, with the IMCR, and after it a configuration
    table with the bytes [t] and the checksum [c]. *)
Definition rom_bytes (c : Z) (t : list Z) : list Z :=
  MP_SIG ++ [16; 0; 15; 0; 1; 4; 1; 0; 128; 0; 0; 0] ++
  PCMP_SIG ++ [44 + Z.of_nat (length t); 0; 4; c] ++ replicate 28 0 ++ [0; 0; 224; 254; 0; 0; 0; 0] ++ t.

Definition two_cpus : list mpentry := [Eproc 0 (replicate 18 0); Eproc 1 (replicate 18 0); Eother MPBUS (replicate 7 0); Eioapic 2 (replicate 6 0)].

Lemma rom_conf l : (length l <=? 4096)%nat = true → take 4 (drop 16 l) = PCMP_SIG →
  conf_version (rom l) 0xF0010 = 4 → bsum (rom l) 0xF0010 (Z.to_nat (conf_length (rom l) 0xF0010)) mod 256 = 0 → valid_conf (rom l) 0xF0010.
Proof. intros Hl Hs Hv Hc. split; [by apply (rom_holds l 16) | by right | done]. Qed.

Lemma rom_first c t : Forall is_byte (rom_bytes c t) → mpsearch (rom (rom_bytes c t)) = Some 0xF0000 →
  wf_mem (rom (rom_bytes c t)) ∧ first_valid (rom (rom_bytes c t)) (candidates (rom (rom_bytes c t))) (Some 0xF0000).
Proof. intros Hl E. split; [by apply rom_wf|]. rewrite <- E. by apply mpsearch_first, rom_wf. Qed.

(** A register of the kind that [Imcr] describes, with its selector. *)
#[local] Instance imcr_ports : Ports (Z * Z) := {|
  port_in := λ p s, Ok (if (p =? 35) && (s.1 =? 112) then s.2 else 0) s;
  port_out := λ p v s, Ok tt (if p =? 34 then (v, s.2) else if (p =? 35) && (s.1 =? 112) then (s.1, v) else s);
  port_in_bytes := λ _ n s, Ok (replicate n 0) s;
  port_out_bytes := λ _ _ s, Ok tt s
|}.

#[local] Instance imcr_ports_laws : Imcr fst snd.
Proof. split; cbv [wp port_in port_out imcr_ports]; [done | |]; intros; rewrite ?H; cbn; rewrite ?H; done. Qed.

(** The table with the checksum [c] and the bytes [t] is one of [es], where [extra] bytes follow. *)
Lemma rom_table c t es extra : Forall entry_ok es → (length (rom_bytes c t) <=? 4096)%nat = true →
  take (length (table_bytes es)) (drop 60 (rom_bytes c t)) = table_bytes es →
  conf_length (rom (rom_bytes c t)) 0xF0010 = sizeof_mpconf + Z.of_nat (length (table_bytes es)) + extra →
  table_at (rom (rom_bytes c t)) 0xF0010 es extra.
Proof. intros He Hl Ht Hc. split; [done | by apply (rom_holds _ 60) | done]. Qed.


(** Two processors, and then an entry of type 9. *)
Definition odd_table : list Z := table_bytes two_cpus ++ 9 :: replicate 7 0.

Example mpinit_unknown_entry_witness :
  mpinit (rom (rom_bytes 115 odd_table)) 1000 (Mpst [] 0 0 (0, 0)) = Undef "out of fuel".
Proof.
  destruct (rom_first 115 odd_table) as [Hw Hf]; [by repeat constructor | vm_compute; reflexivity |].
  apply (mpinit_unknown_entry (rom (rom_bytes 115 odd_table)) 1000 0xF0000 0xF0010 two_cpus 8 (Mpst [] 0 0 (0, 0)) Hw Hf eq_refl ltac:(done)
    (rom_conf (rom_bytes 115 odd_table) eq_refl eq_refl eq_refl eq_refl)
    (rom_table 115 odd_table two_cpus 8 ltac:(repeat constructor) eq_refl eq_refl eq_refl) eq_refl eq_refl).
  vm_compute. intros Hin. repeat (apply elem_of_cons in Hin as [Hin|Hin]; [done|]). by apply list.not_elem_of_nil in Hin.
Defined.
