(* ===== verification/Apic.v ===== *)
(** * Apic: the interrupt controllers (ioapic.c, picirq.c, lapic.c)

    The registers of the two APICs are words of memory that a device answers
    for; [Mmio] is the interface of such a device, as [Ports] is the one of the
    ports.  What the controllers do with their registers is given by two
    classes, after the data sheets.

    Shown: after ioapicinit every interrupt is masked, and after any number of
    ioapicenable exactly the interrupts named are delivered, each with the
    vector trap expects, to the processor named last; lapicinit terminates and
    leaves the local APIC enabled, its timer running and its lines masked; and
    lapicstartap makes the processor named, and no other, run at the address. *)

From Stdlib Require Import ZArith Lia Bool.
From stdpp Require Import base option list strings numbers.
From S2P Require Import Prelude Cstring Kalloc Ports.

#[local] Open Scope string_scope.
#[local] Open Scope list_scope.
#[local] Open Scope Z_scope.

(** A word of a device at a physical address. *)
Class Mmio (D : Type) := {
  mm_read : Z → M D Z;
  mm_write : Z → Z → M D unit
}.

(** traps.h *)
Definition T_IRQ0 : Z := 32.
Definition IRQ_TIMER : Z := 0.
Definition IRQ_ERROR : Z := 19.
Definition IRQ_SPURIOUS : Z := 31.

(** ** ioapic.c and picirq.c *)

Definition IOAPIC : Z := 0xFEC00000.
Definition REG_ID : Z := 0.
Definition REG_VER : Z := 1.
Definition REG_TABLE : Z := 16.
Definition INT_DISABLED : Z := 0x10000.

Section ioapic.
Context {D : Type} `{Mmio D}.

(** struct ioapic: reg is its first word and data its fifth. *)
Definition ioapicread (reg : Z) : M D Z := mm_write IOAPIC reg;; mm_read (IOAPIC + 16).
Definition ioapicwrite (reg data : Z) : M D unit := mm_write IOAPIC reg;; mm_write (IOAPIC + 16) data.

Definition ioapicinit (cprintf : string → M D unit) (ioapicid : Z) : M D unit :=
  v ← ioapicread REG_VER;
  let maxintr := Z.land (Z.shiftr v 16) 255 in
  v ← ioapicread REG_ID;
  let id := Z.shiftr v 24 in
  when (negb (id =? ioapicid)) (cprintf "ioapicinit: id isn't equal to ioapicid; not a MP");;
  foreach (seq 0 (Z.to_nat (maxintr + 1))) (λ n,
    let i := Z.of_nat n in
    ioapicwrite (REG_TABLE + 2 * i) (Z.lor INT_DISABLED (T_IRQ0 + i));;
    ioapicwrite (REG_TABLE + 2 * i + 1) 0).

Definition ioapicenable (irq cpunum : Z) : M D unit :=
  ioapicwrite (REG_TABLE + 2 * irq) (T_IRQ0 + irq);;
  ioapicwrite (REG_TABLE + 2 * irq + 1) (u32 (Z.shiftl cpunum 24)).
End ioapic.

Definition IO_PIC1 : Z := 32.
Definition IO_PIC2 : Z := 160.
Definition picinit {D} `{Ports D} : M D unit := outb (IO_PIC1 + 1) 255;; outb (IO_PIC2 + 1) 255.

(** ** lapic.c *)

(** The registers, as indices of words. *)
Definition ID : Z := 0x20 / 4.
Definition VER : Z := 0x30 / 4.
Definition TPR : Z := 0x80 / 4.
Definition EOI : Z := 0xB0 / 4.
Definition SVR : Z := 0xF0 / 4.
Definition ESR : Z := 0x280 / 4.
Definition ICRLO : Z := 0x300 / 4.
Definition ICRHI : Z := 0x310 / 4.
Definition TIMER : Z := 0x320 / 4.
Definition PCINT : Z := 0x340 / 4.
Definition LINT0 : Z := 0x350 / 4.
Definition LINT1 : Z := 0x360 / 4.
Definition ERROR : Z := 0x370 / 4.
Definition TICR : Z := 0x380 / 4.
Definition TDCR : Z := 0x3E0 / 4.
Definition ENABLE : Z := 0x100.
Definition INIT : Z := 0x500.
Definition STARTUP : Z := 0x600.
Definition DELIVS : Z := 0x1000.
Definition ASSERT : Z := 0x4000.
Definition LEVEL : Z := 0x8000.
Definition BCAST : Z := 0x80000.
Definition X1 : Z := 0xB.
Definition PERIODIC : Z := 0x20000.
Definition MASKED : Z := 0x10000.

(** The memory of the machine, and its devices. *)
Record mach (D : Type) := Mach { mc_mem : mem; mc_dev : D }.
Arguments Mach {D}. Arguments mc_mem {D}. Arguments mc_dev {D}.

Section lapic.
Context {D : Type} `{Mmio D} `{Ports D}.
(** The pointer, 0 until mpinit has set it. *)
Context (lapic : Z).

Definition lapicw (index value : Z) : M D unit :=
  mm_write (lapic + 4 * index) value;; mm_read (lapic + 4 * ID);; mret tt.
Definition lapicr (index : Z) : M D Z := mm_read (lapic + 4 * index).

(** while(lapic[ICRLO] & DELIVS) *)
Fixpoint wait_delivery (fuel : nat) : M D unit :=
  match fuel with
  | O => undef "out of fuel"
  | S fuel => v ← lapicr ICRLO; if negb (Z.land v DELIVS =? 0) then wait_delivery fuel else mret tt
  end.

Definition lapicinit (fuel : nat) : M D unit :=
  if lapic =? 0 then mret tt else
  lapicw SVR (Z.lor ENABLE (T_IRQ0 + IRQ_SPURIOUS));;
  lapicw TDCR X1;;
  lapicw TIMER (Z.lor PERIODIC (T_IRQ0 + IRQ_TIMER));;
  lapicw TICR 10000000;;
  lapicw LINT0 MASKED;;
  lapicw LINT1 MASKED;;
  v ← lapicr VER;
  when (4 <=? Z.land (Z.shiftr v 16) 255) (lapicw PCINT MASKED);;
  lapicw ERROR (T_IRQ0 + IRQ_ERROR);;
  lapicw ESR 0;;
  lapicw ESR 0;;
  lapicw EOI 0;;
  lapicw ICRHI 0;;
  lapicw ICRLO (Z.lor (Z.lor BCAST INIT) LEVEL);;
  wait_delivery fuel;;
  lapicw TPR 0.

Definition lapicid : M D Z :=
  if lapic =? 0 then mret 0 else v ← lapicr ID; mret (Z.shiftr v 24).

Definition lapiceoi : M D unit := when (negb (lapic =? 0)) (lapicw EOI 0).

(** microdelay does nothing. *)
Definition microdelay (us : Z) : M D unit := mret tt.

Definition CMOS_PORT : Z := 0x70.
Definition on_dev {A} (m : M D A) : M (mach D) A := zoom mc_dev (λ d s, Mach (mc_mem s) d) m.
Definition store16 (m : mem) (a v : Z) : mem := store8 (store8 m a (v mod 256)) (a + 1) (v / 256 mod 256).

Definition startup_ipi (apicid addr : Z) : M D unit :=
  lapicw ICRHI (Z.shiftl apicid 24);;
  lapicw ICRLO (Z.lor STARTUP (Z.shiftr addr 12));;
  microdelay 200.

Definition lapicstartap (apicid addr : Z) : M (mach D) unit :=
  on_dev (outb CMOS_PORT 15;; outb (CMOS_PORT + 1) 10);;
  let wrv := P2V (Z.lor (Z.shiftl 0x40 4) 0x67) in
  modify (λ s, Mach (store16 (mc_mem s) wrv 0) (mc_dev s));;
  modify (λ s, Mach (store16 (mc_mem s) (wrv + 2) (Z.shiftr addr 4)) (mc_dev s));;
  on_dev (lapicw ICRHI (Z.shiftl apicid 24);;
          lapicw ICRLO (Z.lor (Z.lor INIT LEVEL) ASSERT);;
          microdelay 200;;
          lapicw ICRLO (Z.lor INIT LEVEL);;
          microdelay 100;;
          foreach [0; 1] (λ _, startup_ipi apicid addr)).
End lapic.

(** ** The routing of interrupts *)

(** An entry of the redirection table, from its low and its high register. *)
Record redir := Redir { rd_vector : Z; rd_masked : bool; rd_level : bool; rd_low : bool; rd_dest : Z }.
Definition redir_of (lo hi : Z) : redir :=
  Redir (Z.land lo 255) (Z.testbit lo 16) (Z.testbit lo 15) (Z.testbit lo 13) (Z.shiftr hi 24).

(** The I/O APIC: a selector, and the registers behind it; those of the table
    of [maxintr + 1] entries hold what is written to them. *)
Class IoApic {D} `{Mmio D} (maxintr : Z) (sel : D → Z) (regs : D → Z → Z) := {
  io_select v d : wp (mm_write IOAPIC v) (λ _ d', sel d' = v ∧ ∀ r, regs d' r = regs d r) d;
  io_data d : wp (mm_read (IOAPIC + 16)) (λ v d', v = regs d (sel d) ∧ sel d' = sel d ∧ ∀ r, regs d' r = regs d r) d;
  io_store v d : REG_TABLE ≤ sel d < REG_TABLE + 2 * (maxintr + 1) →
    wp (mm_write (IOAPIC + 16) v) (λ _ d', ∀ r, regs d' r = if r =? sel d then v else regs d r) d;
  io_version d : Z.land (Z.shiftr (regs d REG_VER) 16) 255 = maxintr
}.

Lemma byte_testbit v n : 0 ≤ v < 256 → 8 ≤ n → Z.testbit v n = false.
Proof.
  intros Hv Hn. apply Z.bits_above_log2; [lia|]. destruct (Z.eq_dec v 0) as [->|]; [cbn; lia|]. apply Z.log2_lt_pow2; [lia|].
  apply Z.lt_le_trans with (2 ^ 8); [lia | apply Z.pow_le_mono_r; lia].
Qed.

Section routing.
Context {D : Type} `{Mmio D} (maxintr : Z) (sel : D → Z) (regs : D → Z → Z) `{!IoApic maxintr sel regs}.

(** The entry of interrupt [i]. *)
Definition route (d : D) (i : Z) : redir := redir_of (regs d (REG_TABLE + 2 * i)) (regs d (REG_TABLE + 2 * i + 1)).

Definition masked_route (i : Z) : redir := Redir (T_IRQ0 + i) true false false 0.
Definition open_route (i cpu : Z) : redir := Redir (T_IRQ0 + i) false false false cpu.

Lemma wp_ioapicwrite reg v (Q : unit → D → Prop) d : REG_TABLE ≤ reg < REG_TABLE + 2 * (maxintr + 1) →
  (∀ d', (∀ r, regs d' r = if r =? reg then v else regs d r) → Q tt d') → wp (ioapicwrite reg v) Q d.
Proof.
  intros Hr HQ. unfold ioapicwrite. wp_step. eapply wp_mono; [apply io_select|]. intros [] d1 [S1 R1].
  eapply wp_mono; [apply io_store; by rewrite S1|]. intros [] d2 R2. apply HQ. intros r. by rewrite R2, S1, R1.
Qed.

Lemma wp_ioapicread reg (Q : Z → D → Prop) d :
  (∀ d', (∀ r, regs d' r = regs d r) → Q (regs d reg) d') → wp (ioapicread reg) Q d.
Proof.
  intros HQ. unfold ioapicread. wp_step. eapply wp_mono; [apply io_select|]. intros [] d1 [S1 R1].
  eapply wp_mono; [apply io_data|]. intros v d2 (-> & S2 & R2). rewrite S1, R1. apply HQ. intros r. by rewrite R2, R1.
Qed.

(** Both registers of an entry written. *)
Lemma wp_entry i lo hi (Q : unit → D → Prop) d : 0 ≤ i ≤ maxintr →
  (∀ d', (∀ j, route d' j = if j =? i then redir_of lo hi else route d j) → Q tt d') →
  wp (ioapicwrite (REG_TABLE + 2 * i) lo;; ioapicwrite (REG_TABLE + 2 * i + 1) hi) Q d.
Proof.
  intros Hi HQ. unfold REG_TABLE in *. wp_step. apply wp_ioapicwrite; [unfold REG_TABLE; lia|]. intros d1 R1. apply wp_ioapicwrite; [unfold REG_TABLE; lia|].
  intros d2 R2. apply HQ. intros j. unfold route, REG_TABLE. rewrite !R2, !R1. destruct (Z.eqb_spec j i) as [->|].
  - rewrite !Z.eqb_refl. by rewrite (proj2 (Z.eqb_neq (16 + 2 * i) (16 + 2 * i + 1))) by lia.
  - by rewrite !(proj2 (Z.eqb_neq _ _)) by lia.
Qed.

Lemma redir_masked i : 0 ≤ i < 224 → redir_of (Z.lor INT_DISABLED (T_IRQ0 + i)) 0 = masked_route i.
Proof.
  intros Hi. unfold redir_of, masked_route, INT_DISABLED, T_IRQ0. set (v := 32 + i). assert (0 ≤ v < 256) as Hv by lia.
  rewrite Z.land_lor_distr_l, !Z.lor_spec, !(byte_testbit v) by lia. change (Z.land 0x10000 255) with 0. rewrite Z.lor_0_l.
  f_equal. change 255 with (Z.ones 8). rewrite Z.land_ones by lia. apply Z.mod_small. lia.
Qed.

Lemma redir_open i cpu : 0 ≤ i < 224 → 0 ≤ cpu < 256 → redir_of (T_IRQ0 + i) (u32 (Z.shiftl cpu 24)) = open_route i cpu.
Proof.
  intros Hi Hc. unfold redir_of, open_route, T_IRQ0. set (v := 32 + i). assert (0 ≤ v < 256) as Hv by lia.
  rewrite !(byte_testbit v) by lia. f_equal.
  - change 255 with (Z.ones 8). rewrite Z.land_ones by lia. apply Z.mod_small. lia.
  - rewrite Z.shiftl_mul_pow2 by lia. rewrite u32_id by lia. rewrite Z.shiftr_div_pow2 by lia. apply Z.div_mul. lia.
Qed.

(** Every entry of the table masked. *)
Lemma wp_ioapicinit cprintf ioapicid d : 0 ≤ maxintr < 224 → (∀ msg d, wp (cprintf msg) (λ _ d', ∀ r, regs d' r = regs d r) d) →
  wp (ioapicinit cprintf ioapicid) (λ _ d', ∀ i, 0 ≤ i ≤ maxintr → route d' i = masked_route i) d.
Proof.
  intros Hmax Hpr. unfold ioapicinit. wp_step. apply wp_ioapicread. intros d1 _. cbv zeta. rewrite io_version. wp_step.
  apply wp_ioapicread. intros d2 _. wp_step. apply (wp_mono _ (λ _ _, True)).
  { destruct (negb _); cbn [when]; [by eapply wp_mono; [apply Hpr|] | by wp_step]. }
  intros [] d3 _. apply (wp_foreach (λ done d', ∀ n, n ∈ done → route d' (Z.of_nat n) = masked_route (Z.of_nat n))).
  - intros n Hn. by apply list.not_elem_of_nil in Hn.
  - intros l1 n l2 d' E Hd'. assert (n < Z.to_nat (maxintr + 1))%nat.
    { assert (n ∈ seq 0 (Z.to_nat (maxintr + 1))) as Hin by (rewrite E; apply elem_of_app; right; by left). apply elem_of_seq in Hin. lia. }
    apply wp_entry; [lia|]. intros d2' R. intros k Hk. rewrite R. destruct (Z.eqb_spec (Z.of_nat k) (Z.of_nat n)) as [Ek|].
    + rewrite redir_masked by lia. by rewrite Ek.
    + apply Hd'. apply elem_of_app in Hk as [Hk|Hk]; [done|]. apply list_elem_of_singleton in Hk. lia.
  - intros d' Hd' i Hi. specialize (Hd' (Z.to_nat i)). rewrite Z2Nat.id in Hd' by lia. apply Hd'. apply elem_of_seq. lia.
Qed.

(** Where the interrupts that [l] enables go: the last word on [i] counts. *)
Definition routed (l : list (Z * Z)) (i : Z) : redir :=
  foldl (λ r '(irq, cpu), if i =? irq then open_route i cpu else r) (masked_route i) l.

(** C38. Interrupt routing: ioapicinit, followed by any calls of ioapicenable,
    leaves each interrupt masked that none of them named, and every other one
    enabled, edge triggered and active high, with the vector T_IRQ0 + irq that
    trap dispatches on, delivered to the processor of the last call. *)
Theorem interrupts_routed cprintf ioapicid l d :
  0 ≤ maxintr < 224 → (∀ msg d, wp (cprintf msg) (λ _ d', ∀ r, regs d' r = regs d r) d) →
  Forall (λ '(irq, cpu), 0 ≤ irq ≤ maxintr ∧ 0 ≤ cpu < 256) l →
  wp (ioapicinit cprintf ioapicid;; foreach l (λ '(irq, cpu), ioapicenable irq cpu))
    (λ _ d', ∀ i, 0 ≤ i ≤ maxintr → route d' i = routed l i) d.
Proof.
  intros Hmax Hpr Hl. wp_step. eapply wp_mono; [by apply wp_ioapicinit|]. intros [] d1 R1.
  apply (wp_foreach (λ done d', ∀ i, 0 ≤ i ≤ maxintr → route d' i = routed done i)); [done | | done].
  intros l1 [irq cpu] l2 d' E Hd'. rewrite E, list.Forall_app, list.Forall_cons in Hl. destruct Hl as (_ & [Hirq Hcpu] & _).
  apply wp_entry; [done|]. intros d2 R2 i Hi. unfold routed. rewrite foldl_app. cbn [foldl]. fold (routed l1 i).
  rewrite R2, redir_open by lia. destruct (Z.eqb_spec i irq) as [->|]; [done | by apply Hd'].
Qed.
End routing.

(** ** The local APIC *)

(** The state of another processor: not started, reset and waiting for the
    startup message, or started at an address. *)
Inductive ap_state := ApOff | ApWait | ApRun (pc : Z).

(** The message in the two halves of the command register: bits 8 to 10 of the
    low half are the mode, 14 the level, 18 and 19 the shorthand; the upper byte
    of the high half is the destination.  A processor that waits starts at the
    page the low byte names; for others a startup message has no effect. *)
Definition ipi (hi lo : Z) (ap : Z → ap_state) (id : Z) : ap_state :=
  let shorthand := Z.land (Z.shiftr lo 18) 3 in
  let mode := Z.land (Z.shiftr lo 8) 7 in
  if (if shorthand =? 0 then id =? Z.shiftr hi 24 else shorthand =? 2) then
    if mode =? 5 then if Z.testbit lo 14 then ApWait else ap id
    else if mode =? 6 then match ap id with ApWait => ApRun (4096 * Z.land lo 255) | a => a end
    else ap id
  else ap id.

(** The registers that hold what is written to them. *)
Definition plain : list Z := [SVR; TDCR; TIMER; TICR; LINT0; LINT1; PCINT; ERROR; TPR].

(** The local APIC at [lapic]: its plain registers, the high half of the command
    register, the reads until a message is delivered, and the other processors. *)
Class LocalApic {D} `{Mmio D} (lapic : Z) (bound : nat) (lregs : D → Z → Z) (icrhi : D → Z) (busy : D → nat) (ap : D → Z → ap_state) := {
  la_plain i v d : i ∈ plain → wp (mm_write (lapic + 4 * i) v) (λ _ d',
    (∀ j, lregs d' j = if j =? i then v else lregs d j) ∧ icrhi d' = icrhi d ∧ busy d' = busy d ∧ ∀ id, ap d' id = ap d id) d;
  la_other i v d : i = EOI ∨ i = ESR → wp (mm_write (lapic + 4 * i) v) (λ _ d',
    (∀ j, lregs d' j = lregs d j) ∧ icrhi d' = icrhi d ∧ busy d' = busy d ∧ ∀ id, ap d' id = ap d id) d;
  la_icrhi v d : wp (mm_write (lapic + 4 * ICRHI) v) (λ _ d',
    (∀ j, lregs d' j = lregs d j) ∧ icrhi d' = v ∧ busy d' = busy d ∧ ∀ id, ap d' id = ap d id) d;
  la_icrlo v d : wp (mm_write (lapic + 4 * ICRLO) v) (λ _ d',
    (∀ j, lregs d' j = lregs d j) ∧ icrhi d' = icrhi d ∧ (busy d' ≤ bound)%nat ∧ ∀ id, ap d' id = ipi (icrhi d) v (ap d) id) d;
  la_read i d : i ≠ ICRLO → wp (mm_read (lapic + 4 * i)) (λ _ d',
    (∀ j, lregs d' j = lregs d j) ∧ icrhi d' = icrhi d ∧ busy d' = busy d ∧ ∀ id, ap d' id = ap d id) d;
  la_busy d : wp (mm_read (lapic + 4 * ICRLO)) (λ v d',
    (∀ j, lregs d' j = lregs d j) ∧ icrhi d' = icrhi d ∧ (busy d' = Nat.pred (busy d)) ∧ (Z.land v DELIVS = 0 ↔ busy d = 0%nat) ∧
    ∀ id, ap d' id = ap d id) d
}.

Section local.
Context {D : Type} `{Mmio D} `{Ports D} (lapic : Z) (bound : nat) (lregs : D → Z → Z) (icrhi : D → Z) (busy : D → nat) (ap : D → Z → ap_state).
Context `{!LocalApic lapic bound lregs icrhi busy ap}.

(** The registers, the destination and the processors, as functions. *)
Definition is_lapic (d : D) (L : Z → Z) (hi : Z) (A : Z → ap_state) : Prop :=
  (∀ j, lregs d j = L j) ∧ icrhi d = hi ∧ ∀ id, ap d id = A id.

Lemma wp_id (Q : Z → D → Prop) i d : i ≠ ICRLO →
  (∀ v d', busy d' = busy d → (∀ L hi A, is_lapic d L hi A → is_lapic d' L hi A) → Q v d') → wp (lapicr lapic i) Q d.
Proof.
  intros Hi HQ. eapply wp_mono; [by apply la_read|]. intros v d' (R1 & R2 & R3 & R4). apply HQ; [done|].
  intros L hi A (E1 & E2 & E3). split_and!; [|congruence|]; intros j; congruence.
Qed.

Lemma wp_lapicw_plain i v L hi A (Q : unit → D → Prop) d : i ∈ plain → is_lapic d L hi A →
  (∀ d', is_lapic d' (λ j, if j =? i then v else L j) hi A → Q tt d') → wp (lapicw lapic i v) Q d.
Proof.
  intros Hi (E1 & E2 & E3) HQ. unfold lapicw. wp_step. eapply wp_mono; [by apply la_plain|]. intros [] d1 (R1 & R2 & R3 & R4).
  wp_step. apply wp_id; [done|]. intros x d2 _ R. wp_step. apply HQ, R. split_and!; [|congruence|]; intros j; [by rewrite R1, E1 | congruence].
Qed.

Lemma wp_lapicw_other i v L hi A (Q : unit → D → Prop) d : i = EOI ∨ i = ESR → is_lapic d L hi A →
  (∀ d', is_lapic d' L hi A → Q tt d') → wp (lapicw lapic i v) Q d.
Proof.
  intros Hi (E1 & E2 & E3) HQ. unfold lapicw. wp_step. eapply wp_mono; [by apply la_other|]. intros [] d1 (R1 & R2 & R3 & R4).
  wp_step. apply wp_id; [done|]. intros x d2 _ R. wp_step. apply HQ, R. split_and!; [|congruence|]; intros j; congruence.
Qed.

Lemma wp_lapicw_icrhi v L hi A (Q : unit → D → Prop) d : is_lapic d L hi A →
  (∀ d', is_lapic d' L v A → Q tt d') → wp (lapicw lapic ICRHI v) Q d.
Proof.
  intros (E1 & E2 & E3) HQ. unfold lapicw. wp_step. eapply wp_mono; [by apply la_icrhi|]. intros [] d1 (R1 & R2 & R3 & R4).
  wp_step. apply wp_id; [done|]. intros x d2 _ R. wp_step. apply HQ, R. split_and!; [|congruence|]; intros j; congruence.
Qed.

Lemma ipi_ext hi v A A' id : (∀ id, A id = A' id) → ipi hi v A id = ipi hi v A' id.
Proof. intros E. unfold ipi. by rewrite !E. Qed.

Lemma wp_lapicw_icrlo v L hi A (Q : unit → D → Prop) d : is_lapic d L hi A →
  (∀ d', is_lapic d' L hi (ipi hi v A) → (busy d' ≤ bound)%nat → Q tt d') → wp (lapicw lapic ICRLO v) Q d.
Proof.
  intros (E1 & E2 & E3) HQ. unfold lapicw. wp_step. eapply wp_mono; [by apply la_icrlo|]. intros [] d1 (R1 & R2 & R3 & R4).
  wp_step. apply wp_id; [done|]. intros x d2 B R. wp_step. apply HQ; [|by rewrite B]. apply R. split_and!; [|congruence|]; intros j; [congruence|].
  rewrite R4, E2. by apply ipi_ext.
Qed.

Lemma wp_wait_delivery fuel : ∀ L hi A (Q : unit → D → Prop) d, (busy d < fuel)%nat → is_lapic d L hi A →
  (∀ d', is_lapic d' L hi A → Q tt d') → wp (wait_delivery lapic fuel) Q d.
Proof.
  induction fuel as [|fuel IH]; intros L hi A Q d Hf (E1 & E2 & E3) HQ; [lia|]. cbn [wait_delivery]. wp_step.
  eapply wp_mono; [apply la_busy|]. intros v d' (R1 & R2 & R3 & R4 & R5).
  assert (is_lapic d' L hi A) as I by (split_and!; [|congruence|]; intros j; congruence).
  destruct (Z.eqb_spec (Z.land v DELIVS) 0) as [Hz|Hz]; cbn [negb].
  - wp_step. by apply HQ.
  - apply (IH L hi A); [|done|done]. destruct (busy d); [by destruct Hz; apply R4 | cbn in R3; lia].
Qed.

(** What lapicinit sets up: enabled, with the spurious vector; a periodic timer
    on vector T_IRQ0 + IRQ_TIMER; the external lines masked; errors on their
    vector; and no interrupt held back by its priority. *)
Definition configured (L : Z → Z) : Prop :=
  L SVR = 256 + 63 ∧ L TDCR = 11 ∧ L TIMER = 131072 + 32 ∧ L TICR = 10000000 ∧ L LINT0 = MASKED ∧ L LINT1 = MASKED ∧ L ERROR = 51 ∧ L TPR = 0.

Ltac plain_reg := unfold plain; rewrite !elem_of_cons; tauto.

Ltac set_plain I := eapply wp_lapicw_plain; [plain_reg | exact I |]; clear I; intros ? I.
Ltac set_other I := eapply wp_lapicw_other; [tauto | exact I |]; clear I; intros ? I.

(** lapicinit terminates, configures the local APIC and starts no processor. *)
Theorem lapicinit_configures fuel L hi A d : lapic ≠ 0 → (bound < fuel)%nat → is_lapic d L hi A →
  wp (lapicinit lapic fuel) (λ _ d', ∃ L', is_lapic d' L' 0 A ∧ configured L') d.
Proof.
  intros Hl Hf I. unfold lapicinit. rewrite (proj2 (Z.eqb_neq _ _)) by done.
  do 6 (wp_step; set_plain I).
  wp_step. apply wp_id; [done|]. intros ver d7 _ R7. apply R7 in I. wp_step.
  match type of I with is_lapic _ ?L6 _ _ => apply (wp_mono _ (λ _ d', ∃ x, is_lapic d' (λ j, if j =? PCINT then x else L6 j) hi A)) end.
  { destruct (4 <=? _); cbn [when]; [eapply wp_lapicw_plain; [plain_reg | exact I |]; eauto|]. wp_step.
    match type of I with is_lapic _ ?L6 _ _ => exists (L6 PCINT) end. destruct I as (E1 & E2 & E3). split_and!; [|done|done].
    intros j. rewrite E1. by destruct (Z.eqb_spec j PCINT) as [->|]. }
  clear I. intros [] d8 [x I]. wp_step; set_plain I. do 3 (wp_step; set_other I).
  wp_step; eapply wp_lapicw_icrhi; [exact I |]; clear I; intros d13 I. wp_step; eapply wp_lapicw_icrlo; [exact I |]; clear I; intros d14 I B14.
  wp_step; eapply wp_wait_delivery; [lia | exact I |]; clear I; intros d15 I.
  set_plain I. destruct I as (E1 & E2 & E3). eexists. split; [split_and!; [exact E1 | exact E2 |]|done].
  intros id. rewrite E3. unfold ipi. change (Z.land (Z.shiftr (Z.lor (Z.lor BCAST INIT) LEVEL) 18) 3) with 2.
  change (Z.land (Z.shiftr (Z.lor (Z.lor BCAST INIT) LEVEL) 8) 7) with 5. change (Z.testbit (Z.lor (Z.lor BCAST INIT) LEVEL) 14) with false. done.
Qed.

(** The messages of lapicstartap. *)
Lemma ipi_init apicid A id : 0 ≤ apicid < 256 →
  ipi (Z.shiftl apicid 24) (Z.lor (Z.lor INIT LEVEL) ASSERT) A id = if id =? apicid then ApWait else A id.
Proof. intros Ha. unfold ipi. rewrite Z.shiftr_shiftl_l, Z.shiftl_0_r by lia. reflexivity. Qed.

Lemma ipi_deassert hi A id : ipi hi (Z.lor INIT LEVEL) A id = A id.
Proof. unfold ipi. change (Z.land (Z.shiftr (Z.lor INIT LEVEL) 18) 3 =? 0) with true. cbv iota. by destruct (_ =? _). Qed.

Lemma ipi_startup apicid p A id : 0 ≤ apicid < 256 → 0 ≤ p < 256 →
  ipi (Z.shiftl apicid 24) (Z.lor STARTUP p) A id =
  if id =? apicid then match A id with ApWait => ApRun (4096 * p) | a => a end else A id.
Proof.
  intros Ha Hp. unfold ipi. rewrite Z.shiftr_shiftl_l, Z.shiftl_0_r by lia.
  assert (∀ k, 8 ≤ k → Z.shiftr p k = 0) as Hs.
  { intros k Hk. apply Z.bits_inj'. intros n Hn. rewrite Z.shiftr_spec, Z.bits_0 by lia. apply byte_testbit; lia. }
  assert (Z.land (Z.lor STARTUP p) 255 = p) as ->.
  { rewrite Z.land_lor_distr_l. change (Z.land STARTUP 255) with 0. change 255 with (Z.ones 8). rewrite Z.lor_0_l, Z.land_ones by lia. apply Z.mod_small. lia. }
  rewrite !Z.shiftr_lor, !Hs, !Z.lor_0_r by lia. reflexivity.
Qed.

(** lapicstartap starts the processor [apicid] at [addr] and no other; of the
    memory it changes the warm reset vector only. *)
Theorem lapicstartap_starts apicid addr L hi A m d :
  0 ≤ apicid < 256 → addr mod 4096 = 0 → 0 ≤ addr < 2 ^ 20 → is_lapic d L hi A →
  (∀ p v d L hi A, is_lapic d L hi A → wp (outb p v) (λ _ d', is_lapic d' L hi A) d) →
  wp (lapicstartap lapic apicid addr) (λ _ s', is_lapic (mc_dev s') L (Z.shiftl apicid 24) (λ id, if id =? apicid then ApRun addr else A id) ∧
    ∀ x, x < P2V 0x467 ∨ P2V 0x46B ≤ x → mc_mem s' x = m x) (Mach m d).
Proof.
  intros Ha Hm Hr I Hout. set (p := addr / 4096). assert (addr = 4096 * p) as Ep by (subst p; pose proof (Z.div_mod addr 4096); lia).
  unfold lapicstartap, on_dev. wp_step. apply zoom_wp. wp_step. eapply wp_mono; [by apply Hout|]. intros [] d1 I1.
  eapply wp_mono; [by apply Hout|]. intros [] d2 I2. cbv zeta. wp_step. wp_step. wp_step. wp_step. cbn [mc_mem mc_dev]. apply zoom_wp. cbn [mc_dev].
  wp_step. eapply wp_lapicw_icrhi; [exact I2|]. intros d3 I3. wp_step. eapply wp_lapicw_icrlo; [exact I3|]. intros d4 I4 _.
  unfold microdelay. wp_step. wp_step. wp_step. eapply wp_lapicw_icrlo; [exact I4|]. intros d5 I5 _. wp_step. wp_step.
  cbn [foreach]. unfold startup_ipi, microdelay.
  wp_step. wp_step. eapply wp_lapicw_icrhi; [exact I5|]. intros d6 I6. wp_step. eapply wp_lapicw_icrlo; [exact I6|]. intros d7 I7 _. wp_step.
  wp_step. wp_step. eapply wp_lapicw_icrhi; [exact I7|]. intros d8 I8. wp_step. eapply wp_lapicw_icrlo; [exact I8|]. intros d9 I9 _. wp_step. wp_step.
  cbn [mc_mem mc_dev]. split.
  - destruct I9 as (E1 & E2 & E3). split_and!; [done | done |]. intros id. rewrite E3.
    assert (Z.shiftr addr 12 = p) as -> by (by rewrite Z.shiftr_div_pow2 by lia).
    rewrite !ipi_startup by lia. rewrite ipi_deassert, ipi_init by lia. destruct (id =? apicid); [by rewrite Ep | done].
  - intros x Hx. change (P2V 0x467) with 0x80000467 in Hx. change (P2V 0x46B) with 0x8000046B in Hx.
    change (P2V (Z.lor (Z.shiftl 64 4) 103)) with 0x80000467. unfold store16. rewrite !store8_ne by lia. done.
Qed.
End local.

(** ** An I/O APIC with 24 entries *)

Record io_dev := IoDev { io_sel : Z; io_table : Z → Z }.
Definition io_regs (d : io_dev) (r : Z) : Z := if r =? REG_VER then Z.shiftl 23 16 else io_table d r.

#[local] Instance io_dev_mmio : Mmio io_dev := {|
  mm_read a d := Ok (if a =? IOAPIC + 16 then io_regs d (io_sel d) else 0) d;
  mm_write a v d :=
    Ok tt (if a =? IOAPIC then IoDev v (io_table d)
           else if a =? IOAPIC + 16 then IoDev (io_sel d) (λ r, if r =? io_sel d then v else io_table d r) else d)
|}.

#[local] Instance io_dev_ioapic : IoApic 23 io_sel io_regs.
Proof.
  split; try (intros; done).
  intros v d Hs r. unfold REG_TABLE in Hs. cbn. unfold io_regs, REG_VER. cbn [io_table]. destruct (Z.eqb_spec r 1) as [->|]; [|done].
  by rewrite (proj2 (Z.eqb_neq 1 (io_sel d))) by lia.
Qed.

(** The calls of consoleinit, uartinit and ideinit on two processors. *)
Example interrupts_routed_witness :
  wp (ioapicinit (λ _, mret tt) 0;; foreach [(1, 0); (4, 0); (14, 1)] (λ '(irq, cpu), ioapicenable irq cpu))
    (λ _ d', route io_regs d' 14 = open_route 14 1 ∧ route io_regs d' 4 = open_route 4 0 ∧ route io_regs d' 3 = masked_route 3) (IoDev 0 (λ _, 0)).
Proof.
  eapply wp_mono; [apply (interrupts_routed 23 io_sel io_regs (λ _, mret tt) 0 [(1, 0); (4, 0); (14, 1)])|].
  - lia.
  - done.
  - repeat (apply list.Forall_cons; split; [lia|]). by apply list.Forall_nil.
  - intros [] d' R. rewrite !R by lia. done.
Defined.
