(* ===== verification/Rtc.v ===== *)
(** * Rtc: reading the clock (cmostime of lapic.c)

    The clock answers at two ports, and goes on while it is read: time is
    counted in accesses to its ports, and [cal] gives the date it shows at each.
    cmostime reads the date twice, again and again until it has read the same
    both times without an update in progress.

    Shown: if the clock does not change twice while one attempt reads it, the
    date that cmostime returns is one the clock showed during the call, never a
    mixture of two, in decimal whichever way the clock encodes it; and cmostime
    returns, once the clock is left alone for two attempts. *)

From Stdlib Require Import ZArith Lia Bool.
From stdpp Require Import base option list strings numbers.
From S2P Require Import Prelude Cstring Ports.

#[local] Open Scope string_scope.
#[local] Open Scope list_scope.
#[local] Open Scope Z_scope.

Definition CMOS_PORT : Z := 0x70.
Definition CMOS_RETURN : Z := 0x71.
Definition CMOS_STATA : Z := 10.
Definition CMOS_STATB : Z := 11.
Definition CMOS_UIP : Z := Z.shiftl 1 7.
Definition SECS : Z := 0.
Definition MINS : Z := 2.
Definition HOURS : Z := 4.
Definition DAY : Z := 7.
Definition MONTH : Z := 8.
Definition YEAR : Z := 9.

Record rtcdate := Date { second : Z; minute : Z; hour : Z; day : Z; month : Z; year : Z }.
#[export] Instance rtcdate_eq_dec : EqDecision rtcdate.
Proof. solve_decision. Defined.

(** CONV, on one field and on all. *)
Definition conv (x : Z) : Z := Z.shiftr x 4 * 10 + Z.land x 15.
Definition date_map (f : Z → Z) (t : rtcdate) : rtcdate :=
  Date (f (second t)) (f (minute t)) (f (hour t)) (f (day t)) (f (month t)) (f (year t)).

Section rtc.
Context {D : Type} `{Ports D}.

(** microdelay does nothing. *)
Definition cmos_read (reg : Z) : M D Z := outb CMOS_PORT reg;; inb CMOS_RETURN.

Definition fill_rtcdate : M D rtcdate :=
  s ← cmos_read SECS;
  mi ← cmos_read MINS;
  h ← cmos_read HOURS;
  d ← cmos_read DAY;
  mo ← cmos_read MONTH;
  y ← cmos_read YEAR;
  mret (Date s mi h d mo y).

(** for(;;), to t1. *)
Fixpoint cmos_loop (fuel : nat) : M D rtcdate :=
  match fuel with
  | O => undef "out of fuel"
  | S fuel =>
      t1 ← fill_rtcdate;
      a ← cmos_read CMOS_STATA;
      if negb (Z.land a CMOS_UIP =? 0) then cmos_loop fuel else
      t2 ← fill_rtcdate;
      if bool_decide (t1 = t2) then mret t1 else cmos_loop fuel
  end.

Definition cmostime (fuel : nat) : M D rtcdate :=
  sb ← cmos_read CMOS_STATB;
  let bcd := Z.land sb (Z.shiftl 1 2) =? 0 in
  t1 ← cmos_loop fuel;
  let t1 := if bcd then date_map conv t1 else t1 in
  mret (Date (second t1) (minute t1) (hour t1) (day t1) (month t1) (year t1 + 2000)).
End rtc.

(** ** The clock *)

(** A number below 100 as its two decimal digits. *)
Definition bcd_of (x : Z) : Z := 16 * (x / 10) + x mod 10.

Lemma conv_bcd x : 0 ≤ x < 100 → conv (bcd_of x) = x.
Proof.
  intros Hx. unfold conv, bcd_of. change 15 with (Z.ones 4). rewrite Z.shiftr_div_pow2, Z.land_ones by lia.
  change (2 ^ 4) with 16. pose proof (Z.div_mod x 10). pose proof (Z.mod_pos_bound x 10).
  rewrite (Z.mul_comm 16), Z.div_add_l, (Z.div_small (x mod 10)) by lia.
  rewrite (Z.add_comm (x / 10 * 16)), Z.mod_add, Z.mod_small by lia. lia.
Qed.

(** The fields are numbers of two digits. *)
Definition date_ok (t : rtcdate) : Prop :=
  Forall (λ x, 0 ≤ x < 100) [second t; minute t; hour t; day t; month t; year t].

(** What a register holds while the clock shows [t]. *)
Definition reg_of (bcd uip : bool) (t : rtcdate) (reg : Z) : Z :=
  let t := date_map (if bcd then bcd_of else id) t in
  if reg =? SECS then second t else if reg =? MINS then minute t else if reg =? HOURS then hour t
  else if reg =? DAY then day t else if reg =? MONTH then month t else if reg =? YEAR then year t
  else if reg =? CMOS_STATA then if uip then 0xA6 else 0x26
  else if reg =? CMOS_STATB then if bcd then 2 else 6
  else 0.

(** The clock: a selected register, and the number of accesses so far. *)
Class Clock {D} `{Ports D} (bcd : bool) (cal : nat → rtcdate) (uip : nat → bool) (sel : D → Z) (now : D → nat) := {
  ck_select r d : wp (port_out CMOS_PORT r) (λ _ d', sel d' = r ∧ now d' = S (now d)) d;
  ck_read d : wp (port_in CMOS_RETURN) (λ v d', v = reg_of bcd (uip (now d)) (cal (now d)) (sel d) ∧ now d' = S (now d)) d;
  ck_date t : date_ok (cal t)
}.

Section clock.
Context {D : Type} `{Ports D} (bcd : bool) (cal : nat → rtcdate) (uip : nat → bool) (sel : D → Z) (now : D → nat).
Context `{!Clock bcd cal uip sel now}.

(** The date as the registers hold it. *)
Definition raw (t : rtcdate) : rtcdate := date_map (if bcd then bcd_of else id) t.

Lemma reg_byte u t r : date_ok t → is_byte (reg_of bcd u t r).
Proof.
  intros Ht. assert (∀ x, 0 ≤ x < 100 → is_byte ((if bcd then bcd_of else id) x)) as Hx.
  { intros x Hx. unfold is_byte. destruct bcd; [|unfold id; lia]. unfold bcd_of. pose proof (Z.div_mod x 10). pose proof (Z.mod_pos_bound x 10).
    assert (x / 10 < 10) by (apply Z.div_lt_upper_bound; lia). assert (0 ≤ x / 10) by (apply Z.div_pos; lia). lia. }
  unfold date_ok in Ht. rewrite !list.Forall_cons in Ht. destruct Ht as (H1 & H2 & H3 & H4 & H5 & H6 & _).
  unfold reg_of. cbv zeta. cbn [date_map second minute hour day month year].
  repeat (match goal with |- is_byte (if ?b then _ else _) => destruct b end; [first [by apply Hx | by destruct u | by destruct bcd]|]). done.
Qed.

Lemma wp_cmos_read r (Q : Z → D → Prop) d : is_byte r →
  (∀ d', now d' = S (S (now d)) → Q (reg_of bcd (uip (S (now d))) (cal (S (now d))) r) d') → wp (cmos_read r) Q d.
Proof.
  intros Hr HQ. unfold cmos_read, outb, inb. wp_step. rewrite u8_id by done. eapply wp_mono; [apply ck_select|]. intros [] d1 [S1 N1].
  wp_step. eapply wp_mono; [apply ck_read|]. intros v d2 [-> N2]. wp_step. rewrite N1, S1, u8_id by (apply reg_byte, ck_date). apply HQ. by rewrite N2, N1.
Qed.

(** The fields, each as the clock shows it when it is read. *)
Definition snapshot (t : nat) : rtcdate :=
  Date (second (raw (cal (1 + t)))) (minute (raw (cal (3 + t)))) (hour (raw (cal (5 + t))))
       (day (raw (cal (7 + t)))) (month (raw (cal (9 + t)))) (year (raw (cal (11 + t)))).

Lemma snapshot_const t c : (∀ u, (t ≤ u < t + 12)%nat → cal u = c) → snapshot t = raw c.
Proof. intros Hc. unfold snapshot. rewrite !Hc by lia. by destruct (raw c). Qed.

Lemma wp_fill (Q : rtcdate → D → Prop) d : (∀ d', now d' = (12 + now d)%nat → Q (snapshot (now d)) d') → wp fill_rtcdate Q d.
Proof.
  intros HQ. unfold fill_rtcdate.
  wp_step. apply wp_cmos_read; [done|]. intros d1 N1. wp_step. apply wp_cmos_read; [done|]. intros d2 N2.
  wp_step. apply wp_cmos_read; [done|]. intros d3 N3. wp_step. apply wp_cmos_read; [done|]. intros d4 N4.
  wp_step. apply wp_cmos_read; [done|]. intros d5 N5. wp_step. apply wp_cmos_read; [done|]. intros d6 N6. wp_step.
  rewrite N5, N4, N3, N2, N1. apply HQ. by rewrite N6, N5, N4, N3, N2, N1.
Qed.

(** Within 26 accesses the clock changes once at most. *)
Definition one_change : Prop := ∀ t, ∃ c, (t ≤ c)%nat ∧
  (∀ u, (t ≤ u < c)%nat → cal u = cal t) ∧ (∀ u, (c ≤ u < t + 26)%nat → cal u = cal c).

(** Two snapshots that agree are a date the clock showed. *)
Lemma agreeing_snapshots t : one_change → snapshot t = snapshot (14 + t) → ∃ u, (t ≤ u < t + 26)%nat ∧ snapshot t = raw (cal u).
Proof.
  intros H1 E. destruct (H1 t) as (c & Hc & Hb & Ha). destruct (decide (c ≤ t + 14)%nat) as [Hle|Hgt].
  - exists c. split; [lia|]. rewrite E. apply snapshot_const. intros u Hu. apply Ha. lia.
  - exists t. split; [lia|]. apply snapshot_const. intros u Hu. apply Hb. lia.
Qed.

(** From [T] on the clock is left alone for 52 accesses. *)
Definition quiet (T : nat) : Prop := ∀ u, (T ≤ u < T + 52)%nat → cal u = cal T ∧ uip u = false.

Lemma stata_uip u t : (Z.land (reg_of bcd u t CMOS_STATA) CMOS_UIP =? 0) = negb u.
Proof. by destruct u. Qed.

Lemma wp_cmos_loop fuel T : one_change → quiet T → ∀ d, (now d ≤ T + 26)%nat → (T + 26 < now d + 14 * fuel)%nat →
  wp (cmos_loop fuel) (λ t1 d', ∃ u, (now d ≤ u < now d')%nat ∧ t1 = raw (cal u)) d.
Proof.
  intros H1 Hq. induction fuel as [|fuel IH]; intros d Hle Hf; [lia|]. cbn [cmos_loop].
  wp_step. apply wp_fill. intros d1 N1. wp_step. apply wp_cmos_read; [done|]. intros d2 N2. rewrite N1 in N2. rewrite stata_uip, negb_involutive.
  assert (∀ d', (now d + 14 ≤ now d' ≤ now d + 26)%nat → (now d < T)%nat →
    wp (cmos_loop fuel) (λ t1 d', ∃ u, (now d ≤ u < now d')%nat ∧ t1 = raw (cal u)) d') as Hagain.
  { intros d' Hd' HT. eapply wp_mono; [apply IH; lia|]. intros t1 d'' (u & Hu & ->). exists u. split; [lia | done]. }
  rewrite N1. destruct (uip (S (12 + now d))) eqn:Eu.
  { apply Hagain; [lia|]. destruct (decide (now d < T)%nat) as [|Hn]; [done|]. destruct (Hq (S (12 + now d)) ltac:(lia)) as [_ Hu]. congruence. }
  wp_step. apply wp_fill. intros d3 N3. rewrite N2 in *. case_bool_decide as E.
  - wp_step. destruct (agreeing_snapshots (now d) H1 E) as (u & Hu & ->). exists u. split; [lia | done].
  - apply Hagain; [lia|]. destruct (decide (now d < T)%nat) as [|Hn]; [done|]. destruct E.
    rewrite (snapshot_const (now d) (cal T)), (snapshot_const (S (S (12 + now d))) (cal T)); [done | |]; intros u Hu; apply Hq; lia.
Qed.

Lemma decode_raw t : date_ok t → (if bcd then date_map conv (raw t) else raw t) = t.
Proof.
  intros Ht. unfold raw. destruct t as [s mi h da mo y]. unfold date_ok in Ht. cbn in Ht. rewrite !list.Forall_cons in Ht.
  destruct Ht as (H1 & H2 & H3 & H4 & H5 & H6 & _). destruct bcd; [|done]. unfold date_map. cbn [second minute hour day month year].
  by rewrite !conv_bcd.
Qed.

(** C39. Reading the clock: if the clock does not change twice within the 26
    accesses of one attempt, and is left alone for two attempts from some time
    on, cmostime returns, and the date it returns is one the clock showed
    during the call, with 2000 added to the year, whether the clock counts in
    binary or in decimal digits; it is never put together from two dates. *)
Theorem cmostime_snapshot fuel T d : one_change → quiet T → (2 + now d ≤ T)%nat → (T + 26 < 2 + now d + 14 * fuel)%nat →
  wp (cmostime fuel) (λ r d', ∃ u, (now d ≤ u < now d')%nat ∧
    r = Date (second (cal u)) (minute (cal u)) (hour (cal u)) (day (cal u)) (month (cal u)) (year (cal u) + 2000)) d.
Proof.
  intros H1 Hq HT Hf. unfold cmostime. wp_step. apply wp_cmos_read; [done|]. intros d1 N1. cbv zeta.
  assert ((Z.land (reg_of bcd (uip (S (now d))) (cal (S (now d))) CMOS_STATB) (Z.shiftl 1 2) =? 0) = bcd) as -> by (by destruct bcd).
  wp_step. eapply wp_mono; [apply (wp_cmos_loop fuel T); [done | done | lia | lia]|]. intros t1 d2 (u & Hu & ->).
  wp_step. rewrite decode_raw by apply ck_date. exists u. split; [lia | done].
Qed.
End clock.

(** ** A clock at the turn of the year *)

Definition year_end : rtcdate := Date 59 59 23 31 12 25.
Definition new_year : rtcdate := Date 0 0 0 1 1 26.
Definition turn (t : nat) : rtcdate := if (t <? 30)%nat then year_end else new_year.
Definition turning (t : nat) : bool := (20 <=? t)%nat && (t <? 30)%nat.

#[local] Instance turn_ports : Ports (Z * nat) := {|
  port_in p s := Ok (if p =? CMOS_RETURN then reg_of true (turning s.2) (turn s.2) s.1 else 0) (s.1, S s.2);
  port_out p v s := Ok tt (if p =? CMOS_PORT then v else s.1, S s.2);
  port_in_bytes _ n s := Ok (replicate n 0) s;
  port_out_bytes _ _ s := Ok tt s
|}.

#[local] Instance turn_clock : Clock true turn turning fst snd.
Proof.
  split; [done | done |]. intros t. unfold turn. destruct (t <? 30)%nat; unfold date_ok; cbn; repeat (apply list.Forall_cons; split; [lia|]); by apply list.Forall_nil.
Qed.

Example cmostime_snapshot_witness :
  wp (cmostime 4) (λ r _, r = Date 59 59 23 31 12 2025 ∨ r = Date 0 0 0 1 1 2026) (0, 0%nat).
Proof.
  eapply wp_mono; [apply (cmostime_snapshot true turn turning fst snd 4 30 (0, 0%nat))|].
  - intros t. exists (Nat.max t 30). unfold turn. split_and!; [lia | |]; intros u Hu.
    + by rewrite !(proj2 (Nat.ltb_lt _ _)) by lia.
    + destruct (Nat.ltb_spec u 30), (Nat.ltb_spec (Nat.max t 30) 30); done || lia.
  - intros u Hu. unfold turn, turning. rewrite (proj2 (Nat.ltb_ge u 30)), andb_false_r by lia. done.
  - cbn. lia.
  - cbn. lia.
  - intros r d' (u & _ & ->). unfold turn. destruct (u <? 30)%nat; [by left | by right].
Defined.
