(* ===== verification/Main.v ===== *)
(** * Main: starting the other processors (main.c, entryother.S)

    startothers copies the code of entryother.S to address 0x7000, and starts
    the processors one at a time: it leaves the stack, the function to call and
    the page table below the code, sends the messages of lapicstartap, and spins
    until the processor has set started.  The new processor loads the three
    words in the meantime, one after the other.  The two sides are a step
    relation on the memory they share; [start_ap] is one round of the loop up to
    the spin, and the steps of a processor are the loads of entryother.S and the
    xchg of mpmain.

    Shown: in every interleaving each processor runs the code that was copied
    and loads its own stack, a page that no other processor has and that is not
    free; the boot processor is never stuck, and after a bounded number of steps
    all processors are up.  entrypgdir maps the low 4 MB twice. *)

From Stdlib Require Import ZArith Lia Bool Relations.
From stdpp Require Import base option list sets gmap strings numbers relations.
From S2P Require Import Prelude Cstring Kalloc Ports Apic.

#[local] Open Scope string_scope.
#[local] Open Scope list_scope.
#[local] Open Scope Z_scope.

Definition KSTACKSIZE : Z := 4096.
(** P2V(0x7000) *)
Definition code : Z := P2V 0x7000.

(** ** entrypgdir *)

Definition PTE_P : Z := 1.
Definition PTE_W : Z := 2.
Definition PTE_PS : Z := 0x80.
Definition PDXSHIFT : Z := 22.
Definition entrypgdir : list Z :=
  <[Z.to_nat (Z.shiftr KERNBASE PDXSHIFT) := Z.lor (Z.lor PTE_P PTE_W) PTE_PS]>
    (<[0%nat := Z.lor (Z.lor PTE_P PTE_W) PTE_PS]> (replicate 1024 0)).

(** The address a page directory with 4 MB pages gives a virtual address. *)
Definition translate (pgdir : list Z) (va : Z) : option Z :=
  pde ← pgdir !! Z.to_nat (va / 2 ^ 22);
  if Z.testbit pde 0 && Z.testbit pde 7 then Some (2 ^ 22 * (pde / 2 ^ 22) + va mod 2 ^ 22) else None.

(** Physical memory below 4 MB is at its own address and at KERNBASE, and
    nothing else is mapped. *)
Theorem entrypgdir_maps va : 0 ≤ va < 2 ^ 32 →
  translate entrypgdir va = if va <? 2 ^ 22 then Some va else
    if (KERNBASE <=? va) && (va <? KERNBASE + 2 ^ 22) then Some (va - KERNBASE) else None.
Proof.
  intros Hva. unfold translate, entrypgdir, KERNBASE. change (Z.to_nat (Z.shiftr 0x80000000 PDXSHIFT)) with 512%nat.
  change (Z.lor (Z.lor PTE_P PTE_W) PTE_PS) with 131. set (q := va / 2 ^ 22). assert (va = 2 ^ 22 * q + va mod 2 ^ 22) as E by (apply Z.div_mod; lia).
  pose proof (Z.mod_pos_bound va (2 ^ 22)). assert (0 ≤ q < 1024) by (subst q; split; [apply Z.div_pos; lia | apply Z.div_lt_upper_bound; lia]).
  destruct (decide (Z.to_nat q = 512%nat)) as [E2|N2]; [|destruct (decide (Z.to_nat q = 0%nat)) as [E1|N1]].
  - assert (q = 512) as Eq by lia. rewrite E2, list_lookup_insert_eq by (rewrite length_insert, length_replicate; lia).
    cbn [mbind option_bind]. change (Z.testbit 131 0 && Z.testbit 131 7) with true. cbv iota. change (131 / 2 ^ 22) with 0.
    rewrite (proj2 (Z.ltb_ge _ _)), (proj2 (Z.leb_le _ _)), (proj2 (Z.ltb_lt _ _)) by lia. cbn [andb]. f_equal. lia.
  - assert (q = 0) as Eq by lia. rewrite list_lookup_insert_ne by lia. rewrite E1, list_lookup_insert_eq by (rewrite length_replicate; lia).
    cbn [mbind option_bind]. change (Z.testbit 131 0 && Z.testbit 131 7) with true. cbv iota. change (131 / 2 ^ 22) with 0.
    rewrite (proj2 (Z.ltb_lt _ _)) by lia. f_equal. lia.
  - rewrite !list_lookup_insert_ne by lia. rewrite lookup_replicate_2 by lia. cbn [mbind option_bind]. change (Z.testbit 0 0) with false. cbn [andb].
    rewrite (proj2 (Z.ltb_ge _ _)) by lia. destruct (Z.leb_spec 0x80000000 va), (Z.ltb_spec va (0x80000000 + 2 ^ 22)); try done. lia.
Qed.

(** ** startothers *)

(** The allocator with the kernel's memory, and the devices. *)
Record smp (D : Type) := Smp { sm_k : kst; sm_dev : D }.
Arguments Smp {D}. Arguments sm_k {D}. Arguments sm_dev {D}.

Section startothers.
Context {D : Type} `{Mmio D} `{Ports D}.
(** The pointer lapic, the addresses of mpenter and of entrypgdir, and the code
    of entryother.S that the linker has put into the kernel. *)
Context (lapic mpenter pgdir : Z) (entryother : list Z).

Definition on_k {A} (m : M kst A) : M (smp D) A := zoom sm_k (λ k s, Smp k (sm_dev s)) m.
Definition on_mach {A} (m : M (mach D) A) : M (smp D) A :=
  zoom (λ s, Mach (km (sm_k s)) (sm_dev s)) (λ x s, Smp (set_km (mc_mem x) (sm_k s)) (mc_dev x)) m.
Definition poke32 (a v : Z) : M (smp D) unit := on_k (upd_km (λ m, st32 m a v)).

(** memmove(code, _binary_entryother_start, (uint)_binary_entryother_size) *)
Definition copy_entryother : M (smp D) unit := on_k (upd_km (λ m, stbytes m code entryother)).

(** One round of the loop, up to the spin; the result is the stack. *)
Definition start_ap (apicid : Z) : M (smp D) Z :=
  stack ← on_k kalloc;
  poke32 (code - 4) (stack + KSTACKSIZE);;
  poke32 (code - 8) mpenter;;
  poke32 (code - 12) (V2P pgdir);;
  on_mach (lapicstartap lapic apicid (V2P code));;
  mret stack.

(** ** The processors *)

(** The boot processor: at the test of the loop for [i], or spinning for it. *)
Inductive bpc := Bnext (i : nat) | Bspin (i : nat).
(** Another one: before the loads of entryother.S, after each of them, and with
    started set. *)
Inductive apc := A0 | A1 (cr3 : Z) | A2 (cr3 esp : Z) | A3 (cr3 esp eip : Z) | A4 (cr3 esp eip : Z).

(** [y_stack] records the pages that start_ap was given. *)
Record sys := Sys { y_smp : smp D; y_bsp : bpc; y_ap : nat → apc; y_stack : nat → option Z }.

Definition ld (s : sys) (a : Z) : Z := ld32 (km (sm_k (y_smp s))) a.
Definition upd_at {A} (f : nat → A) (i : nat) (a : A) : nat → A := λ j, if (j =? i)%nat then a else f j.
Definition started (s : sys) (i : nat) : Prop := match y_ap s i with A4 _ _ _ => True | _ => False end.

(** The APIC ids of cpus[0] to cpus[ncpu-1], and the boot processor; [ap] is the
    state of the processors that the devices show. *)
Context (cpus : list Z) (boot : nat) (ap : D → Z → ap_state).

Definition set_ap (i : nat) (a : apc) (s : sys) : sys := Sys (y_smp s) (y_bsp s) (upd_at (y_ap s) i a) (y_stack s).
Definition set_bsp (b : bpc) (s : sys) : sys := Sys (y_smp s) b (y_ap s) (y_stack s).

Inductive step : sys → sys → Prop :=
  | st_self s : y_bsp s = Bnext boot → step s (set_bsp (Bnext (S boot)) s)
  | st_start s i id stack p : y_bsp s = Bnext i → i ≠ boot → cpus !! i = Some id → start_ap id (y_smp s) = Ok stack p →
      step s (Sys p (Bspin i) (y_ap s) (upd_at (y_stack s) i (Some stack)))
  | st_seen s i : y_bsp s = Bspin i → started s i → step s (set_bsp (Bnext (S i)) s)
  | st_cr3 s i id : cpus !! i = Some id → ap (sm_dev (y_smp s)) id = ApRun (V2P code) → y_ap s i = A0 →
      step s (set_ap i (A1 (ld s (code - 12))) s)
  | st_esp s i cr3 : y_ap s i = A1 cr3 → step s (set_ap i (A2 cr3 (ld s (code - 4))) s)
  | st_call s i cr3 esp : y_ap s i = A2 cr3 esp → step s (set_ap i (A3 cr3 esp (ld s (code - 8))) s)
  | st_mpmain s i cr3 esp : y_ap s i = A3 cr3 esp mpenter → step s (set_ap i (A4 cr3 esp mpenter) s).
End startothers.

Arguments A0 : clear implicits.

Section safety.
Context {D : Type} `{Mmio D} `{Ports D} (kend lapic mpenter pgdir : Z) (entryother cpus : list Z) (boot : nat).
Context (bound : nat) (lregs : D → Z → Z) (icrhi : D → Z) (busy : D → nat) (ap : D → Z → ap_state).
Context `{!LocalApic lapic bound lregs icrhi busy ap}.
#[local] Notation is_lapic := (is_lapic lregs icrhi ap).
#[local] Notation step := (step lapic mpenter pgdir cpus boot ap).
#[local] Notation sys := (@sys D).

(** The ports of the clock chip do not concern the APIC. *)
Hypothesis outb_lapic : ∀ p v d L hi A, is_lapic d L hi A → wp (outb p v) (λ _ d', is_lapic d' L hi A) d.
(** The kernel lies above the memory that startothers uses. *)
Hypothesis kend_high : P2V 0x8000 ≤ kend.
Hypothesis mpenter_word : 0 ≤ mpenter < 2 ^ 32.
Hypothesis cpus_ok : NoDup cpus ∧ Forall is_byte cpus.

(** The three words are those for the stack [p]. *)
Definition words_ok (m : mem) (p : Z) : Prop :=
  ld32 m (code - 4) = p + KSTACKSIZE ∧ ld32 m (code - 8) = mpenter ∧ ld32 m (code - 12) = V2P pgdir.

Lemma code_val : code = 0x80007000.
Proof. reflexivity. Qed.

Lemma frame_low l k m : kinv kend l k → (∀ x, P2V 0x8000 ≤ x → m x = km k x) → kinv kend l (set_km m k).
Proof.
  intros K Hm. apply kinv_frame; [done|]. intros p Hp x Hx. apply Hm.
  pose proof (ki_pages _ _ _ K) as Hpg. eapply list.Forall_forall in Hpg; [|exact Hp]. unfold is_page, in_page in *. lia.
Qed.

Lemma wp_start_ap id p l L hi A (s : smp D) : is_byte id → kinv kend (p :: l) (sm_k s) → is_lapic (sm_dev s) L hi A →
  wp (start_ap lapic mpenter pgdir id) (λ r s', r = p ∧ kinv kend l (sm_k s') ∧ words_ok (km (sm_k s')) p ∧
    (∃ hi', is_lapic (sm_dev s') L hi' (λ x, if x =? id then ApRun (V2P code) else A x)) ∧
    ∀ x, code ≤ x → km (sm_k s') x = km (sm_k s) x) s.
Proof.
  intros Hid K I. unfold start_ap, poke32, on_k. wp_step. apply zoom_wp. eapply wp_kalloc; [exact K|]. intros r k1 [-> K1] Em _.
  pose proof (ki_pages _ _ _ K) as Hpg. apply list.Forall_cons in Hpg as [(_ & _ & Hp) _]. unfold KERNBASE, PHYSTOP in Hp.
  do 3 (wp_step; apply zoom_wp; unfold upd_km; wp_step; cbn [sm_k sm_dev]). wp_step. unfold on_mach. apply zoom_wp. cbn [sm_k sm_dev km set_km].
  set (m3 := st32 (st32 (st32 (km k1) _ _) _ _) _ _).
  eapply wp_mono; [apply (lapicstartap_starts lapic bound lregs icrhi busy ap id (V2P code) L hi A m3); [done | done | done | exact I | exact outb_lapic]|].
  intros [] [m4 d4] [I4 M4]. cbn [mc_mem mc_dev] in I4, M4. wp_step. cbn [sm_k sm_dev mc_mem mc_dev].
  change (P2V 0x467) with 0x80000467 in M4. change (P2V 0x46B) with 0x8000046B in M4. rewrite code_val in *.
  assert (∀ x, 0x80007000 ≤ x → m4 x = km (sm_k s) x) as Hhigh.
  { intros x Hx. rewrite M4 by lia. unfold m3. rewrite code_val, !st32_out by lia. by rewrite Em. }
  split_and!; [done | | | by eexists | exact Hhigh].
  - assert (kinv kend l (set_km m4 k1)) as Kf; [|exact Kf]. apply frame_low; [exact K1|]. intros x Hx. rewrite Em. apply Hhigh.
    change (P2V 0x8000) with 0x80008000 in Hx. lia.
  - assert (∀ a, 0x80006000 ≤ a → ld32 m4 a = ld32 m3 a) as Hld by (intros a Ha; apply ld32_ext; intros x Hx; apply M4; lia).
    cbn [km set_km]. unfold words_ok. rewrite code_val, !Hld by lia. unfold m3, KSTACKSIZE. rewrite code_val.
    rewrite !(ld32_st32_ne _ (0x80007000 - 12)), (ld32_st32_ne _ (0x80007000 - 8) _ (0x80007000 - 4)), !ld32_st32 by lia.
    rewrite !u32_id by lia. split_and!; [done | done |]. unfold V2P, u32. by rewrite Z.mod_mod.
Qed.

(** The processors below [cur] have been launched, and those below [idx] are up. *)
Definition idx (b : bpc) : nat := match b with Bnext i | Bspin i => i end.
Definition cur (b : bpc) : nat := match b with Bnext i => i | Bspin i => S i end.

(** What a processor with the stack [p] has loaded. *)
Definition loads_ok (p : Z) (a : apc) : Prop :=
  match a with
  | A0 => True
  | A1 cr3 => cr3 = V2P pgdir
  | A2 cr3 esp => cr3 = V2P pgdir ∧ esp = p + KSTACKSIZE
  | A3 cr3 esp eip | A4 cr3 esp eip => cr3 = V2P pgdir ∧ esp = p + KSTACKSIZE ∧ eip = mpenter
  end.

Definition launched (s : sys) (i : nat) : Prop := (i < cur (y_bsp s))%nat ∧ i ≠ boot.

Record inv (s : sys) : Prop := {
  iv_idx : (cur (y_bsp s) ≤ length cpus)%nat;
  iv_spin : ∀ i, y_bsp s = Bspin i → i ≠ boot;
  iv_code : ∀ k b, entryother !! k = Some b → km (sm_k (y_smp s)) (code + Z.of_nat k) = b;
  iv_free : ∃ l, kinv kend l (sm_k (y_smp s)) ∧ (length cpus - cur (y_bsp s) ≤ length l)%nat ∧
    ∀ i p, y_stack s i = Some p → p ∉ l ∧ is_page kend p;
  iv_inj : ∀ i j p, y_stack s i = Some p → y_stack s j = Some p → i = j;
  iv_lapic : ∃ L hi A, is_lapic (sm_dev (y_smp s)) L hi A ∧ ∀ i id, cpus !! i = Some id → (A id = ApRun (V2P code) ↔ launched s i);
  iv_launched : ∀ i, launched s i → ∃ p, y_stack s i = Some p ∧ loads_ok p (y_ap s i) ∧
    ((i < idx (y_bsp s))%nat → started s i) ∧ (y_bsp s = Bspin i → words_ok (km (sm_k (y_smp s))) p);
  iv_waiting : ∀ i, ¬ launched s i → y_ap s i = A0 ∧ y_stack s i = None
}.

Lemma launched_dec s i : launched s i ∨ ¬ launched s i.
Proof. destruct (decide ((i < cur (y_bsp s))%nat ∧ i ≠ boot)); [by left | by right]. Qed.

Lemma loading_launched s i : inv s → y_ap s i ≠ A0 → launched s i.
Proof. intros I Ha. destruct (launched_dec s i) as [|Hn]; [done|]. by destruct (iv_waiting _ I i Hn). Qed.

Lemma running_launched s i id : inv s → cpus !! i = Some id → ap (sm_dev (y_smp s)) id = ApRun (V2P code) → launched s i.
Proof. intros I Hid Hap. destruct (iv_lapic _ I) as (L & hi & A & (_ & _ & EA) & HA). apply (HA i id Hid). by rewrite <- EA. Qed.

(** A processor that has begun to load and is not up is the one the boot
    processor spins for. *)
Lemma loading s i : inv s → y_ap s i ≠ A0 → ¬ started s i → y_bsp s = Bspin i ∧ ∃ p, y_stack s i = Some p ∧
  loads_ok p (y_ap s i) ∧ words_ok (km (sm_k (y_smp s))) p.
Proof.
  intros I Ha Hs. pose proof (loading_launched s i I Ha) as Hl.
  destruct (iv_launched _ I i Hl) as (p & Hp & Hld & Hst & Hw). destruct Hl as [Hi Hb].
  assert (y_bsp s = Bspin i) as E; [|eauto 10]. destruct (y_bsp s) as [j|j]; cbn in *; [by destruct Hs; apply Hst|].
  destruct (decide (i = j)) as [->|]; [done|]. destruct Hs. apply Hst. lia.
Qed.

Lemma upd_at_eq {A} (f : nat → A) i a : upd_at f i a i = a.
Proof. unfold upd_at. by rewrite Nat.eqb_refl. Qed.
Lemma upd_at_ne {A} (f : nat → A) i a j : j ≠ i → upd_at f i a j = f j.
Proof. unfold upd_at. intros Hn. by rewrite (proj2 (Nat.eqb_neq _ _)). Qed.

(** A step of a launched processor. *)
Lemma inv_set_ap s i a : inv s → launched s i → (∀ p, y_stack s i = Some p → loads_ok p a) →
  (started s i → match a with A4 _ _ _ => True | _ => False end) → inv (set_ap i a s).
Proof.
  intros I Hi Ha Hst. destruct I as [I1 I2 I3 I4 I5 I6 I7 I8]. split; [done | done | done | done | done | done | |].
  - intros j Hj. destruct (I7 j Hj) as (p & Hp & Hl & Hs & Hw). exists p. unfold started. cbn [set_ap y_ap y_bsp y_stack y_smp].
    destruct (decide (j = i)) as [->|Hne].
    + rewrite upd_at_eq. split_and!; [done | by apply Ha | | done]. intros Hlt. by apply Hst, Hs.
    + rewrite upd_at_ne by done. done.
  - intros j Hj. cbn [set_ap y_ap y_stack]. rewrite upd_at_ne; [by apply I8|]. by intros ->.
Qed.

(** The boot processor goes on to the next one. *)
Lemma inv_next s i : inv s → idx (y_bsp s) = i → (i < length cpus)%nat → (i = boot ∨ y_bsp s = Bspin i) → (i ≠ boot → started s i) →
  inv (set_bsp (Bnext (S i)) s).
Proof.
  intros [I1 I2 I3 I4 I5 I6 I7 I8] Ei Hi Hor Hst.
  assert (∀ j, launched (set_bsp (Bnext (S i)) s) j ↔ launched s j) as El.
  { intros j. unfold launched. cbn [set_bsp y_bsp cur]. destruct (y_bsp s) as [k|k]; cbn in *; subst k; [|done].
    destruct Hor as [->|?]; [|done]. split; intros [? ?]; (split; [lia | done]). }
  split; cbn [set_bsp y_bsp y_smp y_ap y_stack cur idx]; try done.
  - destruct I4 as (l & K & Hl & Hst'). exists l. split_and!; [done | | done]. destruct (y_bsp s); cbn in *; lia.
  - destruct I6 as (L & hi & A & I & HA). exists L, hi, A. split; [done|]. intros j id Hj. by rewrite El, HA.
  - intros j Hj. apply El in Hj. destruct (I7 j Hj) as (p & Hp & Hl & Hs & Hw). exists p. split_and!; [done | done | | done].
    intros Hlt. destruct (decide (j = i)) as [->|]; [by apply Hst; destruct Hj|]. apply Hs. rewrite Ei. lia.
  - intros j Hj. apply I8. by rewrite <- El.
Qed.

(** The boot processor launches the next one. *)
Lemma inv_start s i id stack p : inv s → y_bsp s = Bnext i → i ≠ boot → cpus !! i = Some id →
  start_ap lapic mpenter pgdir id (y_smp s) = Ok stack p → inv (Sys p (Bspin i) (y_ap s) (upd_at (y_stack s) i (Some stack))).
Proof.
  intros [I1 I2 I3 I4 I5 I6 I7 I8] Eb Hb Hid Es. pose proof (lookup_lt_Some _ _ _ Hid) as Hlt.
  destruct I4 as (l & K & Hlen & Hstk). destruct I6 as (L & hi & A & IL & HA). rewrite Eb in *. cbn [cur] in *.
  destruct l as [|q l]; [cbn in Hlen; lia|]. destruct cpus_ok as [Hnd Hby].
  pose proof (wp_start_ap id q l L hi A (y_smp s) ltac:(by eapply (list.Forall_lookup_1 _ _ _ _ Hby)) K IL) as W.
  unfold wp in W. rewrite Es in W. destruct W as (-> & K' & Hw & [hi' IL'] & Hm).
  assert (∀ j, launched (Sys p (Bspin i) (y_ap s) (upd_at (y_stack s) i (Some q))) j ↔ launched s j ∨ j = i) as El.
  { intros j. unfold launched. cbn [y_bsp cur]. rewrite Eb. cbn [cur]. split; [|intros [[? ?]| ->]; split; (done || lia)].
    intros [? ?]. destruct (decide (j = i)); [by right | left; split; [lia | done]]. }
  assert (¬ launched s i) as Hni by (intros [Hl _]; rewrite Eb in Hl; cbn in Hl; lia).
  assert (∀ j r, upd_at (y_stack s) i (Some q) j = Some r → (j = i ∧ r = q) ∨ (j ≠ i ∧ y_stack s j = Some r)) as Hupd.
  { intros j r. destruct (decide (j = i)) as [->|Hn]; [rewrite upd_at_eq; intros [= <-]; by left | rewrite upd_at_ne by done; auto]. }
  pose proof (ki_pages _ _ _ K) as Hpg. apply list.Forall_cons in Hpg as [Hq _]. pose proof (ki_nodup _ _ _ K) as Hnq. apply list.NoDup_cons in Hnq as [Hnq _].
  split; cbn [y_bsp y_smp y_ap y_stack cur idx]; [lia | by intros j [= <-] | | | | | |].
  - intros k b Hk. rewrite Hm by lia. by apply I3.
  - exists l. split_and!; [done | cbn in Hlen; lia |]. intros j r Hr. destruct (Hupd j r Hr) as [[-> ->]|[_ Hr']]; [done|].
    destruct (Hstk j r Hr') as [Hn Hp]. split; [|done]. intros Hin. apply Hn. by right.
  - intros j k r Hj Hk. destruct (Hupd j r Hj) as [[-> ->]|[? Hj']], (Hupd k _ Hk) as [[-> E]|[? Hk']]; [done | | | by eapply I5].
    + destruct (Hstk k q Hk') as [Hn _]. destruct Hn. by left.
    + subst r. destruct (Hstk j q Hj') as [Hn _]. destruct Hn. by left.
  - eexists L, hi', _. split; [exact IL'|]. intros j id' Hj. cbn beta. rewrite El. destruct (Z.eqb_spec id' id) as [->|Hne].
    + split; [intros _; right; by eapply NoDup_lookup | done].
    + rewrite (HA j id' Hj). split; [by left|]. intros [?| ->]; [done|]. congruence.
  - intros j Hj. apply El in Hj. destruct (decide (j = i)) as [->|Hn].
    + exists q. rewrite upd_at_eq. destruct (I8 i Hni) as [-> _]. split_and!; [done | done | lia | done].
    + destruct Hj as [Hj|?]; [|done]. destruct (I7 j Hj) as (r & Hr & Hl & Hs & _). exists r. rewrite upd_at_ne by done.
      split_and!; [done | done | exact Hs | by intros [= ->]].
  - intros j Hj. rewrite El in Hj. destruct (I8 j ltac:(tauto)) as [-> E]. rewrite upd_at_ne; [done|]. intros ->. tauto.
Qed.

(** The processor that is loading goes on. *)
Lemma inv_load s i a : inv s → y_ap s i ≠ A0 → ¬ started s i →
  (∀ p, loads_ok p (y_ap s i) → words_ok (km (sm_k (y_smp s))) p → loads_ok p a) → inv (set_ap i a s).
Proof.
  intros I Hn0 Hs Ha. destruct (loading s i I Hn0 Hs) as (E & p & Hp & Hl & Hw).
  apply inv_set_ap; [done | split; [rewrite E; cbn; lia | by eapply iv_spin] | | done].
  intros q Hq. rewrite Hp in Hq. injection Hq as <-. by apply Ha.
Qed.

Hypothesis boot_ok : (boot < length cpus)%nat.

Lemma boot_inv_step s s' : inv s → step s s' → inv s'.
Proof.
  intros I Hs. destruct Hs as [s E|s i id stack p E Hb Hid Es|s i E Hst|s i id Hid Hap Ha|s i cr3 Ha|s i cr3 esp Ha|s i cr3 esp Ha].
  - apply inv_next; [done | by rewrite E | done | by left | done].
  - by eapply inv_start.
  - apply inv_next; [done | by rewrite E | | by right | done]. pose proof (iv_idx _ I) as Hi. rewrite E in Hi. cbn in Hi. lia.
  - pose proof (running_launched s i id I Hid Hap) as Hl.
    destruct (iv_launched _ I i Hl) as (p & Hp & _ & Hst & Hw).
    assert (y_bsp s = Bspin i) as E.
    { destruct Hl as [Hi _]. destruct (y_bsp s) as [j|j]; cbn in *; [|destruct (decide (i = j)) as [->|]; [done|]]; exfalso;
        (assert (started s i) as Hs by (apply Hst; lia)); unfold started in Hs; by rewrite Ha in Hs. }
    apply inv_set_ap; [done | done | | unfold started; by rewrite Ha]. intros q Hq. destruct (Hw E) as (_ & _ & H3). done.
  - apply inv_load; rewrite ?Ha; [done | done | unfold started; by rewrite Ha; auto |]. by intros p Hl (Hw & _ & _).
  - apply inv_load; rewrite ?Ha; [done | done | unfold started; by rewrite Ha; auto |]. by intros p [-> ->] (_ & Hw & _).
  - apply inv_load; rewrite ?Ha; [done | done | unfold started; by rewrite Ha; auto |]. done.
Qed.

(** The steps left. *)
Definition ap_left (a : apc) : nat := match a with A0 => 4 | A1 _ => 3 | A2 _ _ => 2 | A3 _ _ _ => 1 | A4 _ _ _ => 0 end.
Definition bsp_left (b : bpc) : nat := match b with Bnext i => 2 * (length cpus - i) | Bspin i => 2 * (length cpus - i) - 1 end.
Definition total (f : nat → nat) (l : list nat) : nat := foldr (λ i n, f i + n)%nat 0%nat l.
Definition left (s : sys) : nat := bsp_left (y_bsp s) + total (λ i, ap_left (y_ap s i)) (seq 0 (length cpus)).

Lemma total_less (f g : nat → nat) i l : i ∈ l → (∀ j, f j ≤ g j)%nat → (f i < g i)%nat → (total f l < total g l)%nat.
Proof.
  intros Hi Hle Hlt. assert (∀ l, total f l ≤ total g l)%nat as Hs.
  { induction l0 as [|x l0 IH]; cbn [total foldr]; [done|]. specialize (Hle x). unfold total in IH. lia. }
  induction l as [|x l IH]; [by apply list.not_elem_of_nil in Hi|]. cbn [total foldr]. apply elem_of_cons in Hi as [<-|Hi].
  - specialize (Hs l). unfold total in Hs. lia.
  - specialize (IH Hi). specialize (Hle x). unfold total in IH. lia.
Qed.

Lemma left_set_ap s i a : inv s → launched s i → (ap_left a < ap_left (y_ap s i))%nat → (left (set_ap i a s) < left s)%nat.
Proof.
  intros I [Hi _] Ha. unfold left. cbn [set_ap y_bsp y_ap]. pose proof (iv_idx _ I).
  assert (total (λ j, ap_left (upd_at (y_ap s) i a j)) (seq 0 (length cpus)) < total (λ j, ap_left (y_ap s j)) (seq 0 (length cpus)))%nat; [|lia].
  apply (total_less _ _ i); [apply elem_of_seq; lia | | by rewrite upd_at_eq]. intros j. destruct (decide (j = i)) as [->|]; [rewrite upd_at_eq; lia | by rewrite upd_at_ne].
Qed.

Lemma step_left s s' : inv s → step s s' → (left s' < left s)%nat.
Proof.
  intros I Hs. pose proof (boot_inv_step s s' I Hs) as I'. destruct Hs as [s E|s i id stack p E Hb Hid Es|s i E Hst|s i id Hid Hap Ha|s i cr3 Ha|s i cr3 esp Ha|s i cr3 esp Ha].
  - unfold left. cbn [set_bsp y_bsp y_ap]. rewrite E. cbn [bsp_left]. lia.
  - unfold left. cbn [y_bsp y_ap]. rewrite E. pose proof (lookup_lt_Some _ _ _ Hid). cbn [bsp_left]. lia.
  - unfold left. cbn [set_bsp y_bsp y_ap]. rewrite E. pose proof (iv_idx _ I) as Hi. rewrite E in Hi. cbn in Hi. cbn [bsp_left]. lia.
  - apply left_set_ap; [done | by eapply running_launched | rewrite Ha; cbn; lia].
  - apply left_set_ap; [done | apply loading_launched; [done | by rewrite Ha] | rewrite Ha; cbn; lia].
  - apply left_set_ap; [done | apply loading_launched; [done | by rewrite Ha] | rewrite Ha; cbn; lia].
  - apply left_set_ap; [done | apply loading_launched; [done | by rewrite Ha] | rewrite Ha; cbn; lia].
Qed.

(** Somebody can go on until the loop is done. *)
Lemma progress s : inv s → y_bsp s ≠ Bnext (length cpus) → ∃ s', step s s'.
Proof.
  intros I Hne. pose proof (iv_idx _ I) as Hi. destruct (y_bsp s) as [i|i] eqn:E; cbn in Hi.
  - destruct (decide (i = boot)) as [->|Hb]; [eexists; by apply st_self|].
    destruct (lookup_lt_is_Some_2 cpus i) as [id Hid]; [assert (i ≠ length cpus) by congruence; lia|].
    destruct (iv_free _ I) as (l & K & Hlen & _). destruct (iv_lapic _ I) as (L & hi & A & IL & _). rewrite E in Hlen. cbn in Hlen.
    destruct l as [|q l]; [pose proof (lookup_lt_Some _ _ _ Hid); cbn in Hlen; lia|]. destruct cpus_ok as [_ Hby].
    destruct (wp_elim _ _ _ (wp_start_ap id q l L hi A (y_smp s) ltac:(by eapply (list.Forall_lookup_1 _ _ _ _ Hby)) K IL)) as (r & p & Er & _).
    eexists. by eapply st_start.
  - assert (launched s i) as Hl by (split; [rewrite E; cbn; lia | by eapply iv_spin]).
    destruct (iv_launched _ I i Hl) as (p & Hp & Hld & _ & _).
    destruct (y_ap s i) as [|c|c e|c e f|c e f] eqn:Ea; cbn in Hld.
    + destruct (lookup_lt_is_Some_2 cpus i Hi) as [id Hid]. destruct (iv_lapic _ I) as (L & hi & A & (_ & _ & EA) & HA).
      eexists. eapply st_cr3; [exact Hid | | exact Ea]. rewrite EA. by apply (HA i id Hid).
    + eexists. by eapply st_esp.
    + eexists. by eapply st_call.
    + destruct Hld as (-> & -> & ->). eexists. by eapply st_mpmain.
    + eexists. apply st_seen; [exact E|]. unfold started. by rewrite Ea.
Qed.

Lemma nsteps_inv n s s' : inv s → nsteps step n s s' → inv s' ∧ (n + left s' ≤ left s)%nat.
Proof.
  intros I Hn. induction Hn as [s|n s1 s2 s3 H12 H23 IH]; [split; [done | lia]|].
  pose proof (step_left _ _ I H12). destruct (IH (boot_inv_step _ _ I H12)) as [I3 Hl]. split; [done | lia].
Qed.

(** Nobody has been started. *)
Definition boot_sys (p : smp D) : sys := Sys p (Bnext 0) (λ _, A0) (λ _, None).

Lemma inv_boot p l L hi A : kinv kend l (sm_k p) → (length cpus ≤ length l)%nat → is_lapic (sm_dev p) L hi A →
  (∀ id, id ∈ cpus → A id ≠ ApRun (V2P code)) → code + Z.of_nat (length entryother) ≤ P2V 0x8000 →
  wp (copy_entryother entryother) (λ _ p', inv (boot_sys p')) p.
Proof.
  intros K Hl IL HA Hc. unfold copy_entryother, on_k. apply zoom_wp. unfold upd_km. wp_step. split; cbn [boot_sys y_bsp y_smp y_ap y_stack cur idx sm_k sm_dev]; try done.
  - lia.
  - intros k b Hk. pose proof (lookup_lt_Some _ _ _ Hk). cbn [km set_km]. rewrite stbytes_in by lia.
    unfold bget0. replace (Z.to_nat _) with k by lia. by rewrite Hk.
  - exists l. split_and!; [|lia|done]. apply frame_low; [done|]. intros x Hx. apply stbytes_out. lia.
  - exists L, hi, A. split; [done|]. intros i id Hid. split; [|by intros [? _]; cbn in *; lia].
    intros E. destruct (HA id); [by eapply list_elem_of_lookup_2 | done].
  - intros i [Hi _]. cbn in Hi. lia.
Qed.

(** C37. Starting the processors: with a page for each, in every interleaving of
    the boot processor and of those it has started, after at most six steps for
    each processor: the code at 0x7000 is entryother.S; a processor that is up
    runs mpenter on entrypgdir and on its own stack, a page that no other
    processor has and that the allocator does not hand out again; while the
    boot processor has not left the loop somebody can go on; and when it has,
    all processors are up. *)
Theorem startothers_starts p l L hi A :
  kinv kend l (sm_k p) → (length cpus ≤ length l)%nat → is_lapic (sm_dev p) L hi A →
  (∀ id, id ∈ cpus → A id ≠ ApRun (V2P code)) → code + Z.of_nat (length entryother) ≤ P2V 0x8000 →
  wp (copy_entryother entryother) (λ _ p', ∀ n s, nsteps step n (boot_sys p') s → (n ≤ 6 * length cpus)%nat ∧
    (∀ k b, entryother !! k = Some b → km (sm_k (y_smp s)) (code + Z.of_nat k) = b) ∧
    (∃ l', kinv kend l' (sm_k (y_smp s)) ∧ ∀ i, started s i → ∃ q, is_page kend q ∧ q ∉ l' ∧
      y_ap s i = A4 (V2P pgdir) (q + KSTACKSIZE) mpenter ∧
      ∀ j c e, y_ap s j = A4 c (q + KSTACKSIZE) e → j = i) ∧
    (y_bsp s ≠ Bnext (length cpus) → ∃ s', step s s') ∧
    (y_bsp s = Bnext (length cpus) → ∀ i, (i < length cpus)%nat → i ≠ boot → started s i)) p.
Proof.
  intros K Hl IL HA Hc. eapply wp_mono; [by eapply inv_boot|]. intros [] p' I0 n s Hn. destruct (nsteps_inv n _ _ I0 Hn) as [I Hle].
  split_and!.
  - enough (left (boot_sys p') ≤ 6 * length cpus)%nat by lia. unfold left. cbn [boot_sys y_bsp y_ap bsp_left ap_left].
    enough (∀ k, total (λ _, 4%nat) (seq k (length cpus)) = 4 * length cpus)%nat as -> by lia. clear.
    induction (length cpus) as [|m IH]; intros k; [done|]. cbn [seq total foldr]. unfold total in IH. rewrite IH. lia.
  - apply (iv_code _ I).
  - destruct (iv_free _ I) as (l' & K' & _ & Hst). exists l'. split; [done|]. intros i Hi.
    assert (∀ j, started s j → ∃ q, y_stack s j = Some q ∧ y_ap s j = A4 (V2P pgdir) (q + KSTACKSIZE) mpenter) as Hup.
    { intros j Hj. destruct (iv_launched _ I j) as (q & Hq & Hld & _); [apply loading_launched; [done|]; intros E; unfold started in Hj; by rewrite E in Hj|].
      exists q. split; [done|]. unfold started in Hj. destruct (y_ap s j); try done. by destruct Hld as (-> & -> & ->). }
    destruct (Hup i Hi) as (q & Hq & Ea). destruct (Hst i q Hq). exists q. split_and!; [done | done | done |].
    intros j c e Ej. destruct (Hup j) as (q' & Hq' & Ea'); [unfold started; by rewrite Ej|]. eapply (iv_inj _ I); [|exact Hq].
    rewrite Ej in Ea'. injection Ea' as _ Eq _. assert (q' = q) as -> by lia. done.
  - by apply progress.
  - intros E i Hi Hb. destruct (iv_launched _ I i) as (q & _ & _ & Hs & _); [split; [by rewrite E | done]|]. apply Hs. by rewrite E.
Qed.
End safety.

(** ** A machine with two processors *)

Record lapic_dev := LapicDev { ld_regs : Z → Z; ld_hi : Z; ld_busy : nat; ld_ap : Z → ap_state }.
Definition lapic_base : Z := 0xFEE00000.

#[local] Instance lapic_dev_mmio : Mmio lapic_dev := {|
  mm_read a d :=
    if (a - lapic_base) / 4 =? ICRLO then
      Ok (if decide (ld_busy d = 0%nat) then 0 else DELIVS) (LapicDev (ld_regs d) (ld_hi d) (Nat.pred (ld_busy d)) (ld_ap d))
    else Ok (ld_regs d ((a - lapic_base) / 4)) d;
  mm_write a v d :=
    let i := (a - lapic_base) / 4 in
    Ok tt (if i =? ICRHI then LapicDev (ld_regs d) v (ld_busy d) (ld_ap d)
           else if i =? ICRLO then LapicDev (ld_regs d) (ld_hi d) 2 (ipi (ld_hi d) v (ld_ap d))
           else if (i =? EOI) || (i =? ESR) then d
           else LapicDev (λ j, if j =? i then v else ld_regs d j) (ld_hi d) (ld_busy d) (ld_ap d))
|}.
#[local] Instance lapic_dev_ports : Ports lapic_dev := {|
  port_in _ d := Ok 0 d; port_out _ _ d := Ok tt d; port_in_bytes _ n d := Ok (replicate n 0) d; port_out_bytes _ _ d := Ok tt d
|}.

Lemma index_of i : (lapic_base + 4 * i - lapic_base) / 4 = i.
Proof. replace (lapic_base + 4 * i - lapic_base) with (i * 4) by lia. by apply Z.div_mul. Qed.

#[local] Instance lapic_dev_laws : LocalApic lapic_base 2 ld_regs ld_hi ld_busy ld_ap.
Proof.
  split; cbv [wp mm_read mm_write lapic_dev_mmio]; intros; rewrite !index_of.
  - unfold plain in *. rewrite !elem_of_cons in *. repeat (match goal with Hi : _ ∨ _ |- _ => destruct Hi as [->|Hi] end; [done|]). by apply list.not_elem_of_nil in H.
  - by destruct H as [-> | ->].
  - done.
  - change (ICRLO =? ICRHI) with false. change (ICRLO =? ICRLO) with true. split_and!; done.
  - by rewrite (proj2 (Z.eqb_neq _ _)) by done.
  - rewrite Z.eqb_refl. cbn. split_and!; try done. destruct (decide _); [done|]. split; [done | by intros ?].
Qed.

Definition two_pages : kst := Kst (st32 (λ _, 0) 0x80200000 0x80201000) false false 0x80200000.
Definition two_smp : smp lapic_dev := Smp two_pages (LapicDev (λ _, 0) 0 0 (λ _, ApOff)).

Lemma two_pages_inv : kinv 0x80110000 [0x80200000; 0x80201000] two_pages.
Proof.
  split; [| | | done].
  - cbn [two_pages km freelist runs]. split; [done|]. rewrite ld32_st32. split; [done|]. by rewrite ld32_st32_ne by lia.
  - repeat constructor; vm_compute; done.
  - apply list.NoDup_cons. split; [|apply NoDup_singleton]. by intros ?%list_elem_of_singleton.
Qed.

Example startothers_starts_witness :
  wp (copy_entryother [250; 49; 192]) (λ _ p', ∀ n s, nsteps (step lapic_base 0x80103000 0x80109000 [0; 1] 0 ld_ap) n (boot_sys p') s →
    (n ≤ 12)%nat ∧ (y_bsp s = Bnext 2 → started s 1)) two_smp.
Proof.
  eapply wp_mono; [eapply (startothers_starts 0x80110000 lapic_base 0x80103000 0x80109000 [250; 49; 192] [0; 1] 0 2 ld_regs ld_hi ld_busy ld_ap
    ltac:(intros ? ? ? ? ? ? Hl; exact Hl) ltac:(done) ltac:(done) ltac:(split; [by apply (bool_decide_unpack _) | by repeat constructor]) ltac:(cbn; lia)
    two_smp [0x80200000; 0x80201000] (λ _, 0) 0 (λ _, ApOff)); [exact two_pages_inv | done | done | done | done]|].
  intros [] p' Hp n s Hn. destruct (Hp n s Hn) as (Hle & _ & _ & _ & Hall). split; [exact Hle|]. intros E. apply Hall; [exact E | cbn; lia | done].
Defined.
