(* ===== verification/Seg.v ===== *)
(** * Seg: segment and gate descriptors (mmu.h, seginit and switchuvm of vm.c, tvinit of trap.c)

    The descriptors of mmu.h are structures of bit fields that the processor
    reads as words.  [pack] puts fields into a word, the first one lowest, as the
    compiler does; [unpack] takes them out.  [segment] and [gate] are what the
    processor makes of the 64 bits of a descriptor.

    Shown: the processor finds in a descriptor of SEG, SEG16 and SETGATE the base
    and limit, or the offset, selector and privilege, that the macro was given;
    so after seginit every segment covers the whole address space, the user's
    with the user's privilege, and of the gates of tvinit only the one of system
    calls may be used by a program. *)

From Stdlib Require Import ZArith Lia Bool.
From stdpp Require Import base option list sets gmap strings numbers.
From S2P Require Import Prelude Trap.

#[local] Open Scope list_scope.
#[local] Open Scope Z_scope.

(** ** Bit fields *)

(** Fields are given with their widths. *)
Fixpoint pack (fs : list (Z * Z)) : Z :=
  match fs with [] => 0 | (w, v) :: fs => v mod 2 ^ w + 2 ^ w * pack fs end.
Fixpoint unpack (ws : list Z) (x : Z) : list Z :=
  match ws with [] => [] | w :: ws => x mod 2 ^ w :: unpack ws (x / 2 ^ w) end.

Lemma unpack_pack fs : Forall (λ f, 0 ≤ f.1) fs → unpack (fst <$> fs) (pack fs) = (λ f, f.2 mod 2 ^ f.1) <$> fs.
Proof.
  induction 1 as [|[w v] fs Hw Hfs IH]; [done|]. cbn [fst snd] in *. cbn [pack unpack fmap list_fmap]. cbn [fst snd].
  assert (0 < 2 ^ w) by (apply Z.pow_pos_nonneg; lia). pose proof (Z.mod_pos_bound v (2 ^ w)).
  rewrite (Z.mul_comm (2 ^ w) (pack fs)). rewrite Z.mod_add, Z.mod_mod by lia. f_equal.
  rewrite Z.div_add, Z.div_small, Z.add_0_l by lia. exact IH.
Qed.

(** ** struct segdesc *)

Record segdesc := Seg {
  lim_15_0 : Z; base_15_0 : Z; base_23_16 : Z; type : Z; s : Z; dpl : Z; p : Z; lim_19_16 : Z;
  avl : Z; rsv1 : Z; db : Z; g : Z; base_31_24 : Z
}.

Definition SEG (ty base lim d : Z) : segdesc :=
  Seg (Z.land (Z.shiftr lim 12) 0xffff) (Z.land base 0xffff) (Z.land (Z.shiftr base 16) 0xff) ty 1 d 1
      (Z.shiftr lim 28) 0 0 1 1 (Z.shiftr base 24).
Definition SEG16 (ty base lim d : Z) : segdesc :=
  Seg (Z.land lim 0xffff) (Z.land base 0xffff) (Z.land (Z.shiftr base 16) 0xff) ty 1 d 1
      (Z.shiftr lim 16) 0 0 1 0 (Z.shiftr base 24).
Definition set_s (v : Z) (x : segdesc) : segdesc :=
  Seg (lim_15_0 x) (base_15_0 x) (base_23_16 x) (type x) v (dpl x) (p x) (lim_19_16 x) (avl x) (rsv1 x) (db x) (g x) (base_31_24 x).

(** The 64 bits. *)
Definition seg_word (x : segdesc) : Z :=
  pack [(16, lim_15_0 x); (16, base_15_0 x); (8, base_23_16 x); (4, type x); (1, s x); (2, dpl x); (1, p x);
        (4, lim_19_16 x); (1, avl x); (1, rsv1 x); (1, db x); (1, g x); (8, base_31_24 x)].

Definition SEG_KCODE : nat := 1.
Definition SEG_KDATA : nat := 2.
Definition SEG_UCODE : nat := 3.
Definition SEG_UDATA : nat := 4.
Definition SEG_TSS : nat := 5.
Definition NSEGS : nat := 6.
Definition DPL_USER : Z := 3.
Definition STA_X : Z := 8.
Definition STA_W : Z := 2.
Definition STA_R : Z := 2.
Definition STS_T32A : Z := 9.
Definition STS_IG32 : Z := 14.
Definition STS_TG32 : Z := 15.

(** lgdt and lidt of x86.h: the three words that they hand to the instruction. *)
Definition u16 (x : Z) : Z := x mod 2 ^ 16.
Definition lgdt (a size : Z) : list Z := [u16 (size - 1); u16 a; u16 (Z.shiftr a 16)].
Definition lidt (a size : Z) : list Z := [u16 (size - 1); u16 a; u16 (Z.shiftr a 16)].

(** The descriptors that seginit writes into the gdt of the processor. *)
Definition seginit_gdt (gdt : list segdesc) : list segdesc :=
  let gdt := <[SEG_KCODE := SEG (Z.lor STA_X STA_R) 0 0xffffffff 0]> gdt in
  let gdt := <[SEG_KDATA := SEG STA_W 0 0xffffffff 0]> gdt in
  let gdt := <[SEG_UCODE := SEG (Z.lor STA_X STA_R) 0 0xffffffff DPL_USER]> gdt in
  <[SEG_UDATA := SEG STA_W 0 0xffffffff DPL_USER]> gdt.

(** seginit, where the gdt is at [a]; and idtinit of trap.c. *)
Definition seginit (a : Z) (gdt : list segdesc) : list segdesc * list Z := (seginit_gdt gdt, lgdt a (8 * Z.of_nat NSEGS)).
Definition idtinit (a : Z) : list Z := lidt a (8 * 256).

(** The two lines of switchuvm that set the descriptor of the task state, which
    is at [ts] and has [size] bytes. *)
Definition set_tss (ts size : Z) (gdt : list segdesc) : list segdesc :=
  <[SEG_TSS := set_s 0 (SEG16 STS_T32A ts (size - 1) 0)]> gdt.

(** ** struct gatedesc *)

Record gatedesc := Gate {
  off_15_0 : Z; cs : Z; args : Z; g_rsv1 : Z; g_type : Z; g_s : Z; g_dpl : Z; g_p : Z; off_31_16 : Z
}.
Definition SETGATE (istrap : bool) (sel off d : Z) : gatedesc :=
  Gate (Z.land off 0xffff) sel 0 0 (if istrap then STS_TG32 else STS_IG32) 0 d 1 (Z.shiftr off 16).
Definition gate_word (x : gatedesc) : Z :=
  pack [(16, off_15_0 x); (16, cs x); (5, args x); (3, g_rsv1 x); (4, g_type x); (1, g_s x); (2, g_dpl x); (1, g_p x); (16, off_31_16 x)].

Definition T_SYSCALL : nat := 64.
(** tvinit, with the table of entry points of vectors.S. *)
Definition tvinit (vectors : nat → Z) : list gatedesc :=
  <[T_SYSCALL := SETGATE true (Z.shiftl (Z.of_nat SEG_KCODE) 3) (vectors T_SYSCALL) DPL_USER]>
    ((λ i, SETGATE false (Z.shiftl (Z.of_nat SEG_KCODE) 3) (vectors i) 0) <$> seq 0 256).

(** ** What the processor reads *)

(** A segment: its base, its last byte, its type, whether it is one of the
    system's, its privilege and whether it is present. *)
Record segment := Segment { sg_base : Z; sg_last : Z; sg_type : Z; sg_system : bool; sg_dpl : Z; sg_present : bool }.
Definition segment_of (x : Z) : segment :=
  match unpack [16; 16; 8; 4; 1; 2; 1; 4; 1; 1; 1; 1; 8] x with
  | [l0; b0; b1; ty; sy; d; pr; l1; _; _; _; gr; b2] =>
      let lim := l0 + 2 ^ 16 * l1 in
      Segment (b0 + 2 ^ 16 * b1 + 2 ^ 24 * b2) (if gr =? 1 then 4096 * lim + 4095 else lim) ty (sy =? 0) d (pr =? 1)
  | _ => Segment 0 0 0 true 0 false
  end.

(** A gate: its offset, selector and privilege, whether interrupts stay enabled,
    and whether it is present; None where it is not a 32-bit gate. *)
Record gate := GateTo { gt_off : Z; gt_sel : Z; gt_dpl : Z; gt_trap : bool; gt_present : bool }.
Definition gate_of (x : Z) : option gate :=
  match unpack [16; 16; 5; 3; 4; 1; 2; 1; 16] x with
  | [o0; sel; _; _; ty; sy; d; pr; o1] =>
      if (sy =? 0) && ((ty =? STS_IG32) || (ty =? STS_TG32)) then Some (GateTo (o0 + 2 ^ 16 * o1) sel d (ty =? STS_TG32) (pr =? 1)) else None
  | _ => None
  end.

Lemma field_land x w : 0 ≤ w → Z.land x (2 ^ w - 1) = x mod 2 ^ w.
Proof. intros Hw. rewrite <- Z.land_ones by done. f_equal. rewrite Z.ones_equiv. lia. Qed.

(** A number of 32 bits from its parts. *)
Lemma split_base x : 0 ≤ x < 2 ^ 32 → x mod 2 ^ 16 + 2 ^ 16 * ((x / 2 ^ 16) mod 2 ^ 8) + 2 ^ 24 * (x / 2 ^ 24) = x.
Proof.
  intros Hx. replace (x / 2 ^ 24) with (x / 2 ^ 16 / 2 ^ 8) by (rewrite Z.div_div by lia; done).
  pose proof (Z.div_mod x (2 ^ 16)). pose proof (Z.div_mod (x / 2 ^ 16) (2 ^ 8)). lia.
Qed.

Lemma small x w : 0 ≤ x < 2 ^ w → x mod 2 ^ w = x.
Proof. apply Z.mod_small. Qed.

Lemma segment_of_word x : segment_of (seg_word x) =
  let lim := lim_15_0 x mod 2 ^ 16 + 2 ^ 16 * (lim_19_16 x mod 2 ^ 4) in
  Segment (base_15_0 x mod 2 ^ 16 + 2 ^ 16 * (base_23_16 x mod 2 ^ 8) + 2 ^ 24 * (base_31_24 x mod 2 ^ 8))
    (if g x mod 2 ^ 1 =? 1 then 4096 * lim + 4095 else lim) (type x mod 2 ^ 4) (s x mod 2 ^ 1 =? 0) (dpl x mod 2 ^ 2) (p x mod 2 ^ 1 =? 1).
Proof.
  unfold segment_of, seg_word.
  match goal with |- context [pack ?fs] => pose proof (unpack_pack fs ltac:(by repeat constructor)) as E end.
  change (fst <$> _) with [16; 16; 8; 4; 1; 2; 1; 4; 1; 1; 1; 1; 8] in E. rewrite E. reflexivity.
Qed.

Lemma segment_SEG ty base lim d : 0 ≤ ty < 16 → 0 ≤ base < 2 ^ 32 → 0 ≤ lim < 2 ^ 32 → 0 ≤ d < 4 →
  segment_of (seg_word (SEG ty base lim d)) = Segment base (4096 * (lim / 4096) + 4095) ty false d true.
Proof.
  intros Ht Hb Hl Hd. rewrite segment_of_word. unfold SEG. cbn [lim_15_0 base_15_0 base_23_16 type s dpl p lim_19_16 g base_31_24].
  change 0xffff with (2 ^ 16 - 1). change 0xff with (2 ^ 8 - 1). rewrite !field_land, !Z.shiftr_div_pow2, !Z.mod_mod by lia.
  rewrite (small (base / 2 ^ 24)), (small (lim / 2 ^ 28)), (small ty), (small d) by (lia || (split; [apply Z.div_pos; lia | apply Z.div_lt_upper_bound; lia])).
  rewrite split_base by done. cbv zeta. change (1 mod 2 ^ 1 =? 1) with true. change (1 mod 2 ^ 1 =? 0) with false. cbv iota. do 3 f_equal.
  replace (lim / 2 ^ 28) with (lim / 2 ^ 12 / 2 ^ 16) by (rewrite Z.div_div by lia; done). change 4096 with (2 ^ 12).
  pose proof (Z.div_mod (lim / 2 ^ 12) (2 ^ 16)). lia.
Qed.

Lemma segment_SEG16 ty base lim d : 0 ≤ ty < 16 → 0 ≤ base < 2 ^ 32 → 0 ≤ lim < 2 ^ 20 → 0 ≤ d < 4 →
  segment_of (seg_word (set_s 0 (SEG16 ty base lim d))) = Segment base lim ty true d true.
Proof.
  intros Ht Hb Hl Hd. rewrite segment_of_word. unfold set_s, SEG16. cbn [lim_15_0 base_15_0 base_23_16 type s dpl p lim_19_16 g base_31_24].
  change 0xffff with (2 ^ 16 - 1). change 0xff with (2 ^ 8 - 1). rewrite !field_land, !Z.shiftr_div_pow2, !Z.mod_mod by lia.
  rewrite (small (base / 2 ^ 24)), (small (lim / 2 ^ 16)), (small ty), (small d) by (lia || (split; [apply Z.div_pos; lia | apply Z.div_lt_upper_bound; lia])).
  rewrite split_base by done. cbv zeta. change (0 mod 2 ^ 1 =? 1) with false. cbv iota. f_equal. pose proof (Z.div_mod lim (2 ^ 16)). lia.
Qed.

Lemma gate_SETGATE istrap sel off d : 0 ≤ sel < 2 ^ 16 → 0 ≤ off < 2 ^ 32 → 0 ≤ d < 4 →
  gate_of (gate_word (SETGATE istrap sel off d)) = Some (GateTo off sel d istrap true).
Proof.
  intros Hs Ho Hd. unfold gate_of, gate_word.
  match goal with |- context [pack ?fs] => pose proof (unpack_pack fs ltac:(by repeat constructor)) as E end.
  change (fst <$> _) with [16; 16; 5; 3; 4; 1; 2; 1; 16] in E. rewrite E. clear E. unfold SETGATE.
  cbn [fmap list_fmap fst snd off_15_0 cs args g_rsv1 g_type g_s g_dpl g_p off_31_16].
  change 0xffff with (2 ^ 16 - 1). rewrite field_land, Z.shiftr_div_pow2, Z.mod_mod by lia.
  rewrite (small sel), (small d), (small (off / 2 ^ 16)) by (lia || (split; [apply Z.div_pos; lia | apply Z.div_lt_upper_bound; lia])).
  pose proof (Z.div_mod off (2 ^ 16)). replace (off mod 2 ^ 16 + 2 ^ 16 * (off / 2 ^ 16)) with off by lia. by destruct istrap.
Qed.

(** The table register: the last byte and the base. *)
Definition table_reg (pd : list Z) : option (Z * Z) :=
  match pd with [l; b0; b1] => Some (l, b0 + 2 ^ 16 * b1) | _ => None end.

Lemma table_reg_lgdt a size : 0 ≤ a < 2 ^ 32 → 0 < size ≤ 2 ^ 16 →
  table_reg (lgdt a size) = Some (size - 1, a) ∧ table_reg (lidt a size) = Some (size - 1, a).
Proof.
  intros Ha Hs. unfold table_reg, lgdt, lidt, u16. rewrite Z.shiftr_div_pow2, !(small (size - 1)) by lia.
  rewrite (small (a / 2 ^ 16)) by (split; [apply Z.div_pos; lia | apply Z.div_lt_upper_bound; lia]).
  pose proof (Z.div_mod a (2 ^ 16)). replace (a mod 2 ^ 16 + 2 ^ 16 * (a / 2 ^ 16)) with a by lia. done.
Qed.

(** The segments after seginit and switchuvm: code and data of the kernel and of
    the user, from 0 to the last address, and the task state. *)
Theorem segments_flat a gdt ts size : length gdt = NSEGS → 0 ≤ ts < 2 ^ 32 → 0 < size ≤ 2 ^ 20 →
  (λ x, segment_of (seg_word x)) <$> drop 1 (set_tss ts size (seginit a gdt).1) =
    [Segment 0 (2 ^ 32 - 1) 10 false 0 true; Segment 0 (2 ^ 32 - 1) 2 false 0 true;
     Segment 0 (2 ^ 32 - 1) 10 false DPL_USER true; Segment 0 (2 ^ 32 - 1) 2 false DPL_USER true;
     Segment ts (size - 1) STS_T32A true 0 true].
Proof.
  intros Hl Hts Hs. unfold NSEGS in Hl. destruct gdt as [|d0 [|d1 [|d2 [|d3 [|d4 [|d5 [|]]]]]]]; try done.
  unfold set_tss, seginit, seginit_gdt, SEG_KCODE, SEG_KDATA, SEG_UCODE, SEG_UDATA, SEG_TSS, STA_X, STA_R, STA_W, STS_T32A. change (Z.lor 8 2) with 10.
  cbn [fst insert list_insert drop fmap list_fmap]. rewrite !segment_SEG, segment_SEG16 by (unfold DPL_USER; lia). done.
Qed.

(** The gates of tvinit: each leads to its entry point in the kernel's code
    segment; programs may use the one of system calls only, and only it leaves
    interrupts enabled.  This is the table of Trap.v. *)
Theorem gates_lead vectors i : (i < 256)%nat → (∀ k, 0 ≤ vectors k < 2 ^ 32) →
  (tvinit vectors !! i) ≫= (λ x, gate_of (gate_word x)) =
    Some (GateTo (vectors i) 8 (if decide (i = T_SYSCALL) then DPL_USER else 0) (bool_decide (i = T_SYSCALL)) true) ∧
  Trap.tvinit vectors !! i =
    Some (Trap.Gate (bool_decide (i = T_SYSCALL)) 8 (vectors i) (if decide (i = T_SYSCALL) then DPL_USER else 0)).
Proof.
  intros Hi Hv. unfold tvinit, Trap.tvinit. change (Z.to_nat Trap.T_SYSCALL) with T_SYSCALL. change (Z.shiftl Trap.SEG_KCODE 3) with 8.
  change (Z.shiftl (Z.of_nat SEG_KCODE) 3) with 8. destruct (decide (i = T_SYSCALL)) as [->|Hn].
  - rewrite !list_lookup_insert_eq by (rewrite length_fmap, length_seq; unfold T_SYSCALL; lia). cbn [mbind option_bind].
    rewrite gate_SETGATE by (done || apply Hv). rewrite bool_decide_true by done. done.
  - rewrite !list_lookup_insert_ne by done. rewrite !list_lookup_fmap, lookup_seq_lt by done. cbn [fmap option_fmap option_map mbind option_bind].
    rewrite gate_SETGATE by (done || apply Hv). rewrite bool_decide_false by done. done.
Qed.
