(* ===== verification/Asm.v ===== *)
(** * Asm: the assembly of the context switch, of traps and of system calls

    swtch.S, trapasm.S, vectors.pl, usys.S, initcode.S and entry.S (and bootasm.S
    in Bootasm.v) are lists of the instructions they use, on a processor with its registers and the memory
    that the current page table maps; the segments are flat (Seg.v).  A routine
    is cut at its jumps and calls into blocks, which are at the addresses that
    the linker gives them ([placed]); [run] executes block after block.  What
    the processor does at an interrupt and at iret is [deliver] and [Iret].  A
    C function is what its calling convention says ([returns]).

    Shown: swtch saves the registers of its caller in a context and resumes the
    other one, so that a later switch back returns from the call with the
    caller's registers; a trap hands trap() the frame of x86.h with the registers
    of the interrupted code, which then goes on with the same registers, except
    for what trap() stored in the frame; the stack that allocproc and fork make
    lets the child go on where its parent called fork, with 0 as the result. *)

From Stdlib Require Import ZArith Lia Bool.
From stdpp Require Import base option list sets gmap strings numbers.
From S2P Require Import Prelude Cstring Kalloc Vm Proc ProcLife Trap Seg.

#[local] Open Scope list_scope.
#[local] Open Scope Z_scope.

(** ** The processor *)

Inductive reg := EAX | ECX | EDX | EBX | ESP | EBP | ESI | EDI.
Inductive sreg := CS | DS | ES | FS | GS | SS.
Inductive creg := CR0 | CR3 | CR4.
(** The registers, and reading and writing one of them. *)
Record regs := Regs { r_eax : Z; r_ecx : Z; r_edx : Z; r_ebx : Z; r_esp : Z; r_ebp : Z; r_esi : Z; r_edi : Z }.
Record sregs := Sregs { s_cs : Z; s_ds : Z; s_es : Z; s_fs : Z; s_gs : Z; s_ss : Z }.
Record cregs := Cregs { x_cr0 : Z; x_cr3 : Z; x_cr4 : Z }.
Definition rget (f : regs) (x : reg) : Z :=
  match x with EAX => r_eax f | ECX => r_ecx f | EDX => r_edx f | EBX => r_ebx f | ESP => r_esp f | EBP => r_ebp f | ESI => r_esi f | EDI => r_edi f end.
Definition sget (f : sregs) (x : sreg) : Z :=
  match x with CS => s_cs f | DS => s_ds f | ES => s_es f | FS => s_fs f | GS => s_gs f | SS => s_ss f end.
Definition cget (f : cregs) (x : creg) : Z :=
  match x with CR0 => x_cr0 f | CR3 => x_cr3 f | CR4 => x_cr4 f end.
Definition rput (f : regs) (x : reg) (v : Z) : regs :=
  match x with
  | EAX => Regs v (r_ecx f) (r_edx f) (r_ebx f) (r_esp f) (r_ebp f) (r_esi f) (r_edi f)
  | ECX => Regs (r_eax f) v (r_edx f) (r_ebx f) (r_esp f) (r_ebp f) (r_esi f) (r_edi f)
  | EDX => Regs (r_eax f) (r_ecx f) v (r_ebx f) (r_esp f) (r_ebp f) (r_esi f) (r_edi f)
  | EBX => Regs (r_eax f) (r_ecx f) (r_edx f) v (r_esp f) (r_ebp f) (r_esi f) (r_edi f)
  | ESP => Regs (r_eax f) (r_ecx f) (r_edx f) (r_ebx f) v (r_ebp f) (r_esi f) (r_edi f)
  | EBP => Regs (r_eax f) (r_ecx f) (r_edx f) (r_ebx f) (r_esp f) v (r_esi f) (r_edi f)
  | ESI => Regs (r_eax f) (r_ecx f) (r_edx f) (r_ebx f) (r_esp f) (r_ebp f) v (r_edi f)
  | EDI => Regs (r_eax f) (r_ecx f) (r_edx f) (r_ebx f) (r_esp f) (r_ebp f) (r_esi f) v
  end.
Definition sput (f : sregs) (x : sreg) (v : Z) : sregs :=
  match x with
  | CS => Sregs v (s_ds f) (s_es f) (s_fs f) (s_gs f) (s_ss f)
  | DS => Sregs (s_cs f) v (s_es f) (s_fs f) (s_gs f) (s_ss f)
  | ES => Sregs (s_cs f) (s_ds f) v (s_fs f) (s_gs f) (s_ss f)
  | FS => Sregs (s_cs f) (s_ds f) (s_es f) v (s_gs f) (s_ss f)
  | GS => Sregs (s_cs f) (s_ds f) (s_es f) (s_fs f) v (s_ss f)
  | SS => Sregs (s_cs f) (s_ds f) (s_es f) (s_fs f) (s_gs f) v
  end.
Definition cput (f : cregs) (x : creg) (v : Z) : cregs :=
  match x with
  | CR0 => Cregs v (x_cr3 f) (x_cr4 f)
  | CR3 => Cregs (x_cr0 f) v (x_cr4 f)
  | CR4 => Cregs (x_cr0 f) (x_cr3 f) v
  end.

Record cpu := Cpu { c_regs : regs; c_segs : sregs; c_ctl : cregs; c_flags : Z; c_eip : Z; c_mem : mem }.
Definition c_r (c : cpu) : reg → Z := rget (c_regs c).
Definition c_s (c : cpu) : sreg → Z := sget (c_segs c).
Definition c_c (c : cpu) : creg → Z := cget (c_ctl c).
Definition set_r (x : reg) (v : Z) (c : cpu) : cpu := Cpu (rput (c_regs c) x v) (c_segs c) (c_ctl c) (c_flags c) (c_eip c) (c_mem c).
Definition set_s (x : sreg) (v : Z) (c : cpu) : cpu := Cpu (c_regs c) (sput (c_segs c) x v) (c_ctl c) (c_flags c) (c_eip c) (c_mem c).
Definition set_c (x : creg) (v : Z) (c : cpu) : cpu := Cpu (c_regs c) (c_segs c) (cput (c_ctl c) x v) (c_flags c) (c_eip c) (c_mem c).
Definition set_flags (v : Z) (c : cpu) : cpu := Cpu (c_regs c) (c_segs c) (c_ctl c) v (c_eip c) (c_mem c).
Definition set_eip (v : Z) (c : cpu) : cpu := Cpu (c_regs c) (c_segs c) (c_ctl c) (c_flags c) v (c_mem c).
Definition set_mem (m : mem) (c : cpu) : cpu := Cpu (c_regs c) (c_segs c) (c_ctl c) (c_flags c) (c_eip c) m.

(** The privilege level: the low bits of cs. *)
Definition cpl (c : cpu) : Z := c_s c CS mod 4.

(** ** Instructions, with the operands in the order of the assembler *)

Inductive instr :=
  | Pushl (r : reg) | Popl (r : reg) | PushI (v : Z) | PushS (s : sreg) | PopS (s : sreg) | Pushal | Popal
  | Load (off : Z) (b d : reg)            (* movl off(b), d *)
  | Store (s b : reg)                     (* movl s, (b) *)
  | Movl (s d : reg) | MovI (v : Z) (d : reg) | MovwI (v : Z) (d : reg) | MovwS (s : reg) (d : sreg)
  | MovC (s : creg) (d : reg) | MovToC (s : reg) (d : creg)
  | AddI (v : Z) (d : reg) | OrI (v : Z) (d : reg)
  | Cli | XorW (s d : reg)
  | Jmp (a : Z) | JmpR (r : reg) | Ljmp (sel a : Z) | Call (a ret : Z) | Ret | Iret.

Section machine.
(** What the upper half of a word holds when a selector is pushed: zero or what
    was there, depending on the processor. *)
Context (pad : mem → Z → Z).
(** The privilege of the descriptor of a selector. *)
Context (dpl : Z → Z).

Definition push (v : Z) (c : cpu) : cpu :=
  let sp := u32 (c_r c ESP - 4) in set_mem (st32 (c_mem c) sp v) (set_r ESP sp c).
Definition push_sel (v : Z) (c : cpu) : cpu := push (u16 v + 2 ^ 16 * u16 (pad (c_mem c) (u32 (c_r c ESP - 4)))) c.
Definition top (c : cpu) : Z := ld32 (c_mem c) (c_r c ESP).
Definition drop4 (c : cpu) : cpu := set_r ESP (u32 (c_r c ESP + 4)) c.

(** At a return to an outer level the processor clears the data segments that
    this level may not use. *)
Definition usable (level v : Z) : bool := (v <? 4) || (level <=? dpl v).
Definition clear_seg (x : sreg) (c : cpu) : cpu := if usable (cpl c) (c_s c x) then c else set_s x 0 c.

Definition iret (c : cpu) : cpu :=
  let level := cpl c in
  let c := drop4 (set_eip (top c) c) in
  let c := drop4 (set_s CS (u16 (top c)) c) in
  let c := drop4 (set_flags (top c) c) in
  if cpl c =? level then c else
  let sp := top c in let c := drop4 c in
  let c := set_r ESP sp (set_s SS (u16 (top c)) c) in
  clear_seg GS (clear_seg FS (clear_seg ES (clear_seg DS c))).

Definition exec1 (i : instr) (c : cpu) : cpu :=
  match i with
  | Pushl r => push (c_r c r) c
  | Popl r => set_r r (top c) (drop4 c)
  | PushI v => push v c
  | PushS s => push_sel (c_s c s) c
  | PopS s => set_s s (u16 (top c)) (drop4 c)
  | Pushal => push (c_r c EDI) (push (c_r c ESI) (push (c_r c EBP) (push (c_r c ESP)
                (push (c_r c EBX) (push (c_r c EDX) (push (c_r c ECX) (push (c_r c EAX) c)))))))
  | Popal =>
      let pop r c := set_r r (top c) (drop4 c) in
      pop EAX (pop ECX (pop EDX (pop EBX (drop4 (pop EBP (pop ESI (pop EDI c)))))))
  | Load off b d => set_r d (ld32 (c_mem c) (u32 (c_r c b + off))) c
  | Store s b => set_mem (st32 (c_mem c) (c_r c b) (c_r c s)) c
  | Movl s d => set_r d (c_r c s) c
  | MovI v d => set_r d v c
  | MovwI v d => set_r d (2 ^ 16 * (c_r c d / 2 ^ 16) + u16 v) c
  | MovwS s d => set_s d (u16 (c_r c s)) c
  | MovC s d => set_r d (c_c c s) c
  | MovToC s d => set_c d (c_r c s) c
  | AddI v d => set_r d (u32 (c_r c d + v)) c
  | OrI v d => set_r d (Z.lor (c_r c d) v) c
  | Cli => set_flags (Z.ldiff (c_flags c) FL_IF) c
  | XorW s d => set_r d (2 ^ 16 * (c_r c d / 2 ^ 16) + Z.lxor (u16 (c_r c d)) (u16 (c_r c s))) c
  | Jmp a => set_eip a c
  | Ljmp sel a => set_eip a (set_s CS (u16 sel) c)
  | JmpR r => set_eip (c_r c r) c
  | Call a ret => set_eip a (push ret c)
  | Ret => drop4 (set_eip (top c) c)
  | Iret => iret c
  end.
Fixpoint exec (b : list instr) (c : cpu) : cpu := match b with [] => c | i :: b => exec b (exec1 i c) end.

(** TF, NT, RF and VM, which every gate clears. *)
Definition gate_clears : Z := 0x34100.

(** An interrupt or exception, or with [soft] the instruction int, through the
    gate [n] of [idt]; the stack of the kernel is at ss0, esp0 of the task state.
    The state is the one to return to.  None where the gate does not allow it. *)
Definition deliver (idt : list gatedesc) (ss0 esp0 : Z) (soft : bool) (n : nat) (err : option Z) (c : cpu) : option cpu :=
  g ← (idt !! n) ≫= (λ x, gate_of (gate_word x));
  if negb (gt_present g) || (soft && (gt_dpl g <? cpl c)) then None else
  let old := c in
  let c := if cpl old =? 0 then c else push (c_r old ESP) (push_sel (c_s old SS) (set_r ESP esp0 (set_s SS ss0 c))) in
  let c := push (c_eip old) (push_sel (c_s old CS) (push (c_flags old) c)) in
  let c := match err with Some e => push e c | None => c end in
  let clears := if gt_trap g then gate_clears else gate_clears + FL_IF in
  Some (set_eip (gt_off g) (set_s CS (gt_sel g) (set_flags (Z.ldiff (c_flags old) clears) c))).

(** ** The code *)

Definition swtch : list instr :=
  [Load 4 ESP EAX; Load 8 ESP EDX;
   Pushl EBP; Pushl EBX; Pushl ESI; Pushl EDI;
   Store ESP EAX; Movl EDX ESP;
   Popl EDI; Popl ESI; Popl EBX; Popl EBP; Ret].

(** The numbers for which vectors.pl leaves out the zero in place of an error code. *)
Definition pushes_err (i : nat) : bool := (i =? 8)%nat || ((10 <=? i)%nat && (i <=? 14)%nat) || (i =? 17)%nat.

(** vector$i of the generated vectors.S *)
Definition vector (alltraps : Z) (i : nat) : list instr :=
  (if negb (pushes_err i) then [PushI 0] else []) ++ [PushI (Z.of_nat i); Jmp alltraps].

(** alltraps up to its call of trap, which returns to [ret]. *)
Definition alltraps (trap ret : Z) : list instr :=
  [PushS DS; PushS ES; PushS FS; PushS GS; Pushal;
   MovwI (Z.shiftl (Z.of_nat SEG_KDATA) 3) EAX; MovwS EAX DS; MovwS EAX ES;
   Pushl ESP; Call trap ret].
Definition trapret : list instr := [Popal; PopS GS; PopS FS; PopS ES; PopS DS; AddI 8 ESP; Iret].
(** After the call: falls through to trapret. *)
Definition after_trap : list instr := AddI 4 ESP :: trapret.

(** A stub of usys.S: what it does before int $T_SYSCALL, which continues at
    [next], and after it. *)
Definition usys (num next : Z) (c : cpu) : cpu := set_eip next (exec [MovI num EAX] c).
Definition usys_ret : list instr := [Ret].

(** start of initcode.S, up to int $T_SYSCALL, which continues at [exit]; and the
    loop there. *)
Definition SYS_exec : Z := 7.
Definition SYS_exit : Z := 2.
Definition start (argv init exit : Z) (c : cpu) : cpu :=
  set_eip exit (exec [PushI argv; PushI init; PushI 0; MovI SYS_exec EAX] c).
Definition exit_loop (next : Z) (c : cpu) : cpu := set_eip next (exec [MovI SYS_exit EAX] c).
(** The string at [init] and the words at [argv]. *)
Definition init_string : list Z := [47; 105; 110; 105; 116; 0; 0].
Definition init_argv (init : Z) : list Z := [init; 0].

(** entry.S, with the page directory of main.c, the stack and main. *)
Definition CR0_WP : Z := 0x10000.
Definition CR0_PG : Z := 0x80000000.
Definition CR4_PSE : Z := 0x10.
Definition entry (pgdir stack main : Z) : list instr :=
  [MovC CR4 EAX; OrI CR4_PSE EAX; MovToC EAX CR4;
   MovI pgdir EAX; MovToC EAX CR3;
   MovC CR0 EAX; OrI (Z.lor CR0_PG CR0_WP) EAX; MovToC EAX CR0;
   MovI (stack + KSTACKSIZE) ESP;
   MovI main EAX; JmpR EAX].

(** The addresses of the code. *)
Record layout := Layout { l_swtch : Z; l_vector : nat → Z; l_alltraps : Z; l_after : Z; l_trapret : Z; l_trap : Z; l_forkret : Z }.
Record placed (code : Z → option (list instr)) (L : layout) : Prop := {
  pl_swtch : code (l_swtch L) = Some swtch;
  pl_vector i : (i < 256)%nat → code (l_vector L i) = Some (vector (l_alltraps L) i);
  pl_alltraps : code (l_alltraps L) = Some (alltraps (l_trap L) (l_after L));
  pl_after : code (l_after L) = Some after_trap;
  pl_trapret : code (l_trapret L) = Some trapret
}.

(** The blocks at the addresses that control reaches. *)
Fixpoint run (code : Z → option (list instr)) (n : nat) (c : cpu) : option cpu :=
  match n with O => Some c | S n => b ← code (c_eip c); run code n (exec b c) end.

(** The registers of the C calling convention, as struct context has them. *)
Definition saved (c : cpu) : list Z := [c_r c EDI; c_r c ESI; c_r c EBX; c_r c EBP].
(** A C function called in [c] has returned in [c']. *)
Record returns (c c' : cpu) : Prop := {
  rt_eip : c_eip c' = top c;
  rt_esp : c_r c' ESP = u32 (c_r c ESP + 4);
  rt_saved : saved c' = saved c;
  rt_seg s : c_s c' s = c_s c s
}.

(** ** The stack *)

(** The words of [vs] are in memory from [a] up. *)
Fixpoint words (m : mem) (a : Z) (vs : list Z) : Prop :=
  match vs with [] => True | v :: vs => ld32 m a = v ∧ words m (a + 4) vs end.

Lemma words_ext m m' vs : ∀ a, (∀ x, a ≤ x < a + 4 * Z.of_nat (length vs) → m x = m' x) → words m a vs → words m' a vs.
Proof.
  induction vs as [|v vs IH]; intros a He; [done|]. cbn [words length] in *. intros [<- Hw].
  split; [symmetry; apply ld32_ext; intros; apply He; lia | apply (IH (a + 4)); [intros; apply He; lia|done]].
Qed.

Lemma words_lookup m vs i v : ∀ a, words m a vs → vs !! i = Some v → ld32 m (a + 4 * Z.of_nat i) = v.
Proof.
  revert i. induction vs as [|w vs IH]; intros [|i] a; cbn [words lookup list_lookup]; try done.
  - intros [E _] [= ->]. by rewrite Z.add_0_r.
  - intros [_ Hw] Hi. rewrite <- (IH i (a + 4)) by done. f_equal. lia.
Qed.

(** [c] comes from a state with the memory [m0] by pushing the words [vs], the
    last one first, onto a stack whose top was [sp]. *)
Definition pushed (sp : Z) (m0 : mem) (vs : list Z) (c : cpu) : Prop :=
  c_r c ESP = sp - 4 * Z.of_nat (length vs) ∧ words (c_mem c) (c_r c ESP) vs ∧
  ∀ x, x < sp - 4 * Z.of_nat (length vs) ∨ sp ≤ x → c_mem c x = m0 x.

Lemma pushed_eq sp m0 vs c c' : pushed sp m0 vs c → c_r c' ESP = c_r c ESP → c_mem c' = c_mem c → pushed sp m0 vs c'.
Proof. unfold pushed. by intros ? -> ->. Qed.

Lemma pushed_push sp m0 vs v c : pushed sp m0 vs c → 0 ≤ v < 2 ^ 32 → 4 * Z.of_nat (S (length vs)) ≤ sp < 2 ^ 32 →
  pushed sp m0 (v :: vs) (push v c).
Proof.
  intros (He & Hw & Ho) Hv Hs. unfold push, pushed. rewrite u32_id by lia.
  change (c_r (set_mem _ _) ESP) with (c_r c ESP - 4); cbn [c_mem set_mem length words]. split_and!; [lia| | |].
  - by rewrite ld32_st32, u32_id.
  - replace (c_r c ESP - 4 + 4) with (c_r c ESP) by lia.
    eapply words_ext; [|exact Hw]. intros x Hx. rewrite st32_out; [done|lia].
  - intros x Hx. rewrite st32_out by lia. apply Ho. lia.
Qed.

(** A selector is pushed with some upper half. *)
Lemma pushed_sel sp m0 vs v c : pushed sp m0 vs c → 0 ≤ v < 2 ^ 16 → 4 * Z.of_nat (S (length vs)) ≤ sp < 2 ^ 32 →
  ∃ w, u16 w = v ∧ pushed sp m0 (w :: vs) (push_sel v c).
Proof.
  intros Hp Hv Hs. eexists. split; [|apply pushed_push; [done| |done]]; unfold u16.
  - rewrite Z.mul_comm, Z.mod_add, Z.mod_mod by lia. by apply Z.mod_small.
  - pose proof (Z.mod_pos_bound v (2 ^ 16)). pose proof (Z.mod_pos_bound (pad (c_mem c) (u32 (c_r c ESP - 4))) (2 ^ 16)). lia.
Qed.

(** ** The context switch *)

(** Registers hold 32 bits, selectors 16. *)
Record wf (c : cpu) : Prop := {
  wf_r r : 0 ≤ c_r c r < 2 ^ 32;
  wf_s s : 0 ≤ c_s c s < 2 ^ 16;
  wf_flags : 0 ≤ c_flags c < 2 ^ 32;
  wf_eip : 0 ≤ c_eip c < 2 ^ 32
}.

(** [a, a+n) and [b, b+k) do not meet. *)
Definition apart (a n b k : Z) : Prop := a + n ≤ b ∨ b + k ≤ a.

(** The caller of swtch: its return address and the arguments [old] and [new]
    are on its stack, which has room for a context; the variable [old] points
    to, the context [new] and the two stacks do not overlap. *)
Record calls_swtch (c : cpu) (old new : Z) : Prop := {
  cs_wf : wf c;
  cs_sp : 16 ≤ c_r c ESP ∧ c_r c ESP + 12 ≤ 2 ^ 32;
  cs_old : ld32 (c_mem c) (c_r c ESP + 4) = old;
  cs_new : ld32 (c_mem c) (c_r c ESP + 8) = new;
  cs_fits : new + 20 < 2 ^ 32;
  cs_a : apart old 4 (c_r c ESP - 16) 20;
  cs_b : apart new 20 (c_r c ESP - 16) 16;
  cs_c : apart old 4 new 20
}.

(** Execution of a block from a known state: the registers and the stack. *)
Ltac cpu_cbv := cbv beta iota zeta delta
  [exec exec1 push push_sel top drop4 set_r set_s set_c set_flags set_eip set_mem c_r c_s c_c c_regs c_segs c_ctl c_flags c_eip c_mem
   rget sget cget rput sput cput r_eax r_ecx r_edx r_ebx r_esp r_ebp r_esi r_edi s_cs s_ds s_es s_fs s_gs s_ss x_cr0 x_cr3 x_cr4].
Ltac cpu_cbv_all := cbv beta iota zeta delta
  [exec exec1 push push_sel top drop4 set_r set_s set_c set_flags set_eip set_mem c_r c_s c_c c_regs c_segs c_ctl c_flags c_eip c_mem
   rget sget cget rput sput cput r_eax r_ecx r_edx r_ebx r_esp r_ebp r_esi r_edi s_cs s_ds s_es s_fs s_gs s_ss x_cr0 x_cr3 x_cr4 cpl] in *.
Ltac offsets tf := repeat match goal with
  |- context [tf + ?a + ?b] => let k := eval cbv in (a + b) in replace (tf + a + b) with (tf + k) by lia end.
Ltac wrap_ids := repeat match goal with
  |- context [u32 ?x] => lazymatch x with context [u32 _] => fail | _ => rewrite (u32_id x) by lia end end.
Ltac mem_simp := repeat match goal with
  |- context [ld32 (st32 ?m ?a ?v) ?b] =>
    first [rewrite (ld32_st32_ne m a v b) by lia | replace b with a by lia; rewrite (ld32_st32 m a v)] end.

Lemma exec_swtch c old new : calls_swtch c old new → let c' := exec swtch c in
  words (c_mem c) new (saved c' ++ [c_eip c']) ∧ c_r c' ESP = new + 20 ∧
  ld32 (c_mem c') old = c_r c ESP - 16 ∧ words (c_mem c') (c_r c ESP - 16) (saved c ++ [top c]) ∧
  (∀ x, ¬ (c_r c ESP - 16 ≤ x < c_r c ESP) → ¬ (old ≤ x < old + 4) → c_mem c' x = c_mem c x) ∧
  c_segs c' = c_segs c ∧ c_ctl c' = c_ctl c ∧ c_flags c' = c_flags c.
Proof.
  intros [Hwf Hsp <- <- Hn Ha Hb Hc] c'. subst c'. pose proof (wf_r _ Hwf) as Hr.
  pose proof (Hr EDI). pose proof (Hr ESI). pose proof (Hr EBX). pose proof (Hr EBP).
  destruct c as [[eax ecx edx ebx sp ebp esi edi] s cr fl ip m]. unfold apart in *. cbn [c_r c_regs rget r_edi r_esi r_ebx r_ebp r_esp c_mem] in *.
  unfold swtch, saved. cbn [app words]. cpu_cbv.
  pose proof (ld32_range m (sp + 4)). pose proof (ld32_range m (sp + 8)). wrap_ids.
  split_and!; try done; mem_simp; rewrite ?u32_id by lia; try (done || lia); try (f_equal; lia).
  intros x Hx Hx'. rewrite !st32_out by lia. done.
Qed.

(** C12. swtch: the registers of the context [new] are loaded, and those of the
    caller are saved as a struct context whose address is stored in [old]; whatever runs meanwhile, a switch back to the saved
    context returns from the call. *)
Theorem swtch_resumes code L c old new : placed code L → calls_swtch c old new → c_eip c = l_swtch L →
  ∃ c', run code 1 c = Some c' ∧
    words (c_mem c) new (saved c' ++ [c_eip c']) ∧ c_r c' ESP = new + 20 ∧ c_segs c' = c_segs c ∧ c_flags c' = c_flags c ∧
    ld32 (c_mem c') old = c_r c ESP - 16 ∧ words (c_mem c') (c_r c ESP - 16) (saved c ++ [top c]) ∧
    (∀ x, ¬ (c_r c ESP - 16 ≤ x < c_r c ESP) → ¬ (old ≤ x < old + 4) → c_mem c' x = c_mem c x) ∧
    ∀ c2 old2, calls_swtch c2 old2 (ld32 (c_mem c') old) → c_eip c2 = l_swtch L → c_segs c2 = c_segs c →
      (∀ x, c_r c ESP - 16 ≤ x < c_r c ESP + 4 → c_mem c2 x = c_mem c' x) →
      ∃ c3, run code 1 c2 = Some c3 ∧ returns c c3.
Proof.
  intros HL Hc Hip. exists (exec swtch c). cbn [run]. rewrite Hip, (pl_swtch _ _ HL). cbn [mbind option_bind].
  destruct (exec_swtch c old new Hc) as (Hw & He & Ho & Hs & Hm & Hg & _ & Hf). split_and!; try done.
  intros c2 old2 Hc2 Hip2 Hg2 Hm2. exists (exec swtch c2). rewrite Hip2, (pl_swtch _ _ HL). split; [done|].
  destruct (exec_swtch c2 old2 _ Hc2) as (Hw2 & He2 & _ & _ & _ & Hs2 & _). rewrite Ho in *.
  assert (Hsw : words (c_mem c2) (c_r c ESP - 16) (saved c ++ [top c])).
  { eapply words_ext; [|exact Hs]. intros x Hx. change (length _) with 5%nat in Hx. symmetry. apply Hm2. lia. }
  destruct Hsw as (E1 & E2 & E3 & E4 & E5 & _), Hw2 as (F1 & F2 & F3 & F4 & F5 & _).
  pose proof (cs_sp _ _ _ Hc). split; [congruence|rewrite He2, u32_id; lia| |].
  - unfold saved. congruence.
  - intros x. unfold c_s. congruence.
Qed.

(** ** Traps *)

(** The trap frame at [tf] (struct trapframe of x86.h) holds the registers of
    [c]; its last two words are there for code that runs outside the kernel. *)
Definition frame_at (m : mem) (tf : Z) (c : cpu) : Prop :=
  let w off := ld32 m (tf + off) in let h off := u16 (w off) in
  (w 0 = c_r c EDI ∧ w 4 = c_r c ESI ∧ w 8 = c_r c EBP ∧ w 16 = c_r c EBX ∧ w 20 = c_r c EDX ∧ w 24 = c_r c ECX ∧ w tf_eax = c_r c EAX) ∧
  (h 32 = c_s c GS ∧ h 36 = c_s c FS ∧ h tf_es = c_s c ES ∧ h tf_ds = c_s c DS) ∧
  (w tf_eip = c_eip c ∧ h tf_cs = c_s c CS ∧ w tf_eflags = c_flags c) ∧
  (cpl c ≠ 0 → w tf_esp = c_r c ESP ∧ h tf_ss = c_s c SS).

(** The stack on which the frame of [c] is pushed, and its size. *)
Definition frame_top (esp0 : Z) (c : cpu) : Z := if cpl c =? 0 then c_r c ESP else esp0.
Definition frame_size (c : cpu) : Z := if cpl c =? 0 then tf_esp else sizeof_trapframe.

(** The code that was interrupted: outside the kernel it runs with data segments
    of its own level, in the kernel on the stack where the frame was pushed. *)
Definition resumable (tf : Z) (c : cpu) : Prop :=
  wf c ∧ if decide (cpl c = 0) then c_r c ESP = tf + tf_esp else Forall (λ s, usable (cpl c) (c_s c s) = true) [DS; ES; FS; GS].

(** [c] as trap found it, with the memory and control registers of now. *)
Definition resumed (c now : cpu) : cpu := Cpu (c_regs c) (c_segs c) (c_ctl now) (c_flags c) (c_eip c) (c_mem now).

Lemma clear_seg_ok x c : usable (cpl c) (c_s c x) = true → clear_seg x c = c.
Proof. unfold clear_seg. by intros ->. Qed.

Lemma exec_cons i b c : exec (i :: b) c = exec b (exec1 i c).
Proof. done. Qed.

Lemma exec_app b1 b2 c : exec (b1 ++ b2) c = exec b2 (exec b1 c).
Proof. revert c. induction b1; intros c; [done|apply IHb1]. Qed.

(** The pops of trapret. *)
Lemma exec_pops tf c now : frame_at (c_mem now) tf c → c_r now ESP = tf → 0 ≤ tf → tf + tf_eip < 2 ^ 32 →
  exec [Popal; PopS GS; PopS FS; PopS ES; PopS DS; AddI 8 ESP] now =
  Cpu (rput (c_regs c) ESP (tf + tf_eip)) (sput (sput (c_segs c) CS (c_s now CS)) SS (c_s now SS)) (c_ctl now) (c_flags now) (c_eip now) (c_mem now).
Proof.
  intros Hf Hesp Htf Hlen. destruct Hf as ((E1 & E2 & E3 & E4 & E5 & E6 & E7) & (F1 & F2 & F3 & F4) & _).
  destruct now as [[neax necx nedx nebx nesp nebp nesi nedi] [ncs nds nes nfs ngs nss] nctl nfl nip m].
  destruct c as [[eax ecx edx ebx esp ebp esi edi] [cs ds es fs gs ss] ctl fl ip m'].
  unfold tf_eax, tf_ds, tf_es, tf_eip in *. cpu_cbv_all. subst nesp. wrap_ids. offsets tf. rewrite Z.add_0_r in E1. congruence.
Qed.

Lemma wf_eax v c : wf c → 0 ≤ v < 2 ^ 32 → wf (set_r EAX v c).
Proof. intros Hwf Hv. split; [|apply Hwf..]. intros r. pose proof (wf_r _ Hwf r). by destruct r. Qed.

(** trapret resumes what the frame describes. *)
Lemma exec_trapret tf c now : resumable tf c → frame_at (c_mem now) tf c → c_r now ESP = tf → 0 ≤ tf → tf + frame_size c < 2 ^ 32 →
  cpl now = 0 → (cpl c = 0 → c_s now SS = c_s c SS) → exec trapret now = resumed c now.
Proof.
  intros [Hwf Hres] Hf Hesp Htf Hlen Hcpl Hss.
  assert (Et : trapret = [Popal; PopS GS; PopS FS; PopS ES; PopS DS; AddI 8 ESP] ++ [Iret]) by reflexivity. rewrite Et, exec_app.
  change (exec [Iret] ?x) with (iret x).
  assert (Hl : tf + tf_eip + 12 < 2 ^ 32) by (unfold frame_size, tf_esp, tf_eip, sizeof_trapframe in *; destruct (cpl c =? 0); lia).
  rewrite (exec_pops tf c) by (done || lia). unfold frame_size, tf_esp, sizeof_trapframe in Hlen. destruct Hf as (_ & _ & (E1 & E2 & E3) & E4).
  destruct now as [nr [ncs nds nes nfs ngs nss] nctl nfl nip m], c as [[eax ecx edx ebx esp ebp esi edi] [cs ds es fs gs ss] ctl fl ip m'].
  unfold iret, resumed, tf_eip, tf_cs, tf_eflags, tf_esp, tf_ss in *.
  destruct (decide (cpl _ = 0)) as [Hk|Hk] in Hres; cpu_cbv_all; wrap_ids; offsets tf; rewrite E2, Hcpl.
  - rewrite Hk, Hss by done. cbv iota. change (0 =? 0) with true. cbv iota. congruence.
  - rewrite (proj2 (Z.eqb_neq _ _) Hk) in *. cbv iota in *. destruct (E4 Hk) as [E5 E6]. wrap_ids. offsets tf. rewrite E1, E3, E5, E6.
    rewrite !list.Forall_cons in Hres. destruct Hres as (? & ? & ? & ? & _). by rewrite (clear_seg_ok DS), (clear_seg_ok ES), (clear_seg_ok FS), (clear_seg_ok GS).
Qed.

(** The words of the frame below eflags, from the processor's stack switch. *)
Definition outer (c : cpu) (vs : list Z) : Prop :=
  if cpl c =? 0 then vs = [] else ∃ ss, u16 ss = c_s c SS ∧ vs = [c_r c ESP; ss].

(** The processor pushes an error code for these exceptions: double fault,
    invalid task state, segment not present, stack, protection and page faults,
    and alignment check. *)
Definition has_error_code (n : nat) : bool := match n with 8 | 10 | 11 | 12 | 13 | 14 | 17 => true | _ => false end%nat.
Definition err_ok (n : nat) (err : option Z) : Prop :=
  match err with Some e => has_error_code n = true ∧ 0 ≤ e < 2 ^ 32 | None => has_error_code n = false end.

(** The stack switch and the first words. *)
Lemma pushed_outer ss0 esp0 c : wf c → 84 ≤ frame_top esp0 c < 2 ^ 32 → ∃ vs, outer c vs ∧
  pushed (frame_top esp0 c) (c_mem c) vs
    (if cpl c =? 0 then c else push (c_r c ESP) (push_sel (c_s c SS) (set_r ESP esp0 (set_s SS ss0 c)))).
Proof.
  intros Hwf. unfold frame_top, outer. destruct (cpl c =? 0); intros Hs.
  - exists []. split; [done|]. unfold pushed. cbn [length words]. split_and!; [lia|done..].
  - destruct (pushed_sel esp0 (c_mem c) [] (c_s c SS) (set_r ESP esp0 (set_s SS ss0 c))) as (ss & Hss & Hp); [|apply Hwf|cbn;lia|].
    { unfold pushed. change (c_r (set_r _ _ _) ESP) with esp0. cbn [length words]. split_and!; [lia|done..]. }
    exists [c_r c ESP; ss]. split; [by exists ss|]. apply pushed_push; [done|apply Hwf|cbn; lia].
Qed.

Lemma outer_length c vs : outer c vs → frame_size c = 68 + 4 * Z.of_nat (length vs) ∧ 4 * Z.of_nat (length vs) ≤ 8.
Proof. unfold outer, frame_size. destruct (cpl c =? 0); [intros ->|intros (ss & _ & ->)]; unfold tf_esp, sizeof_trapframe; cbn [length]; lia. Qed.

Lemma deliver_pushes vectors ss0 esp0 soft n err c : wf c → (n < 256)%nat → (∀ k, 0 ≤ vectors k < 2 ^ 32) → err_ok n err →
  (soft = true → n = T_SYSCALL ∨ cpl c = 0) → 84 ≤ frame_top esp0 c < 2 ^ 32 →
  ∃ c0 cs vs, deliver (tvinit vectors) ss0 esp0 soft n err c = Some c0 ∧ u16 cs = c_s c CS ∧ outer c vs ∧
    pushed (frame_top esp0 c) (c_mem c) (option_list err ++ [c_eip c; cs; c_flags c] ++ vs) c0 ∧ c_eip c0 = vectors n ∧
    c_segs c0 = sput (sput (c_segs c) CS 8) SS (if cpl c =? 0 then c_s c SS else ss0) ∧ rput (c_regs c0) ESP 0 = rput (c_regs c) ESP 0.
Proof.
  intros Hwf Hn Hv He Hsoft Hs. unfold deliver. rewrite (proj1 (gates_lead vectors n Hn Hv)). cbn [mbind option_bind gt_present gt_dpl gt_trap gt_off gt_sel negb orb].
  replace (soft && _) with false; cycle 1.
  { destruct soft; [|done]. symmetry. apply Z.ltb_ge. destruct (Hsoft eq_refl) as [->| ->]; [|by case_decide].
    rewrite decide_True by done. unfold cpl, DPL_USER. pose proof (Z.mod_pos_bound (c_s c CS) 4). lia. }
  destruct (pushed_outer ss0 esp0 c Hwf Hs) as (vs & Hvs & Hp). pose proof (outer_length c vs Hvs) as Hl. revert Hp.
  set (cb := if cpl c =? 0 then c else _). intros Hp.
  apply (pushed_push _ _ _ (c_flags c)) in Hp; [|apply Hwf|lia].
  apply (pushed_sel _ _ _ (c_s c CS)) in Hp as (cs & Hcs & Hp); [|apply Hwf|cbn; lia].
  apply (pushed_push _ _ _ (c_eip c)) in Hp; [|apply Hwf|cbn; lia].
  eexists _, cs, vs. split; [done|]. split; [done|]. split; [done|]. split; [|split_and!].
  - destruct err as [e|]; [|by eapply pushed_eq]. destruct He as [_ He].
    eapply pushed_eq; [apply (pushed_push _ _ _ e); [exact Hp|done|]|done..]. cbn [length app]. lia.
  - done.
  - subst cb. by destruct err, (cpl c =? 0), c as [? [] ? ? ? ?].
  - subst cb. by destruct err, (cpl c =? 0).
Qed.

(** vectors.pl knows them. *)
Lemma pushes_err_hw n : pushes_err n = has_error_code n.
Proof. do 18 (destruct n as [|n]; [done|]). done. Qed.

Lemma vector_pushes sp m0 ws a n err c : pushed sp m0 (option_list err ++ ws) c → err_ok n err → (n < 256)%nat →
  4 * (Z.of_nat (length ws) + 2) ≤ sp < 2 ^ 32 → ∃ e, let c1 := exec (vector a n) c in
  pushed sp m0 (Z.of_nat n :: e :: ws) c1 ∧ c_eip c1 = a ∧ c_segs c1 = c_segs c ∧ rput (c_regs c1) ESP 0 = rput (c_regs c) ESP 0.
Proof.
  intros Hp He Hn Hs. exists (default 0 err). unfold vector. rewrite pushes_err_hw.
  assert (Hi : pushed sp m0 (default 0 err :: ws) (exec (if negb (has_error_code n) then [PushI 0] else []) c)).
  { destruct err as [e|]; cbn [err_ok] in He; [destruct He as [-> He]; exact Hp|rewrite He]. apply pushed_push; [exact Hp|lia|lia]. }
  apply (pushed_push _ _ _ (Z.of_nat n)) in Hi; [|lia|cbn [length]; lia].
  destruct (has_error_code n); (split; [eapply pushed_eq; [exact Hi|done|done]|done]).
Qed.

Lemma pushed_all sp m0 ws c : pushed sp m0 ws c → (∀ r, 0 ≤ c_r c r < 2 ^ 32) → 4 * (Z.of_nat (length ws) + 8) ≤ sp < 2 ^ 32 →
  pushed sp m0 ([c_r c EDI; c_r c ESI; c_r c EBP; c_r c ESP; c_r c EBX; c_r c EDX; c_r c ECX; c_r c EAX] ++ ws) (exec1 Pushal c).
Proof. intros Hp Hr Hs. cbn [exec1 app]. repeat (apply pushed_push; [|apply Hr|cbn [length]; lia]). exact Hp. Qed.

Lemma pushed_sels sp m0 ws c : pushed sp m0 ws c → (∀ x, 0 ≤ c_s c x < 2 ^ 16) → 4 * (Z.of_nat (length ws) + 4) ≤ sp < 2 ^ 32 →
  ∃ gs fs es ds, u16 gs = c_s c GS ∧ u16 fs = c_s c FS ∧ u16 es = c_s c ES ∧ u16 ds = c_s c DS ∧
  pushed sp m0 ([gs; fs; es; ds] ++ ws) (exec [PushS DS; PushS ES; PushS FS; PushS GS] c).
Proof.
  intros Hp Hg Hs.
  apply (pushed_sel _ _ _ (c_s c DS)) in Hp as (ds & Hds & Hp); [|apply Hg|lia].
  apply (pushed_sel _ _ _ (c_s c ES)) in Hp as (es & Hes & Hp); [|apply Hg|cbn [length]; lia].
  apply (pushed_sel _ _ _ (c_s c FS)) in Hp as (fs & Hfs & Hp); [|apply Hg|cbn [length]; lia].
  apply (pushed_sel _ _ _ (c_s c GS)) in Hp as (gs & Hgs & Hp); [|apply Hg|cbn [length]; lia].
  by exists gs, fs, es, ds.
Qed.

(** From the frame to the call. *)
Lemma alltraps_call trap ret c ca : ca = exec [PushS DS; PushS ES; PushS FS; PushS GS; Pushal] c →
  let c1 := exec (alltraps trap ret) c in
  c_r c1 ESP = c_r (push ret (push (c_r ca ESP) ca)) ESP ∧ c_mem c1 = c_mem (push ret (push (c_r ca ESP) ca)) ∧ c_eip c1 = trap ∧
  let w := u16 (2 ^ 16 * (c_r ca EAX / 2 ^ 16) + u16 16) in c_segs c1 = sput (sput (c_segs ca) DS w) ES w.
Proof.
  intros Hca. unfold alltraps.
  change (exec _ c) with (exec ([PushS DS; PushS ES; PushS FS; PushS GS; Pushal] ++
    [MovwI (Z.shiftl (Z.of_nat SEG_KDATA) 3) EAX; MovwS EAX DS; MovwS EAX ES; Pushl ESP; Call trap ret]) c).
  rewrite exec_app, <- Hca. done.
Qed.

Lemma alltraps_pushes sp m0 ws trap ret c : pushed sp m0 ws c → (∀ r, r ≠ ESP → 0 ≤ c_r c r < 2 ^ 32) → (∀ x, 0 ≤ c_s c x < 2 ^ 16) →
  4 * (Z.of_nat (length ws) + 14) ≤ sp < 2 ^ 32 → 0 ≤ ret < 2 ^ 32 →
  let tf := sp - 4 * (Z.of_nat (length ws) + 12) in let c1 := exec (alltraps trap ret) c in
  ∃ gs fs es ds oesp, u16 gs = c_s c GS ∧ u16 fs = c_s c FS ∧ u16 es = c_s c ES ∧ u16 ds = c_s c DS ∧
  pushed sp m0 ([ret; tf; c_r c EDI; c_r c ESI; c_r c EBP; oesp; c_r c EBX; c_r c EDX; c_r c ECX; c_r c EAX; gs; fs; es; ds] ++ ws) c1 ∧
  c_eip c1 = trap ∧ c_segs c1 = sput (sput (c_segs c) DS 16) ES 16.
Proof.
  intros Hp Hr Hg Hs Hret tf c1. destruct (pushed_sels sp m0 ws c Hp Hg) as (gs & fs & es & ds & Hgs & Hfs & Hes & Hds & Hq); [lia|].
  set (cg := exec [PushS DS; PushS ES; PushS FS; PushS GS] c) in Hq.
  assert (He : c_r cg ESP = tf + 32) by (destruct Hq as [-> _]; cbn [length app]; lia).
  assert (Hrg : ∀ r, 0 ≤ c_r cg r < 2 ^ 32) by (intros r; destruct r; first [rewrite He; lia | match goal with |- context [c_r _ ?x] => exact (Hr x ltac:(done)) end]).
  exists gs, fs, es, ds, (c_r cg ESP). do 4 (split; [done|]).
  destruct (alltraps_call trap ret c (exec1 Pushal cg) eq_refl) as (E1 & E2 & E3 & E4). fold c1 in E1, E2, E3, E4.
  split; [|split; [done|]].
  - apply pushed_all in Hq; [|done|cbn [length app]; lia].
    assert (Ht : tf = c_r (exec1 Pushal cg) ESP) by (destruct Hq as [-> _]; cbn [length app]; lia).
    apply (pushed_push _ _ _ (c_r (exec1 Pushal cg) ESP)) in Hq; [|lia|cbn [length app]; lia].
    apply (pushed_push _ _ _ ret) in Hq; [|done|cbn [length app]; lia]. rewrite Ht. exact (pushed_eq _ _ _ _ _ Hq E1 E2).
  - rewrite E4. unfold u16. rewrite Z.add_comm, Z.mul_comm, Z.mod_add by lia. done.
Qed.

(** A program may use the gate of system calls only. *)
Lemma int_refused vectors ss0 esp0 n err c : (n < 256)%nat → (∀ k, 0 ≤ vectors k < 2 ^ 32) → n ≠ T_SYSCALL → cpl c ≠ 0 →
  deliver (tvinit vectors) ss0 esp0 true n err c = None.
Proof.
  intros Hn Hv Hne Hc. unfold deliver. rewrite (proj1 (gates_lead vectors n Hn Hv)). cbn [mbind option_bind gt_present gt_dpl].
  rewrite decide_False by done. rewrite (proj2 (Z.ltb_lt _ _)); [done|]. pose proof (Z.mod_pos_bound (c_s c CS) 4). unfold cpl in *. lia.
Qed.

Section entry.
Context (code : Z → option (list instr)) (L : layout) (HL : placed code L).
Context (Hv : ∀ k, 0 ≤ l_vector L k < 2 ^ 32) (Ha : 0 ≤ l_after L < 2 ^ 32).
Context (ss0 esp0 : Z) (Hss0 : 0 ≤ ss0 < 2 ^ 16).

(** The words of a frame are the fields of it. *)
Lemma words_frame m tf c gs fs es ds oesp n e cs vs : u16 gs = c_s c GS → u16 fs = c_s c FS → u16 es = c_s c ES → u16 ds = c_s c DS →
  u16 cs = c_s c CS → outer c vs →
  words m tf ([c_r c EDI; c_r c ESI; c_r c EBP; oesp; c_r c EBX; c_r c EDX; c_r c ECX; c_r c EAX; gs; fs; es; ds; n; e; c_eip c; cs; c_flags c] ++ vs) →
  frame_at m tf c ∧ ld32 m (tf + tf_trapno) = n.
Proof.
  intros Hgs Hfs Hes Hds Hcs Ho Hw.
  assert (Hi : ∀ i v, ([c_r c EDI; c_r c ESI; c_r c EBP; oesp; c_r c EBX; c_r c EDX; c_r c ECX; c_r c EAX; gs; fs; es; ds; n; e; c_eip c; cs; c_flags c] ++ vs) !! i = Some v →
    ld32 m (tf + 4 * Z.of_nat i) = v) by (intros i v; by apply words_lookup).
  split; [|exact (Hi 12%nat n eq_refl)]. unfold frame_at. split_and!.
  - exact (Hi 0%nat _ eq_refl). - exact (Hi 1%nat _ eq_refl). - exact (Hi 2%nat _ eq_refl). - exact (Hi 4%nat _ eq_refl).
  - exact (Hi 5%nat _ eq_refl). - exact (Hi 6%nat _ eq_refl). - exact (Hi 7%nat _ eq_refl).
  - rewrite <- Hgs. f_equal. exact (Hi 8%nat _ eq_refl). - rewrite <- Hfs. f_equal. exact (Hi 9%nat _ eq_refl).
  - rewrite <- Hes. f_equal. exact (Hi 10%nat _ eq_refl). - rewrite <- Hds. f_equal. exact (Hi 11%nat _ eq_refl).
  - exact (Hi 14%nat _ eq_refl). - rewrite <- Hcs. f_equal. exact (Hi 15%nat _ eq_refl). - exact (Hi 16%nat _ eq_refl).
  - intros Hc. unfold outer in Ho. rewrite (proj2 (Z.eqb_neq _ _) Hc) in Ho. destruct Ho as (ss & <- & ->).
    split; [exact (Hi 17%nat _ eq_refl)|]. f_equal. exact (Hi 18%nat _ eq_refl).
Qed.

Lemma same_regs c c' r : rput (c_regs c) ESP 0 = rput (c_regs c') ESP 0 → r ≠ ESP → c_r c r = c_r c' r.
Proof. destruct c as [[]], c' as [[]], r; cbv [c_r]; cbn; congruence. Qed.

(** The state in which trap() is called, for the trap [n] of [c]. *)
Record in_trap (n : nat) (c c1 : cpu) : Prop := {
  it_eip : c_eip c1 = l_trap L;
  it_esp : c_r c1 ESP = frame_top esp0 c - frame_size c - 8;
  it_ret : ld32 (c_mem c1) (c_r c1 ESP) = l_after L;
  it_arg : ld32 (c_mem c1) (c_r c1 ESP + 4) = frame_top esp0 c - frame_size c;
  it_frame : frame_at (c_mem c1) (frame_top esp0 c - frame_size c) c;
  it_trapno : ld32 (c_mem c1) (frame_top esp0 c - frame_size c + tf_trapno) = Z.of_nat n;
  it_mem x : x < frame_top esp0 c - frame_size c - 8 ∨ frame_top esp0 c ≤ x → c_mem c1 x = c_mem c x;
  it_segs : c_s c1 CS = 8 ∧ c_s c1 DS = 16 ∧ c_s c1 ES = 16 ∧ c_s c1 SS = if cpl c =? 0 then c_s c SS else ss0
}.

Lemma enters_trap soft n err c : wf c → (n < 256)%nat → err_ok n err → (soft = true → n = T_SYSCALL ∨ cpl c = 0) →
  84 ≤ frame_top esp0 c < 2 ^ 32 →
  ∃ c0 c1, deliver (tvinit (l_vector L)) ss0 esp0 soft n err c = Some c0 ∧ run code 2 c0 = Some c1 ∧ in_trap n c c1.
Proof.
  intros Hwf Hn He Hsoft Hs.
  destruct (deliver_pushes (l_vector L) ss0 esp0 soft n err c Hwf Hn Hv He Hsoft Hs) as (c0 & cs & vs & E0 & Hcs & Ho & Hp & Hip & Hg & Hr).
  pose proof (outer_length c vs Ho) as Hl. exists c0.
  destruct (vector_pushes _ _ _ (l_alltraps L) n err c0 Hp He Hn) as (e & Hp1 & Hip1 & Hg1 & Hr1); [cbn [length app]; lia|].
  set (cv := exec _ c0) in *. rewrite Hr in Hr1. rewrite Hg in Hg1.
  assert (Hreg : ∀ r, r ≠ ESP → c_r cv r = c_r c r) by (intros; by apply same_regs).
  assert (Hsg : c_s cv DS = c_s c DS ∧ c_s cv ES = c_s c ES ∧ c_s cv FS = c_s c FS ∧ c_s cv GS = c_s c GS) by (unfold c_s; by rewrite Hg1).
  destruct Hsg as (Gds & Ges & Gfs & Ggs).
  destruct (alltraps_pushes _ _ _ (l_trap L) (l_after L) _ Hp1) as (gs & fs & es & ds & oesp & Egs & Efs & Ees & Eds & Hp2 & Hip2 & Hg2).
  { intros r Hne. rewrite Hreg by done. apply Hwf. }
  { intros x. unfold c_s. rewrite Hg1. pose proof (wf_s _ Hwf x). unfold c_s in *. destruct x; cbn in *; try done.
    destruct (cpl c =? 0); [apply (wf_s _ Hwf SS)|done]. }
  { cbn [length app]. lia. }
  { done. }
  revert Hp2 Hip2 Hg2. set (c1 := exec (alltraps (l_trap L) (l_after L)) cv). intros Hp2 Hip2 Hg2. exists c1. split; [done|]. split.
  { cbn [run]. rewrite Hip, (pl_vector _ _ HL) by done. cbn [mbind option_bind]. fold cv. by rewrite Hip1, (pl_alltraps _ _ HL). }
  clearbody c1. rewrite !Hreg in Hp2 by done. revert Hp2.
  replace (frame_top esp0 c - 4 * _) with (frame_top esp0 c - frame_size c) by (cbn [length app]; lia).
  set (tf := frame_top esp0 c - frame_size c). intros (Hesp & Hw & Hm). cbn [length app] in Hesp, Hm.
  assert (Et : c_r c1 ESP = tf - 8) by lia. rewrite Et in Hw. destruct Hw as (Hret & Harg & Hw). replace (tf - 8 + 4 + 4) with tf in Hw by lia.
  destruct (words_frame (c_mem c1) tf c gs fs es ds oesp (Z.of_nat n) e cs vs) as [Hf Ht]; [congruence..|done|done|].
  split; [done|done|by rewrite Et|by rewrite Et|done|done| |].
  - intros x Hx. apply Hm. lia.
  - unfold c_s. rewrite Hg2, Hg1. done.
Qed.

(** C11. A trap taken in [c], and a system call, is transparent: the stack gets the
    frame of x86.h with the registers of [c] and its number, and trap() is called
    with its address, in the segments of the kernel; when trap() returns, [c]
    goes on with the registers it had, but for the eax that trap() put into the
    frame.  In particular the handler of an interrupt, which leaves the frame as
    it is, changes no register of the code it interrupts. *)
Theorem trap_resumes soft n err c : wf c → (n < 256)%nat → err_ok n err → (soft = true → n = T_SYSCALL ∨ cpl c = 0) →
  84 ≤ frame_top esp0 c < 2 ^ 32 → (cpl c ≠ 0 → Forall (λ s, usable (cpl c) (c_s c s) = true) [DS; ES; FS; GS]) →
  ∃ c0 c1, deliver (tvinit (l_vector L)) ss0 esp0 soft n err c = Some c0 ∧ run code 2 c0 = Some c1 ∧ in_trap n c c1 ∧
    ∀ c2 v, returns c1 c2 → 0 ≤ v < 2 ^ 32 → frame_at (c_mem c2) (frame_top esp0 c - frame_size c) (set_r EAX v c) →
      run code 1 c2 = Some (resumed (set_r EAX v c) c2).
Proof.
  intros Hwf Hn He Hsoft Hs Hu. destruct (enters_trap soft n err c Hwf Hn He Hsoft Hs) as (c0 & c1 & E0 & E1 & Ht).
  exists c0, c1. split_and!; try done. intros c2 v Hret Hv' Hf. cbn [run].
  assert (Hz : frame_size c = 68 ∨ frame_size c = 76) by (unfold frame_size; destruct (cpl c =? 0); auto).
  rewrite (rt_eip _ _ Hret). unfold top. rewrite (it_ret _ _ _ Ht), (pl_after _ _ HL). cbn [mbind option_bind].
  unfold after_trap. rewrite exec_cons. destruct (it_segs _ _ _ Ht) as (Ecs & _ & _ & Ess).
  rewrite (exec_trapret (frame_top esp0 c - frame_size c) (set_r EAX v c)); [done|..].
  - split; [by apply wf_eax|]. change (cpl (set_r EAX v c)) with (cpl c). case_decide as Hc; [|by apply Hu].
    change (c_r (set_r EAX v c) ESP) with (c_r c ESP). unfold frame_top, frame_size. rewrite Hc. cbn. unfold tf_esp. lia.
  - done.
  - change (c_r (exec1 _ c2) ESP) with (u32 (c_r c2 ESP + 4)). rewrite (rt_esp _ _ Hret), (it_esp _ _ _ Ht). wrap_ids. lia.
  - lia.
  - change (frame_size (set_r EAX v c)) with (frame_size c). lia.
  - change (cpl (exec1 _ c2)) with (c_s c2 CS mod 4). by rewrite (rt_seg _ _ Hret), Ecs.
  - change (c_s (exec1 _ c2) SS) with (c_s c2 SS). change (cpl (set_r EAX v c)) with (cpl c). intros Hc. by rewrite (rt_seg _ _ Hret), Ess, Hc.
Qed.

(** ** The first run of a process *)

Lemma frame_ext m m' tf c : (∀ x, tf ≤ x < tf + sizeof_trapframe → m' x = m x) → frame_at m tf c → frame_at m' tf c.
Proof.
  intros He. assert (Hw : ∀ off, 0 ≤ off ≤ 72 → ld32 m' (tf + off) = ld32 m (tf + off)).
  { intros off Ho. apply ld32_ext. intros x Hx. apply He. unfold sizeof_trapframe. lia. }
  unfold frame_at, tf_eax, tf_es, tf_ds, tf_eip, tf_cs, tf_eflags, tf_esp, tf_ss. rewrite !Hw by lia. done.
Qed.

(** tf->eax = v *)
Lemma frame_eax m tf v c : 0 ≤ v < 2 ^ 32 → frame_at m tf c → frame_at (st32 m (tf + tf_eax) v) tf (set_r EAX v c).
Proof.
  intros Hb. assert (Hw : ∀ off, off + 4 ≤ 28 ∨ 32 ≤ off → ld32 (st32 m (tf + 28) v) (tf + off) = ld32 m (tf + off)).
  { intros off Ho. apply ld32_st32_ne. lia. }
  unfold frame_at, tf_eax, tf_es, tf_ds, tf_eip, tf_cs, tf_eflags, tf_esp, tf_ss. rewrite ld32_st32, u32_id, !Hw by lia.
  intros ((H1 & H2 & H3 & H4 & H5 & H6 & _) & H7 & H8 & H9). split; [by split_and!|exact (conj H7 (conj H8 H9))].
Qed.

(** The frame that fork gives the child is the parent's with eax 0. *)
Lemma child_frame_at tf ptf m c : frame_at (km m) ptf c →
  frame_at (km (child_frame tf ptf m)) tf (set_r EAX 0 c).
Proof.
  intros Hf. unfold child_frame. cbn [km set_km]. apply frame_eax; [lia|]. revert Hf.
  assert (Hw : ∀ off, 0 ≤ off ≤ 72 → ld32 (mem_copy (km m) tf ptf sizeof_trapframe) (tf + off) = ld32 (km m) (ptf + off)).
  { intros off Ho. unfold ld32. rewrite !mem_copy_in by (unfold sizeof_trapframe; lia). replace (ptf + (tf + off - tf)) with (ptf + off) by lia.
    replace (ptf + (tf + off + 1 - tf)) with (ptf + off + 1) by lia. replace (ptf + (tf + off + 2 - tf)) with (ptf + off + 2) by lia.
    by replace (ptf + (tf + off + 3 - tf)) with (ptf + off + 3) by lia. }
  unfold frame_at, tf_eax, tf_es, tf_ds, tf_eip, tf_cs, tf_eflags, tf_esp, tf_ss. by rewrite !Hw by lia.
Qed.

(** The stack that allocproc builds: a context that starts at forkret, which
    returns to trapret. *)
Lemma stack_frame_words k trapret forkret m : 0 ≤ trapret < 2 ^ 32 → 0 ≤ forkret < 2 ^ 32 →
  words (km (stack_frame k trapret forkret m)) (k + KSTACKSIZE - sizeof_trapframe - 4 - sizeof_context) [0; 0; 0; 0; forkret; trapret].
Proof.
  intros Ht Hf. unfold stack_frame, KSTACKSIZE, sizeof_trapframe, sizeof_context, cx_eip. cbn [km set_km words].
  set (a := k + 4096 - 76 - 4). rewrite !(ld32_st32_ne _ (a - 20 + 16)) by lia. rewrite !ld32_memset0 by lia.
  replace (a - 20 + 4 + 4 + 4 + 4) with (a - 20 + 16) by lia. rewrite ld32_st32, ld32_st32_ne by lia.
  replace (a - 20 + 16 + 4) with a by lia. rewrite ld32_memset_ne by lia. by rewrite ld32_st32, !u32_id.
Qed.

(** C8. The child of fork: [c] is the parent as the system call interrupted it, whose
    frame is at [ptf]; the kernel memory is what allocproc and fork made of it,
    with the stack of the child in the page [k].  When the scheduler switches to
    the context of the child for the first time, it is in forkret, and when
    forkret returns, the child goes on like [c], with 0 in eax. *)
Theorem child_starts c k ptf m1 m2 sc old : let cx := k + KSTACKSIZE - sizeof_trapframe - 4 - sizeof_context in
  let tf := k + KSTACKSIZE - sizeof_trapframe in
  wf c → cpl c ≠ 0 → Forall (λ s, usable (cpl c) (c_s c s) = true) [DS; ES; FS; GS] →
  0 ≤ k → k + KSTACKSIZE < 2 ^ 32 → 0 ≤ l_trapret L < 2 ^ 32 → 0 ≤ l_forkret L < 2 ^ 32 →
  frame_at (km m2) ptf c →
  (∀ x, cx ≤ x < tf → km m2 x = km (stack_frame k (l_trapret L) (l_forkret L) m1) x) →
  calls_swtch sc old cx → c_eip sc = l_swtch L → cpl sc = 0 →
  (∀ x, cx ≤ x < k + KSTACKSIZE → c_mem sc x = km (child_frame tf ptf m2) x) →
  apart old 4 cx 100 → apart (c_r sc ESP - 16) 16 cx 100 →
  ∃ s1, run code 1 sc = Some s1 ∧ c_eip s1 = l_forkret L ∧
    ∀ s2, returns s1 s2 → (∀ x, tf ≤ x < k + KSTACKSIZE → c_mem s2 x = c_mem s1 x) →
      run code 1 s2 = Some (resumed (set_r EAX 0 c) s2).
Proof.
  intros cx tf Hwf Hc Hu Hk Hk' Ht Hfr Hpf Hm2 Hcall Hip Hcpl Hmem Hold Hstk.
  assert (Etf : tf = cx + 24) by (subst tf cx; unfold sizeof_context; lia). assert (Ek : k + KSTACKSIZE = cx + 100) by (subst cx; unfold sizeof_trapframe, sizeof_context; lia).
  assert (0 ≤ cx) by (subst cx; unfold KSTACKSIZE, sizeof_trapframe, sizeof_context; lia).
  exists (exec swtch sc). cbn [run]. rewrite Hip, (pl_swtch _ _ HL). split; [done|].
  destruct (exec_swtch sc old cx Hcall) as (Hw & He & _ & _ & Hm & Hg & _ & _). set (s1 := exec swtch sc) in *. clearbody s1. unfold apart in *.
  assert (Hsw : words (c_mem sc) cx [0; 0; 0; 0; l_forkret L; l_trapret L]).
  { eapply words_ext; [|apply (stack_frame_words k (l_trapret L) (l_forkret L) m1); done]. intros x Hx. fold cx in Hx. change (length _) with 6%nat in Hx.
    rewrite Hmem by lia. unfold child_frame. cbn [km set_km]. rewrite st32_out by (unfold tf_eax; lia). rewrite mem_copy_out by lia. symmetry. apply Hm2. lia. }
  destruct Hsw as (_ & _ & _ & _ & W5 & W6 & _), Hw as (_ & _ & _ & _ & V5 & _). split; [congruence|].
  intros s2 Hret Hm3. rewrite (rt_eip _ _ Hret). unfold top. rewrite He.
  rewrite (ld32_ext _ (c_mem sc)) by (intros; apply Hm; lia). replace (cx + 20) with (cx + 4 + 4 + 4 + 4 + 4) by lia.
  rewrite W6, (pl_trapret _ _ HL). cbn [mbind option_bind]. f_equal. rewrite (exec_trapret tf (set_r EAX 0 c)); [done|..].
  - split; [by apply wf_eax|]. by rewrite decide_False.
  - apply (frame_ext (km (child_frame tf ptf m2))); [|by apply child_frame_at].
    intros x Hx. unfold sizeof_trapframe in Hx. rewrite Hm3, Hm, Hmem by lia. done.
  - rewrite (rt_esp _ _ Hret), He, u32_id; lia.
  - lia.
  - unfold frame_size. change (cpl (set_r EAX 0 c)) with (cpl c). rewrite (proj2 (Z.eqb_neq _ _) Hc). unfold sizeof_trapframe. lia.
  - unfold cpl. rewrite (rt_seg _ _ Hret). unfold c_s. rewrite Hg. exact Hcpl.
  - done.
Qed.
End entry.

(** ** The user's side of a system call, and the entry of the kernel *)

(** A stub returns to its caller with the result of the call in eax, when the
    call left the stack of the caller as it was: [now] is the state of the
    kernel at its iret (see [trap_resumes]). *)
Theorem stub_returns num next v c now : ld32 (c_mem now) (c_r c ESP) = top c →
  let c' := exec usys_ret (resumed (set_r EAX v (usys num next c)) now) in
  returns c c' ∧ c_r c' EAX = v ∧ (∀ r, r ≠ EAX → r ≠ ESP → c_r c' r = c_r c r) ∧
  c_r (usys num next c) EAX = num ∧ c_r (usys num next c) ESP = c_r c ESP.
Proof.
  intros Ht. split_and!; try done. by intros [].
Qed.

(** initcode asks for exec with the string and the vector of the image as its
    arguments, where argint looks for them, above the return address. *)
Theorem initcode_calls_exec argv init exit c : wf c → 0 ≤ argv < 2 ^ 32 → 0 ≤ init < 2 ^ 32 → 12 ≤ c_r c ESP →
  let c' := start argv init exit c in
  c_r c' EAX = SYS_exec ∧ c_r c' ESP = c_r c ESP - 12 ∧ c_eip c' = exit ∧ words (c_mem c') (c_r c' ESP) [0; init; argv] ∧
  (∀ x, x < c_r c ESP - 12 ∨ c_r c ESP ≤ x → c_mem c' x = c_mem c x) ∧
  c_r (exit_loop exit c') EAX = SYS_exit.
Proof.
  intros Hwf Ha Hi Hs. pose proof (wf_r _ Hwf ESP) as He.
  assert (Hp : pushed (c_r c ESP) (c_mem c) [] c) by (split_and!; [cbn [length]; lia|done..]).
  apply (pushed_push _ _ _ argv) in Hp; [|done|cbn [length]; lia]. apply (pushed_push _ _ _ init) in Hp; [|done|cbn [length]; lia].
  apply (pushed_push _ _ _ 0) in Hp; [|lia|cbn [length]; lia]. cbn [length] in Hp.
  destruct (pushed_eq _ _ _ _ (start argv init exit c) Hp eq_refl eq_refl) as (E1 & E2 & E3). cbn [length] in E1, E3.
  by split_and!; try apply E2.
Qed.

(** entry turns on paging with the directory it is given, keeps the other bits
    of the control registers, and is at main on the kernel's stack. *)
Theorem entry_enables_paging pgdir stack main c : let c' := exec (entry pgdir stack main) c in
  c_c c' CR3 = pgdir ∧ c_r c' ESP = stack + KSTACKSIZE ∧ c_eip c' = main ∧ c_mem c' = c_mem c ∧
  (∀ i, 0 ≤ i → Z.testbit (c_c c' CR0) i = Z.testbit (c_c c CR0) i || (i =? 31) || (i =? 16)) ∧
  (∀ i, 0 ≤ i → Z.testbit (c_c c' CR4) i = Z.testbit (c_c c CR4) i || (i =? 4)).
Proof.
  split_and!; try done; intros i Hi.
  - change (c_c (exec _ _) CR0) with (Z.lor (c_c c CR0) (Z.lor (2 ^ 31) (2 ^ 16))). rewrite !Z.lor_spec, !Z.pow2_bits_eqb by lia.
    by rewrite orb_assoc, !(Z.eqb_sym i).
  - change (c_c (exec _ _) CR4) with (Z.lor (c_c c CR4) (2 ^ 4)). rewrite Z.lor_spec, Z.pow2_bits_eqb by lia. by rewrite (Z.eqb_sym i).
Qed.

End machine.

(** ** A concrete machine *)

Definition demo_layout : layout :=
  Layout 0x80104000 (λ i, u32 (0x80106000 + 8 * Z.of_nat i)) 0x80105000 0x80105020 0x80105040 0x80105100 0x80105200.
Definition demo_code (a : Z) : option (list instr) :=
  if a =? 0x80104000 then Some swtch else
  if a =? 0x80105000 then Some (alltraps 0x80105100 0x80105020) else
  if a =? 0x80105020 then Some after_trap else
  if a =? 0x80105040 then Some trapret else
  let i := (a - 0x80106000) / 8 in
  if (0 <=? i) && (i <? 256) && (a =? 0x80106000 + 8 * i) then Some (vector 0x80105000 (Z.to_nat i)) else None.
(** The upper half of a pushed selector, and the privileges of seginit. *)
Definition demo_pad (m : mem) (a : Z) : Z := m (a + 2).
Definition demo_dpl (v : Z) : Z := if (v / 8 =? 3) || (v / 8 =? 4) then 3 else 0.

Lemma demo_placed : placed demo_code demo_layout.
Proof.
  split; try done. intros i Hi. unfold demo_code, demo_layout, l_vector, l_alltraps. rewrite u32_id by lia.
  rewrite !(proj2 (Z.eqb_neq _ _)) by lia. replace (_ - _) with (Z.of_nat i * 8) by lia. rewrite Z.div_mul by lia.
  rewrite (proj2 (Z.leb_le _ _)), (proj2 (Z.ltb_lt _ _)) by lia. rewrite Z.mul_comm, Z.eqb_refl. cbn [andb]. by rewrite Nat2Z.id.
Qed.

Fixpoint stwords (m : mem) (a : Z) (vs : list Z) : mem := match vs with [] => m | v :: vs => stwords (st32 m a v) (a + 4) vs end.

(** The kernel in a call of swtch, and the other side that switches back. *)
Definition demo_kernel (sp : Z) (m : mem) : cpu :=
  Cpu (Regs 0 0 0 11 sp 12 13 14) (Sregs 8 16 16 0 0 16) (Cregs 0 0 0) 0 0x80104000 m.
Definition demo_switch : cpu :=
  demo_kernel 0x8DFFE000 (stwords (stwords (λ _, 0) 0x8DFFE000 [0x80103000; 0x80112000; 0x8DFFD000]) 0x8DFFD000 [1; 2; 3; 4; 0x80103500]).
Definition demo_back (c : cpu) : cpu := demo_kernel 0x8DFFC800 (stwords (c_mem c) 0x8DFFC800 [0x80103600; 0x80112010; 0x8DFFDFF0]).

Ltac in_range := vm_compute; split; (discriminate || reflexivity).
Ltac apart_l := left; vm_compute; discriminate.
Ltac apart_r := right; vm_compute; discriminate.
Ltac demo_wf := split; [intros []; in_range|intros []; in_range|in_range|in_range].

Lemma swtch_resumes_witness : ∃ c c3, run demo_pad demo_dpl demo_code 1 demo_switch = Some c ∧ c_r c EDI = 1 ∧
  run demo_pad demo_dpl demo_code 1 (demo_back c) = Some c3 ∧ c_r c3 EBX = 11 ∧ c_eip c3 = 0x80103000.
Proof.
  destruct (swtch_resumes demo_pad demo_dpl demo_code demo_layout demo_switch 0x80112000 0x8DFFD000 demo_placed) as (c & E & Hw & _ & _ & _ & Eo & _ & _ & Hback).
  { split; [demo_wf|in_range|reflexivity|reflexivity|reflexivity|apart_l|apart_l|apart_l]. }
  { reflexivity. }
  rewrite Eo in Hback. destruct (Hback (demo_back c) 0x80112010) as (c3 & E3 & Hr).
  { split; [demo_wf|in_range|reflexivity|reflexivity|reflexivity|apart_l|apart_r|apart_l]. }
  { reflexivity. }
  { reflexivity. }
  { intros x Hx. unfold demo_back, demo_kernel, stwords. cbn [c_mem]. change (c_r demo_switch ESP) with 0x8DFFE000 in Hx. rewrite !st32_out by lia. reflexivity. }
  exists c, c3. split; [exact E|]. split; [symmetry; apply Hw|]. split; [exact E3|].
  split; [|apply (rt_eip _ _ Hr)]. pose proof (rt_saved _ _ Hr) as Hs. injection Hs as _ _ Hs _. exact Hs.
Defined.

(** A program in a system call, and trap() having stored 5 as its result. *)
Definition demo_user : cpu :=
  Cpu (Regs 11 2 3 4 0x2FF0 6 7 8) (Sregs 0x1B 0x23 0x23 0 0 0x23) (Cregs 0 0 0) 0x202 0x100 (λ _, 0).
Definition demo_handled (tf : Z) (c : cpu) : cpu :=
  Cpu (rput (c_regs c) ESP (u32 (c_r c ESP + 4))) (c_segs c) (c_ctl c) (c_flags c) (top c) (st32 (c_mem c) (tf + tf_eax) 5).

Lemma trap_resumes_witness : ∃ c0 c1, deliver demo_pad (tvinit (l_vector demo_layout)) 16 0x8DFFF000 true T_SYSCALL None demo_user = Some c0 ∧
  run demo_pad demo_dpl demo_code 2 c0 = Some c1 ∧ c_eip c1 = l_trap demo_layout ∧
  run demo_pad demo_dpl demo_code 1 (demo_handled 0x8DFFEFB4 c1) = Some (resumed (set_r EAX 5 demo_user) (demo_handled 0x8DFFEFB4 c1)).
Proof.
  destruct (trap_resumes demo_pad demo_dpl demo_code demo_layout demo_placed
    (λ k, Z.mod_pos_bound _ (2 ^ 32) eq_refl) ltac:(in_range) 16 0x8DFFF000 ltac:(in_range) true T_SYSCALL None demo_user)
    as (c0 & c1 & E0 & E1 & Ht & Hr); [demo_wf|unfold T_SYSCALL; lia|reflexivity|left; reflexivity|in_range|repeat constructor|].
  exists c0, c1. split; [exact E0|]. split; [exact E1|]. split; [apply (it_eip _ _ _ _ _ _ Ht)|]. apply Hr.
  - split; reflexivity.
  - in_range.
  - apply (frame_eax _ _ 5); [in_range|]. exact (it_frame _ _ _ _ _ _ Ht).
Defined.

(** The memory in which that program has forked: its frame is on the kernel stack
    that ends at 0x8DFFF000, the stack of the child is the page 0x8DFFA000; and
    the scheduler about to switch to the child. *)
Definition demo_m1 : kst := Kst (λ _, 0) false false 0.
Definition demo_m2 : kst :=
  set_km (stwords (km (stack_frame 0x8DFFA000 0x80105040 0x80105200 demo_m1)) 0x8DFFEFB4
    [8; 7; 6; 0; 4; 3; 2; 11; 0; 0; 0x23; 0x23; 64; 0; 0x100; 0x1B; 0x202; 0x2FF0; 0x23]) demo_m1.
Definition demo_sched : cpu :=
  demo_kernel 0x8DFFC800 (stwords (km (child_frame 0x8DFFAFB4 0x8DFFEFB4 demo_m2)) 0x8DFFC800 [0x80103600; 0x80112010; 0x8DFFAF9C]).
Definition demo_forked (c : cpu) : cpu := Cpu (rput (c_regs c) ESP (u32 (c_r c ESP + 4))) (c_segs c) (c_ctl c) (c_flags c) (top c) (c_mem c).

Lemma child_starts_witness : ∃ s1, run demo_pad demo_dpl demo_code 1 demo_sched = Some s1 ∧ c_eip s1 = l_forkret demo_layout ∧
  run demo_pad demo_dpl demo_code 1 (demo_forked s1) = Some (resumed (set_r EAX 0 demo_user) (demo_forked s1)).
Proof.
  destruct (child_starts demo_pad demo_dpl demo_code demo_layout demo_placed demo_user 0x8DFFA000 0x8DFFEFB4 demo_m1 demo_m2 demo_sched 0x80112010)
    as (s1 & E1 & Hip & Hr); [demo_wf|discriminate|repeat constructor|discriminate|reflexivity|in_range|in_range| | | |reflexivity|reflexivity| | | |].
  - unfold frame_at. split; [split_and!; reflexivity|]. split; [split_and!; reflexivity|]. split; [split_and!; reflexivity|].
    intros _. split; reflexivity.
  - intros x Hx. cbv [KSTACKSIZE sizeof_trapframe sizeof_context] in Hx. unfold demo_m2. cbn [km set_km stwords]. rewrite !st32_out by lia. reflexivity.
  - split; [demo_wf|in_range|reflexivity|reflexivity|reflexivity|apart_l|apart_l|apart_l].
  - intros x Hx. cbv [KSTACKSIZE sizeof_trapframe sizeof_context] in Hx. unfold demo_sched, demo_kernel. cbn [c_mem stwords]. rewrite !st32_out by lia. reflexivity.
  - apart_l.
  - apart_r.
  - exists s1. split; [exact E1|]. split; [exact Hip|]. apply Hr; [|intros; reflexivity].
    split; reflexivity.
Defined.
