(* ===== verification/Bootasm.v ===== *)
(** * Bootasm: from the reset of the processor to bootmain (bootasm.S, asm.h)

    The boot sector enables the address line A20 through the keyboard controller,
    loads a table of descriptors, turns on protection and calls bootmain of
    Boot.v with a stack below itself.  The instructions are those of Asm.v; the
    two loops that wait for the controller are on the ports of Ports.v, and what
    they rely on is the class [Kbc].

    Shown: the controller leaves the two loops, and A20 is on; the descriptors
    that the macros of asm.h write are those of SEG in Seg.v, for all bases and
    limits, so that the segments of the boot loader are flat; bootmain is called
    with protection on, interrupts off and these segments. *)

From Stdlib Require Import ZArith Lia Bool.
From stdpp Require Import base option list sets gmap strings numbers.
From S2P Require Import Prelude Cstring Kalloc Vm Proc Trap Seg Ports Asm.

#[local] Open Scope string_scope.
#[local] Open Scope list_scope.
#[local] Open Scope Z_scope.

(** ** The line A20 *)

Section a20.
Context {D : Type} `{Ports D}.

(** inb $0x64, %al; testb $0x2, %al; jnz *)
Fixpoint seta20_wait (fuel : nat) : M D unit :=
  match fuel with
  | O => undef "out of fuel"
  | S fuel => al ← inb 0x64; if Z.land al 2 =? 0 then mret tt else seta20_wait fuel
  end.

Definition seta20 (fuel : nat) : M D unit :=
  seta20_wait fuel;;
  outb 0x64 0xd1;;
  seta20_wait fuel;;
  outb 0x60 0xdf.
End a20.

(** The controller: how often its status will still show a full input buffer,
    the command that waits for a byte, and its output port, whose bit 1 is the
    line A20.  A full buffer may only be written when the status shows it empty;
    each reading of the status brings it nearer to that, and it is at most
    [kbc_max] readings away. *)
Record kbc := KbcSt { kb_busy : nat; kb_cmd : option Z; kb_out : Z }.
Class Kbc (D : Type) `{Ports D} := {
  kbc_of : D → kbc;
  kbc_max : nat;
  kbc_bound d : (kb_busy (kbc_of d) ≤ kbc_max)%nat;
  kbc_status d : wp (inb 0x64) (λ r d', kb_cmd (kbc_of d') = kb_cmd (kbc_of d) ∧ kb_out (kbc_of d') = kb_out (kbc_of d) ∧
    if Z.land r 2 =? 0 then kb_busy (kbc_of d') = 0%nat else (kb_busy (kbc_of d') < kb_busy (kbc_of d))%nat) d;
  kbc_command v d : kb_busy (kbc_of d) = 0%nat → 0 ≤ v < 256 →
    wp (outb 0x64 v) (λ _ d', kb_cmd (kbc_of d') = Some v ∧ kb_out (kbc_of d') = kb_out (kbc_of d)) d;
  kbc_data v d : kb_busy (kbc_of d) = 0%nat → 0 ≤ v < 256 → kb_cmd (kbc_of d) = Some 0xd1 →
    wp (outb 0x60 v) (λ _ d', kb_cmd (kbc_of d') = None ∧ kb_out (kbc_of d') = v) d
}.

(** ** The descriptors of asm.h, byte by byte *)

Definition SEG_NULLASM : list Z := le16 0 ++ le16 0 ++ [0; 0; 0; 0].
Definition SEG_ASM (ty base lim : Z) : list Z :=
  le16 (Z.land (Z.shiftr lim 12) 0xffff) ++ le16 (Z.land base 0xffff) ++
  [Z.land (Z.shiftr base 16) 0xff; Z.lor 0x90 ty; Z.lor 0xC0 (Z.land (Z.shiftr lim 28) 0xf); Z.land (Z.shiftr base 24) 0xff].

Definition gdt : list Z := SEG_NULLASM ++ SEG_ASM (Z.lor STA_X STA_R) 0 0xffffffff ++ SEG_ASM STA_W 0 0xffffffff.
(** gdtdesc, where the table is at [a]. *)
Definition gdtdesc (a : Z) : list Z := le16 (Z.of_nat (length gdt) - 1) ++ le32 a.

(** ** The code *)

Definition CR0_PE : Z := 1.
Definition start16 : list instr := [Cli; XorW EAX EAX; MovwS EAX DS; MovwS EAX ES; MovwS EAX SS].
Definition protect (start32 : Z) : list instr :=
  [MovC CR0 EAX; OrI CR0_PE EAX; MovToC EAX CR0; Ljmp (Z.shiftl (Z.of_nat SEG_KCODE) 3) start32].
Definition start32 (start bootmain spin : Z) : list instr :=
  [MovwI (Z.shiftl (Z.of_nat SEG_KDATA) 3) EAX; MovwS EAX DS; MovwS EAX ES; MovwS EAX SS;
   MovwI 0 EAX; MovwS EAX FS; MovwS EAX GS;
   MovI start ESP; Call bootmain spin].

(** ** Proofs *)

(** The 64 bits of eight bytes. *)
Fixpoint le_word (bs : list Z) : Z := match bs with [] => 0 | b :: bs => b + 256 * le_word bs end.

Lemma lor_low x : 0 ≤ x < 16 → Z.lor 0x90 x = 0x90 + x ∧ Z.lor 0xC0 x = 0xC0 + x.
Proof.
  intros Hx. assert (Hall : forallb (λ i, (Z.lor 0x90 (Z.of_nat i) =? 0x90 + Z.of_nat i) && (Z.lor 0xC0 (Z.of_nat i) =? 0xC0 + Z.of_nat i)) (seq 0 16) = true)
    by reflexivity.
  rewrite forallb_forall in Hall. specialize (Hall (Z.to_nat x) ltac:(apply in_seq; lia)). rewrite Z2Nat.id in Hall by lia.
  apply andb_true_iff in Hall as [H1 H2]. by apply Z.eqb_eq in H1, H2.
Qed.

Lemma le_word_le16 v bs : 0 ≤ v < 2 ^ 16 → le_word (le16 v ++ bs) = v + 2 ^ 16 * le_word bs.
Proof. intros Hv. cbn [le_word le16 app]. change (2 ^ 16) with 65536 in *. divmod_lia. Qed.

(** The macro of asm.h and the one of mmu.h make the same descriptor. *)
Lemma SEG_ASM_word ty base lim : 0 ≤ ty < 16 → 0 ≤ base < 2 ^ 32 → 0 ≤ lim < 2 ^ 32 →
  le_word (SEG_ASM ty base lim) = seg_word (SEG ty base lim 0).
Proof.
  intros Ht Hb Hl. unfold SEG_ASM, seg_word, SEG. cbn [lim_15_0 base_15_0 base_23_16 type s dpl p lim_19_16 avl rsv1 db g base_31_24].
  change 0xffff with (2 ^ 16 - 1). change 0xff with (2 ^ 8 - 1). change 0xf with (2 ^ 4 - 1). rewrite !field_land, !Z.shiftr_div_pow2 by lia.
  assert (0 ≤ lim / 2 ^ 28 < 2 ^ 4) by (split; [apply Z.div_pos; lia|apply Z.div_lt_upper_bound; lia]).
  assert (0 ≤ base / 2 ^ 24 < 2 ^ 8) by (split; [apply Z.div_pos; lia|apply Z.div_lt_upper_bound; lia]).
  rewrite !le_word_le16 by (apply Z.mod_pos_bound; lia). cbn [le_word pack]. rewrite !Z.mod_mod by lia.
  rewrite (small (lim / 2 ^ 28)), (small (base / 2 ^ 24)), (small ty) by lia. rewrite (proj1 (lor_low ty Ht)), (proj2 (lor_low (lim / 2 ^ 28) ltac:(lia))).
  change (1 mod 2 ^ 1) with 1. change (0 mod 2 ^ 2) with 0. change (0 mod 2 ^ 1) with 0. lia.
Qed.

(** The segments of the boot loader: code and data, both of the whole memory. *)
Theorem boot_segments : (λ i, segment_of (le_word (take 8 (drop (8 * i) gdt)))) <$> [1; 2]%nat =
  [Segment 0 (2 ^ 32 - 1) 10 false 0 true; Segment 0 (2 ^ 32 - 1) 2 false 0 true].
Proof.
  cbn [fmap list_fmap]. change (take 8 (drop (8 * 1) gdt)) with (SEG_ASM 10 0 0xffffffff). change (take 8 (drop (8 * 2) gdt)) with (SEG_ASM 2 0 0xffffffff).
  by rewrite !SEG_ASM_word, !segment_SEG by lia.
Qed.

Section enables.
Context {D : Type} `{KC : Kbc D}.

Lemma wp_seta20_wait fuel (Q : unit → D → Prop) : ∀ d, (kb_busy (kbc_of d) < fuel)%nat →
  (∀ d', kb_busy (kbc_of d') = 0%nat → kb_cmd (kbc_of d') = kb_cmd (kbc_of d) → Q tt d') → wp (seta20_wait fuel) Q d.
Proof.
  induction fuel as [|fuel IH]; intros d Hf HQ; [lia|]. cbn [seta20_wait]. wp_step. eapply wp_mono; [apply kbc_status|].
  intros r d' (Hc & _ & Hb). destruct (Z.land r 2 =? 0); [wp_step; by apply HQ|]. apply IH; [lia|]. intros d2 H1 H2. apply HQ; [done|congruence].
Qed.

(** seta20 ends, with the line A20 on. *)
Theorem seta20_enables fuel d : (kbc_max < fuel)%nat → wp (seta20 fuel) (λ _ d', Z.testbit (kb_out (kbc_of d')) 1 = true) d.
Proof.
  intros Hf. unfold seta20. pose proof kbc_bound as Hb. wp_step. apply wp_seta20_wait; [specialize (Hb d); lia|]. intros d1 Hz1 _.
  wp_step. eapply wp_mono; [by apply kbc_command|]. intros [] d2 [Hc2 _]. wp_step. apply wp_seta20_wait; [specialize (Hb d2); lia|].
  intros d3 Hz3 Hc3. eapply wp_mono; [apply kbc_data; [done|done|congruence]|]. intros [] d4 [_ ->]. done.
Qed.
End enables.

(** movw changes the low half of a register. *)
Lemma low16 q v : Seg.u16 (2 ^ 16 * q + Seg.u16 v) = Seg.u16 v.
Proof. unfold Seg.u16. by rewrite Z.add_comm, Z.mul_comm, Z.mod_add, Z.mod_mod by lia. Qed.

(** bootmain is called in protected mode, with interrupts off and the flat
    segments, on a stack that ends at the boot sector. *)
Theorem calls_bootmain pad dpl a32 start bootmain spin c : 4 ≤ start < 2 ^ 32 → 0 ≤ spin < 2 ^ 32 →
  let c' := exec pad dpl (start32 start bootmain spin) (exec pad dpl (protect a32) (exec pad dpl start16 c)) in
  c_eip c' = bootmain ∧ c_r c' ESP = start - 4 ∧ top c' = spin ∧ Z.testbit (c_c c' CR0) 0 = true ∧ Z.testbit (c_flags c') 9 = false ∧
  c_segs c' = Sregs 8 16 16 0 0 16.
Proof.
  intros Hst Hsp. destruct c as [[eax ecx edx ebx esp ebp esi edi] [cs ds es fs gs ss] [cr0 cr3 cr4] fl ip m].
  unfold start16, protect, start32, top. cbn [exec exec1 push set_r set_s set_c set_flags set_eip set_mem c_r c_s c_c c_regs c_segs c_ctl c_flags c_eip
    c_mem rget sget cget rput sput cput r_eax r_ecx r_edx r_ebx r_esp r_ebp r_esi r_edi s_cs s_ds s_es s_fs s_gs s_ss x_cr0 x_cr3 x_cr4].
  rewrite (u32_id (start - 4)), ld32_st32, u32_id by lia. split_and!; try done.
  - by rewrite Z.lor_spec, orb_true_r.
  - by rewrite Z.ldiff_spec, andb_false_r.
  - by rewrite !low16.
Qed.
