(* ===== verification/Shell.v ===== *)
(** * Shell: the parser of sh.c

    A command is a tree whose words are pairs of pointers into the line, the
    begin and the end of the word (argv[i] and eargv[i], file and efile);
    nulterminate writes a NUL at each end, and from then on a word is the
    string its begin points at.  The functions run on the position *ps and the
    number of allocations that malloc can still serve; panic prints its message
    and exits.  EXEC nodes are filled in after redirections have been put
    around them, so that a chain of redirections is kept as a list until the
    node is complete.

    Shown: parsecmd decides the grammar of command lines.  The tokens of a line
    and the grammar are given on their own, the tokens as strings; parsecmd
    terminates on every line, and either the line derives exactly one command
    and the result, read as the strings of the terminated line, is that command,
    or it derives none and parsecmd stops with a message. *)

From Stdlib Require Import ZArith Lia Bool.
From stdpp Require Import base option list strings numbers.
From S2P Require Import Prelude.

#[local] Open Scope string_scope.
#[local] Open Scope list_scope.
#[local] Open Scope Z_scope.

(** ** Commands *)

Inductive cmd (W : Type) :=
  | EXEC (argv : list W)
  | REDIR (c : cmd W) (file : W) (mode fd : Z)
  | PIPE (left right : cmd W)
  | LIST (left right : cmd W)
  | BACK (c : cmd W).
Arguments EXEC {W}. Arguments REDIR {W}. Arguments PIPE {W}. Arguments LIST {W}. Arguments BACK {W}.

Definition MAXARGS : nat := 10.
Definition O_RDONLY : Z := 0.
Definition O_WRONLY : Z := 1.
Definition O_CREATE : Z := 512.

Definition whitespace : list Z := [32; 9; 13; 10; 11].
Definition symbols : list Z := [60; 124; 62; 38; 59; 40; 41].
(** strchr(s, c) != 0, for a string of non-zero characters. *)
Definition strchr (s : list Z) (c : Z) : bool := existsb (Z.eqb c) s.

#[local] Arguments strchr : simpl never.

(** A word of the line: where it begins and ends. *)
Definition word : Type := nat * nat.
(** A redirection: file and efile, mode, fd. *)
Definition redir (W : Type) : Type := W * Z * Z.
(** The redirections around a command, the innermost first. *)
Definition wrap {W} (rs : list (redir W)) (c : cmd W) : cmd W := foldl (λ c '(w, mode, fd), REDIR c w mode fd) c rs.

Record pst := Pst { p_pos : nat; p_heap : nat }.

(** malloc, memset and the fields of a node; the result of malloc is not
    tested. *)
Definition alloc_node : M pst unit :=
  h ← gets p_heap;
  match h with
  | O => undef "write through a null pointer"
  | S h => modify (λ s, Pst (p_pos s) h)
  end.
Definition redircmd (rs : list (redir word)) (w : word) (mode fd : Z) : M pst (list (redir word)) :=
  alloc_node;; mret (rs ++ [(w, mode, fd)]).
Definition execcmd : M pst unit := alloc_node.
Definition pipecmd (left right : cmd word) : M pst (cmd word) := alloc_node;; mret (PIPE left right).
Definition listcmd (left right : cmd word) : M pst (cmd word) := alloc_node;; mret (LIST left right).
Definition backcmd (c : cmd word) : M pst (cmd word) := alloc_node;; mret (BACK c).

Section parser.
(** The line and its end. *)
Context (buf : list Z) (es : nat).

Definition chr (s : nat) : Z := default 0 (buf !! s).

(** while(s < es && strchr(whitespace, *s)) s++; with n = es - s *)
Fixpoint skip_loop (n s : nat) : nat :=
  match n with
  | O => s
  | S n => if strchr whitespace (chr s) then skip_loop n (S s) else s
  end.
Definition skip (s : nat) : nat := skip_loop (es - s) s.

Fixpoint word_loop (n s : nat) : nat :=
  match n with
  | O => s
  | S n => if negb (strchr whitespace (chr s)) && negb (strchr symbols (chr s)) then word_loop n (S s) else s
  end.

(** The switch of gettoken: the kind of the token at s and its end. *)
Definition token (s : nat) : Z * nat :=
  let c := chr s in
  if c =? 0 then (c, s)
  else if strchr [124; 40; 41; 59; 38; 60] c then (c, S s)
  else if c =? 62 then if chr (S s) =? 62 then (43, S (S s)) else (c, S s)
  else (97, word_loop (es - s) s).

(** The kind of the token and its bounds q and eq. *)
Definition gettoken : M pst (Z * word) :=
  s ← gets p_pos;
  let q := skip s in
  let '(ret, eq) := token q in
  modify (λ st, Pst (skip eq) (p_heap st));;
  mret (ret, (q, eq)).

Definition peek (toks : list Z) : M pst bool :=
  s ← gets p_pos;
  let s := skip s in
  modify (λ st, Pst s (p_heap st));;
  mret (negb (chr s =? 0) && strchr toks (chr s)).

Fixpoint parseredirs (n : nat) (rs : list (redir word)) : M pst (list (redir word)) :=
  b ← peek [60; 62];
  if b : bool then
    match n with
    | O => undef "out of fuel"
    | S n =>
        '(tok, _) ← gettoken;
        '(t, w) ← gettoken;
        if negb (t =? 97) then panic "missing file for redirection" else
        rs ← (if tok =? 60 then redircmd rs w O_RDONLY 0
              else if tok =? 62 then redircmd rs w (Z.lor O_WRONLY O_CREATE) 1
              else if tok =? 43 then redircmd rs w (Z.lor O_WRONLY O_CREATE) 1
              else mret rs);
        parseredirs n rs
    end
  else mret rs.

(** The loop of parseexec, with the arguments and redirections so far. *)
Fixpoint parseargs (n : nat) (argv : list word) (rs : list (redir word)) : M pst (list word * list (redir word)) :=
  b ← peek [124; 41; 38; 59];
  if b : bool then mret (argv, rs) else
  match n with
  | O => undef "out of fuel"
  | S n =>
      '(tok, w) ← gettoken;
      if tok =? 0 then mret (argv, rs) else
      if negb (tok =? 97) then panic "syntax" else
      let argv := argv ++ [w] in
      if (MAXARGS <=? length argv)%nat then panic "too many args" else
      rs ← parseredirs (length buf) rs;
      parseargs n argv rs
  end.

(** while(peek(ps, es, "&")) *)
Fixpoint parseback (n : nat) (c : cmd word) : M pst (cmd word) :=
  b ← peek [38];
  if b : bool then
    match n with
    | O => undef "out of fuel"
    | S n => gettoken;; c ← backcmd c; parseback n c
    end
  else mret c.

(** The fuel bounds the depth of the calls: four for each token. *)
Fixpoint parseline (n : nat) : M pst (cmd word) :=
  match n with
  | O => undef "out of fuel"
  | S n =>
      c ← parsepipe n;
      c ← parseback (length buf) c;
      b ← peek [59];
      if b : bool then gettoken;; d ← parseline n; listcmd c d
      else mret c
  end
with parsepipe (n : nat) : M pst (cmd word) :=
  match n with
  | O => undef "out of fuel"
  | S n =>
      c ← parseexec n;
      b ← peek [124];
      if b : bool then gettoken;; d ← parsepipe n; pipecmd c d
      else mret c
  end
with parseexec (n : nat) : M pst (cmd word) :=
  match n with
  | O => undef "out of fuel"
  | S n =>
      b ← peek [40];
      if b : bool then parseblock n else
      execcmd;;
      rs ← parseredirs (length buf) [];
      '(argv, rs) ← parseargs (length buf) [] rs;
      mret (wrap rs (EXEC argv))
  end
with parseblock (n : nat) : M pst (cmd word) :=
  match n with
  | O => undef "out of fuel"
  | S n =>
      b ← peek [40];
      if negb b then panic "parseblock" else
      gettoken;;
      c ← parseline n;
      b ← peek [41];
      if negb b then panic "syntax - missing )" else
      gettoken;;
      rs ← parseredirs (length buf) [];
      mret (wrap rs c)
  end.
End parser.

(** A NUL at the end of every word. *)
Definition nul (w : word) (buf : list Z) : list Z := <[w.2 := 0]> buf.
Fixpoint nulterminate (c : cmd word) (buf : list Z) : list Z :=
  match c with
  | EXEC argv => foldl (λ b w, nul w b) buf argv
  | REDIR c w _ _ => nul w (nulterminate c buf)
  | PIPE l r => nulterminate r (nulterminate l buf)
  | LIST l r => nulterminate r (nulterminate l buf)
  | BACK c => nulterminate c buf
  end.

(** strlen(buf) *)
Fixpoint strlen (buf : list Z) : nat :=
  match buf with
  | c :: buf => if c =? 0 then O else S (strlen buf)
  | [] => O
  end.

(** The command and the line after nulterminate. *)
Definition parsecmd (buf : list Z) : M pst (cmd word * list Z) :=
  let es := strlen buf in
  modify (λ st, Pst 0 (p_heap st));;
  c ← parseline buf es (4 * length buf + 4);
  peek buf es [];;
  s ← gets p_pos;
  if negb (s =? es)%nat then panic "syntax" else
  mret (c, nulterminate c buf).

(** ** Tokens *)

Inductive tok (W : Type) := Word (w : W) | Sym (c : Z).
Arguments Word {W}. Arguments Sym {W}.

Definition wordchar (c : Z) : bool := negb (strchr whitespace c) && negb (strchr symbols c).
Fixpoint span (p : Z → bool) (l : list Z) : list Z :=
  match l with
  | c :: l => if p c then c :: span p l else []
  | [] => []
  end.

(** The tokens of a line: ">>" is the symbol '+', the other symbols stand for
    themselves, and a word is a longest sequence of other characters. *)
Fixpoint lex_loop (n : nat) (l : list Z) : list (tok (list Z)) :=
  match n, l with
  | S n, c :: l' =>
      if strchr whitespace c then lex_loop n l'
      else if c =? 62 then
        match l' with
        | d :: l'' => if d =? 62 then Sym 43 :: lex_loop n l'' else Sym 62 :: lex_loop n l'
        | [] => [Sym 62]
        end
      else if strchr symbols c then Sym c :: lex_loop n l'
      else let w := span wordchar l in Word w :: lex_loop n (drop (length w) l)
  | _, _ => []
  end.
Definition lex (l : list Z) : list (tok (list Z)) := lex_loop (length l) l.

(** ** The grammar *)

Section grammar.
Context {W : Type}.
#[local] Notation toks := (list (tok W)).

(** A redirection, from the tokens to the fields of the node. *)
Inductive gredir : toks → redir W → Prop :=
  | gr_in w : gredir [Sym 60; Word w] (w, O_RDONLY, 0)
  | gr_out w : gredir [Sym 62; Word w] (w, Z.lor O_WRONLY O_CREATE, 1)
  | gr_app w : gredir [Sym 43; Word w] (w, Z.lor O_WRONLY O_CREATE, 1).

Inductive gredirs : toks → list (redir W) → Prop :=
  | grs_nil : gredirs [] []
  | grs_cons ts r us rs : gredir ts r → gredirs us rs → gredirs (ts ++ us) (r :: rs).

(** Words and redirections in any order. *)
Inductive gargs : toks → list W → list (redir W) → Prop :=
  | ga_nil : gargs [] [] []
  | ga_word w ts rs us argv rs' : gredirs ts rs → gargs us argv rs' → gargs (Word w :: ts ++ us) (w :: argv) (rs ++ rs').

(** line ::= pipe '&'* | pipe '&'* ';' line;  pipe ::= exec | exec '|' pipe;
    exec ::= '(' line ')' redirections | redirections arguments *)
Inductive gline : toks → cmd W → Prop :=
  | gl_pipe ts c n : gpipe ts c → gline (ts ++ replicate n (Sym 38)) (Nat.iter n BACK c)
  | gl_list ts c n us d : gpipe ts c → gline us d →
      gline (ts ++ replicate n (Sym 38) ++ Sym 59 :: us) (LIST (Nat.iter n BACK c) d)
with gpipe : toks → cmd W → Prop :=
  | gp_exec ts c : gexec ts c → gpipe ts c
  | gp_pipe ts c us d : gexec ts c → gpipe us d → gpipe (ts ++ Sym 124 :: us) (PIPE c d)
with gexec : toks → cmd W → Prop :=
  | ge_block ts c us rs : gline ts c → gredirs us rs → gexec (Sym 40 :: ts ++ Sym 41 :: us) (wrap rs c)
  | ge_exec ts rs us argv rs' : gredirs ts rs → gargs us argv rs' → (length argv < MAXARGS)%nat →
      gexec (ts ++ us) (wrap (rs ++ rs') (EXEC argv)).
End grammar.

Scheme gline_mut := Induction for gline Sort Prop
  with gpipe_mut := Induction for gpipe Sort Prop
  with gexec_mut := Induction for gexec Sort Prop.
Combined Scheme grammar_ind from gline_mut, gpipe_mut, gexec_mut.

(** ** Reading tokens from the line *)

(** A run that returns with [Q] or stops with a message. *)
Definition ends {S A} (m : M S A) (Q : A → S → Prop) (s : S) : Prop :=
  match m s with Ok a s' => Q a s' | Panic _ => True | _ => False end.

Lemma ends_ret {S A} (a : A) (Q : A → S → Prop) s : Q a s → ends (mret a) Q s.
Proof. done. Qed.
Lemma ends_bind {S A B} (m : M S A) (k : A → M S B) Q s : ends m (λ a, ends (k a) Q) s → ends (m ≫= k) Q s.
Proof. unfold ends, mbind, M_bind. by destruct (m s). Qed.
Lemma ends_mono {S A} (m : M S A) (P Q : A → S → Prop) s : ends m P s → (∀ a s', P a s' → Q a s') → ends m Q s.
Proof. unfold ends. destruct (m s); naive_solver. Qed.
Lemma wp_ends {S A} (m : M S A) Q s : wp m Q s → ends m Q s.
Proof. unfold wp, ends. by destruct (m s). Qed.

Section lexing.
Context (buf : list Z) (es : nat).
#[local] Notation chr := (chr buf).
#[local] Notation skip := (skip buf es).
#[local] Notation token := (token buf es).
(** The line ends at the first NUL. *)
Hypothesis chr_es : chr es = 0.
Hypothesis chr_line : ∀ s, (s < es)%nat → chr s ≠ 0.

Definition mktok (ret : Z) (w : word) : tok word := if ret =? 97 then Word w else Sym ret.

(** The tokens from a position on. *)
Inductive lexes : nat → list (tok word) → Prop :=
  | lexes_end s : skip s = es → lexes s []
  | lexes_tok s ret e ts : (skip s < es)%nat → token (skip s) = (ret, e) → lexes e ts →
      lexes s (mktok ret (skip s, e) :: ts).

Lemma skip_loop_spec n : ∀ s, (s + n = es)%nat → let r := skip_loop buf n s in
  (s ≤ r ≤ es)%nat ∧ (∀ i, (s ≤ i < r)%nat → strchr whitespace (chr i) = true) ∧
  ((r < es)%nat → strchr whitespace (chr r) = false).
Proof.
  induction n as [|n IH]; intros s Hs; simpl; [split_and!; [lia | lia | intros i; lia | intros; lia]|].
  destruct (strchr whitespace (chr s)) eqn:E.
  - destruct (IH (S s)) as (H1 & H2 & H3); [lia|]. split_and!; [lia | lia | | done].
    intros i Hi. destruct (decide (i = s)) as [->|]; [done | apply H2; lia].
  - split_and!; [lia | lia | intros i; lia | done].
Qed.

Lemma skip_spec s : (s ≤ es)%nat →
  (s ≤ skip s ≤ es)%nat ∧ (∀ i, (s ≤ i < skip s)%nat → strchr whitespace (chr i) = true) ∧
  ((skip s < es)%nat → strchr whitespace (chr (skip s)) = false).
Proof. intros Hs. apply (skip_loop_spec (es - s) s). lia. Qed.

Lemma skip_stop s : (s ≤ es)%nat → (s = es ∨ strchr whitespace (chr s) = false) → skip s = s.
Proof.
  intros Hs [->|E]; unfold Shell.skip; [by rewrite Nat.sub_diag|]. destruct (es - s)%nat; [done|]. simpl. by rewrite E.
Qed.

Lemma skip_skip s : (s ≤ es)%nat → skip (skip s) = skip s.
Proof.
  intros Hs. destruct (skip_spec s Hs) as (H1 & _ & H3). apply skip_stop; [lia|].
  destruct (decide (skip s = es)); [by left | right; apply H3; lia].
Qed.

Lemma lexes_skip s ts : (s ≤ es)%nat → lexes s ts → lexes (skip s) ts.
Proof.
  intros Hs. inversion 1; subst; [apply lexes_end; by rewrite skip_skip|].
  rewrite <- (skip_skip s) at 2 by done. apply lexes_tok; by rewrite ?skip_skip.
Qed.

Lemma word_loop_spec n : ∀ s, (s + n = es)%nat → let r := word_loop buf n s in
  (s ≤ r ≤ es)%nat ∧ (∀ i, (s ≤ i < r)%nat → wordchar (chr i) = true) ∧ ((r < es)%nat → wordchar (chr r) = false).
Proof.
  induction n as [|n IH]; intros s Hs; simpl; [split_and!; [lia | lia | intros i; lia | intros; lia]|].
  change (negb (strchr whitespace (chr s)) && negb (strchr symbols (chr s))) with (wordchar (chr s)).
  destruct (wordchar (chr s)) eqn:E.
  - destruct (IH (S s)) as (H1 & H2 & H3); [lia|]. split_and!; [lia | lia | | done].
    intros i Hi. destruct (decide (i = s)) as [->|]; [done | apply H2; lia].
  - split_and!; [lia | lia | intros i; lia | done].
Qed.

(** The symbols of the grammar. *)
Definition is_sym (c : Z) : bool := strchr [124; 40; 41; 59; 38; 60; 62; 43] c.
(** The first character of a symbol. *)
Definition symchar (c : Z) : Z := if c =? 43 then 62 else c.

Lemma strchr_In l c : strchr l c = true ↔ c ∈ l.
Proof.
  unfold strchr. rewrite existsb_exists. split.
  - intros (x & Hx & ->%Z.eqb_eq). by apply list_elem_of_In.
  - intros Hc. exists c. split; [by apply list_elem_of_In | apply Z.eqb_refl].
Qed.

Lemma token_spec q : (q < es)%nat → strchr whitespace (chr q) = false → let '(ret, e) := token q in
  (q < e ≤ es)%nat ∧
  (ret = 97 ∧ wordchar (chr q) = true ∧ (∀ i, (q ≤ i < e)%nat → wordchar (chr i) = true) ∧ ((e < es)%nat → wordchar (chr e) = false) ∨
   ret ≠ 97 ∧ is_sym ret = true ∧ chr q = symchar ret ∧ wordchar (chr q) = false ∧
     (ret = 43 → chr (S q) = 62 ∧ e = S (S q)) ∧ (ret ≠ 43 → e = S q) ∧ (ret = 62 → chr (S q) ≠ 62)).
Proof.
  intros Hq Hws. unfold Shell.token. pose proof (chr_line q Hq) as H0. rewrite (proj2 (Z.eqb_neq _ _) H0).
  destruct (strchr [124; 40; 41; 59; 38; 60] (chr q)) eqn:Hs.
  { split; [lia|]. right. apply strchr_In in Hs. unfold symchar, wordchar, is_sym. rewrite Hws.
    rewrite !elem_of_cons, elem_of_nil in Hs. clear Hws H0. repeat destruct Hs as [E|Hs]; [rewrite E; split_and!; done..|done]. }
  destruct (Z.eqb_spec (chr q) 62) as [E|E].
  - destruct (Z.eqb_spec (chr (S q)) 62) as [E2|E2].
    + assert (S q ≠ es) by (intros E3; rewrite E3, chr_es in E2; done). split; [lia|]. right. rewrite E. split_and!; done.
    + split; [lia|]. right. rewrite E. split_and!; done.
  - destruct (word_loop_spec (es - q) q) as (H1 & H2 & H3); [lia|].
    assert (wordchar (chr q) = true) as Hw.
    { unfold wordchar. rewrite Hws. simpl. apply negb_true_iff, not_true_iff_false. intros Hin%strchr_In.
      apply not_true_iff_false in Hs. apply Hs, strchr_In. unfold symbols in Hin. rewrite !elem_of_cons, elem_of_nil in *. tauto. }
    assert (q ≠ word_loop buf (es - q) q) as Hne by (intros E3; rewrite <- E3 in H3; rewrite H3 in Hw by lia; done).
    split; [lia|]. left. done.
Qed.

Lemma lexes_exists n : ∀ s, (es - s ≤ n)%nat → (s ≤ es)%nat → ∃ ts, lexes s ts ∧ (length ts ≤ es - s)%nat.
Proof.
  induction n as [|n IH]; intros s Hn Hs; destruct (skip_spec s Hs) as (H1 & _ & H3).
  - exists []. split; [apply lexes_end; lia | simpl; lia].
  - destruct (decide (skip s = es)) as [E|E]; [exists []; split; [by apply lexes_end | simpl; lia]|].
    pose proof (token_spec (skip s) ltac:(lia) ltac:(apply H3; lia)) as Ht. destruct (token (skip s)) as [ret e] eqn:Et.
    destruct Ht as [He _]. destruct (IH e) as (ts & Hts & Hl); [lia | lia |].
    eexists (_ :: ts). split; [apply (lexes_tok s ret e); [lia | done | done] | simpl; lia].
Qed.

(** The tokens still to be read. *)
Definition at_toks (ts : list (tok word)) (st : pst) : Prop := (p_pos st ≤ es)%nat ∧ lexes (p_pos st) ts.

Definition head_in (toks : list Z) (ts : list (tok word)) : bool :=
  match ts with Sym c :: _ => strchr toks (symchar c) | _ => false end.

Lemma wp_gettoken ts (Q : Z * word → pst → Prop) st : at_toks ts st →
  match ts with
  | [] => ∀ st' w, at_toks [] st' → p_heap st' = p_heap st → Q (0, w) st'
  | Word w :: ts => ∀ st', at_toks ts st' → p_heap st' = p_heap st → Q (97, w) st'
  | Sym c :: ts => ∀ st' w, is_sym c = true → at_toks ts st' → p_heap st' = p_heap st → Q (c, w) st'
  end → wp (gettoken buf es) Q st.
Proof.
  intros [Hp Hl] HQ. unfold gettoken. wp_steps. destruct (skip_spec _ Hp) as (H1 & _ & H3).
  inversion Hl as [s Hs|s ret e ts' Hs Ht Hl']; subst.
  - rewrite Hs. unfold Shell.token. rewrite chr_es. simpl. wp_steps.
    assert (skip es = es) as E by (apply skip_stop; [lia | by left]).
    rewrite E. apply HQ; [|done]. split; [simpl; lia | by apply lexes_end].
  - pose proof (token_spec _ Hs (H3 Hs)) as Hsp. rewrite Ht in Hsp |- *. destruct Hsp as [He Hsp]. wp_steps.
    assert (at_toks ts' (Pst (skip e) (p_heap st))) as Hat.
    { destruct (skip_spec e) as (H4 & _); [lia|]. split; [simpl; lia | by apply lexes_skip; [lia|]]. }
    unfold mktok in HQ. destruct Hsp as [(-> & _)|(Hr & Hsym & _)]; [by apply HQ|].
    rewrite (proj2 (Z.eqb_neq _ _)) in HQ by done. by apply HQ.
Qed.

Lemma wp_peek toks ts (Q : bool → pst → Prop) st : at_toks ts st → (∀ c, strchr toks c = true → strchr symbols c = true) →
  (∀ st', at_toks ts st' → p_heap st' = p_heap st → Q (head_in toks ts) st') → wp (peek buf es toks) Q st.
Proof.
  intros [Hp Hl] Htoks HQ. unfold peek. wp_steps. destruct (skip_spec _ Hp) as (H1 & _ & H3).
  assert (at_toks ts (Pst (skip (p_pos st)) (p_heap st))) as Hat by (split; [simpl; lia | by apply lexes_skip]).
  specialize (HQ _ Hat eq_refl). inversion Hl as [s Hs|s ret e ts' Hs Ht Hl']; subst.
  - rewrite Hs, chr_es in *. exact HQ.
  - pose proof (token_spec _ Hs (H3 Hs)) as Hsp. rewrite Ht in Hsp. destruct Hsp as [_ Hsp].
    rewrite (proj2 (Z.eqb_neq _ _) (chr_line _ Hs)). cbn [negb andb]. unfold mktok, head_in in HQ.
    destruct Hsp as [(-> & Hw & _)|(Hr & _ & Hc & _)].
    + destruct (strchr toks (chr (skip (p_pos st)))) eqn:E; [|done]. apply Htoks in E. unfold wordchar in Hw.
      rewrite E, andb_false_r in Hw. done.
    + rewrite (proj2 (Z.eqb_neq _ _)) in HQ by done. by rewrite Hc.
Qed.

Lemma wp_alloc_node ts (Q : unit → pst → Prop) st : at_toks ts st → (0 < p_heap st)%nat →
  (∀ st', at_toks ts st' → p_heap st = S (p_heap st') → Q tt st') → wp alloc_node Q st.
Proof.
  intros [Hp Hl] Hh HQ. unfold alloc_node. wp_steps. destruct (p_heap st) as [|h]; [lia|]. wp_step. by apply HQ.
Qed.

Lemma lexes_length s ts : lexes s ts → (s ≤ es)%nat → (length ts ≤ es - s)%nat.
Proof.
  induction 1 as [s Hs|s ret e ts Hs Ht Hl IH]; intros Hle; simpl; [lia|]. destruct (skip_spec s Hle) as (H1 & _ & H3).
  pose proof (token_spec _ Hs (H3 Hs)) as Hsp. rewrite Ht in Hsp. destruct Hsp as [He _]. lia.
Qed.
Lemma at_toks_length ts st : at_toks ts st → (length ts ≤ es)%nat.
Proof. intros [Hp Hl]. apply lexes_length in Hl; lia. Qed.

(** ** Soundness: what is parsed derives from the grammar *)

Hypothesis es_buf : (es < length buf)%nat.

(** The characters peek looks for are symbols. *)
Ltac syms := let H := fresh in intros ? H; apply strchr_In in H; apply strchr_In; revert H; unfold symbols;
  rewrite !elem_of_cons, ?elem_of_nil; tauto.

Lemma head_in_spec toks ts : head_in toks ts = true → ∃ c ts', ts = Sym c :: ts' ∧ symchar c ∈ toks.
Proof. destruct ts as [|[w|c] ts]; simpl; try done. intros E%strchr_In. eauto. Qed.

Lemma redirs_sound n : ∀ ts rs st, at_toks ts st → (length ts ≤ n)%nat → (length ts ≤ p_heap st)%nat →
  ends (parseredirs buf es n rs) (λ rs' st', ∃ ts1 rest rs1, ts = ts1 ++ rest ∧ gredirs ts1 rs1 ∧ rs' = rs ++ rs1 ∧
    at_toks rest st' ∧ (p_heap st ≤ p_heap st' + length ts1)%nat) st.
Proof.
  induction n as [|n IH]; intros ts rs st Hat Hn Hh; cbn [parseredirs]; apply ends_bind, wp_ends;
    (eapply wp_peek; [exact Hat | syms |]); intros st1 Hat1 Hh1.
  - destruct ts; [|simpl in Hn; lia]. exists [], [], []. rewrite (app_nil_r rs). split_and!; [done | apply grs_nil | done | done | simpl; lia].
  - destruct (head_in [60; 62] ts) eqn:Hhd.
    2:{ exists [], ts, []. rewrite (app_nil_r rs). split_and!; [done | apply grs_nil | done | done | simpl; lia]. }
    apply head_in_spec in Hhd as (c & ts' & -> & Hc). apply ends_bind, wp_ends. eapply wp_gettoken; [exact Hat1|]. cbv beta iota.
    intros st2 w Hsym Hat2 Hh2. apply ends_bind, wp_ends. eapply wp_gettoken; [exact Hat2|].
    destruct ts' as [|[f|c'] ts'']; cbv beta iota.
    + intros st3 w' _ _. done.
    + intros st3 Hat3 Hh3. change (negb (97 =? 97)) with false. cbv iota.
      assert (∃ mode fd, gredir [Sym c; Word f] (f, mode, fd) ∧ ∀ Q : _ → pst → Prop,
        ends (redircmd rs f mode fd) Q st3 → ends (if c =? 60 then redircmd rs f O_RDONLY 0
              else if c =? 62 then redircmd rs f (Z.lor O_WRONLY O_CREATE) 1
              else if c =? 43 then redircmd rs f (Z.lor O_WRONLY O_CREATE) 1
              else mret rs) Q st3) as (mode & fd & Hg & Hstep).
      { unfold symchar in Hc. rewrite !elem_of_cons, elem_of_nil in Hc. destruct (Z.eqb_spec c 43) as [->|].
        - eexists _, _. split; [apply gr_app | done].
        - destruct Hc as [-> | [-> | []]]; eexists _, _; (split; [constructor | done]). }
      apply ends_bind, Hstep. unfold redircmd. apply ends_bind, wp_ends. simpl in Hh, Hn.
      eapply wp_alloc_node; [exact Hat3 | lia |]. intros st4 Hat4 Hh4. apply ends_ret.
      eapply ends_mono; [apply (IH ts''); [done | lia | lia]|].
      intros rs' st5 (ts1 & rest & rs1 & -> & Hg1 & -> & Hat5 & Hh5).
      exists ([Sym c; Word f] ++ ts1), rest, ((f, mode, fd) :: rs1).
      split_and!; [done | by constructor | by rewrite <- app_assoc | done | simpl; lia].
    + intros st3 w' Hc' _ _. destruct (Z.eqb_spec c' 97) as [->|]; [done|]. done.
Qed.

Lemma args_sound n : ∀ ts argv rs st, at_toks ts st → (length ts < n)%nat → (length ts ≤ p_heap st)%nat → (length argv < MAXARGS)%nat →
  ends (parseargs buf es n argv rs) (λ r st', ∃ ts1 rest argv1 rs1, ts = ts1 ++ rest ∧ gargs ts1 argv1 rs1 ∧
    r = (argv ++ argv1, rs ++ rs1) ∧ (length (argv ++ argv1) < MAXARGS)%nat ∧
    at_toks rest st' ∧ (p_heap st ≤ p_heap st' + length ts1)%nat) st.
Proof.
  assert (∀ ts argv rs st st', at_toks ts st' → p_heap st' = p_heap st → (length argv < MAXARGS)%nat →
    ∃ ts1 rest argv1 rs1, ts = ts1 ++ rest ∧ gargs ts1 argv1 rs1 ∧ (argv, rs) = (argv ++ argv1, rs ++ rs1) ∧
      (length (argv ++ argv1) < MAXARGS)%nat ∧ at_toks rest st' ∧ (p_heap st ≤ p_heap st' + length ts1)%nat) as Hstop.
  { intros ts argv rs st st' Hat Hh Hl. exists [], ts, [], []. rewrite (app_nil_r argv), (app_nil_r rs).
    split_and!; [done | apply ga_nil | done | done | done | simpl; lia]. }
  induction n as [|n IH]; intros ts argv rs st Hat Hn Hh Hl; cbn [parseargs]; apply ends_bind, wp_ends;
    (eapply wp_peek; [exact Hat | syms |]); intros st1 Hat1 Hh1;
    (destruct (head_in [124; 41; 38; 59] ts) eqn:Hhd; [apply ends_ret; by eapply Hstop|]).
  { lia. }
  apply ends_bind, wp_ends. eapply wp_gettoken; [exact Hat1|]. destruct ts as [|[w|c] ts]; cbv beta iota.
  - intros st2 w Hat2 Hh2. apply ends_ret. eapply Hstop; [done | lia | done].
  - intros st2 Hat2 Hh2. change (97 =? 0) with false. change (negb (97 =? 97)) with false. cbv iota zeta.
    destruct (Nat.leb_spec MAXARGS (length (argv ++ [w]))) as [|Hl1]; [done|]. apply ends_bind. simpl in Hn, Hh.
    pose proof (at_toks_length _ _ Hat2).
    eapply ends_mono; [apply (redirs_sound _ ts); [done | lia | lia]|].
    intros rs' st3 (ts1 & rest & rs1 & -> & Hg1 & -> & Hat3 & Hh3). rewrite length_app in Hn, Hh.
    eapply ends_mono; [apply (IH rest); [done | lia | lia | done]|].
    intros r st4 (ts2 & rest2 & argv2 & rs2 & -> & Hg2 & -> & Hl2 & Hat4 & Hh4).
    rewrite <- app_assoc in Hl2. exists (Word w :: ts1 ++ ts2), rest2, (w :: argv2), (rs1 ++ rs2).
    split_and!; [simpl; by rewrite <- app_assoc | by constructor | by rewrite <- !app_assoc | done | done |].
    rewrite length_app in Hh. simpl. rewrite length_app. lia.
  - intros st2 w Hc Hat2 Hh2. destruct (Z.eqb_spec c 0) as [->|]; [done|]. destruct (Z.eqb_spec c 97) as [->|]; [done|]. done.
Qed.

Lemma back_sound n : ∀ ts c st, at_toks ts st → (length ts ≤ n)%nat → (length ts ≤ p_heap st)%nat →
  ends (parseback buf es n c) (λ c' st', ∃ k rest, ts = replicate k (Sym 38) ++ rest ∧ c' = Nat.iter k BACK c ∧
    at_toks rest st' ∧ (p_heap st ≤ p_heap st' + k)%nat) st.
Proof.
  induction n as [|n IH]; intros ts c st Hat Hn Hh; cbn [parseback]; apply ends_bind, wp_ends;
    (eapply wp_peek; [exact Hat | syms |]); intros st1 Hat1 Hh1;
    (destruct (head_in [38] ts) eqn:Hhd; [|exists 0%nat, ts; split_and!; [done | done | done | lia]]);
    apply head_in_spec in Hhd as (d & ts' & -> & Hd); simpl in Hn, Hh; [lia|].
  assert (d = 38) as -> by (revert Hd; unfold symchar; case_match; rewrite list_elem_of_singleton; lia).
  apply ends_bind, wp_ends. eapply wp_gettoken; [exact Hat1|]. cbv beta iota. intros st2 w _ Hat2 Hh2.
  unfold backcmd. apply ends_bind, ends_bind, wp_ends. eapply wp_alloc_node; [exact Hat2 | lia |]. intros st3 Hat3 Hh3. apply ends_ret.
  eapply ends_mono; [apply (IH ts'); [done | lia | lia]|]. intros c' st4 (k & rest & -> & -> & Hat4 & Hh4).
  exists (S k), rest. split_and!; [done | by rewrite Nat.iter_succ_r | done | lia].
Qed.

(** A command has been parsed from a prefix of the tokens. *)
Definition parsed (G : list (tok word) → cmd word → Prop) (ts : list (tok word)) (st : pst) (c : cmd word) (st' : pst) : Prop :=
  ∃ ts1 rest, ts = ts1 ++ rest ∧ G ts1 c ∧ at_toks rest st' ∧ (p_heap st ≤ p_heap st' + 2 * length ts1 + 1)%nat.

(** Fuel and memory for [ts]. *)
Definition enough (k n : nat) (ts : list (tok word)) (st : pst) : Prop :=
  at_toks ts st ∧ (4 * length ts + k ≤ n)%nat ∧ (2 * length ts + 1 ≤ p_heap st)%nat.

Lemma enough_length k n ts st : enough k n ts st → (length ts < length buf)%nat.
Proof. intros (Hat%at_toks_length & _). lia. Qed.

Lemma sym_head c ts st : head_in [c] ts = true → strchr symbols c = true → c ≠ 62 → at_toks ts st →
  ∃ ts', ts = Sym c :: ts'.
Proof.
  intros (d & ts' & -> & Hd)%head_in_spec Hs Hc Hat. exists ts'. f_equal. f_equal.
  apply list_elem_of_singleton in Hd. unfold symchar in Hd. case_match; lia.
Qed.

Lemma line_sound n ts st : enough 4 (S n) ts st →
  (∀ ts st, enough 3 n ts st → ends (parsepipe buf es n) (parsed gpipe ts st) st) →
  (∀ ts st, enough 4 n ts st → ends (parseline buf es n) (parsed gline ts st) st) →
  ends (parseline buf es (S n)) (parsed gline ts st) st.
Proof.
  intros He IHp IHl. pose proof (enough_length _ _ _ _ He) as Hlen. destruct He as (Hat & Hn & Hh). cbn [parseline].
  apply ends_bind. eapply ends_mono; [apply (IHp ts); split_and!; [done | lia | done]|].
  intros c st1 (ts1 & rest & -> & Hg & Hat1 & Hh1). rewrite length_app in *. apply ends_bind.
  eapply ends_mono; [apply (back_sound _ rest); [done | lia | lia]|]. intros c' st2 (k & us & -> & -> & Hat2 & Hh2).
  rewrite length_app, length_replicate in *. apply ends_bind, wp_ends. eapply wp_peek; [exact Hat2 | syms |].
  intros st3 Hat3 Hh3. destruct (head_in [59] us) eqn:Hhd.
  - apply (sym_head _ _ st3) in Hhd as [us' ->]; try done. simpl in Hn, Hh. apply ends_bind, wp_ends. eapply wp_gettoken; [exact Hat3|].
    cbv beta iota. intros st4 w _ Hat4 Hh4. apply ends_bind. eapply ends_mono; [apply (IHl us'); split_and!; [done | lia | lia]|].
    intros d st5 (us1 & rest & -> & Hg' & Hat5 & Hh5). rewrite length_app in *. unfold listcmd. apply ends_bind, wp_ends.
    eapply wp_alloc_node; [exact Hat5 | lia |]. intros st6 Hat6 Hh6. apply ends_ret.
    exists (ts1 ++ replicate k (Sym 38) ++ Sym 59 :: us1), rest.
    split_and!; [rewrite <- !app_assoc; simpl; by rewrite <- ?app_assoc | by apply gl_list | done |].
    rewrite !length_app, length_replicate. simpl. lia.
  - apply ends_ret. exists (ts1 ++ replicate k (Sym 38)), us. rewrite <- app_assoc, length_app, length_replicate.
    split_and!; [done | by apply gl_pipe | done | lia].
Qed.

Lemma pipe_sound n ts st : enough 3 (S n) ts st →
  (∀ ts st, enough 2 n ts st → ends (parseexec buf es n) (parsed gexec ts st) st) →
  (∀ ts st, enough 3 n ts st → ends (parsepipe buf es n) (parsed gpipe ts st) st) →
  ends (parsepipe buf es (S n)) (parsed gpipe ts st) st.
Proof.
  intros (Hat & Hn & Hh) IHe IHp. cbn [parsepipe].
  apply ends_bind. eapply ends_mono; [apply (IHe ts); split_and!; [done | lia | done]|].
  intros c st1 (ts1 & us & -> & Hg & Hat1 & Hh1). rewrite length_app in *. apply ends_bind, wp_ends.
  eapply wp_peek; [exact Hat1 | syms |]. intros st3 Hat3 Hh3. destruct (head_in [124] us) eqn:Hhd.
  - apply (sym_head _ _ st3) in Hhd as [us' ->]; try done. simpl in Hn, Hh. apply ends_bind, wp_ends. eapply wp_gettoken; [exact Hat3|].
    cbv beta iota. intros st4 w _ Hat4 Hh4. apply ends_bind. eapply ends_mono; [apply (IHp us'); split_and!; [done | lia | lia]|].
    intros d st5 (us1 & rest & -> & Hg' & Hat5 & Hh5). rewrite length_app in *. unfold pipecmd. apply ends_bind, wp_ends.
    eapply wp_alloc_node; [exact Hat5 | lia |]. intros st6 Hat6 Hh6. apply ends_ret.
    exists (ts1 ++ Sym 124 :: us1), rest. split_and!; [by rewrite <- app_assoc | by apply gp_pipe | done |].
    rewrite length_app. simpl. lia.
  - apply ends_ret. exists ts1, us. split_and!; [done | by apply gp_exec | done | lia].
Qed.

Lemma block_sound n ts st : enough 1 (S n) (Sym 40 :: ts) st →
  (∀ ts st, enough 4 n ts st → ends (parseline buf es n) (parsed gline ts st) st) →
  ends (parseblock buf es (S n)) (parsed gexec (Sym 40 :: ts) st) st.
Proof.
  intros He IHl. pose proof (enough_length _ _ _ _ He) as Hlen. destruct He as (Hat & Hn & Hh). cbn [parseblock]. simpl in Hn, Hh, Hlen.
  apply ends_bind, wp_ends. eapply wp_peek; [exact Hat | syms |]. intros st1 Hat1 Hh1. change (head_in [40] (Sym 40 :: ts)) with true.
  apply ends_bind, wp_ends. eapply wp_gettoken; [exact Hat1|]. cbv beta iota. intros st2 w _ Hat2 Hh2.
  apply ends_bind. eapply ends_mono; [apply (IHl ts); split_and!; [done | lia | lia]|].
  intros c st3 (ts1 & us & -> & Hg & Hat3 & Hh3). rewrite length_app in *. apply ends_bind, wp_ends.
  eapply wp_peek; [exact Hat3 | syms |]. intros st4 Hat4 Hh4. destruct (head_in [41] us) eqn:Hhd; [|done].
  apply (sym_head _ _ st4) in Hhd as [us' ->]; try done. simpl in Hn, Hh, Hlen. apply ends_bind, wp_ends. eapply wp_gettoken; [exact Hat4|].
  cbv beta iota. intros st5 w' _ Hat5 Hh5. apply ends_bind.
  eapply ends_mono; [apply (redirs_sound _ us'); [done | lia | lia]|]. intros rs st6 (us1 & rest & rs1 & -> & Hgr & -> & Hat6 & Hh6).
  apply ends_ret. exists (Sym 40 :: ts1 ++ Sym 41 :: us1), rest. split_and!; [simpl; by rewrite <- app_assoc | by apply ge_block | done |].
  simpl. rewrite length_app. simpl. lia.
Qed.

Lemma exec_sound n ts st : enough 2 (S n) ts st →
  (∀ ts st, enough 1 n (Sym 40 :: ts) st → ends (parseblock buf es n) (parsed gexec (Sym 40 :: ts) st) st) →
  ends (parseexec buf es (S n)) (parsed gexec ts st) st.
Proof.
  intros He IHb. pose proof (enough_length _ _ _ _ He) as Hlen. destruct He as (Hat & Hn & Hh). cbn [parseexec].
  apply ends_bind, wp_ends. eapply wp_peek; [exact Hat | syms |]. intros st1 Hat1 Hh1. destruct (head_in [40] ts) eqn:Hhd.
  - apply (sym_head _ _ st1) in Hhd as [ts' ->]; try done. eapply ends_mono; [apply IHb; split_and!; [done | lia | lia]|].
    intros c st2 (ts1 & rest & E & Hg & Hat2 & Hh2). exists ts1, rest. split_and!; [done | done | done | lia].
  - apply ends_bind, wp_ends. eapply wp_alloc_node; [exact Hat1 | lia |]. intros st2 Hat2 Hh2. apply ends_bind.
    eapply ends_mono; [apply (redirs_sound _ ts); [done | lia | lia]|]. intros rs st3 (ts1 & us & rs1 & -> & Hg1 & -> & Hat3 & Hh3).
    rewrite length_app in *. apply ends_bind.
    eapply ends_mono; [apply (args_sound _ us); [done | lia | lia | unfold MAXARGS; simpl; lia]|].
    intros r st4 (ts2 & rest & argv & rs2 & -> & Hg2 & -> & Hl & Hat4 & Hh4). rewrite length_app in *.
    apply ends_ret. exists (ts1 ++ ts2), rest. split_and!; [by rewrite <- app_assoc | by apply ge_exec | done |].
    rewrite length_app. lia.
Qed.

Lemma parse_sound n :
  (∀ ts st, enough 4 n ts st → ends (parseline buf es n) (parsed gline ts st) st) ∧
  (∀ ts st, enough 3 n ts st → ends (parsepipe buf es n) (parsed gpipe ts st) st) ∧
  (∀ ts st, enough 2 n ts st → ends (parseexec buf es n) (parsed gexec ts st) st) ∧
  (∀ ts st, enough 1 n (Sym 40 :: ts) st → ends (parseblock buf es n) (parsed gexec (Sym 40 :: ts) st) st).
Proof.
  induction n as [|n (IHl & IHp & IHe & IHb)]; [split_and!; intros ts st (_ & H & _); simpl in H; lia|].
  split_and!; intros ts st H; [by apply line_sound | by apply pipe_sound | by apply exec_sound | by apply block_sound].
Qed.

(** ** Completeness: what derives from the grammar is parsed *)

(** The tokens after a command begin with one of the symbols [l], if any. *)
Definition follows (l : list Z) (rest : list (tok word)) : Prop := rest = [] ∨ head_in l rest = true.

Lemma follows_in l l' rest : follows l rest → (∀ c, c ∈ l → c ∉ l') → head_in l' rest = false.
Proof.
  intros [->|(c & ts & -> & Hc)%head_in_spec] Hl; [done|]. simpl. apply not_true_iff_false. intros Hc'%strchr_In.
  by apply (Hl (symchar c)).
Qed.
Lemma follows_mono l l' rest : follows l rest → (∀ c, c ∈ l → c ∈ l') → follows l' rest.
Proof.
  intros [->|(c & ts & -> & Hc)%head_in_spec] Hl; [by left|]. right. simpl. apply strchr_In. auto.
Qed.

(** Facts on finite sets of characters. *)
Ltac chars := intros ?; rewrite ?not_elem_of_cons, ?elem_of_cons, ?elem_of_nil; intros; lia || tauto || (repeat split; lia).

Lemma redirs_complete ts rs1 : gredirs ts rs1 → ∀ n rest rs st, head_in [60; 62] rest = false → at_toks (ts ++ rest) st →
  (length ts ≤ n)%nat → (length ts ≤ p_heap st)%nat →
  wp (parseredirs buf es n rs) (λ rs' st', rs' = rs ++ rs1 ∧ at_toks rest st' ∧ (p_heap st ≤ p_heap st' + length ts)%nat) st.
Proof.
  induction 1 as [|ts r us rs1 Hr Hg IH]; intros n rest rs st Hrest Hat Hn Hh.
  - destruct n; cbn [parseredirs]; wp_step; (eapply wp_peek; [exact Hat | syms |]); intros st1 Hat1 Hh1; simpl app; rewrite Hrest;
      wp_step; rewrite app_nil_r; (split_and!; [done | done | lia]).
  - rewrite length_app in Hn, Hh. assert (∃ c f mode fd, ts = [Sym c; Word f] ∧ r = (f, mode, fd) ∧ head_in [60; 62] [Sym c] = true ∧
      ∀ (Q : _ → pst → Prop) st, wp (redircmd rs f mode fd) Q st → wp (if c =? 60 then redircmd rs f O_RDONLY 0
              else if c =? 62 then redircmd rs f (Z.lor O_WRONLY O_CREATE) 1
              else if c =? 43 then redircmd rs f (Z.lor O_WRONLY O_CREATE) 1
              else mret rs) Q st) as (c & f & mode & fd & -> & -> & Hc & Hstep) by (inversion Hr; subst; by eexists _, _, _, _).
    destruct n as [|n]; [simpl in Hn; lia|]. cbn [parseredirs]. wp_step. eapply wp_peek; [exact Hat | syms |]. intros st1 Hat1 Hh1.
    change (head_in [60; 62] (([Sym c; Word f] ++ us) ++ rest)) with (head_in [60; 62] [Sym c]). rewrite Hc.
    wp_step. eapply wp_gettoken; [exact Hat1|]. simpl. intros st2 w _ Hat2 Hh2.
    wp_step. eapply wp_gettoken; [exact Hat2|]. cbv beta iota. intros st3 Hat3 Hh3. change (negb (97 =? 97)) with false. cbv iota.
    wp_step. apply Hstep. unfold redircmd. wp_step. simpl in Hn, Hh. eapply wp_alloc_node; [exact Hat3 | lia |]. intros st4 Hat4 Hh4. wp_step.
    eapply wp_mono; [apply (IH n rest); [done | done | lia | lia]|]. intros rs' st5 (-> & Hat5 & Hh5).
    split_and!; [by rewrite <- app_assoc | done | simpl; lia].
Qed.

Lemma args_follow us argv rs rest l : gargs us argv rs → follows l rest → (∀ c, c ∈ l → c ∉ [60; 62]) →
  head_in [60; 62] (us ++ rest) = false.
Proof. intros [|w ts rs1 us' argv' rs' _ _] Hf Hl; [by eapply follows_in | done]. Qed.

Lemma args_complete us argv1 rs1 : gargs us argv1 rs1 → ∀ n rest argv rs st, follows [124; 41; 38; 59] rest → at_toks (us ++ rest) st →
  (length us < n)%nat → (length us ≤ p_heap st)%nat → (length (argv ++ argv1) < MAXARGS)%nat →
  wp (parseargs buf es n argv rs) (λ r st', r = (argv ++ argv1, rs ++ rs1) ∧ at_toks rest st' ∧
    (p_heap st ≤ p_heap st' + length us)%nat) st.
Proof.
  induction 1 as [|w ts rs1 us argv1 rs2 Hr Hg IH]; intros n rest argv rs st Hrest Hat Hn Hh Hl; (destruct n as [|n]; [lia|]);
    cbn [parseargs]; wp_step; (eapply wp_peek; [exact Hat | syms |]); intros st1 Hat1 Hh1.
  - rewrite !app_nil_r. simpl app in *. destruct Hrest as [->|Hrest]; [|rewrite Hrest; wp_step; split_and!; [done | done | lia]].
    simpl. wp_step. eapply wp_gettoken; [exact Hat1|]. cbv beta iota. intros st2 w Hat2 Hh2. apply wp_ret. split_and!; [done | done | lia].
  - simpl in Hn, Hh. rewrite length_app in Hn, Hh. cbn [head_in app]. wp_step. eapply wp_gettoken; [exact Hat1|]. cbn [app]. intros st2 Hat2 Hh2.
    change (97 =? 0) with false. change (negb (97 =? 97)) with false. cbv iota zeta.
    rewrite (proj2 (Nat.leb_gt _ _)) by (rewrite !length_app in *; simpl in *; lia).
    pose proof (at_toks_length _ _ Hat2) as Hlen. rewrite !length_app in Hlen. rewrite <- app_assoc in Hat2.
    wp_step. eapply wp_mono; [apply (redirs_complete _ _ Hr _ (us ++ rest)); [| done | lia | lia]|].
    { eapply args_follow; [done | done | chars]. }
    intros rs' st3 (-> & Hat3 & Hh3). eapply wp_mono; [apply (IH n rest); [done | done | lia | lia | by rewrite <- app_assoc]|].
    intros r st4 (-> & Hat4 & Hh4). rewrite <- !app_assoc. split_and!; [done | done |]. simpl. rewrite length_app. lia.
Qed.

Lemma back_complete k : ∀ n rest c st, head_in [38] rest = false → at_toks (replicate k (Sym 38) ++ rest) st → (k ≤ n)%nat → (k ≤ p_heap st)%nat →
  wp (parseback buf es n c) (λ c' st', c' = Nat.iter k BACK c ∧ at_toks rest st' ∧ (p_heap st ≤ p_heap st' + k)%nat) st.
Proof.
  induction k as [|k IH]; intros n rest c st Hrest Hat Hn Hh.
  - destruct n; cbn [parseback]; wp_step; (eapply wp_peek; [exact Hat | syms |]); intros st1 Hat1 Hh1; simpl app; rewrite Hrest;
      wp_step; (split_and!; [done | done | lia]).
  - destruct n as [|n]; [lia|]. cbn [parseback]. wp_step. eapply wp_peek; [exact Hat | syms |]. intros st1 Hat1 Hh1.
    cbn [replicate app head_in]. change (strchr [38] (symchar 38)) with true. cbv iota. wp_step. eapply wp_gettoken; [exact Hat1|]. cbn [replicate app].
    intros st2 w _ Hat2 Hh2. unfold backcmd. wp_steps. eapply wp_alloc_node; [exact Hat2 | lia |]. intros st3 Hat3 Hh3. wp_step.
    eapply wp_mono; [apply (IH n rest); [done | done | lia | lia]|]. intros c' st4 (-> & Hat4 & Hh4).
    rewrite Nat.iter_succ_r. split_and!; [done | done | lia].
Qed.

Definition completes (k : nat) (l : list Z) (parse : nat → M pst (cmd word)) (ts : list (tok word)) (c : cmd word) : Prop :=
  ∀ n rest st, follows l rest → at_toks (ts ++ rest) st → (4 * length ts + k ≤ n)%nat → (2 * length ts + 1 ≤ p_heap st)%nat →
  wp (parse n) (λ c' st', c' = c ∧ at_toks rest st' ∧ (p_heap st ≤ p_heap st' + 2 * length ts + 1)%nat) st.

(** The beginning of parseline, up to the semicolon. *)
Lemma pipe_back_complete ts c k : completes 3 [41; 38; 59] (parsepipe buf es) ts c → ∀ n rest st (Q : cmd word → pst → Prop),
  follows [41; 59] rest → at_toks (ts ++ replicate k (Sym 38) ++ rest) st → (4 * (length ts + k) + 3 ≤ n)%nat →
  (2 * (length ts + k) + 1 ≤ p_heap st)%nat →
  (∀ st', at_toks rest st' → (p_heap st ≤ p_heap st' + 2 * (length ts + k) + 1)%nat → Q (Nat.iter k BACK c) st') →
  wp (parsepipe buf es n) (λ c, wp (parseback buf es (length buf) c) Q) st.
Proof.
  intros IH n rest st Q Hrest Hat Hn Hh HQ. pose proof (at_toks_length _ _ Hat) as Hlen. rewrite !length_app, length_replicate in Hlen.
  eapply wp_mono; [apply (IH n (replicate k (Sym 38) ++ rest)); [| done | lia | lia]|].
  { destruct k; [|right; reflexivity]. eapply follows_mono; [exact Hrest | chars]. }
  intros c' st1 (-> & Hat1 & Hh1).
  eapply wp_mono; [apply (back_complete k _ rest); [eapply follows_in; [exact Hrest | chars] | done | lia | lia]|].
  intros c' st2 (-> & Hat2 & Hh2). apply HQ; [done | lia].
Qed.

Lemma line_complete_pipe ts c k : completes 3 [41; 38; 59] (parsepipe buf es) ts c →
  completes 4 [41] (parseline buf es) (ts ++ replicate k (Sym 38)) (Nat.iter k BACK c).
Proof.
  intros IH n rest st Hrest Hat Hn Hh. rewrite length_app, length_replicate in *. destruct n as [|n]; [lia|]. cbn [parseline].
  rewrite <- app_assoc in Hat. wp_step. eapply wp_mono; [|intros c' st' H; apply wp_bind; exact H].
  eapply pipe_back_complete; [exact IH | | exact Hat | lia | lia |]; [eapply follows_mono; [exact Hrest | chars]|].
  intros st1 Hat1 Hh1. wp_step. eapply wp_peek; [exact Hat1 | syms |]. intros st2 Hat2 Hh2.
  rewrite (follows_in [41]) by (done || chars). apply wp_ret. split_and!; [done | done | lia].
Qed.

Lemma line_complete_list ts c k us d : completes 3 [41; 38; 59] (parsepipe buf es) ts c → completes 4 [41] (parseline buf es) us d →
  completes 4 [41] (parseline buf es) (ts ++ replicate k (Sym 38) ++ Sym 59 :: us) (LIST (Nat.iter k BACK c) d).
Proof.
  intros IH IH' n rest st Hrest Hat Hn Hh. rewrite !length_app, length_replicate in *. simpl in Hn, Hh. destruct n as [|n]; [lia|].
  cbn [parseline]. rewrite <- !app_assoc in Hat. wp_step. eapply wp_mono; [|intros c' st' H; apply wp_bind; exact H].
  eapply pipe_back_complete; [exact IH | | exact Hat | lia | lia |]; [by right|].
  intros st1 Hat1 Hh1. wp_step. eapply wp_peek; [exact Hat1 | syms |]. intros st2 Hat2 Hh2.
  cbn [app head_in]. change (strchr [59] (symchar 59)) with true. cbv iota. wp_step. eapply wp_gettoken; [exact Hat2|]. cbn [app].
  intros st3 w _ Hat3 Hh3. wp_step. eapply wp_mono; [apply (IH' n rest); [done | done | lia | lia]|]. intros d' st4 (-> & Hat4 & Hh4).
  unfold listcmd. wp_step. eapply wp_alloc_node; [exact Hat4 | lia |]. intros st5 Hat5 Hh5. wp_step. simpl.
  split_and!; [done | done | lia].
Qed.

Lemma pipe_complete ts c us d : completes 2 [124; 41; 38; 59] (parseexec buf es) ts c → completes 3 [41; 38; 59] (parsepipe buf es) us d →
  completes 3 [41; 38; 59] (parsepipe buf es) (ts ++ Sym 124 :: us) (PIPE c d).
Proof.
  intros IH IH' n rest st Hrest Hat Hn Hh. rewrite !length_app in *. simpl in Hn, Hh. destruct n as [|n]; [lia|].
  cbn [parsepipe]. rewrite <- app_assoc in Hat. wp_step.
  eapply wp_mono; [apply (IH n ((Sym 124 :: us) ++ rest)); [by right | done | lia | lia]|]. intros c' st1 (-> & Hat1 & Hh1).
  wp_step. eapply wp_peek; [exact Hat1 | syms |]. intros st2 Hat2 Hh2. cbn [app head_in]. change (strchr [124] (symchar 124)) with true.
  cbv iota. wp_step. eapply wp_gettoken; [exact Hat2|]. cbn [app]. intros st3 w _ Hat3 Hh3. wp_step.
  eapply wp_mono; [apply (IH' n rest); [done | done | lia | lia]|]. intros d' st4 (-> & Hat4 & Hh4).
  unfold pipecmd. wp_step. eapply wp_alloc_node; [exact Hat4 | lia |]. intros st5 Hat5 Hh5. wp_step. simpl.
  split_and!; [done | done | lia].
Qed.

Lemma pipe_complete_exec ts c : completes 2 [124; 41; 38; 59] (parseexec buf es) ts c →
  completes 3 [41; 38; 59] (parsepipe buf es) ts c.
Proof.
  intros IH n rest st Hrest Hat Hn Hh. destruct n as [|n]; [lia|]. cbn [parsepipe]. wp_step.
  eapply wp_mono; [apply (IH n rest); [eapply follows_mono; [exact Hrest | chars] | done | lia | lia]|]. intros c' st1 (-> & Hat1 & Hh1).
  wp_step. eapply wp_peek; [exact Hat1 | syms |]. intros st2 Hat2 Hh2. rewrite (follows_in [41; 38; 59]) by (done || chars).
  apply wp_ret. split_and!; [done | done | lia].
Qed.

Lemma block_complete ts c us rs : completes 4 [41] (parseline buf es) ts c → gredirs us rs →
  completes 2 [124; 41; 38; 59] (parseexec buf es) (Sym 40 :: ts ++ Sym 41 :: us) (wrap rs c).
Proof.
  intros IH Hr n rest st Hrest Hat Hn Hh. pose proof (at_toks_length _ _ Hat) as Hlen. rewrite length_app in Hlen. simpl in Hn, Hh, Hlen.
  rewrite length_app in Hn, Hh, Hlen. simpl in Hn, Hh, Hlen. destruct n as [|[|n]]; [lia | lia |]. cbn [app] in Hat. rewrite <- app_assoc in Hat.
  cbn [parseexec parseblock]. wp_step. eapply wp_peek; [exact Hat | syms |]. intros st1 Hat1 Hh1.
  cbn [head_in]. change (strchr [40] (symchar 40)) with true. cbv iota. wp_step. eapply wp_peek; [exact Hat1 | syms |].
  intros st2 Hat2 Hh2. cbn [head_in]. change (strchr [40] (symchar 40)) with true. cbv iota. cbn [negb]. wp_step.
  eapply wp_gettoken; [exact Hat2|]. cbv beta iota. intros st3 w _ Hat3 Hh3. wp_step.
  eapply wp_mono; [apply (IH n ((Sym 41 :: us) ++ rest)); [by right | done | lia | lia]|]. intros c' st4 (-> & Hat4 & Hh4).
  wp_step. eapply wp_peek; [exact Hat4 | syms |]. intros st5 Hat5 Hh5. cbn [app head_in]. change (strchr [41] (symchar 41)) with true. cbn [negb].
  wp_step. eapply wp_gettoken; [exact Hat5|]. cbn [app]. intros st6 w' _ Hat6 Hh6. wp_step.
  eapply wp_mono; [apply (redirs_complete _ _ Hr _ rest); [eapply follows_in; [exact Hrest | chars] | done | lia | lia]|].
  intros rs' st7 (-> & Hat7 & Hh7). apply wp_ret. simpl. rewrite length_app. simpl. split_and!; [done | done | lia].
Qed.

Lemma exec_complete ts rs us argv rs' : gredirs ts rs → gargs us argv rs' → (length argv < MAXARGS)%nat →
  completes 2 [124; 41; 38; 59] (parseexec buf es) (ts ++ us) (wrap (rs ++ rs') (EXEC argv)).
Proof.
  intros Hr Ha Hl n rest st Hrest Hat Hn Hh. pose proof (at_toks_length _ _ Hat) as Hlen. rewrite !length_app in *.
  destruct n as [|n]; [lia|]. cbn [parseexec]. wp_step. eapply wp_peek; [exact Hat | syms |]. intros st1 Hat1 Hh1.
  assert (head_in [40] ((ts ++ us) ++ rest) = false) as ->.
  { destruct Hr as [|? ? ? ? Hr1 _]; [|by inversion Hr1]. destruct Ha; [|done]. eapply follows_in; [exact Hrest | chars]. }
  wp_step. eapply wp_alloc_node; [exact Hat1 | lia |]. intros st2 Hat2 Hh2. rewrite <- app_assoc in Hat2. wp_step.
  eapply wp_mono; [apply (redirs_complete _ _ Hr _ (us ++ rest)); [eapply args_follow; [done | exact Hrest | chars] | done | lia | lia]|].
  intros rs1 st3 (-> & Hat3 & Hh3). wp_step. eapply wp_mono; [apply (args_complete _ _ _ Ha _ rest); [done | done | lia | lia | done]|].
  intros r st4 (-> & Hat4 & Hh4). apply wp_ret. split_and!; [done | done | lia].
Qed.

Lemma parse_complete :
  (∀ ts c, gline ts c → completes 4 [41] (parseline buf es) ts c) ∧
  (∀ ts c, gpipe ts c → completes 3 [41; 38; 59] (parsepipe buf es) ts c) ∧
  (∀ ts c, gexec ts c → completes 2 [124; 41; 38; 59] (parseexec buf es) ts c).
Proof.
  apply grammar_ind; intros; [by apply line_complete_pipe | by apply line_complete_list | by apply pipe_complete_exec |
    by apply pipe_complete | by apply block_complete | by apply exec_complete].
Qed.

(** ** The words of the line *)

Lemma lexes_words s ts : lexes s ts → (s ≤ es)%nat → ∀ w, Word w ∈ ts →
  (s ≤ w.1 < w.2)%nat ∧ (w.2 ≤ es)%nat ∧ (∀ i, (w.1 ≤ i < w.2)%nat → wordchar (chr i) = true).
Proof.
  induction 1 as [s Hs|s ret e ts Hs Ht Hl IH]; intros Hle w Hw; [by apply not_elem_of_nil in Hw|].
  destruct (skip_spec s Hle) as (H1 & _ & H3). pose proof (token_spec _ Hs (H3 Hs)) as Hsp. rewrite Ht in Hsp.
  destruct Hsp as [He Hsp]. apply elem_of_cons in Hw as [Hw|Hw].
  - unfold mktok in Hw. destruct Hsp as [(-> & _ & Hc & _)|(Hr & _)]; [|by rewrite (proj2 (Z.eqb_neq _ _)) in Hw by done].
    injection Hw as ->. simpl. split_and!; [lia | lia | lia | done].
  - destruct (IH ltac:(lia) w Hw) as (H4 & H5 & H6). split_and!; [lia | lia | lia | done].
Qed.

(** No word ends inside a word. *)
Lemma lexes_disjoint s ts : lexes s ts → (s ≤ es)%nat → ∀ w w', Word w ∈ ts → Word w' ∈ ts → ¬ (w.1 ≤ w'.2 < w.2)%nat.
Proof.
  induction 1 as [s Hs|s ret e ts Hs Ht Hl IH]; intros Hle w w' Hw Hw'; [by apply not_elem_of_nil in Hw|].
  destruct (skip_spec s Hle) as (H1 & _ & H3). pose proof (token_spec _ Hs (H3 Hs)) as Hsp. rewrite Ht in Hsp. destruct Hsp as [He Hsp].
  assert (∀ v, Word v = mktok ret (skip s, e) → v = (skip s, e) ∧ ((e < es)%nat → wordchar (chr e) = false)) as Hhd.
  { intros v Hv. unfold mktok in Hv. destruct Hsp as [(-> & _ & _ & Hc)|(Hr & _)]; [by injection Hv as ->|].
    by rewrite (proj2 (Z.eqb_neq _ _)) in Hv by done. }
  apply elem_of_cons in Hw as [Hw|Hw], Hw' as [Hw'|Hw'].
  - apply Hhd in Hw as [-> _], Hw' as [-> _]. simpl. lia.
  - apply Hhd in Hw as [-> _]. destruct (lexes_words _ _ Hl ltac:(lia) _ Hw') as (? & ? & _). simpl. lia.
  - apply Hhd in Hw' as [-> He']. destruct (lexes_words _ _ Hl ltac:(lia) _ Hw) as (Hq & Hq' & Hc). simpl. intros Hin.
    assert (w.1 = e) as Heq by lia. specialize (Hc (w.1) ltac:(lia)). rewrite Heq, He' in Hc by lia. done.
  - apply (IH ltac:(lia) w w' Hw Hw').
Qed.
End lexing.

(** A word as the characters between its bounds. *)
Definition content (buf : list Z) (w : word) : list Z := take (w.2 - w.1) (drop w.1 buf).
Definition tmap {A B} (f : A → B) (t : tok A) : tok B := match t with Word w => Word (f w) | Sym c => Sym c end.
Fixpoint cmap {A B} (f : A → B) (c : cmd A) : cmd B :=
  match c with
  | EXEC argv => EXEC (f <$> argv)
  | REDIR c w mode fd => REDIR (cmap f c) (f w) mode fd
  | PIPE l r => PIPE (cmap f l) (cmap f r)
  | LIST l r => LIST (cmap f l) (cmap f r)
  | BACK c => BACK (cmap f c)
  end.

Lemma span_take p l j : (j ≤ length l)%nat → (∀ i c, (i < j)%nat → l !! i = Some c → p c = true) →
  (∀ c, l !! j = Some c → p c = false) → span p l = take j l.
Proof.
  revert j. induction l as [|c l IH]; intros j Hj Hp Hn; simpl in *; [by destruct j|]. destruct j as [|j]; simpl.
  - by rewrite (Hn c eq_refl).
  - rewrite (Hp 0%nat c) by (done || lia). f_equal. apply IH; [lia | | done]. intros i d Hi Hd. apply (Hp (S i)); [lia | done].
Qed.

Section contents.
Context (buf : list Z) (es : nat).
#[local] Notation chr := (chr buf).
Hypothesis chr_es : chr es = 0.
Hypothesis chr_line : ∀ s, (s < es)%nat → chr s ≠ 0.
Hypothesis es_buf : (es < length buf)%nat.
#[local] Notation line := (take es buf).

Lemma drop_line s : (s < es)%nat → drop s line = chr s :: drop (S s) line.
Proof.
  intros Hs. destruct (lookup_lt_is_Some_2 line s) as [c Hc]; [rewrite length_take; lia|]. rewrite (drop_S _ c s) by done.
  f_equal. unfold Shell.chr. rewrite lookup_take_lt in Hc by done. by rewrite Hc.
Qed.

Lemma lookup_line s i c : drop s line !! i = Some c → (s + i < es)%nat ∧ chr (s + i) = c.
Proof.
  rewrite lookup_drop. intros Hc. pose proof (lookup_lt_Some _ _ _ Hc) as Hl. rewrite length_take in Hl. split; [lia|].
  rewrite lookup_take_lt in Hc by lia. unfold Shell.chr. by rewrite Hc.
Qed.

Lemma lex_skip n : ∀ s k, (s + n = es)%nat → (n ≤ k)%nat →
  ∃ k', (es - skip_loop buf n s ≤ k')%nat ∧ lex_loop k (drop s line) = lex_loop k' (drop (skip_loop buf n s) line).
Proof.
  induction n as [|n IH]; intros s k Hs Hk; simpl; [exists k; split; [lia | done]|].
  destruct (strchr whitespace (chr s)) eqn:E; [|exists k; split; [lia | done]].
  destruct k as [|k]; [lia|]. rewrite (drop_line s) by lia. simpl. rewrite E. apply IH; lia.
Qed.

Lemma lexes_lex s ts : lexes buf es s ts → (s ≤ es)%nat → ∀ k, (es - s ≤ k)%nat → tmap (content buf) <$> ts = lex_loop k (drop s line).
Proof.
  induction 1 as [s Hs|s ret e ts Hs Ht Hl IH]; intros Hle k Hk.
  - destruct (lex_skip (es - s) s k) as (k' & Hk' & ->); [lia | lia |]. unfold skip in Hs. rewrite Hs.
    rewrite drop_ge by (rewrite length_take; lia). by destruct k'.
  - destruct (lex_skip (es - s) s k) as (k' & Hk' & ->); [lia | lia |]. fold (skip buf es s) in Hk' |- *.
    destruct (skip_spec buf es s Hle) as (H1 & _ & H3). set (q := skip buf es s) in *.
    pose proof (token_spec buf es chr_es chr_line _ Hs (H3 Hs)) as Hsp. rewrite Ht in Hsp. destruct Hsp as [He Hsp].
    destruct k' as [|k']; [lia|]. rewrite (drop_line q Hs). cbn [lex_loop]. rewrite (H3 Hs), fmap_cons. rewrite <- (drop_line q Hs).
    destruct Hsp as [(-> & Hw & Hc & Hn)|(Hr & Hsym & Hq & Hw & H43 & Hn43 & H62)].
    + unfold wordchar in Hw. rewrite (H3 Hs) in Hw. simpl in Hw. apply negb_true_iff in Hw. rewrite Hw.
      assert (chr q =? 62 = false) as -> by (apply Z.eqb_neq; intros E; rewrite E in Hw; done).
      assert (span wordchar (drop q line) = take (e - q) (drop q line)) as ->.
      { apply span_take; [rewrite length_drop, length_take; lia | |].
        - intros i c Hi [Hi' <-]%lookup_line. apply Hc. lia.
        - intros c [Hi' <-]%lookup_line. replace (q + (e - q))%nat with e in * by lia. by apply Hn. }
      rewrite length_take, length_drop, length_take. replace (Nat.min (e - q) (Nat.min es (length buf) - q)) with (e - q)%nat by lia.
      rewrite drop_drop. replace (q + (e - q))%nat with e by lia. rewrite <- (IH ltac:(lia) k') by lia. f_equal. simpl. f_equal.
      unfold content. simpl. rewrite !take_drop_commute, take_take. do 2 f_equal. lia.
    + rewrite (drop_line q Hs). unfold mktok. rewrite (proj2 (Z.eqb_neq _ _) Hr). cbn [tmap]. unfold symchar in Hq.
      assert (tmap (content buf) <$> ts = lex_loop k' (drop e line)) as -> by (apply IH; lia). rewrite Hq.
      destruct (Z.eqb_spec ret 43) as [->|Hn].
      * destruct (H43 eq_refl) as [Hq2 ->]. change (62 =? 62) with true. cbv iota. rewrite (drop_line (S q)), Hq2 by lia. done.
      * rewrite (Hn43 Hn). destruct (Z.eqb_spec ret 62) as [->|Hn2].
        -- destruct (decide (S q < es)%nat) as [Hlt|Hge]; [|rewrite drop_ge by (rewrite length_take; lia); by destruct k'].
           rewrite (drop_line (S q)) by done. by rewrite (proj2 (Z.eqb_neq _ _) (H62 eq_refl)).
        -- replace (strchr symbols ret) with true; [done|]. symmetry. apply strchr_In. apply strchr_In in Hsym.
           unfold symbols. rewrite !elem_of_cons, elem_of_nil in *. tauto.
Qed.
End contents.

(** ** Grammar and words *)

Lemma cmap_wrap {A B} (f : A → B) rs : ∀ c, cmap f (wrap rs c) = wrap ((λ '(w, mode, fd), (f w, mode, fd)) <$> rs) (cmap f c).
Proof. induction rs as [|[[w mode] fd] rs IH]; intros c; simpl; [done|]. apply (IH (REDIR c w mode fd)). Qed.
Lemma cmap_back {A B} (f : A → B) n c : cmap f (Nat.iter n BACK c) = Nat.iter n BACK (cmap f c).
Proof. induction n as [|n IH]; simpl; [done|]. by rewrite IH. Qed.
Lemma tmap_amps {A B} (f : A → B) n : tmap f <$> replicate n (Sym 38) = replicate n (Sym 38).
Proof. by rewrite fmap_replicate. Qed.

Lemma gredirs_map {A B} (f : A → B) ts rs : gredirs ts rs → gredirs (tmap f <$> ts) ((λ '(w, mode, fd), (f w, mode, fd)) <$> rs).
Proof.
  induction 1 as [|ts r us rs Hr Hg IH]; [apply grs_nil|]. rewrite fmap_app, fmap_cons. apply grs_cons; [|done]. by destruct Hr; constructor.
Qed.
Lemma gargs_map {A B} (f : A → B) ts argv rs : gargs ts argv rs →
  gargs (tmap f <$> ts) (f <$> argv) ((λ '(w, mode, fd), (f w, mode, fd)) <$> rs).
Proof.
  induction 1 as [|w ts rs us argv rs' Hr Hg IH]; [apply ga_nil|]. rewrite !fmap_cons, !fmap_app. apply ga_word; [by apply gredirs_map | done].
Qed.

Lemma grammar_map {A B} (f : A → B) :
  (∀ ts c, gline ts c → gline (tmap f <$> ts) (cmap f c)) ∧
  (∀ ts c, gpipe ts c → gpipe (tmap f <$> ts) (cmap f c)) ∧
  (∀ ts c, gexec ts c → gexec (tmap f <$> ts) (cmap f c)).
Proof.
  apply grammar_ind; intros; rewrite ?fmap_app, ?fmap_cons, ?fmap_app, ?fmap_cons, ?tmap_amps, ?cmap_back, ?cmap_wrap; cbn [cmap tmap];
    rewrite ?cmap_back, ?fmap_app.
  - by apply gl_pipe.
  - by apply gl_list.
  - by apply gp_exec.
  - by apply gp_pipe.
  - apply ge_block; [done | by apply gredirs_map].
  - apply ge_exec; [by apply gredirs_map | by apply gargs_map | by rewrite length_fmap].
Qed.

Section unmap.
Context {A B : Type} (f : A → B).
#[local] Notation tm := (tmap f).
#[local] Notation rm := (λ '(w, mode, fd), (f w, mode, fd) : redir B).

Lemma tmap_sym t c : Sym c = tm t → t = Sym c.
Proof. destruct t; simpl; congruence. Qed.
Lemma tmap_word t w : Word w = tm t → ∃ v, t = Word v ∧ w = f v.
Proof. destruct t; simpl; [|done]. intros [= ->]. eauto. Qed.
Lemma tmap_amps_inv n : ∀ ts, replicate n (Sym 38) = tm <$> ts → ts = replicate n (Sym 38).
Proof.
  induction n as [|n IH]; intros [|t ts]; simpl; try done. intros H. injection H as H1 H2.
  by rewrite (tmap_sym _ _ H1), (IH _ H2).
Qed.

Lemma gredir_unmap us r : gredir us r → ∀ ts, us = tm <$> ts → ∃ r', r = rm r' ∧ gredir ts r'.
Proof.
  intros [w|w|w] [|t [|u [|? ?]]]; simpl; try done; intros H; injection H as H1 H2; apply tmap_sym in H1 as ->;
    apply tmap_word in H2 as (v & -> & ->); eexists (v, _, _); (split; [reflexivity | constructor]).
Qed.
Lemma gredirs_unmap us rs : gredirs us rs → ∀ ts, us = tm <$> ts → ∃ rs', rs = rm <$> rs' ∧ gredirs ts rs'.
Proof.
  induction 1 as [|us1 r us2 rs Hr Hg IH]; intros ts H.
  - symmetry in H. apply fmap_nil_inv in H as ->. exists []. split; [done | apply grs_nil].
  - symmetry in H. apply fmap_app_inv in H as (ts1 & ts2 & -> & -> & ->).
    destruct (gredir_unmap _ _ Hr ts1 eq_refl) as (r' & -> & Hr'). destruct (IH ts2 eq_refl) as (rs' & -> & Hg').
    exists (r' :: rs'). split; [done | by apply grs_cons].
Qed.
Lemma gargs_unmap us argv rs : gargs us argv rs → ∀ ts, us = tm <$> ts →
  ∃ argv' rs', argv = f <$> argv' ∧ rs = rm <$> rs' ∧ gargs ts argv' rs'.
Proof.
  induction 1 as [|w us1 rs1 us2 argv rs2 Hr Hg IH]; intros ts H; symmetry in H.
  - apply fmap_nil_inv in H as ->. exists [], []. split_and!; [done | done | apply ga_nil].
  - apply fmap_cons_inv in H as (t & ts' & Ht & H & ->). symmetry in H. apply fmap_app_inv in H as (ts1 & ts2 & -> & -> & ->).
    apply tmap_word in Ht as (v & -> & ->). destruct (gredirs_unmap _ _ Hr ts1 eq_refl) as (rs1' & -> & Hr').
    destruct (IH ts2 eq_refl) as (argv' & rs2' & -> & -> & Hg'). exists (v :: argv'), (rs1' ++ rs2').
    split_and!; [done | by rewrite fmap_app | by apply ga_word].
Qed.

Lemma grammar_unmap :
  (∀ us d, gline us d → ∀ ts, us = tm <$> ts → ∃ c, d = cmap f c ∧ gline ts c) ∧
  (∀ us d, gpipe us d → ∀ ts, us = tm <$> ts → ∃ c, d = cmap f c ∧ gpipe ts c) ∧
  (∀ us d, gexec us d → ∀ ts, us = tm <$> ts → ∃ c, d = cmap f c ∧ gexec ts c).
Proof.
  apply grammar_ind.
  - intros us d n _ IH ts H. symmetry in H. apply fmap_app_inv in H as (ts1 & ts2 & -> & H & ->).
    apply tmap_amps_inv in H as ->. destruct (IH ts1 eq_refl) as (c & -> & Hc). exists (Nat.iter n BACK c).
    split; [by rewrite cmap_back | by apply gl_pipe].
  - intros us d n us' d' _ IH _ IH' ts H. symmetry in H. apply fmap_app_inv in H as (ts1 & ts2 & -> & H & ->). symmetry in H.
    apply fmap_app_inv in H as (ts3 & ts4 & H3 & H & ->). apply tmap_amps_inv in H3 as ->. symmetry in H.
    apply fmap_cons_inv in H as (t & ts5 & Ht & -> & ->). apply tmap_sym in Ht as ->.
    destruct (IH ts1 eq_refl) as (c & -> & Hc), (IH' ts5 eq_refl) as (c' & -> & Hc'). exists (LIST (Nat.iter n BACK c) c').
    split; [simpl; by rewrite cmap_back | by apply gl_list].
  - intros us d _ IH ts H. destruct (IH ts H) as (c & -> & Hc). exists c. split; [done | by apply gp_exec].
  - intros us d us' d' _ IH _ IH' ts H. symmetry in H. apply fmap_app_inv in H as (ts1 & ts2 & -> & H & ->). symmetry in H.
    apply fmap_cons_inv in H as (t & ts5 & Ht & -> & ->). apply tmap_sym in Ht as ->.
    destruct (IH ts1 eq_refl) as (c & -> & Hc), (IH' ts5 eq_refl) as (c' & -> & Hc'). exists (PIPE c c').
    split; [done | by apply gp_pipe].
  - intros us d us' rs _ IH Hr ts H. symmetry in H. apply fmap_cons_inv in H as (t & ts0 & Ht & H & ->). apply tmap_sym in Ht as ->.
    symmetry in H. apply fmap_app_inv in H as (ts1 & ts2 & -> & H & ->). symmetry in H.
    apply fmap_cons_inv in H as (t & ts5 & Ht & -> & ->). apply tmap_sym in Ht as ->.
    destruct (IH ts1 eq_refl) as (c & -> & Hc). destruct (gredirs_unmap _ _ Hr ts5 eq_refl) as (rs' & -> & Hr').
    exists (wrap rs' c). split; [by rewrite cmap_wrap | by apply ge_block].
  - intros us rs us' argv rs2 Hr Ha Hl ts H. symmetry in H. apply fmap_app_inv in H as (ts1 & ts2 & -> & -> & ->).
    destruct (gredirs_unmap _ _ Hr ts1 eq_refl) as (rs' & -> & Hr'). destruct (gargs_unmap _ _ _ Ha ts2 eq_refl) as (argv' & rs2' & -> & -> & Ha').
    rewrite length_fmap in Hl. exists (wrap (rs' ++ rs2') (EXEC argv')). split; [by rewrite cmap_wrap, fmap_app | by apply ge_exec].
Qed.
End unmap.

(** ** nulterminate *)

(** The words of a command, in the order nulterminate visits them. *)
Fixpoint words {W} (c : cmd W) : list W :=
  match c with
  | EXEC argv => argv
  | REDIR c w _ _ => words c ++ [w]
  | PIPE l r | LIST l r => words l ++ words r
  | BACK c => words c
  end.

Lemma nulterminate_words c : ∀ buf, nulterminate c buf = foldl (λ b w, nul w b) buf (words c).
Proof.
  induction c as [argv|c IH w m fd|l IHl r IHr|l IHl r IHr|c IH]; intros buf; simpl; rewrite ?foldl_app; simpl; congruence.
Qed.

Lemma words_wrap {W} rs : ∀ c : cmd W, words (wrap rs c) = words c ++ ((λ r, r.1.1) <$> rs).
Proof.
  induction rs as [|[[w m] fd] rs IH]; intros c; simpl; [by rewrite app_nil_r|]. rewrite (IH (REDIR c w m fd)). simpl. by rewrite <- app_assoc.
Qed.
Lemma words_back {W} n (c : cmd W) : words (Nat.iter n BACK c) = words c.
Proof. induction n as [|n IH]; simpl; done. Qed.

Lemma gredirs_words {W} (ts : list (tok W)) rs : gredirs ts rs → ∀ w, w ∈ (λ r, r.1.1) <$> rs → Word w ∈ ts.
Proof.
  induction 1 as [|ts r us rs Hr Hg IH]; intros w Hw; [by apply not_elem_of_nil in Hw|]. rewrite fmap_cons in Hw.
  apply elem_of_app. apply elem_of_cons in Hw as [->|Hw]; [left | right; by apply IH]. destruct Hr; simpl; apply elem_of_cons; right; by apply list_elem_of_singleton.
Qed.
Lemma gargs_words {W} (ts : list (tok W)) argv rs : gargs ts argv rs → ∀ w, w ∈ argv ∨ w ∈ (λ r, r.1.1) <$> rs → Word w ∈ ts.
Proof.
  induction 1 as [|v ts rs us argv rs' Hr Hg IH]; intros w Hw; [destruct Hw as [Hw|Hw]; by apply not_elem_of_nil in Hw|].
  rewrite fmap_app, elem_of_cons, elem_of_app in Hw. rewrite elem_of_cons, elem_of_app.
  destruct Hw as [[->|Hw]|[Hw|Hw]]; [by left | right; right; apply IH; by left | right; left; by eapply gredirs_words |
    right; right; apply IH; by right].
Qed.

Lemma grammar_words {W} :
  (∀ (ts : list (tok W)) c, gline ts c → ∀ w, w ∈ words c → Word w ∈ ts) ∧
  (∀ (ts : list (tok W)) c, gpipe ts c → ∀ w, w ∈ words c → Word w ∈ ts) ∧
  (∀ (ts : list (tok W)) c, gexec ts c → ∀ w, w ∈ words c → Word w ∈ ts).
Proof.
  apply grammar_ind; simpl; intros; rewrite ?words_back, ?words_wrap, ?fmap_app, ?elem_of_app in *;
    rewrite ?elem_of_cons, ?elem_of_app, ?elem_of_cons.
  - eauto.
  - destruct_or!; eauto 6.
  - eauto.
  - destruct_or!; eauto 6.
  - destruct_or!; [eauto 6 | right; right; right; by eapply gredirs_words].
  - destruct_or!; [right; eapply gargs_words; eauto | left; by eapply gredirs_words | right; eapply gargs_words; eauto].
Qed.

Lemma nuls_length ws : ∀ buf, length (foldl (λ b w, nul w b) buf ws) = length buf.
Proof. induction ws as [|w ws IH]; intros buf; simpl; [done|]. rewrite IH. unfold nul. apply length_insert. Qed.
Lemma nuls_ne ws i : (∀ w, w ∈ ws → w.2 ≠ i) → ∀ buf, foldl (λ b w, nul w b) buf ws !! i = buf !! i.
Proof.
  induction ws as [|w ws IH]; intros Hi buf; simpl; [done|]. rewrite IH by (intros v Hv; apply Hi, elem_of_cons; by right).
  apply list_lookup_insert_ne. apply Hi, elem_of_cons. by left.
Qed.
Lemma nuls_zero ws i : ∀ buf, buf !! i = Some 0 → foldl (λ b w, nul w b) buf ws !! i = Some 0.
Proof.
  induction ws as [|w ws IH]; intros buf Hi; simpl; [done|]. apply IH. unfold nul. destruct (decide (w.2 = i)) as [->|].
  - apply list_lookup_insert_eq. by eapply lookup_lt_Some.
  - by rewrite list_lookup_insert_ne.
Qed.
Lemma nuls_eq ws (w : word) : w ∈ ws → ∀ buf, (w.2 < length buf)%nat → foldl (λ b w, nul w b) buf ws !! w.2 = Some 0.
Proof.
  induction ws as [|v ws IH]; intros Hw buf Hl; [by apply not_elem_of_nil in Hw|]. simpl.
  apply elem_of_cons in Hw as [<-|Hw]; [|apply IH; [done | unfold nul; by rewrite length_insert]].
  apply nuls_zero. by apply list_lookup_insert_eq.
Qed.

(** The string a pointer into the line points at. *)
Definition cstring (buf : list Z) (q : nat) : list Z := span (λ c, negb (c =? 0)) (drop q buf).

(** After nulterminate the begin of a word points at the word. *)
Lemma nulterminate_strings buf c (w : word) : w ∈ words c →
  (∀ w', w' ∈ words c → ¬ (w.1 ≤ w'.2 < w.2)%nat) → (w.1 < w.2 < length buf)%nat →
  (∀ i, (w.1 ≤ i < w.2)%nat → buf !! i ≠ Some 0) → cstring (nulterminate c buf) w.1 = content buf w.
Proof.
  intros Hw Hd Hl Hz. rewrite nulterminate_words. set (b := foldl _ buf (words c)).
  assert (∀ i, (w.1 ≤ i < w.2)%nat → b !! i = buf !! i) as Hb.
  { intros i Hi. apply nuls_ne. intros w' Hw' E. apply (Hd w' Hw'). lia. }
  unfold cstring, content. rewrite (span_take _ _ (w.2 - w.1)).
  - apply list_eq. intros i. destruct (decide (i < w.2 - w.1)%nat) as [Hi|Hi].
    + rewrite !lookup_take_lt, !lookup_drop by lia. apply Hb. lia.
    + rewrite !lookup_take_ge by lia. done.
  - rewrite length_drop. subst b. rewrite nuls_length. lia.
  - intros i x Hi. rewrite lookup_drop, Hb by lia. intros Hx. apply negb_true_iff, Z.eqb_neq. intros ->. apply (Hz (w.1 + i)%nat); [lia | done].
  - intros x. rewrite lookup_drop. replace (w.1 + (w.2 - w.1))%nat with w.2 by lia. subst b. rewrite (nuls_eq _ w) by (done || lia).
    intros [= <-]. done.
Qed.

Lemma cmap_ext {A B} (f g : A → B) c : (∀ w, w ∈ words c → f w = g w) → cmap f c = cmap g c.
Proof.
  induction c as [argv|c IH w m fd|l IHl r IHr|l IHl r IHr|c IH]; intros H; simpl in *.
  - f_equal. apply list_fmap_ext. intros i x Hx. apply H. by eapply list_elem_of_lookup_2.
  - rewrite IH, H; [done | |]; [|intros v Hv; apply H]; apply elem_of_app; [right; by apply list_elem_of_singleton | by left].
  - rewrite IHl, IHr; [done | |]; intros v Hv; apply H, elem_of_app; auto.
  - rewrite IHl, IHr; [done | |]; intros v Hv; apply H, elem_of_app; auto.
  - by rewrite IH.
Qed.

Lemma strlen_spec buf : 0 ∈ buf → (strlen buf < length buf)%nat ∧ chr buf (strlen buf) = 0 ∧ ∀ s, (s < strlen buf)%nat → chr buf s ≠ 0.
Proof.
  unfold chr. induction buf as [|c buf IH]; intros H0; [by apply not_elem_of_nil in H0|]. simpl.
  destruct (Z.eqb_spec c 0) as [->|Hc]; [split_and!; [lia | done | lia]|].
  destruct IH as (H1 & H2 & H3); [apply elem_of_cons in H0 as [<-|]; done|]. split_and!; [lia | done |].
  intros [|s] Hs; [done|]. apply H3. lia.
Qed.

(** The parse of a line, for every derivation of its tokens. *)
Lemma parseline_derives buf es ts st d : chr buf es = 0 → (∀ s, (s < es)%nat → chr buf s ≠ 0) → (es < length buf)%nat →
  at_toks buf es ts st → (2 * length ts + 1 ≤ p_heap st)%nat → gline (tmap (content buf) <$> ts) d →
  ∃ c st', d = cmap (content buf) c ∧ parseline buf es (4 * length buf + 4) st = Ok c st' ∧ at_toks buf es [] st'.
Proof.
  intros Hz Hnz Hes Hat Hh Hd. destruct (proj1 (grammar_unmap (content buf)) _ _ Hd ts eq_refl) as (c & -> & Hc).
  pose proof (at_toks_length buf es Hz Hnz ts st Hat) as Hlen.
  destruct (wp_elim (parseline buf es (4 * length buf + 4)) (λ c' st', c' = c ∧ at_toks buf es [] st') st) as (c' & st' & Hr & -> & Hat').
  - eapply wp_mono; [apply (proj1 (parse_complete buf es Hz Hnz Hes) ts c Hc _ [] st)|].
    + by left.
    + by rewrite app_nil_r.
    + lia.
    + done.
    + intros c' st' (-> & Hat' & _). done.
  - eauto.
Qed.

(** C13. parsecmd decides the grammar: for every line and enough memory it
    terminates without reading or writing outside the line; if it returns, the
    command it returns, with its words read as the strings in the terminated
    line, is the one command that the tokens of the line derive, and if it
    stops with a message they derive none. *)
Theorem parsecmd_correct buf st : 0 ∈ buf → (2 * strlen buf + 1 ≤ p_heap st)%nat →
  let line := take (strlen buf) buf in
  match parsecmd buf st with
  | Ok (c, buf') _ => ∀ d, gline (lex line) d ↔ d = cmap (λ w, cstring buf' w.1) c
  | Panic _ => ∀ d, ¬ gline (lex line) d
  | _ => False
  end.
Proof.
  intros H0 Hh line. destruct (strlen_spec buf H0) as (Hes & Hz & Hnz). unfold parsecmd. set (es := strlen buf) in *.
  destruct (lexes_exists buf es Hz Hnz es 0) as (ts & Hl & Hlen); [lia | lia |].
  pose proof (lexes_lex buf es Hz Hnz Hes 0 ts Hl ltac:(lia) es ltac:(lia)) as Hlex. rewrite drop_0 in Hlex.
  assert (lex line = tmap (content buf) <$> ts) as ->.
  { rewrite Hlex. unfold lex, line. by rewrite length_take, Nat.min_l by lia. }
  set (st0 := Pst 0 (p_heap st)). assert (at_toks buf es ts st0) as Hat by (split; [simpl; lia | done]).
  pose proof (λ d, parseline_derives buf es ts st0 d Hz Hnz Hes Hat ltac:(simpl; lia)) as Hcomp.
  pose proof (proj1 (parse_sound buf es Hz Hnz Hes (4 * length buf + 4)) ts st0) as Hsound.
  unfold ends in Hsound. specialize (Hsound ltac:(split_and!; [done | lia | simpl; lia])).
  rewrite (bind_ok (modify _) _ _ tt st0) by done. unfold mbind, M_bind.
  destruct (parseline buf es (4 * length buf + 4) st0) as [c st1| | |] eqn:Hr; try done.
  2:{ intros d Hd. destruct (Hcomp d Hd) as (? & ? & _ & ? & _). congruence. }
  destruct Hsound as (ts1 & rest & -> & Hg & Hat1 & _). unfold peek, gets, modify, mret, M_ret. simpl.
  destruct (Nat.eqb_spec (skip buf es (p_pos st1)) es) as [E|E]; simpl.
  2:{ intros d Hd. destruct (Hcomp d Hd) as (? & ? & _ & Hr' & Hat'). injection Hr' as <- <-. apply E.
      destruct Hat' as [_ Hl']. by inversion Hl'. }
  assert (rest = []) as -> by (destruct Hat1 as [_ Hl1]; inversion Hl1; [done | lia]). rewrite app_nil_r in *.
  assert (cmap (λ w, cstring (nulterminate c buf) w.1) c = cmap (content buf) c) as ->.
  { apply cmap_ext. intros w Hw. pose proof (proj1 grammar_words _ _ Hg) as Hin.
    destruct (lexes_words buf es Hz Hnz Hes 0 _ Hl ltac:(lia) w (Hin w Hw)) as (Hw1 & Hw2 & Hw3).
    apply nulterminate_strings; [done | | lia |].
    - intros w' Hw'. apply (lexes_disjoint buf es Hz Hnz Hes 0 ts1 Hl); [lia | auto | auto].
    - intros i Hi Hi0. apply (Hnz i); [lia|]. unfold chr. by rewrite Hi0. }
  intros d. split; [|intros ->; by apply (proj1 (grammar_map (content buf)))].
  intros Hd. destruct (Hcomp d Hd) as (c' & ? & -> & Hr' & _). by injection Hr' as <- _.
Qed.

(** "ls <f|b&" *)
Lemma parsecmd_correct_witness :
  gline (lex [108; 115; 32; 60; 102; 124; 98; 38; 10]) (BACK (PIPE (REDIR (EXEC [[108; 115]]) [102] O_RDONLY 0) (EXEC [[98]]))).
Proof.
  assert (0 ∈ [108; 115; 32; 60; 102; 124; 98; 38; 10; 0; 0]) as H0 by (apply strchr_In; reflexivity).
  pose proof (parsecmd_correct [108; 115; 32; 60; 102; 124; 98; 38; 10; 0; 0] (Pst 0 50) H0 ltac:(simpl; lia)) as H.
  vm_compute in H. by apply H.
Defined.
