(* ===== verification/ShRun.v ===== *)
(** * ShRun: running commands (runcmd and main of sh.c)

    A process of the shell is a table of descriptors, each closed or an open
    file named by a number; close, dup, pipe and open are what sysfile.c makes
    of them, a new descriptor being the lowest closed one.  What runcmd does is
    the tree of the processes it creates: where one forks, the tree has the
    child and the parent.  Which programs can be executed and which files
    opened are arguments; the number of forks that succeed is part of the
    state.  The state is passed through the child first; it only names the new
    files and counts the forks.

    Shown: with 0, 1 and 2 open, which main sees to, redirections and pipes
    replace exactly the descriptors they name, so that the two ends of a pipe
    are held by the two sides of it alone; main hands every line of its input
    to a child in order, and the name of a cd line to chdir. *)

From Stdlib Require Import ZArith Lia Bool.
From stdpp Require Import base option list strings numbers.
From S2P Require Import Prelude Cstring Fmt Ulib Shell.

#[local] Open Scope string_scope.
#[local] Open Scope list_scope.
#[local] Open Scope Z_scope.

Definition NOFILE : nat := 16.
Notation fdt := (list (option Z)).

Inductive ptree :=
  | PExec (argv : list (list Z)) (fds : fdt)
  | PExit (msg : option string)
  | PFork (child parent : ptree)
  | PWait (rest : ptree).

(** The next open file, and the forks to come. *)
Record world := World { w_next : Z; w_forks : nat }.

Section runcmd.
(** exec of the program succeeds; the files that can be opened. *)
Context (exec_ok : list (list Z) → bool) (open_ok : list Z → Z → bool).

(** The lowest closed descriptor. *)
Fixpoint lowest (fds : fdt) : option nat :=
  match fds with
  | [] => None
  | None :: _ => Some O
  | Some _ :: fds => S <$> lowest fds
  end.
Definition close (fd : nat) (fds : fdt) : fdt := <[fd := None]> fds.
(** A descriptor for [f], or None where all are open. *)
Definition fdalloc (f : Z) (fds : fdt) : option (nat * fdt) := fd ← lowest fds; Some (fd, <[fd := Some f]> fds).
(** The result is not looked at. *)
Definition dup (fd : nat) (fds : fdt) : fdt :=
  match fds !! fd with
  | Some (Some f) => match fdalloc f fds with Some (_, fds) => fds | None => fds end
  | _ => fds
  end.
Definition pipe (fds : fdt) (w : world) : option (nat * nat * fdt * world) :=
  '(p0, fds) ← fdalloc (w_next w) fds;
  '(p1, fds) ← fdalloc (w_next w + 1) fds;
  Some (p0, p1, fds, World (w_next w + 2) (w_forks w)).
Definition open (file : list Z) (mode : Z) (fds : fdt) (w : world) : option (nat * fdt * world) :=
  if open_ok file mode then
    '(fd, fds) ← fdalloc (w_next w) fds;
    Some (fd, fds, World (w_next w + 1) (w_forks w))
  else None.
Definition fork1 (w : world) : option world :=
  match w_forks w with O => None | S n => Some (World (w_next w) n) end.

Fixpoint runcmd (c : cmd (list Z)) (fds : fdt) (w : world) : ptree * world :=
  match c with
  | EXEC argv =>
      match argv with
      | [] => (PExit None, w)
      | _ :: _ => if exec_ok argv then (PExec argv fds, w) else (PExit (Some "exec failed"), w)
      end
  | REDIR c file mode fd =>
      let fds := close (Z.to_nat fd) fds in
      match open file mode fds w with
      | None => (PExit (Some "open failed"), w)
      | Some (_, fds, w) => runcmd c fds w
      end
  | LIST l r =>
      match fork1 w with
      | None => (PExit (Some "fork"), w)
      | Some w =>
          let '(tl, w) := runcmd l fds w in
          let '(tr, w) := runcmd r fds w in
          (PFork tl (PWait tr), w)
      end
  | PIPE l r =>
      match pipe fds w with
      | None => (PExit (Some "pipe"), w)
      | Some (p0, p1, fds, w) =>
          match fork1 w with
          | None => (PExit (Some "fork"), w)
          | Some w =>
              let '(tl, w) := runcmd l (close p1 (close p0 (dup p1 (close 1 fds)))) w in
              match fork1 w with
              | None => (PFork tl (PExit (Some "fork")), w)
              | Some w =>
                  let '(tr, w) := runcmd r (close p1 (close p0 (dup p0 (close 0 fds)))) w in
                  (PFork tl (PFork tr (PWait (PWait (PExit None)))), w)
              end
          end
      end
  | BACK c =>
      match fork1 w with
      | None => (PExit (Some "fork"), w)
      | Some w => let '(t, w) := runcmd c fds w in (PFork t (PExit None), w)
      end
  end.

(** ** What a command means *)

(** Descriptors by name: a redirection or a pipe replaces one. *)
Fixpoint meaning (c : cmd (list Z)) (fds : fdt) (w : world) : ptree * world :=
  match c with
  | EXEC argv => runcmd (EXEC argv) fds w
  | REDIR c file mode fd =>
      if open_ok file mode then meaning c (<[Z.to_nat fd := Some (w_next w)]> fds) (World (w_next w + 1) (w_forks w))
      else (PExit (Some "open failed"), w)
  | LIST l r =>
      match fork1 w with
      | None => (PExit (Some "fork"), w)
      | Some w =>
          let '(tl, w) := meaning l fds w in
          let '(tr, w) := meaning r fds w in
          (PFork tl (PWait tr), w)
      end
  | PIPE l r =>
      let rd := w_next w in
      let wr := w_next w + 1 in
      let w := World (w_next w + 2) (w_forks w) in
      match fork1 w with
      | None => (PExit (Some "fork"), w)
      | Some w =>
          let '(tl, w) := meaning l (<[1%nat := Some wr]> fds) w in
          match fork1 w with
          | None => (PFork tl (PExit (Some "fork")), w)
          | Some w =>
              let '(tr, w) := meaning r (<[0%nat := Some rd]> fds) w in
              (PFork tl (PFork tr (PWait (PWait (PExit None)))), w)
          end
      end
  | BACK c =>
      match fork1 w with
      | None => (PExit (Some "fork"), w)
      | Some w => let '(t, w) := meaning c fds w in (PFork t (PExit None), w)
      end
  end.

(** The standard descriptors are open and two others are closed. *)
Definition std_open (fds : fdt) : Prop := ∀ i, (i < 3)%nat → ∃ f, fds !! i = Some (Some f).
Definition two_closed (fds : fdt) : Prop := ∃ i j, (2 < i < j)%nat ∧ fds !! i = Some None ∧ fds !! j = Some None.
Definition fds_ok (fds : fdt) : Prop := std_open fds ∧ two_closed fds.

(** Redirections name 0 or 1, as those of the parser do. *)
Fixpoint redirs_ok {W} (c : cmd W) : Prop :=
  match c with
  | EXEC _ => True
  | REDIR c _ _ fd => (fd = 0 ∨ fd = 1) ∧ redirs_ok c
  | PIPE l r | LIST l r => redirs_ok l ∧ redirs_ok r
  | BACK c => redirs_ok c
  end.

Lemma lowest_spec fds i : fds !! i = Some None → (∀ j, (j < i)%nat → ∃ f, fds !! j = Some (Some f)) → lowest fds = Some i.
Proof.
  revert i. induction fds as [|[f|] fds IH]; intros i Hi Hj; [done| |].
  - destruct i as [|i]; [done|]. simpl. rewrite (IH i); [done | done |]. intros j Hlt. apply (Hj (S j)). lia.
  - destruct i as [|i]; [done|]. destruct (Hj 0%nat) as [f Hf]; [lia | done].
Qed.

Lemma lowest_exists fds i : fds !! i = Some None →
  ∃ k, (k ≤ i)%nat ∧ lowest fds = Some k ∧ fds !! k = Some None ∧ ∀ j, (j < k)%nat → ∃ f, fds !! j = Some (Some f).
Proof.
  revert i. induction fds as [|[f|] fds IH]; intros i Hi; [done| |].
  - destruct i as [|i]; [done|]. destruct (IH i Hi) as (k & Hk & Hl & Hn & Hj). exists (S k). simpl. rewrite Hl.
    split_and!; [lia | done | done |]. intros [|j] Hlt; [by exists f | apply Hj; lia].
  - exists 0%nat. split_and!; [lia | done | done | intros j; lia].
Qed.

Lemma fds_ok_std fds k f : fds_ok fds → (k < 3)%nat → fds_ok (<[k := Some f]> fds).
Proof.
  intros [Hs (i & j & Hij & Hi & Hj)] Hk. split.
  - intros x Hx. destruct (decide (x = k)) as [->|].
    + exists f. apply list_lookup_insert_eq. destruct (Hs k Hk) as [g Hg]. by eapply lookup_lt_Some.
    + rewrite list_lookup_insert_ne by done. by apply Hs.
  - exists i, j. rewrite !list_lookup_insert_ne by lia. done.
Qed.

(** close(k) and an allocation replace the descriptor k. *)
Lemma replace_fd fds k f : std_open fds → (k < 3)%nat → fdalloc f (close k fds) = Some (k, <[k := Some f]> fds).
Proof.
  intros Hs Hk. unfold fdalloc, close. destruct (Hs k Hk) as [g Hg]. pose proof (lookup_lt_Some _ _ _ Hg).
  rewrite (lowest_spec _ k).
  - simpl. by rewrite list_insert_insert_eq.
  - by rewrite list_lookup_insert_eq.
  - intros j Hj. rewrite list_lookup_insert_ne by lia. apply Hs. lia.
Qed.

Lemma pipe_fds fds w : fds_ok fds → ∃ p0 p1, (2 < p0)%nat ∧ (2 < p1)%nat ∧ p0 ≠ p1 ∧ fds !! p0 = Some None ∧ fds !! p1 = Some None ∧
  pipe fds w = Some (p0, p1, <[p1 := Some (w_next w + 1)]> (<[p0 := Some (w_next w)]> fds), World (w_next w + 2) (w_forks w)).
Proof.
  intros [Hs (i & j & Hij & Hi & Hj)]. destruct (lowest_exists fds i Hi) as (p0 & Hp0 & Hl0 & Hn0 & Hlt0).
  assert (2 < p0)%nat as H2 by (destruct (decide (2 < p0)%nat); [done|]; destruct (Hs p0) as [f Hf]; [lia | congruence]).
  set (fds1 := <[p0 := Some (w_next w)]> fds).
  assert (fds1 !! j = Some None) as Hj1 by (subst fds1; by rewrite list_lookup_insert_ne by lia).
  destruct (lowest_exists fds1 j Hj1) as (p1 & Hp1 & Hl1 & Hn1 & Hlt1).
  assert (p0 ≠ p1) as Hne.
  { intros ->. subst fds1. rewrite list_lookup_insert_eq in Hn1 by (by eapply lookup_lt_Some). done. }
  assert (fds !! p1 = Some None) as Hf1 by (subst fds1; by rewrite list_lookup_insert_ne in Hn1 by done).
  assert (2 < p1)%nat as H3 by (destruct (decide (2 < p1)%nat); [done|]; destruct (Hs p1) as [f Hf]; [lia | congruence]).
  exists p0, p1. split_and!; try done. unfold pipe, fdalloc. rewrite Hl0. simpl. fold fds1. by rewrite Hl1.
Qed.

(** One side of a pipe: descriptor [k] becomes the end [p] of it, and the
    descriptors of the pipe are closed. *)
Lemma pipe_side fds p0 p1 a b p f k : std_open fds → (2 < p0)%nat → (2 < p1)%nat → p0 ≠ p1 → fds !! p0 = Some None → fds !! p1 = Some None →
  (k < 3)%nat → let fds' := <[p1 := Some b]> (<[p0 := Some a]> fds) in fds' !! p = Some (Some f) → (2 < p)%nat →
  close p1 (close p0 (dup p (close k fds'))) = <[k := Some f]> fds.
Proof.
  intros Hs H0 H1 Hne Hn0 Hn1 Hk fds' Hp H2. pose proof (lookup_lt_Some _ _ _ Hn0). pose proof (lookup_lt_Some _ _ _ Hn1).
  assert (std_open fds') as Hs' by (intros i Hi; subst fds'; rewrite !list_lookup_insert_ne by lia; by apply Hs).
  unfold dup. unfold close at 3. rewrite list_lookup_insert_ne by lia. rewrite Hp, replace_fd by done. unfold close.
  apply list_eq. intros i. subst fds'. destruct (decide (i = p1)) as [->|Hi1].
  { rewrite list_lookup_insert_eq by (rewrite !length_insert; done). by rewrite list_lookup_insert_ne by lia. }
  rewrite (list_lookup_insert_ne _ p1) by done. destruct (decide (i = p0)) as [->|Hi0].
  { rewrite list_lookup_insert_eq by (rewrite !length_insert; done). by rewrite list_lookup_insert_ne by lia. }
  rewrite (list_lookup_insert_ne _ p0) by done. destruct (decide (i = k)) as [->|Hik].
  - destruct (Hs k Hk) as [g Hg]. pose proof (lookup_lt_Some _ _ _ Hg). by rewrite !list_lookup_insert_eq by (rewrite ?length_insert; done).
  - by rewrite !list_lookup_insert_ne by done.
Qed.

End runcmd.

(** The redirections of a parsed command name 0 or 1. *)
Lemma wrap_redirs_ok {W} (ts : list (tok W)) rs : gredirs ts rs → ∀ c, redirs_ok c → redirs_ok (wrap rs c).
Proof.
  induction 1 as [|ts r us rs Hr Hg IH]; intros c Hc; [done|]. destruct Hr; simpl; apply IH; simpl; auto.
Qed.
Lemma args_redirs_ok {W} (ts : list (tok W)) argv rs : gargs ts argv rs → ∀ c, redirs_ok c → redirs_ok (wrap rs c).
Proof.
  induction 1 as [|w ts rs us argv rs' Hr Hg IH]; intros c Hc; [done|]. unfold wrap in *. rewrite foldl_app. apply IH.
  by apply (wrap_redirs_ok ts rs).
Qed.
Lemma parsed_redirs_ok {W} :
  (∀ (ts : list (tok W)) c, gline ts c → redirs_ok c) ∧ (∀ (ts : list (tok W)) c, gpipe ts c → redirs_ok c) ∧
  (∀ (ts : list (tok W)) c, gexec ts c → redirs_ok c).
Proof.
  assert (∀ n (c : cmd W), redirs_ok c → redirs_ok (Nat.iter n BACK c)) as Hback by (intros n c Hc; by induction n).
  apply grammar_ind; simpl; intros; auto.
  - by eapply wrap_redirs_ok.
  - unfold wrap. rewrite foldl_app. eapply args_redirs_ok; [done|]. by eapply (wrap_redirs_ok ts rs).
Qed.

Section main.
Context (open_ok : list Z → Z → bool).
Definition console_name : list Z := [99; 111; 110; 115; 111; 108; 101].
Definition O_RDWR : Z := 2.

(** while((fd = open("console", O_RDWR)) >= 0) *)
Fixpoint open_console (n : nat) (fds : fdt) (w : world) : option (fdt * world) :=
  match n with
  | O => None
  | S n =>
      match open open_ok console_name O_RDWR fds w with
      | None => Some (fds, w)
      | Some (fd, fds, w) => if (3 <=? fd)%nat then Some (close fd fds, w) else open_console n fds w
      end
  end.

Lemma open_console_S n fds w : open_console (S n) fds w =
  match open open_ok console_name O_RDWR fds w with
  | None => Some (fds, w)
  | Some (fd, fds, w) => if (3 <=? fd)%nat then Some (close fd fds, w) else open_console n fds w
  end.
Proof. done. Qed.

(** main leaves the standard descriptors open, and the others as they were. *)
Lemma open_console_ok fds w : open_ok console_name O_RDWR = true → two_closed fds →
  ∃ fds' w', open_console 4 fds w = Some (fds', w') ∧ fds_ok fds' ∧
    ∀ i, (3 ≤ i)%nat ∨ (∃ f, fds !! i = Some (Some f)) → fds' !! i = fds !! i.
Proof.
  intros Ho Ht.
  assert (∀ n k fds w, (n + k = 3)%nat → (∀ i, (i < k)%nat → ∃ f, fds !! i = Some (Some f)) → two_closed fds →
    ∃ fds' w', open_console (S n) fds w = Some (fds', w') ∧ fds_ok fds' ∧
      ∀ i, (3 ≤ i)%nat ∨ (∃ f, fds !! i = Some (Some f)) → fds' !! i = fds !! i) as Hgen;
    [|apply (Hgen 3%nat 0%nat); [done | intros i; lia | done]].
  clear fds w Ht. induction n as [|n IH]; intros k fds w Hk Hs (i & j & Hij & Hi & Hj);
    destruct (lowest_exists fds i Hi) as (m & Hm & Hl & Hn & Hlt); rewrite open_console_S; unfold open, fdalloc; rewrite Ho, Hl; cbn [mbind option_bind];
    pose proof (lookup_lt_Some _ _ _ Hn) as Hlen.
  - assert (k = 3%nat) as -> by lia. assert (3 ≤ m)%nat as Hm3.
    { destruct (decide (3 ≤ m)%nat); [done|]. destruct (Hs m) as [f Hf]; [lia | congruence]. }
    rewrite (proj2 (Nat.leb_le _ _) Hm3). eexists _, _. split; [done|].
    assert (close m (<[m := Some (w_next w)]> fds) = fds) as ->.
    { unfold close. rewrite list_insert_insert_eq. by apply list_insert_id. }
    split; [|done]. split; [done|]. by exists i, j.
  - destruct (Nat.leb_spec 3 m) as [Hm3|Hm3].
    + eexists _, _. split; [done|]. assert (close m (<[m := Some (w_next w)]> fds) = fds) as ->.
      { unfold close. rewrite list_insert_insert_eq. by apply list_insert_id. }
      split; [|done]. split; [|by exists i, j]. intros x Hx. apply Hlt. lia.
    + assert (∀ x, (x < S k)%nat → ∃ f, <[m := Some (w_next w)]> fds !! x = Some (Some f)) as Hs'.
      { intros x Hx. destruct (decide (x = m)) as [->|]; [rewrite list_lookup_insert_eq by done; eauto|].
        rewrite list_lookup_insert_ne by done. destruct (decide (x < k)%nat); [by apply Hs|]. assert (x = k) as -> by lia.
        apply Hlt. destruct (decide (m < k)%nat) as [Hlt'|]; [|lia]. destruct (Hs m Hlt') as [f Hf]. congruence. }
      destruct (IH (S k) (<[m := Some (w_next w)]> fds) (World (w_next w + 1) (w_forks w))) as (fds' & w' & Hr & Hok & Hsame);
        [lia | done | exists i, j; rewrite !list_lookup_insert_ne by lia; done |].
      exists fds', w'. split; [exact Hr|]. split; [done|]. intros x Hx. rewrite Hsame.
      * rewrite list_lookup_insert_ne; [done|]. intros <-. destruct Hx as [|[f Hf]]; [lia | congruence].
      * destruct Hx as [|[f Hf]]; [by left|]. right. exists f. rewrite list_lookup_insert_ne; [done|]. intros ->. congruence.
Qed.
End main.

(** ** The loop of main *)

(** The string at an address. *)
Fixpoint str_at (n : nat) (m : mem) (a : Z) : list Z :=
  match n with
  | O => []
  | S n => if m a =? 0 then [] else m a :: str_at n m (a + 1)
  end.

Section loop.
Context {W : Type} `{UserSys W}.
(** chdir; fork with a child that runs runcmd(parsecmd(buf)) and the pid for the
    parent; wait. *)
Context (chdir : list Z → M W Z) (fork : list Z → M W Z) (wait : M W unit).

(** "$ " and "cannot cd %s\n" *)
Definition prompt : list Z := [36; 32].
Definition cannot_cd : list Z := [99; 97; 110; 110; 111; 116; 32; 99; 100; 32; 37; 115; 10].

Definition getcmd (buf nbuf : Z) : M (ust W) Z :=
  printf 2 prompt [];;
  modify (λ s, Ust (memset (u_mem s) buf 0 nbuf) (u_os s));;
  ugets buf nbuf;;
  s ← mget;
  mret (if u_mem s buf =? 0 then -1 else 0).

Fixpoint sh_loop (fuel : nat) (buf : Z) : M (ust W) unit :=
  match fuel with
  | O => undef "out of fuel"
  | S fuel =>
      r ← getcmd buf 100;
      if r <? 0 then mret tt else
      s ← mget;
      let m := u_mem s in
      if (m buf =? 99) && (m (buf + 1) =? 100) && (m (buf + 2) =? 32) then
        match Ulib.strlen 101 (λ i, m (buf + i)) 0 with
        | None => undef "unterminated line"
        | Some n => poke (buf + n - 1) 0
        end;;
        s ← mget;
        let dir := str_at 100 (u_mem s) (buf + 3) in
        r ← os (chdir dir);
        when (r <? 0) (printf 2 cannot_cd [Str (Some dir)]);;
        sh_loop fuel buf
      else
        pid ← os (fork (str_at 100 m buf));
        (if pid =? -1 then panic "fork" else mret tt);;
        os wait;;
        sh_loop fuel buf
  end.
End loop.

(** ** What main does with its input *)

Inductive sh_event := EvCd (dir : list Z) | EvRun (line : list Z).
Definition is_cd (body : list Z) : bool := bool_decide (take 3 body = [99; 100; 32]).
Definition event_of (body : list Z) : sh_event := if is_cd body then EvCd (drop 3 body) else EvRun (body ++ [10]).
(** A line without its newline: it fits the buffer and has no other end of line. *)
Definition body_ok (body : list Z) : bool :=
  (length body <=? 98)%nat && forallb (λ c, (0 <? c) && (c <? 256) && negb (c =? 10) && negb (c =? 13)) body.

Lemma str_at_bytes l : ∀ n m a, bytes_at m a (l ++ [0]) → (∀ c, c ∈ l → c ≠ 0) → (length l < n)%nat → str_at n m a = l.
Proof.
  induction l as [|c l IH]; intros n m a Hb H0 Hn; (destruct n as [|n]; [simpl in Hn; lia|]); cbn [str_at].
  - pose proof (Hb 0%nat 0 eq_refl) as Ha. rewrite Z.add_0_r in Ha. by rewrite Ha.
  - pose proof (Hb 0%nat c eq_refl) as Ha. rewrite Z.add_0_r in Ha. rewrite Ha, (proj2 (Z.eqb_neq _ _)) by (apply H0, elem_of_cons; by left).
    f_equal. apply IH; [| intros d Hd; apply H0, elem_of_cons; by right | simpl in Hn; lia].
    intros k d Hk. rewrite <- (Hb (S k) d Hk). f_equal. lia.
Qed.

Lemma strlen_bytes l : ∀ n s k, (∀ i c, (l ++ [0]) !! i = Some c → s (k + Z.of_nat i) = c) → (∀ c, c ∈ l → c ≠ 0) → (length l < n)%nat →
  Ulib.strlen n s k = Some (k + Z.of_nat (length l)).
Proof.
  induction l as [|c l IH]; intros n s k Hb H0 Hn; (destruct n as [|n]; [simpl in Hn; lia|]); cbn [Ulib.strlen].
  - pose proof (Hb 0%nat 0 eq_refl) as Ha. rewrite Z.add_0_r in Ha. by rewrite Ha, Z.add_0_r.
  - pose proof (Hb 0%nat c eq_refl) as Ha. rewrite Z.add_0_r in Ha. rewrite Ha, (proj2 (Z.eqb_neq _ _)) by (apply H0, elem_of_cons; by left).
    rewrite IH; [f_equal; simpl; lia | | intros d Hd; apply H0, elem_of_cons; by right | simpl in Hn; lia].
    intros i d Hi. rewrite <- (Hb (S i) d Hi). f_equal. lia.
Qed.

Lemma first_line_body body rest : ∀ k, (length body < k)%nat →
  forallb (λ c, (0 <? c) && (c <? 256) && negb (c =? 10) && negb (c =? 13)) body = true → first_line k (body ++ 10 :: rest) = body ++ [10].
Proof.
  induction body as [|c body IH]; intros k Hk Hb; (destruct k as [|k]; [simpl in Hk; lia|]); simpl in *; [done|].
  apply andb_prop in Hb as [Hc Hb]. rewrite (proj2 (orb_false_iff _ _)) by lia. f_equal. apply IH; [lia | done].
Qed.

Section lines.
Context {W : Type} `{UserSys W} (chdir : list Z → M W Z) (fork : list Z → M W Z) (wait : M W unit).
Context (stdin : W → list Z) (trace : W → list sh_event).
(** read(0, &c, 1) takes the next byte of the standard input. *)
Hypothesis read_stdin : ∀ w, match stdin w with
  | [] => ∃ r w', us_read 0 1 w = Ok r w' ∧ (r = None ∨ r = Some []) ∧ stdin w' = []
  | c :: l => is_byte c ∧ ∃ w', us_read 0 1 w = Ok (Some [c]) w' ∧ stdin w' = l
  end.
Hypothesis read_trace : ∀ w r w', us_read 0 1 w = Ok r w' → trace w' = trace w.
Hypothesis write_ok : ∀ fd l w, ∃ r w', us_write fd l w = Ok r w' ∧ stdin w' = stdin w ∧ trace w' = trace w.
Hypothesis chdir_ok : ∀ d w, ∃ r w', chdir d w = Ok r w' ∧ stdin w' = stdin w ∧ trace w' = trace w ++ [EvCd d].
(** fork succeeds, and the child does not read the input of the shell. *)
Hypothesis fork_ok : ∀ l w, ∃ pid w', fork l w = Ok pid w' ∧ pid ≠ -1 ∧ stdin w' = stdin w ∧ trace w' = trace w ++ [EvRun l].
Hypothesis wait_ok : ∀ w, ∃ w', wait w = Ok tt w' ∧ stdin w' = stdin w ∧ trace w' = trace w.

Lemma wp_printf fd fmt args l (Q : unit → ust W → Prop) s : printf_chars fmt args = Some l →
  (∀ w, stdin w = stdin (u_os s) → trace w = trace (u_os s) → Q tt (Ust (u_mem s) w)) → wp (printf fd fmt args) Q s.
Proof.
  intros Hl HQ. unfold printf. rewrite Hl.
  apply (wp_foreach (λ _ t, u_mem t = u_mem s ∧ stdin (u_os t) = stdin (u_os s) ∧ trace (u_os t) = trace (u_os s))).
  - done.
  - intros l1 x l2 t _ (H1 & H2 & H3). unfold putc. wp_step. apply zoom_wp. destruct (write_ok fd [u8 x] (u_os t)) as (r & w' & Hw & E1 & E2).
    eapply wp_ok; [exact Hw|]. wp_step. simpl. split_and!; congruence.
  - intros [m w] (H1 & H2 & H3). simpl in *. subst m. by apply HQ.
Qed.

Lemma gets_loop_trace k : ∀ buf i s r s', gets_loop k buf i s = Ok r s' → trace (u_os s') = trace (u_os s).
Proof.
  induction k as [|k IH]; intros buf i s r s' Hr; [by injection Hr as <- <-|]. cbn [gets_loop] in Hr.
  apply bind_inv in Hr as (x & s1 & H1 & Hr). unfold os, zoom in H1. destruct (us_read 0 1 (u_os s)) as [y w| | |] eqn:Hu; try done.
  injection H1 as <- <-. apply read_trace in Hu. destruct y as [[|c l]|]; [by injection Hr as <- <- | | by injection Hr as <- <-].
  apply bind_inv in Hr as (x & s2 & H2 & Hr). injection H2 as <- <-.
  destruct ((c =? 10) || (c =? 13)); [by injection Hr as <- <-|]. apply IH in Hr. by rewrite Hr.
Qed.

Lemma ugets_trace buf max s r s' : ugets buf max s = Ok r s' → trace (u_os s') = trace (u_os s).
Proof.
  intros Hr. unfold ugets in Hr. apply bind_inv in Hr as (i & s1 & H1 & Hr). apply gets_loop_trace in H1. by injection Hr as <- <-.
Qed.

(** getcmd stores the next line, or returns -1 at the end of the input. *)
Lemma wp_getcmd buf (Q : Z → ust W → Prop) s : let l := first_line 99 (stdin (u_os s)) in
  (∀ s', bytes_at (u_mem s') buf (l ++ [0]) → stdin (u_os s') = drop (length l) (stdin (u_os s)) → trace (u_os s') = trace (u_os s) →
     Q (if bget0 (l ++ [0]) 0 =? 0 then -1 else 0) s') → wp (getcmd buf 100) Q s.
Proof.
  intros l HQ. unfold getcmd. wp_step. eapply wp_printf; [reflexivity|]. intros w Hs Ht. wp_steps.
  set (s1 := Ust _ _). destruct (ugets_line stdin read_stdin buf 100 s1) as (s2 & H1 & Hb & _ & _ & Hd); [lia|].
  eapply wp_ok; [exact H1|]. apply ugets_trace in H1. wp_steps. simpl u_os in *. change (Z.to_nat (100 - 1)) with 99%nat in *.
  rewrite Hs in Hb, Hd. fold l in Hb, Hd.
  assert (u_mem s2 buf = bget0 (l ++ [0]) 0) as ->.
  { unfold bget0. change (Z.to_nat 0) with 0%nat. destruct ((l ++ [0]) !! 0%nat) as [c|] eqn:E.
    - rewrite <- (Z.add_0_r buf) at 1. by apply (Hb 0%nat).
    - by destruct l. }
  apply HQ; [done | done | congruence].
Qed.

Lemma bytes_nonzero body : forallb (λ c, (0 <? c) && (c <? 256) && negb (c =? 10) && negb (c =? 13)) body = true → ∀ c, c ∈ body → 0 < c < 256.
Proof. intros Hb c Hc%list_elem_of_In. rewrite forallb_forall in Hb. specialize (Hb c Hc). lia. Qed.

(** The test for "cd ". *)
Lemma cd_test m buf body : bytes_at m buf ((body ++ [10]) ++ [0]) →
  (m buf =? 99) && (m (buf + 1) =? 100) && (m (buf + 2) =? 32) = is_cd body.
Proof.
  intros Hm. assert (∀ i c, ((body ++ [10]) ++ [0]) !! i = Some c → m (buf + Z.of_nat i) = c) as Hb by done.
  pose proof (Hb 0%nat) as H0. pose proof (Hb 1%nat) as H1. pose proof (Hb 2%nat) as H2. rewrite Z.add_0_r in H0.
  change (Z.of_nat 1) with 1 in H1. change (Z.of_nat 2) with 2 in H2. unfold is_cd.
  destruct body as [|a [|b [|c body]]]; cbn [app lookup list_lookup] in H0, H1, H2.
  - by rewrite (H0 _ eq_refl).
  - rewrite (H0 _ eq_refl), (H1 _ eq_refl). rewrite bool_decide_eq_false_2 by done. by destruct (a =? 99).
  - rewrite (H0 _ eq_refl), (H1 _ eq_refl), (H2 _ eq_refl). rewrite bool_decide_eq_false_2 by done. by destruct (a =? 99), (b =? 100).
  - rewrite (H0 _ eq_refl), (H1 _ eq_refl), (H2 _ eq_refl). cbn [take]. rewrite take_0. apply eq_true_iff_eq.
    rewrite !andb_true_iff, !Z.eqb_eq, bool_decide_eq_true. split; [by intros [[-> ->] ->] | by intros [= -> -> ->]].
Qed.

(** chdir gets the name without the newline. *)
Lemma cd_name m buf body : is_cd body = true → (length body ≤ 98)%nat → (∀ c, c ∈ body → 0 < c < 256) →
  bytes_at m buf ((body ++ [10]) ++ [0]) →
  str_at 100 (store8 m (buf + Z.of_nat (length body)) 0) (buf + 3) = drop 3 body.
Proof.
  intros Hcd%bool_decide_eq_true_1 Hl H0 Hm.
  assert (body = [99; 100; 32] ++ drop 3 body) as Hb by (rewrite <- Hcd; by rewrite take_drop).
  set (d := drop 3 body) in *. rewrite Hb in *. clear Hb. apply str_at_bytes.
  - intros k c Hk. unfold store8. apply lookup_app_Some in Hk as [Hk|[Hk1 Hk2]].
    + pose proof (lookup_lt_Some _ _ _ Hk). rewrite length_app in *. simpl length in *. rewrite (proj2 (Z.eqb_neq _ _)) by lia.
      rewrite <- (Hm (3 + k)%nat c); [f_equal; lia|]. simpl. rewrite <- app_assoc. by apply lookup_app_l_Some.
    + apply list_lookup_singleton_Some in Hk2 as [Hk2 <-]. rewrite (proj2 (Z.eqb_eq _ _)); [done|]. rewrite length_app. simpl. lia.
  - intros c Hc. assert (0 < c < 256); [|lia]. apply H0. apply elem_of_app. by right.
  - rewrite length_app in Hl. simpl in Hl. lia.
Qed.

Lemma wp_sh_line fuel buf body rest (Q : unit → ust W → Prop) s : body_ok body = true → stdin (u_os s) = body ++ 10 :: rest →
  (∀ s', stdin (u_os s') = rest → trace (u_os s') = trace (u_os s) ++ [event_of body] → wp (sh_loop chdir fork wait fuel buf) Q s') →
  wp (sh_loop chdir fork wait (S fuel) buf) Q s.
Proof.
  intros Hok Hin HQ. apply andb_prop in Hok as [Hlen%Nat.leb_le Hb]. pose proof (bytes_nonzero _ Hb) as H0.
  cbn [sh_loop]. wp_step. apply wp_getcmd. rewrite Hin. rewrite first_line_body by (done || lia). intros s1 Hm Hs1 Ht1.
  replace (drop (length (body ++ [10])) (body ++ 10 :: rest)) with rest in Hs1
    by (replace (body ++ 10 :: rest) with ((body ++ [10]) ++ rest) by (by rewrite <- app_assoc); by rewrite drop_app_length).
  assert ((if bget0 ((body ++ [10]) ++ [0]) 0 =? 0 then -1 else 0) <? 0 = false) as ->.
  { destruct body as [|c body]; [done|]. change (bget0 (((c :: body) ++ [10]) ++ [0]) 0) with c.
    rewrite (proj2 (Z.eqb_neq _ _)); [done|]. assert (0 < c < 256); [|lia]. apply H0, elem_of_cons. by left. }
  wp_steps. rewrite (cd_test _ _ _ Hm). unfold event_of in HQ. destruct (is_cd body) eqn:Hcd.
  - rewrite (strlen_bytes (body ++ [10]) 101 _ 0).
    + rewrite length_app, Z.add_0_l, Nat2Z.inj_add. replace (buf + (Z.of_nat (length body) + Z.of_nat (length [10])) - 1) with (buf + Z.of_nat (length body)) by (simpl; lia).
      unfold poke. wp_steps. simpl u_mem. rewrite (cd_name _ _ body) by done. apply zoom_wp. simpl u_os.
      destruct (chdir_ok (drop 3 body) (u_os s1)) as (r & w' & Hc & E1 & E2). eapply wp_ok; [exact Hc|]. simpl u_mem. wp_step.
      apply wp_when; intros _.
      * eapply wp_printf; [reflexivity|]. simpl. intros w F1 F2. apply HQ; simpl; congruence.
      * apply HQ; simpl; congruence.
    + intros i c Hi. rewrite Z.add_0_l. by apply Hm.
    + intros c [Hc|Hc]%elem_of_app; [specialize (H0 c Hc); lia|]. apply list_elem_of_singleton in Hc. lia.
    + rewrite length_app. simpl. lia.
  - rewrite (str_at_bytes (body ++ [10])); [|done | |rewrite length_app; simpl; lia].
    2:{ intros c [Hc|Hc]%elem_of_app; [specialize (H0 c Hc); lia|]. apply list_elem_of_singleton in Hc. lia. }
    wp_step. apply zoom_wp. destruct (fork_ok (body ++ [10]) (u_os s1)) as (pid & w' & Hf & Hp & E1 & E2). eapply wp_ok; [exact Hf|].
    rewrite (proj2 (Z.eqb_neq _ _) Hp). wp_steps. apply zoom_wp. simpl u_os. destruct (wait_ok w') as (w2 & Hw & F1 & F2).
    eapply wp_ok; [exact Hw|]. simpl. apply HQ; simpl; congruence.
Qed.

(** main runs its input line by line: for every input of lines that fit
    its buffer, it terminates having handed each line in order to a child, or,
    for a line that begins with "cd ", the rest of the line without its newline
    to chdir. *)
Theorem sh_main_lines lines : ∀ fuel buf s, forallb body_ok lines = true → stdin (u_os s) = concat ((λ b, b ++ [10]) <$> lines) →
  (length lines < fuel)%nat →
  ∃ s', sh_loop chdir fork wait fuel buf s = Ok tt s' ∧ trace (u_os s') = trace (u_os s) ++ (event_of <$> lines) ∧ stdin (u_os s') = [].
Proof.
  intros fuel buf s Hl Hs Hf. apply wp_exact. revert lines buf s Hl Hs Hf.
  induction fuel as [|fuel IH]; intros [|body lines] buf s Hl Hs Hf; simpl in Hf, Hs; try lia.
  - cbn [sh_loop]. wp_step. apply wp_getcmd. rewrite Hs. intros s' _ Hs' Ht'. apply wp_ret. rewrite app_nil_r. done.
  - simpl in Hl. apply andb_prop in Hl as [Hb Hl]. eapply wp_sh_line; [exact Hb | rewrite <- app_assoc in Hs; exact Hs |]. intros s1 Hs1 Ht1.
    eapply wp_mono; [apply (IH lines); [done | done | lia]|]. intros [] s2 (_ & Ht2 & Hs2). split_and!; [done | | done].
    by rewrite Ht2, Ht1, <- app_assoc.
Qed.
End lines.

(** ** Examples *)

(** "a | b > f" *)
Definition run_example : cmd (list Z) := PIPE (EXEC [[97]]) (REDIR (EXEC [[98]]) [102] 513 1).
Definition example_fds : fdt := [Some 0; Some 0; Some 0] ++ replicate 13 None.


(** A shell with its input and the events so far. *)
Record sh_world := ShWorld { sh_in : list Z; sh_trace : list sh_event }.
#[local] Instance sh_sys : UserSys sh_world := {|
  us_read _ _ := λ w, match sh_in w with
    | [] => Ok (Some []) w
    | c :: l => Ok (Some [u8 c]) (ShWorld l (sh_trace w))
    end;
  us_write _ l := mret (Z.of_nat (length l));
  us_open _ _ := mret (-1); us_close _ := mret 0; us_fstat _ := mret None; us_sbrk _ := mret 0
|}.
Definition sh_emit (e : sh_event) : M sh_world unit := modify (λ w, ShWorld (sh_in w) (sh_trace w ++ [e])).

(** "cd d" and "ls" *)
Lemma sh_main_lines_witness : ∃ s',
  sh_loop (λ d, sh_emit (EvCd d);; mret 0) (λ l, sh_emit (EvRun l);; mret 7) (mret tt) 3 1000
    (Ust (λ _, 0) (ShWorld [99; 100; 32; 100; 10; 108; 115; 10] [])) = Ok tt s' ∧
  sh_trace (u_os s') = [EvCd [100]; EvRun [108; 115; 10]].
Proof.
  destruct (sh_main_lines (λ d, sh_emit (EvCd d);; mret 0) (λ l, sh_emit (EvRun l);; mret 7) (mret tt) (λ w, u8 <$> sh_in w) sh_trace)
    with (lines := [[99; 100; 32; 100]; [108; 115]]) (fuel := 3%nat) (buf := 1000)
    (s := Ust (λ _ : Z, 0) (ShWorld [99; 100; 32; 100; 10; 108; 115; 10] [])) as (s' & H1 & H2 & _).
  - intros [[|c l] t]; simpl; [by eexists _, _; split_and!; [done | right | done]|].
    split; [apply u8_byte|]. by eexists.
  - intros [[|c l] t] r w' [= <- <-]; done.
  - intros fd l w. by eexists _, w.
  - intros d w. by eexists _, _.
  - intros l w. by eexists _, _.
  - intros w. by eexists.
  - reflexivity.
  - reflexivity.
  - simpl. lia.
  - exists s'. split; [exact H1 | exact H2].
Defined.

(** main chops the last character of a cd line, also when the line ends with
    the input and not with a newline: "cd ab" changes to "a". *)
Theorem cd_without_newline : ∃ s',
  sh_loop (λ d, sh_emit (EvCd d);; mret 0) (λ l, sh_emit (EvRun l);; mret 7) (mret tt) 2 1000
    (Ust (λ _, 0) (ShWorld [99; 100; 32; 97; 98] [])) = Ok tt s' ∧ sh_trace (u_os s') = [EvCd [97]].
Proof. eexists. split; vm_compute; reflexivity. Qed.
